(* ===== verification/_CoqProject ===== *)
-Q . S2P
Prelude.v
ASCIICType.v
CharSource.v
SegmentedString.v
HTMLInputStream.v
InputStreamPreprocessor.v
HTMLEntitySearch.v
HTMLEntityTable.v
HTMLEntityParser.v
HTMLToken.v
HTMLTokenizer.v
HTMLPreloadScanner.v
TokenizerSafety.v
TokenizerRefinement.v
BackForwardList.v
BackForwardController.v
AdBlock.v
AdBlockStore.v
TextCodecUTF8.v
UTF8Decoding.v
UTF8Streams.v
Base64.v
Base64Correct.v
HTMLStackItem.v
HTMLElementStack.v
HTMLFormattingElementList.v
ContainerNode.v
ContainerNodeLists.v
ContainerNodeCorrect.v
ContainerNodeScripts.v
ContainerNodeTheorems.v
TreeOrder.v
HTMLConstructionSite.v
AdoptionAgency.v
TreeTasks.v
SiteInvariant.v
SiteOperations.v
AdoptionCorrect.v
SiteData.v
TextNodes.v
SiteTheorems.v
PageContent.v
HeadContent.v
InsertText.v
HTMLTreeBuilder.v
TreeBuilderBody.v
TreeBuilderPage.v
TreeBuilderStart.v
TreeBuilderExamples.v
TreeBuilderSafety.v
DocumentParserState.v
HTMLDocumentParser.v
DocumentParserCorrect.v
DocumentParserTheorems.v
