(* ===== verification/Prelude.v ===== *)
(** * Verification of Odyssey Web Browser: from bytes to the document, and the session

    Odyssey is a port of WebKit to MorphOS and AmigaOS. This development verifies
    the code that a page passes through before it becomes a document, and the parts
    of the browser that keep state for the user between pages:

    - the bytes of a page arrive in chunks and are decoded to UTF-16
      ([TextCodecUTF8]), or come out of a data URL ([Base64]);
    - the text is queued as a string of segments ([SegmentedString]), read through a
      layer that normalizes line ends and NULs ([InputStreamPreprocessor]) and cut
      into tokens by a state machine of 71 states ([HTMLTokenizer], [HTMLToken]),
      which decodes character references on its way ([HTMLEntityParser],
      [HTMLEntitySearch], [HTMLEntityTable]);
    - the tree builder keeps the elements it has open on a stack and the formatting
      elements it may have to open again in a list ([HTMLStackItem],
      [HTMLElementStack], [HTMLFormattingElementList]) and changes the tree of the
      document, as scripts do while they run inside such a change ([ContainerNode]);
      it does so through a construction site that makes the nodes and queues the changes
      ([HTMLConstructionSite]), and it mends misnested formatting elements with the
      adoption agency algorithm ([AdoptionAgency]);
    - the document parser ([HTMLDocumentParser]) drives all of them: it keeps the input stream
      ([HTMLInputStream]), pumps tokens to the tree builder, stops for scripts, runs them and lets
      them write to the stream, yields to its scheduler and ends the document; while it waits for a
      script a second tokenizer reads ahead in its input ([HTMLPreloadScanner]);
    - the view keeps a session history ([BackForwardList]) that the page moves in
      through a controller ([BackForwardController]);
    - each request is checked against the user's rules ([AdBlock], [AdBlockStore]).

    ** Files and the code they model

    All sources are under [src/Source]; operations keep the names of the code.

    - [Prelude]: machine integers, the state monad [M] whose [None] is a fault, the
      build configuration [Build] that turns assertions on and off, weakest
      preconditions [wp] and forward simulations [sim], with their rules.
    - [ASCIICType]: [WTF/wtf/ASCIICType.h].
    - [CharSource]: the interface (a class with laws) the preprocessor, the entity
      parser and the tokenizer require of their input, and its reference instance,
      the plain list of characters.
    - [SegmentedString]: [WebCore/platform/text/SegmentedString.{h,cpp}]; the record
      of the same name has the fields of the class, fast-path flags and the advance
      function pointers (as an enumeration) included.
    - [HTMLInputStream]: [WebCore/html/parser/HTMLInputStream.h] and the moves of segmented
      strings; the insertion point records on the stack of the program are a list.
    - [InputStreamPreprocessor]: [WebCore/html/parser/InputStreamPreprocessor.h].
    - [HTMLEntitySearch]: [HTMLEntitySearch.{h,cpp}], against a class that states
      what the generated table promises; [HTMLEntityTable]: the table built from
      [HTMLEntityNames.in], and the proof of its laws.
    - [HTMLEntityParser]: [HTMLEntityParser.cpp] and
      [xml/parser/CharacterReferenceParserInlines.h].
    - [HTMLToken], [HTMLTokenizer]: the classes of these names and the macros of
      [xml/parser/MarkupTokenizerInlines.h]; [HTMLPreloadScanner]: the scanner of
      [HTMLPreloadScanner.cpp], its source, its tokenizer and its loop, with the tokens it hands on;
      [TokenizerSafety] and [TokenizerRefinement]: the proofs about them.
    - [BackForwardList]: [WebKitLegacy/mui/BackForwardList.{h,cpp}];
      [BackForwardController]: [WebCore/history/BackForwardController.cpp],
      [Page::goToItem] and the going to an item of [loader/HistoryController.cpp].
    - [AdBlock]: the rules of [WebCore/loader/AdBlock.cpp] and their rewriting to
      regular expressions; [AdBlockStore]: its lists, its cache of decisions and its
      file, and the handlers of the rules window
      ([WebKitLegacy/mui/UI/blockmanagergroupclass.cpp]).
    - [TextCodecUTF8]: [WebCore/platform/text/TextCodecUTF8.{h,cpp}];
      [UTF8Decoding] and [UTF8Streams]: the proofs about one call and about a stream
      of chunks.
    - [Base64]: [WTF/wtf/text/Base64.{h,cpp}]; [Base64Correct]: the proofs.
    - [HTMLStackItem], [HTMLElementStack], [HTMLFormattingElementList]: the classes of
      these names in [WebCore/html/parser]; an element is a name of a node, pointers to
      entries of the list are indices, the records of the stack are a list.
    - [ContainerNode]: [WebCore/dom/ContainerNode.cpp] and [Document::canAcceptChild];
      nodes are records of pointers in a map, scripts any function on the map that runs
      where the code runs listeners. [ContainerNodeLists] (the pointers hold lists of
      children), [ContainerNodeCorrect] (the invariant, the checks),
      [ContainerNodeScripts] (each step with scripts inside) and
      [ContainerNodeTheorems].
    - [HTMLConstructionSite]: [WebCore/html/parser/HTMLConstructionSite.{h,cpp}], with the
      parts of [CharacterData], [Text] and [HTMLTemplateElement] it calls; the nodes are
      those of [ContainerNode].
    - [HTMLTreeBuilder]: [WebCore/html/parser/HTMLTreeBuilder.{h,cpp}] and
      [AtomicHTMLToken.h], every insertion mode; the recursion of the handlers has fuel
      that grows with the stack of open elements. Its two algorithms on misnested tags,
      [callTheAdoptionAgency] and [processAnyOtherEndTagForInBody], are in
      [AdoptionAgency]. [TreeBuilderExamples]: documents parsed by it.
      [TreeBuilderBody], [TreeBuilderPage] and [TreeBuilderStart]: what its handlers do in
      the body, with any token of a page, and before the body; [TreeBuilderSafety]: runs
      from the empty document, and the attributes of its tokens.
    - [HTMLDocumentParser]: [WebCore/html/parser/HTMLDocumentParser.cpp], [HTMLScriptRunner.cpp],
      [HTMLParserScheduler.{h,cpp}] and what scripts call ([Document::write], [open],
      [ScriptElement::prepareScript]); [DocumentParserState]: its data. Scripts are lists of what they do
      to the parser; its operations take the function that performs them as an argument, and what comes
      from outside (data, timers, loaded scripts) are events. [DocumentParserCorrect] and
      [DocumentParserTheorems]: what nested calls keep, and runs of whole pages.
    - The proofs about the tree: [TreeOrder] (what moving nodes does to the ancestors),
      [TreeTasks] (the tasks as operations on lists of children), [SiteInvariant] (what
      holds while tasks wait: the document as it will be when they have run),
      [SiteOperations], [AdoptionCorrect] and [TextNodes] (every operation keeps it),
      [SiteData] (what leaves the text alone), [SiteTheorems] (all sequences of
      operations), [PageContent] and [HeadContent] (the site while the body, or the head, is
      open) and [InsertText] (where text goes).

    ** What the theorems show

    - No faults: one call of the tokenizer from any of its states, and the loop of the preload
      scanner, never fail an assertion, read beyond their input or run for ever, on the reference
      source and, in a debug build, on text without a carriage return ([processToken_safe],
      [scanning_terminates]; with one an assertion can fail, [partialEndTag_assertion_fails]). The same
      holds of the entity parser ([consumeHTMLEntity_correct]), of Base64 ([base64Decode_exact]), of the
      UTF-8 decoder on chunks that leave the length of its buffers within 32 bits ([decode_safe],
      [huge_chunk_overflows]) and of the history list when each operation is allowed
      ([backForwardList_refines]).
    - Refinement: a segmented string is the flat list of its characters, for queries,
      advancing, appending, closing and clearing in both kinds of build, for the look-ahead and
      pushing back in release builds ([segmentedString_refines_list]; in a debug build
      an assertion of pushing back can fail, [pushBack_assertion_fails]). So in release builds the tokenizer gives
      the same tokens on both ([processToken_refines]), and the preload scanner hands on the tokens of
      the flat text ([preloadScanner_scans]). The input stream is a list of texts, whatever scripts insert
      ([input_stream_refines]); the history list is a cursor in a list, which the commands of the
      page move ([goBackOrForward_moves]); the
      content blocker decides as the list of its rules does, whatever its cache
      holds ([shouldBlock_decides]); the stack of open elements is a list of elements
      under every operation ([stack_operations], [scopes_exact]); the pointers of the DOM hold the lists
      of children of its specification, below elements and fragments ([tree_operations_exact]).
    - Under interference: an operation of the DOM on an element or a fragment, with a node that is no
      fragment, keeps the document a tree whatever script runs inside it that keeps it one and
      destroys no node ([tree_survives_scripts]; for others see [fragment_makes_cycle]).
    - Composition: the construction site, the stack, the list and the DOM together build
      a tree from any sequence of requests of the tree builder, misnested ones included, while no
      script runs ([parsing_builds_tree]); text goes where the foster parent rule says, each
      node of it as long as the limit and the break iterator let it be ([text_inserted]). With
      the tree builder on top of them no token of a page fails, whatever came before it,
      and the end of the file finishes the document ([builder_never_fails],
      [end_of_file_completes]). This holds for tokens as the tokenizer gives them, less the start
      tags of [table], [select], [template] and [frameset] and the end tag of [template] ([legal]), in a document that is not a fragment and has
      no custom elements ([PlainDocument]); scripts may not change the document while a
      token is processed ([quiet]); the text is no longer than an [unsigned] can count, in a
      debug build than a text node may be ([textLimit]).
    - The document parser: nested calls are balanced, whatever scripts do ([calls_balanced]); a
      parser that waits for a script takes its input and, in a release build, lets its preload scanner
      scan it, but changes nothing else ([blocked_parser_waits]); and the end of a
      document is not forgotten ([end_not_forgotten]). These hold of runs that return: scripts can make
      the parser fail ([open_in_written_script_crashes]).
    - Agreement with a plain definition: character references
      ([consumeHTMLEntity_correct]), the entity search, the rewriting of rules, the
      UTF-8 decoder ([decode_exact]) and both directions of Base64.
    - Round trips: text through UTF-8 cut anywhere ([encode_decode]), bytes through
      Base64, rules through their file, code points through UTF-16.
    - Where the code does not do what it means to, a theorem says what it does
      ([seam_loses_character], [huge_chunk_overflows], [consumed_count_drifts], [endOfFile_starved],
      [save_before_load_loses_rules], [fragment_makes_cycle], [adoption_makes_cycle],
      [form_end_closes_two], [open_in_written_script_crashes], [beforeload_script_lost],
      [timer_fires_while_yielding] and others).

    ** Conventions, bounds and fuel

    Code units, bytes and C integers are [Z] (sizes and indices into lists are
    [nat]); arithmetic that can wrap is written with [u32], [i32] and the like. A
    loop that is not structural has a fuel argument whose exhaustion is a fault, so
    that the theorems on absence of faults show the fuel to be enough; it is
    computed from the length of the input where the loop is called. The handlers of the tree
    builder that call each other get 16 calls and one for each open element. The document parser gets
    two bounds, for the depth of nested scripts and for the length of each loop: scripts can write
    themselves for ever. Assertions are
    checked in both kinds of build: the theorems hold for debug and release builds
    unless they say otherwise.

    ** Not modelled

    What the preload scanner does with its tokens (the requests of [TokenPreloadScanner]), the
    second preload scanner for text that scripts insert, the auditor for cross-site scripting and the source tracker of the
    document parser, module scripts, the links the tree builder makes of telephone numbers (for another platform), the
    association of controls with forms, the rest of the document (cloning,
    tree scopes, the move between documents, queries), styles, layout, rendering and the
    JavaScript engine, the network back ends and the MUI user interface (input and
    output), and third-party code. Matching a regular
    expression (Yarr) and the directions of characters that are not Latin-1 (ICU)
    are parameters. Memory is not exhausted in the model. *)

From stdpp Require Export prelude gmap.
From Stdlib Require Export ZArith Lia Bool.
From Stdlib Require String Ascii.

#[global] Set Default Goal Selector "!".
#[global] Open Scope Z_scope.

(** ** Machine integers

    [unsigned], [UChar] and [LChar] are unsigned integers of 32, 16 and 8 bits;
    arithmetic on them wraps around. [int] is modelled with two's complement
    wrap-around. *)

Definition u32 (z : Z) : Z := z mod 2 ^ 32.
Definition u16 (z : Z) : Z := z mod 2 ^ 16.
Definition u8 (z : Z) : Z := z mod 2 ^ 8.
Definition i32 (z : Z) : Z := (z + 2 ^ 31) mod 2 ^ 32 - 2 ^ 31.

(** A byte, as a number. *)
Definition isByte (b : Z) : Prop := 0 ≤ b < 256.

(** The code units of a string literal. *)
Definition text (s : String.string) : list Z := (λ c, Z.of_nat (Ascii.nat_of_ascii c)) <$> String.list_ascii_of_string s.

(** ** Computations with a state and a fault

    [M St A] is a computation over a state [St]. The result [None] stands for
    everything the program must never do: a failed [ASSERT], a dereference of a
    null or dangling pointer, a read outside a buffer, or a loop that runs past
    the bound the model gives it. *)

Definition M (St A : Type) : Type := St → option (A * St).

#[global] Instance M_ret {St} : MRet (M St) := λ A a s, Some (a, s).
#[global] Instance M_bind {St} : MBind (M St) := λ A B f m s,
  match m s with
  | Some (a, s') => f a s'
  | None => None
  end.

Definition fault {St A} : M St A := λ _, None.
Definition gets {St A} (f : St → A) : M St A := λ s, Some (f s, s).
Definition modify {St} (f : St → St) : M St unit := λ s, Some (tt, f s).
Definition modifyOpt {St} (f : St → option St) : M St unit := λ s,
  match f s with
  | Some s' => Some (tt, s')
  | None => None
  end.

(** The build configuration: [ASSERT(e)] is checked in a debug build and is no
    code at all in a release build ([ASSERT_DISABLED]). *)
Class Build := { ASSERT_DISABLED : bool }.

Definition ASSERT `{Build} {St} (e : bool) : M St unit :=
  if ASSERT_DISABLED || e then mret tt else fault.

Definition ASSERT_opt `{Build} {A} (e : bool) (x : option A) : option A :=
  if ASSERT_DISABLED || e then x else None.

(** ** Weakest preconditions: [wp m Q s] says that [m] run in [s] does not fault
    and ends in a state and with a result that satisfy [Q]. *)

Definition wp {St A} (m : M St A) (Q : A → St → Prop) (s : St) : Prop :=
  match m s with
  | Some (a, s') => Q a s'
  | None => False
  end.

(** ** Forward simulation between computations over two state types: whenever
    the reference computation [m2] does not fault, [m1] does not fault either,
    returns the same value and ends in a related state. *)

Definition sim {S1 S2 A} (R : S1 → S2 → Prop) (m1 : M S1 A) (m2 : M S2 A) : Prop :=
  ∀ s1 s2, R s1 s2 →
    match m2 s2 with
    | Some (a, s2') => ∃ s1', m1 s1 = Some (a, s1') ∧ R s1' s2'
    | None => True
    end.

(** The same for plain partial functions on the two states. *)
Definition simOpt {S1 S2} (R : S1 → S2 → Prop) (f1 : S1 → option S1) (f2 : S2 → option S2) : Prop :=
  ∀ s1 s2, R s1 s2 →
    match f2 s2 with
    | Some s2' => ∃ s1', f1 s1 = Some s1' ∧ R s1' s2'
    | None => True
    end.

(** ** Lemmas on the machine integers *)

Lemma u32_small z : 0 ≤ z < 2 ^ 32 → u32 z = z.
Proof. apply Z.mod_small. Qed.

Lemma u32_range z : 0 ≤ u32 z < 2 ^ 32.
Proof. by apply Z.mod_pos_bound. Qed.

Lemma u32_add_l a b : u32 (u32 a + b) = u32 (a + b).
Proof. apply Zplus_mod_idemp_l. Qed.

Lemma u32_add_r a b : u32 (a + u32 b) = u32 (a + b).
Proof. apply Zplus_mod_idemp_r. Qed.

Lemma u32_sub_l a b : u32 (u32 a - b) = u32 (a - b).
Proof. apply Zminus_mod_idemp_l. Qed.

Lemma u32_sub_r a b : u32 (a - u32 b) = u32 (a - b).
Proof. apply Zminus_mod_idemp_r. Qed.

Lemma u32_idemp z : u32 (u32 z) = u32 z.
Proof. apply Z.mod_mod. lia. Qed.

Lemma i32_small z : - 2 ^ 31 ≤ z < 2 ^ 31 → i32 z = z.
Proof. intros. unfold i32. rewrite Z.mod_small; lia. Qed.

Lemma lor_le_mask a b n :
  0 ≤ n → 0 ≤ a → 0 ≤ b → Z.lor a b < 2 ^ n ↔ a < 2 ^ n ∧ b < 2 ^ n.
Proof.
  intros Hn Ha Hb.
  assert (Hlt : ∀ x, 0 ≤ x → x < 2 ^ n ↔ x = 0 ∨ Z.log2 x < n).
  { intros x Hx. destruct (decide (x = 0)) as [->|Hne].
    - split; [by left|]. intros _. by apply Z.pow_pos_nonneg.
    - rewrite Z.log2_lt_pow2 by lia. split; [by right|]. by intros [?|?]. }
  rewrite !Hlt by (try apply Z.lor_nonneg; done).
  rewrite Z.lor_eq_0_iff, Z.log2_lor by done.
  pose proof (Z.log2_nonneg a). pose proof (Z.log2_nonneg b).
  destruct (decide (a = 0)) as [->|], (decide (b = 0)) as [->|]; simpl; intuition lia.
Qed.

(** A decidable statement about the integers below a constant is settled by
    evaluating it at each of them. *)
Lemma forall_below (n : nat) (P : Z → bool) :
  forallb P (Z.of_nat <$> seq 0 n) = true → ∀ z, 0 ≤ z < Z.of_nat n → P z = true.
Proof.
  intros H z Hz. rewrite forallb_forall in H. apply H.
  apply list_elem_of_In, list_elem_of_fmap. exists (Z.to_nat z).
  rewrite elem_of_seq. lia.
Qed.

(** ** Lemmas on lists *)

Lemma head_app_Some {A} (l k : list A) c : head l = Some c → head (l ++ k) = Some c.
Proof. by destruct l. Qed.

Lemma tail_app_ne {A} (l k : list A) : l ≠ [] → tail l ++ k = tail (l ++ k).
Proof. by destruct l. Qed.

Lemma fmap_tail {A B} (f : A → B) (l : list A) : f <$> tail l = tail (f <$> l).
Proof. by destruct l. Qed.

Lemma list_filter_all {A} (P : A → Prop) `{∀ x, Decision (P x)} (l : list A) : (∀ x, x ∈ l → P x) → filter P l = l.
Proof.
  intros Hl. induction l as [|x l IH]; [done|]. rewrite filter_cons_True by (apply Hl, list_elem_of_here). f_equal. apply IH.
  intros y Hy. apply Hl. by apply elem_of_cons; right.
Qed.

Lemma list_filter_none {A} (P : A → Prop) `{∀ x, Decision (P x)} (l : list A) : (∀ x, x ∈ l → ¬ P x) → filter P l = [].
Proof.
  intros Hl. induction l as [|x l IH]; [done|]. rewrite filter_cons_False by (apply Hl, list_elem_of_here). apply IH.
  intros y Hy. apply Hl. by apply elem_of_cons; right.
Qed.

Lemma list_filter_ext {A} (P Q : A → Prop) `{∀ x, Decision (P x), ∀ x, Decision (Q x)} (l : list A) :
  (∀ x, x ∈ l → P x ↔ Q x) → filter P l = filter Q l.
Proof.
  intros Hl. induction l as [|x l IH]; [done|]. pose proof (Hl x (list_elem_of_here x l)) as Hx. rewrite !filter_cons, IH by (intros y Hy; apply Hl; by apply elem_of_cons; right).
  destruct (decide (P x)), (decide (Q x)); tauto || done.
Qed.

Lemma Forall_filter {A} (P Q : A → Prop) `{∀ x, Decision (Q x)} (l : list A) : Forall P l → Forall P (filter Q l).
Proof. rewrite !Forall_forall. intros Hl x [_ Hx]%list_elem_of_filter. by apply Hl. Qed.

(** ** Rules of [wp] *)

Lemma wp_ret {St A} (a : A) (Q : A → St → Prop) s : Q a s → wp (mret a) Q s.
Proof. done. Qed.

Lemma wp_bind {St A B} (m : M St A) (f : A → M St B) (Q : B → St → Prop) s :
  wp m (λ a s', wp (f a) Q s') s → wp (m ≫= f) Q s.
Proof. unfold wp, mbind, M_bind. by destruct (m s) as [[? ?]|]. Qed.

Lemma wp_mono {St A} (m : M St A) (Q Q' : A → St → Prop) s :
  wp m Q s → (∀ a s', Q a s' → Q' a s') → wp m Q' s.
Proof. unfold wp. destruct (m s) as [[? ?]|]; eauto. Qed.

Lemma wp_gets {St A} (f : St → A) (Q : A → St → Prop) s : Q (f s) s → wp (gets f) Q s.
Proof. done. Qed.

Lemma wp_modify {St} (f : St → St) (Q : unit → St → Prop) s : Q tt (f s) → wp (modify f) Q s.
Proof. done. Qed.

Lemma wp_ASSERT `{Build} {St} e (Q : unit → St → Prop) s :
  e = true → Q tt s → wp (ASSERT e) Q s.
Proof. intros ->. unfold wp, ASSERT. by rewrite orb_true_r. Qed.

Lemma wp_elim {St A} (m : M St A) (Q : A → St → Prop) s :
  wp m Q s → ∃ a s', m s = Some (a, s') ∧ Q a s'.
Proof. unfold wp. destruct (m s) as [[a s']|]; naive_solver. Qed.

(** ** Rules of [sim] *)

Lemma sim_ret {S1 S2 A} (R : S1 → S2 → Prop) (a : A) : sim R (mret a) (mret a).
Proof. intros s1 s2 HR. simpl. eauto. Qed.

Lemma sim_fault {S1 S2 A} (R : S1 → S2 → Prop) (m : M S1 A) : sim R m fault.
Proof. by intros s1 s2 HR. Qed.

Lemma sim_bind {S1 S2 A B} (R : S1 → S2 → Prop) (m1 : M S1 A) m2 (f1 : A → M S1 B) f2 :
  sim R m1 m2 → (∀ a, sim R (f1 a) (f2 a)) → sim R (m1 ≫= f1) (m2 ≫= f2).
Proof.
  intros Hm Hf s1 s2 HR. specialize (Hm s1 s2 HR).
  unfold mbind, M_bind. destruct (m2 s2) as [[a s2']|]; [|done].
  destruct Hm as (s1' & -> & HR'). by apply Hf.
Qed.

Lemma sim_gets {S1 S2 A} (R : S1 → S2 → Prop) (f1 : S1 → A) f2 :
  (∀ s1 s2, R s1 s2 → f1 s1 = f2 s2) → sim R (gets f1) (gets f2).
Proof. intros Hf s1 s2 HR. simpl. exists s1. unfold gets. by rewrite (Hf _ _ HR). Qed.

Lemma sim_modify {S1 S2} (R : S1 → S2 → Prop) f1 f2 :
  (∀ s1 s2, R s1 s2 → R (f1 s1) (f2 s2)) → sim R (modify f1) (modify f2).
Proof. intros Hf s1 s2 HR. simpl. unfold modify. eauto. Qed.

Lemma sim_ASSERT `{Build} {S1 S2} (R : S1 → S2 → Prop) e : sim R (ASSERT e) (ASSERT e).
Proof. unfold ASSERT. case_match; [apply sim_ret|apply sim_fault]. Qed.

Lemma sim_elim {S1 S2 A} (R : S1 → S2 → Prop) (m1 : M S1 A) m2 s1 s2 a s2' :
  sim R m1 m2 → R s1 s2 → m2 s2 = Some (a, s2') → ∃ s1', m1 s1 = Some (a, s1') ∧ R s1' s2'.
Proof. intros Hs HR E. specialize (Hs s1 s2 HR). by rewrite E in Hs. Qed.

(** ** Automation *)

Create HintDb odyssey.
#[export] Hint Resolve sim_ret sim_fault sim_ASSERT : odyssey.
