(* ===== verification/ASCIICType.v ===== *)
(** * ASCII character classes

    Model of [Source/WTF/wtf/ASCIICType.h]: the character tests and case
    conversions the tokenizer is built on. A [UChar] is a [Z]; the code's bit
    operations are kept. The theorems relate each bit trick to the range of
    characters it stands for. *)

From S2P Require Import Prelude.

(** Characters the sources write as literals. *)
Abbreviation cNul := 0 (only parsing).
Abbreviation cTab := 9 (only parsing).
Abbreviation cLineFeed := 10 (only parsing).
Abbreviation cFormFeed := 12 (only parsing).
Abbreviation cReturn := 13 (only parsing).
Abbreviation cSpace := 32 (only parsing).
Abbreviation cExclamation := 33 (only parsing).
Abbreviation cQuote := 34 (only parsing).
Abbreviation cHash := 35 (only parsing).
Abbreviation cAmpersand := 38 (only parsing).
Abbreviation cApostrophe := 39 (only parsing).
Abbreviation cHyphen := 45 (only parsing).
Abbreviation cSlash := 47 (only parsing).
Abbreviation cZero := 48 (only parsing).
Abbreviation cNine := 57 (only parsing).
Abbreviation cSemicolon := 59 (only parsing).
Abbreviation cLess := 60 (only parsing).
Abbreviation cEqual := 61 (only parsing).
Abbreviation cGreater := 62 (only parsing).
Abbreviation cQuestion := 63 (only parsing).
Abbreviation cUpperA := 65 (only parsing).
Abbreviation cUpperX := 88 (only parsing).
Abbreviation cUpperZ := 90 (only parsing).
Abbreviation cLeftBracket := 91 (only parsing).
Abbreviation cRightBracket := 93 (only parsing).
Abbreviation cGrave := 96 (only parsing).
Abbreviation cLowerA := 97 (only parsing).
Abbreviation cLowerD := 100 (only parsing).
Abbreviation cLowerF := 102 (only parsing).
Abbreviation cLowerP := 112 (only parsing).
Abbreviation cLowerS := 115 (only parsing).
Abbreviation cLowerX := 120 (only parsing).
Abbreviation cLowerZ := 122 (only parsing).
Abbreviation cTilde := 126 (only parsing).

Definition isASCII (character : Z) : bool := Z.land character (Z.lnot 127) =? 0.

Definition isASCIILower (character : Z) : bool :=
  (cLowerA <=? character) && (character <=? cLowerZ).

Definition toASCIILowerUnchecked (character : Z) : Z := Z.lor character 32.

Definition isASCIIAlpha (character : Z) : bool :=
  isASCIILower (toASCIILowerUnchecked character).

Definition isASCIIDigit (character : Z) : bool :=
  (cZero <=? character) && (character <=? cNine).

Definition isASCIIAlphanumeric (character : Z) : bool :=
  isASCIIDigit character || isASCIIAlpha character.

Definition isASCIIHexDigit (character : Z) : bool :=
  isASCIIDigit character
  || ((cLowerA <=? toASCIILowerUnchecked character) && (toASCIILowerUnchecked character <=? cLowerF)).

Definition isASCIIUpper (character : Z) : bool :=
  (cUpperA <=? character) && (character <=? cUpperZ).

Definition toASCIILower (character : Z) : Z :=
  Z.lor character (Z.shiftl (Z.b2z (isASCIIUpper character)) 5).

Definition toASCIIUpper (character : Z) : Z :=
  Z.land character (Z.lnot (Z.shiftl (Z.b2z (isASCIILower character)) 5)).

Definition toASCIIHexValue (character : Z) : Z :=
  if character <? cUpperA then u8 (character - cZero)
  else Z.land (character - cUpperA + 10) 15.

Definition isASCIISpace (character : Z) : bool :=
  (character <=? cSpace) && ((character =? cSpace) || ((character <=? 13) && (9 <=? character))).

Definition isASCIIAlphaCaselessEqual (inputCharacter expectedASCIILowercaseLetter : Z) : bool :=
  toASCIILowerUnchecked inputCharacter =? expectedASCIILowercaseLetter.

Definition lowerNibbleToASCIIHexDigit (value : Z) : Z :=
  let nibble := Z.land value 15 in
  nibble + (if nibble <? 10 then cZero else cUpperA - 10).

Definition upperNibbleToASCIIHexDigit (value : Z) : Z :=
  let nibble := Z.shiftr value 4 in
  nibble + (if nibble <? 10 then cZero else cUpperA - 10).

(** [isTokenizerWhitespace] of [MarkupTokenizerInlines.h]. *)
Definition isTokenizerWhitespace (character : Z) : bool :=
  (character =? cSpace) || (character =? cLineFeed) || (character =? cTab) || (character =? cFormFeed).

(** ** What the tests mean *)

(** A statement about [character | 0x20] landing in the ASCII range is a
    statement about the 128 ASCII characters. *)
Lemma lower_below (P : Z → bool) :
  forallb P (Z.of_nat <$> seq 0 128) = true →
  ∀ c, 0 ≤ c → toASCIILowerUnchecked c < 128 → P c = true.
Proof.
  intros HP c Hc Hlt. apply (forall_below 128); [done|].
  apply (lor_le_mask c 32 7) in Hlt; lia.
Qed.

Lemma isASCIIAlpha_spec c :
  0 ≤ c → isASCIIAlpha c = true ↔ (65 ≤ c ≤ 90) ∨ (97 ≤ c ≤ 122).
Proof.
  intros Hc. unfold isASCIIAlpha, isASCIILower. split.
  - intros H. apply andb_true_iff in H as [? ?].
    assert (Hb : ((65 <=? c) && (c <=? 90)) || ((97 <=? c) && (c <=? 122))
                 || negb (isASCIIAlpha c) = true).
    { refine (lower_below (λ c, ((65 <=? c) && (c <=? 90)) || ((97 <=? c) && (c <=? 122))
                 || negb (isASCIIAlpha c)) _ c Hc _); [by vm_compute|lia]. }
    unfold isASCIIAlpha, isASCIILower in Hb. lia.
  - intros H.
    assert (Hb : isASCIIAlpha c || negb (((65 <=? c) && (c <=? 90)) || ((97 <=? c) && (c <=? 122))) = true).
    { refine (forall_below 128 (λ c, isASCIIAlpha c
        || negb (((65 <=? c) && (c <=? 90)) || ((97 <=? c) && (c <=? 122)))) _ c _); [by vm_compute|lia]. }
    unfold isASCIIAlpha, isASCIILower in Hb. lia.
Qed.

Lemma isASCIIHexDigit_spec c :
  0 ≤ c → isASCIIHexDigit c = true ↔ (48 ≤ c ≤ 57) ∨ (65 ≤ c ≤ 70) ∨ (97 ≤ c ≤ 102).
Proof.
  intros Hc. split.
  - intros H. destruct (isASCIIDigit c) eqn:Hd; [unfold isASCIIDigit in Hd; lia|].
    unfold isASCIIHexDigit in H. rewrite Hd in H. simpl in H.
    apply andb_true_iff in H as [? ?].
    assert (Hb : ((65 <=? c) && (c <=? 70)) || ((97 <=? c) && (c <=? 102))
                 || negb ((97 <=? toASCIILowerUnchecked c) && (toASCIILowerUnchecked c <=? 102)) = true).
    { refine (lower_below (λ c, ((65 <=? c) && (c <=? 70)) || ((97 <=? c) && (c <=? 102))
                 || negb ((97 <=? toASCIILowerUnchecked c) && (toASCIILowerUnchecked c <=? 102))) _ c Hc _);
        [by vm_compute|lia]. }
    lia.
  - intros H.
    assert (Hb : isASCIIHexDigit c || negb (((48 <=? c) && (c <=? 57)) || ((65 <=? c) && (c <=? 70))
                   || ((97 <=? c) && (c <=? 102))) = true).
    { refine (forall_below 128 (λ c, isASCIIHexDigit c || negb (((48 <=? c) && (c <=? 57))
        || ((65 <=? c) && (c <=? 70)) || ((97 <=? c) && (c <=? 102)))) _ c _); [by vm_compute|lia]. }
    destruct (isASCIIHexDigit c); [done|]. simpl in Hb. lia.
Qed.

Lemma toASCIILower_spec c :
  toASCIILower c = if (65 <=? c) && (c <=? 90) then c + 32 else c.
Proof.
  unfold toASCIILower, isASCIIUpper. destruct ((65 <=? c) && (c <=? 90)) eqn:H.
  - assert (Hb : (Z.lor c 32 =? c + 32) = true); [|by apply Z.eqb_eq in Hb].
    assert (Hb : (Z.lor c 32 =? c + 32) || negb ((65 <=? c) && (c <=? 90)) = true).
    { refine (forall_below 128 (λ c, (Z.lor c 32 =? c + 32) || negb ((65 <=? c) && (c <=? 90))) _ c _);
        [by vm_compute|lia]. }
    rewrite H in Hb. by rewrite orb_false_r in Hb.
  - simpl. apply Z.lor_0_r.
Qed.

Lemma alpha_lower c :
  0 ≤ c → isASCIIAlpha c = true → toASCIILowerUnchecked c = toASCIILower c.
Proof.
  intros Hc Ha. rewrite isASCIIAlpha_spec in Ha by done.
  assert (Hb : (toASCIILowerUnchecked c =? toASCIILower c)
               || negb (((65 <=? c) && (c <=? 90)) || ((97 <=? c) && (c <=? 122))) = true).
  { refine (forall_below 128 (λ c, (toASCIILowerUnchecked c =? toASCIILower c)
      || negb (((65 <=? c) && (c <=? 90)) || ((97 <=? c) && (c <=? 122)))) _ c _); [by vm_compute|lia]. }
  lia.
Qed.

Lemma toASCIIHexValue_spec c :
  0 ≤ c → isASCIIHexDigit c = true →
  toASCIIHexValue c = if c <=? 57 then c - 48 else toASCIILower c - 87.
Proof.
  intros Hc Hd. rewrite isASCIIHexDigit_spec in Hd by done.
  assert (Hb : (toASCIIHexValue c =? (if c <=? 57 then c - 48 else toASCIILower c - 87))
               || negb (((48 <=? c) && (c <=? 57)) || ((65 <=? c) && (c <=? 70)) || ((97 <=? c) && (c <=? 102))) = true).
  { refine (forall_below 128 (λ c, (toASCIIHexValue c =? (if c <=? 57 then c - 48 else toASCIILower c - 87))
      || negb (((48 <=? c) && (c <=? 57)) || ((65 <=? c) && (c <=? 70)) || ((97 <=? c) && (c <=? 102)))) _ c _);
      [by vm_compute|lia]. }
  lia.
Qed.

Lemma isASCII_spec c : 0 ≤ c → isASCII c = true ↔ c < 128.
Proof.
  intros Hc. unfold isASCII. rewrite Z.eqb_eq.
  assert (Hnot : Z.lnot 127 = - 2 ^ 7) by done. rewrite Hnot.
  replace (Z.land c (- 2 ^ 7)) with (c - Z.land c (Z.ones 7)).
  - rewrite Z.land_ones by lia. pose proof (Z.div_mod c (2 ^ 7)).
    pose proof (Z.mod_pos_bound c (2 ^ 7)). split; [lia|].
    intros. rewrite Z.mod_small; lia.
  - assert (Hs : Z.land c (Z.ones 7) + Z.land c (- 2 ^ 7) = c); [|lia].
    rewrite Z.add_nocarry_lor.
    + rewrite <-Z.land_lor_distr_r. change (Z.lor (Z.ones 7) (- 2 ^ 7)) with (-1).
      apply Z.land_m1_r.
    + rewrite (Z.land_comm c (- 2 ^ 7)), Z.land_assoc, <-(Z.land_assoc c).
      change (Z.land (Z.ones 7) (- 2 ^ 7)) with 0. by rewrite Z.land_0_r.
Qed.

Lemma isASCIIAlphaCaselessEqual_spec c x :
  0 ≤ c → 97 ≤ x ≤ 122 →
  isASCIIAlphaCaselessEqual c x = true ↔ toASCIILower c = x.
Proof.
  intros Hc Hx. unfold isASCIIAlphaCaselessEqual. rewrite Z.eqb_eq. split.
  - intros H. rewrite <-alpha_lower; [done..|]. unfold isASCIIAlpha, isASCIILower. lia.
  - intros H. rewrite alpha_lower; [done..|]. rewrite toASCIILower_spec in H.
    rewrite isASCIIAlpha_spec by done. case_match; lia.
Qed.

Lemma toASCIILower_idemp c : toASCIILower (toASCIILower c) = toASCIILower c.
Proof. rewrite !toASCIILower_spec. repeat case_match; lia. Qed.
