(* ===== verification/CharSource.v ===== *)
(** * What the tokenizer needs of its input

    The tokenizer reads its input through [SegmentedString]. [CharSource] is the
    interface it uses; [LSource] is the reference implementation of that
    interface, a list of characters with a count of those already consumed; and
    [CharSourceLaws] states what an implementation promises: it simulates the
    reference source, operation by operation. The tokenizer is defined against
    [CharSource], its theorems are proved on [LSource], and the refinement
    theorem of [TokenizerRefinement] transports them to every lawful source. *)

From S2P Require Import Prelude ASCIICType.

(** [SegmentedString::AdvancePastResult]. *)
Inductive AdvancePastResult := DidNotMatch | DidMatch | NotEnoughCharacters.

#[export] Instance AdvancePastResult_eq_dec : EqDecision AdvancePastResult.
Proof. solve_decision. Defined.

(** [kEndOfFileMarker]. *)
Definition kEndOfFileMarker : Z := 0.

Class CharSource (S : Type) := {
  src_isEmpty : S → bool;
  src_length : S → Z;
  src_isClosed : S → bool;
  src_currentCharacter : S → Z;
  src_numberOfCharactersConsumed : S → Z;
  src_advance : S → option S;
  src_advancePastNonNewline : S → option S;
  src_advancePastNewline : S → option S;
  src_advancePast : list Z → bool → S → option (AdvancePastResult * S);
  src_pushBack : list Z → S → option S;
}.

(** [SegmentedString::characterMismatch]. *)
Definition characterMismatch (a b : Z) (lettersIgnoringASCIICase : bool) : bool :=
  if lettersIgnoringASCIICase then negb (isASCIIAlphaCaselessEqual a b) else negb (a =? b).

(** ** The reference source *)

Record LSource := mkLSource {
  l_chars : list Z;
  l_consumed : Z;
  l_closed : bool;
}.

Definition l_current (s : LSource) : Z :=
  match l_chars s with
  | [] => 0
  | c :: _ => c
  end.

Definition l_drop (n : nat) (s : LSource) : LSource :=
  mkLSource (drop n (l_chars s)) (l_consumed s + Z.of_nat n) (l_closed s).

Definition l_advance (s : LSource) : option LSource :=
  match l_chars s with
  | [] => Some s
  | _ :: _ => Some (l_drop 1 s)
  end.

Fixpoint literalMatches (literal chars : list Z) (lettersIgnoringASCIICase : bool) : bool :=
  match literal, chars with
  | [], _ => true
  | b :: literal', a :: chars' =>
      negb (characterMismatch a b lettersIgnoringASCIICase)
      && literalMatches literal' chars' lettersIgnoringASCIICase
  | _ :: _, [] => false
  end.

Definition l_advancePast (literal : list Z) (ci : bool) (s : LSource) : AdvancePastResult * LSource :=
  if (length (l_chars s) <? length literal)%nat then (NotEnoughCharacters, s)
  else if literalMatches literal (l_chars s) ci then (DidMatch, l_drop (length literal) s)
  else (DidNotMatch, s).

Definition l_pushBack (string : list Z) (s : LSource) : option LSource :=
  if bool_decide (string ≠ []) && bool_decide (Z.of_nat (length string) ≤ l_consumed s)
     && forallb (λ c, negb (c =? cLineFeed)) string
  then Some (mkLSource (string ++ l_chars s) (l_consumed s - Z.of_nat (length string)) (l_closed s))
  else None.

#[export] Instance LSource_CharSource `{Build} : CharSource LSource := {
  src_isEmpty s := bool_decide (l_chars s = []);
  src_length s := Z.of_nat (length (l_chars s));
  src_isClosed := l_closed;
  src_currentCharacter := l_current;
  src_numberOfCharactersConsumed := l_consumed;
  src_advance := l_advance;
  src_advancePastNonNewline s := ASSERT_opt (negb (l_current s =? cLineFeed)) (l_advance s);
  src_advancePastNewline s := ASSERT_opt (l_current s =? cLineFeed) (l_advance s);
  src_advancePast literal ci s := Some (l_advancePast literal ci s);
  src_pushBack := l_pushBack;
}.

(** The literals the tokenizer looks ahead for: short, and free of newlines. *)
Definition validLiteral (literal : list Z) : Prop :=
  literal ≠ [] ∧ (length literal ≤ 10)%nat ∧ Forall (λ c, 0 ≤ c < 128 ∧ c ≠ cLineFeed) literal.

(** ** What an implementation promises *)

(** The count of consumed characters is not part of the contract, since
    [SegmentedString] does not count exactly; the operations that check it in a
    debug build promise nothing there. *)
Class CharSourceLaws (S : Type) `{Build} `{CharSource S} := {
  src_rel : S → LSource → Prop;
  law_isEmpty s l : src_rel s l → src_isEmpty s = src_isEmpty l;
  law_length s l : src_rel s l → src_length s = src_length l;
  law_isClosed s l : src_rel s l → src_isClosed s = src_isClosed l;
  law_currentCharacter s l : src_rel s l → src_currentCharacter s = src_currentCharacter l;
  law_advance : simOpt src_rel src_advance src_advance;
  law_advancePastNonNewline : simOpt src_rel src_advancePastNonNewline src_advancePastNonNewline;
  law_advancePastNewline : simOpt src_rel src_advancePastNewline src_advancePastNewline;
  law_advancePast literal ci s l r l' :
    ASSERT_DISABLED = true → validLiteral literal → src_rel s l →
    src_advancePast literal ci l = Some (r, l') →
    ∃ s', src_advancePast literal ci s = Some (r, s') ∧ src_rel s' l';
  law_pushBack string :
    ASSERT_DISABLED = true → simOpt src_rel (src_pushBack string) (src_pushBack string);
}.

(** ** Lemmas on the reference source *)

Lemma literalMatches_length literal chars ci :
  literalMatches literal chars ci = true → (length literal ≤ length chars)%nat.
Proof.
  revert chars. induction literal as [|b literal IH]; intros [|a chars]; simpl; try lia; try done.
  intros [_ ?%IH]%andb_true_iff. lia.
Qed.

Lemma l_advancePast_cases literal ci s r s' :
  l_advancePast literal ci s = (r, s') →
  (r = NotEnoughCharacters ∧ s' = s ∧ (length (l_chars s) < length literal)%nat) ∨
  (r = DidNotMatch ∧ s' = s ∧ literalMatches literal (l_chars s) ci = false
     ∧ (length literal ≤ length (l_chars s))%nat) ∨
  (r = DidMatch ∧ s' = l_drop (length literal) s ∧ literalMatches literal (l_chars s) ci = true
     ∧ (length literal ≤ length (l_chars s))%nat).
Proof.
  unfold l_advancePast.
  destruct (Nat.ltb_spec (length (l_chars s)) (length literal)).
  { intros [= <- <-]. auto. }
  destruct (literalMatches literal (l_chars s) ci) eqn:?; intros [= <- <-]; auto 10.
Qed.

(** The reference source is lawful: it simulates itself. *)
#[export] Instance LSource_laws `{Build} : CharSourceLaws LSource.
Proof.
  refine {| src_rel := eq |}; try by intros ?? ->.
  1-3: intros s ? <-; by case_match; eauto.
  - intros literal ci s ? r l' _ _ <- E. eauto.
  - intros string _ s ? <-. by case_match; eauto.
Defined.
