(* ===== verification/SegmentedString.v ===== *)
(** * The segmented input string

    Model of [Source/WebCore/platform/text/SegmentedString.h] and [.cpp]: a
    string made of a current substring and a queue of further ones, with a
    cursor, a consumed-character count, a line counter, and an optimisation that
    selects one of five advance routines through two function pointers and a
    set of fast-path flags.

    The theorems show that the flags and pointers always select a routine that
    fits the current substring, that the operations refine the reference
    source of [CharSource] (the look-ahead and pushing back in release builds; so the segmentation, the 8-bit/16-bit split and the
    fast paths are unobservable to the tokenizer), and how lines are counted. *)

From S2P Require Import Prelude ASCIICType CharSource.

(** A [WTF::String]: its characters and the width they are stored in. *)
Record WTFString := mkString {
  str_is8Bit : bool;
  str_chars : list Z;
}.

Definition str_length (s : WTFString) : Z := Z.of_nat (length (str_chars s)).

(** [SegmentedString::Substring]. [ss_cursor] is the index [currentCharacter8]
    or [currentCharacter16] points to in the buffer of [ss_string]; the union
    member in use is the one [ss_is8Bit] names. *)
Record Substring := mkSubstring {
  ss_string : WTFString;
  ss_length : Z;
  ss_is8Bit : bool;
  ss_cursor : nat;
  ss_doNotExcludeLineNumbers : bool;
}.

Definition emptySubstring : Substring := mkSubstring (mkString true []) 0 true 0 true.

Definition Substring_of (string : WTFString) : Substring :=
  mkSubstring string (str_length string) (str_is8Bit string) 0 true.

Definition set_ss_length (z : Z) (s : Substring) : Substring :=
  mkSubstring (ss_string s) z (ss_is8Bit s) (ss_cursor s) (ss_doNotExcludeLineNumbers s).
Definition set_ss_cursor (n : nat) (s : Substring) : Substring :=
  mkSubstring (ss_string s) (ss_length s) (ss_is8Bit s) n (ss_doNotExcludeLineNumbers s).
Definition set_ss_exclude (s : Substring) : Substring :=
  mkSubstring (ss_string s) (ss_length s) (ss_is8Bit s) (ss_cursor s) false.

(** Reading through [currentCharacter8] is only meaningful when the buffer holds
    8-bit characters, and likewise for 16 bits; a read past the end is a fault. *)
Definition read8 (s : Substring) (i : nat) : option Z :=
  if ss_is8Bit s then str_chars (ss_string s) !! i else None.
Definition read16 (s : Substring) (i : nat) : option Z :=
  if ss_is8Bit s then None else str_chars (ss_string s) !! i.

Definition Substring_numberOfCharactersConsumed (s : Substring) : Z :=
  u32 (str_length (ss_string s) - ss_length s).

Section Operations.
Context `{Build}.

Definition check (e : bool) : option unit := ASSERT_opt e (Some tt).

Definition Substring_currentCharacter (s : Substring) : option Z :=
  _ ← check (negb (ss_length s =? 0));
  if ss_is8Bit s then read8 s (ss_cursor s) else read16 s (ss_cursor s).

Definition Substring_currentCharacterPreIncrement (s : Substring) : option (Z * Substring) :=
  _ ← check (negb (ss_length s =? 0));
  let i := S (ss_cursor s) in
  c ← (if ss_is8Bit s then read8 s i else read16 s i);
  Some (c, set_ss_cursor i s).

(** [Substring::appendTo]: the characters not consumed yet. *)
Definition Substring_appendTo (s : Substring) (builder : list Z) : list Z :=
  builder ++ take (Z.to_nat (ss_length s))
                  (drop (Z.to_nat (str_length (ss_string s) - ss_length s)) (str_chars (ss_string s))).

(** The routines the function pointers can point to. *)
Inductive AdvanceFunction :=
  | fn_advanceEmpty
  | fn_advanceWithoutUpdatingLineNumber16
  | fn_advanceAndUpdateLineNumber16
  | fn_advancePastSingleCharacterSubstringWithoutUpdatingLineNumber
  | fn_advancePastSingleCharacterSubstring.

(** [FastPathFlags]. *)
Definition NoFastPath : Z := 0.
Definition Use8BitAdvanceAndUpdateLineNumbers : Z := Z.shiftl 1 0.
Definition Use8BitAdvance : Z := Z.shiftl 1 1.

Record SegmentedString := mkSS {
  m_currentSubstring : Substring;
  m_otherSubstrings : list Substring;
  m_isClosed : bool;
  m_currentCharacter : Z;
  m_numberOfCharactersConsumedPriorToCurrentSubstring : Z;
  m_numberOfCharactersConsumedPriorToCurrentLine : Z;
  m_currentLine : Z;
  m_fastPathFlags : Z;
  m_advanceWithoutUpdatingLineNumberFunction : AdvanceFunction;
  m_advanceAndUpdateLineNumberFunction : AdvanceFunction;
}.

Definition emptySegmentedString : SegmentedString :=
  mkSS emptySubstring [] false 0 0 0 0 NoFastPath fn_advanceEmpty fn_advanceEmpty.

(** Field updates. *)
Definition set_sub (x : Substring) (s : SegmentedString) : SegmentedString :=
  mkSS x (m_otherSubstrings s) (m_isClosed s) (m_currentCharacter s)
    (m_numberOfCharactersConsumedPriorToCurrentSubstring s)
    (m_numberOfCharactersConsumedPriorToCurrentLine s) (m_currentLine s) (m_fastPathFlags s)
    (m_advanceWithoutUpdatingLineNumberFunction s) (m_advanceAndUpdateLineNumberFunction s).
Definition set_others (x : list Substring) (s : SegmentedString) : SegmentedString :=
  mkSS (m_currentSubstring s) x (m_isClosed s) (m_currentCharacter s)
    (m_numberOfCharactersConsumedPriorToCurrentSubstring s)
    (m_numberOfCharactersConsumedPriorToCurrentLine s) (m_currentLine s) (m_fastPathFlags s)
    (m_advanceWithoutUpdatingLineNumberFunction s) (m_advanceAndUpdateLineNumberFunction s).
Definition set_isClosed (x : bool) (s : SegmentedString) : SegmentedString :=
  mkSS (m_currentSubstring s) (m_otherSubstrings s) x (m_currentCharacter s)
    (m_numberOfCharactersConsumedPriorToCurrentSubstring s)
    (m_numberOfCharactersConsumedPriorToCurrentLine s) (m_currentLine s) (m_fastPathFlags s)
    (m_advanceWithoutUpdatingLineNumberFunction s) (m_advanceAndUpdateLineNumberFunction s).
Definition set_currentCharacter (x : Z) (s : SegmentedString) : SegmentedString :=
  mkSS (m_currentSubstring s) (m_otherSubstrings s) (m_isClosed s) x
    (m_numberOfCharactersConsumedPriorToCurrentSubstring s)
    (m_numberOfCharactersConsumedPriorToCurrentLine s) (m_currentLine s) (m_fastPathFlags s)
    (m_advanceWithoutUpdatingLineNumberFunction s) (m_advanceAndUpdateLineNumberFunction s).
Definition set_priorSub (x : Z) (s : SegmentedString) : SegmentedString :=
  mkSS (m_currentSubstring s) (m_otherSubstrings s) (m_isClosed s) (m_currentCharacter s) x
    (m_numberOfCharactersConsumedPriorToCurrentLine s) (m_currentLine s) (m_fastPathFlags s)
    (m_advanceWithoutUpdatingLineNumberFunction s) (m_advanceAndUpdateLineNumberFunction s).
Definition set_position (line prior : Z) (s : SegmentedString) : SegmentedString :=
  mkSS (m_currentSubstring s) (m_otherSubstrings s) (m_isClosed s) (m_currentCharacter s)
    (m_numberOfCharactersConsumedPriorToCurrentSubstring s) prior line (m_fastPathFlags s)
    (m_advanceWithoutUpdatingLineNumberFunction s) (m_advanceAndUpdateLineNumberFunction s).
Definition set_pointers (flags : Z) (f g : AdvanceFunction) (s : SegmentedString) : SegmentedString :=
  mkSS (m_currentSubstring s) (m_otherSubstrings s) (m_isClosed s) (m_currentCharacter s)
    (m_numberOfCharactersConsumedPriorToCurrentSubstring s)
    (m_numberOfCharactersConsumedPriorToCurrentLine s) (m_currentLine s) flags f g.

Definition isEmpty (s : SegmentedString) : bool := ss_length (m_currentSubstring s) =? 0.

Definition ss_total (s : SegmentedString) : Z :=
  foldl (λ length substring, u32 (length + ss_length substring))
    (ss_length (m_currentSubstring s)) (m_otherSubstrings s).

Definition numberOfCharactersConsumed (s : SegmentedString) : Z :=
  u32 (m_numberOfCharactersConsumedPriorToCurrentSubstring s
       + Substring_numberOfCharactersConsumed (m_currentSubstring s)).

Definition updateAdvanceFunctionPointersForEmptyString (s : SegmentedString) : option SegmentedString :=
  _ ← check (ss_length (m_currentSubstring s) =? 0);
  _ ← check (bool_decide (length (m_otherSubstrings s) = 0%nat));
  _ ← check (m_currentCharacter s =? 0);
  Some (set_pointers NoFastPath fn_advanceEmpty fn_advanceEmpty s).

Definition updateAdvanceFunctionPointersForSingleCharacterSubstring (s : SegmentedString) :
    option SegmentedString :=
  _ ← check (ss_length (m_currentSubstring s) =? 1);
  Some (set_pointers NoFastPath fn_advancePastSingleCharacterSubstringWithoutUpdatingLineNumber
    (if ss_doNotExcludeLineNumbers (m_currentSubstring s)
     then fn_advancePastSingleCharacterSubstring
     else fn_advancePastSingleCharacterSubstringWithoutUpdatingLineNumber) s).

Definition updateAdvanceFunctionPointers (s : SegmentedString) : option SegmentedString :=
  let sub := m_currentSubstring s in
  if 1 <? ss_length sub then
    if ss_is8Bit sub then
      let flags := if ss_doNotExcludeLineNumbers sub
                   then Z.lor Use8BitAdvance Use8BitAdvanceAndUpdateLineNumbers
                   else Use8BitAdvance in
      Some (set_pointers flags (m_advanceWithoutUpdatingLineNumberFunction s)
              (m_advanceAndUpdateLineNumberFunction s) s)
    else
      Some (set_pointers NoFastPath fn_advanceWithoutUpdatingLineNumber16
        (if ss_doNotExcludeLineNumbers sub
         then fn_advanceAndUpdateLineNumber16
         else fn_advanceWithoutUpdatingLineNumber16) s)
  else if ss_length sub =? 0 then updateAdvanceFunctionPointersForEmptyString s
  else updateAdvanceFunctionPointersForSingleCharacterSubstring s.

Definition decrementAndCheckLength (s : SegmentedString) : option SegmentedString :=
  let sub := m_currentSubstring s in
  _ ← check (1 <? ss_length sub);
  let s := set_sub (set_ss_length (u32 (ss_length sub - 1)) sub) s in
  if ss_length (m_currentSubstring s) =? 1
  then updateAdvanceFunctionPointersForSingleCharacterSubstring s
  else Some s.

Definition startNewLine (s : SegmentedString) : SegmentedString :=
  set_position (i32 (m_currentLine s + 1)) (numberOfCharactersConsumed s) s.

Definition processPossibleNewline (s : SegmentedString) : SegmentedString :=
  if m_currentCharacter s =? cLineFeed then startNewLine s else s.

(** [m_currentCharacter = *++m_currentSubstring.currentCharacter8] (or [16]). *)
Definition stepCursor (read : Substring → nat → option Z) (s : SegmentedString) : option SegmentedString :=
  let sub := m_currentSubstring s in
  let i := S (ss_cursor sub) in
  c ← read sub i;
  Some (set_currentCharacter c (set_sub (set_ss_cursor i sub) s)).

Definition advanceWithoutUpdatingLineNumber16 (s : SegmentedString) : option SegmentedString :=
  s ← stepCursor read16 s;
  decrementAndCheckLength s.

Definition advanceAndUpdateLineNumber16 (s : SegmentedString) : option SegmentedString :=
  _ ← check (ss_doNotExcludeLineNumbers (m_currentSubstring s));
  s ← stepCursor read16 (processPossibleNewline s);
  decrementAndCheckLength s.

Definition advancePastSingleCharacterSubstringWithoutUpdatingLineNumber (s : SegmentedString) :
    option SegmentedString :=
  _ ← check (ss_length (m_currentSubstring s) =? 1);
  match m_otherSubstrings s with
  | [] =>
      let s := set_sub (set_ss_length 0 (m_currentSubstring s)) s in
      updateAdvanceFunctionPointersForEmptyString (set_currentCharacter 0 s)
  | first :: rest =>
      let s := set_priorSub
        (u32 (m_numberOfCharactersConsumedPriorToCurrentSubstring s
              + Substring_numberOfCharactersConsumed (m_currentSubstring s))) s in
      let s := set_others rest (set_sub first s) in
      let s := set_priorSub
        (u32 (m_numberOfCharactersConsumedPriorToCurrentSubstring s
              - Substring_numberOfCharactersConsumed (m_currentSubstring s))) s in
      c ← Substring_currentCharacter (m_currentSubstring s);
      updateAdvanceFunctionPointers (set_currentCharacter c s)
  end.

Definition advancePastSingleCharacterSubstring (s : SegmentedString) : option SegmentedString :=
  _ ← check (ss_length (m_currentSubstring s) =? 1);
  _ ← check (ss_doNotExcludeLineNumbers (m_currentSubstring s));
  advancePastSingleCharacterSubstringWithoutUpdatingLineNumber (processPossibleNewline s).

Definition advanceEmpty (s : SegmentedString) : option SegmentedString :=
  _ ← check (ss_length (m_currentSubstring s) =? 0);
  _ ← check (bool_decide (length (m_otherSubstrings s) = 0%nat));
  _ ← check (m_currentCharacter s =? 0);
  Some s.

(** [(this->*f)()]. *)
Definition callAdvance (f : AdvanceFunction) : SegmentedString → option SegmentedString :=
  match f with
  | fn_advanceEmpty => advanceEmpty
  | fn_advanceWithoutUpdatingLineNumber16 => advanceWithoutUpdatingLineNumber16
  | fn_advanceAndUpdateLineNumber16 => advanceAndUpdateLineNumber16
  | fn_advancePastSingleCharacterSubstringWithoutUpdatingLineNumber =>
      advancePastSingleCharacterSubstringWithoutUpdatingLineNumber
  | fn_advancePastSingleCharacterSubstring => advancePastSingleCharacterSubstring
  end.

Definition hasFlag (flags flag : Z) : bool := negb (Z.land flags flag =? 0).

Definition advanceWithoutUpdatingLineNumber (s : SegmentedString) : option SegmentedString :=
  if hasFlag (m_fastPathFlags s) Use8BitAdvance then
    s ← stepCursor read8 s;
    decrementAndCheckLength s
  else callAdvance (m_advanceWithoutUpdatingLineNumberFunction s) s.

Definition advance (s : SegmentedString) : option SegmentedString :=
  if hasFlag (m_fastPathFlags s) Use8BitAdvance then
    _ ← check (1 <? ss_length (m_currentSubstring s));
    let lastCharacterWasNewline := m_currentCharacter s =? cLineFeed in
    s ← stepCursor read8 s;
    let sub := m_currentSubstring s in
    let s := set_sub (set_ss_length (u32 (ss_length sub - 1)) sub) s in
    let haveOneCharacterLeft := ss_length (m_currentSubstring s) =? 1 in
    if negb (lastCharacterWasNewline || haveOneCharacterLeft) then Some s
    else
      let s := if lastCharacterWasNewline && hasFlag (m_fastPathFlags s) Use8BitAdvanceAndUpdateLineNumbers
               then startNewLine s else s in
      if haveOneCharacterLeft then updateAdvanceFunctionPointersForSingleCharacterSubstring s
      else Some s
  else callAdvance (m_advanceAndUpdateLineNumberFunction s) s.

Definition advancePastNonNewline (s : SegmentedString) : option SegmentedString :=
  _ ← check (negb (m_currentCharacter s =? cLineFeed));
  advanceWithoutUpdatingLineNumber s.

Definition advancePastNewline (s : SegmentedString) : option SegmentedString :=
  _ ← check (m_currentCharacter s =? cLineFeed);
  if 1 <? ss_length (m_currentSubstring s) then
    let s := if ss_doNotExcludeLineNumbers (m_currentSubstring s) then startNewLine s else s in
    '(c, sub) ← Substring_currentCharacterPreIncrement (m_currentSubstring s);
    decrementAndCheckLength (set_currentCharacter c (set_sub sub s))
  else callAdvance (m_advanceAndUpdateLineNumberFunction s) s.

Definition pushBack (string : WTFString) (s : SegmentedString) : option SegmentedString :=
  _ ← check (negb (str_length string =? 0));
  _ ← check (forallb (λ c, negb (c =? cLineFeed)) (str_chars string));
  _ ← check (str_length string <=? numberOfCharactersConsumed s);
  let s := set_priorSub
    (u32 (m_numberOfCharactersConsumedPriorToCurrentSubstring s
          + Substring_numberOfCharactersConsumed (m_currentSubstring s))) s in
  let s := if negb (ss_length (m_currentSubstring s) =? 0)
           then set_others (m_currentSubstring s :: m_otherSubstrings s) s else s in
  let s := set_sub (Substring_of string) s in
  let s := set_priorSub
    (u32 (m_numberOfCharactersConsumedPriorToCurrentSubstring s - ss_length (m_currentSubstring s))) s in
  c ← Substring_currentCharacter (m_currentSubstring s);
  updateAdvanceFunctionPointers (set_currentCharacter c s).

(** The comparison loop of [advancePast]: [Some true] when a character differs. *)
Fixpoint literalMismatch (read : nat → option Z) (literal : list Z) (i : nat) (ci : bool) : option bool :=
  match literal with
  | [] => Some false
  | b :: literal' =>
      a ← read i;
      if characterMismatch a b ci then Some true else literalMismatch read literal' (S i) ci
  end.

(** The loop of [advancePastSlowCase]; [consumedCharacters] holds the characters
    consumed so far. *)
Fixpoint advancePastSlowLoop (literal : list Z) (ci : bool) (consumedCharacters : list Z)
    (s : SegmentedString) : option (AdvancePastResult * SegmentedString) :=
  match literal with
  | [] => Some (DidMatch, s)
  | b :: literal' =>
      let character := m_currentCharacter s in
      if characterMismatch character b ci then
        if bool_decide (consumedCharacters ≠ []) then
          s ← pushBack (mkString false consumedCharacters) s;
          Some (DidNotMatch, s)
        else Some (DidNotMatch, s)
      else
        s ← advancePastNonNewline s;
        advancePastSlowLoop literal' ci (consumedCharacters ++ [character]) s
  end.

Definition advancePastSlowCase (literal : list Z) (ci : bool) (s : SegmentedString) :
    option (AdvancePastResult * SegmentedString) :=
  let maxLength := 10%nat in
  _ ← check (forallb (λ c, negb (c =? cLineFeed)) literal);
  _ ← check (bool_decide (length literal ≤ maxLength)%nat);
  if ss_total s <? Z.of_nat (length literal) then Some (NotEnoughCharacters, s)
  else advancePastSlowLoop literal ci [] s.

Definition advancePast (literal : list Z) (ci : bool) (s : SegmentedString) :
    option (AdvancePastResult * SegmentedString) :=
  let n := length literal in
  let sub := m_currentSubstring s in
  _ ← check (forallb (λ c, negb (c =? cLineFeed)) literal);
  if Z.of_nat n + 1 <? ss_length sub then
    let read := if ss_is8Bit sub then read8 sub else read16 sub in
    match literalMismatch read literal (ss_cursor sub) ci with
    | None => None
    | Some true => Some (DidNotMatch, s)
    | Some false =>
        c ← read (ss_cursor sub + n)%nat;
        let sub := set_ss_cursor (ss_cursor sub + n) sub in
        let s := set_currentCharacter c (set_sub sub s) in
        Some (DidMatch, set_sub (set_ss_length (u32 (ss_length sub - Z.of_nat n)) sub) s)
    end
  else advancePastSlowCase literal ci s.

Definition setExcludeLineNumbers (s : SegmentedString) : option SegmentedString :=
  if negb (ss_doNotExcludeLineNumbers (m_currentSubstring s)) then Some s
  else
    let s := set_sub (set_ss_exclude (m_currentSubstring s)) s in
    updateAdvanceFunctionPointers (set_others (set_ss_exclude <$> m_otherSubstrings s) s).

Definition clear (s : SegmentedString) : option SegmentedString :=
  let s := set_others [] (set_sub (set_ss_length 0 (m_currentSubstring s)) s) in
  let s := set_currentCharacter 0 (set_isClosed false s) in
  let s := set_position 0 0 (set_priorSub 0 s) in
  updateAdvanceFunctionPointersForEmptyString s.

Definition appendSubstring (substring : Substring) (s : SegmentedString) : option SegmentedString :=
  _ ← check (negb (m_isClosed s));
  if ss_length substring =? 0 then Some s
  else if negb (ss_length (m_currentSubstring s) =? 0) then
    Some (set_others (m_otherSubstrings s ++ [substring]) s)
  else
    let s := set_priorSub
      (u32 (m_numberOfCharactersConsumedPriorToCurrentSubstring s
            + Substring_numberOfCharactersConsumed (m_currentSubstring s))) s in
    let s := set_sub substring s in
    c ← Substring_currentCharacter (m_currentSubstring s);
    updateAdvanceFunctionPointers (set_currentCharacter c s).

Definition append_string (string : WTFString) (s : SegmentedString) : option SegmentedString :=
  appendSubstring (Substring_of string) s.

Definition append (string s : SegmentedString) : option SegmentedString :=
  s ← appendSubstring (m_currentSubstring string) s;
  Some (set_others (m_otherSubstrings s ++ m_otherSubstrings string) s).

Definition close (s : SegmentedString) : option SegmentedString :=
  _ ← check (negb (m_isClosed s));
  Some (set_isClosed true s).

Definition SegmentedString_of (string : WTFString) : option SegmentedString :=
  let s := set_sub (Substring_of string) emptySegmentedString in
  if ss_length (m_currentSubstring s) =? 0 then Some s
  else
    c ← Substring_currentCharacter (m_currentSubstring s);
    updateAdvanceFunctionPointers (set_currentCharacter c s).

Definition toString (s : SegmentedString) : list Z :=
  foldl (λ result substring, Substring_appendTo substring result)
    (Substring_appendTo (m_currentSubstring s) []) (m_otherSubstrings s).

(** Line and column are [OrdinalNumber]s; their zero-based values. *)
Definition currentLine (s : SegmentedString) : Z := m_currentLine s.

Definition currentColumn (s : SegmentedString) : Z :=
  i32 (u32 (numberOfCharactersConsumed s - m_numberOfCharactersConsumedPriorToCurrentLine s)).

Definition setCurrentPosition (line columnAfterProlog prologLength : Z) (s : SegmentedString) :
    SegmentedString :=
  set_position line (u32 (numberOfCharactersConsumed s + prologLength - columnAfterProlog)) s.

(** [StringBuilder::toString]: 8 bits when every character fits. *)
Definition builderString (chars : list Z) : WTFString :=
  mkString (forallb (λ c, c <=? 255) chars) chars.

(** [n] calls of [advance]. *)
Fixpoint advanceN (n : nat) (s : SegmentedString) : option SegmentedString :=
  match n with
  | O => Some s
  | S n => s ← advance s; advanceN n s
  end.

#[export] Instance SegmentedString_CharSource : CharSource SegmentedString := {
  src_isEmpty := isEmpty;
  src_length := ss_total;
  src_isClosed := m_isClosed;
  src_currentCharacter := m_currentCharacter;
  src_numberOfCharactersConsumed := numberOfCharactersConsumed;
  src_advance := advance;
  src_advancePastNonNewline := advancePastNonNewline;
  src_advancePastNewline := advancePastNewline;
  src_advancePast := advancePast;
  src_pushBack string := pushBack (builderString string);
}.

End Operations.

(** ** Well-formedness and contents *)

(** The unconsumed characters of a substring. *)
Definition sub_rest (sub : Substring) : list Z :=
  drop (Z.to_nat (str_length (ss_string sub) - ss_length sub)) (str_chars (ss_string sub)).

Definition sub_wf (sub : Substring) : Prop :=
  0 ≤ ss_length sub ≤ str_length (ss_string sub) ∧ str_length (ss_string sub) < 2 ^ 32 ∧
  (0 < ss_length sub →
     ss_is8Bit sub = str_is8Bit (ss_string sub) ∧
     Z.of_nat (ss_cursor sub) + ss_length sub = str_length (ss_string sub)).

(** The flags and function pointers that fit a substring. With the 8-bit fast
    path on, the pointers are not used and may be stale. *)
Definition pointers_ok (s : SegmentedString) : Prop :=
  let sub := m_currentSubstring s in
  let lines := ss_doNotExcludeLineNumbers sub in
  if 1 <? ss_length sub then
    if ss_is8Bit sub then m_fastPathFlags s = (if lines then 3 else 2)
    else m_fastPathFlags s = 0 ∧
         m_advanceWithoutUpdatingLineNumberFunction s = fn_advanceWithoutUpdatingLineNumber16 ∧
         m_advanceAndUpdateLineNumberFunction s =
           (if lines then fn_advanceAndUpdateLineNumber16 else fn_advanceWithoutUpdatingLineNumber16)
  else if ss_length sub =? 0 then
    m_fastPathFlags s = 0 ∧
    m_advanceWithoutUpdatingLineNumberFunction s = fn_advanceEmpty ∧
    m_advanceAndUpdateLineNumberFunction s = fn_advanceEmpty
  else
    m_fastPathFlags s = 0 ∧
    m_advanceWithoutUpdatingLineNumberFunction s =
      fn_advancePastSingleCharacterSubstringWithoutUpdatingLineNumber ∧
    m_advanceAndUpdateLineNumberFunction s =
      (if lines then fn_advancePastSingleCharacterSubstring
       else fn_advancePastSingleCharacterSubstringWithoutUpdatingLineNumber).

Definition contents (s : SegmentedString) : list Z :=
  sub_rest (m_currentSubstring s) ++ concat (sub_rest <$> m_otherSubstrings s).

(** The same characters, each with whether its newlines count as lines. *)
Definition sub_counted (sub : Substring) : list (Z * bool) :=
  (λ c, (c, ss_doNotExcludeLineNumbers sub)) <$> sub_rest sub.

Definition counted (s : SegmentedString) : list (Z * bool) :=
  sub_counted (m_currentSubstring s) ++ concat (sub_counted <$> m_otherSubstrings s).

Definition ss_wf (s : SegmentedString) : Prop :=
  sub_wf (m_currentSubstring s) ∧
  Forall (λ sub, sub_wf sub ∧ 0 < ss_length sub) (m_otherSubstrings s) ∧
  (ss_length (m_currentSubstring s) = 0 → m_otherSubstrings s = []) ∧
  m_currentCharacter s = default 0 (head (contents s)) ∧
  pointers_ok s.

(** The representation relation between a segmented string and the reference
    source. It does not speak of the consumed-character count: see [crosses].
    The bound says that the 32-bit length does not wrap around. *)
Definition ss_rel (s : SegmentedString) (l : LSource) : Prop :=
  ss_wf s ∧ contents s = l_chars l ∧ m_isClosed s = l_closed l ∧
  0 ≤ l_consumed l ∧ l_consumed l + Z.of_nat (length (l_chars l)) < 2 ^ 32.

(** Consuming the current character moves on to the next substring. *)
Definition crosses (s : SegmentedString) : bool :=
  (ss_length (m_currentSubstring s) =? 1) && bool_decide (m_otherSubstrings s ≠ []).

(** What consuming one character does to the string, line counting aside. The
    last character of a substring that is followed by another one is not counted
    as consumed. *)
Definition advanced (s s' : SegmentedString) : Prop :=
  ss_wf s' ∧ contents s' = tail (contents s) ∧
  numberOfCharactersConsumed s'
    = u32 (numberOfCharactersConsumed s + (if crosses s then 0 else 1)) ∧
  m_isClosed s' = m_isClosed s ∧
  counted s' = tail (counted s) ∧
  length (m_otherSubstrings s) = ((if crosses s then 1 else 0) + length (m_otherSubstrings s'))%nat.

(** The newlines that count as lines among some characters. *)
Definition countedNewlines (l : list (Z * bool)) : Z :=
  Z.of_nat (length (filter (λ x, x = (cLineFeed, true)) l)).

(** The line number after consuming the current character, when newlines of the
    current substring are counted. *)
Definition lineAfter (s : SegmentedString) : Z :=
  if (m_currentCharacter s =? cLineFeed) && ss_doNotExcludeLineNumbers (m_currentSubstring s)
  then i32 (m_currentLine s + 1) else m_currentLine s.

(** ** Lemmas on substrings *)

Lemma sub_rest_length sub : sub_wf sub → Z.of_nat (length (sub_rest sub)) = ss_length sub.
Proof.
  intros (? & ? & _). unfold sub_rest, str_length in *. rewrite length_drop. lia.
Qed.

Lemma sub_rest_empty sub : sub_wf sub → ss_length sub = 0 → sub_rest sub = [].
Proof.
  intros Hwf H0. pose proof (sub_rest_length sub Hwf). destruct (sub_rest sub); [done|].
  simpl in *. lia.
Qed.

Lemma sub_rest_cursor sub :
  sub_wf sub → 0 < ss_length sub → sub_rest sub = drop (ss_cursor sub) (str_chars (ss_string sub)).
Proof. intros (? & ? & Hc) Hl. destruct (Hc Hl) as [_ ?]. unfold sub_rest. f_equal. lia. Qed.

Lemma sub_lookup sub i :
  sub_wf sub → 0 < ss_length sub →
  str_chars (ss_string sub) !! (ss_cursor sub + i)%nat = sub_rest sub !! i.
Proof. intros. by rewrite sub_rest_cursor, lookup_drop. Qed.

Lemma sub_step sub :
  sub_wf sub → 1 < ss_length sub →
  sub_wf (set_ss_length (ss_length sub - 1) (set_ss_cursor (S (ss_cursor sub)) sub)) ∧
  sub_rest (set_ss_length (ss_length sub - 1) (set_ss_cursor (S (ss_cursor sub)) sub)) = tail (sub_rest sub).
Proof.
  intros Hwf Hl. assert (Hwf' : sub_wf (set_ss_length (ss_length sub - 1)
    (set_ss_cursor (S (ss_cursor sub)) sub))).
  { destruct Hwf as (? & ? & Hc). destruct Hc; [lia|].
    repeat split; simpl; try lia. done. }
  split; [done|]. rewrite sub_rest_cursor by (simpl; done || lia). simpl.
  rewrite (sub_rest_cursor sub) by (done || lia).
  replace (S (ss_cursor sub)) with (ss_cursor sub + 1)%nat by lia.
  by rewrite <-drop_drop; destruct (drop (ss_cursor sub) _).
Qed.

Lemma sub_of_wf string : str_length string < 2 ^ 32 → sub_wf (Substring_of string).
Proof. intros. unfold sub_wf. simpl. unfold str_length in *. split_and!; try lia. intros. split; [done|lia]. Qed.

Lemma sub_of_rest string : sub_rest (Substring_of string) = str_chars string.
Proof. unfold sub_rest. simpl. by rewrite Z.sub_diag. Qed.

Lemma sub_consumed sub :
  sub_wf sub →
  Substring_numberOfCharactersConsumed sub = str_length (ss_string sub) - ss_length sub.
Proof. intros (? & ? & _). apply u32_small. lia. Qed.

Lemma contents_head s sub :
  m_currentSubstring s = sub → sub_wf sub → 0 < ss_length sub →
  ∃ c, str_chars (ss_string sub) !! ss_cursor sub = Some c ∧ head (contents s) = Some c.
Proof.
  intros <- Hwf Hl. pose proof (sub_rest_length _ Hwf).
  rewrite <-(Nat.add_0_r (ss_cursor _)), sub_lookup by done. unfold contents.
  destruct (sub_rest (m_currentSubstring s)) as [|c rest]; [simpl in *; lia|]. by exists c.
Qed.

Section Facts.
Context `{Build}.

Lemma check_true e : e = true → check e = Some tt.
Proof. intros ->. unfold check, ASSERT_opt. by rewrite orb_true_r. Qed.

Lemma current_ok sub :
  sub_wf sub → 0 < ss_length sub → Substring_currentCharacter sub = head (sub_rest sub).
Proof.
  intros Hwf Hl. unfold Substring_currentCharacter. rewrite check_true by lia. simpl.
  unfold read8, read16. rewrite <-(Nat.add_0_r (ss_cursor sub)), sub_lookup by done.
  rewrite <-head_lookup. by destruct (ss_is8Bit sub).
Qed.

Lemma pointers_updated s :
  ss_length (m_currentSubstring s) = 0 ∨ 0 < ss_length (m_currentSubstring s) →
  (ss_length (m_currentSubstring s) = 0 → m_otherSubstrings s = [] ∧ m_currentCharacter s = 0) →
  ∃ flags f g, updateAdvanceFunctionPointers s = Some (set_pointers flags f g s) ∧
               pointers_ok (set_pointers flags f g s).
Proof.
  intros Hlen Hempty. unfold updateAdvanceFunctionPointers, pointers_ok.
  destruct (1 <? ss_length _) eqn:H1.
  { destruct (ss_is8Bit _) eqn:H8, (ss_doNotExcludeLineNumbers _) eqn:Hn;
      do 3 eexists; (split; [done|]); simpl; by rewrite H1, H8, ?Hn. }
  destruct (ss_length _ =? 0) eqn:H0.
  { destruct Hempty as [Ho Hc]; [lia|]. unfold updateAdvanceFunctionPointersForEmptyString.
    rewrite !check_true by (rewrite ?Ho, ?Hc; done).
    do 3 eexists; (split; [done|]); simpl. by rewrite H1, H0. }
  unfold updateAdvanceFunctionPointersForSingleCharacterSubstring.
  rewrite check_true by lia. do 3 eexists; (split; [done|]); simpl. by rewrite H1, H0.
Qed.

(** The code's way of making a substring current: read its first character, then
    select the advance routines. *)
Lemma install_ok x :
  sub_wf (m_currentSubstring x) → 0 < ss_length (m_currentSubstring x) →
  Forall (λ sub, sub_wf sub ∧ 0 < ss_length sub) (m_otherSubstrings x) →
  ∃ s', (c ← Substring_currentCharacter (m_currentSubstring x);
         updateAdvanceFunctionPointers (set_currentCharacter c x)) = Some s' ∧
    ss_wf s' ∧ contents s' = contents x ∧ m_isClosed s' = m_isClosed x ∧
    numberOfCharactersConsumed s' = numberOfCharactersConsumed x ∧
    m_currentLine s' = m_currentLine x ∧ m_currentSubstring s' = m_currentSubstring x ∧
    m_otherSubstrings s' = m_otherSubstrings x.
Proof.
  intros Hsub Hpos Hoth. rewrite current_ok by done.
  pose proof (sub_rest_length _ Hsub).
  destruct (head (sub_rest (m_currentSubstring x))) as [c|] eqn:Hc;
    [|destruct (sub_rest _); simpl in *; [lia|done]]. simpl.
  destruct (pointers_updated (set_currentCharacter c x)) as (flags & f & g & -> & Hptr'); [simpl; lia..|].
  eexists. split; [done|]. split_and!; try done. split_and!; simpl; try done; [lia|].
  unfold contents. simpl. by erewrite head_app_Some.
Qed.

Lemma wf_position line prior s : ss_wf (set_position line prior s) ↔ ss_wf s.
Proof. done. Qed.

Lemma advanced_position line prior s s' : advanced (set_position line prior s) s' ↔ advanced s s'.
Proof. done. Qed.

(** Inside a substring: move the cursor, shorten, refresh the pointers. *)
Lemma decrement_ok s :
  ss_wf s → 1 < ss_length (m_currentSubstring s) →
  ∃ c s', str_chars (ss_string (m_currentSubstring s)) !! S (ss_cursor (m_currentSubstring s)) = Some c ∧
    decrementAndCheckLength
      (set_currentCharacter c (set_sub (set_ss_cursor (S (ss_cursor (m_currentSubstring s)))
         (m_currentSubstring s)) s)) = Some s' ∧
    advanced s s' ∧ m_currentLine s' = m_currentLine s ∧
    m_numberOfCharactersConsumedPriorToCurrentLine s' = m_numberOfCharactersConsumedPriorToCurrentLine s ∧
    ss_doNotExcludeLineNumbers (m_currentSubstring s') = ss_doNotExcludeLineNumbers (m_currentSubstring s).
Proof.
  intros (Hsub & Hoth & Hemp & Hcur & Hptr) Hl.
  set (sub := m_currentSubstring s) in *.
  destruct (sub_step sub Hsub Hl) as [Hsub' Hrest'].
  set (sub' := set_ss_length (ss_length sub - 1) (set_ss_cursor (S (ss_cursor sub)) sub)) in *.
  assert (Hc : ∃ c, str_chars (ss_string sub) !! S (ss_cursor sub) = Some c ∧ head (sub_rest sub') = Some c).
  { pose proof (sub_rest_length sub' Hsub') as Hlen'. simpl in Hlen'.
    rewrite head_lookup, <-(sub_lookup sub') by (done || (unfold sub'; simpl; lia)). simpl.
    rewrite Nat.add_0_r.
    destruct (lookup_lt_is_Some_2 (str_chars (ss_string sub)) (S (ss_cursor sub))) as [c Hc]; [|by exists c].
    destruct Hsub as (? & ? & Hc). unfold str_length in *. destruct Hc; lia. }
  destruct Hc as (c & Hc & Hhead). exists c.
  assert (Hne : sub_rest sub ≠ []).
  { pose proof (sub_rest_length sub Hsub). intros E. rewrite E in *. simpl in *. lia. }
  assert (Hu : u32 (ss_length sub - 1) = ss_length sub - 1).
  { apply u32_small. destruct Hsub as (? & ? & _). lia. }
  assert (Hcr : crosses s = false) by (unfold crosses; fold sub; lia).
  assert (Hctd : sub_counted sub' ++ concat (sub_counted <$> m_otherSubstrings s) = tail (counted s)).
  { unfold counted, sub_counted at 1 3. fold sub. rewrite Hrest', fmap_tail. simpl.
    apply tail_app_ne. by destruct (sub_rest sub). }
  assert (Hcount : u32 (m_numberOfCharactersConsumedPriorToCurrentSubstring s
      + Substring_numberOfCharactersConsumed sub')
      = u32 (numberOfCharactersConsumed s + (if crosses s then 0 else 1))).
  { rewrite Hcr. unfold numberOfCharactersConsumed. rewrite !sub_consumed by done. simpl.
    rewrite u32_add_l. f_equal. fold sub. lia. }
  unfold decrementAndCheckLength. simpl. rewrite check_true by lia. simpl. rewrite Hu.
  fold sub'. destruct (Z.eqb_spec (ss_length sub - 1) 1) as [H1|H1].
  - unfold updateAdvanceFunctionPointersForSingleCharacterSubstring. simpl.
    rewrite check_true by lia. eexists. split; [done|]. split; [done|].
    split; [|done]. split; [split_and!; simpl|split; [simpl|rewrite Hcr in Hcount |- *; done]]; try done.
    + intros. lia.
    + unfold contents. simpl. by erewrite head_app_Some.
    + unfold pointers_ok. simpl. by rewrite H1.
    + unfold contents. simpl. fold sub. rewrite Hrest'. by apply tail_app_ne.
  - eexists. split; [done|]. split; [done|]. split; [|done].
    split; [split_and!; simpl|split; [simpl|rewrite Hcr in Hcount |- *; done]]; try done.
    + intros. lia.
    + unfold contents. simpl. by erewrite head_app_Some.
    + unfold pointers_ok in *. simpl. fold sub in Hptr.
      rewrite (proj2 (Z.ltb_lt _ _) Hl) in Hptr.
      by rewrite (proj2 (Z.ltb_lt 1 (ss_length sub - 1))) by lia.
    + unfold contents. simpl. fold sub. rewrite Hrest'. by apply tail_app_ne.
Qed.

(** At the end of a substring: go on to the next one, or become empty. *)
Lemma single_ok s :
  ss_wf s → ss_length (m_currentSubstring s) = 1 →
  ∃ s', advancePastSingleCharacterSubstringWithoutUpdatingLineNumber s = Some s' ∧
    advanced s s' ∧ m_currentLine s' = m_currentLine s.
Proof.
  intros (Hsub & Hoth & Hemp & Hcur & Hptr) Hl.
  unfold advancePastSingleCharacterSubstringWithoutUpdatingLineNumber.
  rewrite check_true by lia. simpl.
  pose proof (sub_rest_length _ Hsub) as Hlen. rewrite Hl in Hlen.
  destruct (sub_rest (m_currentSubstring s)) as [|c0 [|]] eqn:Hrest; [simpl in *; lia| |simpl in *; lia].
  pose proof Hsub as (? & ? & _).
  destruct (m_otherSubstrings s) as [|first rest] eqn:Ho.
  - set (s1 := set_currentCharacter 0 (set_sub (set_ss_length 0 (m_currentSubstring s)) s)).
    assert (Hsub0 : sub_wf (set_ss_length 0 (m_currentSubstring s))) by (split_and!; simpl; lia).
    unfold updateAdvanceFunctionPointersForEmptyString.
    rewrite !check_true by (simpl; rewrite ?Ho; done). simpl. eexists. split; [done|].
    assert (Hcr : crosses s = false) by (unfold crosses; rewrite Ho; apply andb_false_r).
    split; [|done]. split; [split_and!|split_and!]; simpl; try done.
    + by rewrite Ho.
    + unfold contents. simpl. by rewrite (sub_rest_empty _ Hsub0), Ho.
    + unfold contents. simpl. by rewrite (sub_rest_empty _ Hsub0), Ho, Hrest.
    + rewrite Hcr. unfold numberOfCharactersConsumed. simpl. rewrite !sub_consumed by done. simpl.
      rewrite u32_add_l. f_equal. lia.
    + unfold counted, sub_counted at 1 3. simpl. by rewrite (sub_rest_empty _ Hsub0), Ho, Hrest.
    + by rewrite Hcr, Ho.
  - inversion_clear Hoth as [|? ? [Hf Hfl] Hrs].
    match goal with |- context [set_currentCharacter _ ?x] =>
      destruct (install_ok x) as (s' & Hs' & Hwf' & Hcon' & Hcl' & Hn' & Hline' & Hsub' & Ho'); [done..|] end.
    assert (Hcr : crosses s = true) by (unfold crosses; rewrite Ho, Hl; done).
    exists s'. split; [exact Hs'|]. split; [|done]. split_and!; [done| |rewrite Hn', Hcr|done| |].
    + rewrite Hcon'. unfold contents. simpl. by rewrite Hrest, Ho.
    + unfold numberOfCharactersConsumed. simpl. rewrite !sub_consumed by done.
      rewrite !u32_add_l, Z.sub_add, u32_idemp. f_equal. lia.
    + unfold counted. rewrite Hsub', Ho'. simpl. unfold sub_counted at 3. by rewrite Hrest, Ho.
    + by rewrite Hcr, Ho, Ho'.
Qed.

Lemma wf_cases s :
  ss_wf s →
  ss_length (m_currentSubstring s) = 0 ∨ ss_length (m_currentSubstring s) = 1 ∨
  1 < ss_length (m_currentSubstring s).
Proof. intros ((? & ? & _) & _). lia. Qed.

Lemma wf_nonempty s : ss_wf s → contents s ≠ [] ↔ 0 < ss_length (m_currentSubstring s).
Proof.
  intros (Hsub & _ & Hemp & _). pose proof (sub_rest_length _ Hsub) as Hlen. unfold contents. split.
  - intros Hne. destruct (decide (ss_length (m_currentSubstring s) = 0)) as [H0|]; [|lia].
    rewrite (Hemp H0), (sub_rest_empty _ Hsub H0) in Hne. done.
  - intros ?. destruct (sub_rest (m_currentSubstring s)); [simpl in *; lia|done].
Qed.

Lemma single_lines_ok s :
  ss_wf s → ss_length (m_currentSubstring s) = 1 →
  ss_doNotExcludeLineNumbers (m_currentSubstring s) = true →
  ∃ s', advancePastSingleCharacterSubstring s = Some s' ∧ advanced s s' ∧ m_currentLine s' = lineAfter s.
Proof.
  intros Hwf Hl Hd. unfold advancePastSingleCharacterSubstring, lineAfter.
  rewrite !check_true by (done || lia). simpl. rewrite Hd, andb_true_r.
  unfold processPossibleNewline. destruct (m_currentCharacter s =? cLineFeed).
  - destruct (single_ok (startNewLine s)) as (s' & ? & ? & ?); [done..|]. eauto.
  - destruct (single_ok s) as (s' & ? & ? & ?); [done..|]. eauto.
Qed.

(** Advancing in the middle of a 16-bit substring. *)
Lemma advance16_ok s :
  ss_wf s → 1 < ss_length (m_currentSubstring s) → ss_is8Bit (m_currentSubstring s) = false →
  ∃ s', advanceWithoutUpdatingLineNumber16 s = Some s' ∧ advanced s s' ∧ m_currentLine s' = m_currentLine s.
Proof.
  intros Hwf Hl H8. destruct (decrement_ok s Hwf Hl) as (c & s' & Hc & Hd & Ha & Hline & _).
  exists s'. unfold advanceWithoutUpdatingLineNumber16, stepCursor, read16. rewrite H8, Hc. simpl. done.
Qed.

Lemma advance16_lines_ok s :
  ss_wf s → 1 < ss_length (m_currentSubstring s) → ss_is8Bit (m_currentSubstring s) = false →
  ss_doNotExcludeLineNumbers (m_currentSubstring s) = true →
  ∃ s', advanceAndUpdateLineNumber16 s = Some s' ∧ advanced s s' ∧ m_currentLine s' = lineAfter s.
Proof.
  intros Hwf Hl H8 Hn. unfold advanceAndUpdateLineNumber16. rewrite check_true by done. simpl.
  assert (Hp : ss_wf (processPossibleNewline s) ∧ m_currentLine (processPossibleNewline s) = lineAfter s
    ∧ m_currentSubstring (processPossibleNewline s) = m_currentSubstring s
    ∧ (∀ s', advanced (processPossibleNewline s) s' ↔ advanced s s')).
  { unfold processPossibleNewline, lineAfter. rewrite Hn, andb_true_r. by case_match. }
  destruct Hp as (Hwf' & Hline & Hsub & Hadv).
  destruct (advance16_ok (processPossibleNewline s)) as (s' & Hs' & ? & ?); [by rewrite ?Hsub..|].
  exists s'. split; [done|]. rewrite <-Hadv, <-Hline. done.
Qed.

(** Advancing in the middle of an 8-bit substring, on the fast path. *)
Lemma advance8_ok s :
  ss_wf s → 1 < ss_length (m_currentSubstring s) → ss_is8Bit (m_currentSubstring s) = true →
  ∃ s', (s1 ← stepCursor read8 s; decrementAndCheckLength s1) = Some s' ∧ advanced s s' ∧
    m_currentLine s' = m_currentLine s.
Proof.
  intros Hwf Hl H8. destruct (decrement_ok s Hwf Hl) as (c & s' & Hc & Hd & Ha & Hline & _).
  exists s'. unfold stepCursor, read8. rewrite H8, Hc. simpl. done.
Qed.

Lemma advance8_lines_ok s :
  ss_wf s → 1 < ss_length (m_currentSubstring s) → ss_is8Bit (m_currentSubstring s) = true →
  ∃ s', advance s = Some s' ∧ advanced s s' ∧ m_currentLine s' = lineAfter s.
Proof.
  intros Hwf Hl H8. destruct (decrement_ok s Hwf Hl) as (c & s' & Hc & Hd & Ha & Hline & Hprior & _).
  pose proof Hwf as (_ & _ & _ & _ & Hptr). unfold pointers_ok in Hptr.
  rewrite (proj2 (Z.ltb_lt _ _) Hl), H8 in Hptr.
  assert (Hflag : hasFlag (m_fastPathFlags s) Use8BitAdvance = true) by (rewrite Hptr; by case_match).
  unfold advance. rewrite Hflag, check_true by lia. simpl.
  unfold stepCursor, read8. rewrite H8, Hc. simpl.
  unfold decrementAndCheckLength in Hd. rewrite check_true in Hd by (simpl; lia). simpl in Hd.
  assert (Hlines : hasFlag (m_fastPathFlags s) Use8BitAdvanceAndUpdateLineNumbers
                   = ss_doNotExcludeLineNumbers (m_currentSubstring s)).
  { rewrite Hptr. by case_match. }
  rewrite Hlines. unfold lineAfter.
  destruct (m_currentCharacter s =? cLineFeed); simpl.
  - destruct (ss_doNotExcludeLineNumbers (m_currentSubstring s)) eqn:Hn; simpl.
    + destruct (u32 (ss_length (m_currentSubstring s) - 1) =? 1) eqn:H1.
      * unfold updateAdvanceFunctionPointersForSingleCharacterSubstring in *.
        rewrite check_true in Hd |- * by (simpl; lia). simpl in *. injection Hd as <-.
        eexists. split; [done|]. split; [exact Ha|done].
      * injection Hd as <-. eexists. split; [done|]. split; [exact Ha|done].
    + destruct (u32 (ss_length (m_currentSubstring s) - 1) =? 1) eqn:H1; by eexists.
  - destruct (u32 (ss_length (m_currentSubstring s) - 1) =? 1) eqn:H1; simpl; by eexists.
Qed.

Lemma flags_clear s :
  ss_wf s → ss_length (m_currentSubstring s) ≤ 1 ∨ ss_is8Bit (m_currentSubstring s) = false →
  hasFlag (m_fastPathFlags s) Use8BitAdvance = false.
Proof.
  intros (_ & _ & _ & _ & Hptr) Hor. unfold pointers_ok in Hptr.
  destruct (1 <? ss_length _) eqn:H1; [destruct Hor as [?|H8]; [lia|rewrite H8 in Hptr]|destruct (_ =? 0)];
    by destruct Hptr as (-> & _).
Qed.

(** [advance] counts a newline of a counted substring and consumes one character. *)
Lemma advance_ok s :
  ss_wf s → 0 < ss_length (m_currentSubstring s) →
  ∃ s', advance s = Some s' ∧ advanced s s' ∧ m_currentLine s' = lineAfter s.
Proof.
  intros Hwf Hpos. destruct (wf_cases s Hwf) as [?|[H1|Hl]]; [lia| |].
  - unfold advance. rewrite flags_clear by (done || lia).
    pose proof Hwf as (_ & _ & _ & _ & Hptr). unfold pointers_ok in Hptr. rewrite H1 in Hptr.
    simpl in Hptr. destruct Hptr as (_ & _ & ->). unfold lineAfter.
    destruct (ss_doNotExcludeLineNumbers _) eqn:Hn.
    + destruct (single_lines_ok s Hwf H1 Hn) as (s' & ? & ? & Hline). exists s'.
      unfold lineAfter in Hline. by rewrite Hn in Hline.
    + rewrite andb_false_r. by apply single_ok.
  - destruct (ss_is8Bit (m_currentSubstring s)) eqn:H8; [by apply advance8_lines_ok|].
    unfold advance. rewrite flags_clear by auto.
    pose proof Hwf as (_ & _ & _ & _ & Hptr). unfold pointers_ok in Hptr.
    rewrite (proj2 (Z.ltb_lt _ _) Hl), H8 in Hptr. destruct Hptr as (_ & _ & ->). unfold lineAfter.
    destruct (ss_doNotExcludeLineNumbers _) eqn:Hn.
    + destruct (advance16_lines_ok s Hwf Hl H8 Hn) as (s' & ? & ? & Hline). exists s'.
      unfold lineAfter in Hline. by rewrite Hn in Hline.
    + rewrite andb_false_r. by apply advance16_ok.
Qed.

Lemma advanceWithoutLine_ok s :
  ss_wf s → 0 < ss_length (m_currentSubstring s) →
  ∃ s', advanceWithoutUpdatingLineNumber s = Some s' ∧ advanced s s' ∧ m_currentLine s' = m_currentLine s.
Proof.
  intros Hwf Hpos. unfold advanceWithoutUpdatingLineNumber.
  destruct (wf_cases s Hwf) as [?|[H1|Hl]]; [lia| |].
  - rewrite flags_clear by (done || lia).
    pose proof Hwf as (_ & _ & _ & _ & Hptr). unfold pointers_ok in Hptr. rewrite H1 in Hptr.
    simpl in Hptr. destruct Hptr as (_ & -> & _). by apply single_ok.
  - pose proof Hwf as (_ & _ & _ & _ & Hptr). unfold pointers_ok in Hptr.
    rewrite (proj2 (Z.ltb_lt _ _) Hl) in Hptr.
    destruct (ss_is8Bit (m_currentSubstring s)) eqn:H8.
    + assert (hasFlag (m_fastPathFlags s) Use8BitAdvance = true) as -> by (rewrite Hptr; by case_match).
      by apply advance8_ok.
    + rewrite flags_clear by auto. destruct Hptr as (_ & -> & _). by apply advance16_ok.
Qed.

Lemma advancePastNewline_ok s :
  ss_wf s → 0 < ss_length (m_currentSubstring s) → m_currentCharacter s = cLineFeed →
  ∃ s', advancePastNewline s = Some s' ∧ advanced s s' ∧ m_currentLine s' = lineAfter s.
Proof.
  intros Hwf Hpos Hnl. unfold advancePastNewline, lineAfter. rewrite check_true by lia. simpl.
  rewrite (proj2 (Z.eqb_eq _ _) Hnl). simpl.
  destruct (wf_cases s Hwf) as [?|[H1|Hl]]; [lia| |].
  - rewrite H1. simpl. pose proof Hwf as (_ & _ & _ & _ & Hptr). unfold pointers_ok in Hptr.
    rewrite H1 in Hptr. simpl in Hptr. destruct Hptr as (_ & _ & ->).
    destruct (ss_doNotExcludeLineNumbers _) eqn:Hn.
    + destruct (single_lines_ok s Hwf H1 Hn) as (s' & ? & ? & Hline). exists s'.
      unfold lineAfter in Hline. by rewrite Hn, (proj2 (Z.eqb_eq _ _) Hnl) in Hline.
    + by apply single_ok.
  - rewrite (proj2 (Z.ltb_lt _ _) Hl).
    set (s0 := if ss_doNotExcludeLineNumbers _ then startNewLine s else s).
    assert (Hs0 : ss_wf s0 ∧ m_currentSubstring s0 = m_currentSubstring s ∧
      (∀ s', advanced s0 s' ↔ advanced s s') ∧
      m_currentLine s0 = if ss_doNotExcludeLineNumbers (m_currentSubstring s)
                         then i32 (m_currentLine s + 1) else m_currentLine s).
    { unfold s0. by case_match. }
    destruct Hs0 as (Hwf0 & Hsub0 & Hadv0 & Hline0).
    destruct (decrement_ok s0 Hwf0) as (c & s' & Hc & Hd & Ha & Hline & _); [by rewrite Hsub0|].
    unfold Substring_currentCharacterPreIncrement. rewrite check_true by (rewrite Hsub0; lia). simpl.
    unfold read8, read16. rewrite Hc. exists s'. rewrite <-Hadv0, <-Hline0.
    split; [|done]. by destruct (ss_is8Bit _).
Qed.

(** In a release build [advancePastNewline] consumes any character. *)
Lemma advancePastNewline_release s :
  ASSERT_DISABLED = true → ss_wf s → 0 < ss_length (m_currentSubstring s) →
  ∃ s', advancePastNewline s = Some s' ∧ advanced s s'.
Proof.
  intros HD Hwf Hpos. unfold advancePastNewline, check, ASSERT_opt. rewrite HD. simpl.
  destruct (wf_cases s Hwf) as [?|[H1|Hl]]; [lia| |].
  - rewrite H1. simpl. destruct (advance_ok s Hwf Hpos) as (s' & Hs' & Ha & _).
    unfold advance in Hs'. rewrite flags_clear in Hs' by (done || lia). by exists s'.
  - rewrite (proj2 (Z.ltb_lt _ _) Hl).
    set (s0 := if ss_doNotExcludeLineNumbers _ then startNewLine s else s).
    assert (Hs0 : ss_wf s0 ∧ m_currentSubstring s0 = m_currentSubstring s ∧
      (∀ s', advanced s0 s' ↔ advanced s s')) by (unfold s0; by case_match).
    destruct Hs0 as (Hwf0 & Hsub0 & Hadv0).
    destruct (decrement_ok s0 Hwf0) as (c & s' & Hc & Hd & Ha & _); [by rewrite Hsub0|].
    unfold Substring_currentCharacterPreIncrement, check, ASSERT_opt. rewrite HD. simpl.
    unfold read8, read16. rewrite Hc. exists s'. rewrite <-Hadv0.
    split; [|done]. by destruct (ss_is8Bit _).
Qed.

(** ** Looking at the whole string *)

Lemma contents_length_foldl others n :
  Forall (λ sub, sub_wf sub ∧ 0 < ss_length sub) others → 0 ≤ n →
  n + Z.of_nat (length (concat (sub_rest <$> others))) < 2 ^ 32 →
  foldl (λ length substring, u32 (length + ss_length substring)) n others
  = n + Z.of_nat (length (concat (sub_rest <$> others))).
Proof.
  intros Hall. revert n. induction Hall as [|sub others [Hwf Hpos] Hall IH]; intros n Hn Hlt; csimpl in *.
  { lia. }
  rewrite length_app in *. pose proof (sub_rest_length sub Hwf).
  rewrite u32_small by lia. rewrite IH by lia. lia.
Qed.

Lemma ss_total_ok s :
  ss_wf s → Z.of_nat (length (contents s)) < 2 ^ 32 → ss_total s = Z.of_nat (length (contents s)).
Proof.
  intros (Hsub & Hoth & _) Hlt. unfold ss_total, contents in *. rewrite length_app in *.
  pose proof (sub_rest_length _ Hsub). rewrite contents_length_foldl by (done || lia). lia.
Qed.

Lemma take_sub_rest sub : sub_wf sub → take (Z.to_nat (ss_length sub)) (sub_rest sub) = sub_rest sub.
Proof. intros Hwf. pose proof (sub_rest_length sub Hwf). apply take_ge. lia. Qed.

Lemma toString_contents s : ss_wf s → toString s = contents s.
Proof.
  intros (Hsub & Hoth & _). unfold toString, contents, Substring_appendTo. simpl.
  fold (sub_rest (m_currentSubstring s)). rewrite take_sub_rest by done.
  generalize (sub_rest (m_currentSubstring s)). induction Hoth as [|sub others [Hwf _] _ IH]; intros l; simpl.
  { by rewrite app_nil_r. }
  rewrite IH. fold (sub_rest sub). by rewrite take_sub_rest, <-app_assoc by done.
Qed.

(** ** Pushing characters back *)

Lemma check_disabled e : ASSERT_DISABLED = true → check e = Some tt.
Proof. intros HD. unfold check, ASSERT_opt. by rewrite HD. Qed.

Lemma pushBack_ok string s :
  ASSERT_DISABLED = true → ss_wf s → str_chars string ≠ [] → str_length string < 2 ^ 32 →
  ∃ s', pushBack string s = Some s' ∧ ss_wf s' ∧ contents s' = str_chars string ++ contents s ∧
    m_isClosed s' = m_isClosed s ∧
    numberOfCharactersConsumed s' = u32 (numberOfCharactersConsumed s - str_length string).
Proof.
  intros HD (Hsub & Hoth & Hemp & Hcur & Hptr) Hne Hlen. unfold pushBack.
  rewrite !check_disabled by done. simpl.
  assert (Hpos : 0 < str_length string).
  { unfold str_length. destruct (str_chars string); [done|]. simpl. lia. }
  assert (Hcount : ∀ n, u32 (u32 (n - str_length string)
    + Substring_numberOfCharactersConsumed (Substring_of string)) = u32 (n - str_length string)).
  { intros n. rewrite sub_consumed by by apply sub_of_wf. simpl. rewrite Z.sub_diag, Z.add_0_r. apply u32_idemp. }
  destruct (ss_length (m_currentSubstring s) =? 0) eqn:H0; simpl;
    match goal with |- context [set_currentCharacter _ ?x] =>
      destruct (install_ok x) as (s' & Hs' & Hwf' & Hcon' & Hcl' & Hn' & _);
        [by apply sub_of_wf|done| |] end.
  - done.
  - exists s'. split; [exact Hs'|]. split_and!; [done| |done|].
    + rewrite Hcon'. unfold contents. simpl. by rewrite sub_of_rest, (sub_rest_empty _ Hsub) by lia.
    + rewrite Hn'. apply Hcount.
  - constructor; [|done]. split; [done|]. destruct Hsub as (? & _). lia.
  - exists s'. split; [exact Hs'|]. split_and!; [done| |done|].
    + rewrite Hcon'. unfold contents. simpl. by rewrite sub_of_rest.
    + rewrite Hn'. apply Hcount.
Qed.

(** ** Looking ahead for a literal *)

Lemma literalMismatch_ok (read : nat → option Z) literal ci i chars :
  (∀ j, (j < length literal)%nat → read (i + j)%nat = chars !! j) →
  (length literal ≤ length chars)%nat →
  literalMismatch read literal i ci = Some (negb (literalMatches literal chars ci)).
Proof.
  revert i chars. induction literal as [|b literal IH]; intros i chars Hread Hlen; [done|].
  destruct chars as [|a chars]; [simpl in *; lia|]. simpl.
  pose proof (Hread 0%nat ltac:(simpl; lia)) as H0. rewrite Nat.add_0_r in H0. rewrite H0. simpl.
  destruct (characterMismatch a b ci); simpl; [done|].
  apply IH; [|simpl in *; lia]. intros j Hj.
  specialize (Hread (S j) ltac:(simpl; lia)). by rewrite Nat.add_succ_comm.
Qed.

Lemma literalMatches_app literal chars rest ci :
  (length literal ≤ length chars)%nat →
  literalMatches literal (chars ++ rest) ci = literalMatches literal chars ci.
Proof.
  revert chars. induction literal as [|b literal IH]; intros [|a chars] Hlen; simpl in *; try done; [lia|].
  by rewrite IH by lia.
Qed.

Lemma advance_contents s s' c rest :
  advanced s s' → contents s = c :: rest → ss_wf s' ∧ contents s' = rest ∧ m_isClosed s' = m_isClosed s.
Proof. intros (? & Hc & _ & ? & _) Hs. rewrite Hs in Hc. done. Qed.

Lemma advancePastSlowLoop_ok literal ci consumed s :
  ASSERT_DISABLED = true → ss_wf s → (length literal ≤ length (contents s))%nat →
  Z.of_nat (length consumed + length (contents s)) < 2 ^ 32 →
  ∃ s', advancePastSlowLoop literal ci consumed s
      = Some (if literalMatches literal (contents s) ci then DidMatch else DidNotMatch, s') ∧
    ss_wf s' ∧ m_isClosed s' = m_isClosed s ∧
    contents s' = if literalMatches literal (contents s) ci then drop (length literal) (contents s)
                  else consumed ++ contents s.
Proof.
  intros HD. revert consumed s. induction literal as [|b literal IH]; intros consumed s Hwf Hlen Hlt; simpl.
  { by exists s. }
  destruct (contents s) as [|a rest] eqn:Hcon; [simpl in *; lia|].
  assert (Hcur : m_currentCharacter s = a) by (destruct Hwf as (_ & _ & _ & -> & _); by rewrite Hcon).
  rewrite Hcur. destruct (characterMismatch a b ci); simpl.
  { case_bool_decide as Hne.
    - destruct (pushBack_ok (mkString false consumed) s) as (s' & -> & Hwf' & Hcon' & Hcl' & _);
        [done..|unfold str_length; simpl in *; lia|].
      exists s'. simpl in *. rewrite Hcon in Hcon'. done.
    - assert (consumed = []) as -> by (by destruct consumed). by exists s. }
  assert (Hpos : 0 < ss_length (m_currentSubstring s)) by (apply wf_nonempty; [done|by rewrite Hcon]).
  destruct (advanceWithoutLine_ok s Hwf Hpos) as (s1 & Hs1 & Ha & _).
  destruct (advance_contents _ _ _ _ Ha Hcon) as (Hwf1 & Hcon1 & Hcl1).
  unfold advancePastNonNewline. rewrite check_disabled by done. simpl. rewrite Hs1. simpl.
  destruct (IH (consumed ++ [a]) s1) as (s' & -> & Hwf' & Hcl' & Hcon');
    [done|rewrite Hcon1; simpl in *; lia|rewrite Hcon1, length_app; simpl in *; lia|].
  exists s'. rewrite Hcon1 in *. split; [done|]. split; [done|]. split; [congruence|].
  rewrite Hcon'. case_match; [done|]. by rewrite <-app_assoc.
Qed.

Lemma advancePast_ok literal ci s :
  ASSERT_DISABLED = true → validLiteral literal → ss_wf s → Z.of_nat (length (contents s)) < 2 ^ 32 →
  ∃ r s', advancePast literal ci s = Some (r, s') ∧ ss_wf s' ∧ m_isClosed s' = m_isClosed s ∧
    contents s' = (if bool_decide (r = DidMatch) then drop (length literal) (contents s) else contents s) ∧
    r = (if (length (contents s) <? length literal)%nat then NotEnoughCharacters
         else if literalMatches literal (contents s) ci then DidMatch else DidNotMatch).
Proof.
  intros HD (Hne & Hlen10 & Hlit) Hwf Hlt. unfold advancePast, advancePastSlowCase.
  rewrite !check_disabled by done. simpl.
  pose proof Hwf as (Hsub & Hoth & Hemp & Hcur & Hptr).
  destruct (Z.of_nat (length literal) + 1 <? ss_length (m_currentSubstring s)) eqn:Hfast.
  2:{ rewrite ss_total_ok by done. destruct (Nat.ltb_spec (length (contents s)) (length literal)).
      - rewrite (proj2 (Z.ltb_lt _ _)) by lia. by exists NotEnoughCharacters, s.
      - rewrite (proj2 (Z.ltb_ge _ _)) by lia.
        destruct (advancePastSlowLoop_ok literal ci [] s) as (s' & -> & ? & ? & ?); [done..|].
        destruct (literalMatches literal (contents s) ci); by eexists _, _. }
  set (sub := m_currentSubstring s) in *.
  assert (Hrd : ∀ j, (if ss_is8Bit sub then read8 sub else read16 sub) (ss_cursor sub + j)%nat = sub_rest sub !! j).
  { intros j. rewrite <-sub_lookup by (done || lia). unfold read8, read16. by destruct (ss_is8Bit sub). }
  pose proof (sub_rest_length sub Hsub) as Hrl.
  rewrite (literalMismatch_ok _ _ _ _ (sub_rest sub)) by (done || lia).
  assert (Hm : literalMatches literal (contents s) ci = literalMatches literal (sub_rest sub) ci).
  { apply literalMatches_app. fold sub. lia. }
  assert (Hge : (length (contents s) <? length literal)%nat = false).
  { apply Nat.ltb_ge. unfold contents. rewrite length_app. fold sub. lia. }
  rewrite Hge, Hm. destruct (literalMatches literal (sub_rest sub) ci); simpl; [|by eexists _, _].
  rewrite Hrd. destruct (lookup_lt_is_Some_2 (sub_rest sub) (length literal)) as [c Hc]; [lia|].
  rewrite Hc. simpl. eexists _, _. split; [done|]. simpl.
  pose proof Hsub as (Hs1 & Hs2 & Hs3). destruct Hs3 as [Hs3 Hs4]; [lia|].
  set (sub' := set_ss_length (u32 (ss_length sub - Z.of_nat (length literal)))
    (set_ss_cursor (ss_cursor sub + length literal) sub)).
  assert (Hu : u32 (ss_length sub - Z.of_nat (length literal)) = ss_length sub - Z.of_nat (length literal)).
  { apply u32_small. lia. }
  assert (Hsub' : sub_wf sub') by (unfold sub', sub_wf; simpl; rewrite Hu; split_and!; [lia..|intros _; split; [done|lia]]).
  assert (Hrest' : sub_rest sub' = drop (length literal) (sub_rest sub)).
  { rewrite (sub_rest_cursor sub') by (done || (unfold sub'; simpl; lia)). simpl.
    rewrite (sub_rest_cursor sub) by (done || lia). by rewrite drop_drop. }
  assert (Hcon' : sub_rest sub' ++ concat (sub_rest <$> m_otherSubstrings s) = drop (length literal) (contents s)).
  { unfold contents. rewrite Hrest'. fold sub. by rewrite drop_app_le by lia. }
  split_and!; try done. split_and!; simpl; try done.
  - rewrite Hu. lia.
  - unfold contents. simpl. rewrite Hrest'. erewrite head_app_Some; [done|].
    by rewrite head_lookup, lookup_drop, Nat.add_0_r.
  - unfold pointers_ok in *. simpl. fold sub in Hptr.
    rewrite (proj2 (Z.ltb_lt 1 (ss_length sub))) in Hptr by lia.
    by rewrite Hu, (proj2 (Z.ltb_lt _ _)) by lia.
Qed.

(** ** Consuming many characters *)

Lemma i32_succ a b : i32 (i32 a + b) = i32 (a + b).
Proof.
  unfold i32. f_equal.
  replace ((a + 2 ^ 31) mod 2 ^ 32 - 2 ^ 31 + b + 2 ^ 31) with ((a + 2 ^ 31) mod 2 ^ 32 + b) by lia.
  rewrite Zplus_mod_idemp_l. f_equal. lia.
Qed.

Lemma counted_contents s : contents s = fst <$> counted s.
Proof.
  unfold contents, counted, sub_counted at 1. rewrite fmap_app, <-list_fmap_compose. f_equal.
  { symmetry. apply list_fmap_id. }
  induction (m_otherSubstrings s) as [|sub others IH]; [done|]. csimpl. rewrite fmap_app, <-IH. f_equal.
  unfold sub_counted. rewrite <-list_fmap_compose. symmetry. apply list_fmap_id.
Qed.

Lemma counted_head s x rest :
  ss_wf s → 0 < ss_length (m_currentSubstring s) → counted s = x :: rest →
  x = (m_currentCharacter s, ss_doNotExcludeLineNumbers (m_currentSubstring s)).
Proof.
  intros (Hsub & _ & _ & Hcur & _) Hpos Hc. rewrite Hcur, counted_contents, Hc. simpl.
  unfold counted, sub_counted in Hc. pose proof (sub_rest_length _ Hsub).
  destruct (sub_rest (m_currentSubstring s)); [simpl in *; lia|]. by injection Hc as <- _.
Qed.

Lemma advanceN_ok n s :
  ss_wf s → (n ≤ length (contents s))%nat →
  ∃ s', advanceN n s = Some s' ∧ ss_wf s' ∧ counted s' = drop n (counted s) ∧
    m_isClosed s' = m_isClosed s ∧
    i32 (m_currentLine s') = i32 (m_currentLine s + countedNewlines (take n (counted s))) ∧
    u32 (numberOfCharactersConsumed s')
    = u32 (numberOfCharactersConsumed s + Z.of_nat n
           - (Z.of_nat (length (m_otherSubstrings s)) - Z.of_nat (length (m_otherSubstrings s')))).
Proof.
  revert s. induction n as [|n IH]; intros s Hwf Hn.
  { exists s. simpl. split_and!; try done; f_equal; unfold countedNewlines; simpl; lia. }
  assert (Hpos : 0 < ss_length (m_currentSubstring s)).
  { apply wf_nonempty; [done|]. intros E. rewrite E in Hn. simpl in Hn. lia. }
  destruct (advance_ok s Hwf Hpos) as (s1 & Hs1 & (Hwf1 & Hcon1 & Hnum1 & Hcl1 & Hctd1 & Hoth1) & Hline1).
  destruct (counted s) as [|x rest] eqn:Hctd.
  { rewrite counted_contents, Hctd in Hn. simpl in Hn. lia. }
  pose proof (counted_head s x rest Hwf Hpos Hctd) as Hx.
  destruct (IH s1 Hwf1) as (s' & Hs' & Hwf' & Hctd' & Hcl' & Hline' & Hnum').
  { rewrite Hcon1. destruct (contents s); simpl in *; lia. }
  exists s'. simpl. rewrite Hs1. simpl in *. split_and!; try done; try congruence.
  - rewrite Hline', Hctd1, Hline1. simpl. unfold lineAfter, countedNewlines. rewrite filter_cons.
    rewrite Hx. destruct (m_currentCharacter s =? cLineFeed) eqn:E1,
      (ss_doNotExcludeLineNumbers (m_currentSubstring s)) eqn:E2; cbn [andb].
    + assert (m_currentCharacter s = cLineFeed) as -> by lia.
      rewrite decide_True by done. rewrite i32_succ. f_equal. simpl. lia.
    + rewrite decide_False by congruence. done.
    + rewrite decide_False by (intros [=]; lia). done.
    + rewrite decide_False by congruence. done.
  - rewrite Hnum', Hnum1.
    replace (u32 (numberOfCharactersConsumed s + (if crosses s then 0 else 1)) + Z.of_nat n
       - (Z.of_nat (length (m_otherSubstrings s1)) - Z.of_nat (length (m_otherSubstrings s'))))
      with (u32 (numberOfCharactersConsumed s + (if crosses s then 0 else 1)) + (Z.of_nat n
       - (Z.of_nat (length (m_otherSubstrings s1)) - Z.of_nat (length (m_otherSubstrings s'))))) by lia.
    rewrite u32_add_l. f_equal. rewrite Hoth1. destruct (crosses s); lia.
Qed.

(** ** Building strings *)

Lemma empty_wf : ss_wf emptySegmentedString.
Proof. split_and!; try done. Qed.

Lemma appendSubstring_ok substring s :
  ss_wf s → sub_wf substring → m_isClosed s = false →
  ∃ s', appendSubstring substring s = Some s' ∧ ss_wf s' ∧
    contents s' = contents s ++ sub_rest substring ∧ m_isClosed s' = false ∧
    m_currentLine s' = m_currentLine s ∧
    (ss_length substring = 0 ∨ 0 < ss_length (m_currentSubstring s')).
Proof.
  intros Hwf Hsub Hcl. unfold appendSubstring. rewrite check_true by (by rewrite Hcl). simpl.
  pose proof Hwf as (Hcur & Hoth & Hemp & Hchar & Hptr).
  destruct (ss_length substring =? 0) eqn:H0.
  { exists s. rewrite (sub_rest_empty substring) by (done || lia). rewrite app_nil_r. split_and!; try done; lia. }
  assert (Hpos : 0 < ss_length substring) by (destruct Hsub as (? & _); lia).
  destruct (ss_length (m_currentSubstring s) =? 0) eqn:Hc0; simpl.
  - match goal with |- context [set_currentCharacter _ ?x] =>
      destruct (install_ok x) as (s' & Hs' & Hwf' & Hcon' & Hcl' & Hn' & Hline' & Hsub' & _); [done..|] end.
    exists s'. split; [exact Hs'|]. split_and!; [done| |by rewrite Hcl'|done|rewrite Hsub'; by right].
    rewrite Hcon'. unfold contents. simpl.
    rewrite Hemp by lia. rewrite (sub_rest_empty (m_currentSubstring s)) by (done || lia). simpl.
    by rewrite app_nil_r.
  - assert (Hcurpos : 0 < ss_length (m_currentSubstring s)) by (destruct Hcur as (? & _); lia).
    eexists. split; [done|].
    assert (Hcon : contents (set_others (m_otherSubstrings s ++ [substring]) s) = contents s ++ sub_rest substring).
    { unfold contents. simpl. rewrite fmap_app, concat_app. simpl. by rewrite app_nil_r, app_assoc. }
    split_and!; [|done..|by right]. split_and!; simpl; try done.
    + apply Forall_app. split; [done|]. by constructor.
    + lia.
    + rewrite Hchar, Hcon. apply wf_nonempty in Hcurpos; [|done]. by destruct (contents s).
Qed.

Lemma append_ok string s :
  ss_wf s → ss_wf string → m_isClosed s = false →
  ∃ s', append string s = Some s' ∧ ss_wf s' ∧ contents s' = contents s ++ contents string ∧
    m_isClosed s' = false ∧ m_currentLine s' = m_currentLine s.
Proof.
  intros Hwf Hstr Hcl. pose proof Hstr as (Hsub & Hoth & Hemp & _).
  destruct (appendSubstring_ok (m_currentSubstring string) s Hwf Hsub Hcl)
    as (s1 & Hs1 & (Hsub1 & Hoth1 & Hemp1 & Hcur1 & Hptr1) & Hcon1 & Hcl1 & Hline1 & Hpos1).
  unfold append. rewrite Hs1. simpl. eexists. split; [done|].
  assert (Hcon : contents (set_others (m_otherSubstrings s1 ++ m_otherSubstrings string) s1)
                 = contents s ++ contents string).
  { unfold contents at 1. simpl. rewrite fmap_app, concat_app, app_assoc. fold (contents s1).
    rewrite Hcon1. unfold contents. by rewrite <-!app_assoc. }
  split_and!; [|done..]. split_and!; simpl; try done.
  - by apply Forall_app.
  - intros H0. destruct Hpos1 as [Hz|?]; [|lia]. by rewrite (Hemp1 H0), (Hemp Hz).
  - rewrite Hcon, Hcur1, Hcon1. unfold contents at 3. rewrite app_assoc.
    destruct Hpos1 as [Hz|Hpos].
    + by rewrite (Hemp Hz), app_nil_r.
    + assert (Hne : contents s1 ≠ []) by (apply wf_nonempty; done).
      rewrite Hcon1 in Hne. by destruct (contents s ++ sub_rest (m_currentSubstring string)).
Qed.

Lemma clear_ok s :
  ss_wf s →
  ∃ s', clear s = Some s' ∧ ss_wf s' ∧ contents s' = [] ∧ m_isClosed s' = false ∧ m_currentLine s' = 0 ∧
    numberOfCharactersConsumed s' = str_length (ss_string (m_currentSubstring s)).
Proof.
  intros ((Hlen & Hlt & _) & _). unfold clear, updateAdvanceFunctionPointersForEmptyString.
  rewrite !check_true by done. simpl. eexists. split; [done|].
  assert (Hsub0 : sub_wf (set_ss_length 0 (m_currentSubstring s))) by (split_and!; simpl; lia).
  assert (Hcon : sub_rest (set_ss_length 0 (m_currentSubstring s)) = []) by by apply sub_rest_empty.
  split_and!; try done.
  - split_and!; try done. unfold contents. simpl. by rewrite Hcon.
  - unfold contents. simpl. by rewrite Hcon.
  - unfold numberOfCharactersConsumed. simpl. rewrite sub_consumed by done. simpl.
    rewrite u32_small; lia.
Qed.

Lemma of_ok string :
  str_length string < 2 ^ 32 →
  ∃ s, SegmentedString_of string = Some s ∧ ss_wf s ∧ contents s = str_chars string ∧
    m_isClosed s = false ∧ m_otherSubstrings s = [] ∧ m_currentLine s = 0 ∧ numberOfCharactersConsumed s = 0.
Proof.
  intros Hlt. unfold SegmentedString_of. simpl. unfold str_length in *.
  destruct (Z.of_nat (length (str_chars string)) =? 0) eqn:H0.
  - assert (str_chars string = []) as E by (destruct (str_chars string); simpl in *; done || lia).
    eexists. split; [done|]. unfold contents. simpl. rewrite sub_of_rest, E. split_and!; try done.
    + split_and!; try done; [by apply sub_of_wf|unfold contents; simpl; by rewrite sub_of_rest, E|].
      unfold pointers_ok. simpl. unfold str_length. by rewrite E.
    + unfold numberOfCharactersConsumed, Substring_numberOfCharactersConsumed. simpl. by rewrite Z.sub_diag.
  - match goal with |- context [set_currentCharacter _ ?x] =>
      destruct (install_ok x) as (s' & Hs' & Hwf' & Hcon' & Hcl' & Hn' & Hline' & Hsub' & Ho');
        [by apply sub_of_wf|simpl; unfold str_length; lia|done|] end.
    exists s'. split; [exact Hs'|]. rewrite Hcon', Hcl', Hn', Hline', Ho'. split_and!; try done.
    + unfold contents. simpl. by rewrite sub_of_rest, app_nil_r.
    + unfold numberOfCharactersConsumed, Substring_numberOfCharactersConsumed. simpl. by rewrite Z.sub_diag.
Qed.

Lemma exclude_rest subs : concat (sub_rest <$> (set_ss_exclude <$> subs)) = concat (sub_rest <$> subs).
Proof. induction subs as [|x subs IH]; [done|]. rewrite !fmap_cons. cbn [concat]. by rewrite IH. Qed.

Lemma exclude_ok s :
  ss_wf s → ∃ s', setExcludeLineNumbers s = Some s' ∧ ss_wf s' ∧ contents s' = contents s ∧ m_isClosed s' = m_isClosed s.
Proof.
  intros Hwf. unfold setExcludeLineNumbers. destruct (ss_doNotExcludeLineNumbers _); cbn [negb]; [|by exists s]. pose proof Hwf as (Hsub & Hoth & Hemp & Hcur & Hptr). set (x := set_others _ _).
  assert (Hcon : contents x = contents s) by (unfold contents, x; cbn; by rewrite exclude_rest).
  destruct (pointers_updated x) as (flags & f & g & E & Hp); [unfold x; cbn; destruct Hsub as [[? _] _]; lia|intros H0; split; [unfold x; cbn; by rewrite (Hemp H0)|]|].
  { unfold x. cbn. rewrite Hcur. assert (Hnil : contents s = []) by (unfold contents; rewrite (Hemp H0), (sub_rest_empty _ Hsub H0); done). by rewrite Hnil. }
  exists (set_pointers flags f g x). split; [exact E|]. split; [|split; [exact Hcon|done]]. split_and!.
  - exact Hsub.
  - unfold x. cbn. apply Forall_fmap. eapply Forall_impl; [exact Hoth|]. by intros sub Hs.
  - intros H0. unfold x. cbn. by rewrite (Hemp H0).
  - change (contents (set_pointers flags f g x)) with (contents x). rewrite Hcon. exact Hcur.
  - exact Hp.
Qed.

(** ** The interface, operation by operation *)

Lemma rel_empty s l : ss_rel s l → isEmpty s = bool_decide (l_chars l = []).
Proof.
  intros (Hwf & <- & _). unfold isEmpty. pose proof (wf_nonempty s Hwf) as Hne.
  pose proof (wf_cases s Hwf). case_bool_decide; apply Z.eqb_eq || apply Z.eqb_neq.
  - destruct (decide (ss_length (m_currentSubstring s) = 0)); [done|]. exfalso. apply Hne; [lia|done].
  - apply Hne in H1. lia.
Qed.

Lemma rel_current s l : ss_rel s l → m_currentCharacter s = l_current l.
Proof.
  intros ((_ & _ & _ & Hcur & _) & Hc & _). unfold l_current. rewrite Hcur, Hc. by destruct (l_chars l).
Qed.

Lemma rel_length s l : ss_rel s l → ss_total s = Z.of_nat (length (l_chars l)).
Proof. intros (Hwf & <- & _ & Hpos & Hlt). apply ss_total_ok; [done|]. lia. Qed.

(** Moving one character on, for any of the advance operations. *)
Lemma rel_step s l s' :
  ss_rel s l → l_chars l ≠ [] → advanced s s' → ss_rel s' (l_drop 1 l).
Proof.
  intros (Hwf & Hcon & Hcl & Hpos & Hlt) Hne (Hwf' & Hcon' & _ & Hcl' & _).
  destruct (l_chars l) as [|c rest] eqn:E; [done|]. split_and!; try done.
  - rewrite Hcon', Hcon. unfold l_drop. simpl. by rewrite E.
  - by rewrite Hcl'.
  - unfold l_drop. simpl. lia.
  - unfold l_drop. simpl. rewrite E. simpl in *. rewrite drop_0. lia.
Qed.

Lemma advanceEmpty_ok s :
  ss_wf s → contents s = [] → advance s = Some s ∧ advanceWithoutUpdatingLineNumber s = Some s ∧
  (ASSERT_DISABLED = true → advancePastNewline s = Some s).
Proof.
  intros Hwf Hcon. assert (H0 : ss_length (m_currentSubstring s) = 0).
  { destruct (wf_cases s Hwf) as [?|Hor]; [done|]. exfalso.
    assert (Hp : 0 < ss_length (m_currentSubstring s)) by lia. by apply wf_nonempty in Hp. }
  pose proof Hwf as (_ & _ & Hemp & Hcur & Hptr). unfold pointers_ok in Hptr. rewrite H0 in Hptr.
  simpl in Hptr. destruct Hptr as (Hf & Hg & Hh).
  assert (He : advanceEmpty s = Some s).
  { unfold advanceEmpty. rewrite !check_true; [done|..]; rewrite ?Hcur, ?Hcon, ?Hemp, ?H0; done. }
  unfold advance, advanceWithoutUpdatingLineNumber, advancePastNewline. rewrite Hf, Hg, Hh, H0. simpl.
  split_and!; [done..|]. intros. by rewrite check_disabled.
Qed.

Lemma rel_advance : simOpt ss_rel advance l_advance.
Proof.
  intros s l Hrel. pose proof Hrel as (Hwf & Hcon & _). unfold l_advance.
  destruct (l_chars l) as [|c rest] eqn:E.
  - exists s. by destruct (advanceEmpty_ok s Hwf Hcon) as (-> & _).
  - destruct (advance_ok s Hwf) as (s' & Hs' & Ha & _).
    { apply wf_nonempty; [done|]. by rewrite Hcon. }
    exists s'. split; [done|]. eapply rel_step; [done|by rewrite E|done].
Qed.

Lemma rel_advancePastNonNewline :
  simOpt ss_rel advancePastNonNewline (src_advancePastNonNewline (S := LSource)).
Proof.
  intros s l Hrel. pose proof Hrel as (Hwf & Hcon & _). simpl. unfold advancePastNonNewline, check, ASSERT_opt.
  rewrite (rel_current s l Hrel). destruct (ASSERT_DISABLED || _); [simpl|done]. unfold l_advance.
  destruct (l_chars l) as [|c rest] eqn:E.
  - exists s. by destruct (advanceEmpty_ok s Hwf Hcon) as (_ & -> & _).
  - destruct (advanceWithoutLine_ok s Hwf) as (s' & Hs' & Ha & _).
    { apply wf_nonempty; [done|]. by rewrite Hcon. }
    exists s'. split; [done|]. eapply rel_step; [done|by rewrite E|done].
Qed.

Lemma rel_advancePastNewline :
  simOpt ss_rel advancePastNewline (src_advancePastNewline (S := LSource)).
Proof.
  intros s l Hrel. pose proof Hrel as (Hwf & Hcon & _). simpl. unfold ASSERT_opt.
  destruct (ASSERT_DISABLED) eqn:HD; simpl.
  - unfold l_advance. destruct (l_chars l) as [|c rest] eqn:E.
    { exists s. destruct (advanceEmpty_ok s Hwf Hcon) as (_ & _ & ->); done. }
    assert (Hpos : 0 < ss_length (m_currentSubstring s)) by (apply wf_nonempty; [done|by rewrite Hcon]).
    destruct (decide (m_currentCharacter s = cLineFeed)) as [Hnl|Hnl].
    + destruct (advancePastNewline_ok s Hwf Hpos Hnl) as (s' & ? & ? & _).
      exists s'. split; [done|]. eapply rel_step; [done|by rewrite E|done].
    + destruct (advancePastNewline_release s HD Hwf Hpos) as (s' & ? & ?).
      exists s'. split; [done|]. eapply rel_step; [done|by rewrite E|done].
  - destruct (l_current l =? cLineFeed) eqn:Hnl; [|done]. unfold l_advance.
    pose proof (rel_current s l Hrel) as Hcur.
    destruct (l_chars l) as [|c rest] eqn:E; [unfold l_current in Hnl; by rewrite E in Hnl|].
    destruct (advancePastNewline_ok s Hwf) as (s' & ? & ? & _); [|lia|].
    { apply wf_nonempty; [done|]. by rewrite Hcon. }
    exists s'. split; [done|]. eapply rel_step; [done|by rewrite E|done].
Qed.

Lemma rel_advancePast literal ci s l r l' :
  ASSERT_DISABLED = true → validLiteral literal → ss_rel s l →
  l_advancePast literal ci l = (r, l') →
  ∃ s', advancePast literal ci s = Some (r, s') ∧ ss_rel s' l'.
Proof.
  intros HD Hlit (Hwf & Hcon & Hcl & Hpos & Hlt) Hr.
  destruct (advancePast_ok literal ci s HD Hlit Hwf) as (r' & s' & Hs' & Hwf' & Hcl' & Hcon' & Hr');
    [rewrite Hcon; lia|].
  rewrite Hcon in *. unfold l_advancePast in Hr.
  destruct (Nat.ltb_spec (length (l_chars l)) (length literal)) as [|Hge];
    [|destruct (literalMatches literal (l_chars l) ci)]; injection Hr as <- <-; subst r';
    exists s'; (split; [done|]); rewrite ?bool_decide_true, ?bool_decide_false in Hcon' by done;
    split_and!; try done; try congruence.
  - by rewrite Hcl'.
  - unfold l_drop. simpl. lia.
  - unfold l_drop. simpl. rewrite length_drop. lia.
Qed.

Lemma rel_pushBack string :
  ASSERT_DISABLED = true → simOpt ss_rel (pushBack (builderString string)) (l_pushBack string).
Proof.
  intros HD s l (Hwf & Hcon & Hcl & Hpos & Hlt). unfold l_pushBack.
  destruct (bool_decide (string ≠ [])) eqn:Hne; [|done]. apply bool_decide_eq_true in Hne.
  destruct (bool_decide (Z.of_nat (length string) ≤ l_consumed l)) eqn:Hle; [|done].
  apply bool_decide_eq_true in Hle. destruct (forallb _ string); [|done]. simpl.
  destruct (pushBack_ok (builderString string) s HD Hwf) as (s' & Hs' & Hwf' & Hcon' & Hcl' & _);
    [done|unfold str_length; simpl; lia|].
  simpl in Hcon'. exists s'. split; [done|]. split_and!; simpl; try done; try congruence; [lia|].
  rewrite length_app. lia.
Qed.

#[export] Instance SegmentedString_laws : CharSourceLaws SegmentedString := {|
  src_rel := ss_rel;
  law_isEmpty := rel_empty;
  law_length := rel_length;
  law_isClosed s l (Hrel : ss_rel s l) := proj1 (proj2 (proj2 Hrel));
  law_currentCharacter := rel_current;
  law_advance := rel_advance;
  law_advancePastNonNewline := rel_advancePastNonNewline;
  law_advancePastNewline := rel_advancePastNewline;
  law_advancePast literal ci s l r l' HD Hlit Hrel Hr :=
    rel_advancePast literal ci s l r l' HD Hlit Hrel
      (f_equal (default (r, l')) Hr);
  law_pushBack := rel_pushBack;
|}.
End Facts.

(** ** The properties of the segmented string *)

Section Properties.
Context `{Build}.

(** What appending, closing and clearing do to the reference source. *)
Definition l_append (chars : list Z) (l : LSource) : LSource := mkLSource (l_chars l ++ chars) (l_consumed l) (l_closed l).
Definition l_close (l : LSource) : LSource := mkLSource (l_chars l) (l_consumed l) true.
(** There is room for that many more characters in a 32-bit count. *)
Definition room (n : nat) (l : LSource) : Prop := l_consumed l + Z.of_nat (length (l_chars l)) + Z.of_nat n < 2 ^ 32.

Lemma rel_append string s l :
  ss_rel s l → ss_wf string → l_closed l = false → room (length (contents string)) l →
  ∃ s', append string s = Some s' ∧ ss_rel s' (l_append (contents string) l).
Proof.
  intros (Hwf & Hcon & Hcl & Hpos & _) Hstr Ho Hroom.
  destruct (append_ok string s Hwf Hstr) as (s' & E & Hwf' & Hcon' & Hcl' & _); [congruence|]. exists s'. split; [done|].
  unfold room in Hroom. split; [done|].
  split_and!; [cbn; by rewrite Hcon', Hcon|cbn; congruence|done|cbn; rewrite length_app; lia].
Qed.

(** C11: Refinement. A segmented string behaves like the flat list of its unconsumed
    characters: emptiness, length, current character and text; the three ways to
    advance, with the assertions two of them make on the current character; appending a
    string or a segmented string to one that is not closed, closing, clearing and
    excluding line numbers never fault and stay in the representation relation, in debug and in
    release builds, whatever the segmentation, the 8-bit or 16-bit storage and the
    fast-path flags. In release builds this holds too for the look-ahead for a literal (fast
    path inside one substring and slow path across several) and for pushing consumed
    characters back, whose assertion on the count of consumed characters can fail. That
    count, lines and columns are not part of the relation. *)
Theorem segmentedString_refines_list :
  (∀ s l, ss_rel s l →
     isEmpty s = bool_decide (l_chars l = []) ∧ ss_total s = Z.of_nat (length (l_chars l)) ∧
     m_currentCharacter s = l_current l ∧ toString s = l_chars l) ∧
  simOpt ss_rel advance l_advance ∧
  simOpt ss_rel advancePastNonNewline (λ l, ASSERT_opt (negb (l_current l =? cLineFeed)) (l_advance l)) ∧
  simOpt ss_rel advancePastNewline (λ l, ASSERT_opt (l_current l =? cLineFeed) (l_advance l)) ∧
  (∀ string s l, ss_rel s l → ss_wf string → l_closed l = false → room (length (contents string)) l →
     ∃ s', append string s = Some s' ∧ ss_rel s' (l_append (contents string) l)) ∧
  (∀ string s l, ss_rel s l → l_closed l = false → room (length string) l →
     ∃ s', append_string (builderString string) s = Some s' ∧ ss_rel s' (l_append string l)) ∧
  (∀ s l, ss_rel s l → l_closed l = false → ∃ s', close s = Some s' ∧ ss_rel s' (l_close l)) ∧
  (∀ s l, ss_rel s l → ∃ s', clear s = Some s' ∧ ss_rel s' (mkLSource [] 0 false)) ∧
  (∀ s l, ss_rel s l → ∃ s', setExcludeLineNumbers s = Some s' ∧ ss_rel s' l) ∧
  (ASSERT_DISABLED = true → ∀ literal ci s l, validLiteral literal → ss_rel s l →
     ∃ s', advancePast literal ci s = Some (fst (l_advancePast literal ci l), s') ∧
           ss_rel s' (snd (l_advancePast literal ci l))) ∧
  (ASSERT_DISABLED = true → ∀ string, simOpt ss_rel (pushBack (builderString string)) (l_pushBack string)).
Proof.
  split_and!.
  - intros s l Hrel. split_and!; [by apply rel_empty|by apply rel_length|by apply rel_current|].
    destruct Hrel as (Hwf & <- & _). by apply toString_contents.
  - apply rel_advance.
  - exact rel_advancePastNonNewline.
  - exact rel_advancePastNewline.
  - apply rel_append.
  - intros string s l (Hwf & Hcon & Hcl & Hpos & _) Ho Hroom. unfold room in Hroom. destruct (appendSubstring_ok (Substring_of (builderString string)) s Hwf) as (s' & E & Hwf' & Hcon' & Hcl' & _); [apply sub_of_wf; unfold str_length; cbn; lia|congruence|].
    exists s'. split; [exact E|]. rewrite sub_of_rest in Hcon'. split; [done|]. split_and!; [cbn; by rewrite Hcon', Hcon|cbn; congruence|done|cbn; rewrite length_app; lia].
  - intros s l (Hwf & Hcon & Hcl & Hpos & Hlt) Ho. unfold close. rewrite check_true by (by rewrite Hcl, Ho). eexists. split; [done|]. split; [exact Hwf|]. split; [exact Hcon|]. by split_and!.
  - intros s l (Hwf & _). destruct (clear_ok s Hwf) as (s' & E & Hwf' & Hcon' & Hcl' & _). exists s'. split; [done|]. split; [done|]. by split_and!.
  - intros s l (Hwf & Hcon & Hcl & Hb). destruct (exclude_ok s Hwf) as (s' & E & Hwf' & Hcon' & Hcl'). exists s'. split; [done|]. split; [done|]. rewrite Hcon', Hcl'. exact (conj Hcon (conj Hcl Hb)).
  - intros HD literal ci s l Hlit Hrel. eapply rel_advancePast; [done..|].
    by destruct (l_advancePast literal ci l).
  - intros HD string. by apply rel_pushBack.
Qed.

(** C40: Line counting. Consuming [n] characters with [advance], across any number
    of substrings, leaves the rest of the contents, and moves the line number
    forward by exactly the newlines consumed from substrings that count lines
    (as a 32-bit [int]). *)
Theorem advance_counts_lines n s :
  ss_wf s → (n ≤ length (contents s))%nat → - 2 ^ 31 ≤ m_currentLine s →
  m_currentLine s + countedNewlines (take n (counted s)) < 2 ^ 31 →
  ∃ s', advanceN n s = Some s' ∧ ss_wf s' ∧ contents s' = drop n (contents s) ∧
    i32 (m_currentLine s') = m_currentLine s + countedNewlines (take n (counted s)).
Proof.
  intros Hwf Hn Hlo Hhi.
  destruct (advanceN_ok n s Hwf Hn) as (s' & Hs' & Hwf' & Hctd' & _ & Hline & _).
  exists s'. split_and!; try done.
  - by rewrite !counted_contents, Hctd', fmap_drop.
  - rewrite Hline. apply i32_small. unfold countedNewlines in *. lia.
Qed.

(** The consumed-character count. Consuming the whole contents of a string
    made of [k] substrings advances [numberOfCharactersConsumed] by the number
    of characters less [k - 1] (modulo 2^32): the last character of each
    substring that is followed by another is never counted. Columns and
    attribute offsets, which are differences of this count, inherit the drift. *)
Theorem consumed_count_drifts s :
  ss_wf s →
  ∃ s', advanceN (length (contents s)) s = Some s' ∧ contents s' = [] ∧
    u32 (numberOfCharactersConsumed s')
    = u32 (numberOfCharactersConsumed s + Z.of_nat (length (contents s))
           - Z.of_nat (length (m_otherSubstrings s))).
Proof.
  intros Hwf. destruct (advanceN_ok (length (contents s)) s Hwf) as (s' & Hs' & Hwf' & Hctd' & _ & _ & Hnum); [done|].
  assert (Hcon : contents s' = []).
  { by rewrite counted_contents, Hctd', fmap_drop, <-counted_contents, drop_all. }
  exists s'. split; [done|]. split; [done|]. rewrite Hnum. f_equal.
  pose proof Hwf' as (Hsub' & _ & Hemp' & _).
  assert (ss_length (m_currentSubstring s') = 0) as H0.
  { destruct (decide (ss_length (m_currentSubstring s') = 0)); [done|].
    assert (Hp : 0 < ss_length (m_currentSubstring s')) by (destruct Hsub' as (? & _); lia).
    apply wf_nonempty in Hp; done. }
  rewrite (Hemp' H0). simpl. lia.
Qed.

(** Appending. Appending a string (fresh, or partly consumed and itself
    segmented) to an open one keeps the representation invariant and appends
    its unconsumed characters, as [toString] shows. *)
Theorem append_appends string s :
  ss_wf s → ss_wf string → m_isClosed s = false →
  ∃ s', append string s = Some s' ∧ ss_wf s' ∧ toString s' = toString s ++ toString string ∧
    m_isClosed s' = false.
Proof.
  intros Hwf Hstr Hcl. destruct (append_ok string s Hwf Hstr Hcl) as (s' & Hs' & Hwf' & Hcon & Hcl' & _).
  exists s'. by rewrite !toString_contents.
Qed.
End Properties.

(** ** Witnesses: two segments, an 8-bit and a 16-bit one, read by a release build *)

Definition sampleSegments : SegmentedString :=
  mkSS (Substring_of (mkString true [97; 10])) [Substring_of (mkString false [8364; 98])] false 97 0 0 0 3
    fn_advanceEmpty fn_advanceEmpty.

Lemma sampleSegments_wf : ss_wf sampleSegments.
Proof.
  split_and!; try done.
  constructor; [|constructor]. split; [|done]. split_and!; try done.
Qed.

Lemma segmentedString_refines_list_witness : let _ := Build_Build true in
  ∃ s', advanceN 2 sampleSegments = Some s' ∧ ss_rel s' (mkLSource [8364; 98] 2 false).
Proof.
  intros b. destruct (@segmentedString_refines_list b) as (_ & Hadv & _).
  destruct (Hadv sampleSegments (mkLSource [97; 10; 8364; 98] 0 false)) as (s1 & H1 & Hr1).
  { split; [apply sampleSegments_wf|]. split_and!; done. }
  destruct (Hadv s1 _ Hr1) as (s2 & H2 & Hr2). exists s2. split; [|exact Hr2].
  change (advance sampleSegments ≫= (λ s, advance s ≫= Some) = Some s2).
  rewrite H1. change (advance s1 ≫= Some = Some s2). by rewrite H2.
Defined.

Lemma advance_counts_lines_witness : let _ := Build_Build false in
  ∃ s', advanceN 3 sampleSegments = Some s' ∧ ss_wf s' ∧ contents s' = [98] ∧ i32 (m_currentLine s') = 1.
Proof.
  intros b. apply (advance_counts_lines 3 sampleSegments); [apply sampleSegments_wf|simpl; lia|done|by vm_compute].
Defined.

Lemma consumed_count_drifts_witness : let _ := Build_Build true in
  ∃ s', advanceN 4 sampleSegments = Some s' ∧ contents s' = [] ∧ u32 (numberOfCharactersConsumed s') = 3.
Proof. intros b. apply (consumed_count_drifts sampleSegments), sampleSegments_wf. Defined.

Lemma append_appends_witness : let _ := Build_Build false in
  ∃ s', append sampleSegments sampleSegments = Some s' ∧ ss_wf s' ∧
    toString s' = [97; 10; 8364; 98; 97; 10; 8364; 98] ∧ m_isClosed s' = false.
Proof. intros b. apply (append_appends sampleSegments sampleSegments); [apply sampleSegments_wf..|done]. Defined.

(** The column depends on how the text is stored. Reading the same text, a
    newline and then two characters, from an 8-bit string and from a 16-bit
    string gives different columns: the 8-bit path starts the new line after it
    has moved past the newline, the 16-bit path before. *)
Theorem column_depends_on_width :
  let _ := Build_Build true in
  let column (is8Bit : bool) :=
    s ← SegmentedString_of (mkString is8Bit [97; 10; 98; 99; 100]);
    s ← advanceN 4 s;
    Some (currentLine s, currentColumn s) in
  column true = Some (1, 2) ∧ column false = Some (1, 3).
Proof. by vm_compute. Qed.

(** The miscounted boundary breaks an assertion. In a debug build, pushing
    back three characters that were consumed from three one-character segments
    ([&], [#], [x] arriving one by one) fails: the count says that fewer were
    consumed. *)
Theorem pushBack_assertion_fails :
  let _ := Build_Build false in
  let piece c := SegmentedString_of (mkString true [c]) in
  (s ← piece 38; a ← piece 35; s ← append a s; b ← piece 120; s ← append b s; c ← piece 121; s ← append c s;
   s ← advanceN 3 s; Some (contents s, numberOfCharactersConsumed s, pushBack (mkString true [38; 35; 120]) s))
  = Some ([121], 0, None).
Proof. by vm_compute. Qed.
