(* ===== verification/HTMLInputStream.v ===== *)
(** * The input stream

    Model of [Source/WebCore/html/parser/HTMLInputStream.h]: the text a parser reads. What the
    network sends goes to its end; what a script writes goes to the insertion point, before the
    rest of the document, which an insertion point record keeps while the script runs. The
    theorem shows that the stream is a list of texts, the current one first, under any nesting of
    records. The moves of segmented strings are written out, with what they leave behind. *)

From S2P Require Import Prelude ASCIICType CharSource SegmentedString.

(** ** Moving segmented strings *)

(** A moved string is null; the fields beside it are copied. *)
Definition nullString : WTFString := mkString true [].
Definition movedSubstring (s : Substring) : Substring := mkSubstring nullString (ss_length s) (ss_is8Bit s) (ss_cursor s) (ss_doNotExcludeLineNumbers s).

Section Operations.
Context `{Build}.

(** [operator=(SegmentedString&&)]: the new value of the left side, and what is left of the right one. *)
Definition moveAssign (other : SegmentedString) : option (SegmentedString * SegmentedString) :=
  rest ← clear (set_sub (movedSubstring (m_currentSubstring other)) other);
  Some (other, rest).

(** [append(SegmentedString&&)], with what is left of its argument. *)
Definition append_move (string s : SegmentedString) : option (SegmentedString * SegmentedString) :=
  s ← append string s;
  let current := m_currentSubstring string in
  let current := if ss_length current =? 0 then current else movedSubstring current in
  Some (s, set_others (movedSubstring <$> m_otherSubstrings string) (set_sub current string)).

(** ** The stream *)

(** Where [m_last] points to: to [m_first], or to the string of a record. The records are
    objects on the stack of the program; a record is named by how many are below it. *)
Inductive StringPointer := First | Next (below : nat).

#[export] Instance StringPointer_eq_dec : EqDecision StringPointer.
Proof. solve_decision. Defined.

(** [InsertionPointRecord] *)
Record InsertionPointRecord := mkRecord { m_next : SegmentedString; m_line : Z; m_column : Z }.

(** [HTMLInputStream], with the records that are alive, the last one first. *)
Record HTMLInputStream := mkStream { m_first : SegmentedString; m_last : StringPointer; m_records : list InsertionPointRecord }.

Definition newInputStream : HTMLInputStream := mkStream emptySegmentedString First [].

Definition set_first (x : SegmentedString) (s : HTMLInputStream) : HTMLInputStream := mkStream x (m_last s) (m_records s).
Definition set_last (x : StringPointer) (s : HTMLInputStream) : HTMLInputStream := mkStream (m_first s) x (m_records s).
Definition set_records (x : list InsertionPointRecord) (s : HTMLInputStream) : HTMLInputStream := mkStream (m_first s) (m_last s) x.
Definition set_next (x : SegmentedString) (r : InsertionPointRecord) : InsertionPointRecord := mkRecord x (m_line r) (m_column r).

(** [*m_last]; a pointer to a record that is gone is a fault. *)
Definition place (below : nat) (s : HTMLInputStream) : option nat :=
  if bool_decide (below < length (m_records s))%nat then Some (length (m_records s) - S below)%nat else None.
Definition lastString (s : HTMLInputStream) : option SegmentedString :=
  match m_last s with
  | First => Some (m_first s)
  | Next below => i ← place below s; r ← m_records s !! i; Some (m_next r)
  end.
Definition onLast (f : SegmentedString → option SegmentedString) (s : HTMLInputStream) : option HTMLInputStream :=
  match m_last s with
  | First => x ← f (m_first s); Some (set_first x s)
  | Next below => i ← place below s; r ← m_records s !! i; x ← f (m_next r); Some (set_records (<[i := set_next x r]> (m_records s)) s)
  end.

Definition appendToEnd (string : SegmentedString) (s : HTMLInputStream) : option HTMLInputStream := onLast (append string) s.
Definition insertAtCurrentInsertionPoint (string : SegmentedString) (s : HTMLInputStream) : option HTMLInputStream := x ← append string (m_first s); Some (set_first x s).
Definition hasInsertionPoint (s : HTMLInputStream) : bool := bool_decide (m_last s ≠ First).
Definition markEndOfFile (s : HTMLInputStream) : option HTMLInputStream := onLast (λ x, x ← append_string (mkString true [kEndOfFileMarker]) x; close x) s.
Definition closeWithoutMarkingEndOfFile (s : HTMLInputStream) : option HTMLInputStream := onLast close s.
Definition haveSeenEndOfFile (s : HTMLInputStream) : option bool := x ← lastString s; Some (m_isClosed x).

(** [splitInto], for the string of a record that is just being made. *)
Definition splitInto (s : HTMLInputStream) : option (SegmentedString * HTMLInputStream) :=
  '(next, first) ← moveAssign (m_first s);
  Some (next, set_first first (if bool_decide (m_last s = First) then set_last (Next (length (m_records s))) s else s)).

(** [mergeFrom], for the string of the last record, which is about to go. *)
Definition mergeFrom (next : SegmentedString) (s : HTMLInputStream) : option HTMLInputStream :=
  first ← append next (m_first s);
  let s := set_first first s in
  let s := if bool_decide (m_last s = Next (length (m_records s) - 1)) then set_last First s else s in
  if m_isClosed next then first ← close (m_first s); Some (set_first first s) else Some s.

(** The constructor and the destructor of [InsertionPointRecord]. *)
Definition beginRecord (s : HTMLInputStream) : option HTMLInputStream :=
  let line := currentLine (m_first s) in
  let column := currentColumn (m_first s) in
  '(next, s) ← splitInto s;
  Some (set_first (setCurrentPosition line column 0 (m_first s)) (set_records (mkRecord next line column :: m_records s) s)).
Definition endRecord (s : HTMLInputStream) : option HTMLInputStream :=
  match m_records s with
  | [] => None
  | r :: records =>
      let unparsedRemainderLength := i32 (ss_total (m_first s)) in
      s ← mergeFrom (m_next r) s;
      Some (set_records records (set_first (setCurrentPosition (m_line r) (m_column r) unparsedRemainderLength (m_first s)) s))
  end.

End Operations.

(** ** The stream as a list of texts *)

(** The texts: the current one, and what the records keep. *)
Definition texts (s : HTMLInputStream) : list (list Z) := contents (m_first s) :: (contents ∘ m_next <$> m_records s).
Definition flags (s : HTMLInputStream) : list bool := m_isClosed (m_first s) :: (m_isClosed ∘ m_next <$> m_records s).

(** The stream stands for these texts; the last one is closed when the end of the file was marked. *)
Record represents (s : HTMLInputStream) (ts : list (list Z)) (ended : bool) : Prop := mkRepresents {
  rep_texts : texts s = ts;
  rep_first : ss_wf (m_first s);
  rep_next : Forall (ss_wf ∘ m_next) (m_records s);
  rep_flags : flags s = replicate (length (m_records s)) false ++ [ended];
  rep_last : m_last s = match m_records s with [] => First | _ :: _ => Next 0 end;
}.

(** What is done to a stream. *)
Inductive StreamOperation :=
  | AppendToEnd (string : SegmentedString) | InsertHere (string : SegmentedString) | Consume
  | BeginRecord | EndRecord | MarkEndOfFile.

(** The operations on the list of texts: nothing is appended after the end of the file, a script
    inserts only before the rest of the document, and records are nested. *)
Definition textStep (op : StreamOperation) (ts : list (list Z)) (ended : bool) : option (list (list Z) * bool) :=
  match op, ts with
  | AppendToEnd x, _ => if ended then None else match last ts with Some t => Some (take (length ts - 1) ts ++ [t ++ contents x], false) | None => None end
  | InsertHere x, t :: ts => if ended && bool_decide (ts = []) then None else Some ((t ++ contents x) :: ts, ended)
  | Consume, (c :: t) :: ts => Some (t :: ts, ended)
  | BeginRecord, ts => Some ([] :: ts, ended)
  | EndRecord, t :: t' :: ts => Some ((t ++ t') :: ts, ended)
  | MarkEndOfFile, _ => if ended then None else match last ts with Some t => Some (take (length ts - 1) ts ++ [t ++ [kEndOfFileMarker]], true) | None => None end
  | _, _ => None
  end.
Fixpoint textSteps (ops : list StreamOperation) (ts : list (list Z)) (ended : bool) : option (list (list Z) * bool) :=
  match ops with [] => Some (ts, ended) | op :: ops => '(ts, ended) ← textStep op ts ended; textSteps ops ts ended end.

Section Proofs.
Context `{Build}.

Definition streamStep (op : StreamOperation) (s : HTMLInputStream) : option HTMLInputStream :=
  match op with
  | AppendToEnd x => appendToEnd x s
  | InsertHere x => insertAtCurrentInsertionPoint x s
  | Consume => x ← advance (m_first s); Some (set_first x s)
  | BeginRecord => beginRecord s
  | EndRecord => endRecord s
  | MarkEndOfFile => markEndOfFile s
  end.
Fixpoint streamSteps (ops : list StreamOperation) (s : HTMLInputStream) : option HTMLInputStream :=
  match ops with [] => Some s | op :: ops => s ← streamStep op s; streamSteps ops s end.
Definition operationOk (op : StreamOperation) : Prop := match op with AppendToEnd x | InsertHere x => ss_wf x | _ => True end.

Lemma new_represents : represents newInputStream [[]] false.
Proof. split; [done|apply empty_wf|constructor|done..]. Qed.

(** ** Each operation *)

Lemma onLast_ok f ts t t' ended ended' s :
  represents s (ts ++ [t]) ended → (∀ x, ss_wf x → contents x = t → m_isClosed x = ended → ∃ x', f x = Some x' ∧ ss_wf x' ∧ contents x' = t' ∧ m_isClosed x' = ended') →
  ∃ s', onLast f s = Some s' ∧ represents s' (ts ++ [t']) ended'.
Proof.
  intros [Ht Hf Hn Hc Hl] Hx. unfold onLast. rewrite Hl. destruct s as [first lst records]; cbn in *. destruct records as [|r l _] using rev_ind; cbn in *.
  - destruct ts as [|t1 ts]; [|injection Ht as _ Ht; by destruct ts]. injection Ht as Ht. injection Hc as Hc. destruct (Hx first) as (x' & -> & ? & <- & <-); [done..|]. cbn. eexists. split; [done|]. by split.
  - assert (Em : match l ++ [r] with [] => First | _ => Next 0 end = Next 0) by (by destruct l). rewrite Em. unfold place. cbn. rewrite length_app, bool_decide_eq_true_2 by (cbn; lia). cbn [length option_bind mbind]. replace (length l + 1 - 1)%nat with (length l) by lia.
    rewrite lookup_app_r by lia. rewrite Nat.sub_diag. cbn [lookup list_lookup mbind option_bind].
    unfold texts in Ht. unfold flags in Hc. cbn [m_first m_records] in Ht, Hc. rewrite fmap_app in Ht. rewrite fmap_app in Hc. cbn [fmap list_fmap] in Ht, Hc. rewrite app_comm_cons in Ht, Hc. rewrite length_app in Hc. cbn [length] in Hc. rewrite Nat.add_1_r in Hc. cbn [replicate] in Hc.  apply app_inj_tail in Ht as [Hts Ht]. apply app_inj_tail in Hc as [Hcs Hc]. apply Forall_app in Hn as [Hnl Hnr]. inversion Hnr as [|?? Hr _]; subst.
    destruct (Hx (m_next r)) as (x' & -> & ? & <- & <-); [done..|]. cbn. eexists. split; [done|]. rewrite insert_app_r_alt by lia. rewrite Nat.sub_diag. cbn. split; cbn.
    + unfold texts. cbn [set_records m_first m_records]. by rewrite fmap_app.
    + done.
    + apply Forall_app. split; [done|]. by constructor.
    + unfold flags. cbn [set_records m_first m_records]. rewrite fmap_app, length_app. cbn [fmap list_fmap length]. by rewrite app_comm_cons, Hcs, Nat.add_1_r.
    + by destruct l.
Qed.

Lemma insert_ok string t ts ended s :
  represents s (t :: ts) ended → ss_wf string → ended && bool_decide (ts = []) = false →
  ∃ s', insertAtCurrentInsertionPoint string s = Some s' ∧ represents s' ((t ++ contents string) :: ts) ended.
Proof.
  intros [Ht Hf Hn Hc Hl] Hs He. destruct s as [first lst records]. cbn [m_first m_records m_last] in *. unfold texts in Ht. unfold flags in Hc. cbn [m_first m_records] in *. injection Ht as Ht Hts.
  assert (Hopen : m_isClosed first = false).
  { destruct records as [|r l]; [|by injection Hc as ->]. injection Hc as ->. subst ts. by rewrite bool_decide_eq_true_2, andb_true_r in He. }
  unfold insertAtCurrentInsertionPoint. cbn [m_first]. destruct (append_ok string first Hf Hs Hopen) as (x & -> & Hx & Ex & Ec & _). cbn [mbind option_bind]. eexists. split; [done|]. split; cbn [set_first m_first m_records m_last]; [|done..| |done].
  - unfold texts. cbn [set_first m_first m_records]. by rewrite Ex, Ht, Hts.
  - unfold flags. cbn [set_first m_first m_records]. rewrite Ec. by rewrite Hopen in Hc.
Qed.

Lemma moved_wf x : ss_wf x → ∃ rest, moveAssign x = Some (x, rest) ∧ ss_wf rest ∧ contents rest = [] ∧ m_isClosed rest = false.
Proof.
  intros Hwf. unfold moveAssign, clear, updateAdvanceFunctionPointersForEmptyString. rewrite !check_true by done. cbn [mbind option_bind]. eexists. split; [done|]. split_and!; [|done..]. split_and!; done.
Qed.

Lemma begin_ok ts ended s : represents s ts ended → ∃ s', beginRecord s = Some s' ∧ represents s' ([] :: ts) ended.
Proof.
  intros [Ht Hf Hn Hc Hl]. destruct s as [first lst records]. cbn [m_first m_records m_last] in *. unfold beginRecord, splitInto. cbn [m_first]. destruct (moved_wf first Hf) as (rest & -> & Hr & Er & Ecl). cbn [mbind option_bind m_last m_records].
  assert (Es : (if bool_decide (lst = First) then set_last (Next (length records)) (mkStream first lst records) else mkStream first lst records) = mkStream first (Next 0) records) by (rewrite Hl; by destruct records).
  rewrite Es. cbn [set_first set_records m_first m_records m_last]. eexists. split; [done|]. unfold texts in Ht. unfold flags in Hc. cbn [m_first m_records] in *. split; cbn [set_first set_records m_first m_records m_last].
  - unfold texts. cbn [set_first set_records m_first m_records fmap list_fmap]. rewrite <-Ht. f_equal. exact Er.
  - by apply wf_position.
  - by constructor.
  - unfold flags. cbn [set_first set_records m_first m_records fmap list_fmap length replicate]. rewrite <-app_comm_cons, <-Hc. f_equal. exact Ecl.
  - done.
Qed.

Lemma end_ok t t' ts ended s : represents s (t :: t' :: ts) ended → ∃ s', endRecord s = Some s' ∧ represents s' ((t ++ t') :: ts) ended.
Proof.
  intros [Ht Hf Hn Hc Hl]. destruct s as [first lst records]. cbn [m_first m_records m_last] in *. unfold texts in Ht. unfold flags in Hc. cbn [m_first m_records] in *. destruct records as [|r l]; [done|]. injection Ht as Ht Hr Hts. injection Hc as Hc Hcs. inversion Hn as [|?? Hwr Hwl]; subst.
  unfold endRecord, mergeFrom. cbn [m_records m_first]. destruct (append_ok (m_next r) first Hf Hwr Hc) as (x & -> & Hx & Ex & Ec & _). cbn [mbind option_bind set_first m_first m_records m_last length].
  set (p := bool_decide (Next 0 = _)). assert (Hp : p = bool_decide (l = [])) by (unfold p; destruct l; [by rewrite !bool_decide_eq_true_2|rewrite !bool_decide_eq_false_2; [done..|cbn; intros [=]]]). rewrite Hp. clear p Hp.
  destruct l as [|r' l]; [rewrite bool_decide_eq_true_2 by done|rewrite bool_decide_eq_false_2 by done].
  - injection Hcs as Hcs. cbn [compose] in Hcs. rewrite <-Hcs. destruct (m_isClosed (m_next r)) eqn:Er; cbn [set_last m_first].
    + unfold close. cbn [set_last set_first m_first]. rewrite check_true by (by rewrite Ec). cbn [mbind option_bind]. eexists. split; [done|]. split; cbn; [unfold texts; cbn; f_equal; exact Ex|apply wf_position; exact Hx|constructor|done..].
    + eexists. split; [done|]. split; cbn; [unfold texts; cbn; f_equal; exact Ex|apply wf_position; exact Hx|constructor|unfold flags; cbn; by rewrite Ec|done].
  - injection Hcs as Hcr Hcs. cbn [compose] in Hcr. rewrite Hcr. eexists. split; [done|]. cbn [set_records set_first m_first m_records m_last]. split; cbn [set_first set_records m_first m_records m_last].
    + unfold texts. cbn [set_first set_records m_first m_records]. f_equal. exact Ex.
    + apply wf_position; exact Hx.
    + done.
    + unfold flags. cbn [set_first set_records m_first m_records]. cbn [length replicate]. rewrite <-app_comm_cons. f_equal; [exact Ec|exact Hcs].
    + done.
Qed.

Lemma split_last {A} (l : list A) x : last l = Some x → l = take (length l - 1) l ++ [x].
Proof. intros Hl. apply last_Some in Hl as [l' ->]. rewrite length_app, Nat.add_sub, take_app_length. reflexivity. Qed.

(** One operation. *)
Lemma streamStep_ok op ts ended ts' ended' s :
  operationOk op → represents s ts ended → textStep op ts ended = Some (ts', ended') → ∃ s', streamStep op s = Some s' ∧ represents s' ts' ended'.
Proof.
  intros Hop Hr. destruct op as [x|x| | | |]; cbn [textStep streamStep operationOk] in *.
  - destruct ended; [done|]. destruct (last ts) as [t|] eqn:El; [|done]. intros [= <- <-]. rewrite (split_last ts t El) in Hr. apply (onLast_ok _ _ t _ _ _ _ Hr). intros y Hy Ey Ec. destruct (append_ok x y Hy Hop Ec) as (y' & ? & ? & E' & ? & _). exists y'. by rewrite E', Ey.
  - destruct ts as [|t ts]; [done|]. destruct (ended && bool_decide (ts = [])) eqn:Ee; [done|]. intros [= <- <-]. by apply insert_ok.
  - destruct ts as [|[|c t] ts]; [done..|]. intros [= <- <-]. destruct Hr as [Ht Hf Hn Hc Hl]. destruct s as [first lst records]. unfold texts in Ht. unfold flags in Hc. cbn [m_first m_records m_last] in *. injection Ht as Ht Hts.
    destruct (advance_ok first Hf) as (x & -> & (Hx & Ex & _ & Ecl & _) & _); [apply wf_nonempty; [done|by rewrite Ht]|]. cbn [mbind option_bind]. eexists. split; [done|]. split; cbn [set_first m_first m_records m_last]; [|done..| |done].
    + unfold texts. cbn [set_first m_first m_records]. by rewrite Ex, Ht, Hts.
    + unfold flags. cbn [set_first m_first m_records]. by rewrite Ecl.
  - intros Hs. assert (E : Some ([] :: ts, ended) = Some (ts', ended')) by (by destruct ts as [|[|] ts]). injection E as <- <-. by apply begin_ok.
  - destruct ts as [|t [|t' ts]]; [done..|by destruct t|]. intros Hs. assert (E : Some ((t ++ t') :: ts, ended) = Some (ts', ended')) by (by destruct t). injection E as <- <-. by apply end_ok.
  - destruct ended; [done|]. destruct (last ts) as [t|] eqn:El; [|done]. intros [= <- <-]. rewrite (split_last ts t El) in Hr. apply (onLast_ok _ _ t _ _ _ _ Hr). intros y Hy Ey Ec.
    assert (Hm : sub_wf (Substring_of (mkString true [kEndOfFileMarker]))) by (by apply sub_of_wf).
    destruct (appendSubstring_ok (Substring_of (mkString true [kEndOfFileMarker])) y Hy Hm Ec) as (y' & Hy' & Hw & E' & Ec' & _). unfold append_string. rewrite Hy'. cbn [mbind option_bind]. unfold close. rewrite check_true by (by rewrite Ec'). cbn [mbind option_bind].
    eexists. split; [done|]. split_and!; [exact Hw| |done]. change (contents y' = t ++ [kEndOfFileMarker]). rewrite E', Ey. done.
Qed.

Lemma streamSteps_ok ops ts ended ts' ended' s :
  Forall operationOk ops → represents s ts ended → textSteps ops ts ended = Some (ts', ended') → ∃ s', streamSteps ops s = Some s' ∧ represents s' ts' ended'.
Proof.
  revert ts ended s. induction ops as [|op ops IH]; intros ts ended s Hop Hr E; cbn [textSteps streamSteps] in *; [injection E as <- <-; by exists s|].
  inversion Hop as [|?? Ho Hops]; subst. destruct (textStep op ts ended) as [[ts1 ended1]|] eqn:E1; [|done]. destruct (streamStep_ok op ts ended ts1 ended1 s Ho Hr E1) as (s1 & -> & Hr1). by apply (IH ts1 ended1).
Qed.

Lemma represents_queries s ts ended : represents s ts ended → hasInsertionPoint s = bool_decide (1 < length ts)%nat ∧ haveSeenEndOfFile s = Some ended.
Proof.
  intros [Ht Hf Hn Hc Hl]. unfold hasInsertionPoint, haveSeenEndOfFile, lastString. rewrite <-Ht, Hl. unfold texts. cbn [length]. rewrite length_fmap. unfold flags in Hc. destruct s as [first lst records]. cbn [m_first m_records m_last] in *. destruct records as [|r l _] using rev_ind; [split; [done|]; cbn [mbind option_bind]; injection Hc as Hc; by rewrite Hc|].
  assert (Em : match l ++ [r] with [] => First | _ => Next 0 end = Next 0) by (by destruct l). rewrite Em. split; [rewrite length_app; cbn [length]; rewrite !bool_decide_eq_true_2; [done|lia|done]|].
  unfold place. cbn [m_records]. rewrite length_app, bool_decide_eq_true_2 by (cbn; lia). cbn [length mbind option_bind]. replace (length l + 1 - 1)%nat with (length l) by lia. rewrite lookup_app_r by lia. rewrite Nat.sub_diag. cbn [lookup list_lookup mbind option_bind].
  rewrite fmap_app, app_comm_cons in Hc. by apply app_inj_tail in Hc as [_ [= ->]].
Qed.

(** ** The theorems *)

(** C12: However the network appends, scripts insert, the tokenizer consumes and insertion point records
    begin and end, the stream is the list of texts it stands for: none of its operations
    fails, [m_last] never dangles, the network appends to the last text, a script inserts before the
    rest of the document, and the end of a record puts what the script left unread before the
    text that waited. There is an insertion point while there is a record, and the end of the file
    has been seen when it was marked on the last text. *)
Theorem input_stream_refines ops ts ended :
  Forall operationOk ops → textSteps ops [[]] false = Some (ts, ended) →
  ∃ s, streamSteps ops newInputStream = Some s ∧ toString (m_first s) :: (toString ∘ m_next <$> m_records s) = ts ∧ hasInsertionPoint s = bool_decide (1 < length ts)%nat ∧ haveSeenEndOfFile s = Some ended.
Proof.
  intros Hops E. destruct (streamSteps_ok ops [[]] false ts ended newInputStream Hops new_represents E) as (s & Hs & Hr). exists s. split; [done|]. split; [|by apply represents_queries]. destruct Hr as [Ht Hf Hn _ _]. rewrite <-Ht. unfold texts. rewrite toString_contents by done. f_equal.
  apply list_fmap_ext. intros i r Hi. cbn. apply toString_contents. by apply (Forall_lookup_1 _ _ _ _ Hn Hi).
Qed.

(** Appending a string by moving it leaves a source that still says it has all its
    characters, but owns none of them. [HTMLDocumentParser::insert] gives that source to
    the preload scanner. *)
Theorem moved_source_dangles string s s' rest :
  ss_wf string → 0 < ss_length (m_currentSubstring string) → append_move string s = Some (s', rest) →
  isEmpty rest = false ∧ ss_total rest = ss_total string ∧ Substring_currentCharacter (m_currentSubstring rest) = None.
Proof.
  intros Hwf Hpos. unfold append_move. destruct (append string s) as [x|]; cbn [mbind option_bind]; [|done]. intros [= <- <-]. assert (El : (ss_length (m_currentSubstring string) =? 0) = false) by lia. rewrite El. split_and!.
  - unfold isEmpty. cbn. exact El.
  - unfold ss_total. cbn. generalize (ss_length (m_currentSubstring string)). induction (m_otherSubstrings string) as [|o l IH]; intros z; cbn; [done|apply IH].
  - unfold Substring_currentCharacter. rewrite check_true by (cbn; by rewrite El). cbn. unfold read8, read16. cbn. by destruct (ss_is8Bit _), (ss_cursor _).
Qed.

End Proofs.

(** ** Examples *)

Definition segment (s : list Z) : SegmentedString := match @SegmentedString_of (Build_Build false) (mkString true s) with Some x => x | None => emptySegmentedString end.
Lemma segment_wf s : Z.of_nat (length s) < 2 ^ 32 → ss_wf (segment s).
Proof. intros Hl. unfold segment. destruct (@of_ok (Build_Build false) (mkString true s)) as (x & -> & Hx & _); done. Qed.

(** The network sends [ab], the parser reads [a], a script writes [x], the network ends. *)
Lemma input_stream_refines_witness : let _ := Build_Build false in let ops := [AppendToEnd (segment [97; 98]); Consume; BeginRecord; InsertHere (segment [120]); MarkEndOfFile; EndRecord] in
  ∃ s, streamSteps ops newInputStream = Some s ∧ toString (m_first s) :: (toString ∘ m_next <$> m_records s) = [[120; 98; 0]] ∧ hasInsertionPoint s = false ∧ haveSeenEndOfFile s = Some true.
Proof. intros b ops. apply (input_stream_refines ops [[120; 98; 0]] true); [repeat constructor; by apply segment_wf|reflexivity]. Defined.
