(* ===== verification/InputStreamPreprocessor.v ===== *)
(** * Input preprocessing

    Model of [Source/WebCore/html/parser/InputStreamPreprocessor.h]: the layer
    between the input and the tokenizer that turns CR and CRLF into LF and
    replaces or skips NUL characters, one character at a time and across input
    boundaries (a CR at the end of one chunk followed by an LF in the next).

    [peekSpec] says what [peek] answers in terms of the remaining characters, and
    [peek_answers] that it does so and ends, on the reference source. [normalize]
    is the normalization of a whole text; [normalize_app] shows that it can be
    done chunk by chunk with one bit of memory, the [m_skipNextNewLine] flag. *)

From S2P Require Import Prelude ASCIICType CharSource.

(** [replacementCharacter] of [wtf/unicode/CharacterNames.h]. *)
Definition replacementCharacter : Z := 65533.

Record InputStreamPreprocessor := mkPre {
  m_nextInputCharacter : Z;
  m_skipNextNewLine : bool;
}.

Definition newPreprocessor : InputStreamPreprocessor := mkPre 0 false.

Section Operations.
Context `{Build} {S : Type} `{CharSource S}.

(** The state of a computation: the preprocessor and the source it reads. *)
Abbreviation PreM := (M (InputStreamPreprocessor * S)).

Definition source_ {A} (f : S → A) : PreM A := gets (λ w, f (snd w)).
Definition advance_ (f : S → option S) : PreM unit :=
  modifyOpt (λ w, s ← f (snd w); Some (fst w, s)).
Definition set_next (c : Z) : PreM unit := modify (λ w, (mkPre c (m_skipNextNewLine (fst w)), snd w)).
Definition set_skip (b : bool) : PreM unit := modify (λ w, (mkPre (m_nextInputCharacter (fst w)) b, snd w)).
Definition next_ : PreM Z := gets (λ w, m_nextInputCharacter (fst w)).
Definition skip_ : PreM bool := gets (λ w, m_skipNextNewLine (fst w)).

Definition isAtEndOfFile (source : S) : bool := src_isClosed source && (src_length source =? 1).

(** The tail of [processNextInputCharacter], from the test for CR on. *)
Definition classify (again : PreM bool) (neverSkipNullCharacters skipNullCharacters : bool) : PreM bool :=
  next ← next_;
  if next =? cReturn then set_next cLineFeed;; set_skip true;; mret true
  else
    set_skip false;;
    atEnd ← source_ isAtEndOfFile;
    if negb (next =? 0) || atEnd then mret true
    else if skipNullCharacters && negb neverSkipNullCharacters then
      advance_ src_advancePastNonNewline;;
      empty ← source_ src_isEmpty;
      if (empty : bool) then mret false
      else
        c ← source_ src_currentCharacter;
        set_next c;; again
    else set_next replacementCharacter;; mret true.

(** [goto ProcessAgain] consumes a character each time; [fuel] bounds it. *)
Fixpoint processNextInputCharacter (fuel : nat) (neverSkipNullCharacters skipNullCharacters : bool) :
    PreM bool :=
  match fuel with
  | O => fault
  | Datatypes.S fuel =>
      next ← next_;
      current ← source_ src_currentCharacter;
      ASSERT (next =? current);;
      skip ← skip_;
      let again := processNextInputCharacter fuel neverSkipNullCharacters skipNullCharacters in
      if (next =? cLineFeed) && skip then
        set_skip false;;
        advance_ src_advancePastNewline;;
        empty ← source_ src_isEmpty;
        if (empty : bool) then mret false
        else
          c ← source_ src_currentCharacter;
          set_next c;;
          classify again neverSkipNullCharacters skipNullCharacters
      else classify again neverSkipNullCharacters skipNullCharacters
  end.

Definition specialCharacterMask : Z := Z.lor (Z.lor cLineFeed cReturn) 0.

Definition peek (neverSkipNullCharacters skipNullCharacters : bool) : PreM bool :=
  empty ← source_ src_isEmpty;
  if (empty : bool) then mret false
  else
    c ← source_ src_currentCharacter;
    set_next c;;
    if negb (Z.land c (Z.lnot specialCharacterMask) =? 0) then set_skip false;; mret true
    else
      n ← source_ src_length;
      processNextInputCharacter (Datatypes.S (Z.to_nat n)) neverSkipNullCharacters skipNullCharacters.

Definition pre_advance (neverSkipNullCharacters skipNullCharacters : bool) : PreM bool :=
  advance_ src_advance;; peek neverSkipNullCharacters skipNullCharacters.

Definition pre_advancePastNonNewline (neverSkipNullCharacters skipNullCharacters : bool) : PreM bool :=
  advance_ src_advancePastNonNewline;; peek neverSkipNullCharacters skipNullCharacters.

End Operations.

(** ** What [peek] answers *)

(** The next preprocessed character, if there is one, with the characters left in
    the source and the new value of [m_skipNextNewLine]; [skip] is its value
    before, [dropNull] whether NUL characters are skipped. *)
Fixpoint peekSpec (closed dropNull skip : bool) (chars : list Z) : option Z * list Z * bool :=
  match chars with
  | [] => (None, [], skip)
  | c :: rest =>
      if (c =? cLineFeed) && skip then peekSpec closed dropNull false rest
      else if c =? cReturn then (Some cLineFeed, chars, true)
      else if negb (c =? 0) || (closed && bool_decide (rest = [])) then (Some c, chars, false)
      else if dropNull then peekSpec closed dropNull false rest
      else (Some replacementCharacter, chars, false)
  end.

(** The normalization of a text: CR LF and CR become LF, NUL becomes U+FFFD. *)
Fixpoint normalize (skip : bool) (chars : list Z) : list Z :=
  match chars with
  | [] => []
  | c :: rest =>
      if (c =? cLineFeed) && skip then normalize false rest
      else if c =? cReturn then cLineFeed :: normalize true rest
      else (if c =? 0 then replacementCharacter else c) :: normalize false rest
  end.

(** Whether a text, after [skip], ends in a CR. *)
Fixpoint endsWithReturn (skip : bool) (chars : list Z) : bool :=
  match chars with
  | [] => skip
  | c :: rest => endsWithReturn (c =? cReturn) rest
  end.

Definition isUChar (c : Z) : Prop := 0 ≤ c < 65536.

Definition dropNull (neverSkipNullCharacters skipNullCharacters : bool) : bool :=
  skipNullCharacters && negb neverSkipNullCharacters.

(** What the tokenizer can rely on after a successful [peek]: how the character
    it was given relates to the one in the source. *)
Definition preprocessed (c : Z) (s : LSource) : Prop :=
  l_chars s ≠ [] ∧
  (if l_current s =? cReturn then c = cLineFeed
   else if l_current s =? 0 then
     c = replacementCharacter ∨ (c = 0 ∧ l_closed s = true ∧ length (l_chars s) = 1%nat)
   else c = l_current s).

Lemma mask_spec c : 0 ≤ c → (Z.land c (Z.lnot specialCharacterMask) =? 0) = (c <? 16).
Proof.
  intros Hc. apply eq_true_iff_eq. rewrite Z.eqb_eq, Z.ltb_lt.
  change (Z.lnot specialCharacterMask) with (Z.lnot (Z.ones 4)). rewrite <-Z.ldiff_land.
  rewrite Z.ldiff_ones_r, Z.shiftl_mul_pow2, Z.shiftr_div_pow2 by lia. change (2 ^ 4) with 16.
  pose proof (Z.div_pos c 16 Hc ltac:(lia)). pose proof (Z.div_mod c 16 ltac:(lia)).
  pose proof (Z.mod_pos_bound c 16 ltac:(lia)). lia.
Qed.

Lemma normalize_app skip a b :
  normalize skip (a ++ b) = normalize skip a ++ normalize (endsWithReturn skip a) b.
Proof.
  revert skip. induction a as [|c a IH]; intros skip; [done|]. simpl.
  destruct (Z.eqb_spec c cLineFeed) as [->|]; simpl; [by destruct skip; simpl; rewrite IH|].
  by destruct (c =? cReturn); simpl; rewrite IH.
Qed.

Lemma peekSpec_suffix closed dn skip chars o rest skip' :
  peekSpec closed dn skip chars = (o, rest, skip') → ∃ n, (n ≤ length chars)%nat ∧ rest = drop n chars.
Proof.
  revert skip. induction chars as [|c chars IH]; intros skip; simpl.
  - intros [= <- <- <-]. by exists 0%nat.
  - repeat case_match; try (intros [= <- <- <-]; exists 0%nat; split; [lia|done]).
    all: intros (n & ? & ->)%IH; exists (S n); split; [lia|done].
Qed.

Lemma peekSpec_preprocessed closed dn skip s c rest skip' :
  closed = l_closed s → peekSpec closed dn skip (l_chars s) = (Some c, rest, skip') →
  ∀ k, preprocessed c (mkLSource rest k closed).
Proof.
  intros -> Hp k. destruct s as [chars n closed]. simpl in Hp. revert skip Hp.
  induction chars as [|x chars IH]; intros skip; simpl; [done|].
  destruct (Z.eqb_spec x cLineFeed) as [->|Hx]; simpl.
  { destruct skip; [by apply IH|]. by intros [= <- <- <-]. }
  destruct (Z.eqb_spec x cReturn) as [->|Hr]; [by intros [= <- <- <-]|].
  destruct (Z.eqb_spec x 0) as [->|H0]; simpl.
  - destruct (closed && bool_decide (chars = [])) eqn:E.
    + apply andb_true_iff in E as [-> ->%bool_decide_eq_true]. intros [= <- <- <-].
      split; [done|]. simpl. auto.
    + destruct dn; [by apply IH|]. intros [= <- <- <-]. split; [done|]. by left.
  - intros [= <- <- <-]. split; [done|]. unfold l_current. simpl.
    by rewrite (proj2 (Z.eqb_neq x cReturn)), (proj2 (Z.eqb_neq x 0)).
Qed.

(** ** [peek] on the reference source *)

Section Peek.
Context `{Build}.

(** The state [peek] ends in, as [peekSpec] predicts. *)
Definition answered (spec : option Z * list Z * bool) (s : LSource)
    (r : option (bool * (InputStreamPreprocessor * LSource))) : Prop :=
  let '(o, rest, skip') := spec in
  ∃ next, r = Some (bool_decide (o ≠ None), (mkPre next skip',
            l_drop (length (l_chars s) - length rest) s)) ∧
    ∀ c, o = Some c → next = c.

Lemma answered_drop spec s r n :
  (n ≤ length (l_chars s))%nat → (length spec.1.2 ≤ length (l_chars s) - n)%nat →
  answered spec (l_drop n s) r → answered spec s r.
Proof.
  destruct spec as [[o rest] skip]. simpl. intros Hn Hrest (next & -> & Hnext). exists next. split; [|done].
  do 3 f_equal. unfold l_drop. simpl. rewrite drop_drop, length_drop. f_equal; [f_equal|]; lia.
Qed.

Lemma peekSpec_length closed dn skip chars : (length (peekSpec closed dn skip chars).1.2 ≤ length chars)%nat.
Proof.
  destruct (peekSpec closed dn skip chars) as [[o rest] skip'] eqn:E.
  apply peekSpec_suffix in E as (n & _ & ->). simpl. rewrite length_drop. lia.
Qed.

Lemma l_drop_0 s : l_drop 0 s = s.
Proof. destruct s. unfold l_drop. simpl. f_equal. lia. Qed.

Lemma processNext_ok fuel nv sk next skip chars k closed :
  (length chars < fuel)%nat → next = l_current (mkLSource chars k closed) → chars ≠ [] →
  answered (peekSpec closed (dropNull nv sk) skip chars) (mkLSource chars k closed)
    (processNextInputCharacter fuel nv sk (mkPre next skip, mkLSource chars k closed)).
Proof.
  revert next skip chars k. induction fuel as [|fuel IH]; intros next skip chars k Hfuel -> Hne; [lia|].
  destruct chars as [|c chars]; [done|]. simpl in Hfuel. cbn [processNextInputCharacter peekSpec].
  assert (Hclass : ∀ skip c chars k, (length chars < fuel)%nat → (c =? cLineFeed) && skip = false →
    answered (peekSpec closed (dropNull nv sk) skip (c :: chars)) (mkLSource (c :: chars) k closed)
      (classify (processNextInputCharacter fuel nv sk) nv sk (mkPre c skip, mkLSource (c :: chars) k closed))).
  { clear Hfuel Hne chars c k skip. intros skip c chars k Hfuel Hlf. cbn [peekSpec]. rewrite Hlf.
    unfold classify, next_, source_, set_next, set_skip, isAtEndOfFile, gets, modify, mbind, M_bind.
    cbn -[Z.eqb Z.of_nat]. destruct (Z.eqb_spec c cReturn) as [->|Hr].
    { exists cLineFeed. rewrite Nat.sub_diag, l_drop_0. split; [done|]. by intros ? [= <-]. }
    cbn -[Z.eqb Z.of_nat].
    replace (Z.of_nat (S (length chars)) =? 1) with (bool_decide (chars = [])).
    2:{ symmetry. destruct chars; [done|]. rewrite bool_decide_false by done. apply Z.eqb_neq. simpl. lia. }
    destruct (negb (c =? 0) || (closed && bool_decide (chars = []))) eqn:Hstop.
    { exists c. rewrite Nat.sub_diag, l_drop_0. split; [done|]. by intros ? [= <-]. }
    apply orb_false_iff in Hstop as [->%negb_false_iff%Z.eqb_eq Hend].
    fold (dropNull nv sk). destruct (dropNull nv sk) eqn:Hdn; cbn -[Z.eqb Z.of_nat].
    2:{ exists replacementCharacter. rewrite Nat.sub_diag, l_drop_0. split; [done|]. by intros ? [= <-]. }
    unfold advance_, modifyOpt, ASSERT_opt. cbn -[Z.eqb Z.of_nat]. rewrite orb_true_r. cbn -[Z.eqb Z.of_nat].
    destruct chars as [|x chars]; cbn -[Z.eqb Z.of_nat peekSpec].
    { exists 0. by split. }
    apply (answered_drop _ _ _ 1); [simpl; lia|apply (peekSpec_length closed true false (x :: chars))|].
    apply IH; [done|done|done]. }
  unfold mbind, M_bind. cbn -[Z.eqb peekSpec classify]. unfold ASSERT. rewrite Z.eqb_refl, orb_true_r.
  cbn -[Z.eqb peekSpec classify].
  destruct ((c =? cLineFeed) && skip) eqn:Hlf.
  2:{ specialize (Hclass skip c chars k ltac:(lia) Hlf). cbn [peekSpec] in Hclass. by rewrite Hlf in Hclass. }
  apply andb_true_iff in Hlf as [->%Z.eqb_eq ->]. cbn -[peekSpec classify].
  unfold advance_, modifyOpt, ASSERT_opt. cbn -[peekSpec classify]. rewrite orb_true_r. cbn -[peekSpec classify].
  destruct chars as [|x chars]; cbn -[peekSpec classify].
  { exists cLineFeed. by split. }
  apply (answered_drop _ _ _ 1); [simpl; lia|apply (peekSpec_length _ _ _ (x :: chars))|].
  apply (Hclass false); [simpl in Hfuel; lia|by rewrite andb_false_r].
Qed.

Lemma peek_answers nv sk p s :
  Forall isUChar (l_chars s) →
  answered (peekSpec (l_closed s) (dropNull nv sk) (m_skipNextNewLine p) (l_chars s)) s (peek nv sk (p, s)).
Proof.
  destruct s as [[|c chars] k closed], p as [next skip]; intros Hall.
  { exists next. cbn. by rewrite l_drop_0. }
  cbn [l_chars l_closed m_skipNextNewLine] in *.
  inversion_clear Hall as [|? ? [Hc _] _].
  unfold peek, source_, set_next, set_skip, gets, modify, mbind, M_bind. 
  cbn -[peekSpec Z.land Z.to_nat Z.of_nat processNextInputCharacter].
  rewrite mask_spec by done. destruct (Z.ltb_spec c 16) as [|Hbig].
  - cbn [negb]. apply processNext_ok; [cbn [src_length LSource_CharSource l_chars snd length]; lia|done|done].
  - cbn [peekSpec]. rewrite (proj2 (Z.eqb_neq c cLineFeed)), (proj2 (Z.eqb_neq c cReturn)), (proj2 (Z.eqb_neq c 0)) by lia.
    exists c. rewrite Nat.sub_diag, l_drop_0. split; [done|]. by intros ? [= <-].
Qed.

(** What the tokenizer uses of [peek]. *)
Lemma peek_ok nv sk p s :
  Forall isUChar (l_chars s) →
  wp (peek nv sk) (λ b w, (∃ n, (n ≤ length (l_chars s))%nat ∧ snd w = l_drop n s) ∧
    if b then preprocessed (m_nextInputCharacter (fst w)) (snd w) else l_chars (snd w) = []) (p, s).
Proof.
  intros Hall. pose proof (peek_answers nv sk p s Hall) as Hans. unfold answered in Hans.
  destruct (peekSpec _ _ _ _) as [[o rest] skip'] eqn:E. destruct Hans as (next & Hr & Hnext).
  unfold wp. rewrite Hr. simpl. pose proof E as (n & Hn & Hrest)%peekSpec_suffix.
  assert (Hdrop : l_drop (length (l_chars s) - length rest) s = l_drop n s).
  { subst rest. rewrite length_drop. f_equal. lia. }
  split; [exists n; by split|]. destruct o as [c|]; simpl.
  - rewrite Hdrop, (Hnext c) by done. unfold l_drop. rewrite <-Hrest.
    by eapply (peekSpec_preprocessed _ _ _ s c rest skip').
  - change (l_chars (l_drop (length (l_chars s) - length rest) s) = []). rewrite Hdrop. simpl.
    rewrite <-Hrest. clear -E. revert E. generalize (m_skipNextNewLine p).
    induction (l_chars s) as [|c chars IH]; intros skip; simpl; [by intros [= <- <-]|].
    repeat case_match; try done; apply IH.
Qed.

End Peek.
