(* ===== verification/HTMLEntitySearch.v ===== *)
(** * Incremental search in the entity table

    Model of [Source/WebCore/html/parser/HTMLEntitySearch.h] and [.cpp]. The
    search narrows the range of table entries that start with the characters
    seen so far, by two binary searches per character, and remembers the
    longest complete entity met on the way.

    The table itself ([HTMLEntityTable]) is generated at build time; here it is
    a parameter, the class [HTMLEntityTable], with what the search relies on in
    [HTMLEntityTableLaws]. A pointer to an entry is an index in the table.

    The theorems show that the range is exact (it holds precisely the entities
    that extend the characters seen), that the search fails exactly when there
    is none, and that the remembered match is the longest entity that is a
    prefix of the characters seen. *)

From S2P Require Import Prelude ASCIICType.

Record HTMLEntityTableEntry := mkEntry {
  entity : list Z;
  entry_length : Z;
  firstValue : Z;
  secondValue : Z;
}.

Class HTMLEntityTable := {
  entityTable : list HTMLEntityTableEntry;
  firstEntryStartingWith : Z → option nat;
  lastEntryStartingWith : Z → option nat;
}.

(** [HTMLEntityTableEntry::lastCharacter]. *)
Definition lastCharacter (e : HTMLEntityTableEntry) : option Z :=
  entity e !! Z.to_nat (entry_length e - 1).

Inductive CompareResult := Before | Prefix | After.

#[export] Instance CompareResult_eq_dec : EqDecision CompareResult.
Proof. solve_decision. Defined.

Record HTMLEntitySearch := mkSearch {
  m_currentLength : Z;
  m_mostRecentMatch : option nat;
  m_first : option nat;
  m_last : option nat;
}.

Section Operations.
Context `{HTMLEntityTable}.

Definition halfway (left right : nat) : nat := (left + (right - left) / 2)%nat.

Definition newSearch : HTMLEntitySearch :=
  mkSearch 0 None (Some 0%nat) (Some (length entityTable - 1)%nat).

Definition isEntityPrefix (s : HTMLEntitySearch) : bool := bool_decide (m_first s ≠ None).

Definition fail (s : HTMLEntitySearch) : HTMLEntitySearch :=
  mkSearch (m_currentLength s) (m_mostRecentMatch s) None None.

Definition compare (s : HTMLEntitySearch) (entry : nat) (nextCharacter : Z) : option CompareResult :=
  e ← entityTable !! entry;
  if entry_length e <? m_currentLength s + 1 then Some Before
  else
    entryNextCharacter ← entity e !! Z.to_nat (m_currentLength s);
    if entryNextCharacter =? nextCharacter then Some Prefix
    else Some (if entryNextCharacter <? nextCharacter then Before else After).

(** The loop of [findFirst]; [fuel] bounds its iterations. *)
Fixpoint findFirstLoop (fuel : nat) (s : HTMLEntitySearch) (nextCharacter : Z) (left right : nat) :
    option nat :=
  if (left + 1 <? right)%nat then
    match fuel with
    | O => None
    | S fuel =>
        let probe := halfway left right in
        result ← compare s probe nextCharacter;
        if bool_decide (result = Before) then findFirstLoop fuel s nextCharacter probe right
        else findFirstLoop fuel s nextCharacter left probe
    end
  else Some right.

Definition findFirst (s : HTMLEntitySearch) (nextCharacter : Z) : option nat :=
  left ← m_first s;
  right ← m_last s;
  if (left =? right)%nat then Some left
  else
    result ← compare s left nextCharacter;
    match result with
    | Prefix => Some left
    | After => Some right
    | Before => findFirstLoop (length entityTable) s nextCharacter left right
    end.

Fixpoint findLastLoop (fuel : nat) (s : HTMLEntitySearch) (nextCharacter : Z) (left right : nat) :
    option nat :=
  if (left + 1 <? right)%nat then
    match fuel with
    | O => None
    | S fuel =>
        let probe := halfway left right in
        result ← compare s probe nextCharacter;
        if bool_decide (result = After) then findLastLoop fuel s nextCharacter left probe
        else findLastLoop fuel s nextCharacter probe right
    end
  else Some left.

Definition findLast (s : HTMLEntitySearch) (nextCharacter : Z) : option nat :=
  left ← m_first s;
  right ← m_last s;
  if (left =? right)%nat then Some right
  else
    result ← compare s right nextCharacter;
    match result with
    | Prefix => Some right
    | Before => Some left
    | After => findLastLoop (length entityTable) s nextCharacter left right
    end.

Definition set_first (x : option nat) (s : HTMLEntitySearch) : HTMLEntitySearch :=
  mkSearch (m_currentLength s) (m_mostRecentMatch s) x (m_last s).
Definition set_last (x : option nat) (s : HTMLEntitySearch) : HTMLEntitySearch :=
  mkSearch (m_currentLength s) (m_mostRecentMatch s) (m_first s) x.

(** The end of [advance]: count the character, remember a complete entity. *)
Definition finishAdvance (s : HTMLEntitySearch) : option HTMLEntitySearch :=
  let s := mkSearch (m_currentLength s + 1) (m_mostRecentMatch s) (m_first s) (m_last s) in
  first ← m_first s;
  e ← entityTable !! first;
  if negb (entry_length e =? m_currentLength s) then Some s
  else Some (mkSearch (m_currentLength s) (Some first) (m_first s) (m_last s)).

(** [m_first] is updated before [findLast] runs, and [findLast] reads it. *)
Definition search_advance (nextCharacter : Z) (s : HTMLEntitySearch) : option HTMLEntitySearch :=
  if m_currentLength s =? 0 then
    let s := set_first (firstEntryStartingWith nextCharacter) s in
    let s := set_last (lastEntryStartingWith nextCharacter) s in
    match m_first s, m_last s with
    | Some _, Some _ => finishAdvance s
    | _, _ => Some (fail s)
    end
  else
    first ← findFirst s nextCharacter;
    let s := set_first (Some first) s in
    last ← findLast s nextCharacter;
    let s := set_last (Some last) s in
    result ← compare s first nextCharacter;
    if (first =? last)%nat && bool_decide (result ≠ Prefix) then Some (fail s)
    else finishAdvance s.

(** [mostRecentMatch()]. *)
Definition mostRecentMatch (s : HTMLEntitySearch) : option HTMLEntityTableEntry :=
  i ← m_mostRecentMatch s; entityTable !! i.

(** Feeding characters one after the other, as long as the search succeeds. *)
Fixpoint feed (chars : list Z) (s : HTMLEntitySearch) : option HTMLEntitySearch :=
  match chars with
  | [] => Some s
  | c :: chars => s ← search_advance c s; if isEntityPrefix s then feed chars s else Some s
  end.

End Operations.

(** Strict lexicographic order: the order in which the table is sorted. *)
Fixpoint lexlt (a b : list Z) : bool :=
  match a, b with
  | _, [] => false
  | [], _ :: _ => true
  | x :: a', y :: b' => (x <? y) || ((x =? y) && lexlt a' b')
  end.

Definition isLetter (c : Z) : bool :=
  ((cUpperA <=? c) && (c <=? cUpperZ)) || ((cLowerA <=? c) && (c <=? cLowerZ)).

(** The characters entity names are made of. *)
Definition isEntityCharacter (c : Z) : bool :=
  isLetter c || isASCIIDigit c || (c =? cSemicolon).

(** What the generator of the table guarantees. *)
Class HTMLEntityTableLaws `{HTMLEntityTable} := {
  table_sorted i j a b :
    entityTable !! i = Some a → entityTable !! j = Some b → (i < j)%nat → lexlt (entity a) (entity b) = true;
  table_entry i e :
    entityTable !! i = Some e →
    (∃ x, head (entity e) = Some x ∧ isLetter x = true) ∧ entry_length e = Z.of_nat (length (entity e)) ∧
    Forall (λ c, isEntityCharacter c = true) (entity e) ∧
    0 < firstValue e ≤ 1114111 ∧ 0 ≤ secondValue e ≤ 1114111;
  table_semicolon i e k :
    entityTable !! i = Some e → entity e !! k = Some cSemicolon → S k = length (entity e);
  table_letter c :
    isLetter c = true →
    ∃ f l, firstEntryStartingWith c = Some f ∧ lastEntryStartingWith c = Some l ∧ (f ≤ l < length entityTable)%nat ∧
      ∀ i e, entityTable !! i = Some e → head (entity e) = Some c ↔ (f ≤ i ≤ l)%nat;
  table_nonletter c :
    isLetter c = false → firstEntryStartingWith c = None ∧ lastEntryStartingWith c = None;
}.

(** ** Correctness *)

(** Entry [i] starts with the characters [p]. *)
Definition startsWith `{HTMLEntityTable} (p : list Z) (i : nat) : Prop :=
  ∃ e, entityTable !! i = Some e ∧ p `prefix_of` entity e.

(** [o] is the longest entity that is a prefix of [p], if there is one. *)
Definition longestMatch `{HTMLEntityTable} (p : list Z) (o : option nat) : Prop :=
  match o with
  | Some i => ∃ e, entityTable !! i = Some e ∧ entity e `prefix_of` p ∧
      ∀ j e', entityTable !! j = Some e' → entity e' `prefix_of` p → (length (entity e') ≤ length (entity e))%nat
  | None => ∀ j e', entityTable !! j = Some e' → ¬ entity e' `prefix_of` p
  end.

(** The state of a search that has seen the non-empty [p] and not failed. *)
Definition searching `{HTMLEntityTable} (p : list Z) (s : HTMLEntitySearch) : Prop :=
  m_currentLength s = Z.of_nat (length p) ∧ longestMatch p (m_mostRecentMatch s) ∧
  ∃ f l, m_first s = Some f ∧ m_last s = Some l ∧ (f ≤ l < length entityTable)%nat ∧
    ∀ i, startsWith p i ↔ (f ≤ i ≤ l)%nat.

(** The character an entry continues [p] with; [-1] when the entry is [p]. *)
Definition nextKey `{HTMLEntityTable} (n : nat) (i : nat) : Z :=
  match entityTable !! i with
  | Some e => default (-1) (entity e !! n)
  | None => -1
  end.

Lemma lexlt_irrefl a : lexlt a a = false.
Proof. induction a as [|x a IH]; simpl; [done|]. rewrite IH. lia. Qed.

Lemma lexlt_app p a b : lexlt (p ++ a) (p ++ b) = lexlt a b.
Proof. induction p as [|x p IH]; simpl; [done|]. by rewrite IH, Z.ltb_irrefl, Z.eqb_refl. Qed.

Section Facts.
Context `{HTMLEntityTableLaws}.

Lemma key_mono p i j :
  startsWith p i → startsWith p j → (i ≤ j)%nat → nextKey (length p) i ≤ nextKey (length p) j.
Proof.
  intros (a & Ha & ka & Hka) (b & Hb & kb & Hkb) Hij. unfold nextKey. rewrite Ha, Hb, Hka, Hkb.
  rewrite !lookup_app_r, Nat.sub_diag by lia.
  destruct (decide (i = j)) as [->|]; [rewrite Ha in Hb; injection Hb as ->; rewrite Hka in Hkb;
    by apply app_inv_head in Hkb as ->|].
  pose proof (table_sorted i j a b Ha Hb ltac:(lia)) as Hlt. rewrite Hka, Hkb, lexlt_app in Hlt.
  destruct ka as [|x ka], kb as [|y kb]; simpl in *; try done.
  - destruct (table_entry j b Hb) as (_ & _ & Hall & _). rewrite Hkb in Hall.
    apply Forall_app in Hall as [_ Hall]. inversion_clear Hall as [|? ? Hy _].
    unfold isEntityCharacter, isLetter, isASCIIDigit in Hy. lia.
  - lia.
Qed.

Lemma compare_key p s i c :
  m_currentLength s = Z.of_nat (length p) → startsWith p i → 0 ≤ c →
  compare s i c = Some (if nextKey (length p) i <? c then Before
                        else if nextKey (length p) i =? c then Prefix else After).
Proof.
  intros Hlen (e & He & k & Hk) Hc. unfold compare, nextKey. rewrite He, Hlen, Hk. simpl.
  destruct (table_entry i e He) as (_ & -> & _). rewrite Hk, Nat2Z.id, length_app.
  rewrite lookup_app_r, Nat.sub_diag by lia. destruct k as [|x k]; simpl.
  - rewrite (proj2 (Z.ltb_lt _ _)) by lia. rewrite (proj2 (Z.ltb_lt _ _)); [done|lia].
  - rewrite (proj2 (Z.ltb_ge _ _)) by lia.
    destruct (Z.eqb_spec x c) as [->|]; [by rewrite Z.ltb_irrefl|]. by case_match.
Qed.

Lemma halfway_between left right :
  (left + 1 < right → left < halfway left right < right)%nat.
Proof.
  intros Hlt. unfold halfway.
  assert (1 ≤ (right - left) / 2)%nat by (apply Nat.div_le_lower_bound; lia).
  assert ((right - left) / 2 < right - left)%nat by (apply Nat.div_lt; lia). lia.
Qed.

Section Range.
Context (p : list Z) (s : HTMLEntitySearch) (c : Z) (lo hi : nat).
Hypothesis Hlen : m_currentLength s = Z.of_nat (length p).
Hypothesis Hc : 0 ≤ c.
Hypothesis Hin : ∀ i, (lo ≤ i ≤ hi)%nat → startsWith p i.
Let key := nextKey (length p).

Lemma key_range i j : (lo ≤ i)%nat → (i ≤ j)%nat → (j ≤ hi)%nat → key i ≤ key j.
Proof. intros. apply key_mono; [apply Hin; lia..|lia]. Qed.

Lemma findFirstLoop_ok fuel left right :
  (lo ≤ left < right)%nat → (right ≤ hi)%nat → (right - left ≤ S fuel)%nat →
  key left < c → (right = hi ∨ c ≤ key right) →
  ∃ r, findFirstLoop fuel s c left right = Some r ∧ (lo < r ≤ hi)%nat ∧
    key (r - 1) < c ∧ (r = hi ∨ c ≤ key r).
Proof.
  revert left right. induction fuel as [|fuel IH]; intros left right Hl Hr Hf Hkl Hkr; simpl;
    destruct (Nat.ltb_spec (left + 1) right) as [Hlt|Hge]; try lia.
  2: pose proof (halfway_between left right Hlt) as Hh;
     rewrite (compare_key p s _ c Hlen (Hin (halfway left right) ltac:(lia)) Hc); fold key; simpl;
     destruct (Z.ltb_spec (key (halfway left right)) c); simpl;
     [|destruct (key (halfway left right) =? c); simpl]; apply IH; lia.
  all: exists right; replace (right - 1)%nat with left by lia; split; [done|lia].
Qed.

Lemma findLastLoop_ok fuel left right :
  (lo ≤ left < right)%nat → (right ≤ hi)%nat → (right - left ≤ S fuel)%nat →
  c < key right → (left = lo ∨ key left ≤ c) →
  ∃ l, findLastLoop fuel s c left right = Some l ∧ (lo ≤ l < hi)%nat ∧
    c < key (l + 1) ∧ (l = lo ∨ key l ≤ c).
Proof.
  revert left right. induction fuel as [|fuel IH]; intros left right Hl Hr Hf Hkr Hkl; simpl;
    destruct (Nat.ltb_spec (left + 1) right) as [Hlt|Hge]; try lia.
  2: pose proof (halfway_between left right Hlt) as Hh;
     rewrite (compare_key p s _ c Hlen (Hin (halfway left right) ltac:(lia)) Hc); fold key; simpl;
     destruct (Z.ltb_spec (key (halfway left right)) c); simpl;
     [|destruct (Z.eqb_spec (key (halfway left right)) c); simpl]; apply IH; lia.
  all: exists left; replace (left + 1)%nat with right by lia; split; [done|lia].
Qed.

Lemma findFirst_ok :
  m_first s = Some lo → m_last s = Some hi → (lo ≤ hi < length entityTable)%nat →
  ∃ r, findFirst s c = Some r ∧ (lo ≤ r ≤ hi)%nat ∧
    ((∀ i, (lo ≤ i < r)%nat → key i < c) ∧ (r = hi ∨ c ≤ key r) ∨
     r = hi ∧ ∀ i, (lo ≤ i ≤ hi)%nat → c < key i).
Proof.
  intros Hf Hl Hle. unfold findFirst. rewrite Hf, Hl. simpl.
  destruct (Nat.eqb_spec lo hi) as [E|Hne].
  { exists lo. split; [done|]. split; [lia|]. left. split; [lia|]. by left. }
  rewrite (compare_key p s _ c Hlen (Hin lo ltac:(lia)) Hc). fold key. simpl.
  destruct (Z.ltb_spec (key lo) c).
  - destruct (findFirstLoop_ok (length entityTable) lo hi) as (r & -> & Hr & Hk & Hor); [lia..|].
    exists r. split; [done|]. split; [lia|]. left. split; [|done].
    intros i Hi. pose proof (key_range i (r - 1)). lia.
  - destruct (Z.eqb_spec (key lo) c).
    + exists lo. split; [done|]. split; [lia|]. left. split; [lia|]. right. lia.
    + exists hi. split; [done|]. split; [lia|]. right. split; [done|].
      intros i Hi. pose proof (key_range lo i). lia.
Qed.

Lemma findLast_ok :
  m_first s = Some lo → m_last s = Some hi → (lo ≤ hi < length entityTable)%nat →
  ∃ l, findLast s c = Some l ∧ (lo ≤ l ≤ hi)%nat ∧
    ((∀ i, (l < i ≤ hi)%nat → c < key i) ∧ (l = lo ∨ key l ≤ c) ∨
     l = lo ∧ ∀ i, (lo ≤ i ≤ hi)%nat → key i < c).
Proof.
  intros Hf Hl Hle. unfold findLast. rewrite Hf, Hl. simpl.
  destruct (Nat.eqb_spec lo hi) as [E|Hne].
  { exists hi. split; [done|]. split; [lia|]. left. split; [lia|]. left. lia. }
  rewrite (compare_key p s _ c Hlen (Hin hi ltac:(lia)) Hc). fold key. simpl.
  destruct (Z.ltb_spec (key hi) c).
  - exists lo. split; [done|]. split; [lia|]. right. split; [done|].
    intros i Hi. pose proof (key_range i hi). lia.
  - destruct (Z.eqb_spec (key hi) c).
    + exists hi. split; [done|]. split; [lia|]. left. split; [lia|]. right. lia.
    + destruct (findLastLoop_ok (length entityTable) lo hi) as (l & -> & Hl' & Hk & Hor); [lia..|].
      exists l. split; [done|]. split; [lia|]. left. split; [|done].
      intros i Hi. pose proof (key_range (l + 1) i). lia.
Qed.
End Range.

Lemma startsWith_snoc p c i :
  0 ≤ c → startsWith (p ++ [c]) i ↔ startsWith p i ∧ nextKey (length p) i = c.
Proof.
  intros Hc. unfold startsWith, nextKey. split.
  - intros (e & He & k & Hk). rewrite He. split; [exists e; split; [done|]; by exists (c :: k); rewrite Hk, <-app_assoc|].
    by rewrite Hk, <-app_assoc, lookup_app_r, Nat.sub_diag by lia.
  - intros [(e & He & k & Hk) Hkey]. rewrite He, Hk, lookup_app_r, Nat.sub_diag in Hkey by lia.
    destruct k as [|x k]; simpl in *; [lia|]. subst x. exists e. split; [done|]. exists k.
    by rewrite <-app_assoc.
Qed.

(** A proper extension sorts after the entity it extends. *)
Lemma exact_first q f j e e' :
  entityTable !! f = Some e → entityTable !! j = Some e' → (f ≤ j)%nat →
  q `prefix_of` entity e → entity e' = q → f = j.
Proof.
  intros He He' Hle [k Hk] Hq. destruct (decide (f = j)) as [|Hne]; [done|]. exfalso.
  pose proof (table_sorted f j e e' He He' ltac:(lia)) as Hlt.
  rewrite Hk, Hq, <-(app_nil_r q), <-app_assoc, lexlt_app in Hlt. by destruct k.
Qed.

Lemma prefix_of_snoc (a p : list Z) c : a `prefix_of` p ++ [c] → a `prefix_of` p ∨ a = p ++ [c].
Proof.
  intros [k Hk]. destruct k as [|x k _] using rev_ind; [right; by rewrite app_nil_r in Hk|].
  rewrite app_assoc in Hk. apply app_inj_tail in Hk as [-> _]. left. by exists k.
Qed.

Lemma finish_ok p c s f l :
  m_currentLength s = Z.of_nat (length p) → longestMatch p (m_mostRecentMatch s) →
  m_first s = Some f → m_last s = Some l → (f ≤ l < length entityTable)%nat →
  (∀ i, startsWith (p ++ [c]) i ↔ (f ≤ i ≤ l)%nat) →
  ∃ s', finishAdvance s = Some s' ∧ searching (p ++ [c]) s'.
Proof.
  intros Hlen Hbest Hf Hl Hle Hrange. unfold finishAdvance. simpl. rewrite Hf. simpl.
  destruct (proj2 (Hrange f) ltac:(lia)) as (e & He & Hpre). rewrite He. simpl.
  destruct (table_entry f e He) as (_ & He_len & _). rewrite He_len, Hlen.
  assert (Hqlen : length (p ++ [c]) = S (length p)) by (rewrite length_app; simpl; lia).
  destruct (Z.eqb_spec (Z.of_nat (length (entity e))) (Z.of_nat (length p) + 1)) as [E|E]; simpl;
    (eexists; split; [done|]); (split; [simpl; lia|]); (split; [simpl|by exists f, l]).
  - assert (Heq : entity e = p ++ [c]).
    { destruct Hpre as [k Hk]. destruct k; [by rewrite app_nil_r in Hk|].
      rewrite Hk, length_app in E. simpl in *. lia. }
    exists e. split; [done|]. rewrite Heq. split; [done|]. intros j e' He' Hp'.
    by apply prefix_length.
  - assert (Hno : ∀ j e', entityTable !! j = Some e' → entity e' ≠ p ++ [c]).
    { intros j e' He' Heq. assert (Hj : (f ≤ j)%nat).
      { apply Hrange. exists e'. by rewrite Heq. }
      pose proof (exact_first (p ++ [c]) f j e e' He He' Hj Hpre Heq) as ->.
      rewrite He in He'. injection He' as ->. rewrite Heq, length_app in E. simpl in E. lia. }
    destruct (m_mostRecentMatch s) as [i|].
    + destruct Hbest as (b & Hb & Hbp & Hbest). exists b. split; [done|].
      split; [by apply prefix_app_r|]. intros j e' He' Hp'.
      destruct (prefix_of_snoc _ _ _ Hp') as [?|?]; [by eapply Hbest|by eapply Hno in He'].
    + intros j e' He' Hp'. destruct (prefix_of_snoc _ _ _ Hp') as [?|?]; [by eapply Hbest|by eapply Hno in He'].
Qed.

(** One step: the search goes on with exactly the right range, or fails because
    no entity extends the characters seen. *)
Definition stepped (p : list Z) (c : Z) (s s' : HTMLEntitySearch) : Prop :=
  searching (p ++ [c]) s' ∨
  (m_first s' = None ∧ m_mostRecentMatch s' = m_mostRecentMatch s ∧
   m_currentLength s' = Z.of_nat (length p) ∧ ∀ i, ¬ startsWith (p ++ [c]) i).

Lemma advance_first c :
  ∃ s', search_advance c newSearch = Some s' ∧ stepped [] c newSearch s'.
Proof.
  unfold search_advance. simpl. destruct (isLetter c) eqn:Hc.
  - destruct (table_letter c Hc) as (f & l & Hf & Hl & Hle & Hrange). rewrite Hf, Hl.
    destruct (finish_ok [] c (set_last (Some l) (set_first (Some f) newSearch)) f l) as (s' & Hs' & Hok); try done.
    + intros j e' He' Hp. destruct (table_entry j e' He') as ((x & Hx & _) & _).
      apply prefix_nil_inv in Hp. by rewrite Hp in Hx.
    + intros i. simpl. split.
      * intros (e & He & k & Hk). apply (Hrange i e He). by rewrite Hk.
      * intros Hi. destruct (lookup_lt_is_Some_2 entityTable i) as [e He]; [lia|].
        exists e. split; [done|]. apply (Hrange i e He) in Hi.
        destruct (entity e) as [|x k]; [done|]. injection Hi as ->. by exists k.
    + exists s'. split; [done|]. by left.
  - destruct (table_nonletter c Hc) as [Hf Hl]. rewrite Hf. eexists. split; [done|]. right.
    split_and!; try done. intros i (e & He & k & Hk).
    destruct (table_entry i e He) as ((x & Hx & Hletter) & _). rewrite Hk in Hx. simpl in Hx.
    injection Hx as ->. by rewrite Hc in Hletter.
Qed.

Lemma advance_next p c s :
  p ≠ [] → 0 ≤ c → searching p s →
  ∃ s', search_advance c s = Some s' ∧ stepped p c s s'.
Proof.
  intros Hne Hc (Hlen & Hbest & lo & hi & Hf & Hl & Hle & Hrange). unfold search_advance.
  rewrite Hlen, (proj2 (Z.eqb_neq _ _)) by (destruct p; simpl; [done|lia]).
  assert (Hin : ∀ i, (lo ≤ i ≤ hi)%nat → startsWith p i) by (intros; by apply Hrange).
  destruct (findFirst_ok p s c lo hi Hlen Hc Hin Hf Hl Hle) as (r & -> & Hr & Hspec). simpl.
  set (s1 := set_first (Some r) s).
  destruct (findLast_ok p s1 c r hi Hlen Hc ltac:(intros; apply Hin; lia) eq_refl Hl ltac:(lia))
    as (l & -> & Hl' & Hspec'). simpl.
  set (s2 := set_last (Some l) s1).
  rewrite (compare_key p s2 r c Hlen (Hin r ltac:(lia)) Hc). simpl.
  set (key := nextKey (length p)) in *.
  assert (Hmono : ∀ i j, (lo ≤ i)%nat → (i ≤ j)%nat → (j ≤ hi)%nat → key i ≤ key j)
    by (intros; by eapply key_range).
  destruct (decide (key r = c)) as [Heq|Hneq].
  - (* some entry continues with c *)
    rewrite Heq, Z.ltb_irrefl, Z.eqb_refl. rewrite bool_decide_false, andb_false_r by (by intros Hx; apply Hx).
    destruct (finish_ok p c s2 r l) as (s' & Hs' & Hok); try done; [lia| |exists s'; split; [done|by left]].
    intros i. rewrite startsWith_snoc, Hrange by done. fold key.
    pose proof (Hmono r l). pose proof (Hmono r i). pose proof (Hmono i l). pose proof (Hmono lo r).
    assert (key l = c) by (destruct Hspec' as [[_ [->|?]]|[-> _]]; lia).
    split; [|lia]. intros [Hi Hki]. split.
    + destruct (decide (i < r)%nat) as [Hlt|]; [|lia]. exfalso.
      destruct Hspec as [[Hbelow _]|[-> Hall]]; [specialize (Hbelow i ltac:(lia))|specialize (Hall i ltac:(lia))]; lia.
    + destruct (decide (l < i)%nat) as [Hlt|]; [|lia]. exfalso.
      destruct Hspec' as [[Habove _]|[-> Hall]]; [specialize (Habove i ltac:(lia))|specialize (Hall i ltac:(lia))]; lia.
  - (* none does: the two bounds meet *)
    assert (Hnone : ∀ i, (lo ≤ i ≤ hi)%nat → key i ≠ c).
    { intros i Hi Hki. pose proof (Hmono r i). pose proof (Hmono i r).
      destruct Hspec as [[Hbelow Hor]|[-> Hall]]; [|specialize (Hall i Hi); lia].
      destruct (decide (i < r)%nat); [specialize (Hbelow i ltac:(lia)); lia|].
      destruct Hor as [->|?]; [|lia]. assert (i = hi) as -> by lia. done. }
    assert (l = r) as ->.
    { destruct Hspec' as [[Habove [?|Hle']]|[? _]]; [done| |done].
      specialize (Hnone l ltac:(lia)) as Hnl.
      destruct Hspec as [[_ [->|Hge]]|[-> _]]; [lia| |lia].
      pose proof (Hmono r l). lia. }
    rewrite Nat.eqb_refl, bool_decide_true.
    2:{ destruct (Z.ltb_spec (key r) c); [done|]. by rewrite (proj2 (Z.eqb_neq _ _)). }
    simpl. eexists. split; [done|]. right. split_and!; try done.
    intros i Hsw. apply startsWith_snoc in Hsw as [Hsw Hk]; [|done]. apply Hrange in Hsw. by eapply Hnone.
Qed.


(** The state after the characters [p], failed or not. *)
Definition searched (p : list Z) (s : HTMLEntitySearch) : Prop :=
  longestMatch p (m_mostRecentMatch s) ∧ (m_first s ≠ None ↔ ∃ i, startsWith p i).

Lemma longestMatch_nil : longestMatch [] None.
Proof.
  intros j e He Hp. destruct (table_entry j e He) as ((x & Hx & _) & _).
  apply prefix_nil_inv in Hp. by rewrite Hp in Hx.
Qed.

Lemma longestMatch_app p c rest o :
  longestMatch p o → (∀ i, ¬ startsWith (p ++ [c]) i) → longestMatch (p ++ c :: rest) o.
Proof.
  intros Hbest Hno. assert (Hpre : ∀ j e, entityTable !! j = Some e →
    entity e `prefix_of` p ++ c :: rest → entity e `prefix_of` p).
  { intros j e He [k Hk]. apply app_eq_inv in Hk as [(k' & Hp & _)|(k' & Hek & Hk)]; [by exists k'|].
    destruct k' as [|x k']; [by rewrite Hek, app_nil_r|]. injection Hk as <- _. exfalso.
    apply (Hno j). exists e. split; [done|]. exists k'. by rewrite Hek, <-app_assoc. }
  destruct o as [i|].
  - destruct Hbest as (e & He & Hp & Hbest). exists e. split; [done|]. split; [by apply prefix_app_r|]. eauto.
  - intros j e He Hp. by eapply Hbest, Hpre.
Qed.

Lemma stepped_searched p c rest s s' :
  longestMatch p (m_mostRecentMatch s) → stepped p c s s' →
  m_first s' = None → searched (p ++ c :: rest) s'.
Proof.
  intros Hbest [(_ & _ & f & l & Hf & _)|(_ & Hm & _ & Hno)] Hnone; [congruence|].
  split; [rewrite Hm; by apply longestMatch_app|]. split; [done|]. intros (i & e & He & k & Hk).
  exfalso. apply (Hno i). exists e. split; [done|]. exists (rest ++ k). by rewrite Hk, <-!app_assoc.
Qed.

Lemma feed_ok chars p s :
  Forall (λ c, 0 ≤ c) chars → p ≠ [] → searching p s →
  ∃ s', feed chars s = Some s' ∧ searched (p ++ chars) s'.
Proof.
  revert p s. induction chars as [|c chars IH]; intros p s Hall Hne Hs; simpl.
  - exists s. split; [done|]. rewrite app_nil_r. destruct Hs as (_ & Hbest & f & l & Hf & _ & Hle & Hrange).
    split; [done|]. rewrite Hf. split; [|done]. intros _. exists f. apply Hrange. lia.
  - inversion_clear Hall as [|? ? Hc Hall'].
    destruct (advance_next p c s Hne Hc Hs) as (s' & -> & Hst). simpl. unfold isEntityPrefix.
    destruct (m_first s') as [f|] eqn:Hf; simpl.
    + destruct Hst as [Hs'|(? & _)]; [|congruence].
      destruct (IH (p ++ [c]) s' Hall') as (s'' & -> & Hs''); [by destruct p|done|].
      rewrite <-app_assoc in Hs''. by exists s''.
    + exists s'. split; [done|]. destruct Hs as (_ & Hbest & _). by eapply stepped_searched.
Qed.

(** C10: Functional correctness of the incremental entity search. Fed with any
    characters from the start, the search never faults and its loops end within
    their bound; [isEntityPrefix()] answers whether some entity of the table
    starts with those characters, and [mostRecentMatch()] is the longest entity
    of the table that is a prefix of them (none, when there is none). *)
Theorem entitySearch_finds_longest chars :
  Forall (λ c, 0 ≤ c) chars →
  ∃ s, feed chars newSearch = Some s ∧
    longestMatch chars (m_mostRecentMatch s) ∧
    (isEntityPrefix s = true ↔ ∃ i, startsWith chars i).
Proof.
  intros Hall. assert (Hgoal : ∃ s, feed chars newSearch = Some s ∧ searched chars s).
  { destruct chars as [|c chars]; simpl.
    - exists newSearch. split; [done|]. split; [apply longestMatch_nil|]. split; [|done]. intros _.
      destruct (table_letter cUpperA) as (f & l & _ & _ & Hle & _); [done|].
      destruct (lookup_lt_is_Some_2 entityTable f) as [e He]; [lia|].
      exists f, e. split; [done|]. apply prefix_nil.
    - inversion_clear Hall as [|? ? Hc Hall'].
      destruct (advance_first c) as (s & -> & Hst). simpl. unfold isEntityPrefix.
      destruct (m_first s) as [f|] eqn:Hf; simpl.
      + destruct Hst as [Hs|(? & _)]; [|congruence]. by apply (feed_ok chars [c] s).
      + exists s. split; [done|]. by apply (stepped_searched [] c chars newSearch s longestMatch_nil Hst). }
  destruct Hgoal as (s & Hs & Hbest & Hiff). exists s. split; [done|]. split; [done|].
  unfold isEntityPrefix. by rewrite bool_decide_eq_true.
Qed.
End Facts.
