(* ===== verification/HTMLEntityTable.v ===== *)
(** * The entity table

    The table that [Source/WebCore/html/parser/create-html-entity-table] makes of
    [Source/WebCore/html/parser/HTMLEntityNames.in]: the 2231 entities of HTML,
    sorted, and the offsets of the entries of each letter, read the way the
    generated [HTMLEntityTable::firstEntryStartingWith] and
    [lastEntryStartingWith] read them. [HTMLEntityTable_laws] shows, by
    evaluation, that this table has the properties the search relies on. *)

From Stdlib Require Import String Ascii.
From S2P Require Import Prelude ASCIICType HTMLEntitySearch.

(** The characters of a string literal. *)
Definition bytes (s : string) : list Z := (λ c, Z.of_nat (nat_of_ascii c)) <$> list_ascii_of_string s.

Definition E (name : string) (first second : Z) : HTMLEntityTableEntry :=
  mkEntry (bytes name) (Z.of_nat (String.length name)) first second.

Definition entityNames : list HTMLEntityTableEntry :=
  Eval vm_compute in [
    E "AElig" 198 0; E "AElig;" 198 0; E "AMP" 38 0; E "AMP;" 38 0; E "Aacute" 193 0; E "Aacute;" 193 0;
    E "Abreve;" 258 0; E "Acirc" 194 0; E "Acirc;" 194 0; E "Acy;" 1040 0; E "Afr;" 120068 0; E "Agrave" 192 0;
    E "Agrave;" 192 0; E "Alpha;" 913 0; E "Amacr;" 256 0; E "And;" 10835 0; E "Aogon;" 260 0; E "Aopf;" 120120 0;
    E "ApplyFunction;" 8289 0; E "Aring" 197 0; E "Aring;" 197 0; E "Ascr;" 119964 0; E "Assign;" 8788 0;
    E "Atilde" 195 0; E "Atilde;" 195 0; E "Auml" 196 0; E "Auml;" 196 0; E "Backslash;" 8726 0; E "Barv;" 10983 0;
    E "Barwed;" 8966 0; E "Bcy;" 1041 0; E "Because;" 8757 0; E "Bernoullis;" 8492 0; E "Beta;" 914 0;
    E "Bfr;" 120069 0; E "Bopf;" 120121 0; E "Breve;" 728 0; E "Bscr;" 8492 0; E "Bumpeq;" 8782 0; E "CHcy;" 1063 0;
    E "COPY" 169 0; E "COPY;" 169 0; E "Cacute;" 262 0; E "Cap;" 8914 0; E "CapitalDifferentialD;" 8517 0;
    E "Cayleys;" 8493 0; E "Ccaron;" 268 0; E "Ccedil" 199 0; E "Ccedil;" 199 0; E "Ccirc;" 264 0;
    E "Cconint;" 8752 0; E "Cdot;" 266 0; E "Cedilla;" 184 0; E "CenterDot;" 183 0; E "Cfr;" 8493 0; E "Chi;" 935 0;
    E "CircleDot;" 8857 0; E "CircleMinus;" 8854 0; E "CirclePlus;" 8853 0; E "CircleTimes;" 8855 0;
    E "ClockwiseContourIntegral;" 8754 0; E "CloseCurlyDoubleQuote;" 8221 0; E "CloseCurlyQuote;" 8217 0;
    E "Colon;" 8759 0; E "Colone;" 10868 0; E "Congruent;" 8801 0; E "Conint;" 8751 0; E "ContourIntegral;" 8750 0;
    E "Copf;" 8450 0; E "Coproduct;" 8720 0; E "CounterClockwiseContourIntegral;" 8755 0; E "Cross;" 10799 0;
    E "Cscr;" 119966 0; E "Cup;" 8915 0; E "CupCap;" 8781 0; E "DD;" 8517 0; E "DDotrahd;" 10513 0;
    E "DJcy;" 1026 0; E "DScy;" 1029 0; E "DZcy;" 1039 0; E "Dagger;" 8225 0; E "Darr;" 8609 0; E "Dashv;" 10980 0;
    E "Dcaron;" 270 0; E "Dcy;" 1044 0; E "Del;" 8711 0; E "Delta;" 916 0; E "Dfr;" 120071 0;
    E "DiacriticalAcute;" 180 0; E "DiacriticalDot;" 729 0; E "DiacriticalDoubleAcute;" 733 0;
    E "DiacriticalGrave;" 96 0; E "DiacriticalTilde;" 732 0; E "Diamond;" 8900 0; E "DifferentialD;" 8518 0;
    E "Dopf;" 120123 0; E "Dot;" 168 0; E "DotDot;" 8412 0; E "DotEqual;" 8784 0; E "DoubleContourIntegral;" 8751 0;
    E "DoubleDot;" 168 0; E "DoubleDownArrow;" 8659 0; E "DoubleLeftArrow;" 8656 0;
    E "DoubleLeftRightArrow;" 8660 0; E "DoubleLeftTee;" 10980 0; E "DoubleLongLeftArrow;" 10232 0;
    E "DoubleLongLeftRightArrow;" 10234 0; E "DoubleLongRightArrow;" 10233 0; E "DoubleRightArrow;" 8658 0;
    E "DoubleRightTee;" 8872 0; E "DoubleUpArrow;" 8657 0; E "DoubleUpDownArrow;" 8661 0;
    E "DoubleVerticalBar;" 8741 0; E "DownArrow;" 8595 0; E "DownArrowBar;" 10515 0; E "DownArrowUpArrow;" 8693 0;
    E "DownBreve;" 785 0; E "DownLeftRightVector;" 10576 0; E "DownLeftTeeVector;" 10590 0;
    E "DownLeftVector;" 8637 0; E "DownLeftVectorBar;" 10582 0; E "DownRightTeeVector;" 10591 0;
    E "DownRightVector;" 8641 0; E "DownRightVectorBar;" 10583 0; E "DownTee;" 8868 0; E "DownTeeArrow;" 8615 0;
    E "Downarrow;" 8659 0; E "Dscr;" 119967 0; E "Dstrok;" 272 0; E "ENG;" 330 0; E "ETH" 208 0; E "ETH;" 208 0;
    E "Eacute" 201 0; E "Eacute;" 201 0; E "Ecaron;" 282 0; E "Ecirc" 202 0; E "Ecirc;" 202 0; E "Ecy;" 1069 0;
    E "Edot;" 278 0; E "Efr;" 120072 0; E "Egrave" 200 0; E "Egrave;" 200 0; E "Element;" 8712 0; E "Emacr;" 274 0;
    E "EmptySmallSquare;" 9723 0; E "EmptyVerySmallSquare;" 9643 0; E "Eogon;" 280 0; E "Eopf;" 120124 0;
    E "Epsilon;" 917 0; E "Equal;" 10869 0; E "EqualTilde;" 8770 0; E "Equilibrium;" 8652 0; E "Escr;" 8496 0;
    E "Esim;" 10867 0; E "Eta;" 919 0; E "Euml" 203 0; E "Euml;" 203 0; E "Exists;" 8707 0;
    E "ExponentialE;" 8519 0; E "Fcy;" 1060 0; E "Ffr;" 120073 0; E "FilledSmallSquare;" 9724 0;
    E "FilledVerySmallSquare;" 9642 0; E "Fopf;" 120125 0; E "ForAll;" 8704 0; E "Fouriertrf;" 8497 0;
    E "Fscr;" 8497 0; E "GJcy;" 1027 0; E "GT" 62 0; E "GT;" 62 0; E "Gamma;" 915 0; E "Gammad;" 988 0;
    E "Gbreve;" 286 0; E "Gcedil;" 290 0; E "Gcirc;" 284 0; E "Gcy;" 1043 0; E "Gdot;" 288 0; E "Gfr;" 120074 0;
    E "Gg;" 8921 0; E "Gopf;" 120126 0; E "GreaterEqual;" 8805 0; E "GreaterEqualLess;" 8923 0;
    E "GreaterFullEqual;" 8807 0; E "GreaterGreater;" 10914 0; E "GreaterLess;" 8823 0;
    E "GreaterSlantEqual;" 10878 0; E "GreaterTilde;" 8819 0; E "Gscr;" 119970 0; E "Gt;" 8811 0;
    E "HARDcy;" 1066 0; E "Hacek;" 711 0; E "Hat;" 94 0; E "Hcirc;" 292 0; E "Hfr;" 8460 0;
    E "HilbertSpace;" 8459 0; E "Hopf;" 8461 0; E "HorizontalLine;" 9472 0; E "Hscr;" 8459 0; E "Hstrok;" 294 0;
    E "HumpDownHump;" 8782 0; E "HumpEqual;" 8783 0; E "IEcy;" 1045 0; E "IJlig;" 306 0; E "IOcy;" 1025 0;
    E "Iacute" 205 0; E "Iacute;" 205 0; E "Icirc" 206 0; E "Icirc;" 206 0; E "Icy;" 1048 0; E "Idot;" 304 0;
    E "Ifr;" 8465 0; E "Igrave" 204 0; E "Igrave;" 204 0; E "Im;" 8465 0; E "Imacr;" 298 0; E "ImaginaryI;" 8520 0;
    E "Implies;" 8658 0; E "Int;" 8748 0; E "Integral;" 8747 0; E "Intersection;" 8898 0;
    E "InvisibleComma;" 8291 0; E "InvisibleTimes;" 8290 0; E "Iogon;" 302 0; E "Iopf;" 120128 0; E "Iota;" 921 0;
    E "Iscr;" 8464 0; E "Itilde;" 296 0; E "Iukcy;" 1030 0; E "Iuml" 207 0; E "Iuml;" 207 0; E "Jcirc;" 308 0;
    E "Jcy;" 1049 0; E "Jfr;" 120077 0; E "Jopf;" 120129 0; E "Jscr;" 119973 0; E "Jsercy;" 1032 0;
    E "Jukcy;" 1028 0; E "KHcy;" 1061 0; E "KJcy;" 1036 0; E "Kappa;" 922 0; E "Kcedil;" 310 0; E "Kcy;" 1050 0;
    E "Kfr;" 120078 0; E "Kopf;" 120130 0; E "Kscr;" 119974 0; E "LJcy;" 1033 0; E "LT" 60 0; E "LT;" 60 0;
    E "Lacute;" 313 0; E "Lambda;" 923 0; E "Lang;" 10218 0; E "Laplacetrf;" 8466 0; E "Larr;" 8606 0;
    E "Lcaron;" 317 0; E "Lcedil;" 315 0; E "Lcy;" 1051 0; E "LeftAngleBracket;" 10216 0; E "LeftArrow;" 8592 0;
    E "LeftArrowBar;" 8676 0; E "LeftArrowRightArrow;" 8646 0; E "LeftCeiling;" 8968 0;
    E "LeftDoubleBracket;" 10214 0; E "LeftDownTeeVector;" 10593 0; E "LeftDownVector;" 8643 0;
    E "LeftDownVectorBar;" 10585 0; E "LeftFloor;" 8970 0; E "LeftRightArrow;" 8596 0; E "LeftRightVector;" 10574 0;
    E "LeftTee;" 8867 0; E "LeftTeeArrow;" 8612 0; E "LeftTeeVector;" 10586 0; E "LeftTriangle;" 8882 0;
    E "LeftTriangleBar;" 10703 0; E "LeftTriangleEqual;" 8884 0; E "LeftUpDownVector;" 10577 0;
    E "LeftUpTeeVector;" 10592 0; E "LeftUpVector;" 8639 0; E "LeftUpVectorBar;" 10584 0; E "LeftVector;" 8636 0;
    E "LeftVectorBar;" 10578 0; E "Leftarrow;" 8656 0; E "Leftrightarrow;" 8660 0; E "LessEqualGreater;" 8922 0;
    E "LessFullEqual;" 8806 0; E "LessGreater;" 8822 0; E "LessLess;" 10913 0; E "LessSlantEqual;" 10877 0;
    E "LessTilde;" 8818 0; E "Lfr;" 120079 0; E "Ll;" 8920 0; E "Lleftarrow;" 8666 0; E "Lmidot;" 319 0;
    E "LongLeftArrow;" 10229 0; E "LongLeftRightArrow;" 10231 0; E "LongRightArrow;" 10230 0;
    E "Longleftarrow;" 10232 0; E "Longleftrightarrow;" 10234 0; E "Longrightarrow;" 10233 0; E "Lopf;" 120131 0;
    E "LowerLeftArrow;" 8601 0; E "LowerRightArrow;" 8600 0; E "Lscr;" 8466 0; E "Lsh;" 8624 0; E "Lstrok;" 321 0;
    E "Lt;" 8810 0; E "Map;" 10501 0; E "Mcy;" 1052 0; E "MediumSpace;" 8287 0; E "Mellintrf;" 8499 0;
    E "Mfr;" 120080 0; E "MinusPlus;" 8723 0; E "Mopf;" 120132 0; E "Mscr;" 8499 0; E "Mu;" 924 0; E "NJcy;" 1034 0;
    E "Nacute;" 323 0; E "Ncaron;" 327 0; E "Ncedil;" 325 0; E "Ncy;" 1053 0; E "NegativeMediumSpace;" 8203 0;
    E "NegativeThickSpace;" 8203 0; E "NegativeThinSpace;" 8203 0; E "NegativeVeryThinSpace;" 8203 0;
    E "NestedGreaterGreater;" 8811 0; E "NestedLessLess;" 8810 0; E "NewLine;" 10 0; E "Nfr;" 120081 0;
    E "NoBreak;" 8288 0; E "NonBreakingSpace;" 160 0; E "Nopf;" 8469 0; E "Not;" 10988 0; E "NotCongruent;" 8802 0;
    E "NotCupCap;" 8813 0; E "NotDoubleVerticalBar;" 8742 0; E "NotElement;" 8713 0; E "NotEqual;" 8800 0;
    E "NotEqualTilde;" 8770 824; E "NotExists;" 8708 0; E "NotGreater;" 8815 0; E "NotGreaterEqual;" 8817 0;
    E "NotGreaterFullEqual;" 8807 824; E "NotGreaterGreater;" 8811 824; E "NotGreaterLess;" 8825 0;
    E "NotGreaterSlantEqual;" 10878 824; E "NotGreaterTilde;" 8821 0; E "NotHumpDownHump;" 8782 824;
    E "NotHumpEqual;" 8783 824; E "NotLeftTriangle;" 8938 0; E "NotLeftTriangleBar;" 10703 824;
    E "NotLeftTriangleEqual;" 8940 0; E "NotLess;" 8814 0; E "NotLessEqual;" 8816 0; E "NotLessGreater;" 8824 0;
    E "NotLessLess;" 8810 824; E "NotLessSlantEqual;" 10877 824; E "NotLessTilde;" 8820 0;
    E "NotNestedGreaterGreater;" 10914 824; E "NotNestedLessLess;" 10913 824; E "NotPrecedes;" 8832 0;
    E "NotPrecedesEqual;" 10927 824; E "NotPrecedesSlantEqual;" 8928 0; E "NotReverseElement;" 8716 0;
    E "NotRightTriangle;" 8939 0; E "NotRightTriangleBar;" 10704 824; E "NotRightTriangleEqual;" 8941 0;
    E "NotSquareSubset;" 8847 824; E "NotSquareSubsetEqual;" 8930 0; E "NotSquareSuperset;" 8848 824;
    E "NotSquareSupersetEqual;" 8931 0; E "NotSubset;" 8834 8402; E "NotSubsetEqual;" 8840 0;
    E "NotSucceeds;" 8833 0; E "NotSucceedsEqual;" 10928 824; E "NotSucceedsSlantEqual;" 8929 0;
    E "NotSucceedsTilde;" 8831 824; E "NotSuperset;" 8835 8402; E "NotSupersetEqual;" 8841 0; E "NotTilde;" 8769 0;
    E "NotTildeEqual;" 8772 0; E "NotTildeFullEqual;" 8775 0; E "NotTildeTilde;" 8777 0; E "NotVerticalBar;" 8740 0;
    E "Nscr;" 119977 0; E "Ntilde" 209 0; E "Ntilde;" 209 0; E "Nu;" 925 0; E "OElig;" 338 0; E "Oacute" 211 0;
    E "Oacute;" 211 0; E "Ocirc" 212 0; E "Ocirc;" 212 0; E "Ocy;" 1054 0; E "Odblac;" 336 0; E "Ofr;" 120082 0;
    E "Ograve" 210 0; E "Ograve;" 210 0; E "Omacr;" 332 0; E "Omega;" 937 0; E "Omicron;" 927 0; E "Oopf;" 120134 0;
    E "OpenCurlyDoubleQuote;" 8220 0; E "OpenCurlyQuote;" 8216 0; E "Or;" 10836 0; E "Oscr;" 119978 0;
    E "Oslash" 216 0; E "Oslash;" 216 0; E "Otilde" 213 0; E "Otilde;" 213 0; E "Otimes;" 10807 0; E "Ouml" 214 0;
    E "Ouml;" 214 0; E "OverBar;" 8254 0; E "OverBrace;" 9182 0; E "OverBracket;" 9140 0;
    E "OverParenthesis;" 9180 0; E "PartialD;" 8706 0; E "Pcy;" 1055 0; E "Pfr;" 120083 0; E "Phi;" 934 0;
    E "Pi;" 928 0; E "PlusMinus;" 177 0; E "Poincareplane;" 8460 0; E "Popf;" 8473 0; E "Pr;" 10939 0;
    E "Precedes;" 8826 0; E "PrecedesEqual;" 10927 0; E "PrecedesSlantEqual;" 8828 0; E "PrecedesTilde;" 8830 0;
    E "Prime;" 8243 0; E "Product;" 8719 0; E "Proportion;" 8759 0; E "Proportional;" 8733 0; E "Pscr;" 119979 0;
    E "Psi;" 936 0; E "QUOT" 34 0; E "QUOT;" 34 0; E "Qfr;" 120084 0; E "Qopf;" 8474 0; E "Qscr;" 119980 0;
    E "RBarr;" 10512 0; E "REG" 174 0; E "REG;" 174 0; E "Racute;" 340 0; E "Rang;" 10219 0; E "Rarr;" 8608 0;
    E "Rarrtl;" 10518 0; E "Rcaron;" 344 0; E "Rcedil;" 342 0; E "Rcy;" 1056 0; E "Re;" 8476 0;
    E "ReverseElement;" 8715 0; E "ReverseEquilibrium;" 8651 0; E "ReverseUpEquilibrium;" 10607 0; E "Rfr;" 8476 0;
    E "Rho;" 929 0; E "RightAngleBracket;" 10217 0; E "RightArrow;" 8594 0; E "RightArrowBar;" 8677 0;
    E "RightArrowLeftArrow;" 8644 0; E "RightCeiling;" 8969 0; E "RightDoubleBracket;" 10215 0;
    E "RightDownTeeVector;" 10589 0; E "RightDownVector;" 8642 0; E "RightDownVectorBar;" 10581 0;
    E "RightFloor;" 8971 0; E "RightTee;" 8866 0; E "RightTeeArrow;" 8614 0; E "RightTeeVector;" 10587 0;
    E "RightTriangle;" 8883 0; E "RightTriangleBar;" 10704 0; E "RightTriangleEqual;" 8885 0;
    E "RightUpDownVector;" 10575 0; E "RightUpTeeVector;" 10588 0; E "RightUpVector;" 8638 0;
    E "RightUpVectorBar;" 10580 0; E "RightVector;" 8640 0; E "RightVectorBar;" 10579 0; E "Rightarrow;" 8658 0;
    E "Ropf;" 8477 0; E "RoundImplies;" 10608 0; E "Rrightarrow;" 8667 0; E "Rscr;" 8475 0; E "Rsh;" 8625 0;
    E "RuleDelayed;" 10740 0; E "SHCHcy;" 1065 0; E "SHcy;" 1064 0; E "SOFTcy;" 1068 0; E "Sacute;" 346 0;
    E "Sc;" 10940 0; E "Scaron;" 352 0; E "Scedil;" 350 0; E "Scirc;" 348 0; E "Scy;" 1057 0; E "Sfr;" 120086 0;
    E "ShortDownArrow;" 8595 0; E "ShortLeftArrow;" 8592 0; E "ShortRightArrow;" 8594 0; E "ShortUpArrow;" 8593 0;
    E "Sigma;" 931 0; E "SmallCircle;" 8728 0; E "Sopf;" 120138 0; E "Sqrt;" 8730 0; E "Square;" 9633 0;
    E "SquareIntersection;" 8851 0; E "SquareSubset;" 8847 0; E "SquareSubsetEqual;" 8849 0;
    E "SquareSuperset;" 8848 0; E "SquareSupersetEqual;" 8850 0; E "SquareUnion;" 8852 0; E "Sscr;" 119982 0;
    E "Star;" 8902 0; E "Sub;" 8912 0; E "Subset;" 8912 0; E "SubsetEqual;" 8838 0; E "Succeeds;" 8827 0;
    E "SucceedsEqual;" 10928 0; E "SucceedsSlantEqual;" 8829 0; E "SucceedsTilde;" 8831 0; E "SuchThat;" 8715 0;
    E "Sum;" 8721 0; E "Sup;" 8913 0; E "Superset;" 8835 0; E "SupersetEqual;" 8839 0; E "Supset;" 8913 0;
    E "THORN" 222 0; E "THORN;" 222 0; E "TRADE;" 8482 0; E "TSHcy;" 1035 0; E "TScy;" 1062 0; E "Tab;" 9 0;
    E "Tau;" 932 0; E "Tcaron;" 356 0; E "Tcedil;" 354 0; E "Tcy;" 1058 0; E "Tfr;" 120087 0; E "Therefore;" 8756 0;
    E "Theta;" 920 0; E "ThickSpace;" 8287 8202; E "ThinSpace;" 8201 0; E "Tilde;" 8764 0; E "TildeEqual;" 8771 0;
    E "TildeFullEqual;" 8773 0; E "TildeTilde;" 8776 0; E "Topf;" 120139 0; E "TripleDot;" 8411 0;
    E "Tscr;" 119983 0; E "Tstrok;" 358 0; E "Uacute" 218 0; E "Uacute;" 218 0; E "Uarr;" 8607 0;
    E "Uarrocir;" 10569 0; E "Ubrcy;" 1038 0; E "Ubreve;" 364 0; E "Ucirc" 219 0; E "Ucirc;" 219 0; E "Ucy;" 1059 0;
    E "Udblac;" 368 0; E "Ufr;" 120088 0; E "Ugrave" 217 0; E "Ugrave;" 217 0; E "Umacr;" 362 0; E "UnderBar;" 95 0;
    E "UnderBrace;" 9183 0; E "UnderBracket;" 9141 0; E "UnderParenthesis;" 9181 0; E "Union;" 8899 0;
    E "UnionPlus;" 8846 0; E "Uogon;" 370 0; E "Uopf;" 120140 0; E "UpArrow;" 8593 0; E "UpArrowBar;" 10514 0;
    E "UpArrowDownArrow;" 8645 0; E "UpDownArrow;" 8597 0; E "UpEquilibrium;" 10606 0; E "UpTee;" 8869 0;
    E "UpTeeArrow;" 8613 0; E "Uparrow;" 8657 0; E "Updownarrow;" 8661 0; E "UpperLeftArrow;" 8598 0;
    E "UpperRightArrow;" 8599 0; E "Upsi;" 978 0; E "Upsilon;" 933 0; E "Uring;" 366 0; E "Uscr;" 119984 0;
    E "Utilde;" 360 0; E "Uuml" 220 0; E "Uuml;" 220 0; E "VDash;" 8875 0; E "Vbar;" 10987 0; E "Vcy;" 1042 0;
    E "Vdash;" 8873 0; E "Vdashl;" 10982 0; E "Vee;" 8897 0; E "Verbar;" 8214 0; E "Vert;" 8214 0;
    E "VerticalBar;" 8739 0; E "VerticalLine;" 124 0; E "VerticalSeparator;" 10072 0; E "VerticalTilde;" 8768 0;
    E "VeryThinSpace;" 8202 0; E "Vfr;" 120089 0; E "Vopf;" 120141 0; E "Vscr;" 119985 0; E "Vvdash;" 8874 0;
    E "Wcirc;" 372 0; E "Wedge;" 8896 0; E "Wfr;" 120090 0; E "Wopf;" 120142 0; E "Wscr;" 119986 0;
    E "Xfr;" 120091 0; E "Xi;" 926 0; E "Xopf;" 120143 0; E "Xscr;" 119987 0; E "YAcy;" 1071 0; E "YIcy;" 1031 0;
    E "YUcy;" 1070 0; E "Yacute" 221 0; E "Yacute;" 221 0; E "Ycirc;" 374 0; E "Ycy;" 1067 0; E "Yfr;" 120092 0;
    E "Yopf;" 120144 0; E "Yscr;" 119988 0; E "Yuml;" 376 0; E "ZHcy;" 1046 0; E "Zacute;" 377 0; E "Zcaron;" 381 0;
    E "Zcy;" 1047 0; E "Zdot;" 379 0; E "ZeroWidthSpace;" 8203 0; E "Zeta;" 918 0; E "Zfr;" 8488 0;
    E "Zopf;" 8484 0; E "Zscr;" 119989 0; E "aacute" 225 0; E "aacute;" 225 0; E "abreve;" 259 0; E "ac;" 8766 0;
    E "acE;" 8766 819; E "acd;" 8767 0; E "acirc" 226 0; E "acirc;" 226 0; E "acute" 180 0; E "acute;" 180 0;
    E "acy;" 1072 0; E "aelig" 230 0; E "aelig;" 230 0; E "af;" 8289 0; E "afr;" 120094 0; E "agrave" 224 0;
    E "agrave;" 224 0; E "alefsym;" 8501 0; E "aleph;" 8501 0; E "alpha;" 945 0; E "amacr;" 257 0;
    E "amalg;" 10815 0; E "amp" 38 0; E "amp;" 38 0; E "and;" 8743 0; E "andand;" 10837 0; E "andd;" 10844 0;
    E "andslope;" 10840 0; E "andv;" 10842 0; E "ang;" 8736 0; E "ange;" 10660 0; E "angle;" 8736 0;
    E "angmsd;" 8737 0; E "angmsdaa;" 10664 0; E "angmsdab;" 10665 0; E "angmsdac;" 10666 0; E "angmsdad;" 10667 0;
    E "angmsdae;" 10668 0; E "angmsdaf;" 10669 0; E "angmsdag;" 10670 0; E "angmsdah;" 10671 0; E "angrt;" 8735 0;
    E "angrtvb;" 8894 0; E "angrtvbd;" 10653 0; E "angsph;" 8738 0; E "angst;" 197 0; E "angzarr;" 9084 0;
    E "aogon;" 261 0; E "aopf;" 120146 0; E "ap;" 8776 0; E "apE;" 10864 0; E "apacir;" 10863 0; E "ape;" 8778 0;
    E "apid;" 8779 0; E "apos;" 39 0; E "approx;" 8776 0; E "approxeq;" 8778 0; E "aring" 229 0; E "aring;" 229 0;
    E "ascr;" 119990 0; E "ast;" 42 0; E "asymp;" 8776 0; E "asympeq;" 8781 0; E "atilde" 227 0; E "atilde;" 227 0;
    E "auml" 228 0; E "auml;" 228 0; E "awconint;" 8755 0; E "awint;" 10769 0; E "bNot;" 10989 0;
    E "backcong;" 8780 0; E "backepsilon;" 1014 0; E "backprime;" 8245 0; E "backsim;" 8765 0;
    E "backsimeq;" 8909 0; E "barvee;" 8893 0; E "barwed;" 8965 0; E "barwedge;" 8965 0; E "bbrk;" 9141 0;
    E "bbrktbrk;" 9142 0; E "bcong;" 8780 0; E "bcy;" 1073 0; E "bdquo;" 8222 0; E "becaus;" 8757 0;
    E "because;" 8757 0; E "bemptyv;" 10672 0; E "bepsi;" 1014 0; E "bernou;" 8492 0; E "beta;" 946 0;
    E "beth;" 8502 0; E "between;" 8812 0; E "bfr;" 120095 0; E "bigcap;" 8898 0; E "bigcirc;" 9711 0;
    E "bigcup;" 8899 0; E "bigodot;" 10752 0; E "bigoplus;" 10753 0; E "bigotimes;" 10754 0; E "bigsqcup;" 10758 0;
    E "bigstar;" 9733 0; E "bigtriangledown;" 9661 0; E "bigtriangleup;" 9651 0; E "biguplus;" 10756 0;
    E "bigvee;" 8897 0; E "bigwedge;" 8896 0; E "bkarow;" 10509 0; E "blacklozenge;" 10731 0;
    E "blacksquare;" 9642 0; E "blacktriangle;" 9652 0; E "blacktriangledown;" 9662 0;
    E "blacktriangleleft;" 9666 0; E "blacktriangleright;" 9656 0; E "blank;" 9251 0; E "blk12;" 9618 0;
    E "blk14;" 9617 0; E "blk34;" 9619 0; E "block;" 9608 0; E "bne;" 61 8421; E "bnequiv;" 8801 8421;
    E "bnot;" 8976 0; E "bopf;" 120147 0; E "bot;" 8869 0; E "bottom;" 8869 0; E "bowtie;" 8904 0;
    E "boxDL;" 9559 0; E "boxDR;" 9556 0; E "boxDl;" 9558 0; E "boxDr;" 9555 0; E "boxH;" 9552 0; E "boxHD;" 9574 0;
    E "boxHU;" 9577 0; E "boxHd;" 9572 0; E "boxHu;" 9575 0; E "boxUL;" 9565 0; E "boxUR;" 9562 0;
    E "boxUl;" 9564 0; E "boxUr;" 9561 0; E "boxV;" 9553 0; E "boxVH;" 9580 0; E "boxVL;" 9571 0; E "boxVR;" 9568 0;
    E "boxVh;" 9579 0; E "boxVl;" 9570 0; E "boxVr;" 9567 0; E "boxbox;" 10697 0; E "boxdL;" 9557 0;
    E "boxdR;" 9554 0; E "boxdl;" 9488 0; E "boxdr;" 9484 0; E "boxh;" 9472 0; E "boxhD;" 9573 0; E "boxhU;" 9576 0;
    E "boxhd;" 9516 0; E "boxhu;" 9524 0; E "boxminus;" 8863 0; E "boxplus;" 8862 0; E "boxtimes;" 8864 0;
    E "boxuL;" 9563 0; E "boxuR;" 9560 0; E "boxul;" 9496 0; E "boxur;" 9492 0; E "boxv;" 9474 0; E "boxvH;" 9578 0;
    E "boxvL;" 9569 0; E "boxvR;" 9566 0; E "boxvh;" 9532 0; E "boxvl;" 9508 0; E "boxvr;" 9500 0;
    E "bprime;" 8245 0; E "breve;" 728 0; E "brvbar" 166 0; E "brvbar;" 166 0; E "bscr;" 119991 0;
    E "bsemi;" 8271 0; E "bsim;" 8765 0; E "bsime;" 8909 0; E "bsol;" 92 0; E "bsolb;" 10693 0;
    E "bsolhsub;" 10184 0; E "bull;" 8226 0; E "bullet;" 8226 0; E "bump;" 8782 0; E "bumpE;" 10926 0;
    E "bumpe;" 8783 0; E "bumpeq;" 8783 0; E "cacute;" 263 0; E "cap;" 8745 0; E "capand;" 10820 0;
    E "capbrcup;" 10825 0; E "capcap;" 10827 0; E "capcup;" 10823 0; E "capdot;" 10816 0; E "caps;" 8745 65024;
    E "caret;" 8257 0; E "caron;" 711 0; E "ccaps;" 10829 0; E "ccaron;" 269 0; E "ccedil" 231 0; E "ccedil;" 231 0;
    E "ccirc;" 265 0; E "ccups;" 10828 0; E "ccupssm;" 10832 0; E "cdot;" 267 0; E "cedil" 184 0; E "cedil;" 184 0;
    E "cemptyv;" 10674 0; E "cent" 162 0; E "cent;" 162 0; E "centerdot;" 183 0; E "cfr;" 120096 0;
    E "chcy;" 1095 0; E "check;" 10003 0; E "checkmark;" 10003 0; E "chi;" 967 0; E "cir;" 9675 0;
    E "cirE;" 10691 0; E "circ;" 710 0; E "circeq;" 8791 0; E "circlearrowleft;" 8634 0;
    E "circlearrowright;" 8635 0; E "circledR;" 174 0; E "circledS;" 9416 0; E "circledast;" 8859 0;
    E "circledcirc;" 8858 0; E "circleddash;" 8861 0; E "cire;" 8791 0; E "cirfnint;" 10768 0; E "cirmid;" 10991 0;
    E "cirscir;" 10690 0; E "clubs;" 9827 0; E "clubsuit;" 9827 0; E "colon;" 58 0; E "colone;" 8788 0;
    E "coloneq;" 8788 0; E "comma;" 44 0; E "commat;" 64 0; E "comp;" 8705 0; E "compfn;" 8728 0;
    E "complement;" 8705 0; E "complexes;" 8450 0; E "cong;" 8773 0; E "congdot;" 10861 0; E "conint;" 8750 0;
    E "copf;" 120148 0; E "coprod;" 8720 0; E "copy" 169 0; E "copy;" 169 0; E "copysr;" 8471 0; E "crarr;" 8629 0;
    E "cross;" 10007 0; E "cscr;" 119992 0; E "csub;" 10959 0; E "csube;" 10961 0; E "csup;" 10960 0;
    E "csupe;" 10962 0; E "ctdot;" 8943 0; E "cudarrl;" 10552 0; E "cudarrr;" 10549 0; E "cuepr;" 8926 0;
    E "cuesc;" 8927 0; E "cularr;" 8630 0; E "cularrp;" 10557 0; E "cup;" 8746 0; E "cupbrcap;" 10824 0;
    E "cupcap;" 10822 0; E "cupcup;" 10826 0; E "cupdot;" 8845 0; E "cupor;" 10821 0; E "cups;" 8746 65024;
    E "curarr;" 8631 0; E "curarrm;" 10556 0; E "curlyeqprec;" 8926 0; E "curlyeqsucc;" 8927 0;
    E "curlyvee;" 8910 0; E "curlywedge;" 8911 0; E "curren" 164 0; E "curren;" 164 0; E "curvearrowleft;" 8630 0;
    E "curvearrowright;" 8631 0; E "cuvee;" 8910 0; E "cuwed;" 8911 0; E "cwconint;" 8754 0; E "cwint;" 8753 0;
    E "cylcty;" 9005 0; E "dArr;" 8659 0; E "dHar;" 10597 0; E "dagger;" 8224 0; E "daleth;" 8504 0;
    E "darr;" 8595 0; E "dash;" 8208 0; E "dashv;" 8867 0; E "dbkarow;" 10511 0; E "dblac;" 733 0;
    E "dcaron;" 271 0; E "dcy;" 1076 0; E "dd;" 8518 0; E "ddagger;" 8225 0; E "ddarr;" 8650 0;
    E "ddotseq;" 10871 0; E "deg" 176 0; E "deg;" 176 0; E "delta;" 948 0; E "demptyv;" 10673 0;
    E "dfisht;" 10623 0; E "dfr;" 120097 0; E "dharl;" 8643 0; E "dharr;" 8642 0; E "diam;" 8900 0;
    E "diamond;" 8900 0; E "diamondsuit;" 9830 0; E "diams;" 9830 0; E "die;" 168 0; E "digamma;" 989 0;
    E "disin;" 8946 0; E "div;" 247 0; E "divide" 247 0; E "divide;" 247 0; E "divideontimes;" 8903 0;
    E "divonx;" 8903 0; E "djcy;" 1106 0; E "dlcorn;" 8990 0; E "dlcrop;" 8973 0; E "dollar;" 36 0;
    E "dopf;" 120149 0; E "dot;" 729 0; E "doteq;" 8784 0; E "doteqdot;" 8785 0; E "dotminus;" 8760 0;
    E "dotplus;" 8724 0; E "dotsquare;" 8865 0; E "doublebarwedge;" 8966 0; E "downarrow;" 8595 0;
    E "downdownarrows;" 8650 0; E "downharpoonleft;" 8643 0; E "downharpoonright;" 8642 0; E "drbkarow;" 10512 0;
    E "drcorn;" 8991 0; E "drcrop;" 8972 0; E "dscr;" 119993 0; E "dscy;" 1109 0; E "dsol;" 10742 0;
    E "dstrok;" 273 0; E "dtdot;" 8945 0; E "dtri;" 9663 0; E "dtrif;" 9662 0; E "duarr;" 8693 0;
    E "duhar;" 10607 0; E "dwangle;" 10662 0; E "dzcy;" 1119 0; E "dzigrarr;" 10239 0; E "eDDot;" 10871 0;
    E "eDot;" 8785 0; E "eacute" 233 0; E "eacute;" 233 0; E "easter;" 10862 0; E "ecaron;" 283 0; E "ecir;" 8790 0;
    E "ecirc" 234 0; E "ecirc;" 234 0; E "ecolon;" 8789 0; E "ecy;" 1101 0; E "edot;" 279 0; E "ee;" 8519 0;
    E "efDot;" 8786 0; E "efr;" 120098 0; E "eg;" 10906 0; E "egrave" 232 0; E "egrave;" 232 0; E "egs;" 10902 0;
    E "egsdot;" 10904 0; E "el;" 10905 0; E "elinters;" 9191 0; E "ell;" 8467 0; E "els;" 10901 0;
    E "elsdot;" 10903 0; E "emacr;" 275 0; E "empty;" 8709 0; E "emptyset;" 8709 0; E "emptyv;" 8709 0;
    E "emsp13;" 8196 0; E "emsp14;" 8197 0; E "emsp;" 8195 0; E "eng;" 331 0; E "ensp;" 8194 0; E "eogon;" 281 0;
    E "eopf;" 120150 0; E "epar;" 8917 0; E "eparsl;" 10723 0; E "eplus;" 10865 0; E "epsi;" 949 0;
    E "epsilon;" 949 0; E "epsiv;" 1013 0; E "eqcirc;" 8790 0; E "eqcolon;" 8789 0; E "eqsim;" 8770 0;
    E "eqslantgtr;" 10902 0; E "eqslantless;" 10901 0; E "equals;" 61 0; E "equest;" 8799 0; E "equiv;" 8801 0;
    E "equivDD;" 10872 0; E "eqvparsl;" 10725 0; E "erDot;" 8787 0; E "erarr;" 10609 0; E "escr;" 8495 0;
    E "esdot;" 8784 0; E "esim;" 8770 0; E "eta;" 951 0; E "eth" 240 0; E "eth;" 240 0; E "euml" 235 0;
    E "euml;" 235 0; E "euro;" 8364 0; E "excl;" 33 0; E "exist;" 8707 0; E "expectation;" 8496 0;
    E "exponentiale;" 8519 0; E "fallingdotseq;" 8786 0; E "fcy;" 1092 0; E "female;" 9792 0; E "ffilig;" 64259 0;
    E "fflig;" 64256 0; E "ffllig;" 64260 0; E "ffr;" 120099 0; E "filig;" 64257 0; E "fjlig;" 102 106;
    E "flat;" 9837 0; E "fllig;" 64258 0; E "fltns;" 9649 0; E "fnof;" 402 0; E "fopf;" 120151 0;
    E "forall;" 8704 0; E "fork;" 8916 0; E "forkv;" 10969 0; E "fpartint;" 10765 0; E "frac12" 189 0;
    E "frac12;" 189 0; E "frac13;" 8531 0; E "frac14" 188 0; E "frac14;" 188 0; E "frac15;" 8533 0;
    E "frac16;" 8537 0; E "frac18;" 8539 0; E "frac23;" 8532 0; E "frac25;" 8534 0; E "frac34" 190 0;
    E "frac34;" 190 0; E "frac35;" 8535 0; E "frac38;" 8540 0; E "frac45;" 8536 0; E "frac56;" 8538 0;
    E "frac58;" 8541 0; E "frac78;" 8542 0; E "frasl;" 8260 0; E "frown;" 8994 0; E "fscr;" 119995 0;
    E "gE;" 8807 0; E "gEl;" 10892 0; E "gacute;" 501 0; E "gamma;" 947 0; E "gammad;" 989 0; E "gap;" 10886 0;
    E "gbreve;" 287 0; E "gcirc;" 285 0; E "gcy;" 1075 0; E "gdot;" 289 0; E "ge;" 8805 0; E "gel;" 8923 0;
    E "geq;" 8805 0; E "geqq;" 8807 0; E "geqslant;" 10878 0; E "ges;" 10878 0; E "gescc;" 10921 0;
    E "gesdot;" 10880 0; E "gesdoto;" 10882 0; E "gesdotol;" 10884 0; E "gesl;" 8923 65024; E "gesles;" 10900 0;
    E "gfr;" 120100 0; E "gg;" 8811 0; E "ggg;" 8921 0; E "gimel;" 8503 0; E "gjcy;" 1107 0; E "gl;" 8823 0;
    E "glE;" 10898 0; E "gla;" 10917 0; E "glj;" 10916 0; E "gnE;" 8809 0; E "gnap;" 10890 0; E "gnapprox;" 10890 0;
    E "gne;" 10888 0; E "gneq;" 10888 0; E "gneqq;" 8809 0; E "gnsim;" 8935 0; E "gopf;" 120152 0; E "grave;" 96 0;
    E "gscr;" 8458 0; E "gsim;" 8819 0; E "gsime;" 10894 0; E "gsiml;" 10896 0; E "gt" 62 0; E "gt;" 62 0;
    E "gtcc;" 10919 0; E "gtcir;" 10874 0; E "gtdot;" 8919 0; E "gtlPar;" 10645 0; E "gtquest;" 10876 0;
    E "gtrapprox;" 10886 0; E "gtrarr;" 10616 0; E "gtrdot;" 8919 0; E "gtreqless;" 8923 0; E "gtreqqless;" 10892 0;
    E "gtrless;" 8823 0; E "gtrsim;" 8819 0; E "gvertneqq;" 8809 65024; E "gvnE;" 8809 65024; E "hArr;" 8660 0;
    E "hairsp;" 8202 0; E "half;" 189 0; E "hamilt;" 8459 0; E "hardcy;" 1098 0; E "harr;" 8596 0;
    E "harrcir;" 10568 0; E "harrw;" 8621 0; E "hbar;" 8463 0; E "hcirc;" 293 0; E "hearts;" 9829 0;
    E "heartsuit;" 9829 0; E "hellip;" 8230 0; E "hercon;" 8889 0; E "hfr;" 120101 0; E "hksearow;" 10533 0;
    E "hkswarow;" 10534 0; E "hoarr;" 8703 0; E "homtht;" 8763 0; E "hookleftarrow;" 8617 0;
    E "hookrightarrow;" 8618 0; E "hopf;" 120153 0; E "horbar;" 8213 0; E "hscr;" 119997 0; E "hslash;" 8463 0;
    E "hstrok;" 295 0; E "hybull;" 8259 0; E "hyphen;" 8208 0; E "iacute" 237 0; E "iacute;" 237 0; E "ic;" 8291 0;
    E "icirc" 238 0; E "icirc;" 238 0; E "icy;" 1080 0; E "iecy;" 1077 0; E "iexcl" 161 0; E "iexcl;" 161 0;
    E "iff;" 8660 0; E "ifr;" 120102 0; E "igrave" 236 0; E "igrave;" 236 0; E "ii;" 8520 0; E "iiiint;" 10764 0;
    E "iiint;" 8749 0; E "iinfin;" 10716 0; E "iiota;" 8489 0; E "ijlig;" 307 0; E "imacr;" 299 0;
    E "image;" 8465 0; E "imagline;" 8464 0; E "imagpart;" 8465 0; E "imath;" 305 0; E "imof;" 8887 0;
    E "imped;" 437 0; E "in;" 8712 0; E "incare;" 8453 0; E "infin;" 8734 0; E "infintie;" 10717 0;
    E "inodot;" 305 0; E "int;" 8747 0; E "intcal;" 8890 0; E "integers;" 8484 0; E "intercal;" 8890 0;
    E "intlarhk;" 10775 0; E "intprod;" 10812 0; E "iocy;" 1105 0; E "iogon;" 303 0; E "iopf;" 120154 0;
    E "iota;" 953 0; E "iprod;" 10812 0; E "iquest" 191 0; E "iquest;" 191 0; E "iscr;" 119998 0; E "isin;" 8712 0;
    E "isinE;" 8953 0; E "isindot;" 8949 0; E "isins;" 8948 0; E "isinsv;" 8947 0; E "isinv;" 8712 0;
    E "it;" 8290 0; E "itilde;" 297 0; E "iukcy;" 1110 0; E "iuml" 239 0; E "iuml;" 239 0; E "jcirc;" 309 0;
    E "jcy;" 1081 0; E "jfr;" 120103 0; E "jmath;" 567 0; E "jopf;" 120155 0; E "jscr;" 119999 0;
    E "jsercy;" 1112 0; E "jukcy;" 1108 0; E "kappa;" 954 0; E "kappav;" 1008 0; E "kcedil;" 311 0; E "kcy;" 1082 0;
    E "kfr;" 120104 0; E "kgreen;" 312 0; E "khcy;" 1093 0; E "kjcy;" 1116 0; E "kopf;" 120156 0;
    E "kscr;" 120000 0; E "lAarr;" 8666 0; E "lArr;" 8656 0; E "lAtail;" 10523 0; E "lBarr;" 10510 0;
    E "lE;" 8806 0; E "lEg;" 10891 0; E "lHar;" 10594 0; E "lacute;" 314 0; E "laemptyv;" 10676 0;
    E "lagran;" 8466 0; E "lambda;" 955 0; E "lang;" 10216 0; E "langd;" 10641 0; E "langle;" 10216 0;
    E "lap;" 10885 0; E "laquo" 171 0; E "laquo;" 171 0; E "larr;" 8592 0; E "larrb;" 8676 0; E "larrbfs;" 10527 0;
    E "larrfs;" 10525 0; E "larrhk;" 8617 0; E "larrlp;" 8619 0; E "larrpl;" 10553 0; E "larrsim;" 10611 0;
    E "larrtl;" 8610 0; E "lat;" 10923 0; E "latail;" 10521 0; E "late;" 10925 0; E "lates;" 10925 65024;
    E "lbarr;" 10508 0; E "lbbrk;" 10098 0; E "lbrace;" 123 0; E "lbrack;" 91 0; E "lbrke;" 10635 0;
    E "lbrksld;" 10639 0; E "lbrkslu;" 10637 0; E "lcaron;" 318 0; E "lcedil;" 316 0; E "lceil;" 8968 0;
    E "lcub;" 123 0; E "lcy;" 1083 0; E "ldca;" 10550 0; E "ldquo;" 8220 0; E "ldquor;" 8222 0;
    E "ldrdhar;" 10599 0; E "ldrushar;" 10571 0; E "ldsh;" 8626 0; E "le;" 8804 0; E "leftarrow;" 8592 0;
    E "leftarrowtail;" 8610 0; E "leftharpoondown;" 8637 0; E "leftharpoonup;" 8636 0; E "leftleftarrows;" 8647 0;
    E "leftrightarrow;" 8596 0; E "leftrightarrows;" 8646 0; E "leftrightharpoons;" 8651 0;
    E "leftrightsquigarrow;" 8621 0; E "leftthreetimes;" 8907 0; E "leg;" 8922 0; E "leq;" 8804 0; E "leqq;" 8806 0;
    E "leqslant;" 10877 0; E "les;" 10877 0; E "lescc;" 10920 0; E "lesdot;" 10879 0; E "lesdoto;" 10881 0;
    E "lesdotor;" 10883 0; E "lesg;" 8922 65024; E "lesges;" 10899 0; E "lessapprox;" 10885 0; E "lessdot;" 8918 0;
    E "lesseqgtr;" 8922 0; E "lesseqqgtr;" 10891 0; E "lessgtr;" 8822 0; E "lesssim;" 8818 0; E "lfisht;" 10620 0;
    E "lfloor;" 8970 0; E "lfr;" 120105 0; E "lg;" 8822 0; E "lgE;" 10897 0; E "lhard;" 8637 0; E "lharu;" 8636 0;
    E "lharul;" 10602 0; E "lhblk;" 9604 0; E "ljcy;" 1113 0; E "ll;" 8810 0; E "llarr;" 8647 0;
    E "llcorner;" 8990 0; E "llhard;" 10603 0; E "lltri;" 9722 0; E "lmidot;" 320 0; E "lmoust;" 9136 0;
    E "lmoustache;" 9136 0; E "lnE;" 8808 0; E "lnap;" 10889 0; E "lnapprox;" 10889 0; E "lne;" 10887 0;
    E "lneq;" 10887 0; E "lneqq;" 8808 0; E "lnsim;" 8934 0; E "loang;" 10220 0; E "loarr;" 8701 0;
    E "lobrk;" 10214 0; E "longleftarrow;" 10229 0; E "longleftrightarrow;" 10231 0; E "longmapsto;" 10236 0;
    E "longrightarrow;" 10230 0; E "looparrowleft;" 8619 0; E "looparrowright;" 8620 0; E "lopar;" 10629 0;
    E "lopf;" 120157 0; E "loplus;" 10797 0; E "lotimes;" 10804 0; E "lowast;" 8727 0; E "lowbar;" 95 0;
    E "loz;" 9674 0; E "lozenge;" 9674 0; E "lozf;" 10731 0; E "lpar;" 40 0; E "lparlt;" 10643 0; E "lrarr;" 8646 0;
    E "lrcorner;" 8991 0; E "lrhar;" 8651 0; E "lrhard;" 10605 0; E "lrm;" 8206 0; E "lrtri;" 8895 0;
    E "lsaquo;" 8249 0; E "lscr;" 120001 0; E "lsh;" 8624 0; E "lsim;" 8818 0; E "lsime;" 10893 0;
    E "lsimg;" 10895 0; E "lsqb;" 91 0; E "lsquo;" 8216 0; E "lsquor;" 8218 0; E "lstrok;" 322 0; E "lt" 60 0;
    E "lt;" 60 0; E "ltcc;" 10918 0; E "ltcir;" 10873 0; E "ltdot;" 8918 0; E "lthree;" 8907 0; E "ltimes;" 8905 0;
    E "ltlarr;" 10614 0; E "ltquest;" 10875 0; E "ltrPar;" 10646 0; E "ltri;" 9667 0; E "ltrie;" 8884 0;
    E "ltrif;" 9666 0; E "lurdshar;" 10570 0; E "luruhar;" 10598 0; E "lvertneqq;" 8808 65024; E "lvnE;" 8808 65024;
    E "mDDot;" 8762 0; E "macr" 175 0; E "macr;" 175 0; E "male;" 9794 0; E "malt;" 10016 0; E "maltese;" 10016 0;
    E "map;" 8614 0; E "mapsto;" 8614 0; E "mapstodown;" 8615 0; E "mapstoleft;" 8612 0; E "mapstoup;" 8613 0;
    E "marker;" 9646 0; E "mcomma;" 10793 0; E "mcy;" 1084 0; E "mdash;" 8212 0; E "measuredangle;" 8737 0;
    E "mfr;" 120106 0; E "mho;" 8487 0; E "micro" 181 0; E "micro;" 181 0; E "mid;" 8739 0; E "midast;" 42 0;
    E "midcir;" 10992 0; E "middot" 183 0; E "middot;" 183 0; E "minus;" 8722 0; E "minusb;" 8863 0;
    E "minusd;" 8760 0; E "minusdu;" 10794 0; E "mlcp;" 10971 0; E "mldr;" 8230 0; E "mnplus;" 8723 0;
    E "models;" 8871 0; E "mopf;" 120158 0; E "mp;" 8723 0; E "mscr;" 120002 0; E "mstpos;" 8766 0; E "mu;" 956 0;
    E "multimap;" 8888 0; E "mumap;" 8888 0; E "nGg;" 8921 824; E "nGt;" 8811 8402; E "nGtv;" 8811 824;
    E "nLeftarrow;" 8653 0; E "nLeftrightarrow;" 8654 0; E "nLl;" 8920 824; E "nLt;" 8810 8402; E "nLtv;" 8810 824;
    E "nRightarrow;" 8655 0; E "nVDash;" 8879 0; E "nVdash;" 8878 0; E "nabla;" 8711 0; E "nacute;" 324 0;
    E "nang;" 8736 8402; E "nap;" 8777 0; E "napE;" 10864 824; E "napid;" 8779 824; E "napos;" 329 0;
    E "napprox;" 8777 0; E "natur;" 9838 0; E "natural;" 9838 0; E "naturals;" 8469 0; E "nbsp" 160 0;
    E "nbsp;" 160 0; E "nbump;" 8782 824; E "nbumpe;" 8783 824; E "ncap;" 10819 0; E "ncaron;" 328 0;
    E "ncedil;" 326 0; E "ncong;" 8775 0; E "ncongdot;" 10861 824; E "ncup;" 10818 0; E "ncy;" 1085 0;
    E "ndash;" 8211 0; E "ne;" 8800 0; E "neArr;" 8663 0; E "nearhk;" 10532 0; E "nearr;" 8599 0;
    E "nearrow;" 8599 0; E "nedot;" 8784 824; E "nequiv;" 8802 0; E "nesear;" 10536 0; E "nesim;" 8770 824;
    E "nexist;" 8708 0; E "nexists;" 8708 0; E "nfr;" 120107 0; E "ngE;" 8807 824; E "nge;" 8817 0;
    E "ngeq;" 8817 0; E "ngeqq;" 8807 824; E "ngeqslant;" 10878 824; E "nges;" 10878 824; E "ngsim;" 8821 0;
    E "ngt;" 8815 0; E "ngtr;" 8815 0; E "nhArr;" 8654 0; E "nharr;" 8622 0; E "nhpar;" 10994 0; E "ni;" 8715 0;
    E "nis;" 8956 0; E "nisd;" 8954 0; E "niv;" 8715 0; E "njcy;" 1114 0; E "nlArr;" 8653 0; E "nlE;" 8806 824;
    E "nlarr;" 8602 0; E "nldr;" 8229 0; E "nle;" 8816 0; E "nleftarrow;" 8602 0; E "nleftrightarrow;" 8622 0;
    E "nleq;" 8816 0; E "nleqq;" 8806 824; E "nleqslant;" 10877 824; E "nles;" 10877 824; E "nless;" 8814 0;
    E "nlsim;" 8820 0; E "nlt;" 8814 0; E "nltri;" 8938 0; E "nltrie;" 8940 0; E "nmid;" 8740 0; E "nopf;" 120159 0;
    E "not" 172 0; E "not;" 172 0; E "notin;" 8713 0; E "notinE;" 8953 824; E "notindot;" 8949 824;
    E "notinva;" 8713 0; E "notinvb;" 8951 0; E "notinvc;" 8950 0; E "notni;" 8716 0; E "notniva;" 8716 0;
    E "notnivb;" 8958 0; E "notnivc;" 8957 0; E "npar;" 8742 0; E "nparallel;" 8742 0; E "nparsl;" 11005 8421;
    E "npart;" 8706 824; E "npolint;" 10772 0; E "npr;" 8832 0; E "nprcue;" 8928 0; E "npre;" 10927 824;
    E "nprec;" 8832 0; E "npreceq;" 10927 824; E "nrArr;" 8655 0; E "nrarr;" 8603 0; E "nrarrc;" 10547 824;
    E "nrarrw;" 8605 824; E "nrightarrow;" 8603 0; E "nrtri;" 8939 0; E "nrtrie;" 8941 0; E "nsc;" 8833 0;
    E "nsccue;" 8929 0; E "nsce;" 10928 824; E "nscr;" 120003 0; E "nshortmid;" 8740 0; E "nshortparallel;" 8742 0;
    E "nsim;" 8769 0; E "nsime;" 8772 0; E "nsimeq;" 8772 0; E "nsmid;" 8740 0; E "nspar;" 8742 0;
    E "nsqsube;" 8930 0; E "nsqsupe;" 8931 0; E "nsub;" 8836 0; E "nsubE;" 10949 824; E "nsube;" 8840 0;
    E "nsubset;" 8834 8402; E "nsubseteq;" 8840 0; E "nsubseteqq;" 10949 824; E "nsucc;" 8833 0;
    E "nsucceq;" 10928 824; E "nsup;" 8837 0; E "nsupE;" 10950 824; E "nsupe;" 8841 0; E "nsupset;" 8835 8402;
    E "nsupseteq;" 8841 0; E "nsupseteqq;" 10950 824; E "ntgl;" 8825 0; E "ntilde" 241 0; E "ntilde;" 241 0;
    E "ntlg;" 8824 0; E "ntriangleleft;" 8938 0; E "ntrianglelefteq;" 8940 0; E "ntriangleright;" 8939 0;
    E "ntrianglerighteq;" 8941 0; E "nu;" 957 0; E "num;" 35 0; E "numero;" 8470 0; E "numsp;" 8199 0;
    E "nvDash;" 8877 0; E "nvHarr;" 10500 0; E "nvap;" 8781 8402; E "nvdash;" 8876 0; E "nvge;" 8805 8402;
    E "nvgt;" 62 8402; E "nvinfin;" 10718 0; E "nvlArr;" 10498 0; E "nvle;" 8804 8402; E "nvlt;" 60 8402;
    E "nvltrie;" 8884 8402; E "nvrArr;" 10499 0; E "nvrtrie;" 8885 8402; E "nvsim;" 8764 8402; E "nwArr;" 8662 0;
    E "nwarhk;" 10531 0; E "nwarr;" 8598 0; E "nwarrow;" 8598 0; E "nwnear;" 10535 0; E "oS;" 9416 0;
    E "oacute" 243 0; E "oacute;" 243 0; E "oast;" 8859 0; E "ocir;" 8858 0; E "ocirc" 244 0; E "ocirc;" 244 0;
    E "ocy;" 1086 0; E "odash;" 8861 0; E "odblac;" 337 0; E "odiv;" 10808 0; E "odot;" 8857 0; E "odsold;" 10684 0;
    E "oelig;" 339 0; E "ofcir;" 10687 0; E "ofr;" 120108 0; E "ogon;" 731 0; E "ograve" 242 0; E "ograve;" 242 0;
    E "ogt;" 10689 0; E "ohbar;" 10677 0; E "ohm;" 937 0; E "oint;" 8750 0; E "olarr;" 8634 0; E "olcir;" 10686 0;
    E "olcross;" 10683 0; E "oline;" 8254 0; E "olt;" 10688 0; E "omacr;" 333 0; E "omega;" 969 0;
    E "omicron;" 959 0; E "omid;" 10678 0; E "ominus;" 8854 0; E "oopf;" 120160 0; E "opar;" 10679 0;
    E "operp;" 10681 0; E "oplus;" 8853 0; E "or;" 8744 0; E "orarr;" 8635 0; E "ord;" 10845 0; E "order;" 8500 0;
    E "orderof;" 8500 0; E "ordf" 170 0; E "ordf;" 170 0; E "ordm" 186 0; E "ordm;" 186 0; E "origof;" 8886 0;
    E "oror;" 10838 0; E "orslope;" 10839 0; E "orv;" 10843 0; E "oscr;" 8500 0; E "oslash" 248 0;
    E "oslash;" 248 0; E "osol;" 8856 0; E "otilde" 245 0; E "otilde;" 245 0; E "otimes;" 8855 0;
    E "otimesas;" 10806 0; E "ouml" 246 0; E "ouml;" 246 0; E "ovbar;" 9021 0; E "par;" 8741 0; E "para" 182 0;
    E "para;" 182 0; E "parallel;" 8741 0; E "parsim;" 10995 0; E "parsl;" 11005 0; E "part;" 8706 0;
    E "pcy;" 1087 0; E "percnt;" 37 0; E "period;" 46 0; E "permil;" 8240 0; E "perp;" 8869 0; E "pertenk;" 8241 0;
    E "pfr;" 120109 0; E "phi;" 966 0; E "phiv;" 981 0; E "phmmat;" 8499 0; E "phone;" 9742 0; E "pi;" 960 0;
    E "pitchfork;" 8916 0; E "piv;" 982 0; E "planck;" 8463 0; E "planckh;" 8462 0; E "plankv;" 8463 0;
    E "plus;" 43 0; E "plusacir;" 10787 0; E "plusb;" 8862 0; E "pluscir;" 10786 0; E "plusdo;" 8724 0;
    E "plusdu;" 10789 0; E "pluse;" 10866 0; E "plusmn" 177 0; E "plusmn;" 177 0; E "plussim;" 10790 0;
    E "plustwo;" 10791 0; E "pm;" 177 0; E "pointint;" 10773 0; E "popf;" 120161 0; E "pound" 163 0;
    E "pound;" 163 0; E "pr;" 8826 0; E "prE;" 10931 0; E "prap;" 10935 0; E "prcue;" 8828 0; E "pre;" 10927 0;
    E "prec;" 8826 0; E "precapprox;" 10935 0; E "preccurlyeq;" 8828 0; E "preceq;" 10927 0;
    E "precnapprox;" 10937 0; E "precneqq;" 10933 0; E "precnsim;" 8936 0; E "precsim;" 8830 0; E "prime;" 8242 0;
    E "primes;" 8473 0; E "prnE;" 10933 0; E "prnap;" 10937 0; E "prnsim;" 8936 0; E "prod;" 8719 0;
    E "profalar;" 9006 0; E "profline;" 8978 0; E "profsurf;" 8979 0; E "prop;" 8733 0; E "propto;" 8733 0;
    E "prsim;" 8830 0; E "prurel;" 8880 0; E "pscr;" 120005 0; E "psi;" 968 0; E "puncsp;" 8200 0;
    E "qfr;" 120110 0; E "qint;" 10764 0; E "qopf;" 120162 0; E "qprime;" 8279 0; E "qscr;" 120006 0;
    E "quaternions;" 8461 0; E "quatint;" 10774 0; E "quest;" 63 0; E "questeq;" 8799 0; E "quot" 34 0;
    E "quot;" 34 0; E "rAarr;" 8667 0; E "rArr;" 8658 0; E "rAtail;" 10524 0; E "rBarr;" 10511 0; E "rHar;" 10596 0;
    E "race;" 8765 817; E "racute;" 341 0; E "radic;" 8730 0; E "raemptyv;" 10675 0; E "rang;" 10217 0;
    E "rangd;" 10642 0; E "range;" 10661 0; E "rangle;" 10217 0; E "raquo" 187 0; E "raquo;" 187 0;
    E "rarr;" 8594 0; E "rarrap;" 10613 0; E "rarrb;" 8677 0; E "rarrbfs;" 10528 0; E "rarrc;" 10547 0;
    E "rarrfs;" 10526 0; E "rarrhk;" 8618 0; E "rarrlp;" 8620 0; E "rarrpl;" 10565 0; E "rarrsim;" 10612 0;
    E "rarrtl;" 8611 0; E "rarrw;" 8605 0; E "ratail;" 10522 0; E "ratio;" 8758 0; E "rationals;" 8474 0;
    E "rbarr;" 10509 0; E "rbbrk;" 10099 0; E "rbrace;" 125 0; E "rbrack;" 93 0; E "rbrke;" 10636 0;
    E "rbrksld;" 10638 0; E "rbrkslu;" 10640 0; E "rcaron;" 345 0; E "rcedil;" 343 0; E "rceil;" 8969 0;
    E "rcub;" 125 0; E "rcy;" 1088 0; E "rdca;" 10551 0; E "rdldhar;" 10601 0; E "rdquo;" 8221 0;
    E "rdquor;" 8221 0; E "rdsh;" 8627 0; E "real;" 8476 0; E "realine;" 8475 0; E "realpart;" 8476 0;
    E "reals;" 8477 0; E "rect;" 9645 0; E "reg" 174 0; E "reg;" 174 0; E "rfisht;" 10621 0; E "rfloor;" 8971 0;
    E "rfr;" 120111 0; E "rhard;" 8641 0; E "rharu;" 8640 0; E "rharul;" 10604 0; E "rho;" 961 0; E "rhov;" 1009 0;
    E "rightarrow;" 8594 0; E "rightarrowtail;" 8611 0; E "rightharpoondown;" 8641 0; E "rightharpoonup;" 8640 0;
    E "rightleftarrows;" 8644 0; E "rightleftharpoons;" 8652 0; E "rightrightarrows;" 8649 0;
    E "rightsquigarrow;" 8605 0; E "rightthreetimes;" 8908 0; E "ring;" 730 0; E "risingdotseq;" 8787 0;
    E "rlarr;" 8644 0; E "rlhar;" 8652 0; E "rlm;" 8207 0; E "rmoust;" 9137 0; E "rmoustache;" 9137 0;
    E "rnmid;" 10990 0; E "roang;" 10221 0; E "roarr;" 8702 0; E "robrk;" 10215 0; E "ropar;" 10630 0;
    E "ropf;" 120163 0; E "roplus;" 10798 0; E "rotimes;" 10805 0; E "rpar;" 41 0; E "rpargt;" 10644 0;
    E "rppolint;" 10770 0; E "rrarr;" 8649 0; E "rsaquo;" 8250 0; E "rscr;" 120007 0; E "rsh;" 8625 0;
    E "rsqb;" 93 0; E "rsquo;" 8217 0; E "rsquor;" 8217 0; E "rthree;" 8908 0; E "rtimes;" 8906 0; E "rtri;" 9657 0;
    E "rtrie;" 8885 0; E "rtrif;" 9656 0; E "rtriltri;" 10702 0; E "ruluhar;" 10600 0; E "rx;" 8478 0;
    E "sacute;" 347 0; E "sbquo;" 8218 0; E "sc;" 8827 0; E "scE;" 10932 0; E "scap;" 10936 0; E "scaron;" 353 0;
    E "sccue;" 8829 0; E "sce;" 10928 0; E "scedil;" 351 0; E "scirc;" 349 0; E "scnE;" 10934 0; E "scnap;" 10938 0;
    E "scnsim;" 8937 0; E "scpolint;" 10771 0; E "scsim;" 8831 0; E "scy;" 1089 0; E "sdot;" 8901 0;
    E "sdotb;" 8865 0; E "sdote;" 10854 0; E "seArr;" 8664 0; E "searhk;" 10533 0; E "searr;" 8600 0;
    E "searrow;" 8600 0; E "sect" 167 0; E "sect;" 167 0; E "semi;" 59 0; E "seswar;" 10537 0; E "setminus;" 8726 0;
    E "setmn;" 8726 0; E "sext;" 10038 0; E "sfr;" 120112 0; E "sfrown;" 8994 0; E "sharp;" 9839 0;
    E "shchcy;" 1097 0; E "shcy;" 1096 0; E "shortmid;" 8739 0; E "shortparallel;" 8741 0; E "shy" 173 0;
    E "shy;" 173 0; E "sigma;" 963 0; E "sigmaf;" 962 0; E "sigmav;" 962 0; E "sim;" 8764 0; E "simdot;" 10858 0;
    E "sime;" 8771 0; E "simeq;" 8771 0; E "simg;" 10910 0; E "simgE;" 10912 0; E "siml;" 10909 0;
    E "simlE;" 10911 0; E "simne;" 8774 0; E "simplus;" 10788 0; E "simrarr;" 10610 0; E "slarr;" 8592 0;
    E "smallsetminus;" 8726 0; E "smashp;" 10803 0; E "smeparsl;" 10724 0; E "smid;" 8739 0; E "smile;" 8995 0;
    E "smt;" 10922 0; E "smte;" 10924 0; E "smtes;" 10924 65024; E "softcy;" 1100 0; E "sol;" 47 0;
    E "solb;" 10692 0; E "solbar;" 9023 0; E "sopf;" 120164 0; E "spades;" 9824 0; E "spadesuit;" 9824 0;
    E "spar;" 8741 0; E "sqcap;" 8851 0; E "sqcaps;" 8851 65024; E "sqcup;" 8852 0; E "sqcups;" 8852 65024;
    E "sqsub;" 8847 0; E "sqsube;" 8849 0; E "sqsubset;" 8847 0; E "sqsubseteq;" 8849 0; E "sqsup;" 8848 0;
    E "sqsupe;" 8850 0; E "sqsupset;" 8848 0; E "sqsupseteq;" 8850 0; E "squ;" 9633 0; E "square;" 9633 0;
    E "squarf;" 9642 0; E "squf;" 9642 0; E "srarr;" 8594 0; E "sscr;" 120008 0; E "ssetmn;" 8726 0;
    E "ssmile;" 8995 0; E "sstarf;" 8902 0; E "star;" 9734 0; E "starf;" 9733 0; E "straightepsilon;" 1013 0;
    E "straightphi;" 981 0; E "strns;" 175 0; E "sub;" 8834 0; E "subE;" 10949 0; E "subdot;" 10941 0;
    E "sube;" 8838 0; E "subedot;" 10947 0; E "submult;" 10945 0; E "subnE;" 10955 0; E "subne;" 8842 0;
    E "subplus;" 10943 0; E "subrarr;" 10617 0; E "subset;" 8834 0; E "subseteq;" 8838 0; E "subseteqq;" 10949 0;
    E "subsetneq;" 8842 0; E "subsetneqq;" 10955 0; E "subsim;" 10951 0; E "subsub;" 10965 0; E "subsup;" 10963 0;
    E "succ;" 8827 0; E "succapprox;" 10936 0; E "succcurlyeq;" 8829 0; E "succeq;" 10928 0;
    E "succnapprox;" 10938 0; E "succneqq;" 10934 0; E "succnsim;" 8937 0; E "succsim;" 8831 0; E "sum;" 8721 0;
    E "sung;" 9834 0; E "sup1" 185 0; E "sup1;" 185 0; E "sup2" 178 0; E "sup2;" 178 0; E "sup3" 179 0;
    E "sup3;" 179 0; E "sup;" 8835 0; E "supE;" 10950 0; E "supdot;" 10942 0; E "supdsub;" 10968 0;
    E "supe;" 8839 0; E "supedot;" 10948 0; E "suphsol;" 10185 0; E "suphsub;" 10967 0; E "suplarr;" 10619 0;
    E "supmult;" 10946 0; E "supnE;" 10956 0; E "supne;" 8843 0; E "supplus;" 10944 0; E "supset;" 8835 0;
    E "supseteq;" 8839 0; E "supseteqq;" 10950 0; E "supsetneq;" 8843 0; E "supsetneqq;" 10956 0;
    E "supsim;" 10952 0; E "supsub;" 10964 0; E "supsup;" 10966 0; E "swArr;" 8665 0; E "swarhk;" 10534 0;
    E "swarr;" 8601 0; E "swarrow;" 8601 0; E "swnwar;" 10538 0; E "szlig" 223 0; E "szlig;" 223 0;
    E "target;" 8982 0; E "tau;" 964 0; E "tbrk;" 9140 0; E "tcaron;" 357 0; E "tcedil;" 355 0; E "tcy;" 1090 0;
    E "tdot;" 8411 0; E "telrec;" 8981 0; E "tfr;" 120113 0; E "there4;" 8756 0; E "therefore;" 8756 0;
    E "theta;" 952 0; E "thetasym;" 977 0; E "thetav;" 977 0; E "thickapprox;" 8776 0; E "thicksim;" 8764 0;
    E "thinsp;" 8201 0; E "thkap;" 8776 0; E "thksim;" 8764 0; E "thorn" 254 0; E "thorn;" 254 0; E "tilde;" 732 0;
    E "times" 215 0; E "times;" 215 0; E "timesb;" 8864 0; E "timesbar;" 10801 0; E "timesd;" 10800 0;
    E "tint;" 8749 0; E "toea;" 10536 0; E "top;" 8868 0; E "topbot;" 9014 0; E "topcir;" 10993 0;
    E "topf;" 120165 0; E "topfork;" 10970 0; E "tosa;" 10537 0; E "tprime;" 8244 0; E "trade;" 8482 0;
    E "triangle;" 9653 0; E "triangledown;" 9663 0; E "triangleleft;" 9667 0; E "trianglelefteq;" 8884 0;
    E "triangleq;" 8796 0; E "triangleright;" 9657 0; E "trianglerighteq;" 8885 0; E "tridot;" 9708 0;
    E "trie;" 8796 0; E "triminus;" 10810 0; E "triplus;" 10809 0; E "trisb;" 10701 0; E "tritime;" 10811 0;
    E "trpezium;" 9186 0; E "tscr;" 120009 0; E "tscy;" 1094 0; E "tshcy;" 1115 0; E "tstrok;" 359 0;
    E "twixt;" 8812 0; E "twoheadleftarrow;" 8606 0; E "twoheadrightarrow;" 8608 0; E "uArr;" 8657 0;
    E "uHar;" 10595 0; E "uacute" 250 0; E "uacute;" 250 0; E "uarr;" 8593 0; E "ubrcy;" 1118 0; E "ubreve;" 365 0;
    E "ucirc" 251 0; E "ucirc;" 251 0; E "ucy;" 1091 0; E "udarr;" 8645 0; E "udblac;" 369 0; E "udhar;" 10606 0;
    E "ufisht;" 10622 0; E "ufr;" 120114 0; E "ugrave" 249 0; E "ugrave;" 249 0; E "uharl;" 8639 0;
    E "uharr;" 8638 0; E "uhblk;" 9600 0; E "ulcorn;" 8988 0; E "ulcorner;" 8988 0; E "ulcrop;" 8975 0;
    E "ultri;" 9720 0; E "umacr;" 363 0; E "uml" 168 0; E "uml;" 168 0; E "uogon;" 371 0; E "uopf;" 120166 0;
    E "uparrow;" 8593 0; E "updownarrow;" 8597 0; E "upharpoonleft;" 8639 0; E "upharpoonright;" 8638 0;
    E "uplus;" 8846 0; E "upsi;" 965 0; E "upsih;" 978 0; E "upsilon;" 965 0; E "upuparrows;" 8648 0;
    E "urcorn;" 8989 0; E "urcorner;" 8989 0; E "urcrop;" 8974 0; E "uring;" 367 0; E "urtri;" 9721 0;
    E "uscr;" 120010 0; E "utdot;" 8944 0; E "utilde;" 361 0; E "utri;" 9653 0; E "utrif;" 9652 0;
    E "uuarr;" 8648 0; E "uuml" 252 0; E "uuml;" 252 0; E "uwangle;" 10663 0; E "vArr;" 8661 0; E "vBar;" 10984 0;
    E "vBarv;" 10985 0; E "vDash;" 8872 0; E "vangrt;" 10652 0; E "varepsilon;" 1013 0; E "varkappa;" 1008 0;
    E "varnothing;" 8709 0; E "varphi;" 981 0; E "varpi;" 982 0; E "varpropto;" 8733 0; E "varr;" 8597 0;
    E "varrho;" 1009 0; E "varsigma;" 962 0; E "varsubsetneq;" 8842 65024; E "varsubsetneqq;" 10955 65024;
    E "varsupsetneq;" 8843 65024; E "varsupsetneqq;" 10956 65024; E "vartheta;" 977 0; E "vartriangleleft;" 8882 0;
    E "vartriangleright;" 8883 0; E "vcy;" 1074 0; E "vdash;" 8866 0; E "vee;" 8744 0; E "veebar;" 8891 0;
    E "veeeq;" 8794 0; E "vellip;" 8942 0; E "verbar;" 124 0; E "vert;" 124 0; E "vfr;" 120115 0; E "vltri;" 8882 0;
    E "vnsub;" 8834 8402; E "vnsup;" 8835 8402; E "vopf;" 120167 0; E "vprop;" 8733 0; E "vrtri;" 8883 0;
    E "vscr;" 120011 0; E "vsubnE;" 10955 65024; E "vsubne;" 8842 65024; E "vsupnE;" 10956 65024;
    E "vsupne;" 8843 65024; E "vzigzag;" 10650 0; E "wcirc;" 373 0; E "wedbar;" 10847 0; E "wedge;" 8743 0;
    E "wedgeq;" 8793 0; E "weierp;" 8472 0; E "wfr;" 120116 0; E "wopf;" 120168 0; E "wp;" 8472 0; E "wr;" 8768 0;
    E "wreath;" 8768 0; E "wscr;" 120012 0; E "xcap;" 8898 0; E "xcirc;" 9711 0; E "xcup;" 8899 0;
    E "xdtri;" 9661 0; E "xfr;" 120117 0; E "xhArr;" 10234 0; E "xharr;" 10231 0; E "xi;" 958 0; E "xlArr;" 10232 0;
    E "xlarr;" 10229 0; E "xmap;" 10236 0; E "xnis;" 8955 0; E "xodot;" 10752 0; E "xopf;" 120169 0;
    E "xoplus;" 10753 0; E "xotime;" 10754 0; E "xrArr;" 10233 0; E "xrarr;" 10230 0; E "xscr;" 120013 0;
    E "xsqcup;" 10758 0; E "xuplus;" 10756 0; E "xutri;" 9651 0; E "xvee;" 8897 0; E "xwedge;" 8896 0;
    E "yacute" 253 0; E "yacute;" 253 0; E "yacy;" 1103 0; E "ycirc;" 375 0; E "ycy;" 1099 0; E "yen" 165 0;
    E "yen;" 165 0; E "yfr;" 120118 0; E "yicy;" 1111 0; E "yopf;" 120170 0; E "yscr;" 120014 0; E "yucy;" 1102 0;
    E "yuml" 255 0; E "yuml;" 255 0; E "zacute;" 378 0; E "zcaron;" 382 0; E "zcy;" 1079 0; E "zdot;" 380 0;
    E "zeetrf;" 8488 0; E "zeta;" 950 0; E "zfr;" 120119 0; E "zhcy;" 1078 0; E "zigrarr;" 8669 0;
    E "zopf;" 120171 0; E "zscr;" 120015 0; E "zwj;" 8205 0; E "zwnj;" 8204 0
  ]%string.

(** The offset of the first entry that starts with [letter]. *)
Fixpoint index (letter : Z) (table : list HTMLEntityTableEntry) : nat :=
  match table with
  | [] => 0
  | e :: table => if bool_decide (head (entity e) = Some letter) then 0 else S (index letter table)
  end.

Definition uppercaseOffset : list nat :=
  Eval vm_compute in ((λ i, index (cUpperA + Z.of_nat i) entityNames) <$> seq 0 26) ++ [index cLowerA entityNames].

Definition lowercaseOffset : list nat :=
  Eval vm_compute in ((λ i, index (cLowerA + Z.of_nat i) entityNames) <$> seq 0 26) ++ [length entityNames].

Definition entryStartingWith (k : nat) (last : nat → nat) (c : Z) : option nat :=
  if (cUpperA <=? c) && (c <=? cUpperZ) then last <$> uppercaseOffset !! (Z.to_nat (c - cUpperA) + k)%nat
  else if (cLowerA <=? c) && (c <=? cLowerZ) then last <$> lowercaseOffset !! (Z.to_nat (c - cLowerA) + k)%nat
  else None.

#[export] Instance theEntityTable : HTMLEntityTable := {|
  entityTable := entityNames;
  firstEntryStartingWith := entryStartingWith 0 id;
  lastEntryStartingWith := entryStartingWith 1 pred;
|}.

(** ** The laws, by evaluation *)

Fixpoint adjacent {A} (r : A → A → bool) (l : list A) : bool :=
  match l with
  | a :: (b :: _) as l' => r a b && adjacent r l'
  | _ => true
  end.

Fixpoint semicolonLast (l : list Z) : bool :=
  match l with
  | [] => true
  | c :: l' => (negb (c =? cSemicolon) || bool_decide (l' = [])) && semicolonLast l'
  end.

Definition entryOk (e : HTMLEntityTableEntry) : bool :=
  match head (entity e) with Some x => isLetter x | None => false end
  && (entry_length e =? Z.of_nat (length (entity e)))
  && forallb isEntityCharacter (entity e) && semicolonLast (entity e)
  && (0 <? firstValue e) && (firstValue e <=? 1114111) && (0 <=? secondValue e) && (secondValue e <=? 1114111).

(** The entries of [table], from offset [i] on, that start with [c] are those
    with an offset between [f] and [l]. *)
Fixpoint rangeOk (c : Z) (f l i : nat) (table : list HTMLEntityTableEntry) : bool :=
  match table with
  | [] => true
  | e :: table =>
      eqb (bool_decide (head (entity e) = Some c)) ((f <=? i)%nat && (i <=? l)%nat) && rangeOk c f l (S i) table
  end.

Definition letterOk (c : Z) : bool :=
  negb (isLetter c) ||
  match entryStartingWith 0 id c, entryStartingWith 1 pred c with
  | Some f, Some l => (f <=? l)%nat && (l <? length entityNames)%nat && rangeOk c f l 0 entityNames
  | _, _ => false
  end.

Lemma lexlt_trans a b c : lexlt a b = true → lexlt b c = true → lexlt a c = true.
Proof.
  revert b c. induction a as [|x a IH]; intros [|y b] [|z c]; simpl; try done.
  rewrite !orb_true_iff, !andb_true_iff, !Z.ltb_lt, !Z.eqb_eq.
  intros [?|[? Hab]] [?|[? Hbc]]; try (left; lia). right. split; [lia|]. by eapply IH.
Qed.

Lemma adjacent_sorted l :
  adjacent (λ a b, lexlt (entity a) (entity b)) l = true →
  ∀ i j a b, l !! i = Some a → l !! j = Some b → (i < j)%nat → lexlt (entity a) (entity b) = true.
Proof.
  intros Hl. assert (Hnext : ∀ d i a b, l !! i = Some a → l !! (S d + i)%nat = Some b →
    lexlt (entity a) (entity b) = true).
  2:{ intros i j a b Ha Hb Hlt. apply (Hnext (j - i - 1)%nat i a b Ha). by rewrite <-Hb; f_equal; lia. }
  assert (Hone : ∀ i a b, l !! i = Some a → l !! S i = Some b → lexlt (entity a) (entity b) = true).
  { induction l as [|x [|y l] IH]; intros i a b Ha Hb.
    { by rewrite lookup_nil in Ha. }
    { by rewrite lookup_cons_Some, lookup_nil in Hb; destruct Hb as [[? _]|[_ ?]]. }
    simpl in Hl. apply andb_true_iff in Hl as [Hxy Hl]. destruct i as [|i]; [|by apply (IH Hl i)].
    by injection Ha as <-; injection Hb as <-. }
  induction d as [|d IH]; intros i a b Ha Hb; [by apply (Hone i)|].
  destruct (lookup_lt_is_Some_2 l (S d + i)%nat) as [c Hc]; [apply lookup_lt_Some in Hb; lia|].
  eapply lexlt_trans; [by apply (IH i a c)|by apply (Hone (S d + i)%nat)].
Qed.

Lemma semicolonLast_spec l k : semicolonLast l = true → l !! k = Some cSemicolon → S k = length l.
Proof.
  revert k. induction l as [|c l IH]; intros k Hl Hk; [by rewrite lookup_nil in Hk|].
  simpl in Hl. apply andb_true_iff in Hl as [Hc Hl]. destruct k as [|k]; simpl.
  - injection Hk as ->. simpl in Hc. apply bool_decide_eq_true in Hc. by rewrite Hc.
  - f_equal. by apply IH.
Qed.

Lemma rangeOk_spec c f l k table :
  rangeOk c f l k table = true →
  ∀ i e, table !! i = Some e → head (entity e) = Some c ↔ (f ≤ k + i ≤ l)%nat.
Proof.
  revert k. induction table as [|x table IH]; intros k Hr i e He; [done|]. simpl in Hr.
  apply andb_true_iff in Hr as [Hx Hr]. destruct i as [|i].
  - injection He as ->. apply eqb_prop in Hx. rewrite <-(bool_decide_eq_true (head _ = _)), Hx.
    rewrite andb_true_iff, !Nat.leb_le. lia.
  - rewrite (IH (S k) Hr i e He). lia.
Qed.

Lemma table_checked :
  adjacent (λ a b, lexlt (entity a) (entity b)) entityNames && forallb entryOk entityNames
  && forallb letterOk (Z.of_nat <$> seq 0 128) = true.
Proof. vm_compute. reflexivity. Qed.

#[local] Opaque entityNames uppercaseOffset lowercaseOffset.

Lemma letter_range c :
  isLetter c = true →
  ∃ f l, entryStartingWith 0 id c = Some f ∧ entryStartingWith 1 pred c = Some l ∧
    (f ≤ l < length entityNames)%nat ∧ rangeOk c f l 0 entityNames = true.
Proof.
  intros Hc. pose proof table_checked as [[_ _]%andb_true_iff Hall]%andb_true_iff.
  assert (Hok : letterOk c = true) by (apply (forall_below 128 letterOk Hall); unfold isLetter in Hc; lia).
  unfold letterOk in Hok. rewrite Hc in Hok. cbn [negb orb] in Hok.
  destruct (entryStartingWith 0 id c) as [f|]; [|done].
  destruct (entryStartingWith 1 pred c) as [l|]; [|done].
  apply andb_true_iff in Hok as [[Hfl Hl]%andb_true_iff Hr]. apply Nat.leb_le in Hfl. apply Nat.ltb_lt in Hl.
  exact (ex_intro _ f (ex_intro _ l (conj eq_refl (conj eq_refl (conj (conj Hfl Hl) Hr))))).
Qed.

Lemma entry_checked i e : entityNames !! i = Some e → entryOk e = true.
Proof.
  intros He. pose proof table_checked as [[_ Hall]%andb_true_iff _]%andb_true_iff.
  rewrite forallb_forall in Hall. apply Hall, list_elem_of_In. by eapply list_elem_of_lookup_2.
Qed.

#[export] Instance HTMLEntityTable_laws : HTMLEntityTableLaws.
Proof.
  split; cbn [entityTable firstEntryStartingWith lastEntryStartingWith theEntityTable].
  - pose proof table_checked as [[Hall _]%andb_true_iff _]%andb_true_iff. by apply adjacent_sorted.
  - intros i e Hok%entry_checked.
    unfold entryOk in Hok. rewrite !andb_true_iff in Hok. destruct Hok as [[[[[[[Hh Hl] Hc] _] ?] ?] ?] ?].
    split_and!; try lia.
    + destruct (head (entity e)) as [x|]; [by exists x|done].
    + apply Forall_forall. intros x Hx. rewrite forallb_forall in Hc. by apply Hc, list_elem_of_In.
  - intros i e k Hok%entry_checked. unfold entryOk in Hok. rewrite !andb_true_iff in Hok.
    destruct Hok as [[[[[_ Hs] _] _] _] _]. by apply semicolonLast_spec.
  - intros c Hc. destruct (letter_range c Hc) as (f & l & Hf & Hl & Hle & Hr).
    exists f, l. split; [exact Hf|]. split; [exact Hl|]. split; [exact Hle|]. intros i e He.
    exact (rangeOk_spec c f l 0 entityNames Hr i e He).
  - intros c Hc. unfold entryStartingWith, isLetter in *. apply orb_false_iff in Hc as [-> ->]. done.
Qed.

Lemma entitySearch_finds_longest_witness :
  ∃ s, feed (bytes "notit;") newSearch = Some s ∧
    longestMatch (bytes "notit;") (m_mostRecentMatch s) ∧
    (isEntityPrefix s = true ↔ ∃ i, startsWith (bytes "notit;") i).
Proof. apply (entitySearch_finds_longest (bytes "notit;")). repeat constructor; by vm_compute. Defined.
