(* ===== verification/HTMLEntityParser.v ===== *)
(** * Character references

    Model of [Source/WebCore/html/parser/HTMLEntityParser.cpp] and of the
    template [consumeCharacterReference] of
    [Source/WebCore/xml/parser/CharacterReferenceParserInlines.h] it
    instantiates: reading a numeric or named character reference after [&],
    putting characters back when it turns out not to be one, and asking for more
    input when it cannot tell yet.

    The theorems describe, on the reference source, what is decoded and how many
    characters are taken in every case ([referenceSpec]): numeric references get
    their exact value although it is accumulated in a 32-bit [int], named
    references the longest entity, and a refused reference leaves the input as it
    was. *)

From S2P Require Import Prelude ASCIICType CharSource InputStreamPreprocessor HTMLEntitySearch HTMLEntityTable.

Definition UCHAR_MAX_VALUE : Z := 1114111.

Definition windowsLatin1ExtensionArray : list Z := [
  8364; 129; 8218; 402; 8222; 8230; 8224; 8225;
  710; 8240; 352; 8249; 338; 141; 381; 143;
  144; 8216; 8217; 8220; 8221; 8226; 8211; 8212;
  732; 8482; 353; 8250; 339; 157; 382; 376].

(** [U_IS_SURROGATE], [U_IS_BMP], [U16_LEAD] and [U16_TRAIL] of ICU. *)
Definition U_IS_SURROGATE (c : Z) : bool := Z.land c (Z.lnot 2047) =? 55296.
Definition U_IS_BMP (c : Z) : bool := c <=? 65535.
Definition U16_LEAD (c : Z) : Z := u16 (Z.shiftr c 10 + 55232).
Definition U16_TRAIL (c : Z) : Z := Z.lor (Z.land c 1023) 56320.

(** [StringBuilder::append(UChar32)]: the UTF-16 code units appended. *)
Definition codeUnits (c : Z) : list Z :=
  if U_IS_BMP c then [c] else [U16_LEAD c; U16_TRAIL c].

(** [HTMLEntityParser::legalEntityFor]; the array read is in bounds. *)
Definition legalEntityFor (value : Z) : option Z :=
  if (value <=? 0) || (UCHAR_MAX_VALUE <? value) || U_IS_SURROGATE value then Some replacementCharacter
  else if negb (Z.land value (Z.lnot 31) =? 128) then Some value
  else windowsLatin1ExtensionArray !! Z.to_nat (value - 128).

Definition acceptMalformed : bool := true.

(** What the functions return: the boolean result, the decoded characters and
    the [notEnoughCharacters] flag. *)
Record Reference := mkReference {
  ref_success : bool;
  ref_decoded : list Z;
  ref_notEnough : bool;
}.

Definition notAReference : Reference := mkReference false [] false.
Definition needMoreInput : Reference := mkReference false [] true.

(** The states of [consumeCharacterReference]. *)
Inductive ReferenceState :=
  | RS_Initial | RS_Number | RS_MaybeHexLowerCaseX | RS_MaybeHexUpperCaseX | RS_Hex | RS_Decimal.

Section Operations.
Context `{Build} `{HTMLEntityTable} {S : Type} `{CharSource S}.

Abbreviation SrcM := (M S).

Definition src_op (f : S → option S) : SrcM unit := modifyOpt f.
Definition unconsumeCharacters (consumedCharacters : list Z) : SrcM unit := src_op (src_pushBack consumedCharacters).
Definition liftOpt {A} (o : option A) : SrcM A := λ s, a ← o; Some (a, s).

(** The first loop of [consumeNamedEntity]: the search, the characters consumed
    and the last character read. *)
Fixpoint consumeNamedLoop (fuel : nat) (entitySearch : HTMLEntitySearch) (consumedCharacters : list Z) (cc : Z) :
    SrcM (HTMLEntitySearch * list Z * Z) :=
  match fuel with
  | O => fault
  | Datatypes.S fuel =>
      empty ← gets src_isEmpty;
      if (empty : bool) then mret (entitySearch, consumedCharacters, cc)
      else
        cc ← gets src_currentCharacter;
        entitySearch ← liftOpt (search_advance cc entitySearch);
        if negb (isEntityPrefix entitySearch) then mret (entitySearch, consumedCharacters, cc)
        else
          src_op src_advancePastNonNewline;;
          consumeNamedLoop fuel entitySearch (consumedCharacters ++ [cc]) cc
  end.

(** The second loop: consume the characters of the matched entity again. *)
Fixpoint reconsumeLoop (reference : list Z) (consumedCharacters : list Z) : SrcM (list Z) :=
  match reference with
  | [] => mret consumedCharacters
  | expected :: reference =>
      cc ← gets src_currentCharacter;
      ASSERT (cc =? expected);;
      src_op src_advancePastNonNewline;;
      empty ← gets src_isEmpty;
      ASSERT (negb empty);;
      reconsumeLoop reference (consumedCharacters ++ [cc])
  end.

Definition decodedEntity (e : HTMLEntityTableEntry) : list Z :=
  codeUnits (firstValue e) ++ (if secondValue e =? 0 then [] else codeUnits (secondValue e)).

(** The end of [consumeNamedEntity], once the matched entity is consumed. *)
Definition decideNamedEntity (match_ : HTMLEntityTableEntry) (additionalAllowedCharacter cc : Z)
    (consumedCharacters : list Z) : SrcM Reference :=
  last ← liftOpt (lastCharacter match_);
  if (last =? cSemicolon) || (additionalAllowedCharacter =? 0) || negb (isASCIIAlphanumeric cc || (cc =? cEqual))
  then mret (mkReference true (decodedEntity match_) false)
  else unconsumeCharacters consumedCharacters;; mret notAReference.

Definition consumeNamedEntity (additionalAllowedCharacter cc : Z) : SrcM Reference :=
  n ← gets src_length;
  '(entitySearch, consumedCharacters, cc) ← consumeNamedLoop (Datatypes.S (Z.to_nat n)) newSearch [] cc;
  notEnoughCharacters ← gets src_isEmpty;
  if (notEnoughCharacters : bool) then
    unconsumeCharacters consumedCharacters;; mret needMoreInput
  else
    match mostRecentMatch entitySearch with
    | None => unconsumeCharacters consumedCharacters;; mret notAReference
    | Some match_ =>
        if negb (entry_length match_ =? m_currentLength entitySearch) then
          unconsumeCharacters consumedCharacters;;
          consumedCharacters ← reconsumeLoop (take (Z.to_nat (entry_length match_)) (entity match_)) [];
          cc ← gets src_currentCharacter;
          decideNamedEntity match_ additionalAllowedCharacter cc consumedCharacters
        else decideNamedEntity match_ additionalAllowedCharacter cc consumedCharacters
    end.

(** The two ways a numeric reference ends. *)
Definition finishNumeric (result : Z) (overflow : bool) : SrcM Reference :=
  c ← liftOpt (legalEntityFor (if overflow then 0 else result));
  mret (mkReference true (codeUnits c) false).

Definition endNumeric (character result : Z) (overflow : bool) (consumedCharacters : list Z) : SrcM Reference :=
  if character =? cSemicolon then
    src_op src_advancePastNonNewline;; finishNumeric result overflow
  else if acceptMalformed then finishNumeric result overflow
  else unconsumeCharacters consumedCharacters;; mret notAReference.

(** The loop of [consumeCharacterReference]: [break] out of the switch appends
    the character to [consumedCharacters], advances and goes round again with
    the new state. [result] is a 32-bit [int]. *)
Fixpoint referenceLoop (fuel : nat) (additionalAllowedCharacter : Z) (state : ReferenceState)
    (result : Z) (overflow : bool) (consumedCharacters : list Z) : SrcM Reference :=
  match fuel with
  | O => fault
  | Datatypes.S fuel =>
      empty ← gets src_isEmpty;
      if (empty : bool) then unconsumeCharacters consumedCharacters;; mret needMoreInput
      else
        character ← gets src_currentCharacter;
        let break_ state result overflow :=
          src_op src_advancePastNonNewline;;
          referenceLoop fuel additionalAllowedCharacter state result overflow (consumedCharacters ++ [character]) in
        let hex :=
          if isASCIIHexDigit character then
            let result := i32 (result * 16 + toASCIIHexValue character) in
            break_ RS_Hex result (overflow || (UCHAR_MAX_VALUE <? result))
          else endNumeric character result overflow consumedCharacters in
        let decimal :=
          if isASCIIDigit character then
            let result := i32 (result * 10 + character - cZero) in
            break_ RS_Decimal result (overflow || (UCHAR_MAX_VALUE <? result))
          else endNumeric character result overflow consumedCharacters in
        match state with
        | RS_Initial =>
            if (character =? cTab) || (character =? cLineFeed) || (character =? cFormFeed)
               || (character =? cSpace) || (character =? cLess) || (character =? cAmpersand)
            then mret notAReference
            else if negb (additionalAllowedCharacter =? 0) && (character =? additionalAllowedCharacter)
            then mret notAReference
            else if character =? cHash then break_ RS_Number result overflow
            else if isASCIIAlpha character then consumeNamedEntity additionalAllowedCharacter character
            else mret notAReference
        | RS_Number =>
            if character =? cLowerX then break_ RS_MaybeHexLowerCaseX result overflow
            else if character =? cUpperX then break_ RS_MaybeHexUpperCaseX result overflow
            else if isASCIIDigit character then decimal
            else src_op (src_pushBack [cHash]);; mret notAReference
        | RS_MaybeHexLowerCaseX =>
            if isASCIIHexDigit character then hex
            else src_op (src_pushBack [cHash; cLowerX]);; mret notAReference
        | RS_MaybeHexUpperCaseX =>
            if isASCIIHexDigit character then hex
            else src_op (src_pushBack [cHash; cUpperX]);; mret notAReference
        | RS_Hex => hex
        | RS_Decimal => decimal
        end
  end.

Definition consumeCharacterReference (additionalAllowedCharacter : Z) : SrcM Reference :=
  ASSERT ((additionalAllowedCharacter =? 0) || (additionalAllowedCharacter =? cQuote)
          || (additionalAllowedCharacter =? cApostrophe) || (additionalAllowedCharacter =? cGreater));;
  n ← gets src_length;
  referenceLoop (Datatypes.S (Z.to_nat n)) additionalAllowedCharacter RS_Initial 0 false [].

Definition consumeHTMLEntity (additionalAllowedCharacter : Z) : SrcM Reference :=
  consumeCharacterReference additionalAllowedCharacter.

(** [decodeNamedEntityToUCharArray]: the loop over the characters of [name], then
    the implicit semicolon; [[]] stands for the result 0. A match is read
    through [mostRecentMatch()] without a test, so its absence is a fault. *)
Fixpoint decodeLoop (name : list Z) (search : HTMLEntitySearch) : option (option HTMLEntitySearch) :=
  match name with
  | [] => Some (Some search)
  | c :: name =>
      search ← search_advance c search;
      if negb (isEntityPrefix search) then Some None else decodeLoop name search
  end.

Definition decodeNamedEntityToUCharArray (name : list Z) : option (list Z) :=
  found ← decodeLoop name newSearch;
  match found with
  | None => Some []
  | Some search =>
      search ← search_advance cSemicolon search;
      if negb (isEntityPrefix search) then Some []
      else
        e ← mostRecentMatch search;
        Some (codeUnits (firstValue e) ++ (if secondValue e =? 0 then [] else codeUnits (secondValue e)))
  end.

End Operations.

(** ** Code points and code units *)

(** The code point two surrogates stand for. *)
Definition codePoint (lead trail : Z) : Z := (lead - 55296) * 1024 + (trail - 56320) + 65536.

Lemma trail_value c : 0 ≤ c → U16_TRAIL c = c mod 1024 + 56320.
Proof.
  intros Hc. unfold U16_TRAIL. change 1023 with (Z.ones 10). rewrite Z.land_ones by lia.
  pose proof (Z.mod_pos_bound c (2 ^ 10) ltac:(lia)) as Hm. change (2 ^ 10) with 1024 in *.
  symmetry. apply Z.add_nocarry_lor. apply Z.bits_inj'. intros n Hn. rewrite Z.land_spec, Z.bits_0.
  destruct (Z.lt_ge_cases n 10).
  - replace (Z.testbit 56320 n) with false; [by rewrite andb_false_r|].
    change 56320 with (55 * 2 ^ 10). by rewrite Z.mul_pow2_bits_low by lia.
  - rewrite <-(Z.mod_small (c mod 1024) (2 ^ 10)) by lia. by rewrite Z.mod_pow2_bits_high by lia.
Qed.

Lemma lead_value c : 65536 ≤ c ≤ 1114111 → U16_LEAD c = c / 1024 + 55232.
Proof.
  intros Hc. unfold U16_LEAD, u16. rewrite Z.shiftr_div_pow2 by lia. change (2 ^ 10) with 1024.
  assert (64 ≤ c / 1024 ≤ 1087) by (split; [apply Z.div_le_lower_bound; lia|apply Z.lt_succ_r, Z.div_lt_upper_bound; lia]).
  apply Z.mod_small. lia.
Qed.

(** The code units of a code point other than 0 are 16-bit and not 0. *)
Lemma codeUnits_range c : 0 < c ≤ 1114111 → Forall (λ u, 0 < u < 65536) (codeUnits c) ∧ codeUnits c ≠ [].
Proof.
  intros Hc. unfold codeUnits, U_IS_BMP. destruct (Z.leb_spec c 65535).
  { split; [|done]. constructor; [lia|constructor]. }
  split; [|done]. rewrite lead_value, trail_value by lia.
  assert (64 ≤ c / 1024 ≤ 1087) by (split; [apply Z.div_le_lower_bound; lia|apply Z.lt_succ_r, Z.div_lt_upper_bound; lia]).
  pose proof (Z.mod_pos_bound c 1024 ltac:(lia)). repeat constructor; lia.
Qed.

Lemma surrogate_spec v : 0 ≤ v → U_IS_SURROGATE v = true ↔ 55296 ≤ v < 57344.
Proof.
  intros Hv. unfold U_IS_SURROGATE. rewrite Z.eqb_eq. change 2047 with (Z.ones 11).
  rewrite <-Z.ldiff_land, Z.ldiff_ones_r, Z.shiftl_mul_pow2, Z.shiftr_div_pow2 by lia. change (2 ^ 11) with 2048.
  pose proof (Z.div_mod v 2048 ltac:(lia)). pose proof (Z.mod_pos_bound v 2048 ltac:(lia)). lia.
Qed.

(** The code points that stand for themselves. *)
Definition legalCodePoint (v : Z) : bool :=
  (0 <? v) && (v <=? UCHAR_MAX_VALUE) && negb ((55296 <=? v) && (v <? 57344)).

(** What a numeric reference with the value [v] stands for in HTML. *)
Definition numericCharacter (v : Z) : Z :=
  if negb (legalCodePoint v) then replacementCharacter
  else if (128 <=? v) && (v <? 160) then windowsLatin1ExtensionArray !!! Z.to_nat (v - 128)
  else v.

Lemma latin1_table :
  forallb (λ i, (0 <? windowsLatin1ExtensionArray !!! i) && (windowsLatin1ExtensionArray !!! i <=? 65535)) (seq 0 32) = true.
Proof. by vm_compute. Qed.

Lemma latin1_entry i : (i < 32)%nat →
  windowsLatin1ExtensionArray !! i = Some (windowsLatin1ExtensionArray !!! i) ∧
  0 < windowsLatin1ExtensionArray !!! i ≤ 65535.
Proof.
  intros Hi. split.
  - destruct (lookup_lt_is_Some_2 windowsLatin1ExtensionArray i Hi) as [x Hx]. rewrite Hx.
    f_equal. symmetry. by apply list_lookup_total_correct.
  - pose proof latin1_table as Ht. rewrite forallb_forall in Ht.
    assert (Hin : In i (seq 0 32)) by (apply in_seq; lia). specialize (Ht i Hin). lia.
Qed.

Lemma legalEntityFor_spec v : 0 ≤ v → legalEntityFor v = Some (numericCharacter v).
Proof.
  intros Hv. unfold legalEntityFor, numericCharacter, legalCodePoint.
  pose proof (surrogate_spec v Hv) as Hs.
  assert (Hland : (Z.land v (Z.lnot 31) =? 128) = (128 <=? v) && (v <? 160)).
  { apply eq_true_iff_eq. rewrite Z.eqb_eq. change 31 with (Z.ones 5).
    rewrite <-Z.ldiff_land, Z.ldiff_ones_r, Z.shiftl_mul_pow2, Z.shiftr_div_pow2 by lia. change (2 ^ 5) with 32.
    pose proof (Z.div_mod v 32 ltac:(lia)). pose proof (Z.mod_pos_bound v 32 ltac:(lia)). lia. }
  rewrite Hland. destruct (U_IS_SURROGATE v) eqn:E.
  - rewrite orb_true_r. assert (55296 ≤ v < 57344) by by apply Hs.
    replace (negb _) with true; [done|]. symmetry. apply negb_true_iff. lia.
  - assert (¬ (55296 ≤ v < 57344)) by (rewrite <-Hs; congruence). rewrite orb_false_r.
    destruct (Z.leb_spec v 0); simpl; [by replace (0 <? v) with false by lia|].
    destruct (Z.ltb_spec UCHAR_MAX_VALUE v); simpl.
    { by replace (v <=? UCHAR_MAX_VALUE) with false by lia; rewrite andb_false_r. }
    replace (negb ((0 <? v) && _ && _)) with false by lia.
    destruct ((128 <=? v) && (v <? 160)) eqn:Hr; simpl; [|done]. apply latin1_entry. lia.
Qed.

Lemma numericCharacter_range v : 0 ≤ v → 0 < numericCharacter v ≤ 1114111.
Proof.
  intros Hv. unfold numericCharacter, legalCodePoint. destruct (negb _) eqn:E; [by compute|].
  change UCHAR_MAX_VALUE with 1114111 in *.
  destruct ((128 <=? v) && (v <? 160)) eqn:Hr; [|lia].
  pose proof (latin1_entry (Z.to_nat (v - 128)) ltac:(lia)) as [_ ?]. lia.
Qed.

(** ** Numeric references on the reference source *)

(** The digits of the two notations and the value they denote. *)
Definition isDigitOf (st : ReferenceState) (c : Z) : bool :=
  match st with RS_Hex => isASCIIHexDigit c | _ => isASCIIDigit c end.
Definition accumulate (st : ReferenceState) (v c : Z) : Z :=
  match st with RS_Hex => v * 16 + toASCIIHexValue c | _ => v * 10 + c - cZero end.
Definition numeral (st : ReferenceState) (digits : list Z) : Z := foldl (accumulate st) 0 digits.

(** The digits at the start of a text. *)
Fixpoint digitRun (st : ReferenceState) (chars : list Z) : list Z :=
  match chars with
  | [] => []
  | c :: rest => if isDigitOf st c then c :: digitRun st rest else []
  end.

(** What a numeric reference decodes to, and how many characters it takes: the
    text is what follows the [k] characters that opened the reference. *)
Definition numericSpec (st : ReferenceState) (k : nat) (chars : list Z) : Reference * nat :=
  let digits := digitRun st chars in
  match drop (length digits) chars with
  | [] => (needMoreInput, 0%nat)
  | c :: _ => (mkReference true (codeUnits (numericCharacter (numeral st digits))) false,
               k + length digits + if (c =? cSemicolon)%Z then 1 else 0)%nat
  end.

(** [result] and [overflow] represent the exact value [v]. *)
Definition represents (result : Z) (overflow : bool) (v : Z) : Prop :=
  0 ≤ v ∧ if overflow then UCHAR_MAX_VALUE < v else result = v ∧ v ≤ UCHAR_MAX_VALUE.

Definition noNewline (chars : list Z) : Prop := Forall (λ c, c ≠ cLineFeed) chars.

Section Reading.
Context `{Build} `{HTMLEntityTable} `{!HTMLEntityTableLaws}.

Lemma pushBack_drop k s :
  (1 ≤ k ≤ length (l_chars s))%nat → 0 ≤ l_consumed s → noNewline (take k (l_chars s)) →
  src_pushBack (take k (l_chars s)) (l_drop k s) = Some s.
Proof.
  intros Hk Hc Hn. destruct s as [chars n closed]. simpl in *. unfold l_pushBack.
  rewrite bool_decide_true, bool_decide_true.
  - replace (forallb _ _) with true.
    + simpl. rewrite take_drop, length_take_le by lia. do 2 f_equal. lia.
    + symmetry. apply forallb_forall. intros c Hin. apply negb_true_iff, Z.eqb_neq.
      eapply Forall_forall in Hn; [done|]. by apply list_elem_of_In.
  - simpl. rewrite length_take_le by lia. lia.
  - intros Heq. apply (f_equal length) in Heq. rewrite length_take_le in Heq by lia. simpl in Heq. lia.
Qed.

(** Reading a character and going past it. *)
Lemma drop_current k s c :
  l_chars s !! k = Some c → l_current (l_drop k s) = c ∧ src_isEmpty (l_drop k s) = false.
Proof.
  intros Hc. assert (Hd : drop k (l_chars s) = c :: drop (S k) (l_chars s)) by by apply drop_S.
  unfold l_current. simpl. rewrite Hd. done.
Qed.

Lemma drop_advance k s c :
  l_chars s !! k = Some c → c ≠ cLineFeed →
  src_advancePastNonNewline (l_drop k s) = Some (l_drop (S k) s).
Proof.
  intros Hc Hn. destruct (drop_current k s c Hc) as [Hcur _].
  assert (Hd : drop k (l_chars s) = c :: drop (S k) (l_chars s)) by by apply drop_S.
  simpl. unfold ASSERT_opt. rewrite Hcur, (proj2 (Z.eqb_neq c cLineFeed)), orb_true_r by done.
  unfold l_advance, l_drop. simpl. rewrite Hd. simpl. rewrite drop_0. do 2 f_equal. lia.
Qed.

Lemma take_snoc {A} k (l : list A) c : l !! k = Some c → take k l ++ [c] = take (S k) l.
Proof. intros Hc. symmetry. by apply take_S_r. Qed.

Lemma accumulate_represents st result overflow v c :
  st = RS_Hex ∨ st = RS_Decimal → 0 ≤ c → isDigitOf st c = true → represents result overflow v →
  let result' := i32 (accumulate st result c) in
  represents result' (overflow || (UCHAR_MAX_VALUE <? result')) (accumulate st v c).
Proof.
  intros Hst Hc Hd [Hv Hr].
  assert (Hstep : ∃ b d, accumulate st v c = v * b + d ∧ accumulate st result c = result * b + d ∧
    10 ≤ b ≤ 16 ∧ 0 ≤ d < b).
  { destruct Hst as [-> | ->]; simpl in *.
    - exists 16, (toASCIIHexValue c). rewrite toASCIIHexValue_spec by done.
      apply isASCIIHexDigit_spec in Hd; [|done]. rewrite toASCIILower_spec.
      repeat case_match; split_and!; lia.
    - exists 10, (c - cZero). unfold isASCIIDigit in Hd. split_and!; lia. }
  destruct Hstep as (b & d & -> & -> & Hb & Hd'). unfold represents. change UCHAR_MAX_VALUE with 1114111 in *.
  destruct overflow; simpl; [nia|]. destruct Hr as [-> Hle].
  rewrite i32_small by nia. split; [nia|]. destruct (Z.ltb_spec 1114111 (v * b + d)); [done|]. by split.
Qed.

Lemma represents_decoded result overflow v :
  represents result overflow v →
  legalEntityFor (if overflow then 0 else result) = Some (numericCharacter v).
Proof.
  intros [Hv Hr]. destruct overflow.
  - rewrite legalEntityFor_spec by lia. f_equal. unfold numericCharacter, legalCodePoint.
    change UCHAR_MAX_VALUE with 1114111 in *.
    by replace (v <=? 1114111) with false by lia; rewrite andb_false_r.
  - destruct Hr as [-> _]. by apply legalEntityFor_spec.
Qed.

Lemma isDigitOf_range st c : 0 ≤ c → isDigitOf st c = true → c ≠ cLineFeed ∧ c ≠ cSemicolon.
Proof.
  intros Hc Hd. destruct st; simpl in Hd; unfold isASCIIDigit in Hd; try lia.
  apply isASCIIHexDigit_spec in Hd; lia.
Qed.

(** The loop in one of the two digit states, from the [k]th character of [s] on,
    when the digits before it have the value [v]. *)
Lemma numericLoop_ok a st fuel s k result overflow v :
  st = RS_Hex ∨ st = RS_Decimal →
  (length (l_chars s) - k < fuel)%nat → (1 ≤ k ≤ length (l_chars s))%nat →
  0 ≤ l_consumed s → Forall isUChar (l_chars s) → noNewline (take k (l_chars s)) →
  represents result overflow v →
  let digits := digitRun st (drop k (l_chars s)) in
  referenceLoop fuel a st result overflow (take k (l_chars s)) (l_drop k s) = Some
    match l_chars s !! (k + length digits)%nat with
    | None => (needMoreInput, s)
    | Some c => (mkReference true (codeUnits (numericCharacter (foldl (accumulate st) v digits))) false,
                 l_drop (k + length digits + if (c =? cSemicolon)%Z then 1 else 0)%nat s)
    end.
Proof.
  intros Hst. revert k result overflow v.
  induction fuel as [|fuel IH]; intros k result overflow v Hfuel Hk Hcons Hall Hnl Hrep; [lia|].
  destruct (l_chars s !! k) as [c|] eqn:Hc.
  - assert (Hd : drop k (l_chars s) = c :: drop (S k) (l_chars s)) by by apply drop_S.
    destruct (drop_current k s c Hc) as [Hcur Hemp].
    assert (Hcr : isUChar c) by by eapply (Forall_lookup_1 isUChar).
    rewrite Hd. cbn [digitRun].
    (* one turn of the loop, the same in both states *)
    assert (Hturn : referenceLoop (S fuel) a st result overflow (take k (l_chars s)) (l_drop k s) =
      if isDigitOf st c then
        (src_op src_advancePastNonNewline ≫= λ _, referenceLoop fuel a st (i32 (accumulate st result c))
          (overflow || (UCHAR_MAX_VALUE <? i32 (accumulate st result c))) (take k (l_chars s) ++ [c])) (l_drop k s)
      else endNumeric c result overflow (take k (l_chars s)) (l_drop k s)).
    { cbn [referenceLoop]. unfold gets, mbind, M_bind. rewrite Hemp.
      cbn [src_currentCharacter LSource_CharSource]. rewrite Hcur. destruct Hst as [-> | ->]; simpl; by case_match. }
    rewrite Hturn. destruct (isDigitOf st c) eqn:Hdig.
    + destruct (isDigitOf_range st c ltac:(unfold isUChar in Hcr; lia) Hdig) as [Hnc _].
      unfold src_op, modifyOpt, mbind, M_bind. rewrite (drop_advance k s c Hc Hnc), (take_snoc _ _ _ Hc).
      apply lookup_lt_Some in Hc as Hlt.
      rewrite (IH (S k) _ _ (accumulate st v c)); [|lia|lia|done|done| |].
      * cbn [length foldl]. by rewrite <-Nat.add_succ_comm.
      * rewrite <-(take_snoc _ _ _ Hc). apply Forall_app. split; [done|]. by constructor.
      * by apply (accumulate_represents st result overflow v c); [|unfold isUChar in Hcr; lia| |].
    + cbn [length foldl]. rewrite Nat.add_0_r, Hc. unfold endNumeric, finishNumeric, liftOpt.
      pose proof (represents_decoded _ _ _ Hrep) as Hdec. destruct (Z.eqb_spec c cSemicolon) as [->|].
      * unfold src_op, modifyOpt, mbind, M_bind. rewrite (drop_advance k s _ Hc) by done.
        rewrite Hdec, Nat.add_1_r. done.
      * unfold mbind, M_bind. cbn [acceptMalformed]. rewrite Hdec, Nat.add_0_r. done.
  - apply lookup_ge_None in Hc. rewrite drop_ge by done. cbn [digitRun length].
    rewrite (proj2 (lookup_ge_None _ _)) by lia. cbn [referenceLoop].
    assert (Hemp : src_isEmpty (l_drop k s) = true) by (simpl; rewrite drop_ge by done; done).
    unfold gets, mbind, M_bind. rewrite Hemp. unfold unconsumeCharacters, src_op, modifyOpt.
    rewrite pushBack_drop by done. done.
Qed.

(** What a reference that starts with [#] decodes to. *)
Definition hashSpec (chars : list Z) : Reference * nat :=
  match chars with
  | _ :: x :: rest =>
      if (x =? cLowerX) || (x =? cUpperX) then
        match rest with
        | [] => (needMoreInput, 0%nat)
        | c :: _ => if isASCIIHexDigit c then numericSpec RS_Hex 2 rest else (notAReference, 0%nat)
        end
      else if isASCIIDigit x then numericSpec RS_Decimal 1 (x :: rest)
      else (notAReference, 0%nat)
  | _ => (needMoreInput, 0%nat)
  end.

Lemma numericLoop_spec a st fuel s k :
  st = RS_Hex ∨ st = RS_Decimal →
  (length (l_chars s) - k < fuel)%nat → (1 ≤ k ≤ length (l_chars s))%nat →
  0 ≤ l_consumed s → Forall isUChar (l_chars s) → noNewline (take k (l_chars s)) →
  referenceLoop fuel a st 0 false (take k (l_chars s)) (l_drop k s) = Some
    ((numericSpec st k (drop k (l_chars s))).1, l_drop (numericSpec st k (drop k (l_chars s))).2 s).
Proof.
  intros Hst Hfuel Hk Hcons Hall Hnl.
  rewrite (numericLoop_ok a st fuel s k 0 false 0) by (done || (split; [lia|by compute])).
  unfold numericSpec. set (n := length (digitRun st (drop k (l_chars s)))). rewrite drop_drop.
  destruct (l_chars s !! (k + n)%nat) as [c|] eqn:Hc.
  - by rewrite (drop_S _ c _ Hc).
  - apply lookup_ge_None in Hc. rewrite drop_ge by done. simpl. by rewrite l_drop_0.
Qed.

(** Reading the [k]th character and the branch it takes; what stays is the body
    of the loop for that character. *)
Ltac read_character k c Hc :=
  let Hcur := fresh "Hcur" in let Hemp := fresh "Hemp" in
  destruct (drop_current k _ c Hc) as [Hcur Hemp];
  cbn [referenceLoop]; unfold gets, mbind, M_bind; rewrite Hemp;
  cbn [src_currentCharacter LSource_CharSource]; rewrite Hcur.

(** At the end of the input everything is put back. *)
Lemma reference_runs_out a st fuel s result overflow :
  l_chars s ≠ [] → 0 ≤ l_consumed s → noNewline (l_chars s) →
  referenceLoop (S fuel) a st result overflow (l_chars s) (l_drop (length (l_chars s)) s) = Some (needMoreInput, s).
Proof.
  intros Hne Hcons Hnl. cbn [referenceLoop]. unfold gets, mbind, M_bind.
  assert (Hemp : src_isEmpty (l_drop (length (l_chars s)) s) = true) by (simpl; by rewrite drop_all).
  rewrite Hemp. unfold unconsumeCharacters, src_op, modifyOpt.
  rewrite <-(take_ge (l_chars s) (length (l_chars s))) at 1 by done.
  rewrite pushBack_drop; [done| |done|by rewrite take_ge].
  destruct (l_chars s); [done|]. simpl. lia.
Qed.

Lemma maybeHex_ok a st x s rest fuel :
  st = RS_MaybeHexLowerCaseX ∧ x = cLowerX ∨ st = RS_MaybeHexUpperCaseX ∧ x = cUpperX →
  l_chars s = cHash :: x :: rest → 0 ≤ l_consumed s → Forall isUChar (l_chars s) → (length rest < fuel)%nat →
  referenceLoop fuel a st 0 false [cHash; x] (l_drop 2 s) =
    Some ((hashSpec (l_chars s)).1, l_drop (hashSpec (l_chars s)).2 s).
Proof.
  intros Hst Hs Hcons Hall Hfuel. destruct fuel as [|fuel]; [lia|].
  assert (Hhex : (x =? cLowerX) || (x =? cUpperX) = true) by lia.
  assert (Hnl : noNewline [cHash; x]) by (repeat constructor; lia).
  rewrite Hs. cbn [hashSpec]. rewrite Hhex. destruct rest as [|c rest].
  { pose proof (reference_runs_out a st fuel s 0 false) as Hout. rewrite Hs in Hout. cbn [length] in Hout.
    rewrite Hout by done. simpl. by rewrite l_drop_0. }
  assert (Hc : l_chars s !! 2%nat = Some c) by by rewrite Hs.
  assert (Htake : take 2 (l_chars s) = [cHash; x]) by by rewrite Hs.
  assert (Hdrop : drop 2 (l_chars s) = c :: rest) by by rewrite Hs.
  assert (Hlen : length (l_chars s) = S (S (S (length rest)))) by by rewrite Hs.
  simpl in Hfuel. destruct (isASCIIHexDigit c) eqn:Hdig.
  - transitivity (referenceLoop (S fuel) a RS_Hex 0 false [cHash; x] (l_drop 2 s)).
    { read_character 2%nat c Hc. rewrite Hdig. by destruct Hst as [[-> _]|[-> _]]. }
    rewrite <-Htake, numericLoop_spec; rewrite ?Htake, ?Hdrop; try done; [by left|lia|lia].
  - assert (Hpb : src_pushBack [cHash; x] (l_drop 2 s) = Some s).
    { rewrite <-Htake. apply pushBack_drop; [lia|done|by rewrite Htake]. }
    read_character 2%nat c Hc. rewrite Hdig. cbn [fst snd]. rewrite l_drop_0.
    destruct Hst as [[-> ->]|[-> ->]]; unfold src_op, modifyOpt; by rewrite Hpb.
Qed.

Lemma number_ok a s rest fuel :
  l_chars s = cHash :: rest → 0 ≤ l_consumed s → Forall isUChar (l_chars s) → (length rest < fuel)%nat →
  referenceLoop fuel a RS_Number 0 false [cHash] (l_drop 1 s) =
    Some ((hashSpec (l_chars s)).1, l_drop (hashSpec (l_chars s)).2 s).
Proof.
  intros Hs Hcons Hall Hfuel. destruct fuel as [|fuel]; [lia|].
  assert (Hnl : noNewline [cHash]) by by repeat constructor.
  destruct rest as [|x rest].
  { pose proof (reference_runs_out a RS_Number fuel s 0 false) as Hout. rewrite Hs in Hout |- *. cbn [length] in Hout.
    rewrite Hout by done. simpl. by rewrite l_drop_0. }
  assert (Hx : l_chars s !! 1%nat = Some x) by by rewrite Hs.
  assert (Htake : take 1 (l_chars s) = [cHash]) by by rewrite Hs.
  assert (Hlen : length (l_chars s) = S (S (length rest))) by by rewrite Hs.
  simpl in Hfuel. assert (Hhex : ∀ st, st = RS_MaybeHexLowerCaseX ∧ x = cLowerX ∨ st = RS_MaybeHexUpperCaseX ∧ x = cUpperX →
    (src_op src_advancePastNonNewline ≫= λ _, referenceLoop fuel a st 0 false [cHash; x]) (l_drop 1 s) =
    Some ((hashSpec (l_chars s)).1, l_drop (hashSpec (l_chars s)).2 s)).
  { intros st Hst. unfold src_op, modifyOpt, mbind, M_bind. rewrite (drop_advance 1 s x Hx) by lia.
    apply (maybeHex_ok a st x s rest fuel Hst); [done..|lia]. }
  destruct (isASCIIDigit x) eqn:Hdig.
  - transitivity (referenceLoop (S fuel) a RS_Decimal 0 false [cHash] (l_drop 1 s)).
    { read_character 1%nat x Hx. unfold isASCIIDigit in Hdig.
      by rewrite (proj2 (Z.eqb_neq x cLowerX)), (proj2 (Z.eqb_neq x cUpperX)) by lia; unfold isASCIIDigit; rewrite Hdig. }
    rewrite <-Htake, numericLoop_spec; rewrite ?Htake; try done; [|by right|lia|lia].
    rewrite Hs. cbn [hashSpec drop]. rewrite Hdig. unfold isASCIIDigit in Hdig.
    by rewrite (proj2 (Z.eqb_neq x cLowerX)), (proj2 (Z.eqb_neq x cUpperX)) by lia.
  - read_character 1%nat x Hx. destruct (Z.eqb_spec x cLowerX) as [->|]; [apply Hhex; by left|].
    destruct (Z.eqb_spec x cUpperX) as [->|]; [apply Hhex; by right|]. rewrite Hdig.
    rewrite Hs. cbn [hashSpec]. rewrite Hdig, (proj2 (Z.eqb_neq x cLowerX)), (proj2 (Z.eqb_neq x cUpperX)) by done.
    unfold src_op, modifyOpt. rewrite <-Htake, pushBack_drop; [|lia|done|by rewrite Htake]. simpl. by rewrite l_drop_0.
Qed.

Definition validAdditional (a : Z) : Prop := a = 0 ∨ a = cQuote ∨ a = cApostrophe ∨ a = cGreater.

(** The entry of [consumeCharacterReference]. *)
Lemma consumeCharacterReference_enter a s :
  validAdditional a →
  consumeCharacterReference a s = referenceLoop (S (length (l_chars s))) a RS_Initial 0 false [] s.
Proof.
  intros Ha. unfold consumeCharacterReference, ASSERT, gets, mbind, M_bind.
  rewrite orb_true_intro by (right; unfold validAdditional in Ha; lia).
  cbn [mret M_ret src_length LSource_CharSource]. by rewrite Nat2Z.id.
Qed.

Lemma hash_ok a s rest :
  validAdditional a → l_chars s = cHash :: rest → 0 ≤ l_consumed s → Forall isUChar (l_chars s) →
  consumeCharacterReference a s = Some ((hashSpec (l_chars s)).1, l_drop (hashSpec (l_chars s)).2 s).
Proof.
  intros Ha Hs Hcons Hall. rewrite consumeCharacterReference_enter by done.
  rewrite <-(number_ok a s rest (length (l_chars s))) by (done || (rewrite Hs; simpl; lia)).
  assert (Hc : l_chars s !! 0%nat = Some cHash) by by rewrite Hs.
  pose proof (drop_advance 0 s cHash Hc ltac:(done)) as Hadv.
  rewrite <-(l_drop_0 s) at 2. read_character 0%nat 35 Hc.
  replace (negb (a =? 0) && (cHash =? a)) with false by (unfold validAdditional in Ha; lia).
  cbn -[referenceLoop src_advancePastNonNewline]. unfold src_op, modifyOpt. by rewrite Hadv.
Qed.

(** ** Named references on the reference source *)

Definition isEntityPrefixOf (chars : list Z) : Prop := ∃ i, startsWith chars i.

Lemma entity_noNewline i e : entityTable !! i = Some e → noNewline (entity e).
Proof.
  intros He. destruct (table_entry i e He) as (_ & _ & Hall & _). eapply Forall_impl; [exact Hall|].
  intros c Hc ->. by vm_compute in Hc.
Qed.

Lemma noNewline_prefix (p q : list Z) : p `prefix_of` q → noNewline q → noNewline p.
Proof. intros [k ->] Hn. by apply Forall_app in Hn as [? _]. Qed.

Lemma startsWith_prefix p q i : p `prefix_of` q → startsWith q i → startsWith p i.
Proof. intros Hp (e & He & Hq). exists e. split; [done|]. by etrans. Qed.

Lemma searching_prefix p s : searching p s → isEntityPrefixOf p.
Proof. intros (_ & _ & f & l & _ & _ & Hle & Hrange). exists f. apply Hrange. lia. Qed.

Lemma entityPrefix_noNewline p : isEntityPrefixOf p → noNewline p.
Proof. intros (i & e & He & Hp). eapply noNewline_prefix; [done|]. by eapply entity_noNewline. Qed.

Lemma letter_isEntityPrefix c : isLetter c = true → isEntityPrefixOf [c].
Proof.
  intros Hc. destruct (table_letter c Hc) as (f & l & _ & _ & Hle & Hrange).
  destruct (lookup_lt_is_Some_2 entityTable f) as [e He]; [lia|].
  exists f, e. split; [done|]. assert (Hh : head (entity e) = Some c) by (apply (Hrange f e He); lia).
  destruct (entity e) as [|x k]; [done|]. injection Hh as ->. by exists k.
Qed.

(** The search after [k] characters. *)
Definition searchAt (p : list Z) (search : HTMLEntitySearch) : Prop :=
  p = [] ∧ search = newSearch ∨ p ≠ [] ∧ searching p search.

Lemma searchAt_advance p c search :
  0 ≤ c → searchAt p search → ∃ search', search_advance c search = Some search' ∧ stepped p c search search'.
Proof. intros Hc [[-> ->]|[Hne Hs]]; [apply advance_first|by apply advance_next]. Qed.

Lemma searchAt_longest p search : searchAt p search → longestMatch p (m_mostRecentMatch search).
Proof. intros [[-> ->]|[_ (_ & ? & _)]]; [apply longestMatch_nil|done]. Qed.

(** Where the first loop of [consumeNamedEntity] stops: at the end of the input,
    or at the character that no entity continues with. *)
Definition namedStop (chars : list Z) (k : nat) (search : HTMLEntitySearch) (cc : Z) : Prop :=
  k = length chars ∧ searchAt chars search ∨
  chars !! k = Some cc ∧ longestMatch chars (m_mostRecentMatch search) ∧ ¬ isEntityPrefixOf chars ∧
  longestMatch (take k chars) (m_mostRecentMatch search) ∧ m_currentLength search = Z.of_nat k ∧
  ¬ isEntityPrefixOf (take (S k) chars).

Lemma namedLoop_ok fuel s k search cc :
  (length (l_chars s) - k < fuel)%nat → (k ≤ length (l_chars s))%nat → Forall isUChar (l_chars s) →
  searchAt (take k (l_chars s)) search →
  ∃ k' search' cc', consumeNamedLoop fuel search (take k (l_chars s)) cc (l_drop k s) =
      Some ((search', take k' (l_chars s), cc'), l_drop k' s) ∧
    (k ≤ k' ≤ length (l_chars s))%nat ∧ (k' = k ∨ isEntityPrefixOf (take k' (l_chars s))) ∧
    namedStop (l_chars s) k' search' cc'.
Proof.
  revert k search cc. induction fuel as [|fuel IH]; intros k search cc Hfuel Hk Hall Hat; [lia|].
  cbn [consumeNamedLoop]. destruct (l_chars s !! k) as [c|] eqn:Hc.
  2:{ apply lookup_ge_None in Hc. assert (k = length (l_chars s)) as -> by lia.
      assert (Hemp : src_isEmpty (l_drop (length (l_chars s)) s) = true) by (simpl; by rewrite drop_all).
      exists (length (l_chars s)), search, cc. unfold gets, mbind, M_bind. rewrite Hemp.
      split; [done|]. split; [lia|]. split; [by left|]. left. by rewrite take_ge in Hat. }
  destruct (drop_current k s c Hc) as [Hcur Hemp]. unfold gets, mbind, M_bind. rewrite Hemp.
  cbn [src_currentCharacter LSource_CharSource]. rewrite Hcur.
  assert (Hcr : isUChar c) by by eapply (Forall_lookup_1 isUChar).
  destruct (searchAt_advance (take k (l_chars s)) c search) as (search' & Hadv & Hst); [unfold isUChar in Hcr; lia|done|].
  unfold liftOpt, mbind, option_bind. rewrite Hadv. unfold isEntityPrefix.
  assert (Hpre : take k (l_chars s) ++ [c] `prefix_of` l_chars s) by (rewrite (take_snoc _ _ _ Hc); apply prefix_take).
  destruct Hst as [Hs'|(Hnone & Hm & Hcl & Hno)].
  - pose proof Hs' as (_ & _ & f & l & Hf & _). rewrite Hf. cbn [negb bool_decide].
    rewrite (take_snoc _ _ _ Hc) in Hs'. apply lookup_lt_Some in Hc as Hlt.
    assert (Hnl : c ≠ cLineFeed).
    { pose proof (entityPrefix_noNewline _ (searching_prefix _ _ Hs')) as Hn.
      rewrite <-(take_snoc _ _ _ Hc) in Hn. apply Forall_app in Hn as [_ Hn]. by inversion Hn. }
    rewrite bool_decide_true by done. simpl. unfold src_op, modifyOpt, mbind, M_bind.
    pose proof (drop_advance k s c Hc Hnl) as Ha. simpl in Ha. rewrite Ha, (take_snoc _ _ _ Hc).
    destruct (IH (S k) search' c) as (k' & search'' & cc' & Hrun & Hk' & Hp & Hstop); [lia|lia|done| |].
    { right. split; [|done]. intros Hnil. apply (f_equal length) in Hnil. rewrite length_take_le in Hnil by lia. done. }
    exists k', search'', cc'. rewrite Hrun. split; [done|]. split; [lia|]. split; [|done].
    right. destruct Hp as [->|?]; [by eapply searching_prefix|done].
  - rewrite Hnone. rewrite bool_decide_false by (by intros Hx; apply Hx). simpl.
    apply lookup_lt_Some in Hc as Hlt. exists k, search', c. split; [done|]. split; [lia|]. split; [by left|]. right.
    split; [done|]. rewrite Hm. pose proof (searchAt_longest _ _ Hat) as Hlong.
    split_and!; [| |done|by rewrite Hcl, length_take_le by lia|].
    + rewrite <-(take_drop_middle _ _ _ Hc). by apply longestMatch_app.
    + intros (i & Hi). apply (Hno i). by eapply startsWith_prefix.
    + rewrite <-(take_snoc _ _ _ Hc). intros (i & Hi). by apply (Hno i).
Qed.

(** What a named reference decodes to, and how many characters it takes. *)
Definition acceptsNamed (a : Z) (e : HTMLEntityTableEntry) (next : Z) : bool :=
  bool_decide (last (entity e) = Some cSemicolon) || (a =? 0) || negb (isASCIIAlphanumeric next || (next =? cEqual)).

Inductive namedSpec (a : Z) (chars : list Z) : Reference → nat → Prop :=
  | named_more : isEntityPrefixOf chars → namedSpec a chars needMoreInput 0
  | named_none : ¬ isEntityPrefixOf chars → longestMatch chars None → namedSpec a chars notAReference 0
  | named_accept i e next :
      ¬ isEntityPrefixOf chars → longestMatch chars (Some i) → entityTable !! i = Some e →
      chars !! length (entity e) = Some next → acceptsNamed a e next = true →
      namedSpec a chars (mkReference true (decodedEntity e) false) (length (entity e))
  | named_refuse i e next :
      ¬ isEntityPrefixOf chars → longestMatch chars (Some i) → entityTable !! i = Some e →
      chars !! length (entity e) = Some next → acceptsNamed a e next = false →
      namedSpec a chars notAReference 0.

Lemma lastCharacter_last i e : entityTable !! i = Some e → lastCharacter e = last (entity e) ∧ is_Some (last (entity e)).
Proof.
  intros He. destruct (table_entry i e He) as ((x & Hx & _) & Hlen & _). unfold lastCharacter.
  rewrite Hlen. split.
  - rewrite last_lookup. f_equal. lia.
  - apply last_is_Some. intros Hnil. by rewrite Hnil in Hx.
Qed.

(** The second loop goes back over the matched entity. *)
Lemma reconsumeLoop_ok s p k reference :
  (∃ rest, l_chars s = p ++ reference ++ rest ∧ rest ≠ []) → noNewline reference → k = length p →
  reconsumeLoop reference p (l_drop k s) = Some (p ++ reference, l_drop (k + length reference) s).
Proof.
  revert p k. induction reference as [|c reference IH]; intros p k (rest & Hs & Hne) Hnl ->; cbn [reconsumeLoop].
  { by rewrite app_nil_r, Nat.add_0_r. }
  inversion_clear Hnl as [|? ? Hc Hnl'].
  assert (Hlk : l_chars s !! length p = Some c) by (rewrite Hs; by apply list_lookup_middle).
  destruct (drop_current _ s c Hlk) as [Hcur _]. unfold gets, src_op, modifyOpt, mbind, M_bind.
  cbn [src_currentCharacter LSource_CharSource]. rewrite Hcur. unfold ASSERT at 1. rewrite Z.eqb_refl, orb_true_r.
  cbn [mret M_ret]. rewrite (drop_advance _ s c Hlk Hc).
  assert (Hemp : src_isEmpty (l_drop (S (length p)) s) = false).
  { simpl. apply bool_decide_false. rewrite Hs. intros Hnil. apply (f_equal length) in Hnil.
    rewrite length_drop, !length_app in Hnil. simpl in Hnil.
    destruct rest; [done|]. simpl in Hnil. lia. }
  rewrite Hemp. unfold ASSERT. rewrite orb_true_r. cbn [mret M_ret].
  rewrite IH.
  - rewrite <-app_assoc. cbn [length]. by rewrite Nat.add_succ_r.
  - exists rest. by rewrite <-!app_assoc.
  - done.
  - rewrite length_app. simpl. lia.
Qed.

Lemma decideNamed_ok a i e next s n :
  entityTable !! i = Some e → l_chars s !! length (entity e) = Some next → entity e `prefix_of` l_chars s →
  0 ≤ l_consumed s → n = length (entity e) →
  decideNamedEntity e a next (take n (l_chars s)) (l_drop n s) =
    if acceptsNamed a e next then Some (mkReference true (decodedEntity e) false, l_drop n s) else Some (notAReference, s).
Proof.
  intros He Hnext Hpre Hcons ->. destruct (lastCharacter_last i e He) as [Hl [x Hx]].
  unfold decideNamedEntity, liftOpt, acceptsNamed, mbind, M_bind, option_bind. rewrite Hl, Hx.
  replace (bool_decide (Some x = Some cSemicolon)) with (x =? cSemicolon).
  2:{ apply eq_true_iff_eq. rewrite Z.eqb_eq, bool_decide_eq_true. split; [by intros ->|by intros [=]]. }
  case_match; [done|]. unfold unconsumeCharacters, src_op, modifyOpt. rewrite pushBack_drop; [done| |done|].
  - apply lookup_lt_Some in Hnext. split; [|lia]. destruct (entity e) eqn:E; [done|]. simpl. lia.
  - eapply noNewline_prefix; [|by eapply entity_noNewline]. destruct Hpre as [k Hk].
    rewrite Hk, take_app_length. done.
Qed.

(** What follows the loop when it has stopped before the end of the input with
    the match [e]. *)
Definition finishNamed (a cc : Z) (search : HTMLEntitySearch) (consumedCharacters : list Z)
    (e : HTMLEntityTableEntry) : M LSource Reference :=
  if negb (entry_length e =? m_currentLength search) then
    unconsumeCharacters consumedCharacters;;
    consumedCharacters ← reconsumeLoop (take (Z.to_nat (entry_length e)) (entity e)) [];
    cc ← gets src_currentCharacter;
    decideNamedEntity e a cc consumedCharacters
  else decideNamedEntity e a cc consumedCharacters.

Lemma finishNamed_ok a cc search s k i e :
  l_chars s !! k = Some cc → (1 ≤ k)%nat → 0 ≤ l_consumed s → noNewline (take k (l_chars s)) →
  m_currentLength search = Z.of_nat k → entityTable !! i = Some e →
  longestMatch (take k (l_chars s)) (Some i) → longestMatch (l_chars s) (Some i) → ¬ isEntityPrefixOf (l_chars s) →
  ∃ r n, finishNamed a cc search (take k (l_chars s)) e (l_drop k s) = Some (r, l_drop n s) ∧
    namedSpec a (l_chars s) r n.
Proof.
  intros Hcc Hk Hcons Hnl Hlen He (e1 & He1 & Hpre' & _) Hlong Hno. pose proof Hlong as (e2 & He2 & Hpre & _).
  assert (e1 = e) as -> by congruence. assert (e2 = e) as -> by congruence.
  destruct (table_entry i e He) as (_ & Helen & _). apply lookup_lt_Some in Hcc as Hlt.
  assert (Hle : (length (entity e) ≤ k)%nat) by (apply prefix_length in Hpre'; rewrite length_take_le in Hpre'; lia).
  destruct (lookup_lt_is_Some_2 (l_chars s) (length (entity e))) as [next Hnext]; [lia|].
  assert (Hdone : ∃ r n, decideNamedEntity e a next (take (length (entity e)) (l_chars s)) (l_drop (length (entity e)) s)
     = Some (r, l_drop n s) ∧ namedSpec a (l_chars s) r n).
  { rewrite (decideNamed_ok a i e next) by done. destruct (acceptsNamed a e next) eqn:Hacc.
    - eexists _, _. split; [done|]. by econstructor.
    - eexists _, 0%nat. rewrite l_drop_0. split; [done|]. by eapply named_refuse. }
  unfold finishNamed. rewrite Helen, Hlen.
  destruct (Z.eqb_spec (Z.of_nat (length (entity e))) (Z.of_nat k)) as [Heq|Hneq]; cbn [negb].
  { apply Nat2Z.inj in Heq. subst k. by assert (cc = next) as -> by congruence. }
  unfold unconsumeCharacters, src_op, modifyOpt, gets, mbind, M_bind.
  rewrite pushBack_drop, Nat2Z.id, take_ge by (done || lia).
  destruct Hpre as [tl Htl]. assert (Htl' : tl ≠ []) by (intros ->; rewrite Htl, app_nil_r in Hlt; lia).
  pose proof (reconsumeLoop_ok s [] 0 (entity e)) as Hre. rewrite l_drop_0 in Hre.
  rewrite Hre by (done || (by exists tl) || (by eapply entity_noNewline)). cbn [app Nat.add].
  cbn [src_currentCharacter LSource_CharSource]. rewrite (proj1 (drop_current _ s next Hnext)).
  assert (Htake : take (length (entity e)) (l_chars s) = entity e) by (rewrite Htl; apply take_app_length).
  by rewrite Htake in Hdone.
Qed.

Lemma consumeNamedEntity_ok a cc s c rest :
  l_chars s = c :: rest → isLetter c = true → 0 ≤ l_consumed s → Forall isUChar (l_chars s) →
  ∃ r n, consumeNamedEntity a cc s = Some (r, l_drop n s) ∧ namedSpec a (l_chars s) r n.
Proof.
  intros Hs Hc Hcons Hall. unfold consumeNamedEntity.
  destruct (namedLoop_ok (S (length (l_chars s))) s 0 newSearch cc) as (k & search & cc' & Hrun & Hk & Hp & Hstop);
    [lia|lia|done|by left|].
  rewrite l_drop_0 in Hrun. change (take 0 (l_chars s)) with (@nil Z) in Hrun.
  unfold gets, mbind, M_bind. cbn [src_length LSource_CharSource]. rewrite Nat2Z.id, Hrun.
  assert (Hk1 : (1 ≤ k)%nat).
  { destruct k; [|lia]. exfalso. destruct Hstop as [[Hlen _]|(_ & _ & _ & _ & _ & Hno)].
    - rewrite Hs in Hlen. done.
    - apply Hno. rewrite Hs. simpl. by apply letter_isEntityPrefix. }
  assert (Hnl : noNewline (take k (l_chars s))).
  { destruct Hp as [->|Hp]; [lia|]. by apply entityPrefix_noNewline. }
  assert (Hpb : src_pushBack (take k (l_chars s)) (l_drop k s) = Some s) by (apply pushBack_drop; [lia|done|done]).
  destruct Hstop as [[-> Hat]|(Hcc & Hlong & Hno & Hlong' & Hlen & _)].
  { assert (Hemp : src_isEmpty (l_drop (length (l_chars s)) s) = true) by (simpl; by rewrite drop_all).
    unfold unconsumeCharacters, src_op, modifyOpt. rewrite Hemp, Hpb.
    exists needMoreInput, 0%nat. rewrite l_drop_0. split; [done|]. constructor.
    destruct Hat as [[? _]|[_ ?]]; [congruence|by eapply searching_prefix]. }
  rewrite (proj2 (drop_current k s cc' Hcc)). unfold mostRecentMatch, mbind, option_bind.
  destruct (m_mostRecentMatch search) as [i|].
  - pose proof Hlong' as (e & He & _). rewrite He. by apply (finishNamed_ok a cc' search s k i e).
  - unfold unconsumeCharacters, src_op, modifyOpt. rewrite Hpb.
    exists notAReference, 0%nat. rewrite l_drop_0. split; [done|]. by constructor.
Qed.

(** ** What [consumeHTMLEntity] answers *)

Inductive referenceSpec (a : Z) (chars : list Z) : Reference → nat → Prop :=
  | reference_hash rest :
      chars = cHash :: rest → referenceSpec a chars (hashSpec chars).1 (hashSpec chars).2
  | reference_named c rest r n :
      chars = c :: rest → isLetter c = true → namedSpec a chars r n → referenceSpec a chars r n
  | reference_other c rest :
      chars = c :: rest → c ≠ cHash → isLetter c = false → referenceSpec a chars notAReference 0.

Lemma isLetter_alpha c : 0 ≤ c → isASCIIAlpha c = isLetter c.
Proof. intros Hc. apply eq_true_iff_eq. rewrite isASCIIAlpha_spec by done. unfold isLetter. lia. Qed.

Lemma consumeHTMLEntity_ok a s :
  validAdditional a → l_chars s ≠ [] → 0 ≤ l_consumed s → Forall isUChar (l_chars s) →
  ∃ r n, consumeHTMLEntity a s = Some (r, l_drop n s) ∧ referenceSpec a (l_chars s) r n.
Proof.
  intros Ha Hne Hcons Hall. unfold consumeHTMLEntity. destruct (l_chars s) as [|c rest] eqn:Hs; [done|].
  destruct (decide (c = cHash)) as [->|Hnh].
  { rewrite (hash_ok a s rest) by (done || by rewrite Hs). rewrite Hs.
    eexists _, _. split; [done|]. by apply (reference_hash _ _ rest). }
  rewrite consumeCharacterReference_enter by done.
  assert (Hc : l_chars s !! 0%nat = Some c) by by rewrite Hs.
  assert (Hc0 : 0 ≤ c) by by apply Forall_cons in Hall as [[? _] _]. unfold validAdditional in Ha.
  destruct (drop_current 0 s c Hc) as [Hcur Hemp]. rewrite l_drop_0 in Hcur, Hemp.
  cbn [referenceLoop]. unfold gets, mbind, M_bind. rewrite Hemp.
  cbn [src_currentCharacter LSource_CharSource]. rewrite Hcur, (isLetter_alpha c Hc0).
  destruct (isLetter c) eqn:Hlet.
  - unfold isLetter in Hlet.
    replace (_ || _ || _ || _ || (c =? cLess) || _) with false by lia.
    replace (negb (a =? 0) && (c =? a)) with false by lia.
    rewrite (proj2 (Z.eqb_neq c cHash)) by done.
    destruct (consumeNamedEntity_ok a c s c rest) as (r & n & Hr & Hspec); try done; [by rewrite Hs|].
    exists r, n. split; [done|]. rewrite Hs in Hspec. by eapply reference_named.
  - exists notAReference, 0%nat. rewrite (proj2 (Z.eqb_neq c cHash)), l_drop_0 by done.
    split; [by repeat case_match|]. by eapply reference_other.
Qed.

(** ** [decodeNamedEntityToUCharArray] *)

Lemma decodeLoop_ok name p search :
  Forall (λ c, 0 ≤ c) name → searchAt p search →
  ∃ o, decodeLoop name search = Some o ∧
    match o with
    | Some search' => searchAt (p ++ name) search'
    | None => ¬ isEntityPrefixOf (p ++ name)
    end.
Proof.
  revert p search. induction name as [|c name IH]; intros p search Hall Hat; cbn [decodeLoop].
  { exists (Some search). by rewrite app_nil_r. }
  inversion_clear Hall as [|? ? Hc Hall']. destruct (searchAt_advance p c search Hc Hat) as (search' & -> & Hst).
  simpl. unfold isEntityPrefix. destruct Hst as [Hs'|(Hnone & _ & _ & Hno)].
  - pose proof Hs' as (_ & _ & f & l & Hf & _). rewrite Hf, bool_decide_true by done. simpl.
    destruct (IH (p ++ [c]) search' Hall') as (o & -> & Ho); [right; split; [by destruct p|done]|].
    rewrite <-app_assoc in Ho. by exists o.
  - rewrite Hnone, bool_decide_false by (by intros Hx; apply Hx). simpl. exists None. split; [done|].
    intros (i & Hi). apply (Hno i). eapply startsWith_prefix; [|done]. exists name. by rewrite <-app_assoc.
Qed.

Lemma semicolon_complete i e name :
  entityTable !! i = Some e → name ++ [cSemicolon] `prefix_of` entity e → entity e = name ++ [cSemicolon].
Proof.
  intros He [k Hk]. assert (Hlast : S (length name) = length (entity e)).
  { apply (table_semicolon i e); [done|]. rewrite Hk, <-app_assoc. by apply list_lookup_middle. }
  rewrite Hk, !length_app in Hlast. simpl in Hlast. destruct k; [by rewrite Hk, app_nil_r|simpl in Hlast; lia].
Qed.

Lemma codeUnits_length c : (1 ≤ length (codeUnits c) ≤ 2)%nat.
Proof. unfold codeUnits. case_match; simpl; lia. Qed.

Lemma decode_ok name :
  Forall (λ c, 0 ≤ c) name →
  ∃ units, decodeNamedEntityToUCharArray name = Some units ∧
    ((∃ i e, entityTable !! i = Some e ∧ entity e = name ++ [cSemicolon] ∧ units = decodedEntity e) ∨
     (units = [] ∧ ∀ i e, entityTable !! i = Some e → entity e ≠ name ++ [cSemicolon])).
Proof.
  intros Hall. unfold decodeNamedEntityToUCharArray.
  destruct (decodeLoop_ok name [] newSearch Hall) as (o & -> & Ho); [by left|]. simpl in Ho |- *.
  assert (Hnot : ¬ isEntityPrefixOf (name ++ [cSemicolon]) → ∀ i e, entityTable !! i = Some e → entity e ≠ name ++ [cSemicolon]).
  { intros Hno i e He Heq. apply Hno. exists i, e. split; [done|]. by rewrite Heq. }
  destruct o as [search|].
  2:{ exists []. split; [done|]. right. split; [done|]. apply Hnot. intros (i & Hi). apply Ho.
      exists i. eapply startsWith_prefix; [|done]. by exists [cSemicolon]. }
  destruct (searchAt_advance name cSemicolon search) as (search' & -> & Hst); [done..|]. simpl.
  unfold isEntityPrefix. destruct Hst as [Hs'|(Hnone & _ & _ & Hno)].
  2:{ rewrite Hnone, bool_decide_false by (by intros Hx; apply Hx). exists []. split; [done|]. right. split; [done|].
      apply Hnot. intros (i & Hi). by apply (Hno i). }
  pose proof Hs' as (_ & Hlong & f & l & Hf & _). rewrite Hf, bool_decide_true by done. simpl.
  destruct (searching_prefix _ _ Hs') as (i & e & He & Hpre). apply (semicolon_complete i e) in Hpre as Hee; [|done].
  unfold mostRecentMatch. destruct (m_mostRecentMatch search') as [j|].
  2:{ exfalso. apply (Hlong i e He). by rewrite Hee. }
  destruct Hlong as (e' & He' & Hp' & Hbest). simpl. rewrite He'. eexists. split; [done|]. left.
  exists j, e'. split; [done|]. split; [|done]. specialize (Hbest i e He). rewrite Hee in Hbest.
  specialize (Hbest ltac:(done)). destruct Hp' as [k Hk]. rewrite Hk, length_app in Hbest.
  destruct k; [by rewrite app_nil_r in Hk|simpl in Hbest; lia].
Qed.

(** ** Summary of the answers *)

(** What a caller can rely on: nothing is consumed or decoded without success,
    and a success consumes something and decodes to 16-bit characters other
    than NUL. *)
Definition referenceOk (r : Reference) (n len : nat) : Prop :=
  (n ≤ len)%nat ∧
  if ref_success r then (1 ≤ n)%nat ∧ ref_notEnough r = false ∧ ref_decoded r ≠ [] ∧ Forall (λ c, 0 < c < 65536) (ref_decoded r)
  else n = 0%nat ∧ ref_decoded r = [].

Lemma referenceOk_failure r len : ref_success r = false → ref_decoded r = [] → referenceOk r 0 len.
Proof. intros Hs Hd. split; [lia|]. by rewrite Hs. Qed.

Lemma numeral_nonneg st digits : 0 ≤ numeral st digits ∨ Exists (λ c, ¬ (0 ≤ c ∧ isDigitOf st c = true)) digits.
Proof.
  destruct (decide (Forall (λ c, 0 ≤ c ∧ isDigitOf st c = true) digits)) as [Hall|Hn].
  2:{ right. by apply not_Forall_Exists in Hn; [|apply _]. }
  left. unfold numeral. assert (Hgen : ∀ v, 0 ≤ v → 0 ≤ foldl (accumulate st) v digits); [|by apply Hgen].
  induction Hall as [|c digits [Hc Hd] _ IH]; intros v Hv; simpl; [done|]. apply IH.
  destruct st; simpl in *; unfold isASCIIDigit in *; try lia.
  pose proof (toASCIIHexValue_spec c Hc Hd). apply isASCIIHexDigit_spec in Hd; [|done].
  rewrite toASCIILower_spec in *. repeat case_match; lia.
Qed.

Lemma digitRun_digits st chars : Forall isUChar chars → Forall (λ c, 0 ≤ c ∧ isDigitOf st c = true) (digitRun st chars).
Proof.
  induction 1 as [|c chars [Hc _] _ IH]; simpl; [constructor|].
  destruct (isDigitOf st c) eqn:Hd; [by constructor|constructor].
Qed.

Lemma numericSpec_ok st k chars :
  Forall isUChar chars → (1 ≤ k)%nat →
  referenceOk (numericSpec st k chars).1 (numericSpec st k chars).2 (k + length chars).
Proof.
  intros Hall Hk. unfold numericSpec. destruct (drop _ chars) as [|c rest] eqn:Hd; [by apply referenceOk_failure|].
  assert (Hlen : (length (digitRun st chars) < length chars)%nat).
  { apply (f_equal length) in Hd. rewrite length_drop in Hd. simpl in Hd. lia. }
  cbn [fst snd]. split; [case_match; lia|]. cbn [ref_success ref_notEnough ref_decoded].
  assert (Hv : 0 ≤ numeral st (digitRun st chars)).
  { destruct (numeral_nonneg st (digitRun st chars)) as [?|Hex]; [done|]. exfalso.
    apply Exists_exists in Hex as (x & Hx & Hno). apply Hno.
    by eapply Forall_forall in Hx; [|by apply digitRun_digits]. }
  pose proof (codeUnits_range _ (numericCharacter_range _ Hv)) as [? ?]. split; [lia|]. done.
Qed.

Lemma referenceSpec_ok a chars r n :
  Forall isUChar chars → referenceSpec a chars r n → referenceOk r n (length chars).
Proof.
  intros Hall [rest ->|c rest r' n' -> Hc Hn|c rest -> _ _]; [| |by apply referenceOk_failure].
  - destruct rest as [|x rest]; [by apply referenceOk_failure|]. cbn [hashSpec].
    apply Forall_cons in Hall as [_ Hall]. case_match.
    + destruct rest as [|c rest]; [by apply referenceOk_failure|]. case_match; [|by apply referenceOk_failure].
      apply (numericSpec_ok RS_Hex 2); [by apply Forall_cons in Hall as [_ ?]|lia].
    + case_match; [by apply (numericSpec_ok RS_Decimal 1)|by apply referenceOk_failure].
  - destruct Hn as [| |i e next _ _ He Hnext _|]; try by apply referenceOk_failure.
    apply lookup_lt_Some in Hnext. destruct (table_entry i e He) as ((x & Hx & _) & _ & _ & Hf & Hsec).
    split; [lia|]. cbn [ref_success ref_notEnough ref_decoded]. unfold decodedEntity.
    destruct (codeUnits_range _ Hf) as [Hu Hne]. split; [destruct (entity e); [done|simpl; lia]|].
    split; [done|]. split; [by destruct (codeUnits (firstValue e))|]. apply Forall_app. split; [done|].
    destruct (Z.eqb_spec (secondValue e) 0); [done|]. apply codeUnits_range. lia.
Qed.

End Reading.

(** ** Properties *)

(** C9: Total correctness of [consumeHTMLEntity]. On any input of UTF-16 code
    units that is not empty, the parser of character references does not fault
    and its loops end. Its answer is the one of [referenceSpec]: a numeric
    reference decodes to the code units of its value, a named reference to those
    of the longest entity of the table at the start of the input, more input is
    asked for exactly when the input could still become a longer reference, and
    anything else is no reference. Without success nothing is decoded and the
    source is as it was; with success the characters of the reference, and only
    those, are consumed and the result has no NUL. *)
Theorem consumeHTMLEntity_correct `{Build} `{HTMLEntityTableLaws} a s :
  validAdditional a → l_chars s ≠ [] → 0 ≤ l_consumed s → Forall isUChar (l_chars s) →
  ∃ r n, consumeHTMLEntity a s = Some (r, l_drop n s) ∧ referenceSpec a (l_chars s) r n ∧
    referenceOk r n (length (l_chars s)).
Proof.
  intros Ha Hne Hcons Hall. destruct (consumeHTMLEntity_ok a s Ha Hne Hcons Hall) as (r & n & Hr & Hspec).
  exists r, n. split; [done|]. split; [done|]. by eapply referenceSpec_ok.
Qed.

Lemma consumeHTMLEntity_correct_witness : let _ := Build_Build false in
  let s := mkLSource [110; 111; 116; 105; 116; 59; 32] 1 true in
  ∃ r n, consumeHTMLEntity cQuote s = Some (r, l_drop n s) ∧ referenceSpec cQuote (l_chars s) r n ∧
    referenceOk r n (length (l_chars s)).
Proof.
  intros b s. apply (consumeHTMLEntity_correct cQuote s).
  - by right; left.
  - done.
  - done.
  - by repeat constructor.
Defined.

(** C20: The value of a numeric reference is exact. For any run of digits, however
    long, [&#]digits and [&#x]digits decode to the character HTML assigns to the
    number the digits denote (U+FFFD for 0, surrogates and numbers beyond
    U+10FFFF, the Windows-1252 character for 128 to 159, the code point itself
    otherwise), although the code accumulates the number in a wrapping 32-bit
    integer with a sticky overflow flag. A following semicolon is consumed, any
    other character is not. *)
Theorem numericReference_exact `{Build} `{HTMLEntityTableLaws} a s st opening digits next rest :
  validAdditional a → 0 ≤ l_consumed s → Forall isUChar (l_chars s) →
  st = RS_Decimal ∧ opening = [cHash] ∨ st = RS_Hex ∧ (opening = [cHash; cLowerX] ∨ opening = [cHash; cUpperX]) →
  digits ≠ [] → Forall (λ c, isDigitOf st c = true) digits → isDigitOf st next = false →
  l_chars s = opening ++ digits ++ next :: rest →
  consumeHTMLEntity a s = Some
    (mkReference true (codeUnits (numericCharacter (numeral st digits))) false,
     l_drop (length opening + length digits + if (next =? cSemicolon)%Z then 1 else 0)%nat s).
Proof.
  intros Ha Hcons Hall Hst Hne Hdig Hnext Hs.
  assert (Hrun : digitRun st (digits ++ next :: rest) = digits).
  { clear Hne Hs. induction Hdig as [|c digits Hc _ IH]; simpl; [by rewrite Hnext|]. by rewrite Hc, IH. }
  assert (Hspec : ∀ k, numericSpec st k (digits ++ next :: rest) =
    (mkReference true (codeUnits (numericCharacter (numeral st digits))) false,
     k + length digits + if (next =? cSemicolon)%Z then 1 else 0)%nat).
  { intros k. unfold numericSpec. by rewrite Hrun, drop_app_length. }
  assert (Hhash : hashSpec (l_chars s) = numericSpec st (length opening) (digits ++ next :: rest)).
  { rewrite Hs. destruct digits as [|d digits]; [done|]. apply Forall_cons in Hdig as [Hd _].
    destruct Hst as [[-> ->]|[-> [-> | ->]]]; simpl in Hd |- *; rewrite ?Hd; try done.
    unfold isASCIIDigit in Hd. by replace ((d =? cLowerX) || (d =? cUpperX)) with false by lia. }
  unfold consumeHTMLEntity. rewrite (hash_ok a s (tail (l_chars s))) by
    (done || (rewrite Hs; by destruct Hst as [[_ ->]|[_ [-> | ->]]])).
  by rewrite Hhash, Hspec.
Qed.

Lemma numericReference_exact_witness : let _ := Build_Build false in
  let s := mkLSource [35; 120; 49; 49; 49; 49; 49; 49; 49; 49; 49; 59] 1 true in
  consumeHTMLEntity 0 s = Some (mkReference true [replacementCharacter] false, l_drop 12 s).
Proof.
  intros b s.
  refine (numericReference_exact 0 s RS_Hex [35; 120] (repeat 49 9) 59 [] _ _ _ _ _ _ _ _).
  - by left.
  - done.
  - by repeat constructor.
  - by right; split; [|left].
  - done.
  - by repeat constructor.
  - done.
  - done.
Defined.

(** Round trip between code points and UTF-16. The code units appended for a
    code point are 16-bit, at most two, and give the code point back. *)
Theorem codeUnits_roundtrip c :
  0 < c ≤ 1114111 →
  Forall (λ u, 0 < u < 65536) (codeUnits c) ∧
  match codeUnits c with
  | [u] => u = c
  | [lead; trail] => 55296 ≤ lead < 56320 ∧ 56320 ≤ trail < 57344 ∧ codePoint lead trail = c
  | _ => False
  end.
Proof.
  intros Hc. split; [by apply codeUnits_range|]. unfold codeUnits, U_IS_BMP. destruct (Z.leb_spec c 65535); [done|].
  rewrite lead_value, trail_value by lia. unfold codePoint.
  pose proof (Z.div_mod c 1024 ltac:(lia)). pose proof (Z.mod_pos_bound c 1024 ltac:(lia)). lia.
Qed.

Lemma codeUnits_roundtrip_witness :
  Forall (λ u, 0 < u < 65536) (codeUnits 128512) ∧ codeUnits 128512 = [55357; 56832].
Proof. split; [apply (codeUnits_roundtrip 128512); lia|by vm_compute]. Defined.

(** [decodeNamedEntityToUCharArray] never faults; it writes the code units of
    the entity [name;] when the table has it and nothing otherwise, and never
    more than the four code units its callers make room for. *)
Theorem decodeNamedEntity_exact `{HTMLEntityTableLaws} name :
  Forall (λ c, 0 ≤ c) name →
  ∃ units, decodeNamedEntityToUCharArray name = Some units ∧ (length units ≤ 4)%nat ∧
    ((∃ i e, entityTable !! i = Some e ∧ entity e = name ++ [cSemicolon] ∧ units = decodedEntity e) ∨
     (units = [] ∧ ∀ i e, entityTable !! i = Some e → entity e ≠ name ++ [cSemicolon])).
Proof.
  intros Hall. destruct (decode_ok name Hall) as (units & Hu & Hcases). exists units. split; [done|].
  split; [|done]. destruct Hcases as [(i & e & _ & _ & ->)|[-> _]]; [|simpl; lia].
  unfold decodedEntity. rewrite length_app. pose proof (codeUnits_length (firstValue e)).
  pose proof (codeUnits_length (secondValue e)). case_match; simpl; lia.
Qed.

Lemma decodeNamedEntity_exact_witness :
  ∃ units, decodeNamedEntityToUCharArray [97; 109; 112] = Some units ∧ (length units ≤ 4)%nat ∧
    ((∃ i e, entityTable !! i = Some e ∧ entity e = [97; 109; 112] ++ [cSemicolon] ∧ units = decodedEntity e) ∨
     (units = [] ∧ ∀ i e, entityTable !! i = Some e → entity e ≠ [97; 109; 112] ++ [cSemicolon])).
Proof. apply (decodeNamedEntity_exact [97; 109; 112]). repeat constructor; lia. Defined.
