(* ===== verification/HTMLToken.v ===== *)
(** * HTML tokens

    Model of [Source/WebCore/html/parser/HTMLToken.h]: the token the tokenizer
    fills in place. The operations are the source's, with their assertions; the
    pointer [m_currentAttribute] is the index of an element of [m_attributes]
    ([None] is the null pointer) and [m_doctypeData] an owned optional record,
    so that a write through a null or dangling pointer is a fault.

    [tokenWf] is the invariant of a token: among others the accumulated
    [m_data8BitCheck] decides whether the characters of a text or comment token
    all fit in 8 bits, which is what lets the tree builder make an 8-bit string of
    them. [hasKind] says what an operation needs of the token (its type, a current
    attribute, doctype data). Each operation has a rule: in a well-formed token of
    the right kind it does not fault, and what it leaves behind. *)

From S2P Require Import Prelude ASCIICType.

Record DoctypeData := mkDoctypeData {
  hasPublicIdentifier : bool;
  hasSystemIdentifier : bool;
  publicIdentifier : list Z;
  systemIdentifier : list Z;
  forceQuirks : bool;
}.

Definition newDoctypeData : DoctypeData := mkDoctypeData false false [] [] false.

Inductive TokenType :=
  | Uninitialized | DOCTYPE | StartTag | EndTag | Comment | Character | EndOfFile.

#[export] Instance TokenType_eq_dec : EqDecision TokenType.
Proof. solve_decision. Defined.

Record Attribute := mkAttribute {
  attr_name : list Z;
  attr_value : list Z;
  startOffset : Z;
  endOffset : Z;
}.

#[export] Instance Attribute_eq_dec : EqDecision Attribute.
Proof. solve_decision. Defined.

Record HTMLToken := mkToken {
  m_type : TokenType;
  m_data : list Z;
  m_data8BitCheck : Z;
  m_selfClosing : bool;
  m_attributes : list Attribute;
  m_currentAttribute : option nat;
  m_doctypeData : option DoctypeData;
  m_attributeBaseOffset : Z;
}.

(** A new token. [m_selfClosing] and [m_currentAttribute] are uninitialised in
    the code and set before their first use; the model gives them a value. *)
Definition newToken : HTMLToken := mkToken Uninitialized [] 0 false [] None None 0.

(** Field updates. *)
Definition set_type (x : TokenType) (t : HTMLToken) : HTMLToken :=
  mkToken x (m_data t) (m_data8BitCheck t) (m_selfClosing t) (m_attributes t)
    (m_currentAttribute t) (m_doctypeData t) (m_attributeBaseOffset t).
Definition set_data (x : list Z) (t : HTMLToken) : HTMLToken :=
  mkToken (m_type t) x (m_data8BitCheck t) (m_selfClosing t) (m_attributes t)
    (m_currentAttribute t) (m_doctypeData t) (m_attributeBaseOffset t).
Definition set_check (x : Z) (t : HTMLToken) : HTMLToken :=
  mkToken (m_type t) (m_data t) x (m_selfClosing t) (m_attributes t)
    (m_currentAttribute t) (m_doctypeData t) (m_attributeBaseOffset t).
Definition set_selfClosing (x : bool) (t : HTMLToken) : HTMLToken :=
  mkToken (m_type t) (m_data t) (m_data8BitCheck t) x (m_attributes t)
    (m_currentAttribute t) (m_doctypeData t) (m_attributeBaseOffset t).
Definition set_attributes (x : list Attribute) (t : HTMLToken) : HTMLToken :=
  mkToken (m_type t) (m_data t) (m_data8BitCheck t) (m_selfClosing t) x
    (m_currentAttribute t) (m_doctypeData t) (m_attributeBaseOffset t).
Definition set_currentAttribute (x : option nat) (t : HTMLToken) : HTMLToken :=
  mkToken (m_type t) (m_data t) (m_data8BitCheck t) (m_selfClosing t) (m_attributes t)
    x (m_doctypeData t) (m_attributeBaseOffset t).
Definition set_doctypeData (x : option DoctypeData) (t : HTMLToken) : HTMLToken :=
  mkToken (m_type t) (m_data t) (m_data8BitCheck t) (m_selfClosing t) (m_attributes t)
    (m_currentAttribute t) x (m_attributeBaseOffset t).
Definition setAttributeBaseOffset (x : Z) (t : HTMLToken) : HTMLToken :=
  mkToken (m_type t) (m_data t) (m_data8BitCheck t) (m_selfClosing t) (m_attributes t)
    (m_currentAttribute t) (m_doctypeData t) x.

Definition typeIs (types : list TokenType) (t : HTMLToken) : bool :=
  bool_decide (m_type t ∈ types).

(** [m_data.append(character)] and [m_data8BitCheck |= character]. *)
Definition appendData (c : Z) (t : HTMLToken) : HTMLToken := set_data (m_data t ++ [c]) t.
Definition orCheck (c : Z) (t : HTMLToken) : HTMLToken := set_check (Z.lor (m_data8BitCheck t) c) t.

(** ** Operations

    [TokenM] is a computation on the token. *)

Abbreviation TokenM := (M HTMLToken).

Section Operations.
Context `{Build}.

Definition token_clear (t : HTMLToken) : HTMLToken :=
  set_check 0 (set_data [] (set_type Uninitialized t)).

Definition assertType (types : list TokenType) : TokenM unit :=
  b ← gets (typeIs types); ASSERT b.

Definition makeEndOfFile : TokenM unit :=
  assertType [Uninitialized];; modify (set_type EndOfFile).

Definition token_name : TokenM (list Z) :=
  assertType [StartTag; EndTag; DOCTYPE];; gets m_data.

Definition appendToName (character : Z) : TokenM unit :=
  assertType [StartTag; EndTag; DOCTYPE];;
  ASSERT (negb (character =? 0));;
  modify (λ t, orCheck character (appendData character t)).

(** [m_doctypeData->field = ...]: a fault when there is no doctype data. *)
Definition withDoctypeData (f : DoctypeData → DoctypeData) : TokenM unit :=
  modifyOpt (λ t, d ← m_doctypeData t; Some (set_doctypeData (Some (f d)) t)).

Definition setForceQuirks : TokenM unit :=
  assertType [DOCTYPE];;
  withDoctypeData (λ d, mkDoctypeData (hasPublicIdentifier d) (hasSystemIdentifier d)
    (publicIdentifier d) (systemIdentifier d) true).

Definition beginDOCTYPE : TokenM unit :=
  assertType [Uninitialized];;
  modify (λ t, set_doctypeData (Some newDoctypeData) (set_type DOCTYPE t)).

Definition beginDOCTYPE_with (character : Z) : TokenM unit :=
  ASSERT (negb (character =? 0));;
  beginDOCTYPE;;
  modify (λ t, orCheck character (appendData character t)).

Definition setPublicIdentifierToEmptyString : TokenM unit :=
  assertType [DOCTYPE];;
  withDoctypeData (λ d, mkDoctypeData true (hasSystemIdentifier d)
    [] (systemIdentifier d) (forceQuirks d)).

Definition setSystemIdentifierToEmptyString : TokenM unit :=
  assertType [DOCTYPE];;
  withDoctypeData (λ d, mkDoctypeData (hasPublicIdentifier d) true
    (publicIdentifier d) [] (forceQuirks d)).

Definition appendToPublicIdentifier (character : Z) : TokenM unit :=
  ASSERT (negb (character =? 0));;
  assertType [DOCTYPE];;
  b ← gets (λ t, default false (hasPublicIdentifier <$> m_doctypeData t));
  ASSERT b;;
  withDoctypeData (λ d, mkDoctypeData (hasPublicIdentifier d) (hasSystemIdentifier d)
    (publicIdentifier d ++ [character]) (systemIdentifier d) (forceQuirks d)).

Definition appendToSystemIdentifier (character : Z) : TokenM unit :=
  ASSERT (negb (character =? 0));;
  assertType [DOCTYPE];;
  b ← gets (λ t, default false (hasSystemIdentifier <$> m_doctypeData t));
  ASSERT b;;
  withDoctypeData (λ d, mkDoctypeData (hasPublicIdentifier d) (hasSystemIdentifier d)
    (publicIdentifier d) (systemIdentifier d ++ [character]) (forceQuirks d)).

Definition releaseDoctypeData : TokenM (option DoctypeData) :=
  d ← gets m_doctypeData; modify (set_doctypeData None);; mret d.

Definition setSelfClosing : TokenM unit :=
  assertType [StartTag; EndTag];; modify (set_selfClosing true).

(** The common part of the tag openings: in a debug build the current attribute
    is reset to null. *)
Definition beginTag (type : TokenType) (t : HTMLToken) : HTMLToken :=
  let t := set_attributes [] (set_selfClosing false (set_type type t)) in
  if ASSERT_DISABLED then t else set_currentAttribute None t.

Definition beginStartTag (character : Z) : TokenM unit :=
  ASSERT (negb (character =? 0));;
  assertType [Uninitialized];;
  modify (λ t, set_check character (appendData character (beginTag StartTag t))).

Definition beginEndTag (character : Z) : TokenM unit :=
  assertType [Uninitialized];;
  modify (λ t, appendData character (beginTag EndTag t)).

Definition beginEndTag_with (characters : list Z) : TokenM unit :=
  assertType [Uninitialized];;
  modify (λ t, let t := beginTag EndTag t in set_data (m_data t ++ characters) t).

Definition beginAttribute (offset : Z) : TokenM unit :=
  assertType [StartTag; EndTag];;
  ASSERT (negb (offset =? 0));;
  modify (λ t,
    let t := set_attributes (m_attributes t
               ++ [mkAttribute [] [] (u32 (offset - m_attributeBaseOffset t)) 0]) t in
    set_currentAttribute (Some (length (m_attributes t) - 1)%nat) t).

(** [m_currentAttribute->field = ...]: a fault when the pointer is null or does
    not point into the attribute vector. *)
Definition withCurrentAttribute (f : Attribute → Attribute) : TokenM unit :=
  modifyOpt (λ t,
    i ← m_currentAttribute t;
    a ← m_attributes t !! i;
    Some (set_attributes (<[i := f a]> (m_attributes t)) t)).

Definition assertCurrentAttribute : TokenM unit :=
  b ← gets (λ t, bool_decide (m_currentAttribute t ≠ None)); ASSERT b.

Definition endAttribute (offset : Z) : TokenM unit :=
  ASSERT (negb (offset =? 0));;
  assertCurrentAttribute;;
  base ← gets m_attributeBaseOffset;
  withCurrentAttribute (λ a, mkAttribute (attr_name a) (attr_value a) (startOffset a) (u32 (offset - base)));;
  if ASSERT_DISABLED then mret tt else modify (set_currentAttribute None).

Definition appendToAttributeName (character : Z) : TokenM unit :=
  ASSERT (negb (character =? 0));;
  assertType [StartTag; EndTag];;
  assertCurrentAttribute;;
  withCurrentAttribute (λ a, mkAttribute (attr_name a ++ [character]) (attr_value a) (startOffset a) (endOffset a)).

Definition appendToAttributeValue (character : Z) : TokenM unit :=
  ASSERT (negb (character =? 0));;
  assertType [StartTag; EndTag];;
  assertCurrentAttribute;;
  withCurrentAttribute (λ a, mkAttribute (attr_name a) (attr_value a ++ [character]) (startOffset a) (endOffset a)).

(** [appendToAttributeValue(unsigned, StringView)] and [eraseValueOfAttribute],
    used by the XSS auditor; an index out of range is a fault. *)
Definition appendToAttributeValueAt (i : nat) (value : list Z) : TokenM unit :=
  ASSERT (bool_decide (value ≠ []));;
  assertType [StartTag; EndTag];;
  modifyOpt (λ t, a ← m_attributes t !! i;
    Some (set_attributes (<[i := mkAttribute (attr_name a) (attr_value a ++ value) (startOffset a) (endOffset a)]>
      (m_attributes t)) t)).

Definition eraseValueOfAttribute (i : nat) : TokenM unit :=
  assertType [StartTag; EndTag];;
  modifyOpt (λ t, a ← m_attributes t !! i;
    Some (set_attributes (<[i := mkAttribute (attr_name a) [] (startOffset a) (endOffset a)]>
      (m_attributes t)) t)).

Definition charactersIsAll8BitData : TokenM bool :=
  assertType [Character];; gets (λ t, m_data8BitCheck t <=? 255).

Definition commentIsAll8BitData : TokenM bool :=
  assertType [Comment];; gets (λ t, m_data8BitCheck t <=? 255).

(** [appendToCharacter(LChar)]: an 8-bit character needs no check bits. *)
Definition appendToCharacter8 (character : Z) : TokenM unit :=
  assertType [Uninitialized; Character];;
  modify (λ t, appendData character (set_type Character t)).

Definition appendToCharacter16 (character : Z) : TokenM unit :=
  assertType [Uninitialized; Character];;
  modify (λ t, orCheck character (appendData character (set_type Character t))).

Definition appendToCharacterVector (characters : list Z) : TokenM unit :=
  assertType [Uninitialized; Character];;
  modify (λ t, let t := set_type Character t in set_data (m_data t ++ characters) t).

Definition beginComment : TokenM unit :=
  assertType [Uninitialized];; modify (set_type Comment).

Definition appendToComment (character : Z) : TokenM unit :=
  ASSERT (negb (character =? 0));;
  assertType [Comment];;
  modify (λ t, orCheck character (appendData character t)).

(** [nameMatches] and [findAttribute]. *)
Fixpoint nameMatchesFrom (attributeName name : list Z) : bool :=
  match attributeName, name with
  | [], [] => true
  | a :: attributeName', b :: name' => (a =? b) && nameMatchesFrom attributeName' name'
  | _, _ => false
  end.

Definition nameMatches (attribute : Attribute) (name : list Z) : bool :=
  (length (attr_name attribute) =? length name)%nat && nameMatchesFrom (attr_name attribute) name.

Definition findAttribute (attributes : list Attribute) (name : list Z) : option Attribute :=
  List.find (λ attribute, nameMatches attribute name) attributes.

End Operations.

(** ** The invariant of a token *)

(** [check] decides whether [data] fits in 8 bits. *)
Definition checks8Bit (check : Z) (data : list Z) : Prop :=
  0 ≤ check ∧ Forall (λ c, 0 ≤ c) data ∧ (check ≤ 255 ↔ Forall (λ c, c ≤ 255) data).

Definition tokenWf (t : HTMLToken) : Prop :=
  match m_type t with
  | Uninitialized => m_data t = [] ∧ m_data8BitCheck t = 0
  | DOCTYPE => m_doctypeData t ≠ None
  | StartTag | EndTag => m_data t ≠ []
  | Comment => checks8Bit (m_data8BitCheck t) (m_data t)
  | Character => m_data t ≠ [] ∧ checks8Bit (m_data8BitCheck t) (m_data t)
  | EndOfFile => m_data t = []
  end.

(** What the operations need of a token. *)
Inductive TokenKind := KAny | KText | KFresh | KTag | KAttribute | KComment | KDoctype | KPublic | KSystem.

Definition isTagToken (t : HTMLToken) : Prop := m_type t = StartTag ∨ m_type t = EndTag.

Definition hasKind (k : TokenKind) (t : HTMLToken) : Prop :=
  match k with
  | KAny => True
  | KText => m_type t = Uninitialized ∨ m_type t = Character
  | KFresh => m_type t = Uninitialized
  | KTag => isTagToken t
  | KAttribute => isTagToken t ∧ ∃ i, m_currentAttribute t = Some i ∧ (i < length (m_attributes t))%nat
  | KComment => m_type t = Comment
  | KDoctype => m_type t = DOCTYPE
  | KPublic => m_type t = DOCTYPE ∧ ∃ d, m_doctypeData t = Some d ∧ hasPublicIdentifier d = true
  | KSystem => m_type t = DOCTYPE ∧ ∃ d, m_doctypeData t = Some d ∧ hasSystemIdentifier d = true
  end.

Lemma hasKind_tag t : hasKind KAttribute t → hasKind KTag t.
Proof. by intros [? _]. Qed.

Lemma hasKind_text t : hasKind KFresh t → hasKind KText t.
Proof. by left. Qed.

Lemma hasKind_doctype k t : k = KPublic ∨ k = KSystem → hasKind k t → hasKind KDoctype t.
Proof. by intros [-> | ->] [? _]. Qed.

Lemma hasKind_any k t : hasKind k t → hasKind KAny t.
Proof. done. Qed.

(** ** The 8-bit check *)

Lemma checks8Bit_nil : checks8Bit 0 [].
Proof. split; [done|]. split; [done|]. split; [done|lia]. Qed.

Lemma checks8Bit_or check data c :
  0 ≤ c → checks8Bit check data → checks8Bit (Z.lor check c) (data ++ [c]).
Proof.
  intros Hc (Hn & Hall & Hiff). assert (Hl : 0 ≤ Z.lor check c) by by apply Z.lor_nonneg.
  split; [done|]. split; [apply Forall_app; by repeat constructor|].
  pose proof (lor_le_mask check c 8 ltac:(lia) Hn Hc) as Hm. change (2 ^ 8) with 256 in Hm.
  rewrite Forall_app, Forall_singleton, <-Hiff. lia.
Qed.

Lemma checks8Bit_bytes check data bytes :
  Forall (λ c, 0 ≤ c ≤ 255) bytes → checks8Bit check data → checks8Bit check (data ++ bytes).
Proof.
  intros Hb (Hn & Hall & Hiff). split; [done|]. split.
  - apply Forall_app. split; [done|]. eapply Forall_impl; [exact Hb|]. simpl. lia.
  - rewrite Forall_app, Hiff. split; [|by intros [? _]]. intros ?. split; [done|].
    eapply Forall_impl; [exact Hb|]. simpl. lia.
Qed.

(** ** Rules of the operations *)

Section Rules.
Context `{Build}.

(** [kinded k k' m]: from a well-formed token of kind [k], [m] does not fault and
    leaves a well-formed token of kind [k']. *)
Definition kinded (k k' : TokenKind) (m : TokenM unit) : Prop :=
  ∀ t, hasKind k t → tokenWf t → wp m (λ _ t', hasKind k' t' ∧ tokenWf t') t.

Lemma wp_assertType types (Q : unit → HTMLToken → Prop) t :
  m_type t ∈ types → Q tt t → wp (assertType types) Q t.
Proof.
  intros Ht HQ. unfold assertType. apply wp_bind, wp_gets, wp_ASSERT; [|done].
  unfold typeIs. by apply bool_decide_eq_true.
Qed.

Lemma wp_nonzero c (Q : unit → HTMLToken → Prop) t : c ≠ 0 → Q tt t → wp (ASSERT (negb (c =? 0))) Q t.
Proof. intros Hc HQ. apply wp_ASSERT; [|done]. by apply negb_true_iff, Z.eqb_neq. Qed.

Lemma kinded_beginStartTag c : c ≠ 0 → kinded KFresh KTag (beginStartTag c).
Proof.
  intros Hc t Hk Hwf. apply wp_bind, wp_nonzero; [done|]. apply wp_bind, wp_assertType; [by rewrite Hk; left|].
  apply wp_modify. unfold tokenWf, beginTag. destruct ASSERT_DISABLED; cbn; (split; [by left|by destruct (m_data t)]).
Qed.

Lemma kinded_beginEndTag c : kinded KFresh KTag (beginEndTag c).
Proof.
  intros t Hk Hwf. apply wp_bind, wp_assertType; [by rewrite Hk; left|].
  apply wp_modify. unfold tokenWf, beginTag. destruct ASSERT_DISABLED; cbn; (split; [by right|by destruct (m_data t)]).
Qed.

Lemma kinded_beginEndTag_with chars : chars ≠ [] → kinded KFresh KTag (beginEndTag_with chars).
Proof.
  intros Hc t Hk Hwf. apply wp_bind, wp_assertType; [by rewrite Hk; left|].
  apply wp_modify. unfold tokenWf, beginTag. destruct ASSERT_DISABLED; cbn; (split; [by right|by destruct (m_data t)]).
Qed.

Lemma tag_in t : isTagToken t → m_type t ∈ [StartTag; EndTag].
Proof. intros [-> | ->]; [by left|by right; left]. Qed.

Lemma tag_wf t : isTagToken t → tokenWf t ↔ m_data t ≠ [].
Proof. unfold tokenWf. by intros [-> | ->]. Qed.

Lemma kinded_appendToName_tag c : c ≠ 0 → kinded KTag KTag (appendToName c).
Proof.
  intros Hc t Hk Hwf. apply wp_bind, wp_assertType; [destruct Hk as [-> | ->]; set_solver|].
  apply wp_bind, wp_nonzero; [done|]. apply wp_modify. split; [by destruct Hk; [left|right]|].
  apply tag_wf; [by destruct Hk; [left|right]|]. cbn. by destruct (m_data t).
Qed.

Lemma kinded_appendToName_doctype c : c ≠ 0 → kinded KDoctype KDoctype (appendToName c).
Proof.
  intros Hc t Hk Hwf. simpl in Hk. apply wp_bind, wp_assertType; [rewrite Hk; set_solver|].
  apply wp_bind, wp_nonzero; [done|]. apply wp_modify. split; [done|].
  unfold tokenWf in *. cbn. by rewrite Hk in *.
Qed.

Lemma kinded_setSelfClosing : kinded KTag KTag setSelfClosing.
Proof.
  intros t Hk Hwf. apply wp_bind, wp_assertType; [by apply tag_in|]. apply wp_modify.
  split; [by destruct Hk; [left|right]|]. apply tag_wf; [by destruct Hk; [left|right]|]. by apply tag_wf in Hwf.
Qed.

Lemma kinded_beginAttribute offset : offset ≠ 0 → kinded KTag KAttribute (beginAttribute offset).
Proof.
  intros Ho t Hk Hwf. apply wp_bind, wp_assertType; [by apply tag_in|]. apply wp_bind, wp_nonzero; [done|].
  apply wp_modify. split.
  - split; [by destruct Hk; [left|right]|]. eexists. split; [done|]. cbn. rewrite length_app. simpl. lia.
  - apply tag_wf; [by destruct Hk; [left|right]|]. by apply tag_wf in Hwf.
Qed.

Lemma wp_assertCurrentAttribute (Q : unit → HTMLToken → Prop) t :
  hasKind KAttribute t → Q tt t → wp assertCurrentAttribute Q t.
Proof.
  intros [_ (i & Hi & _)] HQ. apply wp_bind, wp_gets, wp_ASSERT; [|done].
  apply bool_decide_eq_true. by rewrite Hi.
Qed.

Lemma wp_withCurrentAttribute f (Q : unit → HTMLToken → Prop) t :
  hasKind KAttribute t → tokenWf t → (∀ t', hasKind KAttribute t' → tokenWf t' → Q tt t') → wp (withCurrentAttribute f) Q t.
Proof.
  intros [Ht (i & Hi & Hlt)] Hwf HQ. destruct (lookup_lt_is_Some_2 _ _ Hlt) as [x Hx].
  unfold wp, withCurrentAttribute, modifyOpt. rewrite Hi. simpl. rewrite Hx. simpl. apply HQ.
  - split; [by destruct Ht; [left|right]|]. exists i. split; [done|]. cbn. by rewrite length_insert.
  - apply tag_wf; [by destruct Ht; [left|right]|]. by apply tag_wf in Hwf.
Qed.

Lemma kinded_appendToAttributeName c : c ≠ 0 → kinded KAttribute KAttribute (appendToAttributeName c).
Proof.
  intros Hc t Hk Hwf. apply wp_bind, wp_nonzero; [done|]. apply wp_bind, wp_assertType; [by apply tag_in, hasKind_tag|].
  apply wp_bind, wp_assertCurrentAttribute; [done|]. by apply wp_withCurrentAttribute.
Qed.

Lemma kinded_appendToAttributeValue c : c ≠ 0 → kinded KAttribute KAttribute (appendToAttributeValue c).
Proof.
  intros Hc t Hk Hwf. apply wp_bind, wp_nonzero; [done|]. apply wp_bind, wp_assertType; [by apply tag_in, hasKind_tag|].
  apply wp_bind, wp_assertCurrentAttribute; [done|]. by apply wp_withCurrentAttribute.
Qed.

Lemma kinded_endAttribute offset : offset ≠ 0 → kinded KAttribute KTag (endAttribute offset).
Proof.
  intros Ho t Hk Hwf. apply wp_bind, wp_nonzero; [done|]. apply wp_bind, wp_assertCurrentAttribute; [done|].
  apply wp_bind, wp_gets. apply wp_bind, wp_withCurrentAttribute; [done..|]. intros t' [Ht' _] Hwf'.
  destruct ASSERT_DISABLED; [by apply wp_ret|]. apply wp_modify. split; [by destruct Ht'; [left|right]|].
  apply tag_wf; [by destruct Ht'; [left|right]|]. by apply tag_wf in Hwf'.
Qed.

Lemma kinded_appendToCharacter8 c : 0 ≤ c ≤ 255 → kinded KText KText (appendToCharacter8 c).
Proof.
  intros Hc t Hk Hwf. apply wp_bind, wp_assertType; [destruct Hk as [-> | ->]; set_solver|]. apply wp_modify.
  split; [by right|]. unfold tokenWf in *. cbn. split; [by destruct (m_data t)|].
  destruct Hk as [Hk|Hk]; rewrite Hk in Hwf.
  - destruct Hwf as [-> ->]. apply checks8Bit_bytes; [by constructor|apply checks8Bit_nil].
  - apply checks8Bit_bytes; [by constructor|by destruct Hwf].
Qed.

Lemma kinded_appendToCharacter16 c : 0 ≤ c → kinded KText KText (appendToCharacter16 c).
Proof.
  intros Hc t Hk Hwf. apply wp_bind, wp_assertType; [destruct Hk as [-> | ->]; set_solver|]. apply wp_modify.
  split; [by right|]. unfold tokenWf in *. cbn. split; [by destruct (m_data t)|].
  destruct Hk as [Hk|Hk]; rewrite Hk in Hwf.
  - destruct Hwf as [-> ->]. apply checks8Bit_or; [done|apply checks8Bit_nil].
  - apply checks8Bit_or; [done|by destruct Hwf].
Qed.

(** The vector is appended to a token that already has characters. *)
Lemma appendToCharacterVector_ok chars t :
  Forall (λ c, 0 ≤ c ≤ 255) chars → m_type t = Character → tokenWf t →
  wp (appendToCharacterVector chars) (λ _ t', hasKind KText t' ∧ tokenWf t') t.
Proof.
  intros Hc Hk Hwf. apply wp_bind, wp_assertType; [rewrite Hk; set_solver|]. apply wp_modify.
  split; [by right|]. unfold tokenWf in *. cbn. rewrite Hk in Hwf. destruct Hwf as [Hne Hck].
  split; [by destruct (m_data t)|]. by apply checks8Bit_bytes.
Qed.

Lemma kinded_beginComment : kinded KFresh KComment beginComment.
Proof.
  intros t Hk Hwf. apply wp_bind, wp_assertType; [by rewrite Hk; left|]. apply wp_modify. split; [done|].
  unfold tokenWf in *. rewrite Hk in Hwf. destruct Hwf as [Hd Hc]. cbn. rewrite Hd, Hc. apply checks8Bit_nil.
Qed.

Lemma kinded_appendToComment c : 0 < c → kinded KComment KComment (appendToComment c).
Proof.
  intros Hc t Hk Hwf. simpl in Hk. apply wp_bind, wp_nonzero; [lia|]. apply wp_bind, wp_assertType; [by rewrite Hk; left|].
  apply wp_modify. split; [done|]. unfold tokenWf in *. cbn. rewrite Hk in *. apply checks8Bit_or; [lia|done].
Qed.

Lemma kinded_beginDOCTYPE : kinded KFresh KDoctype beginDOCTYPE.
Proof. intros t Hk Hwf. apply wp_bind, wp_assertType; [by rewrite Hk; left|]. by apply wp_modify. Qed.

Lemma kinded_beginDOCTYPE_with c : c ≠ 0 → kinded KFresh KDoctype (beginDOCTYPE_with c).
Proof.
  intros Hc t Hk Hwf. apply wp_bind, wp_nonzero; [done|]. apply wp_bind. eapply wp_mono; [by apply kinded_beginDOCTYPE|].
  intros _ t' [Hk' Hwf']. apply wp_modify. split; [done|]. unfold tokenWf in *. cbn. simpl in Hk'. by rewrite Hk' in *.
Qed.

(** An update of the doctype data keeps the token well-formed. *)
Lemma wp_withDoctypeData f (Q : unit → HTMLToken → Prop) t :
  m_type t = DOCTYPE → tokenWf t →
  (∀ t' d, m_type t' = DOCTYPE → tokenWf t' → m_doctypeData t = Some d → m_doctypeData t' = Some (f d) → Q tt t') →
  wp (withDoctypeData f) Q t.
Proof.
  intros Ht Hwf HQ. unfold tokenWf in Hwf. rewrite Ht in Hwf. destruct (m_doctypeData t) as [d|] eqn:Hd; [|done].
  unfold wp, withDoctypeData, modifyOpt. rewrite Hd. simpl. apply (HQ _ d); try done.
  unfold tokenWf. cbn. by rewrite Ht.
Qed.

Lemma kinded_setForceQuirks : kinded KDoctype KDoctype setForceQuirks.
Proof.
  intros t Hk Hwf. simpl in Hk. apply wp_bind, wp_assertType; [by rewrite Hk; left|].
  apply wp_withDoctypeData; [done..|]. intros t' d ? ? _ _. done.
Qed.

Lemma kinded_setPublicIdentifierToEmptyString : kinded KDoctype KPublic setPublicIdentifierToEmptyString.
Proof.
  intros t Hk Hwf. simpl in Hk. apply wp_bind, wp_assertType; [by rewrite Hk; left|].
  apply wp_withDoctypeData; [done..|]. intros t' d ? ? _ Hd. split; [|done]. split; [done|]. by eexists.
Qed.

Lemma kinded_setSystemIdentifierToEmptyString : kinded KDoctype KSystem setSystemIdentifierToEmptyString.
Proof.
  intros t Hk Hwf. simpl in Hk. apply wp_bind, wp_assertType; [by rewrite Hk; left|].
  apply wp_withDoctypeData; [done..|]. intros t' d ? ? _ Hd. split; [|done]. split; [done|]. by eexists.
Qed.

Lemma kinded_appendToPublicIdentifier c : c ≠ 0 → kinded KPublic KPublic (appendToPublicIdentifier c).
Proof.
  intros Hc t [Hk (d & Hd & Hp)] Hwf. apply wp_bind, wp_nonzero; [done|].
  apply wp_bind, wp_assertType; [by rewrite Hk; left|]. apply wp_bind, wp_gets. apply wp_bind, wp_ASSERT; [by rewrite Hd|].
  apply wp_withDoctypeData; [done..|]. intros t' d' ? ? Hd' Hd''. split; [|done]. split; [done|].
  eexists. split; [done|]. by assert (d' = d) as -> by congruence.
Qed.

Lemma kinded_appendToSystemIdentifier c : c ≠ 0 → kinded KSystem KSystem (appendToSystemIdentifier c).
Proof.
  intros Hc t [Hk (d & Hd & Hp)] Hwf. apply wp_bind, wp_nonzero; [done|].
  apply wp_bind, wp_assertType; [by rewrite Hk; left|]. apply wp_bind, wp_gets. apply wp_bind, wp_ASSERT; [by rewrite Hd|].
  apply wp_withDoctypeData; [done..|]. intros t' d' ? ? Hd' Hd''. split; [|done]. split; [done|].
  eexists. split; [done|]. by assert (d' = d) as -> by congruence.
Qed.

(** A cleared token is fresh. *)
Lemma clear_wf t : tokenWf (token_clear t) ∧ hasKind KFresh (token_clear t).
Proof. done. Qed.

End Rules.
