(* ===== verification/HTMLTokenizer.v ===== *)
(** * The HTML tokenizer

    Model of [Source/WebCore/html/parser/HTMLTokenizer.h] and [.cpp], with the
    control-flow macros of [Source/WebCore/xml/parser/MarkupTokenizerInlines.h].
    [processToken] is a [switch] whose cases are also labels; here each case is
    one definition, [st_<State>], that runs the code of the case and says how it
    leaves it: [Return b] or a jump [Goto state character]. [processToken] runs
    the cases until one returns.

    The tokenizer is defined for any [CharSource]; the theorems about it are in
    the files [Tokenizer*]. *)

From S2P Require Import Prelude ASCIICType CharSource InputStreamPreprocessor HTMLEntitySearch.
From S2P Require Import HTMLEntityParser HTMLToken.

(** [HTMLTokenizer::State]. *)
Inductive State :=
  | DataState
  | CharacterReferenceInDataState
  | RCDATAState
  | CharacterReferenceInRCDATAState
  | RAWTEXTState
  | ScriptDataState
  | PLAINTEXTState
  | TagOpenState
  | EndTagOpenState
  | TagNameState
  | RCDATALessThanSignState
  | RCDATAEndTagOpenState
  | RCDATAEndTagNameState
  | RAWTEXTLessThanSignState
  | RAWTEXTEndTagOpenState
  | RAWTEXTEndTagNameState
  | ScriptDataLessThanSignState
  | ScriptDataEndTagOpenState
  | ScriptDataEndTagNameState
  | ScriptDataEscapeStartState
  | ScriptDataEscapeStartDashState
  | ScriptDataEscapedState
  | ScriptDataEscapedDashState
  | ScriptDataEscapedDashDashState
  | ScriptDataEscapedLessThanSignState
  | ScriptDataEscapedEndTagOpenState
  | ScriptDataEscapedEndTagNameState
  | ScriptDataDoubleEscapeStartState
  | ScriptDataDoubleEscapedState
  | ScriptDataDoubleEscapedDashState
  | ScriptDataDoubleEscapedDashDashState
  | ScriptDataDoubleEscapedLessThanSignState
  | ScriptDataDoubleEscapeEndState
  | BeforeAttributeNameState
  | AttributeNameState
  | AfterAttributeNameState
  | BeforeAttributeValueState
  | AttributeValueDoubleQuotedState
  | AttributeValueSingleQuotedState
  | AttributeValueUnquotedState
  | CharacterReferenceInAttributeValueState
  | AfterAttributeValueQuotedState
  | SelfClosingStartTagState
  | BogusCommentState
  | ContinueBogusCommentState
  | MarkupDeclarationOpenState
  | CommentStartState
  | CommentStartDashState
  | CommentState
  | CommentEndDashState
  | CommentEndState
  | CommentEndBangState
  | DOCTYPEState
  | BeforeDOCTYPENameState
  | DOCTYPENameState
  | AfterDOCTYPENameState
  | AfterDOCTYPEPublicKeywordState
  | BeforeDOCTYPEPublicIdentifierState
  | DOCTYPEPublicIdentifierDoubleQuotedState
  | DOCTYPEPublicIdentifierSingleQuotedState
  | AfterDOCTYPEPublicIdentifierState
  | BetweenDOCTYPEPublicAndSystemIdentifiersState
  | AfterDOCTYPESystemKeywordState
  | BeforeDOCTYPESystemIdentifierState
  | DOCTYPESystemIdentifierDoubleQuotedState
  | DOCTYPESystemIdentifierSingleQuotedState
  | AfterDOCTYPESystemIdentifierState
  | BogusDOCTYPEState
  | CDATASectionState
  | CDATASectionRightSquareBracketState
  | CDATASectionDoubleRightSquareBracketState.

#[export] Instance State_eq_dec : EqDecision State.
Proof. solve_decision. Defined.

Record HTMLParserOptions := mkOptions {
  scriptEnabled : bool;
  pluginsEnabled : bool;
  usePreHTML5ParserQuirks : bool;
  maximumDOMTreeDepth : Z;
}.

Record HTMLTokenizer := mkTokenizer {
  m_state : State;
  m_forceNullCharacterReplacement : bool;
  m_shouldAllowCDATA : bool;
  m_token : HTMLToken;
  m_additionalAllowedCharacter : Z;
  m_preprocessor : InputStreamPreprocessor;
  m_appropriateEndTagName : list Z;
  m_temporaryBuffer : list Z;
  m_bufferedEndTagName : list Z;
  m_options : HTMLParserOptions;
}.

Definition newTokenizer (options : HTMLParserOptions) : HTMLTokenizer :=
  mkTokenizer DataState false false newToken 0 newPreprocessor [] [] [] options.

(** Field updates. *)
Definition set_state (x : State) (t : HTMLTokenizer) : HTMLTokenizer :=
  mkTokenizer x (m_forceNullCharacterReplacement t) (m_shouldAllowCDATA t) (m_token t)
    (m_additionalAllowedCharacter t) (m_preprocessor t) (m_appropriateEndTagName t)
    (m_temporaryBuffer t) (m_bufferedEndTagName t) (m_options t).
Definition set_forceNull (x : bool) (t : HTMLTokenizer) : HTMLTokenizer :=
  mkTokenizer (m_state t) x (m_shouldAllowCDATA t) (m_token t)
    (m_additionalAllowedCharacter t) (m_preprocessor t) (m_appropriateEndTagName t)
    (m_temporaryBuffer t) (m_bufferedEndTagName t) (m_options t).
Definition set_allowCDATA (x : bool) (t : HTMLTokenizer) : HTMLTokenizer :=
  mkTokenizer (m_state t) (m_forceNullCharacterReplacement t) x (m_token t)
    (m_additionalAllowedCharacter t) (m_preprocessor t) (m_appropriateEndTagName t)
    (m_temporaryBuffer t) (m_bufferedEndTagName t) (m_options t).
Definition set_token (x : HTMLToken) (t : HTMLTokenizer) : HTMLTokenizer :=
  mkTokenizer (m_state t) (m_forceNullCharacterReplacement t) (m_shouldAllowCDATA t) x
    (m_additionalAllowedCharacter t) (m_preprocessor t) (m_appropriateEndTagName t)
    (m_temporaryBuffer t) (m_bufferedEndTagName t) (m_options t).
Definition set_additional (x : Z) (t : HTMLTokenizer) : HTMLTokenizer :=
  mkTokenizer (m_state t) (m_forceNullCharacterReplacement t) (m_shouldAllowCDATA t) (m_token t)
    x (m_preprocessor t) (m_appropriateEndTagName t)
    (m_temporaryBuffer t) (m_bufferedEndTagName t) (m_options t).
Definition set_preprocessor (x : InputStreamPreprocessor) (t : HTMLTokenizer) : HTMLTokenizer :=
  mkTokenizer (m_state t) (m_forceNullCharacterReplacement t) (m_shouldAllowCDATA t) (m_token t)
    (m_additionalAllowedCharacter t) x (m_appropriateEndTagName t)
    (m_temporaryBuffer t) (m_bufferedEndTagName t) (m_options t).
Definition set_appropriate (x : list Z) (t : HTMLTokenizer) : HTMLTokenizer :=
  mkTokenizer (m_state t) (m_forceNullCharacterReplacement t) (m_shouldAllowCDATA t) (m_token t)
    (m_additionalAllowedCharacter t) (m_preprocessor t) x
    (m_temporaryBuffer t) (m_bufferedEndTagName t) (m_options t).
Definition set_temporary (x : list Z) (t : HTMLTokenizer) : HTMLTokenizer :=
  mkTokenizer (m_state t) (m_forceNullCharacterReplacement t) (m_shouldAllowCDATA t) (m_token t)
    (m_additionalAllowedCharacter t) (m_preprocessor t) (m_appropriateEndTagName t)
    x (m_bufferedEndTagName t) (m_options t).
Definition set_buffered (x : list Z) (t : HTMLTokenizer) : HTMLTokenizer :=
  mkTokenizer (m_state t) (m_forceNullCharacterReplacement t) (m_shouldAllowCDATA t) (m_token t)
    (m_additionalAllowedCharacter t) (m_preprocessor t) (m_appropriateEndTagName t)
    (m_temporaryBuffer t) x (m_options t).

(** How a case of the [switch] ends. *)
Inductive control :=
  | Return (b : bool)
  | Goto (s : State) (character : Z).

(** The literals of the look-aheads and of the temporary-buffer test. *)
Definition lit_dashes : list Z := [45; 45].
Definition lit_doctype : list Z := [100; 111; 99; 116; 121; 112; 101].
Definition lit_cdata : list Z := [91; 67; 68; 65; 84; 65; 91].
Definition lit_public : list Z := [112; 117; 98; 108; 105; 99].
Definition lit_system : list Z := [115; 121; 115; 116; 101; 109].
Definition lit_script : list Z := [115; 99; 114; 105; 112; 116].

(** [vectorEqualsString]: [string] is given without its terminating NUL. *)
Fixpoint vectorEqualsString (vector string : list Z) : bool :=
  match vector, string with
  | [], [] => true
  | [], _ :: _ => false
  | _ :: _, [] => false
  | a :: vector', b :: string' => (a =? b) && vectorEqualsString vector' string'
  end.

Definition inEndTagBufferingState (s : State) : bool :=
  match s with
  | RCDATAEndTagOpenState | RCDATAEndTagNameState
  | RAWTEXTEndTagOpenState | RAWTEXTEndTagNameState
  | ScriptDataEndTagOpenState | ScriptDataEndTagNameState
  | ScriptDataEscapedEndTagOpenState | ScriptDataEscapedEndTagNameState => true
  | _ => false
  end.

Definition isNullCharacterSkippingState (s : State) : bool :=
  bool_decide (s = DataState ∨ s = RCDATAState ∨ s = RAWTEXTState).

(** ** Queries and the calls the parser makes between tokens *)

Definition haveBufferedCharacterToken (t : HTMLTokenizer) : bool :=
  bool_decide (m_type (m_token t) = Character).

Definition numberOfBufferedCharacters (t : HTMLTokenizer) : Z :=
  match m_temporaryBuffer t with
  | [] => 0
  | _ :: _ => Z.of_nat (length (m_temporaryBuffer t)) + 2
  end.

Definition bufferedCharacters (t : HTMLTokenizer) : list Z :=
  [cLess; cSlash] ++ m_temporaryBuffer t.

Definition setTokenAttributeBaseOffset (offset : Z) (t : HTMLTokenizer) : HTMLTokenizer :=
  set_token (setAttributeBaseOffset offset (m_token t)) t.

Definition setForceNullCharacterReplacement (value : bool) (t : HTMLTokenizer) : HTMLTokenizer :=
  set_forceNull value t.
Definition setShouldAllowCDATA (value : bool) (t : HTMLTokenizer) : HTMLTokenizer := set_allowCDATA value t.
Definition isInDataState (t : HTMLTokenizer) : bool := bool_decide (m_state t = DataState).
Definition setDataState : HTMLTokenizer → HTMLTokenizer := set_state DataState.
Definition setPLAINTEXTState : HTMLTokenizer → HTMLTokenizer := set_state PLAINTEXTState.
Definition setRAWTEXTState : HTMLTokenizer → HTMLTokenizer := set_state RAWTEXTState.
Definition setRCDATAState : HTMLTokenizer → HTMLTokenizer := set_state RCDATAState.
Definition setScriptDataState : HTMLTokenizer → HTMLTokenizer := set_state ScriptDataState.
Definition neverSkipNullCharacters (t : HTMLTokenizer) : bool := m_forceNullCharacterReplacement t.

(** The element names [updateStateFor] compares with. *)
Inductive TagName :=
  | textareaTag | titleTag | plaintextTag | scriptTag | styleTag | iframeTag | xmpTag
  | noembedTag | noframesTag | noscriptTag | otherTag.

#[export] Instance TagName_eq_dec : EqDecision TagName.
Proof. solve_decision. Defined.

Definition updateStateFor (tagName : TagName) (t : HTMLTokenizer) : HTMLTokenizer :=
  if bool_decide (tagName = textareaTag) || bool_decide (tagName = titleTag) then set_state RCDATAState t
  else if bool_decide (tagName = plaintextTag) then set_state PLAINTEXTState t
  else if bool_decide (tagName = scriptTag) then set_state ScriptDataState t
  else if bool_decide (tagName = styleTag) || bool_decide (tagName = iframeTag) || bool_decide (tagName = xmpTag)
          || (bool_decide (tagName = noembedTag) && pluginsEnabled (m_options t))
          || bool_decide (tagName = noframesTag)
          || (bool_decide (tagName = noscriptTag) && scriptEnabled (m_options t))
       then set_state RAWTEXTState t
  else t.

(** [~TokenPtr]: the token handed out is cleared when the caller is done. *)
Definition releaseToken (t : HTMLTokenizer) : HTMLTokenizer := set_token (token_clear (m_token t)) t.

(** ** The tokenizer and its source *)

Record World (S : Type) := mkWorld {
  w_tok : HTMLTokenizer;
  w_src : S;
}.
Arguments mkWorld {S} _ _.
Arguments w_tok {S} _.
Arguments w_src {S} _.

Section Operations.
Context `{Build} `{HTMLEntityTable} {S : Type} `{CharSource S}.

Abbreviation TM := (M (World S)).

Definition getTok {A} (f : HTMLTokenizer → A) : TM A := gets (λ w, f (w_tok w)).
Definition getSrc {A} (f : S → A) : TM A := gets (λ w, f (w_src w)).
Definition modTok (f : HTMLTokenizer → HTMLTokenizer) : TM unit := modify (λ w, mkWorld (f (w_tok w)) (w_src w)).
Definition srcOp (f : S → option S) : TM unit := modifyOpt (λ w, s ← f (w_src w); Some (mkWorld (w_tok w) s)).

(** Running a computation on the token, on the preprocessor and the source, or
    on the source alone. *)
Definition onToken {A} (m : M HTMLToken A) : TM A := λ w,
  match m (m_token (w_tok w)) with
  | Some (a, t) => Some (a, mkWorld (set_token t (w_tok w)) (w_src w))
  | None => None
  end.
Definition onPre {A} (m : M (InputStreamPreprocessor * S) A) : TM A := λ w,
  match m (m_preprocessor (w_tok w), w_src w) with
  | Some (a, (p, s)) => Some (a, mkWorld (set_preprocessor p (w_tok w)) s)
  | None => None
  end.
Definition onSrc {A} (m : M S A) : TM A := λ w,
  match m (w_src w) with
  | Some (a, s) => Some (a, mkWorld (w_tok w) s)
  | None => None
  end.

(** [parseError] has an empty body; where the code calls it under a condition of
    its own and goes on either way, the model leaves that statement out. *)
Definition parseError : TM unit := mret tt.

(** ** The macros *)

Definition setStateAndReturn (s : State) (b : bool) : TM control := modTok (set_state s);; mret (Return b).

Definition RETURN_IN_CURRENT_STATE (currentState : State) (expression : HTMLTokenizer → bool) : TM control :=
  modTok (set_state currentState);;
  b ← getTok expression;
  mret (Return b).

Definition RECONSUME_IN (newState : State) (character : Z) : TM control := mret (Goto newState character).

(** What [ADVANCE_TO], [ADVANCE_PAST_NON_NEWLINE_TO] and [SWITCH_TO] have in
    common: continue in the new state when there is a next character, return
    otherwise. *)
Definition continueIn (newState : State) (more : bool → bool → M (InputStreamPreprocessor * S) bool) : TM control :=
  never ← getTok neverSkipNullCharacters;
  ok ← onPre (more never (isNullCharacterSkippingState newState));
  if (ok : bool) then
    character ← getTok (λ t, m_nextInputCharacter (m_preprocessor t));
    mret (Goto newState character)
  else
    modTok (set_state newState);;
    b ← getTok haveBufferedCharacterToken;
    mret (Return b).

Definition ADVANCE_TO (newState : State) : TM control := continueIn newState pre_advance.
Definition ADVANCE_PAST_NON_NEWLINE_TO (newState : State) : TM control := continueIn newState pre_advancePastNonNewline.
Definition SWITCH_TO (newState : State) : TM control := continueIn newState peek.

(** ** The helpers *)

(** Every call is guarded by [isASCIIAlpha(character)], which is what it asserts. *)
Definition convertASCIIAlphaToLower (character : Z) : Z := u8 (toASCIILowerUnchecked character).

Definition bufferASCIICharacter (character : Z) : TM unit :=
  ASSERT (negb (character =? kEndOfFileMarker));;
  ASSERT (isASCII character);;
  onToken (appendToCharacter8 (u8 character)).

Definition bufferCharacter (character : Z) : TM unit :=
  ASSERT (negb (character =? kEndOfFileMarker));;
  onToken (appendToCharacter16 character).

Definition saveEndTagNameIfNeeded : TM unit :=
  type ← getTok (λ t, m_type (m_token t));
  ASSERT (bool_decide (type ≠ Uninitialized));;
  if bool_decide (type = StartTag) then
    name ← onToken token_name;
    modTok (set_appropriate name)
  else mret tt.

Definition emitAndResumeInDataState : TM control :=
  saveEndTagNameIfNeeded;;
  modTok (set_state DataState);;
  srcOp src_advancePastNonNewline;;
  mret (Return true).

Definition emitAndReconsumeInDataState : TM control :=
  saveEndTagNameIfNeeded;;
  modTok (set_state DataState);;
  mret (Return true).

Definition emitEndOfFile : TM control :=
  modTok (set_state DataState);;
  have ← getTok haveBufferedCharacterToken;
  if (have : bool) then mret (Return true)
  else
    srcOp src_advance;;
    onToken (modify token_clear);;
    onToken makeEndOfFile;;
    mret (Return true).

(** The loop over the decoded characters. *)
Fixpoint forEach (f : Z → TM unit) (l : list Z) : TM unit :=
  match l with
  | [] => mret tt
  | c :: l => f c;; forEach f l
  end.

Definition processEntity : TM bool :=
  r ← onSrc (consumeHTMLEntity 0);
  if ref_notEnough r then mret false
  else if negb (ref_success r) then
    ASSERT (bool_decide (ref_decoded r = []));;
    bufferASCIICharacter cAmpersand;;
    mret true
  else
    forEach bufferCharacter (ref_decoded r);;
    mret true.

Definition flushBufferedEndTag : TM unit :=
  name ← getTok m_bufferedEndTagName;
  onToken (beginEndTag_with name);;
  modTok (set_buffered []);;
  modTok (set_appropriate []);;
  modTok (set_temporary []).

Definition appendToTemporaryBuffer (character : Z) : TM unit :=
  ASSERT (isASCII character);;
  modTok (λ t, set_temporary (m_temporaryBuffer t ++ [u8 character]) t).

Definition appendToPossibleEndTag (character : Z) : TM unit :=
  ASSERT (isASCII character);;
  modTok (λ t, set_buffered (m_bufferedEndTagName t ++ [u8 character]) t).

Definition temporaryBufferIs (expectedString : list Z) (t : HTMLTokenizer) : bool :=
  vectorEqualsString (m_temporaryBuffer t) expectedString.

(** The comparison loop of [isAppropriateEndTag]; the sizes are equal. *)
Fixpoint sameCharacters (a b : list Z) : bool :=
  match a, b with
  | x :: a', y :: b' => (x =? y) && sameCharacters a' b'
  | _, _ => true
  end.

Definition isAppropriateEndTag (t : HTMLTokenizer) : bool :=
  if negb (length (m_bufferedEndTagName t) =? length (m_appropriateEndTagName t))%nat then false
  else sameCharacters (m_bufferedEndTagName t) (m_appropriateEndTagName t).

Definition commitToPartialEndTag (character : Z) (state : State) : TM bool :=
  current ← getSrc src_currentCharacter;
  ASSERT (current =? character);;
  appendToTemporaryBuffer character;;
  srcOp src_advance;;
  have ← getTok haveBufferedCharacterToken;
  if (have : bool) then modTok (set_state state);; mret true
  else flushBufferedEndTag;; mret false.

Definition commitToCompleteEndTag : TM control :=
  current ← getSrc src_currentCharacter;
  ASSERT (current =? cGreater);;
  appendToTemporaryBuffer cGreater;;
  srcOp src_advancePastNonNewline;;
  modTok (set_state DataState);;
  have ← getTok haveBufferedCharacterToken;
  if (have : bool) then mret (Return true)
  else flushBufferedEndTag;; mret (Return true).

(** [m_options.usePreHTML5ParserQuirks && character == '<']. *)
Definition quirkyLess (character : Z) (t : HTMLTokenizer) : bool :=
  usePreHTML5ParserQuirks (m_options t) && (character =? cLess).

(** [source.numberOfCharactersConsumed()]. *)
Definition consumed : TM Z := getSrc src_numberOfCharactersConsumed.

(** [source.advancePast(literal)]. *)
Definition lookFor (literal : list Z) (ignoringCase : bool) : TM AdvancePastResult :=
  onSrc (src_advancePast literal ignoringCase).

(** ** The cases of [processToken] *)

Definition st_DataState (character : Z) : TM control :=
  if character =? cAmpersand then ADVANCE_PAST_NON_NEWLINE_TO CharacterReferenceInDataState
  else if character =? cLess then
    have ← getTok haveBufferedCharacterToken;
    if (have : bool) then RETURN_IN_CURRENT_STATE DataState (λ _, true)
    else ADVANCE_PAST_NON_NEWLINE_TO TagOpenState
  else if character =? kEndOfFileMarker then emitEndOfFile
  else
    bufferCharacter character;;
    ADVANCE_TO DataState.

Definition st_CharacterReferenceInDataState (character : Z) : TM control :=
  done ← processEntity;
  if negb done then RETURN_IN_CURRENT_STATE CharacterReferenceInDataState haveBufferedCharacterToken
  else SWITCH_TO DataState.

Definition st_RCDATAState (character : Z) : TM control :=
  if character =? cAmpersand then ADVANCE_PAST_NON_NEWLINE_TO CharacterReferenceInRCDATAState
  else if character =? cLess then ADVANCE_PAST_NON_NEWLINE_TO RCDATALessThanSignState
  else if character =? kEndOfFileMarker then RECONSUME_IN DataState character
  else
    bufferCharacter character;;
    ADVANCE_TO RCDATAState.

Definition st_CharacterReferenceInRCDATAState (character : Z) : TM control :=
  done ← processEntity;
  if negb done then RETURN_IN_CURRENT_STATE CharacterReferenceInRCDATAState haveBufferedCharacterToken
  else SWITCH_TO RCDATAState.

Definition st_RAWTEXTState (character : Z) : TM control :=
  if character =? cLess then ADVANCE_PAST_NON_NEWLINE_TO RAWTEXTLessThanSignState
  else if character =? kEndOfFileMarker then RECONSUME_IN DataState character
  else
    bufferCharacter character;;
    ADVANCE_TO RAWTEXTState.

Definition st_ScriptDataState (character : Z) : TM control :=
  if character =? cLess then ADVANCE_PAST_NON_NEWLINE_TO ScriptDataLessThanSignState
  else if character =? kEndOfFileMarker then RECONSUME_IN DataState character
  else
    bufferCharacter character;;
    ADVANCE_TO ScriptDataState.

Definition st_PLAINTEXTState (character : Z) : TM control :=
  if character =? kEndOfFileMarker then RECONSUME_IN DataState character
  else
    bufferCharacter character;;
    ADVANCE_TO PLAINTEXTState.

Definition st_TagOpenState (character : Z) : TM control :=
  if character =? cExclamation then ADVANCE_PAST_NON_NEWLINE_TO MarkupDeclarationOpenState
  else if character =? cSlash then ADVANCE_PAST_NON_NEWLINE_TO EndTagOpenState
  else if isASCIIAlpha character then
    onToken (beginStartTag (convertASCIIAlphaToLower character));;
    ADVANCE_PAST_NON_NEWLINE_TO TagNameState
  else if character =? cQuestion then
    parseError;;
    RECONSUME_IN BogusCommentState character
  else
    parseError;;
    bufferASCIICharacter cLess;;
    RECONSUME_IN DataState character.

Definition st_EndTagOpenState (character : Z) : TM control :=
  if isASCIIAlpha character then
    onToken (beginEndTag (convertASCIIAlphaToLower character));;
    modTok (set_appropriate []);;
    ADVANCE_PAST_NON_NEWLINE_TO TagNameState
  else if character =? cGreater then
    parseError;;
    ADVANCE_PAST_NON_NEWLINE_TO DataState
  else if character =? kEndOfFileMarker then
    parseError;;
    bufferASCIICharacter cLess;;
    bufferASCIICharacter cSlash;;
    RECONSUME_IN DataState character
  else
    parseError;;
    RECONSUME_IN BogusCommentState character.

Definition st_TagNameState (character : Z) : TM control :=
  quirk ← getTok (quirkyLess character);
  if isTokenizerWhitespace character then ADVANCE_TO BeforeAttributeNameState
  else if character =? cSlash then ADVANCE_PAST_NON_NEWLINE_TO SelfClosingStartTagState
  else if character =? cGreater then emitAndResumeInDataState
  else if (quirk : bool) then emitAndReconsumeInDataState
  else if character =? kEndOfFileMarker then
    parseError;;
    RECONSUME_IN DataState character
  else
    onToken (appendToName (toASCIILower character));;
    ADVANCE_PAST_NON_NEWLINE_TO TagNameState.

(** [ASSERT(m_bufferedEndTagName.isEmpty())]. *)
Definition assertNoBufferedEndTag : TM unit :=
  b ← getTok (λ t, bool_decide (m_bufferedEndTagName t = [])); ASSERT b.

Definition st_RCDATALessThanSignState (character : Z) : TM control :=
  if character =? cSlash then
    modTok (set_temporary []);;
    assertNoBufferedEndTag;;
    ADVANCE_PAST_NON_NEWLINE_TO RCDATAEndTagOpenState
  else
    bufferASCIICharacter cLess;;
    RECONSUME_IN RCDATAState character.

Definition st_RCDATAEndTagOpenState (character : Z) : TM control :=
  if isASCIIAlpha character then
    appendToTemporaryBuffer character;;
    appendToPossibleEndTag (convertASCIIAlphaToLower character);;
    ADVANCE_PAST_NON_NEWLINE_TO RCDATAEndTagNameState
  else
    bufferASCIICharacter cLess;;
    bufferASCIICharacter cSlash;;
    RECONSUME_IN RCDATAState character.

(** The body the four end-tag-name cases share: they differ in the state they
    are in and the state they fall back to. *)
Definition endTagNameCase (current fallback : State) (character : Z) : TM control :=
  if isASCIIAlpha character then
    appendToTemporaryBuffer character;;
    appendToPossibleEndTag (convertASCIIAlphaToLower character);;
    ADVANCE_PAST_NON_NEWLINE_TO current
  else
    appropriate ← getTok isAppropriateEndTag;
    let notAnEndTag :=
      bufferASCIICharacter cLess;;
      bufferASCIICharacter cSlash;;
      buffer ← getTok m_temporaryBuffer;
      onToken (appendToCharacterVector buffer);;
      modTok (set_buffered []);;
      modTok (set_temporary []);;
      RECONSUME_IN fallback character in
    if isTokenizerWhitespace character then
      if (appropriate : bool) then
        emit ← commitToPartialEndTag character BeforeAttributeNameState;
        if (emit : bool) then mret (Return true) else SWITCH_TO BeforeAttributeNameState
      else notAnEndTag
    else if character =? cSlash then
      if (appropriate : bool) then
        emit ← commitToPartialEndTag cSlash SelfClosingStartTagState;
        if (emit : bool) then mret (Return true) else SWITCH_TO SelfClosingStartTagState
      else notAnEndTag
    else if character =? cGreater then
      if (appropriate : bool) then commitToCompleteEndTag else notAnEndTag
    else notAnEndTag.

Definition st_RCDATAEndTagNameState (character : Z) : TM control :=
  endTagNameCase RCDATAEndTagNameState RCDATAState character.

Definition st_RAWTEXTLessThanSignState (character : Z) : TM control :=
  if character =? cSlash then
    modTok (set_temporary []);;
    assertNoBufferedEndTag;;
    ADVANCE_PAST_NON_NEWLINE_TO RAWTEXTEndTagOpenState
  else
    bufferASCIICharacter cLess;;
    RECONSUME_IN RAWTEXTState character.

Definition st_RAWTEXTEndTagOpenState (character : Z) : TM control :=
  if isASCIIAlpha character then
    appendToTemporaryBuffer character;;
    appendToPossibleEndTag (convertASCIIAlphaToLower character);;
    ADVANCE_PAST_NON_NEWLINE_TO RAWTEXTEndTagNameState
  else
    bufferASCIICharacter cLess;;
    bufferASCIICharacter cSlash;;
    RECONSUME_IN RAWTEXTState character.

Definition st_RAWTEXTEndTagNameState (character : Z) : TM control :=
  endTagNameCase RAWTEXTEndTagNameState RAWTEXTState character.

Definition st_ScriptDataLessThanSignState (character : Z) : TM control :=
  if character =? cSlash then
    modTok (set_temporary []);;
    assertNoBufferedEndTag;;
    ADVANCE_PAST_NON_NEWLINE_TO ScriptDataEndTagOpenState
  else if character =? cExclamation then
    bufferASCIICharacter cLess;;
    bufferASCIICharacter cExclamation;;
    ADVANCE_PAST_NON_NEWLINE_TO ScriptDataEscapeStartState
  else
    bufferASCIICharacter cLess;;
    RECONSUME_IN ScriptDataState character.

Definition st_ScriptDataEndTagOpenState (character : Z) : TM control :=
  if isASCIIAlpha character then
    appendToTemporaryBuffer character;;
    appendToPossibleEndTag (convertASCIIAlphaToLower character);;
    ADVANCE_PAST_NON_NEWLINE_TO ScriptDataEndTagNameState
  else
    bufferASCIICharacter cLess;;
    bufferASCIICharacter cSlash;;
    RECONSUME_IN ScriptDataState character.

Definition st_ScriptDataEndTagNameState (character : Z) : TM control :=
  endTagNameCase ScriptDataEndTagNameState ScriptDataState character.

Definition st_ScriptDataEscapeStartState (character : Z) : TM control :=
  if character =? cHyphen then
    bufferASCIICharacter cHyphen;;
    ADVANCE_PAST_NON_NEWLINE_TO ScriptDataEscapeStartDashState
  else RECONSUME_IN ScriptDataState character.

Definition st_ScriptDataEscapeStartDashState (character : Z) : TM control :=
  if character =? cHyphen then
    bufferASCIICharacter cHyphen;;
    ADVANCE_PAST_NON_NEWLINE_TO ScriptDataEscapedDashDashState
  else RECONSUME_IN ScriptDataState character.

Definition st_ScriptDataEscapedState (character : Z) : TM control :=
  if character =? cHyphen then
    bufferASCIICharacter cHyphen;;
    ADVANCE_PAST_NON_NEWLINE_TO ScriptDataEscapedDashState
  else if character =? cLess then ADVANCE_PAST_NON_NEWLINE_TO ScriptDataEscapedLessThanSignState
  else if character =? kEndOfFileMarker then
    parseError;;
    RECONSUME_IN DataState character
  else
    bufferCharacter character;;
    ADVANCE_TO ScriptDataEscapedState.

Definition st_ScriptDataEscapedDashState (character : Z) : TM control :=
  if character =? cHyphen then
    bufferASCIICharacter cHyphen;;
    ADVANCE_PAST_NON_NEWLINE_TO ScriptDataEscapedDashDashState
  else if character =? cLess then ADVANCE_PAST_NON_NEWLINE_TO ScriptDataEscapedLessThanSignState
  else if character =? kEndOfFileMarker then
    parseError;;
    RECONSUME_IN DataState character
  else
    bufferCharacter character;;
    ADVANCE_TO ScriptDataEscapedState.

Definition st_ScriptDataEscapedDashDashState (character : Z) : TM control :=
  if character =? cHyphen then
    bufferASCIICharacter cHyphen;;
    ADVANCE_PAST_NON_NEWLINE_TO ScriptDataEscapedDashDashState
  else if character =? cLess then ADVANCE_PAST_NON_NEWLINE_TO ScriptDataEscapedLessThanSignState
  else if character =? cGreater then
    bufferASCIICharacter cGreater;;
    ADVANCE_PAST_NON_NEWLINE_TO ScriptDataState
  else if character =? kEndOfFileMarker then
    parseError;;
    RECONSUME_IN DataState character
  else
    bufferCharacter character;;
    ADVANCE_TO ScriptDataEscapedState.

Definition st_ScriptDataEscapedLessThanSignState (character : Z) : TM control :=
  if character =? cSlash then
    modTok (set_temporary []);;
    assertNoBufferedEndTag;;
    ADVANCE_PAST_NON_NEWLINE_TO ScriptDataEscapedEndTagOpenState
  else if isASCIIAlpha character then
    bufferASCIICharacter cLess;;
    bufferASCIICharacter character;;
    modTok (set_temporary []);;
    appendToTemporaryBuffer (convertASCIIAlphaToLower character);;
    ADVANCE_PAST_NON_NEWLINE_TO ScriptDataDoubleEscapeStartState
  else
    bufferASCIICharacter cLess;;
    RECONSUME_IN ScriptDataEscapedState character.

Definition st_ScriptDataEscapedEndTagOpenState (character : Z) : TM control :=
  if isASCIIAlpha character then
    appendToTemporaryBuffer character;;
    appendToPossibleEndTag (convertASCIIAlphaToLower character);;
    ADVANCE_PAST_NON_NEWLINE_TO ScriptDataEscapedEndTagNameState
  else
    bufferASCIICharacter cLess;;
    bufferASCIICharacter cSlash;;
    RECONSUME_IN ScriptDataEscapedState character.

Definition st_ScriptDataEscapedEndTagNameState (character : Z) : TM control :=
  endTagNameCase ScriptDataEscapedEndTagNameState ScriptDataEscapedState character.

Definition st_ScriptDataDoubleEscapeStartState (character : Z) : TM control :=
  if isTokenizerWhitespace character || (character =? cSlash) || (character =? cGreater) then
    bufferASCIICharacter character;;
    script ← getTok (temporaryBufferIs lit_script);
    if (script : bool) then ADVANCE_TO ScriptDataDoubleEscapedState
    else ADVANCE_TO ScriptDataEscapedState
  else if isASCIIAlpha character then
    bufferASCIICharacter character;;
    appendToTemporaryBuffer (convertASCIIAlphaToLower character);;
    ADVANCE_PAST_NON_NEWLINE_TO ScriptDataDoubleEscapeStartState
  else RECONSUME_IN ScriptDataEscapedState character.

Definition st_ScriptDataDoubleEscapedState (character : Z) : TM control :=
  if character =? cHyphen then
    bufferASCIICharacter cHyphen;;
    ADVANCE_PAST_NON_NEWLINE_TO ScriptDataDoubleEscapedDashState
  else if character =? cLess then
    bufferASCIICharacter cLess;;
    ADVANCE_PAST_NON_NEWLINE_TO ScriptDataDoubleEscapedLessThanSignState
  else if character =? kEndOfFileMarker then
    parseError;;
    RECONSUME_IN DataState character
  else
    bufferCharacter character;;
    ADVANCE_TO ScriptDataDoubleEscapedState.

Definition st_ScriptDataDoubleEscapedDashState (character : Z) : TM control :=
  if character =? cHyphen then
    bufferASCIICharacter cHyphen;;
    ADVANCE_PAST_NON_NEWLINE_TO ScriptDataDoubleEscapedDashDashState
  else if character =? cLess then
    bufferASCIICharacter cLess;;
    ADVANCE_PAST_NON_NEWLINE_TO ScriptDataDoubleEscapedLessThanSignState
  else if character =? kEndOfFileMarker then
    parseError;;
    RECONSUME_IN DataState character
  else
    bufferCharacter character;;
    ADVANCE_TO ScriptDataDoubleEscapedState.

Definition st_ScriptDataDoubleEscapedDashDashState (character : Z) : TM control :=
  if character =? cHyphen then
    bufferASCIICharacter cHyphen;;
    ADVANCE_PAST_NON_NEWLINE_TO ScriptDataDoubleEscapedDashDashState
  else if character =? cLess then
    bufferASCIICharacter cLess;;
    ADVANCE_PAST_NON_NEWLINE_TO ScriptDataDoubleEscapedLessThanSignState
  else if character =? cGreater then
    bufferASCIICharacter cGreater;;
    ADVANCE_PAST_NON_NEWLINE_TO ScriptDataState
  else if character =? kEndOfFileMarker then
    parseError;;
    RECONSUME_IN DataState character
  else
    bufferCharacter character;;
    ADVANCE_TO ScriptDataDoubleEscapedState.

Definition st_ScriptDataDoubleEscapedLessThanSignState (character : Z) : TM control :=
  if character =? cSlash then
    bufferASCIICharacter cSlash;;
    modTok (set_temporary []);;
    ADVANCE_PAST_NON_NEWLINE_TO ScriptDataDoubleEscapeEndState
  else RECONSUME_IN ScriptDataDoubleEscapedState character.

Definition st_ScriptDataDoubleEscapeEndState (character : Z) : TM control :=
  if isTokenizerWhitespace character || (character =? cSlash) || (character =? cGreater) then
    bufferASCIICharacter character;;
    script ← getTok (temporaryBufferIs lit_script);
    if (script : bool) then ADVANCE_TO ScriptDataEscapedState
    else ADVANCE_TO ScriptDataDoubleEscapedState
  else if isASCIIAlpha character then
    bufferASCIICharacter character;;
    appendToTemporaryBuffer (convertASCIIAlphaToLower character);;
    ADVANCE_PAST_NON_NEWLINE_TO ScriptDataDoubleEscapeEndState
  else RECONSUME_IN ScriptDataDoubleEscapedState character.

Definition st_BeforeAttributeNameState (character : Z) : TM control :=
  quirk ← getTok (quirkyLess character);
  if isTokenizerWhitespace character then ADVANCE_TO BeforeAttributeNameState
  else if character =? cSlash then ADVANCE_PAST_NON_NEWLINE_TO SelfClosingStartTagState
  else if character =? cGreater then emitAndResumeInDataState
  else if (quirk : bool) then emitAndReconsumeInDataState
  else if character =? kEndOfFileMarker then
    parseError;;
    RECONSUME_IN DataState character
  else
    offset ← consumed;
    onToken (beginAttribute offset);;
    onToken (appendToAttributeName (toASCIILower character));;
    ADVANCE_PAST_NON_NEWLINE_TO AttributeNameState.

Definition st_AttributeNameState (character : Z) : TM control :=
  quirk ← getTok (quirkyLess character);
  if isTokenizerWhitespace character then ADVANCE_TO AfterAttributeNameState
  else if character =? cSlash then ADVANCE_PAST_NON_NEWLINE_TO SelfClosingStartTagState
  else if character =? cEqual then ADVANCE_PAST_NON_NEWLINE_TO BeforeAttributeValueState
  else if character =? cGreater then emitAndResumeInDataState
  else if (quirk : bool) then emitAndReconsumeInDataState
  else if character =? kEndOfFileMarker then
    parseError;;
    RECONSUME_IN DataState character
  else
    onToken (appendToAttributeName (toASCIILower character));;
    ADVANCE_PAST_NON_NEWLINE_TO AttributeNameState.

Definition st_AfterAttributeNameState (character : Z) : TM control :=
  quirk ← getTok (quirkyLess character);
  if isTokenizerWhitespace character then ADVANCE_TO AfterAttributeNameState
  else if character =? cSlash then ADVANCE_PAST_NON_NEWLINE_TO SelfClosingStartTagState
  else if character =? cEqual then ADVANCE_PAST_NON_NEWLINE_TO BeforeAttributeValueState
  else if character =? cGreater then emitAndResumeInDataState
  else if (quirk : bool) then emitAndReconsumeInDataState
  else if character =? kEndOfFileMarker then
    parseError;;
    RECONSUME_IN DataState character
  else
    offset ← consumed;
    onToken (beginAttribute offset);;
    onToken (appendToAttributeName (toASCIILower character));;
    ADVANCE_PAST_NON_NEWLINE_TO AttributeNameState.

Definition st_BeforeAttributeValueState (character : Z) : TM control :=
  if isTokenizerWhitespace character then ADVANCE_TO BeforeAttributeValueState
  else if character =? cQuote then ADVANCE_PAST_NON_NEWLINE_TO AttributeValueDoubleQuotedState
  else if character =? cAmpersand then RECONSUME_IN AttributeValueUnquotedState character
  else if character =? cApostrophe then ADVANCE_PAST_NON_NEWLINE_TO AttributeValueSingleQuotedState
  else if character =? cGreater then
    parseError;;
    emitAndResumeInDataState
  else if character =? kEndOfFileMarker then
    parseError;;
    RECONSUME_IN DataState character
  else
    onToken (appendToAttributeValue character);;
    ADVANCE_PAST_NON_NEWLINE_TO AttributeValueUnquotedState.

(** [m_token.endAttribute(source.numberOfCharactersConsumed())]. *)
Definition endAttributeHere : TM unit := offset ← consumed; onToken (endAttribute offset).

Definition st_AttributeValueDoubleQuotedState (character : Z) : TM control :=
  if character =? cQuote then
    endAttributeHere;;
    ADVANCE_PAST_NON_NEWLINE_TO AfterAttributeValueQuotedState
  else if character =? cAmpersand then
    modTok (set_additional cQuote);;
    ADVANCE_PAST_NON_NEWLINE_TO CharacterReferenceInAttributeValueState
  else if character =? kEndOfFileMarker then
    parseError;;
    endAttributeHere;;
    RECONSUME_IN DataState character
  else
    onToken (appendToAttributeValue character);;
    ADVANCE_TO AttributeValueDoubleQuotedState.

Definition st_AttributeValueSingleQuotedState (character : Z) : TM control :=
  if character =? cApostrophe then
    endAttributeHere;;
    ADVANCE_PAST_NON_NEWLINE_TO AfterAttributeValueQuotedState
  else if character =? cAmpersand then
    modTok (set_additional cApostrophe);;
    ADVANCE_PAST_NON_NEWLINE_TO CharacterReferenceInAttributeValueState
  else if character =? kEndOfFileMarker then
    parseError;;
    endAttributeHere;;
    RECONSUME_IN DataState character
  else
    onToken (appendToAttributeValue character);;
    ADVANCE_TO AttributeValueSingleQuotedState.

Definition st_AttributeValueUnquotedState (character : Z) : TM control :=
  if isTokenizerWhitespace character then
    endAttributeHere;;
    ADVANCE_TO BeforeAttributeNameState
  else if character =? cAmpersand then
    modTok (set_additional cGreater);;
    ADVANCE_PAST_NON_NEWLINE_TO CharacterReferenceInAttributeValueState
  else if character =? cGreater then
    endAttributeHere;;
    emitAndResumeInDataState
  else if character =? kEndOfFileMarker then
    parseError;;
    endAttributeHere;;
    RECONSUME_IN DataState character
  else
    onToken (appendToAttributeValue character);;
    ADVANCE_PAST_NON_NEWLINE_TO AttributeValueUnquotedState.

Definition st_CharacterReferenceInAttributeValueState (character : Z) : TM control :=
  additional ← getTok m_additionalAllowedCharacter;
  r ← onSrc (consumeHTMLEntity additional);
  if ref_notEnough r then
    RETURN_IN_CURRENT_STATE CharacterReferenceInAttributeValueState haveBufferedCharacterToken
  else
    (if negb (ref_success r) then
       ASSERT (bool_decide (ref_decoded r = []));;
       onToken (appendToAttributeValue cAmpersand)
     else forEach (λ c, onToken (appendToAttributeValue c)) (ref_decoded r));;
    if additional =? cQuote then SWITCH_TO AttributeValueDoubleQuotedState
    else if additional =? cApostrophe then SWITCH_TO AttributeValueSingleQuotedState
    else
      ASSERT (additional =? cGreater);;
      SWITCH_TO AttributeValueUnquotedState.

Definition st_AfterAttributeValueQuotedState (character : Z) : TM control :=
  quirk ← getTok (quirkyLess character);
  if isTokenizerWhitespace character then ADVANCE_TO BeforeAttributeNameState
  else if character =? cSlash then ADVANCE_PAST_NON_NEWLINE_TO SelfClosingStartTagState
  else if character =? cGreater then emitAndResumeInDataState
  else if (quirk : bool) then emitAndReconsumeInDataState
  else if character =? kEndOfFileMarker then
    parseError;;
    RECONSUME_IN DataState character
  else
    parseError;;
    RECONSUME_IN BeforeAttributeNameState character.

Definition st_SelfClosingStartTagState (character : Z) : TM control :=
  if character =? cGreater then
    onToken setSelfClosing;;
    emitAndResumeInDataState
  else if character =? kEndOfFileMarker then
    parseError;;
    RECONSUME_IN DataState character
  else
    parseError;;
    RECONSUME_IN BeforeAttributeNameState character.

Definition st_BogusCommentState (character : Z) : TM control :=
  onToken beginComment;;
  RECONSUME_IN ContinueBogusCommentState character.

Definition st_ContinueBogusCommentState (character : Z) : TM control :=
  if character =? cGreater then emitAndResumeInDataState
  else if character =? kEndOfFileMarker then emitAndReconsumeInDataState
  else
    onToken (appendToComment character);;
    ADVANCE_TO ContinueBogusCommentState.

(** The three look-aheads: on a match the case goes on in [matched], on too
    little input it returns, otherwise control falls through to [otherwise]. *)
Definition lookAhead (current : State) (literal : list Z) (ignoringCase : bool)
    (matched otherwise : TM control) : TM control :=
  result ← lookFor literal ignoringCase;
  if bool_decide (result = DidMatch) then matched
  else if bool_decide (result = NotEnoughCharacters) then
    RETURN_IN_CURRENT_STATE current haveBufferedCharacterToken
  else otherwise.

Definition st_MarkupDeclarationOpenState (character : Z) : TM control :=
  allowCDATA ← getTok m_shouldAllowCDATA;
  let otherwise := parseError;; RECONSUME_IN BogusCommentState character in
  let look := lookAhead MarkupDeclarationOpenState in
  if character =? cHyphen then
    look lit_dashes false (onToken beginComment;; SWITCH_TO CommentStartState) otherwise
  else if isASCIIAlphaCaselessEqual character cLowerD then
    look lit_doctype true (SWITCH_TO DOCTYPEState) otherwise
  else if (character =? cLeftBracket) && allowCDATA then
    look lit_cdata false (SWITCH_TO CDATASectionState) otherwise
  else otherwise.

Definition st_CommentStartState (character : Z) : TM control :=
  if character =? cHyphen then ADVANCE_PAST_NON_NEWLINE_TO CommentStartDashState
  else if character =? cGreater then
    parseError;;
    emitAndResumeInDataState
  else if character =? kEndOfFileMarker then
    parseError;;
    emitAndReconsumeInDataState
  else
    onToken (appendToComment character);;
    ADVANCE_TO CommentState.

Definition st_CommentStartDashState (character : Z) : TM control :=
  if character =? cHyphen then ADVANCE_PAST_NON_NEWLINE_TO CommentEndState
  else if character =? cGreater then
    parseError;;
    emitAndResumeInDataState
  else if character =? kEndOfFileMarker then
    parseError;;
    emitAndReconsumeInDataState
  else
    onToken (appendToComment cHyphen);;
    onToken (appendToComment character);;
    ADVANCE_TO CommentState.

Definition st_CommentState (character : Z) : TM control :=
  if character =? cHyphen then ADVANCE_PAST_NON_NEWLINE_TO CommentEndDashState
  else if character =? kEndOfFileMarker then
    parseError;;
    emitAndReconsumeInDataState
  else
    onToken (appendToComment character);;
    ADVANCE_TO CommentState.

Definition st_CommentEndDashState (character : Z) : TM control :=
  if character =? cHyphen then ADVANCE_PAST_NON_NEWLINE_TO CommentEndState
  else if character =? kEndOfFileMarker then
    parseError;;
    emitAndReconsumeInDataState
  else
    onToken (appendToComment cHyphen);;
    onToken (appendToComment character);;
    ADVANCE_TO CommentState.

Definition st_CommentEndState (character : Z) : TM control :=
  if character =? cGreater then emitAndResumeInDataState
  else if character =? cExclamation then
    parseError;;
    ADVANCE_PAST_NON_NEWLINE_TO CommentEndBangState
  else if character =? cHyphen then
    parseError;;
    onToken (appendToComment cHyphen);;
    ADVANCE_PAST_NON_NEWLINE_TO CommentEndState
  else if character =? kEndOfFileMarker then
    parseError;;
    emitAndReconsumeInDataState
  else
    parseError;;
    onToken (appendToComment cHyphen);;
    onToken (appendToComment cHyphen);;
    onToken (appendToComment character);;
    ADVANCE_TO CommentState.

Definition st_CommentEndBangState (character : Z) : TM control :=
  if character =? cHyphen then
    onToken (appendToComment cHyphen);;
    onToken (appendToComment cHyphen);;
    onToken (appendToComment cExclamation);;
    ADVANCE_PAST_NON_NEWLINE_TO CommentEndDashState
  else if character =? cGreater then emitAndResumeInDataState
  else if character =? kEndOfFileMarker then
    parseError;;
    emitAndReconsumeInDataState
  else
    onToken (appendToComment cHyphen);;
    onToken (appendToComment cHyphen);;
    onToken (appendToComment cExclamation);;
    onToken (appendToComment character);;
    ADVANCE_TO CommentState.

(** [parseError(); m_token.setForceQuirks(); return emitAndResumeInDataState(source);]
    and its variant for the end of file; the DOCTYPE cases use them throughout. *)
Definition quirksAndResume : TM control :=
  parseError;; onToken setForceQuirks;; emitAndResumeInDataState.
Definition quirksAndReconsume : TM control :=
  parseError;; onToken setForceQuirks;; emitAndReconsumeInDataState.
Definition quirksAndBogus : TM control :=
  parseError;; onToken setForceQuirks;; ADVANCE_PAST_NON_NEWLINE_TO BogusDOCTYPEState.

Definition st_DOCTYPEState (character : Z) : TM control :=
  if isTokenizerWhitespace character then ADVANCE_TO BeforeDOCTYPENameState
  else if character =? kEndOfFileMarker then
    parseError;;
    onToken beginDOCTYPE;;
    onToken setForceQuirks;;
    emitAndReconsumeInDataState
  else
    parseError;;
    RECONSUME_IN BeforeDOCTYPENameState character.

Definition st_BeforeDOCTYPENameState (character : Z) : TM control :=
  if isTokenizerWhitespace character then ADVANCE_TO BeforeDOCTYPENameState
  else if character =? cGreater then
    parseError;;
    onToken beginDOCTYPE;;
    onToken setForceQuirks;;
    emitAndResumeInDataState
  else if character =? kEndOfFileMarker then
    parseError;;
    onToken beginDOCTYPE;;
    onToken setForceQuirks;;
    emitAndReconsumeInDataState
  else
    onToken (beginDOCTYPE_with (toASCIILower character));;
    ADVANCE_PAST_NON_NEWLINE_TO DOCTYPENameState.

Definition st_DOCTYPENameState (character : Z) : TM control :=
  if isTokenizerWhitespace character then ADVANCE_TO AfterDOCTYPENameState
  else if character =? cGreater then emitAndResumeInDataState
  else if character =? kEndOfFileMarker then quirksAndReconsume
  else
    onToken (appendToName (toASCIILower character));;
    ADVANCE_PAST_NON_NEWLINE_TO DOCTYPENameState.

Definition st_AfterDOCTYPENameState (character : Z) : TM control :=
  let look := lookAhead AfterDOCTYPENameState in
  if isTokenizerWhitespace character then ADVANCE_TO AfterDOCTYPENameState
  else if character =? cGreater then emitAndResumeInDataState
  else if character =? kEndOfFileMarker then quirksAndReconsume
  else if isASCIIAlphaCaselessEqual character cLowerP then
    look lit_public true (SWITCH_TO AfterDOCTYPEPublicKeywordState) quirksAndBogus
  else if isASCIIAlphaCaselessEqual character cLowerS then
    look lit_system true (SWITCH_TO AfterDOCTYPESystemKeywordState) quirksAndBogus
  else quirksAndBogus.

Definition st_AfterDOCTYPEPublicKeywordState (character : Z) : TM control :=
  if isTokenizerWhitespace character then ADVANCE_TO BeforeDOCTYPEPublicIdentifierState
  else if character =? cQuote then
    parseError;;
    onToken setPublicIdentifierToEmptyString;;
    ADVANCE_PAST_NON_NEWLINE_TO DOCTYPEPublicIdentifierDoubleQuotedState
  else if character =? cApostrophe then
    parseError;;
    onToken setPublicIdentifierToEmptyString;;
    ADVANCE_PAST_NON_NEWLINE_TO DOCTYPEPublicIdentifierSingleQuotedState
  else if character =? cGreater then quirksAndResume
  else if character =? kEndOfFileMarker then quirksAndReconsume
  else quirksAndBogus.

Definition st_BeforeDOCTYPEPublicIdentifierState (character : Z) : TM control :=
  if isTokenizerWhitespace character then ADVANCE_TO BeforeDOCTYPEPublicIdentifierState
  else if character =? cQuote then
    onToken setPublicIdentifierToEmptyString;;
    ADVANCE_PAST_NON_NEWLINE_TO DOCTYPEPublicIdentifierDoubleQuotedState
  else if character =? cApostrophe then
    onToken setPublicIdentifierToEmptyString;;
    ADVANCE_PAST_NON_NEWLINE_TO DOCTYPEPublicIdentifierSingleQuotedState
  else if character =? cGreater then quirksAndResume
  else if character =? kEndOfFileMarker then quirksAndReconsume
  else quirksAndBogus.

Definition st_DOCTYPEPublicIdentifierDoubleQuotedState (character : Z) : TM control :=
  if character =? cQuote then ADVANCE_PAST_NON_NEWLINE_TO AfterDOCTYPEPublicIdentifierState
  else if character =? cGreater then quirksAndResume
  else if character =? kEndOfFileMarker then quirksAndReconsume
  else
    onToken (appendToPublicIdentifier character);;
    ADVANCE_TO DOCTYPEPublicIdentifierDoubleQuotedState.

Definition st_DOCTYPEPublicIdentifierSingleQuotedState (character : Z) : TM control :=
  if character =? cApostrophe then ADVANCE_PAST_NON_NEWLINE_TO AfterDOCTYPEPublicIdentifierState
  else if character =? cGreater then quirksAndResume
  else if character =? kEndOfFileMarker then quirksAndReconsume
  else
    onToken (appendToPublicIdentifier character);;
    ADVANCE_TO DOCTYPEPublicIdentifierSingleQuotedState.

Definition st_AfterDOCTYPEPublicIdentifierState (character : Z) : TM control :=
  if isTokenizerWhitespace character then ADVANCE_TO BetweenDOCTYPEPublicAndSystemIdentifiersState
  else if character =? cGreater then emitAndResumeInDataState
  else if character =? cQuote then
    parseError;;
    onToken setSystemIdentifierToEmptyString;;
    ADVANCE_PAST_NON_NEWLINE_TO DOCTYPESystemIdentifierDoubleQuotedState
  else if character =? cApostrophe then
    parseError;;
    onToken setSystemIdentifierToEmptyString;;
    ADVANCE_PAST_NON_NEWLINE_TO DOCTYPESystemIdentifierSingleQuotedState
  else if character =? kEndOfFileMarker then quirksAndReconsume
  else quirksAndBogus.

Definition st_BetweenDOCTYPEPublicAndSystemIdentifiersState (character : Z) : TM control :=
  if isTokenizerWhitespace character then ADVANCE_TO BetweenDOCTYPEPublicAndSystemIdentifiersState
  else if character =? cGreater then emitAndResumeInDataState
  else if character =? cQuote then
    onToken setSystemIdentifierToEmptyString;;
    ADVANCE_PAST_NON_NEWLINE_TO DOCTYPESystemIdentifierDoubleQuotedState
  else if character =? cApostrophe then
    onToken setSystemIdentifierToEmptyString;;
    ADVANCE_PAST_NON_NEWLINE_TO DOCTYPESystemIdentifierSingleQuotedState
  else if character =? kEndOfFileMarker then quirksAndReconsume
  else quirksAndBogus.

Definition st_AfterDOCTYPESystemKeywordState (character : Z) : TM control :=
  if isTokenizerWhitespace character then ADVANCE_TO BeforeDOCTYPESystemIdentifierState
  else if character =? cQuote then
    parseError;;
    onToken setSystemIdentifierToEmptyString;;
    ADVANCE_PAST_NON_NEWLINE_TO DOCTYPESystemIdentifierDoubleQuotedState
  else if character =? cApostrophe then
    parseError;;
    onToken setSystemIdentifierToEmptyString;;
    ADVANCE_PAST_NON_NEWLINE_TO DOCTYPESystemIdentifierSingleQuotedState
  else if character =? cGreater then quirksAndResume
  else if character =? kEndOfFileMarker then quirksAndReconsume
  else quirksAndBogus.

Definition st_BeforeDOCTYPESystemIdentifierState (character : Z) : TM control :=
  if isTokenizerWhitespace character then ADVANCE_TO BeforeDOCTYPESystemIdentifierState
  else if character =? cQuote then
    onToken setSystemIdentifierToEmptyString;;
    ADVANCE_PAST_NON_NEWLINE_TO DOCTYPESystemIdentifierDoubleQuotedState
  else if character =? cApostrophe then
    onToken setSystemIdentifierToEmptyString;;
    ADVANCE_PAST_NON_NEWLINE_TO DOCTYPESystemIdentifierSingleQuotedState
  else if character =? cGreater then quirksAndResume
  else if character =? kEndOfFileMarker then quirksAndReconsume
  else quirksAndBogus.

Definition st_DOCTYPESystemIdentifierDoubleQuotedState (character : Z) : TM control :=
  if character =? cQuote then ADVANCE_PAST_NON_NEWLINE_TO AfterDOCTYPESystemIdentifierState
  else if character =? cGreater then quirksAndResume
  else if character =? kEndOfFileMarker then quirksAndReconsume
  else
    onToken (appendToSystemIdentifier character);;
    ADVANCE_TO DOCTYPESystemIdentifierDoubleQuotedState.

Definition st_DOCTYPESystemIdentifierSingleQuotedState (character : Z) : TM control :=
  if character =? cApostrophe then ADVANCE_PAST_NON_NEWLINE_TO AfterDOCTYPESystemIdentifierState
  else if character =? cGreater then quirksAndResume
  else if character =? kEndOfFileMarker then quirksAndReconsume
  else
    onToken (appendToSystemIdentifier character);;
    ADVANCE_TO DOCTYPESystemIdentifierSingleQuotedState.

Definition st_AfterDOCTYPESystemIdentifierState (character : Z) : TM control :=
  if isTokenizerWhitespace character then ADVANCE_TO AfterDOCTYPESystemIdentifierState
  else if character =? cGreater then emitAndResumeInDataState
  else if character =? kEndOfFileMarker then quirksAndReconsume
  else
    parseError;;
    ADVANCE_PAST_NON_NEWLINE_TO BogusDOCTYPEState.

Definition st_BogusDOCTYPEState (character : Z) : TM control :=
  if character =? cGreater then emitAndResumeInDataState
  else if character =? kEndOfFileMarker then emitAndReconsumeInDataState
  else ADVANCE_TO BogusDOCTYPEState.

Definition st_CDATASectionState (character : Z) : TM control :=
  if character =? cRightBracket then ADVANCE_PAST_NON_NEWLINE_TO CDATASectionRightSquareBracketState
  else if character =? kEndOfFileMarker then RECONSUME_IN DataState character
  else
    bufferCharacter character;;
    ADVANCE_TO CDATASectionState.

Definition st_CDATASectionRightSquareBracketState (character : Z) : TM control :=
  if character =? cRightBracket then ADVANCE_PAST_NON_NEWLINE_TO CDATASectionDoubleRightSquareBracketState
  else
    bufferASCIICharacter cRightBracket;;
    RECONSUME_IN CDATASectionState character.

Definition st_CDATASectionDoubleRightSquareBracketState (character : Z) : TM control :=
  if character =? cGreater then ADVANCE_PAST_NON_NEWLINE_TO DataState
  else
    bufferASCIICharacter cRightBracket;;
    bufferASCIICharacter cRightBracket;;
    RECONSUME_IN CDATASectionState character.

(** The [switch]. *)
Definition step (s : State) : Z → TM control :=
  match s with
  | DataState => st_DataState
  | CharacterReferenceInDataState => st_CharacterReferenceInDataState
  | RCDATAState => st_RCDATAState
  | CharacterReferenceInRCDATAState => st_CharacterReferenceInRCDATAState
  | RAWTEXTState => st_RAWTEXTState
  | ScriptDataState => st_ScriptDataState
  | PLAINTEXTState => st_PLAINTEXTState
  | TagOpenState => st_TagOpenState
  | EndTagOpenState => st_EndTagOpenState
  | TagNameState => st_TagNameState
  | RCDATALessThanSignState => st_RCDATALessThanSignState
  | RCDATAEndTagOpenState => st_RCDATAEndTagOpenState
  | RCDATAEndTagNameState => st_RCDATAEndTagNameState
  | RAWTEXTLessThanSignState => st_RAWTEXTLessThanSignState
  | RAWTEXTEndTagOpenState => st_RAWTEXTEndTagOpenState
  | RAWTEXTEndTagNameState => st_RAWTEXTEndTagNameState
  | ScriptDataLessThanSignState => st_ScriptDataLessThanSignState
  | ScriptDataEndTagOpenState => st_ScriptDataEndTagOpenState
  | ScriptDataEndTagNameState => st_ScriptDataEndTagNameState
  | ScriptDataEscapeStartState => st_ScriptDataEscapeStartState
  | ScriptDataEscapeStartDashState => st_ScriptDataEscapeStartDashState
  | ScriptDataEscapedState => st_ScriptDataEscapedState
  | ScriptDataEscapedDashState => st_ScriptDataEscapedDashState
  | ScriptDataEscapedDashDashState => st_ScriptDataEscapedDashDashState
  | ScriptDataEscapedLessThanSignState => st_ScriptDataEscapedLessThanSignState
  | ScriptDataEscapedEndTagOpenState => st_ScriptDataEscapedEndTagOpenState
  | ScriptDataEscapedEndTagNameState => st_ScriptDataEscapedEndTagNameState
  | ScriptDataDoubleEscapeStartState => st_ScriptDataDoubleEscapeStartState
  | ScriptDataDoubleEscapedState => st_ScriptDataDoubleEscapedState
  | ScriptDataDoubleEscapedDashState => st_ScriptDataDoubleEscapedDashState
  | ScriptDataDoubleEscapedDashDashState => st_ScriptDataDoubleEscapedDashDashState
  | ScriptDataDoubleEscapedLessThanSignState => st_ScriptDataDoubleEscapedLessThanSignState
  | ScriptDataDoubleEscapeEndState => st_ScriptDataDoubleEscapeEndState
  | BeforeAttributeNameState => st_BeforeAttributeNameState
  | AttributeNameState => st_AttributeNameState
  | AfterAttributeNameState => st_AfterAttributeNameState
  | BeforeAttributeValueState => st_BeforeAttributeValueState
  | AttributeValueDoubleQuotedState => st_AttributeValueDoubleQuotedState
  | AttributeValueSingleQuotedState => st_AttributeValueSingleQuotedState
  | AttributeValueUnquotedState => st_AttributeValueUnquotedState
  | CharacterReferenceInAttributeValueState => st_CharacterReferenceInAttributeValueState
  | AfterAttributeValueQuotedState => st_AfterAttributeValueQuotedState
  | SelfClosingStartTagState => st_SelfClosingStartTagState
  | BogusCommentState => st_BogusCommentState
  | ContinueBogusCommentState => st_ContinueBogusCommentState
  | MarkupDeclarationOpenState => st_MarkupDeclarationOpenState
  | CommentStartState => st_CommentStartState
  | CommentStartDashState => st_CommentStartDashState
  | CommentState => st_CommentState
  | CommentEndDashState => st_CommentEndDashState
  | CommentEndState => st_CommentEndState
  | CommentEndBangState => st_CommentEndBangState
  | DOCTYPEState => st_DOCTYPEState
  | BeforeDOCTYPENameState => st_BeforeDOCTYPENameState
  | DOCTYPENameState => st_DOCTYPENameState
  | AfterDOCTYPENameState => st_AfterDOCTYPENameState
  | AfterDOCTYPEPublicKeywordState => st_AfterDOCTYPEPublicKeywordState
  | BeforeDOCTYPEPublicIdentifierState => st_BeforeDOCTYPEPublicIdentifierState
  | DOCTYPEPublicIdentifierDoubleQuotedState => st_DOCTYPEPublicIdentifierDoubleQuotedState
  | DOCTYPEPublicIdentifierSingleQuotedState => st_DOCTYPEPublicIdentifierSingleQuotedState
  | AfterDOCTYPEPublicIdentifierState => st_AfterDOCTYPEPublicIdentifierState
  | BetweenDOCTYPEPublicAndSystemIdentifiersState => st_BetweenDOCTYPEPublicAndSystemIdentifiersState
  | AfterDOCTYPESystemKeywordState => st_AfterDOCTYPESystemKeywordState
  | BeforeDOCTYPESystemIdentifierState => st_BeforeDOCTYPESystemIdentifierState
  | DOCTYPESystemIdentifierDoubleQuotedState => st_DOCTYPESystemIdentifierDoubleQuotedState
  | DOCTYPESystemIdentifierSingleQuotedState => st_DOCTYPESystemIdentifierSingleQuotedState
  | AfterDOCTYPESystemIdentifierState => st_AfterDOCTYPESystemIdentifierState
  | BogusDOCTYPEState => st_BogusDOCTYPEState
  | CDATASectionState => st_CDATASectionState
  | CDATASectionRightSquareBracketState => st_CDATASectionRightSquareBracketState
  | CDATASectionDoubleRightSquareBracketState => st_CDATASectionDoubleRightSquareBracketState
  end.

(** The jumps between the cases. [fuel] bounds their number; the theorem
    [processToken_safe] shows that [processFuel] is enough. *)
Fixpoint run (fuel : nat) (s : State) (character : Z) : TM bool :=
  match fuel with
  | O => fault
  | Datatypes.S fuel =>
      c ← step s character;
      match c with
      | Return b => mret b
      | Goto s character => run fuel s character
      end
  end.

Definition processFuel (source : S) : nat := (8 * Z.to_nat (src_length source) + 8)%nat.

(** [processToken], after the pending end tag has been dealt with. *)
Definition processInput : TM bool :=
  state ← getTok m_state;
  never ← getTok neverSkipNullCharacters;
  ok ← onPre (peek never (isNullCharacterSkippingState state));
  if negb ok then getTok haveBufferedCharacterToken
  else
    character ← getTok (λ t, m_nextInputCharacter (m_preprocessor t));
    fuel ← getSrc processFuel;
    run fuel state character.

Definition hasPendingEndTag (t : HTMLTokenizer) : bool :=
  bool_decide (m_bufferedEndTagName t ≠ []) && negb (inEndTagBufferingState (m_state t)).

Definition processToken : TM bool :=
  pending ← getTok hasPendingEndTag;
  if (pending : bool) then
    flushBufferedEndTag;;
    data ← getTok isInDataState;
    if (data : bool) then mret true else processInput
  else processInput.

(** [nextToken]: the token handed out, if any; it is cleared when the caller
    drops it ([releaseToken]). *)
Definition nextToken : TM (option HTMLToken) :=
  got ← processToken;
  if (got : bool) then token ← getTok m_token; mret (Some token) else mret None.

(** The world after the caller has dropped the token. *)
Definition released (w : World S) : World S := mkWorld (releaseToken (w_tok w)) (w_src w).

End Operations.
