(* ===== verification/HTMLPreloadScanner.v ===== *)
(** * The preload scanner

    Model of [HTMLPreloadScanner] in
    [Source/WebCore/html/parser/HTMLPreloadScanner.h] and [.cpp]: a second
    tokenizer that reads ahead in the input while the parser waits for a script.
    Without a tree builder it moves its tokenizer to the text states itself
    ([updateStateFor]) after each start tag. What it does with the tokens, which is to
    find the resources to preload ([TokenPreloadScanner]), feeds nothing back to the
    tokenizer: the model keeps the tokens handed over, in order.

    The loop [scanTokens] is defined for any [CharSource], so that the theorems about
    it can be proved on the reference source; the scanner reads a [SegmentedString]. *)

From Stdlib Require Import String.
From S2P Require Import Prelude ASCIICType CharSource SegmentedString InputStreamPreprocessor HTMLEntitySearch.
From S2P Require Import HTMLEntityTable HTMLEntityParser HTMLToken HTMLTokenizer.

(** The element an atomic string names, among those [updateStateFor] compares with. *)
Definition tagNameOf (name : list Z) : TagName :=
  if bool_decide (name = bytes "textarea") then textareaTag
  else if bool_decide (name = bytes "title") then titleTag
  else if bool_decide (name = bytes "plaintext") then plaintextTag
  else if bool_decide (name = bytes "script") then scriptTag
  else if bool_decide (name = bytes "style") then styleTag
  else if bool_decide (name = bytes "iframe") then iframeTag
  else if bool_decide (name = bytes "xmp") then xmpTag
  else if bool_decide (name = bytes "noembed") then noembedTag
  else if bool_decide (name = bytes "noframes") then noframesTag
  else if bool_decide (name = bytes "noscript") then noscriptTag
  else otherTag.

Section Loop.
Context `{Build} `{HTMLEntityTable} {S : Type} `{CharSource S}.

(** What the scanner does with its tokenizer when it has been given [token]. *)
Definition scanToken (token : HTMLToken) (w : World S) : World S :=
  if bool_decide (m_type token = StartTag)
  then mkWorld (updateStateFor (tagNameOf (m_data token)) (w_tok w)) (w_src w) else w.

(** The loop of [scan]: the tokens it hands to [m_scanner]. The token is dropped at
    the end of each turn. [fuel] bounds the turns: see [scanTokens_ok]. *)
Fixpoint scanTokens (fuel : nat) (w : World S) : option (list HTMLToken * World S) :=
  match fuel with
  | O => None
  | Datatypes.S fuel =>
      r ← nextToken w;
      match r with
      | (None, w) => Some ([], w)
      | (Some token, w) => '(l, w) ← scanTokens fuel (released (scanToken token w)); Some (token :: l, w)
      end
  end.

Definition scanFuel (source : S) : nat := (4 * Z.to_nat (src_length source) + 5)%nat.

End Loop.

(** [m_scanned] is what [m_scanner] has been given. *)
Record HTMLPreloadScanner := mkPreloadScanner {
  ps_tokenizer : HTMLTokenizer;
  ps_source : SegmentedString;
  m_scanned : list HTMLToken;
}.

Definition newPreloadScanner (options : HTMLParserOptions) : HTMLPreloadScanner :=
  mkPreloadScanner (newTokenizer options) emptySegmentedString [].

Section Operations.
Context `{Build} `{HTMLEntityTable}.

Definition appendToEnd (source : SegmentedString) (scanner : HTMLPreloadScanner) : option HTMLPreloadScanner :=
  s ← append source (ps_source scanner);
  Some (mkPreloadScanner (ps_tokenizer scanner) s (m_scanned scanner)).

Definition scan (scanner : HTMLPreloadScanner) : option HTMLPreloadScanner :=
  '(l, w) ← scanTokens (scanFuel (ps_source scanner)) (mkWorld (ps_tokenizer scanner) (ps_source scanner));
  Some (mkPreloadScanner (w_tok w) (w_src w) (m_scanned scanner ++ l)).

End Operations.
