(* ===== verification/TokenizerSafety.v ===== *)
(** * The tokenizer never faults and always ends

    The invariant of the tokenizer ([ready], [entry]) relates its state to the
    kind of token under construction, to the buffers and to the source; every
    case of [processToken] preserves it without a fault and lowers a measure, so
    that [processToken] always returns within the bound the model gives it. The
    theorems hold in release and in debug builds; in a debug build, where
    [ASSERT] is checked, they need an input without CR, because of the one
    assertion that CR breaks (see [partialEndTag_assertion_fails]). *)

From Stdlib Require Import String.
From S2P Require Import Prelude ASCIICType CharSource InputStreamPreprocessor HTMLEntitySearch.
From S2P Require Import HTMLEntityTable HTMLEntityParser HTMLToken HTMLTokenizer HTMLPreloadScanner.

(** ** The invariant *)

(** The kind of token each state works on. *)
Definition kindOf (s : State) : TokenKind :=
  match s with
  | TagOpenState | EndTagOpenState | BogusCommentState | MarkupDeclarationOpenState
  | DOCTYPEState | BeforeDOCTYPENameState => KFresh
  | TagNameState | BeforeAttributeNameState | AfterAttributeValueQuotedState | SelfClosingStartTagState => KTag
  | AttributeNameState | AfterAttributeNameState | BeforeAttributeValueState
  | AttributeValueDoubleQuotedState | AttributeValueSingleQuotedState | AttributeValueUnquotedState
  | CharacterReferenceInAttributeValueState => KAttribute
  | ContinueBogusCommentState | CommentStartState | CommentStartDashState | CommentState
  | CommentEndDashState | CommentEndState | CommentEndBangState => KComment
  | DOCTYPENameState | AfterDOCTYPENameState | AfterDOCTYPEPublicKeywordState
  | BeforeDOCTYPEPublicIdentifierState | AfterDOCTYPEPublicIdentifierState
  | BetweenDOCTYPEPublicAndSystemIdentifiersState | AfterDOCTYPESystemKeywordState
  | BeforeDOCTYPESystemIdentifierState | AfterDOCTYPESystemIdentifierState | BogusDOCTYPEState => KDoctype
  | DOCTYPEPublicIdentifierDoubleQuotedState | DOCTYPEPublicIdentifierSingleQuotedState => KPublic
  | DOCTYPESystemIdentifierDoubleQuotedState | DOCTYPESystemIdentifierSingleQuotedState => KSystem
  | _ => KText
  end.

(** At the end of the file [DataState] is entered with any token. *)
Definition kindAt (s : State) (character : Z) : TokenKind :=
  if bool_decide (s = DataState) && (character =? kEndOfFileMarker) then KAny else kindOf s.

(** The states in which an end tag name is being buffered. *)
Definition bufferingName (s : State) : bool :=
  match s with
  | RCDATAEndTagNameState | RAWTEXTEndTagNameState | ScriptDataEndTagNameState
  | ScriptDataEscapedEndTagNameState => true
  | _ => false
  end.

(** How many times a state can be left without consuming a character. *)
Definition rank (s : State) : nat :=
  match s with
  | DataState => 0
  | TagOpenState | EndTagOpenState | MarkupDeclarationOpenState
  | BeforeAttributeValueState | CharacterReferenceInAttributeValueState
  | AfterAttributeValueQuotedState | SelfClosingStartTagState => 3
  | CharacterReferenceInDataState | CharacterReferenceInRCDATAState
  | RCDATALessThanSignState | RCDATAEndTagOpenState | RCDATAEndTagNameState
  | RAWTEXTLessThanSignState | RAWTEXTEndTagOpenState | RAWTEXTEndTagNameState
  | ScriptDataLessThanSignState | ScriptDataEndTagOpenState | ScriptDataEndTagNameState
  | ScriptDataEscapeStartState | ScriptDataEscapeStartDashState
  | ScriptDataEscapedLessThanSignState | ScriptDataEscapedEndTagOpenState | ScriptDataEscapedEndTagNameState
  | ScriptDataDoubleEscapeStartState | ScriptDataDoubleEscapedLessThanSignState | ScriptDataDoubleEscapeEndState
  | TagNameState | BeforeAttributeNameState | AttributeNameState | AfterAttributeNameState
  | AttributeValueUnquotedState | BogusCommentState | DOCTYPEState
  | CDATASectionRightSquareBracketState | CDATASectionDoubleRightSquareBracketState => 2
  | _ => 1
  end.

(** The states that may wait for more input than the next character. *)
Definition lookingAhead (s : State) : bool :=
  match s with
  | CharacterReferenceInDataState | CharacterReferenceInRCDATAState | CharacterReferenceInAttributeValueState
  | MarkupDeclarationOpenState | AfterDOCTYPENameState => true
  | _ => false
  end.

Definition isByte (c : Z) : Prop := 0 ≤ c ≤ 255.

(** The tokenizer holds a well-formed token of kind [k]; [b] says whether an end
    tag name is buffered, [a] is the additional allowed character. *)
Record holds (k : TokenKind) (b : bool) (a : Z) (t : HTMLTokenizer) : Prop := mkHolds {
  holds_kind : hasKind k (m_token t);
  holds_wf : tokenWf (m_token t);
  holds_temporary : Forall isByte (m_temporaryBuffer t);
  holds_buffered : if b then m_bufferedEndTagName t ≠ [] else m_bufferedEndTagName t = [];
  holds_additional : m_additionalAllowedCharacter t = a;
}.

Definition additionalOk (s : State) (a : Z) : Prop :=
  s = CharacterReferenceInAttributeValueState → a = cQuote ∨ a = cApostrophe ∨ a = cGreater.

(** The token suits the state. *)
Definition suits (s : State) (t : HTMLTokenizer) : Prop :=
  ∃ a, holds (kindOf s) (bufferingName s) a t ∧ additionalOk s a.

Definition isTagKind (k : TokenKind) : bool :=
  match k with KTag | KAttribute => true | _ => false end.

Section Safety.
Context `{Build}.

(** The input: UTF-16 code units; without CR in a debug build. *)
Record sourceOk (s : LSource) : Prop := mkSourceOk {
  source_chars : Forall isUChar (l_chars s);
  source_consumed : 0 ≤ l_consumed s;
  source_return : ASSERT_DISABLED = true ∨ cReturn ∉ l_chars s;
}.

Definition remaining (s : LSource) : nat := length (l_chars s).
Definition measure (s : State) (src : LSource) : nat := (4 * remaining src + rank s)%nat.

(** What holds when the case of state [s] starts with [character]. [bound] is
    the measure at the start of [processToken]; a character token has lowered it. *)
Record entry (bound : nat) (s : State) (character : Z) (w : World LSource) : Prop := mkEntry_ {
  entry_tok : ∃ a, holds (kindAt s character) (bufferingName s) a (w_tok w) ∧ additionalOk s a;
  entry_source : sourceOk (w_src w);
  entry_preprocessed : preprocessed character (w_src w);
  entry_consumed : isTagKind (kindOf s) = true → 0 < l_consumed (w_src w);
  entry_measure : (measure s (w_src w) ≤ bound)%nat;
  entry_text : m_type (m_token (w_tok w)) = Character → (measure s (w_src w) < bound)%nat;
}.

(** An end tag that waits in the buffer for the character token before it to be
    taken: the next call starts with it. *)
Definition pendingTag (t : HTMLTokenizer) : Prop :=
  holds KFresh true (m_additionalAllowedCharacter t) t ∧
  (m_state t = DataState ∨ m_state t = BeforeAttributeNameState ∨ m_state t = SelfClosingStartTagState).

Definition pendingCount (t : HTMLTokenizer) : nat := if hasPendingEndTag t then 1 else 0.

(** The measure between two calls. *)
Definition work (w : World LSource) : nat := (measure (m_state (w_tok w)) (w_src w) + pendingCount (w_tok w))%nat.

(** What holds between two calls of [processToken]. *)
Record ready (w : World LSource) : Prop := mkReady {
  ready_source : sourceOk (w_src w);
  ready_consumed :
    isTagKind (kindOf (m_state (w_tok w))) = true → 0 < l_consumed (w_src w);
  ready_text : m_type (m_token (w_tok w)) ≠ Character;
  ready_tok : suits (m_state (w_tok w)) (w_tok w) ∨ pendingTag (w_tok w);
}.

(** A start tag leaves the tokenizer in [DataState] with nothing buffered, and so
    much less to do that its reader may move it to one of the text states. *)
Definition startTagLeft (bound : nat) (w : World LSource) : Prop :=
  m_state (w_tok w) = DataState ∧ m_bufferedEndTagName (w_tok w) = [] ∧ (4 * remaining (w_src w) + 1 < bound)%nat.

(** What holds when [processToken] returns: with [true], a well-formed token and,
    once it is dropped, a tokenizer that is ready and has less work left; with
    [false], a tokenizer that needs more input. *)
Definition exit (bound : nat) (b : bool) (w : World LSource) : Prop :=
  if b then
    m_type (m_token (w_tok w)) ≠ Uninitialized ∧ tokenWf (m_token (w_tok w)) ∧
    ready (released w) ∧ (work w < bound)%nat ∧
    (m_type (m_token (w_tok w)) = StartTag → startTagLeft bound w)
  else
    ready w ∧ (work w ≤ bound)%nat ∧ (l_chars (w_src w) = [] ∨ lookingAhead (m_state (w_tok w)) = true).

(** How a case may end, when the measure at its start was [now]. *)
Definition leaves (bound now : nat) (c : control) (w : World LSource) : Prop :=
  match c with
  | Return b => exit bound b w
  | Goto s character => entry bound s character w ∧ (measure s (w_src w) < now)%nat
  end.

#[local] Arguments measure : simpl never.
#[local] Arguments remaining : simpl never.
#[local] Arguments work : simpl never.
#[local] Arguments l_drop : simpl never.
#[local] Arguments kindAt : simpl never.

(** ** Lemmas on the invariant *)

Lemma holds_weaken k k' b a t : (∀ tk, hasKind k tk → hasKind k' tk) → holds k b a t → holds k' b a t.
Proof. intros Hk []. by constructor; auto. Qed.

Lemma holds_at s c b a t : holds (kindOf s) b a t → holds (kindAt s c) b a t.
Proof. apply holds_weaken. unfold kindAt. by case_match. Qed.

Lemma holds_state s k b a t : holds k b a t → holds k b a (set_state s t).
Proof. by intros []. Qed.

Lemma holds_preprocessor p k b a t : holds k b a t → holds k b a (set_preprocessor p t).
Proof. by intros []. Qed.

Lemma holds_released k b a t : holds k b a t → holds KFresh b a (releaseToken t).
Proof. by intros []. Qed.

Lemma sourceOk_drop n src : sourceOk src → sourceOk (l_drop n src).
Proof.
  intros [Hc Hn Hr]. constructor; simpl; [by apply Forall_drop|lia|].
  destruct Hr as [|Hr]; [by left|right]. intros Hin. apply Hr.
  rewrite <-(take_drop n (l_chars src)). apply elem_of_app. by right.
Qed.

Lemma remaining_drop n src : remaining (l_drop n src) = (remaining src - n)%nat.
Proof. unfold remaining. simpl. by rewrite length_drop. Qed.

Lemma l_drop_drop n k src : l_drop n (l_drop k src) = l_drop (k + n) src.
Proof. unfold l_drop. simpl. rewrite drop_drop. f_equal. lia. Qed.

(** A token of type [Character] is of kind [KText]. *)
Lemma character_kind k tk : hasKind k tk → m_type tk = Character → k = KText ∨ k = KAny.
Proof.
  destruct k; cbn; unfold isTagToken; intros Hk Ht; auto; exfalso; intuition congruence.
Qed.

Lemma kindOf_any s : kindOf s ≠ KAny.
Proof. by destruct s. Qed.

Lemma suits_no_pending s t : suits s t → m_state t = s → pendingCount t = 0%nat.
Proof.
  intros (a & Hh & _) <-. unfold pendingCount, hasPendingEndTag. pose proof (holds_buffered _ _ _ _ Hh) as Hb.
  destruct (bufferingName (m_state t)) eqn:E.
  - replace (inEndTagBufferingState (m_state t)) with true by (by destruct (m_state t)). by rewrite andb_false_r.
  - by rewrite bool_decide_false by (intros Hx; by apply Hx).
Qed.

(** A tokenizer that has just built a character token can go on in its state
    once the token is dropped. *)
Lemma suits_released s t : suits s t → kindOf s = KText ∨ kindOf s = KFresh → suits s (releaseToken t).
Proof.
  intros (a & Hh & Ha) Hk. exists a. split; [|done]. apply holds_released in Hh.
  destruct Hk as [-> | ->]; [|done]. eapply holds_weaken; [|done]. apply hasKind_text.
Qed.

(** What the code reads off the preprocessed character. *)
Lemma preprocessed_facts c src :
  preprocessed c src → sourceOk src →
  isUChar c ∧ l_chars src ≠ [] ∧ (c ≠ cLineFeed → l_current src ≠ cLineFeed) ∧
  (c = 0 → l_closed src = true ∧ remaining src = 1%nat) ∧
  (ASSERT_DISABLED = true ∨ c = replacementCharacter ∨ l_current src = c).
Proof.
  intros [Hne Hp] [Hall _ Hr]. destruct (l_chars src) as [|x rest] eqn:Hs; [done|].
  assert (Hx : l_current src = x) by (unfold l_current; by rewrite Hs). rewrite Hx in *.
  apply Forall_cons in Hall as [[? ?] _]. unfold remaining, isUChar. rewrite Hs.
  destruct (Z.eqb_spec x cReturn) as [->|].
  { subst c. split_and!; try done. destruct Hr as [|Hr]; [by left|]. exfalso. apply Hr. by left. }
  destruct (Z.eqb_spec x 0) as [->|].
  - destruct Hp as [->|(-> & ? & ?)]; split_and!; try done; auto.
  - subst c. split_and!; auto; lia.
Qed.

(** ** Rules of the primitives on a world *)

Lemma wp_getTok {A} (f : HTMLTokenizer → A) (Q : A → World LSource → Prop) t src :
  Q (f t) (mkWorld t src) → wp (getTok f) Q (mkWorld t src).
Proof. done. Qed.

Lemma wp_modTok f (Q : unit → World LSource → Prop) t src :
  Q tt (mkWorld (f t) src) → wp (modTok f) Q (mkWorld t src).
Proof. done. Qed.

Lemma wp_onToken k k' b a m t src (Q : unit → World LSource → Prop) :
  holds k b a t → kinded k k' m → (∀ t', holds k' b a t' → Q tt (mkWorld t' src)) →
  wp (onToken m) Q (mkWorld t src).
Proof.
  intros [Hk Hwf Htmp Hbuf Ha] Hm HQ. specialize (Hm _ Hk Hwf). unfold wp, onToken in *. cbn.
  destruct (m (m_token t)) as [[[] tk]|]; [|done]. destruct Hm. by apply HQ.
Qed.

Lemma wp_advance_nonempty (Q : unit → World LSource → Prop) t src :
  l_chars src ≠ [] → Q tt (mkWorld t (l_drop 1 src)) → wp (srcOp src_advance) Q (mkWorld t src).
Proof.
  intros Hne HQ. unfold wp, srcOp, modifyOpt. cbn. unfold l_advance. by destruct (l_chars src).
Qed.

Lemma wp_advancePastNonNewline (Q : unit → World LSource → Prop) t src :
  l_chars src ≠ [] → l_current src ≠ cLineFeed → Q tt (mkWorld t (l_drop 1 src)) →
  wp (srcOp src_advancePastNonNewline) Q (mkWorld t src).
Proof.
  intros Hne Hlf HQ. unfold wp, srcOp, modifyOpt. cbn. unfold ASSERT_opt, l_advance.
  rewrite (proj2 (Z.eqb_neq _ _)), orb_true_r by done. by destruct (l_chars src).
Qed.

(** ** Leaving a case *)

(** [more] first moves to [src1] and then looks at the next character. *)
Definition looksAt (more : bool → bool → M (InputStreamPreprocessor * LSource) bool) (src src1 : LSource) : Prop :=
  ∀ nv sk p, wp (more nv sk) (λ b w, (∃ n, (n ≤ remaining src1)%nat ∧ snd w = l_drop n src1) ∧
    if b then preprocessed (m_nextInputCharacter (fst w)) (snd w) else l_chars (snd w) = []) (p, src).

Lemma exit_have bound s t src :
  suits s t → sourceOk src → (isTagKind (kindOf s) = true → 0 < l_consumed src) →
  (m_type (m_token t) = Character → (measure s src < bound)%nat) → (measure s src ≤ bound)%nat →
  l_chars src = [] ∨ lookingAhead s = true →
  exit bound (haveBufferedCharacterToken t) (mkWorld (set_state s t) src).
Proof.
  intros Hs Hsrc Htag Hlt Hle Hend. destruct Hs as (a & Hh & Ha).
  assert (Hsuits : suits s (set_state s t)) by (exists a; split; [by apply holds_state|done]).
  assert (Hwork : work (mkWorld (set_state s t) src) = measure s src).
  { unfold work. cbn. rewrite (suits_no_pending s); [lia|done|done]. }
  unfold exit, haveBufferedCharacterToken. destruct (decide (m_type (m_token t) = Character)) as [Hc|Hc].
  - rewrite bool_decide_true by done. destruct (character_kind _ _ (holds_kind _ _ _ _ Hh) Hc) as [Hk|Hk];
      [|by apply kindOf_any in Hk].
    split; [by cbn; rewrite Hc|]. split; [by destruct Hh|]. rewrite Hwork.
    split; [|split; [by apply Hlt|by cbn; rewrite Hc]].
    constructor; try done. left. cbn [w_tok released]. apply suits_released; [done|by left].
  - rewrite bool_decide_false by done. rewrite Hwork. split; [|done]. constructor; try done. by left.
Qed.

Lemma continueIn_ok more bound now s t src src1 :
  looksAt more src src1 → suits s t → sourceOk src1 → (isTagKind (kindOf s) = true → 0 < l_consumed src1) →
  (measure s src1 < now)%nat → (now ≤ bound)%nat →
  wp (continueIn s more) (leaves bound now) (mkWorld t src).
Proof.
  intros Hmore Hs Hsrc Htag Hlt Hle. unfold continueIn. apply wp_bind, wp_getTok, wp_bind.
  specialize (Hmore (neverSkipNullCharacters t) (isNullCharacterSkippingState s) (m_preprocessor t)).
  unfold wp, onPre in *. cbn [w_tok w_src].
  destruct (more _ _ _) as [[b [p src2]]|]; [|done]. destruct Hmore as ((n & Hn & Heq) & Hb). cbn in Heq, Hb. subst src2.
  assert (Hm : (measure s (l_drop n src1) ≤ measure s src1)%nat) by (unfold measure; rewrite remaining_drop; lia).
  assert (Hc : isTagKind (kindOf s) = true → 0 < l_consumed (l_drop n src1)) by (intros ?%Htag; simpl; lia).
  destruct Hs as (a & Hh & Ha). apply (holds_preprocessor p) in Hh.
  destruct b.
  - change (leaves bound now (Goto s (m_nextInputCharacter p)) (mkWorld (set_preprocessor p t) (l_drop n src1))).
    split; [|cbn; lia]. constructor; cbn; try done; [|by apply sourceOk_drop|lia|lia].
    exists a. split; [by apply holds_at|done].
  - apply (exit_have bound s (set_preprocessor p t) (l_drop n src1)); [by exists a|by apply sourceOk_drop|done|lia|lia|by left].
Qed.

Lemma looksAt_switch src : sourceOk src → looksAt peek src src.
Proof. intros [Hall _ _] nv sk p. by apply peek_ok. Qed.

Lemma looksAt_advance src : sourceOk src → l_chars src ≠ [] → looksAt pre_advance src (l_drop 1 src).
Proof.
  intros Hsrc Hne nv sk p. unfold pre_advance. apply wp_bind. unfold wp at 1, advance_, modifyOpt. cbn.
  unfold l_advance. destruct (l_chars src) eqn:E; [done|]. apply peek_ok. by apply (sourceOk_drop 1) in Hsrc as [? _ _].
Qed.

Lemma looksAt_nonNewline src :
  sourceOk src → l_chars src ≠ [] → l_current src ≠ cLineFeed → looksAt pre_advancePastNonNewline src (l_drop 1 src).
Proof.
  intros Hsrc Hne Hlf nv sk p. unfold pre_advancePastNonNewline. apply wp_bind. unfold wp at 1, advance_, modifyOpt. cbn.
  unfold ASSERT_opt, l_advance. rewrite (proj2 (Z.eqb_neq _ _)), orb_true_r by done.
  destruct (l_chars src) eqn:E; [done|]. apply peek_ok. by apply (sourceOk_drop 1) in Hsrc as [? _ _].
Qed.

Lemma rank_le s : (rank s ≤ 3)%nat.
Proof. destruct s; simpl; lia. Qed.

Lemma remaining_pos src : l_chars src ≠ [] → (1 ≤ remaining src)%nat.
Proof. unfold remaining. destruct (l_chars src); [done|]. simpl. lia. Qed.

Lemma measure_advance s src now :
  l_chars src ≠ [] → (4 * remaining src ≤ now)%nat → (measure s (l_drop 1 src) < now)%nat.
Proof.
  intros Hne Hnow. pose proof (remaining_pos src Hne). pose proof (rank_le s).
  unfold measure. rewrite remaining_drop. lia.
Qed.

Lemma ADVANCE_TO_ok bound now s t src :
  suits s t → sourceOk src → l_chars src ≠ [] → (4 * remaining src ≤ now)%nat → (now ≤ bound)%nat →
  wp (ADVANCE_TO s) (leaves bound now) (mkWorld t src).
Proof.
  intros Hs Hsrc Hne Hnow Hle. apply (continueIn_ok _ _ _ _ _ _ (l_drop 1 src)); try done.
  - by apply looksAt_advance.
  - by apply sourceOk_drop.
  - intros _. destruct Hsrc. simpl. lia.
  - by apply measure_advance.
Qed.

Lemma ADVANCE_PAST_NON_NEWLINE_TO_ok bound now s t src :
  suits s t → sourceOk src → l_chars src ≠ [] → l_current src ≠ cLineFeed →
  (4 * remaining src ≤ now)%nat → (now ≤ bound)%nat →
  wp (ADVANCE_PAST_NON_NEWLINE_TO s) (leaves bound now) (mkWorld t src).
Proof.
  intros Hs Hsrc Hne Hlf Hnow Hle. apply (continueIn_ok _ _ _ _ _ _ (l_drop 1 src)); try done.
  - by apply looksAt_nonNewline.
  - by apply sourceOk_drop.
  - intros _. destruct Hsrc. simpl. lia.
  - by apply measure_advance.
Qed.

Lemma SWITCH_TO_ok bound now s t src :
  suits s t → sourceOk src → (isTagKind (kindOf s) = true → 0 < l_consumed src) →
  (measure s src < now)%nat → (now ≤ bound)%nat →
  wp (SWITCH_TO s) (leaves bound now) (mkWorld t src).
Proof. intros Hs Hsrc Htag Hm Hle. apply (continueIn_ok _ _ _ _ _ _ src); try done. by apply looksAt_switch. Qed.

Lemma RECONSUME_IN_ok bound now s c a t src :
  holds (kindAt s c) (bufferingName s) a t → s ≠ CharacterReferenceInAttributeValueState →
  sourceOk src → preprocessed c src → (isTagKind (kindOf s) = true → 0 < l_consumed src) →
  (measure s src < now)%nat → (now ≤ bound)%nat →
  wp (RECONSUME_IN s c) (leaves bound now) (mkWorld t src).
Proof. intros. apply wp_ret. split; [|done]. constructor; cbn; try done; try lia. exists a. by split; [|intros ->]. Qed.

Lemma RETURN_IN_CURRENT_STATE_ok bound s t src :
  suits s t → sourceOk src → (isTagKind (kindOf s) = true → 0 < l_consumed src) →
  (m_type (m_token t) = Character → (measure s src < bound)%nat) → (measure s src ≤ bound)%nat →
  lookingAhead s = true → ∀ now,
  wp (RETURN_IN_CURRENT_STATE s haveBufferedCharacterToken) (leaves bound now) (mkWorld t src).
Proof.
  intros Hs Hsrc Htag Hlt Hle Hend now. unfold RETURN_IN_CURRENT_STATE.
  apply wp_bind, wp_modTok, wp_bind, wp_getTok, wp_ret. apply (exit_have bound s t src); auto.
Qed.

(** The kinds of token that can be emitted. *)
Definition emittable (k : TokenKind) : bool :=
  match k with KTag | KAttribute | KComment | KDoctype | KPublic | KSystem => true | _ => false end.

Lemma emittable_type k tk : emittable k = true → hasKind k tk → m_type tk ≠ Uninitialized ∧ m_type tk ≠ Character.
Proof.
  intros He Hk. destruct k; try done; cbn in Hk; unfold isTagToken in Hk; intuition congruence.
Qed.

Lemma exit_emit bound k a t src :
  m_type (m_token t) ≠ Uninitialized → holds k false a t → m_state t = DataState → sourceOk src →
  (4 * remaining src < bound)%nat → (m_type (m_token t) = StartTag → (4 * remaining src + 1 < bound)%nat) →
  exit bound true (mkWorld t src).
Proof.
  intros Ht Hh Hst Hsrc Hlt Hstart. split; [done|]. split; [by destruct Hh|].
  assert (Hsuits : suits DataState (releaseToken t)).
  { exists a. split; [|done]. apply holds_released in Hh. eapply holds_weaken; [|done]. apply hasKind_text. }
  split_and!.
  - constructor; cbn; try done; [by rewrite Hst|]. left. by rewrite Hst.
  - unfold work. cbn [w_tok w_src].
    replace (pendingCount t) with (pendingCount (releaseToken t)) by done.
    rewrite (suits_no_pending DataState), Hst by done. unfold measure. simpl rank. lia.
  - intros Hty. split_and!; [done|exact (holds_buffered _ _ _ _ Hh)|by apply Hstart].
Qed.

Lemma wp_saveEndTagNameIfNeeded k b a t src (Q : unit → World LSource → Prop) :
  m_type (m_token t) ≠ Uninitialized → holds k b a t →
  (∀ t', m_token t' = m_token t → holds k b a t' → Q tt (mkWorld t' src)) →
  wp saveEndTagNameIfNeeded Q (mkWorld t src).
Proof.
  intros Ht Hh HQ. unfold saveEndTagNameIfNeeded. apply wp_bind, wp_getTok, wp_bind, wp_ASSERT.
  { by apply bool_decide_eq_true. }
  case_bool_decide as Hs; [|by apply wp_ret, HQ]. apply wp_bind.
  assert (Hname : wp token_name (λ _ tk, tk = m_token t) (m_token t)).
  { apply wp_bind, wp_assertType; [rewrite Hs; by left|]. by apply wp_gets. }
  unfold wp, onToken in *. cbn. destruct (token_name (m_token t)) as [[name tk]|]; [|done]. subst tk.
  cbn. apply HQ; [done|]. by destruct Hh.
Qed.

Lemma emitAndResumeInDataState_ok bound now k a t src :
  emittable k = true → holds k false a t → sourceOk src → l_chars src ≠ [] → l_current src ≠ cLineFeed →
  (4 * remaining src ≤ now)%nat → (now ≤ bound)%nat →
  wp emitAndResumeInDataState (leaves bound now) (mkWorld t src).
Proof.
  intros He Hh Hsrc Hne Hlf Hnow Hle. destruct (emittable_type k _ He (holds_kind _ _ _ _ Hh)) as [Hty _].
  apply wp_bind. eapply wp_saveEndTagNameIfNeeded; [done..|]. intros t' Htok Hh'.
  apply wp_bind, wp_modTok, wp_bind, wp_advancePastNonNewline; [done..|]. apply wp_ret.
  pose proof (remaining_pos src Hne).
  apply (exit_emit bound k a); cbn; [by rewrite Htok|by apply holds_state|done|by apply sourceOk_drop|..].
  all: rewrite remaining_drop; lia.
Qed.

Lemma emitAndReconsumeInDataState_ok bound now k a t src :
  emittable k = true → holds k false a t → sourceOk src →
  (4 * remaining src + (if isTagKind k then 1 else 0) < now)%nat → (now ≤ bound)%nat →
  wp emitAndReconsumeInDataState (leaves bound now) (mkWorld t src).
Proof.
  intros He Hh Hsrc Hnow Hle. destruct (emittable_type k _ He (holds_kind _ _ _ _ Hh)) as [Hty _].
  apply wp_bind. eapply wp_saveEndTagNameIfNeeded; [done..|]. intros t' Htok Hh'.
  apply wp_bind, wp_modTok, wp_ret.
  apply (exit_emit bound k a); cbn; [by rewrite Htok|by apply holds_state|done|done|lia|].
  intros Hst. rewrite Htok in Hst. pose proof (holds_kind _ _ _ _ Hh) as Hk.
  destruct k; try done; cbn [isTagKind] in *; cbn in Hk; try lia; exfalso; intuition congruence.
Qed.

(** ** Rules of the helpers *)

Lemma wp_bufferText m b a t src (Q : unit → World LSource → Prop) :
  kinded KText KText m → (∀ tk, wp m (λ _ tk', m_type tk' = Character) tk ∨ m tk = None) → holds KText b a t →
  (∀ tk, m_type tk = Character → holds KText b a (set_token tk t) → Q tt (mkWorld (set_token tk t) src)) →
  wp (onToken m) Q (mkWorld t src).
Proof.
  intros Hm Hty Hh HQ. specialize (Hty (m_token t)). destruct Hh as [Hk Hwf Htmp Hbuf Ha].
  specialize (Hm _ Hk Hwf). unfold wp, onToken in *. cbn.
  destruct (m (m_token t)) as [[[] tk]|]; [|done]. destruct Hty as [Hty|]; [|done]. destruct Hm. by apply HQ.
Qed.

Lemma append8_type c tk : wp (appendToCharacter8 c) (λ _ tk', m_type tk' = Character) tk ∨ appendToCharacter8 c tk = None.
Proof. unfold wp, appendToCharacter8, assertType, ASSERT, gets, mbind, M_bind. destruct (_ || _); [by left|by right]. Qed.

Lemma append16_type c tk : wp (appendToCharacter16 c) (λ _ tk', m_type tk' = Character) tk ∨ appendToCharacter16 c tk = None.
Proof. unfold wp, appendToCharacter16, assertType, ASSERT, gets, mbind, M_bind. destruct (_ || _); [by left|by right]. Qed.

Lemma u8_small c : 0 ≤ c < 256 → u8 c = c.
Proof. apply Z.mod_small. Qed.

Lemma u8_range c : isByte (u8 c).
Proof. pose proof (Z.mod_pos_bound c 256 ltac:(lia)). unfold isByte, u8. change (2 ^ 8) with 256. lia. Qed.

Lemma wp_bufferASCIICharacter c b a t src (Q : unit → World LSource → Prop) :
  0 < c < 128 → holds KText b a t →
  (∀ tk, m_type tk = Character → holds KText b a (set_token tk t) → Q tt (mkWorld (set_token tk t) src)) →
  wp (bufferASCIICharacter c) Q (mkWorld t src).
Proof.
  intros Hc Hh HQ. unfold bufferASCIICharacter. apply wp_bind, wp_ASSERT; [unfold kEndOfFileMarker; lia|].
  apply wp_bind, wp_ASSERT; [apply isASCII_spec; lia|].
  eapply wp_bufferText; [|apply append8_type|done|done]. apply kinded_appendToCharacter8, u8_range.
Qed.

Lemma wp_bufferCharacter c b a t src (Q : unit → World LSource → Prop) :
  0 < c → holds KText b a t →
  (∀ tk, m_type tk = Character → holds KText b a (set_token tk t) → Q tt (mkWorld (set_token tk t) src)) →
  wp (bufferCharacter c) Q (mkWorld t src).
Proof.
  intros Hc Hh HQ. unfold bufferCharacter. apply wp_bind, wp_ASSERT; [unfold kEndOfFileMarker; lia|].
  eapply wp_bufferText; [|apply append16_type|done|done]. apply kinded_appendToCharacter16. lia.
Qed.

Lemma wp_appendToTemporaryBuffer c k b a t src (Q : unit → World LSource → Prop) :
  0 ≤ c < 128 → holds k b a t →
  (∀ t', m_token t' = m_token t → holds k b a t' → Q tt (mkWorld t' src)) →
  wp (appendToTemporaryBuffer c) Q (mkWorld t src).
Proof.
  intros Hc Hh HQ. apply wp_bind, wp_ASSERT; [apply isASCII_spec; lia|]. apply wp_modTok, HQ; [done|].
  destruct Hh as [Hk Hwf Htmp Hbuf Ha]. constructor; cbn; try done. apply Forall_app. split; [done|].
  constructor; [apply u8_range|constructor].
Qed.

Lemma wp_appendToPossibleEndTag c k b a t src (Q : unit → World LSource → Prop) :
  0 ≤ c < 128 → holds k b a t → (∀ t', holds k true a t' → Q tt (mkWorld t' src)) →
  wp (appendToPossibleEndTag c) Q (mkWorld t src).
Proof.
  intros Hc Hh HQ. apply wp_bind, wp_ASSERT; [apply isASCII_spec; lia|]. apply wp_modTok, HQ.
  destruct Hh as [Hk Hwf Htmp Hbuf Ha]. constructor; cbn; try done. by destruct (m_bufferedEndTagName t).
Qed.

Lemma wp_assertNoBufferedEndTag k a t src (Q : unit → World LSource → Prop) :
  holds k false a t → Q tt (mkWorld t src) → wp assertNoBufferedEndTag Q (mkWorld t src).
Proof.
  intros [_ _ _ Hb _] HQ. apply wp_bind, wp_getTok, wp_ASSERT; [|done]. by apply bool_decide_eq_true.
Qed.

Lemma holds_temporary_nil k b a t : holds k b a t → holds k b a (set_temporary [] t).
Proof. intros []. by constructor. Qed.

Lemma holds_appropriate x k b a t : holds k b a t → holds k b a (set_appropriate x t).
Proof. by intros []. Qed.

Lemma holds_set_additional x k b a t : holds k b a t → holds k b x (set_additional x t).
Proof. by intros []. Qed.

(** The temporary buffer is flushed into the text. *)
Lemma wp_flushTemporary b a t src (Q : unit → World LSource → Prop) :
  m_type (m_token t) = Character → holds KText b a t → (∀ t', holds KText b a t' → Q tt (mkWorld t' src)) →
  wp (onToken (appendToCharacterVector (m_temporaryBuffer t))) Q (mkWorld t src).
Proof.
  intros Hty [Hk Hwf Htmp Hbuf Ha] HQ. pose proof (appendToCharacterVector_ok _ _ Htmp Hty Hwf) as Hm.
  unfold wp, onToken in *. cbn. destruct (appendToCharacterVector _ _) as [[[] tk]|]; [|done]. destruct Hm. by apply HQ.
Qed.

Lemma wp_forEach f k b a l t src (Q : unit → World LSource → Prop) :
  Forall (λ c, ∀ t (Q : unit → World LSource → Prop), holds k b a t →
    (∀ t', holds k b a t' → Q tt (mkWorld t' src)) → wp (f c) Q (mkWorld t src)) l →
  holds k b a t → (∀ t', holds k b a t' → Q tt (mkWorld t' src)) → wp (forEach f l) Q (mkWorld t src).
Proof.
  intros Hl. revert t. induction Hl as [|c l Hc Hl IH]; intros t Hh HQ; simpl.
  { by apply wp_ret, HQ. }
  apply wp_bind, Hc; [done|]. intros t' Hh'. by apply IH.
Qed.

Lemma holds_unbuffered k b a t : holds k b a t → holds k false a (set_buffered [] t).
Proof. by intros []. Qed.

Lemma beginEndTag_with_type chars tk u tk' : beginEndTag_with chars tk = Some (u, tk') → m_type tk' = EndTag.
Proof.
  unfold beginEndTag_with, beginTag, assertType, ASSERT, gets, modify, mbind, M_bind.
  destruct (_ || _); [|done]. intros [= _ <-]. by destruct ASSERT_DISABLED.
Qed.

Lemma wp_flushBufferedEndTag a t src (Q : unit → World LSource → Prop) :
  holds KFresh true a t → (∀ t', m_state t' = m_state t → m_type (m_token t') = EndTag → holds KTag false a t' → Q tt (mkWorld t' src)) →
  wp flushBufferedEndTag Q (mkWorld t src).
Proof.
  intros [Hk Hwf Htmp Hbuf Ha] HQ. apply wp_bind, wp_getTok, wp_bind.
  pose proof (kinded_beginEndTag_with _ Hbuf _ Hk Hwf) as Hm. unfold wp at 1, onToken. unfold wp in Hm. cbn.
  destruct (beginEndTag_with _ _) as [[[] tk]|] eqn:E; [|done]. destruct Hm as [Hk' Hwf'].
  apply wp_bind, wp_modTok, wp_bind, wp_modTok, wp_modTok, HQ; [done|by apply beginEndTag_with_type in E|].
  by constructor.
Qed.

(** ** The cases *)

Context `{HTMLEntityTable} `{!HTMLEntityTableLaws}.

Definition safe (s : State) : Prop :=
  ∀ bound c w, entry bound s c w → wp (step s c) (leaves bound (measure s (w_src w))) w.

Lemma kindAt_other s c : s ≠ DataState → kindAt s c = kindOf s.
Proof. intros Hs. unfold kindAt. by rewrite bool_decide_false. Qed.

Lemma holds_eof k b a t c : c = 0 → holds k b a t → holds (kindAt DataState c) b a t.
Proof. intros ->. by apply holds_weaken. Qed.

Lemma alpha_range c : 0 ≤ c → isASCIIAlpha c = true → 65 ≤ c ≤ 122.
Proof. intros Hc Ha. apply isASCIIAlpha_spec in Ha; lia. Qed.

Lemma convert_range c : 0 ≤ c → isASCIIAlpha c = true → 97 ≤ convertASCIIAlphaToLower c ≤ 122.
Proof.
  intros Hc Ha. unfold convertASCIIAlphaToLower. rewrite alpha_lower by done. apply isASCIIAlpha_spec in Ha; [|done].
  rewrite toASCIILower_spec. unfold u8. case_match; rewrite Z.mod_small; lia.
Qed.

Lemma lower_nonzero c : 0 < c → toASCIILower c ≠ 0.
Proof. intros Hc. rewrite toASCIILower_spec. case_match; lia. Qed.

(** Side conditions on characters and on the measure. *)
Ltac char_tac :=
  repeat match goal with
  | Hal : isASCIIAlpha ?c = true |- _ =>
      let Hr := fresh "Hr" in let Hr' := fresh "Hr'" in
      pose proof (alpha_range c ltac:(unfold isUChar in *; lia) Hal) as Hr;
      pose proof (convert_range c ltac:(unfold isUChar in *; lia) Hal) as Hr'; clear Hal
  end;
  try apply lower_nonzero;
  unfold isTokenizerWhitespace, kEndOfFileMarker, isUChar, replacementCharacter in *; lia.

Ltac measure_tac := unfold measure in *; cbn [isTagKind] in *; simpl rank in *; lia.

(** The tokenizer in the world still holds what is needed. *)
Ltac holds_tac :=
  first
    [ eassumption
    | apply holds_at; holds_tac
    | apply holds_state; holds_tac
    | apply holds_temporary_nil; holds_tac
    | apply holds_appropriate; holds_tac
    | eapply holds_weaken; [exact hasKind_text|eassumption]
    | eapply holds_weaken; [exact hasKind_tag|eassumption]
    | eapply (holds_weaken KPublic KDoctype); [intros ?; apply hasKind_doctype; by left|eassumption]
    | eapply (holds_weaken KSystem KDoctype); [intros ?; apply hasKind_doctype; by right|eassumption]
    | eapply holds_set_additional; eassumption
    | eapply holds_eof; [char_tac|eassumption] ].

Ltac suits_tac := eexists; split; [holds_tac|first [discriminate|intros _; auto]].

(** The token operation [m] is allowed. *)
Ltac kinded_tac :=
  first
    [ apply kinded_beginComment | apply kinded_setForceQuirks | apply kinded_beginDOCTYPE
    | apply kinded_setPublicIdentifierToEmptyString | apply kinded_setSystemIdentifierToEmptyString
    | apply kinded_setSelfClosing | apply kinded_beginEndTag
    | apply kinded_beginStartTag; char_tac
    | apply kinded_appendToComment; char_tac
    | apply kinded_appendToAttributeName; char_tac
    | apply kinded_appendToAttributeValue; char_tac
    | apply kinded_appendToPublicIdentifier; char_tac
    | apply kinded_appendToSystemIdentifier; char_tac
    | apply kinded_beginDOCTYPE_with; char_tac
    | apply kinded_beginAttribute; lia
    | apply kinded_endAttribute; lia ].

(** A case is entered with the facts the invariant gives. *)
Lemma safe_intro s :
  s ≠ DataState →
  (∀ bound c t src a,
    holds (kindOf s) (bufferingName s) a t → additionalOk s a → sourceOk src → preprocessed c src →
    (isTagKind (kindOf s) = true → 0 < l_consumed src) → isUChar c → l_chars src ≠ [] →
    (c ≠ cLineFeed → l_current src ≠ cLineFeed) →
    (ASSERT_DISABLED = true ∨ c = replacementCharacter ∨ l_current src = c) →
    (measure s src ≤ bound)%nat → (m_type (m_token t) = Character → (measure s src < bound)%nat) →
    wp (step s c) (leaves bound (measure s src)) (mkWorld t src)) →
  safe s.
Proof.
  intros Hs Hcase bound c [t src] [(a & Hh & Ha) Hsrc Hpre Htag Hm Htxt]. cbn [w_tok w_src] in *.
  destruct (preprocessed_facts c src Hpre Hsrc) as (Hu & Hne & Hlf & _ & Hcur).
  rewrite kindAt_other in Hh by done. by apply (Hcase bound c t src a).
Qed.

Ltac enter_case :=
  apply safe_intro; [discriminate|];
  intros bound c t src a Hh Ha Hsrc Hpre Htag Hu Hne Hlf Hcur Hm Htxt;
  cbn [kindOf bufferingName isTagKind] in *;
  repeat match goal with Htag' : true = true → _ |- _ => specialize (Htag' eq_refl) end;
  cbn [step].

Ltac newline_tac :=
  match goal with Hlf' : _ → l_current _ ≠ 10 |- _ => apply Hlf'; char_tac end.

Ltac run_case :=
  repeat match goal with
  | |- wp (if ?b then _ else _) _ _ => destruct b eqn:?
  | |- wp (getTok _ ≫= _) _ _ => apply wp_bind, wp_getTok
  | |- wp (parseError ≫= _) _ _ => apply wp_bind, wp_ret
  | |- wp (modTok _ ≫= _) _ _ => apply wp_bind, wp_modTok
  | |- wp (consumed ≫= _) _ _ => apply wp_bind, wp_gets; cbn [w_src src_numberOfCharactersConsumed LSource_CharSource]
  | |- wp (endAttributeHere ≫= _) _ _ =>
      apply wp_bind, wp_bind, wp_gets; cbn [w_src src_numberOfCharactersConsumed LSource_CharSource];
      eapply wp_onToken; cycle 1; [kinded_tac|intros ? ?|holds_tac]
  | |- wp (bufferASCIICharacter _ ≫= _) _ _ =>
      apply wp_bind; eapply wp_bufferASCIICharacter; [char_tac|holds_tac|intros ? ? ?]
  | |- wp (bufferCharacter _ ≫= _) _ _ =>
      apply wp_bind; eapply wp_bufferCharacter; [char_tac|holds_tac|intros ? ? ?]
  | |- wp (appendToTemporaryBuffer _ ≫= _) _ _ =>
      apply wp_bind; eapply wp_appendToTemporaryBuffer; [char_tac|holds_tac|intros ? ? ?]
  | |- wp (appendToPossibleEndTag _ ≫= _) _ _ =>
      apply wp_bind; eapply wp_appendToPossibleEndTag; [char_tac|holds_tac|intros ? ?]
  | |- wp (assertNoBufferedEndTag ≫= _) _ _ => apply wp_bind; eapply wp_assertNoBufferedEndTag; [holds_tac|]
  | |- wp (onToken (appendToName _) ≫= _) _ _ => apply wp_bind; eapply wp_onToken;
      [holds_tac|first [apply kinded_appendToName_tag; char_tac|apply kinded_appendToName_doctype; char_tac]|intros ? ?]
  | |- wp (onToken _ ≫= _) _ _ => apply wp_bind; eapply wp_onToken; cycle 1; [kinded_tac|intros ? ?|holds_tac]
  | |- wp (ADVANCE_TO _) _ _ => apply ADVANCE_TO_ok; [suits_tac|done|done|measure_tac|done]
  | |- wp (ADVANCE_PAST_NON_NEWLINE_TO _) _ _ =>
      apply ADVANCE_PAST_NON_NEWLINE_TO_ok; [suits_tac|done|done|newline_tac|measure_tac|done]
  | |- wp (RECONSUME_IN _ _) _ _ =>
      eapply RECONSUME_IN_ok; [holds_tac|discriminate|done|done|first [done|discriminate]|measure_tac|done]
  | |- wp emitAndResumeInDataState _ _ =>
      eapply emitAndResumeInDataState_ok; [|holds_tac|done|done|newline_tac|measure_tac|done]; reflexivity
  | |- wp emitAndReconsumeInDataState _ _ =>
      eapply emitAndReconsumeInDataState_ok; [|holds_tac|done|measure_tac|done]; reflexivity
  end.

(** The cases that only look at the current character. *)
Definition plainCase (s : State) : bool :=
  match s with
  | DataState | CharacterReferenceInDataState | CharacterReferenceInRCDATAState
  | CharacterReferenceInAttributeValueState | MarkupDeclarationOpenState | AfterDOCTYPENameState => false
  | _ => negb (bufferingName s)
  end.

Create HintDb cases.
#[local] Hint Unfold
  st_RCDATAState st_RAWTEXTState st_ScriptDataState st_PLAINTEXTState st_TagOpenState st_EndTagOpenState
  st_TagNameState st_RCDATALessThanSignState st_RCDATAEndTagOpenState st_RAWTEXTLessThanSignState
  st_RAWTEXTEndTagOpenState st_ScriptDataLessThanSignState st_ScriptDataEndTagOpenState
  st_ScriptDataEscapeStartState st_ScriptDataEscapeStartDashState st_ScriptDataEscapedState
  st_ScriptDataEscapedDashState st_ScriptDataEscapedDashDashState st_ScriptDataEscapedLessThanSignState
  st_ScriptDataEscapedEndTagOpenState st_ScriptDataDoubleEscapeStartState st_ScriptDataDoubleEscapedState
  st_ScriptDataDoubleEscapedDashState st_ScriptDataDoubleEscapedDashDashState
  st_ScriptDataDoubleEscapedLessThanSignState st_ScriptDataDoubleEscapeEndState st_BeforeAttributeNameState
  st_AttributeNameState st_AfterAttributeNameState st_BeforeAttributeValueState
  st_AttributeValueDoubleQuotedState st_AttributeValueSingleQuotedState st_AttributeValueUnquotedState
  st_AfterAttributeValueQuotedState st_SelfClosingStartTagState st_BogusCommentState
  st_ContinueBogusCommentState st_CommentStartState st_CommentStartDashState st_CommentState
  st_CommentEndDashState st_CommentEndState st_CommentEndBangState st_DOCTYPEState st_BeforeDOCTYPENameState
  st_DOCTYPENameState st_AfterDOCTYPEPublicKeywordState st_BeforeDOCTYPEPublicIdentifierState
  st_DOCTYPEPublicIdentifierDoubleQuotedState st_DOCTYPEPublicIdentifierSingleQuotedState
  st_AfterDOCTYPEPublicIdentifierState st_BetweenDOCTYPEPublicAndSystemIdentifiersState
  st_AfterDOCTYPESystemKeywordState st_BeforeDOCTYPESystemIdentifierState
  st_DOCTYPESystemIdentifierDoubleQuotedState st_DOCTYPESystemIdentifierSingleQuotedState
  st_AfterDOCTYPESystemIdentifierState st_BogusDOCTYPEState st_CDATASectionState
  st_CDATASectionRightSquareBracketState st_CDATASectionDoubleRightSquareBracketState quirksAndResume
  quirksAndReconsume quirksAndBogus : cases.

Lemma plain_safe s : plainCase s = true → safe s.
Proof. destruct s; intros Hs; try discriminate Hs; clear Hs; enter_case; autounfold with cases; run_case. Qed.

(** *** Text *)

Lemma wp_advance_end t src (Q : unit → World LSource → Prop) :
  (∀ src', sourceOk src' → remaining src' = (remaining src - 1)%nat → Q tt (mkWorld t src')) → sourceOk src →
  wp (srcOp src_advance) Q (mkWorld t src).
Proof.
  intros HQ Hsrc. destruct (decide (l_chars src = [])) as [Hnil|Hne].
  - unfold wp, srcOp, modifyOpt. cbn. unfold l_advance. rewrite Hnil. apply HQ; [done|].
    unfold remaining. by rewrite Hnil.
  - apply wp_advance_nonempty; [done|]. apply HQ; [by apply sourceOk_drop|apply remaining_drop].
Qed.

Lemma wp_endOfFileToken b a (rest : M (World LSource) control) t src (Q : control → World LSource → Prop) :
  holds KAny b a t →
  (∀ t', m_type (m_token t') = EndOfFile → m_state t' = m_state t → holds KAny b a t' → wp rest Q (mkWorld t' src)) →
  wp (onToken (modify token_clear);; (onToken makeEndOfFile;; rest)) Q (mkWorld t src).
Proof.
  intros [Hk Hwf Htmp Hbuf Ha] HQ. apply wp_bind. unfold wp at 1, onToken, modify. apply wp_bind.
  unfold wp at 1, onToken, makeEndOfFile, assertType, ASSERT, gets, modify, mbind, M_bind. cbn.
  rewrite orb_true_r. by apply HQ.
Qed.

Lemma emitEndOfFile_ok bound now a t src :
  holds KAny false a t → sourceOk src → remaining src = 1%nat → (4 ≤ bound)%nat →
  (m_type (m_token t) = Character → (4 < bound)%nat) →
  wp emitEndOfFile (leaves bound now) (mkWorld t src).
Proof.
  intros Hh Hsrc Hrem Hb Htxt. unfold emitEndOfFile. apply wp_bind, wp_modTok, wp_bind, wp_getTok.
  unfold haveBufferedCharacterToken. cbn. case_bool_decide as Hc.
  - apply wp_ret, (exit_emit bound KAny a); [by cbn; rewrite Hc|by apply holds_state|done|done| |by cbn; rewrite Hc].
    rewrite Hrem. by apply Htxt.
  - apply wp_bind, wp_advance_end; [|done]. intros src' Hsrc' Hrem'.
    eapply wp_endOfFileToken; [by apply holds_state|]. intros t' Hty Hst Hh'.
    apply wp_ret, (exit_emit bound KAny a); [by rewrite Hty|done|done|done| |by rewrite Hty]. rewrite Hrem', Hrem. simpl. lia.
Qed.

Lemma safe_DataState : safe DataState.
Proof.
  intros bound c [t src] [(a & Hh & Ha) Hsrc Hpre _ Hm Htxt]. cbn [w_tok w_src bufferingName] in *.
  destruct (preprocessed_facts c src Hpre Hsrc) as (Hu & Hne & Hlf & Heof & _).
  cbn [step]. unfold st_DataState. destruct (Z.eqb_spec c kEndOfFileMarker) as [->|Hnz].
  { destruct (Heof eq_refl) as [_ Hrem]. apply (emitEndOfFile_ok bound _ a); try done.
    - by unfold measure in Hm; rewrite Hrem in Hm; simpl in Hm; lia.
    - intros Hc%Htxt. unfold measure in Hc. rewrite Hrem in Hc. simpl in Hc. lia. }
  assert (HhT : holds KText false a t).
  { unfold kindAt in Hh. by rewrite (proj2 (Z.eqb_neq c kEndOfFileMarker)), andb_false_r in Hh. }
  clear Hh. run_case.
  - apply bool_decide_eq_true in Heqb1 as Hc. apply wp_bind, wp_modTok, wp_bind, wp_getTok, wp_ret.
    apply (exit_emit bound KText a); [by cbn; rewrite Hc|by apply holds_state|done|done| |by cbn; rewrite Hc].
    specialize (Htxt Hc). unfold measure in Htxt. simpl in Htxt. lia.
  - apply bool_decide_eq_false in Heqb1 as Hc. assert (HhF : holds KFresh false a t).
    { destruct HhT as [[?|?] ? ? ? ?]; [by constructor|done]. }
    run_case.
Qed.

(** *** Character references *)

(** Reading a reference: the source moves on, and what is decoded has no NUL. *)
Lemma wp_reference a t src (Q : Reference → World LSource → Prop) :
  validAdditional a → sourceOk src → l_chars src ≠ [] →
  (∀ r n, referenceOk r n (remaining src) → Q r (mkWorld t (l_drop n src))) →
  wp (onSrc (consumeHTMLEntity a)) Q (mkWorld t src).
Proof.
  intros Ha [Hall Hcons _] Hne HQ. destruct (consumeHTMLEntity_ok a src Ha Hne Hcons Hall) as (r & n & Hr & Hspec).
  unfold wp, onSrc. cbn. rewrite Hr. apply HQ. by eapply referenceSpec_ok.
Qed.

Lemma wp_processEntity a t src (Q : bool → World LSource → Prop) :
  holds KText false a t → sourceOk src → l_chars src ≠ [] →
  Q false (mkWorld t src) →
  (∀ t' n, holds KText false a t' → Q true (mkWorld t' (l_drop n src))) →
  wp processEntity Q (mkWorld t src).
Proof.
  intros Hh Hsrc Hne Hfalse Htrue. apply wp_bind, wp_reference; [by left|done|done|]. intros r n [Hn Hr].
  destruct (ref_success r) eqn:Hs.
  - destruct Hr as (_ & -> & _ & Hdec). cbn [negb]. apply wp_bind.
    apply (wp_forEach _ KText false a); [|done|intros t' Hh'; by apply wp_ret, Htrue].
    eapply Forall_impl; [exact Hdec|]. intros c Hc t' Q' Hh' HQ'. simpl in Hc.
    eapply wp_bufferCharacter; [lia|done|]. intros tk _ Hh''. by apply HQ'.
  - destruct Hr as [-> Hd]. rewrite l_drop_0. destruct (ref_notEnough r); [by apply wp_ret|]. cbn [negb].
    apply wp_bind, wp_ASSERT; [by apply bool_decide_eq_true|]. apply wp_bind.
    eapply wp_bufferASCIICharacter; [lia|done|]. intros tk _ Hh'. apply wp_ret.
    rewrite <-(l_drop_0 src). by apply Htrue.
Qed.

Lemma measure_drop s s' n src : (rank s' < rank s)%nat → (measure s' (l_drop n src) < measure s src)%nat.
Proof. intros Hr. unfold measure. rewrite remaining_drop. lia. Qed.

Lemma safe_CharacterReferenceInDataState : safe CharacterReferenceInDataState.
Proof.
  enter_case. unfold st_CharacterReferenceInDataState. apply wp_bind.
  eapply wp_processEntity; [done|done|done| |]; cbn [negb].
  - by apply RETURN_IN_CURRENT_STATE_ok; [suits_tac|..].
  - intros t' n Hh'. apply SWITCH_TO_ok; [suits_tac|by apply sourceOk_drop|done|by apply measure_drop; simpl; lia|done].
Qed.

Lemma safe_CharacterReferenceInRCDATAState : safe CharacterReferenceInRCDATAState.
Proof.
  enter_case. unfold st_CharacterReferenceInRCDATAState. apply wp_bind.
  eapply wp_processEntity; [done|done|done| |]; cbn [negb].
  - by apply RETURN_IN_CURRENT_STATE_ok; [suits_tac|..].
  - intros t' n Hh'. apply SWITCH_TO_ok; [suits_tac|by apply sourceOk_drop|done|by apply measure_drop; simpl; lia|done].
Qed.

Lemma safe_CharacterReferenceInAttributeValueState : safe CharacterReferenceInAttributeValueState.
Proof.
  enter_case. unfold st_CharacterReferenceInAttributeValueState. apply wp_bind, wp_getTok.
  rewrite (holds_additional _ _ _ _ Hh). specialize (Ha eq_refl). apply wp_bind, wp_reference; [by right|done|done|].
  intros r n [Hn Hr]. destruct (ref_notEnough r) eqn:Hmore.
  { destruct (ref_success r); [by destruct Hr as (_ & ? & _)|]. destruct Hr as [-> _]. rewrite l_drop_0.
    by apply RETURN_IN_CURRENT_STATE_ok; [suits_tac|..]. }
  apply wp_bind. assert (Hswitch : ∀ t', holds KAttribute false a t' →
    wp (if a =? cQuote then SWITCH_TO AttributeValueDoubleQuotedState
        else if a =? cApostrophe then SWITCH_TO AttributeValueSingleQuotedState
        else ASSERT (a =? cGreater);; SWITCH_TO AttributeValueUnquotedState)
      (leaves bound (measure CharacterReferenceInAttributeValueState src)) (mkWorld t' (l_drop n src))).
  { intros t' Hh'. assert (Hcons : true = true → 0 < l_consumed (l_drop n src)) by (intros _; simpl; lia).
    run_case; [| |apply wp_bind, wp_ASSERT; [lia|]].
    all: apply SWITCH_TO_ok; [suits_tac|by apply sourceOk_drop|done|apply measure_drop; simpl; lia|done]. }
  destruct (ref_success r); cbn [negb].
  - destruct Hr as (_ & _ & _ & Hdec). apply (wp_forEach _ KAttribute false a); [|done|done].
    eapply Forall_impl; [exact Hdec|]. intros x Hx t' Q' Hh' HQ'. simpl in Hx.
    eapply wp_onToken; [done|apply kinded_appendToAttributeValue; lia|done].
  - destruct Hr as [_ Hd]. apply wp_bind, wp_ASSERT; [by apply bool_decide_eq_true|].
    eapply wp_onToken; [done|by apply kinded_appendToAttributeValue|done].
Qed.

(** *** Look-aheads *)

Lemma lookAhead_ok bound now s literal ci matched otherwise t src :
  (∀ n, n = length literal → wp matched (leaves bound now) (mkWorld t (l_drop n src))) →
  wp otherwise (leaves bound now) (mkWorld t src) →
  suits s t → sourceOk src → (isTagKind (kindOf s) = true → 0 < l_consumed src) →
  (m_type (m_token t) = Character → (measure s src < bound)%nat) → (measure s src ≤ bound)%nat →
  lookingAhead s = true →
  wp (lookAhead s literal ci matched otherwise) (leaves bound now) (mkWorld t src).
Proof.
  intros Hmatch Hother Hs Hsrc Htag Htxt Hm Hla. unfold lookAhead. apply wp_bind.
  unfold wp at 1, lookFor, onSrc. cbn. destruct (l_advancePast literal ci src) as [r src'] eqn:E.
  destruct (l_advancePast_cases _ _ _ _ _ E) as [(-> & -> & _)|[(-> & -> & _)|(-> & -> & _)]]; simpl.
  - by apply RETURN_IN_CURRENT_STATE_ok.
  - done.
  - by apply Hmatch.
Qed.

Lemma safe_MarkupDeclarationOpenState : safe MarkupDeclarationOpenState.
Proof.
  enter_case. unfold st_MarkupDeclarationOpenState. apply wp_bind, wp_getTok.
  assert (Hother : wp (parseError;; RECONSUME_IN BogusCommentState c)
    (leaves bound (measure MarkupDeclarationOpenState src)) (mkWorld t src)) by run_case.
  repeat match goal with |- wp (if ?b then _ else _) _ _ => destruct b end; try done.
  all: apply lookAhead_ok; try done; [|suits_tac]; intros n Hn; run_case.
  all: apply SWITCH_TO_ok; [suits_tac|by apply sourceOk_drop|done|apply measure_drop; simpl; lia|done].
Qed.

Lemma safe_AfterDOCTYPENameState : safe AfterDOCTYPENameState.
Proof.
  enter_case. unfold st_AfterDOCTYPENameState, quirksAndReconsume, quirksAndBogus. run_case.
  all: apply lookAhead_ok; try done; [|run_case|suits_tac]; intros n Hn.
  all: pose proof (remaining_pos src Hne); apply SWITCH_TO_ok;
    [suits_tac|by apply sourceOk_drop|done| |done]; unfold measure; rewrite remaining_drop; simpl in *; lia.
Qed.

(** *** End tags in RCDATA, RAWTEXT and script data *)

Lemma exit_pending bound a t src :
  m_type (m_token t) = Character → holds KText true a t →
  m_state t = DataState ∨ m_state t = BeforeAttributeNameState ∨ m_state t = SelfClosingStartTagState →
  sourceOk src → 0 < l_consumed src → (measure (m_state t) src + 1 < bound)%nat → exit bound true (mkWorld t src).
Proof.
  intros Hty Hh Hst Hsrc Hcons Hlt. split; [by cbn; rewrite Hty|]. split; [by destruct Hh|].
  pose proof (holds_released _ _ _ _ Hh) as Hr. split_and!; [| |by cbn; rewrite Hty].
  - constructor; cbn; try done. right. split; [|done]. by rewrite (holds_additional _ _ _ _ Hr).
  - unfold work, pendingCount. cbn. by case_match; lia.
Qed.

Lemma wp_ASSERT_release e {St} (Q : unit → St → Prop) s :
  ASSERT_DISABLED = true ∨ e = true → Q tt s → wp (ASSERT e) Q s.
Proof. intros [Hd|He] HQ; [|by apply wp_ASSERT]. unfold wp, ASSERT. by rewrite Hd. Qed.

Section EndTagName.
Variables (current fallback : State).
Hypothesis Hcurrent : bufferingName current = true.
Hypothesis Hfallback : kindOf fallback = KText ∧ bufferingName fallback = false ∧ rank fallback = 1%nat ∧
  fallback ≠ DataState ∧ fallback ≠ CharacterReferenceInAttributeValueState.
Variables (bound : nat) (c : Z) (t : HTMLTokenizer) (src : LSource) (a : Z).
Hypothesis Hh : holds KText true a t.
Hypothesis Hsrc : sourceOk src.
Hypothesis Hpre : preprocessed c src.
Hypothesis Hu : isUChar c.
Hypothesis Hne : l_chars src ≠ [].
Hypothesis Hlf : c ≠ cLineFeed → l_current src ≠ cLineFeed.
Hypothesis Hcur : ASSERT_DISABLED = true ∨ c = replacementCharacter ∨ l_current src = c.
Hypothesis Hm : (measure current src ≤ bound)%nat.

Lemma current_facts : kindOf current = KText ∧ rank current = 2%nat ∧ inEndTagBufferingState current = true.
Proof using Hcurrent. clear - Hcurrent. destruct current; done. Qed.

(** Not the end tag that is looked for: the buffered characters are text. *)
Lemma notAnEndTag_ok :
  wp (bufferASCIICharacter cLess;;
      bufferASCIICharacter cSlash;;
      buffer ← getTok m_temporaryBuffer;
      onToken (appendToCharacterVector buffer);;
      modTok (set_buffered []);;
      modTok (set_temporary []);;
      RECONSUME_IN fallback c) (leaves bound (measure current src)) (mkWorld t src).
Proof using Hcurrent Hfallback Hh Hsrc Hpre Hm.
  destruct current_facts as (_ & Hrank & _), Hfallback as (Hk & Hb & Hr & Hnd & Hnc).
  apply wp_bind. eapply wp_bufferASCIICharacter; [lia|exact Hh|]. intros tk1 _ Hh1.
  apply wp_bind. eapply wp_bufferASCIICharacter; [lia|exact Hh1|]. intros tk2 Hty Hh2.
  apply wp_bind, wp_getTok, wp_bind. eapply wp_flushTemporary; [done|exact Hh2|]. intros t3 Hh3.
  apply wp_bind, wp_modTok, wp_bind, wp_modTok. apply holds_unbuffered, holds_temporary_nil in Hh3.
  eapply (RECONSUME_IN_ok _ _ _ _ a); try done.
  - rewrite kindAt_other, Hk, Hb by done. exact Hh3.
  - by rewrite Hk.
  - unfold measure. lia.
Qed.

Lemma commitToPartialEndTag_ok st :
  st = BeforeAttributeNameState ∨ st = SelfClosingStartTagState →
  isTokenizerWhitespace c = true ∨ c = cSlash →
  wp (emit ← commitToPartialEndTag c st;
      if (emit : bool) then mret (Return true) else SWITCH_TO st)
    (leaves bound (measure current src)) (mkWorld t src).
Proof using Hcurrent Hfallback Hh Hsrc Hu Hne Hcur Hm.
  intros Hst Hc. destruct current_facts as (_ & Hrank & _).
  assert (Hc' : 0 < c < 128) by (unfold isTokenizerWhitespace in Hc; lia).
  pose proof (remaining_pos src Hne). assert (Hrk : (rank st ≤ 3)%nat) by (destruct Hst as [-> | ->]; simpl; lia).
  apply wp_bind. unfold commitToPartialEndTag. apply wp_bind, wp_gets, wp_bind, wp_ASSERT_release.
  { destruct Hcur as [|[Hx|Hx]]; [by left|unfold replacementCharacter in Hx; lia|right]. cbn. by apply Z.eqb_eq. }
  apply wp_bind. eapply wp_appendToTemporaryBuffer; [lia|exact Hh|]. intros t1 Htok Hh1.
  apply wp_bind, wp_advance_nonempty; [done|]. apply wp_bind, wp_getTok.
  assert (Hcons : 0 < l_consumed (l_drop 1 src)) by (destruct Hsrc; simpl; lia).
  assert (Hmeas : (measure st (l_drop 1 src) + 1 < measure current src)%nat)
    by (unfold measure; rewrite remaining_drop; lia).
  unfold haveBufferedCharacterToken. case_bool_decide as Hty.
  - apply wp_bind, wp_modTok, wp_ret, wp_ret.
    apply (exit_pending bound a); cbn; [done|by apply holds_state|auto|by apply sourceOk_drop|done|lia].
  - apply wp_bind. eapply (wp_flushBufferedEndTag a).
    { destruct Hh1 as [[?|?] ? ? ? ?]; [by constructor|done]. }
    intros t2 _ _ Hh2. apply wp_ret, SWITCH_TO_ok; [|by apply sourceOk_drop|done|lia|done].
    exists a. destruct Hst as [-> | ->]; done.
Qed.

Lemma commitToCompleteEndTag_ok :
  c = cGreater → wp commitToCompleteEndTag (leaves bound (measure current src)) (mkWorld t src).
Proof using Hcurrent Hfallback Hh Hsrc Hpre Hne Hlf Hcur Hm Hu.
  intros Hc. destruct current_facts as (_ & Hrank & _). pose proof (remaining_pos src Hne).
  unfold commitToCompleteEndTag. apply wp_bind, wp_gets, wp_bind, wp_ASSERT_release.
  { destruct Hcur as [|[?|Hx]]; [by left|by subst c|right]. cbn. apply Z.eqb_eq. congruence. }
  apply wp_bind. eapply wp_appendToTemporaryBuffer; [lia|exact Hh|]. intros t1 Htok Hh1.
  apply wp_bind, wp_advancePastNonNewline; [done|apply Hlf; lia|]. apply wp_bind, wp_modTok, wp_bind, wp_getTok.
  assert (Hcons : 0 < l_consumed (l_drop 1 src)) by (destruct Hsrc; simpl; lia).
  assert (Hmeas : (measure DataState (l_drop 1 src) + 1 < measure current src)%nat)
    by (unfold measure; rewrite remaining_drop; simpl; lia).
  unfold haveBufferedCharacterToken. cbn. case_bool_decide as Hty.
  - apply wp_ret, (exit_pending bound a); cbn; [done|by apply holds_state|auto|by apply sourceOk_drop|done|lia].
  - apply wp_bind. eapply (wp_flushBufferedEndTag a).
    { destruct Hh1 as [[?|?] ? ? ? ?]; [by constructor|done]. }
    intros t2 Hst2 Hty2 Hh2. apply wp_ret, (exit_emit bound KTag a); try done; [|by apply sourceOk_drop| |by rewrite Hty2].
    + by destruct Hh2 as [[-> | ->] _ _ _ _].
    + unfold measure in Hmeas, Hm. simpl in Hmeas. lia.
Qed.

Lemma endTagNameCase_ok :
  wp (endTagNameCase current fallback c) (leaves bound (measure current src)) (mkWorld t src).
Proof using Hcurrent Hfallback Hh Hsrc Hpre Hu Hne Hlf Hcur Hm.
  destruct current_facts as (Hk & Hrank & _). unfold endTagNameCase.
  assert (Hsuits : ∀ t', holds KText true a t' → suits current t').
  { intros t' Hh'. exists a. rewrite Hk, Hcurrent. split; [done|]. intros Heq. by rewrite Heq in Hcurrent. }
  destruct (isASCIIAlpha c) eqn:Hal.
  - run_case. apply ADVANCE_PAST_NON_NEWLINE_TO_ok; [by apply Hsuits|done|done|newline_tac|measure_tac|done].
  - apply wp_bind, wp_getTok. cbn zeta. pose proof notAnEndTag_ok as Hnot.
    destruct (isTokenizerWhitespace c) eqn:Hws.
    { destruct (isAppropriateEndTag t); [|done]. apply commitToPartialEndTag_ok; auto. }
    destruct (Z.eqb_spec c cSlash) as [Hc|_].
    { destruct (isAppropriateEndTag t); [|done]. rewrite <-Hc at 1. apply commitToPartialEndTag_ok; auto. }
    destruct (Z.eqb_spec c cGreater) as [Hc|_]; [|done].
    destruct (isAppropriateEndTag t); [|done]. by apply commitToCompleteEndTag_ok.
Qed.

End EndTagName.

Lemma endTagName_safe s : bufferingName s = true → safe s.
Proof.
  destruct s; intros Hs; try discriminate Hs; enter_case; (eapply endTagNameCase_ok; [done|done|exact Hh|done..]).
Qed.

Lemma step_safe s : safe s.
Proof.
  destruct (plainCase s) eqn:E; [by apply plain_safe|].
  destruct (bufferingName s) eqn:E'; [by apply endTagName_safe|].
  destruct s; try discriminate E; try discriminate E'.
  - apply safe_DataState.
  - apply safe_CharacterReferenceInDataState.
  - apply safe_CharacterReferenceInRCDATAState.
  - apply safe_CharacterReferenceInAttributeValueState.
  - apply safe_MarkupDeclarationOpenState.
  - apply safe_AfterDOCTYPENameState.
Qed.

(** ** The whole of [processToken] *)

Lemma run_ok fuel bound s c w :
  entry bound s c w → (measure s (w_src w) < fuel)%nat → wp (run fuel s c) (exit bound) w.
Proof.
  revert s c w. induction fuel as [|fuel IH]; intros s c w He Hf; [lia|]. cbn [run].
  apply wp_bind. eapply wp_mono; [by apply step_safe|]. intros [b|s' c'] w' Hl; [by apply wp_ret|].
  destruct Hl as [He' Hlt]. apply IH; [done|lia].
Qed.

Lemma processInput_ok t src :
  suits (m_state t) t → sourceOk src → (isTagKind (kindOf (m_state t)) = true → 0 < l_consumed src) →
  m_type (m_token t) ≠ Character →
  wp processInput (exit (measure (m_state t) src)) (mkWorld t src).
Proof.
  intros Hs Hsrc Htag Hty. unfold processInput. apply wp_bind, wp_getTok, wp_bind, wp_getTok, wp_bind.
  pose proof (looksAt_switch src Hsrc (neverSkipNullCharacters t) (isNullCharacterSkippingState (m_state t)) (m_preprocessor t)) as Hpeek.
  unfold wp at 1, onPre. unfold wp in Hpeek. cbn [w_tok w_src].
  destruct (peek _ _ _) as [[b [p src']]|]; [|done]. destruct Hpeek as ((n & Hn & Heq) & Hb). cbn in Heq, Hb. subst src'.
  set (t1 := set_preprocessor p t). assert (Hs1 : suits (m_state t) t1).
  { destruct Hs as (a & Hh & Ha). exists a. split; [by apply holds_preprocessor|done]. }
  assert (Hm : (measure (m_state t) (l_drop n src) ≤ measure (m_state t) src)%nat)
    by (unfold measure; rewrite remaining_drop; lia).
  assert (Hc : isTagKind (kindOf (m_state t)) = true → 0 < l_consumed (l_drop n src)) by (intros ?%Htag; simpl; lia).
  destruct b; cbn [negb].
  - apply wp_bind, wp_getTok, wp_bind, wp_gets. cbn [w_src]. apply run_ok.
    + constructor; cbn; try done; [|by apply sourceOk_drop].
      destruct Hs1 as (a & Hh & Ha). exists a. split; [by apply holds_at|done].
    + cbn. unfold measure, processFuel. cbn. fold (remaining (l_drop n src)).
      pose proof (rank_le (m_state t)). lia.
  - apply wp_getTok. pose proof (exit_have (measure (m_state t) src) (m_state t) t1 (l_drop n src)) as Hx.
    replace (set_state (m_state t) t1) with t1 in Hx by (unfold t1; by destruct t).
    apply Hx; try done; [by apply sourceOk_drop|by left].
Qed.

Lemma ready_pending w : ready w → hasPendingEndTag (w_tok w) = true → pendingTag (w_tok w).
Proof.
  intros [_ _ _ [Hs|Hp]] Hpend; [|done]. pose proof (suits_no_pending _ _ Hs eq_refl) as Hz.
  unfold pendingCount in Hz. by rewrite Hpend in Hz.
Qed.

Lemma ready_suits w : ready w → hasPendingEndTag (w_tok w) = false → suits (m_state (w_tok w)) (w_tok w).
Proof.
  intros [_ _ _ [Hs|[Hh Hst]]] Hpend; [done|]. exfalso. unfold hasPendingEndTag in Hpend.
  pose proof (holds_buffered _ _ _ _ Hh) as Hb. simpl in Hb. rewrite bool_decide_true in Hpend by done.
  by destruct Hst as [Hst|[Hst|Hst]]; rewrite Hst in Hpend.
Qed.

Lemma processToken_ok w : ready w → wp processToken (exit (work w)) w.
Proof.
  intros Hr. destruct w as [t src]. unfold processToken. apply wp_bind, wp_getTok.
  pose proof Hr as [Hsrc Hcons Hty _]. cbn in Hsrc, Hcons, Hty.
  assert (Hwork : work (mkWorld t src) = (measure (m_state t) src + pendingCount t)%nat) by done.
  destruct (hasPendingEndTag t) eqn:Hp.
  - destruct (ready_pending _ Hr Hp) as [Hh Hst]. cbn in Hh, Hst. unfold pendingCount in Hwork. rewrite Hp in Hwork.
    apply wp_bind. eapply wp_flushBufferedEndTag; [exact Hh|]. intros t' Hst' Hty' Hh'. apply wp_bind, wp_getTok.
    unfold isInDataState. rewrite Hst'. case_bool_decide as Hdata.
    + apply wp_ret. eapply exit_emit; [|exact Hh'|congruence|done| |by rewrite Hty'].
      * by destruct Hh' as [[-> | ->] _ _ _ _].
      * rewrite Hwork. unfold measure. lia.
    + eapply wp_mono.
      * apply processInput_ok; try done; [|by rewrite Hst'|by destruct Hh' as [[-> | ->] _ _ _ _]].
        exists (m_additionalAllowedCharacter t). rewrite Hst'. split; [by destruct Hst as [|[-> | ->]]|].
        by destruct Hst as [-> |[-> | ->]].
      * intros b w'. rewrite Hst', Hwork. unfold exit. destruct b; [|intros (? & ? & ?); split_and!; try done; lia].
        intros (? & ? & ? & ? & Hstart). split_and!; try done; [lia|].
        intros (? & ? & ?)%Hstart. split_and!; try done. lia.
  - unfold pendingCount in Hwork. rewrite Hp, Nat.add_0_r in Hwork. rewrite Hwork.
    apply processInput_ok; try done. by apply ready_suits in Hr.
Qed.

(** ** Reading all the tokens of an input *)

(** A token the tree builder can use. *)
Definition emittedOk (token : HTMLToken) : Prop := m_type token ≠ Uninitialized ∧ tokenWf token.

(** The states a reader of start tags moves the tokenizer to: the tree builder as it
    inserts the element, the preload scanner with [updateStateFor]. *)
Definition textState (s : State) : bool :=
  match s with DataState | RCDATAState | RAWTEXTState | ScriptDataState | PLAINTEXTState => true | _ => false end.

Definition movedTo (s : State) (w : World LSource) : World LSource := mkWorld (set_state s (w_tok w)) (w_src w).

(** The world after a call may be used for the next one, and less is left to do. *)
Definition goesOn (bound : nat) (w : World LSource) : Prop := ready w ∧ (work w < bound)%nat.

(** What a call of [nextToken] promises about the token it gives, if any. *)
Definition given (bound : nat) (o : option HTMLToken) (w : World LSource) : Prop :=
  match o with
  | Some token => emittedOk token ∧ goesOn bound (released w) ∧
      (m_type token = StartTag → ∀ s, textState s = true → goesOn bound (released (movedTo s w)))
  | None => ready w ∧ (work w ≤ bound)%nat ∧ (l_chars (w_src w) = [] ∨ lookingAhead (m_state (w_tok w)) = true)
  end.

Lemma textState_facts s : textState s = true →
  kindOf s = KText ∧ bufferingName s = false ∧ (rank s ≤ 1)%nat ∧ s ≠ CharacterReferenceInAttributeValueState.
Proof. destruct s; intros Hs; try discriminate Hs; split_and!; try done; simpl; lia. Qed.

(** After a start tag the tokenizer can be moved to a text state. *)
Lemma startTag_moves bound s w :
  ready (released w) → startTagLeft bound w → textState s = true → goesOn bound (released (movedTo s w)).
Proof.
  intros [Hsrc _ Hty Htok] (Hst & Hbuf & Hlt) (Hk & Hb & Hr & Hne)%textState_facts. destruct w as [t src].
  cbn in Hsrc, Hty, Htok, Hst, Hbuf, Hlt. rewrite Hst in Htok.
  assert (Hsuits : suits s (releaseToken (set_state s t))).
  { destruct Htok as [(a & Hh & _)|[Hh _]]; [|by apply holds_buffered in Hh]. exists a. rewrite Hk, Hb.
    split; [by destruct Hh|]. intros Heq. by rewrite Heq in Hne. }
  split.
  - constructor; cbn; try done; [by rewrite Hk|by left].
  - unfold work. cbn [w_tok w_src released movedTo]. rewrite (suits_no_pending s) by done.
    unfold measure. cbn [m_state releaseToken set_state set_token]. lia.
Qed.

Lemma nextToken_ok w : ready w → ∃ o w', nextToken w = Some (o, w') ∧ given (work w) o w'.
Proof.
  intros (b & w' & Hrun & Hex)%processToken_ok%wp_elim. unfold nextToken, mbind, M_bind. rewrite Hrun.
  destruct b; [exists (Some (m_token (w_tok w'))), w'|by exists None, w'].
  split; [done|]. destruct Hex as (? & ? & Hr & ? & Hstart). split; [done|]. split; [by split|].
  intros Hs%Hstart s. by apply startTag_moves.
Qed.

Lemma updateStateFor_moves name t : ∃ s, updateStateFor name t = set_state s t ∧ (s = m_state t ∨ textState s = true).
Proof.
  unfold updateStateFor. repeat case_match; eauto. exists (m_state t). split; [by destruct t|by left].
Qed.

(** A turn of the scanner: its tokenizer is moved on, and goes on. *)
Lemma scanToken_ok bound token w : given bound (Some token) w → goesOn bound (released (scanToken token w)).
Proof.
  intros (_ & Hgo & Hstart). unfold scanToken. case_bool_decide as Hty; [|done].
  destruct (updateStateFor_moves (tagNameOf (m_data token)) (w_tok w)) as (s & -> & [-> | Hs]); [|by apply Hstart].
  replace (set_state _ (w_tok w)) with (w_tok w) by (by destruct (w_tok w)). by destruct w.
Qed.

(** What [scanTokens] gives. *)
Definition scannedOk (bound : nat) (l : list HTMLToken) (w : World LSource) : Prop :=
  Forall emittedOk l ∧ (length l ≤ bound)%nat ∧ ready w ∧
  (l_chars (w_src w) = [] ∨ lookingAhead (m_state (w_tok w)) = true).

Lemma scanTokens_ok fuel w :
  ready w → (work w < fuel)%nat → ∃ l w', scanTokens fuel w = Some (l, w') ∧ scannedOk (work w) l w'.
Proof.
  revert w. induction fuel as [|fuel IH]; intros w Hr Hf; [lia|]. cbn [scanTokens].
  destruct (nextToken_ok w Hr) as ([token|] & w' & -> & Ho); cbn.
  - destruct (scanToken_ok _ _ _ Ho) as [Hr' Hlt]. destruct (IH _ Hr') as (l & w'' & -> & Hl & Hn & Hr'' & Hend); [lia|].
    cbn. exists (token :: l), w''. split; [done|]. destruct Ho as [Hok _].
    split; [by constructor|]. split; [simpl; lia|done].
  - destruct Ho as (Hr' & _ & Hend). exists [], w'. split; [done|]. split; [done|]. split; [simpl; lia|done].
Qed.

Lemma work_fuel w : (work w < scanFuel (w_src w))%nat.
Proof.
  unfold work, scanFuel, measure, remaining, pendingCount. cbn [src_length LSource_CharSource]. rewrite Nat2Z.id.
  pose proof (rank_le (m_state (w_tok w))). case_match; lia.
Qed.

Lemma new_ready options src : sourceOk src → ready (mkWorld (newTokenizer options) src).
Proof. intros Hs. constructor; cbn; try done. left. exists 0. by split; [constructor; cbn; auto|]. Qed.

End Safety.

(** ** Properties *)

(** C1: Memory safety, assertion safety and termination of [processToken] on the
    reference source (a list of characters), for every list of UTF-16 code units, which in
    a debug build ([ASSERT] enabled) has no CR, and every state the tokenizer can be in between
    two calls. The call returns: no pointer to an absent attribute or absent doctype data is
    followed, no [ASSERT] fails, the preprocessor and the entity parser end, and
    the jumps between the cases are at most as many as the bound of the model.
    When it returns a token, the token is well-formed (text and comments know
    whether they fit in 8 bits, tags and text are not empty, a DOCTYPE has its
    data), and once it is dropped the tokenizer is ready for the next call with
    less work left; after a start tag this holds too when the reader first moves the tokenizer to the
    data, RCDATA, RAWTEXT, script data or PLAINTEXT state. When it returns none, it is ready too and
    either all input is consumed or it waits in one of the five look-ahead states. With
    a CR a debug build can fail: [partialEndTag_assertion_fails]. *)
Theorem processToken_safe `{Build} `{HTMLEntityTableLaws} (w : World LSource) :
  ready w → ∃ o w', nextToken w = Some (o, w') ∧ given (work w) o w'.
Proof. apply nextToken_ok. Qed.

(** A tokenizer in the middle of an attribute value, in a debug build. *)
Definition sampleOptions : HTMLParserOptions := mkOptions true true false 512.
Definition sampleTag : HTMLToken :=
  mkToken StartTag [97] 97 false [mkAttribute [104] [] 3 0] (Some 0%nat) None 0.
Definition sampleTokenizer : HTMLTokenizer :=
  mkTokenizer AttributeValueDoubleQuotedState false false sampleTag 0 newPreprocessor [] [] [] sampleOptions.

Lemma processToken_safe_witness : let _ := Build_Build false in
  let w := mkWorld sampleTokenizer (mkLSource [120; 34; 62; 0] 6 true) in
  ∃ o w', nextToken w = Some (o, w') ∧ given (work w) o w'.
Proof.
  intros b w. apply (processToken_safe w). constructor.
  - constructor; [repeat constructor; by vm_compute|done|]. right. intros Hin%list_elem_of_In. simpl in Hin. lia.
  - done.
  - done.
  - left. exists 0. split; [|done]. constructor; try done. split; [by left|]. exists 0%nat. split; [done|]. simpl. lia.
Defined.

(** C8: The loop of [HTMLPreloadScanner::scan] ends, on the reference source. From every state the
    tokenizer can be in between two calls, for every list of UTF-16 code units
    (without CR in a debug build), taking tokens until there is none and moving the tokenizer
    with [updateStateFor] after each start tag ends without a fault after at most
    [4 * n + 4] tokens for [n] characters, hands out well-formed tokens only, and stops with all input
    consumed or waiting for more in a look-ahead state, ready to go on. *)
Theorem scanning_terminates `{Build} `{HTMLEntityTableLaws} (w : World LSource) :
  ready w → ∃ l w', scanTokens (scanFuel (w_src w)) w = Some (l, w') ∧
    scannedOk (4 * length (l_chars (w_src w)) + 4) l w'.
Proof.
  intros Hr. pose proof (work_fuel w) as Hf.
  destruct (scanTokens_ok (scanFuel (w_src w)) w Hr Hf) as (l & w' & Hl & Hall & Hn & Hrest). exists l, w'.
  split; [done|]. split; [done|]. split; [|done]. unfold scanFuel in Hf. cbn [src_length LSource_CharSource] in Hf. lia.
Qed.

Lemma scanning_terminates_witness : let _ := Build_Build true in
  let src := mkLSource (bytes "<title>a<p></title>x" ++ [13; 0]) 0 true in
  ∃ l w', scanTokens (scanFuel src) (mkWorld (newTokenizer sampleOptions) src) = Some (l, w') ∧
    scannedOk (4 * length (l_chars src) + 4) l w'.
Proof.
  intros b src. apply (scanning_terminates (mkWorld (newTokenizer sampleOptions) src)). apply new_ready. constructor.
  - repeat constructor; by vm_compute.
  - done.
  - by left.
Defined.

(** The one assertion that input can break. In a debug build, a CR right
    after the name of the end tag that closes an RCDATA element ([</title] CR)
    makes [commitToPartialEndTag] compare the preprocessed LF with the CR of the
    source: the assertion fails. *)
Theorem partialEndTag_assertion_fails :
  let _ := Build_Build false in
  let t := mkTokenizer RCDATAState false false newToken 0 newPreprocessor (bytes "title") [] [] sampleOptions in
  processToken (mkWorld t (mkLSource (bytes "</title" ++ [13; 62; 0]) 0 true)) = None.
Proof. by vm_compute. Qed.

(** C34: An input that ends inside the look-ahead for [doctype] never gets its
    end-of-file token. When all of a document is [<!] and then fewer than seven characters
    that begin with [d] or [D] (the end-of-file marker of a closed input is one of them), the
    tokenizer, in debug and in release builds, waits for the rest of [doctype]: it hands out no
    token at all, and none for the end of file, and however often it is called
    nothing changes. *)
Theorem endOfFile_starved `{Build} `{HTMLEntityTable} options c rest closed :
  c = 100 ∨ c = 68 → (length rest < 6)%nat →
  ∃ w', nextToken (mkWorld (newTokenizer options) (mkLSource (bytes "<!" ++ c :: rest) 0 closed)) = Some (None, w') ∧
    nextToken w' = Some (None, w') ∧
    m_state (w_tok w') = MarkupDeclarationOpenState ∧ l_chars (w_src w') = c :: rest.
Proof.
  intros Hc Hn.
  exists (mkWorld (mkTokenizer MarkupDeclarationOpenState false false newToken 0 (mkPre c false) [] [] [] options)
    (mkLSource (c :: rest) 2 closed)).
  destruct H as [[]], Hc as [-> | ->]; do 6 (destruct rest as [|? rest]; [split_and!; by vm_compute|]); simpl in Hn; lia.
Qed.

Lemma endOfFile_starved_witness : let _ := Build_Build false in
  ∃ w', nextToken (mkWorld (newTokenizer sampleOptions) (mkLSource (bytes "<!Doc" ++ [0]) 0 true)) = Some (None, w') ∧
    nextToken w' = Some (None, w') ∧
    m_state (w_tok w') = MarkupDeclarationOpenState ∧ l_chars (w_src w') = bytes "Doc" ++ [0].
Proof. intros b. apply (endOfFile_starved sampleOptions 68 [111; 99; 0] true); [by right|simpl; lia]. Defined.
