(* ===== verification/TokenizerRefinement.v ===== *)
(** * The tokenizer does not depend on how its input is stored

    The tokenizer reads its input through the interface [CharSource]. For every
    source that keeps the promises of [CharSourceLaws], tokenizing it gives the
    same tokens, in the same states, as tokenizing the reference source with the
    same characters: [processToken] on the one simulates [processToken] on the
    other, case by case. [SegmentedString] keeps those promises, so the theorems
    proved on the reference source hold for the input as the program stores it:
    in segments, in 8-bit and 16-bit strings, with characters pushed back.

    The theorems are about release builds. What is not the same are the offsets
    recorded in attributes, which come from the count of consumed characters. *)

From Stdlib Require Import String.
From S2P Require Import Prelude ASCIICType CharSource SegmentedString InputStreamPreprocessor HTMLEntitySearch.
From S2P Require Import HTMLEntityTable HTMLEntityParser HTMLToken HTMLTokenizer HTMLPreloadScanner TokenizerSafety.

(** ** Tokens that differ in attribute offsets only *)

Definition forget (a : Attribute) : Attribute := mkAttribute (attr_name a) (attr_value a) 0 0.

Record sameToken (t1 t2 : HTMLToken) : Prop := mkSameToken {
  same_type : m_type t1 = m_type t2;
  same_data : m_data t1 = m_data t2;
  same_check : m_data8BitCheck t1 = m_data8BitCheck t2;
  same_selfClosing : m_selfClosing t1 = m_selfClosing t2;
  same_attributes : forget <$> m_attributes t1 = forget <$> m_attributes t2;
  same_current : m_currentAttribute t1 = m_currentAttribute t2;
  same_doctype : m_doctypeData t1 = m_doctypeData t2;
}.

#[export] Instance sameToken_equivalence : Equivalence sameToken.
Proof.
  split.
  - by intros t.
  - by intros t1 t2 [].
  - intros t1 t2 t3 [] []. constructor; by etrans.
Qed.

(** Tokenizers that differ in the token's attribute offsets only. *)
Definition sameTokenizer (t1 t2 : HTMLTokenizer) : Prop :=
  set_token newToken t1 = set_token newToken t2 ∧ sameToken (m_token t1) (m_token t2).

#[export] Instance sameTokenizer_equivalence : Equivalence sameTokenizer.
Proof.
  split.
  - by intros t.
  - by intros t1 t2 [? ?].
  - intros t1 t2 t3 [? ?] [? ?]. split; by etrans.
Qed.

(** The queries of the tokenizer do not see the offsets. *)
#[export] Instance set_token_proper : Proper (sameToken ==> sameTokenizer ==> sameTokenizer) set_token.
Proof. intros tk1 tk2 Htk t1 t2 [Ht _]. split; [|done]. destruct t1, t2. by injection Ht as -> -> -> -> -> -> -> -> ->. Qed.

#[export] Instance m_token_proper : Proper (sameTokenizer ==> sameToken) m_token.
Proof. by intros t1 t2 [_ ?]. Qed.

#[export] Instance token_clear_proper : Proper (sameToken ==> sameToken) token_clear.
Proof. intros t1 t2 [? ? ? ? ? ? ?]. by constructor. Qed.

#[export] Instance releaseToken_proper : Proper (sameTokenizer ==> sameTokenizer) releaseToken.
Proof. intros t1 t2 Ht. unfold releaseToken. by apply set_token_proper; [apply token_clear_proper, m_token_proper|]. Qed.

Lemma sameTokenizer_cases t1 t2 :
  sameTokenizer t1 t2 → ∃ tk1 tk2, sameToken tk1 tk2 ∧ t1 = set_token tk1 t2 ∧ t2 = set_token tk2 t2 ∧ m_token t2 = tk2.
Proof.
  intros [Ht Htk]. exists (m_token t1), (m_token t2). split; [done|].
  destruct t1, t2. by injection Ht as -> -> -> -> -> -> -> -> ->.
Qed.

(** A function of the tokenizer that sees no more of the token than its type. *)
Lemma sameTokenizer_query {A} (f : HTMLTokenizer → A) t1 t2 :
  (∀ t tk1 tk2, m_type tk1 = m_type tk2 → f (set_token tk1 t) = f (set_token tk2 t)) →
  sameTokenizer t1 t2 → f t1 = f t2.
Proof.
  intros Hf (tk1 & tk2 & [Hty _ _ _ _ _ _] & -> & E & _)%sameTokenizer_cases. rewrite E at 2. by apply Hf.
Qed.

Section Refinement.
Context `{Build} `{HTMLEntityTable} {S : Type} `{CharSource S} `{!CharSourceLaws S}.
Hypothesis release : ASSERT_DISABLED = true.

(** ** The token operations *)

Lemma sim_assertType types : sim sameToken (assertType types) (assertType types).
Proof.
  unfold assertType. apply sim_bind; [|intros; apply sim_ASSERT].
  apply sim_gets. intros t1 t2 [Hty _ _ _ _ _ _]. unfold typeIs. by rewrite Hty.
Qed.

Lemma sim_withDoctypeData f : sim sameToken (withDoctypeData f) (withDoctypeData f).
Proof.
  intros t1 t2 [? ? ? ? ? ? Hd]. unfold withDoctypeData, modifyOpt. rewrite Hd.
  destruct (m_doctypeData t2); [|done]. eexists. split; [done|]. constructor; cbn; congruence.
Qed.

Lemma sim_withCurrentAttribute f1 f2 :
  (∀ a1 a2, forget a1 = forget a2 → forget (f1 a1) = forget (f2 a2)) →
  sim sameToken (withCurrentAttribute f1) (withCurrentAttribute f2).
Proof.
  intros Hf t1 t2 [? ? ? ? Ha Hc ?]. unfold withCurrentAttribute, modifyOpt. rewrite Hc.
  destruct (m_currentAttribute t2) as [i|] eqn:Hc2; [|done]. simpl.
  assert (Hi : forget <$> m_attributes t1 !! i = forget <$> m_attributes t2 !! i) by by rewrite <-!list_lookup_fmap, Ha.
  destruct (m_attributes t2 !! i) as [a2|]; [|done]. destruct (m_attributes t1 !! i) as [a1|]; [|done].
  injection Hi as Hi. simpl. eexists. split; [done|]. constructor; cbn; try congruence.
  rewrite !list_fmap_insert, Ha, (Hf a1 a2); [done|]. unfold forget. congruence.
Qed.

Lemma sim_ASSERT_release {S1 S2} (R : S1 → S2 → Prop) e1 e2 : sim R (ASSERT e1) (ASSERT e2).
Proof using release. unfold ASSERT. rewrite release. apply sim_ret. Qed.

Lemma sim_assertCurrentAttribute : sim sameToken assertCurrentAttribute assertCurrentAttribute.
Proof using release.
  unfold assertCurrentAttribute. intros t1 t2 Hs. unfold gets, ASSERT, mbind, M_bind. rewrite release. by exists t1.
Qed.

Ltac same_token :=
  let Hs := fresh in intros ? ? Hs; unfold beginTag; rewrite ?release; destruct Hs; cbn; first [congruence|constructor; cbn; congruence].

Ltac sim_token :=
  repeat match goal with
  | |- sim _ (_ ≫= _) (_ ≫= _) => apply sim_bind; [|intros ?]
  | |- sim _ (assertType _) _ => apply sim_assertType
  | |- sim _ assertCurrentAttribute _ => apply sim_assertCurrentAttribute
  | |- sim _ (ASSERT _) _ => apply sim_ASSERT_release
  | |- sim _ (mret _) _ => apply sim_ret
  | |- sim _ (withDoctypeData _) _ => apply sim_withDoctypeData
  | |- sim _ (withCurrentAttribute _) _ => apply sim_withCurrentAttribute; unfold forget; cbn; intros; congruence
  | |- sim _ (modify _) _ => apply sim_modify; same_token
  | |- sim _ (gets _) _ => apply sim_gets; same_token
  end.

Create HintDb token_ops.
#[local] Hint Unfold makeEndOfFile token_name appendToName setForceQuirks beginDOCTYPE beginDOCTYPE_with
  setPublicIdentifierToEmptyString setSystemIdentifierToEmptyString appendToPublicIdentifier appendToSystemIdentifier
  setSelfClosing beginStartTag beginEndTag beginEndTag_with beginAttribute endAttribute appendToAttributeName
  appendToAttributeValue appendToCharacter8 appendToCharacter16 appendToCharacterVector beginComment appendToComment : token_ops.

Lemma sim_beginAttribute o1 o2 : sim sameToken (beginAttribute o1) (beginAttribute o2).
Proof using release.
  unfold beginAttribute. sim_token. apply sim_modify. intros t1 t2 [? ? ? ? Ha ? ?].
  assert (Hlen : length (m_attributes t1) = length (m_attributes t2)) by by rewrite <-(length_fmap forget), Ha, length_fmap.
  constructor; cbn; try congruence.
  - by rewrite !fmap_app, Ha.
  - by rewrite !length_app, Hlen.
Qed.

Lemma sim_endAttribute o1 o2 : sim sameToken (endAttribute o1) (endAttribute o2).
Proof using release.
  unfold endAttribute. apply sim_bind; [sim_token|intros _].
  apply sim_bind; [sim_token|intros _]. rewrite release.
  intros t1 t2 Hs. unfold gets, mbind, M_bind. revert t1 t2 Hs.
  assert (Hany : ∀ b1 b2, sim sameToken
    (withCurrentAttribute (λ a, mkAttribute (attr_name a) (attr_value a) (startOffset a) (u32 (o1 - b1))))
    (withCurrentAttribute (λ a, mkAttribute (attr_name a) (attr_value a) (startOffset a) (u32 (o2 - b2))))).
  { intros b1 b2. sim_token. }
  intros t1 t2 Hs. specialize (Hany (m_attributeBaseOffset t1) (m_attributeBaseOffset t2) t1 t2 Hs).
  destruct (withCurrentAttribute _ t2) as [[[] t2']|]; [|done]. destruct Hany as (t1' & -> & Hs').
  by exists t1'.
Qed.

(** Every operation that takes no offset. *)
Ltac sim_token_op := autounfold with token_ops; sim_token.

(** ** The source *)

Lemma sim_srcgets {A} (f : S → A) (g : LSource → A) :
  (∀ s l, src_rel s l → f s = g l) → sim src_rel (gets f) (gets g).
Proof. apply sim_gets. Qed.

Lemma sim_src_op f g : simOpt src_rel f g → sim src_rel (src_op f) (src_op g).
Proof.
  intros Hf s l Hs. specialize (Hf s l Hs). unfold src_op, modifyOpt. destruct (g l) as [l'|]; [|done].
  destruct Hf as (s' & -> & Hs'). by exists s'.
Qed.

Lemma sim_liftOpt {A} (o : option A) : sim src_rel (liftOpt o) (liftOpt o).
Proof. intros s l Hs. unfold liftOpt. destruct o; simpl; [by exists s|done]. Qed.

Ltac sim_src :=
  repeat match goal with
  | |- sim _ (_ ≫= _) (_ ≫= _) => apply sim_bind; [|intros ?]
  | |- sim _ (mret _) _ => apply sim_ret
  | |- sim _ fault _ => apply sim_fault
  | |- sim _ (ASSERT _) _ => apply sim_ASSERT
  | |- sim _ (liftOpt _) _ => apply sim_liftOpt
  | |- sim _ (gets src_isEmpty) _ => apply sim_srcgets, law_isEmpty
  | |- sim _ (gets src_currentCharacter) _ => apply sim_srcgets, law_currentCharacter
  | |- sim _ (gets src_length) _ => apply sim_srcgets, law_length
  | |- sim _ (src_op src_advancePastNonNewline) _ => apply sim_src_op, law_advancePastNonNewline
  | |- sim _ (src_op (src_pushBack _)) _ => apply sim_src_op, law_pushBack, release
  | |- sim _ (unconsumeCharacters _) _ => unfold unconsumeCharacters
  | |- sim _ (if ?b then _ else _) (if ?b then _ else _) => destruct b
  end.

Lemma sim_consumeNamedLoop fuel search consumed cc :
  sim src_rel (consumeNamedLoop fuel search consumed cc) (consumeNamedLoop fuel search consumed cc).
Proof.
  revert search consumed cc. induction fuel as [|fuel IH]; intros search consumed cc; cbn [consumeNamedLoop]; sim_src.
  apply IH.
Qed.

Lemma sim_reconsumeLoop reference consumed :
  sim src_rel (reconsumeLoop reference consumed) (reconsumeLoop reference consumed).
Proof.
  revert consumed. induction reference as [|x reference IH]; intros consumed; cbn [reconsumeLoop]; sim_src. apply IH.
Qed.

Lemma sim_decideNamedEntity e a cc consumed :
  sim src_rel (decideNamedEntity e a cc consumed) (decideNamedEntity e a cc consumed).
Proof using release. unfold decideNamedEntity. sim_src. Qed.

Lemma sim_consumeNamedEntity a cc : sim src_rel (consumeNamedEntity a cc) (consumeNamedEntity a cc).
Proof using release.
  unfold consumeNamedEntity. sim_src; [apply sim_consumeNamedLoop|]. destruct a1 as [[search consumed] cc']. sim_src.
  destruct (mostRecentMatch search) as [e|]; sim_src; try apply sim_reconsumeLoop; apply sim_decideNamedEntity.
Qed.

Lemma sim_referenceLoop fuel a st result overflow consumed :
  sim src_rel (referenceLoop fuel a st result overflow consumed) (referenceLoop fuel a st result overflow consumed).
Proof using release.
  revert st result overflow consumed. induction fuel as [|fuel IH]; intros st result overflow consumed; cbn [referenceLoop].
  { apply sim_fault. }
  assert (Hend : ∀ c, sim src_rel (endNumeric c result overflow consumed) (endNumeric c result overflow consumed))
    by (intros; unfold endNumeric, finishNumeric; sim_src).
  sim_src. destruct st; sim_src; try apply IH; try apply Hend. apply sim_consumeNamedEntity.
Qed.

Lemma sim_consumeHTMLEntity a : sim src_rel (consumeHTMLEntity a) (consumeHTMLEntity a).
Proof using release. unfold consumeHTMLEntity, consumeCharacterReference. sim_src. apply sim_referenceLoop. Qed.

(** ** The preprocessor *)

Definition preRel (w1 : InputStreamPreprocessor * S) (w2 : InputStreamPreprocessor * LSource) : Prop :=
  fst w1 = fst w2 ∧ src_rel (snd w1) (snd w2).

Lemma sim_source_ {A} (f : S → A) (g : LSource → A) :
  (∀ s l, src_rel s l → f s = g l) → sim preRel (source_ f) (source_ g).
Proof. intros Hf. apply sim_gets. intros ? ? [_ Hs]. by apply Hf. Qed.

Lemma sim_advance_ f g : simOpt src_rel f g → sim preRel (advance_ f) (advance_ g).
Proof.
  intros Hf [p s] [p' l] [Hp Hs]. simpl in Hp, Hs. subst p'. specialize (Hf s l Hs). unfold advance_, modifyOpt. simpl.
  destruct (g l) as [l'|]; simpl; [|done]. destruct Hf as (s' & -> & Hs'). simpl. by exists (p, s').
Qed.

Ltac sim_pre :=
  repeat match goal with
  | |- sim _ (_ ≫= _) (_ ≫= _) => apply sim_bind; [|intros ?]
  | |- sim _ (mret _) _ => apply sim_ret
  | |- sim _ fault _ => apply sim_fault
  | |- sim _ (ASSERT _) _ => apply sim_ASSERT
  | |- sim _ next_ _ => apply sim_gets; by intros ? ? [-> _]
  | |- sim _ skip_ _ => apply sim_gets; by intros ? ? [-> _]
  | |- sim _ (set_next _) _ => apply sim_modify; by intros ? ? [-> ?]
  | |- sim _ (set_skip _) _ => apply sim_modify; by intros ? ? [-> ?]
  | |- sim _ (source_ src_isEmpty) _ => apply sim_source_, law_isEmpty
  | |- sim _ (source_ src_currentCharacter) _ => apply sim_source_, law_currentCharacter
  | |- sim _ (source_ src_length) _ => apply sim_source_, law_length
  | |- sim _ (source_ isAtEndOfFile) _ =>
      apply sim_source_; unfold isAtEndOfFile; intros ? ? Hs;
      by rewrite (law_isClosed _ _ Hs), (law_length _ _ Hs)
  | |- sim _ (advance_ src_advancePastNonNewline) _ => apply sim_advance_, law_advancePastNonNewline
  | |- sim _ (advance_ src_advancePastNewline) _ => apply sim_advance_, law_advancePastNewline
  | |- sim _ (advance_ src_advance) _ => apply sim_advance_, law_advance
  | |- sim _ (if ?b then _ else _) (if ?b then _ else _) => destruct b
  end.

Lemma sim_processNext fuel nv sk :
  sim preRel (processNextInputCharacter fuel nv sk) (processNextInputCharacter fuel nv sk).
Proof.
  induction fuel as [|fuel IH]; cbn [processNextInputCharacter]; [apply sim_fault|].
  assert (Hc : sim preRel (classify (processNextInputCharacter fuel nv sk) nv sk)
                          (classify (processNextInputCharacter fuel nv sk) nv sk))
    by (unfold classify; sim_pre; apply IH).
  sim_pre; apply Hc.
Qed.

Lemma sim_peek nv sk : sim preRel (peek nv sk) (peek nv sk).
Proof. unfold peek. sim_pre. apply sim_processNext. Qed.

Lemma sim_pre_advance nv sk : sim preRel (pre_advance nv sk) (pre_advance nv sk).
Proof. unfold pre_advance. sim_pre. apply sim_peek. Qed.

Lemma sim_pre_advancePastNonNewline nv sk : sim preRel (pre_advancePastNonNewline nv sk) (pre_advancePastNonNewline nv sk).
Proof. unfold pre_advancePastNonNewline. sim_pre. apply sim_peek. Qed.

(** ** The tokenizer *)

Record related (w1 : World S) (w2 : World LSource) : Prop := mkRelated {
  related_tok : sameTokenizer (w_tok w1) (w_tok w2);
  related_src : src_rel (w_src w1) (w_src w2);
}.

Lemma sim_getTok {A} (f : HTMLTokenizer → A) :
  (∀ t tk1 tk2, m_type tk1 = m_type tk2 → f (set_token tk1 t) = f (set_token tk2 t)) →
  sim related (getTok f) (getTok f).
Proof. intros Hf. apply sim_gets. intros w1 w2 [Ht _]. by apply (sameTokenizer_query f). Qed.

Lemma sim_modTok (f : HTMLTokenizer → HTMLTokenizer) :
  (∀ t tk, f (set_token tk t) = set_token tk (f t)) → sim related (modTok f) (modTok f).
Proof.
  intros Hf. apply sim_modify. intros [t1 s1] [t2 s2] [Ht Hs]. cbn in *. constructor; cbn; [|done].
  apply sameTokenizer_cases in Ht as (tk1 & tk2 & Htk & -> & E & _). rewrite E at 2. rewrite !Hf. by rewrite Htk.
Qed.

Lemma sim_onToken {A} (m1 m2 : M HTMLToken A) : sim sameToken m1 m2 → sim related (onToken m1) (onToken m2).
Proof.
  intros Hm [t1 s1] [t2 s2] [Ht Hs]. cbn in *. specialize (Hm _ _ (proj2 Ht)). unfold onToken. cbn.
  destruct (m2 (m_token t2)) as [[x tk2]|]; [|done]. destruct Hm as (tk1 & -> & Htk).
  eexists. split; [done|]. constructor; cbn; [|done]. by rewrite Ht, Htk.
Qed.

Lemma sim_onPre {A} (m1 : M (InputStreamPreprocessor * S) A) m2 :
  sim preRel m1 m2 → sim related (onPre m1) (onPre m2).
Proof.
  intros Hm [t1 s1] [t2 s2] [Ht Hs]. cbn in *.
  assert (Hp : m_preprocessor t1 = m_preprocessor t2) by (by apply sameTokenizer_query).
  specialize (Hm (m_preprocessor t1, s1) (m_preprocessor t2, s2) (conj Hp Hs)). unfold onPre. cbn.
  destruct (m2 _) as [[x [p2 s2']]|]; [|done]. destruct Hm as ([p1 s1'] & -> & Hp' & Hs'). cbn in Hp', Hs'. subst p2.
  eexists. split; [done|]. constructor; cbn; [|done].
  apply sameTokenizer_cases in Ht as (tk1 & tk2 & Htk & -> & E & _). rewrite E.
  change (sameTokenizer (set_token tk1 (set_preprocessor p1 t2)) (set_token tk2 (set_preprocessor p1 t2))). by rewrite Htk.
Qed.

Lemma sim_onSrc {A} (m1 : M S A) m2 : sim src_rel m1 m2 → sim related (onSrc m1) (onSrc m2).
Proof.
  intros Hm [t1 s1] [t2 s2] [Ht Hs]. cbn in *. specialize (Hm s1 s2 Hs). unfold onSrc. cbn.
  destruct (m2 s2) as [[x s2']|]; [|done]. destruct Hm as (s1' & -> & Hs'). eexists. split; [done|]. by constructor.
Qed.

Lemma sim_srcOp f g : simOpt src_rel f g → sim related (srcOp f) (srcOp g).
Proof.
  intros Hf [t1 s1] [t2 s2] [Ht Hs]. cbn in *. specialize (Hf s1 s2 Hs). unfold srcOp, modifyOpt. cbn.
  destruct (g s2) as [s2'|]; simpl; [|done]. destruct Hf as (s1' & -> & Hs'). simpl. eexists. split; [done|]. by constructor.
Qed.

Lemma sim_current {A} (f1 : Z → M (World S) A) f2 :
  (∀ c, sim related (f1 c) (f2 c)) →
  sim related (getSrc src_currentCharacter ≫= f1) (getSrc src_currentCharacter ≫= f2).
Proof.
  intros Hf. apply sim_bind; [|done]. apply sim_gets. intros ? ? [_ Hs]. by apply law_currentCharacter.
Qed.

(** The counts of consumed characters may differ: what follows must not care. *)
Lemma sim_consumed {A} (f1 : Z → M (World S) A) f2 :
  (∀ o1 o2, sim related (f1 o1) (f2 o2)) → sim related (consumed ≫= f1) (consumed ≫= f2).
Proof. intros Hf w1 w2 Hw. by apply Hf. Qed.

Lemma sim_lookFor literal ci : validLiteral literal → sim related (lookFor literal ci) (lookFor literal ci).
Proof using release.
  intros Hl. apply sim_onSrc. intros s l Hs. cbn. destruct (l_advancePast literal ci l) as [r l'] eqn:E.
  eapply law_advancePast; [exact release|done|done|]. cbn. by rewrite E.
Qed.

Lemma literals_valid :
  validLiteral lit_dashes ∧ validLiteral lit_doctype ∧ validLiteral lit_cdata ∧ validLiteral lit_public ∧ validLiteral lit_system.
Proof. unfold validLiteral. split_and!; try done; try (simpl; lia); repeat constructor; done. Qed.

Lemma sim_continueIn s more1 more2 :
  (∀ nv sk, sim preRel (more1 nv sk) (more2 nv sk)) → sim related (continueIn s more1) (continueIn s more2).
Proof.
  intros Hm. unfold continueIn. apply sim_bind; [by apply sim_getTok|]. intros nv.
  apply sim_bind; [by apply sim_onPre|]. intros [|].
  - apply sim_bind; [by apply sim_getTok|]. intros c. apply sim_ret.
  - apply sim_bind; [by apply sim_modTok|]. intros _. apply sim_bind; [|intros; apply sim_ret].
    apply sim_getTok. intros t tk1 tk2 Hty. unfold haveBufferedCharacterToken. cbn. by rewrite Hty.
Qed.

Lemma sim_haveBufferedCharacterToken : sim related (getTok haveBufferedCharacterToken) (getTok haveBufferedCharacterToken).
Proof. apply sim_getTok. intros t tk1 tk2 Hty. unfold haveBufferedCharacterToken. cbn. by rewrite Hty. Qed.

(** The helpers are unfolded down to the primitives. *)
Create HintDb helpers.
#[local] Hint Unfold RETURN_IN_CURRENT_STATE RECONSUME_IN parseError bufferASCIICharacter bufferCharacter
  saveEndTagNameIfNeeded emitAndResumeInDataState emitAndReconsumeInDataState emitEndOfFile processEntity
  flushBufferedEndTag appendToTemporaryBuffer appendToPossibleEndTag commitToPartialEndTag commitToCompleteEndTag
  assertNoBufferedEndTag endTagNameCase endAttributeHere lookAhead quirksAndResume quirksAndReconsume quirksAndBogus
  : helpers.

#[local] Hint Unfold
  st_DataState st_CharacterReferenceInDataState st_RCDATAState st_CharacterReferenceInRCDATAState
  st_RAWTEXTState st_ScriptDataState st_PLAINTEXTState st_TagOpenState st_EndTagOpenState st_TagNameState
  st_RCDATALessThanSignState st_RCDATAEndTagOpenState st_RCDATAEndTagNameState st_RAWTEXTLessThanSignState
  st_RAWTEXTEndTagOpenState st_RAWTEXTEndTagNameState st_ScriptDataLessThanSignState
  st_ScriptDataEndTagOpenState st_ScriptDataEndTagNameState st_ScriptDataEscapeStartState
  st_ScriptDataEscapeStartDashState st_ScriptDataEscapedState st_ScriptDataEscapedDashState
  st_ScriptDataEscapedDashDashState st_ScriptDataEscapedLessThanSignState
  st_ScriptDataEscapedEndTagOpenState st_ScriptDataEscapedEndTagNameState
  st_ScriptDataDoubleEscapeStartState st_ScriptDataDoubleEscapedState st_ScriptDataDoubleEscapedDashState
  st_ScriptDataDoubleEscapedDashDashState st_ScriptDataDoubleEscapedLessThanSignState
  st_ScriptDataDoubleEscapeEndState st_BeforeAttributeNameState st_AttributeNameState
  st_AfterAttributeNameState st_BeforeAttributeValueState st_AttributeValueDoubleQuotedState
  st_AttributeValueSingleQuotedState st_AttributeValueUnquotedState
  st_CharacterReferenceInAttributeValueState st_AfterAttributeValueQuotedState st_SelfClosingStartTagState
  st_BogusCommentState st_ContinueBogusCommentState st_MarkupDeclarationOpenState st_CommentStartState
  st_CommentStartDashState st_CommentState st_CommentEndDashState st_CommentEndState st_CommentEndBangState
  st_DOCTYPEState st_BeforeDOCTYPENameState st_DOCTYPENameState st_AfterDOCTYPENameState
  st_AfterDOCTYPEPublicKeywordState st_BeforeDOCTYPEPublicIdentifierState
  st_DOCTYPEPublicIdentifierDoubleQuotedState st_DOCTYPEPublicIdentifierSingleQuotedState
  st_AfterDOCTYPEPublicIdentifierState st_BetweenDOCTYPEPublicAndSystemIdentifiersState
  st_AfterDOCTYPESystemKeywordState st_BeforeDOCTYPESystemIdentifierState
  st_DOCTYPESystemIdentifierDoubleQuotedState st_DOCTYPESystemIdentifierSingleQuotedState
  st_AfterDOCTYPESystemIdentifierState st_BogusDOCTYPEState st_CDATASectionState
  st_CDATASectionRightSquareBracketState st_CDATASectionDoubleRightSquareBracketState : helpers.

Ltac sim_step :=
  match goal with
  | |- sim _ (consumed ≫= _) (consumed ≫= _) => apply sim_consumed; intros ? ?
  | |- sim _ (getSrc src_currentCharacter ≫= _) _ => apply sim_current; intros ?
  | |- sim _ (_ ≫= _) (_ ≫= _) => apply sim_bind; [|intros ?]
  | |- sim _ (mret _) _ => apply sim_ret
  | |- sim _ (ASSERT _) _ => apply sim_ASSERT_release
  | |- sim _ (getTok haveBufferedCharacterToken) _ => apply sim_haveBufferedCharacterToken
  | |- sim _ (getTok _) _ => apply sim_getTok; first [done|intros ? ? ? Hty; cbn; by rewrite ?Hty]
  | |- sim _ (modTok _) _ => by apply sim_modTok
  | |- sim _ (onToken (beginAttribute _)) _ => apply sim_onToken, sim_beginAttribute
  | |- sim _ (onToken (endAttribute _)) _ => apply sim_onToken, sim_endAttribute
  | |- sim _ (onToken (modify token_clear)) _ => apply sim_onToken, sim_modify; same_token
  | |- sim _ (onToken _) _ => apply sim_onToken; sim_token_op
  | |- sim _ (onSrc (consumeHTMLEntity _)) _ => apply sim_onSrc, sim_consumeHTMLEntity
  | |- sim _ (srcOp src_advance) _ => apply sim_srcOp, law_advance
  | |- sim _ (srcOp src_advancePastNonNewline) _ => apply sim_srcOp, law_advancePastNonNewline
  | |- sim _ (lookFor _ _) _ => apply sim_lookFor, literals_valid
  | |- sim _ (ADVANCE_TO _) _ => apply sim_continueIn, sim_pre_advance
  | |- sim _ (ADVANCE_PAST_NON_NEWLINE_TO _) _ => apply sim_continueIn, sim_pre_advancePastNonNewline
  | |- sim _ (SWITCH_TO _) _ => apply sim_continueIn, sim_peek
  | |- sim _ (if ?b then _ else _) (if ?b then _ else _) => destruct b
  end.

Lemma sim_forEach f1 f2 l :
  (∀ c, sim related (f1 c) (f2 c)) → sim related (forEach f1 l) (forEach f2 l).
Proof. intros Hf. induction l as [|c l IH]; simpl; [apply sim_ret|]. apply sim_bind; [done|]. by intros _. Qed.

Lemma sim_step_case s c : sim related (step s c) (step s c).
Proof using release.
  destruct s; cbn [step]; repeat autounfold with helpers; repeat sim_step.
  all: apply sim_forEach; intros; repeat autounfold with helpers; repeat sim_step.
Qed.

Lemma sim_run fuel s c : sim related (run fuel s c) (run fuel s c).
Proof using release.
  revert s c. induction fuel as [|fuel IH]; intros s c; cbn [run]; [apply sim_fault|].
  apply sim_bind; [apply sim_step_case|]. intros [b|s' c']; [apply sim_ret|apply IH].
Qed.

Lemma sim_processInput : sim related processInput processInput.
Proof using release.
  unfold processInput. apply sim_bind; [by apply sim_getTok|]. intros state.
  apply sim_bind; [by apply sim_getTok|]. intros never. apply sim_bind; [apply sim_onPre, sim_peek|]. intros [|]; cbn.
  - apply sim_bind; [by apply sim_getTok|]. intros c. apply sim_bind; [|intros; apply sim_run].
    apply sim_gets. intros ? ? [_ Hs]. unfold processFuel. by rewrite (law_length _ _ Hs).
  - apply sim_haveBufferedCharacterToken.
Qed.

Lemma sim_processToken : sim related processToken processToken.
Proof using release.
  unfold processToken. apply sim_bind; [by apply sim_getTok|]. intros [|]; [|apply sim_processInput].
  apply sim_bind; [repeat autounfold with helpers; repeat sim_step|]. intros _.
  apply sim_bind; [by apply sim_getTok|]. intros [|]; [apply sim_ret|apply sim_processInput].
Qed.

(** [nextToken] hands out the same token up to attribute offsets. *)
Lemma nextToken_refines w1 w2 o2 w2' :
  related w1 w2 → nextToken w2 = Some (o2, w2') →
  ∃ o1 w1', nextToken w1 = Some (o1, w1') ∧ related w1' w2' ∧
    match o1, o2 with Some t1, Some t2 => sameToken t1 t2 | None, None => True | _, _ => False end.
Proof using release.
  intros Hw. unfold nextToken, mbind, M_bind. destruct (processToken w2) as [[b w]|] eqn:E; [|done].
  destruct (sim_elim _ _ _ _ _ _ _ sim_processToken Hw E) as (w1' & -> & Hw').
  destruct b; intros [= <- <-]; eexists _, w1'; (split; [done|]); (split; [done|]); [|done].
  by destruct Hw' as [[_ Ht] _].
Qed.

Lemma related_released w1 w2 : related w1 w2 → related (released w1) (released w2).
Proof.
  intros [Ht Hs]. constructor; [|done]. cbn. by rewrite Ht.
Qed.

Lemma related_scanToken t1 t2 w1 w2 : sameToken t1 t2 → related w1 w2 → related (scanToken t1 w1) (scanToken t2 w2).
Proof.
  intros [Hty Hd _ _ _ _ _] Hw. unfold scanToken. rewrite Hty, Hd. case_bool_decide; [|done].
  destruct Hw as [(tk1 & tk2 & Htk & E1 & E2 & _)%sameTokenizer_cases Hs]. constructor; [|done]. cbn.
  rewrite E1. rewrite E2 at 2. generalize (w_tok w2). intros t. unfold updateStateFor. cbn [m_options set_token].
  repeat case_match; (split; [done|exact Htk]).
Qed.

Lemma scanTokens_refines fuel w1 w2 l2 w2' :
  related w1 w2 → scanTokens fuel w2 = Some (l2, w2') →
  ∃ l1 w1', scanTokens fuel w1 = Some (l1, w1') ∧ related w1' w2' ∧ Forall2 sameToken l1 l2.
Proof using release.
  revert w1 w2 l2. induction fuel as [|fuel IH]; intros w1 w2 l2 Hw; cbn [scanTokens]; [done|].
  destruct (nextToken w2) as [[o2 w]|] eqn:E; [|done]. simpl.
  destruct (nextToken_refines _ _ _ _ Hw E) as (o1 & w1' & -> & Hw' & Ho). simpl.
  destruct o2 as [t2|], o1 as [t1|]; try done.
  - destruct (scanTokens fuel (released (scanToken t2 w))) as [[l w']|] eqn:E'; [|done]. simpl. intros [= <- <-].
    destruct (IH _ _ _ (related_released _ _ (related_scanToken _ _ _ _ Ho Hw')) E') as (l1 & w1'' & -> & Hw'' & Hl). simpl.
    exists (t1 :: l1), w1''. split; [done|]. split; [done|]. by constructor.
  - intros [= <- <-]. by exists [], w1'.
Qed.

End Refinement.

Lemma sameToken_emittedOk t1 t2 : sameToken t1 t2 → emittedOk t2 → emittedOk t1.
Proof. intros [Hty Hd Hc _ _ _ Hdt]. unfold emittedOk, tokenWf. by rewrite Hty, Hd, Hc, Hdt. Qed.

(** ** The preload scanner *)

Section Scanner.
Context `{Build} `{HTMLEntityTable} `{laws : !HTMLEntityTableLaws}.
Hypothesis release : ASSERT_DISABLED = true.

(** The scanner reads what [w] reads: its source holds the same characters, and its tokenizer is
    the same up to attribute offsets and ready for a call. *)
Definition reads (scanner : HTMLPreloadScanner) (w : World LSource) : Prop :=
  related (mkWorld (ps_tokenizer scanner) (ps_source scanner)) w ∧ ready w.

Lemma new_reads options : reads (newPreloadScanner options) (mkWorld (newTokenizer options) (mkLSource [] 0 false)).
Proof using release.
  split; [constructor; [done|]; split; [apply empty_wf|by split_and!]|].
  apply new_ready. constructor; [constructor|done|by left].
Qed.

Lemma appendToEnd_reads string scanner w :
  reads scanner w → l_closed (w_src w) = false → ss_wf string → Forall isUChar (contents string) →
  room (length (contents string)) (w_src w) →
  ∃ scanner', appendToEnd string scanner = Some scanner' ∧ m_scanned scanner' = m_scanned scanner ∧
    reads scanner' (mkWorld (w_tok w) (l_append (contents string) (w_src w))).
Proof using release.
  intros [[Ht Hs] [[Hc Hn _] Htag Hty Htok]] Hcl Hwf Hall Hroom. destruct (rel_append string _ _ Hs Hwf Hcl Hroom) as (s' & E & Hs').
  cbn in E. unfold appendToEnd. rewrite E. eexists. split; [done|]. split; [done|]. split; [by constructor|].
  constructor; try done. constructor; cbn; [by apply Forall_app|done|by left].
Qed.

Lemma scan_reads scanner w :
  reads scanner w → ∃ scanner' l1 l2 w2, scan scanner = Some scanner' ∧ m_scanned scanner' = m_scanned scanner ++ l1 ∧
    scanTokens (scanFuel (w_src w)) w = Some (l2, w2) ∧ Forall emittedOk l1 ∧ Forall2 sameToken l1 l2 ∧ reads scanner' w2 ∧
    (l_chars (w_src w2) = [] ∨ lookingAhead (m_state (w_tok w2)) = true).
Proof using release laws.
  intros [Hw Hr]. destruct (scanTokens_ok _ w Hr (work_fuel w)) as (l2 & w2 & E2 & Hok & _ & Hr2 & Hend).
  destruct (scanTokens_refines release _ _ _ _ _ Hw E2) as (l1 & w1 & E1 & Hw1 & Hl).
  assert (Hfuel : scanFuel (ps_source scanner) = scanFuel (w_src w)).
  { unfold scanFuel. destruct Hw as [_ Hs]. by rewrite (law_length (ps_source scanner) (w_src w) Hs). }
  unfold scan. rewrite Hfuel, E1. eexists _, l1, l2, w2. split; [done|]. split; [done|]. split; [done|].
  split; [|split; [done|split; [split; [by destruct w1|done]|done]]]. clear - Hok Hl. induction Hl as [|t1 t2 l1 l2 Ht _ IH]; [done|].
  apply Forall_cons in Hok as [Hok ?]. constructor; [by eapply sameToken_emittedOk|by apply IH].
Qed.

End Scanner.

(** ** Properties *)

(** Representation independence of the tokenizer (forward simulation). In a
    release build, from related worlds, every call of [processToken] on a source
    that keeps the promises of [CharSourceLaws] gives the answer it gives on the
    reference source with the same characters, never faults when that one does
    not, and ends in a related world: same state, buffers and token, attribute
    offsets aside, and same characters left. *)
Theorem processToken_refines `{Build} `{HTMLEntityTable} {S} `{CharSource S} `{!CharSourceLaws S} w1 w2 b w2' :
  ASSERT_DISABLED = true → related w1 w2 → processToken w2 = Some (b, w2') →
  ∃ w1', processToken w1 = Some (b, w1') ∧ related w1' w2'.
Proof. intros release Hw E. by eapply sim_elim; [apply sim_processToken| |]. Qed.

(** C7: The preload scanner scans whatever it is given, release builds. Take a scanner in any
    state it can be in: a new one, or one that has been given text and has scanned it
    ([reads] relates its tokenizer and its segmented string to a tokenizer on the flat text).
    Appending a well-formed segmented string of UTF-16 code units (any segmentation, any mix
    of 8-bit and 16-bit strings; less than [2 ^ 32] characters in all) and scanning never
    faults and ends; every token handed on is well-formed, and the tokens are those that
    the loop gives on the flat text, up to attribute offsets; the scanner is then again in such a state. *)
Theorem preloadScanner_scans `{Build} `{HTMLEntityTableLaws} :
  ASSERT_DISABLED = true →
  (∀ options, reads (newPreloadScanner options) (mkWorld (newTokenizer options) (mkLSource [] 0 false))) ∧
  ∀ string scanner w,
    reads scanner w → l_closed (w_src w) = false →
    ss_wf string → Forall isUChar (contents string) → room (length (contents string)) (w_src w) →
    let text := mkWorld (w_tok w) (l_append (contents string) (w_src w)) in
    ∃ scanner1 scanner2 l1 l2 w2,
      appendToEnd string scanner = Some scanner1 ∧ scan scanner1 = Some scanner2 ∧
      m_scanned scanner2 = m_scanned scanner ++ l1 ∧
      scanTokens (scanFuel (w_src text)) text = Some (l2, w2) ∧
      Forall emittedOk l1 ∧ Forall2 sameToken l1 l2 ∧ reads scanner2 w2 ∧
      (l_chars (w_src w2) = [] ∨ lookingAhead (m_state (w_tok w2)) = true).
Proof.
  intros release. split; [by apply new_reads|]. intros string scanner w Hr Hcl Hwf Hall Hroom text.
  destruct (appendToEnd_reads release string scanner w Hr Hcl Hwf Hall Hroom) as (scanner1 & E1 & Hscanned & Hr1).
  destruct (scan_reads release scanner1 text Hr1) as (scanner2 & l1 & l2 & w2 & E2 & Hl1 & Hl2 & Hok & Hsame & Hr2 & Hend).
  exists scanner1, scanner2, l1, l2, w2. rewrite <-Hscanned. exact (conj E1 (conj E2 (conj Hl1 (conj Hl2 (conj Hok (conj Hsame (conj Hr2 Hend))))))).
Qed.

Lemma processToken_refines_witness : let _ := Build_Build true in
  ∃ w1' w2', processToken (mkWorld (newTokenizer sampleOptions) sampleSegments) = Some (true, w1') ∧ related w1' w2'.
Proof.
  intros b. set (w2 := mkWorld (newTokenizer sampleOptions) (mkLSource [97; 10; 8364; 98] 0 false)).
  assert (E : ∃ w2', processToken w2 = Some (true, w2')) by (eexists; vm_compute; reflexivity).
  destruct E as (w2' & E).
  destruct (@processToken_refines b theEntityTable SegmentedString _ _
    (mkWorld (newTokenizer sampleOptions) sampleSegments) w2 true w2' eq_refl) as (w1' & H1 & Hr).
  - constructor; [done|]. split; [apply sampleSegments_wf|]. by split_and!.
  - exact E.
  - exact (ex_intro _ w1' (ex_intro _ w2' (conj H1 Hr))).
Defined.

Lemma preloadScanner_scans_witness : let _ := Build_Build true in
  ∃ scanner1 scanner2, appendToEnd sampleSegments (newPreloadScanner sampleOptions) = Some scanner1 ∧
    scan scanner1 = Some scanner2 ∧ Forall emittedOk (m_scanned scanner2).
Proof.
  intros b. destruct (@preloadScanner_scans b theEntityTable _ eq_refl) as [Hnew Happend].
  destruct (Happend sampleSegments _ _ (Hnew sampleOptions)) as (scanner1 & scanner2 & l1 & l2 & w2 & E1 & E2 & El & _ & Hok & _).
  - done.
  - apply sampleSegments_wf.
  - repeat constructor; by vm_compute.
  - done.
  - exists scanner1, scanner2. rewrite El. exact (conj E1 (conj E2 Hok)).
Defined.
