(* ===== verification/BackForwardList.v ===== *)
(** * The back/forward list of a web view

    Model of [Source/WebKitLegacy/mui/BackForwardList.h] and [.cpp], the session
    history of a view: a vector of history items with a current index, a hash set
    of the same items, and a capacity. [m_current] is an [unsigned] whose largest
    value means that there is no current item; [size_t] is as wide as the platform
    says (32 bits on the Amiga targets). An access to the vector out of its bounds
    is a fault.

    The theorems show that the representation invariant holds along every
    sequence of operations a view performs, that the vector is never accessed out
    of bounds, and that the list refines the abstract history: the items behind,
    the current one and the items ahead. *)

From S2P Require Import Prelude.

(** The width of [size_t]. *)
Class Platform := { SIZE_BITS : Z; SIZE_BITS_ok : 32 ≤ SIZE_BITS }.

(** A history item is known by its address. *)
Abbreviation HistoryItem := positive (only parsing).

Definition DefaultCapacity : Z := 100.
Definition NoCurrentItemIndex : Z := 2 ^ 32 - 1.

Record BackForwardList := mkList {
  m_entries : list HistoryItem;
  m_entryHash : gset HistoryItem;
  m_current : Z;
  m_capacity : Z;
  m_closed : bool;
  m_enabled : bool;
  (** The items dropped from the page cache, [PageCache::singleton().remove(item)]. *)
  droppedFromPageCache : list HistoryItem;
}.

Definition newList : BackForwardList := mkList [] ∅ NoCurrentItemIndex DefaultCapacity true true [].

Definition set_entries (x : list HistoryItem) (l : BackForwardList) : BackForwardList :=
  mkList x (m_entryHash l) (m_current l) (m_capacity l) (m_closed l) (m_enabled l) (droppedFromPageCache l).
Definition set_hash (x : gset HistoryItem) (l : BackForwardList) : BackForwardList :=
  mkList (m_entries l) x (m_current l) (m_capacity l) (m_closed l) (m_enabled l) (droppedFromPageCache l).
Definition set_current (x : Z) (l : BackForwardList) : BackForwardList :=
  mkList (m_entries l) (m_entryHash l) x (m_capacity l) (m_closed l) (m_enabled l) (droppedFromPageCache l).
Definition set_capacity (x : Z) (l : BackForwardList) : BackForwardList :=
  mkList (m_entries l) (m_entryHash l) (m_current l) x (m_closed l) (m_enabled l) (droppedFromPageCache l).
Definition set_closed (x : bool) (l : BackForwardList) : BackForwardList :=
  mkList (m_entries l) (m_entryHash l) (m_current l) (m_capacity l) x (m_enabled l) (droppedFromPageCache l).
Definition set_enabled (x : bool) (l : BackForwardList) : BackForwardList :=
  mkList (m_entries l) (m_entryHash l) (m_current l) (m_capacity l) (m_closed l) x (droppedFromPageCache l).
Definition set_dropped (x : list HistoryItem) (l : BackForwardList) : BackForwardList :=
  mkList (m_entries l) (m_entryHash l) (m_current l) (m_capacity l) (m_closed l) (m_enabled l) x.

Definition size (l : BackForwardList) : Z := Z.of_nat (length (m_entries l)).

(** [m_entries[i]]: out of bounds is a fault. *)
Definition at_ (l : BackForwardList) (i : Z) : option HistoryItem :=
  if (0 <=? i) then m_entries l !! Z.to_nat i else None.

(** The bookkeeping when an item leaves the list. *)
Definition forgetItem (item : HistoryItem) (l : BackForwardList) : BackForwardList :=
  set_dropped (droppedFromPageCache l ++ [item]) (set_hash (m_entryHash l ∖ {[item]}) l).

Section Operations.
Context `{Build} `{Platform}.

Definition sz (z : Z) : Z := z mod 2 ^ SIZE_BITS.

Abbreviation ListM := (M BackForwardList).

(** [takeLast] and the bookkeeping. *)
Definition tossLast : ListM unit := modifyOpt (λ l,
  item ← last (m_entries l);
  Some (forgetItem item (set_entries (take (length (m_entries l) - 1) (m_entries l)) l))).

(** [while (keep(m_entries.size())) toss the last]; an iteration each shortens
    the vector, so its length bounds them. *)
Fixpoint tossWhile (fuel : nat) (tooLong : Z → bool) : ListM unit :=
  n ← gets size;
  if tooLong n then
    match fuel with
    | O => fault
    | S fuel => tossLast;; tossWhile fuel tooLong
    end
  else mret tt.

Definition tossFirst : ListM unit := modifyOpt (λ l,
  item ← head (m_entries l);
  Some (forgetItem item (set_entries (tail (m_entries l)) l))).

(** [m_entries.insert(i, item)]: a position beyond the end is a fault. *)
Definition insertAt (i : Z) (item : HistoryItem) : ListM unit := modifyOpt (λ l,
  if (0 <=? i) && (i <=? size l) then
    Some (set_entries (take (Z.to_nat i) (m_entries l) ++ item :: drop (Z.to_nat i) (m_entries l)) l)
  else None).

Definition addItem (newItem : HistoryItem) : ListM unit :=
  ignored ← gets (λ l, (m_capacity l =? 0) || negb (m_enabled l));
  if (ignored : bool) then mret tt
  else
    current ← gets m_current;
    n ← gets size;
    (if negb (current =? NoCurrentItemIndex) then
       let targetSize := u32 (current + 1) in
       tossWhile (Z.to_nat n) (λ size, targetSize <? size)
     else mret tt);;
    full ← gets (λ l, (size l =? m_capacity l) && (negb (m_current l =? 0) || (m_capacity l =? 1)));
    (if (full : bool) then
       tossFirst;; modify (λ l, set_current (u32 (m_current l - 1)) l)
     else mret tt);;
    modify (λ l, set_hash ({[newItem]} ∪ m_entryHash l) l);;
    i ← gets (λ l, u32 (m_current l + 1));
    insertAt i newItem;;
    modify (λ l, set_current (u32 (m_current l + 1)) l).

Definition goBack : ListM unit :=
  ok ← gets (λ l, 0 <? m_current l);
  ASSERT ok;;
  if (ok : bool) then modify (λ l, set_current (u32 (m_current l - 1)) l) else mret tt.

Definition goForward : ListM unit :=
  ok ← gets (λ l, m_current l <? sz (size l - 1));
  ASSERT ok;;
  if (ok : bool) then modify (λ l, set_current (u32 (m_current l + 1)) l) else mret tt.

(** The index of the first entry that is [item], or the size. *)
Fixpoint indexOf (item : HistoryItem) (entries : list HistoryItem) : nat :=
  match entries with
  | [] => 0
  | x :: entries => if bool_decide (x = item) then 0 else S (indexOf item entries)
  end.

Definition goToItem (item : HistoryItem) : ListM unit :=
  modify (λ l,
    if size l =? 0 then l
    else
      let index := Z.of_nat (indexOf item (m_entries l)) in
      if index <? size l then set_current index l else l).

(** [Some None] is the null pointer; the outer [None] a fault. *)
Definition backItem (l : BackForwardList) : option (option HistoryItem) :=
  if negb (m_current l =? 0) && negb (m_current l =? NoCurrentItemIndex)
  then item ← at_ l (u32 (m_current l - 1)); Some (Some item)
  else Some None.

Definition currentItem (l : BackForwardList) : option (option HistoryItem) :=
  if negb (m_current l =? NoCurrentItemIndex) then item ← at_ l (m_current l); Some (Some item) else Some None.

Definition forwardItem (l : BackForwardList) : option (option HistoryItem) :=
  if negb (size l =? 0) && (m_current l <? sz (size l - 1))
  then item ← at_ l (u32 (m_current l + 1)); Some (Some item)
  else Some None.

(** The entries with the indices [first], ..., [first + count - 1]. *)
Fixpoint collect (l : BackForwardList) (first : Z) (count : nat) : option (list HistoryItem) :=
  match count with
  | O => Some []
  | S count => item ← at_ l first; rest ← collect l (first + 1) count; Some (item :: rest)
  end.

Definition backListWithLimit (limit : Z) (l : BackForwardList) : option (list HistoryItem) :=
  if negb (m_current l =? NoCurrentItemIndex) then
    let first := Z.max (i32 (i32 (m_current l) - limit)) 0 in
    collect l first (Z.to_nat (m_current l - first))
  else Some [].

Definition forwardListWithLimit (limit : Z) (l : BackForwardList) : option (list HistoryItem) :=
  _ ← ASSERT_opt (-1 <? limit) (Some tt);
  if size l =? 0 then Some []
  else
    let lastEntry := u32 (size l - 1) in
    if m_current l <? lastEntry then
      let last := i32 (Z.min (u32 (m_current l + limit)) lastEntry) in
      let first := i32 (m_current l + 1) in
      collect l first (Z.to_nat (last - first + 1))
    else Some [].

Definition capacity (l : BackForwardList) : Z := i32 (m_capacity l).
Definition enabled (l : BackForwardList) : bool := m_enabled l.

Definition setCapacity (newSize : Z) : ListM unit :=
  n ← gets size;
  tossWhile (Z.to_nat n) (λ size, newSize <? i32 size);;
  modify (λ l,
    if newSize =? 0 then set_current NoCurrentItemIndex l
    else if sz (size l - 1) <? m_current l then set_current (u32 (size l - 1)) l
    else l);;
  modify (set_capacity (u32 newSize)).

Definition setEnabled (value : bool) : ListM unit :=
  modify (set_enabled value);;
  if negb value then
    c ← gets capacity;
    setCapacity 0;;
    setCapacity c
  else mret tt.

Definition backListCount (l : BackForwardList) : Z :=
  if m_current l =? NoCurrentItemIndex then 0 else m_current l.

Definition forwardListCount (l : BackForwardList) : Z :=
  if m_current l =? NoCurrentItemIndex then 0 else u32 (size l - m_current l - 1).

Definition itemAtIndex (index : Z) (l : BackForwardList) : option (option HistoryItem) :=
  if index <? - i32 (m_current l) then Some None
  else if i32 (forwardListCount l) <? index then Some None
  else item ← at_ l (u32 (index + m_current l)); Some (Some item).

Definition close : ListM unit :=
  modify (λ l, set_closed true (set_hash ∅ (set_entries [] l))).

Definition closed (l : BackForwardList) : bool := m_closed l.

Definition removeItem (item : option HistoryItem) : ListM unit :=
  match item with
  | None => mret tt
  | Some item =>
      modify (λ l,
        let i := indexOf item (m_entries l) in
        if (i <? length (m_entries l))%nat then
          let l' := set_hash (m_entryHash l ∖ {[item]}) (set_entries (delete i (m_entries l)) l) in
          if (m_current l =? NoCurrentItemIndex) || (m_current l <? Z.of_nat i) then l'
          else if Z.of_nat i <? m_current l then set_current (u32 (m_current l - 1)) l'
          else if size l' <=? m_current l then
            set_current (if size l' =? 0 then NoCurrentItemIndex else u32 (size l' - 1)) l'
          else l'
        else l)
  end.

Definition containsItem (item : HistoryItem) (l : BackForwardList) : bool := bool_decide (item ∈ m_entryHash l).

End Operations.

(** ** The invariant *)

(** The hash holds the entries, which are different items. *)
Definition hashed (l : BackForwardList) : Prop :=
  m_entryHash l = list_to_set (m_entries l) ∧ NoDup (m_entries l).

(** The current index is an index of the vector; without a current item the
    vector is empty. *)
Definition positioned (l : BackForwardList) : Prop :=
  m_current l = NoCurrentItemIndex ∧ m_entries l = [] ∨ 0 ≤ m_current l < size l.

Definition list_wf (l : BackForwardList) : Prop :=
  hashed l ∧ positioned l ∧ size l ≤ m_capacity l < 2 ^ 31.

(** ** The abstract history: the items behind, the current one, those ahead *)

Definition History : Type := option (list HistoryItem * HistoryItem * list HistoryItem).

Definition represents (l : BackForwardList) (h : History) : Prop :=
  match h with
  | None => m_entries l = [] ∧ m_current l = NoCurrentItemIndex
  | Some (behind, now, ahead) => m_entries l = behind ++ now :: ahead ∧ m_current l = Z.of_nat (length behind)
  end.

(** The items up to and including the current one. *)
Definition visited (h : History) : list HistoryItem :=
  match h with None => [] | Some (behind, now, _) => behind ++ [now] end.

(** The last [n] items of a list. *)
Definition lastn {A} (n : nat) (l : list A) : list A := drop (length l - n) l.

Definition h_add (capacity : nat) (item : HistoryItem) (h : History) : History :=
  Some (lastn (capacity - 1) (visited h), item, []).

Definition h_back (h : History) : History :=
  match h with
  | Some (behind, now, ahead) =>
      match last behind with
      | Some item => Some (take (length behind - 1) behind, item, now :: ahead)
      | None => h
      end
  | None => h
  end.

Definition h_forward (h : History) : History :=
  match h with
  | Some (behind, now, item :: ahead) => Some (behind ++ [now], item, ahead)
  | _ => h
  end.

(** Keep the first [n] items; the current one is the last that is left when it
    is dropped. *)
Definition h_trim (n : nat) (h : History) : History :=
  match h with
  | None => None
  | Some (behind, now, ahead) =>
      if (length behind <? n)%nat then Some (behind, now, take (n - length behind - 1) ahead)
      else match last (take n behind) with
           | Some item => Some (take (n - 1) behind, item, [])
           | None => None
           end
  end.

(** Take an item out; the next one follows the current one, else the one before. *)
Definition h_remove (item : HistoryItem) (h : History) : History :=
  match h with
  | None => None
  | Some (behind, now, ahead) =>
      if bool_decide (now = item) then
        match ahead with
        | next :: ahead => Some (behind, next, ahead)
        | [] => match last behind with
                | Some before => Some (take (length behind - 1) behind, before, [])
                | None => None
                end
        end
      else Some (filter (.≠ item) behind, now, filter (.≠ item) ahead)
  end.

Definition items (h : History) : list HistoryItem :=
  match h with None => [] | Some (behind, now, ahead) => behind ++ now :: ahead end.

(** Make an item of the history the current one. *)
Definition h_goto (item : HistoryItem) (h : History) : History :=
  match list_find (.= item) (items h) with
  | Some (i, _) => Some (take i (items h), item, drop (S i) (items h))
  | None => h
  end.

(** *** What a view does with its history *)

Inductive ListOp : Type :=
  | Add (item : HistoryItem) | Back | Forward | GoTo (item : HistoryItem) | SetCapacity (n : Z)
  | SetEnabled (value : bool) | Remove (item : option HistoryItem).

Definition perform `{Build} `{Platform} (op : ListOp) : M BackForwardList unit :=
  match op with
  | Add item => addItem item
  | Back => goBack
  | Forward => goForward
  | GoTo item => goToItem item
  | SetCapacity n => setCapacity n
  | SetEnabled value => setEnabled value
  | Remove item => removeItem item
  end.

Fixpoint performAll `{Build} `{Platform} (ops : list ListOp) : M BackForwardList unit :=
  match ops with
  | [] => mret tt
  | op :: ops => perform op;; performAll ops
  end.

(** The abstract state of a view's history. *)
Record View := mkView { v_history : History; v_capacity : Z; v_enabled : bool }.

Definition emptyView : View := mkView None DefaultCapacity true.

Definition v_step (op : ListOp) (v : View) : View :=
  match op with
  | Add item =>
      if (v_capacity v =? 0) || negb (v_enabled v) then v
      else mkView (h_add (Z.to_nat (v_capacity v)) item (v_history v)) (v_capacity v) (v_enabled v)
  | Back => mkView (h_back (v_history v)) (v_capacity v) (v_enabled v)
  | Forward => mkView (h_forward (v_history v)) (v_capacity v) (v_enabled v)
  | GoTo item => mkView (h_goto item (v_history v)) (v_capacity v) (v_enabled v)
  | SetCapacity n => mkView (h_trim (Z.to_nat n) (v_history v)) n (v_enabled v)
  | SetEnabled value => mkView (if value then v_history v else None) (v_capacity v) value
  | Remove None => v
  | Remove (Some item) => mkView (h_remove item (v_history v)) (v_capacity v) (v_enabled v)
  end.

(** When the operations may be called: a new item is not in the list, there is
    an item to go back or forward to, a capacity is not negative. *)
Definition allowed (op : ListOp) (v : View) : bool :=
  match op with
  | Add item => bool_decide (item ∉ items (v_history v))
  | Back => match v_history v with Some (_ :: _, _, _) => true | _ => false end
  | Forward => match v_history v with Some (_, _, _ :: _) => true | _ => false end
  | SetCapacity n => (0 <=? n) && (n <? 2 ^ 31)
  | GoTo _ | SetEnabled _ | Remove _ => true
  end.

Fixpoint allAllowed (ops : list ListOp) (v : View) : bool :=
  match ops with
  | [] => true
  | op :: ops => allowed op v && allAllowed ops (v_step op v)
  end.

Definition v_run (ops : list ListOp) (v : View) : View := fold_left (λ v op, v_step op v) ops v.

(** The list implements the view. *)
Definition implements (l : BackForwardList) (v : View) : Prop :=
  list_wf l ∧ represents l (v_history v) ∧ m_capacity l = v_capacity v ∧ m_enabled l = v_enabled v.

Lemma represents_positioned l h : represents l h → positioned l.
Proof.
  destruct h as [[[behind now] ahead]|]; intros [He Hc]; [right|by left].
  unfold size. rewrite He, Hc, length_app. simpl. lia.
Qed.

Lemma positioned_represents l : positioned l → ∃ h, represents l h.
Proof.
  intros [[Hc He]|Hc]; [by exists None|]. unfold size in Hc.
  destruct (lookup_lt_is_Some_2 (m_entries l) (Z.to_nat (m_current l))) as [now Hnow]; [lia|].
  exists (Some (take (Z.to_nat (m_current l)) (m_entries l), now, drop (S (Z.to_nat (m_current l))) (m_entries l))).
  split; [by rewrite take_drop_middle|]. rewrite length_take_le; lia.
Qed.

Lemma represents_visited l h :
  represents l h → m_entries l = visited h ++ match h with Some (_, _, ahead) => ahead | None => [] end.
Proof. destruct h as [[[behind now] ahead]|]; intros [-> _]; [|done]. simpl. by rewrite <-app_assoc. Qed.

(** ** Tossing items *)

(** The list cut down to its first [k] items. *)
Definition cut (k : nat) (l : BackForwardList) : BackForwardList :=
  set_dropped (droppedFromPageCache l ++ reverse (drop k (m_entries l)))
    (set_hash (list_to_set (take k (m_entries l))) (set_entries (take k (m_entries l)) l)).

Lemma list_to_set_minus (l : list HistoryItem) x :
  x ∉ l → (list_to_set (l ++ [x]) : gset HistoryItem) ∖ {[x]} = list_to_set l.
Proof. intros Hx. apply set_eq. intros y. rewrite list_to_set_app. set_solver. Qed.

Lemma tossLast_ok es x l :
  m_entries l = es ++ [x] → hashed l → tossLast l = Some (tt, cut (length es) l).
Proof.
  intros He [Hh Hnd]. unfold tossLast, modifyOpt, cut. rewrite He, last_snoc. simpl. do 2 f_equal.
  rewrite He in Hh, Hnd. rewrite length_app, Nat.add_sub, take_app_length, drop_app_length.
  unfold forgetItem. cbn. rewrite Hh, list_to_set_minus; [done|]. apply NoDup_app in Hnd as (_ & Hd & _). set_solver.
Qed.

Lemma cut_hashed k l : hashed l → hashed (cut k l).
Proof.
  intros [_ Hnd]. split; [done|]. cbn. rewrite <-(take_drop k (m_entries l)) in Hnd. by apply NoDup_app in Hnd as (? & _ & _).
Qed.

Lemma cut_cut k n l : (k ≤ n ≤ length (m_entries l))%nat → cut k (cut n l) = cut k l.
Proof.
  intros Hk. unfold cut, set_dropped, set_hash, set_entries. cbn. rewrite take_take, Nat.min_l by lia. f_equal.
  rewrite <-app_assoc, <-reverse_app. do 2 f_equal. rewrite <-(take_drop n (m_entries l)) at 3.
  by rewrite drop_app_le by (rewrite length_take_le; lia).
Qed.

Lemma cut_all l : hashed l → cut (length (m_entries l)) l = l.
Proof.
  intros [Hh _]. unfold cut. rewrite take_ge, drop_ge, reverse_nil, app_nil_r, <-Hh by done. by destruct l.
Qed.

Lemma tossWhile_ok fuel tooLong k l :
  hashed l → (k ≤ length (m_entries l) ≤ fuel + k)%nat →
  (∀ n, (k < n ≤ length (m_entries l))%nat → tooLong (Z.of_nat n) = true) → tooLong (Z.of_nat k) = false →
  tossWhile fuel tooLong l = Some (tt, cut k l).
Proof.
  revert l. induction fuel as [|fuel IH]; intros l Hh Hk Hlong Hshort; cbn [tossWhile];
    unfold gets, mbind, M_bind, size.
  - assert (length (m_entries l) = k) as Heq by lia. rewrite Heq, Hshort, <-Heq. by rewrite cut_all.
  - destruct (decide (length (m_entries l) = k)) as [Heq|Hne].
    { rewrite Heq, Hshort, <-Heq. by rewrite cut_all. }
    rewrite Hlong by lia. destruct (m_entries l) as [|x es _] eqn:He using rev_ind; [simpl in *; lia|].
    rewrite (tossLast_ok es x l He Hh). rewrite length_app in Hk, Hne, Hlong. simpl in Hk, Hne, Hlong.
    assert (Hlen : length (m_entries (cut (length es) l)) = length es).
    { cbn. rewrite He, take_app_length. done. }
    rewrite IH; [|by apply cut_hashed|lia|intros n Hn; apply Hlong; lia|done].
    rewrite cut_cut; [done|]. rewrite He, length_app. simpl. lia.
Qed.

(** ** The operations on the invariant and on the abstract history *)

Section Facts.
Context `{Build} `{Platform}.

Lemma sz_small z : 0 ≤ z < 2 ^ 32 → sz z = z.
Proof.
  intros Hz. unfold sz. apply Z.mod_small. pose proof SIZE_BITS_ok.
  assert (2 ^ 32 ≤ 2 ^ SIZE_BITS) by (apply Z.pow_le_mono_r; lia). lia.
Qed.

Lemma list_size_bound l : list_wf l → 0 ≤ size l < 2 ^ 31.
Proof. intros (_ & _ & ?). unfold size in *. lia. Qed.

Lemma i32_nat n : 0 ≤ n < 2 ^ 31 → i32 n = n.
Proof. intros. apply i32_small. lia. Qed.

(** The first part of [addItem]: the forward list is dropped. *)
Lemma dropForward_ok l h :
  list_wf l → represents l h →
  (if negb (m_current l =? NoCurrentItemIndex) then
     tossWhile (Z.to_nat (size l)) (λ n, u32 (m_current l + 1) <? n)
   else mret tt) l = Some (tt, cut (length (visited h)) l).
Proof.
  intros Hwf Hrep. pose proof (list_size_bound l Hwf) as Hsz. destruct Hwf as (Hh & _ & _).
  destruct h as [[[behind now] ahead]|]; destruct Hrep as [He Hc].
  - rewrite (proj2 (Z.eqb_neq _ _)) by (unfold NoCurrentItemIndex, size in *; rewrite He, length_app in Hsz; simpl in Hsz; lia).
    cbn [negb visited]. unfold size in *. rewrite He, length_app in Hsz. simpl in Hsz.
    apply tossWhile_ok; [done|rewrite He, !length_app; simpl; lia| |].
    + intros n Hn. rewrite Hc, u32_small by lia. rewrite length_app in Hn. simpl in Hn. lia.
    + rewrite Hc, u32_small, length_app by lia. cbn [length]. apply Z.ltb_ge. lia.
  - rewrite (proj2 (Z.eqb_eq _ _)) by done. cbn. rewrite <-(cut_all l Hh) at 1. by rewrite He.
Qed.

Lemma tossFirst_ok x es l :
  m_entries l = x :: es → hashed l →
  ∃ l', tossFirst l = Some (tt, l') ∧ m_entries l' = es ∧ hashed l' ∧ m_current l' = m_current l ∧
    m_capacity l' = m_capacity l ∧ m_enabled l' = m_enabled l.
Proof.
  intros He [Hh Hnd]. unfold tossFirst, modifyOpt. rewrite He. simpl. eexists. split; [done|].
  split_and!; try done. rewrite He in Hnd. apply NoDup_cons in Hnd as [Hx Hnd]. split; [|done].
  cbn. rewrite Hh, He. apply set_eq. intros y. cbn. set_solver.
Qed.

Lemma insertLast_ok item l :
  insertAt (size l) item l = Some (tt, set_entries (m_entries l ++ [item]) l).
Proof.
  unfold insertAt, modifyOpt, size. rewrite (proj2 (Z.leb_le 0 _)), Z.leb_refl by lia. simpl.
  rewrite Nat2Z.id, take_ge, drop_ge by done. done.
Qed.

(** The end of [addItem]: a list of visited items, no longer than the capacity
    allows, gets the new item. *)
Lemma appendItem_ok item l :
  hashed l → item ∉ m_entries l → m_current l = u32 (size l - 1) → size l < m_capacity l < 2 ^ 31 →
  ∃ l', (modify (λ l, set_hash ({[item]} ∪ m_entryHash l) l);;
         i ← gets (λ l, u32 (m_current l + 1));
         insertAt i item;;
         modify (λ l, set_current (u32 (m_current l + 1)) l)) l = Some (tt, l') ∧
    list_wf l' ∧ represents l' (Some (m_entries l, item, [])) ∧
    m_capacity l' = m_capacity l ∧ m_enabled l' = m_enabled l.
Proof.
  intros [Hh Hnd] Hx Hc Hsz. unfold modify, gets, mbind, M_bind. cbn.
  set (l1 := set_hash _ l). assert (Hi : u32 (m_current l + 1) = size l1).
  { change (size l1) with (size l). rewrite Hc, u32_add_l. replace (size l - 1 + 1) with (size l) by lia.
    apply u32_small. unfold size in *. lia. }
  rewrite Hi, insertLast_ok. eexists. split; [done|].
  assert (Hrep : represents (set_current (size l1) (set_entries (m_entries l1 ++ [item]) l1)) (Some (m_entries l, item, []))) by done.
  cbn. rewrite Hi. split; [|done]. split; [|split].
  - split; cbn.
    + rewrite Hh, list_to_set_app_L. set_solver.
    + apply NoDup_app. split; [done|]. split; [set_solver|apply NoDup_singleton].
  - by eapply represents_positioned.
  - unfold size in *. cbn. rewrite length_app. simpl. lia.
Qed.

(** The middle of [addItem]: the first item makes room when the list is full. *)
Lemma makeRoom_ok l :
  hashed l → m_current l = u32 (size l - 1) → size l ≤ m_capacity l < 2 ^ 31 → 0 < m_capacity l →
  ∃ l', (full ← gets (λ l, (size l =? m_capacity l) && (negb (m_current l =? 0) || (m_capacity l =? 1)));
         if (full : bool) then tossFirst;; modify (λ l, set_current (u32 (m_current l - 1)) l) else mret tt) l
        = Some (tt, l') ∧
    hashed l' ∧ m_entries l' = lastn (Z.to_nat (m_capacity l) - 1) (m_entries l) ∧
    m_current l' = u32 (size l' - 1) ∧ size l' < m_capacity l ∧
    m_capacity l' = m_capacity l ∧ m_enabled l' = m_enabled l.
Proof.
  intros Hh Hc Hle Hcap. unfold gets, mbind, M_bind. unfold lastn.
  destruct ((size l =? m_capacity l) && (negb (m_current l =? 0) || (m_capacity l =? 1))) eqn:Hfull.
  - apply andb_true_iff in Hfull as [Hfull _]. apply Z.eqb_eq in Hfull. unfold size in Hfull.
    destruct (m_entries l) as [|x es] eqn:He; [simpl in Hfull; lia|]. cbn [length] in *.
    destruct (tossFirst_ok x es l He Hh) as (l1 & Hl1 & He1 & Hh1 & Hc1 & Hcap1 & Hen1).
    unfold modify. rewrite Hl1. eexists. split; [done|]. cbn. rewrite He1, Hcap1, Hen1, Hc1, Hc.
    replace (S (length es) - (Z.to_nat (m_capacity l) - 1))%nat with 1%nat by lia. unfold size.
    rewrite He. cbn. rewrite drop_0, He1, u32_sub_l. split_and!; try done; [f_equal; lia|lia].
  - exists l. assert (Hlt : size l < m_capacity l).
    { destruct (Z.eqb_spec (size l) (m_capacity l)); [|lia]. simpl in Hfull. apply orb_false_iff in Hfull as [H1 H2].
      apply negb_false_iff, Z.eqb_eq in H1. rewrite Hc, u32_small in H1 by lia. lia. }
    unfold size in Hlt. replace (length (m_entries l) - (Z.to_nat (m_capacity l) - 1))%nat with 0%nat by lia. done.
Qed.

Lemma addItem_ok item l h :
  list_wf l → represents l h → item ∉ m_entries l → m_enabled l = true → 0 < m_capacity l →
  ∃ l', addItem item l = Some (tt, l') ∧ list_wf l' ∧ represents l' (h_add (Z.to_nat (m_capacity l)) item h) ∧
    m_capacity l' = m_capacity l ∧ m_enabled l' = m_enabled l.
Proof.
  intros Hwf Hrep Hx Hen Hcap. pose proof (list_size_bound l Hwf) as Hsz.
  pose proof (dropForward_ok l h Hwf Hrep) as Hdrop. pose proof (represents_visited l h Hrep) as Hvis.
  set (l1 := cut (length (visited h)) l) in *.
  assert (He1 : m_entries l1 = visited h) by (cbn; rewrite Hvis; apply take_app_length).
  destruct Hwf as (Hh & Hpos & Hle). assert (Hh1 : hashed l1) by by apply cut_hashed.
  assert (Hlen1 : size l1 ≤ size l) by (unfold size; rewrite He1, Hvis, length_app; lia).
  assert (Hc1 : m_current l1 = u32 (size l1 - 1)).
  { change (m_current l1) with (m_current l). unfold size. rewrite He1.
    destruct h as [[[behind now] ahead]|]; destruct Hrep as [He ->]; cbn [visited]; [|done].
    unfold size in Hsz. rewrite He, length_app in Hsz. rewrite length_app. cbn [length] in *. rewrite u32_small; lia. }
  destruct (makeRoom_ok l1 Hh1 Hc1) as (l2 & Hl2 & Hh2 & He2 & Hc2 & Hlt2 & Hcap2 & Hen2);
    [change (m_capacity l1) with (m_capacity l); lia|done|]. change (m_capacity l1) with (m_capacity l) in *.
  destruct (appendItem_ok item l2) as (l' & Hl' & Hwf' & Hrep' & Hcap' & Hen'); [done| |done|lia|].
  { rewrite He2, He1. unfold lastn. intros Hin. apply Hx. rewrite Hvis. apply elem_of_app. left.
    rewrite <-(take_drop (length (visited h) - (Z.to_nat (m_capacity l) - 1)) (visited h)). apply elem_of_app. by right. }
  exists l'. split.
  - unfold addItem. unfold gets, mbind, M_bind in *. rewrite Hen, (proj2 (Z.eqb_neq _ _)) by lia. cbn [orb negb].
    rewrite Hdrop. destruct (_ && _) in Hl2 |- *; unfold modify in *; by rewrite Hl2, Hl'.
  - split; [done|]. unfold h_add. rewrite <-He1, <-He2. split; [done|]. by rewrite Hcap', Hen', Hcap2, Hen2.
Qed.

Lemma entries_same l l' :
  m_entries l' = m_entries l → m_entryHash l' = m_entryHash l → hashed l → hashed l'.
Proof. unfold hashed. by intros -> ->. Qed.

Lemma last_split {A} (es : list A) x : last es = Some x → es = take (length es - 1) es ++ [x].
Proof.
  destruct es as [|y es _] using rev_ind; [done|]. rewrite last_snoc. intros [= ->].
  by rewrite length_app, Nat.add_sub, take_app_length.
Qed.

Lemma goBack_ok l h :
  list_wf l → represents l h → 0 < m_current l < NoCurrentItemIndex →
  ∃ l', goBack l = Some (tt, l') ∧ list_wf l' ∧ represents l' (h_back h) ∧
    m_capacity l' = m_capacity l ∧ m_enabled l' = m_enabled l.
Proof.
  intros Hwf Hrep Hc. unfold goBack, gets, ASSERT, modify, mbind, M_bind.
  rewrite (proj2 (Z.ltb_lt _ _)), orb_true_r by lia. cbn. eexists. split; [done|].
  assert (Hr : represents (set_current (u32 (m_current l - 1)) l) (h_back h)).
  { unfold NoCurrentItemIndex in Hc. destruct h as [[[behind now] ahead]|]; destruct Hrep as [He Hcur]; [|unfold NoCurrentItemIndex in *; lia].
    cbn. destruct (last behind) as [x|] eqn:Hl; [|apply last_None in Hl; rewrite Hl in Hcur; simpl in Hcur; lia].
    rewrite (last_split behind x Hl), length_app in Hcur. cbn [length] in Hcur.
    split; cbn; [rewrite He, (last_split behind x Hl) at 1; by rewrite <-app_assoc|]. rewrite Hcur, u32_small; lia. }
  split; [|done]. destruct Hwf as (Hh & _ & Hle). split; [done|]. split; [by eapply represents_positioned|done].
Qed.

Lemma goForward_ok l h :
  list_wf l → represents l h → m_current l < size l - 1 →
  ∃ l', goForward l = Some (tt, l') ∧ list_wf l' ∧ represents l' (h_forward h) ∧
    m_capacity l' = m_capacity l ∧ m_enabled l' = m_enabled l.
Proof.
  intros Hwf Hrep Hc. pose proof (list_size_bound l Hwf) as Hsz. unfold goForward, gets, ASSERT, modify, mbind, M_bind.
  assert (Hcur : 0 ≤ m_current l) by (destruct Hwf as (_ & [[-> _]|?] & _); unfold NoCurrentItemIndex; lia).
  rewrite sz_small, (proj2 (Z.ltb_lt _ _)), orb_true_r by lia. cbn. eexists. split; [done|].
  assert (Hr : represents (set_current (u32 (m_current l + 1)) l) (h_forward h)).
  { unfold size in *. destruct h as [[[behind now] ahead]|]; destruct Hrep as [He Hcu].
    - rewrite He, length_app in Hc, Hsz. cbn [length] in *. destruct ahead as [|x ahead]; [simpl in *; lia|].
      split; cbn; [by rewrite He, <-app_assoc|]. rewrite Hcu, u32_small, length_app by lia. cbn [length]. lia.
    - rewrite He in Hc. simpl in Hc. lia. }
  split; [|done]. destruct Hwf as (Hh & _ & Hle). split; [done|]. split; [by eapply represents_positioned|done].
Qed.

Lemma indexOf_spec item es :
  (item ∈ es → es !! indexOf item es = Some item) ∧ (item ∉ es → indexOf item es = length es).
Proof.
  induction es as [|x es [IH1 IH2]]; simpl; [by split; [intros ?%not_elem_of_nil|]|].
  case_bool_decide as Hx; subst.
  - split; [done|]. intros Hn. exfalso. apply Hn. by left.
  - split.
    + intros [?|?]%elem_of_cons; [done|]. by apply IH1.
    + intros Hn. f_equal. apply IH2. set_solver.
Qed.

Lemma indexOf_le item es : (indexOf item es ≤ length es)%nat.
Proof. induction es as [|x es IH]; simpl; [lia|]. case_bool_decide; lia. Qed.

Lemma goToItem_ok l item :
  list_wf l → ∃ l', goToItem item l = Some (tt, l') ∧ list_wf l' ∧ m_entries l' = m_entries l ∧
    (item ∈ m_entries l → currentItem l' = Some (Some item)) ∧ (item ∉ m_entries l → l' = l).
Proof.
  intros Hwf. pose proof (list_size_bound l Hwf) as Hsz. destruct (indexOf_spec item (m_entries l)) as [Hin Hout].
  eexists. split; [done|]. unfold size in *. destruct (decide (item ∈ m_entries l)) as [Hi|Hn].
  - specialize (Hin Hi). apply lookup_lt_Some in Hin as Hlt.
    rewrite (proj2 (Z.eqb_neq _ _)), (proj2 (Z.ltb_lt _ _)) by lia. split_and!; try done.
    + destruct Hwf as (Hh & _ & Hle). split; [done|]. split; [right; unfold size; cbn; lia|done].
    + intros _. unfold currentItem. cbn. rewrite (proj2 (Z.eqb_neq _ _)) by (unfold NoCurrentItemIndex; lia). cbn.
      unfold at_. cbn. rewrite (proj2 (Z.leb_le _ _)) by lia. by rewrite Nat2Z.id, Hin.
  - rewrite (Hout Hn), Z.ltb_irrefl. split_and!; [by case_match|by case_match|done|by case_match].
Qed.

(** The vector accesses of the queries are in bounds. *)
Lemma represents_at l behind now ahead i :
  represents l (Some (behind, now, ahead)) → 0 ≤ i → at_ l i = (behind ++ now :: ahead) !! Z.to_nat i.
Proof. intros [He _] Hi. unfold at_. by rewrite (proj2 (Z.leb_le _ _)), He by done. Qed.

Lemma itemAtIndex_ok l h index :
  list_wf l → represents l h → - 2 ^ 31 ≤ index < 2 ^ 31 →
  itemAtIndex index l = Some match h with
    | Some (behind, now, ahead) =>
        let i := Z.of_nat (length behind) + index in
        if i <? 0 then None else (behind ++ now :: ahead) !! Z.to_nat i
    | None => None
    end.
Proof.
  intros Hwf Hrep Hi. pose proof (list_size_bound l Hwf) as Hsz. unfold itemAtIndex, forwardListCount.
  destruct h as [[[behind now] ahead]|].
  - pose proof Hrep as [He Hc]. unfold size in Hsz. rewrite He, length_app in Hsz. cbn [length] in Hsz.
    rewrite Hc, (proj2 (Z.eqb_neq _ _)) by (unfold NoCurrentItemIndex; lia). unfold size. rewrite He, length_app.
    cbn [length]. rewrite u32_small, !i32_nat by lia. cbn zeta.
    destruct (Z.ltb_spec index (- Z.of_nat (length behind))).
    { by rewrite (proj2 (Z.ltb_lt _ _)) by lia. }
    rewrite (proj2 (Z.ltb_ge (Z.of_nat (length behind) + index) 0)) by lia.
    destruct (Z.ltb_spec (Z.of_nat (length behind + S (length ahead)) - Z.of_nat (length behind) - 1) index).
    { f_equal. symmetry. apply lookup_ge_None. rewrite length_app. cbn [length]. lia. }
    rewrite u32_small, (represents_at l behind now ahead) by (done || lia).
    replace (index + Z.of_nat (length behind)) with (Z.of_nat (length behind) + index) by lia.
    destruct (lookup_lt_is_Some_2 (behind ++ now :: ahead) (Z.to_nat (Z.of_nat (length behind) + index))) as [x ->]; [|done].
    rewrite length_app. cbn [length]. lia.
  - destruct Hrep as [He Hc]. rewrite Hc, Z.eqb_refl. change (i32 NoCurrentItemIndex) with (-1). change (i32 0) with 0.
    destruct (Z.ltb_spec index (- -1)); [done|]. by rewrite (proj2 (Z.ltb_lt _ _)) by lia.
Qed.

Lemma collect_ok l first count :
  0 ≤ first → (Z.to_nat first + count ≤ length (m_entries l))%nat →
  collect l first count = Some (take count (drop (Z.to_nat first) (m_entries l))).
Proof.
  revert first. induction count as [|count IH]; intros first Hf Hle; cbn [collect]; [by rewrite take_0|].
  destruct (lookup_lt_is_Some_2 (m_entries l) (Z.to_nat first)) as [x Hx]; [lia|].
  unfold at_. rewrite (proj2 (Z.leb_le _ _)), Hx by done. simpl. rewrite IH by lia. simpl.
  rewrite (drop_S _ _ _ Hx). replace (Z.to_nat (first + 1)) with (S (Z.to_nat first)) by lia. done.
Qed.

Lemma backListWithLimit_ok l h limit :
  list_wf l → represents l h → 0 ≤ limit < 2 ^ 31 →
  backListWithLimit limit l = Some match h with
    | Some (behind, _, _) => lastn (Z.to_nat limit) behind
    | None => []
    end.
Proof.
  intros Hwf Hrep Hl. pose proof (list_size_bound l Hwf) as Hsz. unfold backListWithLimit.
  destruct h as [[[behind now] ahead]|]; destruct Hrep as [He Hc]; [|by rewrite Hc, Z.eqb_refl].
  unfold size in Hsz. rewrite He, length_app in Hsz. cbn [length] in Hsz.
  rewrite Hc, (proj2 (Z.eqb_neq _ _)) by (unfold NoCurrentItemIndex; lia). cbn [negb].
  rewrite (i32_nat (Z.of_nat _)), i32_small by lia.
  rewrite collect_ok by (rewrite ?He, ?length_app; lia). f_equal. unfold lastn. rewrite He.
  rewrite drop_app_le by lia. rewrite take_app_le by (rewrite length_drop; lia).
  rewrite take_ge by (rewrite length_drop; lia). f_equal. lia.
Qed.

Lemma forwardListWithLimit_ok l h limit :
  list_wf l → represents l h → 0 ≤ limit < 2 ^ 31 →
  forwardListWithLimit limit l = Some match h with
    | Some (_, _, ahead) => take (Z.to_nat limit) ahead
    | None => []
    end.
Proof.
  intros Hwf Hrep Hl. pose proof (list_size_bound l Hwf) as Hsz. unfold forwardListWithLimit, ASSERT_opt.
  rewrite (proj2 (Z.ltb_lt (-1) limit)), orb_true_r by lia. simpl.
  destruct h as [[[behind now] ahead]|]; destruct Hrep as [He Hc]; [|unfold size; by rewrite He].
  unfold size in *. rewrite He, length_app in *. cbn [length] in *.
  rewrite (proj2 (Z.eqb_neq _ _)), Hc, u32_small by lia.
  destruct (Z.ltb_spec (Z.of_nat (length behind)) (Z.of_nat (length behind + S (length ahead)) - 1)).
  - rewrite u32_small, !i32_nat by lia. rewrite collect_ok by (rewrite ?He, ?length_app; cbn [length]; lia). f_equal.
    rewrite He. replace (Z.to_nat (Z.of_nat (length behind) + 1)) with (length behind + 1)%nat by lia.
    rewrite <-drop_drop, drop_app_length. cbn [drop]. rewrite drop_0.
    destruct (Z.le_ge_cases limit (Z.of_nat (length ahead))).
    + f_equal. lia.
    + rewrite !take_ge by lia. done.
  - destruct ahead; [by rewrite take_nil|]. cbn [length] in *. lia.
Qed.

(** Moving the current index onto the list after it was cut. *)
Lemma trim_represents l l1 h n :
  represents l h → size l < 2 ^ 31 → 0 ≤ n < 2 ^ 31 →
  m_entries l1 = take (Z.to_nat n) (m_entries l) → m_current l1 = m_current l →
  represents (if n =? 0 then set_current NoCurrentItemIndex l1
              else if sz (size l1 - 1) <? m_current l1 then set_current (u32 (size l1 - 1)) l1 else l1)
    (h_trim (Z.to_nat n) h).
Proof.
  intros Hrep Hsz Hn He1 Hc1. destruct h as [[[behind now] ahead]|]; destruct Hrep as [He Hc]; unfold size in *; rewrite He in *.
  2: { rewrite take_nil in He1. rewrite He1. cbn [length]. case_match; [done|].
       rewrite (proj2 (Z.ltb_ge (sz _) _)); [split; [done|by rewrite Hc1]|]. rewrite Hc1, Hc. unfold sz, NoCurrentItemIndex.
       change (Z.of_nat 0 - 1) with (-1). pose proof SIZE_BITS_ok.
       assert (2 ^ 32 ≤ 2 ^ SIZE_BITS) by (apply Z.pow_le_mono_r; lia).
       rewrite <-(Z.mod_unique_pos (-1) (2 ^ SIZE_BITS) (-1) (2 ^ SIZE_BITS - 1)); lia. }
  rewrite length_app in Hsz. cbn [length] in Hsz. cbn [h_trim].
  destruct (Nat.ltb_spec (length behind) (Z.to_nat n)) as [Hlt|Hge].
  - rewrite (proj2 (Z.eqb_neq _ _)) by lia.
    assert (Hcut : m_entries l1 = behind ++ now :: take (Z.to_nat n - length behind - 1) ahead).
    { rewrite He1, take_app_ge by lia. destruct (Z.to_nat n - length behind)%nat eqn:?; [lia|]. cbn. by rewrite Nat.sub_0_r. }
    rewrite Hcut, length_app. cbn [length]. rewrite sz_small, (proj2 (Z.ltb_ge _ _)); [split; [done|by rewrite Hc1]| |]; rewrite ?Hc1, length_take; lia.
  - rewrite take_app_le in He1 by lia. destruct (Z.eqb_spec n 0) as [->|Hne].
    { by split. }
    destruct (lookup_lt_is_Some_2 behind (Z.to_nat n - 1)) as [x Hx]; [lia|].
    assert (Hsplit : take (Z.to_nat n) behind = take (Z.to_nat n - 1) behind ++ [x]).
    { rewrite <-(take_S_r _ _ _ Hx). f_equal. lia. }
    rewrite He1, Hsplit, last_snoc, length_app, length_take_le by lia. cbn [length].
    rewrite sz_small, (proj2 (Z.ltb_lt _ _)) by lia. split; cbn; [by rewrite He1|].
    rewrite u32_small, length_take_le; lia.
Qed.

(** Cutting the list and moving the current index onto it. *)
Lemma setCapacity_ok n l h :
  list_wf l → represents l h → 0 ≤ n < 2 ^ 31 →
  ∃ l', setCapacity n l = Some (tt, l') ∧ list_wf l' ∧ represents l' (h_trim (Z.to_nat n) h) ∧
    m_entries l' = take (Z.to_nat n) (m_entries l) ∧ m_capacity l' = n ∧ m_enabled l' = m_enabled l.
Proof.
  intros Hwf Hrep Hn. pose proof (list_size_bound l Hwf) as Hsz. pose proof Hwf as (Hh & Hpos & Hle).
  set (k := Nat.min (Z.to_nat n) (length (m_entries l))). unfold size in *.
  assert (Htoss : tossWhile (Z.to_nat (Z.of_nat (length (m_entries l)))) (λ m, n <? i32 m) l = Some (tt, cut k l)).
  { apply tossWhile_ok; [done|lia| |].
    - intros m Hm. rewrite i32_nat by lia. apply Z.ltb_lt. lia.
    - rewrite i32_nat by lia. apply Z.ltb_ge. lia. }
  assert (Hk : take k (m_entries l) = take (Z.to_nat n) (m_entries l)).
  { unfold k. destruct (Nat.min_spec (Z.to_nat n) (length (m_entries l))) as [[_ ->]|[? ->]]; [done|].
    by rewrite !take_ge by lia. }
  set (l1 := cut k l) in *. assert (He1 : m_entries l1 = take (Z.to_nat n) (m_entries l)) by by cbn; rewrite Hk.
  set (l2 := if n =? 0 then set_current NoCurrentItemIndex l1
             else if sz (size l1 - 1) <? m_current l1 then set_current (u32 (size l1 - 1)) l1 else l1).
  exists (set_capacity (u32 n) l2). split.
  { unfold setCapacity, gets, modify, mbind, M_bind. change (size l) with (Z.of_nat (length (m_entries l))).
    by rewrite Htoss. }
  assert (He2 : m_entries l2 = m_entries l1) by (unfold l2; by repeat case_match).
  assert (Hh2 : hashed l2).
  { apply (entries_same l1); [done| |by apply cut_hashed]. unfold l2. by repeat case_match. }
  assert (Hrep2 : represents l2 (h_trim (Z.to_nat n) h)).
  { assert (Hc1 : m_current l1 = m_current l) by done. unfold l2. clear l2 He2 Hh2.
    apply (trim_represents l); unfold size; done || lia. }
  split_and!; [| |by cbn; rewrite He2|cbn; rewrite u32_small; lia|unfold l2; by repeat case_match].
  - split; [done|]. split; [by eapply represents_positioned|]. unfold size. cbn. rewrite He2, He1, length_take, u32_small; lia.
  - destruct (h_trim (Z.to_nat n) h) as [[[? ?] ?]|]; done.
Qed.


Lemma setEnabled_ok value l h :
  list_wf l → represents l h →
  ∃ l', setEnabled value l = Some (tt, l') ∧ list_wf l' ∧
    represents l' (if value then h else None) ∧ m_capacity l' = m_capacity l ∧ m_enabled l' = value.
Proof.
  intros Hwf Hrep. unfold setEnabled, modify, gets. destruct value; cbn [negb].
  { exists (set_enabled true l). by split_and!. }
  set (l0 := set_enabled false l). assert (Hwf0 : list_wf l0) by done.
  assert (Hrep0 : represents l0 h) by by destruct h as [[[? ?] ?]|].
  destruct (setCapacity_ok 0 l0 h Hwf0 Hrep0) as (l1 & E1 & Hwf1 & Hrep1 & He1 & _ & Hen1); [lia|].
  assert (Hnone : h_trim (Z.to_nat 0) h = None) by by destruct h as [[[? ?] ?]|].
  rewrite Hnone in Hrep1. destruct Hwf as (_ & _ & Hcap). unfold size in Hcap.
  assert (Hc : capacity l0 = m_capacity l) by (unfold capacity; rewrite i32_nat; [done|change (m_capacity l0) with (m_capacity l); lia]).
  destruct (setCapacity_ok (m_capacity l) l1 None Hwf1 Hrep1) as (l2 & E2 & Hwf2 & Hrep2 & _ & Hcap2 & Hen2); [lia|].
  exists l2. unfold mbind, M_bind. fold l0. rewrite E1, Hc, E2. split_and!; try done. by rewrite Hen2, Hen1.
Qed.

(** Removing an item. *)

Lemma indexOf_split item a b :
  item ∉ a → indexOf item (a ++ item :: b) = length a.
Proof.
  induction a as [|x a IH]; simpl; intros Hn.
  - by rewrite bool_decide_eq_true_2.
  - rewrite not_elem_of_cons in Hn. rewrite bool_decide_eq_false_2 by naive_solver. by rewrite IH by naive_solver.
Qed.

Lemma removeItem_split item l a b :
  list_wf l → m_entries l = a ++ item :: b →
  ∃ l', removeItem (Some item) l = Some (tt, l') ∧ hashed l' ∧ m_entries l' = a ++ b ∧
    m_capacity l' = m_capacity l ∧ m_enabled l' = m_enabled l ∧
    m_current l' =
      let i := Z.of_nat (length a) in let n := Z.of_nat (length (a ++ b)) in
      if (m_current l =? NoCurrentItemIndex) || (m_current l <? i) then m_current l
      else if i <? m_current l then u32 (m_current l - 1)
      else if n <=? m_current l then (if n =? 0 then NoCurrentItemIndex else u32 (n - 1))
      else m_current l.
Proof.
  intros ([Hh Hnd] & _ & _) He. pose proof Hnd as Hd. rewrite He in Hd. apply NoDup_app in Hd as (Hda & Hdis & Hdb).
  apply NoDup_cons in Hdb as [Hib Hdb].
  assert (Hia : item ∉ a) by (intros ?; eapply Hdis; [done|by left]).
  unfold removeItem, modify. rewrite He, indexOf_split by done.
  rewrite (proj2 (Nat.ltb_lt _ _)) by (rewrite length_app; simpl; lia). rewrite delete_middle by done.
  eexists. split; [done|]. cbn zeta. unfold size. cbn.
  assert (Hhash : list_to_set (a ++ item :: b) ∖ {[item]} = (list_to_set (a ++ b) : gset HistoryItem)).
  { apply set_eq. intros x. rewrite !list_to_set_app. cbn. set_solver. }
  assert (Hnd' : NoDup (a ++ b)).
  { apply NoDup_app. split; [done|]. split; [|done]. intros x Hx ?. apply (Hdis x); [done|by right]. }
  split_and!; repeat case_match; try done; unfold hashed; cbn; by rewrite Hh, He, Hhash.
Qed.

Lemma filter_absent (item : HistoryItem) (es : list HistoryItem) : item ∉ es → filter (.≠ item) es = es.
Proof.
  intros Hn. induction es as [|x es IH]; [done|]. rewrite not_elem_of_cons in Hn.
  rewrite filter_cons_True by naive_solver. by rewrite IH by naive_solver.
Qed.

Lemma filter_split (item : HistoryItem) (a b : list HistoryItem) :
  item ∉ a → item ∉ b → filter (.≠ item) (a ++ item :: b) = a ++ b.
Proof. intros. rewrite filter_app, filter_cons_False, !filter_absent by naive_solver. done. Qed.

Lemma removeItem_ok item l h :
  list_wf l → represents l h →
  ∃ l', removeItem (Some item) l = Some (tt, l') ∧ list_wf l' ∧ represents l' (h_remove item h) ∧
    m_capacity l' = m_capacity l ∧ m_enabled l' = m_enabled l.
Proof.
  intros Hwf Hrep. destruct (decide (item ∈ m_entries l)) as [Hin|Hout].
  2: { exists l. unfold removeItem, modify. rewrite (proj2 (indexOf_spec _ _) Hout), Nat.ltb_irrefl. split_and!; try done.
       destruct h as [[[behind now] ahead]|]; [|done]. destruct Hrep as [He Hc]. rewrite He in Hout. cbn.
       rewrite bool_decide_eq_false_2 by set_solver. rewrite !filter_absent by set_solver. done. }
  destruct h as [[[behind now] ahead]|]; [|destruct Hrep as [He _]; rewrite He in Hin; set_solver].
  pose proof (list_size_bound l Hwf) as Hsz. pose proof Hwf as ([_ Hnd] & _ & Hcap). destruct Hrep as [He Hc].
  unfold size in Hsz. rewrite He in Hnd, Hin, Hsz. rewrite length_app in Hsz. cbn [length] in Hsz.
  assert (Hcn : (m_current l =? NoCurrentItemIndex) = false) by (apply Z.eqb_neq; unfold NoCurrentItemIndex; lia).
  assert (Hgoal : ∀ a b l' h', m_entries l = a ++ item :: b → hashed l' → m_entries l' = a ++ b →
    m_capacity l' = m_capacity l → m_enabled l' = m_enabled l → represents l' h' →
    list_wf l' ∧ represents l' h' ∧ m_capacity l' = m_capacity l ∧ m_enabled l' = m_enabled l).
  { intros a b l' h' Hs Hh' He' Hcap' Hen' Hr'. split; [|done]. split; [done|]. split; [by eapply represents_positioned|].
    rewrite Hcap'. unfold size in *. rewrite Hs in Hcap. rewrite He'. rewrite length_app in *. cbn [length] in *. lia. }
  assert (item = now ∨ item ∈ behind ∧ item ≠ now ∧ item ∉ ahead ∨ item ∈ ahead ∧ item ≠ now ∧ item ∉ behind) as Hcase.
  { apply NoDup_app in Hnd as (_ & Hd & [Hn _]%NoDup_cons). destruct (decide (item = now)) as [->|Hne]; [by left|right].
    apply elem_of_app in Hin as [Hin|[?|Hin]%elem_of_cons]; [left|done|right]; split_and!; try done; [set_solver|].
    intros Hb. apply (Hd item Hb). by right. }
  cbn [h_remove]. destruct Hcase as [->|[(Hb & Hne & Ha)|(Ha & Hne & Hb)]].
  - rewrite bool_decide_eq_true_2 by done.
    destruct (removeItem_split now l behind ahead Hwf He) as (l' & -> & Hh' & He' & Hcap' & Hen' & Hc').
    exists l'. split; [done|]. apply (Hgoal behind ahead); try done. cbn zeta in Hc'. rewrite Hcn, Hc, Z.ltb_irrefl in Hc'. cbn [orb] in Hc'.
    destruct ahead as [|next ahead].
    + rewrite app_nil_r in Hc', He'. rewrite Z.leb_refl in Hc'. destruct (last behind) as [x|] eqn:Hl.
      * pose proof (last_split behind x Hl) as Hs. assert (length behind ≠ 0)%nat by (rewrite Hs, length_app; simpl; lia).
        rewrite (proj2 (Z.eqb_neq _ _)), u32_small in Hc' by lia. split; [by rewrite He'|].
        rewrite Hc', length_take. lia.
      * apply last_None in Hl as ->. by split.
    + rewrite (proj2 (Z.leb_gt _ _)) in Hc' by (rewrite length_app; simpl; lia). done.
  - rewrite bool_decide_eq_false_2 by done. apply list_elem_of_split in Hb as (a & b & ->).
    rewrite <-app_assoc in He. cbn in He. apply NoDup_app in Hnd as (Hnd & _ & _). apply NoDup_app in Hnd as (_ & Hd & [? _]%NoDup_cons).
    rewrite filter_split, filter_absent by (done || (intros ?; eapply Hd; [done|by left])).
    destruct (removeItem_split item l a _ Hwf He) as (l' & -> & Hh' & He' & Hcap' & Hen' & Hc').
    exists l'. split; [done|]. eapply Hgoal; try done. split; [by rewrite He', app_assoc|].
    rewrite length_app in Hc, Hsz. cbn [length] in Hc, Hsz. cbn zeta in Hc'. rewrite Hcn, (proj2 (Z.ltb_ge _ _)), (proj2 (Z.ltb_lt _ _)) in Hc' by lia.
    cbn [orb] in Hc'. rewrite Hc', u32_small, length_app by lia. lia.
  - rewrite bool_decide_eq_false_2 by done. apply list_elem_of_split in Ha as (a & b & ->).
    apply NoDup_app in Hnd as (_ & _ & [_ Hnd]%NoDup_cons). apply NoDup_app in Hnd as (_ & Hd & [? _]%NoDup_cons).
    rewrite filter_absent, filter_split by (done || (intros ?; eapply Hd; [done|by left])).
    assert (He2 : m_entries l = (behind ++ now :: a) ++ item :: b) by by rewrite He, <-app_assoc.
    destruct (removeItem_split item l _ _ Hwf He2) as (l' & -> & Hh' & He' & Hcap' & Hen' & Hc').
    exists l'. split; [done|]. eapply Hgoal; try done. split; [by rewrite He', <-app_assoc|].
    cbn zeta in Hc'. rewrite (proj2 (Z.ltb_lt (m_current l) _)), orb_true_r in Hc' by (rewrite length_app; simpl; lia). by rewrite Hc'.
Qed.

Lemma currentItem_ok l h :
  list_wf l → represents l h →
  currentItem l = Some match h with Some (_, now, _) => Some now | None => None end.
Proof.
  intros Hwf Hrep. pose proof (list_size_bound l Hwf) as Hsz. unfold currentItem.
  destruct h as [[[behind now] ahead]|]; [|destruct Hrep as [_ ->]; by rewrite Z.eqb_refl].
  pose proof Hrep as [He Hc]. unfold size in Hsz. rewrite He, length_app in Hsz. cbn [length] in Hsz.
  rewrite Hc, (proj2 (Z.eqb_neq _ _)) by (unfold NoCurrentItemIndex; lia). cbn [negb].
  rewrite (represents_at l behind now ahead), Nat2Z.id, list_lookup_middle by (done || lia). done.
Qed.

Lemma backItem_ok l h :
  list_wf l → represents l h →
  backItem l = Some match h with Some (behind, _, _) => last behind | None => None end.
Proof.
  intros Hwf Hrep. pose proof (list_size_bound l Hwf) as Hsz. unfold backItem.
  destruct h as [[[behind now] ahead]|]; [|destruct Hrep as [_ ->]; by rewrite Z.eqb_refl].
  pose proof Hrep as [He Hc]. unfold size in Hsz. rewrite He, length_app in Hsz. cbn [length] in Hsz.
  rewrite Hc, (proj2 (Z.eqb_neq _ NoCurrentItemIndex)), andb_true_r by (unfold NoCurrentItemIndex; lia).
  rewrite last_lookup. destruct behind as [|x behind]; [done|].
  rewrite (proj2 (Z.eqb_neq _ _)) by (simpl; lia). cbn [negb].
  rewrite u32_small, (represents_at l (x :: behind) now ahead) by (done || (cbn [length] in *; lia)).
  replace (Z.to_nat (Z.of_nat (length (x :: behind)) - 1)) with (pred (length (x :: behind))) by (cbn [length] in *; lia).
  rewrite lookup_app_l by (cbn [length]; lia).
  destruct (lookup_lt_is_Some_2 (x :: behind) (pred (length (x :: behind)))) as [y ->]; [cbn [length]; lia|done].
Qed.

Lemma forwardItem_ok l h :
  list_wf l → represents l h →
  forwardItem l = Some match h with Some (_, _, ahead) => head ahead | None => None end.
Proof.
  intros Hwf Hrep. pose proof (list_size_bound l Hwf) as Hsz. unfold forwardItem.
  destruct h as [[[behind now] ahead]|]; [|destruct Hrep as [He _]; unfold size; by rewrite He].
  pose proof Hrep as [He Hc]. unfold size in *. rewrite He, length_app in *. cbn [length] in *.
  rewrite (proj2 (Z.eqb_neq _ _)), sz_small, Hc by lia. cbn [negb andb]. destruct ahead as [|x ahead]; cbn [length] in *.
  - by rewrite (proj2 (Z.ltb_ge _ _)) by lia.
  - rewrite (proj2 (Z.ltb_lt _ _)) by lia. rewrite u32_small, (represents_at l behind now (x :: ahead)) by (done || lia).
    rewrite lookup_app_r by lia. by replace (Z.to_nat (Z.of_nat (length behind) + 1) - length behind)%nat with 1%nat by lia.
Qed.

Lemma counts_ok l h :
  list_wf l → represents l h →
  (backListCount l, forwardListCount l) =
    match h with
    | Some (behind, _, ahead) => (Z.of_nat (length behind), Z.of_nat (length ahead))
    | None => (0, 0)
    end.
Proof.
  intros Hwf Hrep. pose proof (list_size_bound l Hwf) as Hsz. unfold backListCount, forwardListCount.
  destruct h as [[[behind now] ahead]|]; destruct Hrep as [He Hc]; [|by rewrite Hc, Z.eqb_refl].
  unfold size in *. rewrite He, length_app in *. cbn [length] in *.
  rewrite Hc, (proj2 (Z.eqb_neq _ _)) by (unfold NoCurrentItemIndex; lia). rewrite u32_small by lia. f_equal. lia.
Qed.

Lemma containsItem_ok l item : list_wf l → containsItem item l = bool_decide (item ∈ m_entries l).
Proof. intros ([Hh _] & _). unfold containsItem. apply bool_decide_ext. rewrite Hh. apply elem_of_list_to_set. Qed.

Lemma represents_items l h : represents l h → m_entries l = items h.
Proof. by destruct h as [[[? ?] ?]|]; intros [? _]. Qed.

Lemma indexOf_find item es :
  list_find (.= item) es = (if (indexOf item es <? length es)%nat then Some (indexOf item es, item) else None).
Proof.
  induction es as [|x es IH]; [done|]. cbn [indexOf length list_find]. destruct (decide (x = item)) as [->|Hne].
  - by rewrite bool_decide_eq_true_2 by done.
  - rewrite bool_decide_eq_false_2 by done. rewrite IH.
    change (S (indexOf item es) <? S (length es))%nat with (indexOf item es <? length es)%nat. by case_match.
Qed.

Lemma goToItem_represents l h item :
  list_wf l → represents l h →
  ∃ l', goToItem item l = Some (tt, l') ∧ list_wf l' ∧ represents l' (h_goto item h) ∧
    m_capacity l' = m_capacity l ∧ m_enabled l' = m_enabled l.
Proof.
  intros Hwf Hrep. destruct (goToItem_ok l item Hwf) as (l' & E & Hwf' & He' & _). exists l'. split; [done|]. split; [done|].
  unfold goToItem, modify in E. injection E as <-. unfold h_goto. rewrite indexOf_find, <-(represents_items l h Hrep).
  unfold size. destruct (Nat.ltb_spec (indexOf item (m_entries l)) (length (m_entries l))) as [Hlt|Hge].
  - rewrite (proj2 (Z.eqb_neq _ _)), (proj2 (Z.ltb_lt _ _)) by lia. split; [|done].
    assert (Hi : item ∈ m_entries l) by (destruct (decide (item ∈ m_entries l)) as [|Hn]; [done|rewrite (proj2 (indexOf_spec _ _) Hn) in Hlt; lia]).
    apply indexOf_spec in Hi. split; cbn; [by rewrite take_drop_middle|]. rewrite length_take_le; lia.
  - rewrite (proj2 (Z.ltb_ge _ _)) by lia. by destruct (_ =? 0).
Qed.

(** Every allowed operation keeps the list in step with the view. *)
Lemma perform_ok op l v :
  implements l v → allowed op v = true →
  ∃ l', perform op l = Some (tt, l') ∧ implements l' (v_step op v).
Proof.
  intros (Hwf & Hrep & Hcap & Hen) Hok. pose proof (list_size_bound l Hwf) as Hsz. unfold size in Hsz. destruct op; cbn in *.
  - apply bool_decide_eq_true in Hok. rewrite <-(represents_items l _ Hrep) in Hok. rewrite <-Hcap, <-Hen.
    destruct ((m_capacity l =? 0) || negb (m_enabled l)) eqn:Hig.
    { exists l. unfold addItem, gets, mbind, M_bind. by rewrite Hig. }
    apply orb_false_iff in Hig as [Hc%Z.eqb_neq He%negb_false_iff].
    destruct (addItem_ok item l (v_history v)) as (l' & -> & ? & ? & ? & ?); try done.
    2: { exists l'. split; [done|]. split_and!; cbn; congruence || done. }
    destruct Hwf as (_ & _ & ?). unfold size in *. lia.
  - destruct (v_history v) as [[[[|x behind] now] ahead]|] eqn:Hv; try done. destruct (goBack_ok l _ Hwf Hrep) as (l' & -> & ? & ? & Hc' & He').
    { destruct Hrep as [He ->]. rewrite He, length_app in Hsz. unfold NoCurrentItemIndex. cbn [length] in *. lia. }
    exists l'. split; [done|]. split_and!; cbn; congruence || done.
  - destruct (v_history v) as [[[behind now] [|x ahead]]|] eqn:Hv; try done. destruct (goForward_ok l _ Hwf Hrep) as (l' & -> & ? & ? & Hc' & He').
    { destruct Hrep as [He ->]. unfold size. rewrite He, length_app. cbn [length]. lia. }
    exists l'. split; [done|]. split_and!; cbn; congruence || done.
  - destruct (goToItem_represents l (v_history v) item) as (l' & -> & ? & ? & Hc' & He'); try done.
    exists l'. split; [done|]. split_and!; cbn; congruence || done.
  - apply andb_true_iff in Hok as [?%Z.leb_le ?%Z.ltb_lt].
    destruct (setCapacity_ok n l (v_history v)) as (l' & -> & ? & ? & ? & Hc' & He'); try done.
    exists l'. split; [done|]. split_and!; cbn; congruence || done.
  - destruct (setEnabled_ok value l (v_history v)) as (l' & -> & ? & ? & Hc' & He'); try done.
    exists l'. split; [done|]. split_and!; cbn; congruence || done.
  - destruct item as [item|]; [|by exists l].
    destruct (removeItem_ok item l (v_history v)) as (l' & -> & ? & ? & Hc' & He'); try done.
    exists l'. split; [done|]. split_and!; cbn; congruence || done.
Qed.

Lemma performAll_ok ops l v :
  implements l v → allAllowed ops v = true →
  ∃ l', performAll ops l = Some (tt, l') ∧ implements l' (v_run ops v).
Proof.
  revert l v. induction ops as [|op ops IH]; intros l v Himp Hall; cbn in *; [by exists l|].
  apply andb_true_iff in Hall as [Hop Hall]. destruct (perform_ok op l v Himp Hop) as (l1 & E1 & Himp1).
  unfold mbind, M_bind. rewrite E1. by apply IH.
Qed.

Lemma newList_implements : implements newList emptyView.
Proof. split; [|done]. split; [split; [done|constructor]|split; [by left|done]]. Qed.

(** C19: From the new list, every sequence of additions, moves back and forward,
    jumps, changes of the capacity, switches on and off and removals in which only new items
    are added, there is an item to move back or forward to, and a capacity is an [int] that is not negative, runs without
    a fault (no access out of the vector, no failed assertion), and afterwards the vector, the hash
    and the current index are those of the abstract history the same sequence
    leads to; the queries for the item before, at and after the position, the
    counts and the membership test answer from that history. Without the conditions it is not so: see [emptyList_moves] and
    [close_keeps_index]. *)
Theorem backForwardList_refines ops :
  allAllowed ops emptyView = true →
  ∃ l, performAll ops newList = Some (tt, l) ∧ implements l (v_run ops emptyView) ∧
    (∀ item, containsItem item l = bool_decide (item ∈ items (v_history (v_run ops emptyView)))) ∧
    match v_history (v_run ops emptyView) with
    | Some (behind, now, ahead) =>
        backItem l = Some (last behind) ∧ currentItem l = Some (Some now) ∧ forwardItem l = Some (head ahead) ∧
        backListCount l = Z.of_nat (length behind) ∧ forwardListCount l = Z.of_nat (length ahead)
    | None =>
        backItem l = Some None ∧ currentItem l = Some None ∧ forwardItem l = Some None ∧
        backListCount l = 0 ∧ forwardListCount l = 0
    end.
Proof.
  intros Hall. destruct (performAll_ok ops newList emptyView newList_implements Hall) as (l & E & Himp).
  exists l. split; [done|]. split; [done|]. destruct Himp as (Hwf & Hrep & _ & _).
  split; [intros item; by rewrite containsItem_ok, (represents_items l _ Hrep)|].
  pose proof (counts_ok l _ Hwf Hrep) as Hcounts.
  rewrite (backItem_ok l _ Hwf Hrep), (currentItem_ok l _ Hwf Hrep), (forwardItem_ok l _ Hwf Hrep).
  by destruct (v_history (v_run ops emptyView)) as [[[behind now] ahead]|]; injection Hcounts as -> ->.
Qed.

(** The history is bounded: however the view was used, the list is no longer
    than its capacity, its entries are different items and the hash set holds
    exactly them. *)
Theorem history_bounded ops :
  allAllowed ops emptyView = true →
  ∃ l, performAll ops newList = Some (tt, l) ∧ size l ≤ m_capacity l < 2 ^ 31 ∧ NoDup (m_entries l) ∧
    (∀ item, containsItem item l = true ↔ item ∈ m_entries l) ∧
    (m_entries l = [] ∧ m_current l = NoCurrentItemIndex ∨ 0 ≤ m_current l < size l).
Proof.
  intros Hall. destruct (performAll_ok ops newList emptyView newList_implements Hall) as (l & E & Hwf & _).
  exists l. split; [done|]. pose proof Hwf as ([_ Hnd] & Hpos & Hcap). split_and!; try done; try lia.
  - intros item. rewrite containsItem_ok by done. apply bool_decide_eq_true.
  - destruct Hpos as [[? ?]|?]; [by left|by right].
Qed.

(** [itemAtIndex] answers the item at that offset from the current one, null
    outside the list, for every [int], and never reads out of the vector. *)
Theorem itemAtIndex_exact l v index :
  implements l v → - 2 ^ 31 ≤ index < 2 ^ 31 →
  itemAtIndex index l = Some match v_history v with
    | Some (behind, now, ahead) =>
        let i := Z.of_nat (length behind) + index in
        if i <? 0 then None else (behind ++ now :: ahead) !! Z.to_nat i
    | None => None
    end.
Proof. intros (Hwf & Hrep & _) Hi. by apply itemAtIndex_ok. Qed.

(** With a limit that is not negative the two lists hold the items nearest to
    the current one, at most the limit of them, in the order of the history. *)
Theorem limitLists_exact l v limit :
  implements l v → 0 ≤ limit < 2 ^ 31 →
  backListWithLimit limit l = Some match v_history v with
    | Some (behind, _, _) => lastn (Z.to_nat limit) behind
    | None => []
    end ∧
  forwardListWithLimit limit l = Some match v_history v with
    | Some (_, _, ahead) => take (Z.to_nat limit) ahead
    | None => []
    end.
Proof. intros (Hwf & Hrep & _) Hl. split; [by apply backListWithLimit_ok|by apply forwardListWithLimit_ok]. Qed.

End Facts.

(** ** Examples *)

Definition platform32 : Platform := {| SIZE_BITS := 32; SIZE_BITS_ok := Z.le_refl 32 |}.
Definition platform64 : Platform := {| SIZE_BITS := 64; SIZE_BITS_ok := Zle_bool_imp_le 32 64 eq_refl |}.

(** Four pages, two steps back, one of the pages ahead forgotten. *)
Definition sampleOps : list ListOp :=
  [Add 1%positive; Add 2%positive; Add 3%positive; Add 4%positive; Back; Back; Remove (Some 3%positive); SetCapacity 3].

Definition sampleView : View := mkView (Some ([1%positive], 2%positive, [4%positive])) 3 true.

Definition sampleList : BackForwardList :=
  mkList [1%positive; 2%positive; 4%positive] (list_to_set [1%positive; 2%positive; 4%positive]) 1 3 true true [].

Lemma sampleList_implements : implements sampleList sampleView.
Proof.
  split; [|done]. split; [split; [done|]|split; [right|]; by split; vm_compute].
  apply (bool_decide_eq_true_1 (NoDup _)). by vm_compute.
Qed.

Lemma backForwardList_refines_witness : let _ := Build_Build false in let _ := platform32 in
  ∃ l, performAll sampleOps newList = Some (tt, l) ∧ represents l (Some ([1%positive], 2%positive, [4%positive])) ∧
    backItem l = Some (Some 1%positive) ∧ forwardItem l = Some (Some 4%positive).
Proof.
  intros b p. destruct (@backForwardList_refines b p sampleOps) as (l & E & Himp & _ & Hq); [by vm_compute|].
  exists l. split; [exact E|]. destruct Himp as (_ & Hrep & _). destruct Hq as (H1 & _ & H2 & _).
  split; [exact Hrep|]. split; [exact H1|exact H2].
Defined.

Lemma history_bounded_witness : let _ := Build_Build false in let _ := platform64 in
  ∃ l, performAll sampleOps newList = Some (tt, l) ∧ size l ≤ m_capacity l < 2 ^ 31.
Proof.
  intros b p. destruct (@history_bounded b p sampleOps) as (l & E & Hb & _); [by vm_compute|]. exists l. split; [exact E|exact Hb].
Defined.

Lemma itemAtIndex_exact_witness :
  itemAtIndex 1 sampleList = Some (Some 4%positive) ∧ itemAtIndex (-2) sampleList = Some None.
Proof.
  split.
  - exact (itemAtIndex_exact sampleList sampleView 1 sampleList_implements ltac:(lia)).
  - exact (itemAtIndex_exact sampleList sampleView (-2) sampleList_implements ltac:(lia)).
Defined.

Lemma limitLists_exact_witness : let _ := Build_Build false in
  backListWithLimit 5 sampleList = Some [1%positive] ∧ forwardListWithLimit 0 sampleList = Some [].
Proof.
  intros b. split.
  - exact (proj1 (@limitLists_exact b sampleList sampleView 5 sampleList_implements ltac:(lia))).
  - exact (proj2 (@limitLists_exact b sampleList sampleView 0 sampleList_implements ltac:(lia))).
Defined.

(** The guards of the moves do not cover the empty list: its current index is
    the largest [unsigned], so [goBack] of a release build moves it to an index
    of nothing and the next query reads out of the vector; where [size_t] is
    wider than [unsigned] [goForward] does so too, where it is as wide it leaves
    the list alone. *)
Theorem emptyList_moves :
  (∃ l, @goBack (Build_Build true) newList = Some (tt, l) ∧ m_current l = 2 ^ 32 - 2 ∧ currentItem l = None) ∧
  (∃ l, @goForward (Build_Build true) platform64 newList = Some (tt, l) ∧ m_current l = 0 ∧ currentItem l = None) ∧
  @goForward (Build_Build true) platform32 newList = Some (tt, newList).
Proof. split; [|split]; [eexists; split; [reflexivity|done]..|reflexivity]. Qed.

(** [close] empties the vector and keeps the current index: after a view
    with a page closed its list, asking for the current item reads out of the
    vector. *)
Theorem close_keeps_index :
  ∃ l1 l2, @performAll (Build_Build true) platform32 [Add 1%positive] newList = Some (tt, l1) ∧
    close l1 = Some (tt, l2) ∧ m_entries l2 = [] ∧ m_current l2 = 0 ∧ currentItem l2 = None.
Proof. eexists _, _. split; [reflexivity|]. split; [reflexivity|done]. Qed.
