(* ===== verification/BackForwardController.v ===== *)
(** * The back/forward controller of a page

    Model of [Source/WebCore/history/BackForwardController.cpp], written as the
    code is against the abstract class [BackForwardClient]
    ([Source/WebCore/history/BackForwardClient.h]): here the class [Client] with
    its laws, which [BackForwardList] discharges. The controller asks its page to
    go to an item ([Page::goToItem]), which its history controller does
    ([HistoryController::goToItem] in [loader/HistoryController.cpp]): it makes the item the
    current one at once, before anything is loaded, and starts the navigation; while loading is
    deferred it keeps the last item it was asked for. The model records the navigations in order.
    What happens before, when the page stops the loads that are under way and their handlers run,
    is the class [Loads]: any function on the state of the controller.

    The theorems show which item each command asks for, and that a command
    moves the abstract history by the distance. *)

From S2P Require Import Prelude BackForwardList.

(** The virtual functions of [BackForwardClient]; [None] of a query is a fault. *)
Class Client (St : Type) := {
  client_addItem : positive → M St unit;
  client_goToItem : positive → M St unit;
  client_itemAtIndex : Z → St → option (option positive);
  client_backListCount : St → Z;
  client_forwardListCount : St → Z;
  client_close : M St unit;
}.

(** The item at an offset from the current one. *)
Definition h_at (index : Z) (h : History) : option positive :=
  match h with
  | Some (behind, now, ahead) =>
      let i := Z.of_nat (length behind) + index in
      if i <? 0 then None else (behind ++ now :: ahead) !! Z.to_nat i
  | None => None
  end.

Definition h_backCount (h : History) : Z :=
  match h with Some (behind, _, _) => Z.of_nat (length behind) | None => 0 end.
Definition h_forwardCount (h : History) : Z :=
  match h with Some (_, _, ahead) => Z.of_nat (length ahead) | None => 0 end.

(** What a client promises: it keeps a history of different items, answers from
    it and can go to any of its items. *)
Class ClientLaws (St : Type) `{!Client St} := {
  client_history : St → History → Prop;
  law_itemAtIndex s h i :
    client_history s h → - 2 ^ 31 ≤ i < 2 ^ 31 → client_itemAtIndex i s = Some (h_at i h);
  law_backCount s h : client_history s h → client_backListCount s = h_backCount h;
  law_forwardCount s h : client_history s h → client_forwardListCount s = h_forwardCount h;
  law_goToItem s h item :
    client_history s h →
    ∃ s', client_goToItem item s = Some (tt, s') ∧ client_history s' (h_goto item h);
  law_distinct s h : client_history s h → NoDup (items h);
  law_size s h : client_history s h → Z.of_nat (length (items h)) < 2 ^ 31;
}.

Inductive FrameLoadType :=
  | LoadStandard | LoadBack | LoadForward | LoadIndexedBackForward | LoadReload | LoadSame
  | LoadRedirectWithLockedBackForwardList | LoadReplace | LoadReloadFromOrigin | LoadReloadExpiredOnly.

Section Controller.
Context {St : Type} `{!Client St}.

(** The client, whether loading is deferred, the item and the kind of load that are deferred, and
    the navigations that were started. *)
Record Controller := mkController {
  m_client : St;
  m_defersLoading : bool;
  m_deferred : option (positive * FrameLoadType);
  m_requests : list (positive * FrameLoadType);
}.

Definition askClient {A} (m : M St A) : M Controller A := λ c,
  match m (m_client c) with
  | Some (a, s) => Some (a, mkController s (m_defersLoading c) (m_deferred c) (m_requests c))
  | None => None
  end.

Definition addItem (item : positive) : M Controller unit := askClient (client_addItem item).
Definition setCurrentItem (item : positive) : M Controller unit := askClient (client_goToItem item).
Definition close : M Controller unit := askClient client_close.

(** [WebFrameLoaderClient::shouldGoToHistoryItem] *)
Definition shouldGoToHistoryItem (item : positive) : bool := true.

(** [HistoryController::goToItem] *)
Definition goToItem (item : positive) (type : FrameLoadType) : M Controller unit :=
  if negb (shouldGoToHistoryItem item) then mret tt
  else
    defers ← gets m_defersLoading;
    if defers : bool then modify (λ c, mkController (m_client c) (m_defersLoading c) (Some (item, type)) (m_requests c))
    else
      setCurrentItem item;;
      modify (λ c, mkController (m_client c) (m_defersLoading c) (m_deferred c) (m_requests c ++ [(item, type)])).

(** [HistoryController::setDefersLoading] *)
Definition setDefersLoading (defer : bool) : M Controller unit :=
  modify (λ c, mkController (m_client c) defer (m_deferred c) (m_requests c));;
  deferred ← gets m_deferred;
  match deferred with
  | Some (item, type) =>
      if defer then mret tt
      else goToItem item type;; modify (λ c, mkController (m_client c) (m_defersLoading c) None (m_requests c))
  | None => mret tt
  end.

(** What [Page::goToItem] does first: it stops the loads that are under way, if the item is not in the same
    document, which can run handlers that navigate. *)
Class Loads := stopLoads : positive → M Controller unit.
Context `{!Loads}.

(** [Page::goToItem] *)
Definition page_goToItem (item : positive) (type : FrameLoadType) : M Controller unit :=
  stopLoads item;; goToItem item type.

Definition itemAtIndex (i : Z) : M Controller (option positive) := λ c,
  match client_itemAtIndex i (m_client c) with
  | Some item => Some (item, c)
  | None => None
  end.

Definition backCount (c : Controller) : Z := client_backListCount (m_client c).
Definition forwardCount (c : Controller) : Z := client_forwardListCount (m_client c).
Definition count (c : Controller) : Z :=
  u32 (client_backListCount (m_client c) + 1 + client_forwardListCount (m_client c)).

Definition backItem : M Controller (option positive) := itemAtIndex (-1).
Definition currentItem : M Controller (option positive) := itemAtIndex 0.
Definition forwardItem : M Controller (option positive) := itemAtIndex 1.

(** [-distance] is not representable for the least [int]: a fault. *)
Definition canGoBackOrForward (distance : Z) (c : Controller) : option bool :=
  if distance =? 0 then Some true
  else if (0 <? distance) && (u32 distance <=? forwardCount c) then Some true
  else if distance <? 0 then
    if distance =? - 2 ^ 31 then None else Some (u32 (- distance) <=? backCount c)
  else Some false.

Definition goBackOrForward (distance : Z) : M Controller unit :=
  if distance =? 0 then mret tt
  else
    historyItem ← itemAtIndex distance;
    historyItem ← match historyItem with
      | Some item => mret (Some item)
      | None =>
          if 0 <? distance then
            n ← gets (λ c, i32 (forwardCount c));
            if negb (n =? 0) then itemAtIndex n else mret None
          else
            n ← gets (λ c, i32 (backCount c));
            if negb (n =? 0) then itemAtIndex (- n) else mret None
      end;
    match historyItem with
    | None => mret tt
    | Some item => page_goToItem item LoadIndexedBackForward
    end.

Definition goBack : M Controller bool :=
  historyItem ← backItem;
  match historyItem with
  | None => mret false
  | Some item => page_goToItem item LoadBack;; mret true
  end.

Definition goForward : M Controller bool :=
  historyItem ← forwardItem;
  match historyItem with
  | None => mret false
  | Some item => page_goToItem item LoadForward;; mret true
  end.

End Controller.
Arguments Controller : clear implicits.
Arguments Loads : clear implicits.

(** ** Positions in a history *)

(** The history of the items [es] whose current one has the index [i]. *)
Definition split_at (i : nat) (es : list positive) : History :=
  match es !! i with
  | Some x => Some (take i es, x, drop (S i) es)
  | None => None
  end.

(** [distance] steps forward, or back when it is negative; a step from an end
    stays there. *)
Definition h_move (distance : Z) (h : History) : History :=
  if 0 <=? distance then Nat.iter (Z.to_nat distance) h_forward h
  else Nat.iter (Z.to_nat (- distance)) h_back h.

Lemma split_at_self behind now ahead :
  Some (behind, now, ahead) = split_at (length behind) (behind ++ now :: ahead).
Proof.
  unfold split_at. rewrite list_lookup_middle, take_app_length by done.
  by replace (S (length behind)) with (length behind + 1)%nat by lia; rewrite <-drop_drop, drop_app_length.
Qed.

Lemma split_at_forward i es :
  (i < length es)%nat → h_forward (split_at i es) = split_at (Nat.min (S i) (length es - 1)) es.
Proof.
  intros Hi. destruct (lookup_lt_is_Some_2 es i Hi) as [x Hx]. unfold split_at at 1. rewrite Hx. cbn [h_forward].
  destruct (decide (S i < length es)%nat) as [Hlt|Hge].
  - destruct (lookup_lt_is_Some_2 es (S i) Hlt) as [y Hy]. rewrite (drop_S _ _ _ Hy), Nat.min_l by lia.
    unfold split_at. by rewrite Hy, <-(take_S_r _ _ _ Hx).
  - rewrite drop_ge, Nat.min_r by lia. replace (length es - 1)%nat with i by lia. unfold split_at.
    by rewrite Hx, drop_ge by lia.
Qed.

Lemma split_at_back i es :
  (i < length es)%nat → h_back (split_at i es) = split_at (i - 1) es.
Proof.
  intros Hi. destruct (lookup_lt_is_Some_2 es i Hi) as [x Hx]. unfold split_at at 1. rewrite Hx. cbn [h_back].
  destruct i as [|i]; [cbn; unfold split_at; by rewrite Hx|].
  destruct (lookup_lt_is_Some_2 es i) as [y Hy]; [lia|]. rewrite (take_S_r _ _ _ Hy) at 1. rewrite last_snoc.
  unfold split_at. rewrite length_take_le, !Nat.sub_succ, !Nat.sub_0_r, Hy, take_take, Nat.min_l, (drop_S _ _ _ Hx) by lia. done.
Qed.

Lemma split_at_move d i es :
  (i < length es)%nat →
  h_move d (split_at i es) = split_at (Z.to_nat (Z.max 0 (Z.min (Z.of_nat i + d) (Z.of_nat (length es) - 1)))) es.
Proof.
  intros Hi. unfold h_move. destruct (Z.leb_spec 0 d).
  - assert (Hn : ∀ n, Nat.iter n h_forward (split_at i es) = split_at (Nat.min (i + n) (length es - 1)) es).
    { induction n as [|n IH]; [cbn; f_equal; lia|]. cbn [Nat.iter nat_rect]. unfold Nat.iter in IH. rewrite IH, split_at_forward by lia.
      f_equal. lia. }
    rewrite Hn. f_equal. lia.
  - assert (Hn : ∀ n, Nat.iter n h_back (split_at i es) = split_at (i - n) es).
    { induction n as [|n IH]; [cbn; f_equal; lia|]. cbn [Nat.iter nat_rect]. unfold Nat.iter in IH. rewrite IH, split_at_back by lia.
      f_equal. lia. }
    rewrite Hn. f_equal. lia.
Qed.

Lemma split_at_items i es : (i < length es)%nat → items (split_at i es) = es.
Proof.
  intros Hi. destruct (lookup_lt_is_Some_2 es i Hi) as [x Hx]. unfold split_at. rewrite Hx. cbn. by rewrite take_drop_middle.
Qed.

Lemma split_at_goto i j es x :
  NoDup es → (i < length es)%nat → es !! j = Some x → h_goto x (split_at i es) = split_at j es.
Proof.
  intros Hnd Hi Hj. unfold h_goto. rewrite split_at_items by done.
  assert (Hf : list_find (.= x) es = Some (j, x)).
  { apply list_find_Some. split_and!; try done. intros j' y Hy Hlt ->.
    assert (j' = j) by (by eapply NoDup_lookup). lia. }
  rewrite Hf. unfold split_at. by rewrite Hj.
Qed.

Lemma split_at_at i k es :
  (i < length es)%nat → h_at k (split_at i es) = if Z.of_nat i + k <? 0 then None else es !! Z.to_nat (Z.of_nat i + k).
Proof.
  intros Hi. destruct (lookup_lt_is_Some_2 es i Hi) as [x Hx]. unfold split_at. rewrite Hx. cbn.
  rewrite take_drop_middle, length_take_le by (done || lia). done.
Qed.

Lemma split_at_counts i es :
  (i < length es)%nat →
  h_backCount (split_at i es) = Z.of_nat i ∧ h_forwardCount (split_at i es) = Z.of_nat (length es) - Z.of_nat i - 1.
Proof.
  intros Hi. destruct (lookup_lt_is_Some_2 es i Hi) as [x Hx]. unfold split_at. rewrite Hx. cbn [h_backCount h_forwardCount].
  rewrite length_take_le, length_drop by lia. lia.
Qed.

Section Facts.
Context {St : Type} `{!Client St} `{!ClientLaws St} `{!Loads St}.
Implicit Types c : Controller St.

(** Stopping the loads runs no handler that navigates. *)
Definition quietLoads (c : Controller St) : Prop := ∀ item, stopLoads item c = Some (tt, c).

(** The controller is at a position of its history. *)
Definition atPosition (c : Controller St) (i : nat) (es : list positive) : Prop :=
  client_history (m_client c) (split_at i es) ∧ (i < length es)%nat.

Lemma atPosition_bounds c i es : atPosition c i es → Z.of_nat (length es) < 2 ^ 31 ∧ NoDup es.
Proof.
  intros [Hc Hi]. pose proof (law_size _ _ Hc) as Hs. pose proof (law_distinct _ _ Hc) as Hd.
  by rewrite split_at_items in Hs, Hd.
Qed.

Lemma itemAtIndex_position c i es k :
  atPosition c i es → - 2 ^ 31 ≤ k < 2 ^ 31 →
  itemAtIndex k c = Some (if Z.of_nat i + k <? 0 then None else es !! Z.to_nat (Z.of_nat i + k), c).
Proof. intros [Hc Hi] Hk. unfold itemAtIndex. by rewrite (law_itemAtIndex _ _ k Hc), split_at_at by done. Qed.

Lemma counts_position c i es :
  atPosition c i es → backCount c = Z.of_nat i ∧ forwardCount c = Z.of_nat (length es) - Z.of_nat i - 1.
Proof.
  intros [Hc Hi]. unfold backCount, forwardCount. rewrite (law_backCount _ _ Hc), (law_forwardCount _ _ Hc).
  by apply split_at_counts.
Qed.

(** What [goBackOrForward] goes to: the item at the distance, or at the end of
    the list in that direction. *)
Lemma goBackOrForward_position c i es d :
  atPosition c i es → - 2 ^ 31 ≤ d < 2 ^ 31 →
  let j := Z.to_nat (Z.max 0 (Z.min (Z.of_nat i + d) (Z.of_nat (length es) - 1))) in
  goBackOrForward d c = if decide (j = i) then Some (tt, c) else match es !! j with Some x => page_goToItem x LoadIndexedBackForward c | None => Some (tt, c) end.
Proof.
  intros Hpos Hd. cbn zeta. destruct (atPosition_bounds c i es Hpos) as [Hlen _]. pose proof Hpos as [_ Hi].
  destruct (counts_position c i es Hpos) as [Hb Hf]. unfold goBackOrForward, gets, mbind, M_bind.
  destruct (Z.eqb_spec d 0) as [->|Hne]; [by rewrite decide_True by lia|].
  rewrite (itemAtIndex_position c i es) by done. set (j := Z.to_nat (Z.max _ _)).
  destruct (Z.ltb_spec (Z.of_nat i + d) 0) as [Hlow|Hlow].
  { rewrite (proj2 (Z.ltb_ge 0 d)), Hb, i32_nat by lia. destruct (Z.eqb_spec (Z.of_nat i) 0) as [H0|H0]; cbn [negb].
    { by rewrite decide_True by lia. }
    rewrite (itemAtIndex_position c i es), Z.add_opp_diag_r by (done || lia). cbn. replace j with 0%nat by lia.
    change (Z.to_nat 0) with 0%nat. rewrite decide_False by lia. destruct (lookup_lt_is_Some_2 es 0) as [x ->]; [lia|done]. }
  destruct (decide (Z.of_nat i + d < Z.of_nat (length es))) as [Hin|Hout].
  { replace (Z.to_nat (Z.of_nat i + d)) with j by lia. rewrite decide_False by lia.
    destruct (lookup_lt_is_Some_2 es j) as [x ->]; [lia|done]. }
  rewrite (lookup_ge_None_2 es (Z.to_nat _)), (proj2 (Z.ltb_lt 0 d)), Hf, i32_nat by lia.
  destruct (Z.eqb_spec (Z.of_nat (length es) - Z.of_nat i - 1) 0) as [H0|H0]; cbn [negb].
  { by rewrite decide_True by lia. }
  rewrite (itemAtIndex_position c i es), (proj2 (Z.ltb_ge _ _)) by (done || lia).
  replace (Z.to_nat (Z.of_nat i + (Z.of_nat (length es) - Z.of_nat i - 1))) with j by lia. rewrite decide_False by lia.
  destruct (lookup_lt_is_Some_2 es j) as [x ->]; [lia|done].
Qed.

(** Going to an item of the list: it is the current one at once, or when loading is no longer deferred. *)
Lemma goToItem_position c i j es x type :
  atPosition c i es → es !! j = Some x →
  ∃ c1, goToItem x type c = Some (tt, c1) ∧ m_defersLoading c1 = m_defersLoading c ∧
    if m_defersLoading c then m_client c1 = m_client c ∧ m_requests c1 = m_requests c ∧ m_deferred c1 = Some (x, type)
    else atPosition c1 j es ∧ m_requests c1 = m_requests c ++ [(x, type)] ∧ m_deferred c1 = m_deferred c.
Proof.
  intros Hpos Hj. unfold goToItem, gets, mbind, M_bind. cbn [shouldGoToHistoryItem negb]. destruct (m_defersLoading c) eqn:Ed; [by eexists|].
  destruct (atPosition_bounds c i es Hpos) as [_ Hnd]. destruct Hpos as [Hc Hi]. destruct (law_goToItem _ _ x Hc) as (s' & E & Hs'). unfold setCurrentItem, askClient. rewrite E.
  eexists. split; [done|]. split; [done|]. split; [|done]. split; [|by eapply lookup_lt_Some]. cbn. by rewrite <-(split_at_goto i j es x).
Qed.

Lemma history_position c h :
  client_history (m_client c) h → h = None ∨ ∃ i es, h = split_at i es ∧ atPosition c i es.
Proof.
  destruct h as [[[behind now] ahead]|]; intros Hc; [right|by left]. rewrite split_at_self in *.
  exists (length behind), (behind ++ now :: ahead). split; [done|]. split; [done|]. rewrite length_app. simpl. lia.
Qed.

(** The navigation that takes a history to another one. *)
Definition navigation (h h' : History) (type : FrameLoadType) : list (positive * FrameLoadType) :=
  if bool_decide (h' = h) then [] else match h' with Some (_, now, _) => [(now, type)] | None => [] end.

Lemma move_None d : h_move d None = None.
Proof.
  unfold h_move, Nat.iter. destruct (0 <=? d).
  - induction (Z.to_nat d) as [|n IH]; cbn; [done|]. by rewrite IH.
  - induction (Z.to_nat (- d)) as [|n IH]; cbn; [done|]. by rewrite IH.
Qed.

Lemma navigation_position i j es x type : NoDup es → (i < length es)%nat → es !! j = Some x → j ≠ i → navigation (split_at i es) (split_at j es) type = [(x, type)].
Proof.
  intros Hnd Hi Hx Hne. destruct (lookup_lt_is_Some_2 es i Hi) as [y Hy]. unfold navigation. rewrite bool_decide_eq_false_2; [unfold split_at; by rewrite Hx|].
  unfold split_at. rewrite Hx, Hy. intros [= _ -> _]. apply Hne. by apply (NoDup_lookup es j i y).
Qed.

(** What a command does that goes to another position, or nowhere. *)
Definition moved (c c1 : Controller St) (h h' : History) (type : FrameLoadType) : Prop :=
  if m_defersLoading c then
    client_history (m_client c1) h ∧ (m_deferred c = None → ∃ c2, setDefersLoading false c1 = Some (tt, c2) ∧ client_history (m_client c2) h' ∧ m_requests c2 = m_requests c ++ navigation h h' type ∧ m_deferred c2 = None)
  else client_history (m_client c1) h' ∧ m_requests c1 = m_requests c ++ navigation h h' type.

Lemma moved_nowhere c h type : client_history (m_client c) h → moved c c h h type.
Proof.
  intros Hc. unfold moved, navigation. rewrite bool_decide_eq_true_2, app_nil_r by done. destruct (m_defersLoading c) eqn:Ed; [|done]. split; [done|]. intros Hn. unfold setDefersLoading, modify, gets, mbind, M_bind. cbn. rewrite Hn. by eexists.
Qed.

Lemma moved_position c i j es x type : quietLoads c → atPosition c i es → es !! j = Some x → j ≠ i → ∃ c1, page_goToItem x type c = Some (tt, c1) ∧ moved c c1 (split_at i es) (split_at j es) type.
Proof.
  intros Hq Hpos Hx Hne. destruct (goToItem_position c i j es x type Hpos Hx) as (c1 & E & Ed & Hc1). exists c1.
  split; [unfold page_goToItem, mbind, M_bind; by rewrite Hq, E|]. destruct (atPosition_bounds c i es Hpos) as [_ Hnd]. pose proof Hpos as [Hc Hi].
  unfold moved. rewrite (navigation_position i j es x type) by done. destruct (m_defersLoading c); [|by destruct Hc1 as ([? _] & ? & _)]. destruct Hc1 as (Ec & Er & Edf). split; [by rewrite Ec|]. intros _.
  unfold setDefersLoading, modify, gets, mbind at 1 2, M_bind at 1 2. cbn [m_deferred]. rewrite Edf. set (c' := mkController _ _ _ _). assert (Hpos' : atPosition c' i es) by (split; [cbn; by rewrite Ec|done]).
  destruct (goToItem_position c' i j es x type Hpos' Hx) as (c2 & E2 & _ & Hc2). unfold mbind, M_bind. rewrite E2. cbn [m_defersLoading c'] in Hc2. destruct Hc2 as ([Hh _] & Er2 & _). eexists. split; [done|]. cbn. split_and!; [done|by rewrite Er2; cbn; rewrite Er|done].
Qed.

(** C25: [history.go(distance)]: for every [int] the command runs without a fault, if stopping the loads under
    way runs no handler that navigates. Unless loading is
    deferred the history has then moved by the distance, stopping at its ends, and one navigation was started, to the item it
    is at; none when there is nowhere to go in that direction. When loading is deferred, and no
    item was deferred before, nothing moves, and all this happens when it is no longer deferred. *)
Theorem goBackOrForward_moves c h distance :
  quietLoads c → client_history (m_client c) h → - 2 ^ 31 ≤ distance < 2 ^ 31 →
  ∃ c1, goBackOrForward distance c = Some (tt, c1) ∧ moved c c1 h (h_move distance h) LoadIndexedBackForward.
Proof.
  intros Hq Hc Hd. destruct (history_position c h Hc) as [->|(i & es & -> & Hpos)].
  - rewrite move_None. assert (Hat : ∀ k, - 2 ^ 31 ≤ k < 2 ^ 31 → itemAtIndex k c = Some (None, c)).
    { intros k Hk. unfold itemAtIndex. by rewrite (law_itemAtIndex _ _ k Hc). }
    exists c. split; [|by apply moved_nowhere]. unfold goBackOrForward, gets, backCount, forwardCount, mbind, M_bind.
    destruct (Z.eqb_spec distance 0); [done|]. rewrite Hat by done. destruct (0 <? distance); [by rewrite (law_forwardCount _ _ Hc)|by rewrite (law_backCount _ _ Hc)].
  - pose proof Hpos as [_ Hi]. rewrite (goBackOrForward_position c i es distance Hpos Hd), split_at_move by done. cbn zeta.
    set (j := Z.to_nat (Z.max _ _)). destruct (decide (j = i)) as [->|Hne]; [exists c; split; [done|by apply moved_nowhere]|].
    destruct (lookup_lt_is_Some_2 es j) as [x Hx]; [lia|]. rewrite Hx. by apply moved_position.
Qed.

(** [canGoBackOrForward] answers whether there is an item at the distance, for
    every [int] but the least. *)
Theorem canGoBackOrForward_exact c h distance :
  client_history (m_client c) h → - 2 ^ 31 < distance < 2 ^ 31 →
  canGoBackOrForward distance c = Some (bool_decide (distance = 0 ∨ is_Some (h_at distance h))).
Proof.
  intros Hc Hd. unfold canGoBackOrForward. destruct (Z.eqb_spec distance 0) as [->|Hne]; [by rewrite bool_decide_eq_true_2; [|left]|].
  rewrite (proj2 (Z.eqb_neq distance (- 2 ^ 31))) by lia.
  destruct (history_position c h Hc) as [->|(i & es & -> & Hpos)].
  - unfold backCount, forwardCount. rewrite (law_backCount _ _ Hc), (law_forwardCount _ _ Hc). cbn.
    rewrite bool_decide_eq_false_2 by (by intros [?|[? ?]]). destruct (Z.ltb_spec 0 distance), (Z.ltb_spec distance 0); try lia; cbn [andb].
    + rewrite u32_small by lia. by rewrite (proj2 (Z.leb_gt _ _)) by lia.
    + rewrite u32_small by lia. by rewrite (proj2 (Z.leb_gt _ _)) by lia.
  - destruct (atPosition_bounds c i es Hpos) as [Hlen _]. pose proof Hpos as [_ Hi].
    destruct (counts_position c i es Hpos) as [-> ->]. rewrite split_at_at by done.
    assert (Hiff : is_Some (if Z.of_nat i + distance <? 0 then None else es !! Z.to_nat (Z.of_nat i + distance)) ↔
      0 ≤ Z.of_nat i + distance < Z.of_nat (length es)).
    { destruct (Z.ltb_spec (Z.of_nat i + distance) 0).
      - split; [by intros [? ?]|lia].
      - rewrite lookup_lt_is_Some. lia. }
    assert (Hb : ∀ b : bool, (b = true ↔ 0 ≤ Z.of_nat i + distance < Z.of_nat (length es)) →
      Some b = Some (bool_decide (distance = 0 ∨ is_Some (if Z.of_nat i + distance <? 0 then None else es !! Z.to_nat (Z.of_nat i + distance))))).
    { intros b Hb. f_equal. symmetry. destruct b.
      - apply bool_decide_eq_true. right. by apply Hiff, Hb.
      - apply bool_decide_eq_false. intros [?|Hs]; [done|]. by apply Hiff, Hb in Hs. }
    destruct (Z.ltb_spec 0 distance), (Z.ltb_spec distance 0); try lia; cbn [andb].
    + rewrite u32_small by lia. destruct (Z.leb_spec distance (Z.of_nat (length es) - Z.of_nat i - 1)); apply Hb; split; done || lia.
    + rewrite u32_small by lia. apply Hb. rewrite Z.leb_le. lia.
Qed.

(** One step: the item at an offset is gone to. *)
Lemma step_position c i j es k type :
  quietLoads c → atPosition c i es → - 2 ^ 31 ≤ k < 2 ^ 31 →
  (if (Z.of_nat i + k <? 0) || (Z.of_nat (length es) <=? Z.of_nat i + k) then j = i else j = Z.to_nat (Z.of_nat i + k) ∧ k ≠ 0) →
  ∃ c1,
    (historyItem ← itemAtIndex k;
     match historyItem with
     | None => mret false
     | Some item => page_goToItem item type;; mret true
     end) c = Some (bool_decide (split_at j es ≠ split_at i es), c1) ∧
    moved c c1 (split_at i es) (split_at j es) type.
Proof.
  intros Hq Hpos Hk Hj. pose proof Hpos as [Hc Hi]. destruct (atPosition_bounds c i es Hpos) as [_ Hnd].
  unfold mbind at 1, M_bind at 1. rewrite (itemAtIndex_position c i es k Hpos Hk).
  destruct ((Z.of_nat i + k <? 0) || (Z.of_nat (length es) <=? Z.of_nat i + k)) eqn:Hout.
  - subst j. exists c. split; [|by apply moved_nowhere].
    rewrite bool_decide_eq_false_2 by naive_solver. destruct (Z.ltb_spec (Z.of_nat i + k) 0); [done|].
    simpl in Hout. apply Z.leb_le in Hout. by rewrite lookup_ge_None_2 by lia.
  - apply orb_false_iff in Hout as [K1 K2]. apply Z.leb_gt in K2. rewrite K1. apply Z.ltb_ge in K1. destruct Hj as [-> Hk0].
    destruct (lookup_lt_is_Some_2 es (Z.to_nat (Z.of_nat i + k))) as [x Hx]; [lia|]. rewrite Hx. destruct (moved_position c i _ es x type Hq Hpos Hx) as (c1 & E & Hm); [lia|].
    exists c1. split; [|done]. unfold mbind, M_bind. rewrite E. rewrite bool_decide_eq_true_2; [done|]. intros Heq. destruct (lookup_lt_is_Some_2 es i Hi) as [y Hy].
    unfold split_at in Heq. rewrite Hx, Hy in Heq. injection Heq as _ -> _.
    assert (Z.to_nat (Z.of_nat i + k) = i) by by apply (NoDup_lookup es _ _ y). lia.
Qed.

(** Back and forward: the command answers whether there is such an item, and the history
    takes one step back, or forward, now or when loading is no longer deferred, if stopping the loads under
    way runs no handler that navigates. *)
Theorem goBack_goForward_step c h :
  quietLoads c → client_history (m_client c) h →
  (∃ c1, goBack c = Some (bool_decide (h_back h ≠ h), c1) ∧ moved c c1 h (h_back h) LoadBack) ∧
  (∃ c1, goForward c = Some (bool_decide (h_forward h ≠ h), c1) ∧ moved c c1 h (h_forward h) LoadForward).
Proof.
  intros Hq Hc. destruct (history_position c h Hc) as [->|(i & es & -> & Hpos)].
  - assert (Hat : ∀ k, - 2 ^ 31 ≤ k < 2 ^ 31 → itemAtIndex k c = Some (None, c)).
    { intros k Hk. unfold itemAtIndex. by rewrite (law_itemAtIndex _ _ k Hc). }
    unfold goBack, goForward, backItem, forwardItem, mbind, M_bind.
    split; exists c; rewrite Hat by lia; (split; [by rewrite bool_decide_eq_false_2 by naive_solver|by apply moved_nowhere]).
  - pose proof Hpos as [_ Hi]. rewrite split_at_back, split_at_forward by done. split; apply step_position; try done || lia.
    + destruct (Z.ltb_spec (Z.of_nat i + -1) 0); simpl; [lia|]. rewrite (proj2 (Z.leb_gt _ _)) by lia. lia.
    + rewrite (proj2 (Z.ltb_ge _ _)) by lia. cbn [orb]. destruct (Z.leb_spec (Z.of_nat (length es)) (Z.of_nat i + 1)); lia.
Qed.

End Facts.

(** ** The list of a view as a client *)

#[export] Instance listClient : Client BackForwardList := {|
  client_addItem := BackForwardList.addItem;
  client_goToItem := BackForwardList.goToItem;
  client_itemAtIndex := BackForwardList.itemAtIndex;
  client_backListCount := BackForwardList.backListCount;
  client_forwardListCount := BackForwardList.forwardListCount;
  client_close := BackForwardList.close;
|}.

#[export] Instance listClient_laws : ClientLaws BackForwardList.
Proof.
  refine {| client_history := λ l h, list_wf l ∧ represents l h |}.
  - intros l h i [Hwf Hrep] Hi. cbn. by rewrite (itemAtIndex_ok l h i Hwf Hrep Hi).
  - intros l h [Hwf Hrep]. pose proof (counts_ok l h Hwf Hrep) as Hc. cbn. destruct h as [[[? ?] ?]|]; by injection Hc.
  - intros l h [Hwf Hrep]. pose proof (counts_ok l h Hwf Hrep) as Hc. cbn. destruct h as [[[? ?] ?]|]; by injection Hc.
  - intros l h item [Hwf Hrep]. destruct (goToItem_represents l h item Hwf Hrep) as (l' & E & ? & ? & _). eauto.
  - intros l h [([_ Hnd] & _) Hrep]. by rewrite <-(represents_items l h Hrep).
  - intros l h [Hwf Hrep]. pose proof (list_size_bound l Hwf) as Hs. unfold size in Hs.
    rewrite (represents_items l h Hrep) in Hs. lia.
Defined.

(** ** Examples *)

(** Pages whose handlers do not navigate. *)
#[local] Instance noHandlers : Loads BackForwardList := λ _, mret tt.

(** A controller over a list of three pages, at the second one. *)
Definition sampleController : Controller BackForwardList := mkController sampleList false None [].

Definition sampleHistory : History := Some ([1%positive], 2%positive, [4%positive]).

Lemma sampleController_history : client_history (m_client sampleController) sampleHistory.
Proof. destruct sampleList_implements as (Hwf & Hrep & _). done. Qed.

Lemma goBackOrForward_moves_witness :
  ∃ c1, goBackOrForward 7 sampleController = Some (tt, c1) ∧
    represents (m_client c1) (Some ([1%positive; 2%positive], 4%positive, [])) ∧ m_requests c1 = [(4%positive, LoadIndexedBackForward)].
Proof.
  destruct (goBackOrForward_moves sampleController sampleHistory 7) as (c1 & E1 & [_ Hh] & Hr); [by intros item|apply sampleController_history|lia|].
  exists c1. split; [exact E1|]. split; [exact Hh|exact Hr].
Defined.

Lemma canGoBackOrForward_exact_witness :
  canGoBackOrForward (-1) sampleController = Some true ∧ canGoBackOrForward 2 sampleController = Some false.
Proof.
  split.
  - exact (canGoBackOrForward_exact _ _ (-1) sampleController_history ltac:(lia)).
  - exact (canGoBackOrForward_exact _ _ 2 sampleController_history ltac:(lia)).
Defined.

Lemma goBack_goForward_step_witness : ∃ c1, goBack sampleController = Some (true, c1).
Proof.
  destruct (goBack_goForward_step sampleController sampleHistory (λ _, eq_refl) sampleController_history) as [(c1 & E & _) _].
  exists c1. exact E.
Defined.
