(* ===== verification/AdBlock.v ===== *)
(** * The content blocker: rules, patterns and options

    Model of the patterns of [Source/WebCore/loader/AdBlock.cpp]: how a rule
    [pattern#option,option] becomes a regular expression and a set of resource
    types. [AdBlockStore] models the lists of rules, the cache of decisions and the
    file.

    Regular expressions are those of [JSC::Yarr], which is a parameter of the
    model ([Regexp]): compiling and matching a pattern is an operation of that
    class. The four expressions the code itself uses to rewrite a pattern are
    fixed and their matches are written out here.

    The theorems show that the rewriting loops end and give the expression that a
    rule means, and which resource types the options of a rule select. *)

From Stdlib Require Import String Ascii.
From S2P Require Import Prelude ASCIICType.

(** [JSC::Yarr::RegularExpression(source, TextCaseInsensitive).match(target) >= 0] *)
Class Regexp := { re_matches : list Z → list Z → bool }.

(** ** The strings of WTF the code uses *)

(** [String::startsWith] *)
Fixpoint startsWith (prefix s : list Z) : bool :=
  match prefix, s with
  | [], _ => true
  | c :: prefix, d :: s => (c =? d) && startsWith prefix s
  | _ :: _, [] => false
  end.

(** [String::endsWith] of one character *)
Definition endsWith (c : Z) (s : list Z) : bool :=
  match last s with Some d => c =? d | None => false end.

(** [String::find] of one character *)
Definition find (c : Z) (s : list Z) : option nat := fst <$> list_find (.= c) s.

(** [String::split], which drops empty parts *)
Fixpoint splitFrom (c : Z) (part s : list Z) : list (list Z) :=
  match s with
  | [] => if bool_decide (part = []) then [] else [part]
  | d :: s =>
      if d =? c then (if bool_decide (part = []) then [] else [part]) ++ splitFrom c [] s
      else splitFrom c (part ++ [d]) s
  end.
Definition split (c : Z) (s : list Z) : list (list Z) := splitFrom c [] s.

(** [String::substring(start, length)] with an [unsigned] length that may have
    wrapped around *)
Definition substring (start : nat) (length : Z) (s : list Z) : list Z :=
  take (Z.to_nat (Z.min (u32 length) (Z.of_nat (List.length s)))) (drop start s).

(** ** The fixed expressions *)

(** What [\W] does not match. *)
Definition isWord (c : Z) : bool := isASCIIAlphanumeric c || (c =? 95).

(** [RegularExpression("\\W").match(s, pos)] *)
Definition nonchar (s : list Z) (pos : nat) : option nat :=
  (λ m : nat * Z, (pos + m.1)%nat) <$> list_find (λ c, isWord c = false) (drop pos s).

(** The first position from which [s] continues with [needle]. *)
Fixpoint findLiteral (needle s : list Z) : option nat :=
  if startsWith needle s then Some 0%nat
  else match s with
       | [] => None
       | _ :: s => S <$> findLiteral needle s
       end.

(** [\\\*] *)
Definition starMatch (s : list Z) (pos : nat) : option nat := Nat.add pos <$> findLiteral [92; 42] (drop pos s).

(** [^\\\|] *)
Definition startBarMatch (s : list Z) (pos : nat) : option nat :=
  match pos with
  | O => if startsWith [92; 124] s then Some 0%nat else None
  | S _ => None
  end.

(** [\\\|$] *)
Definition endBarMatch (s : list Z) (pos : nat) : option nat :=
  let i := (length s - 2)%nat in
  if (pos <=? i)%nat && bool_decide (drop i s = [92; 124]) then Some i else None.

(** [JSC::Yarr::replace]: the matches of the three expressions have two
    characters. Every match consumes two, so the length of the string bounds
    the iterations. *)
Fixpoint replaceLoop (fuel : nat) (target : list Z → nat → option nat) (replacement s : list Z) (index : nat) : list Z :=
  match fuel with
  | O => s
  | S fuel =>
      if (index <? length s)%nat then
        match target s index with
        | None => s
        | Some i =>
            replaceLoop fuel target replacement (take i s ++ replacement ++ drop (i + 2) s) (i + length replacement)
        end
      else s
  end.
Definition replace (s : list Z) (target : list Z → nat → option nat) (replacement : list Z) : list Z :=
  replaceLoop (S (length s)) target replacement s 0.

(** [while ((pos = nonchar.match(pattern, pos)) >= 0) { pattern.insert("\\", pos); pos += 2; }]:
    each iteration passes a character of the original pattern. *)
Fixpoint escapeLoop (fuel : nat) (pattern : list Z) (pos : nat) : list Z :=
  match fuel with
  | O => pattern
  | S fuel =>
      match nonchar pattern pos with
      | None => pattern
      | Some p => escapeLoop fuel (take p pattern ++ 92 :: drop p pattern) (p + 2)
      end
  end.

(** The regular expression of a pattern without the slashes. *)
Definition translate (pattern : list Z) : list Z :=
  let pattern := escapeLoop (S (length pattern)) pattern 0 in
  let pattern := replace pattern starMatch [46; 42] in
  let pattern := replace pattern startBarMatch [94] in
  replace pattern endBarMatch [36].

(** ** The options of a rule *)

Definition ImageResource : Z := 1.
Definition CSSStyleSheet : Z := 2.
Definition Script : Z := 3.
Definition DOCUMENT_TYPE : Z := 9.

Definition typeMask (typeOpt : list Z) : Z :=
  if bool_decide (typeOpt = text "image") then Z.shiftl 1 ImageResource
  else if bool_decide (typeOpt = text "stylesheet") then Z.shiftl 1 CSSStyleSheet
  else if bool_decide (typeOpt = text "script") then Z.shiftl 1 Script
  else if bool_decide (typeOpt = text "subdocument") then Z.shiftl 1 DOCUMENT_TYPE
  else 0.

(** One turn of the loop over the options; [types] is an [int]. *)
Definition applyOption (types : Z) (opt : list Z) : Z :=
  if bool_decide (opt = text "match-case") then types
  else
    let invert := startsWith [126] opt in
    let typeOpt := if invert then drop 1 opt else opt in
    if invert then Z.land types (Z.lnot (typeMask typeOpt))
    else Z.lor (if types =? -1 then 0 else types) (typeMask typeOpt).

Definition optionTypes (opts : list (list Z)) : Z := fold_left applyOption opts (-1).

(** ** Patterns *)

Record AdPattern := mkPattern {
  m_string : list Z;
  m_re : list Z;
  m_types : Z;
}.

(** What [addPattern] and [updatePattern] share: the pattern of a rule, none when
    its options select no type. *)
Definition parsePattern (pat : list Z) : option AdPattern :=
  let delim := default (length pat) (find 35 pat) in
  let optpart := drop (S delim) pat in
  let pattern := take delim pat in
  let types := optionTypes (split 44 optpart) in
  if types =? 0 then None
  else if startsWith [47] pattern && endsWith 47 pattern then
    Some (mkPattern pat (substring 1 (Z.of_nat (length pattern) - 2) pattern) (u32 types))
  else Some (mkPattern pat (translate pattern) (u32 types)).

Section Matching.
Context `{Regexp}.

(** [AdPattern::matches]; the shift is defined for the types of an [int]'s bits. *)
Definition AdPattern_matches (p : AdPattern) (target : list Z) (type : Z) : bool :=
  negb (Z.land (u32 (Z.shiftl 1 type)) (m_types p) =? 0) && re_matches (m_re p) target.

(** Whether a rule matches, none that selects no type. *)
Definition ruleMatches (rule target : list Z) (type : Z) : bool :=
  match parsePattern rule with
  | Some p => AdPattern_matches p target type
  | None => false
  end.

End Matching.

(** ** What a pattern means

    A star stands for any text, a bar at the start or the end for the start or the
    end of the address, every other character for itself. *)

(** The characters of an expression that match one character literally. *)
Definition escape (c : Z) : list Z := if isWord c then [c] else [92; c].

Definition glob (c : Z) : list Z := if c =? 42 then [46; 42] else escape c.

(** A bar at the start, a bar at the end and the rest. *)
Definition stripStart (pattern : list Z) : bool * list Z :=
  match pattern with
  | c :: rest => if c =? 124 then (true, rest) else (false, pattern)
  | [] => (false, [])
  end.

Definition stripEnd (pattern : list Z) : list Z * bool :=
  if endsWith 124 pattern then (take (length pattern - 1) pattern, true) else (pattern, false).

Definition meaning (pattern : list Z) : list Z :=
  let '(anchoredStart, pattern) := stripStart pattern in
  let '(pattern, anchoredEnd) := stripEnd pattern in
  (if anchoredStart then [94] else []) ++ (pattern ≫= glob) ++ (if anchoredEnd then [36] else []).

(** ** The rewriting loops *)

Lemma escape_word c : isWord c = true → escape c = [c].
Proof. unfold escape. by intros ->. Qed.

Lemma escape_nonword c : isWord c = false → escape c = [92; c].
Proof. unfold escape. by intros ->. Qed.

Lemma bind_words l : Forall (λ c, isWord c = true) l → l ≫= escape = l.
Proof. induction 1 as [|c l Hc Hl IH]; [done|]. cbn. rewrite escape_word by done. cbn. f_equal. exact IH. Qed.

(** A list up to its first character that is not one of a word. *)
Lemma first_nonword l :
  Forall (λ c, isWord c = true) l ∨
  ∃ a c b, l = a ++ c :: b ∧ Forall (λ c, isWord c = true) a ∧ isWord c = false.
Proof.
  induction l as [|c l [IH|(a & d & b & -> & Ha & Hd)]]; [by left; constructor|..]; destruct (isWord c) eqn:Hc.
  - left. by constructor.
  - right. exists [], c, l. split_and!; [done|constructor|done].
  - right. exists (c :: a), d, b. split_and!; [done|by constructor|done].
  - right. exists [], c, (a ++ d :: b). split_and!; [done|constructor|done].
Qed.

Lemma nonchar_at done_ a c b :
  Forall (λ c, isWord c = true) a → isWord c = false →
  nonchar (done_ ++ a ++ c :: b) (length done_) = Some (length done_ + length a)%nat.
Proof.
  intros Ha Hc. unfold nonchar. rewrite drop_app_length.
  assert (Hf : list_find (λ c, isWord c = false) (a ++ c :: b) = Some (length a, c)).
  { apply list_find_Some. rewrite list_lookup_middle by done. split_and!; [done..|].
    intros j y Hy Hj. rewrite lookup_app_l in Hy by done. rewrite Forall_lookup in Ha. by rewrite (Ha j y Hy). }
  by rewrite Hf.
Qed.

Lemma nonchar_none done_ a :
  Forall (λ c, isWord c = true) a → nonchar (done_ ++ a) (length done_) = None.
Proof.
  intros Ha. unfold nonchar. rewrite drop_app_length.
  assert (Hf : list_find (λ c, isWord c = false) a = None).
  { apply list_find_None. eapply Forall_impl; [exact Ha|]. cbn. by intros ? ->. }
  by rewrite Hf.
Qed.

Lemma escapeLoop_ok fuel done_ rest :
  (length rest < fuel)%nat →
  escapeLoop fuel (done_ ++ rest) (length done_) = done_ ++ (rest ≫= escape).
Proof.
  revert done_ rest. induction fuel as [|fuel IH]; intros done_ rest Hfuel; [lia|]. cbn [escapeLoop].
  destruct (first_nonword rest) as [Hw|(a & c & b & -> & Ha & Hc)].
  { by rewrite nonchar_none, bind_words. }
  rewrite nonchar_at by done. rewrite length_app in Hfuel. cbn [length] in Hfuel.
  rewrite (app_assoc done_ a), <-length_app, take_app_length, drop_app_length.
  replace ((done_ ++ a) ++ 92 :: c :: b) with (((done_ ++ a) ++ [92; c]) ++ b) by by rewrite <-app_assoc.
  replace (length (done_ ++ a) + 2)%nat with (length ((done_ ++ a) ++ [92; c])) by (rewrite length_app; simpl; lia).
  rewrite IH by lia. rewrite bind_app, (bind_words a), bind_cons, escape_nonword by done.
  by rewrite <-!app_assoc.
Qed.

(** The star as the second character of an escape. *)
Lemma escape_head c r : ∃ d t, escape c ++ r = d :: t ∧ d ≠ 42.
Proof.
  destruct (isWord c) eqn:Hc; [rewrite escape_word by done|rewrite escape_nonword by done]; eexists _, _; (split; [done|]); [|done].
  intros ->. by vm_compute in Hc.
Qed.

Lemma findStar_skip c (r : list Z) :
  c ≠ 42 → (∃ d t, r = d :: t ∧ d ≠ 42) ∨ r = [] →
  findLiteral [92; 42] (escape c ++ r) = Nat.add (length (escape c)) <$> findLiteral [92; 42] r.
Proof.
  intros Hc Hr.
  assert (Hone : ∀ d t, (∃ e u, t = e :: u ∧ e ≠ 42) ∨ t = [] →
    findLiteral [92; 42] (d :: t) = S <$> findLiteral [92; 42] t).
  { intros d t Ht. cbn [findLiteral]. replace (startsWith [92; 42] (d :: t)) with false; [done|].
    destruct Ht as [(e & u & -> & He)| ->]; cbn [startsWith]; [|by rewrite andb_false_r].
    rewrite (proj2 (Z.eqb_neq 42 e)) by congruence. by rewrite andb_false_r. }
  destruct (isWord c) eqn:Hw; [rewrite escape_word by done|rewrite escape_nonword by done]; cbn [app length].
  - rewrite Hone by done. by destruct (findLiteral [92; 42] r).
  - rewrite Hone by (left; eexists _, _; done). rewrite Hone by done. by destruct (findLiteral [92; 42] r).
Qed.

Lemma escaped_head l : (∃ d t, l ≫= escape = d :: t ∧ d ≠ 42) ∨ l ≫= escape = [].
Proof. destruct l as [|c l]; [by right|left]. rewrite bind_cons. apply escape_head. Qed.

Lemma findStar_none l : 42 ∉ l → findLiteral [92; 42] (l ≫= escape) = None.
Proof.
  induction l as [|c l IH]; [done|]. rewrite not_elem_of_cons. intros [Hc Hl]. rewrite bind_cons, findStar_skip.
  - by rewrite IH.
  - done.
  - apply escaped_head.
Qed.

Lemma findStar_at l t : 42 ∉ l → findLiteral [92; 42] ((l ≫= escape) ++ 92 :: 42 :: t) = Some (length (l ≫= escape)).
Proof.
  induction l as [|c l IH]; [done|]. rewrite not_elem_of_cons. intros [Hc Hl]. rewrite bind_cons, <-app_assoc, findStar_skip.
  - rewrite IH by done. cbn. by rewrite length_app.
  - done.
  - left. destruct l as [|e l]; [by eexists _, _|]. rewrite bind_cons, <-app_assoc. apply escape_head.
Qed.

Lemma first_star (l : list Z) : 42 ∉ l ∨ ∃ a b, l = a ++ 42 :: b ∧ 42 ∉ a.
Proof.
  destruct (decide (42 ∈ l)) as [Hin|]; [right|by left]. apply list_elem_of_split_l in Hin as (a & b & -> & ?). eauto.
Qed.

Lemma glob_nostar l : 42 ∉ l → l ≫= glob = l ≫= escape.
Proof.
  induction l as [|c l IH]; [done|]. rewrite not_elem_of_cons. intros [Hc Hl]. rewrite !bind_cons, IH by done.
  unfold glob. by rewrite (proj2 (Z.eqb_neq _ _)) by congruence.
Qed.

Lemma replaceStars_ok fuel done_ rest :
  (length rest < fuel)%nat →
  replaceLoop fuel starMatch [46; 42] (done_ ++ (rest ≫= escape)) (length done_) = done_ ++ (rest ≫= glob).
Proof.
  revert done_ rest. induction fuel as [|fuel IH]; intros done_ rest Hfuel; [lia|]. cbn [replaceLoop].
  unfold starMatch. rewrite drop_app_length. destruct (first_star rest) as [Hno|(a & b & -> & Ha)].
  { rewrite findStar_none, glob_nostar by done. by case_match. }
  rewrite length_app in Hfuel. cbn [length] in Hfuel. rewrite !bind_app, !bind_cons, (glob_nostar a Ha).
  change (escape 42) with [92; 42]. change (glob 42) with [46; 42]. cbn [app].
  rewrite (proj2 (Nat.ltb_lt _ _)) by (rewrite !length_app; simpl; lia). rewrite findStar_at by done. cbn [fmap option_fmap option_map].
  rewrite (app_assoc done_), <-length_app, take_app_length.
  replace (drop (length (done_ ++ (a ≫= escape)) + 2) _) with (b ≫= escape) by (by rewrite <-drop_drop, drop_app_length).
  replace (length (done_ ++ (a ≫= escape)) + length [46; 42])%nat with (length ((done_ ++ (a ≫= escape)) ++ [46; 42])) by by rewrite length_app.
  change (46 :: 42 :: (b ≫= escape)) with ([46; 42] ++ (b ≫= escape)).
  rewrite (app_assoc (done_ ++ (a ≫= escape)) [46; 42]), IH by lia. by rewrite <-!app_assoc.
Qed.

(** The bar at the start. *)
Lemma glob_noBar c r : c ≠ 124 → startsWith [92; 124] (glob c ++ r) = false.
Proof.
  intros Hc. unfold glob. destruct (Z.eqb_spec c 42); [done|]. unfold escape. destruct (isWord c) eqn:Hw; cbn [app startsWith].
  - rewrite (proj2 (Z.eqb_neq 92 c)); [done|]. intros <-. by vm_compute in Hw.
  - rewrite (proj2 (Z.eqb_neq 124 c)) by congruence. done.
Qed.

Lemma replaceStart_ok pattern :
  replace (pattern ≫= glob) startBarMatch [94] =
    let '(anchored, rest) := stripStart pattern in (if anchored then [94] else []) ++ (rest ≫= glob).
Proof.
  unfold replace. destruct pattern as [|c rest]; [done|]. cbn [stripStart replaceLoop]. rewrite bind_cons.
  destruct (Z.eqb_spec c 124) as [->|Hc].
  - change (glob 124) with [92; 124]. cbn [app length Nat.ltb Nat.leb startBarMatch]. cbn [startsWith]. rewrite !Z.eqb_refl.
    cbn [andb take app drop Nat.add]. rewrite drop_0. cbn [replaceLoop]. destruct (1 <? _)%nat; done.
  - cbn [startBarMatch]. rewrite glob_noBar by done. by case_match.
Qed.

Lemma replaceLoop_none fuel target r s i : target s i = None → replaceLoop fuel target r s i = s.
Proof. intros Hn. destruct fuel; [done|]. cbn [replaceLoop]. rewrite Hn. by case_match. Qed.

(** The bar at the end; the text before it ends with no escape of a bar. *)
Lemma glob_end l : last (l ≫= glob) = match last l with Some c => Some c | None => None end.
Proof.
  destruct l as [|c l _] using rev_ind; [done|]. rewrite last_snoc, bind_app. cbn. rewrite app_nil_r.
  unfold glob, escape. destruct (Z.eqb_spec c 42) as [->|]; [|destruct (isWord c)]; by rewrite ?last_app.
Qed.

Lemma endBarMatch_at a : endBarMatch (a ++ [92; 124]) 0 = Some (length a).
Proof.
  unfold endBarMatch. rewrite length_app. cbn [length]. rewrite Nat.add_sub, drop_app_length. by rewrite bool_decide_eq_true_2.
Qed.

Lemma endBarMatch_none s i : last s ≠ Some 124 → endBarMatch s i = None.
Proof.
  intros Hl. unfold endBarMatch. rewrite bool_decide_eq_false_2, andb_false_r; [done|]. intros Hd. apply Hl.
  rewrite <-(take_drop (length s - 2) s), Hd. by rewrite last_app.
Qed.

Lemma endBarMatch_past a i : (length a < i)%nat → endBarMatch (a ++ [36]) i = None.
Proof.
  intros Hi. apply endBarMatch_none. by rewrite last_snoc.
Qed.

Lemma endsWith_last c s : endsWith c s = true ↔ last s = Some c.
Proof. unfold endsWith. destruct (last s); [rewrite Z.eqb_eq; naive_solver|done]. Qed.

Lemma replaceEnd_ok pre l :
  last pre ≠ Some 124 →
  replace (pre ++ (l ≫= glob)) endBarMatch [36] =
    let '(rest, anchored) := stripEnd l in pre ++ (rest ≫= glob) ++ (if anchored then [36] else []).
Proof.
  intros Hpre. unfold replace, stripEnd. destruct (endsWith 124 l) eqn:He.
  - apply endsWith_last in He. destruct l as [|c l _] using rev_ind; [done|]. rewrite last_snoc in He. injection He as ->.
    replace (length (l ++ [124%Z]) - 1)%nat with (length l) by (rewrite length_app; simpl; lia).
    rewrite take_app_length, bind_app. change ([124] ≫= glob) with [92; 124].
    rewrite app_assoc. cbn [replaceLoop]. rewrite endBarMatch_at.
    rewrite (proj2 (Nat.ltb_lt _ _)) by (rewrite !length_app; simpl; lia).
    rewrite take_app_length, <-drop_drop, drop_app_length. cbn [drop app]. rewrite replaceLoop_none; [by rewrite <-app_assoc|].
    apply endBarMatch_none. by rewrite last_snoc.
  - rewrite app_nil_r. apply replaceLoop_none, endBarMatch_none. intros Hl. rewrite last_app, glob_end in Hl.
    destruct (last l) as [c|] eqn:Hll; [|done]. injection Hl as ->. apply endsWith_last in Hll. congruence.
Qed.

Lemma escaped_length l : (length l ≤ length (l ≫= escape))%nat.
Proof.
  induction l as [|c l IH]; [done|]. rewrite bind_cons, length_app. cbn [length]. unfold escape at 1. case_match; simpl; lia.
Qed.

Lemma replaceStars_all l : replace (l ≫= escape) starMatch [46; 42] = l ≫= glob.
Proof. apply (replaceStars_ok _ [] l). pose proof (escaped_length l). lia. Qed.

(** C29: The rewriting of a rule's pattern ends and gives the expression the rule
    means: a star becomes [.*], a bar at the start [^], one at the end [$], and
    every other character that is not a letter, a digit or an underscore is
    escaped, so that it matches itself. *)
Theorem translate_exact pattern : translate pattern = meaning pattern.
Proof.
  unfold translate, meaning. pose proof (escapeLoop_ok (S (length pattern)) [] pattern ltac:(lia)) as He.
  cbn [app length] in He. rewrite He.
  rewrite replaceStars_all, replaceStart_ok. destruct (stripStart pattern) as [anchored rest].
  rewrite replaceEnd_ok by (by destruct anchored). by destruct (stripEnd rest).
Qed.

(** ** The options *)

(** The resource types a rule can name. *)
Inductive TypeOption := OptImage | OptStylesheet | OptScript | OptSubdocument.

#[global] Instance TypeOption_eq_dec : EqDecision TypeOption.
Proof. solve_decision. Defined.

Definition optionName (o : TypeOption) : list Z :=
  match o with
  | OptImage => text "image"
  | OptStylesheet => text "stylesheet"
  | OptScript => text "script"
  | OptSubdocument => text "subdocument"
  end.

Definition optionType (o : TypeOption) : Z :=
  match o with
  | OptImage => ImageResource
  | OptStylesheet => CSSStyleSheet
  | OptScript => Script
  | OptSubdocument => DOCUMENT_TYPE
  end.

(** Whether a mask selects a type, as [AdPattern::matches] tests it. *)
Definition selects (types type : Z) : bool := negb (Z.land (u32 (Z.shiftl 1 type)) (u32 types) =? 0).

Lemma applyOption_name types o :
  applyOption types (optionName o) = Z.lor (if types =? -1 then 0 else types) (Z.shiftl 1 (optionType o)).
Proof. by destruct o. Qed.

Lemma applyOption_inverted types o :
  applyOption types (126 :: optionName o) = Z.land types (Z.lnot (Z.shiftl 1 (optionType o))).
Proof. by destruct o. Qed.

Lemma selects_testbit types type : 0 ≤ type < 32 → selects types type = Z.testbit types type.
Proof.
  intros Ht. unfold selects. rewrite Z.shiftl_1_l.
  assert (0 < 2 ^ type < 2 ^ 32) by (split; [apply Z.pow_pos_nonneg; lia|apply Z.pow_lt_mono_r; lia]).
  rewrite (u32_small (2 ^ type)) by lia. unfold u32.
  destruct (Z.testbit types type) eqn:Hb.
  - apply negb_true_iff, Z.eqb_neq. intros H0. assert (Hbit : Z.testbit (Z.land (2 ^ type) (types mod 2 ^ 32)) type = true).
    { rewrite Z.land_spec, Z.pow2_bits_true, Z.mod_pow2_bits_low by lia. done. }
    rewrite H0, Z.bits_0 in Hbit. done.
  - apply negb_false_iff, Z.eqb_eq, Z.bits_inj_0. intros n. rewrite Z.land_spec.
    destruct (decide (n = type)) as [->|Hne]; [rewrite Z.mod_pow2_bits_low, Hb by lia; apply andb_false_r|].
    rewrite Z.pow2_bits_false by congruence. done.
Qed.

(** A set of types as a mask. *)
Definition isMask (m : Z) (seen : list Z) : Prop :=
  ∀ type, 0 ≤ type → Z.testbit m type = bool_decide (type ∈ seen).

Lemma isMask_add m seen o : isMask m seen → isMask (Z.lor m (Z.shiftl 1 (optionType o))) (optionType o :: seen).
Proof.
  intros Hm type Ht. rewrite Z.lor_spec, Hm, Z.shiftl_1_l, Z.pow2_bits_eqb by (by destruct o).
  apply eq_bool_prop_intro. rewrite orb_True, !bool_decide_spec, elem_of_cons, Is_true_true, Z.eqb_eq. naive_solver.
Qed.

Lemma applyOptions_positive opts m seen :
  0 < m → isMask m seen →
  let m' := fold_left applyOption (optionName <$> opts) m in
  0 < m' ∧ isMask m' (rev (optionType <$> opts) ++ seen).
Proof.
  revert m seen. induction opts as [|o opts IH]; intros m seen H1 H2; [done|]. cbn [fmap list_fmap fold_left rev].
  rewrite applyOption_name, (proj2 (Z.eqb_neq m (-1))), <-app_assoc by lia. apply IH; [|by apply isMask_add].
  assert (0 < Z.shiftl 1 (optionType o)) by (destruct o; reflexivity).
  assert (0 ≤ Z.lor m (Z.shiftl 1 (optionType o))) by (apply Z.lor_nonneg; lia).
  assert (Z.lor m (Z.shiftl 1 (optionType o)) ≠ 0) by (rewrite Z.lor_eq_0_iff; lia). lia.
Qed.

Lemma optionTypes_positive opts :
  opts ≠ [] → 0 < optionTypes (optionName <$> opts) ∧ isMask (optionTypes (optionName <$> opts)) (rev (optionType <$> opts)).
Proof.
  destruct opts as [|o opts]; [done|]. intros _. unfold optionTypes. cbn [fmap list_fmap fold_left rev].
  rewrite applyOption_name. apply applyOptions_positive; [by destruct o|].
  apply (isMask_add 0 []). intros type _. by rewrite Z.bits_0, bool_decide_eq_false_2 by set_solver.
Qed.

Lemma optionTypes_inverted opts m type :
  0 ≤ type →
  Z.testbit (fold_left applyOption ((126 ::.) ∘ optionName <$> opts) m) type =
    Z.testbit m type && negb (bool_decide (type ∈ optionType <$> opts)).
Proof.
  intros Ht. revert m. induction opts as [|o opts IH]; intros m.
  { cbn. by rewrite andb_true_r. }
  cbn [fmap list_fmap fold_left compose]. rewrite IH, applyOption_inverted, Z.land_spec, Z.lnot_spec, Z.shiftl_1_l by done.
  rewrite Z.pow2_bits_eqb, <-andb_assoc by by destruct o. f_equal. rewrite <-negb_orb. f_equal.
  apply eq_bool_prop_intro. rewrite orb_True, !bool_decide_spec, elem_of_cons, Is_true_true, Z.eqb_eq. naive_solver.
Qed.

(** The options of a rule: a list of type names selects exactly the types it
    names, a list of negated names exactly the types it does not name, no options
    select every type; and unknown names alone make the rule select nothing, so
    that it is dropped. *)
Theorem options_exact opts unknown type :
  0 ≤ type < 32 →
  (opts ≠ [] → selects (optionTypes (optionName <$> opts)) type = bool_decide (type ∈ optionType <$> opts)) ∧
  selects (optionTypes ((126 ::.) ∘ optionName <$> opts)) type = negb (bool_decide (type ∈ optionType <$> opts)) ∧
  (unknown ≠ [] → Forall (λ o, typeMask o = 0 ∧ startsWith [126] o = false ∧ o ≠ text "match-case") unknown →
   optionTypes unknown = 0).
Proof.
  intros Ht. split_and!.
  - intros Hne. destruct (optionTypes_positive opts Hne) as [_ Hm]. rewrite selects_testbit, Hm by lia.
    apply bool_decide_ext. by rewrite !list_elem_of_In, <-in_rev.
  - rewrite selects_testbit by done. unfold optionTypes. rewrite optionTypes_inverted by lia. by rewrite Z.bits_m1 by lia.
  - intros Hne Hu. unfold optionTypes. destruct Hu as [|o us (Ho & Hs & Hmc) Hus]; [done|]. cbn [fold_left].
    assert (Hap : ∀ o m, typeMask o = 0 → startsWith [126] o = false → o ≠ text "match-case" →
      applyOption m o = if m =? -1 then 0 else m).
    { intros o' m Ho' Hs' Hmc'. unfold applyOption. rewrite bool_decide_eq_false_2, Hs', Ho' by done. apply Z.lor_0_r. }
    rewrite Hap by done. change (if -1 =? -1 then 0 else -1) with 0.
    induction Hus as [|o' us (Ho' & Hs' & Hmc') Hus IH]; [done|]. cbn [fold_left]. rewrite Hap by done. by apply IH.
Qed.

(** ** Examples *)

Lemma options_exact_witness :
  selects (optionTypes [text "image"; text "script"]) Script = true ∧
  selects (optionTypes [text "~image"; text "~script"]) CSSStyleSheet = true ∧
  optionTypes [text "third-party"] = 0.
Proof.
  split_and!.
  - exact (proj1 (options_exact [OptImage; OptScript] [] Script ltac:(unfold Script; lia)) ltac:(discriminate)).
  - exact (proj1 (proj2 (options_exact [OptImage; OptScript] [] CSSStyleSheet ltac:(unfold CSSStyleSheet; lia)))).
  - apply (proj2 (proj2 (options_exact [] [text "third-party"] 0 ltac:(lia)))); [discriminate|].
    repeat constructor. discriminate.
Defined.
