(* ===== verification/AdBlockStore.v ===== *)
(** * The content blocker: the lists of rules, the cache and the file

    Model of the rest of [Source/WebCore/loader/AdBlock.cpp] and of the handlers of
    [Source/WebKitLegacy/mui/UI/blockmanagergroupclass.cpp] that edit the rules:
    the white list and the black list as vectors of pointers to patterns on a heap,
    the cache of decisions [ab_cache], the rules file [FILTER_PATH], and the
    notifications to the user interface. Following a pointer to a deleted pattern
    and reading a decision that was never written are faults.

    The theorems show that a decision is the one the current rules make, that the
    edits do to the rules what they say and leave no stale decision behind, and
    that the rules a session writes are the rules the next session reads; and what
    goes wrong where they do not hold. *)

From Stdlib Require Import String.
From S2P Require Import Prelude AdBlock.

Definition CACHE_SIZE : nat := 1009.

(** A new entry has a null target and no decision yet. *)
Record CacheEntry := mkCacheEntry { target : option (list Z); block : option bool }.
Definition newCacheEntry : CacheEntry := mkCacheEntry None None.

(** What the code asks of a [URL]. *)
Record URL := mkURL {
  url_string : option (list Z);
  url_protocol : list Z;
  url_host : list Z;
  url_path : list Z;
  url_protocolIsData : bool;
}.

(** The global state. A pattern is known by its address. *)
Record Store := mkStore {
  ad_block_enabled : bool;
  ab_cache : option (list CacheEntry);
  ab_blackList : list positive;
  ab_whiteList : list positive;
  heap : gmap positive AdPattern;
  nextAddress : positive;
  (** The bytes of the rules file, none when there is no file. *)
  filterFile : option (list Z);
  (** Whether the file can be opened for writing. *)
  writable : bool;
  (** [MM_BlockManagerGroup_DidInsert] messages: rule, type, pattern. *)
  didInsert : list (list Z * Z * option positive);
}.

Definition set_enabled (x : bool) (s : Store) : Store :=
  mkStore x (ab_cache s) (ab_blackList s) (ab_whiteList s) (heap s) (nextAddress s) (filterFile s) (writable s) (didInsert s).
Definition set_cache (x : option (list CacheEntry)) (s : Store) : Store :=
  mkStore (ad_block_enabled s) x (ab_blackList s) (ab_whiteList s) (heap s) (nextAddress s) (filterFile s) (writable s) (didInsert s).
Definition set_black (x : list positive) (s : Store) : Store :=
  mkStore (ad_block_enabled s) (ab_cache s) x (ab_whiteList s) (heap s) (nextAddress s) (filterFile s) (writable s) (didInsert s).
Definition set_white (x : list positive) (s : Store) : Store :=
  mkStore (ad_block_enabled s) (ab_cache s) (ab_blackList s) x (heap s) (nextAddress s) (filterFile s) (writable s) (didInsert s).
Definition set_heap (x : gmap positive AdPattern) (next : positive) (s : Store) : Store :=
  mkStore (ad_block_enabled s) (ab_cache s) (ab_blackList s) (ab_whiteList s) x next (filterFile s) (writable s) (didInsert s).
Definition set_file (x : option (list Z)) (s : Store) : Store :=
  mkStore (ad_block_enabled s) (ab_cache s) (ab_blackList s) (ab_whiteList s) (heap s) (nextAddress s) x (writable s) (didInsert s).
Definition notify (x : list Z * Z * option positive) (s : Store) : Store :=
  mkStore (ad_block_enabled s) (ab_cache s) (ab_blackList s) (ab_whiteList s) (heap s) (nextAddress s) (filterFile s) (writable s) (didInsert s ++ [x]).

(** The two lists, by the type of a rule in the user interface: 0 blocks, 1 lets
    pass. *)
Inductive ListName := Black | White.

Definition patterns (n : ListName) (s : Store) : list positive :=
  match n with Black => ab_blackList s | White => ab_whiteList s end.
Definition set_patterns (n : ListName) (x : list positive) (s : Store) : Store :=
  match n with Black => set_black x s | White => set_white x s end.

Definition listOfType (type : Z) : option ListName :=
  if type =? 0 then Some Black else if type =? 1 then Some White else None.

Abbreviation AdM := (M Store).

(** ** Patterns on the heap *)

Definition deref (p : positive) : AdM AdPattern := λ s,
  match heap s !! p with Some a => Some (a, s) | None => None end.

(** [delete]: deleting twice is a fault. *)
Definition deletePattern (p : positive) : AdM unit := modifyOpt (λ s,
  match heap s !! p with Some _ => Some (set_heap (base.delete p (heap s)) (nextAddress s) s) | None => None end).

(** [PatternMatcher::addPattern] *)
Definition addPattern (n : ListName) (pat : list Z) : AdM (option positive) :=
  match parsePattern pat with
  | None => mret None
  | Some a => λ s,
      let p := nextAddress s in
      Some (Some p, set_patterns n (patterns n s ++ [p]) (set_heap (<[p := a]> (heap s)) (Pos.succ p) s))
  end.

(** [PatternMatcher::updatePattern], which writes through the pointer. *)
Definition updatePattern (pat : list Z) (p : positive) : AdM bool :=
  match parsePattern pat with
  | None => mret false
  | Some a => _ ← deref p; modify (λ s, set_heap (<[p := a]> (heap s)) (nextAddress s) s);; mret true
  end.

Section Matching.
Context `{Regexp}.

(** The loop of [PatternMatcher::matches]; shifting by the width of an [int] or
    more is a fault. *)
Fixpoint anyMatches (ps : list positive) (target : list Z) (type : Z) : AdM bool :=
  match ps with
  | [] => mret false
  | p :: ps =>
      a ← deref p;
      if (type <? 0) || (31 <=? type) then fault
      else if AdPattern_matches a target type then mret true else anyMatches ps target type
  end.

Definition PatternMatcher_matches (n : ListName) (target : list Z) (type : Z) : AdM bool :=
  ps ← gets (patterns n); anyMatches ps target type.

End Matching.

Definition ab_hash (str : list Z) : Z := fold_left (λ result c, u32 (31 * result + c)) str 0.

(** ** Reading the file *)

(** [fgets] with a buffer for [n] characters: up to and including a newline. *)
Fixpoint fgets (n : nat) (file : list Z) : list Z * list Z :=
  match n, file with
  | S n, c :: file => if c =? 10 then ([c], file) else let '(l, rest) := fgets n file in (c :: l, rest)
  | _, _ => ([], file)
  end.

(** The characters of a C string in a buffer: up to the first NUL. *)
Fixpoint cstring (buf : list Z) : list Z :=
  match buf with
  | [] => []
  | c :: buf => if c =? 0 then [] else c :: cstring buf
  end.

(** What [initialize] does with a line of the file. *)
Definition readRule (buf : list Z) : AdM unit :=
  let line := filter (.≠ 10) (cstring buf) in
  if startsWith (text "@@") line then
    p ← addPattern White (drop 2 line);
    modify (notify (drop 2 line, 1, p))
  else if negb (startsWith (text "!") line) && negb (startsWith (text "#") line) && negb (bool_decide (line = [])) then
    p ← addPattern Black line;
    modify (notify (line, 0, p))
  else mret tt.

(** [while (fgets(buf, 512, file))]: every line has a character. *)
Fixpoint readRules (fuel : nat) (file : list Z) : AdM unit :=
  match file with
  | [] => mret tt
  | _ =>
      match fuel with
      | O => fault
      | S fuel => let '(line, rest) := fgets 511 file in readRule line;; readRules fuel rest
      end
  end.

Definition newCache : list CacheEntry := replicate CACHE_SIZE newCacheEntry.

(** [initialize]: the first line is read and ignored. *)
Definition initialize : AdM (list CacheEntry) :=
  file ← gets filterFile;
  match file with
  | Some bytes => readRules (length bytes) (snd (fgets 511 bytes))
  | None => mret tt
  end;;
  mret newCache.

(** ** The operations *)

Fixpoint deletePatterns (ps : list positive) : AdM unit :=
  match ps with
  | [] => mret tt
  | p :: ps => deletePattern p;; deletePatterns ps
  end.

Definition deinitialize : AdM unit :=
  modify (set_cache None);;
  white ← gets ab_whiteList; deletePatterns white;;
  black ← gets ab_blackList; deletePatterns black.

Definition flushCache : AdM unit := modify (set_cache (Some newCache)).

Definition loadCache : AdM unit :=
  c ← gets ab_cache;
  match c with
  | None => c ← initialize; modify (set_cache (Some c))
  | Some _ => mret tt
  end.

(** [String::latin1]: what does not fit is a question mark. *)
Definition latin1 (s : list Z) : list Z := (λ c, if c <=? 255 then c else 63) <$> s.

(** [fprintf] of the rules of one list. *)
Fixpoint printRules (prefix : list Z) (ps : list positive) : AdM (list Z) :=
  match ps with
  | [] => mret []
  | p :: ps =>
      a ← deref p;
      rest ← printRules prefix ps;
      mret (prefix ++ cstring (latin1 (m_string a)) ++ [10] ++ rest)
  end.

Definition lines (l : list (list Z)) : list Z := l ≫= (λ s, s ++ [10]).

Definition fileHeader : list Z := lines [text "[Adblock]"; text "!---- Generated by OWB ----!"; text "!---- White List ----!"].
Definition blackHeader : list Z := lines [text "!---- Black List ----!"].

(** [writeCache]: opening the file for writing empties it. *)
Definition writeCache : AdM bool :=
  ok ← gets writable;
  if negb ok then mret false
  else
    modify (set_file (Some []));;
    loadCache;;
    whiteRules ← gets ab_whiteList; white ← printRules (text "@@") whiteRules;
    blackRules ← gets ab_blackList; black ← printRules [] blackRules;
    modify (set_file (Some (fileHeader ++ white ++ blackHeader ++ black)));;
    mret true.

Definition addCacheEntry (rule : list Z) (type : Z) : AdM (option positive) :=
  match listOfType type with
  | Some n => addPattern n rule
  | None => mret None
  end.

(** The null pointer is in no list. *)
Definition updateCacheEntry (rule : list Z) (type : Z) (ptr : option positive) : AdM unit :=
  match listOfType type, ptr with
  | Some n, Some p =>
      ps ← gets (patterns n);
      if bool_decide (p ∈ ps) then updatePattern rule p;; mret tt else mret tt
  | _, _ => mret tt
  end.

(** The first occurrence is removed. *)
Fixpoint removeFirst (p : positive) (ps : list positive) : list positive :=
  match ps with
  | [] => []
  | q :: ps => if bool_decide (q = p) then ps else q :: removeFirst p ps
  end.

Definition removeCacheEntry (ptr : option positive) (type : Z) : AdM unit :=
  match listOfType type, ptr with
  | Some n, Some p =>
      ps ← gets (patterns n);
      if bool_decide (p ∈ ps) then modify (set_patterns n (removeFirst p ps));; deletePattern p else mret tt
  | _, _ => mret tt
  end.

(** The index of the last slash, -1 when there is none. *)
Definition reverseFind (c : Z) (s : list Z) : Z :=
  match list_find (.= c) (reverse s) with
  | Some (i, _) => Z.of_nat (length s) - 1 - Z.of_nat i
  | None => -1
  end.

Definition blockTypeOption (type : Z) : list Z :=
  if type =? Z.shiftl 1 ImageResource then text "image"
  else if type =? Z.shiftl 1 CSSStyleSheet then text "stylesheet"
  else if type =? Z.shiftl 1 Script then text "script"
  else if type =? Z.shiftl 1 DOCUMENT_TYPE then text "subdocument"
  else [].

Definition blockPattern (url : URL) (mode : Z) : list Z :=
  if mode =? 1 then url_protocol url ++ text "://" ++ url_host url ++ text "/*"
  else if mode =? 2 then
    let lastSlashLocation := reverseFind 47 (url_path url) in
    url_protocol url ++ text "://" ++ url_host url ++
    (if 0 <? lastSlashLocation then take (Z.to_nat lastSlashLocation) (url_path url) ++ text "/*" else text "/*")
  else default [] (url_string url).

Definition blockResource (url : URL) (type mode : Z) : AdM unit :=
  let typeOpt := blockTypeOption type in
  let pat := blockPattern url mode ++ (if bool_decide (typeOpt = []) then [] else text "#" ++ typeOpt) in
  pattern ← addPattern Black pat;
  modify (notify (pat, 0, pattern));;
  writeCache;;
  flushCache.

Section Deciding.
Context `{Regexp}.

Definition shouldBlock (url : URL) (type : Z) : AdM bool :=
  if url_protocolIsData url then mret false
  else
    on ← gets ad_block_enabled;
    if negb on then mret false
    else
      let type := if type <? 0 then DOCUMENT_TYPE else type in
      loadCache;;
      let address := default [] (url_string url) in
      let i := Z.to_nat (ab_hash address mod Z.of_nat CACHE_SIZE) in
      cache ← gets (default [] ∘ ab_cache);
      match cache !! i with
      | None => fault
      | Some ent =>
          if bool_decide (target ent ≠ url_string url) then
            white ← PatternMatcher_matches White address type;
            black ← (if (white : bool) then mret false else PatternMatcher_matches Black address type);
            let block := negb white && black in
            modify (set_cache (Some (<[i := mkCacheEntry (url_string url) (Some block)]> cache)));;
            mret block
          else
            match block ent with
            | Some b => mret b
            | None => fault
            end
      end.

End Deciding.

(** ** The handlers of the rules window *)

(** The entry of the list the user has selected. *)
Record block_entry := mkEntry { rule : list Z; type : Z; ptr : option positive }.

Definition BlockManagerGroup_Add : AdM block_entry :=
  p ← addCacheEntry [] 1;
  writeCache;;
  flushCache;;
  mret (mkEntry [] 1 p).

Definition BlockManagerGroup_Remove (entry : block_entry) : AdM unit :=
  removeCacheEntry (ptr entry) (type entry);;
  writeCache;;
  flushCache.

Definition BlockManagerGroup_Change (entry : block_entry) (newRule : list Z) (newType : Z) : AdM block_entry :=
  entry' ← (if negb (type entry =? newType) then
              removeCacheEntry (ptr entry) (type entry);;
              p ← addCacheEntry newRule newType;
              mret (mkEntry newRule newType p)
            else
              updateCacheEntry newRule (type entry) (ptr entry);;
              mret (mkEntry newRule (type entry) (ptr entry)));
  writeCache;;
  flushCache;;
  mret entry'.

(** ** The rules and the decision they make *)

(** The rules of a list, in order. *)
Definition rules (n : ListName) (s : Store) : list (list Z) := omap (λ p, m_string <$> heap s !! p) (patterns n s).

Definition decision `{Regexp} (white black : list (list Z)) (target : list Z) (type : Z) : bool :=
  negb (existsb (λ r, ruleMatches r target type) white) && existsb (λ r, ruleMatches r target type) black.

(** The patterns of the lists are on the heap, each in one place, and each is the
    pattern of its rule. *)
Record store_wf (s : Store) : Prop := mkStoreWf {
  swf_distinct : NoDup (ab_whiteList s ++ ab_blackList s);
  swf_heap p : p ∈ ab_whiteList s ++ ab_blackList s → ∃ a, heap s !! p = Some a ∧ parsePattern (m_string a) = Some a;
  swf_fresh p : is_Some (heap s !! p) → (p < nextAddress s)%positive;
  swf_cache c : ab_cache s = Some c → length c = CACHE_SIZE;
}.

(** The decisions in the cache are those of the rules, when a target is always
    asked for with the same type. *)
Definition coherent `{Regexp} (typeOf : list Z → Z) (s : Store) : Prop :=
  ∀ c i e t, ab_cache s = Some c → c !! i = Some e → target e = Some t →
    block e = Some (decision (rules White s) (rules Black s) t (typeOf t)).

(** A null target has no decision. *)
Definition nullUndecided (s : Store) : Prop := ∀ c i e, ab_cache s = Some c → c !! i = Some e → target e = None → e = newCacheEntry.

Lemma parsePattern_string r a : parsePattern r = Some a → m_string a = r.
Proof. unfold parsePattern. repeat case_match; by intros [= <-]. Qed.

Lemma swf_in n s p : store_wf s → p ∈ patterns n s → ∃ a, heap s !! p = Some a ∧ parsePattern (m_string a) = Some a.
Proof. intros Hwf Hp. apply (swf_heap s Hwf). destruct n; set_solver. Qed.

Section Matches.
Context `{Regexp}.

Lemma anyMatches_ok s ps target type :
  (∀ p, p ∈ ps → ∃ a, heap s !! p = Some a ∧ parsePattern (m_string a) = Some a) → 0 ≤ type < 31 →
  anyMatches ps target type s =
    Some (existsb (λ r, ruleMatches r target type) (omap (λ p, m_string <$> heap s !! p) ps), s).
Proof.
  intros Hps Ht. induction ps as [|p ps IH]; [done|]. cbn [anyMatches]. unfold mbind, M_bind, deref.
  destruct (Hps p) as (a & Ha & Hparse); [by left|]. rewrite Ha.
  rewrite (proj2 (Z.ltb_ge type 0)), (proj2 (Z.leb_gt 31 type)) by lia. cbn. rewrite Ha. cbn.
  unfold ruleMatches at 1. rewrite Hparse. destruct (AdPattern_matches a target type); [done|].
  cbn. apply IH. intros q Hq. apply Hps. by right.
Qed.

Lemma matches_ok n s target type :
  store_wf s → 0 ≤ type < 31 →
  PatternMatcher_matches n target type s = Some (existsb (λ r, ruleMatches r target type) (rules n s), s).
Proof.
  intros Hwf Ht. unfold PatternMatcher_matches, gets, mbind, M_bind. apply anyMatches_ok; [|done].
  intros p. by apply swf_in.
Qed.

Lemma hash_index str : (Z.to_nat (ab_hash str mod Z.of_nat CACHE_SIZE) < CACHE_SIZE)%nat.
Proof. pose proof (Z.mod_pos_bound (ab_hash str) (Z.of_nat CACHE_SIZE) ltac:(by vm_compute)). lia. Qed.

(** Filling an entry with the decision of the rules. *)
Lemma fill_coherent typeOf s c i t :
  coherent typeOf s → ab_cache s = Some c →
  coherent typeOf (set_cache (Some (<[i := mkCacheEntry (Some t) (Some (decision (rules White s) (rules Black s) t (typeOf t)))]> c)) s).
Proof.
  intros Hco Hc c' j e t' [= <-] Hj Ht'. change (rules White (set_cache _ s)) with (rules White s).
  change (rules Black (set_cache _ s)) with (rules Black s).
  destruct (decide (i = j)) as [->|Hne].
  - destruct (decide (j < length c)%nat) as [Hlt|Hge].
    + rewrite list_lookup_insert_eq in Hj by done. injection Hj as <-. cbn in *. injection Ht' as ->. done.
    + rewrite list_insert_ge in Hj by lia. by eapply Hco.
  - rewrite list_lookup_insert_ne in Hj by done. by eapply Hco.
Qed.

(** What a loaded [shouldBlock] does. *)
Lemma shouldBlock_loaded typeOf s c url t type :
  store_wf s → coherent typeOf s → ab_cache s = Some c → url_string url = Some t →
  (if type <? 0 then DOCUMENT_TYPE else type) = typeOf t → 0 ≤ typeOf t < 31 →
  ∃ s', shouldBlock url type s =
          Some (negb (url_protocolIsData url) && ad_block_enabled s && decision (rules White s) (rules Black s) t (typeOf t), s') ∧
    store_wf s' ∧ coherent typeOf s' ∧ rules White s' = rules White s ∧ rules Black s' = rules Black s ∧
    ad_block_enabled s' = ad_block_enabled s ∧ is_Some (ab_cache s').
Proof.
  intros Hwf Hco Hc Hu Ht Htype. unfold shouldBlock. destruct (url_protocolIsData url); cbn [negb andb]; [by exists s; eauto 10|].
  unfold gets, mbind, M_bind. destruct (ad_block_enabled s) eqn:Hen; cbn [negb andb]; [|by exists s; eauto 10].
  unfold loadCache, gets, mbind, M_bind. rewrite Hc. cbn [mret M_ret]. cbn [compose]. rewrite Hc. cbn [default]. rewrite Hu.
  change (default [] (Some t)) with t. change (default [] (Some c)) with c. cbn [id].
  set (i := Z.to_nat (ab_hash t mod Z.of_nat CACHE_SIZE)).
  destruct (lookup_lt_is_Some_2 c i) as [e He]; [rewrite (swf_cache s Hwf c Hc); apply hash_index|]. unfold id. fold i. rewrite He.
  case_bool_decide as Hdiff.
  - rewrite Ht, (matches_ok White s t (typeOf t) Hwf Htype).
    set (w := existsb _ (rules White s)). set (s' := set_cache (Some (<[i := mkCacheEntry (Some t) (Some (decision (rules White s) (rules Black s) t (typeOf t)))]> c)) s).
    exists s'. split.
    + assert (Hd : decision (rules White s) (rules Black s) t (typeOf t) = negb w && existsb (λ r, ruleMatches r t (typeOf t)) (rules Black s)) by done.
      unfold s'. rewrite Hd. destruct w; cbn; [done|]. by rewrite (matches_ok Black s t (typeOf t) Hwf Htype).
    + split; [|split; [by apply fill_coherent|by eauto 10]]. destruct Hwf. split; try done.
      intros c' [= <-]. rewrite length_insert. by apply swf_cache0.
  - exists s. rewrite (Hco c i e t Hc He Hdiff). split; [|by eauto 10].
    by destruct Hwf.
Qed.

End Matches.

(** ** The edits *)

Definition other (n : ListName) : ListName := match n with Black => White | White => Black end.

Lemma rules_length n s : store_wf s → length (rules n s) = length (patterns n s).
Proof.
  intros Hwf. unfold rules. assert (Hps : ∀ p, p ∈ patterns n s → is_Some (heap s !! p)).
  { intros p Hp. destruct (swf_in n s p Hwf Hp) as (a & -> & _). eauto. }
  induction (patterns n s) as [|p ps IH]; [done|]. cbn. destruct (Hps p) as [a ->]; [by left|]. cbn. f_equal.
  apply IH. intros q Hq. apply Hps. by right.
Qed.

(** The rules of pointers that are all on the heap. *)
Lemma rules_fmap (h : gmap positive AdPattern) (ps : list positive) :
  (∀ p, p ∈ ps → is_Some (h !! p)) →
  omap (λ p, m_string <$> h !! p) ps = (λ p, default [] (m_string <$> h !! p)) <$> ps.
Proof.
  intros Hps. induction ps as [|p ps IH]; [done|]. cbn. destruct (Hps p) as [a Ha]; [by left|]. rewrite Ha. cbn. f_equal. apply IH. intros q Hq. apply Hps. by right.
Qed.

Lemma rules_as_fmap n s : store_wf s → rules n s = (λ p, default [] (m_string <$> heap s !! p)) <$> patterns n s.
Proof. intros Hwf. apply rules_fmap. intros p Hp. destruct (swf_in n s p Hwf Hp) as (a & -> & _). eauto. Qed.

Lemma rules_heap (h1 h2 : gmap positive AdPattern) (ps : list positive) :
  (∀ p, p ∈ ps → h1 !! p = h2 !! p) →
  omap (λ p, m_string <$> h1 !! p) ps = omap (λ p, m_string <$> h2 !! p) ps.
Proof.
  intros Heq. induction ps as [|p ps IH]; [done|]. cbn. rewrite (Heq p) by by left. rewrite IH; [done|].
  intros q Hq. apply Heq. by right.
Qed.

Lemma swf_lists s n : store_wf s → NoDup (patterns n s) ∧ NoDup (patterns (other n) s) ∧ (∀ p, p ∈ patterns n s → p ∉ patterns (other n) s).
Proof. intros Hwf. destruct (proj1 (NoDup_app _ _) (swf_distinct s Hwf)) as (? & Hd & ?). destruct n; split_and!; try done; set_solver. Qed.

Lemma swf_lists_inv s n :
  NoDup (patterns n s) → NoDup (patterns (other n) s) → (∀ p, p ∈ patterns n s → p ∉ patterns (other n) s) →
  NoDup (ab_whiteList s ++ ab_blackList s).
Proof. intros H1 H2 H3. apply NoDup_app. destruct n; cbn in *; split_and!; try done; set_solver. Qed.

Lemma elem_lists s n p : p ∈ ab_whiteList s ++ ab_blackList s ↔ p ∈ patterns n s ∨ p ∈ patterns (other n) s.
Proof. rewrite elem_of_app. destruct n; cbn; tauto. Qed.

(** What an edit must not touch. *)
Definition sameRest (s s' : Store) : Prop :=
  ad_block_enabled s' = ad_block_enabled s ∧ ab_cache s' = ab_cache s ∧ writable s' = writable s ∧ filterFile s' = filterFile s.

Lemma addPattern_ok n pat s :
  store_wf s →
  ∃ r s', addPattern n pat s = Some (r, s') ∧ store_wf s' ∧ sameRest s s' ∧
    rules n s' = rules n s ++ (match parsePattern pat with Some _ => [pat] | None => [] end) ∧
    rules (other n) s' = rules (other n) s ∧
    (match r with Some p => last (patterns n s') = Some p | None => s' = s end).
Proof.
  intros Hwf. unfold addPattern. destruct (parsePattern pat) as [a|] eqn:Hparse.
  2: { exists None, s. by rewrite app_nil_r. }
  set (p := nextAddress s). assert (Hfresh : heap s !! p = None).
  { destruct (heap s !! p) eqn:E; [|done]. pose proof (swf_fresh s Hwf p ltac:(eauto)). unfold p in *. lia. }
  assert (Hold : ∀ q, q ∈ ab_whiteList s ++ ab_blackList s → q ≠ p).
  { intros q Hq ->. destruct (swf_heap s Hwf p Hq) as (? & ? & _). congruence. }
  set (s' := set_patterns n (patterns n s ++ [p]) (set_heap (<[p:=a]> (heap s)) (Pos.succ p) s)).
  assert (Hh : heap s' = <[p:=a]> (heap s)) by by destruct n.
  assert (Hn : patterns n s' = patterns n s ++ [p]) by by destruct n.
  assert (Ho : patterns (other n) s' = patterns (other n) s) by by destruct n.
  exists (Some p), s'. split; [done|]. destruct (swf_lists s n Hwf) as (Hnd & Hndo & Hdis).
  split_and!.
  - split.
    + apply (swf_lists_inv s' n); rewrite ?Hn, ?Ho; [|done|].
      * apply NoDup_app. split; [done|]. split; [|apply NoDup_singleton]. intros q Hq ->%list_elem_of_singleton.
        apply (Hold p); [|done]. apply (elem_lists s n). by left.
      * intros q [Hq| ->%list_elem_of_singleton]%elem_of_app; [by apply Hdis|]. intros Hq. apply (Hold p); [|done].
        apply (elem_lists s n). by right.
    + intros q. rewrite (elem_lists s' n), Hn, Ho, elem_of_app, list_elem_of_singleton, Hh. intros Hq.
      destruct (decide (q = p)) as [->|Hne].
      * exists a. rewrite lookup_insert_eq. split; [done|]. by rewrite (parsePattern_string pat a).
      * rewrite lookup_insert_ne by done. apply (swf_heap s Hwf), (elem_lists s n). naive_solver.
    + intros q. rewrite Hh. replace (nextAddress s') with (Pos.succ p) by by destruct n.
      destruct (decide (q = p)) as [->|Hne]; [lia|]. rewrite lookup_insert_ne by done.
      intros Hq. pose proof (swf_fresh s Hwf q Hq). unfold p. lia.
    + intros c Hc. apply (swf_cache s Hwf). by destruct n.
  - by destruct n.
  - unfold rules. rewrite Hn, Hh, omap_app. cbn. rewrite lookup_insert_eq. cbn. rewrite (parsePattern_string pat a) by done. f_equal.
    apply rules_heap. intros q Hq. apply lookup_insert_ne. intros <-. apply (Hold p); [|done]. apply (elem_lists s n). by left.
  - unfold rules. rewrite Ho, Hh. apply rules_heap. intros q Hq. apply lookup_insert_ne. intros <-.
    apply (Hold p); [|done]. apply (elem_lists s n). by right.
  - rewrite Hn. apply last_snoc.
Qed.

Lemma removeFirst_split p a b : p ∉ a → removeFirst p (a ++ p :: b) = a ++ b.
Proof.
  induction a as [|q a IH]; cbn; intros Hn; [by rewrite bool_decide_eq_true_2|].
  rewrite not_elem_of_cons in Hn. rewrite bool_decide_eq_false_2 by naive_solver. by rewrite IH by naive_solver.
Qed.

Lemma removeCacheEntry_ok n t i p s :
  store_wf s → listOfType t = Some n → patterns n s !! i = Some p →
  ∃ s', removeCacheEntry (Some p) t s = Some (tt, s') ∧ store_wf s' ∧ sameRest s s' ∧
    rules n s' = base.delete i (rules n s) ∧ rules (other n) s' = rules (other n) s.
Proof.
  intros Hwf Hty Hi. pose proof (list_elem_of_lookup_2 _ _ _ Hi) as Hin. destruct (swf_in n s p Hwf Hin) as (x & Hx & _).
  destruct (swf_lists s n Hwf) as (Hnd & Hndo & Hdis).
  apply list_elem_of_split_length in Hi as (a & b & Hab & ->).
  pose proof Hnd as Hnd'. rewrite Hab in Hnd'. apply NoDup_app in Hnd' as (Hna & Hda & [Hpb Hnb]%NoDup_cons).
  assert (Hpa : p ∉ a) by (intros Hp; apply (Hda p Hp); by left).
  set (s' := set_heap (base.delete p (heap s)) (nextAddress s) (set_patterns n (a ++ b) s)).
  assert (Hh : heap s' = base.delete p (heap s)) by by destruct n.
  assert (Hn : patterns n s' = a ++ b) by by destruct n. assert (Ho : patterns (other n) s' = patterns (other n) s) by by destruct n.
  assert (Hsub : ∀ q, q ∈ a ++ b → q ∈ patterns n s ∧ q ≠ p).
  { intros q Hq. rewrite Hab. apply elem_of_app in Hq as [Hq|Hq]; (split; [apply elem_of_app; rewrite ?elem_of_cons; tauto|congruence]). }
  exists s'. split.
  { unfold removeCacheEntry. rewrite Hty. unfold gets, modify, mbind, M_bind. rewrite bool_decide_eq_true_2 by done.
    unfold deletePattern, modifyOpt. replace (heap (set_patterns n _ s)) with (heap s) by by destruct n. rewrite Hx.
    unfold s'. rewrite Hab, removeFirst_split by done. by destruct n. }
  split_and!.
  - split.
    + apply (swf_lists_inv s' n); rewrite ?Hn, ?Ho; [|done|].
      * apply NoDup_app. split_and!; [done| |done]. intros q Hq Hq'. apply (Hda q Hq). by right.
      * intros q Hq. apply Hdis. by apply Hsub.
    + intros q. rewrite (elem_lists s' n), Hn, Ho, Hh. intros Hq. rewrite lookup_delete_ne.
      * apply (swf_heap s Hwf), (elem_lists s n). destruct Hq as [Hq|Hq]; [left; by apply Hsub|by right].
      * intros <-. destruct Hq as [Hq|Hq]; [by apply Hsub in Hq as [_ ?]|]. by apply (Hdis p Hin).
    + intros q. rewrite Hh. intros [y Hy]. apply lookup_delete_Some in Hy as [_ Hy].
      replace (nextAddress s') with (nextAddress s) by by destruct n. apply (swf_fresh s Hwf). eauto.
    + intros c Hc. apply (swf_cache s Hwf). by destruct n.
  - by destruct n.
  - rewrite (rules_as_fmap n s Hwf). unfold rules. rewrite Hn, Hh, Hab.
    rewrite (rules_heap _ (heap s)) by (intros q Hq; apply lookup_delete_ne; by apply not_eq_sym, Hsub).
    rewrite rules_fmap.
    + set (f := λ p, default [] (m_string <$> heap s !! p)). rewrite !fmap_app, fmap_cons, <-(length_fmap f a). by rewrite delete_middle.
    + intros q Hq. destruct (swf_in n s q Hwf) as (y & -> & _); [by apply Hsub|eauto].
  - unfold rules. rewrite Ho, Hh. apply rules_heap. intros q Hq. apply lookup_delete_ne. intros <-. by apply (Hdis p Hin).
Qed.

Lemma updateCacheEntry_ok n t i p rule s :
  store_wf s → listOfType t = Some n → patterns n s !! i = Some p →
  ∃ s', updateCacheEntry rule t (Some p) s = Some (tt, s') ∧ store_wf s' ∧ sameRest s s' ∧
    rules n s' = (match parsePattern rule with Some _ => <[i := rule]> (rules n s) | None => rules n s end) ∧
    rules (other n) s' = rules (other n) s.
Proof.
  intros Hwf Hty Hi. pose proof (list_elem_of_lookup_2 _ _ _ Hi) as Hin. destruct (swf_in n s p Hwf Hin) as (x & Hx & _).
  unfold updateCacheEntry. rewrite Hty. unfold gets, mbind at 1, M_bind at 1. rewrite bool_decide_eq_true_2 by done.
  unfold updatePattern. destruct (parsePattern rule) as [y|] eqn:Hparse; [|by exists s].
  unfold deref, modify, mbind, M_bind. rewrite Hx. set (s' := set_heap _ _ s). exists s'. split; [done|].
  destruct (swf_lists s n Hwf) as (Hnd & _ & Hdis).
  split_and!; try done.
  - destruct Hwf as [H1 H2 H3 H4]. split; try done.
    + intros q Hq. cbn. destruct (decide (q = p)) as [->|Hne].
      * exists y. rewrite lookup_insert_eq. split; [done|]. by rewrite (parsePattern_string rule y).
      * rewrite lookup_insert_ne by done. by apply H2.
    + intros q. cbn. destruct (decide (q = p)) as [->|Hne]; [intros _; apply H3; eauto|].
      rewrite lookup_insert_ne by done. apply H3.
  - rewrite (rules_as_fmap n s Hwf). unfold rules. change (patterns n s') with (patterns n s). change (heap s') with (<[p:=y]> (heap s)).
    rewrite rules_fmap.
    + apply list_eq. intros j. rewrite list_lookup_fmap. destruct (decide (i = j)) as [<-|Hne].
      * rewrite list_lookup_insert_eq by (rewrite length_fmap; by eapply lookup_lt_Some). rewrite Hi. cbn.
        rewrite lookup_insert_eq. cbn. by rewrite (parsePattern_string rule y).
      * rewrite list_lookup_insert_ne, list_lookup_fmap by done. destruct (patterns n s !! j) as [q|] eqn:Hj; [|done]. cbn.
        rewrite lookup_insert_ne; [done|]. intros <-. apply Hne. by eapply NoDup_lookup.
    + intros q Hq. destruct (decide (q = p)) as [->|]; [rewrite lookup_insert_eq; eauto|]. rewrite lookup_insert_ne by done.
      destruct (swf_in n s q Hwf Hq) as (? & -> & _). eauto.
  - unfold rules. change (patterns (other n) s') with (patterns (other n) s). apply rules_heap. intros q Hq. cbn.
    apply lookup_insert_ne. intros <-. by apply (Hdis p Hin).
Qed.

(** ** Writing the file *)

Definition written (white black : list (list Z)) : list Z :=
  fileHeader ++ lines ((λ r, text "@@" ++ cstring (latin1 r)) <$> white) ++
  blackHeader ++ lines ((λ r, cstring (latin1 r)) <$> black).

Lemma printRules_ok prefix ps s :
  (∀ p, p ∈ ps → is_Some (heap s !! p)) →
  printRules prefix ps s =
    Some (lines ((λ r, prefix ++ cstring (latin1 r)) <$> omap (λ p, m_string <$> heap s !! p) ps), s).
Proof.
  intros Hps. induction ps as [|p ps IH]; [done|]. cbn [printRules]. unfold mbind, M_bind, deref.
  destruct (Hps p) as [a Ha]; [by left|]. rewrite Ha, IH by (intros q Hq; apply Hps; by right). cbn. rewrite Ha. cbn.
  unfold mret, M_ret, lines. cbn. rewrite <-!app_assoc. done.
Qed.

Lemma printRules_list n prefix s :
  store_wf s → printRules prefix (patterns n s) s = Some (lines ((λ r, prefix ++ cstring (latin1 r)) <$> rules n s), s).
Proof. intros Hwf. apply printRules_ok. intros p Hp. destruct (swf_in n s p Hwf Hp) as (a & -> & _). eauto. Qed.

Lemma writeCache_ok s :
  store_wf s →
  writeCache s = Some (writable s,
    if writable s then
      set_file (Some (written (rules White s) (rules Black s))) (set_cache (Some (default newCache (ab_cache s))) s)
    else s).
Proof.
  intros Hwf. unfold writeCache, gets, modify, mbind, M_bind. destruct (writable s) eqn:Hw; [|done]. cbn [negb].
  set (s0 := set_file (Some []) s).
  assert (Hload : loadCache s0 = Some (tt, set_cache (Some (default newCache (ab_cache s))) s0)).
  { unfold loadCache, gets, mbind, M_bind. change (ab_cache s0) with (ab_cache s).
    destruct (ab_cache s) eqn:Hc; [|done]. cbn. unfold set_cache, s0. cbn. by rewrite <-Hc at 1. }
  rewrite Hload. set (s1 := set_cache _ s0).
  assert (Hwf1 : store_wf s1).
  { destruct Hwf as [H1 H2 H3 H4]. split; try done. intros c [= <-]. destruct (ab_cache s) eqn:Hc; [by apply H4|]. apply length_replicate. }
  change (ab_whiteList s1) with (patterns White s1). rewrite (printRules_list White _ s1 Hwf1).
  change (ab_blackList s1) with (patterns Black s1). rewrite (printRules_list Black _ s1 Hwf1). done.
Qed.

Lemma newCache_target i e : newCache !! i = Some e → e = newCacheEntry.
Proof. unfold newCache. intros [-> _]%lookup_replicate. done. Qed.

(** The state after an edit of the rules: the rules are the new ones, no decision
    is cached, and the file has the new rules. *)
Record edited (s s' : Store) (white black : list (list Z)) : Prop := mkEdited {
  ed_wf : store_wf s';
  ed_coherent `{Regexp} typeOf : coherent typeOf s';
  ed_white : rules White s' = white;
  ed_black : rules Black s' = black;
  ed_cache : ab_cache s' = Some newCache;
  ed_file : writable s = true → filterFile s' = Some (written white black);
  ed_enabled : ad_block_enabled s' = ad_block_enabled s;
}.

Lemma commit_ok s s1 :
  store_wf s1 → sameRest s s1 →
  ∃ s', (writeCache;; flushCache) s1 = Some (tt, s') ∧ edited s s' (rules White s1) (rules Black s1).
Proof.
  intros Hwf (Hen & _ & Hw & _). unfold flushCache, modify, mbind, M_bind. rewrite writeCache_ok by done. eexists. split; [done|].
  assert (Hwf' : ∀ f, store_wf (set_cache (Some newCache) (set_file f s1))).
  { intros f. destruct Hwf as [H1 H2 H3 H4]. split; try done. intros c [= <-]. apply length_replicate. }
  assert (Hco : ∀ f `{Regexp} typeOf, coherent typeOf (set_cache (Some newCache) (set_file f s1))).
  { intros f R typeOf c i e t [= <-] He Ht. apply newCache_target in He as ->. done. }
  destruct (writable s1) eqn:Hw1.
  - set (w := written _ _). apply (mkEdited _ _ _ _ (Hwf' (Some w)) (Hco (Some w))); try done.
  - apply (mkEdited _ _ _ _ (Hwf' (filterFile s1)) (Hco (filterFile s1))); try done. intros Hws. congruence.
Qed.

Lemma sameRest_trans s1 s2 s3 : sameRest s1 s2 → sameRest s2 s3 → sameRest s1 s3.
Proof. unfold sameRest. intuition congruence. Qed.

Lemma parse_empty : parsePattern [] = Some (mkPattern [] [] (2 ^ 32 - 1)).
Proof. reflexivity. Qed.

(** The two lists after a change of one of them. *)
Definition withList (n : ListName) (rs : list (list Z)) (s : Store) : list (list Z) * list (list Z) :=
  match n with White => (rs, rules Black s) | Black => (rules White s, rs) end.

Lemma withList_eq n s1 s2 rs :
  rules n s2 = rs → rules (other n) s2 = rules (other n) s1 →
  rules White s2 = (withList n rs s1).1 ∧ rules Black s2 = (withList n rs s1).2.
Proof. by destruct n; cbn; intros -> ->. Qed.

(** C32: The handlers of the rules window: a new entry appends the empty rule to the
    white list, removing an entry removes its rule, changing its text replaces the
    rule in its place, and changing its type moves it to the end of the other
    list. A text whose options select no type leaves the old rule in place, or no
    rule at all when the type changes. Afterwards no decision is cached and the
    file, if it can be written, has the rules of the lists. *)
Theorem handlers_exact s :
  store_wf s →
  (∃ e s', BlockManagerGroup_Add s = Some (e, s') ∧ edited s s' (rules White s ++ [[]]) (rules Black s)) ∧
  (∀ n t i p r, listOfType t = Some n → patterns n s !! i = Some p →
    ∃ s', BlockManagerGroup_Remove (mkEntry r t (Some p)) s = Some (tt, s') ∧
      edited s s' (withList n (base.delete i (rules n s)) s).1 (withList n (base.delete i (rules n s)) s).2) ∧
  (∀ n t i p r new, listOfType t = Some n → patterns n s !! i = Some p →
    let rs := match parsePattern new with Some _ => <[i := new]> (rules n s) | None => rules n s end in
    ∃ s', BlockManagerGroup_Change (mkEntry r t (Some p)) new t s = Some (mkEntry new t (Some p), s') ∧
      edited s s' (withList n rs s).1 (withList n rs s).2) ∧
  (∀ n t t' i p r new, listOfType t = Some n → listOfType t' = Some (other n) → patterns n s !! i = Some p →
    let added := match parsePattern new with Some _ => [new] | None => [] end in
    ∃ e s', BlockManagerGroup_Change (mkEntry r t (Some p)) new t' s = Some (e, s') ∧
      edited s s' (match n with White => base.delete i (rules White s) | Black => rules White s ++ added end)
                  (match n with Black => base.delete i (rules Black s) | White => rules Black s ++ added end)).
Proof.
  intros Hwf. split_and!.
  - unfold BlockManagerGroup_Add, addCacheEntry. change (listOfType 1) with (Some White).
    destruct (addPattern_ok White [] s Hwf) as (q & s1 & E1 & Hwf1 & Hr1 & Hn & Ho & _). rewrite parse_empty in Hn.
    destruct (commit_ok s s1 Hwf1 Hr1) as (s2 & E2 & Hed). cbn [other] in Ho. rewrite Hn, Ho in Hed.
    exists (mkEntry [] 1 q), s2. split; [|done]. unfold mbind, M_bind in *. cbv beta iota. rewrite E1.
    destruct (writeCache s1) as [[? ?]|]; [|done]. by rewrite E2.
  - intros n t i p r Hty Hp. destruct (removeCacheEntry_ok n t i p s Hwf Hty Hp) as (s1 & E1 & Hwf1 & Hr1 & Hn & Ho).
    destruct (commit_ok s s1 Hwf1 Hr1) as (s2 & E2 & Hed). exists s2.
    destruct (withList_eq n s s1 _ Hn Ho) as [Hw Hb]. rewrite Hw, Hb in Hed. split; [|done].
    unfold BlockManagerGroup_Remove, mbind, M_bind in *. cbn [ptr type]. by rewrite E1.
  - intros n t i p r new Hty Hp. destruct (updateCacheEntry_ok n t i p new s Hwf Hty Hp) as (s1 & E1 & Hwf1 & Hr1 & Hn & Ho).
    destruct (commit_ok s s1 Hwf1 Hr1) as (s2 & E2 & Hed). exists s2.
    destruct (withList_eq n s s1 _ Hn Ho) as [Hw Hb]. rewrite Hw, Hb in Hed. split; [|done].
    unfold BlockManagerGroup_Change, mbind, M_bind in *. cbn [ptr type]. rewrite Z.eqb_refl. cbn [negb]. rewrite E1. cbn [mret M_ret].
    destruct (writeCache s1) as [[? ?]|]; [|done]. by rewrite E2.
  - intros n t t' i p r new Hty Hty' Hp. destruct (removeCacheEntry_ok n t i p s Hwf Hty Hp) as (s1 & E1 & Hwf1 & Hr1 & Hn & Ho).
    destruct (addPattern_ok (other n) new s1 Hwf1) as (q & s2 & E2 & Hwf2 & Hr2 & Hn2 & Ho2 & _).
    destruct (commit_ok s s2 Hwf2 (sameRest_trans _ _ _ Hr1 Hr2)) as (s3 & E3 & Hed).
    exists (mkEntry new t' q), s3. split.
    + unfold BlockManagerGroup_Change, addCacheEntry, mbind, M_bind in *. cbn [ptr type].
      replace (t =? t') with false by (destruct (Z.eqb_spec t t') as [->|]; [destruct n; cbn [other] in *; congruence|done]). cbn [negb].
      rewrite E1, Hty', E2. cbn [mret M_ret]. destruct (writeCache s2) as [[? ?]|]; [|done]. by rewrite E3.
    + destruct n; cbn [other] in *; rewrite Hn2, Ho2, Hn, Ho in Hed; done.
Qed.

(** ** Reading the file back *)

(** A line that one call of [fgets] reads: at most 510 characters before the
    newline, none of them a newline or a NUL. *)
Definition fits (line : list Z) : Prop := (length line ≤ 510)%nat ∧ Forall (λ c, c ≠ 10 ∧ c ≠ 0) line.

Lemma fgets_line n line rest :
  (length line < n)%nat → Forall (λ c, c ≠ 10 ∧ c ≠ 0) line → fgets n (line ++ 10 :: rest) = (line ++ [10], rest).
Proof.
  revert n. induction line as [|c line IH]; intros n Hn Hl; destruct n as [|n]; cbn in Hn; try lia; [done|].
  apply Forall_cons in Hl as [[Hc _] Hl]. cbn. rewrite (proj2 (Z.eqb_neq _ _)) by done. by rewrite IH by (done || lia).
Qed.

Lemma cstring_id l : Forall (λ c, c ≠ 0) l → cstring l = l.
Proof.
  induction 1 as [|c l Hc Hl IH]; [done|]. cbn. rewrite (proj2 (Z.eqb_neq _ _)) by done. by rewrite IH.
Qed.

Lemma line_text line : fits line → filter (.≠ 10) (cstring (line ++ [10])) = line.
Proof.
  intros [_ Hl]. rewrite cstring_id.
  - rewrite filter_app. cbn. rewrite app_nil_r. clear -Hl. induction Hl as [|c l [Hc _] Hl IH]; [done|].
    rewrite filter_cons_True by done. by rewrite IH.
  - apply Forall_app. split; [|by repeat constructor]. eapply Forall_impl; [exact Hl|]. by intros ? [_ ?].
Qed.

(** Reading the lines one after the other. *)
Fixpoint readLines (ls : list (list Z)) : AdM unit :=
  match ls with
  | [] => mret tt
  | l :: ls => readRule (l ++ [10]);; readLines ls
  end.

Lemma readRules_lines fuel ls s :
  Forall fits ls → (length (lines ls) ≤ fuel)%nat → readRules fuel (lines ls) s = readLines ls s.
Proof.
  intros Hls. revert fuel s. induction Hls as [|l ls [Hlen Hl] Hls IH]; intros fuel s Hfuel; [by destruct fuel|].
  change (lines (l :: ls)) with ((l ++ [10]) ++ lines ls) in *. rewrite length_app in Hfuel. rewrite length_app in Hfuel. cbn [length] in Hfuel.
  rewrite <-app_assoc. change ([10] ++ lines ls) with (10 :: lines ls). destruct fuel as [|fuel]; [lia|].
  destruct (l ++ 10 :: lines ls) as [|c0 f0] eqn:Hf; [by destruct l|]. cbn [readRules]. rewrite <-Hf.
  rewrite (fgets_line 511 l (lines ls)) by (done || lia). cbn [readLines]. unfold mbind, M_bind.
  destruct (readRule (l ++ [10]) s) as [[[] s']|]; [|done]. apply IH. lia.
Qed.

Lemma lines_app a b : lines (a ++ b) = lines a ++ lines b.
Proof. apply bind_app. Qed.

Lemma readLines_app a b s :
  readLines (a ++ b) s = match readLines a s with Some (_, s') => readLines b s' | None => None end.
Proof.
  revert s. induction a as [|l a IH]; intros s; [done|]. cbn. unfold mbind, M_bind.
  destruct (readRule (l ++ [10]) s) as [[[] s']|]; [apply IH|done].
Qed.

Lemma notify_wf x s : store_wf s → store_wf (notify x s).
Proof. intros [H1 H2 H3 H4]. by split. Qed.

(** A rule that survives being written and read, in the list it is in. *)
Definition printable (n : ListName) (r : list Z) : Prop :=
  is_Some (parsePattern r) ∧ Forall (λ c, 0 < c ≤ 255 ∧ c ≠ 10) r ∧
  match n with
  | White => (length r ≤ 508)%nat
  | Black => (length r ≤ 510)%nat ∧ r ≠ [] ∧ startsWith (text "@@") r = false ∧
             startsWith (text "!") r = false ∧ startsWith (text "#") r = false
  end.

Lemma printed n r : printable n r → cstring (latin1 r) = r.
Proof.
  intros (_ & Hr & _). assert (Hl : latin1 r = r).
  { unfold latin1. clear -Hr. induction Hr as [|c r Hc Hr IH]; [done|]. cbn. rewrite (proj2 (Z.leb_le _ _)) by lia. f_equal. exact IH. }
  rewrite Hl. apply cstring_id. eapply Forall_impl; [exact Hr|]. cbn. lia.
Qed.

Lemma printed_list n rs (f : list Z → list Z) :
  Forall (printable n) rs → (λ r, f (cstring (latin1 r))) <$> rs = f <$> rs.
Proof. induction 1 as [|r rs Hr Hrs IH]; [done|]. cbn. rewrite (printed n) by done. f_equal. exact IH. Qed.

Lemma printable_fits n r : printable n r → fits (match n with White => text "@@" | Black => [] end ++ r).
Proof.
  intros (_ & Hr & Hn). assert (Hr' : Forall (λ c, c ≠ 10 ∧ c ≠ 0) r) by (eapply Forall_impl; [exact Hr|]; cbn; lia).
  destruct n; split; [cbn; lia|done|cbn; lia|]. change (text "@@" ++ r) with (64 :: 64 :: r). by do 2 (constructor; [lia|]).
Qed.

Lemma readRule_ok n r s :
  printable n r → store_wf s →
  ∃ s', readRule ((match n with White => text "@@" | Black => [] end ++ r) ++ [10]) s = Some (tt, s') ∧ store_wf s' ∧ sameRest s s' ∧
    rules n s' = rules n s ++ [r] ∧ rules (other n) s' = rules (other n) s.
Proof.
  intros Hp Hwf. destruct (addPattern_ok n r s Hwf) as (q & s1 & E1 & Hwf1 & Hr1 & Hn & Ho & _).
  pose proof Hp as ([a Ha] & Hc & Hline). rewrite Ha in Hn.
  unfold readRule. rewrite line_text by (apply printable_fits; done).
  exists (notify (r, match n with White => 1 | Black => 0 end, q) s1).
  split; [|split; [by apply notify_wf|done]]. unfold mbind, M_bind, modify. destruct n.
  - destruct Hline as (_ & Hne & H1 & H2 & H3). change ([] ++ r) with r. rewrite H1, H2, H3, bool_decide_eq_false_2 by done.
    cbn [negb andb]. by rewrite E1.
  - change (startsWith (text "@@") (text "@@" ++ r)) with true. change (drop 2 (text "@@" ++ r)) with (drop 0 r).
    rewrite drop_0. by rewrite E1.
Qed.

Lemma readLines_rules n rs s :
  Forall (printable n) rs → store_wf s →
  ∃ s', readLines ((match n with White => text "@@" | Black => [] end ++.) <$> rs) s = Some (tt, s') ∧ store_wf s' ∧ sameRest s s' ∧
    rules n s' = rules n s ++ rs ∧ rules (other n) s' = rules (other n) s.
Proof.
  intros Hrs. revert s. induction Hrs as [|r rs Hr Hrs IH]; intros s Hwf.
  { exists s. by rewrite app_nil_r. }
  destruct (readRule_ok n r s Hr Hwf) as (s1 & E1 & Hwf1 & Hr1 & Hn1 & Ho1).
  destruct (IH s1 Hwf1) as (s2 & E2 & Hwf2 & Hr2 & Hn2 & Ho2). exists s2. split.
  - cbn [fmap list_fmap readLines]. unfold mbind, M_bind. by rewrite E1.
  - split; [done|]. split; [by eapply sameRest_trans|]. by rewrite Hn2, Hn1, Ho2, Ho1, <-app_assoc.
Qed.

Lemma readLines_header s : readLines [text "!---- Generated by OWB ----!"; text "!---- White List ----!"] s = Some (tt, s).
Proof. reflexivity. Qed.

(** The lines of a written file after the first. *)
Definition writtenLines (white black : list (list Z)) : list (list Z) :=
  [text "!---- Generated by OWB ----!"; text "!---- White List ----!"] ++ ((text "@@" ++.) <$> white) ++
  [text "!---- Black List ----!"] ++ (([] ++.) <$> black).

Lemma written_lines white black :
  Forall (printable White) white → Forall (printable Black) black →
  written white black = text "[Adblock]" ++ 10 :: lines (writtenLines white black).
Proof.
  intros Hw Hb. unfold written, writtenLines, fileHeader, blackHeader. rewrite (printed_list White white (text "@@" ++.)) by done.
  change (λ r, cstring (latin1 r)) with (λ r, [] ++ cstring (latin1 r)). rewrite (printed_list Black black ([] ++.)) by done. rewrite !lines_app. cbn [lines mbind list_bind]. rewrite <-!app_assoc. done.
Qed.

Lemma writtenLines_fit white black :
  Forall (printable White) white → Forall (printable Black) black → Forall fits (writtenLines white black).
Proof.
  intros Hw Hb. assert (Hh : ∀ l, bool_decide (length l ≤ 510)%nat && forallb (λ c, negb (c =? 10) && negb (c =? 0)) l = true → fits l).
  { intros l [H1%bool_decide_eq_true H2]%andb_true_iff. split; [done|]. apply Forall_forall. intros c Hc.
    rewrite forallb_forall in H2. specialize (H2 c ltac:(by apply list_elem_of_In)). lia. }
  unfold writtenLines. repeat apply Forall_app_2.
  - by repeat (constructor; [by apply Hh|]).
  - apply Forall_fmap. eapply Forall_impl; [exact Hw|]. intros r. apply (printable_fits White).
  - constructor; [by apply Hh|done].
  - apply Forall_fmap. eapply Forall_impl; [exact Hb|]. intros r. apply (printable_fits Black).
Qed.

(** The state of a new session. *)
Definition newSession (enabled : bool) (file : option (list Z)) : Store :=
  mkStore enabled None [] [] ∅ 1%positive file true [].

Lemma newSession_wf enabled file : store_wf (newSession enabled file).
Proof.
  split; [apply (NoDup_nil_2 (A := positive))|intros p Hp; by apply not_elem_of_nil in Hp|intros p [? Hp]; cbn in Hp; by apply lookup_empty_Some in Hp|done].
Qed.

Lemma newCache_coherent `{Regexp} typeOf s : ab_cache s = Some newCache → coherent typeOf s.
Proof. intros Hc c i e t Hc' He Ht. rewrite Hc in Hc'. injection Hc' as <-. apply newCache_target in He as ->. done. Qed.

Lemma set_newCache_wf s : store_wf s → store_wf (set_cache (Some newCache) s).
Proof. intros [H1 H2 H3 H4]. split; try done. intros c [= <-]. apply length_replicate. Qed.

Lemma load_written enabled white black :
  Forall (printable White) white → Forall (printable Black) black →
  ∃ s', loadCache (newSession enabled (Some (written white black))) = Some (tt, s') ∧ store_wf s' ∧
    ab_cache s' = Some newCache ∧ rules White s' = white ∧ rules Black s' = black ∧ ad_block_enabled s' = enabled.
Proof.
  intros Hw Hb. set (s0 := newSession enabled _). pose proof (newSession_wf enabled (Some (written white black))) as Hwf0. fold s0 in Hwf0.
  destruct (readLines_rules White white s0 Hw Hwf0) as (s1 & E1 & Hwf1 & (Hen1 & _) & Hn1 & Ho1).
  destruct (readLines_rules Black black s1 Hb Hwf1) as (s2 & E2 & Hwf2 & (Hen2 & _) & Hn2 & Ho2).
  cbn [other] in *. exists (set_cache (Some newCache) s2). split.
  - unfold loadCache, initialize, gets, modify, mbind, M_bind. cbv beta iota. change (ab_cache s0) with (@None (list CacheEntry)).
    cbv beta iota. change (filterFile s0) with (Some (written white black)). cbv beta iota.
    rewrite written_lines by done. rewrite (fgets_line 511 (text "[Adblock]") (lines (writtenLines white black)));
      [|by vm_compute; lia|by repeat constructor]. cbn [snd].
    rewrite readRules_lines; [|by apply writtenLines_fit|rewrite length_app; cbn [length]; lia].
    unfold writtenLines. rewrite readLines_app, readLines_header, readLines_app, E1, readLines_app.
    change (readLines [text "!---- Black List ----!"] s1) with (Some (tt, s1)). cbv iota. by rewrite E2.
  - split; [by apply set_newCache_wf|]. split; [done|]. change (rules White (set_cache _ s2)) with (rules White s2).
    change (rules Black (set_cache _ s2)) with (rules Black s2). rewrite Ho2, Hn1, Hn2, Ho1.
    change (rules White s0) with (@nil (list Z)). change (rules Black s0) with (@nil (list Z)). cbn. by rewrite Hen2, Hen1.
Qed.

(** The file: rules that a line of the file can hold, written by one session,
    are read back by the next one, in their lists and in their order; nothing is
    cached then. *)
Theorem rules_roundtrip s :
  store_wf s → writable s = true → Forall (printable White) (rules White s) → Forall (printable Black) (rules Black s) →
  ∃ s1 s2, writeCache s = Some (true, s1) ∧ loadCache (newSession (ad_block_enabled s) (filterFile s1)) = Some (tt, s2) ∧
    store_wf s2 ∧ rules White s2 = rules White s ∧ rules Black s2 = rules Black s ∧ ab_cache s2 = Some newCache.
Proof.
  intros Hwf Hw Hpw Hpb. rewrite writeCache_ok, Hw by done. eexists _.
  destruct (load_written (ad_block_enabled s) _ _ Hpw Hpb) as (s2 & E & Hwf2 & Hc & Hrw & Hrb & _). by exists s2.
Qed.

(** A sequence of requests, each with the address and the type of a resource. *)
Fixpoint askAll `{Regexp} (requests : list (URL * Z)) : AdM (list bool) :=
  match requests with
  | [] => mret []
  | (url, type) :: requests => b ← shouldBlock url type; bs ← askAll requests; mret (b :: bs)
  end.

(** A request with an address, whose type is the one the address always has. *)
Definition request (typeOf : list Z → Z) (q : URL * Z) : Prop :=
  ∃ t, url_string q.1 = Some t ∧ (if q.2 <? 0 then DOCUMENT_TYPE else q.2) = typeOf t ∧ 0 ≤ typeOf t < 31.

(** What the rules say to a request. *)
Definition answer `{Regexp} (typeOf : list Z → Z) (enabled : bool) (white black : list (list Z)) (q : URL * Z) : bool :=
  let t := default [] (url_string q.1) in
  negb (url_protocolIsData q.1) && enabled && decision white black t (typeOf t).

Lemma askAll_ok `{Regexp} typeOf s requests :
  store_wf s → coherent typeOf s → is_Some (ab_cache s) → Forall (request typeOf) requests →
  ∃ s', askAll requests s = Some (answer typeOf (ad_block_enabled s) (rules White s) (rules Black s) <$> requests, s') ∧
    store_wf s' ∧ coherent typeOf s' ∧ rules White s' = rules White s ∧ rules Black s' = rules Black s.
Proof.
  intros Hwf Hco Hc Hq. revert s Hwf Hco Hc. induction Hq as [|[url type] qs (t & Hu & Ht & Hr) Hqs IH]; intros s Hwf Hco [c Hc].
  { by exists s. }
  cbn in Hu, Ht. destruct (shouldBlock_loaded typeOf s c url t type Hwf Hco Hc Hu Ht Hr) as (s1 & E1 & Hwf1 & Hco1 & Hw1 & Hb1 & Hen1 & Hc1).
  destruct (IH s1 Hwf1 Hco1 Hc1) as (s2 & E2 & Hwf2 & Hco2 & Hw2 & Hb2). exists s2.
  split; [|by rewrite Hw2, Hb2, Hw1, Hb1]. cbn [askAll]. unfold mbind, M_bind. rewrite E1, E2, Hen1, Hw1, Hb1.
  rewrite fmap_cons. unfold mret, M_ret. do 3 f_equal. unfold answer. cbn [fst]. by rewrite Hu.
Qed.

(** C31: The decisions. Along any sequence of requests, whatever collides in the
    cache, a resource is blocked exactly when blocking is on, its address is no
    data URL, a rule of the black list matches it and none of the white list does.
    An address is assumed to be asked for with one type; a negative type is a
    document. *)
Theorem shouldBlock_decides `{Regexp} typeOf s requests :
  store_wf s → coherent typeOf s → is_Some (ab_cache s) → Forall (request typeOf) requests →
  ∃ s', askAll requests s = Some (answer typeOf (ad_block_enabled s) (rules White s) (rules Black s) <$> requests, s').
Proof. intros H1 H2 H3 H4. destruct (askAll_ok typeOf s requests H1 H2 H3 H4) as (s' & E & _). by exists s'. Qed.

(** The first request of a session loads the rules. *)
Lemma askAll_loads `{Regexp} q requests s s1 :
  loadCache s = Some (tt, s1) → is_Some (ab_cache s1) → ad_block_enabled s = true → ad_block_enabled s1 = true →
  url_protocolIsData q.1 = false → askAll (q :: requests) s = askAll (q :: requests) s1.
Proof.
  intros E [c Hc] Hen Hen1 Hd. destruct q as [url type]. cbn in Hd. cbn [askAll]. unfold mbind, M_bind.
  assert (Hs : shouldBlock url type s = shouldBlock url type s1); [|by rewrite Hs].
  unfold shouldBlock. rewrite Hd. unfold gets, mbind, M_bind. rewrite Hen, Hen1. cbn [negb]. rewrite E.
  assert (E1 : loadCache s1 = Some (tt, s1)) by (unfold loadCache, gets, mbind, M_bind; by rewrite Hc). by rewrite E1.
Qed.

(** C30: From session to session: after a session has written its rules, the next
    one, with blocking on and nothing loaded, answers every sequence of requests as
    those rules say; the file is read at the first request. The file can be written; the rules can be parsed, fit on a line of the file, have only Latin-1 characters without
    NUL and line feed, and those that block do not look like comments or exceptions ([printable]); each address is always asked for with the same type, and the first
    request is not for a [data:] address. *)
Theorem rules_enforced_next_session `{Regexp} typeOf s q requests :
  store_wf s → writable s = true → Forall (printable White) (rules White s) → Forall (printable Black) (rules Black s) →
  Forall (request typeOf) (q :: requests) → url_protocolIsData q.1 = false →
  ∃ s1 s2, writeCache s = Some (true, s1) ∧
    askAll (q :: requests) (newSession true (filterFile s1)) =
      Some (answer typeOf true (rules White s) (rules Black s) <$> (q :: requests), s2).
Proof.
  intros Hwf Hw Hpw Hpb Hq Hd. rewrite writeCache_ok, Hw by done. eexists.
  destruct (load_written true _ _ Hpw Hpb) as (s2 & E & Hwf2 & Hc & Hrw & Hrb & Hen).
  destruct (askAll_ok typeOf s2 (q :: requests) Hwf2 (newCache_coherent typeOf s2 Hc) ltac:(eauto) Hq) as (s3 & E3 & _).
  exists s3. split; [done|]. rewrite Hrw, Hrb, Hen in E3. rewrite <-E3. apply askAll_loads; eauto.
Qed.

(** Blocking a resource from its context menu appends one rule to the black
    list, made of the address, its host or its folder and the type of the
    resource, when that text is a rule; it is written and no decision is cached. *)
Theorem blockResource_exact s url type mode :
  store_wf s →
  let typeOpt := blockTypeOption type in
  let pat := blockPattern url mode ++ (if bool_decide (typeOpt = []) then [] else text "#" ++ typeOpt) in
  ∃ s', blockResource url type mode s = Some (tt, s') ∧
    edited s s' (rules White s) (rules Black s ++ match parsePattern pat with Some _ => [pat] | None => [] end).
Proof.
  intros Hwf typeOpt pat. destruct (addPattern_ok Black pat s Hwf) as (q & s1 & E1 & Hwf1 & Hr1 & Hn & Ho & _).
  destruct (commit_ok s (notify (pat, 0, q) s1) (notify_wf _ _ Hwf1) Hr1) as (s2 & E2 & Hed).
  exists s2. split; [|cbn [other] in Ho; by rewrite <-Hn, <-Ho]. unfold blockResource. fold typeOpt pat.
  unfold mbind, M_bind, modify in *. by rewrite E1.
Qed.

(** ** Examples *)

(** An engine for expressions without special characters. *)
Definition literalRegexp : Regexp :=
  {| re_matches re target := match findLiteral re target with Some _ => true | None => false end |}.

(** One rule blocks, nothing is cached. *)
Definition sampleAdded : Store :=
  default (newSession true None) (snd <$> addPattern Black (text "ads") (newSession true None)).
Definition sampleStore : Store := set_cache (Some newCache) sampleAdded.

Lemma sampleStore_wf : store_wf sampleStore.
Proof.
  unfold sampleStore. apply set_newCache_wf. unfold sampleAdded.
  destruct (addPattern_ok Black (text "ads") (newSession true None) (newSession_wf true None)) as (r & s1 & E & Hwf & _).
  rewrite E. exact Hwf.
Qed.

Definition sampleURL : URL := mkURL (Some (text "http://x/ads")) (text "http") (text "x") (text "/ads") false.

Lemma sampleRequest : Forall (request (λ _, ImageResource)) [(sampleURL, ImageResource); (sampleURL, ImageResource)].
Proof. repeat constructor; exists (text "http://x/ads"); (split; [done|]); split; done. Qed.

Lemma sample_rules : rules White sampleStore = [] ∧ rules Black sampleStore = [text "ads"].
Proof. split; vm_compute; reflexivity. Qed.

Lemma printable_sample : Forall (printable White) (rules White sampleStore) ∧ Forall (printable Black) (rules Black sampleStore).
Proof.
  destruct sample_rules as [-> ->]. split; [constructor|]. constructor; [|constructor].
  split; [exact (ex_intro _ (mkPattern (text "ads") (text "ads") (2 ^ 32 - 1)) eq_refl)|].
  change (text "ads") with [97; 100; 115]. split; [repeat (constructor; [lia|]); constructor|]. split_and!; try reflexivity; [cbn; lia|discriminate].
Qed.

Lemma handlers_exact_witness :
  ∃ e s', BlockManagerGroup_Add sampleStore = Some (e, s') ∧ edited sampleStore s' [[]] [text "ads"].
Proof.
  destruct (handlers_exact sampleStore sampleStore_wf) as [(e & s' & E & Hed) _]. destruct sample_rules as [Hw Hb]. rewrite Hw, Hb in Hed. exists e, s'. split; [exact E|exact Hed].
Defined.

Lemma rules_roundtrip_witness :
  ∃ s1 s2, writeCache sampleStore = Some (true, s1) ∧ loadCache (newSession true (filterFile s1)) = Some (tt, s2) ∧
    rules Black s2 = [text "ads"].
Proof.
  destruct printable_sample as [Hw Hb].
  destruct (rules_roundtrip sampleStore sampleStore_wf eq_refl Hw Hb) as (s1 & s2 & E1 & E2 & _ & _ & Hr & _).
  exists s1, s2. split; [exact E1|]. split; [exact E2|]. rewrite Hr. exact (proj2 sample_rules).
Defined.

Lemma shouldBlock_decides_witness : let _ := literalRegexp in
  ∃ s', askAll [(sampleURL, ImageResource); (sampleURL, ImageResource)] sampleStore = Some ([true; true], s').
Proof.
  intros R. destruct (@shouldBlock_decides R (λ _, ImageResource) sampleStore [(sampleURL, ImageResource); (sampleURL, ImageResource)])
    as (s' & E); [exact sampleStore_wf|by apply newCache_coherent|by eexists|exact sampleRequest|].
  destruct sample_rules as [Hw Hb]. rewrite Hw, Hb in E. exists s'. exact E.
Defined.

Lemma rules_enforced_next_session_witness : let _ := literalRegexp in
  ∃ s1 s2, writeCache sampleStore = Some (true, s1) ∧
    askAll [(sampleURL, ImageResource); (sampleURL, ImageResource)] (newSession true (filterFile s1)) = Some ([true; true], s2).
Proof.
  intros R. destruct printable_sample as [Hw Hb].
  destruct (@rules_enforced_next_session R (λ _, ImageResource) sampleStore (sampleURL, ImageResource) [(sampleURL, ImageResource)]
    sampleStore_wf eq_refl Hw Hb sampleRequest eq_refl) as (s1 & s2 & E1 & E2).
  destruct sample_rules as [Hrw Hrb]. rewrite Hrw, Hrb in E2. exists s1, s2. split; [exact E1|exact E2].
Defined.

Lemma blockResource_exact_witness :
  ∃ s', blockResource sampleURL (Z.shiftl 1 Script) 1 sampleStore = Some (tt, s') ∧
    edited sampleStore s' [] [text "ads"; text "http://x/*#script"].
Proof.
  destruct (blockResource_exact sampleStore sampleURL (Z.shiftl 1 Script) 1 sampleStore_wf) as (s' & E & Hed).
  destruct sample_rules as [Hw Hb]. rewrite Hw, Hb in Hed. exists s'. split; [exact E|exact Hed].
Defined.

(** The state an operation leaves. *)
Definition after {A} (m : AdM A) (s : Store) : Store := default s (snd <$> m s).

(** The cache forgets the type: after a script at an address was let pass, an
    image at the same address is let pass too, although a rule blocks images
    there. *)
Theorem cache_ignores_type : let _ := literalRegexp in
  ∃ s s', (loadCache;; addCacheEntry (text "ads#image") 0) (newSession true None) = Some (Some 1%positive, s) ∧
    askAll [(sampleURL, Script); (sampleURL, ImageResource)] s = Some ([false; false], s') ∧
    decision (rules White s) (rules Black s) (text "http://x/ads") ImageResource = true.
Proof.
  intros R. set (s := after (loadCache;; addCacheEntry (text "ads#image") 0) (newSession true None)).
  exists s, (after (askAll [(sampleURL, Script); (sampleURL, ImageResource)]) s).
  split; [vm_compute; reflexivity|]. split; vm_compute; reflexivity.
Qed.

(** Saving before loading loses the rules: in a session that has not read the
    file yet, blocking a resource empties the file before it is read, and the old
    rules are gone. *)
Theorem save_before_load_loses_rules :
  let file := written [] [text "ads"] in
  ∃ s', blockResource sampleURL 0 1 (newSession true (Some file)) = Some (tt, s') ∧
    filterFile s' = Some (written [] [text "http://x/*"]) ∧ rules Black s' = [text "http://x/*"].
Proof. intros file. exists (after (blockResource sampleURL 0 1) (newSession true (Some file))). split; [vm_compute; reflexivity|]. split; vm_compute; reflexivity. Qed.

(** [deinitialize] deletes the patterns and keeps the pointers: the next request
    follows one of them. *)
Theorem deinitialize_dangles : let _ := literalRegexp in
  ∃ s, deinitialize sampleAdded = Some (tt, s) ∧ patterns Black s = [1%positive] ∧ heap s = ∅ ∧
    shouldBlock sampleURL ImageResource s = None.
Proof.
  intros R. exists (after deinitialize sampleAdded). split; [vm_compute; reflexivity|]. split; [reflexivity|]. split; [reflexivity|vm_compute; reflexivity].
Qed.

(** A new entry of the rules window lets everything pass: it is the empty rule of
    the white list, which matches every address until its text is typed in; and the
    rule of a single slash is the empty expression, which matches everything. *)
Theorem empty_expressions : let _ := literalRegexp in
  (∃ e s s', BlockManagerGroup_Add sampleStore = Some (e, s) ∧ askAll [(sampleURL, ImageResource)] s = Some ([false], s')) ∧
  parsePattern (text "/") = Some (mkPattern (text "/") [] (2 ^ 32 - 1)) ∧
  ∀ t, ruleMatches (text "/") t ImageResource = true.
Proof.
  intros R. split_and!.
  - set (s := after BlockManagerGroup_Add sampleStore).
    exists (mkEntry [] 1 (Some 2%positive)), s, (after (askAll [(sampleURL, ImageResource)]) s). split; vm_compute; reflexivity.
  - reflexivity.
  - intros t. by destruct t.
Qed.

(** Blocking an address with a fragment does nothing: the fragment is taken for
    an unknown option, no rule is made, and the window gets an entry without a
    pattern. *)
Theorem fragment_is_not_blocked :
  let url := mkURL (Some (text "http://x/ads#top")) (text "http") (text "x") (text "/ads") false in
  ∃ s', blockResource url (Z.shiftl 1 ImageResource) 0 sampleStore = Some (tt, s') ∧
    rules Black s' = rules Black sampleStore ∧ didInsert s' = [(text "http://x/ads#top#image", 0, None)].
Proof.
  intros url. exists (after (blockResource url (Z.shiftl 1 ImageResource) 0) sampleStore).
  split; [vm_compute; reflexivity|]. split; vm_compute; reflexivity.
Qed.
