(* ===== verification/UTF8Decoding.v ===== *)
(** * The UTF-8 decoder: what it computes

    The plain decoder [decodeAll], the bytes of a code point, and the proofs that
    [TextCodecUTF8.decode] is safe, computes the plain decoder on a chunk, and gives
    text back from its bytes however they are cut into chunks. *)

From S2P Require Import Prelude ASCIICType InputStreamPreprocessor HTMLEntityParser TextCodecUTF8.


(** The ranges of the table. *)
Definition lengthByRange (b : Z) : nat :=
  if (194 <=? b) && (b <=? 223) then 2%nat
  else if (224 <=? b) && (b <=? 239) then 3%nat
  else if (240 <=? b) && (b <=? 244) then 4%nat
  else 0%nat.

Lemma sequenceLength_spec b : isByte b → nonASCIISequenceLength b = lengthByRange b.
Proof.
  intros Hb. apply Nat.eqb_eq.
  apply (forall_below 256 (λ b, (nonASCIISequenceLength b =? lengthByRange b)%nat)); [by vm_compute|done].
Qed.

Lemma isASCII_byte b : isByte b → isASCII b = (b <? 128).
Proof.
  intros Hb. apply eqb_prop. apply (forall_below 256 (λ b, eqb (isASCII b) (b <? 128))); [by vm_compute|done].
Qed.

(** ** One step of the plain decoder *)

(** A byte that continues a sequence. *)
Definition continues (b : Z) : bool := (128 <=? b) && (b <=? 191).

(** The second bytes the first one allows: no overlong forms, no surrogates,
    nothing beyond U+10FFFF. *)
Definition secondOk (s0 s1 : Z) : bool :=
  if s0 =? 224 then (160 <=? s1) && (s1 <=? 191)
  else if s0 =? 237 then (128 <=? s1) && (s1 <=? 159)
  else if s0 =? 240 then (144 <=? s1) && (s1 <=? 191)
  else if s0 =? 244 then (128 <=? s1) && (s1 <=? 143)
  else continues s1.

(** The well-formed sequence of [n] bytes at the start of the bytes, or the number
    of bytes, at least one, that start one and are not continued. *)
Definition sequenceAt (n : nat) (bytes : list Z) : Z + nat :=
  match n, bytes with
  | 2%nat, s0 :: s1 :: _ => if continues s1 then inl ((s0 - 192) * 64 + (s1 - 128)) else inr 1%nat
  | 3%nat, s0 :: s1 :: s2 :: _ =>
      if secondOk s0 s1 then
        if continues s2 then inl ((s0 - 224) * 4096 + (s1 - 128) * 64 + (s2 - 128)) else inr 2%nat
      else inr 1%nat
  | 4%nat, s0 :: s1 :: s2 :: s3 :: _ =>
      if secondOk s0 s1 then
        if continues s2 then
          if continues s3 then inl ((s0 - 240) * 262144 + (s1 - 128) * 4096 + (s2 - 128) * 64 + (s3 - 128)) else inr 3%nat
        else inr 2%nat
      else inr 1%nat
  | _, _ => inr 1%nat
  end.

Lemma outside_spec low high b : outside low high b = negb ((low <=? b) && (b <=? high)).
Proof. unfold outside. destruct (Z.ltb_spec b low), (Z.ltb_spec high b), (Z.leb_spec low b), (Z.leb_spec b high); simpl; lia || done. Qed.

(** [decodeNonASCIISequence] finds that sequence. *)
Lemma decodeNonASCII_ok `{Build} s0 bytes :
  isByte s0 → isASCII s0 = false → nonASCIISequenceLength s0 ≠ 0%nat →
  (nonASCIISequenceLength s0 ≤ length (s0 :: bytes))%nat →
  decodeNonASCIISequence (s0 :: bytes) (nonASCIISequenceLength s0) =
    Some match sequenceAt (nonASCIISequenceLength s0) (s0 :: bytes) with
         | inl c => (c, nonASCIISequenceLength s0)
         | inr k => (nonCharacter, k)
         end.
Proof.
  intros Hb Hna. pose proof (sequenceLength_spec s0 Hb) as Hl. unfold lengthByRange in Hl. unfold decodeNonASCIISequence, ASSERT_opt. cbn [lookup list_lookup mbind option_bind].
  rewrite Hna. cbn [negb]. rewrite orb_true_r. cbn [mbind option_bind].
  destruct ((194 <=? s0) && (s0 <=? 223)) eqn:E2; [|destruct ((224 <=? s0) && (s0 <=? 239)) eqn:E3;
    [|destruct ((240 <=? s0) && (s0 <=? 244)) eqn:E4]]; rewrite Hl; intros Hne Hlen; [..|done].
  - destruct bytes as [|s1 bytes]; [cbn in Hlen; lia|]. cbn. rewrite orb_true_r. cbn. rewrite outside_spec. unfold continues.
    destruct ((128 <=? s1) && (s1 <=? 191)); cbn; [|done]. do 2 f_equal. rewrite Z.shiftl_mul_pow2 by lia. lia.
  - destruct bytes as [|s1 [|s2 bytes]]; cbn in Hlen; [lia..|]. cbn [lookup list_lookup Nat.eqb]. cbn [mbind option_bind]. rewrite orb_true_r. cbn [mbind option_bind].
    rewrite !outside_spec. unfold sequenceAt, secondOk, continues.
    assert ((s0 =? 240) = false) as -> by lia. assert ((s0 =? 244) = false) as -> by lia.
    destruct (s0 =? 224) eqn:?; [|destruct (s0 =? 237) eqn:?]; repeat (case_match; try done); simplify_eq; cbn in *;
      do 2 f_equal; rewrite !Z.shiftl_mul_pow2 by lia; lia.
  - destruct bytes as [|s1 [|s2 [|s3 bytes]]]; cbn in Hlen; [lia..|]. cbn [lookup list_lookup Nat.eqb]. cbn [mbind option_bind]. rewrite !orb_true_r. cbn [mbind option_bind].
    rewrite !outside_spec. unfold sequenceAt, secondOk, continues.
    assert ((s0 =? 224) = false) as -> by lia. assert ((s0 =? 237) = false) as -> by lia.
    destruct (s0 =? 240) eqn:?; [|destruct (s0 =? 244) eqn:?]; repeat (case_match; try done); simplify_eq; cbn in *;
      do 2 f_equal; rewrite !Z.shiftl_mul_pow2 by lia; lia.
Qed.

(** A well-formed sequence is a scalar value that needs its length; an ill-formed
    one is shorter than it announced. *)
Lemma sequenceAt_range s0 bytes :
  isByte s0 → nonASCIISequenceLength s0 ≠ 0%nat → (nonASCIISequenceLength s0 ≤ length (s0 :: bytes))%nat →
  match sequenceAt (nonASCIISequenceLength s0) (s0 :: bytes) with
  | inl c => 128 ≤ c ≤ 1114111 ∧ ¬ (55296 ≤ c < 57344) ∧
      (nonASCIISequenceLength s0 = 2%nat → c < 2048) ∧ (nonASCIISequenceLength s0 = 3%nat → 2048 ≤ c < 65536) ∧
      (nonASCIISequenceLength s0 = 4%nat → 65536 ≤ c)
  | inr k => (1 ≤ k < nonASCIISequenceLength s0)%nat
  end.
Proof.
  intros Hb. rewrite (sequenceLength_spec s0 Hb). unfold lengthByRange.
  destruct ((194 <=? s0) && (s0 <=? 223)) eqn:E2; [|destruct ((224 <=? s0) && (s0 <=? 239)) eqn:E3;
    [|destruct ((240 <=? s0) && (s0 <=? 244)) eqn:E4]]; intros Hne Hlen; [..|done].
  - destruct bytes as [|s1 bytes]; [cbn in Hlen; lia|]. unfold sequenceAt, continues.
    destruct ((128 <=? s1) && (s1 <=? 191)) eqn:?; lia.
  - destruct bytes as [|s1 [|s2 bytes]]; cbn in Hlen; [lia..|]. unfold sequenceAt, secondOk, continues.
    rewrite (proj2 (Z.eqb_neq s0 240)), (proj2 (Z.eqb_neq s0 244)) by lia.
    destruct ((128 <=? s2) && (s2 <=? 191)) eqn:?, (s0 =? 224) eqn:?, (s0 =? 237) eqn:?;
      match goal with |- context [if ?b then _ else _] => destruct b eqn:? end; lia.
  - destruct bytes as [|s1 [|s2 [|s3 bytes]]]; cbn in Hlen; [lia..|]. unfold sequenceAt, secondOk, continues.
    rewrite (proj2 (Z.eqb_neq s0 224)), (proj2 (Z.eqb_neq s0 237)) by lia.
    destruct ((128 <=? s2) && (s2 <=? 191)) eqn:?, ((128 <=? s3) && (s3 <=? 191)) eqn:?, (s0 =? 240) eqn:?, (s0 =? 244) eqn:?;
      match goal with |- context [if ?b then _ else _] => destruct b eqn:? end; lia.
Qed.

Lemma sequenceLength_cases b :
  isByte b → nonASCIISequenceLength b = 0%nat ∨ nonASCIISequenceLength b = 2%nat ∨ nonASCIISequenceLength b = 3%nat ∨
    nonASCIISequenceLength b = 4%nat.
Proof. intros Hb. rewrite (sequenceLength_spec b Hb). unfold lengthByRange. repeat case_match; auto. Qed.

(** The code units of the next character, how many bytes it takes and whether it
    is an error; none when the bytes end inside a sequence, or there are none. *)
Definition decodeOne (bytes : list Z) : option (list Z * nat * bool) :=
  match bytes with
  | [] => None
  | s0 :: _ =>
      if isASCII s0 then Some ([s0], 1%nat, false)
      else
        let n := nonASCIISequenceLength s0 in
        if (n =? 0)%nat then Some ([replacementCharacter], 1%nat, true)
        else if (length bytes <? n)%nat then None
        else match sequenceAt n bytes with
             | inl c => Some (codeUnits c, n, false)
             | inr k => Some ([replacementCharacter], k, true)
             end
  end.

(** The plain decoder: the text, whether there was an error, and the bytes of the
    sequence the input ends in. *)
Fixpoint decodeFuel (fuel : nat) (bytes : list Z) : list Z * bool * list Z :=
  match fuel with
  | O => ([], false, bytes)
  | S fuel =>
      match decodeOne bytes with
      | None => ([], false, bytes)
      | Some (units, n, error) =>
          let '(rest, error', tail) := decodeFuel fuel (drop n bytes) in (units ++ rest, error || error', tail)
      end
  end.
Definition decodeAll (bytes : list Z) : list Z * bool * list Z := decodeFuel (length bytes) bytes.

Lemma decodeOne_size bytes units n e :
  Forall isByte bytes → decodeOne bytes = Some (units, n, e) → (1 ≤ n ≤ length bytes)%nat ∧ (1 ≤ length units ≤ n)%nat.
Proof.
  intros Hbytes. destruct bytes as [|s0 bytes]; [done|]. apply Forall_cons in Hbytes as [Hb Hbytes]. unfold decodeOne.
  destruct (isASCII s0); [intros [= <- <- _]; cbn; lia|].
  destruct (Nat.eqb_spec (nonASCIISequenceLength s0) 0) as [|Hne]; [intros [= <- <- _]; cbn; lia|].
  destruct (Nat.ltb_spec (length (s0 :: bytes)) (nonASCIISequenceLength s0)) as [|Hlen]; [done|].
  pose proof (sequenceAt_range s0 bytes Hb Hne Hlen) as Hr. destruct (sequenceAt _ _) as [c|k]; intros [= <- <- _].
  - pose proof (sequenceLength_cases s0 Hb). unfold codeUnits, U_IS_BMP. destruct (Z.leb_spec c 65535); cbn [length] in *; lia.
  - cbn [length] in *. lia.
Qed.

Lemma decodeFuel_more fuel fuel' bytes :
  Forall isByte bytes → (length bytes ≤ fuel)%nat → (length bytes ≤ fuel')%nat → decodeFuel fuel bytes = decodeFuel fuel' bytes.
Proof.
  revert fuel' bytes. induction fuel as [|fuel IH]; intros fuel' bytes Hb H1 H2.
  { destruct bytes; [by destruct fuel'|cbn in H1; lia]. }
  destruct fuel' as [|fuel']; [destruct bytes; [done|cbn in H2; lia]|]. cbn [decodeFuel].
  destruct (decodeOne bytes) as [[[units n] e]|] eqn:E; [|done]. destruct (decodeOne_size _ _ _ _ Hb E) as [Hn _].
  rewrite (IH fuel'); [done|by apply Forall_drop|rewrite length_drop; lia..].
Qed.

(** A sequence is decoded from its own bytes. *)
Lemma sequenceAt_app n a b : n = 2%nat ∨ n = 3%nat ∨ n = 4%nat → (n ≤ length a)%nat → sequenceAt n (a ++ b) = sequenceAt n a.
Proof.
  destruct a as [|a0 [|a1 [|a2 [|a3 a]]]]; cbn [length]; intros [-> | [-> | ->]] Hle; try lia; done.
Qed.

Lemma decodeOne_app p0 a b :
  isByte p0 → isASCII p0 = false → nonASCIISequenceLength p0 ≠ 0%nat → (nonASCIISequenceLength p0 ≤ length (p0 :: a))%nat →
  decodeOne ((p0 :: a) ++ b) = decodeOne (p0 :: a).
Proof.
  intros Hb Ha Hn Hle. unfold decodeOne. cbn [app]. rewrite Ha, (proj2 (Nat.eqb_neq _ _) Hn).
  rewrite (proj2 (Nat.ltb_ge _ _) Hle), (proj2 (Nat.ltb_ge (length (p0 :: a ++ b)) _)) by (cbn in *; rewrite length_app; lia).
  change (p0 :: a ++ b) with ((p0 :: a) ++ b). rewrite sequenceAt_app; [done| |done].
  pose proof (sequenceLength_cases p0 Hb). tauto.
Qed.

(** What is decoded before [r]. *)
Definition prefixed (units : list Z) (error : bool) (r : list Z * bool * list Z) : list Z * bool * list Z :=
  (units ++ r.1.1, error || r.1.2, r.2).

Lemma prefixed_prefixed t e t' e' r : prefixed t e (prefixed t' e' r) = prefixed (t ++ t') (e || e') r.
Proof. unfold prefixed. cbn. by rewrite app_assoc, orb_assoc. Qed.

Lemma decodeAll_step bytes units n e :
  Forall isByte bytes → decodeOne bytes = Some (units, n, e) → decodeAll bytes = prefixed units e (decodeAll (drop n bytes)).
Proof.
  intros Hb E. destruct (decodeOne_size _ _ _ _ Hb E) as [Hn _]. unfold decodeAll at 1.
  destruct (length bytes) as [|len] eqn:Hlen; [lia|]. cbn [decodeFuel]. rewrite E.
  rewrite (decodeFuel_more len (length (drop n bytes))); [|by apply Forall_drop|rewrite length_drop; lia|done].
  unfold decodeAll. by destruct (decodeFuel _ _) as [[? ?] ?].
Qed.

Lemma decodeAll_stop bytes : decodeOne bytes = None → decodeAll bytes = ([], false, bytes).
Proof. intros E. unfold decodeAll. destruct (length bytes); [done|]. cbn [decodeFuel]. by rewrite E. Qed.

Lemma decodeAll_ascii run bytes :
  Forall isByte (run ++ bytes) → Forall (λ b, isASCII b = true) run →
  decodeAll (run ++ bytes) = prefixed run false (decodeAll bytes).
Proof.
  intros Hb Hrun. induction Hrun as [|b run Hasc Hrun IH].
  { cbn [app]. unfold prefixed. by destruct (decodeAll bytes) as [[? ?] ?]. }
  rewrite (decodeAll_step _ [b] 1 false); [|done|cbn; by rewrite Hasc]. change (drop 1 ((b :: run) ++ bytes)) with (run ++ bytes).
  rewrite IH by (by apply Forall_cons in Hb as [_ ?]). apply prefixed_prefixed.
Qed.

(** ** The state of a call *)

Definition isUnit (u : Z) : Prop := 0 ≤ u < 65536.

(** The bytes waiting in the codec, and all that is still to be decoded. *)
Definition pendingBytes (d : Decoding) : list Z := take (partialSize d) (partial d).
Definition whole (d : Decoding) : list Z := pendingBytes d ++ source d.

(** What decoding the rest will have given, without and with flushing. *)
Definition outcome (d : Decoding) : list Z * bool * list Z := prefixed (written d) (sawError d) (decodeAll (whole d)).

Definition flushed (flush : bool) (r : list Z * bool * list Z) : list Z * bool * list Z :=
  if flush && negb (bool_decide (r.2 = [])) then (r.1.1 ++ [replacementCharacter], true, []) else r.

Definition final (flush : bool) (d : Decoding) : list Z * bool * list Z := flushed flush (outcome d).

(** [n] bytes of the source give some code units. *)
Definition consume (n : nat) (units : list Z) (e : bool) (d : Decoding) : Decoding :=
  mkDecoding (partialSize d) (partial d) (drop n (source d)) (offset d + n) (written d ++ units) (sawError d || e).

Lemma consume_consume n units e n' units' e' d :
  consume n' units' e' (consume n units e d) = consume (n + n') (units ++ units') (e || e') d.
Proof. unfold consume. cbn. by rewrite drop_drop, Nat.add_assoc, app_assoc, orb_assoc. Qed.

Lemma consume_nil d : consume 0 [] false d = d.
Proof. unfold consume. rewrite Nat.add_0_r, app_nil_r, orb_false_r, drop_0. by destruct d. Qed.

(** Evaluates the fields of an updated state. *)
Ltac fields := unfold set_written, set_error, set_partial; cbn [partialSize partial source offset written sawError].

Lemma wordSize_pos `{Machine} : (0 < wordSize)%nat.
Proof. destruct wordSize_ok as [-> | ->]; lia. Qed.

Section Proofs.
Context `{Build} `{Machine}.

(** The length of the chunk, the room for the result and the aligned end. *)
Variables (L capacity : nat) (alignedEnd : Z).
Hypothesis alignedEnd_aligned : isAligned alignedEnd = true.
Hypothesis alignedEnd_inside : alignedEnd ≤ sourceAddress + Z.of_nat L.

(** The state is well-formed, and what is written, waiting and left is at most [B]. *)
Record ok (B : nat) (d : Decoding) : Prop := mkOk {
  ok_partial : length (partial d) = 4%nat;
  ok_size : (partialSize d ≤ 4)%nat;
  ok_partial_bytes : Forall isByte (partial d);
  ok_source_bytes : Forall isByte (source d);
  ok_offset : (offset d + length (source d))%nat = L;
  ok_units : Forall isUnit (written d);
  ok_room : (length (written d) + partialSize d + length (source d) ≤ B)%nat;
}.

Lemma ok_consume B n units e d :
  ok B d → (n ≤ length (source d))%nat → (length units ≤ n)%nat → Forall isUnit units → ok B (consume n units e d).
Proof.
  intros [? ? ? ? ? ? ?] Hn Hu Hunits. constructor; cbn; try done.
  - by apply Forall_drop.
  - rewrite length_drop. lia.
  - by apply Forall_app.
  - rewrite length_app, length_drop. lia.
Qed.

Lemma outcome_consume n units e d :
  partialSize d = 0%nat → decodeAll (source d) = prefixed units e (decodeAll (drop n (source d))) →
  outcome (consume n units e d) = outcome d.
Proof.
  intros Hs E. unfold outcome, whole, pendingBytes, consume. cbn. rewrite Hs, !take_0. cbn [app]. rewrite E.
  by rewrite prefixed_prefixed.
Qed.

(** ** The copying operations *)

Lemma wp_put c Q d :
  (length (written d) < capacity)%nat → Q tt (set_written (written d ++ [c]) d) → wp (put capacity c) Q d.
Proof. intros Hlt HQ. unfold wp, put, modifyOpt. by rewrite (proj2 (Nat.ltb_lt _ _) Hlt). Qed.

Lemma wp_skip n Q d :
  (n ≤ length (source d))%nat →
  Q tt (mkDecoding (partialSize d) (partial d) (drop n (source d)) (offset d + n) (written d) (sawError d)) → wp (skip n) Q d.
Proof. intros Hle HQ. unfold wp, skip, modifyOpt. by rewrite (proj2 (Nat.leb_le _ _) Hle). Qed.

Lemma wp_lift {A} (f : Decoding → option A) a Q d : f d = Some a → Q a d → wp (λ d, lift (f d) d) Q d.
Proof. intros E HQ. unfold wp, lift. by rewrite E. Qed.

Lemma wp_lift' {A} (o : option A) a Q d : o = Some a → Q a d → wp (lift o) Q d.
Proof. intros -> HQ. done. Qed.

Lemma wp_putAll word (Q : list unit → Decoding → Prop) d :
  (length (written d) + length word ≤ capacity)%nat → (∀ us, Q us (set_written (written d ++ word) d)) →
  wp (mapM (put capacity) word) Q d.
Proof.
  revert Q d. induction word as [|c word IH]; intros Q d Hroom HQ.
  { apply wp_ret. specialize (HQ []). rewrite app_nil_r in HQ. by destruct d. }
  cbn in Hroom. cbn [mapM]. apply wp_bind, wp_put; [lia|]. apply wp_bind, IH.
  - cbn. rewrite length_app. cbn. lia.
  - intros us. apply wp_ret. cbn. rewrite <-app_assoc. apply HQ.
Qed.

(** A run of ASCII bytes at the start of the source. *)
Definition asciiRun (run : list Z) (d : Decoding) : Prop :=
  take (length run) (source d) = run ∧ Forall (λ b, isASCII b = true) run.

Lemma ascii_isUnit b : isByte b → isUnit b.
Proof. unfold isByte, isUnit. lia. Qed.

Lemma asciiRun_consume B run d :
  ok B d → partialSize d = 0%nat → asciiRun run d →
  ok B (consume (length run) run false d) ∧ outcome (consume (length run) run false d) = outcome d.
Proof.
  intros Hok Hs [Htake Hrun]. assert (Hsrc : source d = run ++ drop (length run) (source d)) by (by rewrite <-Htake at 1; rewrite take_drop).
  pose proof (ok_source_bytes _ _ Hok) as Hb. rewrite Hsrc in Hb. split.
  - apply ok_consume; [done| |done|].
    + rewrite Hsrc, length_app. lia.
    + apply Forall_app in Hb as [Hb _]. by apply (Forall_impl _ _ _ Hb), ascii_isUnit.
  - apply outcome_consume; [done|]. rewrite Hsrc at 1. by apply decodeAll_ascii.
Qed.

Lemma asciiRun_app run run' d :
  asciiRun run d → asciiRun run' (consume (length run) run false d) → asciiRun (run ++ run') d.
Proof.
  intros [Ht Hr] [Ht' Hr']. split; [|by apply Forall_app]. cbn in Ht'.
  rewrite length_app, <-take_take_drop, Ht. by rewrite Ht'.
Qed.

(** Before the aligned end a whole word is left. *)
Lemma word_inside a : isAligned a = true → a < alignedEnd → a + Z.of_nat wordSize ≤ alignedEnd.
Proof.
  unfold isAligned. intros Ha%Z.eqb_eq Hlt. pose proof alignedEnd_aligned as He. unfold isAligned in He. apply Z.eqb_eq in He.
  pose proof wordSize_pos. apply Z.mod_divide in Ha as [k ->]; [|lia]. apply Z.mod_divide in He as [m Hm]; [|lia]. rewrite Hm in Hlt |- *.
  assert (k < m) by nia. nia.
Qed.

Lemma isAligned_next a : isAligned a = true → isAligned (a + Z.of_nat wordSize) = true.
Proof.
  unfold isAligned. rewrite !Z.eqb_eq. intros Ha. pose proof wordSize_pos.
  rewrite <-(Z.mul_1_l (Z.of_nat wordSize)) at 1. by rewrite Z.mod_add by lia.
Qed.

Lemma copyWords_ok fuel B d (Q : unit → Decoding → Prop) :
  ok B d → (B ≤ capacity)%nat → isAligned (sourceAddress + Z.of_nat (offset d)) = true → (length (source d) < fuel)%nat →
  (∀ run, asciiRun run d → Q tt (consume (length run) run false d)) → wp (copyWords fuel capacity alignedEnd) Q d.
Proof.
  intros Hok HB. revert d Q Hok. induction fuel as [|fuel IH]; intros d Q Hok Hal Hfuel HQ; [lia|].
  assert (Hnil : Q tt d).
  { specialize (HQ []). cbn [length] in HQ. rewrite consume_nil in HQ. apply HQ. by split. }
  cbn [copyWords]. apply wp_bind, wp_gets. destruct (Z.ltb_spec (sourceAddress + Z.of_nat (offset d)) alignedEnd) as [Hin|]; [|by apply wp_ret].
  pose proof (word_inside _ Hal Hin). pose proof (ok_offset _ _ Hok). pose proof (ok_room _ _ Hok).
  apply wp_bind, wp_gets. rewrite length_take, Nat.min_l, Nat.eqb_refl by lia.
  destruct (forallb isASCII (take wordSize (source d))) eqn:Hall; [|by apply wp_ret].
  pose proof wordSize_pos.
  assert (Hword : length (take wordSize (source d)) = wordSize) by (rewrite length_take; lia).
  apply wp_bind, wp_putAll; [rewrite Hword; lia|]. intros _. apply wp_bind, wp_skip; [cbn; lia|].
  assert (Hrun : asciiRun (take wordSize (source d)) d).
  { split; [by rewrite Hword|]. apply Forall_forall. intros b Hb. rewrite forallb_forall in Hall. by apply Hall, list_elem_of_In. }
  set (d1 := mkDecoding _ _ _ _ _ _). assert (E : d1 = consume (length (take wordSize (source d))) (take wordSize (source d)) false d)
    by (subst d1; unfold consume; cbn; by rewrite Hword, orb_false_r).
  rewrite E. apply IH.
  - apply ok_consume; [done|rewrite Hword; lia|lia|]. eapply Forall_impl; [apply Forall_take, (ok_source_bytes _ _ Hok)|apply ascii_isUnit].
  - cbn. rewrite Hword, Nat2Z.inj_add, Z.add_assoc. by apply isAligned_next.
  - cbn. rewrite length_drop. lia.
  - intros run Hr. rewrite consume_consume, <-length_app. apply HQ, asciiRun_app; done.
Qed.

Lemma fastPath_ok B d (Q : unit → Decoding → Prop) :
  ok B d → (B ≤ capacity)%nat →
  (∀ run, asciiRun run d → Q tt (consume (length run) run false d)) →
  wp (fastPath (length (source d)) capacity alignedEnd) Q d.
Proof.
  intros Hok HB HQ. unfold fastPath. apply wp_bind, wp_gets. destruct (isAligned (sourceAddress + Z.of_nat (offset d))) eqn:Hal.
  - eapply copyWords_ok; [done..| |done]. lia.
  - apply wp_ret. specialize (HQ []). cbn [length] in HQ. rewrite consume_nil in HQ. apply HQ. by split.
Qed.

(** ** The buffer of the partial sequence *)

(** [n] bytes of the source are copied behind the waiting ones, and consumed. *)
Definition filled (n : nat) (d : Decoding) : Decoding :=
  set_partial (partialSize d + n) (take (partialSize d) (partial d) ++ take n (source d) ++ drop (partialSize d + n) (partial d)) d.
Definition moved (n : nat) (d : Decoding) : Decoding :=
  let f := filled n d in mkDecoding (partialSize f) (partial f) (drop n (source d)) (offset d + n) (written d) (sawError d).

Lemma wp_fill n Q d :
  (partialSize d + n ≤ 4)%nat → (n ≤ length (source d))%nat → Q tt (filled n d) → wp (fill n) Q d.
Proof.
  intros H4 Hn HQ. unfold wp, fill, modifyOpt. by rewrite (proj2 (Nat.leb_le _ _) H4), (proj2 (Nat.leb_le _ _) Hn).
Qed.

Lemma filled_partial B n d :
  ok B d → (partialSize d + n ≤ 4)%nat → (n ≤ length (source d))%nat →
  length (partial (filled n d)) = 4%nat ∧ Forall isByte (partial (filled n d)) ∧
  pendingBytes (filled n d) = pendingBytes d ++ take n (source d).
Proof.
  intros Hok H4 Hn. pose proof (ok_partial _ _ Hok). pose proof (ok_partial_bytes _ _ Hok). pose proof (ok_source_bytes _ _ Hok).
  cbn. repeat split.
  - rewrite !length_app, !length_take, length_drop. lia.
  - repeat apply Forall_app_2; [by apply Forall_take..|by apply Forall_drop].
  - unfold pendingBytes. cbn. rewrite app_assoc, take_app_length'; [done|]. rewrite length_app, !length_take. lia.
Qed.

Lemma moved_ok B n d :
  ok B d → (partialSize d + n ≤ 4)%nat → (n ≤ length (source d))%nat →
  ok B (moved n d) ∧ whole (moved n d) = whole d ∧ outcome (moved n d) = outcome d.
Proof.
  intros Hok H4 Hn. destruct (filled_partial _ _ _ Hok H4 Hn) as (Hl & Hb & Hp).
  assert (Hw : whole (moved n d) = whole d).
  { unfold whole. change (pendingBytes (moved n d)) with (pendingBytes (filled n d)). rewrite Hp. cbn.
    by rewrite <-app_assoc, take_drop. }
  repeat split; try done.
  - destruct Hok. by apply Forall_drop.
  - destruct Hok. cbn. rewrite length_drop. lia.
  - by destruct Hok.
  - destruct Hok. cbn. rewrite length_drop. lia.
  - unfold outcome. by rewrite Hw.
Qed.

(** ** One character of the source *)

Lemma scalar_units c :
  128 ≤ c ≤ 1114111 → ¬ (55296 ≤ c < 57344) →
  Forall isUnit (codeUnits c) ∧ negb (c =? nonCharacter) = true ∧ negb (U_IS_SURROGATE c) = true.
Proof.
  intros Hc Hs. split; [|split].
  - eapply Forall_impl; [apply (codeUnits_range c); lia|]. unfold isUnit. cbn. lia.
  - unfold nonCharacter. lia.
  - destruct (U_IS_SURROGATE c) eqn:E; [|done]. apply surrogate_spec in E; lia.
Qed.

(** What the decoder makes of the sequence at the head of some bytes. *)
Definition headSequence (bytes : list Z) (r : Z * nat) : Prop :=
  if r.1 =? nonCharacter then ∃ k, (1 ≤ k)%nat ∧ k = (if (r.2 =? 0)%nat then 1 else r.2)%nat ∧ decodeOne bytes = Some ([replacementCharacter], k, true)
  else 128 ≤ r.1 ≤ 1114111 ∧ ¬ (55296 ≤ r.1 < 57344) ∧ decodeOne bytes = Some (codeUnits r.1, r.2, false).

Lemma headSequence_decode s0 rest :
  isByte s0 → isASCII s0 = false → nonASCIISequenceLength s0 ≠ 0%nat → (nonASCIISequenceLength s0 ≤ length (s0 :: rest))%nat →
  ∃ r, decodeNonASCIISequence (s0 :: rest) (nonASCIISequenceLength s0) = Some r ∧ headSequence (s0 :: rest) r ∧
    (1 ≤ r.2 ≤ nonASCIISequenceLength s0)%nat.
Proof.
  intros Hb Ha Hn Hl. rewrite (decodeNonASCII_ok s0 rest Hb Ha Hn Hl). eexists. split; [done|].
  pose proof (sequenceAt_range s0 rest Hb Hn Hl) as Hr. unfold headSequence, decodeOne. rewrite Ha.
  rewrite (proj2 (Nat.eqb_neq _ _) Hn), (proj2 (Nat.ltb_ge _ _) Hl). destruct (sequenceAt _ _) as [c|k]; cbn [fst snd].
  - rewrite (proj2 (Z.eqb_neq c nonCharacter)) by (unfold nonCharacter; lia). split; [split_and!; try done; lia|lia].
  - rewrite Z.eqb_refl. split; [|lia]. exists k. by destruct k; [lia|split_and!; [lia|..]].
Qed.

Lemma nextCharacter_ok B d s0 rest (Q : option (Z * nat) → Decoding → Prop) :
  ok B d → partialSize d = 0%nat → source d = s0 :: rest → isASCII s0 = false →
  (∀ r, headSequence (source d) r → Q (Some r) d) →
  (decodeOne (source d) = None → (length (source d) < 4)%nat → Q None (moved (length (source d)) d)) →
  wp nextCharacter Q d.
Proof.
  intros Hok Hs Hsrc Ha Hsome Hnone. pose proof (ok_source_bytes _ _ Hok) as Hb. rewrite Hsrc in Hb. apply Forall_cons in Hb as [Hb _].
  pose proof (sequenceLength_cases s0 Hb) as Hc.
  unfold nextCharacter. apply wp_bind, wp_lift with (a := s0); [by rewrite Hsrc|].
  destruct (Nat.eqb_spec (nonASCIISequenceLength s0) 0) as [E0|Hne].
  { apply wp_ret, Hsome. rewrite Hsrc. unfold headSequence, decodeOne. cbn [fst snd]. rewrite Ha, E0, Z.eqb_refl. by exists 1%nat. }
  apply wp_bind, wp_gets. cbn [compose]. destruct (Nat.ltb_spec (length (source d)) (nonASCIISequenceLength s0)) as [Hlt|Hge].
  - apply wp_bind, wp_ASSERT; [apply Nat.ltb_lt; lia|]. apply wp_bind, wp_gets. apply wp_bind, wp_ASSERT; [by apply Nat.eqb_eq|].
    apply wp_bind, wp_modify. apply wp_bind, wp_fill; [cbn; lia..|]. apply wp_bind, wp_skip; [cbn; lia|]. apply wp_ret.
    assert (E : decodeOne (source d) = None).
    { rewrite Hsrc in Hlt |- *. unfold decodeOne. by rewrite Ha, (proj2 (Nat.eqb_neq _ _) Hne), (proj2 (Nat.ltb_lt _ _) Hlt). }
    assert (Hq : Q None (moved (length (source d)) d)) by (apply Hnone; [done|lia]).
    unfold moved, filled in Hq. rewrite Hs in Hq. exact Hq.
  - apply wp_bind, wp_gets. rewrite Hsrc in Hge |- *. destruct (headSequence_decode s0 rest Hb Ha Hne Hge) as (r & E & Hr & _).
    apply wp_bind, wp_lift' with (a := r); [done|]. apply wp_ret, Hsome. by rewrite Hsrc.
Qed.

(** ** The loops over the source *)

Lemma consume_decoded B n units e d :
  ok B d → partialSize d = 0%nat → decodeOne (source d) = Some (units, n, e) → Forall isUnit units →
  ok B (consume n units e d) ∧ outcome (consume n units e d) = outcome d ∧
  (length (source (consume n units e d)) < length (source d))%nat ∧ (length units ≤ n ≤ length (source d))%nat.
Proof.
  intros Hok Hs E Hu. pose proof (ok_source_bytes _ _ Hok) as Hb. destruct (decodeOne_size _ _ _ _ Hb E) as [Hn Hlen].
  split_and!; try lia.
  - by apply ok_consume; [done|lia..|].
  - apply outcome_consume; [done|]. by apply decodeAll_step.
  - cbn. rewrite length_drop. lia.
Qed.

(** A turn at an ASCII byte, for both widths. *)
Lemma asciiTurn {A} (again : M Decoding A) (stopped : A) B d s0 rest (Q : A → Decoding → Prop) :
  ok B d → (B ≤ capacity)%nat → partialSize d = 0%nat → source d = s0 :: rest → isASCII s0 = true →
  (∀ d1, ok B d1 → partialSize d1 = 0%nat → outcome d1 = outcome d → (length (source d1) < length (source d))%nat → wp again Q d1) →
  (∀ d1, ok B d1 → partialSize d1 = 0%nat → outcome d1 = outcome d → source d1 = [] → Q stopped d1) →
  wp (fastPath (length (source d)) capacity alignedEnd;;
      left ← gets (length ∘ source);
      if (left =? 0)%nat then mret stopped
      else
        s0 ← (λ d, lift (source d !! 0%nat) d);
        if negb (isASCII s0) then again else put capacity s0;; skip 1;; again) Q d.
Proof.
  intros Hok HB Hs Hsrc Ha Hagain Hstop. apply wp_bind. eapply fastPath_ok; [done..|]. intros run Hrun.
  destruct (asciiRun_consume _ _ _ Hok Hs Hrun) as [Hok1 Hout1]. set (d1 := consume (length run) run false d) in *.
  assert (Hlen : (length (source d1) + length run = length (source d))%nat).
  { subst d1. cbn. rewrite length_drop. destruct Hrun as [Ht _]. rewrite <-Ht at 2. rewrite length_take.
    pose proof (f_equal length Ht) as El. rewrite length_take in El. lia. }
  assert (Hs1 : partialSize d1 = 0%nat) by done.
  apply wp_bind, wp_gets. cbn [compose]. destruct (source d1) as [|s1 rest1] eqn:Hsrc1; cbn [length Nat.eqb].
  { apply wp_ret, Hstop; done. }
  apply wp_bind, wp_lift with (a := s1); [by rewrite Hsrc1|]. destruct (isASCII s1) eqn:Ha1; cbn [negb].
  - assert (Hone : decodeOne (source d1) = Some ([s1], 1%nat, false)) by (rewrite Hsrc1; cbn; by rewrite Ha1).
    pose proof (ok_source_bytes _ _ Hok1) as Hb1. rewrite Hsrc1 in Hb1. apply Forall_cons in Hb1 as [Hb1 _].
    destruct (consume_decoded _ _ _ _ _ Hok1 Hs1 Hone) as (Hok2 & Hout2 & Hlt & Hle); [by apply Forall_singleton, ascii_isUnit|].
    pose proof (ok_room _ _ Hok1). rewrite Hsrc1 in *. cbn [length] in *.
    apply wp_bind, wp_put; [lia|]. apply wp_bind, wp_skip; [cbn [source set_written]; rewrite Hsrc1; cbn; lia|].
    assert (E : consume 1 [s1] false d1 = mkDecoding (partialSize d1) (partial d1) (drop 1 (source d1)) (offset d1 + 1) (written d1 ++ [s1]) (sawError d1))
      by (unfold consume; by rewrite orb_false_r).
    fields. rewrite <-E.
    apply Hagain; [done|done|by rewrite Hout2|]. lia.
  - apply Hagain; [done..|]. rewrite Hsrc1. destruct run as [|b run]; [|cbn in *; lia].
    exfalso. subst d1. cbn [length] in Hsrc1. rewrite consume_nil, Hsrc in Hsrc1. congruence.
Qed.

Lemma wp_appendCharacter c Q d :
  128 ≤ c ≤ 1114111 → ¬ (55296 ≤ c < 57344) → (length (written d) + length (codeUnits c) ≤ capacity)%nat →
  Q tt (set_written (written d ++ codeUnits c) d) → wp (appendCharacter capacity c) Q d.
Proof.
  intros Hc Hsur Hroom HQ. destruct (scalar_units c Hc Hsur) as (_ & Hn & Hu). unfold appendCharacter.
  apply wp_bind, wp_ASSERT; [done|]. apply wp_bind, wp_ASSERT; [done|]. unfold codeUnits in *. destruct (U_IS_BMP c); cbn in Hroom.
  - apply wp_put; [lia|done].
  - apply wp_bind, wp_put; [lia|]. apply wp_put; [cbn; rewrite length_app; cbn; lia|]. cbn. by rewrite <-app_assoc.
Qed.

(** The state in which a loop over the source has ended: all is decoded but the
    sequence the source ends in, or an error has stopped it. *)
Definition ended (stopOnError : bool) (d d' : Decoding) : Prop :=
  (source d' = [] ∧ decodeOne (pendingBytes d') = None ∧ outcome d' = outcome d) ∨ (stopOnError = true ∧ partialSize d' = 0%nat).

Lemma ended_step stopOnError d d1 d' : outcome d1 = outcome d → ended stopOnError d1 d' → ended stopOnError d d'.
Proof. intros E [(? & ? & Eo)|?]; [left|by right]. by rewrite <-E. Qed.

Lemma ended_stop stopOnError d d1 : source d1 = [] → partialSize d1 = 0%nat → outcome d1 = outcome d → ended stopOnError d d1.
Proof. intros Hs Hp E. left. split; [done|]. split; [|done]. unfold pendingBytes. by rewrite Hp, take_0. Qed.

Lemma moved_ended B stopOnError d :
  ok B d → partialSize d = 0%nat → decodeOne (source d) = None → (length (source d) < 4)%nat →
  ok B (moved (length (source d)) d) ∧ ended stopOnError d (moved (length (source d)) d).
Proof.
  intros Hok Hs E Hlt. destruct (moved_ok B (length (source d)) d Hok) as (Hok' & _ & Hout); [lia..|]. split; [done|].
  left. split; [cbn; apply drop_all|]. split; [|done]. change (pendingBytes (moved (length (source d)) d)) with (pendingBytes (filled (length (source d)) d)).
  rewrite (proj2 (proj2 (filled_partial B (length (source d)) d Hok ltac:(lia) ltac:(lia)))).
  unfold pendingBytes. by rewrite Hs, take_0, take_ge by lia.
Qed.

Lemma loop16_ok fuel stopOnError B d :
  ok B d → (B ≤ capacity)%nat → partialSize d = 0%nat → (length (source d) ≤ fuel)%nat →
  wp (loop16 fuel capacity alignedEnd stopOnError) (λ _ d', ok B d' ∧ ended stopOnError d d') d.
Proof.
  intros Hok HB. revert d Hok. induction fuel as [|fuel IH]; intros d Hok Hs Hfuel.
  { cbn [loop16]. apply wp_bind, wp_gets. cbn [compose]. assert (length (source d) = 0%nat) as E by lia. rewrite E.
    apply wp_ret. split; [done|]. apply ended_stop; [by apply length_zero_iff_nil|done..]. }
  assert (Hagain : ∀ d1, ok B d1 → partialSize d1 = 0%nat → outcome d1 = outcome d → (length (source d1) < length (source d))%nat →
    wp (loop16 fuel capacity alignedEnd stopOnError) (λ _ d', ok B d' ∧ ended stopOnError d d') d1).
  { intros d1 Hok1 Hs1 Hout1 Hlt. eapply wp_mono; [apply IH; [done..|lia]|]. intros _ d' [? ?]. split; [done|]. by eapply ended_step. }
  cbn [loop16]. apply wp_bind, wp_gets. cbn [compose].
  destruct (source d) as [|s0 rest] eqn:Hsrc; [cbn [length Nat.eqb]; apply wp_ret; split; [done|by apply ended_stop]|].
  cbn [length Nat.eqb]. apply wp_bind, wp_lift with (a := s0); [by rewrite Hsrc|]. destruct (isASCII s0) eqn:Ha.
  { change (S (length rest)) with (length (s0 :: rest)). rewrite <-Hsrc. rewrite <-Hsrc in Hagain.
    eapply asciiTurn; [done..|]. intros d1 Hok1 Hs1 Hout1 E1. split; [done|by apply ended_stop]. }
  rewrite <-Hsrc in Hagain. apply wp_bind. eapply nextCharacter_ok; [done..| |].
  - intros [c n] Hr. unfold headSequence in Hr. cbn [fst snd] in Hr. pose proof (ok_room _ _ Hok). destruct (c =? nonCharacter) eqn:Ec.
    + destruct Hr as (k & Hk & -> & Hone). apply wp_bind, wp_modify. destruct stopOnError; [apply wp_ret; split; [by destruct Hok|by right]|].
      destruct (consume_decoded _ _ _ _ _ Hok Hs Hone) as (Hok1 & Hout1 & Hlt1 & Hle1); [by apply Forall_singleton|].
      cbn [length] in Hle1. apply wp_bind, wp_put; [cbn; lia|]. apply wp_bind, wp_skip; [cbn; lia|].
      assert (E : consume (if (n =? 0)%nat then 1 else n) [replacementCharacter] true d = _) by (unfold consume; rewrite orb_true_r; reflexivity).
      fields. rewrite <-E. by apply Hagain.
    + destruct Hr as (Hc & Hsur & Hone). destruct (consume_decoded _ _ _ _ _ Hok Hs Hone) as (Hok1 & Hout1 & Hlt1 & Hle1); [by apply scalar_units|].
      apply wp_bind, wp_skip; [lia|]. apply wp_bind, wp_appendCharacter; [done..|cbn; lia|].
      assert (E : consume n (codeUnits c) false d = _) by (unfold consume; rewrite orb_false_r; reflexivity).
      fields. rewrite <-E. by apply Hagain.
  - intros Hone Hlt. apply wp_ret. by apply moved_ended.
Qed.

Lemma outcome_error d : decodeOne (source d) ≠ None → partialSize d = 0%nat → (∀ u n, decodeOne (source d) ≠ Some (u, n, false)) →
  Forall isByte (source d) → outcome (set_error d) = outcome d.
Proof.
  intros Hne Hs Herr Hb. destruct (decodeOne (source d)) as [[[u n] [|]]|] eqn:E; [|by destruct (Herr u n)|done].
  unfold outcome, whole, pendingBytes. fields. rewrite Hs, take_0. cbn [app]. rewrite (decodeAll_step _ _ _ _ Hb E).
  rewrite !prefixed_prefixed. by rewrite !orb_true_r.
Qed.

(** How a loop over the source on 8-bit characters ends. *)
Definition ended8 (stopOnError : bool) (d : Decoding) (e : LoopExit) (d' : Decoding) : Prop :=
  match e with
  | LoopDone => ended stopOnError d d'
  | LoopUpConvert => partialSize d' = 0%nat ∧ outcome d' = outcome d
  end.

Lemma ok_set_error B d : ok B d → ok B (set_error d).
Proof. by intros []. Qed.

Lemma loop8_ok fuel stopOnError B d :
  ok B d → (B ≤ capacity)%nat → partialSize d = 0%nat → (length (source d) ≤ fuel)%nat →
  wp (loop8 fuel capacity alignedEnd stopOnError) (λ e d', ok B d' ∧ ended8 stopOnError d e d') d.
Proof.
  intros Hok HB. revert d Hok. induction fuel as [|fuel IH]; intros d Hok Hs Hfuel.
  { cbn [loop8]. apply wp_bind, wp_gets. cbn [compose]. assert (length (source d) = 0%nat) as E by lia. rewrite E.
    apply wp_ret. split; [done|]. apply ended_stop; [by apply length_zero_iff_nil|done..]. }
  assert (Hagain : ∀ d1, ok B d1 → partialSize d1 = 0%nat → outcome d1 = outcome d → (length (source d1) < length (source d))%nat →
    wp (loop8 fuel capacity alignedEnd stopOnError) (λ e d', ok B d' ∧ ended8 stopOnError d e d') d1).
  { intros d1 Hok1 Hs1 Hout1 Hlt. eapply wp_mono; [apply IH; [done..|lia]|]. intros [|] d' [? He]; (split; [done|]).
    - by eapply ended_step.
    - cbn in *. by rewrite <-Hout1. }
  cbn [loop8]. apply wp_bind, wp_gets. cbn [compose].
  destruct (source d) as [|s0 rest] eqn:Hsrc; [cbn [length Nat.eqb]; apply wp_ret; split; [done|by apply ended_stop]|].
  cbn [length Nat.eqb]. apply wp_bind, wp_lift with (a := s0); [by rewrite Hsrc|]. destruct (isASCII s0) eqn:Ha.
  { change (S (length rest)) with (length (s0 :: rest)). rewrite <-Hsrc. rewrite <-Hsrc in Hagain.
    eapply asciiTurn; [done..|]. intros d1 Hok1 Hs1 Hout1 E1. split; [done|by apply ended_stop]. }
  rewrite <-Hsrc in Hagain. apply wp_bind. eapply nextCharacter_ok; [done..| |].
  - intros [c n] Hr. unfold headSequence in Hr. cbn [fst snd] in Hr. pose proof (ok_room _ _ Hok). destruct (c =? nonCharacter) eqn:Ec.
    + destruct Hr as (k & Hk & -> & Hone). apply wp_bind, wp_modify.
      destruct stopOnError; apply wp_ret; (split; [by apply ok_set_error|]); [by right|]. split; [done|].
      apply outcome_error; [by rewrite Hone|done|intros u m; by rewrite Hone|by destruct Hok].
    + destruct Hr as (Hc & Hsur & Hone). destruct (Z.ltb_spec 255 c) as [|Hle]; [by apply wp_ret|].
      destruct (consume_decoded _ _ _ _ _ Hok Hs Hone) as (Hok1 & Hout1 & Hlt1 & Hle1); [by apply scalar_units|].
      assert (Eu : codeUnits c = [c]) by (unfold codeUnits, U_IS_BMP; by rewrite (proj2 (Z.leb_le _ _)) by lia).
      rewrite Eu in *. cbn [length] in Hle1. apply wp_bind, wp_skip; [lia|]. apply wp_bind, wp_put; [fields; lia|].
      assert (E : consume n [c] false d = _) by (unfold consume; rewrite orb_false_r; reflexivity).
      fields. rewrite <-E. by apply Hagain.
  - intros Hone Hlt. apply wp_ret. by apply moved_ended.
Qed.

(** ** The handlers of the partial sequence *)

(** The head of the buffer is where the decoder waits or was stopped: a byte that
    starts no sequence, a sequence that is not complete or one that is ill-formed. *)
Definition stuck (size : nat) (buffer : list Z) : bool :=
  match buffer with
  | [] => false
  | p0 :: _ =>
      let n := nonASCIISequenceLength p0 in
      negb (isASCII p0) &&
      ((n =? 0)%nat || (size <? n)%nat || match sequenceAt n buffer with inl _ => false | inr _ => true end)
  end.

(** The buffer begins with a sequence that is not complete and that what follows
    completes to a well-formed one, if it does. *)
Definition exactSeam (d : Decoding) : Prop :=
  partialSize d ≠ 0%nat →
  match partial d with
  | [] => False
  | p0 :: _ =>
      isASCII p0 = false ∧ nonASCIISequenceLength p0 ≠ 0%nat ∧ (partialSize d ≤ nonASCIISequenceLength p0)%nat ∧
      ∀ u m, decodeOne (whole d) ≠ Some (u, m, true)
  end.

Lemma pendingBytes_length B d : ok B d → length (pendingBytes d) = partialSize d.
Proof. intros []. unfold pendingBytes. rewrite length_take. lia. Qed.

Lemma pendingBytes_head d p0 rest :
  partial d = p0 :: rest → partialSize d ≠ 0%nat → pendingBytes d = p0 :: take (partialSize d - 1) rest.
Proof. intros E Hs. unfold pendingBytes. rewrite E. destruct (partialSize d); [done|]. cbn. by rewrite Nat.sub_0_r. Qed.

(** The sequence at the head of the buffer, once it is complete. *)
Lemma partial_sequence B d p0 rest :
  ok B d → partial d = p0 :: rest → isASCII p0 = false → nonASCIISequenceLength p0 ≠ 0%nat →
  (nonASCIISequenceLength p0 ≤ partialSize d)%nat →
  ∃ c n, decodeNonASCIISequence (partial d) (nonASCIISequenceLength p0) = Some (c, n) ∧ headSequence (whole d) (c, n) ∧
    (1 ≤ n ≤ nonASCIISequenceLength p0)%nat ∧
    (c = nonCharacter → match sequenceAt (nonASCIISequenceLength p0) (partial d) with inl _ => False | inr _ => True end) ∧
    (c ≠ nonCharacter → n = nonASCIISequenceLength p0).
Proof.
  intros Hok E Ha Hn Hle. pose proof (ok_partial_bytes _ _ Hok) as Hb. rewrite E in Hb. apply Forall_cons in Hb as [Hb _].
  pose proof (ok_partial _ _ Hok) as Hlen. pose proof (ok_size _ _ Hok). assert (Hl4 : (nonASCIISequenceLength p0 ≤ length (p0 :: rest))%nat) by (rewrite <-E; lia).
  assert (Hs : partialSize d ≠ 0%nat) by lia. pose proof (pendingBytes_length _ _ Hok) as Hpl. rewrite (pendingBytes_head _ _ _ E Hs) in Hpl.
  destruct (headSequence_decode p0 rest Hb Ha Hn Hl4) as ([c n] & Ed & Hr & Hrange). cbn [snd] in Hrange. exists c, n. rewrite E. split_and!; try done; try lia.
  - assert (Eone : decodeOne (whole d) = decodeOne (p0 :: rest)).
    { unfold whole. rewrite (pendingBytes_head _ _ _ E Hs). rewrite decodeOne_app by (done || lia).
      rewrite <-(decodeOne_app p0 _ (drop (partialSize d - 1) rest)) by (done || lia). cbn [app]. by rewrite take_drop. }
    unfold headSequence in *. by rewrite Eone.
  - intros ->. rewrite (decodeNonASCII_ok p0 rest Hb Ha Hn Hl4) in Ed. pose proof (sequenceAt_range p0 rest Hb Hn Hl4) as Hrg.
    destruct (sequenceAt _ _) as [c|k]; [|done]. injection Ed as Ec _. unfold nonCharacter in Ec. lia.
  - intros Hne. rewrite (decodeNonASCII_ok p0 rest Hb Ha Hn Hl4) in Ed. destruct (sequenceAt _ _); congruence.
Qed.

(** Completing the sequence from the source. *)
Lemma complete_ok B d p0 rest (Q : unit → Decoding → Prop) :
  ok B d → partial d = p0 :: rest → partialSize d ≠ 0%nat →
  (partialSize d < nonASCIISequenceLength p0 → nonASCIISequenceLength p0 - partialSize d ≤ length (source d))%nat →
  (∀ d1 rest1, ok B d1 → partial d1 = p0 :: rest1 → (nonASCIISequenceLength p0 ≤ partialSize d1)%nat → (partialSize d ≤ partialSize d1)%nat →
    (partialSize d ≤ nonASCIISequenceLength p0 → partialSize d1 = nonASCIISequenceLength p0)%nat →
    (partialSize d < partialSize d1 → length (source d1) < length (source d))%nat →
    whole d1 = whole d → written d1 = written d → sawError d1 = sawError d → (source d = [] → source d1 = []) →
    Q tt d1) →
  wp (if (partialSize d <? nonASCIISequenceLength p0)%nat
      then fill (nonASCIISequenceLength p0 - partialSize d);; skip (nonASCIISequenceLength p0 - partialSize d) else mret tt) Q d.
Proof.
  intros Hok E Hs Hleft HQ. pose proof (ok_partial_bytes _ _ Hok) as Hb. rewrite E in Hb. apply Forall_cons in Hb as [Hb _].
  pose proof (sequenceLength_cases p0 Hb). destruct (Nat.ltb_spec (partialSize d) (nonASCIISequenceLength p0)) as [Hlt|Hge].
  - set (n := (nonASCIISequenceLength p0 - partialSize d)%nat) in *. specialize (Hleft Hlt).
    destruct (moved_ok B n d Hok) as (Hok1 & Hw & _); [lia..|].
    apply wp_bind, wp_fill; [lia..|]. apply wp_skip; [cbn; lia|]. fold (moved n d). apply (HQ (moved n d) (tail (partial (moved n d)))); try done.
    + cbn. rewrite E. destruct (partialSize d); done.
    + cbn. lia.
    + cbn. lia.
    + cbn. lia.
    + cbn. rewrite length_drop. lia.
    + intros Enil. cbn. by rewrite Enil, drop_nil.
  - apply wp_ret. eapply HQ; try done; lia.
Qed.

(** A state in which a call may end. *)
Record settled (B : nat) (d : Decoding) : Prop := mkSettled {
  settled_partial : length (partial d) = 4%nat;
  settled_size : (partialSize d ≤ 4)%nat;
  settled_bytes : Forall isByte (partial d);
  settled_units : Forall isUnit (written d);
  settled_room : (length (written d) + partialSize d ≤ B)%nat;
  settled_stuck : partialSize d = 0%nat ∨ stuck (partialSize d) (partial d) = true;
}.

Lemma ok_settled B d : ok B d → partialSize d = 0%nat ∨ stuck (partialSize d) (partial d) = true → settled B d.
Proof. intros [] ?. constructor; done || lia. Qed.

Definition result (d : Decoding) : list Z * bool * list Z := (written d, sawError d, pendingBytes d).

(** Not enough is left to complete the sequence: it is kept. *)
Lemma filled_settled B d p0 rest :
  ok B d → partial d = p0 :: rest → partialSize d ≠ 0%nat → isASCII p0 = false →
  (partialSize d + length (source d) < nonASCIISequenceLength p0)%nat →
  settled B (filled (length (source d)) d) ∧ result (filled (length (source d)) d) = outcome d ∧
  (partialSize d + length (source d) ≤ 4)%nat ∧ decodeOne (whole d) = None.
Proof.
  intros Hok E Hs Ha Hlt. pose proof (ok_partial_bytes _ _ Hok) as Hb. rewrite E in Hb. apply Forall_cons in Hb as [Hb _].
  pose proof (sequenceLength_cases p0 Hb). destruct (filled_partial B (length (source d)) d Hok) as (Hl & Hbs & Hp); [lia..|].
  pose proof (pendingBytes_length _ _ Hok) as Hpl. assert (Hone : decodeOne (whole d) = None).
  { unfold whole. rewrite (pendingBytes_head _ _ _ E Hs) in *. unfold decodeOne. cbn [app]. rewrite Ha.
    rewrite (proj2 (Nat.eqb_neq _ _)), (proj2 (Nat.ltb_lt _ _)); [done| |lia]. cbn in *. rewrite length_app. lia. }
  split_and!; [|..|lia|done].
  - constructor; [done|cbn; lia|done|by destruct Hok|pose proof (ok_room _ _ Hok); cbn; lia|]. right. cbn. rewrite E.
    destruct (partialSize d) as [|k] eqn:Ek; [done|]. unfold stuck. cbn [take app]. rewrite Ha.
    by rewrite (proj2 (Nat.ltb_lt (S k + length (source d)) _)), orb_true_r by lia.
  - unfold outcome, result. rewrite (decodeAll_stop _ Hone), Hp, take_ge by done. unfold prefixed. cbn.
    by rewrite app_nil_r, orb_false_r.
Qed.

Lemma wp_dropPartial n Q d :
  (n ≤ partialSize d)%nat → Q tt (set_partial (partialSize d - n) (partial d) d) → wp (dropPartial n) Q d.
Proof. intros Hle HQ. unfold wp, dropPartial, modifyOpt. by rewrite (proj2 (Nat.leb_le _ _) Hle). Qed.

Definition shifted (n : nat) (d : Decoding) : Decoding :=
  let size := (partialSize d - n)%nat in set_partial size (take size (drop n (partial d)) ++ drop size (partial d)) d.

Lemma wp_shiftPartial n Q d : (n ≤ partialSize d)%nat → Q tt (shifted n d) → wp (shiftPartial n) Q d.
Proof. intros Hle HQ. unfold wp, shiftPartial, modifyOpt. by rewrite (proj2 (Nat.leb_le _ _) Hle). Qed.

(** Some waiting bytes give some code units, their rest is moved to the front or not. *)
Definition emitted (n : nat) (buffer units : list Z) (e : bool) (d : Decoding) : Decoding :=
  mkDecoding (partialSize d - n) buffer (source d) (offset d) (written d ++ units) (sawError d || e).

Lemma ok_emitted B n buffer units e d :
  ok B d → (n ≤ partialSize d)%nat → (length units ≤ n)%nat → Forall isUnit units →
  buffer = partial d ∨ buffer = partial (shifted n d) → ok B (emitted n buffer units e d).
Proof.
  intros [] Hn Hu Hunits Hbuf. assert (length buffer = 4%nat ∧ Forall isByte buffer) as [Hl Hb].
  { destruct Hbuf as [-> | ->]; [done|]. cbn. split; [rewrite length_app, length_take, !length_drop; lia|].
    apply Forall_app_2; [by apply Forall_take, Forall_drop|by apply Forall_drop]. }
  constructor; unfold emitted; fields; try done; try lia.
  - by apply Forall_app.
  - rewrite length_app. lia.
Qed.

(** A whole sequence that is the buffer. *)
Lemma outcome_emitted B n buffer units e d :
  ok B d → decodeOne (whole d) = Some (units, n, e) → n = partialSize d → outcome (emitted n buffer units e d) = outcome d.
Proof.
  intros Hok E ->. unfold outcome. assert (Hb : Forall isByte (whole d)).
  { destruct Hok. apply Forall_app_2; [by apply Forall_take|done]. }
  rewrite (decodeAll_step _ _ _ _ Hb E), prefixed_prefixed. unfold emitted, whole, pendingBytes. fields. rewrite Nat.sub_diag, take_0.
  cbn [app]. do 2 f_equal. rewrite <-(pendingBytes_length _ _ Hok) at 1. unfold pendingBytes. by rewrite drop_app_length.
Qed.

(** A complete sequence the decoder is stuck at is ill-formed. *)
Lemma stuck_ill_formed B d p0 rest :
  ok B d → partial d = p0 :: rest → isASCII p0 = false → nonASCIISequenceLength p0 ≠ 0%nat → (nonASCIISequenceLength p0 ≤ partialSize d)%nat →
  match sequenceAt (nonASCIISequenceLength p0) (p0 :: rest) with inl _ => False | inr _ => True end →
  ∃ m, decodeOne (whole d) = Some ([replacementCharacter], m, true).
Proof.
  intros Hok E Ha Hn Hge Hseq. destruct (partial_sequence B d p0 rest Hok E Ha Hn Hge) as (c & n & Ed & Hr & _ & _ & Hgood).
  unfold headSequence in Hr. cbn [fst snd] in Hr. destruct (c =? nonCharacter) eqn:Ec; [destruct Hr as (k & _ & _ & ?); eauto|].
  exfalso. pose proof (ok_partial_bytes _ _ Hok) as Hb. pose proof (ok_partial _ _ Hok) as Hl. pose proof (ok_size _ _ Hok).
  rewrite E in Hb, Hl, Ed. apply Forall_cons in Hb as [Hb _]. rewrite decodeNonASCII_ok in Ed by (done || lia).
  destruct (sequenceAt _ _); [done|]. injection Ed as <- _. done.
Qed.

(** How the handler for 8-bit characters ends. *)
Definition handled8 (flush : bool) (B : nat) (d : Decoding) (up : bool) (d' : Decoding) : Prop :=
  if up then
    ok B d' ∧ written d' = written d ∧ sawError d' = sawError d ∧ (partialSize d ≤ partialSize d')%nat ∧
    whole d' = whole d ∧ (source d = [] → source d' = []) ∧ (exactSeam d → exactSeam d')
  else
    (partialSize d' = 0%nat ∧ ok L d' ∧ outcome d' = outcome d ∧ (source d = [] → source d' = [])) ∨
    (flush = false ∧ partialSize d' ≠ 0%nat ∧ settled B d' ∧ result d' = outcome d).

Lemma handle8_ok fuel flush B d :
  ok B d → (B ≤ capacity)%nat → (length (written d) + length (source d) ≤ L)%nat → (L ≤ capacity)%nat → partialSize d ≠ 0%nat →
  stuck (partialSize d) (partial d) = true → wp (handlePartialSequence8 (S fuel) capacity flush) (handled8 flush B d) d.
Proof.
  intros Hok HB HL HLc Hs Hstuck. destruct (partial d) as [|p0 rest] eqn:E; [done|]. unfold stuck in Hstuck. apply andb_true_iff in Hstuck as [Ha Hst].
  apply negb_true_iff in Ha. cbn [handlePartialSequence8]. apply wp_bind, wp_lift with (a := p0); [by rewrite E|]. rewrite Ha.
  destruct (Nat.eqb_spec (nonASCIISequenceLength p0) 0) as [E0|Hn]; [by apply wp_ret|].
  cbn [orb] in Hst.
  apply wp_bind, wp_gets. apply wp_bind, wp_gets. cbn [compose].
  destruct ((partialSize d <? nonASCIISequenceLength p0)%nat && (length (source d) <? nonASCIISequenceLength p0 - partialSize d)%nat) eqn:Elow.
  { apply andb_true_iff in Elow as [E1%Nat.ltb_lt E2%Nat.ltb_lt].
    destruct (filled_settled B d p0 rest Hok E Hs Ha) as (Hset & Hres & H4 & _); [lia|].
    destruct flush; cbn [negb]; [by apply wp_ret|]. apply wp_bind, wp_fill; [done|lia|]. apply wp_ret. right. split_and!; try done. cbn. lia. }
  apply wp_bind. eapply complete_ok; [done..| |].
  { intros Hlt. rewrite (proj2 (Nat.ltb_lt _ _) Hlt) in Elow. apply Nat.ltb_ge in Elow. lia. }
  intros d1 rest1 Hok1 E1 Hle1 Hge1 Hsz1 Hsrc1 Hw1 Hwr1 Herr1 Hnil1. apply wp_bind, wp_gets.
  destruct (partial_sequence B d1 p0 rest1 Hok1 E1 Ha Hn Hle1) as (c & n & Ed & Hr & Hn1 & Hbad & Hgood).
  apply wp_bind, wp_lift' with (a := (c, n)); [done|].
  assert (Hup : handled8 flush B d true d1).
  { split_and!; try done. intros Hex. unfold exactSeam in *. rewrite E in Hex. rewrite E1. destruct (Hex Hs) as (Ha' & Hn' & Hle' & Hnoerr).
    intros _. split_and!; [done..|by rewrite (Hsz1 Hle')|by rewrite Hw1]. }
  destruct (c =? nonCharacter) eqn:Ec; [by apply wp_ret|]. cbn [orb]. destruct (Z.ltb_spec 255 c) as [|Hc]; [by apply wp_ret|].
  rewrite (Hgood (proj1 (Z.eqb_neq _ _) Ec)) in *. unfold headSequence in Hr. cbn [fst snd] in Hr. rewrite Ec in Hr.
  destruct Hr as (Hcr & Hsur & Hone). assert (Eu : codeUnits c = [c]) by (unfold codeUnits, U_IS_BMP; by rewrite (proj2 (Z.leb_le _ _)) by lia).
  rewrite Eu in *.
  assert (Hlt : (partialSize d < nonASCIISequenceLength p0)%nat).
  { destruct (Nat.ltb_spec (partialSize d) (nonASCIISequenceLength p0)) as [|Hge]; [done|].
    destruct (stuck_ill_formed B d p0 rest Hok E Ha Hn Hge) as (m & Hm).
    - cbn [orb] in Hst. by destruct (sequenceAt _ (p0 :: rest)).
    - rewrite <-Hw1, Hone in Hm. by injection Hm. }
  specialize (Hsz1 ltac:(lia)). specialize (Hsrc1 ltac:(lia)). pose proof (ok_room _ _ Hok1). pose proof (ok_offset _ _ Hok1).
  apply wp_bind, wp_dropPartial; [lia|]. apply wp_bind, wp_put; [fields; rewrite Hwr1; lia|].
  assert (Eem : emitted (nonASCIISequenceLength p0) (partial d1) [c] false d1 = _) by (unfold emitted; rewrite orb_false_r; reflexivity).
  fields. rewrite <-Eem. apply wp_bind, wp_gets. unfold emitted at 1. fields. rewrite Hsz1, Nat.sub_diag. cbn [Nat.eqb]. apply wp_ret.
  pose proof (outcome_emitted B (nonASCIISequenceLength p0) (partial d1) [c] false d1 Hok1 Hone (eq_sym Hsz1)) as Hout.
  left. split; [unfold emitted; fields; lia|]. split; [|split; [rewrite Hout; unfold outcome; by rewrite Hw1, Hwr1, Herr1|done]].
  assert (Hokem : ok B (emitted (nonASCIISequenceLength p0) (partial d1) [c] false d1)).
  { apply ok_emitted; [done|lia|cbn [length]; lia|apply Forall_singleton; unfold isUnit; lia|by left]. }
  destruct Hokem. constructor; try done. unfold emitted. fields. rewrite length_app, Hwr1. cbn [length]. lia.
Qed.

(** How the handler for 16-bit characters ends. *)
Definition handled16 (flush stopOnError : bool) (B : nat) (d d' : Decoding) : Prop :=
  (source d = [] → source d' = []) ∧
  ((partialSize d' = 0%nat ∧ ok B d' ∧ (stopOnError = false → exactSeam d → final flush d' = final flush d)) ∨
   (partialSize d' ≠ 0%nat ∧ settled B d' ∧ flush && negb stopOnError = false ∧
    (stopOnError = false → exactSeam d → result d' = final flush d))).

(** After a turn that leads from [d] to [d1], the rest of the loop. *)
Definition turned (flush stopOnError : bool) (B : nat) (d d1 : Decoding) : Prop :=
  ok B d1 ∧ (partialSize d1 + length (source d1) < partialSize d + length (source d))%nat ∧ (source d = [] → source d1 = []) ∧
  (stopOnError = false → exactSeam d → partialSize d1 = 0%nat ∧ final flush d1 = final flush d).

Lemma handled16_turn flush stopOnError B d d1 d' :
  turned flush stopOnError B d d1 → partialSize d1 ≠ 0%nat → handled16 flush stopOnError B d1 d' → handled16 flush stopOnError B d d'.
Proof.
  intros (Hok & _ & Hnil & Hex) Hs [Hnil' Hend]. split; [naive_solver|].
  destruct Hend as [(? & ? & ?)|(? & ? & ? & ?)]; [left|right]; split_and!; try done; intros Hstop Hseam; by destruct (Hex Hstop Hseam).
Qed.

Lemma handled16_done flush stopOnError B d d1 :
  turned flush stopOnError B d d1 → partialSize d1 = 0%nat → handled16 flush stopOnError B d d1.
Proof. intros (Hok & _ & Hnil & Hex) Hs. split; [done|]. left. split_and!; [done..|]. intros Hstop Hseam. by apply Hex. Qed.

(** A turn that emits the bytes of an error or of a character. *)
Lemma turned_emitted flush stopOnError B d d1 n buffer units e :
  ok B d1 → (partialSize d1 + length (source d1) ≤ partialSize d + length (source d))%nat → (source d = [] → source d1 = []) →
  (1 ≤ n ≤ partialSize d1)%nat → (length units ≤ n)%nat → Forall isUnit units →
  buffer = partial d1 ∨ buffer = partial (shifted n d1) →
  (stopOnError = false → exactSeam d → n = partialSize d1 ∧ decodeOne (whole d1) = Some (units, n, e) ∧ outcome d1 = outcome d) →
  turned flush stopOnError B d (emitted n buffer units e d1).
Proof.
  intros Hok Hsz Hnil Hn Hu Hunits Hbuf Hex. split_and!.
  - apply ok_emitted; done || lia.
  - unfold emitted. fields. lia.
  - done.
  - intros Hstop Hseam. destruct (Hex Hstop Hseam) as (En & Hone & Hout). split; [unfold emitted; fields; lia|].
    unfold final. by rewrite (outcome_emitted B n buffer units e d1 Hok Hone En), Hout.
Qed.

(** Flushing an incomplete sequence. *)
Lemma turned_flushed stopOnError B d p0 rest :
  ok B d → partial d = p0 :: rest → partialSize d ≠ 0%nat → isASCII p0 = false →
  (partialSize d + length (source d) < nonASCIISequenceLength p0)%nat →
  turned true stopOnError B d
    (mkDecoding 0 (partial d) (drop (length (source d)) (source d)) (offset d + length (source d)) (written d ++ [replacementCharacter]) true).
Proof.
  intros Hok E Hs Ha Hlt. destruct (filled_settled B d p0 rest Hok E Hs Ha Hlt) as (_ & _ & _ & Hone).
  pose proof (ok_room _ _ Hok). pose proof (ok_offset _ _ Hok). rewrite drop_all. split_and!.
  - destruct Hok. constructor; fields; try done; cbn [length]; try lia; [by apply Forall_app_2, Forall_singleton|rewrite length_app; cbn; lia].
  - fields. cbn. lia.
  - done.
  - intros _ _. split; [done|]. unfold final, outcome. rewrite (decodeAll_stop _ Hone). unfold whole, pendingBytes. fields.
    rewrite take_0. cbn [app]. change (decodeAll []) with (([], false, []) : list Z * bool * list Z). unfold prefixed, flushed. cbn [fst snd].
    rewrite bool_decide_eq_true_2 by done. rewrite !andb_false_r, bool_decide_eq_false_2; [by rewrite !app_nil_r|].
    intros [Hp _]%app_eq_nil. pose proof (pendingBytes_length _ _ Hok) as Hl. unfold pendingBytes in Hl. rewrite Hp in Hl. done.
Qed.

(** The turn at a sequence that can be completed. *)
Lemma completeTurn (again : M Decoding unit) flush stopOnError B d p0 rest :
  ok B d → (B ≤ capacity)%nat → partial d = p0 :: rest → partialSize d ≠ 0%nat → isASCII p0 = false → nonASCIISequenceLength p0 ≠ 0%nat →
  (partialSize d < nonASCIISequenceLength p0 → nonASCIISequenceLength p0 - partialSize d ≤ length (source d))%nat →
  (∀ d1, turned flush stopOnError B d d1 → wp again (λ _, handled16 flush stopOnError B d) d1) →
  wp ((if (partialSize d <? nonASCIISequenceLength p0)%nat
       then fill (nonASCIISequenceLength p0 - partialSize d);; skip (nonASCIISequenceLength p0 - partialSize d) else mret tt);;
      buf ← gets partial;
      '(character, count) ← lift (decodeNonASCIISequence buf (nonASCIISequenceLength p0));
      if character =? nonCharacter then
        modify set_error;;
        if stopOnError then mret tt
        else put capacity replacementCharacter;; shiftPartial count;; again
      else dropPartial count;; appendCharacter capacity character;; again) (λ _, handled16 flush stopOnError B d) d.
Proof.
  intros Hok HB E Hs Ha Hn Hleft Hagain.
  apply wp_bind. eapply complete_ok; [done..|].
  intros d1 rest1 Hok1 E1 Hle1 Hge1 Hsz1 Hsrc1 Hw1 Hwr1 Herr1 Hnil1. apply wp_bind, wp_gets.
  destruct (partial_sequence B d1 p0 rest1 Hok1 E1 Ha Hn Hle1) as (c & n & Ed & Hr & Hn1 & Hbad & Hgood).
  apply wp_bind, wp_lift' with (a := (c, n)); [done|].
  assert (Hsum : (partialSize d1 + length (source d1) = partialSize d + length (source d))%nat).
  { rewrite <-(pendingBytes_length _ _ Hok1), <-(pendingBytes_length _ _ Hok), <-!length_app. by f_equal. }
  assert (Hout1 : outcome d1 = outcome d) by (unfold outcome; by rewrite Hw1, Hwr1, Herr1).
  pose proof (ok_room _ _ Hok1). unfold headSequence in Hr. cbn [fst snd] in Hr. destruct (c =? nonCharacter) eqn:Ec.
  - destruct Hr as (k & Hk & Ek & Hone). assert (k = n) as -> by (subst k; destruct n; [lia|done]). apply wp_bind, wp_modify. destruct stopOnError.
    { apply wp_ret. split; [done|]. right. split_and!; [fields; lia| |by rewrite andb_false_r|done]. apply ok_settled; [by apply ok_set_error|].
      right. fields. apply Z.eqb_eq in Ec. specialize (Hbad Ec). rewrite E1 in Hbad |- *. unfold stuck. rewrite Ha.
      destruct (sequenceAt _ _); [done|]. by rewrite orb_true_r. }
    apply wp_bind, wp_put; [fields; lia|]. apply wp_bind, wp_shiftPartial; [fields; lia|].
    assert (Ht : turned flush false B d (emitted n (partial (shifted n d1)) [replacementCharacter] true d1)).
    { apply turned_emitted; [done|lia|done|lia|cbn; lia|by apply Forall_singleton|by right|]. intros _ Hex. unfold exactSeam in Hex.
      rewrite E in Hex. destruct (Hex Hs) as (_ & _ & _ & Hnoerr). rewrite Hw1 in Hone. by destruct (Hnoerr _ _ Hone). }
    unfold emitted in Ht. rewrite orb_true_r in Ht. by apply Hagain.
  - rewrite (Hgood (proj1 (Z.eqb_neq _ _) Ec)) in *. destruct Hr as (Hc & Hsur & Hone).
    assert (Hu : (length (codeUnits c) ≤ nonASCIISequenceLength p0)%nat).
    { assert (Hbw : Forall isByte (whole d1)) by (destruct Hok1; apply Forall_app_2; [by apply Forall_take|done]).
      destruct (decodeOne_size _ _ _ _ Hbw Hone). lia. }
    apply wp_bind, wp_dropPartial; [lia|]. apply wp_bind, wp_appendCharacter; [done..|fields; lia|].
    assert (Ht : turned flush stopOnError B d (emitted (nonASCIISequenceLength p0) (partial d1) (codeUnits c) false d1)).
    { apply turned_emitted; [done|lia|done|lia|done|by apply scalar_units|by left|]. intros _ Hex. unfold exactSeam in Hex.
      rewrite E in Hex. destruct (Hex Hs) as (_ & _ & Hle & _). by rewrite Hsz1. }
    unfold emitted in Ht. rewrite orb_false_r in Ht. by apply Hagain.
Qed.

Lemma handle16_ok fuel flush stopOnError B d :
  ok B d → (B ≤ capacity)%nat → partialSize d ≠ 0%nat → (partialSize d + length (source d) ≤ fuel)%nat →
  wp (handlePartialSequence16 fuel capacity flush stopOnError) (λ _, handled16 flush stopOnError B d) d.
Proof.
  intros Hok HB. revert d Hok. induction fuel as [|fuel IH]; intros d Hok Hs Hfuel; [lia|].
  assert (Hagain : ∀ d1, turned flush stopOnError B d d1 →
    wp (size ← gets partialSize; if (size =? 0)%nat then mret tt else handlePartialSequence16 fuel capacity flush stopOnError)
      (λ _, handled16 flush stopOnError B d) d1).
  { intros d1 Ht. apply wp_bind, wp_gets. destruct (Nat.eqb_spec (partialSize d1) 0) as [E0|Hne].
    - apply wp_ret. by apply handled16_done.
    - eapply wp_mono; [apply IH; [apply Ht|done|destruct Ht as (_ & ? & _); lia]|]. intros ? d'. by apply handled16_turn. }
  destruct (partial d) as [|p0 rest] eqn:E; [pose proof (ok_partial _ _ Hok) as El; by rewrite E in El|].
  pose proof (ok_partial_bytes _ _ Hok) as Hb. rewrite E in Hb. apply Forall_cons in Hb as [Hb _]. pose proof (ok_room _ _ Hok) as Hroom.
  assert (Hno : isASCII p0 = true ∨ nonASCIISequenceLength p0 = 0%nat → ¬ exactSeam d).
  { intros Hp Hex. unfold exactSeam in Hex. rewrite E in Hex. destruct (Hex Hs) as (? & ? & _). destruct Hp; congruence. }
  cbn [handlePartialSequence16]. apply wp_bind, wp_lift with (a := p0); [by rewrite E|]. destruct (isASCII p0) eqn:Ha.
  { apply wp_bind, wp_put; [lia|]. apply wp_bind, wp_shiftPartial; [fields; lia|].
    assert (Ht : turned flush stopOnError B d (emitted 1 (partial (shifted 1 d)) [p0] false d)).
    { apply turned_emitted; [done|lia|done|lia|done|by apply Forall_singleton, ascii_isUnit|by right|]. intros _ Hex. destruct (Hno (or_introl eq_refl) Hex). }
    unfold emitted in Ht. rewrite orb_false_r in Ht. by apply Hagain. }
  destruct (Nat.eqb_spec (nonASCIISequenceLength p0) 0) as [E0|Hn].
  { apply wp_bind, wp_modify. destruct stopOnError.
    { apply wp_ret. split; [done|]. right. split_and!; [done| |by rewrite andb_false_r|done]. apply ok_settled; [by apply ok_set_error|].
      right. fields. rewrite E. cbn. by rewrite Ha, E0. }
    apply wp_bind, wp_put; [fields; lia|]. apply wp_bind, wp_shiftPartial; [fields; lia|].
    assert (Ht : turned flush false B d (emitted 1 (partial (shifted 1 d)) [replacementCharacter] true d)).
    { apply turned_emitted; [done|lia|done|lia|done|by apply Forall_singleton|by right|]. intros _ Hex. destruct (Hno (or_intror E0) Hex). }
    unfold emitted in Ht. rewrite orb_true_r in Ht. by apply Hagain. }
  apply wp_bind, wp_gets. apply wp_bind, wp_gets. cbn [compose].
  destruct ((partialSize d <? nonASCIISequenceLength p0)%nat && (length (source d) <? nonASCIISequenceLength p0 - partialSize d)%nat) eqn:Elow.
  { apply andb_true_iff in Elow as [E1%Nat.ltb_lt E2%Nat.ltb_lt].
    destruct (filled_settled B d p0 rest Hok E Hs Ha) as (Hset & Hres & H4 & _); [lia|]. destruct flush; cbn [negb].
    - apply wp_bind, wp_modify. destruct stopOnError.
      { apply wp_ret. split; [done|]. right. split_and!; [done| |done|done]. apply ok_settled; [by apply ok_set_error|]. right. fields. rewrite E.
        unfold stuck. rewrite Ha. by rewrite (proj2 (Nat.ltb_lt _ _) E1), orb_true_r. }
      apply wp_bind, wp_put; [fields; lia|]. apply wp_bind, wp_modify. apply wp_bind, wp_skip; [fields; lia|].
      fields. apply Hagain. eapply turned_flushed; done || lia.
    - apply wp_fill; [done|lia|]. split; [done|]. right. split_and!; [cbn; lia|done|done|]. intros _ _. by rewrite Hres. }
  eapply completeTurn; [done..| |done].
  intros Hlt. rewrite (proj2 (Nat.ltb_lt _ _) Hlt) in Elow. apply Nat.ltb_ge in Elow. lia.
Qed.

(** ** The loop over the chunk *)

(** A sequence the source has ended in waits for the next chunk. *)
Lemma waiting_head B d :
  ok B d → partialSize d ≠ 0%nat → decodeOne (pendingBytes d) = None →
  ∃ p0 rest, partial d = p0 :: rest ∧ isASCII p0 = false ∧ nonASCIISequenceLength p0 ≠ 0%nat ∧ (partialSize d < nonASCIISequenceLength p0)%nat.
Proof.
  intros Hok Hs Hone. destruct (partial d) as [|p0 rest] eqn:E; [pose proof (ok_partial _ _ Hok) as El; by rewrite E in El|].
  pose proof (pendingBytes_length _ _ Hok) as Hl. rewrite (pendingBytes_head _ _ _ E Hs) in Hone, Hl. exists p0, rest.
  unfold decodeOne in Hone. destruct (isASCII p0) eqn:Ha; [done|]. destruct (Nat.eqb_spec (nonASCIISequenceLength p0) 0); [done|].
  split_and!; try done. destruct (Nat.ltb_spec (length (p0 :: take (partialSize d - 1) rest)) (nonASCIISequenceLength p0)); [lia|].
  by destruct (sequenceAt _ _).
Qed.

Lemma waiting_stuck B d :
  ok B d → decodeOne (pendingBytes d) = None → partialSize d = 0%nat ∨ stuck (partialSize d) (partial d) = true.
Proof.
  intros Hok Hone. destruct (decide (partialSize d = 0%nat)) as [|Hs]; [by left|right].
  destruct (waiting_head B d Hok Hs Hone) as (p0 & rest & -> & Ha & Hn & Hlt). unfold stuck.
  by rewrite Ha, (proj2 (Nat.ltb_lt _ _) Hlt), orb_true_r.
Qed.

Lemma waiting_exactSeam B d : ok B d → decodeOne (pendingBytes d) = None → source d = [] → exactSeam d.
Proof.
  intros Hok Hone Hnil Hs. destruct (waiting_head B d Hok Hs Hone) as (p0 & rest & -> & Ha & Hn & Hlt).
  split_and!; [done..|lia|]. unfold whole. rewrite Hnil, app_nil_r. by rewrite Hone.
Qed.

Lemma waiting_outcome d : decodeOne (pendingBytes d) = None → source d = [] → outcome d = result d.
Proof.
  intros Hone Hnil. unfold outcome, result, whole. rewrite Hnil, app_nil_r, (decodeAll_stop _ Hone). unfold prefixed. cbn.
  by rewrite app_nil_r, orb_false_r.
Qed.

(** Nothing is left to flush. *)
Lemma final_result B flush d : ok B d → flush = false ∨ partialSize d = 0%nat → flushed flush (result d) = result d.
Proof.
  intros Hok [-> | Hs]; [done|]. unfold flushed, result, pendingBytes. cbn [snd]. rewrite Hs, take_0.
  rewrite bool_decide_eq_true_2 by done. by rewrite andb_false_r.
Qed.

(** How a call ends. *)
Definition finishes (flush stopOnError : bool) (B : nat) (d d' : Decoding) : Prop :=
  settled B d' ∧ (flush && negb stopOnError = true → partialSize d' = 0%nat) ∧
  (stopOnError = false → exactSeam d → result d' = final flush d).

Lemma ended_finishes flush stopOnError B d d' :
  ok B d' → ended stopOnError d d' → flush = false ∨ partialSize d' = 0%nat → finishes flush stopOnError B d d'.
Proof.
  intros Hok He Hf. split; [|split].
  - apply ok_settled; [done|]. destruct He as [(_ & ? & _)|[_ ?]]; [by eapply waiting_stuck|by left].
  - intros Hfl. destruct Hf as [-> |]; done.
  - intros -> _. destruct He as [(Hnil & Hone & Hout)|[? _]]; [|done]. unfold final. rewrite <-Hout, (waiting_outcome _ Hone Hnil).
    by rewrite (final_result B).
Qed.

(** With nothing left, the loop finds nothing. *)
Lemma ended_nil B stopOnError d d' :
  ok B d' → source d = [] → partialSize d = 0%nat → ended stopOnError d d' → partialSize d' = 0%nat.
Proof.
  intros Hok Hnil Hs [(Hnil' & Hone & Hout)|[_ ?]]; [|done]. rewrite (waiting_outcome _ Hone Hnil') in Hout.
  rewrite <-(pendingBytes_length _ _ Hok). change (pendingBytes d') with (result d').2. rewrite Hout.
  unfold outcome, whole, pendingBytes. by rewrite Hs, take_0, Hnil.
Qed.

Lemma exactSeam_zero d : partialSize d = 0%nat → exactSeam d.
Proof. intros Hs Hne. done. Qed.

Lemma finishes_step flush stopOnError B d d1 d' :
  (stopOnError = false → exactSeam d → exactSeam d1 ∧ final flush d1 = final flush d) →
  finishes flush stopOnError B d1 d' → finishes flush stopOnError B d d'.
Proof.
  intros Hstep (Hset & Hz & Hres). split_and!; [done..|]. intros Hstop Hex. destruct (Hstep Hstop Hex) as [Hex1 <-]. by apply Hres.
Qed.

Lemma outer16_ok fuel flush stopOnError B d :
  ok B d → (B ≤ capacity)%nat → (2 ≤ fuel)%nat ∨ (1 ≤ fuel)%nat ∧ source d = [] →
  wp (outer16 fuel capacity alignedEnd flush stopOnError) (λ _, finishes flush stopOnError B d) d.
Proof.
  intros Hok HB. revert d Hok. induction fuel as [|fuel IH]; intros d Hok Hfuel; [lia|].
  assert (Hbody : ∀ d1, ok B d1 → partialSize d1 = 0%nat → (source d = [] → source d1 = []) →
    (stopOnError = false → exactSeam d → final flush d1 = final flush d) →
    wp (left ← gets (length ∘ source); loop16 left capacity alignedEnd stopOnError;; size ← gets partialSize;
        if flush && negb (size =? 0)%nat then outer16 fuel capacity alignedEnd flush stopOnError else mret tt)
      (λ _, finishes flush stopOnError B d) d1).
  { intros d1 Hok1 Hs1 Hnil1 Hex1. apply wp_bind, wp_gets. cbn [compose].
    apply wp_bind. eapply wp_mono; [by apply loop16_ok|]. intros ? d2 [Hok2 He]. cbn beta.
    assert (Hstep : ∀ d', finishes flush stopOnError B d1 d' → finishes flush stopOnError B d d')
      by (intros d'; apply finishes_step; intros; split; [by apply exactSeam_zero|auto]).
    apply wp_bind, wp_gets. destruct flush; cbn [andb].
    2: { apply wp_ret, Hstep, ended_finishes; auto. }
    destruct (Nat.eqb_spec (partialSize d2) 0) as [Hs2|Hs2]; cbn [negb]; [apply wp_ret, Hstep, ended_finishes; auto|].
    assert (He' := He). destruct He' as [(Hnil2 & Hone2 & Hout2)|[_ ?]]; [|done].
    assert (1 ≤ fuel)%nat. { destruct Hfuel as [|[? Hnil]]; [lia|]. destruct Hs2. by eapply ended_nil; [| |apply Hs1|]; eauto. }
    eapply wp_mono; [apply IH; [done|by right]|]. intros ? d'. cbn beta. intros Hfin. apply Hstep. eapply finishes_step; [|done].
    intros _ _. split; [by eapply waiting_exactSeam|]. unfold final. by rewrite Hout2. }
  cbn [outer16]. apply wp_bind, wp_gets. destruct (Nat.eqb_spec (partialSize d) 0) as [Hs|Hs]; [by apply Hbody|].
  apply wp_bind, wp_gets. cbn [compose]. apply wp_bind. eapply wp_mono; [apply handle16_ok; [done..|pose proof (ok_size _ _ Hok); lia]|].
  intros ? d1 [Hnil [(Hs1 & Hok1 & Hex1)|(Hs1 & Hset & Hfl & Hres)]]; cbn beta; apply wp_bind, wp_gets.
  - rewrite Hs1. cbn [Nat.eqb]. by apply Hbody.
  - rewrite (proj2 (Nat.eqb_neq _ _) Hs1). apply wp_ret. split_and!; [done| |done]. by rewrite Hfl.
Qed.

(** How the part on 8-bit characters ends: the chunk is done, or the part on
    16-bit characters goes on from a state that has room for the rest. *)
Definition finishes8 (flush stopOnError : bool) (B : nat) (d : Decoding) (e : LoopExit) (d' : Decoding) : Prop :=
  match e with
  | LoopDone => finishes flush stopOnError B d d'
  | LoopUpConvert =>
      ∃ B', ok B' d' ∧ (B' ≤ B)%nat ∧ (B' ≤ partialSize d' + L)%nat ∧
        (stopOnError = false → exactSeam d → exactSeam d' ∧ final flush d' = final flush d)
  end.

Lemma settled_mono B B' d : (B ≤ B')%nat → settled B d → settled B' d.
Proof. intros Hle []. constructor; done || lia. Qed.

Lemma finishes8_step flush stopOnError B B1 d d1 e d' :
  (B1 ≤ B)%nat → (stopOnError = false → exactSeam d → exactSeam d1 ∧ final flush d1 = final flush d) →
  finishes8 flush stopOnError B1 d1 e d' → finishes8 flush stopOnError B d e d'.
Proof.
  intros HB Hstep. destruct e; cbn.
  - intros Hfin. eapply finishes_step; [done|]. destruct Hfin as (? & ? & ?). split_and!; [by eapply settled_mono|done..].
  - intros (B' & Hok & ? & ? & Hex). exists B'. split_and!; [done|lia|done|]. intros Hstop Hseam.
    destruct (Hstep Hstop Hseam) as [Hseam1 <-]. auto.
Qed.

Lemma outer8_ok fuel flush stopOnError B d :
  ok B d → (B ≤ capacity)%nat → (L ≤ B ≤ partialSize d + L)%nat → (length (written d) + length (source d) ≤ L)%nat →
  partialSize d = 0%nat ∨ stuck (partialSize d) (partial d) = true → (2 ≤ fuel)%nat ∨ (1 ≤ fuel)%nat ∧ source d = [] →
  wp (outer8 fuel capacity alignedEnd flush stopOnError) (finishes8 flush stopOnError B d) d.
Proof.
  intros Hok HB HBL. revert d B Hok HB HBL. induction fuel as [|fuel IH]; intros d B Hok HB HBL HL Hst Hfuel; [lia|].
  assert (Hbody : ∀ d1, ok L d1 → partialSize d1 = 0%nat → (source d = [] → source d1 = []) → final flush d1 = final flush d →
    wp (left ← gets (length ∘ source); e ← loop8 left capacity alignedEnd stopOnError;
        match e with
        | LoopDone => size ← gets partialSize;
            if flush && negb (size =? 0)%nat then outer8 fuel capacity alignedEnd flush stopOnError else mret LoopDone
        | LoopUpConvert => mret LoopUpConvert
        end) (finishes8 flush stopOnError B d) d1).
  { intros d1 Hok1 Hs1 Hnil1 Hex1. apply wp_bind, wp_gets. cbn [compose].
    apply wp_bind. eapply wp_mono; [apply (loop8_ok _ _ L); [done|lia|done..]|]. intros e d2 [Hok2 He]. cbn beta.
    assert (Hstep : ∀ e d', finishes8 flush stopOnError L d1 e d' → finishes8 flush stopOnError B d e d')
      by (intros e' d'; apply finishes8_step; [lia|]; intros; split; [by apply exactSeam_zero|auto]).
    destruct e; cbn [ended8] in He.
    2: { destruct He as [Hs2 Hout2]. apply wp_ret, Hstep. exists L. split_and!; [done|lia..|]. intros _ _. split; [by apply exactSeam_zero|].
         unfold final. by rewrite Hout2. }
    apply wp_bind, wp_gets. destruct flush; cbn [andb].
    2: { apply wp_ret, Hstep, ended_finishes; auto. }
    destruct (Nat.eqb_spec (partialSize d2) 0) as [Hs2|Hs2]; cbn [negb]; [apply wp_ret, Hstep, ended_finishes; auto|].
    assert (He' := He). destruct He' as [(Hnil2 & Hone2 & Hout2)|[_ ?]]; [|done].
    assert (1 ≤ fuel)%nat. { destruct Hfuel as [|[? Hnil]]; [lia|]. destruct Hs2. by eapply ended_nil; [| |apply Hs1|]; eauto. }
    pose proof (ok_room _ _ Hok2). eapply wp_mono; [apply (IH d2 L); [done|lia|lia|lia|by eapply waiting_stuck|by right]|].
    intros e' d'. intros Hfin. apply Hstep. eapply finishes8_step; [|intros _ _|done]; [done|].
    split; [by eapply waiting_exactSeam|]. unfold final. by rewrite Hout2. }
  cbn [outer8]. apply wp_bind, wp_gets. destruct (Nat.eqb_spec (partialSize d) 0) as [Hs|Hs].
  { apply Hbody; [|done..]. destruct Hok. constructor; done || lia. }
  destruct Hst as [|Hst]; [done|]. apply wp_bind, wp_gets. apply wp_bind.
  eapply wp_mono; [apply (handle8_ok _ _ B); [done..|lia|done|done]|]. intros up d1 Hh. cbn beta. destruct up; cbn [handled8] in Hh.
  - destruct Hh as (Hok1 & Hwr & Herr & Hsz & Hw & Hnil & Hex). apply wp_bind, wp_modify, wp_ret.
    assert (E : set_written (written d) d1 = d1) by (rewrite <-Hwr; by destruct d1). rewrite E.
    exists B. split_and!; [done|lia|lia|]. intros _ Hseam. split; [auto|]. unfold final, outcome. by rewrite Hw, Hwr, Herr.
  - apply wp_bind, wp_gets. destruct Hh as [(Hs1 & Hok1 & Hout & Hnil)|(-> & Hs1 & Hset & Hres)].
    + rewrite Hs1. cbn [Nat.eqb]. apply Hbody; [done..|unfold final; by rewrite Hout].
    + rewrite (proj2 (Nat.eqb_neq _ _) Hs1). by apply wp_ret.
Qed.

End Proofs.

(** ** The codec *)

(** The state of the codec between two chunks. *)
Record codec_wf (c : Codec) : Prop := mkCodecWf {
  codec_length : length (m_partialSequence c) = 4%nat;
  codec_size : (m_partialSequenceSize c ≤ 4)%nat;
  codec_bytes : Forall isByte (m_partialSequence c);
  codec_stuck : m_partialSequenceSize c = 0%nat ∨ stuck (m_partialSequenceSize c) (m_partialSequence c) = true;
}.

(** The bytes that wait. *)
Definition waiting (c : Codec) : list Z := take (m_partialSequenceSize c) (m_partialSequence c).

Lemma newCodec_wf : codec_wf newCodec.
Proof. constructor; [done|cbn; lia| |by left]. by repeat (apply Forall_cons; split). Qed.

(** The state in which a call starts. *)
Definition started (c : Codec) (bytes : list Z) : Decoding :=
  mkDecoding (m_partialSequenceSize c) (m_partialSequence c) bytes 0 [] false.

Lemma bufferLength_fits n : Z.of_nat n < 2 ^ 32 → bufferLength n = n.
Proof. intros Hn. unfold bufferLength. rewrite u32_small by lia. apply Nat2Z.id. Qed.

(** The lengths of the buffers, a character for each byte of the chunk and of a partial sequence, are not cut. *)
Definition fits (bytes : list Z) : Prop := Z.of_nat (length bytes) + 4 < 2 ^ 32.

Lemma decodeCall_ok `{Build} `{Machine} c bytes flush stopOnError :
  codec_wf c → Forall isByte bytes → fits bytes →
  ∃ c' text e, decode c bytes flush stopOnError = Some (c', text, e) ∧ codec_wf c' ∧
    Forall isUnit text ∧ (length text + m_partialSequenceSize c' ≤ m_partialSequenceSize c + length bytes)%nat ∧
    (flush && negb stopOnError = true → m_partialSequenceSize c' = 0%nat) ∧
    (stopOnError = false → exactSeam (started c bytes) → (text, e, waiting c') = final flush (started c bytes)).
Proof.
  intros [Hl4 Hs4 Hb4 Hst] Hb Hfit. unfold fits in Hfit. set (alignedEnd := sourceAddress + Z.of_nat (length bytes) - (sourceAddress + Z.of_nat (length bytes)) mod Z.of_nat wordSize).
  pose proof wordSize_pos as Hw.
  assert (Hal : isAligned alignedEnd = true).
  { unfold isAligned. apply Z.eqb_eq. subst alignedEnd. rewrite Zminus_mod_idemp_r, Z.sub_diag. apply Z.mod_0_l. lia. }
  assert (Hin : alignedEnd ≤ sourceAddress + Z.of_nat (length bytes)).
  { subst alignedEnd. pose proof (Z.mod_pos_bound (sourceAddress + Z.of_nat (length bytes)) (Z.of_nat wordSize)). lia. }
  assert (Hok : ok (length bytes) (m_partialSequenceSize c + length bytes) (started c bytes)) by (constructor; cbn; done || lia).
  assert (Hend : ∀ B d', (B ≤ m_partialSequenceSize c + length bytes)%nat → finishes flush stopOnError B (started c bytes) d' →
    codec_wf (mkCodec (partialSize d') (partial d')) ∧ Forall isUnit (written d') ∧ (length (written d') + partialSize d' ≤ m_partialSequenceSize c + length bytes)%nat ∧
    (flush && negb stopOnError = true → partialSize d' = 0%nat) ∧
    (stopOnError = false → exactSeam (started c bytes) → (written d', sawError d', waiting (mkCodec (partialSize d') (partial d'))) = final flush (started c bytes))).
  { intros B d' HB ([] & Hz & Hres). split; [by constructor|]. split_and!; done || lia. }
  pose proof (outer8_ok (length bytes) (m_partialSequenceSize c + length bytes) alignedEnd Hal Hin 2 flush stopOnError _ _ Hok) as H8.
  apply wp_elim in H8 as (e & d1 & E1 & H1); [|cbn; lia..|done|by left]. unfold decode. fold (started c bytes). fold alignedEnd. rewrite (bufferLength_fits (m_partialSequenceSize c + length bytes)) by lia.
  rewrite E1. cbn [mbind option_bind]. destruct e; cbn [finishes8] in H1.
  { do 3 eexists. split; [done|]. by eapply Hend. }
  destruct H1 as (B & Hok1 & HB & HBL & Hex). assert (Hs1 : (partialSize d1 ≤ 4)%nat) by (by destruct Hok1). rewrite (bufferLength_fits (partialSize d1 + length bytes)) by lia.
  pose proof (outer16_ok (length bytes) (partialSize d1 + length bytes) alignedEnd Hal Hin 2 flush stopOnError B d1 Hok1 HBL (or_introl (le_n 2))) as H16.
  apply wp_elim in H16 as ([] & d2 & E2 & H2). rewrite E2. cbn [mbind option_bind]. do 3 eexists. split; [done|].
  eapply Hend; [done|]. by eapply finishes_step.
Qed.
