(* ===== verification/UTF8Streams.v ===== *)
(** * The UTF-8 codec over a stream of chunks

    The calls of [TextCodecUTF8::decode] a page makes, one for each chunk of bytes
    it receives. They are safe whatever the bytes and the flags, in chunks that leave the
    length of the buffer within 32 bits; on one chunk that goes on well after the last one they compute the plain decoder; well-formed bytes decode to the same text
    however they are cut; and text that is encoded comes back. The last theorems
    say what the code does with larger chunks and at the seams of ill-formed bytes. *)

From S2P Require Import Prelude ASCIICType InputStreamPreprocessor HTMLEntityParser TextCodecUTF8 UTF8Decoding.

(** ** Cutting bytes in two *)

Lemma decodeOne_app_some a b r : Forall isByte a → decodeOne a = Some r → decodeOne (a ++ b) = Some r.
Proof.
  intros Hb. destruct a as [|s0 a]; [done|]. apply Forall_cons in Hb as [Hb _]. intros E.
  destruct (isASCII s0) eqn:Ha; [unfold decodeOne in *; cbn [app]; by rewrite Ha in *|].
  destruct (Nat.eqb_spec (nonASCIISequenceLength s0) 0) as [E0|Hn]; [unfold decodeOne in *; cbn [app]; by rewrite Ha, E0 in *|].
  destruct (Nat.ltb_spec (length (s0 :: a)) (nonASCIISequenceLength s0)) as [Hlt|Hge].
  - unfold decodeOne in E. by rewrite Ha, (proj2 (Nat.eqb_neq _ _) Hn), (proj2 (Nat.ltb_lt _ _) Hlt) in E.
  - by rewrite decodeOne_app.
Qed.

Lemma prefixed_nil r : prefixed [] false r = r.
Proof. by destruct r as [[? ?] ?]. Qed.

(** Induction along the characters of some bytes. *)
Lemma decode_ind (P : list Z → Prop) :
  (∀ bytes, Forall isByte bytes → decodeOne bytes = None → P bytes) →
  (∀ bytes units n e, Forall isByte bytes → decodeOne bytes = Some (units, n, e) → P (drop n bytes) → P bytes) →
  ∀ bytes, Forall isByte bytes → P bytes.
Proof.
  intros Hstop Hstep bytes. induction bytes as [bytes IH] using (well_founded_ind (Wf_nat.well_founded_ltof _ length)). intros Hb.
  destruct (decodeOne bytes) as [[[units n] e]|] eqn:E; [|by apply Hstop].
  eapply Hstep; [done..|]. apply IH; [|by apply Forall_drop]. unfold Wf_nat.ltof. rewrite length_drop.
  destruct (decodeOne_size _ _ _ _ Hb E). lia.
Qed.

Lemma decodeAll_tail bytes : Forall isByte bytes → decodeOne (decodeAll bytes).2 = None ∧ Forall isByte (decodeAll bytes).2.
Proof.
  revert bytes. apply decode_ind.
  - intros bytes Hb E. by rewrite (decodeAll_stop _ E).
  - intros bytes units n e Hb E IH. by rewrite (decodeAll_step _ _ _ _ Hb E).
Qed.

Lemma decodeAll_app a b :
  Forall isByte a → Forall isByte b →
  decodeAll (a ++ b) = prefixed (decodeAll a).1.1 (decodeAll a).1.2 (decodeAll ((decodeAll a).2 ++ b)).
Proof.
  intros Ha Hb. revert a Ha. apply decode_ind.
  - intros a Ha E. rewrite (decodeAll_stop _ E). cbn [fst snd]. by rewrite prefixed_nil.
  - intros a units n e Ha E IH. rewrite (decodeAll_step _ _ _ _ Ha E).
    rewrite (decodeAll_step (a ++ b) units n e); [|by apply Forall_app|by apply decodeOne_app_some].
    destruct (decodeOne_size _ _ _ _ Ha E). rewrite drop_app_le by lia. rewrite IH. cbn [fst snd prefixed].
    apply prefixed_prefixed.
Qed.

(** ** One chunk *)

Section Calls.
Context `{Build} `{Machine}.

(** The codec waits for the rest of a sequence, if for anything. *)
Definition ready (c : Codec) : Prop := codec_wf c ∧ decodeOne (waiting c) = None.

Lemma ready_new : ready newCodec.
Proof. split; [apply newCodec_wf|done]. Qed.

(** The sequence the chunk before ended in is continued to a well-formed one, or
    is not complete yet. *)
Definition goodSeam (c : Codec) (bytes : list Z) : Prop :=
  waiting c = [] ∨ ∀ u n, decodeOne (waiting c ++ bytes) ≠ Some (u, n, true).

Lemma ready_exactSeam c bytes : ready c → Forall isByte bytes → goodSeam c bytes → exactSeam (started c bytes).
Proof.
  intros [[Hl Hs Hb _] Hone] Hbytes Hgood Hne.
  assert (Hok : ok (length bytes) (m_partialSequenceSize c + length bytes) (started c bytes)) by (constructor; cbn; done || lia).
  destruct (waiting_head _ _ _ Hok Hne Hone) as (p0 & rest & E & Ha & Hn & Hlt). rewrite E. split_and!; [done..|lia|].
  destruct Hgood as [Hnil|Hgood]; [|done]. exfalso. apply Hne. cbn. unfold waiting in Hnil. apply (f_equal length) in Hnil.
  rewrite length_take in Hnil. cbn in Hnil. lia.
Qed.

Lemma decode_chunk c bytes flush :
  ready c → Forall isByte bytes → fits bytes → goodSeam c bytes →
  ∃ c' text e, decode c bytes flush false = Some (c', text, e) ∧ ready c' ∧
    (text, e, waiting c') = flushed flush (decodeAll (waiting c ++ bytes)).
Proof.
  intros Hc Hb Hfit Hgood. destruct (decodeCall_ok c bytes flush false (proj1 Hc) Hb Hfit) as (c' & text & e & E & Hwf & _ & _ & _ & Hres).
  specialize (Hres eq_refl (ready_exactSeam _ _ Hc Hb Hgood)). exists c', text, e. split; [done|].
  assert (Ef : (text, e, waiting c') = flushed flush (decodeAll (waiting c ++ bytes))).
  { rewrite Hres. unfold final, outcome. change (whole (started c bytes)) with (waiting c ++ bytes). by rewrite prefixed_nil. }
  split; [|done]. split; [done|]. assert (waiting c' = (flushed flush (decodeAll (waiting c ++ bytes))).2) as -> by (by rewrite <-Ef).
  unfold flushed. case_match; [done|]. apply decodeAll_tail. apply Forall_app. split; [|done].
  apply Forall_take. by destruct Hc as [[] _].
Qed.

(** ** Many chunks *)

(** The calls for the chunks of a page: the bytes and the two flags of each. *)
Fixpoint decodeCalls (c : Codec) (calls : list (list Z * bool * bool)) : option (Codec * list (list Z * bool)) :=
  match calls with
  | [] => Some (c, [])
  | (bytes, flush, stopOnError) :: calls =>
      '(c1, text, e) ← decode c bytes flush stopOnError;
      '(c2, texts) ← decodeCalls c1 calls;
      Some (c2, (text, e) :: texts)
  end.

Lemma decodeCalls_safe c calls :
  codec_wf c → Forall (λ call, Forall isByte call.1.1 ∧ fits call.1.1) calls →
  ∃ c' texts, decodeCalls c calls = Some (c', texts) ∧ codec_wf c' ∧ Forall (λ t, Forall isUnit t.1) texts ∧
    (length (concat texts.*1) + m_partialSequenceSize c' ≤ m_partialSequenceSize c + length (concat calls.*1.*1))%nat ∧
    (∀ call, last calls = Some call → call.1.2 && negb call.2 = true → m_partialSequenceSize c' = 0%nat).
Proof.
  revert c. induction calls as [|[[bytes flush] stop] calls IH]; intros c Hc Hb.
  { exists c, []. split_and!; [done..|cbn; lia|done]. }
  apply Forall_cons in Hb as [[Hb Hfit] Hbs]. destruct (decodeCall_ok c bytes flush stop Hc Hb Hfit) as (c1 & text & e & E & Hc1 & Hu & Hlen & Hz & _).
  destruct (IH c1 Hc1 Hbs) as (c2 & texts & E2 & Hc2 & Hus & Hlens & Hlast). exists c2, ((text, e) :: texts). cbn [decodeCalls].
  rewrite E. cbn [mbind option_bind]. rewrite E2. split_and!; [done..|by apply Forall_cons| |].
  - cbn. rewrite !length_app. lia.
  - destruct calls as [|call' calls]; [|done]. intros call [= <-]. cbn in E2. injection E2 as <- _. done.
Qed.

(** The calls for a page that arrives in chunks; the last one flushes. *)
Definition pageCalls (chunks : list (list Z)) (lastChunk : list Z) : list (list Z * bool * bool) :=
  ((λ bytes, (bytes, false, false)) <$> chunks) ++ [(lastChunk, true, false)].

(** The text of the page and whether there was an error. *)
Definition pageText (texts : list (list Z * bool)) : list Z * bool := (concat texts.*1, existsb id texts.*2).

(** Without an error behind it, every seam is good. *)
Lemma clean_goodSeam c bytes rest :
  ready c → Forall isByte bytes → Forall isByte rest → (decodeAll (waiting c ++ bytes ++ rest)).1.2 = false → goodSeam c bytes.
Proof.
  intros [[_ _ Hb _] _] Hbytes Hrest Hclean. right. intros u n E.
  assert (Hw : Forall isByte (waiting c ++ bytes)) by (apply Forall_app; split; [by apply Forall_take|done]).
  rewrite app_assoc, (decodeAll_step _ u n true) in Hclean; [done|by apply Forall_app|by apply decodeOne_app_some].
Qed.

Lemma decodePage c chunks lastChunk :
  ready c → Forall (Forall isByte) chunks → Forall isByte lastChunk → Forall fits (chunks ++ [lastChunk]) →
  (decodeAll (waiting c ++ concat chunks ++ lastChunk)).1.2 = false →
  ∃ c' texts, decodeCalls c (pageCalls chunks lastChunk) = Some (c', texts) ∧
    (pageText texts, waiting c') = flushed true (decodeAll (waiting c ++ concat chunks ++ lastChunk)).
Proof.
  intros Hc Hchunks Hlast. revert c Hc. induction Hchunks as [|bytes chunks Hb Hchunks IH]; intros c Hc [Hfit Hfits]%Forall_cons Hclean.
  - cbn [concat app] in *. destruct (decode_chunk c lastChunk true Hc Hlast Hfit) as (c' & text & e & E & _ & Hres).
    { eapply clean_goodSeam; [done..|apply Forall_nil_2|by rewrite app_nil_r]. }
    exists c', [(text, e)]. cbn [pageCalls fmap list_fmap app decodeCalls]. rewrite E. cbn [mbind option_bind]. split; [done|].
    unfold pageText. cbn. by rewrite app_nil_r, orb_false_r.
  - assert (Hrest : Forall isByte (concat chunks ++ lastChunk)) by (apply Forall_app; split; [by apply Forall_concat|done]).
    cbn [concat] in Hclean |- *. rewrite <-app_assoc in Hclean |- *.
    destruct (decode_chunk c bytes false Hc Hb Hfit) as (c1 & text & e & E & Hc1 & Hres); [by eapply clean_goodSeam|].
    cbn [flushed andb] in Hres. assert (Hw : Forall isByte (waiting c ++ bytes)) by (apply Forall_app; split; [apply Forall_take; by destruct Hc as [[] _]|done]).
    rewrite app_assoc, (decodeAll_app _ _ Hw Hrest), <-Hres in Hclean |- *. cbn [fst snd] in Hclean |- *. cbn in Hclean.
    apply orb_false_iff in Hclean as [-> Hclean]. destruct (IH c1 Hc1 Hfits Hclean) as (c' & texts & E' & Hres'). exists c', ((text, false) :: texts).
    change (pageCalls (bytes :: chunks) lastChunk) with ((bytes, false, false) :: pageCalls chunks lastChunk). cbn [decodeCalls].
    rewrite E. cbn [mbind option_bind]. rewrite E'. split; [done|]. revert Hres'. unfold pageText, flushed, prefixed. cbn.
    destruct (decodeAll _) as [[t e'] tail]. cbn. destruct (bool_decide (tail = [])); cbn; intros [= -> -> ->]; [done|].
    by rewrite app_assoc.
Qed.

End Calls.

(** ** Encoding *)

(** The bits of a leading or a continuing byte do not overlap. *)
Lemma lor_lead c k n : 0 ≤ c < 2 ^ n → 0 ≤ n → Z.lor c (k * 2 ^ n) = c + k * 2 ^ n.
Proof.
  intros Hc Hn. rewrite <-Z.add_lor_land. enough (Z.land c (k * 2 ^ n) = 0) as -> by (symmetry; apply Z.add_0_r). apply Z.bits_inj'. intros i Hi.
  rewrite Z.land_spec, Z.bits_0. destruct (Z.lt_ge_cases i n) as [Hlt|Hge].
  - rewrite Z.mul_pow2_bits_low by lia. apply andb_false_r.
  - rewrite <-(Z.mod_small c (2 ^ n)) by done. by rewrite Z.mod_pow2_bits_high by lia.
Qed.

Lemma continuation c : 0 ≤ c → u8 (Z.lor (Z.land c 63) 128) = c mod 64 + 128.
Proof.
  intros Hc. change 63 with (Z.ones 6). rewrite Z.land_ones by lia. change (2 ^ 6) with 64. pose proof (Z.mod_pos_bound c 64).
  change 128 with (2 * 2 ^ 6). rewrite lor_lead by lia. unfold u8. apply Z.mod_small. lia.
Qed.

Lemma leadByte c k n : 0 ≤ c < 2 ^ n → 0 ≤ n → 0 ≤ k → c + k * 2 ^ n < 256 → u8 (Z.lor c (k * 2 ^ n)) = c + k * 2 ^ n.
Proof. intros. rewrite lor_lead by lia. unfold u8. apply Z.mod_small. lia. Qed.

(** The bytes of a code point, in arithmetic. *)
Lemma U8_APPEND_spec c :
  0 ≤ c ≤ 1114111 →
  U8_APPEND_UNSAFE c =
    if c <=? 127 then [c]
    else if c <=? 2047 then [c / 64 + 192; c mod 64 + 128]
    else if c <=? 65535 then [c / 4096 + 224; c / 64 mod 64 + 128; c mod 64 + 128]
    else [c / 262144 + 240; c / 4096 mod 64 + 128; c / 64 mod 64 + 128; c mod 64 + 128].
Proof.
  intros Hc. unfold U8_APPEND_UNSAFE. rewrite !Z.shiftr_div_pow2 by lia. change (2 ^ 6) with 64. change (2 ^ 12) with 4096. change (2 ^ 18) with 262144.
  destruct (Z.leb_spec c 127); [f_equal; apply Z.mod_small; lia|].
  rewrite !continuation by (apply Z.div_pos || lia; lia).
  destruct (Z.leb_spec c 2047).
  { cbn [app]. f_equal. apply (leadByte _ 6 5); Z.to_euclidean_division_equations; lia. }
  destruct (Z.leb_spec c 65535); cbn [app]; f_equal.
  - apply (leadByte _ 14 4); Z.to_euclidean_division_equations; lia.
  - apply (leadByte _ 30 3); Z.to_euclidean_division_equations; lia.
Qed.

(** A code point that is not a surrogate is decoded from its bytes. *)
Lemma decodeOne_encoded c rest :
  0 ≤ c ≤ 1114111 → ¬ (55296 ≤ c < 57344) →
  decodeOne (U8_APPEND_UNSAFE c ++ rest) = Some (codeUnits c, length (U8_APPEND_UNSAFE c), false) ∧ Forall isByte (U8_APPEND_UNSAFE c).
Proof.
  intros Hc Hs. rewrite (U8_APPEND_spec c Hc). destruct (Z.leb_spec c 127).
  { unfold decodeOne. cbn [app]. rewrite isASCII_byte, (proj2 (Z.ltb_lt _ _)) by (unfold isByte; lia).
    split; [unfold codeUnits, U_IS_BMP; by rewrite (proj2 (Z.leb_le _ _)) by lia|]. apply Forall_singleton. unfold isByte. lia. }
  assert (Hlead : ∀ b, isByte b → 128 ≤ b → ∀ l, nonASCIISequenceLength b = l → l ≠ 0%nat → ∀ r, (l ≤ length (b :: r))%nat → ∀ v, sequenceAt l (b :: r) = inl v →
    decodeOne (b :: r) = Some (codeUnits v, l, false)).
  { intros b Hb H128 l <- Hl r Hr v Hv. unfold decodeOne. rewrite isASCII_byte by done. rewrite (proj2 (Z.ltb_ge _ _) H128).
    by rewrite (proj2 (Nat.eqb_neq _ _) Hl), (proj2 (Nat.ltb_ge _ _) Hr), Hv. }
  destruct (Z.leb_spec c 2047); [|destruct (Z.leb_spec c 65535)]; cbn [app length].
  - set (q := c / 64) in *. set (m := c mod 64) in *. assert (c = 64 * q + m ∧ 0 ≤ m < 64) as [Ec Hm] by (split; [by apply Z.div_mod|by apply Z.mod_pos_bound]).
    split; [|repeat (apply Forall_cons; split); unfold isByte; done || lia]. apply Hlead; [unfold isByte; lia|lia| |done|cbn; lia|].
    + rewrite sequenceLength_spec by (unfold isByte; lia). unfold lengthByRange. by rewrite !(proj2 (Z.leb_le _ _)) by lia.
    + unfold sequenceAt, continues. rewrite !(proj2 (Z.leb_le _ _)) by lia. cbn [andb]. f_equal. lia.
  - set (q := c / 4096) in *. set (m1 := c / 64 mod 64) in *. set (m0 := c mod 64) in *.
    assert (c = 4096 * q + 64 * m1 + m0 ∧ 0 ≤ m1 < 64 ∧ 0 ≤ m0 < 64) as (Ec & Hm1 & Hm0) by (subst q m1 m0; Z.to_euclidean_division_equations; lia).
    split; [|repeat (apply Forall_cons; split); unfold isByte; done || lia]. apply Hlead; [unfold isByte; lia|lia| |done|cbn; lia|].
    + rewrite sequenceLength_spec by (unfold isByte; lia). unfold lengthByRange.
      rewrite (proj2 (Z.leb_gt (q + 224) 223)), !(proj2 (Z.leb_le _ _)) by lia. by rewrite andb_false_r.
    + assert (Hsec : secondOk (q + 224) (m1 + 128) = true) by (unfold secondOk, continues; repeat (case_match; [lia|]); lia).
      unfold sequenceAt. rewrite Hsec. unfold continues. rewrite !(proj2 (Z.leb_le _ _)) by lia. cbn [andb]. f_equal. lia.
  - set (q := c / 262144) in *. set (m2 := c / 4096 mod 64) in *. set (m1 := c / 64 mod 64) in *. set (m0 := c mod 64) in *.
    assert (c = 262144 * q + 4096 * m2 + 64 * m1 + m0 ∧ 0 ≤ m2 < 64 ∧ 0 ≤ m1 < 64 ∧ 0 ≤ m0 < 64) as (Ec & Hm2 & Hm1 & Hm0)
      by (subst q m2 m1 m0; Z.to_euclidean_division_equations; lia).
    split; [|repeat (apply Forall_cons; split); unfold isByte; done || lia]. apply Hlead; [unfold isByte; lia|lia| |done|cbn; lia|].
    + rewrite sequenceLength_spec by (unfold isByte; lia). unfold lengthByRange.
      rewrite (proj2 (Z.leb_gt (q + 240) 223)), (proj2 (Z.leb_gt (q + 240) 239)), !(proj2 (Z.leb_le _ _)) by lia. by rewrite !andb_false_r.
    + assert (Hsec : secondOk (q + 240) (m2 + 128) = true) by (unfold secondOk, continues; repeat (case_match; [lia|]); lia).
      unfold sequenceAt. rewrite Hsec. unfold continues. rewrite !(proj2 (Z.leb_le _ _)) by lia. cbn [andb]. f_equal. lia.
Qed.

Lemma surrogate_half v base : 0 ≤ v → (Z.land v (Z.lnot 1023) =? base * 1024) = (base * 1024 <=? v) && (v <? base * 1024 + 1024).
Proof.
  intros Hv. change 1023 with (Z.ones 10). rewrite <-Z.ldiff_land, Z.ldiff_ones_r, Z.shiftl_mul_pow2, Z.shiftr_div_pow2 by lia.
  change (2 ^ 10) with 1024. pose proof (Z.div_mod v 1024 ltac:(lia)). pose proof (Z.mod_pos_bound v 1024 ltac:(lia)).
  destruct (Z.eqb_spec (v / 1024 * 1024) (base * 1024)) as [E|E], (Z.leb_spec (base * 1024) v), (Z.ltb_spec v (base * 1024 + 1024)); cbn; done || lia.
Qed.

Lemma pair_value lead trail :
  55296 ≤ lead < 56320 → 56320 ≤ trail < 57344 →
  65536 ≤ U16_GET_SUPPLEMENTARY lead trail ≤ 1114111 ∧ codeUnits (U16_GET_SUPPLEMENTARY lead trail) = [lead; trail].
Proof.
  intros Hl Ht. assert (E : U16_GET_SUPPLEMENTARY lead trail = (lead - 55296) * 1024 + (trail - 56320) + 65536).
  { unfold U16_GET_SUPPLEMENTARY. rewrite !Z.shiftl_mul_pow2 by lia. lia. }
  split; [lia|]. unfold codeUnits, U_IS_BMP. rewrite (proj2 (Z.leb_gt _ _)) by lia. rewrite lead_value, trail_value by lia.
  rewrite E. f_equal; [|f_equal]; Z.to_euclidean_division_equations; lia.
Qed.

(** The code points of a string are code points, and give it back. *)
Lemma codePoints_codeUnits string :
  Forall isUnit string → Forall (λ c, 0 ≤ c ≤ 1114111) (codePoints string) ∧ concat (codeUnits <$> codePoints string) = string.
Proof.
  assert (Hone : ∀ c, isUnit c → codeUnits c = [c] ∧ 0 ≤ c ≤ 1114111).
  { intros c Hc. unfold isUnit in Hc. split; [|lia]. unfold codeUnits, U_IS_BMP. by rewrite (proj2 (Z.leb_le _ _)) by lia. }
  induction string as [string IH] using (well_founded_ind (Wf_nat.well_founded_ltof _ length)). unfold Wf_nat.ltof in IH. intros Hu.
  destruct string as [|c rest]; [done|]. apply Forall_cons in Hu as [Hc Hu]. destruct (Hone c Hc) as [Ec Hr].
  destruct (IH rest) as [Hcp Hcu]; [cbn; lia|done|].
  assert (Hsingle : Forall (λ c, 0 ≤ c ≤ 1114111) (c :: codePoints rest) ∧ concat (codeUnits <$> c :: codePoints rest) = c :: rest).
  { split; [by apply Forall_cons|]. rewrite fmap_cons. cbn [concat]. by rewrite Ec, Hcu. }
  cbn [codePoints]. destruct (U16_IS_LEAD c) eqn:El; [|done]. destruct rest as [|c2 rest]; [done|].
  destruct (U16_IS_TRAIL c2) eqn:Et; [|done]. apply Forall_cons in Hu as [Hc2 Hu]. unfold isUnit in *.
  unfold U16_IS_LEAD in El. unfold U16_IS_TRAIL in Et. change 55296 with (54 * 1024) in El. change 56320 with (55 * 1024) in Et.
  rewrite surrogate_half in El, Et by lia. destruct (pair_value c c2) as [Hp Eu]; [lia..|].
  destruct (IH rest) as [Hcp2 Hcu2]; [cbn; lia|done|]. split; [apply Forall_cons; split; [lia|done]|]. rewrite fmap_cons. cbn [concat].
  by rewrite Eu, Hcu2.
Qed.

Lemma U8_length c : 0 ≤ c ≤ 1114111 → (length (U8_APPEND_UNSAFE c) ≤ 3 * length (codeUnits c))%nat.
Proof.
  intros Hc. rewrite U8_APPEND_spec by done. unfold codeUnits, U_IS_BMP.
  destruct (Z.leb_spec c 127), (Z.leb_spec c 2047), (Z.leb_spec c 65535); cbn [length]; lia.
Qed.

Lemma appendCodePoints_ok capacity bytes characters :
  (length bytes + length (concat (U8_APPEND_UNSAFE <$> characters)) ≤ capacity)%nat →
  appendCodePoints capacity bytes characters = Some (bytes ++ concat (U8_APPEND_UNSAFE <$> characters)).
Proof.
  revert bytes. induction characters as [|c characters IH]; intros bytes Hle; [cbn; by rewrite app_nil_r|].
  cbn [appendCodePoints]. rewrite fmap_cons in Hle |- *. cbn [concat] in Hle |- *. rewrite length_app in Hle.
  rewrite length_app, (proj2 (Nat.leb_le _ _)) by lia. rewrite IH by (rewrite length_app; lia). by rewrite app_assoc.
Qed.

Lemma encoded_length string : Forall isUnit string → (length (concat (U8_APPEND_UNSAFE <$> codePoints string)) ≤ 3 * length string)%nat.
Proof.
  intros Hu. destruct (codePoints_codeUnits string Hu) as [Hcp Hcu]. rewrite <-Hcu at 2. clear Hcu. induction Hcp as [|c cs Hc Hcs IH]; [done|]. rewrite !fmap_cons. cbn [concat]. rewrite !length_app.
  pose proof (U8_length c Hc). lia.
Qed.

(** The encoder does not write beyond its buffer. *)
Lemma encode_bytes `{Machine} string :
  Forall isUnit string → Z.of_nat (length string) * 3 < 2 ^ 32 →
  encode string = Some (concat (U8_APPEND_UNSAFE <$> codePoints string)).
Proof.
  intros Hu Hlen. unfold encode. assert (2 ^ 32 ≤ 2 ^ (8 * Z.of_nat wordSize)) by (apply Z.pow_le_mono_r; destruct wordSize_ok; lia).
  rewrite (proj2 (Z.ltb_lt _ _)) by lia. apply appendCodePoints_ok. cbn [length Nat.add]. pose proof (encoded_length string Hu). lia.
Qed.

(** Every part of a short enough list fits. *)
Lemma parts_fit parts : Z.of_nat (length (concat parts)) + 4 < 2 ^ 32 → Forall fits parts.
Proof. induction parts as [|part parts IH]; cbn [concat]; [done|]. rewrite length_app. intros Hl. apply Forall_cons. unfold fits. split; [lia|apply IH; lia]. Qed.

(** The plain decoder gives scalar values back. *)
Lemma decodeAll_encoded characters :
  Forall (λ c, 0 ≤ c ≤ 1114111 ∧ ¬ (55296 ≤ c < 57344)) characters →
  decodeAll (concat (U8_APPEND_UNSAFE <$> characters)) = (concat (codeUnits <$> characters), false, []) ∧
  Forall isByte (concat (U8_APPEND_UNSAFE <$> characters)).
Proof.
  induction 1 as [|c cs [Hc Hs] Hcs [IH Hb]]; [done|]. rewrite !fmap_cons. cbn [concat].
  destruct (decodeOne_encoded c (concat (U8_APPEND_UNSAFE <$> cs)) Hc Hs) as [Hone Hbc].
  assert (Hall : Forall isByte (U8_APPEND_UNSAFE c ++ concat (U8_APPEND_UNSAFE <$> cs))) by (by apply Forall_app).
  split; [|done]. by rewrite (decodeAll_step _ _ _ _ Hall Hone), drop_app_length, IH.
Qed.

(** ** The theorems *)

(** C21: Whatever bytes a page sends, however they are cut into chunks of less than
    2^32 - 4 bytes and whatever flags the calls have, no call reads or writes beyond a buffer, fails an assertion
    or loops: each gives code units, in all no more than there were bytes, and a call
    that flushes without stopping at errors leaves nothing in the codec. What the
    buffer of a new codec holds does not matter. *)
Theorem decode_safe `{Build} `{Machine} c calls :
  codec_wf c → Forall (λ call, Forall isByte call.1.1 ∧ fits call.1.1) calls →
  ∃ c' texts, decodeCalls c calls = Some (c', texts) ∧ codec_wf c' ∧ Forall (λ t, Forall isUnit t.1) texts ∧
    (length (concat texts.*1) + m_partialSequenceSize c' ≤ m_partialSequenceSize c + length (concat calls.*1.*1))%nat ∧
    (∀ call, last calls = Some call → call.1.2 && negb call.2 = true → m_partialSequenceSize c' = 0%nat).
Proof. apply decodeCalls_safe. Qed.

(** C23: A chunk is decoded, by the loops on 8-bit and on 16-bit characters and the
    copying of machine words, to what the plain decoder makes of the bytes that
    waited and those of the chunk: its text, its error flag and the sequence the
    chunk ends in, or one U+FFFD for that sequence when the call flushes. The bytes
    that waited must be continued to a well-formed sequence or not completed, the call
    does not stop at errors, and the chunk has less than 2^32 - 4 bytes. *)
Theorem decode_exact `{Build} `{Machine} c bytes flush :
  ready c → Forall isByte bytes → fits bytes → goodSeam c bytes →
  ∃ c' text e, decode c bytes flush false = Some (c', text, e) ∧ ready c' ∧
    (text, e, waiting c') = flushed flush (decodeAll (waiting c ++ bytes)).
Proof. apply decode_chunk. Qed.

(** C24: Bytes without an ill-formed sequence decode to the same text however they
    are cut into chunks of less than 2^32 - 4 bytes each. *)
Theorem decode_chunking `{Build} `{Machine} chunks lastChunk :
  Forall (Forall isByte) chunks → Forall isByte lastChunk → Forall fits (chunks ++ [lastChunk]) → (decodeAll (concat chunks ++ lastChunk)).1.2 = false →
  ∃ c texts, decodeCalls newCodec (pageCalls chunks lastChunk) = Some (c, texts) ∧
    (pageText texts, waiting c) = flushed true (decodeAll (concat chunks ++ lastChunk)).
Proof. apply (decodePage newCodec chunks lastChunk ready_new). Qed.

(** C22: A text without unpaired surrogates comes back, without an error, when its
    bytes are cut into chunks anywhere and decoded. The text is so short that its encoding, of at most three bytes for
    each code unit, and the bytes a codec may hold back fit in an [unsigned]. *)
Theorem encode_decode `{Build} `{Machine} string :
  Forall isUnit string → Z.of_nat (length string) * 3 + 4 < 2 ^ 32 → forallb (negb ∘ U_IS_SURROGATE) (codePoints string) = true →
  ∃ bytes, encode string = Some bytes ∧ Forall isByte bytes ∧
    ∀ chunks lastChunk, concat chunks ++ lastChunk = bytes →
      ∃ c texts, decodeCalls newCodec (pageCalls chunks lastChunk) = Some (c, texts) ∧ pageText texts = (string, false) ∧ waiting c = [].
Proof.
  intros Hu Hlen Hs. destruct (codePoints_codeUnits string Hu) as [Hcp Hcu]. rewrite (encode_bytes string Hu ltac:(lia)). eexists. split; [done|].
  destruct (decodeAll_encoded (codePoints string)) as [Eall Hb].
  { rewrite forallb_forall in Hs. apply Forall_forall. intros c Hc. pose proof (proj1 (Forall_forall _ _) Hcp c Hc) as Hr. split; [done|].
    intros Hsur. apply list_elem_of_In, Hs in Hc. cbn in Hc. by rewrite (proj2 (surrogate_spec c ltac:(lia)) Hsur) in Hc. }
  split; [done|]. intros chunks lastChunk E. pose proof (encoded_length string Hu) as Hbl. rewrite <-E in Eall, Hb, Hbl.
  assert (Hfits : Forall fits (chunks ++ [lastChunk])) by (apply parts_fit; rewrite concat_app; cbn [concat]; rewrite app_nil_r; lia). apply Forall_app in Hb as [Hchunks Hlast].
  apply Forall_concat in Hchunks. destruct (decodePage newCodec chunks lastChunk ready_new Hchunks Hlast Hfits) as (c & texts & Ec & Hres).
  { exact (f_equal (λ r, r.1.2) Eall). }
  exists c, texts. split; [done|]. change (waiting newCodec ++ concat chunks ++ lastChunk) with (concat chunks ++ lastChunk) in Hres. rewrite Eall in Hres.
  rewrite Hcu in Hres. split; [exact (f_equal fst Hres)|exact (f_equal snd Hres)].
Qed.

Lemma put_full c d : put 0 c d = None.
Proof. unfold put, modifyOpt. by destruct (length (written d)). Qed.

Lemma fastPath_full `{Machine} left alignedEnd b rest d :
  source d = b :: rest → isASCII b = true → fastPath left 0 alignedEnd d = None ∨ fastPath left 0 alignedEnd d = Some (tt, d).
Proof.
  intros Es Hb. unfold fastPath, gets, mbind, M_bind. destruct (isAligned _); [|by right]. cbn [copyWords]. unfold gets, mbind, M_bind. destruct (_ <? alignedEnd); [|by right]. destruct (Nat.eqb_spec (length (take wordSize (source d))) wordSize) as [El|]; [|by left].
  destruct (forallb isASCII (take wordSize (source d))); [|by right]. left. rewrite Es in *. pose proof wordSize_pos. destruct wordSize as [|n]; [lia|]. cbn [take mapM]. unfold mbind, M_bind. by rewrite put_full.
Qed.

(** C37: On a machine of 64 bits a chunk of 4 GB, or of a multiple, that begins with an ASCII character overflows the buffer of a decoder that holds nothing back: [StringBuffer] takes
    the length of its buffer as an [unsigned], so that the buffer for a multiple of 2^32 bytes has no
    room at all, and the first character of the chunk is written to it. *)
Theorem huge_chunk_overflows `{Build} `{Machine} c b rest flush stopOnError :
  wordSize = 8%nat → m_partialSequenceSize c = 0%nat → isASCII b = true → Z.of_nat (length (b :: rest)) mod 2 ^ 32 = 0 → decode c (b :: rest) flush stopOnError = None.
Proof.
  intros _ Hc Hb Hl. unfold decode. rewrite Hc. assert (Eb : bufferLength (0 + length (b :: rest)) = 0%nat) by (unfold bufferLength, u32; rewrite Nat.add_0_l; by rewrite Hl).
  rewrite Eb. cbn [outer8]. unfold gets, mbind, M_bind, option_bind. cbn [partialSize Nat.eqb]. cbn [source length compose Nat.eqb loop8]. unfold gets, mbind, M_bind. cbn [source length compose Nat.eqb lookup list_lookup lift]. rewrite Hb.
  set (d := mkDecoding _ _ _ _ _ _). match goal with |- context [fastPath ?l 0 ?a d] => destruct (fastPath_full l a b rest d eq_refl Hb) as [-> | ->] end; [done|]. cbn [source length compose Nat.eqb lookup list_lookup lift d]. rewrite Hb. cbn [negb]. by rewrite put_full.
Qed.

(** ** Examples *)

Definition machine64 : Machine := {| wordSize := 8; wordSize_ok := or_intror eq_refl; sourceAddress := 4096 |}.

Lemma decode_safe_witness : let _ := Build_Build false in let _ := machine64 in
  ∃ c texts, decodeCalls newCodec [([240; 159], false, true); ([65; 255], false, true); ([152], true, false)] = Some (c, texts) ∧ m_partialSequenceSize c = 0%nat.
Proof.
  intros B M. destruct (decode_safe newCodec [([240; 159], false, true); ([65; 255], false, true); ([152], true, false)] newCodec_wf) as (c & texts & E & _ & _ & _ & Hz).
  - repeat (apply Forall_cons; split; [split; [repeat (apply Forall_cons; split; [by unfold isByte; cbn; lia|]); apply Forall_nil_2|reflexivity]|]). apply Forall_nil_2.
  - exists c, texts. split; [exact E|]. by eapply Hz.
Defined.

Lemma decode_exact_witness : let _ := Build_Build false in let _ := machine64 in
  ∃ c text e, decode (mkCodec 2 [240; 159; 0; 0]) [152; 128; 195; 169; 65; 66; 255; 195] false false = Some (c, text, e) ∧
    (text, e, waiting c) = ([55357; 56832; 233; 65; 66; 65533], true, [195]).
Proof.
  intros B M. destruct (decode_exact (mkCodec 2 [240; 159; 0; 0]) [152; 128; 195; 169; 65; 66; 255; 195] false) as (c & text & e & E & _ & Hres).
  - split; [|by vm_compute]. constructor; [done|cbn; lia| |by right; vm_compute]. repeat (apply Forall_cons; split; [by unfold isByte; lia|]). apply Forall_nil_2.
  - repeat (apply Forall_cons; split; [by unfold isByte; lia|]). apply Forall_nil_2.
  - reflexivity.
  - right. intros u n. by vm_compute.
  - exists c, text, e. split; [exact E|]. rewrite Hres. by vm_compute.
Defined.

Lemma decode_chunking_witness : let _ := Build_Build false in let _ := machine64 in
  ∃ c texts, decodeCalls newCodec (pageCalls [[65; 240]; [159; 152]; []] [128; 66]) = Some (c, texts) ∧
    (pageText texts, waiting c) = ([65; 55357; 56832; 66], false, []).
Proof.
  intros B M. destruct (decode_chunking [[65; 240]; [159; 152]; []] [128; 66]) as (c & texts & E & Hres).
  - repeat (apply Forall_cons; split; [repeat (apply Forall_cons; split; [by unfold isByte; lia|]); apply Forall_nil_2|]). apply Forall_nil_2.
  - repeat (apply Forall_cons; split; [by unfold isByte; lia|]). apply Forall_nil_2.
  - repeat (apply Forall_cons; split; [reflexivity|]). apply Forall_nil_2.
  - by vm_compute.
  - exists c, texts. split; [exact E|]. rewrite Hres. by vm_compute.
Defined.

Lemma encode_decode_witness : let _ := Build_Build false in let _ := machine64 in
  ∃ c texts, encode [72; 233; 8364; 55357; 56832] = Some [72; 195; 169; 226; 130; 172; 240; 159; 152; 128] ∧
    decodeCalls newCodec (pageCalls [[72; 195]; [169; 226; 130]; [172; 240; 159]] [152; 128]) = Some (c, texts) ∧
    pageText texts = ([72; 233; 8364; 55357; 56832], false).
Proof.
  intros B M. destruct (encode_decode [72; 233; 8364; 55357; 56832]) as (bytes & E & _ & Hdec).
  - repeat (apply Forall_cons; split; [by unfold isUnit; lia|]). apply Forall_nil_2.
  - cbn. lia.
  - by vm_compute.
  - assert (Eb : encode [72; 233; 8364; 55357; 56832] = Some [72; 195; 169; 226; 130; 172; 240; 159; 152; 128]) by (by vm_compute).
    rewrite Eb in E. injection E as <-. destruct (Hdec [[72; 195]; [169; 226; 130]; [172; 240; 159]] [152; 128] eq_refl) as (c & texts & Ec & Ht & _).
    exists c, texts. split; [exact Eb|]. split; [exact Ec|exact Ht].
Defined.

Lemma huge_chunk_overflows_witness : let _ := Build_Build false in let _ := machine64 in
  decode newCodec (65 :: replicate (Z.to_nat (2 ^ 32 - 1)) 66) true false = None.
Proof. intros B M. apply huge_chunk_overflows; [reflexivity|reflexivity|reflexivity|]. cbn [length]. rewrite length_replicate. replace (Z.of_nat (S (Z.to_nat (2 ^ 32 - 1)))) with (2 ^ 32) by lia. reflexivity. Defined.

(** At the seam of an ill-formed sequence a character is lost and an error is
    made up: after the byte F0 in a chunk of its own, the text "éABC" decodes to
    U+FFFD, "é", U+FFFD and "BC", while in one chunk the "A" is kept. The handler
    takes a decoded sequence off the buffer without moving the rest to the front. *)
Theorem seam_loses_character : let _ := Build_Build false in let _ := machine64 in
  (∃ c texts, decodeCalls newCodec (pageCalls [[240]] [195; 169; 65; 66; 67]) = Some (c, texts) ∧ pageText texts = ([65533; 233; 65533; 66; 67], true)) ∧
  (∃ c texts, decodeCalls newCodec (pageCalls [] [240; 195; 169; 65; 66; 67]) = Some (c, texts) ∧ pageText texts = ([65533; 233; 65; 66; 67], true)).
Proof. intros B M. split; do 2 eexists; split; vm_compute; reflexivity. Qed.

(** A page that ends in an announced sequence loses the ASCII characters behind
    the announcement: the bytes F0, "A" and "B" decode to U+FFFD alone, while the same
    bytes followed by one more byte decode to U+FFFD and "AB". *)
Theorem flush_drops_text : let _ := Build_Build false in let _ := machine64 in
  (∃ c, decode newCodec [240; 65; 66] true false = Some (c, [65533], true)) ∧
  (∃ c, decode newCodec [240; 65; 66; 67] true false = Some (c, [65533; 65; 66; 67], true)).
Proof. intros B M. split; eexists; vm_compute; reflexivity. Qed.

(** An unpaired surrogate is encoded as if it were a character, to bytes that no
    decoder of UTF-8 accepts: this one gives three U+FFFD back. *)
Theorem surrogate_encoded : let _ := Build_Build false in let _ := machine64 in
  encode [55296] = Some [237; 160; 128] ∧
  ∃ c, decode newCodec [237; 160; 128] true false = Some (c, [65533; 65533; 65533], true).
Proof. intros B M. split; [|eexists]; vm_compute; reflexivity. Qed.
