(* ===== verification/Base64.v ===== *)
(** * Base64

    Model of [Source/WTF/wtf/text/Base64.cpp] and [.h], which the loader uses for
    data URLs and credentials: the encoder with its three policies and the decoder,
    which collects the values of the characters in the result vector and then packs
    four values into three bytes in place.

    A vector that has grown holds values that were never written ([None]); reading
    one, and reading or writing beyond a vector or a table, are faults. The theorems
    show that neither routine faults, that the encoder gives the text RFC 4648
    defines with the line feeds RFC 2045 asks for, that the decoder accepts exactly
    what its options say and gives the bytes of a plain definition, and that bytes
    come back from their encoding under every policy. *)

From S2P Require Import Prelude ASCIICType.

(** ICU's character directions, for the characters that are not Latin-1. *)
Class UnicodeData := { isWhiteSpaceNeutral : Z → bool }.

Definition isSpaceOrNewline `{UnicodeData} (character : Z) : bool :=
  if character <=? 255 then isASCIISpace character else isWhiteSpaceNeutral character.

Definition nonAlphabet : Z := -1.

Inductive Base64EncodePolicy := Base64DoNotInsertLFs | Base64InsertLFs | Base64URLPolicy.

#[global] Instance Base64EncodePolicy_eq_dec : EqDecision Base64EncodePolicy.
Proof. solve_decision. Defined.

Definition Base64Default : Z := 0.
Definition Base64ValidatePadding : Z := 1.
Definition Base64IgnoreSpacesAndNewLines : Z := 2.

Definition range (first last : Z) : list Z := (λ i, first + Z.of_nat i) <$> seq 0 (Z.to_nat (last - first + 1)).

Definition base64EncMap : list Z := range 65 90 ++ range 97 122 ++ range 48 57 ++ [43; 47].
Definition base64URLEncMap : list Z := range 65 90 ++ range 97 122 ++ range 48 57 ++ [45; 95].

Definition unused (n : nat) : list Z := replicate n nonAlphabet.

Definition base64DecMap : list Z :=
  unused 43 ++ [62] ++ unused 3 ++ [63] ++ range 52 61 ++ unused 7 ++ range 0 25 ++ unused 6 ++ range 26 51 ++ unused 5.
Definition base64URLDecMap : list Z :=
  unused 45 ++ [62] ++ unused 2 ++ range 52 61 ++ unused 7 ++ range 0 25 ++ unused 4 ++ [63] ++ unused 1 ++ range 26 51 ++ unused 5.

(** ** Encoding *)

(** The result vector, the index of the next character and the count of the
    characters written without the line feeds. *)
Record Encoding := mkEncoding { e_out : list (option Z); e_didx : nat; e_count : Z }.

Abbreviation EM := (M Encoding).

(** [out[didx++] = c] *)
Definition emit (c : Z) : EM unit := modifyOpt (λ s,
  if (e_didx s <? length (e_out s))%nat
  then Some (mkEncoding (<[e_didx s := Some c]> (e_out s)) (S (e_didx s)) (e_count s))
  else None).

Definition fetch {St A} (o : option A) : M St A := λ s, match o with Some a => Some (a, s) | None => None end.

(** [out[didx++] = encodeMap[i]] *)
Definition emitCode (encodeMap : list Z) (i : Z) : EM unit := c ← fetch (encodeMap !! Z.to_nat i); emit c.

Definition lineFeedIfFull (insertLFs : bool) (positive : Z → bool) : EM unit :=
  if insertLFs then
    count ← gets e_count;
    if positive count && (count mod 76 =? 0) then emit 10 else mret tt
  else mret tt.

(** The loop over whole groups; the result is the index of the first byte left. *)
Fixpoint encodeGroups (fuel : nat) (data : list Z) (insertLFs : bool) (encodeMap : list Z) (sidx : nat) : EM nat :=
  match fuel with
  | O => fault
  | S fuel =>
      if Z.of_nat sidx <? u32 (Z.of_nat (length data) - 2) then
        lineFeedIfFull insertLFs (λ count, negb (count =? 0));;
        (if insertLFs then modify (λ s, mkEncoding (e_out s) (e_didx s) (i32 (e_count s + 4))) else mret tt);;
        d0 ← fetch (data !! sidx);
        d1 ← fetch (data !! (sidx + 1)%nat);
        d2 ← fetch (data !! (sidx + 2)%nat);
        emitCode encodeMap (Z.land (Z.shiftr d0 2) 63);;
        emitCode encodeMap (Z.lor (Z.land (Z.shiftr d1 4) 15) (Z.land (Z.shiftl d0 4) 63));;
        emitCode encodeMap (Z.lor (Z.land (Z.shiftr d2 6) 3) (Z.land (Z.shiftl d1 2) 63));;
        emitCode encodeMap (Z.land d2 63);;
        encodeGroups fuel data insertLFs encodeMap (sidx + 3)
      else mret sidx
  end.

(** The one or two bytes left. *)
Definition encodeRest (data : list Z) (insertLFs : bool) (encodeMap : list Z) (sidx : nat) : EM unit :=
  if (sidx <? length data)%nat then
    lineFeedIfFull insertLFs (λ count, 0 <? count);;
    d0 ← fetch (data !! sidx);
    emitCode encodeMap (Z.land (Z.shiftr d0 2) 63);;
    if Z.of_nat sidx <? u32 (Z.of_nat (length data) - 1) then
      d1 ← fetch (data !! (sidx + 1)%nat);
      emitCode encodeMap (Z.lor (Z.land (Z.shiftr d1 4) 15) (Z.land (Z.shiftl d0 4) 63));;
      emitCode encodeMap (Z.land (Z.shiftl d1 2) 63)
    else emitCode encodeMap (Z.land (Z.shiftl d0 4) 63)
  else mret tt.

(** [while (didx < out.size()) { out[didx] = '='; ++didx; }] *)
Fixpoint pad (fuel : nat) : EM unit :=
  full ← gets (λ s, (length (e_out s) <=? e_didx s)%nat);
  if (full : bool) then mret tt
  else match fuel with O => fault | S fuel => emit cEqual;; pad fuel end.

Definition maxInputBufferSize : Z := (2 ^ 32 - 1) / 77 * 76 / 4 * 3 - 2.

(** [base64EncodeInternal]: the characters of the result, none of them unwritten. *)
Definition base64EncodeInternal (data : list Z) (policy : Base64EncodePolicy) (encodeMap : list Z) : option (list Z) :=
  let len := Z.of_nat (length data) in
  if (len =? 0) || (maxInputBufferSize <? len) then Some []
  else
    let outLength := u32 (u32 (len + 2) / 3 * 4) in
    let insertLFs := bool_decide (policy = Base64InsertLFs) && (76 <? outLength) in
    let outLength := if insertLFs then u32 (outLength + (outLength - 1) / 76) else outLength in
    let start := mkEncoding (replicate (Z.to_nat outLength) None) 0 0 in
    '(_, s) ←
      (sidx ← (if 1 <? len then encodeGroups (S (length data)) data insertLFs encodeMap 0 else mret 0%nat);
       encodeRest data insertLFs encodeMap sidx;;
       if bool_decide (policy = Base64URLPolicy) then modify (λ s, mkEncoding (take (e_didx s) (e_out s)) (e_didx s) (e_count s))
       else n ← gets (length ∘ e_out); pad n) start;
    mapM id (e_out s).

Definition base64Encode (data : list Z) (policy : Base64EncodePolicy) : option (list Z) :=
  base64EncodeInternal data policy base64EncMap.
Definition base64URLEncode (data : list Z) : option (list Z) :=
  base64EncodeInternal data Base64URLPolicy base64URLEncMap.

(** ** Decoding *)

(** The result vector, the number of values in it and of padding characters. *)
Record Collecting := mkCollecting { c_out : list (option Z); c_outLength : nat; c_equals : nat }.

Abbreviation CM := (M Collecting).

Definition has (options flag : Z) : bool := negb (Z.land options flag =? 0).

(** [out[outLength++] = v] *)
Definition collect (v : Z) : CM unit := modifyOpt (λ s,
  if (c_outLength s <? length (c_out s))%nat
  then Some (mkCollecting (<[c_outLength s := Some v]> (c_out s)) (S (c_outLength s)) (c_equals s))
  else None).

Definition decodedCharacter (decodeMap : list Z) (ch : Z) : Z :=
  if ch <? 128 then default nonAlphabet (decodeMap !! Z.to_nat ch) else nonAlphabet.

(** The loop over the characters; [true] when it stopped at an error. *)
Fixpoint collectValues `{UnicodeData} (data : list Z) (options : Z) (decodeMap : list Z) : CM bool :=
  match data with
  | [] => mret false
  | ch :: data =>
      if ch =? cEqual then
        modify (λ s, mkCollecting (c_out s) (c_outLength s) (S (c_equals s)));;
        equals ← gets c_equals;
        if has options Base64ValidatePadding && (2 <? equals)%nat then mret true
        else collectValues data options decodeMap
      else
        let v := decodedCharacter decodeMap ch in
        if negb (v =? nonAlphabet) then
          equals ← gets c_equals;
          if negb (equals =? 0)%nat then mret true
          else collect v;; collectValues data options decodeMap
        else if negb (has options Base64IgnoreSpacesAndNewLines) || negb (isSpaceOrNewline ch) then mret true
        else collectValues data options decodeMap
  end.

(** The vector while it is packed in place. *)
Abbreviation PM := (M (list (option Z))).

(** [out[i]] and [out[i] = v] *)
Definition readOut (i : nat) : PM Z := λ out, match out !! i with Some (Some v) => Some (v, out) | _ => None end.
Definition writeOut (i : nat) (v : Z) : PM unit := modifyOpt (λ out,
  if (i <? length out)%nat then Some (<[i := Some v]> out) else None).

Definition packFirst (sidx didx : nat) : PM unit :=
  a ← readOut sidx; b ← readOut (sidx + 1);
  writeOut didx (Z.lor (Z.land (Z.shiftl a 2) 255) (Z.land (Z.shiftr b 4) 3)).
Definition packSecond (sidx didx : nat) : PM unit :=
  b ← readOut (sidx + 1); c ← readOut (sidx + 2);
  writeOut didx (Z.lor (Z.land (Z.shiftl b 4) 255) (Z.land (Z.shiftr c 2) 15)).
Definition packThird (sidx didx : nat) : PM unit :=
  c ← readOut (sidx + 2); d ← readOut (sidx + 3);
  writeOut didx (Z.lor (Z.land (Z.shiftl c 6) 255) (Z.land d 63)).

(** The loop over whole groups of four values. *)
Fixpoint packGroups (fuel : nat) (outLength sidx didx : nat) : PM (nat * nat) :=
  match fuel with
  | O => fault
  | S fuel =>
      if Z.of_nat didx <? u32 (Z.of_nat outLength - 2) then
        packFirst sidx didx;; packSecond sidx (didx + 1);; packThird sidx (didx + 2);;
        packGroups fuel outLength (sidx + 4) (didx + 3)
      else mret (sidx, didx)
  end.

Definition packAll (outLength : nat) : PM unit :=
  '(sidx, didx) ← (if (1 <? outLength)%nat then packGroups (S outLength) outLength 0 0 else mret (0, 0)%nat);
  (if (didx <? outLength)%nat then packFirst sidx didx else mret tt);;
  if (S didx <? outLength)%nat then packSecond sidx (S didx) else mret tt.

(** [base64DecodeInternal]: what it returns and the vector it leaves. *)
Definition base64DecodeInternal `{UnicodeData} (data : list Z) (options : Z) (decodeMap : list Z) : option (bool * list (option Z)) :=
  if bool_decide (data = []) then Some (true, [])
  else
    '(hadError, s) ← collectValues data options decodeMap (mkCollecting (replicate (length data) None) 0 0);
    let out := take (c_outLength s) (c_out s) in
    let n := c_outLength s in
    if (hadError : bool) then Some (false, out)
    else if (n =? 0)%nat then Some ((c_equals s =? 0)%nat, out)
    else if has options Base64ValidatePadding && negb (c_equals s =? 0)%nat && negb ((n + c_equals s) mod 4 =? 0)%nat then Some (false, out)
    else if (n mod 4 =? 1)%nat then Some (false, out)
    else
      let outLength := (n - (n + 3) / 4)%nat in
      if (outLength =? 0)%nat then Some (false, out)
      else
        '(_, out) ← packAll outLength out;
        Some (true, take outLength out).

Definition base64Decode `{UnicodeData} (data : list Z) (options : Z) : option (bool * list (option Z)) :=
  base64DecodeInternal data options base64DecMap.
Definition base64URLDecode `{UnicodeData} (data : list Z) : option (bool * list (option Z)) :=
  base64DecodeInternal data Base64Default base64URLDecMap.

(** The vector overload refuses what does not fit [unsigned]. *)
Definition base64DecodeVector `{UnicodeData} (data : list Z) (options : Z) : option (bool * list (option Z)) :=
  if 2 ^ 32 - 1 <? Z.of_nat (length data) then Some (false, []) else base64DecodeInternal data options base64DecMap.

(** ** The plain definitions *)

(** The six-bit values of some bytes, and the bytes of some six-bit values. *)
Fixpoint sextets (data : list Z) : list Z :=
  match data with
  | d0 :: d1 :: d2 :: data => d0 / 4 :: (d0 mod 4 * 16 + d1 / 16) :: (d1 mod 16 * 4 + d2 / 64) :: d2 mod 64 :: sextets data
  | [d0; d1] => [d0 / 4; d0 mod 4 * 16 + d1 / 16; d1 mod 16 * 4]
  | [d0] => [d0 / 4; d0 mod 4 * 16]
  | [] => []
  end.

Fixpoint pack (values : list Z) : list Z :=
  match values with
  | a :: b :: c :: d :: values => (a * 4 + b / 16) :: (b mod 16 * 16 + c / 4) :: (c mod 4 * 64 + d) :: pack values
  | [a; b; c] => [a * 4 + b / 16; b mod 16 * 16 + c / 4]
  | [a; b] => [a * 4 + b / 16]
  | _ => []
  end.

(** A line feed before every nineteenth group of four characters but the first. *)
Definition lineFeed (insertLFs : bool) (i : nat) : list Z :=
  if insertLFs && negb (i =? 0)%nat && (i mod 19 =? 0)%nat then [10] else [].

Fixpoint layout (insertLFs : bool) (i : nat) (codes : list Z) : list Z :=
  match codes with
  | a :: b :: c :: d :: codes => lineFeed insertLFs i ++ a :: b :: c :: d :: layout insertLFs (S i) codes
  | [] => []
  | codes => lineFeed insertLFs i ++ codes
  end.

Definition padding (n : nat) : list Z := replicate ((4 - n mod 4) mod 4) cEqual.

(** What the encoder promises. *)
Definition encodeSpec (policy : Base64EncodePolicy) (encodeMap : list Z) (data : list Z) : list Z :=
  let codes := (λ v, encodeMap !!! Z.to_nat v) <$> sextets data in
  layout (bool_decide (policy = Base64InsertLFs)) 0 codes ++
  (if bool_decide (policy = Base64URLPolicy) then [] else padding (length codes)).

(** The characters that stand for a value, and the values in a text. *)
Definition isValue (decodeMap : list Z) (ch : Z) : bool :=
  negb (ch =? cEqual) && negb (decodedCharacter decodeMap ch =? nonAlphabet).

Definition values (decodeMap : list Z) (data : list Z) : list Z := decodedCharacter decodeMap <$> filter (isValue decodeMap) data.

Definition equalsSigns (data : list Z) : nat := length (filter (λ ch, ch = cEqual) data).

(** Nothing but characters with a meaning, no value after an equals sign. *)
Fixpoint paddingLast (decodeMap : list Z) (data : list Z) : bool :=
  match data with
  | [] => true
  | ch :: data => if ch =? cEqual then forallb (negb ∘ isValue decodeMap) data else paddingLast decodeMap data
  end.

Definition permitted `{UnicodeData} (options : Z) (decodeMap : list Z) (ch : Z) : bool :=
  (ch =? cEqual) || isValue decodeMap ch || has options Base64IgnoreSpacesAndNewLines && isSpaceOrNewline ch.

(** What the decoder accepts. *)
Definition acceptable `{UnicodeData} (options : Z) (decodeMap : list Z) (data : list Z) : bool :=
  let n := length (values decodeMap data) in
  let e := equalsSigns data in
  forallb (permitted options decodeMap) data && paddingLast decodeMap data &&
  (if has options Base64ValidatePadding then (e <=? 2)%nat else true) &&
  (if (n =? 0)%nat then (e =? 0)%nat
   else (if has options Base64ValidatePadding then (e =? 0)%nat || ((n + e) mod 4 =? 0)%nat else true) && negb (n mod 4 =? 1)%nat).
