(* ===== verification/Base64Correct.v ===== *)
(** * Base64 is correct

    The proofs about the model of [Base64.cpp]: the encoder fills its vector exactly
    and gives the layout of the specification, the decoder packs its vector in place,
    accepts what its options say, and undoes the encoder. *)

From Stdlib Require Import ZifyNat.
From S2P Require Import Prelude ASCIICType Base64.

Ltac Zify.zify_post_hook ::= Z.to_euclidean_division_equations.

Definition isSextet (v : Z) : Prop := 0 ≤ v < 64.

(** ** Bits and arithmetic *)

Lemma forall_pairs (m n : nat) (P : Z → Z → bool) :
  forallb (λ a, forallb (P a) (Z.of_nat <$> seq 0 n)) (Z.of_nat <$> seq 0 m) = true →
  ∀ a b, 0 ≤ a < Z.of_nat m → 0 ≤ b < Z.of_nat n → P a b = true.
Proof. intros Hall a b Ha Hb. apply (forall_below n (P a)); [|done]. by apply (forall_below m (λ a, forallb (P a) (Z.of_nat <$> seq 0 n))). Qed.

Lemma pack_first a b : isSextet a → isSextet b → Z.lor (Z.land (Z.shiftl a 2) 255) (Z.land (Z.shiftr b 4) 3) = a * 4 + b / 16.
Proof.
  intros Ha Hb. apply Z.eqb_eq.
  apply (forall_pairs 64 64 (λ a b, Z.lor (Z.land (Z.shiftl a 2) 255) (Z.land (Z.shiftr b 4) 3) =? a * 4 + b / 16)); [by vm_compute|done..].
Qed.
Lemma pack_second b c : isSextet b → isSextet c → Z.lor (Z.land (Z.shiftl b 4) 255) (Z.land (Z.shiftr c 2) 15) = b mod 16 * 16 + c / 4.
Proof.
  intros Hb Hc. apply Z.eqb_eq.
  apply (forall_pairs 64 64 (λ b c, Z.lor (Z.land (Z.shiftl b 4) 255) (Z.land (Z.shiftr c 2) 15) =? b mod 16 * 16 + c / 4)); [by vm_compute|done..].
Qed.
Lemma pack_third c d : isSextet c → isSextet d → Z.lor (Z.land (Z.shiftl c 6) 255) (Z.land d 63) = c mod 4 * 64 + d.
Proof.
  intros Hc Hd. apply Z.eqb_eq.
  apply (forall_pairs 64 64 (λ c d, Z.lor (Z.land (Z.shiftl c 6) 255) (Z.land d 63) =? c mod 4 * 64 + d)); [by vm_compute|done..].
Qed.

Lemma code_first d : isByte d → Z.land (Z.shiftr d 2) 63 = d / 4.
Proof. intros Hd. apply Z.eqb_eq. apply (forall_below 256 (λ d, Z.land (Z.shiftr d 2) 63 =? d / 4)); [by vm_compute|done]. Qed.
Lemma code_second d0 d1 : isByte d0 → isByte d1 → Z.lor (Z.land (Z.shiftr d1 4) 15) (Z.land (Z.shiftl d0 4) 63) = d0 mod 4 * 16 + d1 / 16.
Proof.
  intros H0 H1. apply Z.eqb_eq.
  apply (forall_pairs 256 256 (λ d0 d1, Z.lor (Z.land (Z.shiftr d1 4) 15) (Z.land (Z.shiftl d0 4) 63) =? d0 mod 4 * 16 + d1 / 16)); [by vm_compute|done..].
Qed.
Lemma code_third d1 d2 : isByte d1 → isByte d2 → Z.lor (Z.land (Z.shiftr d2 6) 3) (Z.land (Z.shiftl d1 2) 63) = d1 mod 16 * 4 + d2 / 64.
Proof.
  intros H1 H2. apply Z.eqb_eq.
  apply (forall_pairs 256 256 (λ d1 d2, Z.lor (Z.land (Z.shiftr d2 6) 3) (Z.land (Z.shiftl d1 2) 63) =? d1 mod 16 * 4 + d2 / 64)); [by vm_compute|done..].
Qed.
Lemma code_fourth d : isByte d → Z.land d 63 = d mod 64.
Proof. intros Hd. apply Z.eqb_eq. apply (forall_below 256 (λ d, Z.land d 63 =? d mod 64)); [by vm_compute|done]. Qed.
Lemma code_second_last d : isByte d → Z.land (Z.shiftl d 4) 63 = d mod 4 * 16.
Proof. intros Hd. apply Z.eqb_eq. apply (forall_below 256 (λ d, Z.land (Z.shiftl d 4) 63 =? d mod 4 * 16)); [by vm_compute|done]. Qed.
Lemma code_third_last d : isByte d → Z.land (Z.shiftl d 2) 63 = d mod 16 * 4.
Proof. intros Hd. apply Z.eqb_eq. apply (forall_below 256 (λ d, Z.land (Z.shiftl d 2) 63 =? d mod 16 * 4)); [by vm_compute|done]. Qed.

(** ** Groups of three bytes and of four values *)

Lemma groups3_ind {A} (P : list A → Prop) :
  P [] → (∀ a, P [a]) → (∀ a b, P [a; b]) → (∀ a b c l, P l → P (a :: b :: c :: l)) → ∀ l, P l.
Proof.
  intros H0 H1 H2 H3 l. induction l as [l IH] using (well_founded_ind (Wf_nat.well_founded_ltof _ length)). unfold Wf_nat.ltof in IH.
  destruct l as [|a [|b [|c l]]]; auto. apply H3, IH. cbn. lia.
Qed.

Lemma groups4_ind {A} (P : list A → Prop) :
  P [] → (∀ a, P [a]) → (∀ a b, P [a; b]) → (∀ a b c, P [a; b; c]) → (∀ a b c d l, P l → P (a :: b :: c :: d :: l)) → ∀ l, P l.
Proof.
  intros H0 H1 H2 H3 H4 l. induction l as [l IH] using (well_founded_ind (Wf_nat.well_founded_ltof _ length)). unfold Wf_nat.ltof in IH.
  destruct l as [|a [|b [|c [|d l]]]]; auto. apply H4, IH. cbn. lia.
Qed.

(** Packing the six-bit values of some bytes gives the bytes. *)
Lemma pack_sextets data : Forall isByte data → pack (sextets data) = data ∧ Forall isSextet (sextets data).
Proof.
  induction data as [|d0|d0 d1|d0 d1 d2 data IH] using groups3_ind; unfold isByte, isSextet in *; rewrite ?Forall_cons; intros Hd.
  - done.
  - destruct Hd as [H0 _]. cbn [sextets pack]. split; [f_equal; lia|]. rewrite !Forall_cons. split_and!; [lia..|apply Forall_nil_2].
  - destruct Hd as (H0 & H1 & _). cbn [sextets pack]. split; [f_equal; [|f_equal]; lia|]. rewrite !Forall_cons. split_and!; [lia..|apply Forall_nil_2].
  - destruct Hd as (H0 & H1 & H2 & Hd). destruct (IH Hd) as [Ep Hs]. cbn [sextets pack]. rewrite Ep.
    split; [f_equal; [|f_equal; [|f_equal]]; lia|]. rewrite !Forall_cons. split_and!; [lia..|done].
Qed.

Lemma sextets_length data : length (sextets data) = (length data + (length data + 2) / 3)%nat.
Proof. induction data as [|d0|d0 d1|d0 d1 d2 data IH] using groups3_ind; cbn [sextets length]; [done..|]. rewrite IH. lia. Qed.

Lemma pack_length vs : (length vs mod 4 ≠ 1)%nat → length (pack vs) = (length vs - (length vs + 3) / 4)%nat.
Proof. induction vs as [|a|a b|a b c|a b c d vs IH] using groups4_ind; cbn [pack length]; try done; intros Hm; [lia..|]. rewrite IH; lia. Qed.

(** ** Packing in place *)

(** The vector during packing: the bytes so far, what is left of the values they
    were made of, and the values that are still to be packed. *)
Definition packing (bytes : list Z) (junk : list (option Z)) (vs : list Z) (out : list (option Z)) : Prop :=
  out = (Some <$> bytes) ++ junk ++ (Some <$> vs).

Lemma packing_lookup bytes junk vs out i v :
  packing bytes junk vs out → vs !! i = Some v → out !! (length bytes + length junk + i)%nat = Some (Some v).
Proof.
  intros -> E. rewrite lookup_app_r; rewrite length_fmap; [|lia]. rewrite lookup_app_r by lia.
  replace (length bytes + length junk + i - length bytes - length junk)%nat with i by lia. by rewrite list_lookup_fmap, E.
Qed.

Lemma wp_readOut i v (Q : Z → list (option Z) → Prop) out : out !! i = Some (Some v) → Q v out → wp (readOut i) Q out.
Proof. intros E HQ. unfold wp, readOut. by rewrite E. Qed.

Lemma wp_writeOut i v (Q : unit → list (option Z) → Prop) out : (i < length out)%nat → Q tt (<[i := Some v]> out) → wp (writeOut i v) Q out.
Proof. intros Hlt HQ. unfold wp, writeOut, modifyOpt. by rewrite (proj2 (Nat.ltb_lt _ _) Hlt). Qed.

(** The three steps of a group, each at a place before the values the next one reads. *)
Lemma packFirst_ok out sidx didx a b (Q : unit → list (option Z) → Prop) :
  isSextet a → isSextet b → out !! sidx = Some (Some a) → out !! (sidx + 1)%nat = Some (Some b) → (didx ≤ sidx)%nat →
  Q tt (<[didx := Some (a * 4 + b / 16)]> out) → wp (packFirst sidx didx) Q out.
Proof.
  intros Ha Hb Ea Eb Hle HQ. unfold packFirst. apply wp_bind, wp_readOut with (v := a); [done|]. apply wp_bind, wp_readOut with (v := b); [done|].
  apply wp_writeOut; [|by rewrite pack_first]. apply lookup_lt_Some in Ea. lia.
Qed.
Lemma packSecond_ok out sidx didx b c (Q : unit → list (option Z) → Prop) :
  isSextet b → isSextet c → out !! (sidx + 1)%nat = Some (Some b) → out !! (sidx + 2)%nat = Some (Some c) → (didx ≤ sidx + 1)%nat →
  Q tt (<[didx := Some (b mod 16 * 16 + c / 4)]> out) → wp (packSecond sidx didx) Q out.
Proof.
  intros Hb Hc Eb Ec Hle HQ. unfold packSecond. apply wp_bind, wp_readOut with (v := b); [done|]. apply wp_bind, wp_readOut with (v := c); [done|].
  apply wp_writeOut; [|by rewrite pack_second]. apply lookup_lt_Some in Eb. lia.
Qed.
Lemma packThird_ok out sidx didx c d (Q : unit → list (option Z) → Prop) :
  isSextet c → isSextet d → out !! (sidx + 2)%nat = Some (Some c) → out !! (sidx + 3)%nat = Some (Some d) → (didx ≤ sidx + 2)%nat →
  Q tt (<[didx := Some (c mod 4 * 64 + d)]> out) → wp (packThird sidx didx) Q out.
Proof.
  intros Hc Hd Ec Ed Hle HQ. unfold packThird. apply wp_bind, wp_readOut with (v := c); [done|]. apply wp_bind, wp_readOut with (v := d); [done|].
  apply wp_writeOut; [|by rewrite pack_third]. apply lookup_lt_Some in Ec. lia.
Qed.

(** Writing bytes one after the other at the front of a list. *)
Lemma overwrite1 {A} (p : list A) x l i : i = length p → (1 ≤ length l)%nat → <[i := x]> (p ++ l) = p ++ x :: drop 1 l.
Proof. intros -> Hl. destruct l as [|y l]; [cbn in Hl; lia|]. rewrite insert_app_r_alt by lia. by rewrite Nat.sub_diag. Qed.

Lemma overwrite2 {A} (p : list A) x y l i : i = length p → (2 ≤ length l)%nat → <[S i := y]> (<[i := x]> (p ++ l)) = p ++ x :: y :: drop 2 l.
Proof.
  intros Hi Hl. rewrite (overwrite1 p x l i) by lia. destruct l as [|z [|z' l]]; [cbn in Hl; lia..|]. cbn [drop].
  change (x :: z' :: l) with ([x] ++ z' :: l). rewrite app_assoc, overwrite1; [by rewrite <-app_assoc|rewrite length_app; cbn; lia|cbn; lia].
Qed.

Lemma overwrite3 {A} (p : list A) x y z l i :
  i = length p → (3 ≤ length l)%nat → <[S (S i) := z]> (<[S i := y]> (<[i := x]> (p ++ l))) = p ++ x :: y :: z :: drop 3 l.
Proof.
  intros Hi Hl. rewrite (overwrite2 p x y l i) by lia. destruct l as [|a [|b [|c l]]]; [cbn in Hl; lia..|]. cbn [drop].
  change (x :: y :: c :: l) with ([x; y] ++ c :: l). rewrite app_assoc, overwrite1; [by rewrite <-app_assoc|rewrite length_app; cbn; lia|cbn; lia].
Qed.

(** A group of four values becomes three bytes. *)
Lemma packing_group bytes junk a b c d vs out x y z :
  packing bytes junk (a :: b :: c :: d :: vs) out →
  packing (bytes ++ [x; y; z]) (drop 3 (junk ++ [Some a; Some b; Some c; Some d])) vs
    (<[S (S (length bytes)) := Some z]> (<[S (length bytes) := Some y]> (<[length bytes := Some x]> out))).
Proof.
  intros ->. rewrite (overwrite3 (Some <$> bytes)) by (rewrite ?length_fmap, ?length_app; cbn; lia). unfold packing.
  rewrite fmap_app, <-app_assoc. f_equal. cbn [fmap list_fmap app]. do 3 f_equal.
  destruct junk as [|j0 [|j1 [|j2 junk]]]; try done. cbn. by rewrite !drop_0, <-app_assoc.
Qed.

(** How the loop ends: at most three values are left. *)
Definition packedGroups (bytes : list Z) (vs : list Z) (r : nat * nat) (out : list (option Z)) : Prop :=
  ∃ bytes' junk' vs', r = (length bytes' + length junk', length bytes')%nat ∧ packing bytes' junk' vs' out ∧
    (length vs' < 4)%nat ∧ length vs' ≠ 1%nat ∧ Forall isSextet vs' ∧ bytes' ++ pack vs' = bytes ++ pack vs.

Lemma packGroups_ok fuel bytes junk vs out outLength :
  packing bytes junk vs out → Forall isSextet vs → (length vs < 4 * fuel)%nat → (length vs mod 4 ≠ 1)%nat →
  (1 < outLength)%nat → Z.of_nat outLength < 2 ^ 32 → outLength = (length bytes + length (pack vs))%nat →
  wp (packGroups fuel outLength (length bytes + length junk) (length bytes)) (packedGroups bytes vs) out.
Proof.
  revert bytes junk vs out. induction fuel as [|fuel IH]; intros bytes junk vs out Hp Hs Hf Hm H1 H32 Hlen; [lia|].
  pose proof (pack_length vs Hm) as Hpl. cbn [packGroups]. unfold u32. rewrite Z.mod_small by lia.
  destruct (Z.ltb_spec (Z.of_nat (length bytes)) (Z.of_nat outLength - 2)) as [Hlt|Hge].
  2: { apply wp_ret. exists bytes, junk, vs. split_and!; try done; lia. }
  destruct vs as [|a [|b [|c [|d vs]]]]; [cbn in *; lia..|]. rewrite !Forall_cons in Hs. destruct Hs as (Ha & Hb & Hc & Hd & Hs).
  pose proof (packing_lookup _ _ _ _ 0 a Hp eq_refl) as E0. pose proof (packing_lookup _ _ _ _ 1 b Hp eq_refl) as E1.
  pose proof (packing_lookup _ _ _ _ 2 c Hp eq_refl) as E2. pose proof (packing_lookup _ _ _ _ 3 d Hp eq_refl) as E3. rewrite Nat.add_0_r in E0.
  apply wp_bind. eapply packFirst_ok; [apply Ha|apply Hb|done|done|lia|]. apply wp_bind.
  eapply packSecond_ok; [apply Hb|apply Hc|rewrite list_lookup_insert_ne by lia; done..|lia|]. apply wp_bind.
  eapply packThird_ok; [apply Hc|apply Hd|rewrite !list_lookup_insert_ne by lia; done..|lia|].
  rewrite (Nat.add_comm (length bytes) 1), (Nat.add_comm (length bytes) 2). cbn [Nat.add].
  pose proof (packing_group _ _ _ _ _ _ _ _ (a * 4 + b / 16) (b mod 16 * 16 + c / 4) (c mod 4 * 64 + d) Hp) as Hp'.
  set (out' := <[S (S (length bytes)) := _]> _) in *. set (bytes' := bytes ++ _) in *. set (junk' := drop 3 _) in *.
  assert (Hb' : length bytes' = (length bytes + 3)%nat) by (subst bytes'; rewrite length_app; cbn; lia).
  assert (Hj' : length junk' = S (length junk)) by (subst junk'; rewrite length_drop, length_app; cbn; lia).
  replace (length bytes + length junk + 4)%nat with (length bytes' + length junk')%nat by lia. rewrite <-Hb'.
  assert (Hpk : bytes' ++ pack vs = bytes ++ pack (a :: b :: c :: d :: vs)) by (subst bytes'; by rewrite <-app_assoc).
  cbn [length] in *. eapply wp_mono; [apply IH; [done|done|lia|lia|lia|lia|]|].
  - apply (f_equal length) in Hpk. rewrite !length_app in Hpk. lia.
  - intros r o (b1 & j1 & v1 & ? & ? & ? & ? & ? & E). exists b1, j1, v1. by rewrite E, Hpk.
Qed.

Lemma packAll_ok vs :
  Forall isSextet vs → (length vs mod 4 ≠ 1)%nat → vs ≠ [] → Z.of_nat (length vs) < 2 ^ 32 →
  wp (packAll (length (pack vs))) (λ _ out, take (length (pack vs)) out = Some <$> pack vs) (Some <$> vs).
Proof.
  intros Hs Hm Hne H32. pose proof (pack_length vs Hm) as Hpl. unfold packAll. apply wp_bind.
  eapply wp_mono with (Q := packedGroups [] vs).
  { destruct (Nat.ltb_spec 1 (length (pack vs))) as [Hlt|Hge].
    - apply (packGroups_ok _ [] []); try done; cbn [length Nat.add]; lia.
    - apply wp_ret. exists [], [], vs. split_and!; try done; lia. }
  intros r out (bytes & junk & vs' & -> & Hp & Hlt4 & Hn1 & Hs' & Epack). cbn beta iota. cbn [app] in Epack. rewrite <-Epack.
  rewrite !length_app. assert (Hlb : length (Some <$> bytes) = length bytes) by apply length_fmap.
  destruct vs' as [|a [|b [|c [|d vs']]]]; cbn [length] in *; try lia; rewrite ?Forall_cons in Hs'; cbn [pack length].
  - rewrite Nat.add_0_r, app_nil_r, Nat.ltb_irrefl, (proj2 (Nat.ltb_ge (S (length bytes)) (length bytes))) by lia. apply wp_bind, wp_ret, wp_ret.
    rewrite Hp. by rewrite take_app_le, take_ge by (rewrite Hlb; lia).
  - destruct Hs' as (Ha & Hb & _). rewrite (proj2 (Nat.ltb_lt (length bytes) (length bytes + 1))), (proj2 (Nat.ltb_ge (S (length bytes)) (length bytes + 1))) by lia.
    pose proof (packing_lookup _ _ _ _ 0 a Hp eq_refl) as E0. pose proof (packing_lookup _ _ _ _ 1 b Hp eq_refl) as E1. rewrite Nat.add_0_r in E0.
    apply wp_bind. eapply packFirst_ok; [apply Ha|apply Hb|done|done|lia|]. apply wp_ret. rewrite Hp, overwrite1 by (rewrite ?length_app; cbn; lia).
    rewrite fmap_app. cbn [fmap list_fmap]. rewrite take_app_ge by lia. do 2 f_equal. rewrite Hlb. by replace (length bytes + 1 - length bytes)%nat with 1%nat by lia.
  - destruct Hs' as (Ha & Hb & Hc & _). rewrite (proj2 (Nat.ltb_lt (length bytes) (length bytes + 2))), (proj2 (Nat.ltb_lt (S (length bytes)) (length bytes + 2))) by lia.
    pose proof (packing_lookup _ _ _ _ 0 a Hp eq_refl) as E0. pose proof (packing_lookup _ _ _ _ 1 b Hp eq_refl) as E1.
    pose proof (packing_lookup _ _ _ _ 2 c Hp eq_refl) as E2. rewrite Nat.add_0_r in E0.
    apply wp_bind. eapply packFirst_ok; [apply Ha|apply Hb|done|done|lia|].
    eapply packSecond_ok; [apply Hb|apply Hc|rewrite list_lookup_insert_ne by lia; done..|lia|].
    rewrite Hp, overwrite2 by (rewrite ?length_app, ?length_fmap; cbn; lia).
    rewrite fmap_app. cbn [fmap list_fmap]. rewrite take_app_ge by lia. do 2 f_equal. rewrite Hlb. by replace (length bytes + 2 - length bytes)%nat with 2%nat by lia.
Qed.

(** ** Collecting the values *)

Section Decoding.
Context `{UnicodeData} (options : Z) (decodeMap : list Z).
Hypothesis decodeMap_values : Forall (λ v, v = nonAlphabet ∨ isSextet v) decodeMap.

Definition collecting (vs : list Z) (room e : nat) (s : Collecting) : Prop :=
  s = mkCollecting ((Some <$> vs) ++ replicate room None) (length vs) e.

(** What the loop still accepts after [e] equals signs. *)
Fixpoint accepts (e : nat) (data : list Z) : bool :=
  match data with
  | [] => true
  | ch :: data =>
      if ch =? cEqual then negb (has options Base64ValidatePadding && (2 <? S e)%nat) && accepts (S e) data
      else if isValue decodeMap ch then (e =? 0)%nat && accepts e data
      else has options Base64IgnoreSpacesAndNewLines && isSpaceOrNewline ch && accepts e data
  end.

Lemma values_cons ch data : values decodeMap (ch :: data) = (if isValue decodeMap ch then [decodedCharacter decodeMap ch] else []) ++ values decodeMap data.
Proof.
  unfold values. rewrite filter_cons. destruct (decide (isValue decodeMap ch)) as [Hv|Hv].
  - apply Is_true_true in Hv. by rewrite Hv.
  - apply Is_true_false in Hv. by rewrite Hv.
Qed.

Lemma equalsSigns_cons ch data : equalsSigns (ch :: data) = ((if (ch =? cEqual)%Z then 1 else 0) + equalsSigns data)%nat.
Proof. unfold equalsSigns. rewrite filter_cons. destruct (Z.eqb_spec ch cEqual), (decide (ch = cEqual)); done. Qed.

Lemma values_sextets data : Forall isSextet (values decodeMap data).
Proof.
  induction data as [|ch data IH]; [apply Forall_nil_2|]. rewrite values_cons. destruct (isValue decodeMap ch) eqn:E; [|done].
  apply Forall_cons. split; [|done]. unfold isValue in E. apply andb_true_iff in E as [_ E%negb_true_iff%Z.eqb_neq].
  unfold decodedCharacter in *. case_match; [|done]. destruct (decodeMap !! Z.to_nat ch) as [v|] eqn:Ev; [|done]. cbn in *.
  destruct (Forall_lookup_1 _ _ _ _ decodeMap_values Ev); done.
Qed.

Lemma values_length data : (length (values decodeMap data) ≤ length data)%nat.
Proof. unfold values. rewrite length_fmap. apply length_filter. Qed.

Lemma collectValues_ok data vs room e s :
  collecting vs room e s → (length data ≤ room)%nat →
  wp (collectValues data options decodeMap) (λ hadError s',
    hadError = negb (accepts e data) ∧
    (hadError = false → collecting (vs ++ values decodeMap data) (room - length (values decodeMap data)) (e + equalsSigns data) s')) s.
Proof.
  revert vs room e s. induction data as [|ch data IH]; intros vs room e s Hs Hr.
  { apply wp_ret. split; [done|]. intros _. cbn. by rewrite app_nil_r, Nat.sub_0_r, Nat.add_0_r. }
  cbn [length] in Hr. cbn [collectValues accepts]. rewrite values_cons, equalsSigns_cons. unfold isValue.
  destruct (ch =? cEqual) eqn:Eeq; cbn [negb andb app].
  { apply wp_bind, wp_modify. apply wp_bind, wp_gets. rewrite Hs. cbn [c_equals].
    destruct (has options Base64ValidatePadding && (2 <? S e)%nat); cbn [negb andb]; [by apply wp_ret|].
    eapply wp_mono; [by apply (IH vs room (S e)); [|lia]|]. intros b s' [Hb Hs']. split; [done|]. intros Eb. rewrite <-Nat.add_succ_comm. by apply Hs'. }
  destruct (decodedCharacter decodeMap ch =? nonAlphabet) eqn:Ev; cbn [negb].
  { cbn [app length]. destruct (has options Base64IgnoreSpacesAndNewLines), (isSpaceOrNewline ch); cbn [negb orb andb]; try (by apply wp_ret).
    by apply IH; [|lia]. }
  apply wp_bind, wp_gets. rewrite Hs. cbn [c_equals]. destruct (e =? 0)%nat; cbn [negb andb]; [|by apply wp_ret].
  destruct room as [|room]; [lia|]. apply wp_bind. unfold wp at 1, collect, modifyOpt. cbn [c_outLength c_out c_equals].
  rewrite (proj2 (Nat.ltb_lt _ _)) by (rewrite length_app, length_fmap, length_replicate; lia).
  eapply wp_mono; [apply (IH (vs ++ [decodedCharacter decodeMap ch]) room e); [|lia]|].
  - unfold collecting. f_equal; [|rewrite length_app; cbn; lia]. rewrite insert_app_r_alt by (by rewrite length_fmap). rewrite length_fmap, Nat.sub_diag. cbn.
    by rewrite fmap_app, <-app_assoc.
  - intros b s' [Hb Hs']. split; [done|]. intros Eb. specialize (Hs' Eb). rewrite <-app_assoc in Hs'. exact Hs'.
Qed.

(** The conditions of the loop, one by one. *)
Lemma accepts_spec e data :
  accepts e data = forallb (permitted options decodeMap) data &&
    (if (e =? 0)%nat then paddingLast decodeMap data else forallb (negb ∘ isValue decodeMap) data) &&
    (if has options Base64ValidatePadding then (equalsSigns data =? 0)%nat || (e + equalsSigns data <=? 2)%nat else true).
Proof.
  revert e. induction data as [|ch data IH]; intros e; [cbn; by destruct (e =? 0)%nat, (has options Base64ValidatePadding)|].
  cbn [accepts forallb paddingLast]. rewrite equalsSigns_cons. unfold permitted at 1. rewrite !IH. unfold compose.
  assert (Hv : (ch =? cEqual) = true → isValue decodeMap ch = false) by (intros E; unfold isValue; by rewrite E).
  destruct (ch =? cEqual) eqn:E; [rewrite (Hv eq_refl)|].
  - cbn [orb andb negb Nat.add Nat.eqb]. destruct (forallb (permitted options decodeMap) data); [|by rewrite !andb_false_r].
    destruct (has options Base64ValidatePadding), (e =? 0)%nat eqn:E0, (forallb (λ x, negb (isValue decodeMap x)) data); cbn [andb negb]; rewrite ?andb_true_r, ?andb_false_r; try done.
    all: destruct (Nat.ltb_spec 2 (S e)), (Nat.eqb_spec (equalsSigns data) 0), (Nat.leb_spec (S (e + equalsSigns data)) 2), (Nat.leb_spec (e + S (equalsSigns data)) 2); cbn; done || lia.
  - cbn [orb Nat.add]. destruct (isValue decodeMap ch); cbn [orb andb negb].
    + destruct (e =? 0)%nat; cbn [andb]; [done|]. by rewrite andb_false_r.
    + destruct (has options Base64IgnoreSpacesAndNewLines && isSpaceOrNewline ch); cbn [andb]; [|done]. done.
Qed.

Lemma acceptable_split data :
  acceptable options decodeMap data = accepts 0 data &&
    let n := length (values decodeMap data) in let e := equalsSigns data in
    (if (n =? 0)%nat then (e =? 0)%nat
     else (if has options Base64ValidatePadding then (e =? 0)%nat || ((n + e) mod 4 =? 0)%nat else true) && negb (n mod 4 =? 1)%nat).
Proof.
  unfold acceptable. rewrite accepts_spec. cbn [Nat.eqb Nat.add]. f_equal. f_equal.
  destruct (has options Base64ValidatePadding); [|done]. by destruct (Nat.eqb_spec (equalsSigns data) 0) as [-> |].
Qed.

Lemma decodeInternal_ok data :
  Z.of_nat (length data) < 2 ^ 32 →
  ∃ out, base64DecodeInternal data options decodeMap = Some (acceptable options decodeMap data, out) ∧
    (acceptable options decodeMap data = true → out = Some <$> pack (values decodeMap data)).
Proof.
  intros H32. unfold base64DecodeInternal. case_bool_decide as Enil; [subst data; eexists; split; [|done]; unfold acceptable; cbn; by destruct (has _ _)|].
  pose proof (values_length data) as Hvl. pose proof (values_sextets data) as Hvs.
  assert (Hc := collectValues_ok data [] (length data) 0 (mkCollecting (replicate (length data) None) 0 0) eq_refl (le_n _)).
  apply wp_elim in Hc as (hadError & s & -> & Hb & Hs). cbn [mbind option_bind]. rewrite acceptable_split. destruct (accepts 0 data); cbn [negb] in Hb; subst hadError; cbn [andb].
  2: by eexists.
  rewrite (Hs eq_refl). cbn [c_outLength c_out c_equals app Nat.add].
  rewrite take_app_length' by (by rewrite length_fmap). set (vs := values decodeMap data) in *. set (e := equalsSigns data).
  destruct (Nat.eqb_spec (length vs) 0) as [E0|Hn0].
  { eexists. split; [done|]. intros _. by apply length_zero_iff_nil in E0 as ->. }
  assert (Hpack : ∃ out, (if (length vs mod 4 =? 1)%nat then Some (false, Some <$> vs)
      else if (length vs - (length vs + 3) / 4 =? 0)%nat then Some (false, Some <$> vs)
      else '(_, out) ← packAll (length vs - (length vs + 3) / 4) (Some <$> vs); Some (true, take (length vs - (length vs + 3) / 4) out)) =
      Some (negb (length vs mod 4 =? 1)%nat, out) ∧ (negb (length vs mod 4 =? 1)%nat = true → out = Some <$> pack vs)).
  { destruct (Nat.eqb_spec (length vs mod 4) 1) as [|Hm]; [by eexists|]. rewrite (proj2 (Nat.eqb_neq _ _)) by lia.
    rewrite <-(pack_length vs Hm). assert (Hp := packAll_ok vs Hvs Hm ltac:(by destruct vs) ltac:(lia)). apply wp_elim in Hp as ([] & out & -> & Ht).
    cbn [mbind option_bind]. eexists. split; [done|]. by intros _. }
  cbv zeta. destruct (has options Base64ValidatePadding); [|done].
  destruct (Nat.eqb_spec e 0), (Nat.eqb_spec ((length vs + e) mod 4) 0); cbn [negb andb orb]; try done. by eexists.
Qed.

End Decoding.

(** The tables. *)
Lemma decMap_values : Forall (λ v, v = nonAlphabet ∨ isSextet v) base64DecMap ∧ Forall (λ v, v = nonAlphabet ∨ isSextet v) base64URLDecMap.
Proof.
  assert (Hall : ∀ m, forallb (λ v, (v =? nonAlphabet) || (0 <=? v) && (v <? 64)) m = true → Forall (λ v, v = nonAlphabet ∨ isSextet v) m).
  { intros m Hm. apply Forall_forall. intros v Hv. rewrite forallb_forall in Hm. apply list_elem_of_In, Hm in Hv. unfold isSextet. lia. }
  split; apply Hall; by vm_compute.
Qed.

(** ** Encoding *)

(** The length of the layout: four characters a group, and a line feed before
    every nineteenth group but the first. *)
Lemma layout_length lf i codes :
  length (layout lf i codes) = (length codes + if lf then (i + (length codes + 3) / 4 - 1) / 19 - (i - 1) / 19 else 0)%nat.
Proof.
  assert (Hlf : ∀ i, length (lineFeed lf i) = if lf then (i / 19 - (i - 1) / 19)%nat else 0%nat).
  { intros j. unfold lineFeed. destruct lf; [|done]. cbn [andb]. destruct (Nat.eqb_spec j 0) as [-> |]; [done|]. cbn [negb andb].
    destruct (Nat.eqb_spec (j mod 19) 0); cbn [length]; lia. }
  revert i. induction codes as [|a|a b|a b c|a b c d codes IH] using groups4_ind; intros i; cbn [layout]; rewrite ?length_app, ?Hlf; cbn [length]; rewrite ?IH;
    destruct lf; lia.
Qed.

(** The state of the encoder: what is written, the room left, and the count when
    line feeds are inserted. *)
Definition encoding (lf : bool) (i : nat) (done : list Z) (room : nat) (s : Encoding) : Prop :=
  s = mkEncoding ((Some <$> done) ++ replicate room None) (length done) (if lf then 4 * Z.of_nat i else 0).

Lemma wp_emit lf i done room c (Q : unit → Encoding → Prop) s :
  encoding lf i done room s → (1 ≤ room)%nat → (∀ s', encoding lf i (done ++ [c]) (room - 1) s' → Q tt s') → wp (emit c) Q s.
Proof.
  intros -> Hr HQ. unfold wp, emit, modifyOpt. cbn [e_didx e_out e_count].
  rewrite (proj2 (Nat.ltb_lt _ _)) by (rewrite length_app, length_fmap, length_replicate; lia). apply HQ. unfold encoding. f_equal; [|rewrite length_app; cbn; lia].
  destruct room as [|room]; [lia|]. rewrite insert_app_r_alt by (by rewrite length_fmap). rewrite length_fmap, Nat.sub_diag. cbn.
  by rewrite fmap_app, <-app_assoc, Nat.sub_0_r.
Qed.

Lemma wp_emitCode encodeMap lf i done room v (Q : unit → Encoding → Prop) s :
  length encodeMap = 64%nat → isSextet v → encoding lf i done room s → (1 ≤ room)%nat → (∀ s', encoding lf i (done ++ [encodeMap !!! Z.to_nat v]) (room - 1) s' → Q tt s') →
  wp (emitCode encodeMap v) Q s.
Proof.
  intros Hmap Hv Hs Hr HQ. unfold emitCode, isSextet in *. destruct (lookup_lt_is_Some_2 encodeMap (Z.to_nat v)) as [c Ec]; [lia|].
  apply wp_bind. unfold wp at 1, fetch. rewrite Ec. eapply wp_emit; [done..|]. intros s' Hs'. apply HQ. by rewrite (list_lookup_total_correct _ _ _ Ec).
Qed.

Lemma wp_lineFeed lf i done room (positive : Z → bool) (Q : unit → Encoding → Prop) s :
  (∀ c, 0 ≤ c → positive c = negb (c =? 0)) → encoding lf i done room s → (length (lineFeed lf i) ≤ room)%nat →
  (∀ s', encoding lf i (done ++ lineFeed lf i) (room - length (lineFeed lf i)) s' → Q tt s') → wp (lineFeedIfFull lf positive) Q s.
Proof.
  intros Hpos Hs Hr HQ. unfold lineFeedIfFull. unfold lineFeed in *. unfold encoding in Hs, HQ. destruct lf; cbn [andb] in *.
  - apply wp_bind, wp_gets. rewrite Hs. cbn [e_count]. rewrite Hpos by lia.
    assert ((4 * Z.of_nat i =? 0) = (i =? 0)%nat) as -> by (destruct (Z.eqb_spec (4 * Z.of_nat i) 0), (Nat.eqb_spec i 0); lia).
    assert ((4 * Z.of_nat i mod 76 =? 0) = (i mod 19 =? 0)%nat) as -> by (destruct (Z.eqb_spec (4 * Z.of_nat i mod 76) 0), (Nat.eqb_spec (i mod 19) 0); lia).
    destruct (negb (i =? 0)%nat && (i mod 19 =? 0)%nat).
    + by eapply (wp_emit true).
    + apply wp_ret. apply HQ. cbn. by rewrite app_nil_r, Nat.sub_0_r.
  - apply wp_ret, HQ. cbn. by rewrite app_nil_r, Nat.sub_0_r.
Qed.

Section Encoding.
Context (data encodeMap : list Z) (lf : bool).
Hypothesis data_bytes : Forall isByte data.
Hypothesis encodeMap_length : length encodeMap = 64%nat.
Hypothesis data_short : lf = true → 4 * (Z.of_nat (length data) + 2) < 3 * 2 ^ 31.
Hypothesis data_u32 : Z.of_nat (length data) < 2 ^ 32.

Definition codes (bytes : list Z) : list Z := (λ v, encodeMap !!! Z.to_nat v) <$> sextets bytes.

(** How the loop over the groups ends: at most two bytes are left. *)
Definition encodedGroups (i : nat) (done : list Z) (room : nat) (rest : list Z) (sidx : nat) (s : Encoding) : Prop :=
  ∃ i' done' room', sidx = (3 * i')%nat ∧ (sidx ≤ length data)%nat ∧ (length (drop sidx data) < 3)%nat ∧ encoding lf i' done' room' s ∧
    (length done' + room' = length done + room)%nat ∧
    done' ++ layout lf i' (codes (drop sidx data)) = done ++ layout lf i (codes rest).

Lemma encodeGroups_ok fuel i done room s :
  encoding lf i done room s → (length (drop (3 * i) data) < 3 * fuel)%nat → (2 ≤ length data)%nat → (3 * i ≤ length data)%nat →
  (length (layout lf i (codes (drop (3 * i) data))) ≤ room)%nat →
  wp (encodeGroups fuel data lf encodeMap (3 * i)) (encodedGroups i done room (drop (3 * i) data)) s.
Proof.
  revert i done room s. induction fuel as [|fuel IH]; intros i done room s Hs Hf H2 Hi Hroom; [lia|].
  cbn [encodeGroups]. unfold u32. rewrite Z.mod_small by lia.
  assert (Hdl : length (drop (3 * i) data) = (length data - 3 * i)%nat) by apply length_drop.
  destruct (Z.ltb_spec (Z.of_nat (3 * i)) (Z.of_nat (length data) - 2)) as [Hlt|Hge].
  2: { apply wp_ret. exists i, done, room. split_and!; try done; lia. }
  destruct (drop (3 * i) data) as [|d0 [|d1 [|d2 rest]]] eqn:Ed; cbn [length] in Hdl, Hf; [lia..|].
  assert (E0 : data !! (3 * i)%nat = Some d0) by (by rewrite <-(Nat.add_0_r (3 * i)), <-lookup_drop, Ed).
  assert (E1 : data !! (3 * i + 1)%nat = Some d1) by (by rewrite <-lookup_drop, Ed).
  assert (E2 : data !! (3 * i + 2)%nat = Some d2) by (by rewrite <-lookup_drop, Ed).
  assert (Er : drop (3 * S i) data = rest) by (replace (3 * S i)%nat with (3 * i + 3)%nat by lia; by rewrite <-drop_drop, Ed).
  pose proof (Forall_lookup_1 _ _ _ _ data_bytes E0) as B0. pose proof (Forall_lookup_1 _ _ _ _ data_bytes E1) as B1.
  pose proof (Forall_lookup_1 _ _ _ _ data_bytes E2) as B2. cbn [codes sextets fmap list_fmap] in Hroom |- *. unfold codes in Hroom |- *.
  cbn [sextets fmap list_fmap layout] in Hroom |- *. rewrite length_app in Hroom. cbn [length] in Hroom. fold (codes rest) in Hroom |- *.
  apply wp_bind. eapply wp_lineFeed; [done|done|lia|]. clear s Hs. intros s Hs.
  apply wp_bind. eapply wp_mono with (Q := λ _ s, encoding lf (S i) (done ++ lineFeed lf i) (room - length (lineFeed lf i)) s).
  { rewrite Hs. destruct lf; [|by apply wp_ret]. apply wp_modify. unfold encoding. cbn [e_out e_didx e_count]. f_equal.
    unfold i32. specialize (data_short eq_refl). rewrite Z.mod_small by lia. lia. }
  clear s Hs. intros _ s Hs. cbn beta. unfold isByte in *.
  apply wp_bind. unfold wp at 1, fetch. rewrite E0. apply wp_bind. unfold wp at 1, fetch. rewrite E1. apply wp_bind. unfold wp at 1, fetch. rewrite E2.
  rewrite code_first, code_second, code_third, code_fourth by done.
  apply wp_bind. eapply wp_emitCode; [done|unfold isSextet; lia|done|lia|]. clear s Hs. intros s Hs.
  apply wp_bind. eapply wp_emitCode; [done|unfold isSextet; lia|done|lia|]. clear s Hs. intros s Hs.
  apply wp_bind. eapply wp_emitCode; [done|unfold isSextet; lia|done|lia|]. clear s Hs. intros s Hs.
  apply wp_bind. eapply wp_emitCode; [done|unfold isSextet; lia|done|lia|]. clear s Hs. intros s Hs.
  replace (3 * i + 3)%nat with (3 * S i)%nat by lia. rewrite <-Er. eapply wp_mono; [apply IH; [done|rewrite Er; lia|done|lia|rewrite Er; lia]|].
  intros sidx s' (i' & done' & room' & -> & Hle & Hl & Hs' & Hlen & Hlay). exists i', done', room'. split_and!; try done.
  - rewrite !length_app in Hlen. cbn in Hlen. lia.
  - rewrite Hlay, Er. by rewrite <-!app_assoc.
Qed.

Lemma encodeRest_ok i done room s (Q : unit → Encoding → Prop) :
  encoding lf i done room s → (length (drop (3 * i) data) < 3)%nat → (3 * i ≤ length data)%nat → (1 ≤ length data)%nat →
  (length (layout lf i (codes (drop (3 * i) data))) ≤ room)%nat →
  (∀ s', encoding lf i (done ++ layout lf i (codes (drop (3 * i) data))) (room - length (layout lf i (codes (drop (3 * i) data)))) s' → Q tt s') →
  wp (encodeRest data lf encodeMap (3 * i)) Q s.
Proof.
  intros Hs H3 Hi H1 Hroom HQ. unfold encodeRest. assert (Hdl : length (drop (3 * i) data) = (length data - 3 * i)%nat) by apply length_drop.
  assert (E : ∀ k, data !! (3 * i + k)%nat = drop (3 * i) data !! k) by (intros k; by rewrite lookup_drop).
  assert (Hb : Forall isByte (drop (3 * i) data)) by (by apply Forall_drop). unfold u32. rewrite Z.mod_small by lia.
  destruct (drop (3 * i) data) as [|d0 [|d1 [|d2 rest]]] eqn:Ed; cbn [length] in Hdl, H3; [..|lia].
  - rewrite (proj2 (Nat.ltb_ge _ _)) by lia. apply wp_ret, HQ. cbn. by rewrite app_nil_r, Nat.sub_0_r.
  - assert (E0 : data !! (3 * i)%nat = Some d0) by (rewrite <-(Nat.add_0_r (3 * i)); by rewrite E). apply Forall_cons in Hb as [B0 _]. unfold isByte in *.
    cbn [codes sextets fmap list_fmap] in *. unfold codes in *. cbn [sextets fmap list_fmap layout] in *. rewrite length_app in *. cbn [length] in *.
    rewrite (proj2 (Nat.ltb_lt _ _)), (proj2 (Z.ltb_ge _ _)) by lia.
    apply wp_bind. eapply wp_lineFeed; [intros; lia|done|lia|]. clear s Hs. intros s Hs.
    apply wp_bind. unfold wp at 1, fetch. rewrite E0, code_first, code_second_last by done.
    apply wp_bind. eapply wp_emitCode; [done|unfold isSextet; lia|done|lia|]. clear s Hs. intros s Hs.
    eapply wp_emitCode; [done|unfold isSextet; lia|done|lia|]. clear s Hs. intros s Hs. apply HQ.
    rewrite <-!app_assoc in Hs. cbn [app] in Hs. by replace (room - (length (lineFeed lf i) + 2))%nat with (room - length (lineFeed lf i) - 1 - 1)%nat by lia.
  - assert (E0 : data !! (3 * i)%nat = Some d0) by (rewrite <-(Nat.add_0_r (3 * i)); by rewrite E).
    assert (E1 : data !! (3 * i + 1)%nat = Some d1) by (by rewrite E).
    apply Forall_cons in Hb as [B0 [B1 _]%Forall_cons]. unfold isByte in *.
    cbn [codes sextets fmap list_fmap] in *. unfold codes in *. cbn [sextets fmap list_fmap layout] in *. rewrite length_app in *. cbn [length] in *.
    rewrite (proj2 (Nat.ltb_lt _ _)), (proj2 (Z.ltb_lt _ _)) by lia.
    apply wp_bind. eapply wp_lineFeed; [intros; lia|done|lia|]. clear s Hs. intros s Hs.
    apply wp_bind. unfold wp at 1, fetch. rewrite E0, code_first by done.
    apply wp_bind. eapply wp_emitCode; [done|unfold isSextet; lia|done|lia|]. clear s Hs. intros s Hs.
    apply wp_bind. unfold wp at 1, fetch. rewrite E1, code_second, code_third_last by done.
    apply wp_bind. eapply wp_emitCode; [done|unfold isSextet; lia|done|lia|]. clear s Hs. intros s Hs.
    eapply wp_emitCode; [done|unfold isSextet; lia|done|lia|]. clear s Hs. intros s Hs. apply HQ.
    rewrite <-!app_assoc in Hs. cbn [app] in Hs. by replace (room - (length (lineFeed lf i) + 3))%nat with (room - length (lineFeed lf i) - 1 - 1 - 1)%nat by lia.
Qed.

End Encoding.

Lemma pad_ok fuel lf i done room s :
  encoding lf i done room s → (room ≤ fuel)%nat → wp (pad fuel) (λ _, encoding lf i (done ++ replicate room cEqual) 0) s.
Proof.
  assert (Hfull : ∀ done s, encoding lf i done 0 s → (length (e_out s) <=? e_didx s)%nat = true).
  { intros l s' ->. cbn [e_out e_didx replicate]. apply Nat.leb_le. rewrite app_nil_r, length_fmap. lia. }
  revert done room s. induction fuel as [|fuel IH]; intros done room s Hs Hf; cbn [pad]; apply wp_bind, wp_gets.
  - assert (room = 0%nat) as -> by lia. rewrite (Hfull _ _ Hs). apply wp_ret. cbn. by rewrite app_nil_r.
  - destruct room as [|room]; [rewrite (Hfull _ _ Hs); apply wp_ret; cbn; by rewrite app_nil_r|].
    assert ((length (e_out s) <=? e_didx s)%nat = false) as ->.
    { rewrite Hs. cbn [e_out e_didx]. apply Nat.leb_gt. rewrite length_app, length_fmap, length_replicate. lia. }
    apply wp_bind. eapply wp_emit; [done|lia|]. clear s Hs. intros s Hs. eapply wp_mono; [apply (IH (done ++ [cEqual]) room); [|lia]|].
    + by rewrite Nat.sub_succ, Nat.sub_0_r in Hs.
    + intros ? s'. by rewrite <-app_assoc.
Qed.

(** Up to nineteen groups need no line feed. *)
Lemma layout_short i codes : (i + (length codes + 3) / 4 ≤ 19)%nat → layout true i codes = layout false i codes.
Proof.
  assert (Hlf : ∀ i, (i < 19)%nat → lineFeed true i = []).
  { intros j Hj. unfold lineFeed. cbn [andb]. destruct (Nat.eqb_spec j 0); [done|]. cbn [negb andb].
    destruct (Nat.eqb_spec (j mod 19) 0); [lia|done]. }
  revert i. induction codes as [|a|a b|a b c|a b c d codes IH] using groups4_ind; intros i Hi; cbn [layout length] in *; [done|rewrite Hlf by lia; done..|].
  rewrite Hlf, IH by lia. done.
Qed.

(** The result without the unwritten places. *)
Lemma mapM_written done : mapM id ((Some <$> done) : list (option Z)) = Some done.
Proof. induction done as [|c done IH]; [done|]. cbn. by rewrite IH. Qed.

(** The length the encoder reserves. *)
Definition reserved (lf : bool) (n : nat) : nat := ((n + 2) / 3 * 4 + if lf then ((n + 2) / 3 * 4 - 1) / 76 else 0)%nat.

Lemma reserved_fits lf data encodeMap :
  let n := length (layout lf 0 (codes encodeMap data)) in
  reserved lf (length data) = (n + length (padding (length (codes encodeMap data))))%nat.
Proof.
  cbv zeta. rewrite layout_length. unfold reserved, padding, codes. rewrite length_replicate, length_fmap, sextets_length. destruct lf; lia.
Qed.

(** The body of the encoder on a vector of the reserved length. *)
Lemma encodeBody_ok data encodeMap lf (url : bool) :
  Forall isByte data → length encodeMap = 64%nat → (lf = true → 4 * (Z.of_nat (length data) + 2) < 3 * 2 ^ 31) →
  Z.of_nat (length data) < 2 ^ 32 → (1 ≤ length data)%nat →
  let text := layout lf 0 (codes encodeMap data) in
  wp (sidx ← (if 1 <? Z.of_nat (length data) then encodeGroups (S (length data)) data lf encodeMap 0 else mret 0%nat);
      encodeRest data lf encodeMap sidx;;
      if url then modify (λ s, mkEncoding (take (e_didx s) (e_out s)) (e_didx s) (e_count s))
      else n ← gets (length ∘ e_out); pad n)
    (λ _ s, e_out s = Some <$> (text ++ if url then [] else padding (length (codes encodeMap data))))
    (mkEncoding (replicate (reserved lf (length data)) None) 0 0).
Proof.
  intros Hb Hmap Hshort H32 H1. cbv zeta. pose proof (reserved_fits lf data encodeMap) as Hres. cbv zeta in Hres.
  assert (Hs : encoding lf 0 [] (reserved lf (length data)) (mkEncoding (replicate (reserved lf (length data)) None) 0 0)) by (by destruct lf).
  apply wp_bind. eapply wp_mono with (Q := encodedGroups data encodeMap lf 0 [] (reserved lf (length data)) data).
  { destruct (Z.ltb_spec 1 (Z.of_nat (length data))).
    - apply (encodeGroups_ok data encodeMap lf Hb Hmap Hshort H32 _ 0); rewrite ?Nat.mul_0_r, ?drop_0; try done; lia.
    - apply wp_ret. exists 0%nat, [], (reserved lf (length data)). rewrite drop_0. split_and!; try done; lia. }
  intros sidx s (i & done & room & -> & Hi & H3 & Hs' & Hroom & Hlay). cbn [app length Nat.add] in Hroom, Hlay. rewrite <-Hlay in Hres |- *. rewrite length_app in Hres.
  apply wp_bind. eapply encodeRest_ok; [done..|lia|]. clear s Hs'. intros s Hs'. set (text := done ++ layout lf i _) in *.
  set (left := (room - _)%nat) in Hs'. assert (Hleft : left = length (padding (length (codes encodeMap data)))) by (subst left; lia). destruct url.
  - apply wp_modify. rewrite Hs'. cbn [e_out e_didx]. by rewrite take_app_length', app_nil_r by (by rewrite length_fmap).
  - apply wp_bind, wp_gets. eapply wp_mono; [eapply pad_ok; [done|]|].
    + rewrite Hs'. cbn [compose e_out]. rewrite length_app, length_replicate. lia.
    + intros ? s' Hs''. cbn beta. rewrite Hs''. cbn [e_out replicate]. rewrite app_nil_r, Hleft. unfold padding. by rewrite length_replicate.
Qed.

(** What the encoder gives, with its buffer filled exactly. *)
Lemma encodeInternal_ok data policy encodeMap :
  Forall isByte data → length encodeMap = 64%nat → Z.of_nat (length data) ≤ maxInputBufferSize →
  (policy = Base64InsertLFs → 4 * (Z.of_nat (length data) + 2) < 3 * 2 ^ 31) →
  base64EncodeInternal data policy encodeMap = Some (encodeSpec policy encodeMap data).
Proof.
  intros Hb Hmap Hmax Hshort. unfold base64EncodeInternal. assert (Hmaxv : maxInputBufferSize = 3179391370) by (by vm_compute).
  destruct (Z.eqb_spec (Z.of_nat (length data)) 0) as [E0|Hne].
  { assert (data = []) as -> by (destruct data; [done|cbn in E0; lia]). cbn [orb]. unfold encodeSpec. cbn. by case_bool_decide. }
  rewrite (proj2 (Z.ltb_ge _ _) Hmax). cbn [orb].
  set (out := u32 (u32 (Z.of_nat (length data) + 2) / 3 * 4)).
  assert (Hout : out = Z.of_nat ((length data + 2) / 3 * 4)) by (subst out; unfold u32; rewrite !Z.mod_small; lia).
  set (lf := bool_decide (policy = Base64InsertLFs) && (76 <? out)).
  assert (Hres : Z.to_nat (if lf then u32 (out + (out - 1) / 76) else out) = reserved lf (length data)).
  { unfold reserved. destruct lf; [unfold u32; rewrite Z.mod_small|]; lia. }
  assert (Hlf : layout (bool_decide (policy = Base64InsertLFs)) 0 (codes encodeMap data) = layout lf 0 (codes encodeMap data)).
  { subst lf. destruct (bool_decide (policy = Base64InsertLFs)); [|done]. destruct (Z.ltb_spec 76 out); [done|]. apply layout_short.
    unfold codes. rewrite length_fmap, sextets_length. lia. }
  pose proof (encodeBody_ok data encodeMap lf (bool_decide (policy = Base64URLPolicy)) Hb Hmap) as Hbody. cbv zeta in Hbody |- *. rewrite Hres.
  apply wp_elim in Hbody as (u & s & Es & Eout); [|intros Elf; apply Hshort; subst lf; by case_bool_decide|lia..].
  cbv zeta in Es. rewrite Es. cbn [mbind option_bind]. rewrite Eout, mapM_written. unfold encodeSpec. fold (codes encodeMap data). by rewrite Hlf.
Qed.

(** ** There and back *)

Section RoundTrip.
Context `{UnicodeData} (options : Z) (encodeMap decodeMap : list Z).

(** The tables belong together. *)
Hypothesis tables : ∀ v, isSextet v → encodeMap !!! Z.to_nat v ≠ cEqual ∧ decodedCharacter decodeMap (encodeMap !!! Z.to_nat v) = v.
Hypothesis newline : decodedCharacter decodeMap 10 = nonAlphabet.

Definition isCode (c : Z) : Prop := isValue decodeMap c = true.

Lemma codes_values data : Forall isByte data → Forall isCode (codes encodeMap data) ∧ decodedCharacter decodeMap <$> codes encodeMap data = sextets data.
Proof.
  intros Hb. destruct (pack_sextets data Hb) as [_ Hs]. unfold codes. induction Hs as [|v vs Hv Hvs [IH1 IH2]]; [done|]. rewrite !fmap_cons, IH2.
  destruct (tables v Hv) as [Hne ->]. split; [|done]. apply Forall_cons. split; [|done]. unfold isCode, isValue.
  destruct (tables v Hv) as [_ ->]. rewrite (proj2 (Z.eqb_neq _ _) Hne). unfold nonAlphabet, isSextet in *. cbn. apply negb_true_iff, Z.eqb_neq. lia.
Qed.

Lemma newline_not_value : isValue decodeMap 10 = false.
Proof. unfold isValue. by rewrite newline. Qed.

(** The characters of the layout: the codes, and line feeds. *)
Lemma layout_chars lf i cs :
  Forall isCode cs → filter (isValue decodeMap) (layout lf i cs) = cs ∧ Forall (λ c, isCode c ∨ lf = true ∧ c = 10) (layout lf i cs).
Proof.
  assert (Hlf : ∀ i, filter (isValue decodeMap) (lineFeed lf i) = [] ∧ Forall (λ c, isCode c ∨ lf = true ∧ c = 10) (lineFeed lf i)).
  { intros j. unfold lineFeed. destruct lf; cbn [andb]; [|split; [done|apply Forall_nil_2]]. case_match; (split; [|repeat constructor; auto]); [|done].
    rewrite filter_cons_False; [done|]. rewrite newline_not_value. by intros []. }
  revert i. induction cs as [|a|a b|a b c|a b c d cs IH] using groups4_ind; intros i; cbn [layout]; rewrite ?Forall_cons; unfold isCode in *; intros Hc.
  all: rewrite ?filter_app, ?Forall_app, ?(proj1 (Hlf i)); cbn [app].
  - split; [done|apply Forall_nil_2].
  - destruct Hc as [Ha _]. split; [by rewrite filter_cons_True by (by rewrite Ha)|]. split; [apply Hlf|]. repeat constructor; auto.
  - destruct Hc as (Ha & Hb & _). split; [by rewrite !filter_cons_True by (by rewrite ?Ha, ?Hb)|]. split; [apply Hlf|]. repeat constructor; auto.
  - destruct Hc as (Ha & Hb & Hc & _). split; [by rewrite !filter_cons_True by (by rewrite ?Ha, ?Hb, ?Hc)|]. split; [apply Hlf|]. repeat constructor; auto.
  - destruct Hc as (Ha & Hb & Hc & Hd & Hcs). destruct (IH (S i) Hcs) as [-> Hf] || destruct (IH (S i) Hcs) as [Efil Hf].
    split; [by rewrite !filter_cons_True, Efil by (by rewrite ?Ha, ?Hb, ?Hc, ?Hd)|]. split; [apply Hlf|]. repeat (constructor; auto).
Qed.

Lemma isCode_not_equals c : isCode c → c ≠ cEqual.
Proof. unfold isCode, isValue. intros Hc ->. done. Qed.

(** A text of such characters and some padding is accepted. *)
Lemma padded_chars l k :
  Forall (λ c, isCode c ∨ has options Base64IgnoreSpacesAndNewLines = true ∧ c = 10) l →
  values decodeMap (l ++ replicate k cEqual) = decodedCharacter decodeMap <$> filter (isValue decodeMap) l ∧
  equalsSigns (l ++ replicate k cEqual) = k ∧ forallb (permitted options decodeMap) (l ++ replicate k cEqual) = true ∧
  paddingLast decodeMap (l ++ replicate k cEqual) = true.
Proof.
  intros Hl. assert (Hpad : values decodeMap (replicate k cEqual) = [] ∧ equalsSigns (replicate k cEqual) = k ∧
    forallb (permitted options decodeMap) (replicate k cEqual) = true ∧ forallb (negb ∘ isValue decodeMap) (replicate k cEqual) = true).
  { induction k as [|k (IH1 & IH2 & IH3 & IH4)]; [done|]. rewrite replicate_S, values_cons, equalsSigns_cons, IH1, IH2. cbn [forallb]. by rewrite IH3, IH4. }
  destruct Hpad as (P1 & P2 & P3 & P4). induction Hl as [|c l Hc Hl (IH1 & IH2 & IH3 & IH4)].
  { cbn [app]. split_and!; try done. destruct k; [done|]. cbn in *. done. }
  rewrite <-!app_comm_cons, values_cons, equalsSigns_cons. cbn [forallb paddingLast]. rewrite IH1, IH2, IH3.
  assert (Hne : (c =? cEqual) = false) by (apply Z.eqb_neq; destruct Hc as [Hc|[_ ->]]; [by apply isCode_not_equals|done]).
  rewrite Hne, IH4, andb_true_r. unfold permitted. rewrite Hne. cbn [orb]. destruct Hc as [Hc|[Hi ->]].
  - rewrite filter_cons_True by (by rewrite Hc). by rewrite Hc.
  - rewrite filter_cons_False by (rewrite newline_not_value; by intros []). by rewrite newline_not_value, Hi.
Qed.

(** What was encoded is accepted, and its values are those of the bytes. *)
Lemma encoded_acceptable policy data :
  Forall isByte data → (policy = Base64InsertLFs → has options Base64IgnoreSpacesAndNewLines = true) →
  acceptable options decodeMap (encodeSpec policy encodeMap data) = true ∧ values decodeMap (encodeSpec policy encodeMap data) = sextets data.
Proof.
  intros Hb Hp. destruct (codes_values data Hb) as [Hc Hv]. destruct (layout_chars (bool_decide (policy = Base64InsertLFs)) 0 _ Hc) as [Hfil Hall].
  set (k := if bool_decide (policy = Base64URLPolicy) then 0%nat else ((4 - length (codes encodeMap data) mod 4) mod 4)%nat).
  assert (Espec : encodeSpec policy encodeMap data = layout (bool_decide (policy = Base64InsertLFs)) 0 (codes encodeMap data) ++ replicate k cEqual).
  { unfold encodeSpec. fold (codes encodeMap data). subst k. by destruct (bool_decide (policy = Base64URLPolicy)). }
  destruct (padded_chars (layout (bool_decide (policy = Base64InsertLFs)) 0 (codes encodeMap data)) k) as (P1 & P2 & P3 & P4).
  { eapply Forall_impl; [exact Hall|]. cbn beta. intros c [Hcc|[Hlf ->]]; [by left|right]. split; [|done]. apply Hp. by apply bool_decide_eq_true in Hlf. }
  rewrite <-Espec in P1, P2, P3, P4. rewrite Hfil, Hv in P1. split; [|done]. unfold acceptable. rewrite P1, P2, P3, P4. cbn [andb].
  assert (Hlen : length (codes encodeMap data) = length (sextets data)) by (unfold codes; apply length_fmap).
  pose proof (sextets_length data) as Hsl. assert (Hk : (k ≤ 2)%nat ∧ (k = 0 ∨ (length (sextets data) + k) mod 4 = 0)%nat ∧ (length data = 0 → k = 0)%nat ∧ (length (sextets data) mod 4 ≠ 1)%nat).
  { subst k. destruct (bool_decide (policy = Base64URLPolicy)); lia. }
  destruct Hk as (K2 & Kz & K0 & K1). rewrite (proj2 (Nat.eqb_neq _ _) K1). cbn [negb]. rewrite andb_true_r.
  destruct (Nat.eqb_spec (length (sextets data)) 0) as [E0|Hne].
  - rewrite (proj2 (Nat.eqb_eq k 0)) by (apply K0; lia). rewrite (proj2 (Nat.leb_le _ _) K2). by destruct (has options Base64ValidatePadding).
  - destruct (has options Base64ValidatePadding); [|done]. rewrite (proj2 (Nat.leb_le _ _) K2). cbn [andb].
    destruct Kz as [-> | Kz]; [done|]. by rewrite Kz, orb_true_r.
Qed.

End RoundTrip.

Lemma tables_base64 v : isSextet v → base64EncMap !!! Z.to_nat v ≠ cEqual ∧ decodedCharacter base64DecMap (base64EncMap !!! Z.to_nat v) = v.
Proof.
  intros Hv. assert (Hall : (negb (base64EncMap !!! Z.to_nat v =? cEqual) && (decodedCharacter base64DecMap (base64EncMap !!! Z.to_nat v) =? v)) = true).
  { apply (forall_below 64 (λ v, negb (base64EncMap !!! Z.to_nat v =? cEqual) && (decodedCharacter base64DecMap (base64EncMap !!! Z.to_nat v) =? v))); [by vm_compute|done]. }
  apply andb_true_iff in Hall as [H1 H2]. split; [|by apply Z.eqb_eq]. by apply negb_true_iff, Z.eqb_neq in H1.
Qed.

Lemma tables_base64URL v :
  isSextet v → base64URLEncMap !!! Z.to_nat v ≠ cEqual ∧ decodedCharacter base64URLDecMap (base64URLEncMap !!! Z.to_nat v) = v.
Proof.
  intros Hv. assert (Hall : (negb (base64URLEncMap !!! Z.to_nat v =? cEqual) && (decodedCharacter base64URLDecMap (base64URLEncMap !!! Z.to_nat v) =? v)) = true).
  { apply (forall_below 64 (λ v, negb (base64URLEncMap !!! Z.to_nat v =? cEqual) && (decodedCharacter base64URLDecMap (base64URLEncMap !!! Z.to_nat v) =? v))); [by vm_compute|done]. }
  apply andb_true_iff in Hall as [H1 H2]. split; [|by apply Z.eqb_eq]. by apply negb_true_iff, Z.eqb_neq in H1.
Qed.

(** The encoded text is not longer than the vector, which fits [unsigned]. *)
Lemma encodeSpec_length policy encodeMap data : (length (encodeSpec policy encodeMap data) ≤ reserved (bool_decide (policy = Base64InsertLFs)) (length data))%nat.
Proof.
  rewrite (reserved_fits _ data encodeMap). unfold encodeSpec. fold (codes encodeMap data). rewrite length_app.
  destruct (bool_decide (policy = Base64URLPolicy)); cbn [length]; lia.
Qed.

Lemma encodeSpec_u32 policy encodeMap data :
  Z.of_nat (length data) ≤ maxInputBufferSize → Z.of_nat (length (encodeSpec policy encodeMap data)) < 2 ^ 32.
Proof.
  intros Hmax. assert (Hmaxv : maxInputBufferSize = 3179391370) by (by vm_compute). pose proof (encodeSpec_length policy encodeMap data) as Hl.
  unfold reserved in Hl. destruct (bool_decide _); lia.
Qed.

(** C28: The encoder writes each character of its result once, inside the vector it
    has reserved, and gives the text of the specification: the codes of the six-bit
    groups, a line feed after every 76 of them when asked for, and the padding. *)
Theorem base64Encode_exact data policy encodeMap :
  Forall isByte data → length encodeMap = 64%nat → Z.of_nat (length data) ≤ maxInputBufferSize →
  (policy = Base64InsertLFs → 4 * (Z.of_nat (length data) + 2) < 3 * 2 ^ 31) →
  base64EncodeInternal data policy encodeMap = Some (encodeSpec policy encodeMap data).
Proof. apply encodeInternal_ok. Qed.

(** C27: The decoder, packing its vector in place, never reads an unwritten place or
    leaves the vector. It returns whether the text is acceptable under the options,
    and then leaves the bytes the values of the text stand for. *)
Theorem base64Decode_exact `{UnicodeData} data options decodeMap :
  Forall (λ v, v = nonAlphabet ∨ isSextet v) decodeMap → Z.of_nat (length data) < 2 ^ 32 →
  ∃ out, base64DecodeInternal data options decodeMap = Some (acceptable options decodeMap data, out) ∧
    (acceptable options decodeMap data = true → out = Some <$> pack (values decodeMap data)).
Proof. intros Hmap. by apply decodeInternal_ok. Qed.

(** C26: Bytes come back from their encoding: with and without line feeds when the
    decoder ignores white space, without them under all options, and in the form for
    URLs. *)
Theorem base64_roundtrip `{UnicodeData} data :
  Forall isByte data → 4 * (Z.of_nat (length data) + 2) < 3 * 2 ^ 31 →
  (∀ policy options, (policy = Base64InsertLFs → has options Base64IgnoreSpacesAndNewLines = true) →
    ∃ text, base64Encode data policy = Some text ∧ base64Decode text options = Some (true, Some <$> data)) ∧
  (∃ text, base64URLEncode data = Some text ∧ base64URLDecode text = Some (true, Some <$> data)).
Proof.
  intros Hb Hlen. destruct decMap_values as [Hmap HmapURL]. assert (Hmaxv : maxInputBufferSize = 3179391370) by (by vm_compute).
  assert (Hmax : Z.of_nat (length data) ≤ maxInputBufferSize) by lia. destruct (pack_sextets data Hb) as [Hpack _]. split.
  - intros policy options Hp. eexists. split; [by apply encodeInternal_ok|].
    destruct (encoded_acceptable options base64EncMap base64DecMap tables_base64 eq_refl policy data Hb Hp) as [Hacc Hval].
    destruct (decodeInternal_ok options base64DecMap Hmap (encodeSpec policy base64EncMap data)) as (out & E & Hout); [by apply encodeSpec_u32|].
    unfold base64Decode. rewrite E, Hacc. rewrite (Hout Hacc), Hval, Hpack. done.
  - eexists. split; [by apply encodeInternal_ok|].
    destruct (encoded_acceptable Base64Default base64URLEncMap base64URLDecMap tables_base64URL eq_refl Base64URLPolicy data Hb) as [Hacc Hval]; [done|].
    destruct (decodeInternal_ok Base64Default base64URLDecMap HmapURL (encodeSpec Base64URLPolicy base64URLEncMap data)) as (out & E & Hout); [by apply encodeSpec_u32|].
    unfold base64URLDecode. rewrite E, Hacc. rewrite (Hout Hacc), Hval, Hpack. done.
Qed.

(** ** Examples *)

Definition latin1Only : UnicodeData := {| isWhiteSpaceNeutral _ := false |}.

Lemma base64Encode_exact_witness : base64EncodeInternal [77; 97; 110; 33] Base64InsertLFs base64EncMap = Some [84; 87; 70; 117; 73; 81; 61; 61].
Proof.
  rewrite (base64Encode_exact [77; 97; 110; 33] Base64InsertLFs base64EncMap); [by vm_compute| |by vm_compute|by vm_compute|cbn; lia].
  repeat (apply Forall_cons; split; [by unfold isByte; lia|]). apply Forall_nil_2.
Defined.

Lemma base64Decode_exact_witness : let _ := latin1Only in
  ∃ out, base64DecodeInternal [84; 87; 10; 70; 117; 73; 81; 61; 61] 3 base64DecMap = Some (true, out) ∧ out = [Some 77; Some 97; Some 110; Some 33].
Proof.
  intros U. destruct (base64Decode_exact [84; 87; 10; 70; 117; 73; 81; 61; 61] 3 base64DecMap (proj1 decMap_values) ltac:(cbn; lia)) as (out & E & Hout).
  exists out. assert (Hacc : acceptable 3 base64DecMap [84; 87; 10; 70; 117; 73; 81; 61; 61] = true) by (by vm_compute).
  rewrite Hacc in E. split; [exact E|]. rewrite (Hout Hacc). by vm_compute.
Defined.

Lemma base64_roundtrip_witness : let _ := latin1Only in
  (∃ text, base64Encode [0; 255; 16] Base64InsertLFs = Some text ∧ base64Decode text 3 = Some (true, [Some 0; Some 255; Some 16])) ∧
  (∃ text, base64URLEncode [0; 255; 16] = Some text ∧ base64URLDecode text = Some (true, [Some 0; Some 255; Some 16])).
Proof.
  intros U. destruct (base64_roundtrip [0; 255; 16]) as [H1 H2].
  - repeat (apply Forall_cons; split; [by unfold isByte; lia|]). apply Forall_nil_2.
  - cbn. lia.
  - split; [|exact H2]. by apply (H1 Base64InsertLFs 3).
Defined.
