(* ===== verification/HTMLStackItem.v ===== *)
(** * Items of the tree builder

    Model of [Source/WebCore/html/parser/HTMLStackItem.h] and of what the stack of
    open elements asks of the nodes: an item remembers the node, the name and the
    attributes of the token it was made from. A document fragment, which takes the
    place of the document element when a fragment is parsed, has no name. *)

From Stdlib Require Import String.
From S2P Require Import Prelude ASCIICType.

(** The namespaces the parser knows; the namespace of a fragment's item is null. *)
Inductive Namespace := nullNamespace | xhtmlNamespaceURI | mathmlNamespaceURI | svgNamespaceURI | otherNamespace (uri : list Z).

#[global] Instance Namespace_eq_dec : EqDecision Namespace.
Proof. solve_decision. Defined.

(** [QualifiedName], without the prefix, which [matches] ignores. *)
Record QualifiedName := mkName { localName : list Z; namespaceURI : Namespace }.

#[global] Instance QualifiedName_eq_dec : EqDecision QualifiedName.
Proof. solve_decision. Defined.

Record Attribute := mkAttribute { attributeName : QualifiedName; attributeValue : list Z }.

#[global] Instance Attribute_eq_dec : EqDecision Attribute.
Proof. solve_decision. Defined.

(** A [ContainerNode]: its identity, and its name unless it is a fragment. *)
Record Node := mkNode { node_id : positive; node_name : option QualifiedName }.

Record HTMLStackItem := mkItem {
  m_node : Node;
  m_namespaceURI : Namespace;
  m_localName : option (list Z);
  m_attributes : list Attribute;
}.

Definition htmlName (name : string) : QualifiedName := mkName (text name) xhtmlNamespaceURI.
Definition mathmlName (name : string) : QualifiedName := mkName (text name) mathmlNamespaceURI.
Definition svgName (name : string) : QualifiedName := mkName (text name) svgNamespaceURI.

(** The constructors: from a token, from an element for the parsing context, from a
    fragment. *)
Definition itemOfToken (element : Node) (name : list Z) (attributes : list Attribute) (ns : Namespace) : HTMLStackItem :=
  mkItem element ns (Some name) attributes.
Definition itemOfElement (id : positive) (name : QualifiedName) : HTMLStackItem :=
  mkItem (mkNode id (Some name)) (namespaceURI name) (Some (localName name)) [].
Definition itemOfFragment (id : positive) : HTMLStackItem := mkItem (mkNode id None) nullNamespace None [].

Definition isDocumentFragment (item : HTMLStackItem) : bool := bool_decide (m_localName item = None).
Definition isElement (item : HTMLStackItem) : bool := negb (isDocumentFragment item).

(** [item.element()]: the node as an element; [downcast] asserts that it is one. *)
Definition downcast `{Build} {St} (item : HTMLStackItem) : M St Node :=
  ASSERT (bool_decide (node_name (m_node item) ≠ None));; mret (m_node item).

(** [is<HTMLTableElement>(item.node())] and the like. *)
Definition isNodeOf (name : QualifiedName) (item : HTMLStackItem) : bool := bool_decide (node_name (m_node item) = Some name).

Definition hasTagName (name : QualifiedName) (item : HTMLStackItem) : bool :=
  bool_decide (m_localName item = Some (localName name)) && bool_decide (m_namespaceURI item = namespaceURI name).

Definition matchesHTMLTag (name : list Z) (item : HTMLStackItem) : bool :=
  bool_decide (m_localName item = Some name) && bool_decide (m_namespaceURI item = xhtmlNamespaceURI).

(** [WebCore::findAttribute] *)
Fixpoint findIn (attributes : list Attribute) (name : QualifiedName) : option Attribute :=
  match attributes with
  | [] => None
  | attribute :: attributes => if decide (attributeName attribute = name) then Some attribute else findIn attributes name
  end.
Definition findAttribute (item : HTMLStackItem) (name : QualifiedName) : option Attribute := findIn (m_attributes item) name.

Definition isInHTMLNamespace (item : HTMLStackItem) : bool :=
  bool_decide (m_namespaceURI item = xhtmlNamespaceURI) || isDocumentFragment item.

Definition localNameIn (names : list string) (item : HTMLStackItem) : bool :=
  match m_localName item with Some name => bool_decide (name ∈ text <$> names) | None => false end.

#[local] Open Scope string_scope.

Definition isNumberedHeaderElement (item : HTMLStackItem) : bool :=
  bool_decide (m_namespaceURI item = xhtmlNamespaceURI) && localNameIn ["h1"; "h2"; "h3"; "h4"; "h5"; "h6"] item.

Definition isSpecialNode (item : HTMLStackItem) : bool :=
  if isDocumentFragment item then true
  else match m_namespaceURI item with
       | xhtmlNamespaceURI => localNameIn
           ["address"; "applet"; "area"; "article"; "aside"; "base"; "basefont"; "bgsound"; "blockquote"; "body"; "br"; "button";
            "caption"; "center"; "col"; "colgroup"; "command"; "dd"; "details"; "dir"; "div"; "dl"; "dt"; "embed"; "fieldset";
            "figcaption"; "figure"; "footer"; "form"; "frame"; "frameset"; "h1"; "h2"; "h3"; "h4"; "h5"; "h6"; "head"; "header";
            "hgroup"; "hr"; "html"; "iframe"; "img"; "input"; "li"; "link"; "listing"; "main"; "marquee"; "menu"; "meta"; "nav";
            "noembed"; "noframes"; "noscript"; "object"; "ol"; "p"; "param"; "plaintext"; "pre"; "script"; "section"; "select";
            "style"; "summary"; "table"; "tbody"; "td"; "template"; "textarea"; "tfoot"; "th"; "thead"; "title"; "tr"; "ul"; "wbr"; "xmp"] item
       | mathmlNamespaceURI => localNameIn ["annotation-xml"; "mi"; "mo"; "mn"; "ms"; "mtext"] item
       | svgNamespaceURI => localNameIn ["desc"; "foreignObject"; "title"] item
       | _ => false
       end.

Definition isRootNode (item : HTMLStackItem) : bool := isDocumentFragment item || hasTagName (htmlName "html") item.

(** ** The scope markers of [HTMLElementStack.cpp] *)

Definition isScopeMarker (item : HTMLStackItem) : bool :=
  hasTagName (htmlName "applet") item || hasTagName (htmlName "caption") item || hasTagName (htmlName "marquee") item
  || hasTagName (htmlName "object") item || isNodeOf (htmlName "table") item || hasTagName (htmlName "td") item
  || hasTagName (htmlName "th") item || hasTagName (mathmlName "mi") item || hasTagName (mathmlName "mo") item
  || hasTagName (mathmlName "mn") item || hasTagName (mathmlName "ms") item || hasTagName (mathmlName "mtext") item
  || hasTagName (mathmlName "annotation-xml") item || hasTagName (svgName "foreignObject") item
  || hasTagName (svgName "desc") item || hasTagName (svgName "title") item || hasTagName (htmlName "template") item
  || isRootNode item.

Definition isListItemScopeMarker (item : HTMLStackItem) : bool :=
  isScopeMarker item || hasTagName (htmlName "ol") item || hasTagName (htmlName "ul") item.

Definition isTableScopeMarker (item : HTMLStackItem) : bool :=
  isNodeOf (htmlName "table") item || hasTagName (htmlName "template") item || isRootNode item.

Definition isTableBodyScopeMarker (item : HTMLStackItem) : bool :=
  hasTagName (htmlName "tbody") item || hasTagName (htmlName "tfoot") item || hasTagName (htmlName "thead") item
  || hasTagName (htmlName "template") item || isRootNode item.

Definition isTableRowScopeMarker (item : HTMLStackItem) : bool :=
  hasTagName (htmlName "tr") item || hasTagName (htmlName "template") item || isRootNode item.

Definition isMathMLTextIntegrationPoint (item : HTMLStackItem) : bool :=
  hasTagName (mathmlName "mi") item || hasTagName (mathmlName "mo") item || hasTagName (mathmlName "mn") item
  || hasTagName (mathmlName "ms") item || hasTagName (mathmlName "mtext") item.

(** [equalLettersIgnoringASCIICase] with a literal of lower-case letters; it sets a
    bit of each character and compares. *)
Definition equalLettersIgnoringASCIICase (characters : list Z) (lowercaseLetters : string) : bool :=
  let letters := text lowercaseLetters in
  (length characters =? length letters)%nat && forallb (λ p, isASCIIAlphaCaselessEqual p.1 p.2) (zip characters letters).

Definition isHTMLIntegrationPoint (item : HTMLStackItem) : bool :=
  if hasTagName (mathmlName "annotation-xml") item then
    match findAttribute item (mkName (text "encoding") nullNamespace) with
    | Some encodingAttr =>
        equalLettersIgnoringASCIICase (attributeValue encodingAttr) "text/html"
        || equalLettersIgnoringASCIICase (attributeValue encodingAttr) "application/xhtml+xml"
    | None => false
    end
  else hasTagName (svgName "foreignObject") item || hasTagName (svgName "desc") item || hasTagName (svgName "title") item.

Definition isForeignContentScopeMarker (item : HTMLStackItem) : bool :=
  isMathMLTextIntegrationPoint item || isHTMLIntegrationPoint item || isInHTMLNamespace item.

Definition isButtonScopeMarker (item : HTMLStackItem) : bool := isScopeMarker item || hasTagName (htmlName "button") item.

Definition isSelectScopeMarker (item : HTMLStackItem) : bool :=
  negb (isNodeOf (htmlName "optgroup") item) && negb (isNodeOf (htmlName "option") item).

(** ** Items of elements *)

(** The item of an element that a token opened. *)
Definition isElementItem (item : HTMLStackItem) : bool := isElement item && bool_decide (node_name (m_node item) ≠ None).

Lemma elementItem_node item : isElementItem item = true → bool_decide (node_name (m_node item) ≠ None) = true.
Proof. unfold isElementItem. by intros [_ ?]%andb_true_iff. Qed.

Lemma downcast_run `{Build} {St} item (s : St) : isElementItem item = true → downcast item s = Some (m_node item, s).
Proof. intros He. unfold downcast, ASSERT, mbind, M_bind. by rewrite (elementItem_node _ He), orb_true_r. Qed.

Lemma wp_downcast `{Build} {St} item (Q : Node → St → Prop) s : isElementItem item = true → Q (m_node item) s → wp (downcast item) Q s.
Proof. intros He HQ. unfold wp. by rewrite downcast_run. Qed.
