(* ===== verification/HTMLElementStack.v ===== *)
(** * The stack of open elements

    Model of [Source/WebCore/html/parser/HTMLElementStack.{h,cpp}]: the linked list of
    records the tree builder pushes elements on and pops them from, the pointers to
    the root, the head and the body element, and the queries for elements in scope.

    The chain of records from [m_top] is a list, topmost first; a record is known by
    its address, a node by its identity. The calls the stack makes into the document
    ([beginParsingChildren], [finishParsingChildren]) are recorded as events. Going
    past the end of the chain is a fault, and so is a failed assertion in a debug
    build: [downcast] asserts that a node is an element.

    [wf] is what holds of the stack between the calls of the tree builder.
    [stack_operations] shows that every operation, called when its precondition
    holds, does not fault, keeps [wf], leaves the items of the abstract stack and
    finishes the elements it takes off, once and in order; [scopes_exact] and
    [furthestBlock_exact] say what the queries answer. *)

From Stdlib Require Import String.
From S2P Require Import Prelude ASCIICType HTMLStackItem.

#[local] Open Scope string_scope.
#[local] Open Scope list_scope.

Record ElementRecord := mkRecord { rec_id : positive; m_item : HTMLStackItem }.

Inductive Event := BegunChildren (node : positive) | FinishedChildren (node : positive).

Record HTMLElementStack := mkStack {
  m_top : list ElementRecord;
  m_rootNode : option positive;
  m_headElement : option positive;
  m_bodyElement : option positive;
  m_stackDepth : Z;
  nextAddress : positive;
  events : list Event;
}.

Definition newStack : HTMLElementStack := mkStack [] None None None 0 1 [].

Definition set_top (l : list ElementRecord) (s : HTMLElementStack) : HTMLElementStack :=
  mkStack l (m_rootNode s) (m_headElement s) (m_bodyElement s) (m_stackDepth s) (nextAddress s) (events s).
Definition set_root (r : option positive) (s : HTMLElementStack) : HTMLElementStack :=
  mkStack (m_top s) r (m_headElement s) (m_bodyElement s) (m_stackDepth s) (nextAddress s) (events s).
Definition set_head (r : option positive) (s : HTMLElementStack) : HTMLElementStack :=
  mkStack (m_top s) (m_rootNode s) r (m_bodyElement s) (m_stackDepth s) (nextAddress s) (events s).
Definition set_body (r : option positive) (s : HTMLElementStack) : HTMLElementStack :=
  mkStack (m_top s) (m_rootNode s) (m_headElement s) r (m_stackDepth s) (nextAddress s) (events s).
Definition set_depth (z : Z) (s : HTMLElementStack) : HTMLElementStack :=
  mkStack (m_top s) (m_rootNode s) (m_headElement s) (m_bodyElement s) z (nextAddress s) (events s).
Definition set_next (p : positive) (s : HTMLElementStack) : HTMLElementStack :=
  mkStack (m_top s) (m_rootNode s) (m_headElement s) (m_bodyElement s) (m_stackDepth s) p (events s).
Definition add_event (e : Event) (s : HTMLElementStack) : HTMLElementStack :=
  mkStack (m_top s) (m_rootNode s) (m_headElement s) (m_bodyElement s) (m_stackDepth s) (nextAddress s) (events s ++ [e]).

Definition isHTML (item : HTMLStackItem) : bool := hasTagName (htmlName "html") item.
Definition isHead (item : HTMLStackItem) : bool := hasTagName (htmlName "head") item.
Definition isBody (item : HTMLStackItem) : bool := hasTagName (htmlName "body") item.

(** The address of the node of a record. *)
Definition nodeOf (r : ElementRecord) : positive := node_id (m_node (m_item r)).

Section Operations.
Context `{Build}.

Abbreviation SM := (M HTMLElementStack).

(** [*m_top] *)
Definition topRecord : SM ElementRecord := λ s, match m_top s with r :: _ => Some (r, s) | [] => None end.

Definition top : SM Node := r ← topRecord; downcast (m_item r).
Definition topStackItem : SM HTMLStackItem := r ← topRecord; mret (m_item r).

Definition hasOnlyOneElement : SM bool := _ ← topRecord; gets (λ s, bool_decide (tail (m_top s) = [])).

Definition secondElementIsHTMLBodyElement : SM bool :=
  root ← gets m_rootNode; ASSERT (bool_decide (root ≠ None));; gets (λ s, bool_decide (m_bodyElement s ≠ None)).

Definition popCommon : SM unit :=
  item ← topStackItem;
  ASSERT (negb (isHTML item));;
  head ← gets m_headElement;
  ASSERT (negb (isHead item) || bool_decide (head = None));;
  body ← gets m_bodyElement;
  ASSERT (negb (isBody item) || bool_decide (body = None));;
  element ← top;
  modify (add_event (FinishedChildren (node_id element)));;
  modify (λ s, set_top (tail (m_top s)) s);;
  modify (λ s, set_depth (u32 (m_stackDepth s - 1)) s).

Definition popHTMLHeadElement : SM unit :=
  element ← top;
  head ← gets m_headElement;
  ASSERT (bool_decide (head = Some (node_id element)));;
  modify (set_head None);;
  popCommon.

Definition popHTMLBodyElement : SM unit :=
  element ← top;
  body ← gets m_bodyElement;
  ASSERT (bool_decide (body = Some (node_id element)));;
  modify (set_body None);;
  popCommon.

Fixpoint popAllLoop (records : list ElementRecord) : SM unit :=
  match records with
  | [] => mret tt
  | r :: records =>
      modify (add_event (FinishedChildren (nodeOf r)));;
      modify (set_top records);;
      popAllLoop records
  end.

Definition popAll : SM unit :=
  modify (set_root None);; modify (set_head None);; modify (set_body None);; modify (set_depth 0);;
  records ← gets m_top;
  popAllLoop records.

Definition pop : SM unit :=
  item ← topStackItem;
  ASSERT (negb (isHead item));;
  popCommon.

(** [while (!stop(topStackItem())) pop();] *)
Fixpoint popWhile (fuel : nat) (stop : HTMLStackItem → bool) : SM unit :=
  match fuel with
  | O => fault
  | S fuel => item ← topStackItem; if stop item then mret tt else pop;; popWhile fuel stop
  end.

Definition popLoop (stop : HTMLStackItem → bool) : SM unit := n ← gets (length ∘ m_top); popWhile (S n) stop.

Definition popUntil (tagName : list Z) : SM unit := popLoop (matchesHTMLTag tagName).
Definition popUntilPopped (tagName : list Z) : SM unit := popUntil tagName;; pop.
Definition popUntilNumberedHeaderElementPopped : SM unit := popLoop isNumberedHeaderElement;; pop.
Definition popUntilTableScopeMarker : SM unit := popLoop isTableScopeMarker.
Definition popUntilTableBodyScopeMarker : SM unit := popLoop isTableBodyScopeMarker.
Definition popUntilTableRowScopeMarker : SM unit := popLoop isTableRowScopeMarker.
Definition popUntilForeignContentScopeMarker : SM unit := popLoop isForeignContentScopeMarker.

(** [while (&top() != &element) pop();]; [top] is an element at each turn. *)
Fixpoint popWhileNot (fuel : nat) (element : positive) : SM unit :=
  match fuel with
  | O => fault
  | S fuel => t ← top; if bool_decide (node_id t = element) then mret tt else pop;; popWhileNot fuel element
  end.
Definition popUntilElement (element : positive) : SM unit := n ← gets (length ∘ m_top); popWhileNot (S n) element.
Definition popUntilElementPopped (element : positive) : SM unit := popUntilElement element;; pop.

(** [std::make_unique<ElementRecord>(item, ...)] *)
Definition newRecord (item : HTMLStackItem) : SM ElementRecord :=
  address ← gets nextAddress;
  modify (λ s, set_next (Pos.succ (nextAddress s)) s);;
  mret (mkRecord address item).

Definition pushCommon (item : HTMLStackItem) : SM unit :=
  root ← gets m_rootNode;
  ASSERT (bool_decide (root ≠ None));;
  modify (λ s, set_depth (u32 (m_stackDepth s + 1)) s);;
  r ← newRecord item;
  modify (λ s, set_top (r :: m_top s) s).

Definition pushRootNodeCommon (rootItem : HTMLStackItem) : SM unit :=
  records ← gets m_top;
  ASSERT (bool_decide (length records = 0%nat));;
  root ← gets m_rootNode;
  ASSERT (bool_decide (root = None));;
  modify (set_root (Some (node_id (m_node rootItem))));;
  pushCommon rootItem.

Definition pushRootNode (rootItem : HTMLStackItem) : SM unit :=
  ASSERT (isDocumentFragment rootItem);; pushRootNodeCommon rootItem.
Definition pushHTMLHtmlElement (item : HTMLStackItem) : SM unit :=
  ASSERT (isHTML item);; pushRootNodeCommon item.

Definition pushHTMLHeadElement (item : HTMLStackItem) : SM unit :=
  ASSERT (isHead item);;
  head ← gets m_headElement;
  ASSERT (bool_decide (head = None));;
  element ← downcast item;
  modify (set_head (Some (node_id element)));;
  pushCommon item.

Definition pushHTMLBodyElement (item : HTMLStackItem) : SM unit :=
  ASSERT (isBody item);;
  body ← gets m_bodyElement;
  ASSERT (bool_decide (body = None));;
  element ← downcast item;
  modify (set_body (Some (node_id element)));;
  pushCommon item.

Definition assertOrdinary (item : HTMLStackItem) : SM unit :=
  ASSERT (negb (isHTML item));; ASSERT (negb (isHead item));; ASSERT (negb (isBody item));;
  root ← gets m_rootNode;
  ASSERT (bool_decide (root ≠ None)).

Definition push (item : HTMLStackItem) : SM unit := assertOrdinary item;; pushCommon item.

(** Puts a record above the one at the address; [None] when that is the first one or
    is not in the chain. *)
Fixpoint insertRecord (new : ElementRecord) (below : positive) (records : list ElementRecord) : option (list ElementRecord) :=
  match records with
  | above :: ((r :: _) as rest) =>
      if bool_decide (rec_id r = below) then Some (above :: new :: rest)
      else match insertRecord new below rest with Some l => Some (above :: l) | None => None end
  | _ => None
  end.

Definition insertAbove (item : HTMLStackItem) (recordBelow : positive) : SM unit :=
  records ← gets m_top;
  ASSERT (bool_decide (length records ≠ 0%nat));;
  assertOrdinary item;;
  if bool_decide (rec_id <$> head records = Some recordBelow) then push item
  else if bool_decide (recordBelow ∈ rec_id <$> tail records) then
    modify (λ s, set_depth (u32 (m_stackDepth s + 1)) s);;
    r ← newRecord item;
    modify (λ s, set_top (default (m_top s) (insertRecord r recordBelow (m_top s))) s);;
    element ← downcast item;
    modify (add_event (BegunChildren (node_id element)))
  else ASSERT false.

Definition oneBelowTop : SM (option HTMLStackItem) :=
  records ← gets m_top;
  match records with
  | _ :: r :: _ => mret (if isElement (m_item r) then Some (m_item r) else None)
  | _ => fault
  end.

(** The loop of [removeNonTopCommon]: the chain without the element. *)
Fixpoint removeRecord (element : positive) (records : list ElementRecord) : option (list ElementRecord) :=
  match records with
  | above :: ((r :: rest') as rest) =>
      if ASSERT_DISABLED || bool_decide (node_name (m_node (m_item r)) ≠ None) then
        if bool_decide (nodeOf r = element) then Some (above :: rest')
        else match removeRecord element rest with Some l => Some (above :: l) | None => None end
      else None
  | _ => None
  end.

Definition removeNonTopCommon (element : Node) : SM unit :=
  ASSERT (bool_decide (node_name element ≠ Some (htmlName "html")));;
  ASSERT (bool_decide (node_name element ≠ Some (htmlName "body")));;
  t ← top;
  ASSERT (bool_decide (node_id t ≠ node_id element));;
  records ← gets m_top;
  match removeRecord (node_id element) records with
  | None => fault
  | Some l =>
      modify (add_event (FinishedChildren (node_id element)));;
      modify (set_top l);;
      modify (λ s, set_depth (u32 (m_stackDepth s - 1)) s)
  end.

Definition removeHTMLHeadElement (element : Node) : SM unit :=
  head ← gets m_headElement;
  ASSERT (bool_decide (head = Some (node_id element)));;
  t ← top;
  if bool_decide (node_id t = node_id element) then popHTMLHeadElement
  else modify (set_head None);; removeNonTopCommon element.

Definition remove (element : Node) : SM unit :=
  ASSERT (bool_decide (node_name element ≠ Some (htmlName "head")));;
  t ← top;
  if bool_decide (node_id t = node_id element) then pop else removeNonTopCommon element.

(** [ElementRecord::replaceElement] of the record at the address. *)
Fixpoint replaceRecord (address : positive) (item : HTMLStackItem) (records : list ElementRecord) : option (list ElementRecord) :=
  match records with
  | [] => None
  | r :: records =>
      if bool_decide (rec_id r = address) then
        if ASSERT_DISABLED || isElement (m_item r) then Some (mkRecord (rec_id r) item :: records) else None
      else match replaceRecord address item records with Some l => Some (r :: l) | None => None end
  end.
Definition replaceElement (address : positive) (item : HTMLStackItem) : SM unit :=
  modifyOpt (λ s, match replaceRecord address item (m_top s) with Some l => Some (set_top l s) | None => None end).

(** ** Queries *)

Fixpoint findRecord (p : ElementRecord → bool) (records : list ElementRecord) : option ElementRecord :=
  match records with
  | [] => None
  | r :: records => if p r then Some r else findRecord p records
  end.

Definition find (element : positive) : SM (option ElementRecord) := gets (λ s, findRecord (λ r, bool_decide (nodeOf r = element)) (m_top s)).
Definition topmost (tagName : list Z) : SM (option ElementRecord) := gets (λ s, findRecord (λ r, matchesHTMLTag tagName (m_item r)) (m_top s)).
Definition contains (element : positive) : SM bool := r ← find element; mret (bool_decide (r ≠ None)).
Definition containsTag (tagName : list Z) : SM bool := r ← topmost tagName; mret (bool_decide (r ≠ None)).

(** [ElementRecord::isAbove] for two records of the chain. *)
Fixpoint isAbove (address other : positive) (records : list ElementRecord) : bool :=
  match records with
  | [] => false
  | r :: records => if bool_decide (rec_id r = address) then bool_decide (other ∈ rec_id <$> records) else isAbove address other records
  end.

(** The loops over the records of a scope. *)
Fixpoint scopeLoop (target marker : HTMLStackItem → bool) (records : list ElementRecord) : SM bool :=
  match records with
  | [] => ASSERT false;; mret false
  | r :: records => if target (m_item r) then mret true else if marker (m_item r) then mret false else scopeLoop target marker records
  end.
Definition scope (target marker : HTMLStackItem → bool) : SM bool := records ← gets m_top; scopeLoop target marker records.

Definition inScopeCommon (isMarker : HTMLStackItem → bool) (targetTag : list Z) : SM bool := scope (matchesHTMLTag targetTag) isMarker.

Definition hasNumberedHeaderElementInScope : SM bool := scope isNumberedHeaderElement isScopeMarker.
Definition inScopeElement (targetElement : positive) : SM bool := scope (λ item, bool_decide (node_id (m_node item) = targetElement)) isScopeMarker.
Definition inScope (targetTag : list Z) : SM bool := inScopeCommon isScopeMarker targetTag.
Definition inListItemScope (targetTag : list Z) : SM bool := inScopeCommon isListItemScopeMarker targetTag.
Definition inTableScope (targetTag : list Z) : SM bool := inScopeCommon isTableScopeMarker targetTag.
Definition inButtonScope (targetTag : list Z) : SM bool := inScopeCommon isButtonScopeMarker targetTag.
Definition inSelectScope (targetTag : list Z) : SM bool := inScopeCommon isSelectScopeMarker targetTag.
Definition hasTemplateInHTMLScope : SM bool := inScopeCommon isRootNode (text "template").

Definition rootNode : SM positive := root ← gets m_rootNode; match root with Some n => mret n | None => fault end.
Definition headElement : SM positive := head ← gets m_headElement; match head with Some n => mret n | None => fault end.
Definition bodyElement : SM positive := body ← gets m_bodyElement; match body with Some n => mret n | None => fault end.

(** The questions about scopes, what each looks for and where it stops. *)
Inductive ScopeQuery :=
  | NumberedHeaderInScope | ElementInScope (targetElement : positive) | TagInScope (targetTag : list Z) | TagInListItemScope (targetTag : list Z)
  | TagInTableScope (targetTag : list Z) | TagInButtonScope (targetTag : list Z) | TagInSelectScope (targetTag : list Z) | TemplateInHTMLScope.

Definition ask (q : ScopeQuery) : SM bool :=
  match q with
  | NumberedHeaderInScope => hasNumberedHeaderElementInScope
  | ElementInScope targetElement => inScopeElement targetElement
  | TagInScope targetTag => inScope targetTag
  | TagInListItemScope targetTag => inListItemScope targetTag
  | TagInTableScope targetTag => inTableScope targetTag
  | TagInButtonScope targetTag => inButtonScope targetTag
  | TagInSelectScope targetTag => inSelectScope targetTag
  | TemplateInHTMLScope => hasTemplateInHTMLScope
  end.

Definition targetOf (q : ScopeQuery) (item : HTMLStackItem) : bool :=
  match q with
  | NumberedHeaderInScope => isNumberedHeaderElement item
  | ElementInScope targetElement => bool_decide (node_id (m_node item) = targetElement)
  | TagInScope targetTag | TagInListItemScope targetTag | TagInTableScope targetTag | TagInButtonScope targetTag
  | TagInSelectScope targetTag => matchesHTMLTag targetTag item
  | TemplateInHTMLScope => matchesHTMLTag (text "template") item
  end.

Definition markerOf (q : ScopeQuery) : HTMLStackItem → bool :=
  match q with
  | NumberedHeaderInScope | ElementInScope _ | TagInScope _ => isScopeMarker
  | TagInListItemScope _ => isListItemScopeMarker
  | TagInTableScope _ => isTableScopeMarker
  | TagInButtonScope _ => isButtonScopeMarker
  | TagInSelectScope _ => isSelectScopeMarker
  | TemplateInHTMLScope => isRootNode
  end.

Fixpoint furthestLoop (formattingElement : positive) (furthest : option ElementRecord) (records : list ElementRecord) : SM (option ElementRecord) :=
  match records with
  | [] => ASSERT false;; mret None
  | r :: records =>
      element ← downcast (m_item r);
      if bool_decide (node_id element = formattingElement) then mret furthest
      else furthestLoop formattingElement (if isSpecialNode (m_item r) then Some r else furthest) records
  end.
Definition furthestBlockForFormattingElement (formattingElement : positive) : SM (option ElementRecord) :=
  records ← gets m_top; furthestLoop formattingElement None records.

End Operations.

(** ** The operations and what they promise *)

(** What popping stops at. *)
Inductive Until :=
  | AtTag (tagName : list Z) | AtNumberedHeader | AtTable | AtTableBody | AtTableRow | AtForeignContentEnd | AtElement (element : positive).

Definition stopsAt (u : Until) (item : HTMLStackItem) : bool :=
  match u with
  | AtTag tagName => matchesHTMLTag tagName item
  | AtNumberedHeader => isNumberedHeaderElement item
  | AtTable => isTableScopeMarker item
  | AtTableBody => isTableBodyScopeMarker item
  | AtTableRow => isTableRowScopeMarker item
  | AtForeignContentEnd => isForeignContentScopeMarker item
  | AtElement element => bool_decide (node_id (m_node item) = element)
  end.

Inductive Op :=
  | PushRoot (item : HTMLStackItem) | PushHTML (item : HTMLStackItem) | PushHead (item : HTMLStackItem) | PushBody (item : HTMLStackItem)
  | Push (item : HTMLStackItem) | InsertAbove (item : HTMLStackItem) (recordBelow : positive)
  | Pop | PopHead | PopBody | PopUntil (u : Until) | PopUntilPopped (u : Until) | PopAll
  | Remove (element : Node) | RemoveHead (element : Node) | Replace (address : positive) (item : HTMLStackItem).

Definition perform `{Build} (op : Op) : M HTMLElementStack unit :=
  match op with
  | PushRoot item => pushRootNode item
  | PushHTML item => pushHTMLHtmlElement item
  | PushHead item => pushHTMLHeadElement item
  | PushBody item => pushHTMLBodyElement item
  | Push item => push item
  | InsertAbove item recordBelow => insertAbove item recordBelow
  | Pop => pop
  | PopHead => popHTMLHeadElement
  | PopBody => popHTMLBodyElement
  | PopUntil (AtTag tagName) => popUntil tagName
  | PopUntil AtTable => popUntilTableScopeMarker
  | PopUntil AtTableBody => popUntilTableBodyScopeMarker
  | PopUntil AtTableRow => popUntilTableRowScopeMarker
  | PopUntil AtForeignContentEnd => popUntilForeignContentScopeMarker
  | PopUntil AtNumberedHeader => popLoop isNumberedHeaderElement
  | PopUntil (AtElement element) => popUntilElement element
  | PopUntilPopped (AtTag tagName) => popUntilPopped tagName
  | PopUntilPopped AtNumberedHeader => popUntilNumberedHeaderElementPopped
  | PopUntilPopped (AtElement element) => popUntilElementPopped element
  | PopUntilPopped u => popLoop (stopsAt u);; pop
  | PopAll => popAll
  | Remove element => remove element
  | RemoveHead element => removeHTMLHeadElement element
  | Replace address item => replaceElement address item
  end.

(** The records above the first one where popping stops, and from it on. *)
Fixpoint aboveStop (u : Until) (records : list ElementRecord) : list ElementRecord :=
  match records with [] => [] | r :: records => if stopsAt u (m_item r) then [] else r :: aboveStop u records end.
Fixpoint fromStop (u : Until) (records : list ElementRecord) : list ElementRecord :=
  match records with [] => [] | r :: records' => if stopsAt u (m_item r) then records else fromStop u records' end.

(** The records above the one at an address, and from it on. *)
Fixpoint aboveAddress (address : positive) (records : list ElementRecord) : list ElementRecord :=
  match records with [] => [] | r :: records => if bool_decide (rec_id r = address) then [] else r :: aboveAddress address records end.
Fixpoint fromAddress (address : positive) (records : list ElementRecord) : list ElementRecord :=
  match records with [] => [] | r :: records' => if bool_decide (rec_id r = address) then records else fromAddress address records' end.

Definition finishedAll (records : list ElementRecord) : list Event := FinishedChildren ∘ nodeOf <$> records.

(** The abstract stack: the records after an operation, given the address of a new
    one, and the events. *)
Definition spec (op : Op) (next : positive) (records : list ElementRecord) : list ElementRecord * list Event :=
  match op with
  | PushRoot item | PushHTML item | PushHead item | PushBody item | Push item => (mkRecord next item :: records, [])
  | InsertAbove item below =>
      (aboveAddress below records ++ mkRecord next item :: fromAddress below records,
       if bool_decide (rec_id <$> head records = Some below) then [] else [BegunChildren (node_id (m_node item))])
  | Pop | PopHead | PopBody => (tail records, finishedAll (take 1 records))
  | PopUntil u => (fromStop u records, finishedAll (aboveStop u records))
  | PopUntilPopped u => (tail (fromStop u records), finishedAll (aboveStop u records ++ take 1 (fromStop u records)))
  | PopAll => ([], finishedAll records)
  | Remove element | RemoveHead element =>
      (filter (λ r, nodeOf r ≠ node_id element) records, [FinishedChildren (node_id element)])
  | Replace address item => ((λ r, if bool_decide (rec_id r = address) then mkRecord address item else r) <$> records, [])
  end.

(** The item of an element that is not the html, head or body element. *)
Definition ordinary (item : HTMLStackItem) : bool :=
  isElementItem item && negb (isHTML item) && negb (isHead item) && negb (isBody item).

Definition fresh (item : HTMLStackItem) (s : HTMLElementStack) : bool := bool_decide (node_id (m_node item) ∉ nodeOf <$> m_top s).
Definition nonempty (s : HTMLElementStack) : bool := bool_decide (m_top s ≠ []).

(** The records that can be taken off: all but the last. *)
Definition removable (p : ElementRecord → bool) (s : HTMLElementStack) : bool := existsb p (removelast (m_top s)).

(** The item of the document element, or of the fragment that is parsed. *)
Definition isRootItem (item : HTMLStackItem) : bool :=
  isRootNode item && bool_decide (node_name (m_node item) ∈ [None; Some (htmlName "html")]).

(** When the tree builder may call an operation. *)
Definition permitted (op : Op) (s : HTMLElementStack) : bool :=
  match op with
  | PushRoot item => isDocumentFragment item && isRootItem item && negb (nonempty s)
  | PushHTML item => isHTML item && isRootItem item && negb (nonempty s)
  | PushHead item => isHead item && isElementItem item && nonempty s && fresh item s && bool_decide (m_headElement s = None)
  | PushBody item => isBody item && isElementItem item && nonempty s && fresh item s && bool_decide (m_bodyElement s = None)
  | Push item => ordinary item && nonempty s && fresh item s
  | InsertAbove item below => ordinary item && fresh item s && bool_decide (below ∈ rec_id <$> m_top s)
  | Pop => match removelast (m_top s) with r :: _ => ordinary (m_item r) | [] => false end
  | PopHead => match removelast (m_top s) with r :: _ => isHead (m_item r) | [] => false end
  | PopBody => match removelast (m_top s) with r :: _ => isBody (m_item r) | [] => false end
  | PopUntil u =>
      forallb (ordinary ∘ m_item) (aboveStop u (m_top s)) &&
      match fromStop u (m_top s), u with
      | r :: _, AtElement _ => isElementItem (m_item r)
      | _ :: _, _ => true
      | [], _ => false
      end
  | PopUntilPopped u =>
      forallb (ordinary ∘ m_item) (aboveStop u (m_top s)) && match fromStop u (m_top s) with r :: _ :: _ => ordinary (m_item r) | _ => false end
  | PopAll => true
  | Remove element =>
      bool_decide (node_name element ∉ [Some (htmlName "html"); Some (htmlName "head"); Some (htmlName "body")]) &&
      removable (λ r, ordinary (m_item r) && bool_decide (nodeOf r = node_id element)) s
  | RemoveHead element =>
      bool_decide (node_name element ∉ [Some (htmlName "html"); Some (htmlName "body")]) &&
      bool_decide (m_headElement s = Some (node_id element))
  | Replace address item =>
      ordinary item && fresh item s && removable (λ r, ordinary (m_item r) && bool_decide (rec_id r = address)) s
  end.

(** ** Well-formed stacks *)

(** The pointer to an element remembers the one record with its tag. *)
Definition remembers (isTag : HTMLStackItem → bool) (pointer : option positive) (records : list ElementRecord) : Prop :=
  (∀ r, r ∈ records → isTag (m_item r) = true → pointer = Some (nodeOf r)) ∧
  (∀ n, pointer = Some n → ∃ r, r ∈ records ∧ isTag (m_item r) = true ∧ nodeOf r = n).

(** The root at the bottom, elements above it. *)
Definition rooted (s : HTMLElementStack) : Prop :=
  match last (m_top s) with
  | None => m_rootNode s = None
  | Some root => m_rootNode s = Some (nodeOf root) ∧ isRootItem (m_item root) = true ∧
      Forall (λ r, isElementItem (m_item r) && negb (isHTML (m_item r)) = true) (removelast (m_top s))
  end.

Record wf (s : HTMLElementStack) : Prop := mkWf {
  wf_depth : m_stackDepth s = u32 (Z.of_nat (length (m_top s)));
  wf_addresses : NoDup (rec_id <$> m_top s);
  wf_fresh : Forall (λ r, (rec_id r < nextAddress s)%positive) (m_top s);
  wf_nodes : NoDup (nodeOf <$> m_top s);
  wf_rooted : rooted s;
  wf_head : remembers isHead (m_headElement s) (m_top s);
  wf_body : remembers isBody (m_bodyElement s) (m_top s);
}.

Lemma newStack_wf : wf newStack.
Proof. constructor; try done; try apply NoDup_nil_2; try apply Forall_nil_2; (split; [intros r Hr; by apply elem_of_nil in Hr|done]). Qed.

(** The tags are different. *)
Lemma hasTagName_inj item name name' : hasTagName name item = true → hasTagName name' item = true → name = name'.
Proof.
  unfold hasTagName. rewrite !andb_true_iff, !bool_decide_eq_true. intros [H1 H2] [H3 H4]. destruct name, name'. cbn in *. congruence.
Qed.

Lemma root_not_head item : isRootItem item = true → isHead item = false ∧ isBody item = false.
Proof.
  unfold isRootItem, isRootNode, isDocumentFragment. intros [Hr _]%andb_true_iff. split; apply not_true_iff_false; intros Ht.
  all: apply orb_true_iff in Hr as [Hf|Hh]; [apply bool_decide_eq_true in Hf; unfold isHead, isBody, hasTagName in Ht; rewrite Hf in Ht; apply andb_true_iff in Ht as [Ht _]; by apply bool_decide_eq_true in Ht|].
  all: pose proof (hasTagName_inj _ _ _ Hh Ht); done.
Qed.

(** A stack that is not empty has its root at the end. *)
Lemma rooted_split s a r b :
  rooted s → m_top s = a ++ r :: b → b ≠ [] →
  isElementItem (m_item r) = true ∧ isHTML (m_item r) = false ∧ r ∈ removelast (m_top s).
Proof.
  unfold rooted. intros Hr E Hb. assert (Hin : r ∈ removelast (m_top s)).
  { rewrite E, removelast_app by done. apply elem_of_app. right. destruct b; [done|]. by apply list_elem_of_here. }
  rewrite E, last_app_cons in Hr. destruct b as [|b0 b]; [done|]. rewrite last_cons_cons in Hr.
  destruct (last (b0 :: b)) as [root|] eqn:El; [|by apply last_None in El]. destruct Hr as (_ & _ & Hall). rewrite <-E in Hall.
  pose proof (proj1 (Forall_forall _ _) Hall r Hin) as Hp. apply andb_true_iff in Hp as [? ?%negb_true_iff]. done.
Qed.

Lemma ordinary_split item : ordinary item = true ↔ isElementItem item = true ∧ isHTML item = false ∧ isHead item = false ∧ isBody item = false.
Proof. unfold ordinary. rewrite !andb_true_iff, !negb_true_iff. tauto. Qed.

(** ** Taking a record off *)

(** The state without a record: the pointer to it is cleared, its element finished. *)
Definition takenOff (r : ElementRecord) (l : list ElementRecord) (s : HTMLElementStack) : HTMLElementStack :=
  mkStack l (m_rootNode s) (if isHead (m_item r) then None else m_headElement s) (if isBody (m_item r) then None else m_bodyElement s)
    (u32 (m_stackDepth s - 1)) (nextAddress s) (events s ++ [FinishedChildren (nodeOf r)]).

Lemma remembers_off isTag pointer a r b :
  remembers isTag pointer (a ++ r :: b) → NoDup (nodeOf <$> a ++ r :: b) →
  remembers isTag (if isTag (m_item r) then None else pointer) (a ++ b).
Proof.
  intros [H1 H2] Hnd. rewrite fmap_app, fmap_cons in Hnd. assert (Hr : r ∈ a ++ r :: b) by (apply elem_of_app; right; by apply list_elem_of_here).
  assert (Hne : ∀ x, x ∈ a ++ b → nodeOf x ≠ nodeOf r).
  { intros x Hx E. apply NoDup_app in Hnd as (_ & Hab & Hb). apply NoDup_cons in Hb as [Hrb _]. apply elem_of_app in Hx as [Hx|Hx].
    - apply (Hab (nodeOf x)); [by apply list_elem_of_fmap_2|rewrite E; by apply list_elem_of_here].
    - apply Hrb. rewrite <-E. by apply list_elem_of_fmap_2. }
  assert (Hsub : ∀ x, x ∈ a ++ b → x ∈ a ++ r :: b) by (intros x; rewrite !elem_of_app, elem_of_cons; tauto).
  destruct (isTag (m_item r)) eqn:Et.
  - split; [|done]. intros x Hx Etx. pose proof (H1 x (Hsub x Hx) Etx) as E1. rewrite (H1 r Hr Et) in E1. injection E1 as E1. by destruct (Hne x Hx).
  - split; [by intros x Hx; apply H1, Hsub|]. intros n Hn. destruct (H2 n Hn) as (x & Hx & Ex & En). exists x. split; [|done].
    apply elem_of_app in Hx as [Hx|Hx]; [by apply elem_of_app; left|]. apply elem_of_cons in Hx as [-> |Hx]; [congruence|by apply elem_of_app; right].
Qed.

Lemma NoDup_off {A} (a b : list A) x : NoDup (a ++ x :: b) → NoDup (a ++ b).
Proof.
  intros (Ha & Hab & Hb)%NoDup_app. apply NoDup_cons in Hb as [_ Hb]. apply NoDup_app. split_and!; [done| |done].
  intros y Hya Hyb. apply (Hab y Hya). by apply elem_of_cons; right.
Qed.

Lemma u32_pred z : u32 (u32 z - 1) = u32 (z - 1).
Proof. apply u32_sub_l. Qed.

Lemma takenOff_wf s a r b : wf s → m_top s = a ++ r :: b → b ≠ [] → wf (takenOff r (a ++ b) s).
Proof.
  intros [Hd Ha Hf Hn Hr Hh Hb] E Hne. rewrite E in Hd, Ha, Hf, Hn, Hh, Hb. constructor; cbn [takenOff m_top m_stackDepth nextAddress m_headElement m_bodyElement].
  - rewrite Hd, u32_pred. f_equal. rewrite !length_app. cbn. lia.
  - rewrite fmap_app, fmap_cons in Ha. rewrite fmap_app. by apply NoDup_off in Ha.
  - apply Forall_app in Hf as [? Hf]. apply Forall_cons in Hf as [? ?]. by apply Forall_app.
  - rewrite fmap_app, fmap_cons in Hn. rewrite fmap_app. by apply NoDup_off in Hn.
  - unfold rooted in *. cbn [takenOff m_top m_rootNode]. rewrite E in Hr. assert (Hl : last (a ++ r :: b) = last (a ++ b)).
    { rewrite last_app_cons. destruct b; [done|]. by rewrite last_cons_cons, last_app_cons. }
    rewrite Hl in Hr. destruct (last (a ++ b)); [|done]. destruct Hr as (? & ? & Hall). split_and!; [done..|].
    rewrite removelast_app in Hall |- * by done. apply Forall_app in Hall as [? Hall]. apply Forall_app. split; [done|].
    destruct b; [done|]. by apply Forall_cons in Hall as [_ ?].
  - by apply remembers_off.
  - by apply remembers_off.
Qed.

Section Correctness.
Context `{Build}.

Lemma wp_topRecord r b (Q : ElementRecord → HTMLElementStack → Prop) s : m_top s = r :: b → Q r s → wp topRecord Q s.
Proof. intros E HQ. unfold wp, topRecord. by rewrite E. Qed.

Lemma wp_top r b (Q : Node → HTMLElementStack → Prop) s : m_top s = r :: b → isElementItem (m_item r) = true → Q (m_node (m_item r)) s → wp top Q s.
Proof. intros E He HQ. unfold top. eapply wp_bind, wp_topRecord; [done|]. by apply wp_downcast. Qed.

Lemma wp_topStackItem r b (Q : HTMLStackItem → HTMLElementStack → Prop) s : m_top s = r :: b → Q (m_item r) s → wp topStackItem Q s.
Proof. intros E HQ. unfold topStackItem. eapply wp_bind, wp_topRecord; [done|]. by apply wp_ret. Qed.

(** [popCommon] once the pointer to the element is cleared. *)
Lemma wp_popCommon r b s0 (Q : unit → HTMLElementStack → Prop) s :
  m_top s = r :: b → isElementItem (m_item r) = true → isHTML (m_item r) = false →
  (isHead (m_item r) = true → m_headElement s = None) → (isBody (m_item r) = true → m_bodyElement s = None) →
  s = mkStack (m_top s0) (m_rootNode s0) (if isHead (m_item r) then None else m_headElement s0) (if isBody (m_item r) then None else m_bodyElement s0)
        (m_stackDepth s0) (nextAddress s0) (events s0) →
  Q tt (takenOff r b s0) → wp popCommon Q s.
Proof.
  intros E He Hhtml Hh Hb Es HQ. unfold popCommon. eapply wp_bind, wp_topStackItem; [done|].
  apply wp_bind, wp_ASSERT; [by rewrite Hhtml|]. apply wp_bind, wp_gets. apply wp_bind, wp_ASSERT.
  { destruct (isHead (m_item r)); [|done]. by rewrite Hh by done. }
  apply wp_bind, wp_gets. apply wp_bind, wp_ASSERT.
  { destruct (isBody (m_item r)); [|done]. by rewrite Hb by done. }
  eapply wp_bind, wp_top; [done..|]. apply wp_bind, wp_modify. apply wp_bind, wp_modify. apply wp_modify.
  unfold takenOff in HQ. rewrite Es in E |- *. cbn in E |- *. by rewrite E.
Qed.

Lemma eta_stack s : s = mkStack (m_top s) (m_rootNode s) (m_headElement s) (m_bodyElement s) (m_stackDepth s) (nextAddress s) (events s).
Proof. by destruct s. Qed.

Lemma wp_pop r b (Q : unit → HTMLElementStack → Prop) s : m_top s = r :: b → ordinary (m_item r) = true → Q tt (takenOff r b s) → wp pop Q s.
Proof.
  intros E Ho HQ. apply ordinary_split in Ho as (He & Hhtml & Hh & Hb). unfold pop. eapply wp_bind, wp_topStackItem; [done|].
  apply wp_bind, wp_ASSERT; [by rewrite Hh|]. eapply (wp_popCommon r b s); rewrite ?Hh, ?Hb; try done. apply eta_stack.
Qed.

Lemma wp_popHead r b (Q : unit → HTMLElementStack → Prop) s :
  wf s → m_top s = r :: b → b ≠ [] → isHead (m_item r) = true → Q tt (takenOff r b s) → wp popHTMLHeadElement Q s.
Proof.
  intros Hwf E Hb Hh HQ. destruct (rooted_split s [] r b (wf_rooted _ Hwf) E Hb) as (He & Hhtml & _). unfold popHTMLHeadElement.
  eapply wp_bind, wp_top; [done..|]. apply wp_bind, wp_gets. apply wp_bind, wp_ASSERT.
  { apply bool_decide_eq_true. apply (proj1 (wf_head _ Hwf)); [|done]. rewrite E. by apply list_elem_of_here. }
  assert (Hnb : isBody (m_item r) = false).
  { apply not_true_iff_false. intros Hbody. pose proof (hasTagName_inj _ _ _ Hh Hbody). done. }
  apply wp_bind, wp_modify. eapply (wp_popCommon r b s); rewrite ?Hh, ?Hnb; try done.
Qed.

Lemma wp_popBody r b (Q : unit → HTMLElementStack → Prop) s :
  wf s → m_top s = r :: b → b ≠ [] → isBody (m_item r) = true → Q tt (takenOff r b s) → wp popHTMLBodyElement Q s.
Proof.
  intros Hwf E Hb Hbody HQ. destruct (rooted_split s [] r b (wf_rooted _ Hwf) E Hb) as (He & Hhtml & _). unfold popHTMLBodyElement.
  eapply wp_bind, wp_top; [done..|]. apply wp_bind, wp_gets. apply wp_bind, wp_ASSERT.
  { apply bool_decide_eq_true. apply (proj1 (wf_body _ Hwf)); [|done]. rewrite E. by apply list_elem_of_here. }
  assert (Hnh : isHead (m_item r) = false).
  { apply not_true_iff_false. intros Hh. pose proof (hasTagName_inj _ _ _ Hh Hbody). done. }
  apply wp_bind, wp_modify. eapply (wp_popCommon r b s); rewrite ?Hbody, ?Hnh; try done.
Qed.

(** ** Popping until *)

(** The state without some ordinary records on top. *)
Definition popped (a : list ElementRecord) (s s' : HTMLElementStack) : Prop :=
  wf s' ∧ m_rootNode s' = m_rootNode s ∧ m_headElement s' = m_headElement s ∧ m_bodyElement s' = m_bodyElement s ∧
  nextAddress s' = nextAddress s ∧ events s' = events s ++ finishedAll a.

Lemma popped_cons r a b s s' :
  wf s → m_top s = r :: a ++ b → b ≠ [] → ordinary (m_item r) = true →
  popped a (takenOff r (a ++ b) s) s' → popped (r :: a) s s'.
Proof.
  intros Hwf E Hb Ho (Hwf' & Hr & Hh & Hbo & Hn & He). apply ordinary_split in Ho as (_ & _ & Eh & Eb). cbn in *. rewrite Eh in Hh. rewrite Eb in Hbo.
  split_and!; try done. rewrite He. cbn. by rewrite <-app_assoc.
Qed.

Lemma popWhile_ok (stop : HTMLStackItem → bool) fuel a r b s :
  wf s → m_top s = a ++ r :: b → Forall (λ r, ordinary (m_item r) = true ∧ stop (m_item r) = false) a → stop (m_item r) = true → (length a < fuel)%nat →
  wp (popWhile fuel stop) (λ _ s', popped a s s' ∧ m_top s' = r :: b) s.
Proof.
  revert fuel s. induction a as [|r0 a IH]; intros fuel s Hwf E Ha Hstop Hf; destruct fuel as [|fuel]; cbn in Hf; try lia; cbn [popWhile].
  - eapply wp_bind, wp_topStackItem; [done|]. rewrite Hstop. apply wp_ret. split; [|done]. split_and!; try done. cbn. by rewrite app_nil_r.
  - apply Forall_cons in Ha as [[Ho Hns] Ha]. eapply wp_bind, wp_topStackItem; [done|]. rewrite Hns. eapply wp_bind, wp_pop; [done..|].
    eapply wp_mono; [apply IH; [|done|done|done|lia]|].
    + apply (takenOff_wf s [] r0); [done..|]. by destruct a.
    + intros _ s' [Hp Et]. split; [|done]. eapply popped_cons; [done|done| |done|done]. done.
Qed.

Lemma aboveFrom u records : records = aboveStop u records ++ fromStop u records.
Proof. induction records as [|r records IH]; [done|]. cbn. destruct (stopsAt u (m_item r)); [done|]. cbn. by f_equal. Qed.

Lemma aboveStop_spec u records : Forall (λ r, stopsAt u (m_item r) = false) (aboveStop u records).
Proof. induction records as [|r records IH]; cbn; [done|]. destruct (stopsAt u (m_item r)) eqn:E; [done|]. by apply Forall_cons. Qed.

Lemma fromStop_spec u records r l : fromStop u records = r :: l → stopsAt u (m_item r) = true.
Proof. induction records as [|r0 records IH]; cbn; [done|]. destruct (stopsAt u (m_item r0)) eqn:E; [by intros [= -> _]|done]. Qed.

Lemma popLoop_ok u s r b :
  wf s → forallb (ordinary ∘ m_item) (aboveStop u (m_top s)) = true → fromStop u (m_top s) = r :: b →
  wp (popLoop (stopsAt u)) (λ _ s', popped (aboveStop u (m_top s)) s s' ∧ m_top s' = r :: b) s.
Proof.
  intros Hwf Ho Ef. unfold popLoop. apply wp_bind, wp_gets. pose proof (aboveFrom u (m_top s)) as E. rewrite Ef in E.
  apply popWhile_ok; [done|done| |by eapply fromStop_spec|].
  - apply Forall_forall. intros x Hx. rewrite forallb_forall in Ho. split; [by apply (Ho x), list_elem_of_In|].
    by apply (proj1 (Forall_forall _ _) (aboveStop_spec u (m_top s)) x).
  - cbn [compose]. rewrite E at 2. rewrite length_app. cbn. lia.
Qed.

Lemma popWhileNot_ok element fuel a r b s :
  wf s → m_top s = a ++ r :: b → Forall (λ r, ordinary (m_item r) = true ∧ nodeOf r ≠ element) a → isElementItem (m_item r) = true → nodeOf r = element →
  (length a < fuel)%nat → wp (popWhileNot fuel element) (λ _ s', popped a s s' ∧ m_top s' = r :: b) s.
Proof.
  revert fuel s. induction a as [|r0 a IH]; intros fuel s Hwf E Ha He Hr Hf; destruct fuel as [|fuel]; cbn in Hf; try lia; cbn [popWhileNot].
  - eapply wp_bind, wp_top; [done..|]. rewrite bool_decide_eq_true_2 by done. apply wp_ret. split; [|done]. split_and!; try done. cbn. by rewrite app_nil_r.
  - apply Forall_cons in Ha as [[Ho Hns] Ha]. pose proof (proj1 (ordinary_split _) Ho) as (He0 & _). eapply wp_bind, wp_top; [done..|].
    rewrite bool_decide_eq_false_2 by done. eapply wp_bind, wp_pop; [done..|]. eapply wp_mono; [apply IH; [|done|done|done|done|lia]|].
    + apply (takenOff_wf s [] r0); [done..|]. by destruct a.
    + intros _ s' [Hp Et]. split; [|done]. by eapply popped_cons.
Qed.

Lemma popUntilElement_ok element s r b :
  wf s → forallb (ordinary ∘ m_item) (aboveStop (AtElement element) (m_top s)) = true → fromStop (AtElement element) (m_top s) = r :: b →
  isElementItem (m_item r) = true →
  wp (popUntilElement element) (λ _ s', popped (aboveStop (AtElement element) (m_top s)) s s' ∧ m_top s' = r :: b) s.
Proof.
  intros Hwf Ho Ef He. unfold popUntilElement. apply wp_bind, wp_gets. pose proof (aboveFrom (AtElement element) (m_top s)) as E. rewrite Ef in E.
  pose proof (fromStop_spec _ _ _ _ Ef) as Hr. apply bool_decide_eq_true in Hr. apply popWhileNot_ok; [done|done| |done|done|].
  - apply Forall_forall. intros x Hx. rewrite forallb_forall in Ho. split; [by apply (Ho x), list_elem_of_In|].
    pose proof (proj1 (Forall_forall _ _) (aboveStop_spec (AtElement element) (m_top s)) x Hx) as Hs. by apply bool_decide_eq_false in Hs.
  - cbn [compose]. rewrite E at 2. rewrite length_app. cbn. lia.
Qed.

(** ** Pushing and inserting *)

(** The state with a new record. *)
Definition putIn (item : HTMLStackItem) (a b : list ElementRecord) (begun : list Event) (s : HTMLElementStack) : HTMLElementStack :=
  mkStack (a ++ mkRecord (nextAddress s) item :: b) (m_rootNode s)
    (if isHead item then Some (node_id (m_node item)) else m_headElement s) (if isBody item then Some (node_id (m_node item)) else m_bodyElement s)
    (u32 (m_stackDepth s + 1)) (Pos.succ (nextAddress s)) (events s ++ begun).

Lemma remembers_in isTag pointer a r b :
  remembers isTag pointer (a ++ b) → (isTag (m_item r) = true → pointer = None) →
  remembers isTag (if isTag (m_item r) then Some (nodeOf r) else pointer) (a ++ r :: b).
Proof.
  intros [H1 H2] Hnone. assert (Hmem : ∀ x, x ∈ a ++ r :: b ↔ x = r ∨ x ∈ a ++ b) by (intros x; rewrite !elem_of_app, elem_of_cons; tauto).
  destruct (isTag (m_item r)) eqn:Et.
  - rewrite (Hnone eq_refl) in *. split.
    + intros x [-> |Hx]%Hmem Ex; [done|]. by pose proof (H1 x Hx Ex).
    + intros n [= <-]. exists r. split; [apply Hmem; by left|done].
  - split.
    + intros x [-> |Hx]%Hmem Ex; [congruence|by apply H1].
    + intros n Hn. destruct (H2 n Hn) as (x & Hx & ?). exists x. split; [apply Hmem; by right|done].
Qed.

Lemma putIn_wf item a b begun s :
  wf s → m_top s = a ++ b → b ≠ [] → isElementItem item = true → isHTML item = false → fresh item s = true →
  (isHead item = true → m_headElement s = None) → (isBody item = true → m_bodyElement s = None) → wf (putIn item a b begun s).
Proof.
  intros [Hd Ha Hf Hn Hr Hh Hb] E Hne He Hhtml Hfresh Hhead Hbody. unfold fresh in Hfresh. apply bool_decide_eq_true in Hfresh. rewrite E in *.
  assert (Hperm : ∀ {A} (f : ElementRecord → A) r, NoDup (f <$> a ++ b) → f r ∉ f <$> a ++ b → NoDup (f <$> a ++ r :: b)).
  { intros A f r Hnd Hni. rewrite fmap_app, fmap_cons. rewrite <-(Permutation_middle (f <$> a)). rewrite fmap_app in Hnd, Hni. by apply NoDup_cons. }
  constructor; unfold putIn; cbn [m_top m_stackDepth nextAddress m_headElement m_bodyElement].
  - rewrite Hd, u32_add_l. f_equal. rewrite !length_app. cbn. lia.
  - apply Hperm; [done|]. cbn. intros (x & Ex & Hx)%list_elem_of_fmap. pose proof (proj1 (Forall_forall _ _) Hf x Hx) as Hlt. cbn in Hlt. rewrite <-Ex in Hlt. lia.
  - apply Forall_app in Hf as [Hfa Hfb]. apply Forall_app. split; [|apply Forall_cons; split; [cbn; lia|]].
    all: eapply Forall_impl; [done|]; cbn; lia.
  - by apply Hperm.
  - unfold rooted in *. cbn [m_top m_rootNode]. rewrite E in Hr. assert (Hl : last (a ++ mkRecord (nextAddress s) item :: b) = last (a ++ b)).
    { rewrite last_app_cons. destruct b; [done|]. by rewrite last_cons_cons, last_app_cons. }
    rewrite Hl. destruct (last (a ++ b)); [|done]. destruct Hr as (? & ? & Hall). split_and!; [done..|].
    rewrite removelast_app in Hall |- * by done. apply Forall_app in Hall as [? Hall]. apply Forall_app. split; [done|].
    destruct b as [|b0 b]; [done|]. apply Forall_cons. split; [cbn; by rewrite He, Hhtml|done].
  - apply (remembers_in isHead (m_headElement s) a (mkRecord (nextAddress s) item) b); done.
  - apply (remembers_in isBody (m_bodyElement s) a (mkRecord (nextAddress s) item) b); done.
Qed.

Lemma root_known s : wf s → nonempty s = true → bool_decide (m_rootNode s ≠ None) = true.
Proof.
  intros Hwf Hne. unfold nonempty in Hne. apply bool_decide_eq_true in Hne. pose proof (wf_rooted _ Hwf) as Hr. unfold rooted in Hr.
  destruct (last (m_top s)) eqn:El; [|by apply last_None in El]. apply bool_decide_eq_true. by destruct Hr as [-> _].
Qed.

Lemma wp_pushCommon item (Q : unit → HTMLElementStack → Prop) s :
  bool_decide (m_rootNode s ≠ None) = true →
  Q tt (mkStack (mkRecord (nextAddress s) item :: m_top s) (m_rootNode s) (m_headElement s) (m_bodyElement s) (u32 (m_stackDepth s + 1)) (Pos.succ (nextAddress s)) (events s)) →
  wp (pushCommon item) Q s.
Proof.
  intros Hroot HQ. unfold pushCommon, newRecord. apply wp_bind, wp_gets. apply wp_bind, wp_ASSERT; [done|]. apply wp_bind, wp_modify.
  apply wp_bind, wp_bind, wp_gets. apply wp_bind, wp_modify. apply wp_ret. by apply wp_modify.
Qed.

Lemma wp_assertOrdinary item (Q : unit → HTMLElementStack → Prop) s :
  ordinary item = true → bool_decide (m_rootNode s ≠ None) = true → Q tt s → wp (assertOrdinary item) Q s.
Proof.
  intros (_ & Hhtml & Hh & Hb)%ordinary_split Hroot HQ. unfold assertOrdinary. apply wp_bind, wp_ASSERT; [by rewrite Hhtml|].
  apply wp_bind, wp_ASSERT; [by rewrite Hh|]. apply wp_bind, wp_ASSERT; [by rewrite Hb|]. apply wp_bind, wp_gets. by apply wp_ASSERT.
Qed.

Lemma wp_push item (Q : unit → HTMLElementStack → Prop) s :
  wf s → nonempty s = true → ordinary item = true → Q tt (putIn item [] (m_top s) [] s) → wp (push item) Q s.
Proof.
  intros Hwf Hne Ho HQ. pose proof (root_known s Hwf Hne) as Hroot. unfold push. apply wp_bind, wp_assertOrdinary; [done..|].
  apply wp_pushCommon; [done|]. unfold putIn in HQ. apply ordinary_split in Ho as (_ & _ & Hh & Hb). by rewrite Hh, Hb, app_nil_r in HQ.
Qed.

Lemma wp_pushHead item (Q : unit → HTMLElementStack → Prop) s :
  wf s → nonempty s = true → isHead item = true → isElementItem item = true → m_headElement s = None →
  Q tt (putIn item [] (m_top s) [] s) → wp (pushHTMLHeadElement item) Q s.
Proof.
  intros Hwf Hne Hh He Hnone HQ. pose proof (root_known s Hwf Hne) as Hroot. unfold pushHTMLHeadElement. apply wp_bind, wp_ASSERT; [done|].
  apply wp_bind, wp_gets. apply wp_bind, wp_ASSERT; [by rewrite Hnone|]. apply wp_bind, wp_downcast; [done|]. apply wp_bind, wp_modify.
  apply wp_pushCommon; [done|]. assert (Hb : isBody item = false).
  { apply not_true_iff_false. intros Hb. pose proof (hasTagName_inj _ _ _ Hh Hb). done. }
  unfold putIn in HQ. by rewrite Hh, Hb, app_nil_r in HQ.
Qed.

Lemma wp_pushBody item (Q : unit → HTMLElementStack → Prop) s :
  wf s → nonempty s = true → isBody item = true → isElementItem item = true → m_bodyElement s = None →
  Q tt (putIn item [] (m_top s) [] s) → wp (pushHTMLBodyElement item) Q s.
Proof.
  intros Hwf Hne Hb He Hnone HQ. pose proof (root_known s Hwf Hne) as Hroot. unfold pushHTMLBodyElement. apply wp_bind, wp_ASSERT; [done|].
  apply wp_bind, wp_gets. apply wp_bind, wp_ASSERT; [by rewrite Hnone|]. apply wp_bind, wp_downcast; [done|]. apply wp_bind, wp_modify.
  apply wp_pushCommon; [done|]. assert (Hh : isHead item = false).
  { apply not_true_iff_false. intros Hh. pose proof (hasTagName_inj _ _ _ Hh Hb). done. }
  unfold putIn in HQ. by rewrite Hh, Hb, app_nil_r in HQ.
Qed.

(** The first record: the root. *)
Lemma wp_pushRoot item (Q : unit → HTMLElementStack → Prop) s :
  wf s → nonempty s = false → isRootItem item = true →
  (∀ s', wf s' → m_top s' = [mkRecord (nextAddress s) item] → events s' = events s → Q tt s') → wp (pushRootNodeCommon item) Q s.
Proof.
  intros Hwf Hne Hroot HQ. unfold nonempty in Hne. apply bool_decide_eq_false, dec_stable in Hne. destruct Hwf as [Hd Ha Hf Hn Hr Hh Hb].
  unfold rooted in Hr. rewrite Hne in *. cbn in Hr. assert (Hnone : m_headElement s = None ∧ m_bodyElement s = None).
  { split; [destruct (m_headElement s) as [n|] eqn:En; [|done]; destruct (proj2 Hh n eq_refl) as (x & Hx & _)
           |destruct (m_bodyElement s) as [n|] eqn:En; [|done]; destruct (proj2 Hb n eq_refl) as (x & Hx & _)]; by apply elem_of_nil in Hx. }
  destruct Hnone as [Hnh Hnb]. unfold pushRootNodeCommon. apply wp_bind, wp_gets. apply wp_bind, wp_ASSERT; [by rewrite Hne|].
  apply wp_bind, wp_gets. apply wp_bind, wp_ASSERT; [by rewrite Hr|]. apply wp_bind, wp_modify. apply wp_pushCommon; [done|]. cbn. rewrite Hne.
  destruct (root_not_head item Hroot) as [Eh Eb]. apply HQ; [|done..]. constructor; cbn [m_top m_stackDepth nextAddress m_headElement m_bodyElement].
  - rewrite Hd. done.
  - apply NoDup_singleton.
  - apply Forall_singleton. cbn. lia.
  - apply NoDup_singleton.
  - by unfold rooted.
  - rewrite Hnh. split; [|done]. intros r Hr' Er. apply list_elem_of_singleton in Hr' as ->. cbn in Er. congruence.
  - rewrite Hnb. split; [|done]. intros r Hr' Er. apply list_elem_of_singleton in Hr' as ->. cbn in Er. congruence.
Qed.

Lemma addressSplit address records : records = aboveAddress address records ++ fromAddress address records.
Proof. induction records as [|r records IH]; [done|]. cbn. case_bool_decide; [done|]. cbn. by f_equal. Qed.

Lemma fromAddress_cons address records : address ∈ rec_id <$> records → ∃ r b, fromAddress address records = r :: b ∧ rec_id r = address.
Proof.
  induction records as [|r records IH]; cbn; [by intros ?%elem_of_nil|]. case_bool_decide as E; [eauto|]. intros [Hx|Hx]%elem_of_cons; [congruence|auto].
Qed.

Lemma insertRecord_cons new below a r l :
  insertRecord new below (a :: r :: l) =
    if bool_decide (rec_id r = below) then Some (a :: new :: r :: l)
    else match insertRecord new below (r :: l) with Some l' => Some (a :: l') | None => None end.
Proof. done. Qed.

Lemma insertRecord_spec new below r records :
  rec_id r ≠ below → below ∈ rec_id <$> records →
  insertRecord new below (r :: records) = Some (r :: aboveAddress below records ++ new :: fromAddress below records).
Proof.
  revert r. induction records as [|r1 records IH]; intros r Hne Hin; [by apply elem_of_nil in Hin|]. rewrite insertRecord_cons. cbn [aboveAddress fromAddress].
  case_bool_decide as E; [done|]. rewrite (IH r1 E); [done|]. cbn in Hin. apply elem_of_cons in Hin as [Hin|Hin]; [congruence|done].
Qed.

Lemma wp_insertAbove item below (Q : unit → HTMLElementStack → Prop) s :
  wf s → ordinary item = true → below ∈ rec_id <$> m_top s →
  Q tt (putIn item (aboveAddress below (m_top s)) (fromAddress below (m_top s))
          (if bool_decide (rec_id <$> head (m_top s) = Some below) then [] else [BegunChildren (node_id (m_node item))]) s) →
  wp (insertAbove item below) Q s.
Proof.
  intros Hwf Ho Hin HQ. assert (Hne : nonempty s = true) by (apply bool_decide_eq_true; intros En; rewrite En in Hin; by apply elem_of_nil in Hin).
  pose proof (root_known s Hwf Hne) as Hroot. unfold insertAbove. apply wp_bind, wp_gets. destruct (m_top s) as [|r records] eqn:E; [by apply elem_of_nil in Hin|].
  apply wp_bind, wp_ASSERT; [done|]. apply wp_bind, wp_assertOrdinary; [done..|]. cbn [head fmap option_fmap option_map tail].
  cbn [head fmap option_fmap option_map aboveAddress fromAddress] in HQ.
  destruct (decide (rec_id r = below)) as [Er|Er].
  - rewrite bool_decide_eq_true_2 by (by rewrite Er). rewrite !bool_decide_eq_true_2 in HQ by (by rewrite ?Er). apply wp_push; [done..|]. by rewrite E.
  - assert (Hin' : below ∈ rec_id <$> records) by (cbn in Hin; apply elem_of_cons in Hin as [?|?]; [congruence|done]).
    rewrite bool_decide_eq_false_2 by congruence. rewrite !bool_decide_eq_false_2 in HQ by congruence. rewrite bool_decide_eq_true_2 by done.
    apply wp_bind, wp_modify. unfold newRecord. apply wp_bind, wp_bind, wp_gets. apply wp_bind, wp_modify. apply wp_ret. apply wp_bind, wp_modify. cbn.
    rewrite E, insertRecord_spec by done. apply ordinary_split in Ho as (He & _ & Hh & Hb). apply wp_bind, wp_downcast; [done|]. apply wp_modify. cbn.
    unfold putIn in HQ. by rewrite Hh, Hb in HQ.
Qed.

(** ** Removing and replacing *)

Lemma removeRecord_cons element above r l :
  removeRecord element (above :: r :: l) =
    if ASSERT_DISABLED || bool_decide (node_name (m_node (m_item r)) ≠ None) then
      if bool_decide (nodeOf r = element) then Some (above :: l)
      else match removeRecord element (r :: l) with Some l' => Some (above :: l') | None => None end
    else None.
Proof. done. Qed.

Lemma removeRecord_spec r0 a r b :
  Forall (λ x, isElementItem (m_item x) = true ∧ nodeOf x ≠ nodeOf r) a → isElementItem (m_item r) = true →
  removeRecord (nodeOf r) (r0 :: a ++ r :: b) = Some (r0 :: a ++ b).
Proof.
  intros Ha He. revert r0. induction Ha as [|r1 a [He1 Hne] Ha IH]; intros r0; cbn [app]; rewrite removeRecord_cons.
  - rewrite (elementItem_node _ He), orb_true_r. by rewrite bool_decide_eq_true_2.
  - rewrite (elementItem_node _ He1), orb_true_r, bool_decide_eq_false_2 by done. by rewrite IH.
Qed.

(** The nodes of the other records are different. *)
Lemma nodes_distinct a r b : NoDup (nodeOf <$> a ++ r :: b) → ∀ x, x ∈ a ++ b → nodeOf x ≠ nodeOf r.
Proof.
  intros Hnd x Hx E. rewrite fmap_app, fmap_cons in Hnd. apply NoDup_app in Hnd as (_ & Hab & Hb). apply NoDup_cons in Hb as [Hrb _].
  apply elem_of_app in Hx as [Hx|Hx].
  - apply (Hab (nodeOf x)); [by apply list_elem_of_fmap_2|rewrite E; by apply list_elem_of_here].
  - apply Hrb. rewrite <-E. by apply list_elem_of_fmap_2.
Qed.

Lemma filter_off a r b : NoDup (nodeOf <$> a ++ r :: b) → filter (λ x, nodeOf x ≠ nodeOf r) (a ++ r :: b) = a ++ b.
Proof.
  intros Hnd. pose proof (nodes_distinct a r b Hnd) as Hne. rewrite filter_app, filter_cons_False by (intros Hf; by apply Hf).
  rewrite !list_filter_all; [done| |]; intros x Hx; apply Hne; apply elem_of_app; auto.
Qed.

(** A record that is not the last one, with what is above and below it. *)
Lemma removable_split p s :
  removable p s = true → ∃ a r b, m_top s = a ++ r :: b ∧ b ≠ [] ∧ p r = true.
Proof.
  unfold removable. intros (r & Hin & Hp)%existsb_exists. apply list_elem_of_In, list_elem_of_split in Hin as (a & b & E).
  destruct (exists_last (l := m_top s)) as (l & r0 & Et); [intros En; rewrite En in E; by destruct a|]. rewrite Et, removelast_last in E.
  exists a, r, (b ++ [r0]). rewrite Et, E, <-app_assoc. split; [done|]. split; [by destruct b|done].
Qed.

(** Below the top; the pointer to the head is cleared before. *)
Lemma wp_removeNonTop r0 a r b element s0 (Q : unit → HTMLElementStack → Prop) s :
  wf s0 → m_top s0 = r0 :: a ++ r :: b → b ≠ [] → nodeOf r = node_id element → isBody (m_item r) = false →
  node_name element ≠ Some (htmlName "html") → node_name element ≠ Some (htmlName "body") →
  s = set_head (if isHead (m_item r) then None else m_headElement s0) s0 →
  Q tt (takenOff r (r0 :: a ++ b) s0) → wp (removeNonTopCommon element) Q s.
Proof.
  intros Hwf E Hb En Hbo N1 N2 -> HQ. destruct (rooted_split s0 [] r0 (a ++ r :: b) (wf_rooted _ Hwf) E ltac:(by destruct a)) as (He0 & _).
  destruct (rooted_split s0 (r0 :: a) r b (wf_rooted _ Hwf) E Hb) as (He & _).
  assert (Hnd := wf_nodes _ Hwf). rewrite E in Hnd. pose proof (nodes_distinct (r0 :: a) r b Hnd) as Hdist.
  assert (H0 : nodeOf r0 ≠ nodeOf r) by (apply Hdist; by apply list_elem_of_here). unfold removeNonTopCommon.
  apply wp_bind, wp_ASSERT; [by apply bool_decide_eq_true|]. apply wp_bind, wp_ASSERT; [by apply bool_decide_eq_true|].
  eapply wp_bind, wp_top; [done..|]. apply wp_bind, wp_ASSERT; [apply bool_decide_eq_true; fold (nodeOf r0); congruence|].
  apply wp_bind, wp_gets. cbn [set_head m_top]. rewrite E, <-En, removeRecord_spec; [| |done].
  - apply wp_bind, wp_modify. apply wp_bind, wp_modify. apply wp_modify. unfold takenOff in HQ. by rewrite Hbo in HQ.
  - apply Forall_forall. intros x Hx. split; [|apply Hdist; apply elem_of_cons; right; by apply elem_of_app; left].
    apply list_elem_of_split in Hx as (a1 & a2 & ->).
    destruct (rooted_split s0 (r0 :: a1) x (a2 ++ r :: b) (wf_rooted _ Hwf)) as (? & _); [by rewrite E, <-app_assoc|by destruct a2|done].
Qed.

Lemma wp_remove a r b element (Q : unit → HTMLElementStack → Prop) s :
  wf s → m_top s = a ++ r :: b → b ≠ [] → ordinary (m_item r) = true → nodeOf r = node_id element →
  node_name element ≠ Some (htmlName "html") → node_name element ≠ Some (htmlName "head") → node_name element ≠ Some (htmlName "body") →
  Q tt (takenOff r (a ++ b) s) → wp (remove element) Q s.
Proof.
  intros Hwf E Hb Ho En N1 N2 N3 HQ. unfold remove. apply wp_bind, wp_ASSERT; [by apply bool_decide_eq_true|].
  pose proof (proj1 (ordinary_split _) Ho) as (He & Hhtml & Hh & Hbo). destruct a as [|r0 a]; cbn [app] in *.
  - eapply wp_bind, wp_top; [done..|]. rewrite bool_decide_eq_true_2 by done. by eapply wp_pop.
  - destruct (rooted_split s [] r0 (a ++ r :: b) (wf_rooted _ Hwf) E ltac:(by destruct a)) as (He0 & _).
    assert (Hnd := wf_nodes _ Hwf). rewrite E in Hnd.
    assert (H0 : nodeOf r0 ≠ nodeOf r) by (apply (nodes_distinct (r0 :: a) r b Hnd); by apply list_elem_of_here).
    eapply wp_bind, wp_top; [done..|]. rewrite bool_decide_eq_false_2 by (fold (nodeOf r0); congruence).
    eapply (wp_removeNonTop r0 a r b element s); try done. rewrite Hh. by destruct s.
Qed.

Lemma wp_removeHead a r b element (Q : unit → HTMLElementStack → Prop) s :
  wf s → m_top s = a ++ r :: b → b ≠ [] → isHead (m_item r) = true → nodeOf r = node_id element → m_headElement s = Some (node_id element) →
  node_name element ≠ Some (htmlName "html") → node_name element ≠ Some (htmlName "body") →
  Q tt (takenOff r (a ++ b) s) → wp (removeHTMLHeadElement element) Q s.
Proof.
  intros Hwf E Hb Hh En Hptr N1 N2 HQ. unfold removeHTMLHeadElement. apply wp_bind, wp_gets. apply wp_bind, wp_ASSERT; [by apply bool_decide_eq_true|].
  assert (Hbo : isBody (m_item r) = false) by (apply not_true_iff_false; intros Hbo; pose proof (hasTagName_inj _ _ _ Hh Hbo); done).
  destruct a as [|r0 a]; cbn [app] in *.
  - destruct (rooted_split s [] r b (wf_rooted _ Hwf) E Hb) as (He & _). eapply wp_bind, wp_top; [done..|].
    rewrite bool_decide_eq_true_2 by done. by eapply wp_popHead.
  - destruct (rooted_split s [] r0 (a ++ r :: b) (wf_rooted _ Hwf) E ltac:(by destruct a)) as (He0 & _).
    assert (Hnd := wf_nodes _ Hwf). rewrite E in Hnd.
    assert (H0 : nodeOf r0 ≠ nodeOf r) by (apply (nodes_distinct (r0 :: a) r b Hnd); by apply list_elem_of_here).
    eapply wp_bind, wp_top; [done..|]. rewrite bool_decide_eq_false_2 by (fold (nodeOf r0); congruence). apply wp_bind, wp_modify.
    eapply (wp_removeNonTop r0 a r b element s); try done. by rewrite Hh.
Qed.

(** Replacing the element of a record. *)
Lemma replaceRecord_spec a r b item :
  rec_id r ∉ rec_id <$> a → isElement (m_item r) = true → replaceRecord (rec_id r) item (a ++ r :: b) = Some (a ++ mkRecord (rec_id r) item :: b).
Proof.
  intros Ha He. induction a as [|r0 a IH]; cbn [app replaceRecord].
  - by rewrite bool_decide_eq_true_2, He, orb_true_r by done.
  - cbn in Ha. apply not_elem_of_cons in Ha as [Hne Ha]. rewrite bool_decide_eq_false_2 by congruence. by rewrite IH.
Qed.

Lemma popAllLoop_ok records s :
  m_top s = records → popAllLoop records s =
    Some (tt, mkStack [] (m_rootNode s) (m_headElement s) (m_bodyElement s) (m_stackDepth s) (nextAddress s) (events s ++ finishedAll records)).
Proof.
  revert s. induction records as [|r records IH]; intros s E; cbn [popAllLoop].
  - cbn. rewrite app_nil_r. destruct s. cbn in E. by subst.
  - unfold mbind, M_bind, modify. rewrite IH by done. cbn. by rewrite <-app_assoc.
Qed.

Lemma remembers_replaced isTag pointer a r r' b :
  remembers isTag pointer (a ++ r :: b) → isTag (m_item r) = false → isTag (m_item r') = false → remembers isTag pointer (a ++ r' :: b).
Proof.
  intros [H1 H2] Hr Hr'. split.
  - intros x Hx Ex. apply H1; [|done]. rewrite elem_of_app, elem_of_cons in Hx |- *. destruct Hx as [?|[-> |?]]; [auto|congruence|auto].
  - intros n Hn. destruct (H2 n Hn) as (x & Hx & Ex & En). exists x. split; [|done]. rewrite elem_of_app, elem_of_cons in Hx |- *.
    destruct Hx as [?|[-> |?]]; [auto|congruence|auto].
Qed.

Lemma replaced_wf a r b item s :
  wf s → m_top s = a ++ r :: b → b ≠ [] → ordinary (m_item r) = true → ordinary item = true → fresh item s = true →
  wf (set_top (a ++ mkRecord (rec_id r) item :: b) s).
Proof.
  intros [Hd Ha Hf Hn Hr Hh Hb] E Hne (_ & _ & Er1 & Er2)%ordinary_split (He & Ehtml & Ei1 & Ei2)%ordinary_split Hfresh.
  unfold fresh in Hfresh. apply bool_decide_eq_true in Hfresh. rewrite E in *. constructor; cbn [set_top m_top m_stackDepth nextAddress m_headElement m_bodyElement].
  - rewrite Hd. f_equal. rewrite !length_app. done.
  - by rewrite fmap_app, fmap_cons in Ha |- *.
  - apply Forall_app in Hf as [? Hf]. apply Forall_cons in Hf as [? ?]. apply Forall_app. split; [done|]. by apply Forall_cons.
  - rewrite fmap_app, fmap_cons in Hn, Hfresh |- *. rewrite <-Permutation_middle. rewrite <-Permutation_middle in Hn, Hfresh.
    apply NoDup_cons in Hn as [_ Hn]. apply NoDup_cons. split; [|done]. intros Hx. apply Hfresh. by apply elem_of_cons; right.
  - unfold rooted in *. cbn [set_top m_top m_rootNode]. rewrite E in Hr.
    assert (Hl : last (a ++ mkRecord (rec_id r) item :: b) = last (a ++ r :: b)) by (rewrite !last_app_cons; destruct b; [done|]; by rewrite !last_cons_cons).
    rewrite Hl. destruct (last (a ++ r :: b)); [|done]. destruct Hr as (? & ? & Hall). split_and!; [done..|].
    rewrite removelast_app in Hall |- * by done. apply Forall_app in Hall as [? Hall]. apply Forall_app. split; [done|].
    destruct b as [|b0 b]; [done|]. apply Forall_cons in Hall as [_ ?]. apply Forall_cons. split; [cbn; by rewrite He, Ehtml|done].
  - by eapply remembers_replaced.
  - by eapply remembers_replaced.
Qed.

Lemma map_replaced a r b item :
  NoDup (rec_id <$> a ++ r :: b) → (λ x, if bool_decide (rec_id x = rec_id r) then mkRecord (rec_id r) item else x) <$> a ++ r :: b = a ++ mkRecord (rec_id r) item :: b.
Proof.
  intros Hnd. rewrite fmap_app, fmap_cons in Hnd. apply NoDup_app in Hnd as (_ & Hab & [Hb _]%NoDup_cons). rewrite fmap_app, fmap_cons.
  assert (Hall : ∀ l : list ElementRecord, rec_id r ∉ rec_id <$> l → (λ x, if bool_decide (rec_id x = rec_id r) then mkRecord (rec_id r) item else x) <$> l = l).
  { intros l Hl. induction l as [|x l IH]; [done|]. cbn in Hl. apply not_elem_of_cons in Hl as [? ?]. rewrite fmap_cons, bool_decide_eq_false_2 by congruence. f_equal. auto. }
  rewrite !Hall; [by rewrite bool_decide_eq_true_2|done|]. intros Hin. apply (Hab (rec_id r) Hin). by apply list_elem_of_here.
Qed.

(** What an operation is to leave. *)
Definition performed (op : Op) (s s' : HTMLElementStack) : Prop :=
  wf s' ∧ m_top s' = (spec op (nextAddress s) (m_top s)).1 ∧ events s' = events s ++ (spec op (nextAddress s) (m_top s)).2.

Lemma putIn_performed op item a b begun s :
  wf s → m_top s = a ++ b → b ≠ [] → isElementItem item = true → isHTML item = false → fresh item s = true →
  (isHead item = true → m_headElement s = None) → (isBody item = true → m_bodyElement s = None) →
  spec op (nextAddress s) (m_top s) = (a ++ mkRecord (nextAddress s) item :: b, begun) → performed op s (putIn item a b begun s).
Proof. intros. unfold performed. rewrite H8. split; [by apply putIn_wf|done]. Qed.

Lemma takenOff_performed op a r b s :
  wf s → m_top s = a ++ r :: b → b ≠ [] → spec op (nextAddress s) (m_top s) = (a ++ b, [FinishedChildren (nodeOf r)]) →
  performed op s (takenOff r (a ++ b) s).
Proof. intros Hwf E Hb Es. unfold performed. rewrite Es. split; [by apply takenOff_wf|done]. Qed.

Lemma popUntil_performed u s s' r b :
  popped (aboveStop u (m_top s)) s s' → m_top s' = r :: b → fromStop u (m_top s) = r :: b → performed (PopUntil u) s s'.
Proof. intros (? & _ & _ & _ & _ & He) Et Ef. split_and!; [done|cbn; congruence|done]. Qed.

(** Popping the record where popping stopped. *)
Lemma popped_pop u s s' r b (Q : unit → HTMLElementStack → Prop) :
  popped (aboveStop u (m_top s)) s s' → m_top s' = r :: b → fromStop u (m_top s) = r :: b → b ≠ [] → ordinary (m_item r) = true →
  (∀ s'', performed (PopUntilPopped u) s s'' → Q tt s'') → wp pop Q s'.
Proof.
  intros (Hwf & _ & _ & _ & _ & He) Et Ef Hb Ho HQ. eapply wp_pop; [done..|]. apply HQ. split_and!.
  - by apply (takenOff_wf s' [] r).
  - cbn. by rewrite Ef.
  - cbn. rewrite He, Ef. unfold finishedAll. cbn. by rewrite fmap_app, <-app_assoc.
Qed.

(** ** Every operation does what it promises *)

Lemma put_ok op item a b begun s (m : M HTMLElementStack unit) :
  wp m (λ _ s', s' = putIn item a b begun s) s →
  wf s → m_top s = a ++ b → b ≠ [] → isElementItem item = true → isHTML item = false → fresh item s = true →
  (isHead item = true → m_headElement s = None) → (isBody item = true → m_bodyElement s = None) →
  spec op (nextAddress s) (m_top s) = (a ++ mkRecord (nextAddress s) item :: b, begun) → wp m (λ _ s', performed op s s') s.
Proof. intros Hm **. eapply wp_mono; [done|]. intros _ s' ->. by apply putIn_performed. Qed.

Lemma nonempty_ne s : nonempty s = true → m_top s ≠ [].
Proof. apply bool_decide_eq_true. Qed.

Lemma tag_not_html name item : hasTagName name item = true → name ≠ htmlName "html" → isHTML item = false.
Proof. intros Ht Hne. apply not_true_iff_false. intros Hh. apply Hne. by apply (hasTagName_inj item). Qed.

Lemma push_ok item s : wf s → permitted (Push item) s = true → wp (perform (Push item)) (λ _ s', performed (Push item) s s') s.
Proof.
  cbn. rewrite !andb_true_iff. intros Hwf [[Ho Hne] Hf]. pose proof (proj1 (ordinary_split _) Ho) as (He & Hhtml & Hh & Hb).
  eapply (put_ok (Push item) item [] (m_top s)); [by apply wp_push|try done..]; [by apply nonempty_ne|congruence|congruence].
Qed.

Lemma pushHead_ok item s : wf s → permitted (PushHead item) s = true → wp (perform (PushHead item)) (λ _ s', performed (PushHead item) s s') s.
Proof.
  cbn. rewrite !andb_true_iff, bool_decide_eq_true. intros Hwf [[[[Hh He] Hne] Hf] Hnone].
  eapply (put_ok (PushHead item) item [] (m_top s)); [by apply wp_pushHead|try done..]; [by apply nonempty_ne|by eapply tag_not_html|].
  intros Hb. by pose proof (hasTagName_inj _ _ _ Hh Hb).
Qed.

Lemma pushBody_ok item s : wf s → permitted (PushBody item) s = true → wp (perform (PushBody item)) (λ _ s', performed (PushBody item) s s') s.
Proof.
  cbn. rewrite !andb_true_iff, bool_decide_eq_true. intros Hwf [[[[Hb He] Hne] Hf] Hnone].
  eapply (put_ok (PushBody item) item [] (m_top s)); [by apply wp_pushBody|try done..]; [by apply nonempty_ne|by eapply tag_not_html|].
  intros Hh. by pose proof (hasTagName_inj _ _ _ Hh Hb).
Qed.

Lemma insertAbove_ok item below s :
  wf s → permitted (InsertAbove item below) s = true → wp (perform (InsertAbove item below)) (λ _ s', performed (InsertAbove item below) s s') s.
Proof.
  cbn. rewrite !andb_true_iff, bool_decide_eq_true. intros Hwf [[Ho Hf] Hin]. pose proof (proj1 (ordinary_split _) Ho) as (He & Hhtml & Hh & Hb).
  eapply (put_ok (InsertAbove item below)); [by apply wp_insertAbove|try done..]; [apply addressSplit| |congruence|congruence].
  destruct (fromAddress_cons below (m_top s) Hin) as (r & b & -> & _). done.
Qed.

Lemma root_ok op item s :
  spec op (nextAddress s) (m_top s) = (mkRecord (nextAddress s) item :: m_top s, []) →
  wf s → nonempty s = false → isRootItem item = true → wp (pushRootNodeCommon item) (λ _ s', performed op s s') s.
Proof.
  intros Es Hwf Hne Hroot. apply wp_pushRoot; [done..|]. intros s' Hwf' Et Ee. unfold nonempty in Hne. apply bool_decide_eq_false, dec_stable in Hne.
  rewrite Hne in Es. unfold performed. rewrite Hne, Es, app_nil_r. done.
Qed.

(** The first record of those that can be popped. *)
Lemma removelast_cons {A} (l : list A) x l' : removelast l = x :: l' → ∃ b, l = x :: b ∧ b ≠ [].
Proof. destruct l as [|y [|z l]]; cbn; [done..|]. intros [= <- _]. eauto. Qed.

Lemma pop_ok op s r l' (m : M HTMLElementStack unit) :
  wf s → removelast (m_top s) = r :: l' → (∀ next records, spec op next records = spec Pop next records) →
  (∀ b Q, m_top s = r :: b → b ≠ [] → Q tt (takenOff r b s) → wp m Q s) → wp m (λ _ s', performed op s s') s.
Proof.
  intros Hwf El Es Hm. apply removelast_cons in El as (b & E & Hb). apply (Hm b _ E Hb). apply (takenOff_performed op [] r b); [done..|].
  rewrite Es, E. done.
Qed.

Lemma popUntil_ok u s : wf s → permitted (PopUntil u) s = true → wp (perform (PopUntil u)) (λ _ s', performed (PopUntil u) s s') s.
Proof.
  cbn [permitted]. rewrite andb_true_iff. intros Hwf [Ho Hf]. destruct (fromStop u (m_top s)) as [|r b] eqn:Ef; [done|].
  assert (Hgoal : ∀ m : M HTMLElementStack unit, wp m (λ _ s', popped (aboveStop u (m_top s)) s s' ∧ m_top s' = r :: b) s → wp m (λ _ s', performed (PopUntil u) s s') s).
  { intros m Hm. eapply wp_mono; [done|]. intros _ s' [Hp Et]. by eapply popUntil_performed. }
  destruct u; apply Hgoal; lazymatch type of Ef with
    | fromStop (AtElement _) _ = _ => by apply popUntilElement_ok
    | fromStop ?u _ = _ => exact (popLoop_ok u s r b Hwf Ho Ef)
    end.
Qed.

Lemma popUntilPopped_ok u s :
  wf s → permitted (PopUntilPopped u) s = true → wp (perform (PopUntilPopped u)) (λ _ s', performed (PopUntilPopped u) s s') s.
Proof.
  cbn [permitted]. rewrite andb_true_iff. intros Hwf [Ho Hf]. destruct (fromStop u (m_top s)) as [|r [|r' b]] eqn:Ef; [done..|].
  assert (Hgoal : ∀ m : M HTMLElementStack unit, wp m (λ _ s', popped (aboveStop u (m_top s)) s s' ∧ m_top s' = r :: r' :: b) s → wp (m;; pop) (λ _ s', performed (PopUntilPopped u) s s') s).
  { intros m Hm. apply wp_bind. eapply wp_mono; [done|]. intros _ s' [Hp Et]. by eapply popped_pop. }
  apply ordinary_split in Hf as [He _]. destruct u; apply Hgoal; lazymatch type of Ef with
    | fromStop (AtElement _) _ = _ => by apply popUntilElement_ok
    | fromStop ?u _ = _ => exact (popLoop_ok u s r _ Hwf Ho Ef)
    end.
Qed.

Lemma remove_ok element s : wf s → permitted (Remove element) s = true → wp (perform (Remove element)) (λ _ s', performed (Remove element) s s') s.
Proof.
  cbn [permitted]. rewrite andb_true_iff, bool_decide_eq_true. intros Hwf [Hn (a & r & b & E & Hb & Hp)%removable_split].
  apply andb_true_iff in Hp as [Ho En%bool_decide_eq_true]. rewrite !not_elem_of_cons in Hn. destruct Hn as (N1 & N2 & N3 & _).
  apply (wp_remove a r b); try done. apply takenOff_performed; [done..|]. cbn. rewrite <-En, E. f_equal. apply filter_off. rewrite <-E. by apply wf_nodes.
Qed.

Lemma removeHead_ok element s : wf s → permitted (RemoveHead element) s = true → wp (perform (RemoveHead element)) (λ _ s', performed (RemoveHead element) s s') s.
Proof.
  cbn [permitted]. rewrite andb_true_iff, !bool_decide_eq_true. intros Hwf [Hn Hptr]. rewrite !not_elem_of_cons in Hn. destruct Hn as (N1 & N2 & _).
  destruct (proj2 (wf_head _ Hwf) _ Hptr) as (r & Hin & Hh & En). apply list_elem_of_split in Hin as (a & b & E).
  assert (Hb : b ≠ []).
  { intros ->. pose proof (wf_rooted _ Hwf) as Hr. unfold rooted in Hr. rewrite E, last_snoc in Hr. destruct Hr as (_ & Hroot & _).
    destruct (root_not_head _ Hroot). congruence. }
  apply (wp_removeHead a r b); try done. apply takenOff_performed; [done..|]. cbn. rewrite <-En, E. f_equal. apply filter_off. rewrite <-E. by apply wf_nodes.
Qed.

Lemma replace_ok address item s :
  wf s → permitted (Replace address item) s = true → wp (perform (Replace address item)) (λ _ s', performed (Replace address item) s s') s.
Proof.
  cbn [permitted]. rewrite !andb_true_iff. intros Hwf [[Ho Hf] (a & r & b & E & Hb & Hp)%removable_split].
  apply andb_true_iff in Hp as [Hr Ea%bool_decide_eq_true]. subst address. pose proof (wf_addresses _ Hwf) as Hnd. rewrite E in Hnd.
  pose proof (proj1 (ordinary_split _) Hr) as (He & _). unfold isElementItem in He. apply andb_true_iff in He as [He _].
  unfold wp. cbn [perform]. unfold replaceElement, modifyOpt. rewrite E, replaceRecord_spec; [|pose proof Hnd as Hnd'; rewrite fmap_app, fmap_cons in Hnd'|done].
  - split; [by eapply replaced_wf|]. cbn [spec]. rewrite E, map_replaced by done. by rewrite app_nil_r.
  - apply NoDup_app in Hnd' as (_ & Hab & _). intros Hin. apply (Hab _ Hin). by apply list_elem_of_here.
Qed.

Lemma popAll_ok s : wf s → wp (perform PopAll) (λ _ s', performed PopAll s s') s.
Proof.
  intros Hwf. cbn [perform]. unfold popAll. do 4 apply wp_bind, wp_modify. apply wp_bind, wp_gets. unfold wp. rewrite popAllLoop_ok by done.
  split; [|done]. constructor; cbn; try done; try apply NoDup_nil_2; try apply Forall_nil_2; (split; [intros r Hr; by apply elem_of_nil in Hr|done]).
Qed.

Lemma performStack_ok op s :
  wf s → permitted op s = true →
  ∃ s', perform op s = Some (tt, s') ∧ wf s' ∧ m_top s' = (spec op (nextAddress s) (m_top s)).1 ∧
        events s' = events s ++ (spec op (nextAddress s) (m_top s)).2.
Proof.
  intros Hwf Hp. enough (Hok : wp (perform op) (λ _ s', performed op s s') s) by (apply wp_elim in Hok as ([] & s' & ? & ?); eauto).
  destruct op; try (by apply popUntil_ok || by apply popUntilPopped_ok || by apply push_ok || by apply pushHead_ok || by apply pushBody_ok
    || by apply insertAbove_ok || by apply remove_ok || by apply removeHead_ok || by apply replace_ok || by apply popAll_ok).
  1,2: cbn in Hp; apply andb_true_iff in Hp as [[Hi Hroot]%andb_true_iff Hne%negb_true_iff]; apply wp_bind, wp_ASSERT; [done|]; by apply (root_ok _ item).
  all: cbn in Hp; destruct (removelast (m_top s)) as [|r l'] eqn:El; [done|]; eapply pop_ok; [done..|]; intros b Q E Hb HQ.
  - by eapply wp_pop.
  - by eapply wp_popHead.
  - by eapply wp_popBody.
Qed.

(** C13: On a well-formed stack every operation of the tree builder, called when its
    precondition holds, runs to its end without a failed assertion or a null pointer,
    leaves a well-formed stack whose records are those of the abstract operation, and
    finishes the children of exactly the elements it took off, in order. *)
Theorem stack_operations op s :
  wf s → permitted op s = true →
  ∃ s', perform op s = Some (tt, s') ∧ wf s' ∧ m_top s' = (spec op (nextAddress s) (m_top s)).1 ∧
        events s' = events s ++ (spec op (nextAddress s) (m_top s)).2.
Proof. apply performStack_ok. Qed.

(** ** The queries *)

(** The first record that is looked for or is a marker is looked for. *)
Fixpoint inScopeOf (target marker : HTMLStackItem → bool) (records : list ElementRecord) : bool :=
  match records with
  | [] => false
  | r :: records => target (m_item r) || negb (marker (m_item r)) && inScopeOf target marker records
  end.

Lemma scopeLoop_answer target marker records s :
  existsb (marker ∘ m_item) records = true → scopeLoop target marker records s = Some (inScopeOf target marker records, s).
Proof.
  induction records as [|r records IH]; cbn [existsb]; [done|]. cbn [scopeLoop inScopeOf compose].
  destruct (target (m_item r)); [done|]. destruct (marker (m_item r)); [done|]. exact IH.
Qed.

Lemma inScopeOf_spec target marker records :
  inScopeOf target marker records = true ↔
  ∃ a r b, records = a ++ r :: b ∧ target (m_item r) = true ∧ Forall (λ x, marker (m_item x) = false) a.
Proof.
  induction records as [|r records IH]; cbn [inScopeOf].
  - split; [done|]. intros (a & r & b & E & _). by destruct a.
  - rewrite orb_true_iff, andb_true_iff, negb_true_iff, IH. split.
    + intros [Ht|[Hm (a & r' & b & -> & Ht & Ha)]]; [by exists [], r, records|]. exists (r :: a), r', b. split_and!; [done..|]. by apply Forall_cons.
    + intros ([|r0 a] & r' & b & E & Ht & Ha); injection E as -> E; [by left|]. apply Forall_cons in Ha as [Hm Ha]. right. split; [done|]. by exists a, r', b.
Qed.

Lemma ask_scope q : ask q = scope (targetOf q) (markerOf q).
Proof. by destruct q. Qed.

(** The root is a marker of every scope. *)
Lemma root_marks q item : isRootItem item = true → markerOf q item = true.
Proof.
  unfold isRootItem. rewrite andb_true_iff, bool_decide_eq_true. intros [Hr Hn].
  destruct q; cbn; unfold isListItemScopeMarker, isButtonScopeMarker, isScopeMarker, isTableScopeMarker; rewrite ?Hr, ?orb_true_r; try done.
  unfold isSelectScopeMarker, isNodeOf. rewrite !elem_of_cons in Hn. destruct Hn as [-> |[-> |?%elem_of_nil]]; done.
Qed.

Lemma furthestLoop_spec furthest a r b s :
  isElementItem (m_item r) = true → Forall (λ x, isElementItem (m_item x) = true ∧ nodeOf x ≠ nodeOf r) a →
  furthestLoop (nodeOf r) furthest (a ++ r :: b) s =
    Some (match last (filter (λ x, isSpecialNode (m_item x) = true) a) with Some x => Some x | None => furthest end, s).
Proof.
  intros He Ha. revert furthest. induction Ha as [|x a [Hx Hne] Ha IH]; intros furthest; cbn [app furthestLoop].
  - unfold downcast, ASSERT, mbind, M_bind. rewrite (elementItem_node _ He), orb_true_r. cbn. by rewrite bool_decide_eq_true_2.
  - unfold downcast, ASSERT, mbind, M_bind. rewrite (elementItem_node _ Hx), orb_true_r. cbn [mret M_ret].
    rewrite bool_decide_eq_false_2 by done. rewrite IH. destruct (isSpecialNode (m_item x)) eqn:Es.
    + rewrite filter_cons_True by done. rewrite last_cons. by destruct (last _).
    + rewrite filter_cons_False by congruence. done.
Qed.

Lemma ask_run q s :
  wf s → m_top s ≠ [] →
  ∃ answer, ask q s = Some (answer, s) ∧
    (answer = true ↔ ∃ a r b, m_top s = a ++ r :: b ∧ targetOf q (m_item r) = true ∧ Forall (λ x, markerOf q (m_item x) = false) a).
Proof.
  intros Hwf Hne. assert (Hm : existsb (markerOf q ∘ m_item) (m_top s) = true).
  { pose proof (wf_rooted _ Hwf) as Hr. unfold rooted in Hr. destruct (last (m_top s)) as [root|] eqn:El; [|by apply last_None in El].
    destruct Hr as (_ & Hroot & _). apply last_Some in El as [l El]. rewrite El. apply existsb_exists. exists root. split; [apply in_or_app; right; by left|].
    by apply root_marks. }
  eexists. split; [rewrite ask_scope; unfold scope, gets, mbind, M_bind; by apply scopeLoop_answer|]. apply inScopeOf_spec.
Qed.

(** C38: Every question whether an element is in a scope is answered without a failed
    assertion on a well-formed stack that has its root, and leaves it alone; the
    answer is yes exactly when a record that is looked for comes before every marker
    of the scope, or is the first one itself. *)
Theorem scopes_exact q s :
  wf s → m_top s ≠ [] →
  ∃ answer, ask q s = Some (answer, s) ∧
    (answer = true ↔ ∃ a r b, m_top s = a ++ r :: b ∧ targetOf q (m_item r) = true ∧ Forall (λ x, markerOf q (m_item x) = false) a).
Proof. apply ask_run. Qed.

Lemma furthestBlock_run s a r b :
  wf s → m_top s = a ++ r :: b → isElementItem (m_item r) = true →
  furthestBlockForFormattingElement (nodeOf r) s = Some (last (filter (λ x, isSpecialNode (m_item x) = true) a), s).
Proof.
  intros Hwf E He. unfold furthestBlockForFormattingElement, gets, mbind, M_bind. rewrite E, furthestLoop_spec; [|done|].
  - f_equal. f_equal. by destruct (last _).
  - apply Forall_forall. intros x Hx. pose proof (wf_nodes _ Hwf) as Hnd. rewrite E in Hnd. split; [|apply (nodes_distinct a r b Hnd), elem_of_app; by left].
    apply list_elem_of_split in Hx as (a1 & a2 & ->). destruct (rooted_split s a1 x (a2 ++ r :: b) (wf_rooted _ Hwf)) as (? & _); [by rewrite E, <-app_assoc|by destruct a2|done].
Qed.

(** The furthest block of a formatting element on the stack is the deepest special
    element above it, none when there is none; the search ends at the element, at no
    assertion. *)
Theorem furthestBlock_exact s a r b :
  wf s → m_top s = a ++ r :: b → isElementItem (m_item r) = true →
  furthestBlockForFormattingElement (nodeOf r) s = Some (last (filter (λ x, isSpecialNode (m_item x) = true) a), s).
Proof. apply furthestBlock_run. Qed.

End Correctness.

(** ** Witnesses *)

Definition debugBuild : Build := {| ASSERT_DISABLED := false |}.

(** [<html><div><b><p>], as the stack has it when [</b>] comes. *)
Definition exampleStack : HTMLElementStack :=
  mkStack [mkRecord 4 (itemOfElement 13 (htmlName "p")); mkRecord 3 (itemOfElement 12 (htmlName "b"));
           mkRecord 2 (itemOfElement 11 (htmlName "div")); mkRecord 1 (itemOfElement 10 (htmlName "html"))]
    (Some 10%positive) None None 4 5 [].

Lemma exampleStack_wf : wf exampleStack.
Proof.
  constructor; [done|by apply (bool_decide_eq_true_1 _)|by repeat constructor|by apply (bool_decide_eq_true_1 _)| | |].
  1: split_and!; [done..|by repeat constructor].
  all: split; [|done]; intros r Hr; repeat (apply elem_of_cons in Hr as [-> |Hr]; [done|]); by apply elem_of_nil in Hr.
Qed.

Lemma stack_operations_witness :
  ∃ s', @perform debugBuild (PopUntilPopped (AtElement 12)) exampleStack = Some (tt, s') ∧ wf s' ∧
    m_top s' = [mkRecord 2 (itemOfElement 11 (htmlName "div")); mkRecord 1 (itemOfElement 10 (htmlName "html"))] ∧
    events s' = [FinishedChildren 13; FinishedChildren 12].
Proof. exact (@stack_operations debugBuild (PopUntilPopped (AtElement 12)) exampleStack exampleStack_wf eq_refl). Defined.

Lemma scopes_exact_witness :
  ∃ answer, @ask debugBuild (TagInButtonScope (text "p")) exampleStack = Some (answer, exampleStack) ∧
    (answer = true ↔ ∃ a r b, m_top exampleStack = a ++ r :: b ∧ matchesHTMLTag (text "p") (m_item r) = true ∧
                              Forall (λ x, isButtonScopeMarker (m_item x) = false) a).
Proof. refine (@scopes_exact debugBuild (TagInButtonScope (text "p")) exampleStack exampleStack_wf _). discriminate. Defined.

Lemma furthestBlock_exact_witness :
  @furthestBlockForFormattingElement debugBuild 12 exampleStack = Some (Some (mkRecord 4 (itemOfElement 13 (htmlName "p"))), exampleStack).
Proof.
  exact (@furthestBlock_exact debugBuild exampleStack [mkRecord 4 (itemOfElement 13 (htmlName "p"))] (mkRecord 3 (itemOfElement 12 (htmlName "b")))
           [mkRecord 2 (itemOfElement 11 (htmlName "div")); mkRecord 1 (itemOfElement 10 (htmlName "html"))] exampleStack_wf eq_refl eq_refl).
Defined.
