(* ===== verification/HTMLFormattingElementList.v ===== *)
(** * The list of active formatting elements

    Model of [Source/WebCore/html/parser/HTMLFormattingElementList.{h,cpp}]: the vector
    of entries, each the item of a formatting element or a marker, with the search from
    the end, the bookmark of the adoption agency algorithm and the condition of Noah's
    Ark that [append] enforces. A pointer to an entry is its index; a read out of the
    vector is a fault, and so is a failed assertion of a debug build.

    [append_exact] shows that [append] takes out all but the latest two of the entries
    since the last marker that have the tag and the attributes of the new one and
    nothing else, [clearToLastMarker_exact] and [swapTo_exact] what the other
    operations leave, and [closest_exact] what the search for a tag finds. *)

From Stdlib Require Import String.
From S2P Require Import Prelude HTMLStackItem.

#[local] Open Scope string_scope.
#[local] Open Scope list_scope.

(** An [Entry]: [None] is a marker. *)
Abbreviation Entry := (option HTMLStackItem).

Definition isMarker (entry : Entry) : bool := bool_decide (entry = None :> Entry).

Record Bookmark := mkBookmark { m_hasBeenMoved : bool; m_mark : nat }.
Definition moveToAfter (before : nat) (_ : Bookmark) : Bookmark := mkBookmark true before.

Definition kNoahsArkCapacity : nat := 3.

Section Operations.
Context `{Build}.

Abbreviation FM := (M (list Entry)).

(** [m_entries[i]] *)
Definition at_ (i : nat) : FM Entry := λ entries, match entries !! i with Some e => Some (e, entries) | None => None end.

(** [Entry::element] *)
Definition entryElement (entry : Entry) : FM Node := match entry with Some item => downcast item | None => fault end.

(** [Entry::operator==] with an element. *)
Definition entryIs (entry : Entry) (element : positive) : FM bool :=
  match entry with
  | None => mret false
  | Some item => e ← downcast item; mret (bool_decide (node_id e = element))
  end.

Fixpoint closestLoop (n : nat) (targetName : list Z) : FM (option Node) :=
  match n with
  | O => mret None
  | S i =>
      entry ← at_ i;
      match entry with
      | None => mret None
      | Some item => if matchesHTMLTag targetName item then e ← downcast item; mret (Some e) else closestLoop i targetName
      end
  end.
Definition closestElementInScopeWithName (targetName : list Z) : FM (option Node) := n ← gets length; closestLoop n targetName.

(** [Vector::reverseFind] *)
Fixpoint reverseFindLoop (n : nat) (element : positive) : FM (option nat) :=
  match n with
  | O => mret None
  | S i => entry ← at_ i; found ← entryIs entry element; if found : bool then mret (Some i) else reverseFindLoop i element
  end.
Definition reverseFind (element : positive) : FM (option nat) := n ← gets length; reverseFindLoop n element.

Definition find (element : positive) : FM (option nat) := reverseFind element.
Definition contains (element : positive) : FM bool := index ← find element; mret (bool_decide (index ≠ None)).

Definition bookmarkFor (element : positive) : FM Bookmark :=
  index ← reverseFind element;
  match index with Some i => mret (mkBookmark false i) | None => fault end.

(** [Entry::replaceElement] of the entry at an index. *)
Definition replaceElement (i : nat) (item : HTMLStackItem) : FM unit := _ ← at_ i; modify (λ entries, <[i := Some item]> entries).

Definition remove (element : positive) : FM unit :=
  index ← reverseFind element;
  match index with Some i => modify (delete i) | None => mret tt end.

Definition swapTo (oldElement : positive) (newItem : HTMLStackItem) (bookmark : Bookmark) : FM unit :=
  old ← contains oldElement;
  ASSERT old;;
  newElement ← downcast newItem;
  new ← contains (node_id newElement);
  ASSERT (negb new);;
  if negb (m_hasBeenMoved bookmark) then
    entry ← at_ (m_mark bookmark);
    marked ← entryElement entry;
    ASSERT (bool_decide (node_id marked = oldElement));;
    replaceElement (m_mark bookmark) newItem
  else
    let index := m_mark bookmark in
    size ← gets length;
    if bool_decide (index < size)%nat then
      modify (λ entries, take (index + 1) entries ++ Some newItem :: drop (index + 1) entries);;
      remove oldElement
    else fault.

(** The loop of [tryToEnsureNoahsArkConditionQuickly]. *)
Fixpoint quickLoop (n : nat) (newItem : HTMLStackItem) (candidates : list HTMLStackItem) : FM (list HTMLStackItem) :=
  match n with
  | O => mret candidates
  | S i =>
      entry ← at_ i;
      match entry with
      | None => mret candidates
      | Some candidate =>
          if bool_decide (m_localName newItem ≠ m_localName candidate) || bool_decide (m_namespaceURI newItem ≠ m_namespaceURI candidate) then quickLoop i newItem candidates
          else if bool_decide (length (m_attributes candidate) ≠ length (m_attributes newItem)) then quickLoop i newItem candidates
          else quickLoop i newItem (candidates ++ [candidate])
      end
  end.

(** The candidates that may be surplus; none when there is room. *)
Definition tryToEnsureNoahsArkConditionQuickly (newItem : HTMLStackItem) : FM (list HTMLStackItem) :=
  n ← gets length;
  if (n <? kNoahsArkCapacity)%nat then mret []
  else candidates ← quickLoop n newItem [];
       if (length candidates <? kNoahsArkCapacity)%nat then mret [] else mret candidates.

(** The loop over the candidates for an attribute of the new item. *)
Fixpoint candidateLoop (newItem : HTMLStackItem) (attribute : Attribute) (candidates : list HTMLStackItem) : FM (list HTMLStackItem) :=
  match candidates with
  | [] => mret []
  | candidate :: candidates =>
      ASSERT (length (m_attributes newItem) =? length (m_attributes candidate))%nat;;
      ASSERT (bool_decide (m_localName newItem = m_localName candidate) && bool_decide (m_namespaceURI newItem = m_namespaceURI candidate));;
      remaining ← candidateLoop newItem attribute candidates;
      match findAttribute candidate (attributeName attribute) with
      | Some candidateAttribute => mret (if bool_decide (attributeValue candidateAttribute = attributeValue attribute) then candidate :: remaining else remaining)
      | None => mret remaining
      end
  end.

(** The loop over the attributes; [None] when it returns early. *)
Fixpoint attributeLoop (newItem : HTMLStackItem) (attributes : list Attribute) (candidates : list HTMLStackItem) : FM (option (list HTMLStackItem)) :=
  match attributes with
  | [] => mret (Some candidates)
  | attribute :: attributes =>
      remaining ← candidateLoop newItem attribute candidates;
      if (length remaining <? kNoahsArkCapacity)%nat then mret None else attributeLoop newItem attributes remaining
  end.

Fixpoint removeAll (items : list HTMLStackItem) : FM unit :=
  match items with [] => mret tt | item :: items => e ← downcast item; remove (node_id e);; removeAll items end.

Definition ensureNoahsArkCondition (newItem : HTMLStackItem) : FM unit :=
  candidates ← tryToEnsureNoahsArkConditionQuickly newItem;
  if bool_decide (candidates = []) then mret tt
  else remaining ← attributeLoop newItem (m_attributes newItem) candidates;
       match remaining with
       | None => mret tt
       | Some candidates => removeAll (drop (kNoahsArkCapacity - 1) candidates)
       end.

Definition append (item : HTMLStackItem) : FM unit := ensureNoahsArkCondition item;; modify (λ entries, entries ++ [Some item]).
Definition appendMarker : FM unit := modify (λ entries, entries ++ [None]).

Fixpoint clearLoop (n : nat) : FM unit :=
  match n with
  | O => mret tt
  | S i => entry ← at_ i; modify (take i);; if isMarker entry then mret tt else clearLoop i
  end.
Definition clearToLastMarker : FM unit := n ← gets length; clearLoop n.

End Operations.

(** ** Well-formed lists *)

Definition entryNode (entry : Entry) : option positive := (λ item, node_id (m_node item)) <$> entry.
Definition nodes (entries : list Entry) : list positive := omap entryNode entries.
Definition nodeOf (item : HTMLStackItem) : positive := node_id (m_node item).
Definition hasElement (entry : Entry) : bool := match entry with Some item => isElementItem item | None => true end.

(** The entries are elements or markers; no element has two entries. *)
Record wf (entries : list Entry) : Prop := mkWf { wf_elements : Forall (λ e, hasElement e = true) entries; wf_nodes : NoDup (nodes entries) }.

Lemma nodes_app a b : nodes (a ++ b) = nodes a ++ nodes b.
Proof. apply omap_app. Qed.

Lemma nodes_items items : nodes (Some <$> items) = nodeOf <$> items.
Proof. induction items as [|item items IH]; [done|]. cbn. by f_equal. Qed.

Lemma wf_app a b : wf (a ++ b) ↔ wf a ∧ wf b ∧ (∀ n, n ∈ nodes a → n ∉ nodes b).
Proof.
  split.
  - intros [H1 H2]. rewrite nodes_app in H2. apply Forall_app in H1 as [? ?]. apply NoDup_app in H2 as (? & ? & ?). by split_and!.
  - intros ([? ?] & [? ?] & ?). split; [by apply Forall_app|]. rewrite nodes_app. by apply NoDup_app.
Qed.

(** ** Items that are alike *)

(** Two items with the same tag and the same attributes, in any order. *)
Definition alike (item candidate : HTMLStackItem) : Prop :=
  m_localName item = m_localName candidate ∧ m_namespaceURI item = m_namespaceURI candidate ∧ m_attributes item ≡ₚ m_attributes candidate.

#[global] Instance alike_dec item candidate : Decision (alike item candidate).
Proof. unfold alike. apply _. Defined.

(** No attribute of an item has the name of another one. *)
Definition attributesDistinct (item : HTMLStackItem) : Prop := NoDup (attributeName <$> m_attributes item).

(** What the loops test. *)
Definition sameTag (item candidate : HTMLStackItem) : bool :=
  bool_decide (m_localName item = m_localName candidate) && bool_decide (m_namespaceURI item = m_namespaceURI candidate)
  && (length (m_attributes candidate) =? length (m_attributes item))%nat.
Definition hasAttribute (attribute : Attribute) (candidate : HTMLStackItem) : bool :=
  match findAttribute candidate (attributeName attribute) with
  | Some candidateAttribute => bool_decide (attributeValue candidateAttribute = attributeValue attribute)
  | None => false
  end.
Definition same (item candidate : HTMLStackItem) : bool :=
  sameTag item candidate && forallb (λ attribute, hasAttribute attribute candidate) (m_attributes item).

Lemma findIn_Some attributes name attribute : findIn attributes name = Some attribute → attribute ∈ attributes ∧ attributeName attribute = name.
Proof.
  induction attributes as [|x attributes IH]; cbn; [done|]. case_decide as E; [intros [= ->]; split; [by apply list_elem_of_here|done]|].
  intros [? ?]%IH. split; [by apply elem_of_cons; right|done].
Qed.

Lemma findIn_here attributes attribute :
  NoDup (attributeName <$> attributes) → attribute ∈ attributes → findIn attributes (attributeName attribute) = Some attribute.
Proof.
  induction attributes as [|x attributes IH]; cbn; [by intros _ ?%elem_of_nil|]. intros [Hx Hnd]%NoDup_cons [-> |Hin]%elem_of_cons.
  - by case_decide.
  - case_decide as E; [|by apply IH]. destruct Hx. rewrite E. by apply list_elem_of_fmap_2.
Qed.

Lemma hasAttribute_spec attribute candidate :
  attributesDistinct candidate → hasAttribute attribute candidate = true ↔ attribute ∈ m_attributes candidate.
Proof.
  intros Hnd. unfold hasAttribute, findAttribute. split.
  - destruct (findIn _ _) as [found|] eqn:E; [|done]. rewrite bool_decide_eq_true. intros Ev. apply findIn_Some in E as [Hin En].
    destruct found, attribute. cbn in *. by subst.
  - intros Hin. rewrite findIn_here by done. by apply bool_decide_eq_true.
Qed.

(** The test is whether the items are alike. *)
Lemma same_alike item candidate :
  attributesDistinct item → attributesDistinct candidate → same item candidate = true ↔ alike item candidate.
Proof.
  intros Hi Hc. unfold same, sameTag, alike. rewrite !andb_true_iff, !bool_decide_eq_true, Nat.eqb_eq, forallb_forall.
  assert (Hall : (∀ x, In x (m_attributes item) → hasAttribute x candidate = true) ↔ m_attributes item ⊆ m_attributes candidate).
  { split; intros Hx a Ha; [apply hasAttribute_spec; [done|]; by apply Hx, list_elem_of_In|apply hasAttribute_spec; [done|]; by apply Hx, list_elem_of_In]. }
  rewrite Hall. split.
  - intros [[[? ?] Hl] Hsub]. split_and!; [done..|]. apply submseteq_length_Permutation; [|lia]. apply NoDup_submseteq; [by apply NoDup_fmap_1 in Hi|done].
  - intros (? & ? & Hp). split_and!; [done..|by rewrite Hp|by rewrite Hp].
Qed.

(** A list without the surplus items: only the latest [n] that pass the test stay. *)
Fixpoint keepLatest (n : nat) (p : HTMLStackItem → bool) (items : list HTMLStackItem) : list HTMLStackItem :=
  match items with
  | [] => []
  | item :: items => if p item && (n <=? length (filter p items))%nat then keepLatest n p items else item :: keepLatest n p items
  end.

Lemma keepLatest_count n (p : HTMLStackItem → bool) items : length (filter p (keepLatest n p items)) = (n `min` length (filter p items))%nat.
Proof.
  induction items as [|item items IH]; cbn [keepLatest]; [cbn; lia|]. destruct (p item) eqn:Ep; cbn [andb].
  - rewrite (filter_cons_True _ item items) by (by rewrite Ep). cbn [length]. destruct (Nat.leb_spec n (length (filter p items))) as [Hle|Hlt].
    + rewrite IH. lia.
    + rewrite filter_cons_True by (by rewrite Ep). cbn [length]. rewrite IH. lia.
  - rewrite !filter_cons_False by (rewrite Ep; by intros []). done.
Qed.

Lemma keepLatest_ext n (p q : HTMLStackItem → bool) items : (∀ x, x ∈ items → p x = q x) → keepLatest n p items = keepLatest n q items.
Proof.
  intros Hpq. induction items as [|x items IH]; [done|]. cbn [keepLatest]. rewrite (Hpq x) by apply list_elem_of_here.
  assert (Hpq' : ∀ y, y ∈ items → p y = q y) by (intros y Hy; apply Hpq; by apply elem_of_cons; right). rewrite IH by done.
  rewrite (list_filter_ext p q items); [done|]. intros y Hy. by rewrite Hpq'.
Qed.

Lemma keepLatest_sublist n p items : keepLatest n p items `sublist_of` items.
Proof. induction items as [|x items IH]; cbn; [done|]. destruct (p x && _); by constructor. Qed.

(** A list ends at its last marker, or is empty. *)
Definition endsInMarker (entries : list Entry) : Prop := entries = [] ∨ ∃ l, entries = l ++ [None].

Lemma marker_split entries : ∃ pre items, entries = pre ++ (Some <$> items) ∧ endsInMarker pre.
Proof.
  induction entries as [|[item|] entries (pre & items & -> & Hm)] using rev_ind.
  - by exists [], []; split; [|left].
  - exists pre, (items ++ [item]). by rewrite fmap_app, app_assoc.
  - exists ((pre ++ (Some <$> items)) ++ [None]), []. split; [by rewrite app_nil_r|]. right. by eexists.
Qed.

Section Correctness.
Context `{Build}.

Lemma at_mid a e b : at_ (length a) (a ++ e :: b) = Some (e, a ++ e :: b).
Proof. unfold at_. by rewrite list_lookup_middle. Qed.

Lemma entryIs_run e n entries : hasElement e = true → entryIs e n entries = Some (bool_decide (entryNode e = Some n), entries).
Proof.
  destruct e as [item|]; cbn; [|done]. intros He. unfold mbind, M_bind. rewrite downcast_run by done. unfold mret, M_ret. do 2 f_equal. apply bool_decide_ext. naive_solver.
Qed.

(** The search from the end. *)
Fixpoint lastIndex (n : positive) (i : nat) (entries : list Entry) : option nat :=
  match entries with
  | [] => None
  | e :: entries => match lastIndex n (S i) entries with Some j => Some j | None => if bool_decide (entryNode e = Some n) then Some i else None end
  end.

Lemma lastIndex_snoc n i entries e :
  lastIndex n i (entries ++ [e]) = if bool_decide (entryNode e = Some n) then Some (i + length entries)%nat else lastIndex n i entries.
Proof.
  revert i. induction entries as [|e' entries IH]; intros i; cbn [app lastIndex length]; [by rewrite Nat.add_0_r|].
  rewrite IH. case_bool_decide; [f_equal; lia|done].
Qed.

Lemma reverseFindLoop_run a b n :
  Forall (λ e, hasElement e = true) a → reverseFindLoop (length a) n (a ++ b) = Some (lastIndex n 0 a, a ++ b).
Proof.
  revert b. induction a as [|e a IH] using rev_ind; intros b Ha; [done|]. apply Forall_app in Ha as [Ha [He _]%Forall_cons].
  rewrite length_app, Nat.add_1_r, <-app_assoc. cbn [app]. cbn [reverseFindLoop]. unfold mbind, M_bind. rewrite at_mid, entryIs_run by done.
  rewrite lastIndex_snoc. case_bool_decide; [done|]. by apply IH.
Qed.

Lemma reverseFind_run entries n : Forall (λ e, hasElement e = true) entries → reverseFind n entries = Some (lastIndex n 0 entries, entries).
Proof. intros He. unfold reverseFind, gets, mbind, M_bind. pose proof (reverseFindLoop_run entries [] n He) as E. by rewrite app_nil_r in E. Qed.

Lemma lastIndex_absent n i entries : n ∉ nodes entries → lastIndex n i entries = None.
Proof.
  revert i. induction entries as [|e entries IH]; intros i Hn; [done|]. cbn [lastIndex]. unfold nodes in Hn. cbn in Hn.
  destruct (entryNode e) as [m|] eqn:Ee; cbn in Hn.
  - apply not_elem_of_cons in Hn as [? ?]. rewrite IH by done. by rewrite bool_decide_eq_false_2 by congruence.
  - by rewrite IH.
Qed.

Lemma lastIndex_here i a item b : nodeOf item ∉ nodes b → lastIndex (nodeOf item) i (a ++ Some item :: b) = Some (i + length a)%nat.
Proof.
  revert i. induction a as [|e a IH]; intros i Hb; cbn [app lastIndex length].
  - rewrite lastIndex_absent by done. rewrite bool_decide_eq_true_2 by done. f_equal. lia.
  - rewrite IH by done. f_equal. lia.
Qed.

(** An element of a list, with what is before and after it. *)
Lemma wf_split a item b :
  wf (a ++ Some item :: b) → isElementItem item = true ∧ (nodeOf item ∉ nodes a) ∧ (nodeOf item ∉ nodes b) ∧ wf (a ++ b).
Proof.
  intros (Ha & Hb & Hab)%wf_app. pose proof Hb as (Hi & Hb' & Hib)%(wf_app [Some item] b). destruct Hi as [[Hi _]%Forall_cons _].
  split_and!; [done| |apply Hib; by apply list_elem_of_here|].
  - intros Hin. apply (Hab _ Hin). by apply list_elem_of_here.
  - apply wf_app. split_and!; [done..|]. intros n Hn Hn'. apply (Hab n Hn). unfold nodes. cbn. by apply elem_of_cons; right.
Qed.

Lemma find_here a item b : wf (a ++ Some item :: b) → reverseFind (nodeOf item) (a ++ Some item :: b) = Some (Some (length a), a ++ Some item :: b).
Proof.
  intros Hwf. pose proof (wf_split a item b Hwf) as (_ & _ & Hb & _). rewrite reverseFind_run by apply Hwf. by rewrite lastIndex_here.
Qed.

Lemma find_absent n entries : wf entries → n ∉ nodes entries → reverseFind n entries = Some (None, entries).
Proof. intros Hwf Hn. rewrite reverseFind_run by apply Hwf. by rewrite lastIndex_absent. Qed.

Lemma remove_here a item b : wf (a ++ Some item :: b) → remove (nodeOf item) (a ++ Some item :: b) = Some (tt, a ++ b).
Proof. intros Hwf. unfold remove, mbind, M_bind. rewrite find_here by done. unfold modify. do 2 f_equal. by apply delete_middle. Qed.

(** ** Noah's Ark *)

Lemma quickLoop_run newItem pre items suf candidates :
  endsInMarker pre →
  quickLoop (length (pre ++ (Some <$> items))) newItem candidates ((pre ++ (Some <$> items)) ++ suf) =
    Some (candidates ++ reverse (filter (sameTag newItem) items), (pre ++ (Some <$> items)) ++ suf).
Proof.
  intros Hm. revert candidates suf. induction items as [|item items IH] using rev_ind; intros candidates suf.
  - rewrite !app_nil_r. destruct Hm as [-> |[l ->]]; [done|]. rewrite length_app, Nat.add_1_r, <-app_assoc.
    cbn [app quickLoop]. unfold mbind, M_bind. by rewrite at_mid.
  - rewrite fmap_app. cbn [fmap list_fmap]. rewrite !app_assoc, length_app, Nat.add_1_r, <-(app_assoc _ _ suf). cbn [app quickLoop].
    unfold mbind, M_bind. rewrite at_mid, filter_app, reverse_app.
    assert (Hif : ∀ A (x y : A), (if bool_decide (m_localName newItem ≠ m_localName item) || bool_decide (m_namespaceURI newItem ≠ m_namespaceURI item) then x
      else if bool_decide (length (m_attributes item) ≠ length (m_attributes newItem)) then x else y) = if sameTag newItem item then y else x).
    { intros A x y. unfold sameTag. repeat case_bool_decide; cbn; try congruence; try tauto; destruct (Nat.eqb_spec (length (m_attributes item)) (length (m_attributes newItem))); cbn; congruence || tauto. }
    rewrite Hif. destruct (sameTag newItem item) eqn:Es.
    + rewrite IH, filter_cons_True by (by rewrite Es). cbn. by rewrite <-app_assoc.
    + rewrite IH, filter_cons_False by (rewrite Es; by intros []). done.
Qed.

Lemma candidateLoop_run newItem attribute candidates entries :
  Forall (sameTag newItem) candidates → candidateLoop newItem attribute candidates entries = Some (filter (hasAttribute attribute) candidates, entries).
Proof.
  intros Hc. induction Hc as [|c candidates Ht Hc IH]; [done|]. cbn [candidateLoop]. apply Is_true_true_1 in Ht. unfold sameTag in Ht.
  rewrite !andb_true_iff in Ht. destruct Ht as [[H1 H2] H3]. rewrite Nat.eqb_sym in H3. unfold mbind, M_bind, ASSERT. rewrite H1, H2, H3, !orb_true_r. cbn [mret M_ret]. unfold mret, M_ret. rewrite IH.
  destruct (hasAttribute attribute c) eqn:Ea.
  - rewrite filter_cons_True by (by rewrite Ea). unfold hasAttribute in Ea. destruct (findAttribute _ _); [|done]. by rewrite Ea.
  - rewrite filter_cons_False by (rewrite Ea; by intros []). unfold hasAttribute in Ea. destruct (findAttribute _ _); [|done]. by rewrite Ea.
Qed.

Definition hasAll (attributes : list Attribute) (candidate : HTMLStackItem) : bool := forallb (λ attribute, hasAttribute attribute candidate) attributes.

(** The loop over the attributes ends with the candidates that have them all, or
    early, when there is room. *)
Lemma attributeLoop_run newItem attributes candidates entries :
  Forall (sameTag newItem) candidates →
  ∃ result, attributeLoop newItem attributes candidates entries = Some (result, entries) ∧
    match result with
    | Some remaining => remaining = filter (hasAll attributes) candidates
    | None => (length (filter (hasAll attributes) candidates) < kNoahsArkCapacity)%nat
    end.
Proof.
  revert candidates. induction attributes as [|attribute attributes IH]; intros candidates Hc; cbn [attributeLoop].
  - eexists. split; [done|]. cbn. symmetry. by apply list_filter_all.
  - assert (Hf : filter (hasAll (attribute :: attributes)) candidates = filter (hasAll attributes) (filter (hasAttribute attribute) candidates)).
    { rewrite list_filter_filter. apply list_filter_iff. intros x. cbn. rewrite andb_True. tauto. }
    unfold mbind, M_bind. rewrite candidateLoop_run, Hf by done. destruct (Nat.ltb_spec (length (filter (hasAttribute attribute) candidates)) kNoahsArkCapacity).
    + eexists. split; [done|]. cbn. eapply Nat.le_lt_trans; [apply length_filter|done].
    + apply IH. by apply Forall_filter.
Qed.

Lemma filter_same newItem (items : list HTMLStackItem) : filter (hasAll (m_attributes newItem)) (filter (sameTag newItem) items) = filter (same newItem) items.
Proof. rewrite list_filter_filter. apply list_filter_iff. intros x. unfold same. rewrite andb_True. unfold hasAll. tauto. Qed.

(** The entries that are not of the given nodes. *)
Definition without (gone : list positive) (entries : list Entry) : list Entry := filter (λ e, entryNode e ∉ Some <$> gone) entries.

Lemma without_nil entries : without [] entries = entries.
Proof. apply list_filter_all. intros x _. by intros ?%elem_of_nil. Qed.

Lemma without_absent n entries : n ∉ nodes entries → without [n] entries = entries.
Proof.
  intros Hn. apply list_filter_all. intros e He Hin. apply list_elem_of_singleton in Hin. apply Hn. apply list_elem_of_omap. by exists e.
Qed.

Lemma without_cons n gone entries : without (n :: gone) entries = without gone (without [n] entries).
Proof.
  unfold without. rewrite list_filter_filter. apply list_filter_iff. intros e. rewrite !fmap_cons, not_elem_of_cons, list_elem_of_singleton. tauto.
Qed.

Lemma without_here a item b : wf (a ++ Some item :: b) → without [nodeOf item] (a ++ Some item :: b) = a ++ b.
Proof.
  intros Hwf. apply wf_split in Hwf as (_ & Ha & Hb & _). unfold without. rewrite filter_app, filter_cons_False by (intros Hn; apply Hn; by apply list_elem_of_here).
  f_equal; by apply without_absent.
Qed.

Lemma removeAll_run gone entries :
  wf entries → Forall (λ item, Some item ∈ entries) gone → NoDup (nodeOf <$> gone) →
  removeAll gone entries = Some (tt, without (nodeOf <$> gone) entries).
Proof.
  intros Hwf Hin Hnd. revert entries Hwf Hin. induction gone as [|item gone IH]; intros entries Hwf Hin; cbn [removeAll]; [by rewrite without_nil|].
  apply Forall_cons in Hin as [Hi Hin]. apply list_elem_of_split in Hi as (a & b & ->). pose proof (wf_split _ _ _ Hwf) as (He & _ & _ & Hwf').
  rewrite fmap_cons in Hnd. apply NoDup_cons in Hnd as [Hni Hnd]. unfold mbind, M_bind. rewrite downcast_run by done.
  change (node_id (m_node item)) with (nodeOf item). rewrite remove_here by done. rewrite fmap_cons, without_cons, without_here by done. apply IH; [done..|].
  eapply Forall_impl; [apply Forall_and; split; [exact Hin|]|].
  - apply (proj2 (Forall_forall _ _)). intros x Hx. exact (λ E : x = item, Hni (list_elem_of_fmap_2' nodeOf gone x (nodeOf item) Hx (f_equal nodeOf (eq_sym E)))).
  - intros x [Hx Hne]. rewrite elem_of_app, elem_of_cons in Hx. rewrite elem_of_app. naive_solver.
Qed.

(** The surplus items: all but the latest [n] that pass the test. *)
Definition surplus (n : nat) (p : HTMLStackItem → bool) (items : list HTMLStackItem) : list HTMLStackItem := drop n (reverse (filter p items)).

Lemma surplus_sub n p items item : item ∈ surplus n p items → item ∈ items.
Proof.
  intros Hin. assert (Hr : item ∈ reverse (filter p items)) by (rewrite <-(take_drop n (reverse _)); by apply elem_of_app; right).
  rewrite elem_of_reverse, list_elem_of_filter in Hr. by destruct Hr.
Qed.

Lemma surplus_NoDup n p items : NoDup (nodeOf <$> items) → NoDup (nodeOf <$> surplus n p items).
Proof.
  intros Hnd. eapply sublist_NoDup; [|apply fmap_sublist, sublist_drop]. rewrite fmap_reverse, reverse_Permutation.
  eapply sublist_NoDup; [done|]. apply fmap_sublist, sublist_filter.
Qed.

Lemma surplus_cons n p item items :
  surplus n p (item :: items) = surplus n p items ++ (if p item && (n <=? length (filter p items))%nat then [item] else []).
Proof.
  unfold surplus. destruct (p item) eqn:Ep; cbn [andb].
  - rewrite filter_cons_True by (by rewrite Ep). rewrite reverse_cons, drop_app, length_reverse. f_equal.
    destruct (Nat.leb_spec n (length (filter p items))); [by replace (n - _)%nat with 0%nat by lia|]. apply drop_ge. cbn. lia.
  - rewrite filter_cons_False by (rewrite Ep; by intros []). by rewrite app_nil_r.
Qed.

(** Taking out the surplus leaves the latest. *)
Lemma without_surplus n p items :
  NoDup (nodeOf <$> items) → without (nodeOf <$> surplus n p items) (Some <$> items) = Some <$> keepLatest n p items.
Proof.
  intros Hnd. induction items as [|item items IH]; [done|]. rewrite fmap_cons in Hnd. apply NoDup_cons in Hnd as [Hni Hnd]. specialize (IH Hnd).
  rewrite surplus_cons, fmap_cons. cbn [keepLatest].
  assert (Hs : nodeOf item ∉ nodeOf <$> surplus n p items).
  { intros (x & Ex & Hx)%list_elem_of_fmap. apply Hni. rewrite Ex. by apply list_elem_of_fmap_2, (surplus_sub n p). }
  destruct (p item && (n <=? length (filter p items))%nat).
  - rewrite fmap_app, fmap_cons, fmap_nil. unfold without. rewrite filter_cons_False.
    + rewrite <-IH. unfold without. apply list_filter_ext. intros e (x & -> & Hx)%list_elem_of_fmap. cbn. rewrite fmap_app, not_elem_of_app, fmap_cons, fmap_nil, list_elem_of_singleton.
      split; [tauto|]. intros ?. split; [done|]. intros [= E]. apply Hni. by apply (list_elem_of_fmap_2' nodeOf items x).
    + intros Hn. apply Hn. rewrite fmap_app. apply elem_of_app. right. by apply list_elem_of_here.
  - rewrite app_nil_r, fmap_cons, <-IH. unfold without. rewrite filter_cons_True; [done|]. intros (x & Ex & Hx)%list_elem_of_fmap. injection Ex as Ex. by subst x.
Qed.

Lemma without_app gone a b : without gone (a ++ b) = without gone a ++ without gone b.
Proof. apply filter_app. Qed.

Lemma ensureNoahsArk_run item pre items :
  wf (pre ++ (Some <$> items)) → endsInMarker pre →
  ensureNoahsArkCondition item (pre ++ (Some <$> items)) = Some (tt, pre ++ (Some <$> keepLatest 2 (same item) items)).
Proof.
  intros Hwf Hm. pose proof Hwf as (_ & [_ Hnd] & Hdis)%wf_app. rewrite nodes_items in Hnd, Hdis.
  assert (Hgone : removeAll (surplus 2 (same item) items) (pre ++ (Some <$> items)) = Some (tt, pre ++ (Some <$> keepLatest 2 (same item) items))).
  { rewrite removeAll_run; [|done| |by apply surplus_NoDup].
    - do 2 f_equal. rewrite without_app, without_surplus by done. f_equal. apply list_filter_all. intros e He (n & En & Hn)%list_elem_of_fmap.
      apply list_elem_of_fmap in Hn as (x & -> & Hx%surplus_sub). apply (Hdis (nodeOf x)); [apply list_elem_of_omap; by exists e|by apply list_elem_of_fmap_2].
    - apply Forall_forall. intros x Hx%surplus_sub. apply elem_of_app. right. by apply list_elem_of_fmap_2. }
  assert (Hfew : (length (filter (same item) items) < kNoahsArkCapacity)%nat → pre ++ (Some <$> keepLatest 2 (same item) items) = pre ++ (Some <$> items)).
  { intros Hlt. unfold surplus in Hgone. rewrite drop_ge in Hgone by (rewrite length_reverse; unfold kNoahsArkCapacity in Hlt; lia). cbn in Hgone. by injection Hgone. }
  unfold ensureNoahsArkCondition, tryToEnsureNoahsArkConditionQuickly, gets, mbind, M_bind.
  pose proof (quickLoop_run item pre items [] [] Hm) as Hq. rewrite !app_nil_r in Hq. cbn [app] in Hq.
  assert (Hle : (length (filter (same item) items) ≤ length (filter (sameTag item) items))%nat) by (rewrite <-filter_same; apply length_filter).
  assert (Hle' := length_filter (sameTag item) items).
  destruct (Nat.ltb_spec (length (pre ++ (Some <$> items))) kNoahsArkCapacity) as [Hlt|Hge].
  { rewrite length_app, length_fmap in Hlt. rewrite Hfew by lia. done. }
  rewrite Hq. destruct (Nat.ltb_spec (length (reverse (filter (sameTag item) items))) kNoahsArkCapacity) as [Hlt|Hge'].
  { rewrite length_reverse in Hlt. rewrite Hfew by lia. done. }
  unfold mret, M_ret. rewrite bool_decide_eq_false_2 by (intros E; rewrite E in Hge'; unfold kNoahsArkCapacity in Hge'; cbn in Hge'; lia).
  destruct (attributeLoop_run item (m_attributes item) (reverse (filter (sameTag item) items)) (pre ++ (Some <$> items))) as (result & -> & Hr).
  { apply Forall_reverse, Forall_forall. by intros x [? _]%list_elem_of_filter. }
  rewrite filter_reverse, filter_same in Hr. destruct result as [remaining|]; [by subst remaining|].
  rewrite length_reverse in Hr. by rewrite Hfew.
Qed.

(** ** The operations *)

Lemma nodes_sublist entries entries' : entries' `sublist_of` entries → nodes entries' `sublist_of` nodes entries.
Proof. unfold nodes. induction 1 as [|e l l' _ IH|e l l' _ IH]; cbn; [done| |]; destruct (entryNode e); try done; by constructor. Qed.

Lemma wf_sublist entries entries' : entries' `sublist_of` entries → wf entries → wf entries'.
Proof.
  intros Hs [He Hn]. split; [|eapply sublist_NoDup; [done|by apply nodes_sublist]].
  rewrite Forall_forall in He |- *. intros e Hin. apply He. by eapply elem_of_sublist.
Qed.

Lemma wf_put a item b : wf (a ++ b) → isElementItem item = true → nodeOf item ∉ nodes (a ++ b) → wf (a ++ Some item :: b).
Proof.
  intros [He Hn] Hi Hf. rewrite nodes_app in Hn, Hf. apply Forall_app in He as [Ha Hb]. split; [by apply Forall_app; split; [|constructor]|].
  rewrite nodes_app. cbn. rewrite <-Permutation_middle. by apply NoDup_cons.
Qed.

Lemma append_run item pre items :
  wf (pre ++ (Some <$> items)) → endsInMarker pre → isElementItem item = true → nodeOf item ∉ nodes (pre ++ (Some <$> items)) →
  Forall attributesDistinct (item :: items) →
  let kept := keepLatest 2 (λ candidate, bool_decide (alike item candidate)) items in
  append item (pre ++ (Some <$> items)) = Some (tt, pre ++ (Some <$> kept ++ [item])) ∧
  wf (pre ++ (Some <$> kept ++ [item])) ∧
  (length (filter (alike item) (kept ++ [item])) ≤ kNoahsArkCapacity)%nat.
Proof.
  intros Hwf Hm He Hf [Hi Hd]%Forall_cons. cbn zeta.
  assert (Hk : keepLatest 2 (same item) items = keepLatest 2 (λ candidate, bool_decide (alike item candidate)) items).
  { apply keepLatest_ext. intros x Hx. apply eq_true_iff_eq. rewrite bool_decide_eq_true. apply same_alike; [done|]. by apply (proj1 (Forall_forall _ _) Hd). }
  assert (Hs : pre ++ (Some <$> keepLatest 2 (same item) items) `sublist_of` pre ++ (Some <$> items)) by (apply sublist_app; [done|apply fmap_sublist, keepLatest_sublist]).
  rewrite <-Hk, fmap_app, app_assoc. split_and!.
  - unfold append, mbind, M_bind. rewrite ensureNoahsArk_run by done. done.
  - apply wf_put; [rewrite app_nil_r; by eapply wf_sublist|done|]. rewrite app_nil_r. intros Hin. apply Hf. eapply elem_of_sublist; [done|]. by apply nodes_sublist.
  - rewrite Hk, filter_app, length_app, (list_filter_ext (alike item) (λ candidate, bool_decide (alike item candidate))) by (intros x _; by rewrite bool_decide_spec).
    rewrite keepLatest_count. pose proof (length_filter (alike item) [item] : _ ≤ 1)%nat as Hl. unfold kNoahsArkCapacity. lia.
Qed.

(** C18: Appending a formatting element runs without a failed assertion and keeps the
    list well formed. Of the elements since the last marker with the same tag and the
    same attributes only the latest two stay before the new one, so that there are
    three at most; every other entry stays where it is. *)
Theorem append_exact item pre items :
  wf (pre ++ (Some <$> items)) → endsInMarker pre → isElementItem item = true → nodeOf item ∉ nodes (pre ++ (Some <$> items)) →
  Forall attributesDistinct (item :: items) →
  let kept := keepLatest 2 (λ candidate, bool_decide (alike item candidate)) items in
  append item (pre ++ (Some <$> items)) = Some (tt, pre ++ (Some <$> kept ++ [item])) ∧
  wf (pre ++ (Some <$> kept ++ [item])) ∧
  (length (filter (alike item) (kept ++ [item])) ≤ kNoahsArkCapacity)%nat.
Proof. apply append_run. Qed.

Lemma clearLoop_run pre items :
  endsInMarker pre → clearLoop (length (pre ++ (Some <$> items))) (pre ++ (Some <$> items)) = Some (tt, removelast pre).
Proof.
  intros Hm. induction items as [|item items IH] using rev_ind.
  - rewrite app_nil_r. destruct Hm as [-> |[l ->]]; [done|]. rewrite length_app, Nat.add_1_r, removelast_last.
    cbn [clearLoop]. unfold mbind, M_bind, modify. rewrite at_mid, take_app_length. done.
  - rewrite fmap_app, app_assoc, length_app, Nat.add_1_r. cbn [fmap list_fmap clearLoop]. unfold mbind, M_bind, modify. rewrite at_mid, take_app_length. exact IH.
Qed.

(** Clearing the list takes out the elements since the last marker and the marker
    and no more; after [appendMarker] it gives back the list as it was, whatever was
    appended since. *)
Theorem clearToLastMarker_exact pre items :
  endsInMarker pre → clearToLastMarker (pre ++ (Some <$> items)) = Some (tt, removelast pre) ∧
  ∀ entries, (appendMarker;; modify (λ l, l ++ (Some <$> items));; clearToLastMarker) entries = Some (tt, entries).
Proof.
  assert (Hclear : ∀ pre, endsInMarker pre → clearToLastMarker (pre ++ (Some <$> items)) = Some (tt, removelast pre)).
  { intros pre' Hm. unfold clearToLastMarker, gets, mbind, M_bind. by apply clearLoop_run. }
  intros Hm. split; [by apply Hclear|]. intros entries. unfold appendMarker, modify, mbind, M_bind. rewrite Hclear; [by rewrite removelast_last|]. right. by eexists.
Qed.

Lemma closestLoop_run targetName pre items suf :
  Forall (λ item, isElementItem item = true) items → endsInMarker pre →
  closestLoop (length (pre ++ (Some <$> items))) targetName ((pre ++ (Some <$> items)) ++ suf) =
    Some (m_node <$> last (filter (matchesHTMLTag targetName) items), (pre ++ (Some <$> items)) ++ suf).
Proof.
  intros Hi Hm. revert suf. induction items as [|item items IH] using rev_ind; intros suf.
  - rewrite !app_nil_r. destruct Hm as [-> |[l ->]]; [done|]. rewrite length_app, Nat.add_1_r, <-app_assoc. cbn [app closestLoop].
    unfold mbind, M_bind. by rewrite at_mid.
  - apply Forall_app in Hi as [Hi [He _]%Forall_cons]. rewrite fmap_app. cbn [fmap list_fmap]. rewrite !app_assoc, length_app, Nat.add_1_r, <-(app_assoc _ _ suf).
    cbn [app closestLoop]. unfold mbind, M_bind. rewrite at_mid, filter_app. destruct (matchesHTMLTag targetName item) eqn:Et.
    + rewrite downcast_run by done. rewrite filter_cons_True by (by rewrite Et). by rewrite filter_nil, last_snoc.
    + rewrite filter_cons_False by (rewrite Et; by intros []). rewrite filter_nil, app_nil_r. by apply IH.
Qed.

(** The search for a tag gives the latest element since the last marker that has
    it, none when there is none, and reads no entry outside the list. *)
Theorem closest_exact targetName pre items :
  wf (pre ++ (Some <$> items)) → endsInMarker pre →
  closestElementInScopeWithName targetName (pre ++ (Some <$> items)) =
    Some (m_node <$> last (filter (matchesHTMLTag targetName) items), pre ++ (Some <$> items)).
Proof.
  intros [He _] Hm. unfold closestElementInScopeWithName, gets, mbind, M_bind. pose proof (closestLoop_run targetName pre items []) as E. rewrite app_nil_r in E.
  apply E; [|done]. apply Forall_app in He as [_ He]. by apply Forall_fmap in He.
Qed.

Lemma swapTo_run a old b newItem bookmark :
  let entries := a ++ Some old :: b in
  let entries' := if m_hasBeenMoved bookmark
                  then without [nodeOf old] (take (m_mark bookmark + 1) entries ++ Some newItem :: drop (m_mark bookmark + 1) entries)
                  else a ++ Some newItem :: b in
  wf entries → isElementItem newItem = true → nodeOf newItem ∉ nodes entries → (m_mark bookmark < length entries)%nat →
  (m_hasBeenMoved bookmark = false → bookmarkFor (nodeOf old) entries = Some (bookmark, entries)) →
  swapTo (nodeOf old) newItem bookmark entries = Some (tt, entries') ∧ wf entries'.
Proof.
  cbn zeta. intros Hwf He Hf Hlt Hb. pose proof (wf_split a old b Hwf) as (Ho & _ & _ & Hwf').
  assert (Hput : wf (take (m_mark bookmark + 1) (a ++ Some old :: b) ++ Some newItem :: drop (m_mark bookmark + 1) (a ++ Some old :: b))) by (apply wf_put; by rewrite ?take_drop).
  unfold swapTo, contains, find, mbind, M_bind, ASSERT. rewrite find_here by done. cbn [mret M_ret]. unfold mret, M_ret. rewrite bool_decide_eq_true_2, orb_true_r by done.
  rewrite downcast_run by done. change (node_id (m_node newItem)) with (nodeOf newItem). rewrite find_absent by done. rewrite bool_decide_eq_false_2 by (by intros []).
  cbn [negb]. rewrite orb_true_r. destruct (m_hasBeenMoved bookmark) eqn:Em; cbn [negb].
  - unfold gets, modify. rewrite bool_decide_eq_true_2 by done.
    assert (Hin : Some old ∈ take (m_mark bookmark + 1) (a ++ Some old :: b) ++ Some newItem :: drop (m_mark bookmark + 1) (a ++ Some old :: b)).
    { rewrite <-Permutation_middle, take_drop. apply elem_of_cons. right. apply elem_of_app. right. apply list_elem_of_here. }
    apply list_elem_of_split in Hin as (a' & b' & E). rewrite E in Hput |- *. rewrite remove_here, without_here by done. split; [done|]. by apply wf_split in Hput as (_ & _ & _ & ?).
  - specialize (Hb eq_refl). unfold bookmarkFor, mbind, M_bind in Hb. rewrite find_here in Hb by done. injection Hb as <-. cbn [m_mark].
    rewrite at_mid. cbn [entryElement]. rewrite downcast_run by done. rewrite bool_decide_eq_true_2, orb_true_r by done. unfold replaceElement, mbind, M_bind, modify. rewrite at_mid.
    rewrite insert_app_r_alt, Nat.sub_diag by done. cbn [insert list_insert]. split; [done|]. apply wf_put; [done..|]. intros Hin. apply Hf. rewrite !nodes_app in Hin |- *. cbn. rewrite elem_of_app in Hin. rewrite elem_of_app, elem_of_cons. tauto.
Qed.

(** C39: Swapping an element of the list for a new one, the last step of the adoption
    agency algorithm, keeps the list well formed. With the bookmark where it was made
    the new element takes the place of the old one; with a bookmark that was moved it
    comes after the entry there, and the old one is taken out. The new element is not in the list yet, and
    the bookmark points into it. *)
Theorem swapTo_exact a old b newItem bookmark :
  let entries := a ++ Some old :: b in
  let entries' := if m_hasBeenMoved bookmark
                  then without [nodeOf old] (take (m_mark bookmark + 1) entries ++ Some newItem :: drop (m_mark bookmark + 1) entries)
                  else a ++ Some newItem :: b in
  wf entries → isElementItem newItem = true → nodeOf newItem ∉ nodes entries → (m_mark bookmark < length entries)%nat →
  (m_hasBeenMoved bookmark = false → bookmarkFor (nodeOf old) entries = Some (bookmark, entries)) →
  swapTo (nodeOf old) newItem bookmark entries = Some (tt, entries') ∧ wf entries'.
Proof. apply swapTo_run. Qed.

End Correctness.

(** ** Witnesses *)

Definition debugList : Build := {| ASSERT_DISABLED := false |}.

Definition bItem (id : positive) : HTMLStackItem := itemOfElement id (htmlName "b").
Definition iItem (id : positive) : HTMLStackItem := itemOfElement id (htmlName "i").
Definition exampleItems : list HTMLStackItem := [bItem 2; iItem 3; bItem 4; bItem 5].

Lemma exampleItems_wf : wf ([Some (bItem 1); None] ++ (Some <$> exampleItems)).
Proof. split; [by repeat constructor|]. by apply (bool_decide_eq_true_1 _). Qed.

Lemma example_marker : endsInMarker [Some (bItem 1); None].
Proof. right. by exists [Some (bItem 1)]. Qed.

Lemma append_exact_witness :
  @append debugList (bItem 6) [Some (bItem 1); None; Some (bItem 2); Some (iItem 3); Some (bItem 4); Some (bItem 5)]
  = Some (tt, [Some (bItem 1); None; Some (iItem 3); Some (bItem 4); Some (bItem 5); Some (bItem 6)]).
Proof.
  refine (proj1 (@append_exact debugList (bItem 6) [Some (bItem 1); None] exampleItems exampleItems_wf example_marker eq_refl _ _)).
  - by apply (bool_decide_eq_true_1 _).
  - repeat constructor.
Defined.

Lemma clearToLastMarker_exact_witness :
  clearToLastMarker [Some (bItem 1); None; Some (bItem 2); Some (iItem 3); Some (bItem 4); Some (bItem 5)] = Some (tt, [Some (bItem 1)]).
Proof. exact (proj1 (clearToLastMarker_exact [Some (bItem 1); None] exampleItems example_marker)). Defined.

Lemma closest_exact_witness :
  @closestElementInScopeWithName debugList (text "i") ([Some (bItem 1); None] ++ (Some <$> exampleItems))
  = Some (Some (m_node (iItem 3)), [Some (bItem 1); None] ++ (Some <$> exampleItems)).
Proof. exact (@closest_exact debugList (text "i") [Some (bItem 1); None] exampleItems exampleItems_wf example_marker). Defined.

Lemma swapTo_exact_witness :
  @swapTo debugList 2 (bItem 6) (mkBookmark true 4) ([Some (bItem 1); None] ++ (Some <$> exampleItems))
  = Some (tt, [Some (bItem 1); None; Some (iItem 3); Some (bItem 4); Some (bItem 6); Some (bItem 5)]).
Proof.
  refine (proj1 (@swapTo_exact debugList [Some (bItem 1); None] (bItem 2) [Some (iItem 3); Some (bItem 4); Some (bItem 5)] (bItem 6) (mkBookmark true 4)
            exampleItems_wf eq_refl _ _ _)).
  - by apply (bool_decide_eq_true_1 _).
  - cbn. lia.
  - done.
Defined.
