(* ===== verification/ContainerNode.v ===== *)
(** * The tree of the document

    Model of [Source/WebCore/dom/ContainerNode.cpp], of [Document::canAcceptChild] and of
    the [childTypeAllowed] of the containers: nodes with pointers to the parent, the
    siblings and the first and last child, the operations of the DOM that scripts call and
    those of the parser. Pointers are keys of a map of nodes; following a null pointer is
    a fault, and so is a failed assertion of a debug build.

    The operations run scripts: listeners for mutation events, the unloading of frames,
    script elements that get text. [runScript] is what runs at such a point, any function
    on the tree. The tree scopes, renderers and notifications that run no script are left
    out, and so is the move to another document ([adoptNode]).

    [ContainerNodeCorrect] has the theorems. *)

From Stdlib Require Import String.
From S2P Require Import Prelude HTMLStackItem.

#[local] Open Scope list_scope.

Inductive NodeType :=
  | ELEMENT_NODE | ATTRIBUTE_NODE | TEXT_NODE | CDATA_SECTION_NODE | PROCESSING_INSTRUCTION_NODE | COMMENT_NODE
  | DOCUMENT_NODE | DOCUMENT_TYPE_NODE | DOCUMENT_FRAGMENT_NODE.

#[global] Instance NodeType_eq_dec : EqDecision NodeType.
Proof. solve_decision. Defined.

(** A node. [m_host] is the host of a shadow root or of the content of a template. *)
Record DOMNode := mkDOMNode {
  nodeType : NodeType;
  tagQName : option QualifiedName;
  m_host : option positive;
  m_parentNode : option positive;
  m_previous : option positive;
  m_next : option positive;
  m_firstChild : option positive;
  m_lastChild : option positive;
}.

#[global] Instance DOMNode_eq_dec : EqDecision DOMNode.
Proof. solve_decision. Defined.

(** A node that was just created. *)
Definition newNode (type : NodeType) (name : option QualifiedName) (host : option positive) : DOMNode :=
  mkDOMNode type name host None None None None None.

Definition set_parentNode (p : option positive) (r : DOMNode) : DOMNode :=
  mkDOMNode (nodeType r) (tagQName r) (m_host r) p (m_previous r) (m_next r) (m_firstChild r) (m_lastChild r).
Definition set_previousSibling (p : option positive) (r : DOMNode) : DOMNode :=
  mkDOMNode (nodeType r) (tagQName r) (m_host r) (m_parentNode r) p (m_next r) (m_firstChild r) (m_lastChild r).
Definition set_nextSibling (p : option positive) (r : DOMNode) : DOMNode :=
  mkDOMNode (nodeType r) (tagQName r) (m_host r) (m_parentNode r) (m_previous r) p (m_firstChild r) (m_lastChild r).
Definition set_firstChild (p : option positive) (r : DOMNode) : DOMNode :=
  mkDOMNode (nodeType r) (tagQName r) (m_host r) (m_parentNode r) (m_previous r) (m_next r) p (m_lastChild r).
Definition set_lastChild (p : option positive) (r : DOMNode) : DOMNode :=
  mkDOMNode (nodeType r) (tagQName r) (m_host r) (m_parentNode r) (m_previous r) (m_next r) (m_firstChild r) p.

Abbreviation Heap := (gmap positive DOMNode).

(** The points where script can run. *)
Inductive ScriptPoint :=
  | RemovalEvents (child : positive) | SubframesDisconnected (node : positive) | ChildrenChanged (parent : positive)
  | FinishedInserting (child : positive) | InsertionEvents (child : positive) | SubtreeModified (node : positive).

(** What runs at such a point, and the number of frames in a subtree: [connectedSubframeCount], which frames
    and not the tree keep up to date. *)
Class Script := { runScript : ScriptPoint → Heap → Heap; connectedSubframeCount : Heap → positive → nat }.

Inductive Exception := HierarchyRequestError | NotFoundError.
Inductive ChildChangeSource := SourceParser | SourceAPI.
Inductive AcceptChildOperation := Replace | InsertOrAdd.

#[global] Instance Exception_eq_dec : EqDecision Exception.
Proof. solve_decision. Defined.
#[global] Instance ChildChangeSource_eq_dec : EqDecision ChildChangeSource.
Proof. solve_decision. Defined.
#[global] Instance AcceptChildOperation_eq_dec : EqDecision AcceptChildOperation.
Proof. solve_decision. Defined.

Section Operations.
Context `{Build} `{Script}.

Abbreviation DM := (M Heap).

(** [ExceptionOr<void>]: [None] is no exception. *)
Abbreviation ExceptionOr := (option Exception).

(** [if (result.hasException()) return result.releaseException();] *)
Definition orThrow (m : DM ExceptionOr) (k : DM ExceptionOr) : DM ExceptionOr :=
  e ← m; match e with Some x => mret (Some x) | None => k end.

Definition getNode (n : positive) : DM DOMNode := λ h, match h !! n with Some r => Some (r, h) | None => None end.
Definition field {A} (f : DOMNode → A) (n : positive) : DM A := r ← getNode n; mret (f r).
Definition upd (g : DOMNode → DOMNode) (n : positive) : DM unit :=
  λ h, match h !! n with Some r => Some (tt, <[n := g r]> h) | None => None end.
Definition hook (p : ScriptPoint) : DM unit := modify (runScript p).

Definition disconnectSubframesIfNeeded (root : positive) : DM unit :=
  count ← gets (λ h, connectedSubframeCount h root);
  if bool_decide (count = 0%nat) then mret tt else hook (SubframesDisconnected root).

Definition isType (t : NodeType) (n : positive) : DM bool := ty ← field nodeType n; mret (bool_decide (ty = t)).
Definition isTemplate (n : positive) : DM bool := name ← field tagQName n; mret (bool_decide (name = Some (htmlName "template"))).

(** [is<ContainerNode>(node)] *)
Definition isContainerNode (n : positive) : DM bool :=
  ty ← field nodeType n; mret (bool_decide (ty ∈ [ELEMENT_NODE; DOCUMENT_NODE; DOCUMENT_FRAGMENT_NODE])).

(** ** The pointers *)

Definition insertBeforeCommon (this nextChild newChild : positive) : DM unit :=
  r ← getNode newChild;
  ASSERT (bool_decide (m_parentNode r = None));;
  ASSERT (bool_decide (m_next r = None));;
  ASSERT (bool_decide (m_previous r = None));;
  prev ← field m_previous nextChild;
  lastChild ← field m_lastChild this;
  ASSERT (bool_decide (lastChild ≠ prev));;
  upd (set_previousSibling (Some newChild)) nextChild;;
  (match prev with
   | Some prev =>
       firstChild ← field m_firstChild this;
       ASSERT (bool_decide (firstChild ≠ Some nextChild));;
       prevNext ← field m_next prev;
       ASSERT (bool_decide (prevNext = Some nextChild));;
       upd (set_nextSibling (Some newChild)) prev
   | None =>
       firstChild ← field m_firstChild this;
       ASSERT (bool_decide (firstChild = Some nextChild));;
       upd (set_firstChild (Some newChild)) this
   end);;
  upd (set_parentNode (Some this)) newChild;;
  upd (set_previousSibling prev) newChild;;
  upd (set_nextSibling (Some nextChild)) newChild.

Definition appendChildCommon (this child : positive) : DM unit :=
  upd (set_parentNode (Some this)) child;;
  lastChild ← field m_lastChild this;
  (match lastChild with
   | Some lastChild => upd (set_previousSibling (Some lastChild)) child;; upd (set_nextSibling (Some child)) lastChild
   | None => upd (set_firstChild (Some child)) this
   end);;
  upd (set_lastChild (Some child)) this.

Definition removeBetween (this : positive) (previousChild nextChild : option positive) (oldChild : positive) : DM unit :=
  parent ← field m_parentNode oldChild;
  ASSERT (bool_decide (parent = Some this));;
  (match nextChild with
   | Some nextChild => upd (set_previousSibling previousChild) nextChild;; upd (set_nextSibling None) oldChild
   | None =>
       lastChild ← field m_lastChild this;
       ASSERT (bool_decide (lastChild = Some oldChild));;
       upd (set_lastChild previousChild) this
   end);;
  (match previousChild with
   | Some previousChild => upd (set_nextSibling nextChild) previousChild;; upd (set_previousSibling None) oldChild
   | None =>
       firstChild ← field m_firstChild this;
       ASSERT (bool_decide (firstChild = Some oldChild));;
       upd (set_firstChild nextChild) this
   end);;
  r ← getNode this;
  ASSERT (bool_decide (m_firstChild r ≠ Some oldChild));;
  ASSERT (bool_decide (m_lastChild r ≠ Some oldChild));;
  o ← getNode oldChild;
  ASSERT (bool_decide (m_previous o = None));;
  ASSERT (bool_decide (m_next o = None));;
  upd (set_parentNode None) oldChild.

(** [for (child = node; child; child = child->nextSibling())] *)
Fixpoint siblingsLoop (fuel : nat) (child : option positive) : DM (list positive) :=
  match fuel with
  | O => fault
  | S fuel =>
      match child with
      | None => mret []
      | Some c => next ← field m_next c; rest ← siblingsLoop fuel next; mret (c :: rest)
      end
  end.
Definition siblingsFrom (child : option positive) : DM (list positive) := n ← gets size; siblingsLoop (S n) child.
Definition collectChildNodes (node : positive) : DM (list positive) := firstChild ← field m_firstChild node; siblingsFrom firstChild.

Definition countChildNodes (this : positive) : DM Z := children ← collectChildNodes this; mret (u32 (Z.of_nat (length children))).

Fixpoint traverseLoop (index : nat) (child : option positive) : DM (option positive) :=
  match index, child with
  | S index, Some c => next ← field m_next c; traverseLoop index next
  | _, _ => mret child
  end.
Definition traverseToChildAt (this : positive) (index : nat) : DM (option positive) := child ← field m_firstChild this; traverseLoop index child.

(** ** Removing and inserting with the calls that run script *)

Definition removeNodeWithScriptAssertion (this childToRemove : positive) (source : ChildChangeSource) : DM bool :=
  parent ← field m_parentNode childToRemove;
  ASSERT (bool_decide (parent = Some this));;
  (if bool_decide (source = SourceAPI) then hook (RemovalEvents childToRemove) else mret tt);;
  parent ← field m_parentNode childToRemove;
  if bool_decide (source = SourceAPI) && bool_decide (parent ≠ Some this) then mret false
  else
    (if bool_decide (source = SourceParser) then disconnectSubframesIfNeeded this
     else container ← isContainerNode childToRemove; if container : bool then disconnectSubframesIfNeeded childToRemove else mret tt);;
    r ← getNode childToRemove;
    if bool_decide (m_parentNode r ≠ Some this) then mret false
    else
      ASSERT (bool_decide (m_parentNode r = Some this));;
      ASSERT (bool_decide (nodeType r ≠ DOCUMENT_FRAGMENT_NODE));;
      removeBetween this (m_previous r) (m_next r) childToRemove;;
      hook (ChildrenChanged this);;
      mret true.

Fixpoint removalEventsLoop (children : list positive) : DM unit :=
  match children with [] => mret tt | child :: children => hook (RemovalEvents child);; removalEventsLoop children end.

(** [while (RefPtr<Node> child = m_firstChild) removeBetween(nullptr, child->nextSibling(), *child);] *)
Fixpoint removeAllLoop (fuel : nat) (this : positive) : DM unit :=
  match fuel with
  | O => fault
  | S fuel =>
      firstChild ← field m_firstChild this;
      match firstChild with
      | None => mret tt
      | Some child => next ← field m_next child; removeBetween this None next child;; removeAllLoop fuel this
      end
  end.

Definition removeAllChildrenWithScriptAssertion (this : positive) (source : ChildChangeSource) (deferChildrenChanged : bool) : DM (list positive) :=
  children ← collectChildNodes this;
  (if bool_decide (source = SourceAPI) then removalEventsLoop children else mret tt);;
  disconnectSubframesIfNeeded this;;
  n ← gets size;
  removeAllLoop (S n) this;;
  (if deferChildrenChanged then mret tt else hook (ChildrenChanged this));;
  mret children.

Definition executeNodeInsertionWithScriptAssertion (this child : positive) (source : ChildChangeSource) (doNodeInsertion : DM unit) : DM unit :=
  doNodeInsertion;;
  hook (ChildrenChanged this);;
  hook (FinishedInserting child);;
  if bool_decide (source = SourceAPI) then hook (InsertionEvents child) else mret tt.

(** ** Validity *)

(** The loop of [containsIncludingHostElements]. *)
Fixpoint containsLoop (fuel : nat) (possibleAncestor currentNode : positive) : DM bool :=
  match fuel with
  | O => fault
  | S fuel =>
      if bool_decide (currentNode = possibleAncestor) then mret true
      else
        r ← getNode currentNode;
        match (match m_parentNode r with Some parent => Some parent | None => m_host r end) with
        | Some parent => containsLoop fuel possibleAncestor parent
        | None => mret false
        end
  end.
Definition containsIncludingHostElements (possibleAncestor node : positive) : DM bool := n ← gets size; containsLoop (S n) possibleAncestor node.

(** The nodes of a type among some nodes. *)
Fixpoint typesOf (nodes : list positive) : DM (list NodeType) :=
  match nodes with [] => mret [] | n :: nodes => t ← field nodeType n; rest ← typesOf nodes; mret (t :: rest) end.

Definition contentTypes : list NodeType := [ELEMENT_NODE; TEXT_NODE; COMMENT_NODE; PROCESSING_INSTRUCTION_NODE; CDATA_SECTION_NODE].

(** The virtual function, for elements, fragments and shadow roots, documents, and the rest. *)
Definition childTypeAllowed (this : positive) (type : NodeType) : DM bool :=
  thisType ← field nodeType this;
  match thisType with
  | ELEMENT_NODE | DOCUMENT_FRAGMENT_NODE => mret (bool_decide (type ∈ contentTypes))
  | DOCUMENT_NODE =>
      match type with
      | ATTRIBUTE_NODE | CDATA_SECTION_NODE | DOCUMENT_FRAGMENT_NODE | DOCUMENT_NODE | TEXT_NODE => mret false
      | COMMENT_NODE | PROCESSING_INSTRUCTION_NODE => mret true
      | DOCUMENT_TYPE_NODE | ELEMENT_NODE => children ← collectChildNodes this; types ← typesOf children; mret (bool_decide (type ∉ types))
      end
  | _ => mret false
  end.

Fixpoint allAllowed (newParent : positive) (nodes : list positive) : DM bool :=
  match nodes with
  | [] => mret true
  | n :: nodes => t ← field nodeType n; b ← childTypeAllowed newParent t; if b : bool then allAllowed newParent nodes else mret false
  end.

Definition isChildTypeAllowed (newParent child : positive) : DM bool :=
  type ← field nodeType child;
  if bool_decide (type ≠ DOCUMENT_FRAGMENT_NODE) then childTypeAllowed newParent type
  else children ← collectChildNodes child; allAllowed newParent children.

(** [refChild->previousElementSibling()] is not null. *)
Fixpoint precededByElement (fuel : nat) (node : positive) : DM bool :=
  match fuel with
  | O => fault
  | S fuel =>
      prev ← field m_previous node;
      match prev with
      | None => mret false
      | Some p => t ← field nodeType p; if bool_decide (t = ELEMENT_NODE) then mret true else precededByElement fuel p
      end
  end.
Definition hasPreviousElementSibling (node : positive) : DM bool := n ← gets size; precededByElement (S n) node.

(** The first child of a type. *)
Fixpoint firstOfType (type : NodeType) (nodes : list positive) : DM (option positive) :=
  match nodes with [] => mret None | n :: nodes => t ← field nodeType n; if bool_decide (t = type) then mret (Some n) else firstOfType type nodes end.

(** [Document::canAcceptChild]; [fuel] is for a fragment inside a fragment, which there is not. *)
Fixpoint canAcceptLoop (fuel : nat) (this newChild : positive) (refChild : option positive) (operation : AcceptChildOperation) : DM bool :=
  match fuel with
  | O => fault
  | S fuel =>
      type ← field nodeType newChild;
      refType ← (match refChild with Some c => t ← field nodeType c; mret (Some t) | None => mret None end);
      if bool_decide (operation = Replace) && bool_decide (refType = Some type) then mret true
      else
        children ← collectChildNodes this;
        match type with
        | ATTRIBUTE_NODE | CDATA_SECTION_NODE | DOCUMENT_NODE | TEXT_NODE => mret false
        | COMMENT_NODE | PROCESSING_INSTRUCTION_NODE => mret true
        | DOCUMENT_FRAGMENT_NODE =>
            nodes ← collectChildNodes newChild;
            (fix each (seen : bool) (nodes : list positive) : DM bool :=
               match nodes with
               | [] => mret true
               | n :: nodes =>
                   t ← field nodeType n;
                   if bool_decide (t = ELEMENT_NODE) && seen then mret false
                   else b ← canAcceptLoop fuel this n refChild operation;
                        if b : bool then each (seen || bool_decide (t = ELEMENT_NODE)) nodes else mret false
               end) false nodes
        | DOCUMENT_TYPE_NODE =>
            existingDocType ← firstOfType DOCUMENT_TYPE_NODE children;
            existingElement ← firstOfType ELEMENT_NODE children;
            match operation, refChild with
            | Replace, Some c =>
                if bool_decide (existingDocType ≠ None) && bool_decide (existingDocType ≠ Some c) then mret false
                else b ← hasPreviousElementSibling c; mret (negb b)
            | Replace, None => fault
            | InsertOrAdd, Some c => if bool_decide (existingDocType ≠ None) then mret false else b ← hasPreviousElementSibling c; mret (negb b)
            | InsertOrAdd, None => mret (bool_decide (existingDocType = None) && bool_decide (existingElement = None))
            end
        | ELEMENT_NODE =>
            existingElementChild ← firstOfType ELEMENT_NODE children;
            match operation, refChild with
            | Replace, Some c =>
                if bool_decide (existingElementChild ≠ None) && bool_decide (existingElementChild ≠ Some c) then mret false
                else next ← field m_next c; rest ← siblingsFrom next; docType ← firstOfType DOCUMENT_TYPE_NODE rest; mret (bool_decide (docType = None))
            | Replace, None => fault
            | InsertOrAdd, _ =>
                if bool_decide (existingElementChild ≠ None) then mret false
                else rest ← siblingsFrom refChild; docType ← firstOfType DOCUMENT_TYPE_NODE rest; mret (bool_decide (docType = None))
            end
        end
  end.
Definition canAcceptChild : positive → positive → option positive → AcceptChildOperation → DM bool := canAcceptLoop 2.

(** [ASSERT(isChildTypeAllowed(newParent, newChild))], which a release build does not compute. *)
Definition ASSERT_allowed (newParent newChild : positive) : DM unit :=
  if ASSERT_DISABLED then mret tt else allowed ← isChildTypeAllowed newParent newChild; ASSERT allowed.

(** [refChild && refChild->parentNode() != &newParent] *)
Definition notAChild (refChild : option positive) (newParent : positive) : DM bool :=
  match refChild with Some c => p ← field m_parentNode c; mret (bool_decide (p ≠ Some newParent)) | None => mret false end.

Definition checkAcceptChild (newParent newChild : positive) (refChild : option positive) (operation : AcceptChildOperation) : DM ExceptionOr :=
  cycle ← containsIncludingHostElements newChild newParent;
  if cycle : bool then mret (Some HierarchyRequestError)
  else
    childType ← field nodeType newChild;
    parentType ← field nodeType newParent;
    stray ← (if bool_decide (operation = InsertOrAdd) then notAChild refChild newParent else mret false);
    if bool_decide (childType ∈ [ELEMENT_NODE; TEXT_NODE]) && bool_decide (parentType = ELEMENT_NODE) then
      ASSERT (bool_decide (parentType ≠ DOCUMENT_TYPE_NODE));;
      ASSERT_allowed newParent newChild;;
      if stray : bool then mret (Some NotFoundError) else mret None
    else if stray then mret (Some NotFoundError)
    else if bool_decide (parentType = DOCUMENT_NODE) then
      accepts ← canAcceptChild newParent newChild refChild operation;
      if accepts : bool then mret None else mret (Some HierarchyRequestError)
    else
      allowed ← isChildTypeAllowed newParent newChild;
      if allowed : bool then mret None else mret (Some HierarchyRequestError).

Definition checkAcceptChildGuaranteedNodeTypes (newParent newChild : positive) : DM ExceptionOr :=
  ASSERT_allowed newParent newChild;;
  cycle ← containsIncludingHostElements newChild newParent;
  if cycle : bool then mret (Some HierarchyRequestError) else mret None.

Definition ensurePreInsertionValidity (this newChild : positive) (refChild : option positive) : DM ExceptionOr := checkAcceptChild this newChild refChild InsertOrAdd.
Definition checkPreReplacementValidity (newParent newChild oldChild : positive) : DM ExceptionOr := checkAcceptChild newParent newChild (Some oldChild) Replace.

(** A check of every target. *)
Fixpoint checkAll (check : positive → DM ExceptionOr) (targets : list positive) : DM ExceptionOr :=
  match targets with [] => mret None | child :: targets => orThrow (check child) (checkAll check targets) end.

(** ** The operations of the DOM *)

Definition removeChild (this oldChild : positive) : DM ExceptionOr :=
  parent ← field m_parentNode oldChild;
  if bool_decide (parent ≠ Some this) then mret (Some NotFoundError)
  else
    removed ← removeNodeWithScriptAssertion this oldChild SourceAPI;
    if removed : bool then hook (SubtreeModified this);; mret None
    else mret (Some NotFoundError).

Definition removeChildren (this : positive) : DM unit :=
  firstChild ← field m_firstChild this;
  if bool_decide (firstChild = None) then mret tt
  else removeAllChildrenWithScriptAssertion this SourceAPI false;; hook (SubtreeModified this).

(** The nodes to insert, taken from where they were. *)
Definition collectChildrenAndRemoveFromOldParent (node : positive) : DM (list positive * ExceptionOr) :=
  r ← getNode node;
  if bool_decide (nodeType r ≠ DOCUMENT_FRAGMENT_NODE) then
    match m_parentNode r with
    | None => mret ([node], None)
    | Some oldParent => e ← removeChild oldParent node; mret ([node], e)
    end
  else nodes ← collectChildNodes node; removeChildren node;; mret (nodes, None).

(** The loops that insert: before a node or at the end. *)
Fixpoint insertLoop (this : positive) (next : option positive) (targets : list positive) : DM unit :=
  match targets with
  | [] => mret tt
  | child :: targets =>
      stray ← notAChild next this;
      if stray : bool then mret tt
      else
        parent ← field m_parentNode child;
        if bool_decide (parent ≠ None) then mret tt
        else
          executeNodeInsertionWithScriptAssertion this child SourceAPI
            (match next with Some next => insertBeforeCommon this next child | None => appendChildCommon this child end);;
          insertLoop this next targets
  end.

Definition appendChildWithoutPreInsertionValidityCheck (this newChild : positive) : DM ExceptionOr :=
  '(targets, e) ← collectChildrenAndRemoveFromOldParent newChild;
  if bool_decide (e ≠ None) then mret e
  else if bool_decide (targets = []) then mret None
  else
    orThrow (checkAll (checkAcceptChildGuaranteedNodeTypes this) targets)
      (insertLoop this None targets;; hook (SubtreeModified this);; mret None).

Definition appendChild (this newChild : positive) : DM ExceptionOr :=
  orThrow (ensurePreInsertionValidity this newChild None) (appendChildWithoutPreInsertionValidityCheck this newChild).

Definition insertBefore (this newChild : positive) (refChild : option positive) : DM ExceptionOr :=
  orThrow (ensurePreInsertionValidity this newChild refChild)
    (refChild ← (if bool_decide (refChild = Some newChild) then field m_next newChild else mret refChild);
     match refChild with
     | None => appendChildWithoutPreInsertionValidityCheck this newChild
     | Some next =>
         '(targets, e) ← collectChildrenAndRemoveFromOldParent newChild;
         if bool_decide (e ≠ None) then mret e
         else if bool_decide (targets = []) then mret None
         else
           orThrow (checkAll (checkAcceptChildGuaranteedNodeTypes this) targets)
             (insertLoop this (Some next) targets;; hook (SubtreeModified this);; mret None)
     end).

Definition replaceChild (this newChild oldChild : positive) : DM ExceptionOr :=
  orThrow (checkPreReplacementValidity this newChild oldChild)
    (r ← getNode oldChild;
     if bool_decide (m_parentNode r ≠ Some this) then mret (Some NotFoundError)
     else
       refChild ← (if bool_decide (m_next r = Some newChild) then field m_next newChild else mret (m_next r));
       '(targets, e) ← collectChildrenAndRemoveFromOldParent newChild;
       if bool_decide (e ≠ None) then mret e
       else
         orThrow (checkAll (λ child, checkPreReplacementValidity this child oldChild) targets)
           (parent ← field m_parentNode oldChild;
            orThrow
              (if bool_decide (parent ≠ None) then
                 orThrow (removeChild this oldChild) (checkAll (λ child, checkPreReplacementValidity this child oldChild) targets)
               else mret None)
              (insertLoop this refChild targets;; hook (SubtreeModified this);; mret None))).

Definition replaceAllChildren (this : positive) (node : positive) : DM unit :=
  r ← getNode node;
  ASSERT (bool_decide (nodeType r ≠ DOCUMENT_FRAGMENT_NODE));;
  ASSERT (bool_decide (m_parentNode r = None));;
  firstChild ← field m_firstChild this;
  if bool_decide (firstChild = None) then
    e ← appendChildWithoutPreInsertionValidityCheck this node;
    ASSERT (bool_decide (e = None))
  else
    removeAllChildrenWithScriptAssertion this SourceAPI true;;
    executeNodeInsertionWithScriptAssertion this node SourceAPI
      ((if ASSERT_DISABLED then mret tt else e ← ensurePreInsertionValidity this node None; ASSERT (bool_decide (e = None)));;
       appendChildCommon this node);;
    hook (SubtreeModified this).

(** ** The operations of the parser *)

Definition parserAppendChild (this newChild : positive) : DM unit :=
  r ← getNode newChild;
  ASSERT (bool_decide (m_parentNode r = None));;
  ASSERT (bool_decide (nodeType r ≠ DOCUMENT_FRAGMENT_NODE));;
  template ← isTemplate this;
  ASSERT (negb template);;
  executeNodeInsertionWithScriptAssertion this newChild SourceParser (appendChildCommon this newChild).

Definition parserInsertBefore (this newChild nextChild : positive) : DM unit :=
  next ← getNode nextChild;
  ASSERT (bool_decide (m_parentNode next = Some this));;
  fragment ← isType DOCUMENT_FRAGMENT_NODE newChild;
  ASSERT (negb fragment);;
  template ← isTemplate this;
  ASSERT (negb template);;
  if bool_decide (m_previous next = Some newChild) || bool_decide (nextChild = newChild) then mret tt
  else executeNodeInsertionWithScriptAssertion this newChild SourceParser (insertBeforeCommon this nextChild newChild).

Definition parserRemoveChild (this oldChild : positive) : DM unit := removeNodeWithScriptAssertion this oldChild SourceParser;; mret tt.

(** [RELEASE_ASSERT], checked in every build. *)
Definition RELEASE_ASSERT (e : bool) : DM unit := if e then mret tt else fault.

Fixpoint takeLoop (this : positive) (children : list positive) : DM unit :=
  match children with
  | [] => mret tt
  | child :: children =>
      parent ← field m_parentNode child;
      RELEASE_ASSERT (bool_decide (parent = None));;
      (if ASSERT_DISABLED then mret tt else e ← ensurePreInsertionValidity this child None; ASSERT (bool_decide (e = None)));;
      parserAppendChild this child;;
      takeLoop this children
  end.
Definition takeAllChildrenFrom (this oldParent : positive) : DM unit :=
  children ← removeAllChildrenWithScriptAssertion oldParent SourceParser false;
  takeLoop this children.

End Operations.
