(* ===== verification/ContainerNodeLists.v ===== *)
(** * The lists of children behind the pointers

    [reps h k] says that the pointers of the tree [h] of [ContainerNode] hold the lists
    of children [k]: the children of a node are linked in order and know their parent,
    and a node without a parent has no siblings. The three operations on the pointers
    fail no assertion and are an append, an insertion and a removal on the lists. *)

From Stdlib Require Import String.
From S2P Require Import Prelude HTMLStackItem ContainerNode.

#[local] Open Scope list_scope.

(** ** The lists behind the pointers *)

Definition parentOf (h : Heap) (n : positive) : option positive := h !! n ≫= m_parentNode.

(** The way up: the parent, or the host of a shadow root or of the content of a template. *)
Definition upOf (r : DOMNode) : option positive := match m_parentNode r with Some p => Some p | None => m_host r end.
Definition up (h : Heap) (n : positive) : option positive := h !! n ≫= upOf.

Abbreviation Kids := (positive → list positive).
Definition kset (k : Kids) (p : positive) (l : list positive) : Kids := λ n, if decide (n = p) then l else k n.

(** The pointers of one node. *)
Record record_ok (k : Kids) (n : positive) (r : DOMNode) : Prop := mkRecordOk {
  ok_first : m_firstChild r = head (k n);
  ok_last : m_lastChild r = last (k n);
  ok_place : match m_parentNode r with
             | None => m_previous r = None ∧ m_next r = None
             | Some p => ∃ a b, k p = a ++ n :: b ∧ m_previous r = last a ∧ m_next r = head b
             end;
}.

Record reps (h : Heap) (k : Kids) : Prop := mkReps {
  reps_ok : ∀ n r, h !! n = Some r → record_ok k n r;
  reps_parent : ∀ n c, c ∈ k n ↔ parentOf h c = Some n;
  reps_NoDup : ∀ n, NoDup (k n);
}.

Lemma kset_eq k p l : kset k p l p = l.
Proof. unfold kset. by rewrite decide_True. Qed.
Lemma kset_ne k p l n : n ≠ p → kset k p l n = k n.
Proof. intros. unfold kset. by rewrite decide_False. Qed.

(** Where a child is in the list of its parent. *)
Lemma NoDup_split_unique {A} (a b a' b' : list A) x : NoDup (a ++ x :: b) → a ++ x :: b = a' ++ x :: b' → a = a' ∧ b = b'.
Proof.
  revert a'. induction a as [|y a IH]; intros [|z a'] Hnd E; cbn in *; simplify_eq.
  - done.
  - apply NoDup_cons in Hnd as [Hx _]. destruct Hx. apply elem_of_app. right. apply list_elem_of_here.
  - apply NoDup_cons in Hnd as [Hx _]. destruct Hx. apply elem_of_app. right. apply list_elem_of_here.
  - apply NoDup_cons in Hnd as [_ Hnd]. destruct (IH a' Hnd) as [-> ->]; done.
Qed.

Lemma reps_child h k p a c b : reps h k → k p = a ++ c :: b → ∃ r, h !! c = Some r ∧ m_parentNode r = Some p ∧ m_previous r = last a ∧ m_next r = head b.
Proof.
  intros Hr E. assert (Hin : c ∈ k p) by (rewrite E; apply elem_of_app; right; apply list_elem_of_here).
  apply (reps_parent _ _ Hr) in Hin as Hp. unfold parentOf in Hp. destruct (h !! c) as [r|] eqn:Ec; [|done]. cbn in Hp. exists r.
  pose proof (ok_place _ _ _ (reps_ok _ _ Hr c r Ec)) as Hplace. rewrite Hp in Hplace. destruct Hplace as (a' & b' & E' & H1 & H2).
  pose proof (reps_NoDup _ _ Hr p) as Hnd. rewrite E in Hnd. destruct (NoDup_split_unique a b a' b' c Hnd) as [-> ->]; [congruence|done].
Qed.

Lemma reps_orphan h k c r : reps h k → h !! c = Some r → m_parentNode r = None → m_previous r = None ∧ m_next r = None ∧ ∀ p, c ∉ k p.
Proof.
  intros Hr Ec Hp. pose proof (ok_place _ _ _ (reps_ok _ _ Hr c r Ec)) as Hplace. rewrite Hp in Hplace. destruct Hplace as [? ?]. split_and!; [done..|].
  intros p Hin. apply (reps_parent _ _ Hr) in Hin. unfold parentOf in Hin. rewrite Ec in Hin. cbn in Hin. congruence.
Qed.

(** The part of a node that no operation changes. *)
Definition static (r : DOMNode) : NodeType * option QualifiedName * option positive := (nodeType r, tagQName r, m_host r).
Definition grows (h h' : Heap) : Prop := ∀ n r, h !! n = Some r → ∃ r', h' !! n = Some r' ∧ static r' = static r.

#[global] Instance grows_po : PreOrder grows.
Proof.
  split; [by intros h n r Hr; exists r|]. intros h1 h2 h3 H12 H23 n r Hr. destruct (H12 n r Hr) as (r2 & E2 & S2). destruct (H23 n r2 E2) as (r3 & E3 & S3).
  exists r3. split; [done|congruence].
Qed.

(** A heap is changed only in what [static] leaves out, and has the same nodes. *)
Definition sameNodes (h h' : Heap) : Prop := ∀ n, static <$> h' !! n = static <$> h !! n.

Lemma sameNodes_grows h h' : sameNodes h h' → grows h h'.
Proof.
  intros Hs n r Hr. specialize (Hs n). rewrite Hr in Hs. destruct (h' !! n) as [r'|]; [|done]. exists r'. split; [done|]. by apply (inj Some) in Hs.
Qed.

Lemma sameNodes_refl h : sameNodes h h.
Proof. done. Qed.
Lemma sameNodes_trans h1 h2 h3 : sameNodes h1 h2 → sameNodes h2 h3 → sameNodes h1 h3.
Proof. intros H12 H23 n. by rewrite H23. Qed.

Lemma sameNodes_insert h h' n r r' : sameNodes h h' → h' !! n = Some r → static r' = static r → sameNodes h (<[n := r']> h').
Proof.
  intros Hs Hr E m. destruct (decide (m = n)) as [-> |Hne].
  - rewrite lookup_insert_eq, <-Hs, Hr. cbn. by rewrite E.
  - by rewrite lookup_insert_ne.
Qed.

(** ** Changing the children of one node *)

(** What becomes of the record of a node when the children of [p] become [l]. *)
Definition relinked (k : Kids) (p : positive) (l : list positive) (n : positive) (r r' : DOMNode) : Prop :=
  static r' = static r ∧
  (if decide (n = p) then m_firstChild r' = head l ∧ m_lastChild r' = last l
   else m_firstChild r' = m_firstChild r ∧ m_lastChild r' = m_lastChild r) ∧
  (if decide (n ∈ l) then ∃ a b, l = a ++ n :: b ∧ m_parentNode r' = Some p ∧ m_previous r' = last a ∧ m_next r' = head b
   else if decide (n ∈ k p) then m_parentNode r' = None ∧ m_previous r' = None ∧ m_next r' = None
   else m_parentNode r' = m_parentNode r ∧ m_previous r' = m_previous r ∧ m_next r' = m_next r).

Lemma reps_relink h h' k p l :
  reps h k → NoDup l → (∀ x, x ∈ l → x ∈ k p ∨ parentOf h x = None) → (∀ x, x ∈ l → is_Some (h !! x)) → p ∉ l → p ∉ k p →
  (∀ n, match h !! n, h' !! n with Some r, Some r' => relinked k p l n r r' | None, None => True | _, _ => False end) →
  reps h' (kset k p l) ∧ sameNodes h h'.
Proof.
  intros Hr Hnd Hold Hex Hpl Hpk Hall.
  assert (Hpar : ∀ n, parentOf h' n = if decide (n ∈ l) then Some p else if decide (n ∈ k p) then None else parentOf h n).
  { intros n. specialize (Hall n). unfold parentOf. destruct (h !! n) as [r|] eqn:E, (h' !! n) as [r'|] eqn:E'; try done; cbn.
    - destruct Hall as (_ & _ & Hplace). destruct (decide (n ∈ l)); [by destruct Hplace as (? & ? & _ & ? & _)|]. destruct (decide (n ∈ k p)); by destruct Hplace as [? _].
    - destruct (decide (n ∈ l)) as [Hl|]; [by destruct (Hex n Hl) as [? ?]; simplify_eq|]. by destruct (decide (n ∈ k p)). }
  split.
  - constructor.
    + intros n r' E'. specialize (Hall n). rewrite E' in Hall. destruct (h !! n) as [r|] eqn:E; [|done]. destruct Hall as (_ & Hfl & Hplace).
      pose proof (reps_ok _ _ Hr n r E) as [Hf Hla Hpl0]. constructor.
      * unfold kset. destruct (decide (n = p)); [by destruct Hfl|]. destruct Hfl as [-> _]. done.
      * unfold kset. destruct (decide (n = p)); [by destruct Hfl|]. destruct Hfl as [_ ->]. done.
      * destruct (decide (n ∈ l)) as [Hl|Hl].
        -- destruct Hplace as (a & b & -> & -> & ? & ?). exists a, b. by rewrite kset_eq.
        -- destruct (decide (n ∈ k p)) as [Hk|Hk]; [by destruct Hplace as (-> & ? & ?)|]. destruct Hplace as (-> & -> & ->).
           destruct (m_parentNode r) as [q|] eqn:Eq; [|done]. destruct Hpl0 as (a & b & Ek & ? & ?). exists a, b. rewrite kset_ne; [done|].
           intros ->. apply Hk. rewrite Ek. apply elem_of_app. right. apply list_elem_of_here.
    + intros n c. rewrite Hpar. unfold kset. destruct (decide (n = p)) as [-> |Hn].
      * destruct (decide (c ∈ l)); [done|]. destruct (decide (c ∈ k p)) as [|Hk]; [done|]. rewrite (reps_parent _ _ Hr) in Hk. naive_solver.
      * rewrite (reps_parent _ _ Hr n c). destruct (decide (c ∈ l)) as [Hl|Hl].
        -- split; [|naive_solver]. intros Hc. destruct (Hold c Hl) as [Hk|Hk]; [rewrite (reps_parent _ _ Hr) in Hk|]; congruence.
        -- destruct (decide (c ∈ k p)) as [Hk|Hk]; [|done]. rewrite (reps_parent _ _ Hr) in Hk. split; [congruence|done].
    + intros n. unfold kset. destruct (decide (n = p)); [done|]. apply (reps_NoDup _ _ Hr).
  - intros n. specialize (Hall n). destruct (h !! n), (h' !! n); try done. cbn. by destruct Hall as [-> _].
Qed.

(** A node that stays what it was. *)
Lemma relinked_same k p l n r : n ≠ p → n ∉ l → n ∉ k p → relinked k p l n r r.
Proof. intros. unfold relinked. by rewrite !decide_False. Qed.

Lemma parentOf_Some h k n c : reps h k → parentOf h c = Some n → c ∈ k n ∧ is_Some (h !! c).
Proof. intros Hr Hp. split; [by apply (reps_parent _ _ Hr)|]. unfold parentOf in Hp. destruct (h !! c); [by eexists|done]. Qed.

(** A node without a parent becomes a child. *)
Lemma reps_link h h' k p c rc l :
  reps h k → h !! c = Some rc → m_parentNode rc = None → p ≠ c → p ∉ k p → l ≡ₚ c :: k p →
  (∀ n, match h !! n, h' !! n with Some r, Some r' => relinked k p l n r r' | None, None => True | _, _ => False end) →
  reps h' (kset k p l) ∧ sameNodes h h'.
Proof.
  intros Hr Hc Hpar Hne Hpk Hl. destruct (reps_orphan h k c rc Hr Hc Hpar) as (_ & _ & Hnk). apply reps_relink; [done|..|done].
  - rewrite Hl. apply NoDup_cons. split; [done|]. apply (reps_NoDup _ _ Hr).
  - intros x Hx. rewrite Hl in Hx. apply elem_of_cons in Hx as [-> |Hx]; [right|by left]. unfold parentOf. by rewrite Hc.
  - intros x Hx. rewrite Hl in Hx. apply elem_of_cons in Hx as [-> |Hx]; [by eexists|]. apply (reps_parent _ _ Hr) in Hx. by eapply parentOf_Some.
  - rewrite Hl. by apply not_elem_of_cons.
Qed.

(** A child in its new place, and the parent. *)
Lemma relinked_child k p l n r r' a b :
  n ≠ p → l = a ++ n :: b → static r' = static r → m_firstChild r' = m_firstChild r → m_lastChild r' = m_lastChild r →
  m_parentNode r' = Some p → m_previous r' = last a → m_next r' = head b → relinked k p l n r r'.
Proof.
  intros Hn E ? ? ? ? ? ?. unfold relinked. rewrite (decide_False (P := n = p)) by done. rewrite decide_True by (rewrite E; apply elem_of_app; right; apply list_elem_of_here).
  split_and!; [done..|]. by exists a, b.
Qed.

Lemma relinked_parent k p l r r' :
  p ∉ l → p ∉ k p → static r' = static r → m_firstChild r' = head l → m_lastChild r' = last l →
  m_parentNode r' = m_parentNode r → m_previous r' = m_previous r → m_next r' = m_next r → relinked k p l p r r'.
Proof. intros. unfold relinked. rewrite decide_True by done. by rewrite !decide_False. Qed.

(** Putting a node between two neighbours leaves the others theirs. *)
Lemma insert_neighbours {A} (a b : list A) x c n a1 b1 :
  a ++ x :: b = a1 ++ n :: b1 → n ≠ x → last a ≠ Some n → ∃ a' b', a ++ c :: x :: b = a' ++ n :: b' ∧ last a' = last a1 ∧ head b' = head b1.
Proof.
  revert a1. induction a as [|z a IH]; intros a1 E Hx Hl.
  - destruct a1 as [|y a1]; injection E as -> E; [done|]. subst b. exists (c :: y :: a1), b1. split_and!; [done| |done]. by rewrite last_cons_cons.
  - destruct a1 as [|y a1]; cbn in E; injection E as -> E.
    + exists [], (a ++ c :: x :: b). split_and!; [done..|]. subst b1. by destruct a.
    + destruct (IH a1 E Hx) as (a' & b' & E' & Ea & Eb).
      { intros Hn. apply Hl. by rewrite last_cons, Hn. }
      exists (y :: a'), b'. split_and!; [cbn; by f_equal| |done]. by rewrite !last_cons, Ea.
Qed.

(** Taking a node out leaves all but its neighbours theirs. *)
Lemma delete_neighbours {A} (a b : list A) c n a1 b1 :
  a ++ c :: b = a1 ++ n :: b1 → n ≠ c → last a ≠ Some n → head b ≠ Some n → ∃ a' b', a ++ b = a' ++ n :: b' ∧ last a' = last a1 ∧ head b' = head b1.
Proof.
  revert a1. induction a as [|z a IH]; intros a1 E Hc Hl Hh.
  - destruct a1 as [|y a1]; injection E as -> E; [done|]. subst b. destruct a1 as [|y' a1]; [done|]. by exists (y' :: a1), b1.
  - destruct a1 as [|y a1]; cbn in E; injection E as -> E.
    + exists [], (a ++ b). split_and!; [done..|]. subst b1. by destruct a.
    + destruct (IH a1 E Hc) as (a' & b' & E' & Ea & Eb); [intros Hn; apply Hl; by rewrite last_cons, Hn|done|].
      exists (y :: a'), b'. split_and!; [cbn; by f_equal| |done]. by rewrite !last_cons, Ea.
Qed.

(** A node that an insertion did not touch. *)
Lemma relinked_untouched h k p l n r :
  reps h k → h !! n = Some r → n ≠ p → (n ∈ l → n ∈ k p) →
  (∀ a b, k p = a ++ n :: b → ∃ a' b', l = a' ++ n :: b' ∧ last a' = last a ∧ head b' = head b) → relinked k p l n r r.
Proof.
  intros Hr Hn Hnp Hin Hsplit. destruct (decide (n ∈ k p)) as [Hk|Hk]; [|apply relinked_same; auto].
  apply list_elem_of_split in Hk as (a & b & Ek). destruct (reps_child h k p a n b Hr Ek) as (r0 & Hn0 & ? & ? & ?). simplify_eq.
  destruct (Hsplit a b Ek) as (a' & b' & El & Ea & Eb). apply (relinked_child k p l n r r a' b'); congruence || done.
Qed.

(** A child loses its parent. *)
Lemma reps_unlink h h' k p a c b :
  reps h k → k p = a ++ c :: b → p ∉ k p →
  (∀ n, match h !! n, h' !! n with Some r, Some r' => relinked k p (a ++ b) n r r' | None, None => True | _, _ => False end) →
  reps h' (kset k p (a ++ b)) ∧ sameNodes h h'.
Proof.
  intros Hr Ek Hpk. assert (Hsub : ∀ x, x ∈ a ++ b → x ∈ k p) by (intros x; rewrite Ek, !elem_of_app, elem_of_cons; tauto). apply reps_relink; [done|..|done].
  - pose proof (reps_NoDup _ _ Hr p) as Hnd. rewrite Ek, <-Permutation_middle in Hnd. by apply NoDup_cons in Hnd as [_ ?].
  - intros x Hx. left. auto.
  - intros x Hx. apply Hsub, (reps_parent _ _ Hr) in Hx. by eapply parentOf_Some.
  - auto.
Qed.

Lemma relinked_removed k p l n r r' :
  n ≠ p → n ∉ l → n ∈ k p → static r' = static r → m_firstChild r' = m_firstChild r → m_lastChild r' = m_lastChild r →
  m_parentNode r' = None → m_previous r' = None → m_next r' = None → relinked k p l n r r'.
Proof. intros. unfold relinked. rewrite !decide_False by done. by rewrite decide_True. Qed.

Section Rules.
Context `{Build} `{Script}.

Lemma wp_getNode n r (Q : DOMNode → Heap → Prop) (h : Heap) : h !! n = Some r → Q r h → wp (getNode n) Q h.
Proof. intros E HQ. unfold wp, getNode. by rewrite E. Qed.
Lemma wp_field {A} (f : DOMNode → A) n r (Q : A → Heap → Prop) (h : Heap) : h !! n = Some r → Q (f r) h → wp (field f n) Q h.
Proof. intros E HQ. unfold field. eapply wp_bind, wp_getNode; [done|]. by apply wp_ret. Qed.
Lemma wp_upd g n r (Q : unit → Heap → Prop) (h : Heap) : h !! n = Some r → Q tt (<[n := g r]> h) → wp (upd g n) Q h.
Proof. intros E HQ. unfold wp, upd. by rewrite E. Qed.
Lemma wp_assert e (Q : unit → Heap → Prop) h : e = true → Q tt h → wp (ASSERT e) Q h.
Proof. apply wp_ASSERT. Qed.

(** Appending links a node without a parent behind the last child. *)
Lemma wp_appendChildCommon p c rp rc k (Q : unit → Heap → Prop) h :
  reps h k → h !! p = Some rp → h !! c = Some rc → m_parentNode rc = None → p ≠ c → p ∉ k p →
  (∀ h', reps h' (kset k p (k p ++ [c])) → sameNodes h h' → Q tt h') →
  wp (appendChildCommon p c) Q h.
Proof.
  intros Hr Hp Hc Hpar Hne Hnp HQ. destruct (reps_orphan h k c rc Hr Hc Hpar) as (Hprev & Hnext & Hnk). unfold appendChildCommon.
  pose proof (reps_ok _ _ Hr p rp Hp) as Hokp. pose proof (ok_last _ _ _ Hokp) as Hlast.
  eapply wp_bind, wp_upd; [done|]. eapply wp_bind, wp_field; [by rewrite lookup_insert_ne|].
  destruct (m_lastChild rp) as [l|] eqn:El.
  - symmetry in Hlast. apply last_Some in Hlast as [a Ek]. destruct (reps_child h k p a l [] Hr Ek) as (rl & Hl & Hlp & Hlprev & Hlnext).
    assert (l ≠ c) by (intros ->; apply (Hnk p); rewrite Ek; apply elem_of_app; right; apply list_elem_of_here).
    assert (l ≠ p) by (intros ->; apply Hnp; rewrite Ek; apply elem_of_app; right; apply list_elem_of_here).
    eapply wp_bind, wp_bind, wp_upd; [by rewrite lookup_insert_eq|]. eapply wp_upd; [by simplify_map_eq|]. eapply wp_upd; [by simplify_map_eq|].
    refine (let Hl := reps_link h _ k p c rc (k p ++ [c]) Hr Hc Hpar Hne Hnp _ _ in HQ _ (proj1 Hl) (proj2 Hl)); [by rewrite Permutation_app_comm|].
    intros n. destruct (decide (n = p)) as [-> |Hnp']; [|destruct (decide (n = l)) as [-> |Hnl]; [|destruct (decide (n = c)) as [-> |Hnc]]].
    + rewrite Hp, lookup_insert_eq. apply relinked_parent; try done.
      * rewrite elem_of_app, list_elem_of_singleton. tauto.
      * cbn. rewrite (ok_first _ _ _ Hokp), Ek. by destruct a.
      * cbn. by rewrite last_snoc.
    + rewrite Hl, lookup_insert_ne, lookup_insert_eq by done. apply (relinked_child _ _ _ _ _ _ a [c]); try done. by rewrite Ek, <-app_assoc.
    + rewrite Hc, !lookup_insert_ne, lookup_insert_eq by done. apply (relinked_child _ _ _ _ _ _ (a ++ [l]) []); cbn; rewrite ?Ek, ?last_snoc; done || congruence.
    + rewrite !lookup_insert_ne by done. destruct (h !! n) as [r|] eqn:En; [|done]. eapply relinked_untouched; [done..| |].
      * rewrite elem_of_app, list_elem_of_singleton. tauto.
      * intros a' b' Ek'. exists a', (b' ++ [c]). rewrite Ek', <-app_assoc. split_and!; [done..|]. destruct b'; [|done].
        rewrite Ek in Ek'. apply app_inj_tail in Ek' as [_ ?]. done.
  - symmetry in Hlast. apply last_None in Hlast. eapply wp_bind, wp_upd; [by simplify_map_eq|]. eapply wp_upd; [by rewrite lookup_insert_eq|].
    refine (let Hl := reps_link h _ k p c rc (k p ++ [c]) Hr Hc Hpar Hne Hnp _ _ in HQ _ (proj1 Hl) (proj2 Hl)); [by rewrite Permutation_app_comm|].
    rewrite Hlast. cbn [app]. intros n. destruct (decide (n = p)) as [-> |Hnp']; [|destruct (decide (n = c)) as [-> |Hnc]].
    + rewrite Hp, lookup_insert_eq. apply relinked_parent; try done. by rewrite list_elem_of_singleton.
    + rewrite Hc, !lookup_insert_ne, lookup_insert_eq by done. by apply (relinked_child _ _ _ _ _ _ [] []).
    + rewrite !lookup_insert_ne by done. destruct (h !! n) as [r|] eqn:En; [|done]. eapply relinked_untouched; [done..| |].
      * by rewrite list_elem_of_singleton.
      * intros a b Ek. rewrite Hlast in Ek. by destruct a.
Qed.

(** Inserting links it before a child. *)
Lemma wp_insertBeforeCommon p x c rp rc k a b (Q : unit → Heap → Prop) h :
  reps h k → h !! p = Some rp → h !! c = Some rc → m_parentNode rc = None → p ≠ c → p ∉ k p → k p = a ++ x :: b →
  (∀ h', reps h' (kset k p (a ++ c :: x :: b)) → sameNodes h h' → Q tt h') → wp (insertBeforeCommon p x c) Q h.
Proof.
  intros Hr Hp Hc Hpar Hne Hnp Ek HQ. destruct (reps_orphan h k c rc Hr Hc Hpar) as (Hprev & Hnext & Hnk). unfold insertBeforeCommon.
  destruct (reps_child h k p a x b Hr Ek) as (rx & Hx & Hxp & Hxprev & Hxnext). pose proof (reps_ok _ _ Hr p rp Hp) as Hokp.
  pose proof (reps_NoDup _ _ Hr p) as Hnd. rewrite Ek in Hnd, Hnp.
  assert (x ≠ c) by (intros ->; apply (Hnk p); rewrite Ek; apply elem_of_app; right; apply list_elem_of_here).
  assert (x ≠ p) by (intros ->; apply Hnp; apply elem_of_app; right; apply list_elem_of_here).
  assert (Hper : a ++ c :: x :: b ≡ₚ c :: k p) by (rewrite Ek; by rewrite <-Permutation_middle).
  assert (Hlast : m_lastChild rp ≠ m_previous rx).
  { rewrite (ok_last _ _ _ Hokp), Hxprev, Ek, last_app_cons. intros E. destruct (last (x :: b)) as [y|] eqn:Ey; [|by apply last_None in Ey].
    symmetry in E. apply last_Some_elem_of in E. apply last_Some_elem_of in Ey. apply NoDup_app in Hnd as (_ & Hd & _). by apply (Hd y). }
  eapply wp_bind, wp_getNode; [done|]. do 3 (apply wp_bind, wp_ASSERT; [by apply bool_decide_eq_true|]).
  eapply wp_bind, wp_field; [done|]. eapply wp_bind, wp_field; [done|]. apply wp_bind, wp_ASSERT; [by apply bool_decide_eq_true|].
  eapply wp_bind, wp_upd; [done|].
  rewrite Hxprev. destruct (last a) as [y|] eqn:Ea.
  - apply last_Some in Ea as [a' ->]. rewrite <-app_assoc in Ek, Hnp, Hnd, Hper, HQ. cbn [app] in Ek, Hnp, Hnd, Hper, HQ. destruct (reps_child h k p a' y (x :: b) Hr Ek) as (ry & Hy & Hyp & Hyprev & Hynext).
    assert (y ≠ c) by (intros ->; apply (Hnk p); rewrite Ek; apply elem_of_app; right; apply list_elem_of_here).
    assert (y ≠ p) by (intros ->; apply Hnp; apply elem_of_app; right; apply list_elem_of_here).
    assert (y ≠ x) by (intros ->; apply NoDup_app in Hnd as (_ & _ & Hnd); apply NoDup_cons in Hnd as [Hnd _]; apply Hnd, list_elem_of_here).
    eapply wp_bind, wp_bind, wp_field; [by simplify_map_eq|]. apply wp_bind, wp_ASSERT.
    { apply bool_decide_eq_true. rewrite (ok_first _ _ _ Hokp), Ek. destruct a' as [|z a']; cbn; [congruence|]. intros [= ->].
      cbn in Hnd. apply NoDup_cons in Hnd as [Hnd _]. apply Hnd, elem_of_app. right. apply elem_of_cons. right. apply list_elem_of_here. }
    eapply wp_bind, wp_field; [by simplify_map_eq|]. apply wp_bind, wp_ASSERT; [by apply bool_decide_eq_true|].
    eapply wp_upd; [by simplify_map_eq|]. do 2 (eapply wp_bind, wp_upd; [by simplify_map_eq|]). eapply wp_upd; [by simplify_map_eq|].
    refine (let Hl := reps_link h _ k p c rc (a' ++ y :: c :: x :: b) Hr Hc Hpar Hne _ Hper _ in HQ _ (proj1 Hl) (proj2 Hl)); [by rewrite Ek|].
    intros n. destruct (decide (n = p)) as [-> |Hnp']; [|destruct (decide (n = x)) as [-> |Hnx]; [|destruct (decide (n = c)) as [-> |Hnc]; [|destruct (decide (n = y)) as [-> |Hny]]]].
    + rewrite !lookup_insert_ne, Hp by done. apply relinked_parent; try done; [rewrite Hper, elem_of_cons, Ek; tauto|by rewrite Ek| |].
      * rewrite (ok_first _ _ _ Hokp), Ek. by destruct a'.
      * rewrite (ok_last _ _ _ Hokp), Ek. by rewrite !last_app_cons, !last_cons_cons.
    + rewrite !lookup_insert_ne, lookup_insert_eq, Hx by done. apply (relinked_child _ _ _ _ _ _ (a' ++ [y; c]) b); try done; [by rewrite <-app_assoc|]. cbn. by rewrite last_app_cons.
    + rewrite lookup_insert_eq, Hc. apply (relinked_child _ _ _ _ _ _ (a' ++ [y]) (x :: b)); try done; [by rewrite <-app_assoc|]. cbn. by rewrite last_snoc.
    + rewrite !(lookup_insert_ne _ c), lookup_insert_eq, Hy by done. by apply (relinked_child _ _ _ _ _ _ a' (c :: x :: b)).
    + rewrite !lookup_insert_ne by done. destruct (h !! n) as [r|] eqn:En; [|done]. eapply relinked_untouched; [done..| |].
      * rewrite Hper, elem_of_cons. tauto.
      * intros a1 b1 Ek'. destruct (insert_neighbours (a' ++ [y]) b x c n a1 b1) as (a2 & b2 & E2 & ?); [by rewrite <-app_assoc, <-Ek', Ek|done|rewrite last_snoc; congruence|].
        exists a2, b2. split; [|done]. by rewrite <-app_assoc in E2.
  - apply last_None in Ea as ->. cbn [app] in *. eapply wp_bind, wp_bind, wp_field; [by simplify_map_eq|]. apply wp_bind, wp_ASSERT.
    { apply bool_decide_eq_true. by rewrite (ok_first _ _ _ Hokp), Ek. }
    eapply wp_upd; [by simplify_map_eq|]. do 2 (eapply wp_bind, wp_upd; [by simplify_map_eq|]). eapply wp_upd; [by simplify_map_eq|].
    refine (let Hl := reps_link h _ k p c rc (c :: x :: b) Hr Hc Hpar Hne _ Hper _ in HQ _ (proj1 Hl) (proj2 Hl)); [by rewrite Ek|].
    intros n. destruct (decide (n = p)) as [-> |Hnp']; [|destruct (decide (n = x)) as [-> |Hnx]; [|destruct (decide (n = c)) as [-> |Hnc]]].
    + rewrite !(lookup_insert_ne _ c), lookup_insert_eq, Hp by done. apply relinked_parent; try done; [rewrite elem_of_cons; tauto|by rewrite Ek|].
      cbn. rewrite (ok_last _ _ _ Hokp), Ek. done.
    + rewrite !lookup_insert_ne, lookup_insert_eq, Hx by done. by apply (relinked_child _ _ _ _ _ _ [c] b).
    + rewrite lookup_insert_eq, Hc. by apply (relinked_child _ _ _ _ _ _ [] (x :: b)).
    + rewrite !lookup_insert_ne by done. destruct (h !! n) as [r|] eqn:En; [|done]. eapply relinked_untouched; [done..| |].
      * rewrite elem_of_cons, Ek. tauto.
      * intros a1 b1 Ek'. apply (insert_neighbours [] b x c n a1 b1); [by rewrite <-Ek', Ek|done..].
Qed.

(** Removing takes a child out of the list. *)
Section RemoveBetween.
Context (h : Heap) (k : Kids) (p c : positive) (rp rc : DOMNode) (a b : list positive).
Context (Hr : reps h k) (Hp : h !! p = Some rp) (Hnp : p ∉ k p) (Ek : k p = a ++ c :: b).
Context (Hc : h !! c = Some rc) (Hcp : m_parentNode rc = Some p) (Hcprev : m_previous rc = last a) (Hcnext : m_next rc = head b).

(** The heap [h'] has all pointers changed that must change. *)
Definition unlinked (h' : Heap) : Prop :=
  ∀ n, match h !! n, h' !! n with Some r, Some r' => relinked k p (a ++ b) n r r' | None, None => True | _, _ => False end.

Lemma between_facts : p ≠ c ∧ (p ∉ a ++ b) ∧ ¬ (c ∈ a ∨ c ∈ b) ∧ NoDup (a ++ b) ∧ c ∈ k p ∧ m_firstChild rp = head (a ++ c :: b) ∧ m_lastChild rp = last (c :: b).
Proof.
  pose proof (reps_ok _ _ Hr p rp Hp) as Hokp. pose proof (reps_NoDup _ _ Hr p) as Hnd. rewrite Ek, <-Permutation_middle in Hnd. apply NoDup_cons in Hnd as [Hcab Hndab].
  rewrite elem_of_app in Hcab. pose proof Hnp as Hnp'. rewrite Ek, elem_of_app, elem_of_cons in Hnp'. pose proof (ok_first _ _ _ Hokp) as Hf.
  pose proof (ok_last _ _ _ Hokp) as Hl. rewrite Ek in Hf, Hl. rewrite last_app_cons in Hl. rewrite Ek, !elem_of_app, elem_of_cons. split_and!; tauto || done.
Qed.

Lemma between_previous y :
  last a = Some y → y ≠ c ∧ y ≠ p ∧ (head b ≠ Some y) ∧ ∃ a' ry, a = a' ++ [y] ∧ h !! y = Some ry ∧ m_parentNode ry = Some p ∧ m_previous ry = last a'.
Proof.
  destruct between_facts as (_ & Hpab & Hcab & Hndab & _). intros Ey. pose proof (last_Some_elem_of a y Ey) as Hin. split_and!; [set_solver|set_solver| |].
  - intros Eb. apply NoDup_app in Hndab as (_ & Hd & _). apply (Hd y Hin). by apply head_Some_elem_of.
  - apply last_Some in Ey as [a' Ea]. pose proof Ek as Ek'. rewrite Ea, <-app_assoc in Ek'. destruct (reps_child h k p a' y (c :: b) Hr Ek') as (ry & ? & ? & ? & _). by exists a', ry.
Qed.

Lemma between_next x :
  head b = Some x → x ≠ c ∧ x ≠ p ∧ (last a ≠ Some x) ∧ ∃ b' rx, b = x :: b' ∧ h !! x = Some rx ∧ m_parentNode rx = Some p ∧ m_next rx = head b'.
Proof.
  destruct between_facts as (_ & Hpab & Hcab & Hndab & _). intros Ex. pose proof (head_Some_elem_of b x Ex) as Hin. split_and!; [set_solver|set_solver| |].
  - intros Ea. apply NoDup_app in Hndab as (_ & Hd & _). apply (Hd x); [|done]. by apply last_Some_elem_of.
  - apply head_Some in Ex as [b' Eb]. assert (Ek' : k p = (a ++ [c]) ++ x :: b') by (by rewrite <-app_assoc, Ek, Eb).
    destruct (reps_child h k p (a ++ [c]) x b' Hr Ek') as (rx & ? & ? & _ & ?). by exists b', rx.
Qed.

Lemma between_first y : last a = Some y → m_firstChild rp = head (a ++ b) ∧ head (a ++ b) ≠ Some c.
Proof. destruct between_facts as (_ & _ & Hcab & _ & _ & Hf & _). intros Ey. rewrite Hf. destruct a; [done|]. cbn. set_solver. Qed.

Lemma between_last x : head b = Some x → m_lastChild rp = last b ∧ last b ≠ Some c.
Proof.
  destruct between_facts as (_ & _ & Hcab & _ & _ & _ & Hl). intros Ex. rewrite Hl. destruct b as [|x' b']; [done|]. rewrite last_cons_cons. split; [done|].
  intros Hl'%last_Some_elem_of. tauto.
Qed.

Lemma between_untouched n r : h !! n = Some r → n ≠ p → n ≠ c → last a ≠ Some n → head b ≠ Some n → relinked k p (a ++ b) n r r.
Proof.
  intros Hn ? ? ? ?. eapply relinked_untouched; [done..| |]; [rewrite Ek, !elem_of_app, elem_of_cons; tauto|].
  intros a1 b1 Ek'. apply (delete_neighbours a b c n a1 b1); [congruence|done..].
Qed.

Lemma between_removed r : static r = static rc → m_firstChild r = m_firstChild rc → m_lastChild r = m_lastChild rc →
  m_parentNode r = None → m_previous r = None → m_next r = None → relinked k p (a ++ b) c rc r.
Proof. destruct between_facts as (? & _ & ? & _ & ? & _). intros. apply relinked_removed; try done. by rewrite elem_of_app. Qed.

Lemma wp_between_inner y x : last a = Some y → head b = Some x → wp (removeBetween p (Some y) (Some x) c) (λ _ h', unlinked h') h.
Proof.
  intros Ea Eb. destruct between_facts as (Hpc & Hpab & Hcab & Hndab & Hck & Hda & Hdl).
  unfold removeBetween. eapply wp_bind, wp_field; [done|]. apply wp_bind, wp_ASSERT; [by apply bool_decide_eq_true|].
  destruct (between_previous y Ea) as (? & ? & ? & a' & ry & Ea' & Hry & Hyp & Hyprev). destruct (between_next x Eb) as (? & ? & ? & b' & rx & Eb' & Hrx & Hxp & Hxnext).
  destruct (between_first y Ea) as [Hf1 Hf2]. destruct (between_last x Eb) as [Hl1 Hl2]. assert (x ≠ y) by congruence.
  eapply wp_bind, wp_bind, wp_upd; [done|]. eapply wp_upd; [by rewrite lookup_insert_ne|].
  eapply wp_bind, wp_bind, wp_upd; [by rewrite !lookup_insert_ne|]. eapply wp_upd; [by rewrite lookup_insert_ne, lookup_insert_eq by done|].
  eapply wp_bind, wp_getNode; [by rewrite !lookup_insert_ne|]. do 2 (apply wp_bind, wp_ASSERT; [apply bool_decide_eq_true; congruence|]).
  eapply wp_bind, wp_getNode; [by rewrite lookup_insert_eq|]. do 2 (apply wp_bind, wp_ASSERT; [by apply bool_decide_eq_true|]). eapply wp_upd; [by rewrite lookup_insert_eq|].
  intros n. destruct (decide (n = p)) as [-> |Hnp']; [|destruct (decide (n = c)) as [-> |Hnc]; [|destruct (decide (n = y)) as [-> |Hny]; [|destruct (decide (n = x)) as [-> |Hnx]]]].
  - rewrite !lookup_insert_ne, Hp by done. apply relinked_parent; try done. by rewrite Hl1, Eb', last_app_cons.
  - rewrite lookup_insert_eq, Hc. by apply between_removed.
  - rewrite !(lookup_insert_ne _ c), lookup_insert_eq, Hry by done. apply (relinked_child _ _ _ _ _ _ a' b); try done. by rewrite Ea', <-app_assoc.
  - rewrite !lookup_insert_ne, lookup_insert_eq, Hrx by done. apply (relinked_child _ _ _ _ _ _ a b'); try done. by rewrite Eb'.
  - rewrite !lookup_insert_ne by done. destruct (h !! n) as [r|] eqn:En; [|done]. apply between_untouched; congruence.
Qed.

Lemma wp_between_last y : last a = Some y → b = [] → wp (removeBetween p (Some y) None c) (λ _ h', unlinked h') h.
Proof.
  intros Ea Eb. destruct between_facts as (Hpc & Hpab & Hcab & Hndab & Hck & Hda & Hdl).
  unfold removeBetween. eapply wp_bind, wp_field; [done|]. apply wp_bind, wp_ASSERT; [by apply bool_decide_eq_true|].
  destruct (between_previous y Ea) as (? & ? & _ & a' & ry & Ea' & Hry & Hyp & Hyprev). destruct (between_first y Ea) as [Hf1 Hf2]. rewrite Eb in Hcnext, Hdl.
  eapply wp_bind, wp_bind, wp_field; [done|]. apply wp_bind, wp_ASSERT; [by apply bool_decide_eq_true|]. eapply wp_upd; [done|].
  eapply wp_bind, wp_bind, wp_upd; [by rewrite !lookup_insert_ne|]. eapply wp_upd; [by rewrite !lookup_insert_ne by done|].
  eapply wp_bind, wp_getNode; [by rewrite !lookup_insert_ne, lookup_insert_eq by done|]. do 2 (apply wp_bind, wp_ASSERT; [apply bool_decide_eq_true; cbn; congruence|]).
  eapply wp_bind, wp_getNode; [by rewrite lookup_insert_eq|]. do 2 (apply wp_bind, wp_ASSERT; [by apply bool_decide_eq_true|]). eapply wp_upd; [by rewrite lookup_insert_eq|].
  intros n. destruct (decide (n = p)) as [-> |Hnp']; [|destruct (decide (n = c)) as [-> |Hnc]; [|destruct (decide (n = y)) as [-> |Hny]]].
  - rewrite !lookup_insert_ne, lookup_insert_eq, Hp by done. apply relinked_parent; try done. by rewrite Eb, app_nil_r.
  - rewrite lookup_insert_eq, Hc. by apply between_removed.
  - rewrite !(lookup_insert_ne _ c), lookup_insert_eq, Hry by done. apply (relinked_child _ _ _ _ _ _ a' []); try done. by rewrite Eb, app_nil_r.
  - rewrite !lookup_insert_ne by done. destruct (h !! n) as [r|] eqn:En; [|done]. apply between_untouched; rewrite ?Ea, ?Eb; congruence || done.
Qed.

Lemma wp_between_first x : a = [] → head b = Some x → wp (removeBetween p None (Some x) c) (λ _ h', unlinked h') h.
Proof.
  intros Ea Eb. destruct between_facts as (Hpc & Hpab & Hcab & Hndab & Hck & Hda & Hdl).
  unfold removeBetween. eapply wp_bind, wp_field; [done|]. apply wp_bind, wp_ASSERT; [by apply bool_decide_eq_true|].
  destruct (between_next x Eb) as (? & ? & _ & b' & rx & Eb' & Hrx & Hxp & Hxnext). destruct (between_last x Eb) as [Hl1 Hl2]. rewrite Ea in Hcprev, Hda.
  eapply wp_bind, wp_bind, wp_upd; [done|]. eapply wp_upd; [by rewrite lookup_insert_ne|].
  eapply wp_bind, wp_bind, wp_field; [by rewrite !lookup_insert_ne|]. apply wp_bind, wp_ASSERT; [by apply bool_decide_eq_true|]. eapply wp_upd; [by rewrite !lookup_insert_ne|].
  eapply wp_bind, wp_getNode; [by rewrite lookup_insert_eq|]. do 2 (apply wp_bind, wp_ASSERT; [apply bool_decide_eq_true; cbn; congruence|]).
  eapply wp_bind, wp_getNode; [by rewrite lookup_insert_ne, lookup_insert_eq by done|]. do 2 (apply wp_bind, wp_ASSERT; [by apply bool_decide_eq_true|]).
  eapply wp_upd; [by rewrite lookup_insert_ne, lookup_insert_eq by done|].
  intros n. destruct (decide (n = p)) as [-> |Hnp']; [|destruct (decide (n = c)) as [-> |Hnc]; [|destruct (decide (n = x)) as [-> |Hnx]]].
  - rewrite lookup_insert_ne, lookup_insert_eq, Hp by done. apply relinked_parent; try done; rewrite Ea; by cbn.
  - rewrite lookup_insert_eq, Hc. by apply between_removed.
  - rewrite !lookup_insert_ne, lookup_insert_eq, Hrx by done. apply (relinked_child _ _ _ _ _ _ [] b'); try done. by rewrite Ea.
  - rewrite !lookup_insert_ne by done. destruct (h !! n) as [r|] eqn:En; [|done]. apply between_untouched; rewrite ?Ea, ?Eb; congruence || done.
Qed.

Lemma wp_between_only : a = [] → b = [] → wp (removeBetween p None None c) (λ _ h', unlinked h') h.
Proof.
  intros Ea Eb. destruct between_facts as (Hpc & Hpab & Hcab & Hndab & Hck & Hda & Hdl).
  unfold removeBetween. eapply wp_bind, wp_field; [done|]. apply wp_bind, wp_ASSERT; [by apply bool_decide_eq_true|].
  rewrite Ea in Hcprev, Hda. rewrite Eb in Hcnext, Hdl.
  eapply wp_bind, wp_bind, wp_field; [done|]. apply wp_bind, wp_ASSERT; [by apply bool_decide_eq_true|]. eapply wp_upd; [done|].
  eapply wp_bind, wp_bind, wp_field; [by rewrite lookup_insert_eq|]. apply wp_bind, wp_ASSERT; [by apply bool_decide_eq_true|]. eapply wp_upd; [by rewrite lookup_insert_eq|].
  eapply wp_bind, wp_getNode; [by rewrite lookup_insert_eq|]. do 2 (apply wp_bind, wp_ASSERT; [by apply bool_decide_eq_true|]).
  eapply wp_bind, wp_getNode; [by rewrite !lookup_insert_ne|]. do 2 (apply wp_bind, wp_ASSERT; [by apply bool_decide_eq_true|]). eapply wp_upd; [by rewrite !lookup_insert_ne|].
  intros n. destruct (decide (n = p)) as [-> |Hnp']; [|destruct (decide (n = c)) as [-> |Hnc]].
  - rewrite lookup_insert_ne, lookup_insert_eq, Hp by done. apply relinked_parent; try done; by rewrite Ea, Eb.
  - rewrite lookup_insert_eq, Hc. by apply between_removed.
  - rewrite !lookup_insert_ne by done. destruct (h !! n) as [r|] eqn:En; [|done]. by apply between_untouched; rewrite ?Ea, ?Eb.
Qed.

End RemoveBetween.

Lemma wp_removeBetween p c rp k a b (Q : unit → Heap → Prop) h :
  reps h k → h !! p = Some rp → p ∉ k p → k p = a ++ c :: b →
  (∀ h', reps h' (kset k p (a ++ b)) → sameNodes h h' → Q tt h') → wp (removeBetween p (last a) (head b) c) Q h.
Proof.
  intros Hr Hp Hnp Ek HQ. destruct (reps_child h k p a c b Hr Ek) as (rc & Hc & Hcp & Hcprev & Hcnext).
  apply (wp_mono _ (λ _ h', unlinked h k p a b h')).
  - destruct (last a) as [y|] eqn:Ea, (head b) as [x|] eqn:Eb; [|apply head_None in Eb|apply last_None in Ea|apply last_None in Ea; apply head_None in Eb].
    + by eapply wp_between_inner; try done; rewrite ?Ea, ?Eb.
    + by eapply wp_between_last; try done; rewrite ?Ea, ?Eb.
    + by eapply wp_between_first; try done; rewrite ?Ea, ?Eb.
    + by eapply wp_between_only; try done; rewrite ?Ea, ?Eb.
  - intros [] h' Hall. destruct (reps_unlink h h' k p a c b) as [? ?]; auto.
Qed.

End Rules.
