(* ===== verification/ContainerNodeCorrect.v ===== *)
(** * The tree stays a tree

    Theorems about the operations of [ContainerNode]. [acyclic h] says that the way up
    from every node, over parents and hosts, ends; with [reps] and the types of the nodes
    it is the invariant [inv]. *)

From Stdlib Require Import String.
From S2P Require Import Prelude HTMLStackItem ContainerNode ContainerNodeLists.

#[local] Open Scope list_scope.

(** ** The way up *)

Inductive way (h : Heap) : positive → list positive → Prop :=
  | way_root n : is_Some (h !! n) → up h n = None → way h n [n]
  | way_step n m l : up h n = Some m → way h m l → way h n (n :: l).

Definition acyclic (h : Heap) : Prop := ∀ n, is_Some (h !! n) → ∃ l, way h n l.

Lemma way_cons h n l : way h n l → ∃ l', l = n :: l'.
Proof. destruct 1; by eexists. Qed.

Lemma way_unique h n l l' : way h n l → way h n l' → l = l'.
Proof.
  intros Hw. revert l'. induction Hw as [n Hn Hu|n m l Hu Hw IH]; intros l' Hw'; inversion Hw' as [? ? Hu'|? ? ? Hu' Hw'']; subst; try congruence.
  rewrite Hu in Hu'. injection Hu' as <-. f_equal. auto.
Qed.

Lemma way_suffix h n a m b : way h n (a ++ m :: b) → way h m (m :: b).
Proof.
  revert n. induction a as [|x a IH]; intros n Hw; cbn in Hw.
  - destruct (way_cons _ _ _ Hw) as [? [= ->]]. done.
  - inversion Hw as [? ? ? E|? ? ? ? Hw']; [by destruct a|]. subst. by eapply IH.
Qed.

Lemma way_NoDup h n l : way h n l → NoDup l.
Proof.
  induction 1 as [n Hn Hu|n m l Hu Hw IH]; [apply NoDup_singleton|]. apply NoDup_cons. split; [|done]. intros Hin.
  apply list_elem_of_split in Hin as (a & b & ->). pose proof (way_suffix _ _ _ _ _ Hw) as Hn. inversion Hn as [? ? Hu'|? m' ? Hu' Hm']; subst; [congruence|].
  rewrite Hu in Hu'. injection Hu' as <-. pose proof (way_unique _ _ _ _ Hw Hm') as E. apply (f_equal length) in E. rewrite length_app in E. cbn in E. lia.
Qed.

Lemma way_dom h n l m : way h n l → m ∈ l → is_Some (h !! m).
Proof.
  induction 1 as [n Hn Hu|n m' l Hu Hw IH]; intros Hin; [by apply list_elem_of_singleton in Hin as ->|].
  apply elem_of_cons in Hin as [-> |Hin]; [|auto]. unfold up in Hu. destruct (h !! n); [by eexists|done].
Qed.

Lemma way_length h n l : way h n l → (length l ≤ size h)%nat.
Proof.
  intros Hw. rewrite <-size_dom. rewrite <-(size_list_to_set (C := gset positive) l) by (by eapply way_NoDup).
  apply subseteq_size. intros m Hm. apply elem_of_list_to_set in Hm. apply elem_of_dom. by eapply way_dom.
Qed.

Lemma way_frame h h' n l : way h n l → (∀ m, m ∈ l → up h' m = up h m ∧ is_Some (h' !! m)) → way h' n l.
Proof.
  induction 1 as [n Hn Hu|n m l Hu Hw IH]; intros Hf.
  - destruct (Hf n) as [? ?]; [apply list_elem_of_here|]. apply way_root; [done|congruence].
  - destruct (Hf n) as [E _]; [apply list_elem_of_here|]. apply (way_step _ _ m); [congruence|]. apply IH. intros x Hx. apply Hf. by apply elem_of_cons; right.
Qed.

(** The way of a node ends where there is no way on. *)
Lemma way_last h n a c b : way h n (a ++ c :: b) → up h c = None → b = [].
Proof. intros Hw Hc. apply way_suffix in Hw. inversion Hw; [done|congruence]. Qed.

Lemma acyclic_link h h' p c lp :
  acyclic h → way h p lp → c ∉ lp → up h c = None → (∀ n, is_Some (h' !! n) ↔ is_Some (h !! n)) → (∀ n, n ≠ c → up h' n = up h n) → up h' c = Some p → acyclic h'.
Proof.
  intros Hac Hp Hc Hu Hdom Hother Hnew.
  assert (Hkeep : ∀ n l, way h n l → c ∉ l → way h' n l).
  { intros n l Hw Hcl. eapply way_frame; [done|]. intros m Hm. split; [apply Hother; by intros ->|]. apply Hdom. by eapply way_dom. }
  intros n Hn. destruct (Hac n) as [l Hw]; [by apply Hdom|]. destruct (decide (c ∈ l)) as [Hcl|Hcl]; [|eauto].
  exists (l ++ lp). clear Hn. induction Hw as [n Hn Hun|n m l Hun Hw IH].
  - apply list_elem_of_singleton in Hcl as ->. cbn. by eapply way_step; [|apply Hkeep].
  - cbn. destruct (decide (n = c)) as [-> |Hne]; [congruence|]. apply elem_of_cons in Hcl as [? |Hcl]; [done|]. apply (way_step _ _ m); [by rewrite Hother|auto].
Qed.

Lemma acyclic_unlink h h' c :
  acyclic h → (∀ n, is_Some (h' !! n) ↔ is_Some (h !! n)) → (∀ n, n ≠ c → up h' n = up h n) → up h' c = None → acyclic h'.
Proof.
  intros Hac Hdom Hother Hnew n Hn. destruct (Hac n) as [l Hw]; [by apply Hdom|]. clear Hn. induction Hw as [n Hn Hun|n m l Hun Hw [l' IH]].
  - exists [n]. apply way_root; [by apply Hdom|]. destruct (decide (n = c)) as [-> |]; [done|]. by rewrite Hother.
  - destruct (decide (n = c)) as [-> |Hne]; [|exists (n :: l'); apply (way_step _ _ m); [by rewrite Hother|done]].
    exists [c]. apply way_root; [|done]. apply Hdom. unfold up in Hun. destruct (h !! c); [by eexists|done].
Qed.

(** ** The invariant *)

(** Only fragments have hosts; fragments have no parent. *)
Definition typed (h : Heap) : Prop :=
  ∀ n r, h !! n = Some r → (m_host r ≠ None → nodeType r = DOCUMENT_FRAGMENT_NODE) ∧ (nodeType r = DOCUMENT_FRAGMENT_NODE → m_parentNode r = None).

Record invk (h : Heap) (k : Kids) : Prop := mkInv { inv_reps : reps h k; inv_acyclic : acyclic h; inv_typed : typed h }.
Definition inv (h : Heap) : Prop := ∃ k, invk h k.

Definition typeOf (h : Heap) (n : positive) : option NodeType := nodeType <$> h !! n.

Lemma not_own_child h k p : invk h k → p ∉ k p.
Proof.
  intros [Hr Hac _] Hin. apply (reps_parent _ _ Hr) in Hin as Hp. destruct (parentOf_Some _ _ _ _ Hr Hp) as [_ Hex]. destruct (Hac p Hex) as [l Hw].
  assert (Hu : up h p = Some p). { unfold up, parentOf in *. destruct (h !! p) as [r|]; [|done]. cbn in *. unfold upOf. by rewrite Hp. }
  inversion Hw as [? ? Hu'|? ? l' Hu' Hw']; subst; [congruence|]. rewrite Hu in Hu'. injection Hu' as <-.
  pose proof (way_unique _ _ _ _ Hw Hw') as E. apply (f_equal length) in E. cbn in E. lia.
Qed.

Lemma parentOf_ext h k h' k' n : reps h k → reps h' k' → (∀ q, n ∈ k' q ↔ n ∈ k q) → parentOf h' n = parentOf h n.
Proof.
  intros Hr Hr' Hk. destruct (parentOf h n) as [q|] eqn:E.
  - apply (reps_parent _ _ Hr'), Hk. by apply (reps_parent _ _ Hr).
  - destruct (parentOf h' n) as [q|] eqn:E'; [|done]. apply (reps_parent _ _ Hr'), Hk, (reps_parent _ _ Hr) in E'. congruence.
Qed.

Lemma sameNodes_dom h h' n : sameNodes h h' → is_Some (h' !! n) ↔ is_Some (h !! n).
Proof. intros Hs. specialize (Hs n). destruct (h !! n), (h' !! n); try done; split; intros [? ?]; done || by eexists. Qed.

Lemma sameNodes_typeOf h h' n : sameNodes h h' → typeOf h' n = typeOf h n.
Proof. intros Hs. specialize (Hs n). unfold typeOf. destruct (h !! n), (h' !! n); try done. cbn in *. apply (inj Some) in Hs. unfold static in Hs. congruence. Qed.

Lemma up_ext h h' n : sameNodes h h' → parentOf h' n = parentOf h n → up h' n = up h n.
Proof.
  intros Hs Hp. specialize (Hs n). unfold up, parentOf, upOf in *. destruct (h !! n) as [r|], (h' !! n) as [r'|]; try done. cbn in *.
  apply (inj Some) in Hs. unfold static in Hs. rewrite Hp. destruct (m_parentNode r); congruence.
Qed.

Lemma orphan_up h k n t : invk h k → parentOf h n = None → typeOf h n = Some t → t ≠ DOCUMENT_FRAGMENT_NODE → up h n = None.
Proof.
  intros Hi Hp Ht Hne. unfold up, parentOf, typeOf, upOf in *. destruct (h !! n) as [r|] eqn:E; [|done]. cbn in *. rewrite Hp. injection Ht as Ht.
  destruct (m_host r) eqn:Eh; [|done]. destruct (inv_typed _ _ Hi n r E) as [Hh _]. destruct Hne. rewrite <-Ht. apply Hh. congruence.
Qed.

Lemma typed_step h h' : typed h → sameNodes h h' → (∀ n, typeOf h n = Some DOCUMENT_FRAGMENT_NODE → parentOf h n = None → parentOf h' n = None) → typed h'.
Proof.
  intros Hty Hs Hpar n r' Hn. pose proof (Hs n) as Hsn. rewrite Hn in Hsn. destruct (h !! n) as [r|] eqn:E; [|done]. cbn in Hsn. apply (inj Some) in Hsn. unfold static in Hsn.
  injection Hsn as E1 E2 E3. rewrite E1, E3. destruct (Hty n r E) as [H1 H2]. split; [done|]. intros Hf. specialize (Hpar n). unfold typeOf, parentOf in Hpar.
  rewrite E, Hn in Hpar. cbn in Hpar. rewrite Hf in Hpar. auto.
Qed.

(** The invariant after a node got a parent, and after one lost it. *)
Lemma invk_link h k h' p c l lp t :
  invk h k → reps h' (kset k p l) → sameNodes h h' → l ≡ₚ c :: k p → parentOf h c = None → typeOf h c = Some t → t ≠ DOCUMENT_FRAGMENT_NODE →
  way h p lp → c ∉ lp → invk h' (kset k p l).
Proof.
  intros Hi Hr' Hs Hl Hpc Ht Hne Hw Hc. pose proof Hi as [Hr Hac Hty].
  assert (Hother : ∀ n, n ≠ c → parentOf h' n = parentOf h n).
  { intros n Hn. eapply parentOf_ext; [done..|]. intros q. unfold kset. destruct (decide (q = p)) as [-> |]; [|done]. rewrite Hl, elem_of_cons. tauto. }
  assert (Hnew : parentOf h' c = Some p) by (apply (reps_parent _ _ Hr'); rewrite kset_eq, Hl; apply list_elem_of_here).
  split; [done| |].
  - eapply acyclic_link; [done..|by eapply orphan_up|by intros n; apply sameNodes_dom|by intros n Hn; apply up_ext; auto|].
    unfold up, parentOf, upOf in *. destruct (h' !! c) as [r|]; [|done]. cbn in *. by rewrite Hnew.
  - eapply typed_step; [done..|]. intros n Hn Hpn. destruct (decide (n = c)) as [-> |Hnc]; [congruence|]. by rewrite Hother.
Qed.

Lemma invk_unlink h k h' p a c b : invk h k → k p = a ++ c :: b → reps h' (kset k p (a ++ b)) → sameNodes h h' → invk h' (kset k p (a ++ b)).
Proof.
  intros Hi Ek Hr' Hs. pose proof Hi as [Hr Hac Hty].
  assert (Hin : c ∈ k p) by (rewrite Ek; apply elem_of_app; right; apply list_elem_of_here).
  pose proof (reps_NoDup _ _ Hr p) as Hnd. rewrite Ek, <-Permutation_middle in Hnd. apply NoDup_cons in Hnd as [Hcab _].
  assert (Hother : ∀ n, n ≠ c → parentOf h' n = parentOf h n).
  { intros n Hn. eapply parentOf_ext; [done..|]. intros q. unfold kset. destruct (decide (q = p)) as [-> |]; [|done]. rewrite Ek, !elem_of_app, elem_of_cons. tauto. }
  assert (Hnew : parentOf h' c = None).
  { destruct (parentOf h' c) as [q|] eqn:E; [|done]. apply (reps_parent _ _ Hr') in E. unfold kset in E. destruct (decide (q = p)) as [-> |Hq]; [done|].
    apply (reps_parent _ _ Hr) in E, Hin. congruence. }
  destruct (reps_child _ _ _ _ _ _ Hr Ek) as (rc & Hc & Hcp & _). destruct (Hty c rc Hc) as [Hh Hf].
  assert (Hhost : m_host rc = None) by (destruct (m_host rc) eqn:E; [|done]; rewrite Hf in Hcp by (by apply Hh); done).
  split; [done| |].
  - eapply (acyclic_unlink h h' c); [done|by intros n; apply sameNodes_dom|by intros n Hn; apply up_ext; auto|].
    specialize (Hs c). unfold up, parentOf, upOf in *. rewrite Hc in Hs. destruct (h' !! c) as [r|]; [|done]. cbn in *. rewrite Hnew. apply (inj Some) in Hs. unfold static in Hs. congruence.
  - eapply typed_step; [done..|]. intros n Hn Hpn. destruct (decide (n = c)) as [-> |Hnc]; [done|]. by rewrite Hother.
Qed.

(** ** What the queries answer *)

Section Reading.
Context `{Build} `{Script}.

Lemma ASSERT_run {St} e (s : St) : e = true → ASSERT e s = Some (tt, s).
Proof. intros ->. unfold ASSERT. by rewrite orb_true_r. Qed.

Lemma field_run {A} (f : DOMNode → A) n r h : h !! n = Some r → field f n h = Some (f r, h).
Proof. intros E. unfold field, getNode, mbind, M_bind. by rewrite E. Qed.

Lemma kids_exist h k p c : reps h k → c ∈ k p → is_Some (h !! c).
Proof. intros Hr Hc. apply (reps_parent _ _ Hr) in Hc. by eapply parentOf_Some. Qed.

Lemma kids_length h k p : reps h k → (length (k p) ≤ size h)%nat.
Proof.
  intros Hr. rewrite <-size_dom, <-(size_list_to_set (C := gset positive) (k p)) by apply (reps_NoDup _ _ Hr).
  apply subseteq_size. intros m Hm%elem_of_list_to_set. apply elem_of_dom. by eapply kids_exist.
Qed.

Lemma siblingsLoop_run h k p a b fuel : reps h k → k p = a ++ b → (length b < fuel)%nat → siblingsLoop fuel (head b) h = Some (b, h).
Proof.
  intros Hr. revert a fuel. induction b as [|c b IH]; intros a fuel Ek Hf; (destruct fuel as [|fuel]; cbn in Hf; [lia|]); cbn [siblingsLoop head]; [done|].
  destruct (reps_child _ _ _ _ _ _ Hr Ek) as (r & Hc & _ & _ & Hn). unfold mbind, M_bind. rewrite (field_run _ _ r) by done. rewrite Hn.
  rewrite (IH (a ++ [c])) by (lia || by rewrite <-app_assoc). done.
Qed.

Lemma siblingsFrom_run h k p a b : reps h k → k p = a ++ b → siblingsFrom (head b) h = Some (b, h).
Proof.
  intros Hr Ek. unfold siblingsFrom, gets, mbind, M_bind. eapply siblingsLoop_run; [done..|]. pose proof (kids_length h k p Hr) as Hl. rewrite Ek, length_app in Hl. lia.
Qed.

Lemma collectChildNodes_run h k p : reps h k → is_Some (h !! p) → collectChildNodes p h = Some (k p, h).
Proof.
  intros Hr [r Hp]. unfold collectChildNodes, mbind, M_bind. rewrite (field_run _ _ r) by done. rewrite (ok_first _ _ _ (reps_ok _ _ Hr p r Hp)).
  by apply (siblingsFrom_run h k p []).
Qed.

Lemma containsLoop_run h a n l fuel : way h n l → (length l ≤ fuel)%nat → containsLoop fuel a n h = Some (bool_decide (a ∈ l), h).
Proof.
  intros Hw. revert fuel. induction Hw as [n [r Hn] Hu|n m l Hu Hw IH]; intros fuel Hf; (destruct fuel as [|fuel]; cbn in Hf; [lia|]); cbn [containsLoop].
  - destruct (decide (n = a)) as [-> |Hne]; [rewrite !bool_decide_eq_true_2; [done|apply list_elem_of_here|done]|].
    rewrite !bool_decide_eq_false_2 by (rewrite ?list_elem_of_singleton; congruence). unfold getNode, mbind, M_bind. rewrite Hn. unfold up in Hu. rewrite Hn in Hu. cbn in Hu.
    unfold upOf in Hu. by rewrite Hu.
  - destruct (decide (n = a)) as [-> |Hne]; [rewrite !bool_decide_eq_true_2; [done|apply list_elem_of_here|done]|].
    rewrite (bool_decide_eq_false_2 (n = a)) by done. unfold up in Hu. destruct (h !! n) as [r|] eqn:Hn; [|done]. cbn in Hu. unfold upOf in Hu.
    unfold getNode, mbind, M_bind. rewrite Hn, Hu, IH by lia. do 2 f_equal. apply bool_decide_ext. rewrite elem_of_cons. naive_solver.
Qed.

Lemma contains_run h a n l : way h n l → containsIncludingHostElements a n h = Some (bool_decide (a ∈ l), h).
Proof. intros Hw. unfold containsIncludingHostElements, gets, mbind, M_bind. apply containsLoop_run; [done|]. pose proof (way_length _ _ _ Hw). lia. Qed.

(** The containers but documents, whose children are only restricted by their types. *)
Definition plainContainer (h : Heap) (p : positive) : bool := bool_decide (typeOf h p ∈ [Some ELEMENT_NODE; Some DOCUMENT_FRAGMENT_NODE]).
Definition contentType (h : Heap) (n : positive) : bool := match typeOf h n with Some t => bool_decide (t ∈ contentTypes) | None => false end.
Definition isFragment (h : Heap) (n : positive) : bool := bool_decide (typeOf h n = Some DOCUMENT_FRAGMENT_NODE).

(** The nodes that an insertion of a node puts in. *)
Definition targetsOf (h : Heap) (k : Kids) (c : positive) : list positive := if isFragment h c then k c else [c].

Lemma typeOf_Some h n t : typeOf h n = Some t → ∃ r, h !! n = Some r ∧ nodeType r = t.
Proof. unfold typeOf. destruct (h !! n) as [r|]; [|done]. intros [= <-]. by exists r. Qed.

Lemma childTypeAllowed_run h p t : plainContainer h p = true → childTypeAllowed p t h = Some (bool_decide (t ∈ contentTypes), h).
Proof.
  unfold plainContainer. rewrite bool_decide_eq_true, !elem_of_cons. intros Hp. unfold childTypeAllowed, mbind, M_bind.
  destruct Hp as [Hp|[Hp|?%elem_of_nil]]; [..|done].
  all: apply typeOf_Some in Hp as (r & Hr & Ht); rewrite (field_run _ _ r), Ht by done; done.
Qed.

Lemma allAllowed_run h p nodes :
  plainContainer h p = true → Forall (λ n, is_Some (h !! n)) nodes → allAllowed p nodes h = Some (forallb (contentType h) nodes, h).
Proof.
  intros Hp Hn. induction Hn as [|n nodes [r Hr] Hn IH]; [done|]. cbn [allAllowed forallb]. unfold mbind, M_bind. rewrite (field_run _ _ r), childTypeAllowed_run by done.
  unfold contentType at 1, typeOf. rewrite Hr. cbn. by destruct (bool_decide _).
Qed.

Lemma isChildTypeAllowed_run h k p c :
  reps h k → plainContainer h p = true → is_Some (h !! c) → isChildTypeAllowed p c h = Some (forallb (contentType h) (targetsOf h k c), h).
Proof.
  intros Hr Hp [r Hc]. unfold isChildTypeAllowed, mbind, M_bind. rewrite (field_run _ _ r) by done. unfold targetsOf, isFragment, typeOf. rewrite Hc. cbn.
  destruct (decide (nodeType r = DOCUMENT_FRAGMENT_NODE)) as [E|E].
  - rewrite bool_decide_eq_false_2 by tauto. rewrite bool_decide_eq_true_2 by congruence. rewrite (collectChildNodes_run h k) by (done || by eexists).
    apply allAllowed_run; [done|]. apply Forall_forall. intros x Hx. by eapply kids_exist.
  - rewrite bool_decide_eq_true_2 by done. rewrite bool_decide_eq_false_2 by congruence. rewrite childTypeAllowed_run by done. cbn. unfold contentType, typeOf. rewrite Hc. cbn. by rewrite andb_true_r.
Qed.

Definition stray (h : Heap) (ref : option positive) (p : positive) : bool := match ref with Some x => bool_decide (parentOf h x ≠ Some p) | None => false end.

(** The exception for putting [c] into [p], whose way up is [lp]. *)
Definition validity (h : Heap) (k : Kids) (p : positive) (lp : list positive) (c : positive) (ref : option positive) (operation : AcceptChildOperation) : option Exception :=
  if bool_decide (c ∈ lp) then Some HierarchyRequestError
  else if bool_decide (operation = InsertOrAdd) && stray h ref p then Some NotFoundError
  else if forallb (contentType h) (targetsOf h k c) then None else Some HierarchyRequestError.

Lemma notAChild_run h ref p : (∀ x, ref = Some x → is_Some (h !! x)) → notAChild ref p h = Some (stray h ref p, h).
Proof.
  intros Hx. destruct ref as [x|]; [|done]. destruct (Hx x eq_refl) as [r Hr]. cbn. unfold mbind, M_bind. rewrite (field_run _ _ r) by done. unfold parentOf. by rewrite Hr.
Qed.

Lemma ASSERT_allowed_run h k p c :
  reps h k → plainContainer h p = true → is_Some (h !! c) → forallb (contentType h) (targetsOf h k c) = true → ASSERT_allowed p c h = Some (tt, h).
Proof.
  intros Hr Hp Hc Ha. unfold ASSERT_allowed. destruct ASSERT_DISABLED eqn:E; [done|]. unfold mbind, M_bind. rewrite (isChildTypeAllowed_run h k), Ha by done.
  unfold ASSERT. by rewrite E.
Qed.

Lemma plainContainer_Some h p : plainContainer h p = true → ∃ r, h !! p = Some r ∧ (nodeType r = ELEMENT_NODE ∨ nodeType r = DOCUMENT_FRAGMENT_NODE).
Proof.
  unfold plainContainer. rewrite bool_decide_eq_true, !elem_of_cons. intros [Hp|[Hp|?%elem_of_nil]]; [..|done]; apply typeOf_Some in Hp as (r & ? & ?); exists r; auto.
Qed.

Lemma content_target h k c t : typeOf h c = Some t → t ∈ contentTypes → forallb (contentType h) (targetsOf h k c) = true.
Proof.
  intros Et Hin. unfold targetsOf, isFragment. rewrite bool_decide_eq_false_2; [|rewrite Et; intros [= ->]; by apply (bool_decide_eq_true_2 _) in Hin].
  cbn. unfold contentType. rewrite Et, andb_true_r. by apply bool_decide_eq_true.
Qed.

Lemma checkAcceptChild_run h k p lp c ref operation :
  reps h k → plainContainer h p = true → way h p lp → is_Some (h !! c) → (∀ x, ref = Some x → is_Some (h !! x)) →
  checkAcceptChild p c ref operation h = Some (validity h k p lp c ref operation, h).
Proof.
  intros Hr Hp Hw Hc Hx. unfold checkAcceptChild, validity, mbind, M_bind. rewrite (contains_run h c p lp) by done. destruct (bool_decide (c ∈ lp)); [done|].
  pose proof Hc as [rc Ec]. destruct (plainContainer_Some h p Hp) as (rp & Ep & Htp). rewrite (field_run _ c rc), (field_run _ p rp) by done.
  assert (Hs : (if bool_decide (operation = InsertOrAdd) then notAChild ref p else mret false) h = Some (bool_decide (operation = InsertOrAdd) && stray h ref p, h)).
  { destruct (bool_decide (operation = InsertOrAdd)); [by apply notAChild_run|done]. }
  rewrite Hs. clear Hs. set (s := bool_decide (operation = InsertOrAdd) && stray h ref p).
  destruct (bool_decide (nodeType rc ∈ [ELEMENT_NODE; TEXT_NODE]) && bool_decide (nodeType rp = ELEMENT_NODE)) eqn:Efast.
  - apply andb_true_iff in Efast as [Et%bool_decide_eq_true Ept%bool_decide_eq_true].
    assert (Ha : forallb (contentType h) (targetsOf h k c) = true).
    { apply (content_target h k c (nodeType rc)); [unfold typeOf; by rewrite Ec|]. unfold contentTypes. set_solver. }
    rewrite ASSERT_run by (rewrite Ept; by apply bool_decide_eq_true). rewrite (ASSERT_allowed_run h k) by done. rewrite Ha. by destruct s.
  - destruct s; [done|]. rewrite bool_decide_eq_false_2 by (destruct Htp; congruence). rewrite (isChildTypeAllowed_run h k) by done. by destruct (forallb _ _).
Qed.

End Reading.
