(* ===== verification/ContainerNodeScripts.v ===== *)
(** * The tree and the scripts

    What the operations of [ContainerNode] do when script runs inside them, and what
    they do when none does. *)

From Stdlib Require Import String.
From S2P Require Import Prelude HTMLStackItem ContainerNode ContainerNodeLists ContainerNodeCorrect.

#[local] Open Scope list_scope.

Lemma reps_ext h k k' : (∀ n, k n = k' n) → reps h k → reps h k'.
Proof.
  intros Hk [Hok Hpar Hnd]. constructor.
  - intros n r Hn. destruct (Hok n r Hn) as [Hf Hl Hp]. constructor; [by rewrite <-Hk..|]. destruct (m_parentNode r) as [q|]; [|done].
    destruct Hp as (a & b & E & ?). exists a, b. by rewrite <-Hk.
  - intros n c. rewrite <-Hk. apply Hpar.
  - intros n. rewrite <-Hk. apply Hnd.
Qed.

Lemma invk_ext h k k' : (∀ n, k n = k' n) → invk h k → invk h k'.
Proof. intros Hk [Hr ? ?]. split; [by eapply reps_ext|done..]. Qed.

Lemma kset_kset k p l l' n : kset (kset k p l) p l' n = kset k p l' n.
Proof. unfold kset. by destruct (decide (n = p)). Qed.

Lemma kset_self k p l n : k p = l → kset k p l n = k n.
Proof. intros <-. unfold kset. by destruct (decide (n = p)) as [-> |]. Qed.

(** Where a node is put in a list: before [next], at the end when there is none. *)
Definition splitAt (next : option positive) (l a b : list positive) : Prop := l = a ++ b ∧ head b = next.

Lemma next_exists h k n r x : reps h k → h !! n = Some r → m_next r = Some x → is_Some (h !! x).
Proof.
  intros Hr Hn Hx. pose proof (ok_place _ _ _ (reps_ok _ _ Hr n r Hn)) as Hp. destruct (m_parentNode r) as [q|]; [|destruct Hp; congruence].
  destruct Hp as (a & b & Ek & _ & Eb). apply (kids_exist h k q); [done|]. rewrite Ek, Hx in *. symmetry in Eb. apply head_Some_elem_of in Eb. set_solver.
Qed.

Section Scripts.
Context `{Build} `{Script}.

(** What script may do: keep the invariant and do [S] to the tree. *)
Context (S : Heap → Heap → Prop) `{!PreOrder S} (S_grows : ∀ h h', S h h' → grows h h').
Context (script_ok : ∀ pt h, inv h → inv (runScript pt h) ∧ S h (runScript pt h)).

Lemma wp_hook pt (Q : unit → Heap → Prop) h : inv h → (∀ h', inv h' → S h h' → Q tt h') → wp (hook pt) Q h.
Proof. intros Hi HQ. apply wp_modify. destruct (script_ok pt h Hi). auto. Qed.
Lemma wp_disconnect n (Q : unit → Heap → Prop) h : inv h → (∀ h', inv h' → S h h' → Q tt h') → wp (disconnectSubframesIfNeeded n) Q h.
Proof. intros Hi HQ. unfold disconnectSubframesIfNeeded. apply wp_bind, wp_gets. case_bool_decide; [apply wp_ret, HQ; [done|reflexivity]|by apply wp_hook]. Qed.

(** ** The steps *)

Lemma wp_unlink p a c b k (Q : unit → Heap → Prop) h :
  invk h k → k p = a ++ c :: b → (∀ h', invk h' (kset k p (a ++ b)) → sameNodes h h' → Q tt h') → wp (removeBetween p (last a) (head b) c) Q h.
Proof.
  intros Hi Ek HQ. pose proof Hi as [Hr Hac _]. assert (Hc : parentOf h c = Some p) by (apply (reps_parent _ _ Hr); rewrite Ek; apply elem_of_app; right; apply list_elem_of_here).
  destruct (parentOf_Some _ _ _ _ Hr Hc) as [_ Hex]. assert (Hpex : is_Some (h !! p)).
  { destruct (Hac c Hex) as [l Hw]. eapply (way_dom h c l); [done|]. assert (Hu : up h c = Some p).
    { unfold up, parentOf, upOf in *. destruct (h !! c); [|done]. cbn in *. by rewrite Hc. }
    inversion Hw as [|? m l' Hu' Hw']; subst; [congruence|]. rewrite Hu in Hu'. injection Hu' as <-. destruct (way_cons _ _ _ Hw') as [? ->]. apply elem_of_cons. right. apply list_elem_of_here. }
  destruct Hpex as [rp Hp]. eapply wp_removeBetween; [done..|by eapply not_own_child|done|]. intros h' Hr' Hs. apply HQ; [|done]. by eapply invk_unlink.
Qed.

Lemma wp_link p c next lp a b t k (Q : unit → Heap → Prop) h :
  invk h k → splitAt next (k p) a b → way h p lp → c ∉ lp → parentOf h c = None → typeOf h c = Some t → t ≠ DOCUMENT_FRAGMENT_NODE →
  (∀ h', invk h' (kset k p (a ++ c :: b)) → sameNodes h h' → Q tt h') →
  wp (match next with Some next => insertBeforeCommon p next c | None => appendChildCommon p c end) Q h.
Proof.
  intros Hi [Ek Hb] Hw Hc Hpc Ht Hne HQ. pose proof Hi as [Hr _ _]. destruct (way_dom h p lp p Hw) as [rp Hp]; [destruct (way_cons _ _ _ Hw) as [? ->]; apply list_elem_of_here|].
  destruct (typeOf_Some _ _ _ Ht) as (rc & Hrc & _). unfold parentOf in Hpc. rewrite Hrc in Hpc. cbn in Hpc. assert (p ≠ c).
  { intros ->. apply Hc. destruct (way_cons _ _ _ Hw) as [? ->]. apply list_elem_of_here. }
  assert (Hdone : ∀ h', reps h' (kset k p (a ++ c :: b)) → sameNodes h h' → Q tt h').
  { intros h' Hr' Hs. apply HQ; [|done]. eapply invk_link; [done..| |unfold parentOf; by rewrite Hrc|done|done|done|done]. rewrite Ek. by rewrite Permutation_middle. }
  destruct next as [x|].
  - apply head_Some in Hb as [b' ->]. eapply wp_insertBeforeCommon; [done..|by eapply not_own_child|done|done].
  - apply head_None in Hb as ->. rewrite app_nil_r in Ek. eapply wp_appendChildCommon; [done..|by eapply not_own_child|]. rewrite Ek. done.
Qed.

(** A child was taken out, with script before and after. *)
Definition removedStep (p c : positive) (h h' : Heap) : Prop :=
  ∃ h2 k2 a b h3, S h h2 ∧ invk h2 k2 ∧ k2 p = a ++ c :: b ∧ invk h3 (kset k2 p (a ++ b)) ∧ sameNodes h2 h3 ∧ S h3 h' ∧ inv h'.

Lemma removedStep_grows p c h h' : removedStep p c h h' → grows h h'.
Proof.
  intros (h2 & k2 & a & b & h3 & H1 & _ & _ & _ & H3 & H4 & _). etransitivity; [by apply S_grows|]. etransitivity; [by apply sameNodes_grows|by apply S_grows].
Qed.

Lemma removedStep_S p c h h' h'' : removedStep p c h h' → S h' h'' → inv h'' → removedStep p c h h''.
Proof. intros (h2 & k2 & a & b & h3 & H1 & H2 & H3 & H4 & H5 & H6 & _) HS Hi. exists h2, k2, a, b, h3. split_and!; try done. by transitivity h'. Qed.

Lemma grows_lookup h h' n : grows h h' → is_Some (h !! n) → is_Some (h' !! n).
Proof. intros Hg [r Hr]. destruct (Hg n r Hr) as (r' & ? & _). by eexists. Qed.
Lemma grows_typeOf h h' n t : grows h h' → typeOf h n = Some t → typeOf h' n = Some t.
Proof. intros Hg (r & Hr & Ht)%typeOf_Some. destruct (Hg n r Hr) as (r' & Hr' & E). unfold typeOf. rewrite Hr'. cbn. unfold static in E. congruence. Qed.

Lemma S_exists h h' n : S h h' → is_Some (h !! n) → is_Some (h' !! n).
Proof. intros HS. by apply grows_lookup, S_grows. Qed.

Lemma wp_removeNode p c source (Q : bool → Heap → Prop) h :
  inv h → is_Some (h !! c) → parentOf h c = Some p →
  (∀ h', inv h' → S h h' → parentOf h' c ≠ Some p → Q false h') → (∀ h', removedStep p c h h' → Q true h') →
  wp (removeNodeWithScriptAssertion p c source) Q h.
Proof.
  intros Hi Hc Hp Hfalse Htrue. unfold removeNodeWithScriptAssertion. pose proof Hc as [rc Hrc]. pose proof Hp as Hp'. unfold parentOf in Hp'. rewrite Hrc in Hp'. cbn in Hp'.
  eapply wp_bind, wp_field; [done|]. apply wp_bind, wp_ASSERT; [by apply bool_decide_eq_true|]. apply wp_bind.
  assert (Hev : wp (if bool_decide (source = SourceAPI) then hook (RemovalEvents c) else mret tt) (λ _ h1, inv h1 ∧ S h h1 ∧ (source ≠ SourceAPI → parentOf h1 c = Some p)) h).
  { destruct (decide (source = SourceAPI)) as [Es|Es]; [rewrite bool_decide_eq_true_2 by done; by apply wp_hook|]. rewrite bool_decide_eq_false_2 by done. apply wp_ret. split_and!; [done|reflexivity|done]. }
  eapply wp_mono; [done|]. intros _ h1 (Hi1 & HS1 & Hsrc). destruct (S_exists h h1 c HS1 Hc) as [r1 Hr1].
  eapply wp_bind, wp_field; [done|]. destruct (bool_decide (source = SourceAPI) && bool_decide (m_parentNode r1 ≠ Some p)) eqn:E1.
  { apply wp_ret. apply andb_true_iff in E1 as [_ E1%bool_decide_eq_true]. apply Hfalse; [done..|]. unfold parentOf. by rewrite Hr1. }
  apply wp_bind.
  assert (Hsub : wp (if bool_decide (source = SourceParser) then disconnectSubframesIfNeeded p
     else container ← isContainerNode c; if container : bool then disconnectSubframesIfNeeded c else mret tt) (λ _ h2, inv h2 ∧ S h1 h2) h1).
  { destruct (bool_decide (source = SourceParser)); [by apply wp_disconnect|]. unfold isContainerNode. eapply wp_bind, wp_bind, wp_field; [done|]. apply wp_ret. destruct (bool_decide (nodeType r1 ∈ _)); [by apply wp_disconnect|]. apply wp_ret. split; [done|reflexivity]. }
  eapply wp_mono; [done|]. intros _ h2 (Hi2 & HS2). clear Hev Hsub E1. assert (HS12 : S h h2) by (by transitivity h1). destruct (S_exists h h2 c HS12 Hc) as [r2 Hr2].
  eapply wp_bind, wp_getNode; [done|]. case_bool_decide as E2; [apply wp_ret, Hfalse; [done..|]; unfold parentOf; by rewrite Hr2|].
  destruct Hi2 as [k2 Hk2]. assert (Hin : c ∈ k2 p) by (apply (reps_parent _ _ (inv_reps _ _ Hk2)); unfold parentOf; by rewrite Hr2).
  apply list_elem_of_split in Hin as (a & b & Ek). destruct (reps_child _ _ _ _ _ _ (inv_reps _ _ Hk2) Ek) as (r2' & Hr2' & _ & Hprev & Hnext). simplify_eq.
  apply wp_bind, wp_ASSERT; [by apply bool_decide_eq_true|]. apply wp_bind, wp_ASSERT.
  { apply bool_decide_eq_true. intros Hf. destruct (inv_typed _ _ Hk2 c r2 Hr2) as [_ Hpn]. rewrite Hpn in E2 by done. done. }
  rewrite Hprev, Hnext. apply wp_bind. eapply wp_unlink; [done..|]. intros h3 Hk3 Hs3. apply wp_bind, wp_hook; [by eexists|]. intros h' Hi' HS'. apply wp_ret.
  apply Htrue. by exists h2, k2, a, b, h3.
Qed.

Lemma wp_removeChild p c (Q : option Exception → Heap → Prop) h :
  inv h → is_Some (h !! c) →
  (∀ h', inv h' → S h h' → parentOf h' c ≠ Some p → (parentOf h c ≠ Some p → h' = h) → Q (Some NotFoundError) h') →
  (∀ h', parentOf h c = Some p → removedStep p c h h' → Q None h') → wp (removeChild p c) Q h.
Proof.
  intros Hi Hc Herr Hok. unfold removeChild. pose proof Hc as [rc Hrc]. eapply wp_bind, wp_field; [done|].
  assert (Epar : parentOf h c = m_parentNode rc) by (unfold parentOf; by rewrite Hrc). case_bool_decide as E.
  { apply wp_ret, Herr; [done|reflexivity|congruence|done]. }
  apply wp_bind, wp_removeNode; [done..|congruence| |].
  - intros h' ? ? ?. apply wp_ret, Herr; [done..|]. congruence.
  - intros h' Hstep. pose proof Hstep as (?&?&?&?&?&?&?&?&?&?&?&Hi'). apply wp_bind, wp_hook; [done|]. intros h'' Hi'' HS. apply wp_ret, Hok; [congruence|]. by eapply removedStep_S.
Qed.

Lemma wp_removeAllLoop p fuel k (Q : unit → Heap → Prop) h :
  invk h k → is_Some (h !! p) → (length (k p) < fuel)%nat → (∀ h', invk h' (kset k p []) → sameNodes h h' → Q tt h') → wp (removeAllLoop fuel p) Q h.
Proof.
  remember (k p) as l eqn:El. revert fuel k h El. induction l as [|c l IH]; intros fuel k h El Hi [rp Hp] Hf HQ; (destruct fuel as [|fuel]; cbn in Hf; [lia|]); cbn [removeAllLoop].
  - eapply wp_bind, wp_field; [done|]. rewrite (ok_first _ _ _ (reps_ok _ _ (inv_reps _ _ Hi) p rp Hp)), <-El. cbn. apply wp_ret, HQ; [|apply sameNodes_refl].
    eapply invk_ext; [|done]. intros n. symmetry. by apply kset_self.
  - eapply wp_bind, wp_field; [done|]. rewrite (ok_first _ _ _ (reps_ok _ _ (inv_reps _ _ Hi) p rp Hp)), <-El. cbn [head].
    symmetry in El. destruct (reps_child h k p [] c l (inv_reps _ _ Hi) El) as (rc & Hc & _ & _ & Hn). eapply wp_bind, wp_field; [done|]. rewrite Hn. apply wp_bind.
    apply (wp_unlink p [] c l k); [done..|]. intros h1 Hi1 Hs1. eapply (IH fuel (kset k p l) h1).
    + by rewrite kset_eq.
    + done.
    + by apply (sameNodes_dom _ _ _ Hs1).
    + lia.
    + intros h' Hi' Hs'. apply HQ; [|by eapply sameNodes_trans]. eapply invk_ext; [|done]. intros n. apply kset_kset.
Qed.

(** All children were taken out, with script before and after. *)
Definition clearedStep (p : positive) (h h' : Heap) : Prop :=
  ∃ h2 k2 h3, S h h2 ∧ invk h2 k2 ∧ invk h3 (kset k2 p []) ∧ sameNodes h2 h3 ∧ S h3 h' ∧ inv h'.

Lemma clearedStep_grows p h h' : clearedStep p h h' → grows h h'.
Proof. intros (h2 & k2 & h3 & H1 & _ & _ & H3 & H4 & _). etransitivity; [by apply S_grows|]. etransitivity; [by apply sameNodes_grows|by apply S_grows]. Qed.

Lemma clearedStep_S p h h' h'' : clearedStep p h h' → S h' h'' → inv h'' → clearedStep p h h''.
Proof. intros (h2 & k2 & h3 & H1 & H2 & H3 & H4 & H5 & _) HS Hi. exists h2, k2, h3. split_and!; try done. by transitivity h'. Qed.

Lemma wp_removalEventsLoop children (Q : unit → Heap → Prop) h : inv h → (∀ h', inv h' → S h h' → Q tt h') → wp (removalEventsLoop children) Q h.
Proof.
  revert h. induction children as [|c children IH]; intros h Hi HQ; cbn [removalEventsLoop]; [apply wp_ret, HQ; [done|reflexivity]|].
  apply wp_bind, wp_hook; [done|]. intros h1 Hi1 HS1. apply IH; [done|]. intros h2 Hi2 HS2. apply HQ; [done|by transitivity h1].
Qed.

Lemma wp_removeAllChildren p source defer k (Q : list positive → Heap → Prop) h :
  invk h k → is_Some (h !! p) → (∀ h', clearedStep p h h' → Q (k p) h') → wp (removeAllChildrenWithScriptAssertion p source defer) Q h.
Proof.
  intros Hi Hp HQ. unfold removeAllChildrenWithScriptAssertion. apply wp_bind. unfold wp at 1. rewrite (collectChildNodes_run h k) by (done || apply Hi). apply wp_bind.
  assert (Hev : wp (if bool_decide (source = SourceAPI) then removalEventsLoop (k p) else mret tt) (λ _ h1, inv h1 ∧ S h h1) h).
  { destruct (bool_decide (source = SourceAPI)); [by apply wp_removalEventsLoop; [eexists|]|]. apply wp_ret. split; [by eexists|reflexivity]. }
  eapply wp_mono; [done|]. clear Hev. intros _ h1 [Hi1 HS1]. apply wp_bind, wp_disconnect; [done|]. intros h2 [k2 Hk2] HS2. assert (HS12 : S h h2) by (by transitivity h1).
  apply wp_bind, wp_gets. apply wp_bind. eapply wp_removeAllLoop; [done|by eapply S_exists|pose proof (kids_length h2 k2 p (inv_reps _ _ Hk2)); lia|].
  intros h3 Hk3 Hs3. apply wp_bind.
  assert (Hcc : wp (if defer then mret tt else hook (ChildrenChanged p)) (λ _ h', inv h' ∧ S h3 h') h3).
  { destruct defer; [apply wp_ret; split; [by eexists|reflexivity]|]. apply wp_hook; [by eexists|done]. }
  eapply wp_mono; [done|]. intros _ h' [Hi' HS']. apply wp_ret, HQ. by exists h2, k2, h3.
Qed.

(** The nodes to insert were taken from where they were. *)
Definition collectedStep (k : Kids) (c : positive) (h h' : Heap) : Prop :=
  (isFragment h c = false ∧ ((parentOf h c = None ∧ h' = h) ∨ ∃ q, parentOf h c = Some q ∧ removedStep q c h h')) ∨
  (isFragment h c = true ∧ ((k c = [] ∧ h' = h) ∨ (k c ≠ [] ∧ clearedStep c h h'))).

Lemma collectedStep_grows k c h h' : collectedStep k c h h' → grows h h'.
Proof.
  intros [[_ [[_ ->]|(q & _ & ?)]]|[_ [[_ ->]|[_ ?]]]]; [reflexivity|by eapply removedStep_grows|reflexivity|by eapply clearedStep_grows].
Qed.

Lemma collectedStep_inv k c h h' : inv h → collectedStep k c h h' → inv h'.
Proof. intros Hi [[_ [[_ ->]|(q & _ & (?&?&?&?&?&?&?&?&?&?&?&?))]]|[_ [[_ ->]|[_ (?&?&?&?&?&?&?&?&?)]]]]; done. Qed.

Lemma wp_collect c k (Q : list positive * option Exception → Heap → Prop) h :
  invk h k → is_Some (h !! c) →
  (∀ h', collectedStep k c h h' → Q (targetsOf h k c, None) h') →
  (∀ ts q h', parentOf h c = Some q → parentOf h' c ≠ Some q → inv h' → S h h' → Q (ts, Some NotFoundError) h') →
  wp (collectChildrenAndRemoveFromOldParent c) Q h.
Proof.
  intros Hi Hc Hok Herr. unfold collectChildrenAndRemoveFromOldParent. pose proof Hc as [rc Hrc]. eapply wp_bind, wp_getNode; [done|].
  assert (Hpar : parentOf h c = m_parentNode rc) by (unfold parentOf; by rewrite Hrc). unfold targetsOf, collectedStep in Hok. case_bool_decide as E.
  - assert (Hf : isFragment h c = false) by (unfold isFragment, typeOf; rewrite Hrc; apply bool_decide_eq_false; cbn; congruence). rewrite Hf in Hok.
    destruct (m_parentNode rc) as [q|] eqn:Eq.
    + apply wp_bind, wp_removeChild; [by eexists|done| |].
      * intros h' ? ? ? _. by apply wp_ret, (Herr _ q).
      * intros h' _ Hstep. apply wp_ret, Hok. left. split; [done|]. right. by exists q.
    + apply wp_ret, Hok. left. split; [done|]. by left.
  - assert (Hf : isFragment h c = true) by (unfold isFragment, typeOf; rewrite Hrc; apply bool_decide_eq_true; cbn; by f_equal). rewrite Hf in Hok.
    apply wp_bind. unfold wp at 1. rewrite (collectChildNodes_run h k) by (done || apply Hi). unfold removeChildren. apply wp_bind. eapply wp_bind, wp_field; [done|].
    rewrite (ok_first _ _ _ (reps_ok _ _ (inv_reps _ _ Hi) c rc Hrc)). case_bool_decide as E'.
    + apply head_None in E'. apply wp_ret. apply wp_ret, Hok. right. split; [done|]. by left.
    + assert (k c ≠ []) by (by intros Hn; rewrite Hn in E'). apply wp_bind. eapply wp_removeAllChildren; [done..|]. intros h1 Hstep.
      pose proof Hstep as (?&?&?&?&?&?&?&?&Hi1). apply wp_hook; [done|]. intros h' Hi' HS'. apply wp_ret, Hok. right. split; [done|]. right. split; [done|]. by eapply clearedStep_S.
Qed.

(** ** Insertions *)

Lemma splitAt_exists h k p next : reps h k → stray h next p = false → ∃ a b, splitAt next (k p) a b.
Proof.
  intros Hr Hs. destruct next as [x|]; cbn in Hs.
  - apply bool_decide_eq_false, dec_stable in Hs. apply (reps_parent _ _ Hr), list_elem_of_split in Hs as (a & b & E). by exists a, (x :: b).
  - exists (k p), []. unfold splitAt. by rewrite app_nil_r.
Qed.

Lemma wp_exec p c next lp a b t source k (Q : unit → Heap → Prop) h :
  invk h k → splitAt next (k p) a b → way h p lp → c ∉ lp → parentOf h c = None → typeOf h c = Some t → t ≠ DOCUMENT_FRAGMENT_NODE →
  (∀ h3 h', invk h3 (kset k p (a ++ c :: b)) → sameNodes h h3 → S h3 h' → inv h' → Q tt h') →
  wp (executeNodeInsertionWithScriptAssertion p c source (match next with Some next => insertBeforeCommon p next c | None => appendChildCommon p c end)) Q h.
Proof.
  intros Hi Hsp Hw Hc Hpc Ht Hne HQ. unfold executeNodeInsertionWithScriptAssertion. apply wp_bind. eapply wp_link; [done..|]. intros h3 Hi3 Hs3.
  apply wp_bind, wp_hook; [by eexists|]. intros h4 Hi4 HS4. apply wp_bind, wp_hook; [done|]. intros h5 Hi5 HS5. assert (HS35 : S h3 h5) by (by transitivity h4).
  destruct (bool_decide (source = SourceAPI)).
  - apply wp_hook; [done|]. intros h' Hi' HS'. apply (HQ h3); [done..| |done]. by transitivity h5.
  - by apply wp_ret, (HQ h3).
Qed.

Lemma wp_insertOne p next c lp t k (Q : unit → Heap → Prop) h :
  invk h k → way h p lp → c ∉ lp → typeOf h c = Some t → t ≠ DOCUMENT_FRAGMENT_NODE → (∀ x, next = Some x → is_Some (h !! x)) →
  (stray h next p = true ∨ parentOf h c ≠ None → Q tt h) →
  (∀ a b h3 h', stray h next p = false → parentOf h c = None → splitAt next (k p) a b → invk h3 (kset k p (a ++ c :: b)) → sameNodes h h3 → S h3 h' → inv h' → Q tt h') →
  wp (insertLoop p next [c]) Q h.
Proof.
  intros Hi Hw Hc Ht Hne Hx Hstop HQ. cbn [insertLoop]. apply wp_bind. unfold wp at 1. rewrite notAChild_run by done. destruct (stray h next p) eqn:Es; [apply wp_ret; auto|].
  destruct (typeOf_Some _ _ _ Ht) as (rc & Hrc & _). assert (Hpar : parentOf h c = m_parentNode rc) by (unfold parentOf; by rewrite Hrc).
  eapply wp_bind, wp_field; [done|]. rewrite <-Hpar. case_bool_decide as E; [apply wp_ret; auto|].
  destruct (splitAt_exists h k p next (inv_reps _ _ Hi) Es) as (a & b & Hsp). apply wp_bind. eapply wp_exec; [done..|]. intros h3 h' ? ? ? ?. apply wp_ret. by eapply HQ.
Qed.

Lemma checkGuaranteed_run h k p lp c :
  reps h k → plainContainer h p = true → way h p lp → is_Some (h !! c) → forallb (contentType h) (targetsOf h k c) = true →
  checkAcceptChildGuaranteedNodeTypes p c h = Some (if bool_decide (c ∈ lp) then Some HierarchyRequestError else None, h).
Proof.
  intros Hr Hp Hw Hc Ha. unfold checkAcceptChildGuaranteedNodeTypes, mbind, M_bind. rewrite (ASSERT_allowed_run h k), (contains_run h c p lp) by done. by destruct (bool_decide _).
Qed.

(** A node that may be put into an element or a fragment. *)
Definition content (h : Heap) (c : positive) : Prop := ∃ t, typeOf h c = Some t ∧ t ∈ contentTypes.

Lemma content_spec h c : content h c → is_Some (h !! c) ∧ isFragment h c = false ∧ ∀ k, forallb (contentType h) (targetsOf h k c) = true.
Proof.
  intros (t & Ht & Hin). split_and!.
  - apply typeOf_Some in Ht as (r & ? & _). by eexists.
  - unfold isFragment. apply bool_decide_eq_false. rewrite Ht. intros [= ->]. by apply (bool_decide_eq_true_2 _) in Hin.
  - intros k. by eapply content_target.
Qed.

Lemma content_grows h h' c : grows h h' → content h c → content h' c.
Proof. intros Hg (t & Ht & Hin). exists t. split; [by eapply grows_typeOf|done]. Qed.

Lemma plain_grows h h' p : grows h h' → plainContainer h p = true → plainContainer h' p = true.
Proof.
  unfold plainContainer. rewrite !bool_decide_eq_true, !elem_of_cons. intros Hg [Ht|[Ht|?%elem_of_nil]]; [..|done]; rewrite (grows_typeOf _ _ _ _ Hg Ht); auto.
Qed.

Lemma plain_way h p : acyclic h → plainContainer h p = true → ∃ lp, way h p lp.
Proof. intros Hac (r & Hr & _)%plainContainer_Some. apply Hac. by eexists. Qed.

Lemma wp_insertOne_any p next c lp k (Q : option Exception → Heap → Prop) h0 h :
  invk h k → grows h0 h → way h p lp → c ∉ lp → content h c → (∀ x, next = Some x → is_Some (h !! x)) →
  (∀ h', inv h' → grows h0 h' → Q None h') → wp (insertLoop p next [c];; hook (SubtreeModified p);; mret None) Q h.
Proof.
  intros Hk Hg Hw Hc (t & Ht & Hin) Hx HQ.
  assert (Htail : ∀ h2, inv h2 → grows h h2 → wp (hook (SubtreeModified p);; mret None) Q h2).
  { intros h2 Hi2 Hg2. apply wp_bind, wp_hook; [done|]. intros h' Hi' HS'. apply wp_ret, HQ; [done|]. transitivity h; [done|]. transitivity h2; [done|by apply S_grows]. }
  apply wp_bind. eapply wp_insertOne; [done..|by intros ->; apply (bool_decide_eq_true_2 _) in Hin|done| |].
  - intros _. apply Htail; [by eexists|reflexivity].
  - intros a b h3 h' _ _ _ _ Hs HS' Hi'. apply Htail; [done|]. transitivity h3; [by apply sameNodes_grows|by apply S_grows].
Qed.

(** The rest of an insertion, for one node, whatever script does. *)
Lemma wp_insertTail p next c (Q : option Exception → Heap → Prop) h :
  inv h → plainContainer h p = true → content h c → (∀ x, next = Some x → is_Some (h !! x)) → (∀ e h', inv h' → grows h h' → Q e h') →
  wp ('(targets, e) ← collectChildrenAndRemoveFromOldParent c;
      if bool_decide (e ≠ None) then mret e
      else if bool_decide (targets = []) then mret None
      else orThrow (checkAll (checkAcceptChildGuaranteedNodeTypes p) targets) (insertLoop p next targets;; hook (SubtreeModified p);; mret None)) Q h.
Proof.
  intros [k Hk] Hp Hc Hx HQ. pose proof (content_spec h c Hc) as (Hex & Hf & _). apply wp_bind. eapply wp_collect; [done..| |].
  - intros h1 Hstep. unfold targetsOf. rewrite Hf. rewrite (bool_decide_eq_false_2 (None ≠ None)) by (by intros []). rewrite bool_decide_eq_false_2 by done.
    pose proof (collectedStep_grows _ _ _ _ Hstep) as Hg. pose proof (collectedStep_inv _ _ _ _ (ex_intro _ k Hk) Hstep) as [k1 Hk1].
    pose proof (content_grows _ _ _ Hg Hc) as Hc1. pose proof (plain_grows _ _ _ Hg Hp) as Hp1. destruct (content_spec _ _ Hc1) as (Hex1 & _ & Ha1).
    destruct (plain_way h1 p (inv_acyclic _ _ Hk1) Hp1) as [lp Hw]. unfold orThrow. apply wp_bind. cbn [checkAll]. unfold orThrow. apply wp_bind. unfold wp at 1.
    rewrite (checkGuaranteed_run h1 k1 p lp) by (done || apply Hk1). case_bool_decide as Ecyc.
    { apply wp_ret, wp_ret, HQ; [by eexists|done]. }
    apply wp_ret. eapply wp_insertOne_any; [done..| |by intros h' ? ?; apply HQ]. intros x Ex. eapply grows_lookup; [done|auto].
  - intros ts q h' _ _ Hi' HS'. rewrite bool_decide_eq_true_2 by done. apply wp_ret, HQ; [done|by apply S_grows].
Qed.

Lemma validity_content h k p lp c ref operation : content h c → validity h k p lp c ref operation = None → c ∉ lp.
Proof. unfold validity. intros _. by case_bool_decide. Qed.

(** The check of one node before a replacement, and what follows it. *)
Lemma wp_recheck p c old (K : M Heap (option Exception)) (Q : option Exception → Heap → Prop) h :
  inv h → plainContainer h p = true → content h c → is_Some (h !! old) → (∀ e, Q e h) →
  (∀ k lp, invk h k → way h p lp → c ∉ lp → wp K Q h) →
  wp (orThrow (checkAll (λ child, checkPreReplacementValidity p child old) [c]) K) Q h.
Proof.
  intros [k Hk] Hp Hc Hold Herr Hok. destruct (content_spec _ _ Hc) as (Hex & _ & _). destruct (plain_way h p (inv_acyclic _ _ Hk) Hp) as [lp Hw].
  unfold orThrow at 1. apply wp_bind. cbn [checkAll]. unfold orThrow. apply wp_bind. unfold wp at 1, checkPreReplacementValidity.
  rewrite (checkAcceptChild_run h k p lp) by (done || apply Hk || naive_solver). destruct (validity _ _ _ _ _ _ _) eqn:Ev; [apply wp_ret; by apply wp_ret|].
  apply wp_ret. by eapply Hok, validity_content.
Qed.

Lemma wp_replaceChild p c old (Q : option Exception → Heap → Prop) h :
  inv h → plainContainer h p = true → content h c → is_Some (h !! old) → (∀ e h', inv h' → grows h h' → Q e h') → wp (replaceChild p c old) Q h.
Proof.
  intros [k Hk] Hp Hc Hold HQ. pose proof (content_spec h c Hc) as (Hex & Hf & _). unfold replaceChild. destruct (plain_way h p (inv_acyclic _ _ Hk) Hp) as [lp Hw].
  unfold orThrow at 1. apply wp_bind. unfold wp at 1, checkPreReplacementValidity at 1. rewrite (checkAcceptChild_run h k p lp) by (done || apply Hk || naive_solver).
  destruct (validity _ _ _ _ _ _ _); [apply wp_ret, HQ; [by eexists|reflexivity]|]. clear lp Hw.
  pose proof Hold as [ro Hro]. pose proof Hex as [rc Hrc]. eapply wp_bind, wp_getNode; [done|]. case_bool_decide as E; [apply wp_ret, HQ; [by eexists|reflexivity]|].
  apply wp_bind.
  assert (Href : wp (if bool_decide (m_next ro = Some c) then field m_next c else mret (m_next ro)) (λ refChild h', h' = h ∧ ∀ x, refChild = Some x → is_Some (h !! x)) h).
  { destruct (bool_decide (m_next ro = Some c)); [eapply wp_field; [done|]|apply wp_ret]; (split; [done|]); intros x Ex; by eapply next_exists, Ex; [apply Hk|]. }
  eapply wp_mono; [done|]. clear Href. intros refChild h0 [-> Hx]. apply wp_bind. eapply wp_collect; [done..| |].
  - intros h1 Hstep. unfold targetsOf. rewrite Hf. rewrite (bool_decide_eq_false_2 (None ≠ None)) by (by intros []).
    pose proof (collectedStep_grows _ _ _ _ Hstep) as Hg. pose proof (collectedStep_inv _ _ _ _ (ex_intro _ k Hk) Hstep) as Hi1.
    pose proof (content_grows _ _ _ Hg Hc) as Hc1. pose proof (plain_grows _ _ _ Hg Hp) as Hp1. pose proof (grows_lookup _ _ _ Hg Hold) as Hold1.
    apply wp_recheck; [done..|by intros e; apply HQ|]. intros k1 lp1 Hk1 Hw1 Hc1'. destruct Hold1 as [ro1 Hro1]. eapply wp_bind, wp_field; [done|].
    unfold orThrow at 1. apply wp_bind. case_bool_decide as E1.
    + unfold orThrow at 1. apply wp_bind, wp_removeChild; [done|by eexists| |].
      * intros h2 ? HS2 _ _. apply wp_ret, wp_ret, HQ; [done|]. transitivity h1; [done|by apply S_grows].
      * intros h2 _ Hrem. pose proof (removedStep_grows _ _ _ _ Hrem) as Hg2. assert (Hi2 : inv h2) by (by destruct Hrem as (?&?&?&?&?&?&?&?&?&?&?&?)).
        assert (Hg02 : grows h h2) by (by transitivity h1).
        (* the check again, then the insertion *)
        destruct Hi2 as [k2 Hk2]. pose proof (plain_grows _ _ _ Hg2 Hp1) as Hp2. pose proof (content_grows _ _ _ Hg2 Hc1) as Hc2. destruct (content_spec _ _ Hc2) as (Hex2 & _ & _).
        destruct (plain_way h2 p (inv_acyclic _ _ Hk2) Hp2) as [lp2 Hw2]. pose proof (grows_lookup _ _ _ Hg02 Hold) as Hold2. cbn [checkAll]. unfold orThrow at 1. apply wp_bind.
        unfold wp at 1, checkPreReplacementValidity. rewrite (checkAcceptChild_run h2 k2 p lp2) by (done || apply Hk2 || naive_solver).
        destruct (validity _ _ _ _ _ _ _) eqn:Ev; [apply wp_ret, wp_ret, HQ; [by eexists|done]|]. apply wp_ret.
        eapply wp_insertOne_any; [done|exact Hg02|done|by eapply validity_content|done| |intros h' ? ?; by apply HQ]. intros x Ex. eapply grows_lookup; [done|auto].
    + apply wp_ret. eapply wp_insertOne_any; [done|exact Hg|done|done|done| |intros h' ? ?; by apply HQ]. intros x Ex. eapply grows_lookup; [done|auto].
  - intros ts q h' _ _ Hi' HS'. rewrite bool_decide_eq_true_2 by done. apply wp_ret, HQ; [done|by apply S_grows].
Qed.

End Scripts.
