(* ===== verification/ContainerNodeTheorems.v ===== *)
(** * What the operations of the DOM promise

    [tree_survives_scripts]: whatever the scripts do that run inside an operation on one
    node, as long as they keep the tree a tree, it fails no assertion and keeps it a
    tree. [tree_operations_exact]: when no script interferes the operations give the
    exceptions and the lists of children of their specification. [fragment_makes_cycle]
    and [document_gets_two_elements] are what a script can do inside the operations these
    leave out. *)

From Stdlib Require Import String.
From S2P Require Import Prelude HTMLStackItem ContainerNode ContainerNodeLists ContainerNodeCorrect ContainerNodeScripts.

#[local] Open Scope list_scope.

Inductive DOMOp :=
  | AppendChild (this newChild : positive) | InsertBefore (this newChild : positive) (refChild : option positive)
  | ReplaceChild (this newChild oldChild : positive) | RemoveChild (this oldChild : positive) | RemoveChildren (this : positive).

Definition performDOM `{Build} `{Script} (op : DOMOp) : M Heap (option Exception) :=
  match op with
  | AppendChild this newChild => appendChild this newChild
  | InsertBefore this newChild refChild => insertBefore this newChild refChild
  | ReplaceChild this newChild oldChild => replaceChild this newChild oldChild
  | RemoveChild this oldChild => removeChild this oldChild
  | RemoveChildren this => removeChildren this;; mret None
  end.

Definition exists_ (h : Heap) (n : positive) : bool := bool_decide (is_Some (h !! n)).

(** The nodes exist and the parent is an element or a fragment. *)
Definition operands (h : Heap) (op : DOMOp) : bool :=
  match op with
  | AppendChild this newChild => plainContainer h this && exists_ h newChild
  | InsertBefore this newChild refChild => plainContainer h this && exists_ h newChild && match refChild with Some x => exists_ h x | None => true end
  | ReplaceChild this newChild oldChild => plainContainer h this && exists_ h newChild && exists_ h oldChild
  | RemoveChild this oldChild => exists_ h this && exists_ h oldChild
  | RemoveChildren this => exists_ h this
  end.

(** The node that is put in is one that elements can have, not a fragment. *)
Definition single (h : Heap) (op : DOMOp) : bool :=
  match op with AppendChild _ c | InsertBefore _ c _ | ReplaceChild _ c _ => contentType h c | _ => true end.

Lemma exists_spec h n : exists_ h n = true ↔ is_Some (h !! n).
Proof. apply bool_decide_eq_true. Qed.

Lemma content_contentType h c : contentType h c = true → content h c.
Proof. unfold contentType, content. destruct (typeOf h c) as [t|]; [|done]. rewrite bool_decide_eq_true. by exists t. Qed.

(** Whatever script does, an operation on one node keeps the tree a tree. *)
Lemma operations_safe `{Build} `{Script} op h :
  (∀ pt h, inv h → inv (runScript pt h) ∧ grows h (runScript pt h)) → inv h → operands h op && single h op = true →
  ∃ e h', performDOM op h = Some (e, h') ∧ inv h' ∧ grows h h'.
Proof.
  intros Hscript Hi Hop. apply (wp_elim _ (λ _ h', inv h' ∧ grows h h')). apply andb_true_iff in Hop as [Hop Hs]. pose proof Hi as [k Hk].
  assert (Hend : ∀ (e : option Exception) h', inv h' → grows h h' → inv h' ∧ grows h h') by done.
  destruct op as [this c|this c ref|this c old|this c|this]; cbn in Hop, Hs; cbn [performDOM]; rewrite ?andb_true_iff, ?exists_spec in Hop.
  - destruct Hop as [Hp Hc]. apply content_contentType in Hs. destruct (plain_way h this (inv_acyclic _ _ Hk) Hp) as [lp Hw].
    unfold appendChild, orThrow. apply wp_bind. unfold wp at 1, ensurePreInsertionValidity. rewrite (checkAcceptChild_run h k this lp) by (done || apply Hk).
    destruct (validity _ _ _ _ _ _ _); [apply wp_ret; split; [done|reflexivity]|]. unfold appendChildWithoutPreInsertionValidityCheck.
    by apply (wp_insertTail grows (λ h h' Hg, Hg) Hscript).
  - destruct Hop as [[Hp Hc] Href]. apply content_contentType in Hs. destruct (plain_way h this (inv_acyclic _ _ Hk) Hp) as [lp Hw].
    assert (Hex : ∀ x, ref = Some x → is_Some (h !! x)) by (intros x ->; by apply exists_spec).
    unfold insertBefore, orThrow at 1. apply wp_bind. unfold wp at 1, ensurePreInsertionValidity. rewrite (checkAcceptChild_run h k this lp) by (done || apply Hk).
    destruct (validity _ _ _ _ _ _ _); [apply wp_ret; split; [done|reflexivity]|]. destruct Hc as [rc Hrc]. apply wp_bind.
    assert (Hnext : wp (if bool_decide (ref = Some c) then field m_next c else mret ref) (λ ref' h', h' = h ∧ ∀ x, ref' = Some x → is_Some (h !! x)) h).
    { destruct (bool_decide (ref = Some c)); [eapply wp_field; [done|]|by apply wp_ret]. split; [done|]. intros x Ex. by eapply next_exists, Ex; [apply Hk|]. }
    eapply wp_mono; [done|]. clear Hnext. intros ref' h0 [-> Hx]. destruct ref' as [x|]; [|unfold appendChildWithoutPreInsertionValidityCheck].
    all: by apply (wp_insertTail grows (λ h h' Hg, Hg) Hscript).
  - destruct Hop as [[Hp Hc] Hold]. apply content_contentType in Hs. by apply (wp_replaceChild grows (λ h h' Hg, Hg) Hscript).
  - destruct Hop as [_ Hc]. apply (wp_removeChild grows (λ h h' Hg, Hg) Hscript); [done..| |].
    + intros h' ? ? _ _. done.
    + intros h' _ Hstep. split; [by destruct Hstep as (?&?&?&?&?&?&?&?&?&?&?&?)|]. by apply (removedStep_grows grows (λ h h' Hg, Hg)) in Hstep.
  - destruct Hop as [r Hr]. unfold removeChildren. apply wp_bind. eapply wp_bind, wp_field; [done|]. case_bool_decide.
    + apply wp_ret, wp_ret. split; [done|reflexivity].
    + apply wp_bind. eapply (wp_removeAllChildren grows (λ h h' Hg, Hg) Hscript); [done|by eexists|]. intros h1 Hstep.
      pose proof Hstep as (?&?&?&?&?&?&?&?&Hi1). apply (clearedStep_grows grows (λ h h' Hg, Hg)) in Hstep as Hg.
      apply (wp_hook grows Hscript); [done|]. intros h' Hi' Hg'. apply wp_ret. split; [done|]. by transitivity h1.
Qed.

(** C15: Appending, inserting and replacing with a node that is no fragment, in a parent that is an element or a fragment, and removing one child or all
    children of any node, run to their end without a
    failed assertion or a null pointer and keep the tree a tree (the pointers of siblings
    and children agree, no node is its own ancestor), whatever the scripts do that run
    inside them, as long as the scripts themselves keep it a tree and destroy no node. With a fragment this is not so
    ([fragment_makes_cycle]). *)
Theorem tree_survives_scripts `{Build} `{Script} op h :
  (∀ pt h, inv h → inv (runScript pt h) ∧ grows h (runScript pt h)) → inv h → operands h op && single h op = true →
  ∃ e h', performDOM op h = Some (e, h') ∧ inv h' ∧ grows h h'.
Proof. apply operations_safe. Qed.

(** ** Without interference *)

Definition quiet : Script := {| runScript := λ _ h, h; connectedSubframeCount := λ _ _, 0%nat |}.

(** The lists of children without some nodes. *)
Definition detach (ts : list positive) (k : Kids) : Kids := λ n, filter (λ c, c ∉ ts) (k n).

(** A list with nodes put in before [next], at the end when it is not there. *)
Fixpoint insertAt (next : option positive) (ts l : list positive) : list positive :=
  match l with
  | [] => ts
  | y :: l' => if bool_decide (next = Some y) then ts ++ l else y :: insertAt next ts l'
  end.

(** What comes after a node in a list. *)
Fixpoint nextIn (c : positive) (l : list positive) : option positive :=
  match l with [] => None | y :: l => if bool_decide (y = c) then head l else nextIn c l end.

Lemma insertAt_split next ts l a b : NoDup l → splitAt next l a b → insertAt next ts l = a ++ ts ++ b.
Proof.
  intros Hnd [-> Hb]. induction a as [|y a IH]; cbn [app insertAt] in *.
  - destruct b as [|y b]; cbn in Hb |- *; subst next; [by rewrite app_nil_r|]. by rewrite bool_decide_eq_true_2.
  - apply NoDup_cons in Hnd as [Hy Hnd]. rewrite bool_decide_eq_false_2; [by rewrite IH|]. intros E. rewrite E in Hb. apply Hy. apply head_Some_elem_of in Hb. set_solver.
Qed.

Lemma nextIn_split c a b : c ∉ a → nextIn c (a ++ c :: b) = head b.
Proof.
  intros Ha. induction a as [|y a IH]; cbn; [by rewrite bool_decide_eq_true_2|]. apply not_elem_of_cons in Ha as [? ?]. rewrite bool_decide_eq_false_2 by done. auto.
Qed.

(** Parents exist, and the pointers determine the lists. *)
Lemma parent_exists h k n c : invk h k → c ∈ k n → is_Some (h !! n).
Proof.
  intros Hk Hc. apply (reps_parent _ _ (inv_reps _ _ Hk)) in Hc as Hp. destruct (parentOf_Some _ _ _ _ (inv_reps _ _ Hk) Hp) as [_ Hex].
  destruct (inv_acyclic _ _ Hk c Hex) as [l Hw]. assert (Hu : up h c = Some n) by (unfold up, parentOf, upOf in *; destruct (h !! c); [cbn in *; by rewrite Hp|done]).
  inversion Hw as [? ? Hu'|? m l' Hu' Hw']; subst; [congruence|]. rewrite Hu in Hu'. injection Hu' as <-. eapply way_dom; [done|]. destruct (way_cons _ _ _ Hw') as [? ->]. apply list_elem_of_here.
Qed.

Lemma kids_unique h k k' n : invk h k → invk h k' → k n = k' n.
Proof.
  intros Hk Hk'. destruct (decide (is_Some (h !! n))) as [Hn|Hn].
  - pose proof (collectChildNodes_run h k n (inv_reps _ _ Hk) Hn) as E. rewrite (collectChildNodes_run h k' n (inv_reps _ _ Hk') Hn) in E. by injection E.
  - assert (Hnil : ∀ k, invk h k → k n = []). { intros k0 Hk0. destruct (k0 n) as [|c l] eqn:E; [done|]. destruct Hn. eapply (parent_exists h k0); [done|]. rewrite E. apply list_elem_of_here. }
    by rewrite !Hnil.
Qed.

Section Quiet.
Context `{Build}.
#[local] Existing Instance quiet.

Lemma quiet_ok : ∀ pt h, inv h → inv (runScript pt h) ∧ h = runScript pt h.
Proof. done. Qed.
Lemma eq_grows (h h' : Heap) : h = h' → grows h h'.
Proof. by intros ->. Qed.

(** The way up is the same after nodes that are not on it got or lost a parent. *)
Lemma way_keeps h k h' k' p lp :
  reps h k → reps h' k' → sameNodes h h' → way h p lp → (∀ n q, n ∈ lp → (n ∈ k' q ↔ n ∈ k q)) → way h' p lp.
Proof.
  intros Hr Hr' Hs Hw Hk. eapply way_frame; [done|]. intros m Hm. split; [|by apply (sameNodes_dom _ _ _ Hs); eapply way_dom].
  apply up_ext; [done|]. eapply parentOf_ext; [done..|]. intros q. by apply Hk.
Qed.

(** Inserting some nodes without a parent. *)
Lemma insertLoop_quiet p next ts lp a b k h (Q : unit → Heap → Prop) :
  invk h k → splitAt next (k p) a b → way h p lp → NoDup ts → (∀ t, t ∈ ts → (t ∉ lp) ∧ parentOf h t = None ∧ content h t) →
  (∀ h', invk h' (kset k p (a ++ ts ++ b)) → sameNodes h h' → Q tt h') → wp (insertLoop p next ts) Q h.
Proof.
  revert a k h. induction ts as [|c ts IH]; intros a k h Hk Hsp Hw Hnd Hts HQ.
  { apply wp_ret, HQ; [|apply sameNodes_refl]. eapply invk_ext; [|done]. intros n. symmetry. apply kset_self. by destruct Hsp. }
  apply NoDup_cons in Hnd as [Hcts Hnd]. destruct (Hts c) as (Hclp & Hcp & Hcc); [apply list_elem_of_here|]. pose proof Hcc as (t & Ht & Hin).
  assert (Hnf : t ≠ DOCUMENT_FRAGMENT_NODE) by (intros ->; by apply (bool_decide_eq_true_2 _) in Hin). destruct (typeOf_Some _ _ _ Ht) as (rc & Hrc & _).
  assert (Hst : stray h next p = false).
  { destruct next as [x|]; [|done]. cbn. apply bool_decide_eq_false. intros Hn. apply Hn. apply (reps_parent _ _ (inv_reps _ _ Hk)). destruct Hsp as [-> Hb].
    apply head_Some_elem_of in Hb. set_solver. }
  cbn [insertLoop]. apply wp_bind. unfold wp at 1. rewrite notAChild_run, Hst.
  2:{ intros x ->. cbn in Hst. apply bool_decide_eq_false, dec_stable in Hst. by eapply parentOf_Some; [apply Hk|]. }
  eapply wp_bind, wp_field; [done|]. rewrite bool_decide_eq_false_2 by (unfold parentOf in Hcp; rewrite Hrc in Hcp; cbn in Hcp; tauto).
  apply wp_bind. eapply (wp_exec eq quiet_ok); [done..|]. intros h1 h1' Hk1 Hs1 <- _.
  assert (Hother : ∀ n q, n ≠ c → n ∈ kset k p (a ++ c :: b) q ↔ n ∈ k q).
  { intros n q Hn. unfold kset. destruct (decide (q = p)) as [-> |]; [|done]. destruct Hsp as [-> _]. rewrite !elem_of_app, elem_of_cons. tauto. }
  apply (IH (a ++ [c]) (kset k p (a ++ c :: b)) h1); [done| | |done| |].
  - rewrite kset_eq. destruct Hsp as [_ Hb]. split; [by rewrite <-app_assoc|done].
  - eapply way_keeps; [apply Hk|apply Hk1|done..|]. intros n q Hn. apply Hother. by intros ->.
  - intros t' Ht'. destruct (Hts t') as (? & Hp' & Hc'); [by apply elem_of_cons; right|]. split_and!; [done| |by eapply content_grows; [apply sameNodes_grows|]].
    rewrite <-Hp'. eapply parentOf_ext; [apply Hk|apply Hk1|]. intros q. apply Hother. by intros ->.
  - intros h' Hk' Hs'. apply HQ; [|by eapply sameNodes_trans]. eapply invk_ext; [|done]. intros n. rewrite kset_kset. by rewrite <-app_assoc.
Qed.

Lemma detach_one h k p a c b n : reps h k → k p = a ++ c :: b → kset k p (a ++ b) n = detach [c] k n.
Proof.
  intros Hr Ek. unfold detach, kset. pose proof (reps_NoDup _ _ Hr p) as Hnd. rewrite Ek in Hnd. destruct (decide (n = p)) as [-> |Hn].
  - rewrite Ek, filter_app, filter_cons_False by (rewrite list_elem_of_singleton; tauto). apply NoDup_app in Hnd as (_ & Hab & [Hb _]%NoDup_cons).
    rewrite !list_filter_all; [done| |]; intros x Hx; rewrite list_elem_of_singleton; intros ->; [done|]. apply (Hab c Hx). apply list_elem_of_here.
  - symmetry. apply list_filter_all. intros x Hx. rewrite list_elem_of_singleton. intros ->. apply (reps_parent _ _ Hr) in Hx.
    assert (Hp : parentOf h c = Some p) by (apply (reps_parent _ _ Hr); rewrite Ek; apply elem_of_app; right; apply list_elem_of_here). congruence.
Qed.

Lemma detach_all h k c n : reps h k → kset k c [] n = detach (k c) k n.
Proof.
  intros Hr. unfold detach, kset. destruct (decide (n = c)) as [-> |Hn].
  - symmetry. apply list_filter_none. auto.
  - symmetry. apply list_filter_all. intros x Hx Hx'. apply (reps_parent _ _ Hr) in Hx, Hx'. congruence.
Qed.

Lemma detach_nil k n : detach [] k n = k n.
Proof. apply list_filter_all. intros x _. apply not_elem_of_nil. Qed.

Lemma detach_elem ts k n c : c ∈ detach ts k n ↔ (c ∉ ts) ∧ c ∈ k n.
Proof. unfold detach. by rewrite list_elem_of_filter. Qed.

Lemma detach_detach ts ts' k n : detach ts (detach ts' k) n = detach (ts ++ ts') k n.
Proof. unfold detach. rewrite list_filter_filter. apply list_filter_iff. intros x. rewrite elem_of_app. tauto. Qed.

(** Taking the nodes to insert from where they were. *)
Lemma collect_quiet c k h (Q : list positive * option Exception → Heap → Prop) :
  invk h k → is_Some (h !! c) →
  (∀ h', invk h' (detach (targetsOf h k c) k) → sameNodes h h' → Q (targetsOf h k c, None) h') → wp (collectChildrenAndRemoveFromOldParent c) Q h.
Proof.
  intros Hk Hc HQ. apply (wp_collect eq eq_grows quiet_ok c k); [done..| |].
  - intros h' Hstep. unfold targetsOf in *. destruct Hstep as [[Hf [[Hp ->]|(q & Hp & Hrem)]]|[Hf [[Hn ->]|[_ Hclear]]]]; rewrite Hf in *.
    + apply HQ; [|apply sameNodes_refl]. eapply invk_ext; [|done]. intros n. symmetry. apply list_filter_all. intros x Hx. rewrite list_elem_of_singleton. intros ->.
      apply (reps_parent _ _ (inv_reps _ _ Hk)) in Hx. congruence.
    + destruct Hrem as (h2 & k2 & a & b & h3 & <- & Hk2 & Ek & Hk3 & Hs & <- & _). apply HQ; [|done]. eapply invk_ext; [|done]. intros n.
      rewrite (detach_one h k2 q a c b) by (done || apply Hk2). unfold detach. by rewrite (kids_unique h k k2 n).
    + rewrite Hn in *. apply HQ; [|apply sameNodes_refl]. eapply invk_ext; [|done]. intros n. symmetry. apply detach_nil.
    + destruct Hclear as (h2 & k2 & h3 & <- & Hk2 & Hk3 & Hs & <- & _). apply HQ; [|done]. eapply invk_ext; [|done]. intros n.
      rewrite (detach_all h k2) by apply Hk2. unfold detach. by rewrite (kids_unique h k k2 n), (kids_unique h k k2 c).
  - intros ts q h' Hp Hp' _ <-. done.
Qed.

Lemma way_closed h n l t m : way h n l → t ∈ l → up h t = Some m → m ∈ l.
Proof.
  intros Hw Ht Hu. apply list_elem_of_split in Ht as (a & b & ->). apply way_suffix in Hw. inversion Hw as [|? m' l' Hu' Hw']; subst; [congruence|].
  rewrite Hu in Hu'. injection Hu' as <-. destruct (way_cons _ _ _ Hw') as [? ->]. set_solver.
Qed.

(** The nodes to insert, once they are taken out. *)
Lemma targets_ready h k p lp c h1 :
  invk h k → way h p lp → c ∉ lp → is_Some (h !! c) → forallb (contentType h) (targetsOf h k c) = true →
  invk h1 (detach (targetsOf h k c) k) → sameNodes h h1 →
  way h1 p lp ∧ NoDup (targetsOf h k c) ∧ ∀ t, t ∈ targetsOf h k c → (t ∉ lp) ∧ parentOf h1 t = None ∧ content h1 t.
Proof.
  intros Hk Hw Hc Hex Ha Hk1 Hs1.
  assert (Hlp : ∀ t, t ∈ targetsOf h k c → t ∉ lp).
  { intros t Ht Htlp. unfold targetsOf in Ht. destruct (isFragment h c); [|by apply list_elem_of_singleton in Ht as ->]. apply Hc. eapply way_closed; [done..|].
    apply (reps_parent _ _ (inv_reps _ _ Hk)) in Ht. unfold up, parentOf, upOf in *. destruct (h !! t); [|done]. cbn in *. by rewrite Ht. }
  split_and!.
  - eapply way_keeps; [apply Hk|apply Hk1|done..|]. intros n q Hn. rewrite detach_elem. split; [tauto|]. intros ?. split; [|done]. intros Hin. by apply (Hlp n).
  - unfold targetsOf. destruct (isFragment h c); [apply (reps_NoDup _ _ (inv_reps _ _ Hk))|apply NoDup_singleton].
  - intros t Ht. split_and!; [auto| |].
    + destruct (parentOf h1 t) as [q|] eqn:E; [|done]. apply (reps_parent _ _ (inv_reps _ _ Hk1)) in E. by apply detach_elem in E as [? _].
    + eapply content_grows; [by apply sameNodes_grows|]. apply content_contentType. rewrite forallb_forall in Ha. by apply Ha, list_elem_of_In.
Qed.

Lemma checkAll_run (check : positive → M Heap (option Exception)) ts h : (∀ t, t ∈ ts → check t h = Some (None, h)) → checkAll check ts h = Some (None, h).
Proof.
  intros Hc. induction ts as [|t ts IH]; [done|]. cbn [checkAll]. unfold orThrow, mbind, M_bind. rewrite Hc by apply list_elem_of_here. apply IH.
  intros t' Ht'. apply Hc. by apply elem_of_cons; right.
Qed.

Lemma validity_targets h k p lp t ref : (t ∉ lp) → content h t → validity h k p lp t ref Replace = None.
Proof. intros Ht (_ & _ & Ha)%content_spec. unfold validity. rewrite bool_decide_eq_false_2 by done. cbn. by rewrite Ha. Qed.

Lemma validity_None h k p lp c ref operation :
  validity h k p lp c ref operation = None →
  (c ∉ lp) ∧ forallb (contentType h) (targetsOf h k c) = true ∧ (operation = InsertOrAdd → stray h ref p = false).
Proof.
  unfold validity. case_bool_decide as E1; [done|]. destruct (bool_decide (operation = InsertOrAdd) && stray h ref p) eqn:E2; [done|]. destruct (forallb _ _); [|done].
  intros _. split_and!; [done..|]. intros ->. by rewrite bool_decide_eq_true_2 in E2.
Qed.

(** The lists with nodes moved into [p] before [next], and some taken out. *)
Definition placed (p : positive) (next : option positive) (ts gone : list positive) (k : Kids) : Kids :=
  kset (detach (gone ++ ts) k) p (insertAt next ts (detach (gone ++ ts) k p)).

(** The insertion into a tree that no longer has the nodes. *)
Lemma insert_quiet p next ts gone lp k k1 h (Q : option Exception → Heap → Prop) :
  invk h k1 → (∀ n, k1 n = detach (gone ++ ts) k n) → way h p lp → NoDup ts → (∀ t, t ∈ ts → (t ∉ lp) ∧ parentOf h t = None ∧ content h t) →
  (∀ x, next = Some x → x ∈ k1 p) → (∀ h', invk h' (placed p next ts gone k) → sameNodes h h' → Q None h') →
  wp (insertLoop p next ts;; hook (SubtreeModified p);; mret None) Q h.
Proof.
  intros Hk1 Ek1 Hw Hnd Hts Hnext HQ. assert (Hsp : ∃ a b, splitAt next (k1 p) a b).
  { destruct next as [x|]; [|exists (k1 p), []; split; [by rewrite app_nil_r|done]]. destruct (list_elem_of_split _ _ (Hnext x eq_refl)) as (a & b & E). by exists a, (x :: b). }
  destruct Hsp as (a & b & Hsp). apply wp_bind. eapply insertLoop_quiet; [done..|]. intros h' Hk' Hs'. apply wp_bind, wp_modify, wp_ret. apply HQ; [|done].
  eapply invk_ext; [|done]. intros n. unfold placed. rewrite <-Ek1. rewrite (insertAt_split next ts (k1 p) a b) by (done || apply (reps_NoDup _ _ (inv_reps _ _ Hk1))).
  unfold kset. by destruct (decide (n = p)).
Qed.

(** The rest of an insertion. *)
Lemma insertTail_quiet p next c lp k h (Q : option Exception → Heap → Prop) :
  invk h k → plainContainer h p = true → way h p lp → c ∉ lp → is_Some (h !! c) → forallb (contentType h) (targetsOf h k c) = true →
  (∀ x, next = Some x → x ∈ k p ∧ x ∉ targetsOf h k c) →
  (∀ h', invk h' (placed p next (targetsOf h k c) [] k) → sameNodes h h' → Q None h') →
  wp ('(targets, e) ← collectChildrenAndRemoveFromOldParent c;
      if bool_decide (e ≠ None) then mret e
      else if bool_decide (targets = []) then mret None
      else orThrow (checkAll (checkAcceptChildGuaranteedNodeTypes p) targets) (insertLoop p next targets;; hook (SubtreeModified p);; mret None)) Q h.
Proof.
  intros Hk Hp Hw Hc Hex Ha Hnext HQ. apply wp_bind. eapply collect_quiet; [done..|]. intros h1 Hk1 Hs1. rewrite (bool_decide_eq_false_2 (None ≠ None)) by (by intros []).
  destruct (targets_ready h k p lp c h1) as (Hw1 & Hnd & Hts); [done..|]. case_bool_decide as E.
  - apply wp_ret, HQ; [|done]. eapply invk_ext; [|done]. intros n. unfold placed. rewrite E. cbn [app]. symmetry. apply kset_self. clear.
    induction (detach [] k p) as [|x l IH]; cbn; [done|]. case_bool_decide; [done|]. by f_equal.
  - unfold orThrow. apply wp_bind. unfold wp at 1. rewrite checkAll_run.
    + apply (insert_quiet p next (targetsOf h k c) [] lp k (detach (targetsOf h k c) k)); [done..| |].
      * intros x Ex. destruct (Hnext x Ex). by apply detach_elem.
      * intros h' Hk' Hs'. apply HQ; [done|by eapply sameNodes_trans].
    + intros t Ht. destruct (Hts t Ht) as (Htlp & _ & Hct). destruct (content_spec _ _ Hct) as (Hext & _ & Hat).
      rewrite (checkGuaranteed_run h1 (detach (targetsOf h k c) k) p lp); [by rewrite bool_decide_eq_false_2|apply Hk1| |done..|auto].
      eapply plain_grows; [by apply sameNodes_grows|done].
Qed.

Lemma way_here h p lp : way h p lp → p ∈ lp.
Proof. intros Hw. destruct (way_cons _ _ _ Hw) as [? ->]. apply list_elem_of_here. Qed.

(** The other children of [p] are not among the nodes to insert. *)
Lemma sibling_not_target h k p lp c x : invk h k → way h p lp → c ∉ lp → x ∈ k p → x ≠ c → x ∉ targetsOf h k c.
Proof.
  intros Hk Hw Hc Hx Hne. unfold targetsOf. destruct (isFragment h c); [|by rewrite list_elem_of_singleton]. intros Hx'.
  apply (reps_parent _ _ (inv_reps _ _ Hk)) in Hx, Hx'. apply Hc. replace c with p by congruence. by eapply way_here.
Qed.

Lemma child_not_above h k p lp c : invk h k → c ∈ k p → way h p lp → c ∉ lp.
Proof.
  intros Hk Hc Hw Hin. apply list_elem_of_split in Hin as (a & b & ->). pose proof (way_suffix _ _ _ _ _ Hw) as Hw'.
  assert (Hu : up h c = Some p) by (apply (reps_parent _ _ (inv_reps _ _ Hk)) in Hc; unfold up, parentOf, upOf in *; destruct (h !! c); [cbn in *; by rewrite Hc|done]).
  pose proof (way_unique _ _ _ _ Hw' (way_step _ _ _ _ Hu Hw)) as E. injection E as E. apply (f_equal length) in E. rewrite length_app in E. cbn in E. lia.
Qed.

Lemma nextIn_spec h k p c r : reps h k → c ∈ k p → h !! c = Some r → m_next r = nextIn c (k p) ∧ ∀ x, m_next r = Some x → x ∈ k p ∧ x ≠ c.
Proof.
  intros Hr Hc Hrc. apply list_elem_of_split in Hc as (a & b & Ek). destruct (reps_child _ _ _ _ _ _ Hr Ek) as (r' & Hr' & _ & _ & Hn). simplify_eq.
  pose proof (reps_NoDup _ _ Hr p) as Hnd. rewrite Ek in Hnd |- *. apply NoDup_app in Hnd as (_ & Hab & [Hb _]%NoDup_cons). rewrite nextIn_split.
  - split; [done|]. intros x Hx. rewrite Hn in Hx. apply head_Some_elem_of in Hx. split; [set_solver|by intros ->].
  - intros Hca. apply (Hab c Hca). apply list_elem_of_here.
Qed.

Lemma next_not_previous h k p x y rx ry : reps h k → x ∈ k p → h !! x = Some rx → h !! y = Some ry → m_next rx = Some y → m_next ry = Some x → False.
Proof.
  intros Hr Hx Hrx Hry Ex Ey. apply list_elem_of_split in Hx as (a & b & Ek). destruct (reps_child _ _ _ _ _ _ Hr Ek) as (r & ? & _ & _ & Hn). simplify_eq.
  rewrite Ex in Hn. symmetry in Hn. apply head_Some in Hn as [b' ->]. assert (Ek' : k p = (a ++ [x]) ++ y :: b') by (by rewrite <-app_assoc).
  destruct (reps_child _ _ _ _ _ _ Hr Ek') as (r' & ? & _ & _ & Hn'). simplify_eq. rewrite Ey in Hn'. symmetry in Hn'. apply head_Some_elem_of in Hn'.
  pose proof (reps_NoDup _ _ Hr p) as Hnd. rewrite Ek in Hnd. apply NoDup_app in Hnd as (_ & _ & [Hnd _]%NoDup_cons). apply Hnd. set_solver.
Qed.

(** Taking one more node out. *)
Lemma removeChild_quiet p c k h (Q : option Exception → Heap → Prop) :
  invk h k → c ∈ k p → (∀ h', invk h' (detach [c] k) → sameNodes h h' → Q None h') → wp (removeChild p c) Q h.
Proof.
  intros Hk Hc HQ. apply (wp_removeChild eq eq_grows quiet_ok); [by eexists|by eapply kids_exist; [apply Hk|]| |].
  - intros h' _ <- Hn _. apply (reps_parent _ _ (inv_reps _ _ Hk)) in Hc. done.
  - intros h' _ (h2 & k2 & a & b & h3 & <- & Hk2 & Ek & Hk3 & Hs & <- & _). apply HQ; [|done]. eapply invk_ext; [|done]. intros n.
    rewrite (detach_one h k2 p a c b) by (done || apply Hk2). unfold detach. by rewrite (kids_unique h k k2 n).
Qed.

(** Where a replacement puts the new nodes. *)
Definition replaceNext (c old : positive) (l : list positive) : option positive :=
  if bool_decide (nextIn old l = Some c) then nextIn c l else nextIn old l.

Lemma recheck_quiet p ts old k h lp : invk h k → plainContainer h p = true → way h p lp → is_Some (h !! old) → (∀ t, t ∈ ts → (t ∉ lp) ∧ content h t) →
  checkAll (λ child, checkPreReplacementValidity p child old) ts h = Some (None, h).
Proof.
  intros Hk Hp Hw Hold Hts. apply checkAll_run. intros t Ht. destruct (Hts t Ht) as [Htlp Hct]. destruct (content_spec _ _ Hct) as (Hex & _ & _).
  unfold checkPreReplacementValidity. rewrite (checkAcceptChild_run h k p lp) by (done || apply Hk || naive_solver). by rewrite validity_targets.
Qed.

Lemma replaceTail_quiet p c old next lp k h (Q : option Exception → Heap → Prop) :
  invk h k → plainContainer h p = true → way h p lp → c ∉ lp → is_Some (h !! c) → forallb (contentType h) (targetsOf h k c) = true → old ∈ k p →
  (∀ x, next = Some x → x ∈ k p ∧ x ≠ c ∧ x ≠ old) →
  (∀ h', invk h' (placed p next (targetsOf h k c) [old] k) → sameNodes h h' → Q None h') →
  wp ('(targets, e) ← collectChildrenAndRemoveFromOldParent c;
       if bool_decide (e ≠ None) then mret e
       else
         orThrow (checkAll (λ child, checkPreReplacementValidity p child old) targets)
           (parent ← field m_parentNode old;
            orThrow
              (if bool_decide (parent ≠ None) then
                 orThrow (removeChild p old) (checkAll (λ child, checkPreReplacementValidity p child old) targets)
               else mret None)
              (insertLoop p next targets;; hook (SubtreeModified p);; mret None))) Q h.
Proof.
  intros Hk Hp Hw Hc Hex Ha Hold Hnext HQ. apply wp_bind. eapply collect_quiet; [done..|]. intros h1 Hk1 Hs1. rewrite (bool_decide_eq_false_2 (None ≠ None)) by (by intros []).
  destruct (targets_ready h k p lp c h1) as (Hw1 & Hnd & Hts); [done..|]. pose proof (plain_grows _ _ _ (sameNodes_grows _ _ Hs1) Hp) as Hp1.
  assert (Hold1 : is_Some (h1 !! old)) by (apply (sameNodes_dom _ _ _ Hs1); by eapply kids_exist; [apply Hk|]).
  unfold orThrow at 1. apply wp_bind. unfold wp at 1. rewrite (recheck_quiet p _ old (detach (targetsOf h k c) k) h1 lp) by (done || naive_solver).
  destruct Hold1 as [ro Hro]. eapply wp_bind, wp_field; [done|]. assert (Epar : m_parentNode ro = parentOf h1 old) by (unfold parentOf; by rewrite Hro). rewrite Epar.
  destruct (decide (old = c)) as [-> |Hne].
  - (* the node replaces itself *)
    assert (Ets : targetsOf h k c = [c]).
    { unfold targetsOf. destruct (isFragment h c) eqn:Ef; [|done]. unfold isFragment in Ef. apply bool_decide_eq_true, typeOf_Some in Ef as (r & Hr & Et).
      destruct (inv_typed _ _ Hk c r Hr) as [_ Hpn]. apply (reps_parent _ _ (inv_reps _ _ Hk)) in Hold. unfold parentOf in Hold. rewrite Hr in Hold. cbn in Hold. rewrite Hpn in Hold; done. }
    rewrite Ets in *. destruct (Hts c) as (_ & Hpc & _); [apply list_elem_of_here|]. rewrite Hpc. unfold orThrow. apply wp_bind, wp_ret.
    apply (insert_quiet p next [c] [c] lp k (detach [c] k)); [done| |done..| |].
    + intros n. apply list_filter_iff. intros x. cbn. rewrite !elem_of_cons. tauto.
    + intros x Ex. destruct (Hnext x Ex) as (? & ? & _). apply detach_elem. by rewrite list_elem_of_singleton.
    + intros h' Hk' Hs'. apply HQ; [done|by eapply sameNodes_trans].
  - pose proof (sibling_not_target h k p lp c old Hk Hw Hc Hold Hne) as Hnt. assert (Hin1 : old ∈ detach (targetsOf h k c) k p) by (by apply detach_elem).
    rewrite (proj1 (reps_parent _ _ (inv_reps _ _ Hk1) p old) Hin1). unfold orThrow at 1. apply wp_bind. unfold orThrow at 1. apply wp_bind.
    eapply removeChild_quiet; [done..|]. intros h2 Hk2 Hs2. pose proof (child_not_above _ _ _ _ _ Hk1 Hin1 Hw1) as Holp.
    assert (Hother : ∀ n q, n ≠ old → n ∈ detach [old] (detach (targetsOf h k c) k) q ↔ n ∈ detach (targetsOf h k c) k q) by (intros n q Hn; rewrite detach_elem, list_elem_of_singleton; tauto).
    assert (Hw2 : way h2 p lp) by (eapply way_keeps; [apply Hk1|apply Hk2|done..|]; intros n q Hn; apply Hother; by intros ->).
    assert (Hts2 : ∀ t, t ∈ targetsOf h k c → (t ∉ lp) ∧ parentOf h2 t = None ∧ content h2 t).
    { intros t Ht. destruct (Hts t Ht) as (? & Hpt & Hct). split_and!; [done| |by eapply content_grows; [by apply sameNodes_grows|]].
      rewrite <-Hpt. eapply parentOf_ext; [apply Hk1|apply Hk2|]. intros q. apply Hother. by intros ->. }
    unfold wp at 1. rewrite (recheck_quiet p _ old (detach [old] (detach (targetsOf h k c) k)) h2 lp); [|done| |done| |naive_solver].
    + apply (insert_quiet p next (targetsOf h k c) [old] lp k (detach [old] (detach (targetsOf h k c) k))); [done|intros n; apply detach_detach|done..| |].
      * intros x Ex. destruct (Hnext x Ex) as (Hxp & Hxc & Hxo). apply detach_elem. split; [by rewrite list_elem_of_singleton|]. apply detach_elem. split; [by eapply sibling_not_target|done].
      * intros h' Hk' Hs'. apply HQ; [done|]. eapply sameNodes_trans; [done|]. by eapply sameNodes_trans.
    + eapply plain_grows; [by apply sameNodes_grows|done].
    + apply (sameNodes_dom _ _ _ Hs2). by eexists.
Qed.

Definition thisOf (op : DOMOp) : positive :=
  match op with AppendChild p _ | InsertBefore p _ _ | ReplaceChild p _ _ | RemoveChild p _ | RemoveChildren p => p end.

(** The exception and the lists of children after an operation; [lp] is the way up from
    its node. *)
Definition specDOM (h : Heap) (k : Kids) (lp : list positive) (op : DOMOp) : option Exception * Kids :=
  match op with
  | AppendChild p c =>
      match validity h k p lp c None InsertOrAdd with Some e => (Some e, k) | None => (None, placed p None (targetsOf h k c) [] k) end
  | InsertBefore p c ref =>
      match validity h k p lp c ref InsertOrAdd with
      | Some e => (Some e, k)
      | None => (None, placed p (if bool_decide (ref = Some c) then nextIn c (k p) else ref) (targetsOf h k c) [] k)
      end
  | ReplaceChild p c old =>
      match validity h k p lp c (Some old) Replace with
      | Some e => (Some e, k)
      | None => if bool_decide (old ∈ k p) then (None, placed p (replaceNext c old (k p)) (targetsOf h k c) [old] k) else (Some NotFoundError, k)
      end
  | RemoveChild p c => if bool_decide (c ∈ k p) then (None, detach [c] k) else (Some NotFoundError, k)
  | RemoveChildren p => (None, kset k p [])
  end.

Definition finished (h : Heap) (r : option Exception * Kids) (e : option Exception) (h' : Heap) : Prop := e = r.1 ∧ invk h' r.2 ∧ sameNodes h h'.

Lemma finished_same h k e : invk h k → finished h (e, k) e h.
Proof. intros Hk. split_and!; [done..|apply sameNodes_refl]. Qed.

Lemma append_quiet p c lp k h : invk h k → plainContainer h p = true → is_Some (h !! c) → way h p lp →
  wp (appendChild p c) (finished h (specDOM h k lp (AppendChild p c))) h.
Proof.
  intros Hk Hp Hc Hw. unfold appendChild, orThrow. apply wp_bind. unfold wp at 1, ensurePreInsertionValidity. rewrite (checkAcceptChild_run h k p lp) by (done || apply Hk).
  cbn [specDOM]. destruct (validity _ _ _ _ _ _ _) eqn:Ev; [apply wp_ret; by apply finished_same|]. apply validity_None in Ev as (? & ? & _).
  unfold appendChildWithoutPreInsertionValidityCheck. eapply insertTail_quiet; [done..|]. by intros h' ? ?.
Qed.

Lemma insertBefore_quiet p c ref lp k h : invk h k → plainContainer h p = true → is_Some (h !! c) → (∀ x, ref = Some x → is_Some (h !! x)) → way h p lp →
  wp (insertBefore p c ref) (finished h (specDOM h k lp (InsertBefore p c ref))) h.
Proof.
  intros Hk Hp Hc Hx Hw. unfold insertBefore, orThrow at 1. apply wp_bind. unfold wp at 1, ensurePreInsertionValidity. rewrite (checkAcceptChild_run h k p lp) by (done || apply Hk).
  cbn [specDOM]. destruct (validity _ _ _ _ _ _ _) eqn:Ev; [apply wp_ret; by apply finished_same|]. apply validity_None in Ev as (Hclp & Ha & Hst). specialize (Hst eq_refl).
  pose proof Hc as [rc Hrc]. apply wp_bind. set (next := if bool_decide (ref = Some c) then nextIn c (k p) else ref).
  assert (Hmem : ∀ x, ref = Some x → x ∈ k p) by (intros x ->; cbn in Hst; apply bool_decide_eq_false, dec_stable in Hst; by apply (reps_parent _ _ (inv_reps _ _ Hk))).
  assert (Hnext : (∀ x, next = Some x → x ∈ k p ∧ x ∉ targetsOf h k c) ∧ wp (if bool_decide (ref = Some c) then field m_next c else mret ref) (λ r h', r = next ∧ h' = h) h).
  { unfold next. case_bool_decide as E.
    - destruct (nextIn_spec h k p c rc (inv_reps _ _ Hk) (Hmem c E) Hrc) as [<- Hn]. split; [|by eapply wp_field]. intros x Hxn. destruct (Hn x Hxn). split; [done|]. by eapply sibling_not_target.
    - split; [|by apply wp_ret]. intros x Ex. split; [auto|]. eapply sibling_not_target; [done..|auto|congruence]. }
  destruct Hnext as [Hn Hr]. eapply wp_mono; [done|]. intros next' h' [-> ->]. clearbody next.
  destruct next as [x|]; [|unfold appendChildWithoutPreInsertionValidityCheck]; (eapply insertTail_quiet; [done..|]; by intros h' ? ?).
Qed.

Lemma replaceChild_quiet p c old lp k h : invk h k → plainContainer h p = true → is_Some (h !! c) → is_Some (h !! old) → way h p lp →
  wp (replaceChild p c old) (finished h (specDOM h k lp (ReplaceChild p c old))) h.
Proof.
  intros Hk Hp Hc Hold Hw. unfold replaceChild, orThrow at 1. apply wp_bind. unfold wp at 1, checkPreReplacementValidity at 1.
  rewrite (checkAcceptChild_run h k p lp) by (done || apply Hk || naive_solver). cbn [specDOM].
  destruct (validity _ _ _ _ _ _ _) eqn:Ev; [apply wp_ret; by apply finished_same|]. apply validity_None in Ev as (Hclp & Ha & _).
  pose proof Hc as [rc Hrc]. pose proof Hold as [ro Hro]. eapply wp_bind, wp_getNode; [done|].
  assert (Hin : old ∈ k p ↔ m_parentNode ro = Some p) by (rewrite (reps_parent _ _ (inv_reps _ _ Hk)); unfold parentOf; by rewrite Hro).
  destruct (decide (old ∈ k p)) as [Hop|Hop].
  - rewrite (bool_decide_eq_false_2 (m_parentNode ro ≠ Some p)) by tauto. rewrite (bool_decide_eq_true_2 (old ∈ k p)) by done.
    destruct (nextIn_spec h k p old ro (inv_reps _ _ Hk) Hop Hro) as [En Hn]. unfold replaceNext. rewrite <-En. apply wp_bind.
    assert (Href : (∀ x, (if bool_decide (m_next ro = Some c) then nextIn c (k p) else m_next ro) = Some x → x ∈ k p ∧ x ≠ c ∧ x ≠ old) ∧
      wp (if bool_decide (m_next ro = Some c) then field m_next c else mret (m_next ro)) (λ r h', r = (if bool_decide (m_next ro = Some c) then nextIn c (k p) else m_next ro) ∧ h' = h) h).
    { case_bool_decide as E.
      - destruct (Hn c E) as [Hcp Hco]. destruct (nextIn_spec h k p c rc (inv_reps _ _ Hk) Hcp Hrc) as [Ec Hn']. rewrite <-Ec. split; [|by eapply wp_field].
        intros x Hx. destruct (Hn' x Hx). split_and!; [done..|]. intros ->. by eapply (next_not_previous h k p old c ro rc (inv_reps _ _ Hk)).
      - split; [|by apply wp_ret]. intros x Hx. destruct (Hn x Hx). split_and!; [done|congruence|done]. }
    destruct Href as [Hm Hr]. eapply wp_mono; [done|]. intros next h' [-> ->]. eapply replaceTail_quiet; [done..|]. by intros h' ? ?.
  - rewrite (bool_decide_eq_true_2 (m_parentNode ro ≠ Some p)) by tauto. rewrite (bool_decide_eq_false_2 (old ∈ k p)) by done. apply wp_ret. by apply finished_same.
Qed.

(** C16: When no script interferes, appending, inserting and replacing in a parent that is an element or a fragment, and removing one child or all children of any node, throw the
    exceptions and leave the lists of children of their specification, for a node and for
    a fragment, whose children are moved in order. Documents as parents are not covered. *)
Theorem tree_operations_exact op h k lp :
  invk h k → operands h op = true → way h (thisOf op) lp →
  ∃ h', performDOM op h = Some ((specDOM h k lp op).1, h') ∧ invk h' (specDOM h k lp op).2 ∧ sameNodes h h'.
Proof.
  intros Hk Hop Hw. enough (Hok : wp (performDOM op) (finished h (specDOM h k lp op)) h) by (apply wp_elim in Hok as (e & h' & ? & -> & ?); eauto).
  destruct op as [p c|p c ref|p c old|p c|p]; cbn in Hop, Hw; cbn [performDOM]; rewrite ?andb_true_iff, ?exists_spec in Hop.
  - destruct Hop. by apply append_quiet.
  - destruct Hop as [[? ?] Href]. apply insertBefore_quiet; [done..| |done]. intros x ->. by apply exists_spec.
  - destruct Hop as [[? ?] ?]. by apply replaceChild_quiet.
  - destruct Hop as [_ Hc]. cbn [specDOM]. case_bool_decide as Hin; [eapply removeChild_quiet; [done..|]; by intros h' ? ?|].
    apply (wp_removeChild eq eq_grows quiet_ok); [by eexists|done| |].
    + intros h' _ <- _ _. by apply finished_same.
    + intros h' Hp _. destruct Hin. by apply (reps_parent _ _ (inv_reps _ _ Hk)).
  - destruct Hop as [r Hr]. cbn [specDOM]. unfold removeChildren. apply wp_bind. eapply wp_bind, wp_field; [done|]. rewrite (ok_first _ _ _ (reps_ok _ _ (inv_reps _ _ Hk) p r Hr)).
    case_bool_decide as E.
    + apply head_None in E. apply wp_ret, wp_ret. split_and!; [done| |apply sameNodes_refl]. eapply invk_ext; [|done]. intros n. symmetry. by apply kset_self.
    + apply wp_bind. eapply (wp_removeAllChildren eq eq_grows quiet_ok); [done|by eexists|]. intros h1 (h2 & k2 & h3 & <- & Hk2 & Hk3 & Hs & <- & _).
      apply wp_modify, wp_ret. split_and!; [done| |done]. apply (invk_ext _ (kset k2 p [])); [|done]. intros n. cbn. unfold kset. destruct (decide (n = p)); [done|]. by apply (kids_unique h).
Qed.

End Quiet.

(** ** Scripts that use the DOM *)

(** What a script does that calls an operation, when it may. *)
Definition act `{Build} (op : DOMOp) (h : Heap) : Heap :=
  if operands h op && single h op then match @performDOM _ quiet op h with Some (_, h') => h' | None => h end else h.

Lemma act_ok `{Build} op h : inv h → inv (act op h) ∧ grows h (act op h).
Proof.
  intros Hi. unfold act. destruct (operands h op && single h op) eqn:E; [|done].
  destruct (@operations_safe _ quiet op h) as (e & h' & -> & ? & ?); [done..|]. done.
Qed.

(** Nodes that were just created. *)
Definition created (nodes : list (positive * NodeType)) : Heap := list_to_map ((λ '(n, t), (n, newNode t None None)) <$> nodes).

Lemma created_inv nodes : inv (created nodes).
Proof.
  assert (Hn : ∀ n r, created nodes !! n = Some r → ∃ t, r = newNode t None None).
  { intros n r Hr. unfold created in Hr. apply elem_of_list_to_map_2, list_elem_of_fmap in Hr as ([m t] & E & _). injection E as -> ->. by exists t. }
  assert (Hup : ∀ n, parentOf (created nodes) n = None ∧ up (created nodes) n = None).
  { intros n. unfold parentOf, up. destruct (created nodes !! n) as [r|] eqn:E; [|done]. by destruct (Hn n r E) as [t ->]. }
  exists (λ _, []). split.
  - constructor; [|intros n c|intros n; apply NoDup_nil_2].
    + intros n r Hr. destruct (Hn n r Hr) as [t ->]. done.
    + destruct (Hup c) as [-> _]. split; [by intros ?%elem_of_nil|done].
  - intros n He. exists [n]. apply way_root; [done|]. by destruct (Hup n).
  - intros n r Hr. destruct (Hn n r Hr) as [t ->]. done.
Qed.

(** Elements 1 and 3 to 6, a fragment 2 with the children 3 and 4, a document 7, and 5 with the child 6. *)
Definition exampleTree `{Build} : Heap :=
  foldr act (created [(1, ELEMENT_NODE); (2, DOCUMENT_FRAGMENT_NODE); (3, ELEMENT_NODE); (4, ELEMENT_NODE); (5, ELEMENT_NODE); (6, ELEMENT_NODE); (7, DOCUMENT_NODE)]%positive)
    [AppendChild 5 6; AppendChild 2 4; AppendChild 2 3]%positive.

Lemma exampleTree_inv `{Build} : inv exampleTree.
Proof. unfold exampleTree. cbn [foldr]. repeat apply act_ok. apply created_inv. Qed.

(** A listener that moves the container into a node that is still to be inserted. *)
Definition movingScript `{Build} : Script := {| runScript pt h := match pt with InsertionEvents 3 => act (AppendChild 4 1) h | _ => h end; connectedSubframeCount := λ _ _, 0%nat |}%positive.

(** A listener that gives the document an element. *)
Definition documentScript `{Build} : Script :=
  {| runScript pt h := match pt with RemovalEvents 6 => match @performDOM _ quiet (AppendChild 7 1) h with Some (_, h') => h' | None => h end | _ => h end; connectedSubframeCount := λ _ _, 0%nat |}%positive.

(** C35: A script that only calls the DOM can make a node its own ancestor: when the children
    of a fragment are appended and the first one is inserted, a listener appends the
    container to the second one, which has no parent then; the check against cycles was
    made before, and the second one is appended to the container. *)
Theorem fragment_makes_cycle `{Build} :
  (∀ pt h, inv h → inv (@runScript movingScript pt h) ∧ grows h (@runScript movingScript pt h)) ∧
  inv exampleTree ∧ operands exampleTree (AppendChild 1 2) = true ∧
  ∃ h', @appendChild _ movingScript 1 2 exampleTree = Some (None, h') ∧ parentOf h' 1 = Some 4%positive ∧ parentOf h' 4 = Some 1%positive ∧ ¬ inv h'.
Proof.
  assert (Hno : ∀ h', parentOf h' 1 = Some 4%positive → parentOf h' 4 = Some 1%positive → ¬ inv h').
  { intros h' H1 H4 [k Hk]. pose proof (proj2 (reps_parent _ _ (inv_reps _ _ Hk) 4 1) H1) as Hin. destruct (parentOf_Some _ _ _ _ (inv_reps _ _ Hk) H4) as [_ H4ex].
    destruct (inv_acyclic _ _ Hk _ H4ex) as [l Hw]. pose proof (child_not_above _ _ _ _ _ Hk Hin Hw) as Hn. apply Hn. eapply way_closed; [done|by eapply way_here|].
    unfold up, parentOf, upOf in *. destruct (h' !! 4%positive); [|done]. cbn in *. by rewrite H4. }
  split_and!.
  - intros pt h Hi. cbn. destruct pt as [| | | |[[|[]|]|[[]|[]|]|]|]; try done; by apply act_ok.
  - apply exampleTree_inv.
  - destruct H as [[|]]; vm_compute; reflexivity.
  - assert (E : ∃ h', @appendChild _ movingScript 1 2 exampleTree = Some (None, h') ∧ parentOf h' 1 = Some 4%positive ∧ parentOf h' 4 = Some 1%positive).
    { destruct H as [[|]]; eexists; (split; [vm_compute; reflexivity|]); split; vm_compute; reflexivity. }
    destruct E as (h' & ? & ? & ?). exists h'. split_and!; auto.
Qed.

Definition releaseBuild : Build := {| ASSERT_DISABLED := true |}.

(** In a release build a document can get two elements: [canAcceptChild] is asked
    before the node is taken from its old parent, and a listener for the removal appends
    another element to the document; what is checked again then is only a cycle. *)
Theorem document_gets_two_elements :
  let b := releaseBuild in
  ∃ h', @appendChild b documentScript 7 6 exampleTree = Some (None, h') ∧
        (@collectChildNodes 7 h') = Some ([1; 6]%positive, h') ∧ typeOf h' 1 = Some ELEMENT_NODE ∧ typeOf h' 6 = Some ELEMENT_NODE.
Proof. cbn zeta. eexists. split; [vm_compute; reflexivity|]. split_and!; vm_compute; reflexivity. Qed.

(** ** Witnesses *)

Lemma tree_survives_scripts_witness :
  let b := releaseBuild in
  ∃ e h', @performDOM b movingScript (InsertBefore 5 3 (Some 6%positive)) exampleTree = Some (e, h') ∧ inv h' ∧ grows exampleTree h'.
Proof.
  refine (@tree_survives_scripts releaseBuild (@movingScript releaseBuild) (InsertBefore 5 3 (Some 6%positive)) (@exampleTree releaseBuild) _ (@exampleTree_inv releaseBuild) _).
  - intros pt h Hi. cbn. destruct pt as [| | | |[[|[]|]|[[]|[]|]|]|]; try done; by apply act_ok.
  - vm_compute. reflexivity.
Defined.

Lemma created_way nodes n : is_Some (created nodes !! n) → way (created nodes) n [n].
Proof.
  intros [r Hr]. apply way_root; [by eexists|]. unfold up. rewrite Hr. unfold created in Hr. apply elem_of_list_to_map_2, list_elem_of_fmap in Hr as ([m t] & E & _).
  injection E as -> ->. done.
Qed.

Lemma tree_operations_exact_witness :
  let h := created [(1, ELEMENT_NODE); (2, TEXT_NODE)]%positive in
  ∃ h' k, @performDOM releaseBuild quiet (AppendChild 1 2) h = Some (None, h') ∧ invk h' k ∧ k 1%positive = [2%positive] ∧ sameNodes h h'.
Proof.
  cbn zeta. destruct (created_inv [(1, ELEMENT_NODE); (2, TEXT_NODE)]%positive) as [k Hk].
  assert (Hk1 : k 1%positive = []). { destruct (k 1%positive) as [|c l] eqn:E; [done|]. assert (Hc : c ∈ k 1%positive) by (rewrite E; apply list_elem_of_here).
    apply (reps_parent _ _ (inv_reps _ _ Hk)) in Hc. revert Hc. unfold parentOf. destruct (created _ !! c) as [r|] eqn:Er; [|done].
    unfold created in Er. apply elem_of_list_to_map_2, list_elem_of_fmap in Er as ([m t] & E' & _). injection E' as -> ->. done. }
  destruct (@tree_operations_exact releaseBuild (AppendChild 1 2) (created [(1, ELEMENT_NODE); (2, TEXT_NODE)]%positive) k [1%positive] Hk eq_refl) as (h' & E & Hk' & Hs).
  { apply created_way. vm_compute. by eexists. }
  assert (Ev : specDOM (created [(1, ELEMENT_NODE); (2, TEXT_NODE)]%positive) k [1%positive] (AppendChild 1 2) = (None, placed 1 None [2%positive] [] k)) by reflexivity.
  rewrite Ev in E, Hk'. exists h', (placed 1 None [2%positive] [] k). split_and!; [exact E|exact Hk'| |exact Hs]. unfold placed. rewrite kset_eq. unfold detach. rewrite Hk1. reflexivity.
Defined.
