(* ===== verification/TreeOrder.v ===== *)
(** * The tree under the operations of the parser

    What the operations of the parser do to a document when no script runs, as changes of
    parents ([moved]), and what they do to the order of open elements: [ordered h ns]
    says of a list of nodes, topmost first, that no node is an ancestor of one below it.
    The adoption agency moves subtrees between such nodes; that it makes no cycle is a
    consequence of the order. *)

From Stdlib Require Import String.
From S2P Require Import Prelude HTMLStackItem ContainerNode ContainerNodeLists ContainerNodeCorrect ContainerNodeScripts ContainerNodeTheorems.

#[local] Open Scope list_scope.

(** ** Changes of parents *)

Definition moved (c : positive) (q : option positive) (h h' : Heap) : Prop :=
  sameNodes h h' ∧ parentOf h' c = q ∧ ∀ n, n ≠ c → parentOf h' n = parentOf h n.

Definition tagOf (h : Heap) (n : positive) : option QualifiedName := h !! n ≫= tagQName.

Lemma sameNodes_tagOf h h' n : sameNodes h h' → tagOf h' n = tagOf h n.
Proof. intros Hs. specialize (Hs n). unfold tagOf. destruct (h !! n), (h' !! n); try done. cbn in *. apply (inj Some) in Hs. unfold static in Hs. congruence. Qed.

Lemma moved_up c q h h' n : moved c q h h' → n ≠ c → up h' n = up h n.
Proof. intros (Hs & _ & Ho) Hn. apply up_ext; auto. Qed.

Lemma up_parent h n p : parentOf h n = Some p → up h n = Some p.
Proof. unfold up, parentOf, upOf. destruct (h !! n); [|done]. cbn. by intros ->. Qed.

Lemma moved_put c p h h' : moved c (Some p) h h' → up h' c = Some p.
Proof. intros (_ & Hp & _). by apply up_parent. Qed.

Lemma kset_parents h k h' p l n : reps h k → reps h' (kset k p l) → (n ∈ l ↔ n ∈ k p) → parentOf h' n = parentOf h n.
Proof. intros Hr Hr' Hl. eapply parentOf_ext; [done..|]. intros q. unfold kset. by destruct (decide (q = p)) as [-> |]. Qed.

Lemma moved_in h k h' p a c b : reps h k → reps h' (kset k p (a ++ c :: b)) → k p = a ++ b → sameNodes h h' → moved c (Some p) h h'.
Proof.
  intros Hr Hr' Ek Hs. split_and!; [done| |].
  - apply (reps_parent _ _ Hr'). rewrite kset_eq. apply elem_of_app. right. apply list_elem_of_here.
  - intros n Hn. eapply kset_parents; [done..|]. rewrite Ek, !elem_of_app, elem_of_cons. tauto.
Qed.

Lemma moved_out h k h' p a c b : reps h k → reps h' (kset k p (a ++ b)) → k p = a ++ c :: b → sameNodes h h' → moved c None h h'.
Proof.
  intros Hr Hr' Ek Hs. split_and!; [done| |].
  - destruct (parentOf h' c) as [q|] eqn:E; [|done]. exfalso. apply (reps_parent _ _ Hr') in E. pose proof (reps_NoDup _ _ Hr p) as Hnd. rewrite Ek, <-Permutation_middle in Hnd.
    apply NoDup_cons in Hnd as [Hc _]. unfold kset in E. destruct (decide (q = p)) as [-> |Hq]; [done|]. apply (reps_parent _ _ Hr) in E.
    assert (Hp : parentOf h c = Some p) by (apply (reps_parent _ _ Hr); rewrite Ek; apply elem_of_app; right; apply list_elem_of_here). congruence.
  - intros n Hn. eapply kset_parents; [done..|]. rewrite Ek, !elem_of_app, elem_of_cons. tauto.
Qed.

(** The children of a node, and a node put among them before another or at the end. *)
Definition childList (h : Heap) (p : positive) : list positive := match collectChildNodes p h with Some (l, _) => l | None => [] end.

Lemma childList_reps h k p : reps h k → is_Some (h !! p) → childList h p = k p.
Proof. intros Hr Hp. unfold childList. by rewrite (collectChildNodes_run h k). Qed.

Lemma childList_none h p : h !! p = None → childList h p = [].
Proof. intros Hp. unfold childList, collectChildNodes, field, mbind, M_bind. unfold getNode. by rewrite Hp. Qed.

Definition placed (c q : positive) (next : option positive) (h h' : Heap) : Prop :=
  (∃ a b, childList h q = a ++ b ∧ childList h' q = a ++ c :: b ∧ match next with Some x => head b = Some x | None => b = [] end) ∧
  ∀ n, n ≠ q → childList h' n = childList h n.

Lemma placed_in h k h' p a c b next :
  reps h k → reps h' (kset k p (a ++ c :: b)) → k p = a ++ b → sameNodes h h' → is_Some (h !! p) → match next with Some x => head b = Some x | None => b = [] end → placed c p next h h'.
Proof.
  intros Hr Hr' Ek Hs Hp Hn. split.
  - exists a, b. split_and!; [by rewrite (childList_reps h k)| |done]. rewrite (childList_reps h' _ p Hr') by (by apply (sameNodes_dom _ _ _ Hs)). apply kset_eq.
  - intros n Hne. destruct (h !! n) eqn:E.
    + rewrite (childList_reps h k n), (childList_reps h' _ n Hr'); [by apply kset_ne|apply (sameNodes_dom _ _ _ Hs); by eexists|done|by eexists].
    + rewrite !childList_none; [done..|]. apply eq_None_not_Some. intros Hex. apply (sameNodes_dom _ _ _ Hs) in Hex. rewrite E in Hex. by destruct Hex.
Qed.

Section Quiet.
Context `{Build}.
#[local] Existing Instance quiet.

Lemma wp_isTemplate n r (Q : bool → Heap → Prop) (h : Heap) : h !! n = Some r → Q (bool_decide (tagOf h n = Some (htmlName "template"))) h → wp (isTemplate n) Q h.
Proof. intros Hn HQ. unfold isTemplate. eapply wp_bind, wp_field; [done|]. apply wp_ret. unfold tagOf in HQ. by rewrite Hn in HQ. Qed.

Lemma orphan_field h c rc : h !! c = Some rc → parentOf h c = None → m_parentNode rc = None.
Proof. unfold parentOf. intros ->. done. Qed.

Lemma way_exists h p lp : way h p lp → is_Some (h !! p).
Proof. intros Hw. eapply way_dom; [done|]. destruct (way_cons _ _ _ Hw) as [? ->]. apply list_elem_of_here. Qed.

(** Appending an orphan to a node that is not a template and not below it. *)
Lemma wp_parserAppendChild p c lp t (Q : unit → Heap → Prop) h :
  inv h → way h p lp → c ∉ lp → parentOf h c = None → typeOf h c = Some t → t ≠ DOCUMENT_FRAGMENT_NODE → tagOf h p ≠ Some (htmlName "template") →
  (∀ h', inv h' → moved c (Some p) h h' → placed c p None h h' → Q tt h') → wp (parserAppendChild p c) Q h.
Proof.
  intros [k Hk] Hw Hc Hpc Ht Hne Htag HQ. destruct (typeOf_Some _ _ _ Ht) as (rc & Hrc & Hty). pose proof (orphan_field _ _ _ Hrc Hpc) as Hpar. unfold parserAppendChild.
  eapply wp_bind, wp_getNode; [done|]. apply wp_bind, wp_ASSERT; [by apply bool_decide_eq_true|]. apply wp_bind, wp_ASSERT; [apply bool_decide_eq_true; congruence|].
  destruct (way_exists h p lp Hw) as [rp Hp]. eapply wp_bind, wp_isTemplate; [done|]. apply wp_bind, wp_ASSERT; [by rewrite bool_decide_eq_false_2|].
  eapply (wp_exec eq quiet_ok p c None lp (k p) [] t SourceParser k); try done; [by split; rewrite ?app_nil_r|].
  intros h3 h' Hk3 Hs <- Hi. apply HQ; [done| |].
  - eapply (moved_in h k h3 p (k p) c []); [apply Hk|apply Hk3|by rewrite app_nil_r|done].
  - eapply (placed_in h k h3 p (k p) c []); [apply Hk|apply Hk3|by rewrite app_nil_r|done|by eexists|done].
Qed.

(** Inserting one before a child. *)
Lemma wp_parserInsertBefore p c x lp t (Q : unit → Heap → Prop) h :
  inv h → way h p lp → c ∉ lp → parentOf h c = None → typeOf h c = Some t → t ≠ DOCUMENT_FRAGMENT_NODE → tagOf h p ≠ Some (htmlName "template") →
  parentOf h x = Some p → (∀ h', inv h' → moved c (Some p) h h' → placed c p (Some x) h h' → Q tt h') → wp (parserInsertBefore p c x) Q h.
Proof.
  intros [k Hk] Hw Hc Hpc Ht Hne Htag Hx HQ. destruct (typeOf_Some _ _ _ Ht) as (rc & Hrc & Hty). pose proof (inv_reps _ _ Hk) as Hr. unfold parserInsertBefore.
  pose proof (proj2 (reps_parent _ _ Hr _ _) Hx) as Hin. apply list_elem_of_split in Hin as (a & b & Ek). destruct (reps_child _ _ _ _ _ _ Hr Ek) as (rx & Hrx & Hpx & Hprev & _).
  eapply wp_bind, wp_getNode; [done|]. apply wp_bind, wp_ASSERT; [by apply bool_decide_eq_true|]. unfold isType. eapply wp_bind, wp_bind, wp_field; [done|]. apply wp_ret.
  apply wp_bind, wp_ASSERT; [rewrite bool_decide_eq_false_2; [done|congruence]|]. destruct (way_exists h p lp Hw) as [rp Hp]. eapply wp_bind, wp_isTemplate; [done|].
  apply wp_bind, wp_ASSERT; [by rewrite bool_decide_eq_false_2|]. destruct (reps_orphan _ _ _ _ Hr Hrc (orphan_field _ _ _ Hrc Hpc)) as (_ & _ & Hnk).
  rewrite (bool_decide_eq_false_2 (m_previous rx = Some c)), (bool_decide_eq_false_2 (x = c)); [| |]; cbn [orb].
  - eapply (wp_exec eq quiet_ok p c (Some x) lp a (x :: b) t SourceParser k); try done.
    intros h3 h' Hk3 Hs <- Hi. apply HQ; [done|eapply (moved_in h k h3 p a c (x :: b)); [done|apply Hk3|done..]|eapply (placed_in h k h3 p a c (x :: b)); [done|apply Hk3|done|done|by eexists|done]].
  - intros ->. congruence.
  - rewrite Hprev. intros El%last_Some_elem_of. apply (Hnk p). rewrite Ek. by apply elem_of_app; left.
Qed.

Lemma wp_parserRemoveChild p c (Q : unit → Heap → Prop) h :
  inv h → parentOf h c = Some p → (∀ h', inv h' → moved c None h h' → Q tt h') → wp (parserRemoveChild p c) Q h.
Proof.
  intros Hi Hp HQ. unfold parserRemoveChild. assert (Hex : is_Some (h !! c)) by (unfold parentOf in Hp; destruct (h !! c); [by eexists|done]).
  apply wp_bind. apply (wp_removeNode eq eq_grows quiet_ok p c SourceParser); [done..| |].
  - intros h' _ <-. done.
  - intros h' (h2 & k2 & a & b & h3 & <- & Hk2 & Ek & Hk3 & Hs & <- & Hi'). apply wp_ret, HQ; [done|]. eapply (moved_out h k2 h3 p a c b); [apply Hk2|apply Hk3|done..].
Qed.

(** What an element can have as a child. *)
Definition contentKids (h : Heap) : Prop := ∀ n p, parentOf h n = Some p → typeOf h p = Some ELEMENT_NODE → contentType h n = true.

Lemma contentType_not_fragment h n : contentType h n = true → ∃ t, typeOf h n = Some t ∧ t ∈ contentTypes ∧ t ≠ DOCUMENT_FRAGMENT_NODE.
Proof.
  unfold contentType. destruct (typeOf h n) as [t|]; [|done]. rewrite bool_decide_eq_true. intros Hin. exists t. split_and!; [done..|]. intros ->.
  by apply (bool_decide_eq_true_2 _) in Hin.
Qed.

Lemma sameNodes_contentType h h' n : sameNodes h h' → contentType h' n = contentType h n.
Proof. intros Hs. unfold contentType. by rewrite (sameNodes_typeOf h h'). Qed.

(** The loop that gives the children to a new element. *)
Lemma wp_takeLoop f cs (Q : unit → Heap → Prop) h :
  inv h → way h f [f] → typeOf h f = Some ELEMENT_NODE → tagOf h f ≠ Some (htmlName "template") → NoDup cs →
  (∀ c, c ∈ cs → c ≠ f ∧ parentOf h c = None ∧ contentType h c = true) →
  (∀ h', inv h' → sameNodes h h' → (∀ n, parentOf h' n = if decide (n ∈ cs) then Some f else parentOf h n) → Q tt h') → wp (takeLoop f cs) Q h.
Proof.
  revert h. induction cs as [|c cs IH]; intros h Hi Hw Hf Htag Hnd Hcs HQ; cbn [takeLoop].
  { apply wp_ret, HQ; [done|apply sameNodes_refl|]. intros n. by rewrite decide_False by apply not_elem_of_nil. }
  apply NoDup_cons in Hnd as [Hc Hnd]. destruct (Hcs c) as (Hcf & Hcp & Hct); [apply list_elem_of_here|]. destruct (contentType_not_fragment _ _ Hct) as (t & Ht & Hin & Hne).
  destruct (typeOf_Some _ _ _ Ht) as (rc & Hrc & _). eapply wp_bind, wp_field; [done|]. apply wp_bind. unfold RELEASE_ASSERT.
  rewrite bool_decide_eq_true_2 by (by eapply orphan_field). apply wp_ret, wp_bind.
  assert (Hassert : wp (if ASSERT_DISABLED then mret tt else e ← ensurePreInsertionValidity f c None; ASSERT (bool_decide (e = None))) (λ _ h', h' = h) h).
  { destruct ASSERT_DISABLED eqn:Ed; [by apply wp_ret|]. destruct Hi as [k Hk]. apply wp_bind. unfold wp at 1, ensurePreInsertionValidity.
    rewrite (checkAcceptChild_run h k f [f]); [|apply Hk|unfold plainContainer; rewrite Hf; by apply bool_decide_eq_true; set_solver|done|by eexists|done].
    apply wp_ASSERT; [|done]. apply bool_decide_eq_true. unfold validity. rewrite bool_decide_eq_false_2 by (by intros ?%list_elem_of_singleton).
    by rewrite andb_false_r, (content_target h k c t). }
  eapply wp_mono; [done|]. intros _ h0 ->. apply wp_bind. eapply wp_parserAppendChild; try done; [by intros ?%list_elem_of_singleton|]. intros h1 Hi1 Hm1 _. pose proof Hm1 as (Hs1 & Hp1 & Ho1).
  apply IH; [done| | | |done| |].
  - eapply way_frame; [done|]. intros m ->%list_elem_of_singleton. split; [by eapply moved_up|]. apply (sameNodes_dom _ _ _ Hs1). by eapply way_exists.
  - by rewrite (sameNodes_typeOf h h1).
  - by rewrite (sameNodes_tagOf h h1).
  - intros x Hx. destruct (Hcs x) as (? & ? & ?); [by apply elem_of_cons; right|]. rewrite Ho1, (sameNodes_contentType h h1) by (done || by intros ->). done.
  - intros h' Hi' Hs' Hp'. apply HQ; [done|by eapply sameNodes_trans|]. intros n. rewrite Hp'. destruct (decide (n = c)) as [-> |Hnc].
    + rewrite decide_False by done. rewrite decide_True by apply list_elem_of_here. done.
    + rewrite Ho1 by done. apply decide_ext. rewrite elem_of_cons. tauto.
Qed.

(** Taking all children of a node. *)
Lemma wp_takeAllChildrenFrom f p (Q : unit → Heap → Prop) h :
  inv h → contentKids h → way h f [f] → typeOf h f = Some ELEMENT_NODE → tagOf h f ≠ Some (htmlName "template") → typeOf h p = Some ELEMENT_NODE →
  (∀ h', inv h' → sameNodes h h' → (∀ n, parentOf h' n = if decide (parentOf h n = Some p) then Some f else parentOf h n) → Q tt h') →
  wp (takeAllChildrenFrom f p) Q h.
Proof.
  intros [k Hk] Hck Hw Hf Htag Hp HQ. destruct (typeOf_Some _ _ _ Hp) as (rp & Hrp & _). unfold takeAllChildrenFrom. apply wp_bind.
  eapply (wp_removeAllChildren eq eq_grows quiet_ok p SourceParser false k); [done|by eexists|]. intros h1 (h2 & k2 & h3 & <- & Hk2 & Hk3 & Hs & <- & Hi3).
  assert (Ek : k2 p = k p) by (by apply (kids_unique h)).
  assert (Hpar : ∀ n, n ∈ k p ↔ parentOf h n = Some p) by (intros n; apply (reps_parent _ _ (inv_reps _ _ Hk))).
  assert (Hout : ∀ n, parentOf h3 n = if decide (n ∈ k p) then None else parentOf h n).
  { intros n. case_decide as Hn.
    - destruct (parentOf h3 n) as [q|] eqn:E; [|done]. apply (reps_parent _ _ (inv_reps _ _ Hk3)) in E. unfold kset in E. destruct (decide (q = p)); [by apply elem_of_nil in E|].
      apply (reps_parent _ _ (inv_reps _ _ Hk2)) in E. apply Hpar in Hn. congruence.
    - eapply kset_parents; [apply Hk2|apply Hk3|]. rewrite Ek. split; [by intros ?%elem_of_nil|done]. }
  assert (Hfk : f ∉ k p).
  { intros Hin%Hpar%up_parent. inversion Hw as [? ? Hu|? ? ? ? Hw']; [congruence|inversion Hw']. }
  apply wp_takeLoop; [done| |by rewrite (sameNodes_typeOf h h3)|by rewrite (sameNodes_tagOf h h3)|apply (reps_NoDup _ _ (inv_reps _ _ Hk))| |].
  - eapply way_frame; [done|]. intros m ->%list_elem_of_singleton. split; [|by apply (sameNodes_dom _ _ _ Hs); eapply way_exists]. apply up_ext; [done|]. rewrite Hout. by rewrite decide_False.
  - intros c Hc. rewrite Hout, decide_True, (sameNodes_contentType h h3) by done. split_and!; [by intros ->|done|]. eapply Hck; [|done]. by apply Hpar.
  - intros h' Hi' Hs' Hp'. apply HQ; [done|by eapply sameNodes_trans|]. intros n. rewrite Hp', Hout. specialize (Hpar n). repeat case_decide; tauto.
Qed.

End Quiet.

(** ** The order of open elements *)

Definition ordered (h : Heap) (ns : list positive) : Prop := ∀ a n b l, ns = a ++ n :: b → way h n l → ∀ x, x ∈ a → x ∉ l.

Lemma ordered_nil h : ordered h [].
Proof. intros a n b l E. by destruct a. Qed.

Lemma sublist_split {A} (l l' a b : list A) n : a ++ n :: b `sublist_of` l → ∃ a' b', l = a' ++ n :: b' ∧ ∀ x, x ∈ a → x ∈ a'.
Proof.
  intros Hs. apply sublist_app_l in Hs as (l1 & l2 & -> & H1 & H2). apply sublist_cons_l in H2 as (l3 & l4 & -> & H2).
  exists (l1 ++ l3), l4. split; [by rewrite <-app_assoc|]. intros x Hx. apply elem_of_app. left. by eapply elem_of_sublist.
Qed.

(** Nodes of the list in the same order. *)
Lemma ordered_sublist h ns ns' : ns' `sublist_of` ns → ordered h ns → ordered h ns'.
Proof. intros Hs Ho a n b l -> Hw x Hx. destruct (sublist_split ns [] a b n Hs) as (a' & b' & E & Ha). by eapply Ho; eauto. Qed.

(** A node of the list is the ancestor only of nodes above it. *)
Lemma ordered_above h ns a c b n l : ordered h ns → ns = a ++ c :: b → n ∈ ns → way h n l → c ∈ l → n ∈ a ++ [c].
Proof.
  intros Ho E Hn Hw Hc. rewrite E in Hn. apply elem_of_app in Hn as [Hn|Hn]; [by apply elem_of_app; left|]. apply elem_of_cons in Hn as [-> |Hn].
  { apply elem_of_app. right. apply list_elem_of_here. }
  apply list_elem_of_split in Hn as (b1 & b2 & ->). exfalso.
  refine (Ho (a ++ c :: b1) n b2 l _ Hw c _ Hc); [by rewrite E, <-app_assoc|]. apply elem_of_app. right. apply list_elem_of_here.
Qed.

(** The way of a node after the parent of [c] changed: what is new on it is on the way
    of the new parent. *)
Lemma way_changed h h' c lp n l l' x :
  (∀ m, m ≠ c → up h' m = up h m) → (∀ m lm, up h' c = Some m → way h' m lm → lm = lp) →
  way h' n l' → way h n l → x ∈ l' → x ∈ l ∨ (c ∈ l ∧ x ∈ lp).
Proof.
  intros Ho Hc Hw'. revert l. induction Hw' as [n Hn Hu|n m l' Hu Hw' IH]; intros l Hw Hx; destruct (way_cons _ _ _ Hw) as [l1 ->].
  - apply list_elem_of_singleton in Hx as ->. left. apply list_elem_of_here.
  - apply elem_of_cons in Hx as [-> |Hx]; [left; apply list_elem_of_here|]. destruct (decide (n = c)) as [-> |Hne].
    + right. split; [apply list_elem_of_here|]. by rewrite <-(Hc m l').
    + rewrite Ho in Hu by done. inversion Hw as [? ? Hu'|? m' ? Hu' Hw1]; subst; [congruence|]. rewrite Hu in Hu'. injection Hu' as <-.
      destruct (IH l1 Hw1 Hx) as [?|[? ?]]; [left|right; split; [|done]]; by apply elem_of_cons; right.
Qed.

Lemma ordered_changed h h' c lp ns :
  acyclic h → (∀ n, n ∈ ns → is_Some (h !! n)) → (∀ m, m ≠ c → up h' m = up h m) → (∀ m lm, up h' c = Some m → way h' m lm → lm = lp) →
  (∀ a n b l x, ns = a ++ n :: b → way h n l → c ∈ l → x ∈ a → x ∉ lp) → ordered h ns → ordered h' ns.
Proof.
  intros Hac Hex Hother Hc Hcond Ho a n b l' E Hw' x Hx Hin. destruct (Hac n) as [l Hw]; [apply Hex; rewrite E; apply elem_of_app; right; apply list_elem_of_here|].
  destruct (way_changed h h' c lp n l l' x) as [Hl|[Hcl Hlp]]; try done.
  - by eapply (Ho a n b l).
  - by eapply (Hcond a n b l x).
Qed.

Lemma inv_ac h : inv h → acyclic h.
Proof. intros [k Hk]. apply Hk. Qed.

Lemma orphan_up_inv h n t : inv h → parentOf h n = None → typeOf h n = Some t → t ≠ DOCUMENT_FRAGMENT_NODE → up h n = None.
Proof. intros [k Hk]. by eapply orphan_up. Qed.

(** The way of the new parent does not change. *)
Lemma moved_way c p h h' lp lm : moved c (Some p) h h' → way h p lp → c ∉ lp → way h' p lm → lm = lp.
Proof.
  intros Hm Hw Hc Hw'. eapply way_unique; [done|]. eapply way_frame; [done|]. intros m Hin. split; [eapply moved_up; [done|by intros ->]|].
  destruct Hm as (Hs & _). apply (sameNodes_dom _ _ _ Hs). by eapply way_dom.
Qed.

Lemma ordered_out h h' c t ns :
  inv h → inv h' → moved c None h h' → typeOf h c = Some t → t ≠ DOCUMENT_FRAGMENT_NODE → (∀ n, n ∈ ns → is_Some (h !! n)) → ordered h ns → ordered h' ns.
Proof.
  intros Hi Hi' Hm Ht Hne Hex Ho. pose proof Hm as (Hs & Hp & _). eapply (ordered_changed h h' c []); [by apply inv_ac|done|by intros; eapply moved_up| | |done].
  - intros m lm Hu _. rewrite (orphan_up_inv h' c t) in Hu; [done..| |done]. by rewrite (sameNodes_typeOf h h').
  - intros a n b l x _ _ _ _. apply not_elem_of_nil.
Qed.

Lemma ordered_in h h' c p lp ns :
  inv h → moved c (Some p) h h' → way h p lp → c ∉ lp → (∀ n, n ∈ ns → is_Some (h !! n)) →
  (∀ a n b l x, ns = a ++ n :: b → way h n l → c ∈ l → x ∈ a → x ∉ lp) → ordered h ns → ordered h' ns.
Proof.
  intros Hi Hm Hw Hc Hex Hcond Ho. eapply (ordered_changed h h' c lp); [by apply inv_ac|done|by intros; eapply moved_up| |done..].
  intros m lm Hu Hwm. rewrite (moved_put _ _ _ _ Hm) in Hu. injection Hu as <-. by eapply moved_way.
Qed.

(** ** New nodes *)

(** More nodes, each without parent and children; only a fragment has a host, an old node. *)
Definition extends (h h' : Heap) : Prop :=
  h ⊆ h' ∧ ∀ n r, h !! n = None → h' !! n = Some r →
    r = newNode (nodeType r) (tagQName r) (m_host r) ∧ match m_host r with None => True | Some p => nodeType r = DOCUMENT_FRAGMENT_NODE ∧ is_Some (h !! p) end.

Lemma extends_refl h : extends h h.
Proof. split; [done|]. intros n r Hn Hr. congruence. Qed.

Lemma extends_insert h n t name host :
  h !! n = None → match host with None => True | Some p => t = DOCUMENT_FRAGMENT_NODE ∧ is_Some (h !! p) end → extends h (<[n := newNode t name host]> h).
Proof.
  intros Hn Hhost. split; [by apply insert_subseteq|]. intros m r Hm Hr. destruct (decide (m = n)) as [-> |Hne]; [|rewrite lookup_insert_ne in Hr by done; congruence].
  rewrite lookup_insert_eq in Hr. injection Hr as <-. done.
Qed.

Lemma extends_lookup h h' n r : extends h h' → h !! n = Some r → h' !! n = Some r.
Proof. intros [Hs _] Hn. by eapply lookup_weaken. Qed.

Lemma extends_grows h h' : extends h h' → grows h h'.
Proof. intros He n r Hn. exists r. split; [by eapply extends_lookup|done]. Qed.

Lemma extends_up h h' n : extends h h' → is_Some (h !! n) → up h' n = up h n.
Proof. intros He [r Hr]. unfold up. by rewrite (extends_lookup h h' n r), Hr. Qed.

Lemma kids_none h k n : invk h k → h !! n = None → k n = [].
Proof. intros Hk Hn. destruct (k n) as [|c l] eqn:E; [done|]. destruct (parent_exists h k n c Hk) as [r Hr]; [rewrite E; apply list_elem_of_here|]. congruence. Qed.

Lemma extends_parent h h' n : extends h h' → parentOf h' n = parentOf h n.
Proof.
  intros He. unfold parentOf. destruct (h !! n) as [r|] eqn:E; [by rewrite (extends_lookup h h' n r)|]. destruct (h' !! n) as [r'|] eqn:E'; [|done].
  destruct (proj2 He n r' E E') as [-> _]. done.
Qed.

Lemma way_extends h h' n l : extends h h' → way h n l → way h' n l.
Proof.
  intros He Hw. eapply way_frame; [done|]. intros x Hx. pose proof (way_dom _ _ _ _ Hw Hx) as Hex. split; [by apply extends_up|]. destruct Hex as [r Hr]. exists r. by eapply extends_lookup.
Qed.

Lemma way_extends_inv h h' n l : acyclic h → extends h h' → is_Some (h !! n) → way h' n l → way h n l.
Proof. intros Hac He Hn Hw. destruct (Hac n Hn) as [l' Hw']. by rewrite (way_unique _ _ _ _ Hw (way_extends h h' n l' He Hw')). Qed.

Lemma reps_extends h h' k : invk h k → extends h h' → reps h' k.
Proof.
  intros Hk He. pose proof (inv_reps _ _ Hk) as Hr. constructor; [| |apply Hr].
  - intros n r Hn. destruct (h !! n) as [r0|] eqn:E; [rewrite (extends_lookup h h' n r0) in Hn by done; injection Hn as <-; by apply (reps_ok _ _ Hr)|].
    destruct (proj2 He n r E Hn) as [-> _]. pose proof (kids_none h k n Hk E) as Ek. constructor; cbn; rewrite ?Ek; done.
  - intros n c. rewrite (extends_parent h h') by done. apply (reps_parent _ _ Hr).
Qed.

Lemma inv_extends h h' : inv h → extends h h' → inv h'.
Proof.
  intros [k Hk] He. pose proof Hk as [Hr Hac Hty]. exists k. split; [by eapply reps_extends|..].
  - intros n [r Hn]. destruct (h !! n) as [r0|] eqn:E; [destruct (Hac n) as [l Hw]; [by eexists|]; exists l; by eapply way_extends|].
    destruct (proj2 He n r E Hn) as [Er Hhost]. destruct (m_host r) as [p|] eqn:Eh.
    + destruct Hhost as [_ Hp]. destruct (Hac p Hp) as [l Hw]. exists (n :: l). apply (way_step _ _ p); [unfold up; rewrite Hn, Er; done|]. by eapply way_extends.
    + exists [n]. apply way_root; [by eexists|]. unfold up. rewrite Hn, Er. done.
  - intros n r Hn. destruct (h !! n) as [r0|] eqn:E; [rewrite (extends_lookup h h' n r0) in Hn by done; injection Hn as <-; by apply (Hty n)|].
    destruct (proj2 He n r E Hn) as [Er Hhost]. destruct (m_host r) eqn:Eh; (split; [|intros _; by rewrite Er]); [by intros _; apply Hhost|done].
Qed.

(** New nodes have no children, the children of the others stay. *)
Lemma extends_childList h h' n : inv h → extends h h' → childList h' n = childList h n.
Proof.
  intros [k Hk] He. pose proof (reps_extends h h' k Hk He) as Hr'. destruct (h !! n) as [r|] eqn:E.
  - rewrite (childList_reps h k), (childList_reps h' k); [done|done|exists r; by eapply extends_lookup|apply Hk|by eexists].
  - rewrite (childList_none h) by done. destruct (h' !! n) as [r|] eqn:E'; [|by apply childList_none]. rewrite (childList_reps h' k); [by eapply kids_none|done|by eexists].
Qed.

Lemma ordered_extends h h' ns : acyclic h → extends h h' → (∀ n, n ∈ ns → is_Some (h !! n)) → ordered h ns → ordered h' ns.
Proof.
  intros Hac He Hex Ho a n b l E Hw. eapply (Ho a n b l E). eapply way_extends_inv; [done..| |done]. apply Hex. rewrite E. apply elem_of_app. right. apply list_elem_of_here.
Qed.

(** A node apart from the others. *)
Definition alone (h : Heap) (n : positive) : Prop := is_Some (h !! n) ∧ up h n = None ∧ ∀ m, up h m ≠ Some n.

Lemma alone_way h n : alone h n → way h n [n].
Proof. intros (? & ? & _). by apply way_root. Qed.

(** It is on no other way. *)
Lemma alone_not_on h n m l : alone h n → way h m l → n ∈ l → m = n.
Proof.
  intros (_ & _ & Hn) Hw. induction Hw as [m Hm Hu|m p l Hu Hw IH]; intros Hin; [by apply list_elem_of_singleton in Hin|].
  apply elem_of_cons in Hin as [?|Hin]; [done|]. rewrite (IH Hin) in Hu. by destruct (Hn m).
Qed.

(** A node without parent that no node of [h] is below: a new node, with what was put
    into it since. *)
Definition apart (h T : Heap) (n : positive) : Prop := is_Some (T !! n) ∧ up T n = None ∧ ∀ m l, is_Some (h !! m) → way T m l → n ∉ l.

Lemma apart_way h T n : apart h T n → way T n [n].
Proof. intros (? & ? & _). by apply way_root. Qed.

Lemma apart_off h T n m l : apart h T n → is_Some (h !! m) → way T m l → n ∉ l.
Proof. intros (_ & _ & Ho). apply Ho. Qed.

(** From [T0] to [T], a node without parent and nothing new below it. *)
Definition kept (T0 T : Heap) (n : positive) : Prop := is_Some (T !! n) ∧ up T n = None ∧ ∀ m l, way T m l → n ∈ l → ∃ l0, way T0 m l0 ∧ n ∈ l0.

Lemma kept_refl T n : is_Some (T !! n) → up T n = None → kept T T n.
Proof. intros Hn Hu. split_and!; [done..|]. intros m l Hw Hin. by exists l. Qed.

Lemma kept_apart h T0 T n : apart h T0 n → kept T0 T n → apart h T n.
Proof. intros (_ & _ & Ho) (Hex & Hu & Hk). split_and!; [done..|]. intros m l Hm Hw Hin. destruct (Hk m l Hw Hin) as (l0 & Hw0 & Hin0). by eapply Ho. Qed.

(** The parent of another node changed. *)
Lemma kept_changed T0 T T' c lq n :
  kept T0 T n → acyclic T → sameNodes T T' → (∀ m, m ≠ c → up T' m = up T m) → (∀ m lm, up T' c = Some m → way T' m lm → lm = lq) → n ∉ lq → n ≠ c → kept T0 T' n.
Proof.
  intros (He & Hu & Ho) Hac Hs Hother Hc Hq Hne. split_and!; [by apply (sameNodes_dom _ _ _ Hs)|by rewrite Hother|].
  intros m l' Hw' Hin. destruct (Hac m) as [l Hwl]; [apply (sameNodes_dom _ _ _ Hs); by eapply way_dom, way_here|]. destruct (way_changed T T' c lq m l l' n) as [Hl|[_ Hl]]; try done. by eapply Ho.
Qed.

Lemma kept_moved T0 T T' c q lq n : kept T0 T n → acyclic T → moved c (Some q) T T' → way T q lq → c ∉ lq → n ∉ lq → n ≠ c → kept T0 T' n.
Proof.
  intros Hk Hac Hm Hw Hc Hq Hne. pose proof Hm as (Hs & _). eapply (kept_changed T0 T T' c lq); try done; [by intros; eapply moved_up|].
  intros p' lm Hup Hwp. rewrite (moved_put _ _ _ _ Hm) in Hup. injection Hup as <-. by eapply moved_way.
Qed.

(** ** Putting nodes into the order *)

(** What is before a node of the first part is in the first part. *)
Lemma before_split {A} (a b a1 b1 : list A) c m x :
  NoDup (a ++ c :: b) → a ++ c :: b = a1 ++ m :: b1 → m ∈ a ++ [c] → x ∈ a1 → x ∈ a.
Proof.
  revert a1. induction a as [|y a IH]; intros a1 Hnd E Hm Hx; cbn in *.
  - apply list_elem_of_singleton in Hm as ->. destruct a1 as [|z a1]; [by apply elem_of_nil in Hx|]. injection E as <- E. apply NoDup_cons in Hnd as [Hn _].
    exfalso. apply Hn. rewrite E. apply elem_of_app. right. apply list_elem_of_here.
  - destruct a1 as [|z a1]; [by apply elem_of_nil in Hx|]. injection E as <- E. apply NoDup_cons in Hnd as [Hn Hnd]. apply elem_of_cons in Hx as [-> |Hx]; [apply list_elem_of_here|].
    apply elem_of_cons. right. apply (IH a1); [done..| |done]. apply elem_of_cons in Hm as [-> |?]; [|done]. exfalso. apply Hn. rewrite E. apply elem_of_app. right. apply list_elem_of_here.
Qed.

Lemma ordered_put h a n b :
  ordered h (a ++ b) → (∀ l x, way h n l → x ∈ a → x ∉ l) → (∀ m l, m ∈ b → way h m l → n ∉ l) → ordered h (a ++ n :: b).
Proof.
  intros Ho Hn Hb a1 m b1 l E Hw x Hx. apply app_eq_app in E as (a2 & [[-> E]|[-> E]]).
  - destruct a2 as [|y a2]; injection E as -> E.
    + apply (Hn l); [done|]. by rewrite app_nil_r.
    + subst b1. eapply (Ho a1 y (a2 ++ b) l); [by rewrite <-app_assoc|done..].
  - destruct a2 as [|y a2]; cbn in E; injection E as -> E; [rewrite app_nil_r in Hx; by apply (Hn l)|]. subst b.
    apply elem_of_app in Hx as [Hx|[-> |Hx]%elem_of_cons].
    + eapply (Ho (a ++ a2) m b1 l); [by rewrite <-app_assoc|done|by apply elem_of_app; left].
    + apply (Hb m); [|done]. apply elem_of_app. right. apply list_elem_of_here.
    + eapply (Ho (a ++ a2) m b1 l); [by rewrite <-app_assoc|done|by apply elem_of_app; right].
Qed.

(** A node apart can be anywhere. *)
Lemma ordered_apart h T a n b : ordered T (a ++ b) → apart h T n → n ∉ a → (∀ m, m ∈ b → is_Some (h !! m)) → ordered T (a ++ n :: b).
Proof.
  intros Ho Hal Ha Hb. apply ordered_put; [done| |].
  - intros l x Hw Hx. rewrite (way_unique _ _ _ _ Hw (apart_way _ _ _ Hal)). by intros ->%list_elem_of_singleton.
  - intros m l Hm Hw. destruct Hal as (_ & _ & Hn). by eapply Hn; [apply Hb|].
Qed.

(** Nothing from [c] up is on the way of a node below [c], or of its parent. *)
Lemma ordered_below h a c b d p lp x :
  ordered h (a ++ c :: b) → acyclic h → d ∈ b → is_Some (h !! d) → p = d ∨ up h d = Some p → way h p lp → x ∈ a ++ [c] → x ∉ lp.
Proof.
  intros Ho Hac Hd Hex Hp Hw Hx Hin. apply list_elem_of_split in Hd as (b1 & b2 & ->). destruct (Hac d Hex) as [ld Hwd].
  assert (Hsub : x ∈ ld).
  { destruct Hp as [-> |Hu]; [by rewrite (way_unique _ _ _ _ Hwd Hw)|]. inversion Hwd as [? ? Hu'|? m l Hu' Hwm]; subst; [congruence|]. rewrite Hu in Hu'. injection Hu' as <-.
    apply elem_of_cons. right. by rewrite (way_unique _ _ _ _ Hwm Hw). }
  refine (Ho (a ++ c :: b1) d b2 ld _ Hwd x _ Hsub); [by rewrite <-app_assoc|]. apply elem_of_app in Hx as [Hx|Hx%list_elem_of_singleton]; [by apply elem_of_app; left|].
  subst x. apply elem_of_app. right. apply list_elem_of_here.
Qed.

Lemma kept_out T0 T T' c n : kept T0 T n → acyclic T → moved c None T T' → up T' c = None → n ≠ c → kept T0 T' n.
Proof.
  intros Hk Hac Hm Hc Hne. pose proof Hm as (Hs & _). eapply (kept_changed T0 T T' c []); try done; [by intros; eapply moved_up|congruence|apply not_elem_of_nil].
Qed.

Lemma NoDup_replace {A} (a b : list A) x y : NoDup (a ++ x :: b) → y ∉ a ++ b → NoDup (a ++ y :: b).
Proof. rewrite <-!Permutation_middle. intros [_ Hnd]%NoDup_cons Hy. by apply NoDup_cons. Qed.

(** ** The children of one node given to another *)

Section TakeAll.
Context (h h1 : Heap) (B n : positive) (Hi : inv h) (Hi1 : inv h1) (Hs : sameNodes h h1) (Hn : is_Some (h !! n)) (Hun : up h n = None) (HB : is_Some (h !! B)) (HnB : ∀ l, way h B l → n ∉ l).
Context (Hp : ∀ m, parentOf h1 m = if decide (parentOf h m = Some B) then Some n else parentOf h m).

Lemma taken_up m : up h1 m = if decide (parentOf h m = Some B) then Some n else up h m.
Proof.
  destruct (decide (parentOf h m = Some B)) as [Hu|Hu].
  - apply up_parent. rewrite Hp. by rewrite decide_True.
  - apply up_ext; [done|]. rewrite Hp. by rewrite decide_False.
Qed.

Lemma taken_new_way : way h1 n [n].
Proof. apply way_root; [by apply (sameNodes_dom _ _ _ Hs)|]. rewrite taken_up, decide_False; [done|]. intros E%up_parent. congruence. Qed.

(** The way of a node is the old one, or goes through a child of [B] to [n]. *)
Lemma taken_way m l l' x :
  way h m l → way h1 m l' → x ∈ l' → x ∈ l ∨ x = n ∧ (m = n ∨ ∃ y, y ∈ l ∧ up h y = Some B).
Proof.
  intros Hw Hw'. revert l Hw. induction Hw' as [m Hm Hu|m q l' Hu Hw' IH]; intros l Hw Hx; destruct (way_cons _ _ _ Hw) as [l1 ->].
  - apply list_elem_of_singleton in Hx as ->. left. apply list_elem_of_here.
  - apply elem_of_cons in Hx as [-> |Hx]; [left; apply list_elem_of_here|]. rewrite taken_up in Hu. case_decide as Em.
    + injection Hu as <-. rewrite (way_unique _ _ _ _ Hw' taken_new_way) in Hx. apply list_elem_of_singleton in Hx as ->. right. split; [done|]. right. exists m. split; [apply list_elem_of_here|by apply up_parent].
    + inversion Hw as [? ? Hu'|? q' ? Hu' Hw1]; subst; [congruence|]. rewrite Hu in Hu'. injection Hu' as <-. destruct (IH l1 Hw1 Hx) as [?|[-> [-> |(y & Hy & Hyu)]]].
      * left. by apply elem_of_cons; right.
      * left. destruct (way_cons _ _ _ Hw1) as [? ->]. apply elem_of_cons. right. apply list_elem_of_here.
      * right. split; [done|]. right. exists y. split; [by apply elem_of_cons; right|done].
Qed.

(** A child of [B] is not on the way of [B]. *)
Lemma child_below m l y : way h m l → y ∈ l → up h y = Some B → B ∈ l ∧ m ≠ B.
Proof.
  intros Hw Hy Hu. apply list_elem_of_split in Hy as (l1 & l2 & ->). pose proof (way_suffix _ _ _ _ _ Hw) as Hwy. inversion Hwy as [? ? Hu' E|? q ? Hu' Hw2]; subst; [congruence|].
  rewrite Hu in Hu'. injection Hu' as <-. destruct (way_cons _ _ _ Hw2) as [l3 ->]. split; [apply elem_of_app; right; apply elem_of_cons; right; apply list_elem_of_here|].
  intros ->. pose proof (way_NoDup _ _ _ Hw) as Hnd. destruct (way_cons _ _ _ Hw) as [l' E]. destruct l1 as [|z l1]; cbn in E; injection E as -> E.
  - apply NoDup_cons in Hnd as [Hnd _]. apply Hnd, list_elem_of_here.
  - cbn in Hnd. apply NoDup_cons in Hnd as [Hnd _]. apply Hnd, elem_of_app. right. apply elem_of_cons. right. apply list_elem_of_here.
Qed.

Lemma taken_B_way l' : way h1 B l' → (n ∉ l') ∧ ∀ l x, way h B l → x ∈ l' → x ∈ l.
Proof.
  intros Hw'. assert (Hsub : ∀ l x, way h B l → x ∈ l' → x ∈ l).
  { intros l x Hw Hx. destruct (taken_way B l l' x Hw Hw' Hx) as [?|[-> [E|(y & Hy & Hyu)]]]; [done|destruct (HnB l Hw); rewrite <-E; by apply way_here in Hw|]. by destruct (child_below B l y Hw Hy Hyu). }
  split; [|done]. intros Hin. destruct (inv_ac _ Hi B HB) as [l Hw]. by apply (HnB l Hw), (Hsub l n).
Qed.

Lemma taken_ordered a b :
  ordered h (a ++ B :: b) → NoDup (a ++ B :: b) → (n ∉ a ++ B :: b) → (∀ m, m ∈ a ++ B :: b → is_Some (h !! m) ∧ ∀ l, way h m l → n ∉ l) →
  ∀ h2, moved n (Some B) h1 h2 → ordered h2 (a ++ n :: B :: b).
Proof.
  intros Ho Hnd Hnns Hold h2 Hm2. assert (Hex : ∀ m, m ∈ a ++ B :: b → is_Some (h !! m)) by (intros m Hm; by apply Hold). destruct (inv_ac _ Hi1 B) as [lB HwB]; [by apply (sameNodes_dom _ _ _ Hs)|]. destruct (taken_B_way lB HwB) as [HnB' HsubB].
  assert (Hway : ∀ m l' , m ∈ a ++ B :: b → way h1 m l' → n ∈ l' → m ∈ a).
  { intros m l' Hm Hw' Hin. destruct (inv_ac _ Hi m (Hex m Hm)) as [l Hw]. destruct (taken_way m l l' n Hw Hw' Hin) as [Hl|[_ [-> |(y & Hy & Hyu)]]]; [|done|].
    - destruct (Hold m Hm) as [_ Hoff]. by destruct (Hoff l Hw).
    - destruct (child_below m l y Hw Hy Hyu) as [HBl HmB]. pose proof (ordered_above h _ a B b m l Ho eq_refl Hm Hw HBl) as Hma. set_solver. }
  assert (Ho1 : ordered h1 (a ++ B :: b)).
  { intros a1 m b1 l' E Hw' x Hx Hin. assert (Hm : m ∈ a ++ B :: b) by (rewrite E; set_solver). destruct (inv_ac _ Hi m (Hex m Hm)) as [l Hw].
    destruct (taken_way m l l' x Hw Hw' Hin) as [Hl|[-> _]]; [by eapply (Ho a1 m b1 l)|]. apply Hnns. rewrite E. by apply elem_of_app; left. }
  assert (Hex1 : ∀ m, m ∈ a ++ B :: b → is_Some (h1 !! m)) by (intros m Hm; apply (sameNodes_dom _ _ _ Hs); auto).
  assert (HB2 : way h2 B lB).
  { eapply way_frame; [done|]. intros x Hx. split; [eapply moved_up; [done|by intros ->]|]. destruct Hm2 as (Hs2 & _). apply (sameNodes_dom _ _ _ Hs2). by eapply way_dom. }
  assert (Hoff : ∀ x, x ∈ a → x ∉ lB).
  { intros x Hx Hin. destruct (inv_ac _ Hi B HB) as [l Hw]. refine (Ho a B b l eq_refl Hw x Hx _). by eapply HsubB. }
  apply ordered_put.
  - eapply (ordered_in h1 h2 n B lB); [done..| |done]. intros a1 m b1 l' x E Hw' Hin Hx. apply Hoff.
    eapply (before_split a b a1 b1 B m); [done..| |done]. apply elem_of_app. left. eapply Hway; [|done..]. rewrite E. set_solver.
  - intros l x Hw Hx. inversion Hw as [? ? Hu|? q l' Hu Hwq]; subst; [rewrite (moved_put _ _ _ _ Hm2) in Hu; done|]. rewrite (moved_put _ _ _ _ Hm2) in Hu. injection Hu as <-.
    rewrite (way_unique _ _ _ _ Hwq HB2). apply not_elem_of_cons. split; [|auto]. intros ->. set_solver.
  - intros m l Hm Hw Hin. assert (Hm' : m ∈ a ++ B :: b) by set_solver. destruct (inv_ac _ Hi1 m (Hex1 m Hm')) as [l1 Hw1].
    assert (Hin1 : n ∈ l1).
    { destruct (way_changed h1 h2 n lB m l1 l n) as [?|[? _]]; try done; [by intros; eapply moved_up|]. intros q lm Hu Hwq. rewrite (moved_put _ _ _ _ Hm2) in Hu. injection Hu as <-. by eapply way_unique. }
    pose proof (Hway m l1 Hm' Hw1 Hin1) as Hma. apply NoDup_app in Hnd as (_ & Hd & _). by apply (Hd m).
Qed.

Lemma taken_kept h0 m : kept h0 h m → m ≠ n → m ≠ B → kept h0 h1 m.
Proof.
  intros (He & Hu & Ho) Hmn HmB. split_and!; [by apply (sameNodes_dom _ _ _ Hs)|rewrite taken_up, decide_False; [done|]; intros E%up_parent; congruence|]. intros y l' Hw' Hin.
  destruct (inv_ac _ Hi y) as [l Hw]; [apply (sameNodes_dom _ _ _ Hs); by eapply way_dom, way_here|]. destruct (taken_way y l l' m Hw Hw' Hin) as [Hl|[-> _]]; [by eapply Ho|done].
Qed.

End TakeAll.
