(* ===== verification/HTMLConstructionSite.v ===== *)
(** * The construction site

    Model of [Source/WebCore/html/parser/HTMLConstructionSite.{h,cpp}]: what the tree
    builder uses to make nodes and to put them into the document. It owns the stack of
    open elements and the list of active formatting elements, and it does not change the
    document at once: it queues tasks, which [executeQueuedTasks] runs after a token.

    The document is the map of nodes of [ContainerNode]. Beside it the state has what
    the site reads and writes of the nodes: the attributes of elements, the data of text
    nodes and the content of templates. A new node has an address that no other has.

    What is not under [src] or not about the tree is a parameter of the class [Parser]:
    the generated element factory, the registry of custom elements, the attributes that
    run script and the break iterator. The association of controls with forms, the
    upgrade of custom elements and the user scripts of the embedder are left out. *)

From Stdlib Require Import String.
From S2P Require Import Prelude ASCIICType HTMLStackItem HTMLElementStack HTMLFormattingElementList ContainerNode.

#[local] Open Scope string_scope.
#[local] Open Scope list_scope.

(** ** Policies and modes *)

Inductive ParserContentPolicy :=
  | DisallowScriptingAndPluginContent | DisallowScriptingContent | AllowScriptingContent | AllowScriptingContentAndDoNotMarkAlreadyStarted.

#[global] Instance ParserContentPolicy_eq_dec : EqDecision ParserContentPolicy.
Proof. solve_decision. Defined.

Definition scriptingContentIsAllowed (policy : ParserContentPolicy) : bool :=
  bool_decide (policy = AllowScriptingContent) || bool_decide (policy = AllowScriptingContentAndDoNotMarkAlreadyStarted).
Definition pluginContentIsAllowed (policy : ParserContentPolicy) : bool := bool_decide (policy ≠ DisallowScriptingAndPluginContent).

Inductive DocumentCompatibilityMode := NoQuirksMode | QuirksMode | LimitedQuirksMode.

#[global] Instance DocumentCompatibilityMode_eq_dec : EqDecision DocumentCompatibilityMode.
Proof. solve_decision. Defined.

(** ** Tokens *)

(** A start or end tag: what the site reads of an [AtomicHTMLToken]. *)
Record TagToken := mkTag { tag_name : list Z; tag_attributes : list Attribute; tag_selfClosing : bool }.

Record DoctypeToken := mkDoctype { doctype_name : list Z; doctype_publicId : list Z; doctype_systemId : list Z; doctype_forceQuirks : bool }.

(** ** Tasks *)

Inductive TaskOperation := Insert | InsertAlreadyParsedChild | Reparent | TakeAllChildrenAndReparent.

#[global] Instance TaskOperation_eq_dec : EqDecision TaskOperation.
Proof. solve_decision. Defined.

Record HTMLConstructionSiteTask := mkTask {
  operation : TaskOperation;
  task_parent : positive;
  task_nextChild : option positive;
  task_child : positive;
  task_selfClosing : bool;
}.

(** ** The state *)

Class Parser := {
  m_attachmentRoot : positive;
  m_parserContentPolicy : ParserContentPolicy;
  m_isParsingFragment : bool;
  m_maximumDOMTreeDepth : Z;
  isSrcdocDocument : bool;
  createKnownElement : list Z → bool;
  findInterface : list Z → bool;
  isScriptingAttribute : QualifiedName → Attribute → bool;
  characterBreak : list Z → Z → Z;
}.

(** The nodes, and the content of the templates that have one. *)
Record Tree := mkTree { document : Heap; contents : gmap positive positive }.

Record HTMLConstructionSite := mkSite {
  m_openElements : HTMLElementStack;
  m_activeFormattingElements : list Entry;
  m_taskQueue : list HTMLConstructionSiteTask;
  m_head : option HTMLStackItem;
  m_form : option positive;
  m_redirectAttachToFosterParent : bool;
  m_inQuirksMode : bool;
  compatibilityMode : DocumentCompatibilityMode;
  tree : Tree;
  attributesOf : gmap positive (list Attribute);
  dataOf : gmap positive (list Z);
}.

Definition set_openElements (x : HTMLElementStack) (s : HTMLConstructionSite) : HTMLConstructionSite :=
  mkSite x (m_activeFormattingElements s) (m_taskQueue s) (m_head s) (m_form s) (m_redirectAttachToFosterParent s) (m_inQuirksMode s) (compatibilityMode s) (tree s) (attributesOf s) (dataOf s).
Definition set_activeFormattingElements (x : list Entry) (s : HTMLConstructionSite) : HTMLConstructionSite :=
  mkSite (m_openElements s) x (m_taskQueue s) (m_head s) (m_form s) (m_redirectAttachToFosterParent s) (m_inQuirksMode s) (compatibilityMode s) (tree s) (attributesOf s) (dataOf s).
Definition set_taskQueue (x : list HTMLConstructionSiteTask) (s : HTMLConstructionSite) : HTMLConstructionSite :=
  mkSite (m_openElements s) (m_activeFormattingElements s) x (m_head s) (m_form s) (m_redirectAttachToFosterParent s) (m_inQuirksMode s) (compatibilityMode s) (tree s) (attributesOf s) (dataOf s).
Definition set_headItem (x : option HTMLStackItem) (s : HTMLConstructionSite) : HTMLConstructionSite :=
  mkSite (m_openElements s) (m_activeFormattingElements s) (m_taskQueue s) x (m_form s) (m_redirectAttachToFosterParent s) (m_inQuirksMode s) (compatibilityMode s) (tree s) (attributesOf s) (dataOf s).
Definition set_form (x : option positive) (s : HTMLConstructionSite) : HTMLConstructionSite :=
  mkSite (m_openElements s) (m_activeFormattingElements s) (m_taskQueue s) (m_head s) x (m_redirectAttachToFosterParent s) (m_inQuirksMode s) (compatibilityMode s) (tree s) (attributesOf s) (dataOf s).
Definition set_redirect (x : bool) (s : HTMLConstructionSite) : HTMLConstructionSite :=
  mkSite (m_openElements s) (m_activeFormattingElements s) (m_taskQueue s) (m_head s) (m_form s) x (m_inQuirksMode s) (compatibilityMode s) (tree s) (attributesOf s) (dataOf s).
Definition set_mode (x : DocumentCompatibilityMode) (s : HTMLConstructionSite) : HTMLConstructionSite :=
  mkSite (m_openElements s) (m_activeFormattingElements s) (m_taskQueue s) (m_head s) (m_form s) (m_redirectAttachToFosterParent s) (bool_decide (x = QuirksMode)) x (tree s) (attributesOf s) (dataOf s).
Definition set_tree (x : Tree) (s : HTMLConstructionSite) : HTMLConstructionSite :=
  mkSite (m_openElements s) (m_activeFormattingElements s) (m_taskQueue s) (m_head s) (m_form s) (m_redirectAttachToFosterParent s) (m_inQuirksMode s) (compatibilityMode s) x (attributesOf s) (dataOf s).
Definition set_attributesOf (x : gmap positive (list Attribute)) (s : HTMLConstructionSite) : HTMLConstructionSite :=
  mkSite (m_openElements s) (m_activeFormattingElements s) (m_taskQueue s) (m_head s) (m_form s) (m_redirectAttachToFosterParent s) (m_inQuirksMode s) (compatibilityMode s) (tree s) x (dataOf s).
Definition set_dataOf (x : gmap positive (list Z)) (s : HTMLConstructionSite) : HTMLConstructionSite :=
  mkSite (m_openElements s) (m_activeFormattingElements s) (m_taskQueue s) (m_head s) (m_form s) (m_redirectAttachToFosterParent s) (m_inQuirksMode s) (compatibilityMode s) (tree s) (attributesOf s) x.

Abbreviation TM := (M Tree).
Abbreviation CM := (M HTMLConstructionSite).

(** A computation on a part of the state. *)
Definition part {St St' A} (get : St' → St) (put : St → St' → St') (m : M St A) : M St' A :=
  λ s, match m (get s) with Some (a, x) => Some (a, put x s) | None => None end.
Definition onStack {A} : M HTMLElementStack A → CM A := part m_openElements set_openElements.
Definition onList {A} : M (list Entry) A → CM A := part m_activeFormattingElements set_activeFormattingElements.
Definition onTree {A} : TM A → CM A := part tree set_tree.
Definition inDOM {A} : M Heap A → TM A := part document (λ h t, mkTree h (contents t)).
Definition onDOM {A} (m : M Heap A) : CM A := onTree (inDOM m).

(** ** Tags *)

Definition hasImpliedEndTag (item : HTMLStackItem) : bool :=
  hasTagName (htmlName "dd") item || hasTagName (htmlName "dt") item || hasTagName (htmlName "li") item
  || isNodeOf (htmlName "option") item || isNodeOf (htmlName "optgroup") item || hasTagName (htmlName "p") item
  || hasTagName (htmlName "rb") item || hasTagName (htmlName "rp") item || hasTagName (htmlName "rt") item || hasTagName (htmlName "rtc") item.

Definition causesFosterParenting (item : HTMLStackItem) : bool :=
  hasTagName (htmlName "table") item || hasTagName (htmlName "tbody") item || hasTagName (htmlName "tfoot") item
  || hasTagName (htmlName "thead") item || hasTagName (htmlName "tr") item.

(** [shouldUseLengthLimit], for a node of a name. *)
Definition shouldUseLengthLimit (name : option QualifiedName) : bool :=
  bool_decide (name ≠ Some (htmlName "script")) && bool_decide (name ≠ Some (htmlName "style")) && bool_decide (name ≠ Some (svgName "script")).

Definition isNonAnchorNonNobrFormattingTag (tagName : list Z) : bool :=
  bool_decide (tagName ∈ text <$> ["b"; "big"; "code"; "em"; "font"; "i"; "s"; "small"; "strike"; "strong"; "tt"; "u"]).
Definition isNonAnchorFormattingTag (tagName : list Z) : bool := bool_decide (tagName = text "nobr") || isNonAnchorNonNobrFormattingTag tagName.
Definition isFormattingTag (tagName : list Z) : bool := bool_decide (tagName = text "a") || isNonAnchorFormattingTag tagName.

(** [isScriptElement] and [isPluginElement], for an element of a name. *)
Definition isScriptElement (name : option QualifiedName) : bool := bool_decide (name = Some (htmlName "script")) || bool_decide (name = Some (svgName "script")).
Definition isPluginElement (name : option QualifiedName) : bool :=
  bool_decide (name = Some (htmlName "object")) || bool_decide (name = Some (htmlName "embed")) || bool_decide (name = Some (htmlName "applet")).

Section Operations.
Context `{Build} `{Script} `{Parser}.

(** ** The current node *)

Definition currentStackItem : CM HTMLStackItem := onStack topStackItem.
Definition currentNode : CM positive := item ← currentStackItem; mret (node_id (m_node item)).

(** ** New nodes *)

(** [new Element(...)] and the like: a node without a parent at a new address. *)
Definition allocate (type : NodeType) (name : option QualifiedName) (host : option positive) : TM positive :=
  h ← gets document;
  let n := base.fresh (dom h) in
  modify (λ t, mkTree (<[n := newNode type name host]> h) (contents t));;
  mret n.
Definition createNode (type : NodeType) (name : option QualifiedName) : CM positive := onTree (allocate type name None).

(** [setAttributes]: the attributes that stay in the token are those the element gets. *)
Definition allowedAttributes (name : QualifiedName) (attributes : list Attribute) : list Attribute :=
  if scriptingContentIsAllowed m_parserContentPolicy then attributes else filter (λ a, isScriptingAttribute name a = false) attributes.
Definition setAttributes (element : positive) (name : QualifiedName) (attributes : list Attribute) : CM (list Attribute) :=
  let attributes := allowedAttributes name attributes in
  modify (λ s, set_attributesOf (<[element := attributes]> (attributesOf s)) s);;
  mret attributes.

(** An element with its attributes: the node and what is left of the token's. *)
Definition createElement (name : QualifiedName) (attributes : list Attribute) : CM (Node * list Attribute) :=
  n ← createNode ELEMENT_NODE (Some name);
  attributes ← setAttributes n name attributes;
  mret (mkNode n (Some name), attributes).

(** [None] when the document has a definition of the custom element; where the caller
    gave no place for it the code writes through a null pointer. *)
Definition createHTMLElementOrFindCustomElementInterface (token : TagToken) (asked : bool) : CM (option (Node * list Attribute)) :=
  if negb (createKnownElement (tag_name token)) && findInterface (tag_name token) && negb m_isParsingFragment then
    if asked then mret None else fault
  else
    e ← createElement (mkName (tag_name token) xhtmlNamespaceURI) (tag_attributes token);
    mret (Some e).

Definition createHTMLElement (token : TagToken) : CM (Node * list Attribute) :=
  e ← createHTMLElementOrFindCustomElementInterface token false;
  match e with Some e => mret e | None => fault end.

Definition createElementFromSavedToken (item : HTMLStackItem) : CM HTMLStackItem :=
  match m_localName item with
  | None => fault
  | Some name =>
      ASSERT (bool_decide (m_namespaceURI item = xhtmlNamespaceURI));;
      ASSERT (isFormattingTag name);;
      '(element, attributes) ← createHTMLElement (mkTag name (m_attributes item) false);
      mret (itemOfToken element name attributes (m_namespaceURI item))
  end.

(** [HTMLTemplateElement::content] *)
Definition templateContent (template : positive) : TM positive :=
  known ← gets (λ t, contents t !! template);
  match known with
  | Some c => mret c
  | None =>
      c ← allocate DOCUMENT_FRAGMENT_NODE None (Some template);
      modify (λ t, mkTree (document t) (<[template := c]> (contents t)));;
      mret c
  end.

(** ** Tasks *)

Definition insertNode (task : HTMLConstructionSiteTask) : TM unit :=
  template ← inDOM (isTemplate (task_parent task));
  '(parent, nextChild) ← (if template : bool then c ← templateContent (task_parent task); mret (c, None) else mret (task_parent task, task_nextChild task));
  p ← inDOM (field m_parentNode (task_child task));
  ASSERT (bool_decide (p = None));;
  match nextChild with
  | Some next => inDOM (parserInsertBefore parent (task_child task) next)
  | None => inDOM (parserAppendChild parent (task_child task))
  end.

Definition executeInsertTask (task : HTMLConstructionSiteTask) : CM unit :=
  ASSERT (bool_decide (operation task = Insert));;
  onTree (insertNode task);;
  onStack (modify (add_event (BegunChildren (task_child task))));;
  if task_selfClosing task then onStack (modify (add_event (FinishedChildren (task_child task)))) else mret tt.

(** [if (parent = child->parentNode()) parent->parserRemoveChild(child);] *)
Definition removeFromParent (child : positive) : TM unit :=
  parent ← inDOM (field m_parentNode child);
  match parent with Some parent => inDOM (parserRemoveChild parent child) | None => mret tt end.

Definition executeReparentTask (task : HTMLConstructionSiteTask) : TM unit :=
  ASSERT (bool_decide (operation task = Reparent));;
  ASSERT (bool_decide (task_nextChild task = None));;
  removeFromParent (task_child task);;
  parent ← inDOM (field m_parentNode (task_child task));
  if bool_decide (parent ≠ None) then mret tt
  else inDOM (parserAppendChild (task_parent task) (task_child task)).

Definition executeInsertAlreadyParsedChildTask (task : HTMLConstructionSiteTask) : TM unit :=
  ASSERT (bool_decide (operation task = InsertAlreadyParsedChild));;
  removeFromParent (task_child task);;
  parent ← inDOM (field m_parentNode (task_child task));
  if bool_decide (parent ≠ None) then mret tt
  else
    stray ← inDOM (notAChild (task_nextChild task) (task_parent task));
    if stray : bool then mret tt else insertNode task.

Definition executeTakeAllChildrenAndReparentTask (task : HTMLConstructionSiteTask) : TM unit :=
  ASSERT (bool_decide (operation task = TakeAllChildrenAndReparent));;
  ASSERT (bool_decide (task_nextChild task = None));;
  let furthestBlock := task_child task in
  inDOM (takeAllChildrenFrom (task_parent task) furthestBlock);;
  parent ← inDOM (field m_parentNode (task_parent task));
  inDOM (RELEASE_ASSERT (bool_decide (parent = None)));;
  inDOM (parserAppendChild furthestBlock (task_parent task)).

Definition executeTask (task : HTMLConstructionSiteTask) : CM unit :=
  match operation task with
  | Insert => executeInsertTask task
  | InsertAlreadyParsedChild => onTree (executeInsertAlreadyParsedChildTask task)
  | Reparent => onTree (executeReparentTask task)
  | TakeAllChildrenAndReparent => onTree (executeTakeAllChildrenAndReparentTask task)
  end.

Fixpoint executeTasks (queue : list HTMLConstructionSiteTask) : CM unit :=
  match queue with [] => mret tt | task :: queue => executeTask task;; executeTasks queue end.

Definition executeQueuedTasks : CM unit :=
  queue ← gets m_taskQueue;
  if bool_decide (length queue = 0%nat) then mret tt
  else modify (set_taskQueue []);; executeTasks queue.

Definition enqueue (task : HTMLConstructionSiteTask) : CM unit := modify (λ s, set_taskQueue (m_taskQueue s ++ [task]) s).

(** ** Where nodes go *)

Definition shouldFosterParent : CM bool :=
  redirect ← gets m_redirectAttachToFosterParent;
  if redirect : bool then item ← currentStackItem; mret (causesFosterParenting item) else mret false.

(** [downcast<DocumentFragment>(parent)->isTemplateContent()] *)
Definition isTemplateContent (fragment : positive) : CM bool :=
  host ← onDOM (field m_host fragment);
  gets (λ s, bool_decide (host ≫= (λ template, contents (tree s) !! template) = Some fragment)).

Definition canBeFosterParent (parent : option positive) : CM bool :=
  match parent with
  | None => mret false
  | Some p =>
      element ← onDOM (isType ELEMENT_NODE p);
      root ← (if m_isParsingFragment then onStack rootNode else mret p);
      fragment ← onDOM (isType DOCUMENT_FRAGMENT_NODE p);
      inTemplate ← (if fragment : bool then isTemplateContent p else mret false);
      mret (element || m_isParsingFragment && bool_decide (p = root) || inTemplate)
  end.

(** The record after one in the chain. *)
Fixpoint nextRecord (address : positive) (records : list ElementRecord) : option ElementRecord :=
  match records with
  | [] => None
  | r :: records => if bool_decide (rec_id r = address) then head records else nextRecord address records
  end.
(** [record->next()], to be followed. *)
Definition next (address : positive) : CM ElementRecord :=
  records ← gets (m_top ∘ m_openElements);
  match nextRecord address records with Some r => mret r | None => fault end.

(** The parent and the next child of the task. *)
Definition findFosterSite : CM (positive * option positive) :=
  lastTemplateElement ← onStack (topmost (text "template"));
  inTable ← (match lastTemplateElement with Some _ => onStack (inTableScope (text "table")) | None => mret true end);
  match lastTemplateElement, inTable : bool with
  | Some template, false => e ← onStack (downcast (m_item template)); mret (node_id e, None)
  | _, _ =>
      lastTableElementRecord ← onStack (topmost (text "table"));
      match lastTableElementRecord with
      | Some table =>
          lastTableElement ← onStack (downcast (m_item table));
          parent ← onDOM (field m_parentNode (node_id lastTableElement));
          can ← canBeFosterParent parent;
          match parent, can : bool with
          | Some p, true => mret (p, Some (node_id lastTableElement))
          | _, _ => below ← next (rec_id table); e ← onStack (downcast (m_item below)); mret (node_id e, None)
          end
      | None => root ← onStack rootNode; mret (root, None)
      end
  end.

Definition fosterParent (node : positive) : CM unit :=
  '(parent, nextChild) ← findFosterSite;
  enqueue (mkTask Insert parent nextChild node false).

Definition attachLater (parent child : positive) (selfClosing : bool) : CM unit :=
  name ← onDOM (field tagQName child);
  ASSERT (scriptingContentIsAllowed m_parserContentPolicy || negb (isScriptElement name));;
  ASSERT (pluginContentIsAllowed m_parserContentPolicy || negb (isPluginElement name));;
  foster ← shouldFosterParent;
  if foster : bool then fosterParent child
  else
    depth ← gets (m_stackDepth ∘ m_openElements);
    above ← onDOM (field m_parentNode parent);
    enqueue (mkTask Insert (if (m_maximumDOMTreeDepth <? depth)%Z then default parent above else parent) None child selfClosing).

(** ** Compatibility modes *)

Definition setCompatibilityMode (mode : DocumentCompatibilityMode) : CM unit := modify (set_mode mode).

Definition setDefaultCompatibilityMode : CM unit :=
  if m_isParsingFragment then mret tt else if isSrcdocDocument then mret tt else setCompatibilityMode QuirksMode.

Definition quirksPrefixes : list string :=
  ["+//silmaril//dtd html pro v0r11 19970101//"; "-//advasoft ltd//dtd html 3.0 aswedit + extensions//"; "-//as//dtd html 3.0 aswedit + extensions//";
   "-//ietf//dtd html 2.0 level 1//"; "-//ietf//dtd html 2.0 level 2//"; "-//ietf//dtd html 2.0 strict level 1//"; "-//ietf//dtd html 2.0 strict level 2//";
   "-//ietf//dtd html 2.0 strict//"; "-//ietf//dtd html 2.0//"; "-//ietf//dtd html 2.1e//"; "-//ietf//dtd html 3.0//"; "-//ietf//dtd html 3.2 final//";
   "-//ietf//dtd html 3.2//"; "-//ietf//dtd html 3//"; "-//ietf//dtd html level 0//"; "-//ietf//dtd html level 1//"; "-//ietf//dtd html level 2//";
   "-//ietf//dtd html level 3//"; "-//ietf//dtd html strict level 0//"; "-//ietf//dtd html strict level 1//"; "-//ietf//dtd html strict level 2//";
   "-//ietf//dtd html strict level 3//"; "-//ietf//dtd html strict//"; "-//ietf//dtd html//"; "-//metrius//dtd metrius presentational//";
   "-//microsoft//dtd internet explorer 2.0 html strict//"; "-//microsoft//dtd internet explorer 2.0 html//"; "-//microsoft//dtd internet explorer 2.0 tables//";
   "-//microsoft//dtd internet explorer 3.0 html strict//"; "-//microsoft//dtd internet explorer 3.0 html//"; "-//microsoft//dtd internet explorer 3.0 tables//";
   "-//netscape comm. corp.//dtd html//"; "-//netscape comm. corp.//dtd strict html//"; "-//o'reilly and associates//dtd html 2.0//";
   "-//o'reilly and associates//dtd html extended 1.0//"; "-//o'reilly and associates//dtd html extended relaxed 1.0//";
   "-//softquad software//dtd hotmetal pro 6.0::19990601::extensions to html 4.0//"; "-//softquad//dtd hotmetal pro 4.0::19971010::extensions to html 4.0//";
   "-//spyglass//dtd html 2.0 extended//"; "-//sq//dtd html 2.0 hotmetal + extensions//"; "-//sun microsystems corp.//dtd hotjava html//";
   "-//sun microsystems corp.//dtd hotjava strict html//"; "-//w3c//dtd html 3 1995-03-24//"; "-//w3c//dtd html 3.2 draft//"; "-//w3c//dtd html 3.2 final//";
   "-//w3c//dtd html 3.2//"; "-//w3c//dtd html 3.2s draft//"; "-//w3c//dtd html 4.0 frameset//"; "-//w3c//dtd html 4.0 transitional//";
   "-//w3c//dtd html experimental 19960712//"; "-//w3c//dtd html experimental 970421//"; "-//w3c//dtd w3 html//"; "-//w3o//dtd w3 html 3.0//";
   "-//webtechs//dtd mozilla html 2.0//"; "-//webtechs//dtd mozilla html//"].
Definition quirksPublicIds : list string := ["-//w3o//dtd w3 html strict 3.0//en//"; "-/w3c/dtd html 4.0 transitional/en"; "html"].
Definition quirksSystemId : string := "http://www.ibm.com/data/dtd/v11/ibmxhtml1-transitional.dtd".
Definition html401Prefixes : list string := ["-//w3c//dtd html 4.01 frameset//"; "-//w3c//dtd html 4.01 transitional//"].
Definition limitedQuirksPrefixes : list string := ["-//w3c//dtd xhtml 1.0 frameset//"; "-//w3c//dtd xhtml 1.0 transitional//"].

Definition startsWithLettersIgnoringASCIICase (characters : list Z) (lowercaseLetters : string) : bool :=
  let letters := text lowercaseLetters in
  (length letters <=? length characters)%nat && forallb (λ p, isASCIIAlphaCaselessEqual p.1 p.2) (zip characters letters).

Definition modeFromDoctype (name publicId systemId : list Z) : DocumentCompatibilityMode :=
  let html401 := existsb (startsWithLettersIgnoringASCIICase publicId) html401Prefixes in
  if bool_decide (name ≠ text "html") || existsb (startsWithLettersIgnoringASCIICase publicId) quirksPrefixes
     || existsb (equalLettersIgnoringASCIICase publicId) quirksPublicIds || equalLettersIgnoringASCIICase systemId quirksSystemId
     || bool_decide (systemId = []) && html401 then QuirksMode
  else if existsb (startsWithLettersIgnoringASCIICase publicId) limitedQuirksPrefixes || bool_decide (systemId ≠ []) && html401 then LimitedQuirksMode
  else NoQuirksMode.
Definition setCompatibilityModeFromDoctype (name publicId systemId : list Z) : CM unit := setCompatibilityMode (modeFromDoctype name publicId systemId).

(** ** Insertions *)

Definition insertDoctype (token : DoctypeToken) : CM unit :=
  doctype ← createNode DOCUMENT_TYPE_NODE None;
  attachLater m_attachmentRoot doctype false;;
  ASSERT (negb m_isParsingFragment);;
  if m_isParsingFragment then mret tt
  else if doctype_forceQuirks token then setCompatibilityMode QuirksMode
  else setCompatibilityModeFromDoctype (doctype_name token) (doctype_publicId token) (doctype_systemId token).

Definition createComment (comment : list Z) : CM positive :=
  n ← createNode COMMENT_NODE None; modify (λ s, set_dataOf (<[n := comment]> (dataOf s)) s);; mret n.
Definition insertComment (comment : list Z) : CM unit := parent ← currentNode; n ← createComment comment; attachLater parent n false.
Definition insertCommentOnDocument (comment : list Z) : CM unit := n ← createComment comment; attachLater m_attachmentRoot n false.
Definition insertCommentOnHTMLHtmlElement (comment : list Z) : CM unit := parent ← onStack rootNode; n ← createComment comment; attachLater parent n false.

(** The item of an element made from a token. *)
Definition itemOf (e : Node * list Attribute) (token : TagToken) (ns : Namespace) : HTMLStackItem := itemOfToken e.1 (tag_name token) e.2 ns.

Definition insertHTMLHtmlStartTagBeforeHTML (token : TagToken) : CM unit :=
  e ← createElement (htmlName "html") (tag_attributes token);
  attachLater m_attachmentRoot (node_id e.1) false;;
  onStack (pushHTMLHtmlElement (itemOf e token xhtmlNamespaceURI));;
  executeQueuedTasks.

(** The attributes with one more, unless there is one of its name. *)
Definition mergeAttribute (attributes : list Attribute) (attribute : Attribute) : list Attribute :=
  match findIn attributes (attributeName attribute) with Some _ => attributes | None => attributes ++ [attribute] end.
Definition mergeAttributesFromTokenIntoElement (token : TagToken) (element : positive) : CM unit :=
  if bool_decide (tag_attributes token = []) then mret tt
  else modify (λ s, set_attributesOf (<[element := foldl mergeAttribute (default [] (attributesOf s !! element)) (tag_attributes token)]> (attributesOf s)) s).
Definition insertHTMLHtmlStartTagInBody (token : TagToken) : CM unit :=
  if m_isParsingFragment then mret tt else html ← onStack rootNode; mergeAttributesFromTokenIntoElement token html.
Definition insertHTMLBodyStartTagInBody (token : TagToken) : CM unit := body ← onStack bodyElement; mergeAttributesFromTokenIntoElement token body.

Definition assertNotFostering : CM unit := foster ← shouldFosterParent; ASSERT (negb foster).

Definition insertHTMLHeadElement (token : TagToken) : CM unit :=
  assertNotFostering;;
  e ← createHTMLElement token;
  let item := itemOf e token xhtmlNamespaceURI in
  modify (set_headItem (Some item));;
  parent ← currentNode;
  attachLater parent (node_id e.1) false;;
  onStack (pushHTMLHeadElement item).

Definition insertHTMLBodyElement (token : TagToken) : CM unit :=
  assertNotFostering;;
  e ← createHTMLElement token;
  parent ← currentNode;
  attachLater parent (node_id e.1) false;;
  onStack (pushHTMLBodyElement (itemOf e token xhtmlNamespaceURI)).

Definition insertHTMLFormElement (token : TagToken) : CM unit :=
  e ← createHTMLElement token;
  template ← onStack hasTemplateInHTMLScope;
  (if template : bool then mret tt else modify (set_form (Some (node_id e.1))));;
  parent ← currentNode;
  attachLater parent (node_id e.1) false;;
  onStack (push (itemOf e token xhtmlNamespaceURI)).

Definition insertHTMLElement (token : TagToken) : CM unit :=
  e ← createHTMLElement token;
  parent ← currentNode;
  attachLater parent (node_id e.1) false;;
  onStack (push (itemOf e token xhtmlNamespaceURI)).

(** [true]: there is a definition, the caller makes the element. *)
Definition insertHTMLElementOrFindCustomElementInterface (token : TagToken) : CM bool :=
  e ← createHTMLElementOrFindCustomElementInterface token true;
  match e with
  | None => mret true
  | Some e =>
      parent ← currentNode;
      attachLater parent (node_id e.1) false;;
      onStack (push (itemOf e token xhtmlNamespaceURI));;
      mret false
  end.

Definition insertCustomElement (element : Node) (name : list Z) (attributes : list Attribute) : CM unit :=
  attributes ← setAttributes (node_id element) (mkName name xhtmlNamespaceURI) attributes;
  parent ← currentNode;
  attachLater parent (node_id element) false;;
  onStack (push (itemOfToken element name attributes xhtmlNamespaceURI));;
  executeQueuedTasks.

Definition insertSelfClosingHTMLElement (token : TagToken) : CM unit :=
  e ← createHTMLElement token; parent ← currentNode; attachLater parent (node_id e.1) true.

Definition insertFormattingElement (token : TagToken) : CM unit :=
  ASSERT (isFormattingTag (tag_name token));;
  insertHTMLElement token;;
  item ← currentStackItem;
  onList (append item).

Definition insertScriptElement (token : TagToken) : CM unit :=
  e ← createElement (htmlName "script") (tag_attributes token);
  (if scriptingContentIsAllowed m_parserContentPolicy then parent ← currentNode; attachLater parent (node_id e.1) false else mret tt);;
  onStack (push (itemOf e token xhtmlNamespaceURI)).

Definition insertForeignElement (token : TagToken) (ns : Namespace) : CM unit :=
  e ← createElement (mkName (tag_name token) ns) (tag_attributes token);
  (if scriptingContentIsAllowed m_parserContentPolicy || negb (isScriptElement (node_name e.1))
   then parent ← currentNode; attachLater parent (node_id e.1) (tag_selfClosing token) else mret tt);;
  if tag_selfClosing token then mret tt else onStack (push (itemOf e token ns)).

(** ** Text *)

Definition defaultLengthLimit : Z := 2 ^ 16.
Definition maxUnsigned : Z := 2 ^ 32 - 1.
Definition lengthZ (l : list Z) : Z := Z.of_nat (length l).

(** [CharacterData::parserAppendData]: how many characters were appended. *)
Definition parserAppendData (node : positive) (string : list Z) (offset lengthLimit : Z) : CM Z :=
  data ← gets (λ s, default [] (dataOf s !! node));
  let oldLength := lengthZ data in
  ASSERT (oldLength <=? lengthLimit)%Z;;
  let characterLength := u32 (lengthZ string - offset) in
  let limit := Z.min characterLength (u32 (lengthLimit - oldLength)) in
  let characterLengthLimit :=
    if (limit <? characterLength)%Z then
      characterBreak (take (Z.to_nat (if (characterLength <? limit + 2)%Z then characterLength else limit + 2)) (drop (Z.to_nat offset) string)) limit
    else limit in
  if (characterLengthLimit =? 0)%Z then mret 0
  else
    modify (λ s, set_dataOf (<[node := data ++ take (Z.to_nat characterLengthLimit) (drop (Z.to_nat offset) string)]> (dataOf s)) s);;
    parent ← onDOM (field m_parentNode node);
    (match parent with Some parent => onDOM (hook (ChildrenChanged parent)) | None => mret tt end);;
    mret characterLengthLimit.

Definition createText (data : list Z) : CM positive :=
  n ← createNode TEXT_NODE None; modify (λ s, set_dataOf (<[n := data]> (dataOf s)) s);; mret n.

(** [Text::createWithLengthLimit] *)
Definition createWithLengthLimit (data : list Z) (start lengthLimit : Z) : CM positive :=
  if (start =? 0)%Z && (lengthZ data <=? lengthLimit)%Z then createText data
  else n ← createText []; parserAppendData n data start lengthLimit;; mret n.

Definition textLength (node : positive) : CM Z := gets (λ s, lengthZ (default [] (dataOf s !! node))).

(** The loop of [insertTextNode] from a position. *)
Fixpoint textLoop (fuel : nat) (parent : positive) (nextChild : option positive) (characters : list Z) (lengthLimit currentPosition : Z) : CM unit :=
  if (lengthZ characters <=? currentPosition)%Z then mret tt
  else match fuel with
       | O => fault
       | S fuel =>
           node ← createWithLengthLimit characters currentPosition lengthLimit;
           length ← textLength node;
           node ← (if (length =? 0)%Z then createText (drop (Z.to_nat currentPosition) characters) else mret node);
           length ← textLength node;
           ASSERT (currentPosition + length <=? lengthZ characters)%Z;;
           executeTask (mkTask Insert parent nextChild node false);;
           textLoop fuel parent nextChild characters lengthLimit (currentPosition + length)
       end.

(** [is<Text>(node)] *)
Definition isTextNode (node : positive) : CM bool := type ← onDOM (field nodeType node); mret (bool_decide (type ∈ [TEXT_NODE; CDATA_SECTION_NODE])).

Definition insertTextNode (characters : list Z) : CM unit :=
  current ← currentNode;
  foster ← shouldFosterParent;
  '(parent, nextChild) ← (if foster : bool then findFosterSite else mret (current, None));
  name ← onDOM (field tagQName parent);
  let lengthLimit := if shouldUseLengthLimit name then defaultLengthLimit else maxUnsigned in
  previousChild ← (match nextChild with Some next => onDOM (field m_previous next) | None => onDOM (field m_lastChild parent) end);
  currentPosition ← (match previousChild with
                     | Some node => isText ← isTextNode node; if isText : bool then parserAppendData node characters 0 lengthLimit else mret 0
                     | None => mret 0
                     end);
  textLoop (length characters) parent nextChild characters lengthLimit currentPosition.

(** ** The adoption agency's tasks *)

Definition reparent (newParent child : ElementRecord) : CM unit :=
  element ← onStack (downcast (m_item child));
  enqueue (mkTask Reparent (HTMLElementStack.nodeOf newParent) None (node_id element) false).

Definition insertAlreadyParsedChild (newParent : HTMLStackItem) (child : ElementRecord) : CM unit :=
  '(parent, nextChild) ← (if causesFosterParenting newParent then findFosterSite else mret (node_id (m_node newParent), None));
  element ← onStack (downcast (m_item child));
  enqueue (mkTask InsertAlreadyParsedChild parent nextChild (node_id element) false).

Definition takeAllChildrenAndReparent (newParent : HTMLStackItem) (oldParent : ElementRecord) : CM unit :=
  enqueue (mkTask TakeAllChildrenAndReparent (node_id (m_node newParent)) None (HTMLElementStack.nodeOf oldParent) false).

(** ** Formatting elements and implied end tags *)

(** The loop of [indexOfFirstUnopenFormattingElement], from an index down. *)
Fixpoint unopenLoop (index : nat) : CM (option nat) :=
  match index with
  | O => mret (Some O)
  | S index =>
      entry ← onList (at_ index);
      stop ← (match entry with
              | None => mret true
              | Some item => e ← onStack (downcast item); onStack (HTMLElementStack.contains (node_id e))
              end);
      if stop : bool then size ← gets (length ∘ m_activeFormattingElements); mret (if (index + 1 <? size)%nat then Some (index + 1)%nat else None)
      else unopenLoop index
  end.
Definition indexOfFirstUnopenFormattingElement : CM (option nat) :=
  size ← gets (length ∘ m_activeFormattingElements);
  if (size =? 0)%nat then mret None else unopenLoop size.

(** The loop over the entries from an index on. *)
Fixpoint reconstructLoop (count index : nat) : CM unit :=
  match count with
  | O => mret tt
  | S count =>
      entry ← onList (at_ index);
      match entry with
      | None => fault
      | Some item =>
          reconstructed ← createElementFromSavedToken item;
          parent ← currentNode;
          attachLater parent (node_id (m_node reconstructed)) false;;
          onStack (push reconstructed);;
          onList (HTMLFormattingElementList.replaceElement index reconstructed);;
          reconstructLoop count (S index)
      end
  end.
Definition reconstructTheActiveFormattingElements : CM unit :=
  first ← indexOfFirstUnopenFormattingElement;
  match first with
  | None => mret tt
  | Some index =>
      size ← gets (length ∘ m_activeFormattingElements);
      ASSERT (index <? size)%nat;;
      reconstructLoop (size - index) index
  end.

(** [while (hasImpliedEndTag(currentStackItem()) && ...) m_openElements.pop();] *)
Fixpoint impliedLoop (fuel : nat) (excluded : HTMLStackItem → bool) : CM unit :=
  match fuel with
  | O => fault
  | S fuel =>
      item ← currentStackItem;
      if hasImpliedEndTag item && negb (excluded item) then onStack pop;; impliedLoop fuel excluded else mret tt
  end.
Definition generateImpliedEndTagsWithExclusion (tagName : list Z) : CM unit :=
  n ← gets (length ∘ m_top ∘ m_openElements); impliedLoop (S n) (matchesHTMLTag tagName).
Definition generateImpliedEndTags : CM unit := n ← gets (length ∘ m_top ∘ m_openElements); impliedLoop (S n) (λ _, false).

(** ** The form and the root *)

Definition setForm (form : option positive) : CM unit :=
  current ← gets m_form;
  ASSERT (bool_decide (current = None));;
  modify (set_form form).
Definition takeForm : CM (option positive) :=
  form ← gets m_form;
  modify (set_form None);;
  mret form.
Definition isEmpty : CM bool := gets (λ s, bool_decide (m_stackDepth (m_openElements s) = 0)).
Definition currentIsRootNode : CM bool :=
  top ← currentNode;
  root ← onStack rootNode;
  mret (bool_decide (top = root)).

End Operations.
