(* ===== verification/AdoptionAgency.v ===== *)
(** * The adoption agency algorithm

    Model of [callTheAdoptionAgency] and [processAnyOtherEndTagForInBody] of
    [Source/WebCore/html/parser/HTMLTreeBuilder.cpp]: what the tree builder does with the
    end tag of a formatting element, when elements may be open that the formatting
    element does not contain.

    A pointer to a record of the stack is its address; following it when the record is
    gone is a fault. Parse errors are not reported. *)

From Stdlib Require Import String.
From S2P Require Import Prelude HTMLStackItem HTMLElementStack HTMLFormattingElementList ContainerNode HTMLConstructionSite.

#[local] Open Scope string_scope.
#[local] Open Scope list_scope.

Definition outerIterationLimit : nat := 8.
Definition innerIterationLimit : nat := 3.

Section Operations.
Context `{Build} `{Script} `{Parser}.

(** [*record] and [record->next()] *)
Definition deref (record : positive) : CM ElementRecord :=
  records ← gets (m_top ∘ m_openElements);
  match findRecord (λ r, bool_decide (rec_id r = record)) records with Some r => mret r | None => fault end.
Definition nextPointer (record : positive) : CM (option positive) :=
  _ ← deref record; gets (λ s, rec_id <$> nextRecord record (m_top (m_openElements s))).

(** The loop over the records from the top. *)
Fixpoint anyOtherLoop (tagName : list Z) (records : list ElementRecord) : CM unit :=
  match records with
  | [] => fault
  | r :: records =>
      if matchesHTMLTag tagName (m_item r) then
        generateImpliedEndTagsWithExclusion tagName;;
        _ ← currentStackItem;
        element ← onStack (downcast (m_item r));
        onStack (popUntilElementPopped (node_id element))
      else if isSpecialNode (m_item r) then mret tt
      else anyOtherLoop tagName records
  end.
Definition processAnyOtherEndTagForInBody (tagName : list Z) : CM unit :=
  _ ← onStack topRecord;
  records ← gets (m_top ∘ m_openElements);
  anyOtherLoop tagName records.

(** Steps 9.4 to 9.10, as often as the limit allows: the last node and the bookmark. *)
Fixpoint innerLoop (count : nat) (formattingElementRecord furthestBlock : positive) (nextNode : option positive) (lastNode : positive) (bookmark : Bookmark) : CM (positive * Bookmark) :=
  match count with
  | O => mret (lastNode, bookmark)
  | S count =>
      match nextNode with
      | None => fault
      | Some node =>
          record ← deref node;
          nextNode ← nextPointer node;
          element ← onStack (downcast (m_item record));
          active ← onList (HTMLFormattingElementList.contains (node_id element));
          if negb active then
            onStack (HTMLElementStack.remove element);;
            innerLoop count formattingElementRecord furthestBlock nextNode lastNode bookmark
          else if bool_decide (node = formattingElementRecord) then mret (lastNode, bookmark)
          else
            newItem ← createElementFromSavedToken (m_item record);
            nodeEntry ← onList (HTMLFormattingElementList.find (node_id element));
            match nodeEntry with
            | None => fault
            | Some entry =>
                onList (HTMLFormattingElementList.replaceElement entry newItem);;
                onStack (HTMLElementStack.replaceElement node newItem);;
                newParent ← deref node;
                child ← deref lastNode;
                reparent newParent child;;
                innerLoop count formattingElementRecord furthestBlock nextNode node
                  (if bool_decide (lastNode = furthestBlock) then moveToAfter entry bookmark else bookmark)
            end
      end
  end.

(** Steps 7 to 15, for a formatting element and its furthest block. *)
Definition adopt (formattingElement : Node) (formattingElementRecord furthestBlock : positive) : CM unit :=
  records ← gets (m_top ∘ m_openElements);
  ASSERT (isAbove furthestBlock formattingElementRecord records);;
  commonAncestor ← next formattingElementRecord;
  bookmark ← onList (bookmarkFor (node_id formattingElement));
  nextNode ← nextPointer furthestBlock;
  '(lastNode, bookmark) ← innerLoop innerIterationLimit formattingElementRecord furthestBlock nextNode furthestBlock bookmark;
  child ← deref lastNode;
  insertAlreadyParsedChild (m_item commonAncestor) child;;
  record ← deref formattingElementRecord;
  newItem ← createElementFromSavedToken (m_item record);
  block ← deref furthestBlock;
  takeAllChildrenAndReparent newItem block;;
  onList (swapTo (node_id formattingElement) newItem bookmark);;
  onStack (HTMLElementStack.remove formattingElement);;
  onStack (insertAbove newItem furthestBlock).

(** One turn of the outer loop; [false] is a return. *)
Definition outerStep (tagName : list Z) : CM bool :=
  formattingElement ← onList (closestElementInScopeWithName tagName);
  match formattingElement with
  | None => processAnyOtherEndTagForInBody tagName;; mret false
  | Some formattingElement =>
      open ← onStack (HTMLElementStack.contains (node_id formattingElement));
      scoped ← (if open : bool then onStack (inScopeElement (node_id formattingElement)) else mret true);
      if open && negb scoped then mret false
      else
        formattingElementRecord ← onStack (HTMLElementStack.find (node_id formattingElement));
        match formattingElementRecord with
        | None => onList (HTMLFormattingElementList.remove (node_id formattingElement));; mret false
        | Some record =>
            _ ← onStack top;
            furthestBlock ← onStack (furthestBlockForFormattingElement (node_id formattingElement));
            match furthestBlock with
            | None =>
                onStack (popUntilElementPopped (node_id formattingElement));;
                onList (HTMLFormattingElementList.remove (node_id formattingElement));;
                mret false
            | Some block => adopt formattingElement (rec_id record) (rec_id block);; mret true
            end
        end
  end.

Fixpoint outerLoop (count : nat) (tagName : list Z) : CM unit :=
  match count with
  | O => mret tt
  | S count => again ← outerStep tagName; if again : bool then outerLoop count tagName else mret tt
  end.
Definition callTheAdoptionAgency (tagName : list Z) : CM unit := outerLoop outerIterationLimit tagName.

End Operations.
