(* ===== verification/TreeTasks.v ===== *)
(** * The tasks of the construction site, when no script runs

    What each kind of task does to a well-formed tree ([treeOk]) with the open elements
    in order, and what a queue of tasks leaves ([outcome]). Tasks are queued while nodes
    are still made, so that [pending] asks the queue to do well in every document that
    has more nodes. *)

From Stdlib Require Import String.
From S2P Require Import Prelude HTMLStackItem HTMLElementStack HTMLFormattingElementList ContainerNode ContainerNodeLists ContainerNodeCorrect ContainerNodeScripts ContainerNodeTheorems.
From S2P Require Import TreeOrder HTMLConstructionSite.

#[local] Open Scope list_scope.

Lemma wp_part {St St' A} (get : St' → St) (put : St → St' → St') (m : M St A) (Q : A → St' → Prop) s :
  wp m (λ a x, Q a (put x s)) (get s) → wp (part get put m) Q s.
Proof. unfold wp, part. by destruct (m (get s)) as [[? ?]|]. Qed.

(** ** Well-formed trees *)

Record treeOk (T : Tree) : Prop := mkTreeOk {
  tree_inv : inv (document T);
  tree_content : contentKids (document T);
  tree_templates : ∀ t c, contents T !! t = Some c → is_Some (document T !! t) ∧ ∃ r, document T !! c = Some r ∧ static r = (DOCUMENT_FRAGMENT_NODE, None, Some t);
}.

Lemma treeOk_extends T h : treeOk T → extends (document T) h → treeOk (mkTree h (contents T)).
Proof.
  intros [Hi Hc Ht] He. constructor; cbn.
  - by eapply inv_extends.
  - intros n p Hp Hty. rewrite (extends_parent _ h) in Hp by done. destruct (h !! p) as [rp|] eqn:Ep; [|by unfold typeOf in Hty; rewrite Ep in Hty].
    assert (Hex : ∀ m, is_Some (document T !! m) → typeOf h m = typeOf (document T) m) by (intros m [r Hr]; unfold typeOf; by rewrite Hr, (extends_lookup (document T) h m r)).
    destruct Hi as [k Hk]. assert (Hin : n ∈ k p) by (by apply (reps_parent _ _ (inv_reps _ _ Hk))). pose proof (kids_exist _ _ _ _ (inv_reps _ _ Hk) Hin) as Hn.
    pose proof (parent_exists _ _ _ _ Hk Hin) as Hpe. unfold contentType. rewrite Hex by done. rewrite Hex in Hty by done. by apply (Hc n p).
  - intros t c Hc'. destruct (Ht t c Hc') as ([rt Hrt] & r & Hr & Hs). split; [exists rt; by eapply extends_lookup|]. exists r. split; [by eapply extends_lookup|done].
Qed.

Definition changed (T : Tree) (h : Heap) : Tree := mkTree h (contents T).

(** A node that moved fits where it came. *)
Lemma treeOk_moved T h c q :
  treeOk T → inv h → moved c q (document T) h → (∀ p, q = Some p → typeOf (document T) p = Some ELEMENT_NODE → contentType (document T) c = true) → treeOk (changed T h).
Proof.
  intros [Hi Hc Ht] Hi' Hm Hfit. pose proof Hm as (Hs & Hq & Ho). constructor; cbn; [done| |].
  - intros n p Hp Hty. rewrite (sameNodes_contentType (document T) h) by done. rewrite (sameNodes_typeOf (document T) h) in Hty by done.
    destruct (decide (n = c)) as [-> |Hne]; [apply (Hfit p); congruence|]. rewrite Ho in Hp by done. by apply (Hc n p).
  - intros t f Hf. destruct (Ht t f Hf) as (Hex & r & Hr & Hst). split; [by apply (sameNodes_dom _ _ _ Hs)|].
    destruct (sameNodes_grows _ _ Hs f r Hr) as (r' & Hr' & Est). exists r'. split; [done|congruence].
Qed.

Section Quiet.
Context `{Build} `{Parser}.
#[local] Existing Instance quiet.

(** ** The place of an insertion *)

(** The tree after the content of a template was made, if it was, and the node to insert into. *)
Definition destination (p : positive) (lp : list positive) (T T' : Tree) (q : positive) : Prop :=
  treeOk T' ∧ extends (document T) (document T') ∧ tagOf (document T') q ≠ Some (htmlName "template") ∧
  (∀ m, document T !! m = None → up (document T') m ≠ None → up (document T') m = Some p) ∧
  (q = p ∧ T' = T ∨ typeOf (document T') q = Some DOCUMENT_FRAGMENT_NODE ∧ way (document T') q (q :: lp)).

Lemma fresh_none (h : Heap) : h !! base.fresh (dom h) = None.
Proof. apply not_elem_of_dom, is_fresh. Qed.

Lemma fragment_way T f t r l :
  treeOk T → document T !! f = Some r → static r = (DOCUMENT_FRAGMENT_NODE, None, Some t) → way (document T) t l → way (document T) f (f :: l).
Proof.
  intros HT Hr Hs Hw. apply (way_step _ _ t); [|done]. destruct (tree_inv _ HT) as [k Hk]. destruct (inv_typed _ _ Hk f r Hr) as [_ Hp].
  injection Hs as E1 E2 E3. unfold up. rewrite Hr. cbn. unfold upOf. by rewrite Hp.
Qed.

Lemma wp_templateContent p lp (Q : positive → Tree → Prop) T :
  treeOk T → way (document T) p lp → (∀ T' q, destination p lp T T' q → typeOf (document T') q = Some DOCUMENT_FRAGMENT_NODE → Q q T') → wp (templateContent p) Q T.
Proof.
  intros HT Hw HQ. unfold templateContent. apply wp_bind, wp_gets. destruct (contents T !! p) as [c|] eqn:Ec.
  - destruct (tree_templates _ HT p c Ec) as (_ & r & Hr & Hs). pose proof Hs as [= E1 E2 E3]. assert (Hty : typeOf (document T) c = Some DOCUMENT_FRAGMENT_NODE) by (unfold typeOf; rewrite Hr; cbn; congruence).
    apply wp_ret, HQ; [|done]. split_and!; [done|apply extends_refl|unfold tagOf; rewrite Hr; cbn; congruence| |].
    + intros m Hm Hu. unfold up in Hu. by rewrite Hm in Hu.
    + right. split; [done|]. by eapply fragment_way.
  - unfold allocate. apply wp_bind, wp_bind, wp_gets. apply wp_bind, wp_modify. apply wp_ret, wp_bind, wp_modify. apply wp_ret.
    set (f := base.fresh (dom (document T))). pose proof (fresh_none (document T)) as Hf. fold f in Hf.
    assert (He : extends (document T) (<[f := newNode DOCUMENT_FRAGMENT_NODE None (Some p)]> (document T))) by (apply extends_insert; [done|]; split; [done|by eapply way_exists]).
    assert (HT' : treeOk (mkTree (<[f := newNode DOCUMENT_FRAGMENT_NODE None (Some p)]> (document T)) (<[p := f]> (contents T)))).
    { destruct (treeOk_extends _ _ HT He) as [Hi Hc Ht]. constructor; [done..|]. cbn. intros t c Hc'. destruct (decide (t = p)) as [-> |Hne]; [|rewrite lookup_insert_ne in Hc' by done; by apply Ht].
      rewrite lookup_insert_eq in Hc'. injection Hc' as <-. split; [apply (extends_grows _ _) in He; by eapply grows_lookup; [|eapply way_exists]|].
      eexists. rewrite lookup_insert_eq. done. }
    assert (Hty : typeOf (<[f := newNode DOCUMENT_FRAGMENT_NODE None (Some p)]> (document T)) f = Some DOCUMENT_FRAGMENT_NODE) by (unfold typeOf; by rewrite lookup_insert_eq).
    apply HQ; [|done]. split_and!; [done|done|cbn; unfold tagOf; by rewrite lookup_insert_eq| |].
    + cbn [document]. intros m Hm Hu. unfold up in Hu |- *. destruct (decide (m = f)) as [Ef|Hne]; [rewrite Ef, lookup_insert_eq; done|]. rewrite lookup_insert_ne, Hm in Hu by done. done.
    + right. split; [done|]. refine (fragment_way _ f p _ lp HT' (lookup_insert_eq _ _ _) eq_refl _). by eapply way_extends.
Qed.

(** Putting an orphan where a task says. *)
Lemma wp_insertNode task lp (Q : unit → Tree → Prop) T :
  let c := task_child task in
  let p := task_parent task in
  treeOk T → way (document T) p lp → c ∉ lp → parentOf (document T) c = None → (∃ t, typeOf (document T) c = Some t ∧ t ≠ DOCUMENT_FRAGMENT_NODE) →
  (typeOf (document T) p = Some ELEMENT_NODE → contentType (document T) c = true) →
  (∀ x, task_nextChild task = Some x → parentOf (document T) x = Some p) →
  (∀ T1 q h, destination p lp T T1 q → c ≠ q → moved c (Some q) (document T1) h → treeOk (changed T1 h) →
     (q = p ∧ placed c q (task_nextChild task) (document T1) h ∨ tagOf (document T) p = Some (htmlName "template")) → Q tt (changed T1 h)) → wp (insertNode task) Q T.
Proof.
  cbn zeta. intros HT Hw Hc Hpc (t & Ht & Hne) Hfit Hnext HQ. unfold insertNode. destruct (way_exists _ _ _ Hw) as [rp Hrp].
  assert (Hplace : ∀ T1 q next (lq : list positive), destination (task_parent task) lp T T1 q → way (document T1) q lq → task_child task ∉ lq →
    (typeOf (document T1) q = Some ELEMENT_NODE → contentType (document T1) (task_child task) = true) →
    match next with Some x => parentOf (document T1) x = Some q | None => True end → (q = task_parent task ∧ next = task_nextChild task ∨ tagOf (document T) (task_parent task) = Some (htmlName "template")) →
    wp (p ← inDOM (field m_parentNode (task_child task)); ASSERT (bool_decide (p = None));;
        match next with Some next => inDOM (parserInsertBefore q (task_child task) next) | None => inDOM (parserAppendChild q (task_child task)) end) Q T1).
  { intros T1 q next lq Hd Hwq Hcq Hfitq Hnx Hwhere. pose proof Hd as (HT1 & He & Htag & _). pose proof (grows_typeOf _ _ _ _ (extends_grows _ _ He) Ht) as Ht1.
    destruct (typeOf_Some _ _ _ Ht1) as (rc & Hrc & _). assert (Hpc1 : parentOf (document T1) (task_child task) = None) by (by rewrite (extends_parent (document T))).
    apply wp_bind, wp_part. eapply wp_field; [done|]. apply wp_bind, wp_ASSERT; [apply bool_decide_eq_true; by eapply orphan_field|].
    assert (Hend : ∀ h, inv h → moved (task_child task) (Some q) (document T1) h → placed (task_child task) q next (document T1) h → Q tt (changed T1 h)).
    { intros h Hi Hm Hpl. apply (HQ T1 q h); [done| |done| |]; [intros <-; apply Hcq; destruct (way_cons _ _ _ Hwq) as [? ->]; apply list_elem_of_here| |].
      - eapply treeOk_moved; [done..|]. by intros p' [= <-].
      - destruct Hwhere as [[-> ->]|?]; auto. }
    destruct T1 as [h1 c1]. cbn [document] in *. destruct next as [x|]; apply wp_part; cbn [document].
    - eapply wp_parserInsertBefore; try done. apply (tree_inv _ HT1).
    - eapply wp_parserAppendChild; try done. apply (tree_inv _ HT1). }
  apply wp_bind, wp_part. eapply wp_isTemplate; [done|]. replace (mkTree (document T) (contents T)) with T by (by destruct T). apply wp_bind.
  case_bool_decide as Etag.
  - apply wp_bind. eapply wp_templateContent; [done..|]. intros T1 q Hd Hq. apply wp_ret. pose proof Hd as (HT1 & He & _ & _ & Hplaces).
    assert (Hwq : way (document T1) q (q :: lp)).
    { destruct Hplaces as [[-> ->]|[_ ?]]; [|done]. exfalso. unfold tagOf in Etag. unfold typeOf in Hq. rewrite Hrp in Etag, Hq. cbn in *. destruct Hd as (_ & _ & Hn & _). apply Hn. unfold tagOf. by rewrite Hrp. }
    apply (Hplace T1 q None (q :: lp)); [done..| | |done|by right].
    + apply not_elem_of_cons. split; [|done]. intros E. rewrite <-E, (grows_typeOf _ _ _ _ (extends_grows _ _ He) Ht) in Hq. congruence.
    + congruence.
  - apply wp_ret. apply (Hplace T (task_parent task) (task_nextChild task) lp); try done.
    + split_and!; [done|apply extends_refl|done| |by left]. intros m Hm Hu. unfold up in Hu. by rewrite Hm in Hu.
    + destruct (task_nextChild task); auto.
    + by left.
Qed.

Lemma destination_kept T0 p lp T T1 q n :
  destination p lp T T1 q → acyclic (document T) → way (document T) p lp → kept T0 (document T) n → n ∉ lp →
  kept T0 (document T1) n ∧ ∀ lq, way (document T1) q lq → n ∉ lq.
Proof.
  intros (HT1 & He & _ & Hnew & Hq) Hac Hw (Hex & Hu & Ho) Hn. assert (Hu1 : up (document T1) n = None) by (by rewrite (extends_up (document T))). split.
  - split_and!; [by eapply grows_lookup; [apply extends_grows|]|done|]. intros m l Hwm Hin. destruct (document T !! m) as [r|] eqn:Em.
    + eapply Ho; [|exact Hin]. eapply way_extends_inv; [done..|by eexists|done].
    + assert (Hnm : n ≠ m) by (intros ->; destruct Hex; congruence). inversion Hwm as [? ? Hu'|? p' l' Hu' Hw']; subst; [by apply list_elem_of_singleton in Hin|]. rewrite (Hnew m Em) in Hu' by congruence. injection Hu' as <-.
      apply elem_of_cons in Hin as [?|Hin]; [done|]. by rewrite (way_unique _ _ _ _ Hw' (way_extends _ _ _ _ He Hw)) in Hin.
  - intros lq Hwq Hin. destruct Hq as [[-> ->]|[_ Hwq']]; [by rewrite (way_unique _ _ _ _ Hwq Hw) in Hin|]. rewrite (way_unique _ _ _ _ Hwq Hwq') in Hin.
    apply elem_of_cons in Hin as [-> |?]; [|done]. inversion Hwq' as [? ? Hu'|? m ? Hu' Hw']; subst; [|congruence]. by inversion Hw.
Qed.

Lemma destination_way p lp T T1 q :
  destination p lp T T1 q → way (document T) p lp → ∃ lq, way (document T1) q lq ∧ ∀ x, x ∈ lq → x ∈ lp ∨ typeOf (document T1) x = Some DOCUMENT_FRAGMENT_NODE.
Proof.
  intros (_ & He & _ & _ & [[-> ->]|[Hf Hwq]]) Hw; [exists lp; auto|]. exists (q :: lp). split; [done|]. intros x [-> |?]%elem_of_cons; auto.
Qed.

(** Taking a node from its parent, if it has one. *)
Lemma wp_removeFromParent c t (Q : unit → Tree → Prop) T :
  treeOk T → typeOf (document T) c = Some t → (∀ h, moved c None (document T) h → treeOk (changed T h) → Q tt (changed T h)) → wp (removeFromParent c) Q T.
Proof.
  intros HT Ht HQ. destruct (typeOf_Some _ _ _ Ht) as (rc & Hrc & _). unfold removeFromParent. apply wp_bind, wp_part. eapply wp_field; [done|].
  replace (mkTree (document T) (contents T)) with T by (by destruct T).
  assert (Hp : parentOf (document T) c = m_parentNode rc) by (unfold parentOf; by rewrite Hrc). destruct (m_parentNode rc) as [p|].
  - apply wp_part. eapply wp_parserRemoveChild; [apply HT|done|]. intros h Hi Hm. apply HQ; [done|]. by eapply treeOk_moved.
  - apply wp_ret. replace T with (changed T (document T)) by (by destruct T). apply HQ; [by split_and!|by destruct T].
Qed.

(** ** What a queue leaves *)

(** A text node or the content of a template. *)
Definition slight (h : Heap) (n : positive) : Prop := typeOf h n = Some TEXT_NODE ∨ typeOf h n = Some DOCUMENT_FRAGMENT_NODE.
(** A node that [h] does not have: slight, or with no node of [h] below it. *)
Definition late (h T : Heap) (n : positive) : Prop := slight T n ∨ apart h T n.

(** The tree [T0] has the nodes of [h] where they are, and other nodes, all of them late. *)
Record ahead (h : Heap) (T0 : Tree) : Prop := mkAhead {
  ahead_tree : treeOk T0;
  ahead_grows : grows h (document T0);
  ahead_parent : ∀ n, is_Some (h !! n) → parentOf (document T0) n = parentOf h n;
  ahead_late : ∀ n, is_Some (document T0 !! n) → h !! n = None → late h (document T0) n;
}.

(** A late node is left alone by the tasks that make [T] of [T0]. *)
Definition free (T0 T : Tree) (n : positive) : Prop := slight (document T) n ∨ kept (document T0) (document T) n.

(** From a tree [T0] ahead of [h] tasks made [T]: a tree with the nodes [ns] in order; the
    tables [ts] are where they were, nothing came into the late nodes. *)
Record outcome (ns ts : list positive) (h : Heap) (T0 T : Tree) : Prop := mkOutcome {
  out_tree : treeOk T;
  out_grows : grows (document T0) (document T);
  out_order : ordered (document T) ns;
  out_tables : ∀ t p, t ∈ ts → parentOf (document T0) t = Some p → parentOf (document T) t = Some p;
  out_free : ∀ n, is_Some (document T0 !! n) → h !! n = None → free T0 T n;
}.

Lemma ahead_refl T : treeOk T → ahead (document T) T.
Proof. intros HT. constructor; try done. intros n [r Hr] Hn. congruence. Qed.

Lemma slight_grows h h' n : grows h h' → slight h n → slight h' n.
Proof. intros Hg [Ht|Ht]; [left|right]; by eapply grows_typeOf. Qed.

Lemma late_apart h h' T T' n : grows T T' → late h T n → (apart h T n → apart h' T' n) → late h' T' n.
Proof. intros Hg [Hs|Ha] Hi; [left; by eapply slight_grows|right; auto]. Qed.

(** What was free of the tasks before is free of one more. *)
Lemma free_step h T0 T T' n :
  ahead h T0 → is_Some (document T0 !! n) → h !! n = None → grows (document T0) (document T) → grows (document T) (document T') → free T0 T n →
  (apart h (document T) n → kept (document T0) (document T) n → kept (document T0) (document T') n) → free T0 T' n.
Proof.
  intros Ha Hn Hn' Hg0 Hg [Hs|Hk] Hi; [left; by eapply slight_grows|]. destruct (ahead_late _ _ Ha n Hn Hn') as [Hs|Hap].
  - left. eapply slight_grows; [exact Hg|]. by eapply slight_grows.
  - right. apply Hi; [by eapply kept_apart|done].
Qed.

Lemma free_refl h T0 n : ahead h T0 → is_Some (document T0 !! n) → h !! n = None → free T0 T0 n.
Proof. intros Ha Hn Hn'. destruct (ahead_late _ _ Ha n Hn Hn') as [?|(? & ? & _)]; [by left|right; by apply kept_refl]. Qed.

Lemma ahead_up h T0 n : ahead h T0 → is_Some (h !! n) → up (document T0) n = up h n.
Proof.
  intros Ha [r Hr]. pose proof (ahead_parent _ _ Ha n ltac:(by eexists)) as Hp. destruct (ahead_grows _ _ Ha n r Hr) as (r' & Hr' & Hs). unfold parentOf in Hp. unfold up, upOf. rewrite Hr, Hr' in *. cbn in *. rewrite Hp.
  unfold static in Hs. destruct (m_parentNode r); congruence.
Qed.

(** The ways of the old nodes. *)
Lemma ahead_way h T0 n l : acyclic h → ahead h T0 → is_Some (h !! n) → way (document T0) n l ↔ way h n l.
Proof.
  intros Hac Ha Hn. destruct (Hac n Hn) as [l' Hw']. assert (Hw0 : way (document T0) n l').
  { eapply way_frame; [done|]. intros m Hm. pose proof (way_dom _ _ _ _ Hw' Hm) as Hex. split; [by apply ahead_up|]. eapply grows_lookup; [apply Ha|done]. }
  split; intros Hw; [by rewrite (way_unique _ _ _ _ Hw Hw0)|by rewrite (way_unique _ _ _ _ Hw Hw')].
Qed.

Lemma ordered_ahead h T0 ns : acyclic h → ahead h T0 → (∀ n, n ∈ ns → is_Some (h !! n)) → ordered h ns → ordered (document T0) ns.
Proof.
  intros Hac Ha Hex Ho a n b l E Hw. apply (ahead_way _ _ _ _ Hac Ha) in Hw; [by eapply (Ho a n b l E)|]. apply Hex. rewrite E. apply elem_of_app. right. apply list_elem_of_here.
Qed.

Lemma ahead_trans h T1 T2 : ahead h T1 → ahead (document T1) T2 → ahead h T2.
Proof.
  intros H1 H2. pose proof (inv_ac _ (tree_inv _ (ahead_tree _ _ H1))) as Hac1. constructor.
  - apply H2.
  - etransitivity; [apply H1|apply H2].
  - intros n Hn. rewrite (ahead_parent _ _ H2); [by apply H1|]. eapply grows_lookup; [apply H1|done].
  - intros n Hn Hn'. destruct (document T1 !! n) as [r|] eqn:E.
    + eapply late_apart; [apply H2|apply (ahead_late _ _ H1); [by eexists|done]|]. intros (Hex & Hu & Ho). split_and!; [done|by rewrite (ahead_up _ _ _ H2)|].
      intros m l Hm Hw. apply (ahead_way _ _ _ _ Hac1 H2) in Hw; [by eapply Ho|]. eapply grows_lookup; [apply H1|done].
    + destruct (ahead_late _ _ H2 n Hn E) as [?|(Hex & Hu & Ho)]; [by left|]. right. split_and!; [done..|]. intros m l Hm. apply Ho. eapply grows_lookup; [apply H1|done].
Qed.

Lemma outcome_start ns ts T T0 :
  treeOk T → ordered (document T) ns → (∀ n, n ∈ ns → is_Some (document T !! n)) → ahead (document T) T0 → outcome ns ts (document T) T0 T0.
Proof.
  intros HT Ho Hex Ha. constructor; [apply Ha|done|eapply ordered_ahead; [apply inv_ac, HT|done..]|done|]. intros n. by apply free_refl.
Qed.

(** Fewer open elements. *)
Lemma outcome_sub ns ts ns' ts' h more T : outcome ns ts h more T → ns' `sublist_of` ns → ts' ⊆ ts → outcome ns' ts' h more T.
Proof. intros [H1 H2 H3 H4 H5] Hn Ht. constructor; [done..|by eapply ordered_sublist|auto|done]. Qed.

Lemma outcome_grows ns ts h T0 T : outcome ns ts h T0 T → ahead h T0 → grows h (document T).
Proof. intros Ho Ha. etransitivity; [apply Ha|apply Ho]. Qed.

Lemma outcome_exists ns ts h T0 T n : outcome ns ts h T0 T → ahead h T0 → is_Some (h !! n) → is_Some (document T !! n).
Proof. intros Ho Ha Hn. eapply grows_lookup; [|done]. by eapply outcome_grows. Qed.

(** Nodes that are made later are late. *)
Lemma ahead_extends T T' : treeOk T → treeOk T' → extends (document T) (document T') → ahead (document T) T'.
Proof.
  intros HT HT' He. pose proof (inv_ac _ (tree_inv _ HT)) as Hac. constructor; [done|by apply extends_grows|intros m _; by apply extends_parent|].
  intros m [r Hr] Hm. destruct (proj2 He m r Hm Hr) as [Er Hhost]. destruct (m_host r) as [p|] eqn:Eh.
  - left. right. destruct Hhost as [Ht _]. unfold typeOf. rewrite Hr. cbn. by rewrite Ht.
  - right. split_and!; [by eexists|unfold up, upOf; rewrite Hr, Er; done|]. intros y l Hy Hw Hin. apply way_extends_inv with (h := document T) in Hw; [|done..]. destruct (way_dom _ _ _ _ Hw Hin). congruence.
Qed.

(** A text node is put among the old nodes. *)
Lemma ahead_text h T1 h' n q :
  acyclic h → ahead h T1 → h !! n = None → typeOf (document T1) n = Some TEXT_NODE → moved n q (document T1) h' → treeOk (changed T1 h') → ahead h (changed T1 h').
Proof.
  intros Hac Ha Hn Ht Hm HT. pose proof Hm as (Hs & _ & Ho). assert (Hne : ∀ m, is_Some (h !! m) → m ≠ n) by (intros m [r Hr] ->; congruence).
  assert (Hway : ∀ m l, is_Some (h !! m) → way h' m l → way (document T1) m l).
  { intros m l Hm' Hw. destruct (Hac m Hm') as [l' Hw']. pose proof (proj2 (ahead_way h T1 m l' Hac Ha Hm') Hw') as Hw1. assert (Hw2 : way h' m l'); [|by rewrite (way_unique _ _ _ _ Hw Hw2)].
    eapply way_frame; [exact Hw1|]. intros x Hx. pose proof (way_dom _ _ _ _ Hw' Hx) as Hex. split; [eapply moved_up; [done|auto]|]. apply (sameNodes_dom _ _ _ Hs). by eapply way_dom. }
  constructor; cbn [changed document].
  - done.
  - etransitivity; [apply Ha|by apply sameNodes_grows].
  - intros m Hm'. rewrite Ho by auto. by apply Ha.
  - intros m Hm1 Hm2. destruct (decide (m = n)) as [-> |Hmn]; [left; left; by rewrite (sameNodes_typeOf (document T1) h')|].
    eapply late_apart; [by apply sameNodes_grows|apply (ahead_late _ _ Ha m); [by apply (sameNodes_dom _ _ _ Hs)|done]|]. intros (Hex & Hu & Hoff).
    split_and!; [by apply (sameNodes_dom _ _ _ Hs)|by rewrite (moved_up _ _ _ _ _ Hm)|]. intros y l Hy Hw. by eapply Hoff, Hway.
Qed.

(** What is ahead of a document with one more node is ahead of the document. *)
Lemma ahead_insert h n t name T0 : inv h → h !! n = None → ahead (<[n := newNode t name None]> h) T0 → ahead h T0 ∧ apart h (document T0) n ∧ typeOf (document T0) n = Some t ∧ tagOf (document T0) n = name.
Proof.
  intros Hi Hn Ha. pose proof (inv_ac _ Hi) as Hac. assert (He : extends h (<[n := newNode t name None]> h)) by (by apply extends_insert). pose proof (inv_extends _ _ Hi He) as Hi'. pose proof (inv_ac _ Hi') as Hac'.
  assert (Hin : is_Some (<[n := newNode t name None]> h !! n)) by (rewrite lookup_insert_eq; by eexists). destruct (ahead_grows _ _ Ha n _ (lookup_insert_eq _ _ _)) as (r & Hr & Hs).
  assert (Hold : ∀ m, is_Some (h !! m) → is_Some (<[n := newNode t name None]> h !! m)) by (intros m Hm; by eapply grows_lookup; [apply extends_grows|]).
  assert (Hap : apart h (document T0) n).
  { split_and!; [by eexists|rewrite (ahead_up _ _ _ Ha) by done; unfold up, upOf; by rewrite lookup_insert_eq|]. intros m l Hm Hw Hinl. apply (ahead_way _ _ _ _ Hac' Ha) in Hw; [|auto].
    apply (way_extends_inv h) in Hw; [|done..]. destruct (way_dom _ _ _ _ Hw Hinl). congruence. }
  split_and!; [constructor|done|unfold typeOf; rewrite Hr; unfold static in Hs; cbn in *; congruence|unfold tagOf; rewrite Hr; unfold static in Hs; cbn in *; congruence].
  - apply Ha.
  - etransitivity; [by apply extends_grows|apply Ha].
  - intros m Hm. rewrite (ahead_parent _ _ Ha) by auto. by apply extends_parent.
  - intros m Hm Hm'. destruct (decide (m = n)) as [-> |Hne]; [by right|]. eapply late_apart; [reflexivity|apply (ahead_late _ _ Ha); [done|by rewrite lookup_insert_ne]|].
    intros (Hex & Hu & Ho). split_and!; [done..|]. intros y l Hy. by apply Ho, Hold.
Qed.

Lemma element_weight : ELEMENT_NODE ≠ TEXT_NODE ∧ ELEMENT_NODE ≠ DOCUMENT_FRAGMENT_NODE.
Proof. done. Qed.

Section NewNode.
Context (ns ts : list positive) (h : Heap) (n : positive) (t : NodeType) (name : option QualifiedName) (T0 T : Tree).
Context (Hi : inv h) (Hout : outcome ns ts h T0 T) (Hplus : ahead (<[n := newNode t name None]> h) T0) (Hn : h !! n = None) (Hns : ∀ m, m ∈ ns → is_Some (h !! m)).
Context (Hweight : t ≠ TEXT_NODE ∧ t ≠ DOCUMENT_FRAGMENT_NODE).

Lemma new_ahead : ahead h T0.
Proof. by apply (ahead_insert h n t name T0). Qed.
Lemma new_type : typeOf (document T) n = Some t.
Proof. eapply grows_typeOf; [apply Hout|]. by apply (ahead_insert h n t name T0). Qed.
Lemma new_in : is_Some (document T0 !! n).
Proof. destruct (ahead_insert h n t name T0 Hi Hn Hplus) as (_ & (Hex & _) & _). done. Qed.
Lemma new_kept : kept (document T0) (document T) n.
Proof. destruct (out_free _ _ _ _ _ Hout n new_in Hn) as [[Hs|Hs]|?]; [rewrite new_type in Hs; naive_solver..|done]. Qed.
Lemma new_apart : apart h (document T) n.
Proof. eapply kept_apart; [|apply new_kept]. by apply (ahead_insert h n t name T0). Qed.
Lemma new_tag : tagOf (document T) n = name.
Proof.
  destruct (ahead_insert h n t name T0 Hi Hn Hplus) as (_ & ([r Hr] & _) & _ & Ht). destruct (out_grows _ _ _ _ _ Hout n r Hr) as (r' & Hr' & Hs). unfold tagOf in *. rewrite Hr'. rewrite Hr in Ht. cbn in *. unfold static in Hs. congruence.
Qed.
Lemma new_old m : is_Some (h !! m) → m ≠ n.
Proof. intros [r Hr] ->. congruence. Qed.
Lemma new_not_on m l : is_Some (h !! m) → way (document T) m l → n ∉ l.
Proof. apply apart_off, new_apart. Qed.
Lemma new_orphan : parentOf (document T) n = None.
Proof.
  destruct new_apart as (_ & Hu & _). destruct (parentOf (document T) n) eqn:E; [|done]. apply up_parent in E. congruence.
Qed.
Lemma new_grows : grows h (document T).
Proof. apply (outcome_grows ns ts h T0 T Hout new_ahead). Qed.
Lemma new_exists m : is_Some (h !! m) → is_Some (document T !! m).
Proof. apply grows_lookup, new_grows. Qed.
Lemma new_others m : is_Some (document T0 !! m) → <[n := newNode t name None]> h !! m = None → m ≠ n ∧ free T0 T m ∧ h !! m = None ∧ ∀ p, is_Some (h !! p) → m ≠ p.
Proof.
  intros Hm Hm'. assert (m ≠ n) by (intros ->; by rewrite lookup_insert_eq in Hm'). rewrite lookup_insert_ne in Hm' by done. split_and!; [done|by apply Hout|done|].
  intros p [r Hr] ->. congruence.
Qed.
Lemma new_tables (T' : Tree) (ts' : list positive) :
  (∀ x, x ∈ ts' → x ∈ ts ∨ x = n) → (∀ x, x ∈ ts' → x ∈ ts → x ≠ n → parentOf (document T') x = parentOf (document T) x) →
  ∀ x p, x ∈ ts' → parentOf (document T0) x = Some p → parentOf (document T') x = Some p.
Proof.
  intros Hts Hsame x p Hx Hp. assert (Hxn : x ≠ n).
  { intros ->. rewrite (ahead_parent _ _ Hplus) in Hp by (rewrite lookup_insert_eq; by eexists). unfold parentOf in Hp. by rewrite lookup_insert_eq in Hp. }
  destruct (Hts x Hx) as [Hxt|?]; [|done]. rewrite Hsame by done. by apply (out_tables _ _ _ _ _ Hout).
Qed.

(** A new node that stays out of the tree. *)
Lemma step_none ns' ts' : ns' = ns ∨ ns' = n :: ns → (∀ x, x ∈ ts' → x ∈ ts ∨ x = n) → outcome ns' ts' (<[n := newNode t name None]> h) T0 T.
Proof.
  intros Hns' Hts'. pose proof Hout as [H1 H2 H3 H4 H5]. constructor; [done|done|..].
  - destruct Hns' as [-> | ->]; [done|]. apply (ordered_apart h _ [] n); [done|apply new_apart|by intros ?%elem_of_nil|done].
  - by apply (new_tables T).
  - intros m Hm Hm'. by destruct (new_others m Hm Hm') as (_ & Hf & _).
Qed.

(** A new node is put into the tree, and comes on top of the stack or stays off it. *)
Lemma step_insert ns' ts' op p next sc :
  t ∈ contentTypes ∨ typeOf h p ≠ Some ELEMENT_NODE → is_Some (h !! p) →
  (∀ x, next = Some x → parentOf (document T) x = Some p) → ns' = ns ∨ ns' = n :: ns → (∀ x, x ∈ ts' → x ∈ ts ∨ x = n) →
  wp (insertNode (mkTask op p next n sc)) (λ _ T', outcome ns' ts' (<[n := newNode t name None]> h) T0 T') T.
Proof.
  intros Hfit Hp Hnext Hns' Hts'. pose proof (out_tree _ _ _ _ _ Hout) as HT. pose proof (inv_ac _ (tree_inv _ HT)) as Hac. destruct (Hac p) as [lp Hw]; [by apply new_exists|]. pose proof (new_not_on p lp Hp Hw) as Hlp.
  apply (wp_insertNode (mkTask op p next n sc) lp); cbn [task_child task_parent task_nextChild].
  1: done. 1: done. 1: done. 1: apply new_orphan. 1: exists t; split; [apply new_type|apply Hweight]. 2: done.
  { intros Hel. unfold contentType. rewrite new_type. apply bool_decide_eq_true. destruct Hfit as [?|Hf]; [done|]. destruct Hf. destruct Hp as [rp Hrp].
    destruct (new_grows p rp Hrp) as (r' & Hr' & Hs). unfold typeOf in *. rewrite Hr' in Hel. rewrite Hrp. cbn in *. unfold static in Hs. congruence. }
  intros T1 q h' Hd Hnq Hm HT' _. destruct (destination_kept _ _ _ _ _ _ _ Hd Hac Hw new_kept Hlp) as [Hk1 Hq'].
  destruct (destination_way _ _ _ _ _ Hd Hw) as (lq & Hwq & _). pose proof Hd as (HT1 & He & _ & _ & _). pose proof (inv_ac _ (tree_inv _ HT1)) as Hac1. pose proof (Hq' lq Hwq) as Hq. clear Hq'.
  assert (Hg1 : grows h (document T1)) by (etransitivity; [apply new_grows|by apply extends_grows]).
  assert (Hal1 : apart h (document T1) n) by (eapply kept_apart; [|exact Hk1]; by apply (ahead_insert h n t name T0)).
  assert (Hoff : ∀ m l, m ∈ ns → way (document T1) m l → n ∉ l) by (intros m l Hm' Hwm; eapply apart_off; [exact Hal1|by apply Hns|done]).
  assert (Ho1 : ordered (document T1) ns) by (eapply ordered_extends; [apply inv_ac, Hout|done|by intros; apply new_exists, Hns|apply Hout]).
  assert (Hex1 : ∀ m, m ∈ ns → is_Some (document T1 !! m)) by (intros m Hm'; by eapply grows_lookup, Hns).
  assert (Ho' : ordered h' ns).
  { eapply ordered_in; [apply HT1|done..| |done]. intros a m b l x -> Hwm Hin _. destruct (Hoff m l); [apply elem_of_app; right; apply list_elem_of_here|done..]. }
  constructor; [done|..]; cbn [changed document].
  - etransitivity; [apply Hout|]. etransitivity; [by apply extends_grows|]. apply sameNodes_grows, Hm.
  - destruct Hns' as [-> | ->]; [done|]. apply (ordered_put h' [] n ns); [done|by intros ? ? _ ?%elem_of_nil|]. intros m l' Hm' Hwm Hin.
    destruct (Hac1 m (Hex1 m Hm')) as [l Hwl]. destruct (way_changed (document T1) h' n lq m l l' n) as [Hl|[Hl _]]; try done; [by intros; eapply moved_up| |by eapply Hoff..].
    intros p' lm Hu Hwlm. rewrite (moved_put _ _ _ _ Hm) in Hu. injection Hu as <-. by eapply moved_way.
  - eapply (new_tables (changed T1 h')); [done|]. intros x _ _ Hxn. cbn. destruct Hm as (_ & _ & Hoth). rewrite Hoth by done. by apply extends_parent.
  - intros m Hm1 Hm2. destruct (new_others m Hm1 Hm2) as (Hmn & Hfree & Hmh & Hold). eapply (free_step h); [apply new_ahead|done..|apply Hout|cbn; etransitivity; [by apply extends_grows|apply sameNodes_grows, Hm]|done|].
    intros Hal Hkm. destruct (destination_kept _ _ _ _ _ _ m Hd Hac Hw Hkm) as [Hk' Hqm]; [by eapply apart_off|]. by eapply kept_moved; eauto.
Qed.

(** A node of the stack moves into a new element, which takes the place of the node below it. *)
Lemma step_reparent ts' a c N b :
  ns = a ++ c :: N :: b → NoDup ns → t = ELEMENT_NODE → name ≠ Some (htmlName "template") → typeOf h c = Some ELEMENT_NODE →
  (∀ x, x ∈ ts' → x ∈ ts) → c ∉ ts' →
  wp (executeReparentTask (mkTask Reparent n None c false)) (λ _ T', outcome (a ++ c :: n :: b) ts' (<[n := newNode t name None]> h) T0 T') T.
Proof.
  intros Ens Hnd Ht Htag Hc Hts' Hct. assert (Hcn : c ≠ n) by (apply new_old; destruct (typeOf_Some _ _ _ Hc) as (r & Hr & _); by eexists).
  assert (HcT : typeOf (document T) c = Some ELEMENT_NODE) by (eapply grows_typeOf; [apply new_grows|done]). pose proof (inv_ac _ (tree_inv _ (out_tree _ _ _ _ _ Hout))) as Hac.
  unfold executeReparentTask. apply wp_bind, wp_ASSERT; [done|]. apply wp_bind, wp_ASSERT; [done|]. cbn [task_child task_parent]. apply wp_bind.
  eapply wp_removeFromParent; [apply Hout|done|]. intros h1 Hm1 HT1. pose proof Hm1 as (Hs1 & Hp1 & Ho1). apply wp_bind, wp_part.
  assert (Hc1 : typeOf h1 c = Some ELEMENT_NODE) by (by rewrite (sameNodes_typeOf (document T) h1)). destruct (typeOf_Some _ _ _ Hc1) as (rc & Hrc & _).
  eapply wp_field; [done|]. cbn beta. rewrite bool_decide_eq_false_2 by (intros Hne; apply Hne; by eapply orphan_field).
  assert (Hup1 : up h1 c = None) by (eapply (orphan_up_inv h1 c ELEMENT_NODE); [apply HT1|done..]).
  assert (Hk1 : kept (document T0) h1 n) by (by eapply (kept_out _ (document T)); [apply new_kept|..]).
  assert (Hal1 : apart h h1 n) by (eapply kept_apart; [|exact Hk1]; by apply (ahead_insert h n t name T0)).
  apply wp_part. cbn [document changed]. eapply (wp_parserAppendChild n c [n]); [apply HT1|by eapply apart_way|by intros ?%list_elem_of_singleton|done..| |].
  { rewrite (sameNodes_tagOf (document T) h1) by done. by rewrite new_tag. }
  intros h2 Hi2 Hm2 _. pose proof Hm2 as (Hs2 & Hp2 & Ho2).
  assert (Hold : ∀ m, m ∈ ns → is_Some (document T !! m)) by (intros; by apply new_exists, Hns).
  assert (Hn1 : n ∉ ns) by (intros Hin; by apply (new_old n (Hns n Hin))). rewrite Ens in Hn1.
  assert (Hnd' : NoDup (a ++ c :: n :: b)).
  { rewrite Ens in Hnd. pose proof (NoDup_replace (a ++ [c]) b N n) as Hr. rewrite <-!app_assoc in Hr. apply Hr; [done|]. set_solver. }
  assert (Hord1 : ordered h1 (a ++ c :: n :: b)).
  { assert (Hord0 : ordered h1 ns) by (eapply (ordered_out (document T)); [apply Hout|apply HT1|done..|apply Hout]). rewrite Ens in Hord0.
    replace (a ++ c :: n :: b) with ((a ++ [c]) ++ n :: b) by (by rewrite <-app_assoc). apply (ordered_apart h); [|done|set_solver|intros m Hm; apply Hns; rewrite Ens; set_solver].
    rewrite <-app_assoc. eapply ordered_sublist, Hord0. apply sublist_app; [done|]. apply sublist_skip. by apply sublist_cons. }
  constructor; cbn [changed document].
  - eapply (treeOk_moved (changed T h1)); [done..|]. intros p' [= <-] _. unfold contentType. cbn. by rewrite Hc1.
  - etransitivity; [apply Hout|]. etransitivity; [by apply sameNodes_grows|by apply sameNodes_grows].
  - eapply (ordered_in h1 h2 c n [n]); [apply HT1|done|by eapply apart_way|by intros ?%list_elem_of_singleton| | |done].
    + intros m Hm. apply (sameNodes_dom _ _ _ Hs1). destruct (decide (m = n)) as [-> |Hmn]; [apply new_apart|]. apply Hold. rewrite Ens. set_solver.
    + intros a1 m b1 l x E Hwm Hcl Hx ->%list_elem_of_singleton. assert (Hma : m ∈ a ++ [c]) by (eapply (ordered_above h1); [exact Hord1|reflexivity|rewrite E; set_solver|done..]).
      assert (Hna : n ∈ a); [|set_solver]. eapply before_split; [exact Hnd'|exact E|done..].
  - intros x p' Hx Hpx. assert (x ≠ c) by (by intros ->). rewrite Ho2, Ho1 by done. by apply (out_tables _ _ _ _ _ Hout); [apply Hts'|].
  - intros m Hmm Hm'. destruct (new_others m Hmm Hm') as (Hmn & Hfree & Hmh & Hno'). assert (Hmc : m ≠ c) by (apply Hno'; destruct (typeOf_Some _ _ _ Hc) as (r & Hr & _); by eexists).
    eapply (free_step h); [apply new_ahead|done..|apply Hout|cbn; by etransitivity; apply sameNodes_grows|done|]. intros _ Hkm. cbn [changed document].
    eapply (kept_moved _ h1 h2 c n [n]); [by eapply (kept_out _ (document T))|apply inv_ac, HT1|done|by eapply apart_way|by intros ?%list_elem_of_singleton..|done].
Qed.

(** A new element gets the children of an open element and becomes its only child. *)
Lemma step_takeAll ts' a B b :
  ns = a ++ B :: b → NoDup ns → t = ELEMENT_NODE → name ≠ Some (htmlName "template") → typeOf h B = Some ELEMENT_NODE → tagOf h B ≠ Some (htmlName "template") →
  (∀ x, x ∈ ts' → x ∈ ts ∧ x ∈ b) →
  wp (executeTakeAllChildrenAndReparentTask (mkTask TakeAllChildrenAndReparent n None B false)) (λ _ T', outcome (a ++ n :: B :: b) ts' (<[n := newNode t name None]> h) T0 T') T.
Proof.
  intros Ens Hnd Ht Htag HB HBtag Hts'. destruct (typeOf_Some _ _ _ HB) as (rB & HrB & HtB). assert (HnB : n ≠ B) by (intros E; apply (new_old B); [by eexists|done]).
  assert (HBT : typeOf (document T) B = Some ELEMENT_NODE) by (eapply grows_typeOf; [apply new_grows|done]).
  assert (HBtagT : tagOf (document T) B ≠ Some (htmlName "template")).
  { destruct (new_grows B rB HrB) as (r & Hr & Hs). unfold tagOf in *. rewrite Hr. rewrite HrB in HBtag. cbn in *. unfold static in Hs. congruence. }
  assert (HBe : is_Some (document T !! B)) by (apply new_exists; by eexists).
  unfold executeTakeAllChildrenAndReparentTask. do 2 (apply wp_bind, wp_ASSERT; [done|]). cbn [task_child task_parent]. apply wp_bind, wp_part.
  pose proof new_type as Hnt. rewrite Ht in Hnt. pose proof new_apart as Hal. pose proof Hal as (Hex & Hun & Hoff). pose proof (out_tree _ _ _ _ _ Hout) as HT. assert (HnB' : ∀ l, way (document T) B l → n ∉ l) by (intros l; apply Hoff; by eexists).
  eapply wp_takeAllChildrenFrom; [apply HT|apply HT|by eapply apart_way|done|by rewrite new_tag|done|]. intros h1 Hi1 Hs1 Hp1.
  assert (Hold : ∀ m, m ∈ ns → is_Some (document T !! m)) by (intros; by apply new_exists, Hns).
  assert (Hord : ∀ h2, moved n (Some B) h1 h2 → ordered h2 (a ++ n :: B :: b)).
  { eapply (taken_ordered (document T) h1 B n); try done; [apply HT|rewrite <-Ens; apply Hout|by rewrite <-Ens|..]; rewrite <-Ens; [intros Hin; by apply (new_old n (Hns n Hin))|]. intros m Hm. split; [auto|]. intros l. apply Hoff, Hns, Hm. }
  assert (Hnp : parentOf h1 n = None) by (rewrite Hp1, new_orphan; done).
  assert (HT1 : treeOk (changed T h1)).
  { constructor; cbn [changed document contents]; [done| |].
    - intros x q Hx Hq. rewrite (sameNodes_contentType (document T) h1) by done. rewrite (sameNodes_typeOf (document T) h1) in Hq by done. rewrite Hp1 in Hx. case_decide as Ex.
      + by apply (tree_content _ HT x B).
      + by apply (tree_content _ HT x q).
    - intros x f Hf. destruct (tree_templates _ HT x f Hf) as (? & r & Hr & Hst). split; [by apply (sameNodes_dom _ _ _ Hs1)|]. destruct (sameNodes_grows _ _ Hs1 f r Hr) as (r' & ? & ?). exists r'. split; [done|congruence]. }
  assert (Hn1 : typeOf h1 n = Some ELEMENT_NODE) by (by rewrite (sameNodes_typeOf (document T) h1)). destruct (typeOf_Some _ _ _ Hn1) as (rn & Hrn & _).
  apply wp_bind, wp_part. eapply wp_field; [done|]. unfold RELEASE_ASSERT. rewrite bool_decide_eq_true_2 by (by eapply orphan_field). apply wp_bind, wp_part, wp_ret, wp_part. cbn [document].
  destruct (inv_ac _ Hi1 B) as [lB HwB]; [by apply (sameNodes_dom _ _ _ Hs1)|]. destruct (taken_B_way (document T) h1 B n (tree_inv _ HT) Hs1 Hex Hun HBe HnB' Hp1 lB HwB) as [HnlB HsubB].
  eapply (wp_parserAppendChild B n lB); [done..|by rewrite (sameNodes_tagOf (document T) h1)|]. intros h2 Hi2 Hm2 _. pose proof Hm2 as (Hs2 & _ & Ho2). constructor; cbn [changed document].
  - eapply (treeOk_moved (changed T h1)); [done..|]. intros p' [= <-] _. unfold contentType. cbn. by rewrite Hn1.
  - etransitivity; [apply Hout|]. etransitivity; [by apply sameNodes_grows|by apply sameNodes_grows].
  - auto.
  - eapply (new_tables (mkTree h2 (contents T))); [by intros x Hx; left; apply Hts'|]. intros x Hx _ Hxn. cbn [document]. rewrite Ho2, Hp1 by done. case_decide as Ex; [|done]. exfalso.
    destruct (Hts' x Hx) as [_ Hxb]. apply list_elem_of_split in Hxb as (b1 & b2 & Eb). destruct (inv_ac _ (tree_inv _ HT) x) as [l Hw]; [apply Hold; rewrite Ens, Eb; set_solver|].
    refine (out_order _ _ _ _ _ Hout (a ++ B :: b1) x b2 l _ Hw B _ _); [by rewrite Ens, Eb, <-app_assoc|set_solver|]. apply up_parent in Ex. inversion Hw as [? ? Hu|? q l' Hu Hw']; subst; [congruence|].
    rewrite Ex in Hu. injection Hu as <-. destruct (way_cons _ _ _ Hw') as [? ->]. apply elem_of_cons. right. apply list_elem_of_here.
  - intros m Hmm Hm'. destruct (new_others m Hmm Hm') as (Hmn & Hfree & Hmh & Hno'). assert (HmB : m ≠ B) by (apply Hno'; by eexists).
    eapply (free_step h); [apply new_ahead|done..|apply Hout|cbn; by etransitivity; apply sameNodes_grows|done|]. intros Hap Hkm. cbn [changed document].
    assert (Hk1 : kept (document T0) h1 m) by (by eapply (taken_kept (document T) h1 B n); [apply HT|..]).
    eapply (kept_moved _ h1 h2 n B lB); [done|by apply inv_ac|done..| |done]. intros Hin. destruct (inv_ac _ (tree_inv _ HT) B HBe) as [l Hw]. by apply (apart_off _ _ _ B l Hap); [eexists|..|by eapply HsubB].
Qed.

End NewNode.

(** The way of a node after another was taken out is a part of the way before. *)
Lemma way_out T h1 c t n l l' x :
  moved c None (document T) h1 → treeOk (changed T h1) → typeOf (document T) c = Some t → t ≠ DOCUMENT_FRAGMENT_NODE →
  way (document T) n l → way h1 n l' → x ∈ l' → x ∈ l.
Proof.
  intros Hm HT Ht Hne Hw Hw' Hx. pose proof Hm as (Hs & Hp & _). destruct (way_changed (document T) h1 c [] n l l' x) as [?|[_ ?%elem_of_nil]]; try done.
  - by intros; eapply moved_up.
  - intros m lm Hu _. rewrite (orphan_up_inv h1 c t) in Hu; [done|apply HT|done| |done]. by rewrite (sameNodes_typeOf (document T) h1).
Qed.

Section Already.
Context (ns ts ts' : list positive) (h : Heap) (T0 T : Tree) (a b : list positive) (c p d : positive).
Context (Hout : outcome ns ts h T0 T) (Hplus : ahead h T0) (Ens : ns = a ++ c :: b) (Hnd : NoDup ns) (Hns : ∀ m, m ∈ ns → is_Some (h !! m)).
Context (Hel : ∀ x, x ∈ a ++ [c] → typeOf h x = Some ELEMENT_NODE) (Hp : is_Some (h !! p)) (Hd : d ∈ b) (Hdp : p = d ∨ up (document T) d = Some p).
Context (Hts' : ∀ x, x ∈ ts' → x ∈ ts) (Hct : c ∉ ts').

Lemma already_type x : x ∈ a ++ [c] → typeOf (document T) x = Some ELEMENT_NODE.
Proof. intros Hx. eapply grows_typeOf; [by eapply outcome_grows|]. auto. Qed.

(** The subtree of [c] taken out, and put into [p] or the content of [p]. *)
Lemma already_removed h1 : moved c None (document T) h1 → treeOk (changed T h1) → outcome ns ts' h T0 (changed T h1).
Proof.
  intros Hm HT1. pose proof Hm as (Hs & Hpc & Ho). pose proof (already_type c ltac:(set_solver)) as Hc. constructor; cbn [changed document]; [done|..].
  - etransitivity; [apply Hout|by apply sameNodes_grows].
  - eapply (ordered_out (document T)); [apply Hout|apply HT1|done..| |apply Hout]. intros m Hm'. by eapply outcome_exists, Hns.
  - intros x q Hx Hq. rewrite Ho by (by intros ->). by apply (out_tables _ _ _ _ _ Hout); [apply Hts'|].
  - intros n Hn Hn'. eapply (free_step h); [done..|apply Hout|by apply sameNodes_grows|by apply Hout|]. intros _ Hk. eapply (kept_out _ (document T)); [done|apply inv_ac, Hout|done| |].
    + eapply (orphan_up_inv h1 c ELEMENT_NODE); [apply HT1|done| |done]. by rewrite (sameNodes_typeOf (document T) h1).
    + intros ->. destruct (Hns c) as [r Hr]; [rewrite Ens; set_solver|congruence].
Qed.

Lemma already_off lp x : way (document T) p lp → x ∈ a ++ [c] → x ∉ lp.
Proof.
  intros Hw Hx. eapply (ordered_below (document T) a c b d p); [rewrite <-Ens; apply Hout|apply inv_ac, Hout|done|eapply outcome_exists; [done..|]; apply Hns; rewrite Ens; set_solver|done..].
Qed.

Lemma step_insertAlready next :
  (∀ x, next = Some x → is_Some (h !! x)) →
  wp (executeInsertAlreadyParsedChildTask (mkTask InsertAlreadyParsedChild p next c false)) (λ _ T', outcome ns ts' h T0 T') T.
Proof.
  intros Hnext. pose proof (already_type c ltac:(set_solver)) as Hc. unfold executeInsertAlreadyParsedChildTask. apply wp_bind, wp_ASSERT; [done|]. cbn [task_child task_parent task_nextChild]. apply wp_bind.
  eapply wp_removeFromParent; [apply Hout|done|]. intros h1 Hm1 HT1. pose proof Hm1 as (Hs1 & Hp1 & _). pose proof (already_removed h1 Hm1 HT1) as Hout1.
  assert (Hc1 : typeOf h1 c = Some ELEMENT_NODE) by (by rewrite (sameNodes_typeOf (document T) h1)). destruct (typeOf_Some _ _ _ Hc1) as (rc & Hrc & _).
  apply wp_bind, wp_part. eapply wp_field; [done|]. cbn beta. rewrite bool_decide_eq_false_2 by (intros Hne; apply Hne; by eapply orphan_field).
  apply wp_bind, wp_part. cbn [document changed]. unfold wp at 1. rewrite notAChild_run; [|intros x Hx; eapply (outcome_exists _ _ _ _ _ _ Hout1 Hplus); by apply Hnext].
  destruct (stray h1 next p) eqn:Est; [apply wp_ret; exact Hout1|].
  destruct (inv_ac _ (tree_inv _ HT1) p) as [lp1 Hw1]; [by eapply (outcome_exists _ _ _ _ _ _ Hout1)|]. destruct (inv_ac _ (tree_inv _ (out_tree _ _ _ _ _ Hout)) p) as [lp Hw]; [by eapply outcome_exists|].
  assert (Hoff : ∀ x, x ∈ a ++ [c] → x ∉ lp1) by (intros x Hx Hin; eapply (already_off lp x); [done..|]; by eapply (way_out T h1 c)).
  apply (wp_insertNode (mkTask InsertAlreadyParsedChild p next c false) lp1); cbn [task_child task_parent task_nextChild changed document].
  1: done. 1: done. 1: apply Hoff; set_solver. 1: done. 1: by exists ELEMENT_NODE. 1: intros _; unfold contentType; by rewrite Hc1.
  { intros x ->. cbn in Est. by apply bool_decide_eq_false, dec_stable in Est. }
  intros T2 q h2 Hd2 Hcq Hm2 HT2 _. pose proof Hd2 as (HT2' & He & _). destruct (destination_way _ _ _ _ _ Hd2 Hw1) as (lq & Hwq & Hlq).
  assert (Hoffq : ∀ x, x ∈ a ++ [c] → x ∉ lq).
  { intros x Hx Hin. destruct (Hlq x Hin) as [?|Hf]; [by apply (Hoff x)|]. pose proof (already_type x Hx) as Htx. rewrite <-(sameNodes_typeOf _ h1) in Htx by done.
    pose proof (grows_typeOf _ _ _ _ (extends_grows _ _ He) Htx). congruence. }
  assert (Hex : ∀ m, m ∈ ns → is_Some (document T2 !! m)) by (intros m Hm; eapply grows_lookup; [by apply extends_grows|]; by eapply (outcome_exists _ _ _ _ _ _ Hout1), Hns).
  assert (Ho2 : ordered (document T2) ns) by (eapply (ordered_extends h1); [apply inv_ac, HT1|done|by intros; eapply (outcome_exists _ _ _ _ _ _ Hout1), Hns|apply Hout1]).
  pose proof Hm2 as (Hs2 & _ & Hoth2). constructor; cbn [changed document]; [done|..].
  - etransitivity; [apply Hout1|]. etransitivity; [by apply extends_grows|by apply sameNodes_grows].
  - eapply (ordered_in (document T2) h2 c q lq); [apply HT2'|done|done|apply Hoffq; set_solver|done| |done]. intros a1 m b1 l x E Hwm Hcl Hx.
    assert (Hma : m ∈ a ++ [c]) by (eapply (ordered_above (document T2)); [exact Ho2|exact Ens|rewrite E; set_solver|done..]). apply Hoffq, elem_of_app. left.
    eapply (before_split a b a1 b1 c m); [by rewrite <-Ens|by rewrite <-Ens|done..].
  - intros x q' Hx Hq'. rewrite Hoth2 by (by intros ->). rewrite (extends_parent h1) by done. by apply (out_tables _ _ _ _ _ Hout1).
  - intros n Hn Hn'. assert (Hnp : ∀ m, is_Some (h !! m) → n ≠ m) by (intros m [r Hr] ->; congruence).
    eapply (free_step h _ (changed T h1)); [done..|apply Hout1|cbn; etransitivity; [by apply extends_grows|by apply sameNodes_grows]|by apply Hout1|]. cbn [changed document]. intros Hal Hk.
    destruct (destination_kept (document T0) _ _ _ _ _ n Hd2) as [Hk' Hnq]; [apply inv_ac, HT1|exact Hw1|exact Hk|eapply (apart_off h h1 n p); [exact Hal|exact Hp|exact Hw1]|]. eapply (kept_moved _ (document T2) h2 c q lq); [done|apply inv_ac, HT2'|done|done|apply Hoffq; set_solver|by apply Hnq|].
    apply Hnp, Hns. rewrite Ens. set_solver.
Qed.

End Already.

End Quiet.
