(* ===== verification/SiteInvariant.v ===== *)
(** * What holds of the construction site between tokens

    [siteOk]: the stack and the list are well formed, their items are those of elements of
    the document (a document is parsed, not a fragment), an element that is in both has the same item in both, and the queue of
    tasks will leave a tree with the open elements in order. The lemmas say what the
    parts of the site do to it when no script runs. *)

From Stdlib Require Import String.
From S2P Require Import Prelude HTMLStackItem HTMLElementStack HTMLFormattingElementList ContainerNode ContainerNodeLists ContainerNodeCorrect ContainerNodeScripts ContainerNodeTheorems.
From S2P Require Import TreeOrder HTMLConstructionSite TreeTasks.

#[local] Open Scope string_scope.
#[local] Open Scope list_scope.

(** ** Items *)

(** The item of a node of the document, with the name of the node. *)
Definition sound (h : Heap) (item : HTMLStackItem) : Prop :=
  ∃ r, h !! node_id (m_node item) = Some r ∧ tagQName r = node_name (m_node item) ∧
  match m_localName item with
  | Some name => node_name (m_node item) = Some (mkName name (m_namespaceURI item)) ∧ nodeType r = ELEMENT_NODE
  | None => node_name (m_node item) = None ∧ nodeType r = DOCUMENT_FRAGMENT_NODE
  end.

(** The item of a formatting element. *)
Definition formatting (item : HTMLStackItem) : bool :=
  match m_localName item with Some name => isFormattingTag name | None => false end && bool_decide (m_namespaceURI item = xhtmlNamespaceURI).

Lemma sound_grows h h' item : grows h h' → sound h item → sound h' item.
Proof.
  intros Hg (r & Hr & Ht & Hm). destruct (Hg _ _ Hr) as (r' & Hr' & Hs). unfold static in Hs. injection Hs as E1 E2 E3. exists r'. split_and!; [done|congruence|].
  destruct (m_localName item); by rewrite E1.
Qed.

Lemma sound_exists h item : sound h item → is_Some (h !! node_id (m_node item)).
Proof. intros (r & Hr & _). by eexists. Qed.

Lemma sound_element h item : sound h item → isElementItem item = true → typeOf h (node_id (m_node item)) = Some ELEMENT_NODE.
Proof.
  intros (r & Hr & _ & Hm) He. unfold isElementItem, isElement, isDocumentFragment in He. destruct (m_localName item) as [name|] eqn:E; [|done].
  unfold typeOf. rewrite Hr. destruct Hm as [_ Hm]. cbn. by rewrite Hm.
Qed.

(** The tag of an element is the name of its node. *)
Lemma sound_tag h item name : sound h item → hasTagName name item = bool_decide (node_name (m_node item) = Some name).
Proof.
  intros (r & _ & _ & Hm). unfold hasTagName. destruct (m_localName item) as [ln|].
  - destruct Hm as [-> _]. apply eq_true_iff_eq. rewrite andb_true_iff, !bool_decide_eq_true. destruct name. cbn. naive_solver.
  - destruct Hm as [-> _]. rewrite (bool_decide_eq_false_2 (None = Some name)) by done. by rewrite bool_decide_eq_false_2.
Qed.

Lemma sound_node h item name : sound h item → isNodeOf name item = hasTagName name item.
Proof. intros Hs. by rewrite (sound_tag h). Qed.

Lemma sound_tagOf h item : sound h item → tagOf h (node_id (m_node item)) = node_name (m_node item).
Proof. intros (r & Hr & Ht & _). unfold tagOf. by rewrite Hr. Qed.

Lemma matches_tag name item : matchesHTMLTag name item = hasTagName (mkName name xhtmlNamespaceURI) item.
Proof. done. Qed.

Lemma formatting_tag item name : formatting item = true → hasTagName name item = true → isFormattingTag (localName name) && bool_decide (namespaceURI name = xhtmlNamespaceURI) = true.
Proof.
  unfold formatting, hasTagName. destruct (m_localName item) as [ln|]; [|done]. rewrite !andb_true_iff, !bool_decide_eq_true. intros [Hf Hns] [[= ->] Hns']. split; congruence.
Qed.

Lemma not_formatting item name : formatting item = true → isFormattingTag (localName name) && bool_decide (namespaceURI name = xhtmlNamespaceURI) = false → hasTagName name item = false.
Proof. intros Hf Hn. apply not_true_iff_false. intros Ht. rewrite (formatting_tag item name) in Hn; done. Qed.

Lemma formatting_element h item : formatting item = true → sound h item → isElementItem item = true.
Proof.
  unfold formatting. intros Hf (r & _ & _ & Hm). unfold isElementItem, isElement, isDocumentFragment. destruct (m_localName item); [|done]. destruct Hm as [-> _]. done.
Qed.

Lemma formatting_ordinary h item : formatting item = true → sound h item → ordinary item = true.
Proof.
  intros Hf Hs. apply ordinary_split. split_and!; [by eapply formatting_element|..]; by apply (not_formatting item).
Qed.

Lemma formatting_not_special item : formatting item = true → isSpecialNode item = false.
Proof.
  unfold formatting, isSpecialNode, isDocumentFragment, localNameIn. destruct (m_localName item) as [name|] eqn:E; [|done]. rewrite andb_true_iff, bool_decide_eq_true. intros [Hf ->].
  rewrite bool_decide_eq_false_2 by done. unfold isFormattingTag, isNonAnchorFormattingTag, isNonAnchorNonNobrFormattingTag in Hf.
  rewrite !orb_true_iff, !bool_decide_eq_true in Hf. destruct Hf as [-> |[-> |Hf]]; [reflexivity..|]. cbn [fmap list_fmap] in Hf.
  repeat (apply elem_of_cons in Hf as [-> |Hf]; [reflexivity|]). by apply elem_of_nil in Hf.
Qed.

Lemma formatting_not_marker h item : formatting item = true → sound h item → isScopeMarker item = false.
Proof.
  intros Hf Hs. unfold isScopeMarker, isRootNode. rewrite (sound_node h) by done. rewrite !(not_formatting item) by done. cbn [orb].
  unfold formatting, isDocumentFragment in *. by destruct (m_localName item).
Qed.

(** The first element with a tag that is not a marker is not a table or a template. *)
Lemma marker_tags item : isScopeMarker item = false → isNodeOf (htmlName "table") item = false ∧ hasTagName (htmlName "template") item = false.
Proof. unfold isScopeMarker. rewrite !orb_false_iff. tauto. Qed.

(** ** The state *)

Abbreviation records s := (m_top (m_openElements s)).
Abbreviation entries s := (m_activeFormattingElements s).
Abbreviation doc s := (document (tree s)).
Abbreviation stackNode := HTMLElementStack.nodeOf.

Definition isTable (r : ElementRecord) : bool := isNodeOf (htmlName "table") (m_item r).
(** The elements that no task moves: tables and the document element. *)
Definition isAnchor (r : ElementRecord) : bool := isTable r || isHTML (m_item r).
Definition anchors (l : list ElementRecord) : list positive := stackNode <$> filter (λ r, isAnchor r = true) l.

Section Quiet.
Context `{Build} `{Parser}.
#[local] Existing Instance quiet.

(** The part of the tasks that changes the tree. *)
Definition treeTask (task : HTMLConstructionSiteTask) : TM unit :=
  match operation task with
  | Insert => insertNode task
  | InsertAlreadyParsedChild => executeInsertAlreadyParsedChildTask task
  | Reparent => executeReparentTask task
  | TakeAllChildrenAndReparent => executeTakeAllChildrenAndReparentTask task
  end.
Fixpoint treeTasks (queue : list HTMLConstructionSiteTask) : TM unit :=
  match queue with [] => mret tt | task :: queue => treeTask task;; treeTasks queue end.

(** The queue leaves a tree whatever nodes are made and whatever text is inserted before it runs. *)
Definition pending (s : HTMLConstructionSite) : Prop :=
  ∀ T0, ahead (doc s) T0 → wp (treeTasks (m_taskQueue s)) (λ _ T, outcome (stackNode <$> records s) (anchors (records s)) (doc s) T0 T) T0.

(** Head and body are right above the root. *)
Definition low (l : list ElementRecord) : Prop := ∀ a r b, l = a ++ r :: b → isHead (m_item r) || isBody (m_item r) = true → length b = 1%nat.

Record shape (s : HTMLConstructionSite) : Prop := mkShape {
  ok_stack : HTMLElementStack.wf (m_openElements s);
  ok_top : records s ≠ [];
  ok_document : ∀ r, r ∈ records s → isElementItem (m_item r) = true;
  ok_tree : treeOk (tree s);
  ok_list : HTMLFormattingElementList.wf (entries s);
  ok_sound : ∀ r, r ∈ records s → sound (doc s) (m_item r);
  ok_entries : ∀ item, Some item ∈ entries s → formatting item = true ∧ sound (doc s) item;
  ok_distinct : ∀ item, Some item ∈ entries s → attributesDistinct item;
  ok_agree : ∀ r item, r ∈ records s → Some item ∈ entries s → stackNode r = node_id (m_node item) → m_item r = item;
  ok_low : low (records s);
  ok_root : is_Some (doc s !! m_attachmentRoot);
}.

Record siteOk (s : HTMLConstructionSite) : Prop := mkSiteOk { ok_shape : shape s; ok_pending : pending s }.

Lemma treeTasks_app q q' (Q : unit → Tree → Prop) T : wp (treeTasks q) (λ _ T', wp (treeTasks q') Q T') T → wp (treeTasks (q ++ q')) Q T.
Proof.
  revert T. induction q as [|task q IH]; intros T Hw; cbn [app treeTasks]; [exact Hw|]. cbn [treeTasks] in Hw. unfold wp, mbind, M_bind in *. destruct (treeTask task T) as [[[] T']|]; [|done].
  by apply IH.
Qed.

(** One more task. *)
Lemma pending_enqueue task (Q : unit → Tree → Prop) q T : wp (treeTasks q) (λ _ T', wp (treeTask task) Q T') T → wp (treeTasks (q ++ [task])) Q T.
Proof.
  intros Hw. apply treeTasks_app. eapply wp_mono; [done|]. intros [] T' Ht. cbn [treeTasks]. apply wp_bind. eapply wp_mono; [done|]. intros [] T'' HQ. by apply wp_ret.
Qed.

(** ** Parts of the state *)

Lemma wp_onStack {A} (m : M HTMLElementStack A) (Q : A → HTMLConstructionSite → Prop) s :
  wp m (λ a x, Q a (set_openElements x s)) (m_openElements s) → wp (onStack m) Q s.
Proof. apply wp_part. Qed.
Lemma wp_onList {A} (m : M (list Entry) A) (Q : A → HTMLConstructionSite → Prop) s :
  wp m (λ a x, Q a (set_activeFormattingElements x s)) (entries s) → wp (onList m) Q s.
Proof. apply wp_part. Qed.
Lemma wp_onTree {A} (m : M Tree A) (Q : A → HTMLConstructionSite → Prop) s : wp m (λ a x, Q a (set_tree x s)) (tree s) → wp (onTree m) Q s.
Proof. apply wp_part. Qed.

(** Questions to the parts. *)
Lemma wp_askStack {A} (m : M HTMLElementStack A) a (Q : A → HTMLConstructionSite → Prop) s :
  m (m_openElements s) = Some (a, m_openElements s) → Q a s → wp (onStack m) Q s.
Proof. intros Hm HQ. apply wp_onStack. unfold wp. rewrite Hm. by destruct s. Qed.
Lemma wp_askList {A} (m : M (list Entry) A) a (Q : A → HTMLConstructionSite → Prop) s : m (entries s) = Some (a, entries s) → Q a s → wp (onList m) Q s.
Proof. intros Hm HQ. apply wp_onList. unfold wp. rewrite Hm. by destruct s. Qed.
Lemma wp_askDOM {A} (m : M Heap A) (Q : A → HTMLConstructionSite → Prop) s : wp m (λ a h, h = doc s ∧ Q a s) (doc s) → wp (onDOM m) Q s.
Proof.
  intros Hm. unfold onDOM. apply wp_onTree, wp_part. eapply wp_mono; [done|]. intros a h [-> HQ]. by destruct s as [? ? ? ? ? ? ? ? []].
Qed.

Lemma wp_askField {A} (f : DOMNode → A) n r (Q : A → HTMLConstructionSite → Prop) s : doc s !! n = Some r → Q (f r) s → wp (onDOM (field f n)) Q s.
Proof. intros Hn HQ. apply wp_askDOM. by eapply wp_field. Qed.

(** The invariant depends on the stack, the list, the queue and the tree only. *)
Lemma siteOk_ext s s' :
  m_openElements s' = m_openElements s → entries s' = entries s → m_taskQueue s' = m_taskQueue s → tree s' = tree s → siteOk s → siteOk s'.
Proof. intros E1 E2 E3 E4 [[] Hp]. unfold pending in Hp. split; [constructor|unfold pending]; rewrite ?E1, ?E2, ?E3, ?E4; done. Qed.

Lemma wp_downcastItem item (Q : Node → HTMLConstructionSite → Prop) s : isElementItem item = true → Q (m_node item) s → wp (onStack (downcast item)) Q s.
Proof. intros He HQ. eapply wp_askStack; [by apply downcast_run|done]. Qed.

(** ** Running the queue *)

(** The tree and the events after the tasks. *)
Definition executed (T : Tree) (e : list Event) (s : HTMLConstructionSite) : HTMLConstructionSite :=
  let k := m_openElements s in
  set_tree T (set_openElements (mkStack (m_top k) (m_rootNode k) (m_headElement k) (m_bodyElement k) (m_stackDepth k) (nextAddress k) (events k ++ e)) s).

Lemma executeTask_ok task (Q : unit → HTMLConstructionSite → Prop) s :
  wp (treeTask task) (λ _ T, ∀ e, Q tt (executed T e s)) (tree s) → wp (executeTask task) Q s.
Proof.
  assert (Hno : ∀ T, executed T [] s = set_tree T s) by (intros T; unfold executed; rewrite app_nil_r; by destruct s as [[] ? ? ? ? ? ? ? ? ? ?]).
  unfold executeTask, treeTask. destruct (operation task) eqn:Eop; intros Hw.
  2-4: apply wp_onTree; eapply wp_mono; [exact Hw|]; intros [] T HT; specialize (HT []); by rewrite Hno in HT.
  unfold executeInsertTask. apply wp_bind, wp_ASSERT; [by apply bool_decide_eq_true|]. apply wp_bind, wp_onTree. eapply wp_mono; [exact Hw|]. intros [] T HT.
  apply wp_bind, wp_onStack, wp_modify. destruct (task_selfClosing task).
  - apply wp_onStack, wp_modify. specialize (HT [BegunChildren (task_child task); FinishedChildren (task_child task)]). refine (eq_ind _ (Q tt) HT _ _).
    destruct s as [[] ? ? ? ? ? ? ? ? ? ?]. unfold executed, set_openElements, set_tree, add_event. cbn. by rewrite <-app_assoc.
  - apply wp_ret. specialize (HT [BegunChildren (task_child task)]). by destruct s as [[] ? ? ? ? ? ? ? ? ? ?].
Qed.

Lemma executeTasks_ok queue (Q : unit → HTMLConstructionSite → Prop) s :
  wp (treeTasks queue) (λ _ T, ∀ e, Q tt (executed T e s)) (tree s) → wp (executeTasks queue) Q s.
Proof.
  revert s. induction queue as [|task queue IH]; intros s Hw; cbn [executeTasks treeTasks] in *.
  - unfold wp, mret, M_ret in Hw. apply wp_ret. specialize (Hw []). unfold executed in Hw. rewrite app_nil_r in Hw. by destruct s as [[] ? ? ? ? ? ? ? ? ? ?].
  - apply wp_bind, executeTask_ok. unfold wp at 1, mbind, M_bind in Hw. unfold wp at 1. destruct (treeTask task (tree s)) as [[[] T]|]; [|done]. intros e. apply IH.
    unfold wp. cbn [executed set_tree tree]. destruct (treeTasks queue T) as [[[] T']|]; [|done]. intros e'. specialize (Hw (e ++ e')).
    refine (eq_ind _ (Q tt) Hw _ _). destruct s as [[] ? ? ? ? ? ? ? ? ? ?]. unfold executed, set_openElements, set_tree. cbn. by rewrite <-app_assoc.
Qed.

Lemma wf_events k e :
  HTMLElementStack.wf k → HTMLElementStack.wf (mkStack (m_top k) (m_rootNode k) (m_headElement k) (m_bodyElement k) (m_stackDepth k) (nextAddress k) (events k ++ e)).
Proof. intros [? ? ? ? ? ? ?]. by constructor. Qed.

(** The tree changed, the nodes stay what they are. *)
Lemma shape_executed T e s : shape s → treeOk T → grows (doc s) (document T) → shape (executed T e s).
Proof.
  intros [H1 H2 Hd HT H3 H4 H5 H5' H6 H7 H8] HT' Hg. constructor; cbn [executed set_tree set_openElements m_openElements m_top m_activeFormattingElements tree]; try done; [by apply wf_events|..].
  - intros r Hr. by eapply sound_grows, H4.
  - intros item Hi. destruct (H5 item Hi). split; [done|]. by eapply sound_grows.
  - by eapply grows_lookup.
Qed.

(** More nodes, and text among the old ones, while the queue waits. *)
Lemma siteOk_ahead T e s : siteOk s → ahead (doc s) T → siteOk (executed T e s).
Proof.
  intros [Hs Hp] Ha. split; [apply shape_executed; [done|apply Ha..]|]. intros T0 Ha0. cbn [executed set_tree set_openElements tree m_openElements m_top m_taskQueue] in *.
  eapply wp_mono; [apply Hp; by eapply ahead_trans|]. intros [] T' [O1 O2 O3 O4 O5]. constructor; try done. intros n Hn Hn'. apply O5; [done|]. destruct (doc s !! n) as [r|] eqn:E; [|done].
  destruct (ahead_grows _ _ Ha n r E) as (r' & Hr' & _). congruence.
Qed.

(** After the queue ran the document is a tree with the open elements in order. *)
Lemma siteOk_executed T e s : siteOk s → outcome (stackNode <$> records s) (anchors (records s)) (doc s) (tree s) T → siteOk (executed T e (set_taskQueue [] s)).
Proof.
  intros Hok Hout. pose proof (ok_shape _ Hok) as Hs. pose proof (out_grows _ _ _ _ _ Hout) as Hg. split.
  - apply (shape_executed T e (set_taskQueue [] s)); [destruct Hs; by constructor|apply (out_tree _ _ _ _ _ Hout)|done].
  - intros T0 Hmore. cbn [set_taskQueue m_taskQueue treeTasks]. apply wp_ret. apply (outcome_start _ _ T T0); [apply Hout..| |done].
    intros n Hn. apply list_elem_of_fmap in Hn as (r & -> & Hr). eapply sound_exists, sound_grows; [done|]. by apply (ok_sound _ Hs).
Qed.

Lemma executeQueue_ok s :
  siteOk s → wp executeQueuedTasks (λ _ s', siteOk s' ∧ m_taskQueue s' = [] ∧ records s' = records s ∧ m_redirectAttachToFosterParent s' = m_redirectAttachToFosterParent s) s.
Proof.
  intros Hok. unfold executeQueuedTasks. apply wp_bind, wp_gets. destruct (bool_decide (length (m_taskQueue s) = 0%nat)) eqn:E.
  { apply bool_decide_eq_true, nil_length_inv in E. by apply wp_ret. }
  apply wp_bind, wp_modify, executeTasks_ok. cbn [set_taskQueue tree]. eapply wp_mono; [exact (ok_pending _ Hok (tree s) (ahead_refl _ (ok_tree _ (ok_shape _ Hok))))|].
  intros [] T Hout e. split_and!; [by apply siteOk_executed|done..].
Qed.

(** ** Finding records *)

Lemma findRecord_split p l r : findRecord p l = Some r → ∃ a b, l = a ++ r :: b ∧ p r = true ∧ Forall (λ x, p x = false) a.
Proof.
  induction l as [|x l IH]; cbn; [done|]. destruct (p x) eqn:E; [intros [= ->]; by exists [], l|]. intros (a & b & -> & ? & ?)%IH. exists (x :: a), b. split_and!; [done..|by constructor].
Qed.
Lemma findRecord_none p l : findRecord p l = None → Forall (λ x, p x = false) l.
Proof. induction l as [|x l IH]; cbn; [done|]. destruct (p x) eqn:E; [done|]. intros ?%IH. by constructor. Qed.

Lemma findRecord_here (p : ElementRecord → bool) a r b : Forall (λ x, p x = false) a → p r = true → findRecord p (a ++ r :: b) = Some r.
Proof. intros Ha Hr. induction Ha as [|x a Hx Ha IH]; cbn; [by rewrite Hr|by rewrite Hx]. Qed.

Lemma address_before a r b : NoDup (rec_id <$> a ++ r :: b) → Forall (λ x, bool_decide (rec_id x = rec_id r) = false) a.
Proof.
  intros Hnd. rewrite fmap_app, fmap_cons in Hnd. apply NoDup_app in Hnd as (_ & Hd & _). apply Forall_forall. intros x Hx. apply bool_decide_eq_false. intros E.
  apply (Hd (rec_id x)); [by apply list_elem_of_fmap_2|rewrite E; apply list_elem_of_here].
Qed.

Lemma nextRecord_here a r b : NoDup (rec_id <$> a ++ r :: b) → nextRecord (rec_id r) (a ++ r :: b) = head b.
Proof.
  intros Hnd%address_before. induction Hnd as [|x a Hx _ IH]; cbn [app nextRecord]; [by rewrite bool_decide_eq_true_2|]. by rewrite Hx.
Qed.

Lemma wp_next a r r' b (Q : ElementRecord → HTMLConstructionSite → Prop) s :
  HTMLElementStack.wf (m_openElements s) → records s = a ++ r :: r' :: b → Q r' s → wp (next (rec_id r)) Q s.
Proof.
  intros Hwf E HQ. unfold next. apply wp_bind, wp_gets. cbn [compose]. rewrite E, nextRecord_here; [by apply wp_ret|]. rewrite <-E. by apply (wf_addresses _ Hwf).
Qed.

(** Only the root is at the bottom. *)
Lemma not_last s a r b : HTMLElementStack.wf (m_openElements s) → records s = a ++ r :: b → isRootItem (m_item r) = false → b ≠ [].
Proof. intros Hwf E Hr ->. pose proof (wf_rooted _ Hwf) as Hro. unfold rooted in Hro. rewrite E, last_snoc in Hro. destruct Hro as (_ & Hroot & _). congruence. Qed.

Lemma tag_not_root name item : hasTagName name item = true → name ≠ htmlName "html" → isRootItem item = false.
Proof.
  intros Ht Hne. apply not_true_iff_false. unfold isRootItem, isRootNode. rewrite andb_true_iff, orb_true_iff. intros [[Hf|Hh] _].
  - unfold isDocumentFragment, hasTagName in *. apply bool_decide_eq_true in Hf. rewrite Hf in Ht. by rewrite (bool_decide_eq_false_2 (None = Some _)) in Ht.
  - by apply Hne, (hasTagName_inj item).
Qed.

(** ** Where a node is foster-parented *)

(** The record that decides: a table, a template, what is below a table, or the root. *)
Definition fosters (l : list ElementRecord) (d : ElementRecord) : Prop :=
  d ∈ l ∧ (isTable d = true ∨ hasTagName (htmlName "template") (m_item d) = true ∨ (∃ a t b, l = a ++ t :: d :: b ∧ isTable t = true) ∨ last l = Some d).

Definition fosterPlace (s : HTMLConstructionSite) (d : ElementRecord) (p : positive) (next : option positive) : Prop :=
  fosters (records s) d ∧ (p = stackNode d ∧ next = None ∨ isTable d = true ∧ parentOf (doc s) (stackNode d) = Some p ∧ next = Some (stackNode d)).

Lemma shape_address s : shape s → NoDup (rec_id <$> records s).
Proof. intros Hs. apply (wf_addresses _ (ok_stack _ Hs)). Qed.

Lemma shape_parent_exists s n p : shape s → parentOf (doc s) n = Some p → is_Some (doc s !! p).
Proof.
  intros Hs Hp. destruct (tree_inv _ (ok_tree _ Hs)) as [k Hk]. eapply parent_exists; [done|]. by apply (reps_parent _ _ (inv_reps _ _ Hk)).
Qed.

Lemma wp_canBeFosterParent parent (Q : bool → HTMLConstructionSite → Prop) s :
  shape s → (∀ p, parent = Some p → is_Some (doc s !! p)) → (∀ b, (b = true → parent ≠ None) → Q b s) → wp (canBeFosterParent parent) Q s.
Proof.
  intros Hs Hex HQ. unfold canBeFosterParent. destruct parent as [p|]; [|by apply wp_ret, HQ]. destruct (Hex p eq_refl) as [r Hr].
  assert (Hty : ∀ ty (K : bool → CM bool), (∀ b, wp (K b) Q s) → wp (b ← onDOM (isType ty p); K b) Q s).
  { intros ty K HK. apply wp_bind, wp_askDOM. unfold isType. eapply wp_bind, wp_field; [done|]. apply wp_ret. split; [done|]. apply HK. }
  apply Hty. intros element. apply wp_bind.
  assert (Hroot : wp (if m_isParsingFragment then onStack rootNode else mret p) (λ _ s', s' = s) s).
  { destruct m_isParsingFragment; [|by apply wp_ret]. pose proof (wf_rooted _ (ok_stack _ Hs)) as Hro. unfold rooted in Hro. destruct (last (records s)) as [root|] eqn:El; [|by apply last_None in El; destruct (ok_top _ Hs)].
    destruct Hro as (Hro & _). eapply (wp_askStack _ (stackNode root)); [|done]. unfold rootNode, gets, mbind, M_bind. by rewrite Hro. }
  eapply wp_mono; [exact Hroot|]. intros root s' ->. apply Hty. intros fragment. apply wp_bind.
  assert (Hin : wp (if fragment : bool then isTemplateContent p else mret false) (λ _ s', s' = s) s).
  { destruct fragment; [|by apply wp_ret]. unfold isTemplateContent. apply wp_bind. eapply wp_askField; [done|]. by apply wp_gets. }
  eapply wp_mono; [exact Hin|]. intros b s' ->. by apply wp_ret, HQ.
Qed.

Lemma wp_findFosterSite (Q : positive * option positive → HTMLConstructionSite → Prop) s :
  shape s → (∀ d p next, fosterPlace s d p next → Q (p, next) s) → wp findFosterSite Q s.
Proof.
  intros Hs HQ. unfold findFosterSite. pose proof (ok_stack _ Hs) as Hwf.
  assert (Hel : ∀ r, r ∈ records s → isElementItem (m_item r) = true) by apply (ok_document _ Hs).
  apply wp_bind. eapply wp_askStack; [done|].
  assert (Htable : ∀ t a b, records s = a ++ t :: b → matchesHTMLTag (text "table") (m_item t) = true →
    wp (lastTableElement ← onStack (downcast (m_item t)); parent ← onDOM (field m_parentNode (node_id lastTableElement)); can ← canBeFosterParent parent;
        match parent, can : bool with
        | Some p, true => mret (p, Some (node_id lastTableElement))
        | _, _ => below ← next (rec_id t); e ← onStack (downcast (m_item below)); mret (node_id e, None)
        end) Q s).
  { intros t a b E Ht. assert (Hin : t ∈ records s) by (rewrite E; set_solver). apply wp_bind, wp_downcastItem; [auto|]. destruct (sound_exists _ _ (ok_sound _ Hs t Hin)) as [r Hr].
    assert (Htab : isTable t = true) by (unfold isTable; rewrite (sound_node (doc s)) by (by apply ok_sound); done).
    assert (Hpar : parentOf (doc s) (stackNode t) = m_parentNode r) by (unfold parentOf, stackNode; by rewrite Hr).
    apply wp_bind. eapply wp_askField; [done|]. apply wp_bind, wp_canBeFosterParent; [done|intros p Hp; eapply shape_parent_exists; [done|by rewrite Hpar]|]. intros can _.
    assert (Hbelow : wp (below ← next (rec_id t); e ← onStack (downcast (m_item below)); mret (node_id e, None)) Q s).
    { destruct b as [|d b]; [exfalso; eapply (not_last s a t []); [done..|by apply (tag_not_root (htmlName "table"))|done]|]. assert (Hd : d ∈ records s) by (rewrite E; set_solver).
      eapply wp_bind, wp_next; [done..|]. apply wp_bind, wp_downcastItem; [auto|]. apply wp_ret, (HQ d). split; [|by left]. split; [done|]. right. right. left. by exists a, t, b. }
    destruct (m_parentNode r) as [p|]; [destruct can; [|done]|done]. apply wp_ret, (HQ t). split; [split; [done|by left]|]. right. by split_and!. }
  assert (Hrest : wp (lastTableElementRecord ← onStack (topmost (text "table"));
      match lastTableElementRecord with
      | Some table =>
          lastTableElement ← onStack (downcast (m_item table)); parent ← onDOM (field m_parentNode (node_id lastTableElement)); can ← canBeFosterParent parent;
          match parent, can : bool with
          | Some p, true => mret (p, Some (node_id lastTableElement))
          | _, _ => below ← next (rec_id table); e ← onStack (downcast (m_item below)); mret (node_id e, None)
          end
      | None => root ← onStack rootNode; mret (root, None)
      end) Q s).
  { apply wp_bind. eapply wp_askStack; [done|]. destruct (findRecord _ (records s)) as [t|] eqn:Ef.
    - apply findRecord_split in Ef as (a & b & E & Ht & _). by eapply Htable.
    - pose proof (wf_rooted _ Hwf) as Hro. unfold rooted in Hro. destruct (last (records s)) as [root|] eqn:El; [|by apply last_None in El; destruct (ok_top _ Hs)]. destruct Hro as (Hro & _).
      apply wp_bind. eapply (wp_askStack _ (stackNode root)); [unfold rootNode, gets, mbind, M_bind; by rewrite Hro|]. apply wp_ret, (HQ root). split; [|by left].
      split; [by apply last_Some_elem_of in El|]. right. right. by right. }
  destruct (findRecord _ (records s)) as [template|] eqn:Ef; apply wp_bind; [|by apply wp_ret].
  apply findRecord_split in Ef as (a & b & E & Ht & _). assert (Hin : template ∈ records s) by (rewrite E; set_solver).
  destruct (ask_run (TagInTableScope (text "table")) (m_openElements s) Hwf (ok_top _ Hs)) as (answer & Ha & _). eapply wp_askStack; [exact Ha|]. destruct answer; [done|].
  apply wp_bind, wp_downcastItem; [auto|]. apply wp_ret, (HQ template). split; [|by left]. split; [done|]. right. by left.
Qed.

(** ** New nodes *)

Definition withNode (n : positive) (type : NodeType) (name : option QualifiedName) (s : HTMLConstructionSite) : HTMLConstructionSite :=
  set_tree (mkTree (<[n := newNode type name None]> (doc s)) (contents (tree s))) s.

Lemma withNode_grows n type name s : doc s !! n = None → grows (doc s) (doc (withNode n type name s)).
Proof. intros Hn. by apply extends_grows, extends_insert. Qed.

Lemma shape_withNode n type name s : shape s → doc s !! n = None → shape (withNode n type name s).
Proof.
  intros Hs Hn. pose proof (withNode_grows n type name s Hn) as Hg. destruct Hs as [H1 H2 H3 H4 H5 H6 H7 H7' H8 H9 H10]. constructor; try done.
  - apply (treeOk_extends (tree s)); [done|]. by apply extends_insert.
  - intros r Hr. by eapply sound_grows, H6.
  - intros item Hi. destruct (H7 item Hi). split; [done|by eapply sound_grows].
  - by eapply grows_lookup.
Qed.

(** No open element and no entry has the address of a node that is new. *)
Lemma fresh_record s n r : shape s → doc s !! n = None → r ∈ records s → stackNode r ≠ n.
Proof. intros Hs Hn Hr <-. destruct (sound_exists _ _ (ok_sound _ Hs r Hr)). unfold stackNode in Hn. congruence. Qed.
Lemma fresh_entry s n item : shape s → doc s !! n = None → Some item ∈ entries s → node_id (m_node item) ≠ n.
Proof. intros Hs Hn Hi <-. destruct (ok_entries _ Hs item Hi) as [_ Hso]. destruct (sound_exists _ _ Hso). congruence. Qed.

Lemma nodes_entry l n : n ∈ nodes l → ∃ item, Some item ∈ l ∧ node_id (m_node item) = n.
Proof. unfold nodes. intros ([item|] & Hin & E)%list_elem_of_omap; [|done]. injection E as <-. by exists item. Qed.
Lemma fresh_nodes s n : shape s → doc s !! n = None → n ∉ nodes (entries s).
Proof. intros Hs Hn (item & Hin & E)%nodes_entry. by eapply fresh_entry. Qed.

Lemma stackNodes_exist s n : shape s → n ∈ stackNode <$> records s → is_Some (doc s !! n).
Proof. intros Hs (r & -> & Hr)%list_elem_of_fmap. eapply sound_exists. by apply ok_sound. Qed.

Lemma anchors_sub l n : n ∈ anchors l → n ∈ stackNode <$> l.
Proof. unfold anchors. intros (r & -> & Hr)%list_elem_of_fmap. apply list_elem_of_filter in Hr as [_ Hr]. by apply list_elem_of_fmap_2. Qed.

Lemma anchors_cons r l x : x ∈ anchors (r :: l) → x ∈ anchors l ∨ x = stackNode r.
Proof.
  unfold anchors. intros (r' & -> & Hr')%list_elem_of_fmap. apply list_elem_of_filter in Hr' as [Ht [-> |Hr']%elem_of_cons]; [by right|]. left. apply list_elem_of_fmap_2. by apply list_elem_of_filter.
Qed.

(** A queue that gets the insertion of a new node. *)
Lemma pending_insert s n type name p next sc l :
  siteOk s → doc s !! n = None → type ∈ contentTypes → type ≠ TEXT_NODE → is_Some (doc s !! p) → (∀ x, next = Some x → x ∈ anchors (records s) ∧ parentOf (doc s) x = Some p) →
  l = records s ∨ (∃ r, l = r :: records s ∧ stackNode r = n) →
  ∀ T0, ahead (<[n := newNode type name None]> (doc s)) T0 →
    wp (treeTasks (m_taskQueue s ++ [mkTask Insert p next n sc])) (λ _ T, outcome (stackNode <$> l) (anchors l) (<[n := newNode type name None]> (doc s)) T0 T) T0.
Proof.
  intros [Hs Hp] Hn Hty Htext Hpe Hnext Hl T0 Hmore. pose proof (tree_inv _ (ok_tree _ Hs)) as Hi. destruct (ahead_insert _ _ _ _ _ Hi Hn Hmore) as [Ha _]. apply pending_enqueue. eapply wp_mono; [by apply Hp|]. intros [] T Hout. cbn [treeTask operation].
  eapply (step_insert (stackNode <$> records s) (anchors (records s)) (doc s)); try done.
  - intros m Hm. by apply stackNodes_exist.
  - split; [done|]. intros ->. by apply (bool_decide_eq_true_2 _) in Hty.
  - by left.
  - intros x Hx. destruct (Hnext x Hx) as [Hxt Hxp]. apply (out_tables _ _ _ _ _ Hout); [done|]. rewrite (ahead_parent _ _ Ha); [done|]. apply anchors_sub in Hxt. by apply stackNodes_exist.
  - destruct Hl as [-> |(r & -> & <-)]; [by left|by right].
  - intros x Hx. destruct Hl as [-> |(r & -> & <-)]; [by left|]. by apply anchors_cons.
Qed.

Definition queued (task : HTMLConstructionSiteTask) (s : HTMLConstructionSite) : HTMLConstructionSite := set_taskQueue (m_taskQueue s ++ [task]) s.

(** The elements the policy lets in. *)
Definition allowed (name : option QualifiedName) : bool :=
  (scriptingContentIsAllowed m_parserContentPolicy || negb (isScriptElement name)) && (pluginContentIsAllowed m_parserContentPolicy || negb (isPluginElement name)).

Lemma wp_shouldFosterParent (Q : bool → HTMLConstructionSite → Prop) s : shape s → (∀ b, Q b s) → wp shouldFosterParent Q s.
Proof.
  intros Hs HQ. unfold shouldFosterParent. apply wp_bind, wp_gets. destruct (m_redirectAttachToFosterParent s); [|by apply wp_ret].
  destruct (records s) as [|r l] eqn:E; [by destruct (ok_top _ Hs)|]. apply wp_bind. eapply (wp_askStack _ (m_item r)); [|by apply wp_ret]. unfold topStackItem, topRecord, mbind, M_bind. by rewrite E.
Qed.

Lemma in_anchors l d : d ∈ l → isAnchor d = true → stackNode d ∈ anchors l.
Proof. intros Hd Ht. unfold anchors. apply list_elem_of_fmap_2. by apply list_elem_of_filter. Qed.
Lemma table_anchor d : isTable d = true → isAnchor d = true.
Proof. unfold isAnchor. by intros ->. Qed.

(** The record a node is foster-parented by gives a place in the document. *)
Lemma fosterPlace_ok s d p next :
  shape s → fosterPlace s d p next → is_Some (doc s !! p) ∧ ∀ x, next = Some x → x ∈ anchors (records s) ∧ parentOf (doc s) x = Some p.
Proof.
  intros Hs [[Hd _] [[-> ->]|(Ht & Hp & ->)]].
  - split; [|done]. eapply sound_exists. by apply ok_sound.
  - split; [by eapply shape_parent_exists|]. intros x [= <-]. split; [by apply in_anchors; [|apply table_anchor]|done].
Qed.

(** Where [attachLater] puts a new node. *)
Lemma wp_attachLater s n type name p sc A (Q : unit → HTMLConstructionSite → Prop) :
  shape s → doc s !! n = None → is_Some (doc s !! p) → allowed name = true →
  (∀ p' next sc', is_Some (doc s !! p') → (∀ x, next = Some x → x ∈ anchors (records s) ∧ parentOf (doc s) x = Some p') →
     Q tt (queued (mkTask Insert p' next n sc') (set_attributesOf A (withNode n type name s)))) →
  wp (attachLater p n sc) Q (set_attributesOf A (withNode n type name s)).
Proof.
  intros Hs Hn Hp Ha HQ. set (s1 := set_attributesOf A (withNode n type name s)). assert (Hs1 : shape s1) by (destruct (shape_withNode n type name s Hs Hn); by constructor).
  assert (He : extends (doc s) (doc s1)) by (by apply extends_insert). assert (Hpar : ∀ x, parentOf (doc s1) x = parentOf (doc s) x) by (intros x; by apply extends_parent).
  assert (Hback : ∀ q x, parentOf (doc s) x = Some q → is_Some (doc s !! q)) by (intros q x; by apply shape_parent_exists).
  unfold allowed in Ha. apply andb_true_iff in Ha as [Ha1 Ha2]. unfold attachLater.
  apply wp_bind. eapply (wp_askField _ n (newNode type name None)); [apply lookup_insert_eq|]. cbn [tagQName newNode]. apply wp_bind, wp_ASSERT; [done|]. apply wp_bind, wp_ASSERT; [done|].
  apply wp_bind, wp_shouldFosterParent; [done|]. intros foster. destruct foster.
  - unfold fosterParent. apply wp_bind, wp_findFosterSite; [done|]. intros d p' next Hpl. unfold enqueue. apply wp_modify. apply HQ.
    + destruct Hpl as [[Hd _] [[-> _]|(_ & Hpp & _)]]; [eapply sound_exists; by apply (ok_sound _ Hs)|]. rewrite Hpar in Hpp. by eapply Hback.
    + intros x Hx. destruct (fosterPlace_ok s1 d p' next Hs1 Hpl) as [_ Hn']. destruct (Hn' x Hx) as [? Hpx]. split; [done|]. by rewrite <-Hpar.
  - apply wp_bind, wp_gets. destruct Hp as [rp Hrp]. apply wp_bind. eapply wp_askField; [eapply extends_lookup; [exact He|exact Hrp]|]. unfold enqueue. apply wp_modify. apply HQ; [|done].
    assert (Epar : parentOf (doc s) p = m_parentNode rp) by (unfold parentOf; by rewrite Hrp). destruct (m_maximumDOMTreeDepth <? _)%Z; [|by eexists].
    destruct (m_parentNode rp) as [q|]; [by eapply Hback|by eexists].
Qed.

(** ** New elements *)

(** The element factory knows the name, or there is no definition of it, or a fragment is parsed. *)
Definition creatable (name : list Z) : bool := negb (negb (createKnownElement name) && findInterface name && negb m_isParsingFragment).

Lemma wp_createElement name attributes (Q : Node * list Attribute → HTMLConstructionSite → Prop) s :
  (∀ n A, doc s !! n = None → Q (mkNode n (Some name), allowedAttributes name attributes) (set_attributesOf A (withNode n ELEMENT_NODE (Some name) s))) → wp (createElement name attributes) Q s.
Proof.
  intros HQ. unfold createElement, createNode. apply wp_bind, wp_onTree. unfold allocate. apply wp_bind, wp_gets. apply wp_bind, wp_modify. apply wp_ret.
  apply wp_bind. unfold setAttributes. apply wp_bind, wp_modify. apply wp_ret, wp_ret. apply HQ, fresh_none.
Qed.

Lemma wp_createHTMLElement token (Q : Node * list Attribute → HTMLConstructionSite → Prop) s :
  let name := mkName (tag_name token) xhtmlNamespaceURI in
  creatable (tag_name token) = true →
  (∀ n A, doc s !! n = None → Q (mkNode n (Some name), allowedAttributes name (tag_attributes token)) (set_attributesOf A (withNode n ELEMENT_NODE (Some name) s))) →
  wp (createHTMLElement token) Q s.
Proof.
  cbn zeta. intros Hc HQ. unfold createHTMLElement, createHTMLElementOrFindCustomElementInterface. unfold creatable in Hc. apply negb_true_iff in Hc. rewrite Hc.
  apply wp_bind, wp_bind, wp_createElement. intros n A Hn. apply wp_ret, wp_ret. auto.
Qed.

(** The item of a new element. *)
Definition newItem (n : positive) (name : list Z) (ns : Namespace) (attributes : list Attribute) : HTMLStackItem :=
  mkItem (mkNode n (Some (mkName name ns))) ns (Some name) attributes.

Lemma newItem_sound h n name ns attributes : sound (<[n := newNode ELEMENT_NODE (Some (mkName name ns)) None]> h) (newItem n name ns attributes).
Proof. eexists. cbn. rewrite lookup_insert_eq. by split_and!. Qed.

End Quiet.
