(* ===== verification/SiteOperations.v ===== *)
(** * The operations of the construction site keep its invariant

    What the operations that open elements do to a site for which [siteOk] holds, when no
    script runs: they do not fail, and [siteOk] holds after them. *)

From Stdlib Require Import String.
From S2P Require Import Prelude HTMLStackItem HTMLElementStack HTMLFormattingElementList ContainerNode ContainerNodeLists ContainerNodeCorrect ContainerNodeScripts ContainerNodeTheorems.
From S2P Require Import TreeOrder HTMLConstructionSite TreeTasks SiteInvariant.

#[local] Open Scope string_scope.
#[local] Open Scope list_scope.

Lemma low_cons r l : low l → (isHead (m_item r) || isBody (m_item r) = true → length l = 1%nat) → low (r :: l).
Proof. intros Hl Hr [|x a] r' b; cbn; intros [= -> ->]; [done|]. by apply (Hl a). Qed.

Lemma low_app a b : low (a ++ b) → low b.
Proof. intros Hl a' r b' ->. apply (Hl (a ++ a')). by rewrite <-app_assoc. Qed.

Lemma ordinary_low item (P : Prop) : ordinary item = true → isHead item || isBody item = true → P.
Proof. intros (_ & _ & -> & ->)%ordinary_split. done. Qed.

Lemma NoDup_fmap_inj_in {A B} (f : A → B) (l : list A) x y : NoDup (f <$> l) → x ∈ l → y ∈ l → f x = f y → x = y.
Proof.
  intros Hnd [i Hi]%list_elem_of_lookup [j Hj]%list_elem_of_lookup E. assert (i = j) as ->; [|congruence].
  apply (NoDup_lookup _ _ _ (f x) Hnd); rewrite list_lookup_fmap; [by rewrite Hi|by rewrite Hj, E].
Qed.

Section Quiet.
Context `{Build} `{Parser}.
#[local] Existing Instance quiet.

(** ** Opening an element *)

(** A new element in the queue, with its record on top of the stack. *)
Definition opened (n : positive) (name : list Z) (ns : Namespace) (attributes : list Attribute) A (task : HTMLConstructionSiteTask) (s : HTMLConstructionSite) : HTMLConstructionSite :=
  set_openElements (putIn (newItem n name ns attributes) [] (records s) [] (m_openElements s))
    (queued task (set_attributesOf A (withNode n ELEMENT_NODE (Some (mkName name ns)) s))).

(** A place in the document for a node that is foster-parented or not. *)
Definition place (s : HTMLConstructionSite) (p : positive) (next : option positive) : Prop :=
  is_Some (doc s !! p) ∧ ∀ x, next = Some x → x ∈ anchors (records s) ∧ parentOf (doc s) x = Some p.

Lemma newItem_element n name ns attributes : isElementItem (newItem n name ns attributes) = true.
Proof. done. Qed.

Lemma shape_opened n name ns attributes A q s :
  let item := newItem n name ns attributes in
  shape s → doc s !! n = None → isHTML item = false →
  (isHead item = true → m_headElement (m_openElements s) = None ∧ length (records s) = 1%nat) →
  (isBody item = true → m_bodyElement (m_openElements s) = None ∧ length (records s) = 1%nat) →
  shape (set_openElements (putIn item [] (records s) [] (m_openElements s)) (set_taskQueue q (set_attributesOf A (withNode n ELEMENT_NODE (Some (mkName name ns)) s)))).
Proof.
  cbn zeta. intros Hs Hn Hhtml Hhead Hbody. set (item := newItem n name ns attributes) in *.
  pose proof (shape_withNode n ELEMENT_NODE (Some (mkName name ns)) s Hs Hn) as [H1 H2 H3 H4 H5 H6 H7 H7' H8 H9 H10].
  constructor; unfold set_openElements, putIn; cbn [m_openElements m_top app]; try done.
  - apply (putIn_wf item [] (records s)); try done; [apply bool_decide_eq_true; intros (r & Er & Hr)%list_elem_of_fmap; by eapply fresh_record|intros ?; by apply Hhead|intros ?; by apply Hbody].
  - intros r [-> |Hr]%elem_of_cons; [done|by apply H3].
  - intros r [-> |Hr]%elem_of_cons; [apply newItem_sound|by apply H6].
  - intros r i [-> |Hr]%elem_of_cons Hi E; [by destruct (fresh_entry s n i Hs Hn Hi)|by apply H8].
  - apply low_cons; [done|]. intros [?|?]%orb_true_iff; [by apply Hhead|by apply Hbody].
Qed.

Lemma siteOk_opened n name ns attributes A p next sc s :
  let item := newItem n name ns attributes in
  siteOk s → doc s !! n = None → place s p next → isHTML item = false →
  (isHead item = true → m_headElement (m_openElements s) = None ∧ length (records s) = 1%nat) →
  (isBody item = true → m_bodyElement (m_openElements s) = None ∧ length (records s) = 1%nat) →
  siteOk (opened n name ns attributes A (mkTask Insert p next n sc) s).
Proof.
  cbn zeta. intros Hok Hn [Hp Hnext] Hhtml Hhead Hbody. split; [apply shape_opened; [apply Hok|done..]|].
  unfold pending, opened. cbn [set_openElements queued set_taskQueue m_taskQueue set_attributesOf withNode set_tree tree document contents m_openElements putIn m_top app].
  eapply (pending_insert s n ELEMENT_NODE (Some (mkName name ns)) p next sc); try done; [by apply (bool_decide_eq_true_1 _)|]. right. by eexists.
Qed.

(** A new element that is opened and stays out of the document. *)
Lemma siteOk_openedOnly n name ns attributes A s :
  siteOk s → doc s !! n = None → ordinary (newItem n name ns attributes) = true →
  siteOk (set_openElements (putIn (newItem n name ns attributes) [] (records s) [] (m_openElements s)) (set_attributesOf A (withNode n ELEMENT_NODE (Some (mkName name ns)) s))).
Proof.
  intros Hok Hn Ho. pose proof (ok_shape _ Hok) as Hs. destruct (proj1 (ordinary_split _) Ho) as (_ & ? & ? & ?). split; [apply (shape_opened n name ns attributes A (m_taskQueue s) s); [done..|congruence|congruence]|].
  intros T0 Hmore. cbn [set_openElements m_openElements putIn m_top app]. rewrite fmap_cons. pose proof (tree_inv _ (ok_tree _ Hs)) as Hi.
  destruct (ahead_insert (doc s) n ELEMENT_NODE (Some (mkName name ns)) T0 Hi Hn Hmore) as [Ha _].
  eapply wp_mono; [by apply (ok_pending _ Hok)|]. intros [] T Hout. pose proof (λ n', stackNodes_exist s n' Hs) as Hex.
  eapply step_none; [done..|apply element_weight|by right|]. intros x Hx. by apply anchors_cons in Hx.
Qed.

(** A new node in the queue that is not opened. *)
Lemma siteOk_leaf n type name A p next sc s :
  siteOk s → doc s !! n = None → place s p next → type ∈ contentTypes → type ≠ TEXT_NODE → siteOk (queued (mkTask Insert p next n sc) (set_attributesOf A (withNode n type name s))).
Proof.
  intros Hok Hn [Hp Hnext] Ht Htext. destruct (shape_withNode n type name s (ok_shape _ Hok) Hn). split; [by constructor|].
  unfold pending. cbn [queued set_taskQueue m_taskQueue set_attributesOf withNode set_tree tree document contents m_openElements]. eapply (pending_insert s n type name p next sc); try done. by left.
Qed.

(** ** Items of elements *)

(** The tags whose elements the stack has no own operations for. *)
Definition plain (name : list Z) : bool := bool_decide (name ∉ text <$> ["html"; "head"; "body"]).

Lemma newItem_tag n name ns attributes tag : hasTagName (htmlName tag) (newItem n name ns attributes) = bool_decide (name = text tag) && bool_decide (ns = xhtmlNamespaceURI).
Proof. unfold hasTagName. cbn. f_equal. apply bool_decide_ext. naive_solver. Qed.

Lemma newItem_ordinary n name ns attributes : plain name = true ∨ ns ≠ xhtmlNamespaceURI → ordinary (newItem n name ns attributes) = true.
Proof.
  intros Hp. apply ordinary_split. unfold isHTML, isHead, isBody. rewrite !newItem_tag. destruct Hp as [Hp|Hns]; [|rewrite (bool_decide_eq_false_2 (ns = _)), !andb_false_r by done; done].
  unfold plain in Hp. apply bool_decide_eq_true in Hp. cbn [fmap list_fmap] in Hp. rewrite !not_elem_of_cons in Hp. destruct Hp as (? & ? & ? & _). rewrite (bool_decide_eq_false_2 (name = text "html")), (bool_decide_eq_false_2 (name = text "head")), (bool_decide_eq_false_2 (name = text "body")) by done. done.
Qed.

Lemma formatting_plain name : isFormattingTag name = true → plain name = true.
Proof.
  intros Hf. apply bool_decide_eq_true. intros Hin. cbn [fmap list_fmap] in Hin.
  repeat (apply elem_of_cons in Hin as [-> |Hin]; [done|]). by apply elem_of_nil in Hin.
Qed.

Lemma ordinary_opened n name ns attributes (P : Prop) :
  ordinary (newItem n name ns attributes) = true → isHTML (newItem n name ns attributes) = false ∧ (isHead (newItem n name ns attributes) = true → P) ∧ (isBody (newItem n name ns attributes) = true → P).
Proof. intros (_ & -> & -> & ->)%ordinary_split. done. Qed.

Lemma allowedAttributes_sub name attributes : allowedAttributes name attributes `sublist_of` attributes.
Proof. unfold allowedAttributes. destruct (scriptingContentIsAllowed _); [done|]. apply sublist_filter. Qed.

Lemma distinct_sub (attributes attributes' : list Attribute) : attributes' `sublist_of` attributes → NoDup (attributeName <$> attributes) → NoDup (attributeName <$> attributes').
Proof. intros Hs Hn. eapply sublist_NoDup; [exact Hn|]. by apply fmap_sublist. Qed.

(** ** The current node *)

Lemma wp_currentStackItem r l (Q : HTMLStackItem → HTMLConstructionSite → Prop) s : records s = r :: l → Q (m_item r) s → wp currentStackItem Q s.
Proof. intros E HQ. eapply (wp_askStack _ (m_item r)); [|done]. unfold topStackItem, topRecord, mbind, M_bind. by rewrite E. Qed.

Lemma wp_currentNode (Q : positive → HTMLConstructionSite → Prop) s :
  shape s → (∀ r l, records s = r :: l → is_Some (doc s !! stackNode r) → Q (stackNode r) s) → wp currentNode Q s.
Proof.
  intros Hs HQ. destruct (records s) as [|r l] eqn:E; [by destruct (ok_top _ Hs)|]. unfold currentNode. eapply wp_bind, wp_currentStackItem; [done|]. apply wp_ret, (HQ r l); [done|].
  eapply sound_exists. apply (ok_sound _ Hs). rewrite E. apply list_elem_of_here.
Qed.

(** The shape of a site with a new node. *)
Lemma shape_new n type name A s : shape s → doc s !! n = None → shape (set_attributesOf A (withNode n type name s)).
Proof. intros Hs Hn. destruct (shape_withNode n type name s Hs Hn). by constructor. Qed.

(** The parent is the current node: the task for a new node. *)
Lemma wp_attachHere n type name sc A (Q : unit → HTMLConstructionSite → Prop) s :
  shape s → doc s !! n = None → allowed name = true →
  (∀ p next sc', place s p next → Q tt (queued (mkTask Insert p next n sc') (set_attributesOf A (withNode n type name s)))) →
  wp (parent ← currentNode; attachLater parent n sc) Q (set_attributesOf A (withNode n type name s)).
Proof.
  intros Hs Hn Ha HQ. apply wp_bind, wp_currentNode; [by apply shape_new|]. intros r l E _. apply wp_attachLater; [done..| |done|].
  - eapply sound_exists, (ok_sound _ Hs). replace (records s) with (r :: l) by (by rewrite <-E). apply list_elem_of_here.
  - intros p next sc' Hp Hnext. by apply HQ.
Qed.

Lemma wp_assoc {St A B C} (m : M St A) (f : A → M St B) (g : B → M St C) Q s : wp (b ← (a ← m; f a); g b) Q s → wp (a ← m; b ← f a; g b) Q s.
Proof. unfold wp, mbind, M_bind. by destruct (m s) as [[a s']|]. Qed.

(** A new element on top of the stack. *)
Lemma wp_pushNew n name ns attributes A p next sc (Q : unit → HTMLConstructionSite → Prop) s :
  siteOk s → doc s !! n = None → place s p next → ordinary (newItem n name ns attributes) = true →
  (siteOk (opened n name ns attributes A (mkTask Insert p next n sc) s) → Q tt (opened n name ns attributes A (mkTask Insert p next n sc) s)) →
  wp (onStack (push (newItem n name ns attributes))) Q (queued (mkTask Insert p next n sc) (set_attributesOf A (withNode n ELEMENT_NODE (Some (mkName name ns)) s))).
Proof.
  intros Hok Hn Hp Ho HQ. pose proof (ok_shape _ Hok) as Hs. apply wp_onStack, wp_push; [apply (ok_stack _ Hs)|apply bool_decide_eq_true, (ok_top _ Hs)|done|].
  apply HQ. destruct (proj1 (ordinary_split _) Ho) as (_ & Hhtml & Hh & Hb). apply siteOk_opened; [done..|congruence|congruence].
Qed.

Lemma wp_insertHTMLElement token (Q : unit → HTMLConstructionSite → Prop) s :
  let name := mkName (tag_name token) xhtmlNamespaceURI in
  siteOk s → creatable (tag_name token) = true → plain (tag_name token) = true → allowed (Some name) = true →
  (∀ n A task, let s' := opened n (tag_name token) xhtmlNamespaceURI (allowedAttributes name (tag_attributes token)) A task s in doc s !! n = None → siteOk s' → Q tt s') →
  wp (insertHTMLElement token) Q s.
Proof.
  cbn zeta. intros Hok Hc Hp Ha HQ. unfold insertHTMLElement. apply wp_bind, wp_createHTMLElement; [done|]. intros n A Hn. apply wp_assoc, wp_bind, wp_attachHere; [apply Hok|done..|]. intros p next sc Hpl.
  apply wp_pushNew; [done..|apply newItem_ordinary; by left|]. by apply HQ.
Qed.

(** An element that is not opened, and a comment. *)
Lemma insertSelfClosing_ok token s :
  siteOk s → creatable (tag_name token) = true → allowed (Some (mkName (tag_name token) xhtmlNamespaceURI)) = true → wp (insertSelfClosingHTMLElement token) (λ _ s', siteOk s' ∧ records s' = records s) s.
Proof.
  intros Hok Hc Ha. unfold insertSelfClosingHTMLElement. apply wp_bind, wp_createHTMLElement; [done|]. intros n A Hn. apply wp_attachHere; [apply Hok|done..|]. intros p next sc Hpl. split; [|done].
  apply siteOk_leaf; [done..| |done]. by apply (bool_decide_eq_true_1 _).
Qed.

Lemma commentAt_ok comment parent s : siteOk s → is_Some (doc s !! parent) → wp (n ← createComment comment; attachLater parent n false) (λ _ s', siteOk s' ∧ records s' = records s) s.
Proof.
  intros Hok Hr. unfold createComment, createNode. apply wp_bind, wp_bind, wp_onTree. unfold allocate. apply wp_bind, wp_gets.
  apply wp_bind, wp_modify. apply wp_ret, wp_bind, wp_modify. apply wp_ret. pose proof (fresh_none (doc s)) as Hn. set (n := base.fresh (dom (doc s))) in *. set (s0 := set_dataOf (<[n := comment]> (dataOf s)) s).
  assert (Hok0 : siteOk s0) by (by apply (siteOk_ext s)). apply (wp_attachLater s0 n COMMENT_NODE None _ false (attributesOf s)); [apply Hok0|done|done|unfold allowed; by destruct (scriptingContentIsAllowed _), (pluginContentIsAllowed _)|].
  intros p next sc Hp Hnext. split; [|done]. apply siteOk_leaf; [done..| |done]. by apply (bool_decide_eq_true_1 _).
Qed.

Lemma insertComment_ok comment s : siteOk s → wp (insertComment comment) (λ _ s', siteOk s') s.
Proof. intros Hok. apply wp_bind, wp_currentNode; [apply Hok|]. intros r l E Hr. eapply wp_mono; [by apply commentAt_ok|]. by intros [] s' [? _]. Qed.

(** ** Entries *)

(** A list with entries of open elements in it. *)
Lemma siteOk_entries l s :
  siteOk s → HTMLFormattingElementList.wf l →
  (∀ item, Some item ∈ l → Some item ∈ entries s ∨ formatting item = true ∧ attributesDistinct item ∧ ∃ r, r ∈ records s ∧ m_item r = item) →
  siteOk (set_activeFormattingElements l s).
Proof.
  intros [[H1 H2 H3 H4 H5 H6 H7 H7' H8 H9 H10] Hp] Hl Hi. split; [|done]. constructor; try done; cbn [set_activeFormattingElements m_activeFormattingElements m_openElements tree].
  - intros item Hin. destruct (Hi item Hin) as [?|(? & _ & r & Hr & <-)]; [auto|]. split; [done|by apply H6].
  - intros item Hin. destruct (Hi item Hin) as [?|(_ & ? & _)]; auto.
  - intros r item Hr Hin E. destruct (Hi item Hin) as [?|(_ & _ & r' & Hr' & <-)]; [auto|]. f_equal. by apply (NoDup_fmap_inj_in stackNode (records s)); [apply (HTMLElementStack.wf_nodes _ H1)|..].
Qed.

Lemma appendEntry_ok r l s :
  siteOk s → records s = r :: l → formatting (m_item r) = true → attributesDistinct (m_item r) → stackNode r ∉ nodes (entries s) → wp (onList (append (m_item r))) (λ _ s', siteOk s') s.
Proof.
  intros Hok E Hf Hd Hn. pose proof (ok_shape _ Hok) as Hs. destruct (marker_split (entries s)) as (pre & items & El & Hm). assert (Hr : r ∈ records s) by (rewrite E; apply list_elem_of_here).
  destruct (append_run (m_item r) pre items) as (Hrun & Hwf & _); rewrite <-?El; [apply Hs|done|by apply (ok_document _ Hs)|done| |].
  { apply Forall_cons. split; [done|]. apply Forall_forall. intros item Hi. apply (ok_distinct _ Hs). rewrite El. apply elem_of_app. right. by apply list_elem_of_fmap_2. }
  rewrite <-El in Hrun. apply wp_onList. unfold wp. rewrite Hrun. apply siteOk_entries; [done..|]. intros item [Hin|Hin]%elem_of_app; [left; rewrite El; set_solver|].
  apply list_elem_of_fmap in Hin as (i & [= ->] & [Hin| ->%list_elem_of_singleton]%elem_of_app); [|right; eauto].
  left. rewrite El. apply elem_of_app. right. apply list_elem_of_fmap_2. eapply sublist_subseteq; [apply keepLatest_sublist|done].
Qed.

Lemma insertFormattingElement_ok token s :
  siteOk s → isFormattingTag (tag_name token) = true → creatable (tag_name token) = true → allowed (Some (mkName (tag_name token) xhtmlNamespaceURI)) = true →
  NoDup (attributeName <$> tag_attributes token) → wp (insertFormattingElement token) (λ _ s', siteOk s') s.
Proof.
  intros Hok Hf Hc Ha Hd. unfold insertFormattingElement. apply wp_bind, wp_ASSERT; [done|]. apply wp_bind, wp_insertHTMLElement; [done..|by apply formatting_plain|done|].
  intros n A task s' Hn Hok'. eapply wp_bind, wp_currentStackItem; [done|]. eapply (appendEntry_ok (mkRecord _ _)); [done|done| | |by apply (fresh_nodes s); [apply Hok|]].
  - unfold formatting. cbn. by rewrite Hf.
  - eapply distinct_sub; [apply allowedAttributes_sub|done].
Qed.

(** Putting a new item for an entry. *)
Lemma replaceEntry_run a item b new :
  HTMLFormattingElementList.wf (a ++ Some item :: b) → isElementItem new = true → node_id (m_node new) ∉ nodes (a ++ Some item :: b) →
  HTMLFormattingElementList.replaceElement (length a) new (a ++ Some item :: b) = Some (tt, a ++ Some new :: b) ∧ HTMLFormattingElementList.wf (a ++ Some new :: b).
Proof.
  intros Hwf He Hn. pose proof (wf_split a item b Hwf) as (_ & _ & _ & Hwf'). split.
  - unfold HTMLFormattingElementList.replaceElement, mbind, M_bind, modify. rewrite at_mid, insert_app_r_alt, Nat.sub_diag by done. done.
  - apply wf_put; [done..|]. intros Hin. apply Hn. rewrite !nodes_app in Hin |- *. cbn. rewrite elem_of_app in Hin. rewrite elem_of_app, elem_of_cons. tauto.
Qed.

(** ** Elements from saved tokens *)

Definition savedName (item : HTMLStackItem) : list Z := default [] (m_localName item).
(** The item of an element made again. *)
Definition again (n : positive) (item : HTMLStackItem) : HTMLStackItem :=
  newItem n (savedName item) xhtmlNamespaceURI (allowedAttributes (mkName (savedName item) xhtmlNamespaceURI) (m_attributes item)).

Lemma saved_tag item : formatting item = true → isFormattingTag (savedName item) = true.
Proof. unfold formatting, savedName. destruct (m_localName item); [|done]. by intros [? _]%andb_true_iff. Qed.

Lemma again_formatting n item : formatting item = true → formatting (again n item) = true.
Proof. intros Hf. unfold formatting. cbn. by rewrite (saved_tag _ Hf). Qed.
Lemma again_ordinary n item : formatting item = true → ordinary (again n item) = true.
Proof. intros Hf. apply newItem_ordinary. left. by apply formatting_plain, saved_tag. Qed.
Lemma again_distinct n item : attributesDistinct item → attributesDistinct (again n item).
Proof. apply distinct_sub, allowedAttributes_sub. Qed.

Lemma formatting_name name tag :
  isFormattingTag name = true → isFormattingTag (localName tag) = false → bool_decide (Some (mkName name xhtmlNamespaceURI) = Some tag) = false.
Proof. intros H1 H2. apply bool_decide_eq_false. intros [= <-]. cbn in H2. congruence. Qed.

Lemma formatting_allowed name : isFormattingTag name = true → allowed (Some (mkName name xhtmlNamespaceURI)) = true.
Proof. intros Hf. unfold allowed, isScriptElement, isPluginElement. rewrite !formatting_name by done. by rewrite !orb_true_r. Qed.

(** The element factory knows the formatting elements. *)
Context (Hcreate : ∀ name, isFormattingTag name = true → creatable name = true).

Lemma wp_createElementFromSavedToken item (Q : HTMLStackItem → HTMLConstructionSite → Prop) s :
  formatting item = true →
  (∀ n A, doc s !! n = None → Q (again n item) (set_attributesOf A (withNode n ELEMENT_NODE (Some (mkName (savedName item) xhtmlNamespaceURI)) s))) →
  wp (createElementFromSavedToken item) Q s.
Proof.
  intros Hf HQ. pose proof (saved_tag _ Hf) as Hsf. unfold formatting, again, savedName, createElementFromSavedToken in *. destruct (m_localName item) as [name|]; [|done]. cbn [default] in *.
  apply andb_true_iff in Hf as [_ Hns]. apply wp_bind, wp_ASSERT; [done|]. apply wp_bind, wp_ASSERT; [done|]. apply bool_decide_eq_true in Hns. apply wp_bind, wp_createHTMLElement; [by apply Hcreate|].
  intros n A Hn. cbn. rewrite Hns. by apply wp_ret, HQ.
Qed.

(** ** Reconstruction of the formatting elements *)

(** Entries that are elements, from an index on. *)
Definition elementsFrom (l : list Entry) (i : nat) : Prop := ∀ j, (i ≤ j < length l)%nat → ∃ item, l !! j = Some (Some item).

Lemma wp_at i e (Q : Entry → HTMLConstructionSite → Prop) s : entries s !! i = Some e → Q e s → wp (onList (at_ i)) Q s.
Proof. intros E HQ. eapply (wp_askList _ e); [|done]. unfold at_. by rewrite E. Qed.

Lemma unopenLoop_ok index s :
  shape s → (index ≤ length (entries s))%nat → entries s ≠ [] → elementsFrom (entries s) index →
  wp (unopenLoop index) (λ first s', s' = s ∧ ∀ i, first = Some i → (i < length (entries s))%nat ∧ elementsFrom (entries s) i) s.
Proof.
  intros Hs. induction index as [|index IH]; intros Hi Hne Hfrom; cbn [unopenLoop].
  - apply wp_ret. split; [done|]. intros i [= <-]. split; [|done]. destruct (entries s); [done|cbn; lia].
  - destruct (lookup_lt_is_Some_2 (entries s) index) as [e He]; [lia|]. eapply wp_bind, wp_at; [done|].
    assert (Hstop : wp (size ← gets (length ∘ m_activeFormattingElements); mret (if (index + 1 <? size)%nat then Some (index + 1)%nat else None))
      (λ first s', s' = s ∧ ∀ i, first = Some i → (i < length (entries s))%nat ∧ elementsFrom (entries s) i) s).
    { apply wp_bind, wp_gets, wp_ret. split; [done|]. cbn [compose]. intros i. destruct (Nat.ltb_spec (index + 1) (length (entries s))); [|done]. intros [= <-]. rewrite Nat.add_1_r in *. done. }
    apply wp_bind. destruct e as [item|]; [|by apply wp_ret].
    assert (Hin : Some item ∈ entries s) by (apply list_elem_of_lookup; by eexists). destruct (ok_entries _ Hs item Hin) as [Hf Hso]. apply wp_bind, wp_downcastItem; [by eapply formatting_element|].
    unfold HTMLElementStack.contains, HTMLElementStack.find. eapply wp_askStack; [done|]. destruct (bool_decide _); [done|]. apply IH; [lia|done|]. intros j Hj.
    destruct (decide (j = index)) as [-> |]; [by exists item|]. apply Hfrom. lia.
Qed.

(** A formatting element that is made again comes on top, and in the place of its entry. *)
Lemma reconstructOne_ok (K : CM unit) a item b (Q : unit → HTMLConstructionSite → Prop) s :
  siteOk s → entries s = a ++ Some item :: b → (∀ s' new, siteOk s' → entries s' = a ++ Some new :: b → wp K Q s') →
  wp (reconstructed ← createElementFromSavedToken item; parent ← currentNode; attachLater parent (node_id (m_node reconstructed)) false;; onStack (push reconstructed);;
      onList (HTMLFormattingElementList.replaceElement (length a) reconstructed);; K) Q s.
Proof.
  intros Hok E HQ. pose proof (ok_shape _ Hok) as Hs. assert (Hin : Some item ∈ entries s) by (rewrite E; set_solver). destruct (ok_entries _ Hs item Hin) as [Hf Hso].
  apply wp_bind, wp_createElementFromSavedToken; [done|]. intros n A Hn. apply wp_assoc, wp_bind, wp_attachHere; [done..|by apply formatting_allowed, saved_tag|]. intros p next sc Hpl.
  apply wp_bind, wp_pushNew; [done..|by apply again_ordinary|]. intros Hok'. pose proof (fresh_nodes s n Hs Hn) as Hfresh.
  destruct (replaceEntry_run a item b (again n item)) as [Hrun Hwf]; [rewrite <-E; apply Hs|done|by rewrite <-E|]. rewrite <-E in Hrun. apply wp_bind, wp_onList. unfold wp at 1.
  change (entries (opened _ _ _ _ _ _ s)) with (entries s). rewrite Hrun. apply (HQ _ (again n item)); [|done]. apply siteOk_entries; [done..|]. intros i Hi.
  change (entries (opened _ _ _ _ _ _ s)) with (entries s). assert (Hcase : Some i ∈ entries s ∨ i = again n item) by (rewrite E; set_solver). destruct Hcase as [?| ->]; [by left|]. right.
  split_and!; [by apply again_formatting|by apply again_distinct, (ok_distinct _ Hs)|]. eexists (mkRecord _ (again n item)). split; [apply list_elem_of_here|done].
Qed.

Lemma elementsFrom_split l i : (i < length l)%nat → elementsFrom l i → ∃ a item b, l = a ++ Some item :: b ∧ length a = i.
Proof.
  intros Hi Hf. destruct (Hf i) as [item He]; [lia|]. exists (take i l), item, (drop (S i) l). split; [by rewrite take_drop_middle|]. rewrite length_take. lia.
Qed.

Lemma reconstructLoop_ok count index s :
  siteOk s → (index + count = length (entries s))%nat → elementsFrom (entries s) index → wp (reconstructLoop count index) (λ _ s', siteOk s') s.
Proof.
  revert index s. induction count as [|count IH]; intros index s Hok Hlen Hfrom; cbn [reconstructLoop]; [by apply wp_ret|].
  destruct (elementsFrom_split (entries s) index) as (a & item & b & E & <-); [lia|done|]. eapply wp_bind, wp_at; [rewrite E; by apply list_lookup_middle|].
  eapply reconstructOne_ok; [done..|]. intros s' new Hok' E'. assert (Hl : length (entries s') = length (entries s)) by (by rewrite E, E', !length_app). apply IH; [done|lia|]. intros j Hj.
  destruct (Hfrom j) as [i Hi]; [lia|]. exists i. rewrite E'. rewrite E in Hi. rewrite lookup_app_r in Hi |- * by lia. by replace (j - length a)%nat with (S (j - S (length a))) in * by lia.
Qed.

Lemma reconstruct_ok s : siteOk s → wp reconstructTheActiveFormattingElements (λ _ s', siteOk s') s.
Proof.
  intros Hok. unfold reconstructTheActiveFormattingElements, indexOfFirstUnopenFormattingElement. apply wp_bind, wp_bind, wp_gets. cbn [compose].
  destruct (Nat.eqb_spec (length (entries s)) 0) as [|Hl]; [by apply wp_ret, wp_ret|]. eapply wp_mono; [apply unopenLoop_ok; [apply Hok|done|by intros E; rewrite E in Hl|intros j; lia]|].
  intros [first|] s' [-> Hfirst]; [|by apply wp_ret]. destruct (Hfirst first eq_refl) as [Hi Hf]. apply wp_bind, wp_gets, wp_bind, wp_ASSERT; [by apply Nat.ltb_lt|]. cbn [compose].
  apply reconstructLoop_ok; [done|lia|done].
Qed.

(** ** Closing elements *)

Lemma anchors_sublist l l' : l' `sublist_of` l → anchors l' ⊆ anchors l.
Proof. intros Hs x (r & -> & [Ht Hr]%list_elem_of_filter)%list_elem_of_fmap. apply in_anchors; [|done]. by eapply sublist_subseteq. Qed.

(** Fewer open elements. *)
Lemma siteOk_fewer k s : siteOk s → HTMLElementStack.wf k → m_top k ≠ [] → m_top k `sublist_of` records s → low (m_top k) → siteOk (set_openElements k s).
Proof.
  intros [[H1 H2 H3 H4 H5 H6 H7 H7' H8 H9 H10] Hp] Hwf Hne Hsub Hlow. pose proof (sublist_subseteq _ _ Hsub) as Hin. split.
  - constructor; try done; cbn [set_openElements m_openElements]; intros r Hr; auto.
  - intros more Hmore. eapply wp_mono; [by apply Hp|]. intros [] T Hout. eapply outcome_sub; [done|by apply fmap_sublist|by apply anchors_sublist].
Qed.

Lemma low_off a r b : low (a ++ r :: b) → b ≠ [] → low (a ++ b).
Proof.
  intros Hl Hb a' r' b' E Ht. apply app_eq_app in E as (x & [[-> E]|[-> ->]]).
  - destruct x as [|y x]; cbn in E.
    + subst b. apply (Hl (a' ++ [] ++ [r]) r' b'); [by rewrite <-!app_assoc|done].
    + injection E as -> ->. assert (Hlen : length (x ++ r :: b) = 1%nat) by (apply (Hl a' y); [by rewrite <-app_assoc|done]). rewrite length_app in Hlen. destruct b; [done|cbn in Hlen; lia].
  - apply (Hl (a ++ r :: x) r' b'); [by rewrite <-app_assoc|done].
Qed.

Lemma siteOk_takenOff a r b s : siteOk s → records s = a ++ r :: b → b ≠ [] → siteOk (set_openElements (takenOff r (a ++ b) (m_openElements s)) s).
Proof.
  intros Hok E Hb. pose proof (ok_shape _ Hok) as Hs. apply siteOk_fewer; cbn [takenOff m_top]; [done|apply takenOff_wf; [apply Hs|done..]|by destruct a, b| |].
  - rewrite E. apply sublist_app; [done|]. by apply sublist_cons.
  - apply (low_off a r b); [|done]. rewrite <-E. apply Hs.
Qed.

Lemma siteOk_popped a k s : siteOk s → records s = a ++ m_top k → popped a (m_openElements s) k → m_top k ≠ [] → siteOk (set_openElements k s).
Proof.
  intros Hok E (Hwf & _) Hne. apply siteOk_fewer; [done..| |]; [rewrite E; by apply sublist_inserts_l|]. eapply low_app. rewrite <-E. apply Hok.
Qed.

Lemma tag_ordinary name item : isElementItem item = true → hasTagName name item = true → name ∉ htmlName <$> ["html"; "head"; "body"] → ordinary item = true ∧ isRootItem item = false.
Proof.
  intros He Ht Hn. cbn [fmap list_fmap] in Hn. rewrite !not_elem_of_cons in Hn. destruct Hn as (? & ? & ? & _). split; [|by eapply tag_not_root]. apply ordinary_split.
  split_and!; [done|..]; apply not_true_iff_false; intros Ht'; by pose proof (hasTagName_inj _ _ _ Ht Ht').
Qed.

Lemma implied_ordinary h item : isElementItem item = true → sound h item → hasImpliedEndTag item = true → ordinary item = true ∧ isRootItem item = false.
Proof.
  intros He Hs Hi. unfold hasImpliedEndTag in Hi. rewrite !(sound_node h), !orb_true_iff in Hi by done. 
  repeat destruct Hi as [Hi|Hi]; (eapply tag_ordinary; [done..|]; by apply (bool_decide_eq_true_1 _)).
Qed.

Lemma impliedLoop_ok fuel excluded s :
  siteOk s → (length (records s) ≤ fuel)%nat →
  wp (impliedLoop fuel excluded) (λ _ s', siteOk s' ∧ ∃ k a, s' = set_openElements k s ∧ records s = a ++ m_top k ∧ Forall (λ r, hasImpliedEndTag (m_item r) = true ∧ excluded (m_item r) = false) a) s.
Proof.
  revert s. induction fuel as [|fuel IH]; intros s Hok Hf; pose proof (ok_shape _ Hok) as Hs; (destruct (records s) as [|r l] eqn:E; [by destruct (ok_top _ Hs)|]); cbn in Hf; [lia|]. cbn [impliedLoop].
  eapply wp_bind, wp_currentStackItem; [done|]. destruct (hasImpliedEndTag (m_item r) && negb (excluded (m_item r))) eqn:Et.
  - apply andb_true_iff in Et as [Hi He%negb_true_iff]. assert (Hr : r ∈ records s) by (rewrite E; apply list_elem_of_here).
    destruct (implied_ordinary (doc s) (m_item r)) as [Ho Hroot]; [by apply (ok_document _ Hs)|by apply (ok_sound _ Hs)|done|].
    assert (Hl : l ≠ []) by (by eapply (not_last s [] r l (ok_stack _ Hs))). eapply wp_bind, wp_onStack, wp_pop; [done..|].
    eapply wp_mono; [apply IH; [by apply (siteOk_takenOff [] r l)|cbn; lia]|]. intros [] s' (Hok' & k & a & -> & Ea & Ha). split; [done|]. exists k, (r :: a). split; [done|]. cbn in Ea. rewrite Ea. split; [done|by constructor].
  - apply wp_ret. split; [done|]. exists (m_openElements s), []. split; [by destruct s|]. split; [by rewrite E|done].
Qed.

Lemma generateImpliedEndTags_ok s : siteOk s → wp generateImpliedEndTags (λ _ s', siteOk s') s.
Proof. intros Hok. unfold generateImpliedEndTags. apply wp_bind, wp_gets. eapply wp_mono; [apply impliedLoop_ok; [done|cbn; lia]|]. by intros [] s' [? _]. Qed.

End Quiet.
