(* ===== verification/AdoptionCorrect.v ===== *)
(** * The adoption agency algorithm keeps the invariant of the site *)

From Stdlib Require Import String.
From S2P Require Import Prelude HTMLStackItem HTMLElementStack HTMLFormattingElementList ContainerNode ContainerNodeLists ContainerNodeCorrect ContainerNodeScripts ContainerNodeTheorems.
From S2P Require Import TreeOrder HTMLConstructionSite AdoptionAgency TreeTasks SiteInvariant SiteOperations.

#[local] Open Scope string_scope.
#[local] Open Scope list_scope.

(** Elements that are not special are ordinary. *)
Lemma special_tag name item : hasTagName (htmlName name) item = true → isSpecialNode (mkItem (mkNode 1 None) xhtmlNamespaceURI (Some (text name)) []) = true → isSpecialNode item = true.
Proof.
  unfold hasTagName. intros [Hl Hns]%andb_true_iff. apply bool_decide_eq_true in Hl, Hns. unfold isSpecialNode, isDocumentFragment, localNameIn. cbn [m_localName m_namespaceURI]. by rewrite Hl, Hns.
Qed.

Lemma not_special_ordinary item : isElementItem item = true → isSpecialNode item = false → ordinary item = true ∧ isHTML item = false.
Proof.
  intros He Hs. assert (Hn : ∀ name, isSpecialNode (mkItem (mkNode 1 None) xhtmlNamespaceURI (Some (text name)) []) = true → hasTagName (htmlName name) item = false).
  { intros name Hsp. apply not_true_iff_false. intros Ht. by rewrite (special_tag name item) in Hs. }
  split; [apply ordinary_split; split_and!; [done|..]|]; by apply Hn.
Qed.

Section Quiet.
Context `{Build} `{Parser}.
#[local] Existing Instance quiet.

(** ** Closing an element and what is above it *)

Lemma popUntilElementPopped_ok a r b s :
  siteOk s → records s = a ++ r :: b → Forall (λ x, ordinary (m_item x) = true) a → ordinary (m_item r) = true → b ≠ [] →
  wp (onStack (popUntilElementPopped (stackNode r))) (λ _ s', siteOk s' ∧ ∃ k, s' = set_openElements k s ∧ m_top k = b) s.
Proof.
  intros Hok E Ha Hr Hb. pose proof (ok_shape _ Hok) as Hs. pose proof (HTMLElementStack.wf_nodes _ (ok_stack _ Hs)) as Hnd. rewrite E in Hnd. pose proof (nodes_distinct _ _ _ Hnd) as Hne.
  unfold popUntilElementPopped, popUntilElement. apply wp_onStack, wp_bind, wp_bind, wp_gets. eapply wp_mono.
  - eapply (popWhileNot_ok (stackNode r) _ a r b); [apply (ok_stack _ Hs)|done| |by apply ordinary_split in Hr as (? & _)|done|cbn [compose]; rewrite E, length_app; cbn; lia].
    apply Forall_forall. intros x Hx. split; [by apply (proj1 (Forall_forall _ _) Ha)|]. apply Hne. set_solver.
  - intros [] k [Hp Ek]. eapply wp_pop; [done..|]. split; [|eexists; split; [done|reflexivity]].
    assert (Hk : siteOk (set_openElements k s)) by (apply (siteOk_popped a); [done|by rewrite Ek|done|by rewrite Ek]).
    apply (siteOk_takenOff [] r b) in Hk; done.
Qed.

(** ** Any other end tag *)

Lemma split_here {A} (a b c d : list A) x : a ++ x :: b = c ++ d → x ∉ c → ∃ e, d = e ++ x :: b ∧ a = c ++ e.
Proof.
  intros E Hx. apply app_eq_app in E as (e & [[-> E]|[-> E]]); [by exists e|]. destruct e as [|y e]; cbn in E; [exists []; by rewrite !app_nil_r|].
  injection E as <- _. destruct Hx. set_solver.
Qed.

Lemma plain_ordinary name item : isElementItem item = true → matchesHTMLTag name item = true → plain name = true → ordinary item = true ∧ isRootItem item = false.
Proof.
  intros He Ht Hp. apply (tag_ordinary (mkName name xhtmlNamespaceURI)); [done..|]. unfold plain in Hp. apply bool_decide_eq_true in Hp. intros Hin. apply Hp. apply list_elem_of_fmap in Hin as (t & [= ->] & Ht'). by apply list_elem_of_fmap_2.
Qed.

Lemma root_special s a r : shape s → records s = a ++ [r] → isSpecialNode (m_item r) = true.
Proof.
  intros Hs E. pose proof (wf_rooted _ (ok_stack _ Hs)) as Hro. unfold rooted in Hro. rewrite E, last_snoc in Hro. destruct Hro as (_ & Hroot & _).
  apply andb_true_iff in Hroot as [Hroot _]. unfold isRootNode in Hroot. apply orb_true_iff in Hroot as [Hf|Hh]; [|by eapply special_tag]. unfold isSpecialNode. by rewrite Hf.
Qed.

Lemma anyOtherLoop_ok tagName a rest s :
  siteOk s → (∀ r, r ∈ records s → matchesHTMLTag tagName (m_item r) = true → ordinary (m_item r) = true ∧ isRootItem (m_item r) = false) → records s = a ++ rest → rest ≠ [] → Forall (λ x, ordinary (m_item x) = true) a → wp (anyOtherLoop tagName rest) (λ _ s', siteOk s') s.
Proof.
  intros Hok Hp. pose proof (ok_shape _ Hok) as Hs. revert a. induction rest as [|r rest IH]; intros a E Hne Ha; [done|]. cbn [anyOtherLoop].
  assert (Hr : r ∈ records s) by (rewrite E; set_solver). pose proof (ok_document _ Hs r Hr) as He. destruct (matchesHTMLTag tagName (m_item r)) eqn:Et.
  - destruct (Hp r Hr Et) as [Ho Hroot]. assert (Hb : rest ≠ []) by (by eapply (not_last s a r rest (ok_stack _ Hs))).
    unfold generateImpliedEndTagsWithExclusion. apply wp_bind, wp_bind, wp_gets. eapply wp_mono; [apply impliedLoop_ok; [done|cbn; lia]|]. intros [] s' (Hok' & k & a' & -> & Ek & Ha').
    rewrite E in Ek. destruct (split_here a rest a' (m_top k) r Ek) as (e & Ee & ->); [intros Hin; destruct (proj1 (Forall_forall _ _) Ha' r Hin); cbn in *; congruence|].
    destruct (records (set_openElements k s)) as [|t l] eqn:Et'; [by destruct (ok_top _ (ok_shape _ Hok'))|]. eapply wp_bind, wp_currentStackItem; [done|]. apply wp_bind, wp_downcastItem; [done|].
    eapply wp_mono; [apply (popUntilElementPopped_ok e r rest); [done|done| |done..]|by intros [] s' [? _]]. by apply Forall_app in Ha as [_ ?].
  - destruct (isSpecialNode (m_item r)) eqn:Esp; [by apply wp_ret|]. apply (IH (a ++ [r])); [by rewrite E, <-app_assoc| |].
    + intros ->. rewrite (root_special s a r Hs E) in Esp. done.
    + apply Forall_app. split; [done|]. apply Forall_singleton. by apply not_special_ordinary.
Qed.

Lemma anyOther_tag tagName s :
  siteOk s → (∀ r, r ∈ records s → matchesHTMLTag tagName (m_item r) = true → ordinary (m_item r) = true ∧ isRootItem (m_item r) = false) →
  wp (processAnyOtherEndTagForInBody tagName) (λ _ s', siteOk s') s.
Proof.
  intros Hok Hp. unfold processAnyOtherEndTagForInBody. pose proof (ok_shape _ Hok) as Hs. destruct (records s) as [|r l] eqn:E; [by destruct (ok_top _ Hs)|].
  apply wp_bind. eapply (wp_askStack _ r); [unfold topRecord; by rewrite E|]. apply wp_bind, wp_gets. cbn [compose]. rewrite <-E in Hp. apply (anyOtherLoop_ok tagName []); [done..|apply (ok_top _ Hs)|done].
Qed.

Lemma anyOther_ok tagName s : siteOk s → plain tagName = true → wp (processAnyOtherEndTagForInBody tagName) (λ _ s', siteOk s') s.
Proof. intros Hok Hp. apply anyOther_tag; [done|]. intros r Hr Ht. by apply (plain_ordinary tagName); [apply (ok_document _ (ok_shape _ Hok))|..]. Qed.

(** ** An element that is made again *)

(** The site with the element [n], made again from the item [old], on the stack [k], in the list [l] or in the queue [q]. *)
Definition renewed (n : positive) (old : HTMLStackItem) A (k : HTMLElementStack) (l : list Entry) (q : list HTMLConstructionSiteTask) (s : HTMLConstructionSite) : HTMLConstructionSite :=
  set_taskQueue q (set_activeFormattingElements l (set_openElements k (set_attributesOf A (withNode n ELEMENT_NODE (Some (mkName (savedName old) xhtmlNamespaceURI)) s)))).

Lemma shape_renewed n old A k l q s :
  shape s → doc s !! n = None → formatting old = true → attributesDistinct old → HTMLElementStack.wf k → m_top k ≠ [] → low (m_top k) →
  (∀ r, r ∈ m_top k → r ∈ records s ∨ m_item r = again n old) → HTMLFormattingElementList.wf l → (∀ i, Some i ∈ l → Some i ∈ entries s ∨ i = again n old) →
  shape (renewed n old A k l q s).
Proof.
  intros Hs Hn Hf Hd Hwf Hne Hlow Hk Hwl Hl. pose proof (shape_withNode n ELEMENT_NODE (Some (mkName (savedName old) xhtmlNamespaceURI)) s Hs Hn) as [H1 H2 H3 H4 H5 H6 H7 H7' H8 H9 H10].
  pose proof (newItem_sound (doc s) n (savedName old) xhtmlNamespaceURI (m_attributes (again n old))) as Hnew.
  constructor; try done; cbn [renewed set_taskQueue set_activeFormattingElements set_openElements m_openElements m_activeFormattingElements tree].
  - intros r Hr. destruct (Hk r Hr) as [?| ->]; [by apply H3|done].
  - intros r Hr. destruct (Hk r Hr) as [?| ->]; [by apply H6|done].
  - intros i Hi. destruct (Hl i Hi) as [?| ->]; [by apply H7|]. split; [by apply again_formatting|done].
  - intros i Hi. destruct (Hl i Hi) as [?| ->]; [by apply H7'|]. by apply again_distinct.
  - intros r i Hr Hi E. destruct (Hk r Hr) as [Hr'|Er], (Hl i Hi) as [Hi'| ->]; [by apply H8|by destruct (fresh_record s n r)| |done].
    unfold stackNode in E. rewrite Er in E. by destruct (fresh_entry s n i).
Qed.

(** Open elements that are not tables. *)
Lemma anchors_app a b : anchors (a ++ b) = anchors a ++ anchors b.
Proof. unfold anchors. by rewrite filter_app, fmap_app. Qed.
Lemma anchors_none a : Forall (λ r, isAnchor r = false) a → anchors a = [].
Proof. intros Ha. unfold anchors. rewrite list_filter_none; [done|]. intros x Hx. pose proof (proj1 (Forall_forall _ _) Ha x Hx). cbn in *. congruence. Qed.
Lemma formatting_not_table h item : formatting item = true → sound h item → isNodeOf (htmlName "table") item = false.
Proof. intros Hf Hs. rewrite (sound_node h) by done. by apply not_formatting. Qed.
Lemma formatting_not_anchor h r : formatting (m_item r) = true → sound h (m_item r) → isAnchor r = false.
Proof. intros Hf Hs. unfold isAnchor, isTable, isHTML. rewrite (formatting_not_table h) by done. by apply not_formatting. Qed.
Lemma again_not_anchor q n item : formatting item = true → isAnchor (mkRecord q (again n item)) = false.
Proof. intros Hf. eapply formatting_not_anchor; [by apply again_formatting|]. apply (newItem_sound ∅). Qed.

Lemma again_not_template item : formatting item = true → Some (mkName (savedName item) xhtmlNamespaceURI) ≠ Some (htmlName "template").
Proof. intros Hf. pose proof (formatting_name (savedName item) (htmlName "template") (saved_tag _ Hf) eq_refl) as Hb. by apply bool_decide_eq_false in Hb. Qed.

Lemma wf_stackNodes s a r b : shape s → records s = a ++ r :: b → NoDup (stackNode <$> a ++ r :: b).
Proof. intros Hs <-. apply (HTMLElementStack.wf_nodes _ (ok_stack _ Hs)). Qed.

Lemma not_in_anchors a r b l : NoDup (stackNode <$> a ++ r :: b) → isAnchor r = false → (∀ x, x ∈ anchors l → x ∈ anchors (a ++ r :: b)) → stackNode r ∉ anchors l.
Proof.
  intros Hnd Hr Hl Hin. apply Hl in Hin. unfold anchors in Hin. apply list_elem_of_fmap in Hin as (x & Ex & [Hx Hin]%list_elem_of_filter).
  assert (r = x) as ->; [|congruence]. by apply (NoDup_fmap_inj_in stackNode (a ++ r :: b)); [|set_solver|..].
Qed.

(** ** The steps on the tree *)

(** Head and body are not above two elements. *)
Lemma low_change a b b' : low (a ++ b) → (2 ≤ length b)%nat → low b' → low (a ++ b').
Proof.
  intros Hl Hb Hl' a1 r b1 E Ht. apply app_eq_app in E as (x & [[-> E]|[-> ->]]); [|by apply (Hl' x r)].
  destruct x as [|y x]; cbn in E; [subst; by apply (Hl' [] r b1)|]. injection E as <- ->.
  assert (Hlen : length (x ++ b) = 1%nat) by (apply (Hl a1 r); [by rewrite <-app_assoc|done]). rewrite length_app in Hlen. lia.
Qed.

Lemma length_two {A} (x : A) b : b ≠ [] → (2 ≤ length (x :: b))%nat.
Proof. destruct b; [done|]. cbn. lia. Qed.

(** A node of the stack moves into an element that is made again for the node below it. *)
Lemma siteOk_reparent a c N b ea eb n A s :
  let k := set_top (a ++ c :: mkRecord (rec_id N) (again n (m_item N)) :: b) (m_openElements s) in
  siteOk s → doc s !! n = None → records s = a ++ c :: N :: b → b ≠ [] → entries s = ea ++ Some (m_item N) :: eb → isAnchor c = false →
  siteOk (renewed n (m_item N) A k (ea ++ Some (again n (m_item N)) :: eb) (m_taskQueue s ++ [mkTask Reparent n None (stackNode c) false]) s).
Proof.
  cbn zeta. intros Hok Hn E Hb Ee Hc. pose proof (ok_shape _ Hok) as Hs. assert (Hin : Some (m_item N) ∈ entries s) by (rewrite Ee; set_solver). destruct (ok_entries _ Hs _ Hin) as [Hf Hso].
  assert (E' : records s = (a ++ [c]) ++ N :: b) by (by rewrite E, <-app_assoc). assert (Hcin : c ∈ records s) by (rewrite E; set_solver). pose proof (ok_low _ Hs) as Hlow.
  destruct (replaceEntry_run ea (m_item N) eb (again n (m_item N))) as [_ Hwl]; [rewrite <-Ee; apply Hs|done|rewrite <-Ee; by apply fresh_nodes|].
  assert (Htables : ∀ x, x ∈ anchors (a ++ c :: mkRecord (rec_id N) (again n (m_item N)) :: b) → x ∈ anchors (records s)).
  { intros x. rewrite E. change (c :: ?r :: b) with ([c] ++ [r] ++ b). rewrite !anchors_app. rewrite (anchors_none [mkRecord _ _]) by (by repeat constructor; apply again_not_anchor). set_solver. }
  split.
  - apply shape_renewed; try done; [by apply (ok_distinct _ Hs)|..].
    + replace (a ++ c :: mkRecord (rec_id N) (again n (m_item N)) :: b) with ((a ++ [c]) ++ mkRecord (rec_id N) (again n (m_item N)) :: b) by (by rewrite <-app_assoc).
      apply replaced_wf; [apply Hs|done|done|by eapply formatting_ordinary|by apply again_ordinary|]. apply bool_decide_eq_true. intros (r & Er & Hr)%list_elem_of_fmap. by eapply fresh_record.
    + by destruct a.
    + rewrite E' in Hlow. replace (a ++ c :: mkRecord (rec_id N) (again n (m_item N)) :: b) with ((a ++ [c]) ++ mkRecord (rec_id N) (again n (m_item N)) :: b) by (by rewrite <-app_assoc).
      eapply low_change; [done|by apply length_two|]. apply low_cons; [by eapply (low_app ((a ++ [c]) ++ [N])); rewrite <-app_assoc|]. by apply ordinary_low, again_ordinary.
    + intros r. cbn [set_top m_top]. rewrite E. rewrite !elem_of_app, !elem_of_cons. intros [?|[-> |[-> |?]]]; auto.
    + intros i. rewrite Ee, !elem_of_app, !elem_of_cons. intros [?|[[= ->]|?]]; auto.
  - intros T0 Hmore. cbn [renewed set_taskQueue m_taskQueue]. pose proof (tree_inv _ (ok_tree _ Hs)) as Hi. apply pending_enqueue. eapply wp_mono; [apply (ok_pending _ Hok); by apply (ahead_insert (doc s) n ELEMENT_NODE (Some (mkName (savedName (m_item N)) xhtmlNamespaceURI)))|]. intros [] T Hout. cbn [treeTask operation].
    unfold renewed. cbn [set_taskQueue set_activeFormattingElements set_openElements m_openElements set_top m_top]. rewrite fmap_app, !fmap_cons.
    eapply (step_reparent (stackNode <$> records s) (anchors (records s)) (doc s) n ELEMENT_NODE (Some (mkName (savedName (m_item N)) xhtmlNamespaceURI)) T0 T); try done.
    + intros m Hm. by apply stackNodes_exist.
    + by rewrite E, fmap_app, !fmap_cons.
    + apply (HTMLElementStack.wf_nodes _ (ok_stack _ Hs)).
    + by apply again_not_template.
    + apply sound_element; [by apply (ok_sound _ Hs)|by apply (ok_document _ Hs)].
    + apply (not_in_anchors a c (N :: b)); [by apply (wf_stackNodes s)|done|by rewrite <-E].
Qed.

(** Not a table, not a template and not the document element. *)
Definition clear (r : ElementRecord) : Prop := isAnchor r = false ∧ hasTagName (htmlName "template") (m_item r) = false.

Lemma clear_tables l : Forall clear l → anchors l = [].
Proof. intros Hl. apply anchors_none. eapply Forall_impl; [done|]. by intros r [? _]. Qed.

(** The place of a node that is foster-parented when no table is open above a record. *)
Lemma fosters_below a b d : fosters (a ++ b) d → Forall clear a → b ≠ [] → d ∈ b.
Proof.
  intros [Hd Hcase] Ha Hb. assert (Hno : ∀ r, clear r → isTable r = true → False) by (intros r [Hr _] Ht; by rewrite table_anchor in Hr).
  assert (Hab : ∀ r, r ∈ a ++ b → isTable r = true ∨ hasTagName (htmlName "template") (m_item r) = true → r ∈ b).
  { intros r [Hr|Hr]%elem_of_app Ht; [|done]. pose proof (proj1 (Forall_forall _ _) Ha r Hr) as Hcl. destruct Ht; [by destruct (Hno r)|]. destruct Hcl. congruence. }
  destruct Hcase as [?|[?|[(a1 & t & b1 & E & Ht)|Hl]]]; [auto..| |].
  - assert (Htb : t ∉ a) by (intros Hta; exact (Hno t (proj1 (Forall_forall _ _) Ha t Hta) Ht)).
    apply app_eq_app in E as (x & [[-> E]|[-> ->]]); [|set_solver]. destruct x as [|y x]; cbn in E; [subst; set_solver|]. injection E as <- _. set_solver.
  - rewrite last_app in Hl. destruct (last b) as [r|] eqn:E; [|by apply last_None in E]. injection Hl as ->. by apply last_Some_elem_of in E.
Qed.

(** The node of a record moves to a place of a record below. *)
Lemma siteOk_insertAlready a c b d p next s :
  siteOk s → records s = a ++ c :: b → isAnchor c = false → d ∈ b →
  (p = stackNode d ∧ next = None ∨ isTable d = true ∧ parentOf (doc s) (stackNode d) = Some p ∧ next = Some (stackNode d)) →
  siteOk (queued (mkTask InsertAlreadyParsedChild p next (stackNode c) false) s).
Proof.
  intros Hok E Hc Hd Hplace. pose proof (ok_shape _ Hok) as Hs. assert (Hdin : d ∈ records s) by (rewrite E; set_solver).
  split; [destruct Hs; by constructor|]. intros T0 Hmore. apply pending_enqueue. eapply wp_mono; [by apply (ok_pending _ Hok)|]. intros [] T Hout. cbn [treeTask operation].
  eapply (step_insertAlready (stackNode <$> records s) (anchors (records s)) (anchors (records s)) (doc s) T0 T (stackNode <$> a) (stackNode <$> b) (stackNode c) p (stackNode d)); try done.
  - by rewrite E, fmap_app, fmap_cons.
  - apply (HTMLElementStack.wf_nodes _ (ok_stack _ Hs)).
  - intros m Hm. by apply stackNodes_exist.
  - intros x Hx. assert (Hx' : x ∈ stackNode <$> a ++ [c]) by (by rewrite fmap_app). apply list_elem_of_fmap in Hx' as (r & -> & Hr).
    assert (Hr' : r ∈ records s) by (rewrite E; set_solver). apply sound_element; [by apply (ok_sound _ Hs)|by apply (ok_document _ Hs)].
  - destruct Hplace as [[-> _]|(_ & Hp & _)]; [eapply sound_exists; by apply (ok_sound _ Hs)|by eapply shape_parent_exists].
  - by apply list_elem_of_fmap_2.
  - destruct Hplace as [[-> _]|(Ht & Hp & _)]; [by left|]. right. apply up_parent, (out_tables _ _ _ _ _ Hout); [by apply in_anchors; [|apply table_anchor]|]. rewrite (ahead_parent _ _ Hmore); [done|]. eapply sound_exists. by apply (ok_sound _ Hs).
  - apply (not_in_anchors a c b); [by apply (wf_stackNodes s)|done|by rewrite <-E].
  - intros x Hx. destruct Hplace as [[_ ->]|(_ & _ & ->)]; [done|]. injection Hx as <-. eapply sound_exists. by apply (ok_sound _ Hs).
Qed.

(** The furthest block's children move into the formatting element, made again; it is opened
    again above the block and closed where it was. *)
Lemma siteOk_takeAll a B m F b R n A k l s :
  siteOk s → doc s !! n = None → records s = a ++ B :: m ++ F :: b → b ≠ [] → Forall clear (a ++ [B]) → Some (m_item F) ∈ entries s →
  HTMLElementStack.wf k → m_top k = a ++ R :: B :: m ++ b → m_item R = again n (m_item F) →
  HTMLFormattingElementList.wf l → (∀ i, Some i ∈ l → Some i ∈ entries s ∨ i = again n (m_item F)) →
  siteOk (renewed n (m_item F) A k l (m_taskQueue s ++ [mkTask TakeAllChildrenAndReparent n None (stackNode B) false]) s).
Proof.
  intros Hok Hn E Hb Hclear Hin Hwk Ek ER Hwl Hl. pose proof (ok_shape _ Hok) as Hs. destruct (ok_entries _ Hs _ Hin) as [Hf Hso].
  assert (HB : B ∈ records s) by (rewrite E; set_solver). apply Forall_app in Hclear as [Ha [Hcl _]%Forall_cons].
  assert (HR : stackNode R = n) by (unfold stackNode; by rewrite ER). assert (HRa : isAnchor R = false) by (destruct R; cbn in ER; subst; by apply again_not_anchor). assert (Htail : sublist (m ++ b) (m ++ F :: b)) by (apply sublist_app; [done|by apply sublist_cons]).
  split.
  - apply shape_renewed; try done; [by apply (ok_distinct _ Hs)|rewrite Ek; by destruct a| |].
    + pose proof (ok_low _ Hs) as Hlow. rewrite E in Hlow. rewrite Ek. eapply low_change; [done|apply length_two; by destruct m|]. apply low_cons; [|rewrite ER; by apply ordinary_low, again_ordinary].
      apply low_app in Hlow. by apply (low_off (B :: m) F b).
    + intros r. rewrite Ek, E. intros [?|[-> |Hr]%elem_of_cons]%elem_of_app; [set_solver|by right|]. left. set_solver.
  - intros T0 Hmore. cbn [renewed set_taskQueue m_taskQueue]. pose proof (tree_inv _ (ok_tree _ Hs)) as Hi. apply pending_enqueue.
    eapply wp_mono; [apply (ok_pending _ Hok); by apply (ahead_insert (doc s) n ELEMENT_NODE (Some (mkName (savedName (m_item F)) xhtmlNamespaceURI)))|]. intros [] T Hout. cbn [treeTask operation].
    unfold renewed. cbn [set_taskQueue set_activeFormattingElements set_openElements m_openElements]. eapply wp_mono.
    + eapply (step_takeAll (stackNode <$> records s) (anchors (records s)) (doc s) n ELEMENT_NODE (Some (mkName (savedName (m_item F)) xhtmlNamespaceURI)) T0 T Hi Hout Hmore Hn (λ x, stackNodes_exist s x Hs) element_weight (anchors (m_top k)) (stackNode <$> a) (stackNode B) (stackNode <$> m ++ F :: b));
        [by rewrite E, fmap_app, fmap_cons|apply (HTMLElementStack.wf_nodes _ (ok_stack _ Hs))|done|by apply again_not_template|apply sound_element; [by apply (ok_sound _ Hs)|by apply (ok_document _ Hs)]|..].
      * unfold stackNode. rewrite (sound_tagOf (doc s)) by (by apply (ok_sound _ Hs)). destruct Hcl as [_ Ht]. rewrite (sound_tag (doc s)) in Ht by (by apply (ok_sound _ Hs)). by apply bool_decide_eq_false in Ht.
      * intros x. rewrite Ek. change (R :: B :: m ++ b) with ([R] ++ [B] ++ m ++ b). rewrite !anchors_app. rewrite (clear_tables a), (anchors_none [R]), (clear_tables [B]) by (try done; apply Forall_singleton; try done; exact HRa). cbn [app].
        intros Hx. assert (Hx' : x ∈ anchors (m ++ F :: b)) by (rewrite anchors_app; change (F :: b) with ([F] ++ b); rewrite anchors_app; set_solver).
        split; [rewrite E; change (B :: m ++ F :: b) with ([B] ++ m ++ F :: b); rewrite !(anchors_app a), (anchors_app [B]); set_solver|by apply anchors_sub].
    + intros [] T' Hout'. eapply outcome_sub; [exact Hout'| |done]. rewrite Ek, fmap_app, !fmap_cons, HR. apply sublist_app; [done|]. do 2 apply sublist_skip. by apply fmap_sublist.
Qed.

(** ** Pointers and entries *)

Lemma wp_deref a r b (Q : ElementRecord → HTMLConstructionSite → Prop) s : shape s → records s = a ++ r :: b → Q r s → wp (deref (rec_id r)) Q s.
Proof.
  intros Hs E HQ. unfold deref. apply wp_bind, wp_gets. cbn [compose]. pose proof (shape_address s Hs) as Hnd. rewrite E in Hnd |- *.
  rewrite findRecord_here; [by apply wp_ret|by apply address_before in Hnd|by apply bool_decide_eq_true].
Qed.

Lemma wp_nextPointer a r b (Q : option positive → HTMLConstructionSite → Prop) s : shape s → records s = a ++ r :: b → Q (rec_id <$> head b) s → wp (nextPointer (rec_id r)) Q s.
Proof.
  intros Hs E HQ. unfold nextPointer. eapply wp_bind, wp_deref; [done..|]. apply wp_gets. rewrite E, nextRecord_here; [done|]. rewrite <-E. by apply shape_address.
Qed.

Lemma nodes_split l n : n ∈ nodes l → ∃ a item b, l = a ++ Some item :: b ∧ node_id (m_node item) = n.
Proof. intros (item & Hin & En)%nodes_entry. apply list_elem_of_split in Hin as (a & b & ->). by exists a, item, b. Qed.

(** Whether an open element is in the list, and where. *)
Lemma wp_contains r (Q : bool → HTMLConstructionSite → Prop) s :
  shape s → r ∈ records s → (stackNode r ∉ nodes (entries s) → Q false s) → (∀ ea eb, entries s = ea ++ Some (m_item r) :: eb → Q true s) →
  wp (onList (HTMLFormattingElementList.contains (stackNode r))) Q s.
Proof.
  intros Hs Hr Hno Hyes. pose proof (ok_list _ Hs) as Hwf. unfold HTMLFormattingElementList.contains, HTMLFormattingElementList.find.
  destruct (decide (stackNode r ∈ nodes (entries s))) as [Hin|Hin].
  - apply nodes_split in Hin as (ea & item & eb & E & En). assert (Hi : Some item ∈ entries s) by (rewrite E; set_solver). pose proof (ok_agree _ Hs r item Hr Hi (eq_sym En)) as <-.
    eapply (wp_askList _ true); [|by eapply Hyes]. unfold mbind, M_bind. rewrite E in Hwf |- *. change (stackNode r) with (nodeOf (m_item r)). by rewrite find_here.
  - eapply (wp_askList _ false); [|by apply Hno]. unfold mbind, M_bind. by rewrite find_absent.
Qed.

Lemma wp_find ea item eb (Q : option nat → HTMLConstructionSite → Prop) s :
  HTMLFormattingElementList.wf (entries s) → entries s = ea ++ Some item :: eb → Q (Some (length ea)) s → wp (onList (HTMLFormattingElementList.find (node_id (m_node item)))) Q s.
Proof. intros Hwf E HQ. eapply (wp_askList _ (Some (length ea))); [|done]. unfold HTMLFormattingElementList.find. rewrite E in Hwf |- *. by apply (find_here ea item eb). Qed.

(** The names that [remove] does not take. *)
Lemma ordinary_name h item : ordinary item = true → sound h item → node_name (m_node item) ∉ Some ∘ htmlName <$> ["html"; "head"; "body"].
Proof.
  intros (_ & H1 & H2 & H3)%ordinary_split Hs. unfold isHTML, isHead, isBody in *. rewrite !(sound_tag h) in * by done. apply bool_decide_eq_false in H1, H2, H3.
  cbn [fmap list_fmap compose]. rewrite !not_elem_of_cons. split_and!; [done..|]. by intros ?%elem_of_nil.
Qed.

Lemma removeMiddle_ok a r b (Q : unit → HTMLConstructionSite → Prop) s :
  siteOk s → records s = a ++ r :: b → b ≠ [] → ordinary (m_item r) = true →
  (let s' := set_openElements (takenOff r (a ++ b) (m_openElements s)) s in siteOk s' → Q tt s') → wp (onStack (HTMLElementStack.remove (m_node (m_item r)))) Q s.
Proof.
  intros Hok E Hb Ho HQ. pose proof (ok_shape _ Hok) as Hs. assert (Hr : r ∈ records s) by (rewrite E; set_solver). pose proof (ordinary_name _ _ Ho (ok_sound _ Hs r Hr)) as Hn.
  cbn [fmap list_fmap compose] in Hn. rewrite !not_elem_of_cons in Hn. destruct Hn as (? & ? & ? & _). apply wp_onStack. eapply (wp_remove a r b); [apply Hs|done..|]. apply HQ. by apply siteOk_takenOff.
Qed.

(** ** The inner loop *)

(** The loop is at the record [c]; [m] are the records it has not visited above the
    formatting element [F]. *)
Record walk (a : list ElementRecord) (c : ElementRecord) (m : list ElementRecord) (F : ElementRecord) (b : list ElementRecord) (block : positive) (mark : Bookmark) (s : HTMLConstructionSite) : Prop := mkWalk {
  walk_ok : siteOk s;
  walk_records : records s = a ++ c :: m ++ F :: b;
  walk_bottom : b ≠ [];
  walk_clear : Forall clear (a ++ c :: m);
  walk_block : ∃ r, r ∈ a ++ [c] ∧ rec_id r = block;
  walk_ordinary : Forall (λ r, ordinary (m_item r) = true) m;
  walk_active : Some (m_item F) ∈ entries s;
  walk_mark : (m_mark mark < length (entries s))%nat;
  walk_unmoved : m_hasBeenMoved mark = false → entries s !! m_mark mark = Some (Some (m_item F));
}.

Lemma lookup_other {A} (a b : list A) i x y : i ≠ length a → (a ++ x :: b) !! i = (a ++ y :: b) !! i.
Proof.
  intros Hi. destruct (decide (i < length a)%nat); [by rewrite !lookup_app_l|]. rewrite !lookup_app_r by lia. by replace (i - length a)%nat with (S (i - length a - 1)) by lia.
Qed.

(** A record that is not in the list goes. *)
Lemma walk_skip a c x m F b block mark s :
  walk a c (x :: m) F b block mark s → walk a c m F b block mark (set_openElements (takenOff x ((a ++ [c]) ++ m ++ F :: b) (m_openElements s)) s).
Proof.
  intros [H1 H2 H3 H4 H5 H6 H7 H8 H9]. constructor; try done.
  - apply siteOk_takenOff; [done|by rewrite H2, <-app_assoc|by destruct m].
  - cbn. by rewrite <-app_assoc.
  - rewrite Forall_app, !Forall_cons in H4. destruct H4 as (? & ? & _ & ?). apply Forall_app. split; [done|by constructor].
  - by apply Forall_cons in H6 as [_ ?].
Qed.

(** A record that is in the list gets a new element, which the node of [c] moves into. *)
Lemma walk_keep a c x m F b block mark n A ea eb moved s :
  let new := again n (m_item x) in
  let k := set_top (a ++ c :: mkRecord (rec_id x) new :: m ++ F :: b) (m_openElements s) in
  walk a c (x :: m) F b block mark s → doc s !! n = None → entries s = ea ++ Some (m_item x) :: eb →
  walk (a ++ [c]) (mkRecord (rec_id x) new) m F b block (if moved : bool then moveToAfter (length ea) mark else mark)
    (renewed n (m_item x) A k (ea ++ Some new :: eb) (m_taskQueue s ++ [mkTask Reparent n None (stackNode c) false]) s).
Proof.
  cbn zeta. intros [H1 H2 H3 H4 H5 H6 H7 H8 H9] Hn E. pose proof (ok_shape _ H1) as Hs. assert (Hin : Some (m_item x) ∈ entries s) by (rewrite E; set_solver).
  destruct (ok_entries _ Hs _ Hin) as [Hf Hso]. rewrite Forall_app, !Forall_cons in H4. destruct H4 as (Ha & Hc & Hx & Hm). apply Forall_cons in H6 as [_ Hom].
  assert (Hne : m_item F ≠ m_item x).
  { intros EF. assert (Hnd : NoDup (stackNode <$> (a ++ [c]) ++ x :: m ++ F :: b)) by (apply (wf_stackNodes s); [done|by rewrite H2, <-app_assoc]). apply (nodes_distinct _ _ _ Hnd F); [set_solver|]. unfold stackNode. by rewrite EF. }
  assert (Hidx : ∀ i, entries s !! i = Some (Some (m_item F)) → (ea ++ Some (again n (m_item x)) :: eb) !! i = Some (Some (m_item F))).
  { intros i. rewrite E. destruct (decide (i = length ea)) as [-> |Hi]; [rewrite list_lookup_middle by done; congruence|]. by rewrite (lookup_other ea eb i (Some (again n (m_item x))) (Some (m_item x))). }
  constructor; cbn [renewed set_taskQueue set_activeFormattingElements set_openElements m_openElements m_activeFormattingElements set_top m_top].
  - apply siteOk_reparent; [done..|by destruct m|done|apply Hc].
  - by rewrite <-app_assoc.
  - done.
  - rewrite !Forall_app, !Forall_cons. split_and!; try done. split; [by apply again_not_anchor|]. apply not_formatting; [by apply again_formatting|done].
  - destruct H5 as (r & Hr & Er). exists r. split; [set_solver|done].
  - done.
  - rewrite E in H7. set_solver.
  - rewrite E in H8. rewrite length_app in H8 |- *. destruct moved; cbn in *; lia.
  - destruct moved; [done|]. intros Hu. auto.
Qed.

(** The element factory knows the formatting elements. *)
Context (Hcreate : ∀ name, isFormattingTag name = true → creatable name = true).

Lemma walk_at a c x m F b block mark s : walk a c (x :: m) F b block mark s → records s = (a ++ [c]) ++ x :: m ++ F :: b.
Proof. intros Hw. by rewrite (walk_records _ _ _ _ _ _ _ _ Hw), <-app_assoc. Qed.

(** One visit of a record that is in the list. *)
Lemma keep_ok (K : Bookmark → CM (positive * Bookmark)) a c x m F b block mark ea eb (Q : positive * Bookmark → HTMLConstructionSite → Prop) s :
  walk a c (x :: m) F b block mark s → entries s = ea ++ Some (m_item x) :: eb →
  (∀ a' c' mark' s', rec_id c' = rec_id x → walk a' c' m F b block mark' s' → wp (K mark') Q s') →
  wp (newItem ← createElementFromSavedToken (m_item x);
      nodeEntry ← onList (HTMLFormattingElementList.find (stackNode x));
      match nodeEntry with
      | None => fault
      | Some entry =>
          onList (HTMLFormattingElementList.replaceElement entry newItem);;
          onStack (HTMLElementStack.replaceElement (rec_id x) newItem);;
          newParent ← deref (rec_id x);
          child ← deref (rec_id c);
          reparent newParent child;;
          K (if bool_decide (rec_id c = block) then moveToAfter entry mark else mark)
      end) Q s.
Proof.
  intros Hw E HK. pose proof (walk_ok _ _ _ _ _ _ _ _ Hw) as Hok. pose proof (ok_shape _ Hok) as Hs. pose proof (walk_at _ _ _ _ _ _ _ _ _ Hw) as Er.
  assert (Hin : Some (m_item x) ∈ entries s) by (rewrite E; set_solver). destruct (ok_entries _ Hs _ Hin) as [Hf Hso].
  apply wp_bind, wp_createElementFromSavedToken; [done..|]. intros n A Hn. pose proof (walk_keep a c x m F b block mark n A ea eb (bool_decide (rec_id c = block)) s Hw Hn E) as Hw'.
  eapply wp_bind, (wp_find ea (m_item x) eb); [apply Hs|done|]. destruct (replaceEntry_run ea (m_item x) eb (again n (m_item x))) as [Hrun _]; [rewrite <-E; apply Hs|done|rewrite <-E; by apply fresh_nodes|].
  apply wp_bind, wp_onList. unfold wp at 1. change (entries (set_attributesOf _ _)) with (entries s). rewrite E, Hrun.
  apply wp_bind, wp_onStack. unfold wp at 1, HTMLElementStack.replaceElement, modifyOpt. cbn [set_activeFormattingElements set_attributesOf withNode set_tree m_openElements].
  rewrite Er, replaceRecord_spec; [| |].
  2: { pose proof (shape_address s Hs) as Hnd. rewrite Er, fmap_app in Hnd. apply NoDup_app in Hnd as (_ & Hd & _). intros Hx. apply (Hd _ Hx). apply list_elem_of_here. }
  2: { assert (Hx : x ∈ records s) by (rewrite Er; set_solver). pose proof (ok_document _ Hs x Hx) as He. by apply andb_true_iff in He as [? _]. }
  rewrite <-app_assoc. cbn [app]. set (s1 := set_openElements _ _). assert (Hs1 : shape s1) by (destruct (ok_shape _ (walk_ok _ _ _ _ _ _ _ _ Hw')); by constructor).
  eapply wp_bind, (wp_deref (a ++ [c]) (mkRecord (rec_id x) (again n (m_item x)))); [done|cbn; by rewrite <-app_assoc|]. eapply wp_bind, (wp_deref a c); [done..|].
  unfold reparent. apply wp_bind, wp_bind, wp_downcastItem; [apply (ok_document _ Hs); rewrite Er; set_solver|]. unfold enqueue. apply wp_modify. by eapply HK, Hw'.
Qed.

Lemma innerLoop_ok count a c m F b block mark s :
  walk a c m F b block mark s →
  wp (innerLoop count (rec_id F) block (rec_id <$> head (m ++ [F])) (rec_id c) mark) (λ '(last, mark') s', ∃ a' c' m', last = rec_id c' ∧ walk a' c' m' F b block mark' s') s.
Proof.
  revert a c m mark s. induction count as [|count IH]; intros a c m mark s Hw; cbn [innerLoop]; [apply wp_ret; by exists a, c, m|].
  pose proof (walk_ok _ _ _ _ _ _ _ _ Hw) as Hok. pose proof (ok_shape _ Hok) as Hs. destruct m as [|x m]; cbn [app head fmap option_fmap option_map].
  - pose proof (walk_records _ _ _ _ _ _ _ _ Hw) as E. cbn [app] in E. assert (E' : records s = (a ++ [c]) ++ F :: b) by (by rewrite E, <-app_assoc). assert (HF : F ∈ records s) by (rewrite E; set_solver).
    eapply wp_bind, wp_deref; [done..|]. eapply wp_bind, wp_nextPointer; [done..|]. apply wp_bind, wp_downcastItem; [by apply (ok_document _ Hs)|].
    apply wp_bind, (wp_contains F); [done..|intros Hno; destruct Hno; unfold nodes; apply list_elem_of_omap; exists (Some (m_item F)); split; [apply (walk_active _ _ _ _ _ _ _ _ Hw)|done]|].
    intros ea eb _. cbn [negb]. rewrite bool_decide_eq_true_2 by done. apply wp_ret. by exists a, c, [].
  - pose proof (walk_at _ _ _ _ _ _ _ _ _ Hw) as E. assert (Hx : x ∈ records s) by (rewrite E; set_solver). pose proof (walk_ordinary _ _ _ _ _ _ _ _ Hw) as [Ho _]%Forall_cons.
    eapply wp_bind, wp_deref; [done..|]. eapply wp_bind, wp_nextPointer; [done..|]. replace (rec_id <$> head (m ++ F :: b)) with (rec_id <$> head (m ++ [F])) by (by destruct m).
    apply wp_bind, wp_downcastItem; [by apply (ok_document _ Hs)|]. apply wp_bind, (wp_contains x); [done..| |]; cbn [negb].
    + intros _. eapply wp_bind, removeMiddle_ok; [done|exact E|by destruct m|done|]. intros s' Hok'. apply (IH a c m). by apply walk_skip.
    + intros ea eb Ee. rewrite bool_decide_eq_false_2.
      * eapply (keep_ok (λ mark', innerLoop count (rec_id F) block (rec_id <$> head (m ++ [F])) (rec_id x) mark')); [done..|]. intros a' c' mark' s' <- Hw'. by apply (IH a' c' m).
      * intros Eid. pose proof (shape_address s Hs) as Hnd. rewrite E in Hnd. rewrite fmap_app, fmap_cons in Hnd. apply NoDup_app in Hnd as (_ & _ & [Hd _]%NoDup_cons). apply Hd. rewrite Eid. apply list_elem_of_fmap_2. set_solver.
Qed.

(** ** After the inner loop *)

(** The last node goes to the common ancestor. *)
Lemma insertAlready_ok a c m F d b block mark s :
  walk a c m F (d :: b) block mark s → wp (insertAlreadyParsedChild (m_item d) c) (λ _ s', ∃ task, s' = queued task s ∧ siteOk s') s.
Proof.
  intros [Hok E _ Hclear _ _ Hact _ _]. pose proof (ok_shape _ Hok) as Hs. destruct (ok_entries _ Hs _ Hact) as [Hf Hso].
  assert (E' : records s = (a ++ c :: m ++ [F]) ++ d :: b) by (by rewrite E, <-!app_assoc; cbn; rewrite <-!app_assoc).
  assert (Hclear' : Forall clear (a ++ c :: m ++ [F])).
  { rewrite Forall_app, !Forall_cons in Hclear |- *. destruct Hclear as (? & ? & ?). split_and!; [done..|]. apply Forall_app. split; [done|]. apply Forall_singleton.
    split; [by eapply formatting_not_anchor|by apply not_formatting]. }
  assert (Hc : isAnchor c = false ∧ c ∈ records s) by (split; [rewrite Forall_app, !Forall_cons in Hclear; by destruct Hclear as (_ & [? _] & _)|rewrite E; set_solver]). destruct Hc as [Hc Hcin].
  unfold insertAlreadyParsedChild. apply wp_bind.
  assert (Hgo : ∀ d' p next, d' ∈ d :: b → (p = stackNode d' ∧ next = None ∨ isTable d' = true ∧ parentOf (doc s) (stackNode d') = Some p ∧ next = Some (stackNode d')) →
    wp (element ← onStack (downcast (m_item c)); enqueue (mkTask InsertAlreadyParsedChild p next (node_id element) false)) (λ _ s', ∃ task, s' = queued task s ∧ siteOk s') s).
  { intros d' p next Hd' Hpl. apply wp_bind, wp_downcastItem; [by apply (ok_document _ Hs)|]. unfold enqueue. apply wp_modify. eexists. split; [done|].
    eapply (siteOk_insertAlready a c (m ++ F :: d :: b) d'); [done..| |done]. set_solver. }
  destruct (causesFosterParenting (m_item d)).
  - apply wp_findFosterSite; [done|]. intros d' p next [Hfo Hpl]. apply (Hgo d'); [|done]. rewrite E' in Hfo. by eapply fosters_below.
  - apply wp_ret. apply (Hgo d); [apply list_elem_of_here|by left].
Qed.

(** The bookmark finds its entry. *)
Lemma mark_split mark item s :
  shape s → Some item ∈ entries s → (m_hasBeenMoved mark = false → entries s !! m_mark mark = Some (Some item)) →
  ∃ ea eb, entries s = ea ++ Some item :: eb ∧ (m_hasBeenMoved mark = false → bookmarkFor (nodeOf item) (entries s) = Some (mark, entries s)).
Proof.
  intros Hs Hin Hu. pose proof (ok_list _ Hs) as Hwf. destruct (m_hasBeenMoved mark) eqn:Em.
  - apply list_elem_of_split in Hin as (ea & eb & E). by exists ea, eb.
  - specialize (Hu eq_refl). exists (take (m_mark mark) (entries s)), (drop (S (m_mark mark)) (entries s)). pose proof (take_drop_middle _ _ _ Hu) as E. split; [done|]. intros _.
    unfold bookmarkFor, mbind, M_bind. pose proof (find_here (take (m_mark mark) (entries s)) item (drop (S (m_mark mark)) (entries s))) as Hfind. rewrite E in Hfind. rewrite Hfind by done.
    unfold mret, M_ret. rewrite length_take_le by (apply lookup_lt_Some in Hu; lia). destruct mark as [moved i]. cbn in *. by rewrite Em.
Qed.

(** Where [insertAbove] puts the record. *)
Lemma aboveAddress_here a r b : NoDup (rec_id <$> a ++ r :: b) → aboveAddress (rec_id r) (a ++ r :: b) = a ∧ fromAddress (rec_id r) (a ++ r :: b) = r :: b.
Proof.
  intros Hnd%address_before. induction Hnd as [|x a Hx _ [IH1 IH2]]; cbn [app aboveAddress fromAddress]; [by rewrite bool_decide_eq_true_2|]. rewrite Hx. by rewrite IH1, IH2.
Qed.

(** The list and the stack after the last steps. *)
Lemma swapped_entries mark ea eb item new :
  ∀ i, Some i ∈ (if m_hasBeenMoved mark then without [nodeOf item] (take (m_mark mark + 1) (ea ++ Some item :: eb) ++ Some new :: drop (m_mark mark + 1) (ea ++ Some item :: eb)) else ea ++ Some new :: eb) →
  Some i ∈ ea ++ Some item :: eb ∨ i = new.
Proof.
  intros i. destruct (m_hasBeenMoved mark).
  - intros [_ Hi]%list_elem_of_filter. rewrite <-Permutation_middle, take_drop in Hi. apply elem_of_cons in Hi as [[= ->]|?]; auto.
  - rewrite !elem_of_app, !elem_of_cons. intros [?|[[= ->]|?]]; auto.
Qed.

Lemma reopened_stack a B m F b n k :
  HTMLElementStack.wf k → m_top k = a ++ B :: m ++ F :: b → b ≠ [] → n ∉ stackNode <$> m_top k → formatting (m_item F) = true →
  ∀ begun, HTMLElementStack.wf (putIn (again n (m_item F)) a (B :: m ++ b) begun (takenOff F (a ++ B :: m ++ b) k)).
Proof.
  intros Hwf E Hb Hn Hf begun. assert (E' : m_top k = (a ++ B :: m) ++ F :: b) by (by rewrite E, <-app_assoc).
  pose proof (takenOff_wf k (a ++ B :: m) F b Hwf E' Hb) as Hwf'. rewrite <-app_assoc in Hwf'. destruct (proj1 (ordinary_split _) (again_ordinary n _ Hf)) as (? & ? & ? & ?).
  apply putIn_wf; [done..| |congruence|congruence]. apply bool_decide_eq_true. cbn [takenOff m_top]. intros Hin. apply Hn. rewrite E'. cbn in Hin. rewrite !fmap_app, !fmap_cons, !fmap_app in *. set_solver.
Qed.

(** The formatting element is made again, in the furthest block. *)
Lemma finishAdoption_ok x B y F b mark s :
  siteOk s → records s = x ++ B :: y ++ F :: b → b ≠ [] → Forall clear (x ++ [B]) → Some (m_item F) ∈ entries s →
  (m_mark mark < length (entries s))%nat → (m_hasBeenMoved mark = false → entries s !! m_mark mark = Some (Some (m_item F))) →
  wp (record ← deref (rec_id F); newItem ← createElementFromSavedToken (m_item record); block ← deref (rec_id B); takeAllChildrenAndReparent newItem block;;
      onList (swapTo (stackNode F) newItem mark);; onStack (HTMLElementStack.remove (m_node (m_item F)));; onStack (insertAbove newItem (rec_id B))) (λ _ s', siteOk s') s.
Proof.
  intros Hok E Hb Hclear Hact Hmark Hu. pose proof (ok_shape _ Hok) as Hs. destruct (ok_entries _ Hs _ Hact) as [Hf Hso]. assert (E' : records s = (x ++ B :: y) ++ F :: b) by (by rewrite E, <-app_assoc).
  eapply wp_bind, wp_deref; [done|exact E'|]. apply wp_bind, wp_createElementFromSavedToken; [done..|]. intros n A Hn.
  eapply wp_bind, (wp_deref x B (y ++ F :: b)); [by apply shape_new|done|]. unfold takeAllChildrenAndReparent, enqueue. apply wp_bind, wp_modify.
  destruct (mark_split mark (m_item F) s Hs Hact Hu) as (ea & eb & Ee & Hbm). rewrite Ee in Hbm, Hmark.
  destruct (swapTo_run ea (m_item F) eb (again n (m_item F)) mark) as [Hrun Hwl]; [rewrite <-Ee; apply Hs|done|rewrite <-Ee; by apply fresh_nodes|done|done|].
  apply wp_bind, wp_onList. unfold wp at 1. cbn [set_taskQueue set_attributesOf withNode set_tree m_activeFormattingElements]. rewrite Ee. unfold stackNode. unfold nodeOf in Hrun. rewrite Hrun.
  apply wp_bind, wp_onStack. pose proof (ordinary_name _ _ (formatting_ordinary _ _ Hf Hso) Hso) as Hname. cbn [fmap list_fmap compose] in Hname. rewrite !not_elem_of_cons in Hname. destruct Hname as (? & ? & ? & _).
  eapply (wp_remove (x ++ B :: y) F b); [apply Hs|done|done|by eapply formatting_ordinary|done..|]. cbn [set_activeFormattingElements set_taskQueue set_attributesOf withNode set_tree m_openElements]. rewrite <-app_assoc. cbn [app].
  assert (Hnstack : n ∉ stackNode <$> records s) by (intros (r & Er & Hr)%list_elem_of_fmap; by eapply (fresh_record s n r)).
  pose proof (reopened_stack x B y F b n (m_openElements s) (ok_stack _ Hs) E Hb Hnstack Hf) as Hwk. pose proof (takenOff_wf _ _ _ _ (ok_stack _ Hs) E' Hb) as Hwt. rewrite <-app_assoc in Hwt. cbn [app] in Hwt.
  pose proof (HTMLElementStack.wf_addresses _ Hwt) as Hnd. cbn [takenOff m_top] in Hnd. destruct (aboveAddress_here x B (y ++ b) Hnd) as [Eabove Efrom].
  apply wp_onStack. cbn [set_openElements m_openElements]. apply wp_insertAbove; [done|by apply again_ordinary|cbn; apply list_elem_of_fmap_2; set_solver|]. cbn [takenOff m_top]. rewrite Eabove, Efrom.
  match goal with |- siteOk (set_openElements ?k (set_openElements _ (set_activeFormattingElements ?l _))) =>
    apply (siteOk_takeAll x B y F b (mkRecord (nextAddress (m_openElements s)) (again n (m_item F))) n A k l s) end; try done.
  rewrite Ee. apply swapped_entries.
Qed.

Lemma isAbove_here a r m r' b : NoDup (rec_id <$> a ++ r :: m ++ r' :: b) → isAbove (rec_id r) (rec_id r') (a ++ r :: m ++ r' :: b) = true.
Proof.
  intros Hnd%address_before. induction Hnd as [|x a Hx _ IH]; cbn [app isAbove]; [|by rewrite Hx]. rewrite bool_decide_eq_true_2 by done.
  apply bool_decide_eq_true, list_elem_of_fmap_2. set_solver.
Qed.

(** The furthest block and what is above it is adopted by the common ancestor. *)
Lemma adopt_ok a B m F b s :
  siteOk s → records s = a ++ B :: m ++ F :: b → b ≠ [] → Forall clear (a ++ B :: m) → Forall (λ r, ordinary (m_item r) = true) m → Some (m_item F) ∈ entries s →
  wp (adopt (m_node (m_item F)) (rec_id F) (rec_id B)) (λ _ s', siteOk s') s.
Proof.
  intros Hok E Hb Hclear Hord Hact. pose proof (ok_shape _ Hok) as Hs. destruct b as [|d b]; [done|]. assert (E' : records s = (a ++ B :: m) ++ F :: d :: b) by (by rewrite E, <-app_assoc).
  unfold adopt. apply wp_bind, wp_gets. cbn [compose]. apply wp_bind, wp_ASSERT; [rewrite E; apply isAbove_here; rewrite <-E; by apply shape_address|].
  eapply wp_bind, wp_next; [apply Hs|exact E'|]. pose proof (ok_list _ Hs) as Hwl. apply list_elem_of_split in Hact as (ea & eb & Ee).
  assert (Hbm : bookmarkFor (stackNode F) (entries s) = Some (mkBookmark false (length ea), entries s)).
  { unfold bookmarkFor, mbind, M_bind. rewrite Ee in Hwl |- *. change (stackNode F) with (nodeOf (m_item F)). by rewrite find_here. }
  apply wp_bind. eapply wp_askList; [exact Hbm|]. eapply wp_bind, wp_nextPointer; [done|exact E|]. replace (rec_id <$> head (m ++ F :: d :: b)) with (rec_id <$> head (m ++ [F])) by (by destruct m).
  assert (Hw : walk a B m F (d :: b) (rec_id B) (mkBookmark false (length ea)) s).
  { constructor; try done; [exists B; split; [set_solver|done]|rewrite Ee; set_solver|rewrite Ee, length_app; cbn; lia|]. intros _. rewrite Ee. by apply list_lookup_middle. }
  apply wp_bind. eapply wp_mono; [by apply (innerLoop_ok _ a B m)|]. intros [last mark] s1 (a1 & c1 & m1 & -> & Hw1). pose proof (walk_ok _ _ _ _ _ _ _ _ Hw1) as Hok1.
  eapply wp_bind, wp_deref; [apply Hok1|apply (walk_records _ _ _ _ _ _ _ _ Hw1)|]. apply wp_bind. eapply wp_mono; [by eapply insertAlready_ok|]. intros [] s2 (task & -> & Hok2).
  destruct Hw1 as [_ E1 _ Hclear1 (B1 & HB1 & <-) _ Hact1 Hmark1 Hu1]. apply list_elem_of_split in HB1 as (x & y & Exy).
  eapply (finishAdoption_ok x B1 (y ++ m1)); try done.
  - cbn [queued set_taskQueue m_openElements]. rewrite E1. change (c1 :: m1 ++ F :: d :: b) with ([c1] ++ m1 ++ F :: d :: b). rewrite app_assoc, Exy, <-app_assoc. cbn. by rewrite <-app_assoc.
  - change (c1 :: m1) with ([c1] ++ m1) in Hclear1. rewrite app_assoc, Exy, !Forall_app, Forall_cons in Hclear1. rewrite Forall_app, Forall_singleton. tauto.
Qed.

(** ** The outer loop *)

Lemma last_filter_split {A} (P : A → Prop) `{∀ x, Decision (P x)} (l : list A) :
  match last (filter P l) with Some x => ∃ a b, l = a ++ x :: b ∧ P x ∧ Forall (λ y, ¬ P y) b | None => Forall (λ y, ¬ P y) l end.
Proof.
  induction l as [|y l IH] using rev_ind; [by constructor|]. rewrite filter_app. destruct (decide (P y)) as [Hy|Hy].
  - rewrite (filter_cons_True P) by done. change (filter P []) with (@nil A). rewrite last_snoc. by exists l, [].
  - rewrite (filter_cons_False P) by done. change (filter P []) with (@nil A). rewrite app_nil_r. destruct (last (filter P l)) as [x|]; [|by apply Forall_app; split; [|constructor]].
    destruct IH as (a & b & -> & Hx & Hb). exists a, (b ++ [y]). rewrite <-app_assoc. split_and!; [done..|]. apply Forall_app. by split; [|constructor].
Qed.

Lemma removeEntry_ok item s : siteOk s → Some item ∈ entries s → wp (onList (HTMLFormattingElementList.remove (node_id (m_node item)))) (λ _ s', siteOk s') s.
Proof.
  intros Hok (ea & eb & E)%list_elem_of_split. pose proof (ok_list _ (ok_shape _ Hok)) as Hwf. rewrite E in Hwf. apply wp_onList. unfold wp. rewrite E. change (node_id (m_node item)) with (nodeOf item). rewrite remove_here by done.
  apply siteOk_entries; [done|by apply wf_split in Hwf as (_ & _ & _ & ?)|]. intros i Hi. left. rewrite E. set_solver.
Qed.

Lemma not_special_all l s : shape s → Forall (λ r, r ∈ records s) l → Forall (λ r, ¬ isSpecialNode (m_item r) = true) l → Forall (λ r, ordinary (m_item r) = true) l.
Proof.
  intros Hs Hin Hsp. apply Forall_forall. intros r Hr. pose proof (proj1 (Forall_forall _ _) Hin r Hr) as Hr'. pose proof (proj1 (Forall_forall _ _) Hsp r Hr) as Hn%not_true_iff_false.
  apply not_special_ordinary; [by apply (ok_document _ Hs)|done].
Qed.

(** The formatting element is open and in scope. *)
Lemma outerOpen_ok a F b s :
  siteOk s → records s = a ++ F :: b → Some (m_item F) ∈ entries s → Forall (λ r, isScopeMarker (m_item r) = false) a →
  wp (furthestBlock ← onStack (furthestBlockForFormattingElement (stackNode F));
      match furthestBlock with
      | None => onStack (popUntilElementPopped (stackNode F));; onList (HTMLFormattingElementList.remove (stackNode F));; mret false
      | Some block => adopt (m_node (m_item F)) (rec_id F) (rec_id block);; mret true
      end) (λ _ s', siteOk s') s.
Proof.
  intros Hok E Hact Hscope. pose proof (ok_shape _ Hok) as Hs. destruct (ok_entries _ Hs _ Hact) as [Hf Hso]. pose proof (formatting_ordinary _ _ Hf Hso) as Ho.
  assert (Hall : ∀ l, l ⊆ a → Forall (λ r, r ∈ records s) l) by (intros l Hl; apply Forall_forall; intros r Hr; rewrite E; set_solver).
  assert (Hb : b ≠ []).
  { eapply (not_last s a F b (ok_stack _ Hs)); [done|]. apply not_true_iff_false. intros Hroot. pose proof (formatting_not_marker _ _ Hf Hso) as Hm. unfold isScopeMarker in Hm. rewrite !orb_false_iff in Hm.
    apply andb_true_iff in Hroot as [Hroot _]. destruct Hm. congruence. }
  apply wp_bind. eapply wp_askStack; [eapply (furthestBlock_run _ a F b); [apply Hs|exact E|by apply ordinary_split in Ho as (? & _)]|].
  pose proof (last_filter_split (λ x, isSpecialNode (m_item x) = true) a) as Hlast. destruct (last _) as [B|].
  - destruct Hlast as (a1 & m & -> & _ & Hm). apply wp_bind. eapply wp_mono; [eapply (adopt_ok a1 B m F b); [done|by rewrite E, <-app_assoc|done| | |done]|].
    + eapply Forall_impl; [exact Hscope|]. intros r Hr. destruct (marker_tags _ Hr) as [Ht ?]. split; [|done]. unfold isAnchor, isTable. rewrite Ht. unfold isScopeMarker, isRootNode, isHTML in *. rewrite !orb_false_iff in Hr. tauto.
    + apply (not_special_all m s Hs); [apply Hall; set_solver|done].
    + intros [] s' Hok'. by apply wp_ret.
  - apply wp_bind. eapply wp_mono; [eapply (popUntilElementPopped_ok a F b); [done..| |done|done]|].
    + apply (not_special_all a s Hs); [by apply Hall|done].
    + intros [] s' (Hok' & k & -> & Ek). apply wp_bind. eapply wp_mono; [by apply removeEntry_ok|]. intros [] s' Hok''. by apply wp_ret.
Qed.

Lemma shape_top s : shape s → ∃ n, HTMLElementStack.top (m_openElements s) = Some (n, m_openElements s).
Proof.
  intros Hs. destruct (records s) as [|r l] eqn:E; [by destruct (ok_top _ Hs)|]. exists (m_node (m_item r)). unfold HTMLElementStack.top, topRecord, mbind, M_bind. rewrite E.
  apply downcast_run, (ok_document _ Hs). rewrite E. apply list_elem_of_here.
Qed.

Lemma split_unique {A B} (f : A → B) (a b a' b' : list A) x : NoDup (f <$> a ++ x :: b) → a ++ x :: b = a' ++ x :: b' → a = a' ∧ b = b'.
Proof.
  intros Hnd%NoDup_fmap_1. revert a'. induction a as [|y a IH]; intros [|z a'] E; cbn in *.
  - by injection E as ->.
  - injection E as <- ->. apply NoDup_cons in Hnd as [Hx _]. set_solver.
  - injection E as -> <-. apply NoDup_cons in Hnd as [Hx _]. set_solver.
  - injection E as -> E. apply NoDup_cons in Hnd as [_ Hnd]. destruct (IH Hnd a' E) as [-> ->]. done.
Qed.

Lemma wp_containsOpen n (Q : bool → HTMLConstructionSite → Prop) s :
  Q (bool_decide (findRecord (λ r, bool_decide (stackNode r = n)) (records s) ≠ None)) s → wp (onStack (HTMLElementStack.contains n)) Q s.
Proof. intros HQ. eapply wp_askStack; [done|exact HQ]. Qed.

Lemma wp_findOpen n (Q : option ElementRecord → HTMLConstructionSite → Prop) s :
  Q (findRecord (λ r, bool_decide (stackNode r = n)) (records s)) s → wp (onStack (HTMLElementStack.find n)) Q s.
Proof. intros HQ. eapply wp_askStack; [done|exact HQ]. Qed.

Lemma outerStep_ok tagName s : siteOk s → isFormattingTag tagName = true → wp (outerStep tagName) (λ _ s', siteOk s') s.
Proof.
  intros Hok Htag. pose proof (ok_shape _ Hok) as Hs. unfold outerStep. destruct (marker_split (entries s)) as (pre & items & El & Hm).
  apply wp_bind. eapply wp_askList; [rewrite El; apply closest_exact; [rewrite <-El; apply Hs|done]|]. destruct (last (filter (matchesHTMLTag tagName) items)) as [item|] eqn:Elast; cbn [fmap option_fmap option_map].
  2: { apply wp_bind. eapply wp_mono; [apply anyOther_ok; [done|by apply formatting_plain]|]. intros [] s' Hok'. by apply wp_ret. }
  assert (Hact : Some item ∈ entries s).
  { apply last_Some_elem_of, list_elem_of_filter in Elast as [_ Hin]. rewrite El. apply elem_of_app. right. by apply list_elem_of_fmap_2. }
  apply wp_bind, wp_containsOpen. destruct (findRecord _ (records s)) as [F|] eqn:Ef.
  - pose proof Ef as (a & b & E & En%bool_decide_eq_true & _)%findRecord_split. assert (HF : F ∈ records s) by (rewrite E; set_solver). pose proof (ok_agree _ Hs F item HF Hact En) as <-.
    destruct (ask_run (ElementInScope (stackNode F)) (m_openElements s) (ok_stack _ Hs) (ok_top _ Hs)) as (answer & Hask & Hanswer).
    rewrite (bool_decide_eq_true_2 (Some F ≠ None)) by done. apply wp_bind. eapply wp_askStack; [exact Hask|]. destruct answer; cbn [andb negb]; [|by apply wp_ret].
    apply wp_bind, wp_findOpen. rewrite Ef. destruct (shape_top s Hs) as [top Htop]. apply wp_bind. eapply wp_askStack; [exact Htop|]. apply (outerOpen_ok a F b); [done..|].
    destruct (proj1 Hanswer eq_refl) as (a' & F' & b' & E' & EF'%bool_decide_eq_true & Hscope). assert (F' = F) as ->.
    { apply (NoDup_fmap_inj_in stackNode (records s)); [apply (HTMLElementStack.wf_nodes _ (ok_stack _ Hs))|rewrite E'; set_solver|done..]. }
    by destruct (split_unique stackNode a b a' b' F) as [-> _]; [by apply (wf_stackNodes s)|congruence|].
  - rewrite (bool_decide_eq_false_2 (None ≠ None)) by naive_solver. apply wp_bind, wp_ret. cbn [andb]. apply wp_bind, wp_findOpen. rewrite Ef.
    apply wp_bind. eapply wp_mono; [by apply removeEntry_ok|]. intros [] s' Hok'. by apply wp_ret.
Qed.

Lemma outerLoop_ok count tagName s : siteOk s → isFormattingTag tagName = true → wp (outerLoop count tagName) (λ _ s', siteOk s') s.
Proof.
  intros Hok Htag. revert s Hok. induction count as [|count IH]; intros s Hok; cbn [outerLoop]; [by apply wp_ret|]. apply wp_bind. eapply wp_mono; [by apply outerStep_ok|].
  intros [|] s' Hok'; [by apply IH|by apply wp_ret].
Qed.

End Quiet.
