(* ===== verification/SiteData.v ===== *)
(** * What the construction site leaves alone

    [steps R m]: the states before and after [m] are in the relation [R]; [keeps f m]: [f] of the
    state is what it was. What the operations on the content of the body leave alone is
    the frame around it ([around]): the character data of the nodes, the pointers to the root and
    the body, the head, the form and the flag for the foster parent stay, and nodes stay
    what they are. This is proved by going through the operations; no script runs. *)

From Stdlib Require Import String.
From S2P Require Import Prelude HTMLStackItem HTMLElementStack HTMLFormattingElementList ContainerNode ContainerNodeLists ContainerNodeCorrect ContainerNodeScripts ContainerNodeTheorems.
From S2P Require Import TreeOrder HTMLConstructionSite AdoptionAgency TreeTasks.

#[local] Open Scope list_scope.

Definition steps {St A} (R : St → St → Prop) (m : M St A) : Prop := ∀ s a s', m s = Some (a, s') → R s s'.
Definition same {St X} (f : St → X) (s s' : St) : Prop := f s' = f s.
Abbreviation keeps f := (steps (same f)).

#[global] Instance same_preorder {St X} (f : St → X) : PreOrder (same f).
Proof. unfold same. split; [done|]. intros x y z ? ?. congruence. Qed.

Section Rules.
Context {St : Type} (R : St → St → Prop) `{!PreOrder R}.

Lemma steps_ret {A} (a : A) : steps R (mret a).
Proof. by intros s ? ? [= _ ->]. Qed.
Lemma steps_fault {A} : steps R (fault (A := A)).
Proof. done. Qed.
Lemma steps_gets {A} (g : St → A) : steps R (gets g).
Proof. by intros s ? ? [= _ ->]. Qed.
Lemma steps_modify g : (∀ s, R s (g s)) → steps R (modify g).
Proof. by intros Hg s ? ? [= _ <-]. Qed.
Lemma steps_modifyOpt g : (∀ s s', g s = Some s' → R s s') → steps R (modifyOpt g).
Proof. intros Hg s ? s' E. unfold modifyOpt in E. destruct (g s) as [s1|] eqn:Eg; [|done]. injection E as _ <-. by apply Hg. Qed.
Lemma steps_bind {A B} (m : M St A) (k : A → M St B) : steps R m → (∀ a, steps R (k a)) → steps R (m ≫= k).
Proof.
  intros Hm Hk s b s' E. unfold mbind, M_bind in E. destruct (m s) as [[a s1]|] eqn:E1; [|done]. etransitivity; [by eapply Hm|by eapply Hk].
Qed.
Lemma steps_part {St' A} (R' : St' → St' → Prop) (get : St → St') (put : St' → St → St) (m : M St' A) :
  steps R' m → (∀ x s, R' (get s) x → R s (put x s)) → steps R (part get put m).
Proof. intros Hm Hp s a s' E. unfold part in E. destruct (m (get s)) as [[b x]|] eqn:Em; [|done]. injection E as _ <-. by eapply Hp, Hm. Qed.
Lemma steps_ASSERT `{Build} e : steps R (ASSERT e).
Proof. unfold ASSERT. case_match; [apply steps_ret|apply steps_fault]. Qed.
Lemma steps_downcast `{Build} item : steps R (downcast item).
Proof. unfold downcast. apply steps_bind; [apply steps_ASSERT|intros]. apply steps_ret. Qed.

Lemma steps_wp {A} (m : M St A) (Q : A → St → Prop) s : steps R m → wp m Q s → wp m (λ a s', Q a s' ∧ R s s') s.
Proof. intros Hk Hw. unfold wp in *. destruct (m s) as [[a s']|] eqn:E; [|done]. split; [done|]. by eapply Hk. Qed.

End Rules.

Create HintDb keeps.
#[export] Hint Resolve steps_ret steps_fault steps_gets steps_ASSERT steps_downcast : keeps.
#[export] Hint Extern 3 (steps _ (modify _)) => apply steps_modify; done : keeps.

(** One step through an operation. *)
Ltac keep_step :=
  lazymatch goal with
  | |- steps _ (mbind _ _) => apply steps_bind; [apply _| |intros]
  | |- steps _ (match ?x with _ => _ end) => destruct x
  | |- steps _ (let '_ := ?x in _) => destruct x
  | |- steps _ _ => solve [auto with keeps typeclass_instances]
  end.
Ltac keep := intros; cbn zeta; repeat keep_step.

(** What a function of [f] keeps. *)
Lemma keeps_sub {St A X Y} (f : St → X) (g : X → Y) (m : M St A) : keeps f m → keeps (g ∘ f) m.
Proof. intros Hk s a s' E. unfold same. cbn. by rewrite (Hk s a s' E). Qed.

(** ** The stack *)

(** The pointers to the body and the root. *)
Definition ends (k : HTMLElementStack) : option positive * option positive := (m_bodyElement k, m_rootNode k).

Section Stack.
Context `{Build}.

Lemma keeps_topRecord : keeps ends topRecord.
Proof. intros s r s' E. unfold topRecord in E. destruct (m_top s); [done|]. by injection E as _ <-. Qed.
#[local] Hint Resolve keeps_topRecord : keeps.
Lemma keeps_top : keeps ends top.
Proof. unfold top. keep. Qed.
Lemma keeps_topStackItem : keeps ends topStackItem.
Proof. unfold topStackItem. keep. Qed.
#[local] Hint Resolve keeps_top keeps_topStackItem : keeps.
Lemma keeps_popCommon : keeps ends popCommon.
Proof. unfold popCommon. keep. Qed.
#[local] Hint Resolve keeps_popCommon : keeps.
Lemma keeps_pop : keeps ends pop.
Proof. unfold pop. keep. Qed.
#[local] Hint Resolve keeps_pop : keeps.
Lemma keeps_popLoop stop : keeps ends (popLoop stop).
Proof. unfold popLoop. keep. generalize (S a) as fuel. induction fuel; cbn [popWhile]; keep; done. Qed.
#[local] Hint Resolve keeps_popLoop : keeps.
Lemma keeps_popUntilPopped tagName : keeps ends (popUntilPopped tagName).
Proof. unfold popUntilPopped, popUntil. keep. Qed.
Lemma keeps_popHeader : keeps ends popUntilNumberedHeaderElementPopped.
Proof. unfold popUntilNumberedHeaderElementPopped. keep. Qed.
Lemma keeps_popForeign : keeps ends popUntilForeignContentScopeMarker.
Proof. unfold popUntilForeignContentScopeMarker. keep. Qed.
Lemma keeps_popUntilElementPopped element : keeps ends (popUntilElementPopped element).
Proof. unfold popUntilElementPopped, popUntilElement. keep. generalize (S a) as fuel. induction fuel; cbn [popWhileNot]; keep; done. Qed.
Lemma keeps_pushCommon item : keeps ends (pushCommon item).
Proof. unfold pushCommon, newRecord. keep. Qed.
#[local] Hint Resolve keeps_pushCommon : keeps.
Lemma keeps_push item : keeps ends (push item).
Proof. unfold push, assertOrdinary. keep. Qed.
#[local] Hint Resolve keeps_push : keeps.
Lemma keeps_insertAbove item below : keeps ends (insertAbove item below).
Proof. unfold insertAbove, assertOrdinary, newRecord. keep. Qed.
Lemma keeps_remove element : keeps ends (HTMLElementStack.remove element).
Proof. unfold HTMLElementStack.remove, removeNonTopCommon. keep. Qed.
Lemma keeps_replaceElement address item : keeps ends (HTMLElementStack.replaceElement address item).
Proof. apply steps_modifyOpt. intros s s'. destruct (replaceRecord _ _ _); [|done]. by intros [= <-]. Qed.
Lemma keeps_find element : keeps ends (HTMLElementStack.find element).
Proof. unfold HTMLElementStack.find. keep. Qed.
#[local] Hint Resolve keeps_find : keeps.
Lemma keeps_contains element : keeps ends (HTMLElementStack.contains element).
Proof. unfold HTMLElementStack.contains. keep. Qed.
Lemma keeps_topmost tagName : keeps ends (topmost tagName).
Proof. unfold topmost. keep. Qed.
Lemma keeps_scope target marker : keeps ends (scope target marker).
Proof. unfold scope. keep. induction a; cbn [scopeLoop]; keep; done. Qed.
Lemma keeps_rootNode : keeps ends rootNode.
Proof. unfold rootNode. keep. Qed.
Lemma keeps_furthestBlock element : keeps ends (furthestBlockForFormattingElement element).
Proof. unfold furthestBlockForFormattingElement. keep. generalize (@None ElementRecord) as furthest. induction a; intros furthest; cbn [furthestLoop]; keep; done. Qed.

End Stack.

#[export] Hint Resolve keeps_topRecord keeps_top keeps_topStackItem keeps_pop keeps_popUntilPopped keeps_popHeader keeps_popForeign keeps_popUntilElementPopped keeps_push keeps_insertAbove : keeps.
#[export] Hint Resolve keeps_remove keeps_replaceElement keeps_find keeps_contains keeps_topmost keeps_rootNode keeps_furthestBlock : keeps.
#[export] Hint Extern 2 (steps _ (inScope _)) => apply keeps_scope : keeps.
#[export] Hint Extern 2 (steps _ (inScopeElement _)) => apply keeps_scope : keeps.
#[export] Hint Extern 2 (steps _ (inTableScope _)) => apply keeps_scope : keeps.
#[export] Hint Extern 2 (steps _ (inButtonScope _)) => apply keeps_scope : keeps.
#[export] Hint Extern 2 (steps _ (inListItemScope _)) => apply keeps_scope : keeps.
#[export] Hint Extern 2 (steps _ hasTemplateInHTMLScope) => apply keeps_scope : keeps.
#[export] Hint Extern 2 (steps _ hasNumberedHeaderElementInScope) => apply keeps_scope : keeps.

(** ** The nodes *)

(** More nodes, all the others what they are. *)
Definition growing (T T' : Tree) : Prop := grows (document T) (document T').
#[global] Instance growing_preorder : PreOrder growing.
Proof. unfold growing. split; [intros T; reflexivity|]. intros T1 T2 T3 ? ?. by etransitivity. Qed.

Section Nodes.
Context `{Build}.
#[local] Existing Instance quiet.

Lemma steps_getNode n : steps grows (getNode n).
Proof. intros h r h' E. unfold getNode in E. destruct (h !! n); [|done]. by injection E as _ <-. Qed.
#[local] Hint Resolve steps_getNode : keeps.
Lemma steps_field {A} (f : DOMNode → A) n : steps grows (field f n).
Proof. unfold field. keep. Qed.
Lemma steps_upd g n : (∀ r, static (g r) = static r) → steps grows (upd g n).
Proof.
  intros Hg h [] h' E. unfold upd in E. destruct (h !! n) as [r|] eqn:En; [|done]. injection E as <-. intros m r' Hm. destruct (decide (m = n)) as [-> |Hne].
  - rewrite En in Hm. injection Hm as <-. exists (g r). by rewrite lookup_insert_eq.
  - exists r'. by rewrite lookup_insert_ne.
Qed.
#[local] Hint Resolve steps_field : keeps.
#[local] Hint Extern 2 (steps grows (upd _ _)) => apply steps_upd; done : keeps.
Lemma steps_hook p : steps grows (hook p).
Proof. by apply steps_modify. Qed.
#[local] Hint Resolve steps_hook : keeps.
Lemma steps_disconnect n : steps grows (disconnectSubframesIfNeeded n).
Proof. unfold disconnectSubframesIfNeeded. keep. Qed.
#[local] Hint Resolve steps_disconnect : keeps.
Lemma steps_removeBetween this previous next old : steps grows (removeBetween this previous next old).
Proof. unfold removeBetween. keep. Qed.
Lemma steps_exec this child source m : steps grows m → steps grows (executeNodeInsertionWithScriptAssertion this child source m).
Proof. unfold executeNodeInsertionWithScriptAssertion. keep. Qed.
Lemma steps_appendCommon this child : steps grows (appendChildCommon this child).
Proof. unfold appendChildCommon. keep. Qed.
Lemma steps_insertCommon this next child : steps grows (insertBeforeCommon this next child).
Proof. unfold insertBeforeCommon. keep. Qed.
Lemma steps_siblings child : steps grows (siblingsFrom child).
Proof. unfold siblingsFrom. keep. generalize (S a) as fuel. intros fuel. revert child. induction fuel; intros child; cbn [siblingsLoop]; keep; done. Qed.
#[local] Hint Resolve steps_removeBetween steps_exec steps_appendCommon steps_insertCommon steps_siblings : keeps.
Lemma steps_children n : steps grows (collectChildNodes n).
Proof. unfold collectChildNodes. keep. Qed.
#[local] Hint Resolve steps_children : keeps.
Lemma steps_isTemplate n : steps grows (isTemplate n).
Proof. unfold isTemplate. keep. Qed.
Lemma steps_isType t n : steps grows (isType t n).
Proof. unfold isType. keep. Qed.
Lemma steps_notAChild c p : steps grows (notAChild c p).
Proof. unfold notAChild. keep. Qed.
#[local] Hint Resolve steps_isTemplate steps_isType steps_notAChild : keeps.
Lemma steps_append p c : steps grows (parserAppendChild p c).
Proof. unfold parserAppendChild. keep. Qed.
Lemma steps_before p c x : steps grows (parserInsertBefore p c x).
Proof. unfold parserInsertBefore. keep. Qed.
Lemma steps_removeNode p c source : steps grows (removeNodeWithScriptAssertion p c source).
Proof. unfold removeNodeWithScriptAssertion, isContainerNode. keep. Qed.
#[local] Hint Resolve steps_append steps_before steps_removeNode : keeps.
Lemma steps_removeChild p c : steps grows (parserRemoveChild p c).
Proof. unfold parserRemoveChild. keep. Qed.
Lemma steps_removeAll p source defer : steps grows (removeAllChildrenWithScriptAssertion p source defer).
Proof.
  assert (Hl : ∀ fuel, steps grows (removeAllLoop fuel p)) by (induction fuel; cbn [removeAllLoop]; keep; done).
  assert (He : ∀ children, steps grows (removalEventsLoop children)) by (induction children; cbn [removalEventsLoop]; keep; done). unfold removeAllChildrenWithScriptAssertion. keep; auto.
Qed.
#[local] Hint Resolve steps_removeChild steps_removeAll : keeps.
Lemma steps_allowed p c : steps grows (isChildTypeAllowed p c).
Proof.
  assert (Ht : ∀ nodes, steps grows (typesOf nodes)) by (induction nodes; cbn [typesOf]; keep; done).
  assert (Hc : ∀ t, steps grows (childTypeAllowed p t)) by (unfold childTypeAllowed; keep; auto). assert (Ha : ∀ nodes, steps grows (allAllowed p nodes)) by (induction nodes; cbn [allAllowed]; keep; auto).
  unfold isChildTypeAllowed. keep; auto.
Qed.
Lemma steps_firstOfType t nodes : steps grows (firstOfType t nodes).
Proof. induction nodes; cbn [firstOfType]; keep; done. Qed.
#[local] Hint Resolve steps_allowed steps_firstOfType : keeps.
Lemma steps_preceded n : steps grows (hasPreviousElementSibling n).
Proof. unfold hasPreviousElementSibling. keep. generalize (S a) as fuel. intros fuel. revert n. induction fuel; intros n; cbn [precededByElement]; keep; done. Qed.
#[local] Hint Resolve steps_preceded : keeps.
Lemma steps_canAccept this child ref op : steps grows (canAcceptChild this child ref op).
Proof.
  unfold canAcceptChild. generalize 2%nat as fuel. intros fuel. revert child. induction fuel as [|fuel IH]; intros child; cbn [canAcceptLoop]; keep. 
  match goal with |- steps _ (?f false _) => enough (Hf : ∀ l seen, steps grows (f seen l)) by apply Hf end. induction l as [|x l IHl]; intros seen; keep; auto.
Qed.
Lemma steps_contains a n : steps grows (containsIncludingHostElements a n).
Proof. unfold containsIncludingHostElements. keep. generalize (S a0) as fuel. intros fuel. revert n. induction fuel; intros n; cbn [containsLoop]; keep; done. Qed.
#[local] Hint Resolve steps_canAccept steps_contains : keeps.
Lemma steps_validity p c x : steps grows (ensurePreInsertionValidity p c x).
Proof. unfold ensurePreInsertionValidity, checkAcceptChild, ASSERT_allowed. keep. Qed.
#[local] Hint Resolve steps_validity : keeps.
Lemma steps_takeAll p c : steps grows (takeAllChildrenFrom p c).
Proof.
  assert (Hl : ∀ children, steps grows (takeLoop p children)) by (induction children; cbn [takeLoop]; unfold RELEASE_ASSERT; keep; done). unfold takeAllChildrenFrom. keep; auto.
Qed.
#[local] Hint Resolve steps_takeAll : keeps.

(** ** The tasks *)

Lemma steps_inDOM {A} (m : M Heap A) : steps grows m → steps growing (inDOM m).
Proof. intros Hm. by eapply steps_part. Qed.
#[local] Hint Resolve steps_inDOM : keeps.
Lemma steps_allocate type name host : steps growing (allocate type name host).
Proof.
  unfold allocate. intros T n T' E. injection E as <- <-. intros m r Hr. exists r. split; [|done]. cbn. rewrite lookup_insert_ne; [done|]. intros <-. cbn in Hr. by rewrite (fresh_none (document T)) in Hr.
Qed.
#[local] Hint Resolve steps_allocate : keeps.
Lemma steps_templateContent n : steps growing (templateContent n).
Proof. unfold templateContent. keep. apply steps_modify. intros T. unfold growing. cbn. reflexivity. Qed.
#[local] Hint Resolve steps_templateContent : keeps.
Lemma steps_insertNode task : steps growing (insertNode task).
Proof. unfold insertNode. keep. Qed.
Lemma steps_removeFromParent c : steps growing (removeFromParent c).
Proof. unfold removeFromParent. keep. Qed.
#[local] Hint Resolve steps_insertNode steps_removeFromParent : keeps.
Lemma steps_already task : steps growing (executeInsertAlreadyParsedChildTask task).
Proof. unfold executeInsertAlreadyParsedChildTask. keep. Qed.
Lemma steps_reparent task : steps growing (executeReparentTask task).
Proof. unfold executeReparentTask. keep. Qed.
Lemma steps_takeTask task : steps growing (executeTakeAllChildrenAndReparentTask task).
Proof. unfold executeTakeAllChildrenAndReparentTask. keep; apply steps_inDOM; unfold RELEASE_ASSERT; keep. Qed.

End Nodes.

#[export] Hint Resolve steps_field steps_isType steps_inDOM steps_allocate steps_insertNode steps_already steps_reparent steps_takeTask : keeps.

(** ** The site *)

Definition frame (s : HTMLConstructionSite) : gmap positive (list Z) * (option positive * option positive) * (option HTMLStackItem * option positive * bool) :=
  (dataOf s, ends (m_openElements s), (m_head s, m_form s, m_redirectAttachToFosterParent s)).
Definition around (s s' : HTMLConstructionSite) : Prop := frame s' = frame s ∧ growing (tree s) (tree s').
#[global] Instance around_preorder : PreOrder around.
Proof. unfold around. split; [intros x; split; [done|reflexivity]|]. intros x y z [? ?] [? ?]. split; [congruence|by etransitivity]. Qed.

#[export] Hint Extern 2 (steps around (modify _)) => apply steps_modify; intros ?; split; [done|unfold growing; cbn; reflexivity] : keeps.

Section Site.
Context `{Build} `{Parser}.
#[local] Existing Instance quiet.

Lemma keeps_onStack {A} (m : M HTMLElementStack A) : keeps ends m → steps around (onStack m).
Proof. intros Hm. eapply steps_part; [exact Hm|]. intros k s Hk. unfold same in Hk. split; [unfold frame; cbn; by rewrite Hk|unfold growing; cbn; reflexivity]. Qed.
Lemma keeps_onList {A} (m : M (list Entry) A) : steps around (onList m).
Proof. eapply (steps_part around (λ _ _, True)); [done|]. intros x s _. split; [done|unfold growing; cbn; reflexivity]. Qed.
Lemma keeps_onTree {A} (m : M Tree A) : steps growing m → steps around (onTree m).
Proof. intros Hm. by eapply steps_part. Qed.
#[local] Hint Resolve keeps_onStack keeps_onList keeps_onTree : keeps.
Lemma keeps_onDOM {A} (m : M Heap A) : steps grows m → steps around (onDOM m).
Proof. intros Hm. by apply keeps_onTree, steps_inDOM. Qed.
#[local] Hint Resolve keeps_onDOM : keeps.

Lemma keeps_createElement name attributes : steps around (createElement name attributes).
Proof. unfold createElement, createNode, setAttributes. keep. Qed.
#[local] Hint Resolve keeps_createElement : keeps.
Lemma keeps_createHTMLElement token : steps around (createHTMLElement token).
Proof. unfold createHTMLElement, createHTMLElementOrFindCustomElementInterface. keep. Qed.
Lemma keeps_createElementFromSavedToken item : steps around (createElementFromSavedToken item).
Proof. unfold createElementFromSavedToken, createHTMLElement, createHTMLElementOrFindCustomElementInterface. keep. Qed.
Lemma keeps_executeTask task : steps around (executeTask task).
Proof. unfold executeTask, executeInsertTask. keep. Qed.
Lemma keeps_enqueue task : steps around (enqueue task).
Proof. unfold enqueue. keep. Qed.
Lemma keeps_currentNode : steps around currentNode.
Proof. unfold currentNode, currentStackItem. keep. Qed.
Lemma keeps_shouldFosterParent : steps around shouldFosterParent.
Proof. unfold shouldFosterParent, currentStackItem. keep. Qed.
Lemma keeps_next r : steps around (next r).
Proof. unfold next. keep. Qed.
#[local] Hint Resolve keeps_createHTMLElement keeps_createElementFromSavedToken keeps_executeTask keeps_enqueue keeps_currentNode keeps_shouldFosterParent keeps_next : keeps.
Lemma keeps_executeQueuedTasks : steps around executeQueuedTasks.
Proof.
  assert (Hall : ∀ queue, steps around (executeTasks queue)) by (induction queue; cbn [executeTasks]; keep; done). unfold executeQueuedTasks. keep; auto.
Qed.
Lemma keeps_canBeFosterParent p : steps around (canBeFosterParent p).
Proof. unfold canBeFosterParent, isTemplateContent. keep. Qed.
#[local] Hint Resolve keeps_executeQueuedTasks keeps_canBeFosterParent : keeps.
Lemma keeps_findFosterSite : steps around findFosterSite.
Proof. unfold findFosterSite. keep. Qed.
#[local] Hint Resolve keeps_findFosterSite : keeps.
Lemma keeps_attachLater parent child sc : steps around (attachLater parent child sc).
Proof. unfold attachLater, fosterParent. keep. Qed.
#[local] Hint Resolve keeps_attachLater : keeps.

Lemma keeps_insertHTMLElement token : steps around (insertHTMLElement token).
Proof. unfold insertHTMLElement. keep. Qed.
#[local] Hint Resolve keeps_insertHTMLElement : keeps.
Lemma keeps_insertFormattingElement token : steps around (insertFormattingElement token).
Proof. unfold insertFormattingElement, currentStackItem. keep. Qed.
Lemma keeps_insertForeignElement token ns : steps around (insertForeignElement token ns).
Proof. unfold insertForeignElement. keep. Qed.
Lemma keeps_insertScriptElement token : steps around (insertScriptElement token).
Proof. unfold insertScriptElement. keep. Qed.
Lemma keeps_insertSelfClosing token : steps around (insertSelfClosingHTMLElement token).
Proof. unfold insertSelfClosingHTMLElement. keep. Qed.
Lemma keeps_reconstruct : steps around reconstructTheActiveFormattingElements.
Proof.
  assert (Hu : ∀ index, steps around (unopenLoop index)) by (induction index; cbn [unopenLoop]; keep; done).
  assert (Hr : ∀ count index, steps around (reconstructLoop count index)) by (induction count; cbn [reconstructLoop]; keep; done).
  unfold reconstructTheActiveFormattingElements, indexOfFirstUnopenFormattingElement. keep; auto.
Qed.
Lemma keeps_impliedLoop fuel excluded : steps around (impliedLoop fuel excluded).
Proof. induction fuel; cbn [impliedLoop]; unfold currentStackItem; keep; done. Qed.
#[local] Hint Resolve keeps_impliedLoop : keeps.
Lemma keeps_implied : steps around generateImpliedEndTags.
Proof. unfold generateImpliedEndTags. keep. Qed.
Lemma keeps_impliedExcept tagName : steps around (generateImpliedEndTagsWithExclusion tagName).
Proof. unfold generateImpliedEndTagsWithExclusion. keep. Qed.
#[local] Hint Resolve keeps_impliedExcept : keeps.
Lemma keeps_anyOther tagName : steps around (processAnyOtherEndTagForInBody tagName).
Proof.
  assert (Hl : ∀ records, steps around (anyOtherLoop tagName records)) by (induction records; cbn [anyOtherLoop]; unfold currentStackItem; keep; done).
  unfold processAnyOtherEndTagForInBody. keep; auto.
Qed.
#[local] Hint Resolve keeps_anyOther : keeps.
Lemma keeps_deref r : steps around (deref r).
Proof. unfold deref. keep. Qed.
#[local] Hint Resolve keeps_deref : keeps.
Lemma keeps_nextPointer r : steps around (nextPointer r).
Proof. unfold nextPointer. keep. Qed.
#[local] Hint Resolve keeps_nextPointer : keeps.
Lemma keeps_adopt element record block : steps around (adopt element record block).
Proof.
  assert (Hl : ∀ count r b nextNode lastNode bookmark, steps around (innerLoop count r b nextNode lastNode bookmark)) by (induction count; cbn [innerLoop]; unfold reparent; keep; done).
  unfold adopt, insertAlreadyParsedChild, takeAllChildrenAndReparent. keep; auto.
Qed.
#[local] Hint Resolve keeps_adopt : keeps.
Lemma keeps_adoptionAgency tagName : steps around (callTheAdoptionAgency tagName).
Proof. unfold callTheAdoptionAgency. generalize outerIterationLimit as count. induction count; cbn [outerLoop]; unfold outerStep; keep; done. Qed.

End Site.

#[export] Hint Resolve keeps_onStack keeps_onList keeps_onTree keeps_onDOM keeps_executeQueuedTasks keeps_insertHTMLElement keeps_insertFormattingElement : keeps.
#[export] Hint Resolve keeps_insertForeignElement keeps_insertScriptElement keeps_insertSelfClosing : keeps.
#[export] Hint Resolve keeps_reconstruct keeps_implied keeps_impliedExcept keeps_anyOther keeps_adoptionAgency : keeps.

(** ** The character data *)

(** What the start of a document keeps too: the character data and the nodes. *)
Definition dataAround (s s' : HTMLConstructionSite) : Prop := dataOf s' = dataOf s ∧ growing (tree s) (tree s').
#[global] Instance dataAround_preorder : PreOrder dataAround.
Proof. unfold dataAround. split; [intros x; split; [done|reflexivity]|]. intros x y z [? ?] [? ?]. split; [congruence|by etransitivity]. Qed.

Lemma around_data s s' : around s s' → dataAround s s'.
Proof. intros [[= E _ _ _ _ _] ?]. done. Qed.
Lemma steps_data {A} (m : CM A) : steps around m → steps dataAround m.
Proof. intros Hm s a s' E. by eapply around_data, Hm. Qed.
Lemma steps_stackData {A} (m : M HTMLElementStack A) : steps dataAround (onStack m).
Proof. eapply (steps_part dataAround (λ _ _, True)); [done|]. intros x s _. split; [done|unfold growing; cbn; reflexivity]. Qed.

(** What the start of a document keeps: the form and the redirection too. *)
Definition startAround (s s' : HTMLConstructionSite) : Prop := (dataOf s', m_form s', m_redirectAttachToFosterParent s') = (dataOf s, m_form s, m_redirectAttachToFosterParent s) ∧ growing (tree s) (tree s').
#[global] Instance startAround_preorder : PreOrder startAround.
Proof. unfold startAround. split; [intros x; split; [done|reflexivity]|]. intros x y z [? ?] [? ?]. split; [congruence|by etransitivity]. Qed.

Lemma steps_start {A} (m : CM A) : steps around m → steps startAround m.
Proof. intros Hm s a s' E. apply Hm in E as [[= E1 _ _ _ E2 E3] Hg]. split; [congruence|done]. Qed.
Lemma start_data {A} (m : CM A) : steps startAround m → steps dataAround m.
Proof. intros Hm s a s' E. apply Hm in E as [[= E _ _] Hg]. by split. Qed.
Lemma steps_stackStart {A} (m : M HTMLElementStack A) : steps startAround (onStack m).
Proof. eapply (steps_part startAround (λ _ _, True)); [done|]. intros x s _. split; [done|unfold growing; cbn; reflexivity]. Qed.

#[export] Hint Resolve steps_stackData steps_stackStart : keeps.
#[export] Hint Extern 2 (steps dataAround (modify _)) => apply steps_modify; intros ?; split; [done|unfold growing; cbn; reflexivity] : keeps.
#[export] Hint Extern 2 (steps startAround (modify _)) => apply steps_modify; intros ?; split; [done|unfold growing; cbn; reflexivity] : keeps.
#[export] Hint Extern 5 (steps dataAround _) => apply steps_data; solve [auto with keeps] : keeps.
#[export] Hint Extern 5 (steps startAround _) => apply steps_start; solve [auto with keeps] : keeps.

Section Data.
Context `{Build} `{Parser}.
#[local] Existing Instance quiet.

Lemma keeps_insertHTMLFormElement token : steps dataAround (insertHTMLFormElement token).
Proof. unfold insertHTMLFormElement. keep; apply steps_data; [apply keeps_createHTMLElement|apply keeps_currentNode|apply keeps_attachLater]. Qed.
Lemma start_insertHead token : steps startAround (insertHTMLHeadElement token).
Proof. unfold insertHTMLHeadElement, assertNotFostering. keep; apply steps_start; [apply keeps_shouldFosterParent|apply keeps_createHTMLElement|apply keeps_currentNode|apply keeps_attachLater]. Qed.
Lemma start_insertBody token : steps startAround (insertHTMLBodyElement token).
Proof. unfold insertHTMLBodyElement, assertNotFostering. keep; apply steps_start; [apply keeps_shouldFosterParent|apply keeps_createHTMLElement|apply keeps_currentNode|apply keeps_attachLater]. Qed.
Lemma start_insertHtml token : steps startAround (insertHTMLHtmlStartTagBeforeHTML token).
Proof. unfold insertHTMLHtmlStartTagBeforeHTML. keep; apply steps_start; [apply keeps_createElement|apply keeps_attachLater]. Qed.
Lemma keeps_insertHead token : steps dataAround (insertHTMLHeadElement token).
Proof. apply start_data, start_insertHead. Qed.
Lemma keeps_insertBody token : steps dataAround (insertHTMLBodyElement token).
Proof. apply start_data, start_insertBody. Qed.
Lemma keeps_insertHtml token : steps dataAround (insertHTMLHtmlStartTagBeforeHTML token).
Proof. apply start_data, start_insertHtml. Qed.

End Data.

#[export] Hint Resolve keeps_insertHTMLFormElement keeps_insertHead keeps_insertBody keeps_insertHtml start_insertHead start_insertBody start_insertHtml : keeps.
