(* ===== verification/TextNodes.v ===== *)
(** * Text nodes

    What the parts of [insertTextNode] do when no script runs: the data that is appended, the new
    text nodes and their tasks. *)

From Stdlib Require Import String.
From S2P Require Import Prelude HTMLStackItem HTMLElementStack HTMLFormattingElementList ContainerNode ContainerNodeLists ContainerNodeCorrect ContainerNodeScripts ContainerNodeTheorems.
From S2P Require Import TreeOrder HTMLConstructionSite TreeTasks SiteInvariant SiteOperations.

#[local] Open Scope string_scope.
#[local] Open Scope list_scope.

Definition dataAt (s : HTMLConstructionSite) (n : positive) : list Z := default [] (dataOf s !! n).
Definition withData (n : positive) (data : list Z) (s : HTMLConstructionSite) : HTMLConstructionSite := set_dataOf (<[n := data]> (dataOf s)) s.

Lemma lengthZ_nonneg l : (0 ≤ lengthZ l)%Z.
Proof. unfold lengthZ. lia. Qed.

Section Quiet.
Context `{Build} `{Parser}.
#[local] Existing Instance quiet.

(** The break iterator finds a boundary at or before the limit. *)
Definition breaksBefore : Prop := ∀ buffer limit, (0 ≤ limit)%Z → (0 ≤ characterBreak buffer limit ≤ limit)%Z.
Context (Hbreak : breaksBefore).

(** ** Appending to a text node *)

(** What the computation of the length gives. *)
Lemma appendLength_ok (buffer : list Z) characterLength room :
  (0 ≤ characterLength ≤ maxUnsigned)%Z →
  let limit := Z.min (u32 characterLength) (u32 room) in
  let result := if (limit <? u32 characterLength)%Z then characterBreak buffer limit else limit in
  (0 ≤ result ≤ characterLength)%Z.
Proof.
  cbn zeta. intros Hc. assert (E : u32 characterLength = characterLength) by (unfold u32, maxUnsigned in *; by rewrite Z.mod_small by lia). rewrite E.
  assert (Hr : (0 ≤ u32 room)%Z) by (unfold u32; apply Z.mod_pos_bound; lia). destruct (Z.ltb_spec (Z.min characterLength (u32 room)) characterLength).
  - pose proof (Hbreak buffer (Z.min characterLength (u32 room))). lia.
  - lia.
Qed.

(** How many of the characters [rest] are let into a text node that has [old] ones: all of them
    when the limit leaves room, and otherwise those before the last break. *)
Definition pieceLength (limit old : Z) (rest : list Z) : nat :=
  let room := (limit - old)%Z in
  if (lengthZ rest <=? room)%Z then length rest else Z.to_nat (characterBreak (take (Z.to_nat (room + 2)) rest) room).

Lemma pieceLength_le limit old rest : (old ≤ limit)%Z → (pieceLength limit old rest ≤ length rest)%nat.
Proof using Hbreak.
  intros Ho. unfold pieceLength. destruct (Z.leb_spec (lengthZ rest) (limit - old)); [done|]. pose proof (Hbreak (take (Z.to_nat (limit - old + 2)) rest) (limit - old)). unfold lengthZ in *. lia.
Qed.

(** The count that [parserAppendData] computes. *)
Lemma pieceLength_code limit old (rest : list Z) :
  (old ≤ limit)%Z → (limit - old ≤ maxUnsigned)%Z → (lengthZ rest ≤ maxUnsigned)%Z →
  let least := Z.min (u32 (lengthZ rest)) (u32 (limit - old)) in
  (if (least <? u32 (lengthZ rest))%Z then characterBreak (take (Z.to_nat (if (u32 (lengthZ rest) <? least + 2)%Z then u32 (lengthZ rest) else least + 2)) rest) least else least) = Z.of_nat (pieceLength limit old rest).
Proof using Hbreak.
  intros Ho Hm Hr. cbv zeta. pose proof (lengthZ_nonneg rest). assert (E1 : u32 (lengthZ rest) = lengthZ rest) by (unfold u32, maxUnsigned in *; by rewrite Z.mod_small by lia).
  assert (E2 : u32 (limit - old) = (limit - old)%Z) by (unfold u32, maxUnsigned in *; by rewrite Z.mod_small by lia). rewrite E1, E2. unfold pieceLength. destruct (Z.leb_spec (lengthZ rest) (limit - old)).
  - rewrite Z.min_l, Z.ltb_irrefl by lia. done.
  - rewrite Z.min_r by lia. rewrite (proj2 (Z.ltb_lt (limit - old) (lengthZ rest))) by lia. pose proof (Hbreak (take (Z.to_nat (limit - old + 2)) rest) (limit - old)). rewrite Z2Nat.id by lia.
    f_equal. destruct (Z.ltb_spec (lengthZ rest) (limit - old + 2)); [|done]. unfold lengthZ in *. rewrite !take_ge by lia. done.
Qed.

Lemma wp_hookQuiet pt (Q : unit → HTMLConstructionSite → Prop) s : Q tt s → wp (onDOM (hook pt)) Q s.
Proof. intros HQ. apply wp_askDOM. unfold hook. apply wp_modify. by split. Qed.

Lemma wp_parserAppendData node string offset limit (Q : Z → HTMLConstructionSite → Prop) s :
  is_Some (doc s !! node) → ASSERT_DISABLED = true ∨ (lengthZ (dataAt s node) ≤ limit)%Z → (0 ≤ offset ≤ lengthZ string)%Z → (lengthZ string ≤ maxUnsigned)%Z →
  (∀ m : nat, (Z.of_nat m ≤ lengthZ string - offset)%Z →
     Q (Z.of_nat m) (if (m =? 0)%nat then s else withData node (dataAt s node ++ take m (drop (Z.to_nat offset) string)) s)) →
  wp (parserAppendData node string offset limit) Q s.
Proof.
  intros [r Hr] Hl Ho Hs HQ. unfold parserAppendData. apply wp_bind, wp_gets. change (default [] (dataOf s !! node)) with (dataAt s node). apply wp_bind.
  assert (Hassert : wp (ASSERT (lengthZ (dataAt s node) <=? limit)%Z) (λ _ s', s' = s) s) by (unfold ASSERT; destruct ASSERT_DISABLED; [by apply wp_ret|]; destruct Hl as [?|Hl]; [done|]; apply Z.leb_le in Hl; rewrite Hl; by apply wp_ret).
  eapply wp_mono; [exact Hassert|]. intros [] s' ->. set (buffer := take _ _).
  assert (Hres := appendLength_ok buffer (lengthZ string - offset) (limit - lengthZ (dataAt s node)) ltac:(lia)). cbn zeta in Hres.
  set (m := if (Z.min _ _ <? _)%Z then _ else _) in *. destruct (Z.eqb_spec m 0) as [E|E].
  - apply wp_ret. specialize (HQ 0%nat). rewrite E in *. apply HQ. lia.
  - apply wp_bind, wp_modify. specialize (HQ (Z.to_nat m)). rewrite Z2Nat.id in HQ by lia. destruct (Nat.eqb_spec (Z.to_nat m) 0); [lia|].
    apply wp_bind. eapply (wp_askField _ node r); [done|]. apply wp_bind. destruct (m_parentNode r).
    + apply wp_hookQuiet, wp_ret, HQ. lia.
    + apply wp_ret, wp_ret, HQ. lia.
Qed.

(** The same, with the number of characters. *)
Lemma wp_parserAppendData_exact node string offset limit (Q : Z → HTMLConstructionSite → Prop) s :
  is_Some (doc s !! node) → (lengthZ (dataAt s node) ≤ limit ≤ maxUnsigned)%Z → (0 ≤ offset ≤ lengthZ string)%Z → (lengthZ string ≤ maxUnsigned)%Z →
  (let rest := drop (Z.to_nat offset) string in let m := pieceLength limit (lengthZ (dataAt s node)) rest in
     Q (Z.of_nat m) (if (m =? 0)%nat then s else withData node (dataAt s node ++ take m rest) s)) →
  wp (parserAppendData node string offset limit) Q s.
Proof using Hbreak.
  intros [r Hr] Hl Ho Hs HQ. unfold parserAppendData. apply wp_bind, wp_gets. change (default [] (dataOf s !! node)) with (dataAt s node). apply wp_bind, wp_ASSERT; [apply Z.leb_le; lia|].
  cbv zeta in HQ. set (rest := drop (Z.to_nat offset) string) in *. pose proof (lengthZ_nonneg (dataAt s node)). assert (El : (lengthZ string - offset)%Z = lengthZ rest) by (unfold rest, lengthZ in *; rewrite length_drop; lia).
  rewrite El, (pieceLength_code limit (lengthZ (dataAt s node)) rest) by lia. set (m := pieceLength _ _ _) in *. destruct (Nat.eqb_spec m 0) as [E|E].
  - rewrite E in *. by apply wp_ret.
  - rewrite (proj2 (Z.eqb_neq _ 0)) by lia. rewrite Nat2Z.id. apply wp_bind, wp_modify, wp_bind. eapply (wp_askField _ node r); [done|]. apply wp_bind. destruct (m_parentNode r); [by apply wp_hookQuiet, wp_ret|by apply wp_ret, wp_ret].
Qed.

(** ** New text nodes *)

Definition newText (n : positive) (data : list Z) (s : HTMLConstructionSite) : HTMLConstructionSite := withData n data (withNode n TEXT_NODE None s).

Lemma wp_createText data (Q : positive → HTMLConstructionSite → Prop) s : (∀ n, doc s !! n = None → Q n (newText n data s)) → wp (createText data) Q s.
Proof.
  intros HQ. unfold createText, createNode. apply wp_bind, wp_onTree. unfold allocate. apply wp_bind, wp_gets. apply wp_bind, wp_modify. apply wp_ret, wp_bind, wp_modify. apply wp_ret, HQ, fresh_none.
Qed.

Lemma newText_data n data data' s : withData n data' (newText n data s) = newText n data' s.
Proof. unfold newText, withData, withNode, set_dataOf, set_tree. cbn. f_equal. apply insert_insert_eq. Qed.

Lemma wp_createWithLengthLimit data start limit (Q : positive → HTMLConstructionSite → Prop) s :
  (0 ≤ limit ≤ maxUnsigned)%Z → (0 ≤ start ≤ lengthZ data)%Z → (lengthZ data ≤ maxUnsigned)%Z →
  (∀ n, doc s !! n = None → let rest := drop (Z.to_nat start) data in Q n (newText n (take (pieceLength limit 0 rest) rest) s)) → wp (createWithLengthLimit data start limit) Q s.
Proof using Hbreak.
  intros Hl Hs Hd HQ. cbv zeta in HQ. unfold createWithLengthLimit. destruct (Z.eqb_spec start 0) as [-> |Hne]; cbn [andb].
  1: destruct (Z.leb_spec (lengthZ data) limit) as [Hle|Hgt].
  1: { apply wp_createText. intros n Hn. specialize (HQ n Hn). cbn in HQ. rewrite drop_0 in HQ. unfold pieceLength in HQ. rewrite Z.sub_0_r, (proj2 (Z.leb_le _ _)) in HQ by done. by rewrite firstn_all in HQ. }
  all: apply wp_bind, wp_createText; intros n Hn; apply wp_bind; assert (Ed : dataAt (newText n [] s) n = []) by (unfold dataAt; cbn; by rewrite lookup_insert_eq).
  all: (apply wp_parserAppendData_exact; [eexists; apply lookup_insert_eq|rewrite Ed; unfold lengthZ; cbn [length]; lia|lia|done|]); cbv zeta; rewrite Ed; apply wp_ret; specialize (HQ n Hn); cbn [app].
  all: change (lengthZ []) with 0%Z; match goal with |- context [(?m =? 0)%nat] => destruct (Nat.eqb_spec m 0) as [E|_] end; [rewrite E in HQ; by rewrite take_0 in HQ|by rewrite newText_data].
Qed.

Lemma shape_newText n data s : shape s → doc s !! n = None → shape (newText n data s).
Proof. intros Hs Hn. destruct (shape_withNode n TEXT_NODE None s Hs Hn). by constructor. Qed.

Lemma newText_extends n data s : doc s !! n = None → extends (doc s) (doc (newText n data s)).
Proof. intros Hn. by apply extends_insert. Qed.

Lemma newText_alone n data s : shape s → doc s !! n = None → alone (doc (newText n data s)) n ∧ typeOf (doc (newText n data s)) n = Some TEXT_NODE.
Proof.
  intros Hs Hn. cbn. split; [|unfold typeOf; by rewrite lookup_insert_eq]. split_and!; [eexists; apply lookup_insert_eq|unfold up, upOf; by rewrite lookup_insert_eq|].
  intros m Hu. pose proof (tree_inv _ (ok_tree _ (shape_newText n data s Hs Hn))) as Hi. destruct (decide (m = n)) as [-> |Hne]; [unfold up, upOf in Hu; cbn in Hu; by rewrite lookup_insert_eq in Hu|].
  destruct (doc s !! m) as [r|] eqn:Em; [|unfold up in Hu; by rewrite lookup_insert_ne, Em in Hu]. destruct (inv_ac _ (tree_inv _ (ok_tree _ Hs)) m) as [l Hw]; [by eexists|].
  assert (Hu' : up (doc s) m = Some n) by (unfold up in *; by rewrite lookup_insert_ne in Hu). inversion Hw as [? ? Hu2|? q l' Hu2 Hw']; subst; [congruence|]. rewrite Hu' in Hu2. injection Hu2 as <-.
  apply way_exists in Hw'. destruct Hw'. congruence.
Qed.

(** A text node that is to be inserted. *)
Record ready (n : positive) (d : list Z) (s s1 : HTMLConstructionSite) : Prop := mkReady {
  ready_shape : shape s1;
  ready_extends : extends (doc s) (doc s1);
  ready_alone : alone (doc s1) n;
  ready_type : typeOf (doc s1) n = Some TEXT_NODE;
  ready_new : doc s !! n = None;
  ready_data : dataOf s1 !! n = Some d;
  ready_others : ∀ m, is_Some (doc s !! m) → dataOf s1 !! m = dataOf s !! m;
  ready_records : records s1 = records s;
}.

Lemma ready_once n d s : shape s → doc s !! n = None → ready n d s (newText n d s).
Proof.
  intros Hs Hn. destruct (newText_alone n d s Hs Hn). constructor; try done; [by apply shape_newText|by apply newText_extends|cbn; apply lookup_insert_eq|].
  intros m [r Hr]. cbn. rewrite lookup_insert_ne; [done|congruence].
Qed.

Lemma ready_again n0 d0 n d s : shape s → doc s !! n0 = None → doc (newText n0 d0 s) !! n = None → ready n d s (newText n d (newText n0 d0 s)).
Proof.
  intros Hs Hn0 Hn. pose proof (ready_once n0 d0 s Hs Hn0) as [_ He _ _ _ _ Ho0 _]. destruct (ready_once n d _ (shape_newText n0 d0 s Hs Hn0) Hn) as [H1 H2 H3 H4 H5 H6 H7 H8].
  assert (Hold : ∀ m, is_Some (doc s !! m) → is_Some (doc (newText n0 d0 s) !! m)) by (intros m [r Hr]; exists r; by eapply extends_lookup).
  constructor; try done; [|destruct (doc s !! n) eqn:E; [|done]; destruct (Hold n); [by eexists|congruence]|intros m Hm; rewrite H7 by auto; auto].
  assert (Hne : n ≠ n0) by (intros ->; cbn in Hn; by rewrite lookup_insert_eq in Hn). split; [etransitivity; [apply He|apply H2]|].
  intros m r Hm Hr. cbn in Hr. destruct (decide (m = n)) as [-> |]; [rewrite lookup_insert_eq in Hr; by injection Hr as <-|]. rewrite lookup_insert_ne in Hr by done.
  destruct (decide (m = n0)) as [-> |]; [rewrite lookup_insert_eq in Hr; by injection Hr as <-|]. rewrite lookup_insert_ne in Hr by done. congruence.
Qed.

Definition matches (next : option positive) (b : list positive) : Prop := match next with Some x => head b = Some x | None => b = [] end.

Lemma matches_unique next (a b a' b' : list positive) : NoDup (a ++ b) → a ++ b = a' ++ b' → matches next b → matches next b' → a = a' ∧ b = b'.
Proof.
  intros Hnd E Hb Hb'. destruct next as [x|]; cbn in *; [|subst; rewrite !app_nil_r in E; by subst]. destruct b as [|y b], b' as [|y' b']; try done. injection Hb as ->. injection Hb' as ->.
  destruct (NoDup_split_unique a b a' b' x Hnd E) as [-> ->]. done.
Qed.

(** The node is put where the task says. *)
Lemma textTask_ok p next n a b (Q : unit → HTMLConstructionSite → Prop) s :
  shape s → alone (doc s) n → typeOf (doc s) n = Some TEXT_NODE → is_Some (doc s !! p) → n ≠ p → tagOf (doc s) p ≠ Some (htmlName "template") → childList (doc s) p = a ++ b → matches next b →
  (∀ s', shape s' → childList (doc s') p = a ++ n :: b → (∀ m, m ≠ p → childList (doc s') m = childList (doc s) m) → sameNodes (doc s) (doc s') → dataOf s' = dataOf s → records s' = records s → Q tt s') →
  wp (executeTask (mkTask Insert p next n false)) Q s.
Proof.
  intros Hs Hal Hty Hp Hnp Htag Hkids Hnext HQ. apply executeTask_ok. cbn [treeTask operation]. pose proof (ok_tree _ Hs) as HT. destruct (tree_inv _ HT) as [k Hk]. pose proof (inv_reps _ _ Hk) as Hr.
  destruct (inv_ac _ (tree_inv _ HT) p Hp) as [lp Hw]. rewrite (childList_reps _ k) in Hkids by done.
  assert (Horphan : parentOf (doc s) n = None) by (destruct (parentOf (doc s) n) eqn:E; [|done]; apply up_parent in E; destruct Hal as (_ & Hu & _); congruence).
  apply (wp_insertNode (mkTask Insert p next n false) lp); cbn [task_child task_parent task_nextChild].
  1: done. 1: done. 1: intros Hin; apply Hnp; by rewrite (alone_not_on _ n p lp Hal Hw Hin). 1: done. 1: by exists TEXT_NODE. 1: intros _; unfold contentType; rewrite Hty; by apply (bool_decide_eq_true_2 _); set_solver.
  { intros x ->. apply (reps_parent _ _ Hr). rewrite Hkids. destruct b as [|y b]; [done|]. injection Hnext as ->. set_solver. }
  intros T1 q h Hd _ Hm HT' [[-> [Hpl Hoth]]|?]; [|done]. destruct Hd as (HT1 & He & Htag1 & _ & [[_ ->]|[Hf Hwq]]).
  - intros e. pose proof Hm as (Hsame & _ & _). rewrite <-(childList_reps _ k) in Hkids by done. destruct Hpl as (a' & b' & Ea & Ea' & Hm'). rewrite Hkids in Ea.
    assert (Hnd : NoDup (a ++ b)) by (rewrite <-Hkids, (childList_reps _ k) by done; apply Hr). destruct (matches_unique next a b a' b' Hnd Ea Hnext Hm') as [<- <-].
    apply HQ; try done. apply shape_executed; [done..|]. by apply sameNodes_grows.
  - exfalso. pose proof (way_extends _ _ _ _ He Hw) as Hw1. pose proof (way_unique _ _ _ _ Hwq Hw1) as El. apply (f_equal length) in El. cbn in El. lia.
Qed.

(** ** The loop *)

(** The sites before and after new text nodes with some chunks of text were inserted into [p]. *)
Record texts (p : positive) (new : list positive) (chunks : list (list Z)) (s s' : HTMLConstructionSite) : Prop := mkTexts {
  texts_shape : shape s';
  texts_grows : grows (doc s) (doc s');
  texts_records : records s' = records s;
  texts_others : ∀ m, is_Some (doc s !! m) → m ≠ p → childList (doc s') m = childList (doc s) m;
  texts_data : ∀ m, is_Some (doc s !! m) → dataOf s' !! m = dataOf s !! m;
  texts_new : Forall2 (λ n d, doc s !! n = None ∧ typeOf (doc s') n = Some TEXT_NODE ∧ dataOf s' !! n = Some d ∧ d ≠ []) new chunks;
}.

Lemma texts_nil p s : shape s → texts p [] [] s s.
Proof. intros Hs. by constructor. Qed.

Lemma texts_cons p n d new chunks s s1 s2 s' :
  ready n d s s1 → d ≠ [] → sameNodes (doc s1) (doc s2) → (∀ m, m ≠ p → childList (doc s2) m = childList (doc s1) m) → dataOf s2 = dataOf s1 → records s2 = records s1 → inv (doc s) →
  texts p new chunks s2 s' → texts p (n :: new) (d :: chunks) s s'.
Proof.
  intros [H1 H2 H3 H4 H5 H6 H7 H8] Hd Hsame Hkids Ed Er Hi [T1 T2 T3 T4 T5 T6]. pose proof (extends_grows _ _ H2) as Hg1. pose proof (sameNodes_grows _ _ Hsame) as Hg2.
  assert (Hex : ∀ m, is_Some (doc s !! m) → is_Some (doc s2 !! m)) by (intros m Hm; eapply grows_lookup; [done|]; by eapply grows_lookup). constructor; [done|..].
  - etransitivity; [done|]. by etransitivity.
  - congruence.
  - intros m Hm Hne. rewrite T4, Hkids by auto. by apply extends_childList.
  - intros m Hm. rewrite T5, Ed by auto. auto.
  - constructor.
    + split_and!; [done| | |done]; [eapply grows_typeOf; [exact T2|]; by rewrite (sameNodes_typeOf (doc s1))|]. rewrite T5, Ed; [done|]. eapply grows_lookup; [exact Hg2|]. apply H3.
    + eapply Forall2_impl; [exact T6|]. intros m c (? & ? & ? & ?). split_and!; try done. destruct (doc s !! m) eqn:E; [|done]. destruct (Hex m); [by eexists|congruence].
Qed.

Lemma take_whole {A} (n : nat) (l : list A) : take n l ++ drop n l = l.
Proof. apply take_drop. Qed.

(** How text is cut into the data of new text nodes: each gets as much as the limit and the breaks allow, or
    all that is left when there is no break. *)
Inductive cut (limit : Z) : list Z → list (list Z) → Prop :=
  | cut_nil : cut limit [] []
  | cut_cons rest chunks : rest ≠ [] →
      let m := pieceLength limit 0 rest in let n := if (m =? 0)%nat then length rest else m in
      cut limit (drop n rest) chunks → cut limit rest (take n rest :: chunks).

Lemma cut_concat limit rest chunks : cut limit rest chunks → concat chunks = rest.
Proof. induction 1 as [|rest chunks Hr m n Hc IH]; cbn [concat]; [done|]. rewrite IH. apply take_drop. Qed.

Lemma textLoop_ok fuel p next characters limit pos a b s :
  shape s → is_Some (doc s !! p) → tagOf (doc s) p ≠ Some (htmlName "template") → childList (doc s) p = a ++ b → matches next b →
  (0 ≤ limit ≤ maxUnsigned)%Z → (0 ≤ pos ≤ lengthZ characters)%Z → (lengthZ characters ≤ maxUnsigned)%Z → (lengthZ characters - pos ≤ Z.of_nat fuel)%Z →
  wp (textLoop fuel p next characters limit pos) (λ _ s', ∃ new chunks, childList (doc s') p = a ++ new ++ b ∧ cut limit (drop (Z.to_nat pos) characters) chunks ∧ texts p new chunks s s') s.
Proof using Hbreak.
  revert pos a s. induction fuel as [|fuel IH]; intros pos a s Hs Hp Htag Hkids Hnext Hl Hpos Hlen Hf; cbn [textLoop]; (destruct (Z.leb_spec (lengthZ characters) pos) as [Hle|Hgt]; [|try lia]).
  1, 2: apply wp_ret; exists [], []; split_and!; [done|rewrite drop_ge by (unfold lengthZ in *; lia); constructor|by apply texts_nil].
  set (rest := drop (Z.to_nat pos) characters). assert (Hrest : length rest = Z.to_nat (lengthZ characters - pos)) by (unfold rest; rewrite length_drop; unfold lengthZ; lia).
  assert (Hne : rest ≠ []) by (intros E; rewrite E in Hrest; cbn in Hrest; lia). set (m := pieceLength limit 0 rest). set (k := if (m =? 0)%nat then length rest else m).
  assert (Hstep : ∀ n s1, ready n (take k rest) s s1 → (0 < k ≤ length rest)%nat →
    wp (length ← textLength n; ASSERT (pos + length <=? lengthZ characters)%Z;; executeTask (mkTask Insert p next n false);; textLoop fuel p next characters limit (pos + length))
      (λ _ s', ∃ new chunks, childList (doc s') p = a ++ new ++ b ∧ cut limit rest chunks ∧ texts p new chunks s s') s1).
  { intros n s1 Hready Hk. pose proof Hready as [H1 H2 H3 H4 H5 H6 H7 H8]. unfold textLength. apply wp_bind, wp_gets. rewrite H6. cbn [default from_option id].
    assert (Hd : lengthZ (take k rest) = Z.of_nat k) by (unfold lengthZ; rewrite length_take; lia). rewrite Hd. apply wp_bind, wp_ASSERT; [apply Z.leb_le; lia|]. destruct Hp as [rp Hrp].
    pose proof (extends_lookup _ _ _ _ H2 Hrp) as Hrp1. apply wp_bind. eapply (textTask_ok p next n a b); [done|done|done|by eexists|congruence| | |done|].
    - unfold tagOf in *. rewrite Hrp1. by rewrite Hrp in Htag.
    - rewrite (extends_childList (doc s)); [done|apply (tree_inv _ (ok_tree _ Hs))|done].
    - intros s2 Hs2 Hk2 Ho2 Hsame2 Hd2 Hr2. eapply wp_mono.
      + apply (IH (pos + Z.of_nat k)%Z (a ++ [n]) s2); try done; [apply (sameNodes_dom _ _ _ Hsame2); by eexists| |by rewrite <-app_assoc|lia|lia].
        rewrite (sameNodes_tagOf (doc s1)) by done. unfold tagOf in *. rewrite Hrp1. by rewrite Hrp in Htag.
      + intros [] s' (new & chunks & Hk' & Hc & Ht). exists (n :: new), (take k rest :: chunks). split_and!; [by rewrite Hk', <-app_assoc| |].
        * apply cut_cons; [done|]. replace (drop _ rest) with (drop (Z.to_nat (pos + Z.of_nat k)) characters); [exact Hc|]. unfold rest. rewrite drop_drop. f_equal. fold rest m k. lia.
        * eapply texts_cons; [done|..]; try done; [|apply (tree_inv _ (ok_tree _ Hs))]. intros E. rewrite E in Hd. unfold lengthZ in Hd. cbn in Hd. lia. }
  pose proof (pieceLength_le limit 0 rest ltac:(lia)) as Hm. fold m in Hm.
  apply wp_bind, wp_createWithLengthLimit; [done..|]. intros n Hn. cbv zeta. fold rest m. apply wp_bind. unfold textLength at 1. apply wp_gets. cbn [newText withData set_dataOf dataOf]. rewrite lookup_insert_eq. cbn [default from_option id].
  assert (Hd : lengthZ (take m rest) = Z.of_nat m) by (unfold lengthZ; rewrite length_take; lia). rewrite Hd. apply wp_bind. unfold k in Hstep. destruct (Nat.eqb_spec m 0) as [E|E].
  - rewrite E. cbn [Z.of_nat Z.eqb]. apply wp_createText. intros n2 Hn2. rewrite firstn_all in Hstep. apply (Hstep n2); [by apply ready_again|]. destruct rest; [done|cbn; lia].
  - rewrite (proj2 (Z.eqb_neq _ 0)) by lia. apply wp_ret. apply (Hstep n); [by apply ready_once|lia].
Qed.

(** ** The place of the text *)

(** Text goes to the end of the current node, or to the place of what is foster-parented. *)
Definition textPlace (s : HTMLConstructionSite) (p : positive) (next : option positive) : Prop :=
  (∃ r, head (records s) = Some r ∧ p = stackNode r ∧ next = None) ∨ ∃ d, fosterPlace s d p next.

Lemma textPlace_exists s p next : shape s → textPlace s p next → is_Some (doc s !! p).
Proof.
  intros Hs [(r & Hr & -> & ->)|(d & Hd)]; [|by eapply fosterPlace_ok]. eapply sound_exists, (ok_sound _ Hs). by apply head_Some_elem_of in Hr.
Qed.

Lemma textPlace_next s p next : shape s → textPlace s p next → ∀ x, next = Some x → parentOf (doc s) x = Some p.
Proof. intros Hs [(r & Hr & -> & ->)|(d & Hd)] x Hx; [done|]. by eapply fosterPlace_ok. Qed.

Lemma textPlace_split s p next : shape s → textPlace s p next → is_Some (doc s !! p) ∧ ∃ a b, childList (doc s) p = a ++ b ∧ matches next b.
Proof.
  intros Hs Hpl. pose proof (textPlace_exists s p next Hs Hpl) as Hp. pose proof (textPlace_next s p next Hs Hpl) as Hn. split; [done|].
  destruct (tree_inv _ (ok_tree _ Hs)) as [k Hk]. rewrite (childList_reps _ k) by (done || apply Hk). destruct next as [x|].
  - specialize (Hn x eq_refl). apply (reps_parent _ _ (inv_reps _ _ Hk)) in Hn. apply list_elem_of_split in Hn as (a & b & ->). by exists a, (x :: b).
  - exists (k p), []. by rewrite app_nil_r.
Qed.

Lemma wp_previousChild s p next a b (Q : option positive → HTMLConstructionSite → Prop) :
  shape s → is_Some (doc s !! p) → childList (doc s) p = a ++ b → matches next b → Q (last a) s →
  wp (match next with Some x => onDOM (field m_previous x) | None => onDOM (field m_lastChild p) end) Q s.
Proof.
  intros Hs [r Hr] Ek Hm HQ. destruct (tree_inv _ (ok_tree _ Hs)) as [k Hk]. rewrite (childList_reps _ k) in Ek by (apply Hk || by eexists). destruct next as [x|]; cbn in Hm.
  - destruct b as [|y b]; [done|]. injection Hm as ->. destruct (reps_child _ _ _ _ _ _ (inv_reps _ _ Hk) Ek) as (rx & Hrx & _ & Hprev & _). eapply wp_askField; [done|]. by rewrite Hprev.
  - subst b. rewrite app_nil_r in Ek. eapply wp_askField; [done|]. by rewrite (ok_last _ _ _ (reps_ok _ _ (inv_reps _ _ Hk) p r Hr)), Ek.
Qed.

Lemma wp_isTextNode n (Q : bool → HTMLConstructionSite → Prop) s : is_Some (doc s !! n) → (∀ isText : bool, (isText = true → typeOf (doc s) n ∈ Some <$> [TEXT_NODE; CDATA_SECTION_NODE]) → Q isText s) → wp (isTextNode n) Q s.
Proof.
  intros [r Hr] HQ. unfold isTextNode. apply wp_bind. eapply wp_askField; [done|]. apply wp_ret, HQ. intros Ht%bool_decide_eq_true. unfold typeOf. rewrite Hr. by apply (list_elem_of_fmap_2 Some).
Qed.

Lemma lastChild_exists s p a b n : shape s → is_Some (doc s !! p) → childList (doc s) p = a ++ b → last a = Some n → is_Some (doc s !! n).
Proof.
  intros Hs Hp Ek Hl. destruct (tree_inv _ (ok_tree _ Hs)) as [k Hk]. rewrite (childList_reps _ k) in Ek by (done || apply Hk). apply last_Some_elem_of in Hl.
  eapply kids_exist; [apply Hk|]. rewrite Ek. by apply elem_of_app; left.
Qed.

(** The limit on the length of text in [p]. *)
Definition lengthLimitAt (s : HTMLConstructionSite) (p : positive) : Z := if shouldUseLengthLimit (tagOf (doc s) p) then defaultLengthLimit else maxUnsigned.
Definition isTextAt (s : HTMLConstructionSite) (n : positive) : bool := match typeOf (doc s) n with Some type => bool_decide (type ∈ [TEXT_NODE; CDATA_SECTION_NODE]) | None => false end.

(** The characters that go to the end of the text node before the place, if there is one: as many as its length allows. *)
Definition merged (s : HTMLConstructionSite) (characters : list Z) (p : positive) (a : list positive) : list Z :=
  match last a with
  | Some t => if isTextAt s t then take (pieceLength (lengthLimitAt s p) (lengthZ (dataAt s t)) characters) characters else []
  | None => []
  end.

(** What the text did: what can be merged went to the end of the text node before the place, the rest to new nodes after it. *)
Record textDone (s s' : HTMLConstructionSite) (characters : list Z) (p : positive) (a b new : list positive) (chunks : list (list Z)) : Prop := mkTextDone {
  done_shape : shape s';
  done_records : records s' = records s;
  done_before : childList (doc s) p = a ++ b;
  done_children : childList (doc s') p = a ++ new ++ b;
  done_characters : merged s characters p a ++ concat chunks = characters;
  done_first : ∀ t, last a = Some t → dataAt s' t = dataAt s t ++ merged s characters p a;
  done_cut : cut (lengthLimitAt s p) (drop (length (merged s characters p a)) characters) chunks;
  done_new : Forall2 (λ n d, doc s !! n = None ∧ typeOf (doc s') n = Some TEXT_NODE ∧ dataAt s' n = d ∧ d ≠ []) new chunks;
  done_others : ∀ m, is_Some (doc s !! m) → m ≠ p → childList (doc s') m = childList (doc s) m;
  done_data : ∀ m, is_Some (doc s !! m) → last a ≠ Some m → dataAt s' m = dataAt s m;
}.

(** The loop after the first [m] characters went to the text node before the place. *)
Lemma rest_ok p next characters a b (m : nat) s s1 :
  shape s → is_Some (doc s !! p) → tagOf (doc s) p ≠ Some (htmlName "template") → childList (doc s) p = a ++ b → matches next b → (lengthZ characters ≤ maxUnsigned)%Z →
  (m ≤ length characters)%nat → merged s characters p a = take m characters → (m ≠ 0%nat → is_Some (last a)) →
  s1 = match last a with Some t => if (m =? 0)%nat then s else withData t (dataAt s t ++ take m characters) s | None => s end →
  wp (textLoop (length characters) p next characters (lengthLimitAt s p) (Z.of_nat m)) (λ _ s', ∃ new chunks, textDone s s' characters p a b new chunks) s1.
Proof using Hbreak.
  intros Hs Hp Htag Hkids Hnext Hlen Hm Hmerged Hlast Es1.
  assert (Hl : (0 ≤ lengthLimitAt s p ≤ maxUnsigned)%Z) by (unfold lengthLimitAt, defaultLengthLimit, maxUnsigned; destruct (shouldUseLengthLimit _); lia).
  assert (E1 : doc s1 = doc s ∧ records s1 = records s) by (rewrite Es1; by destruct (last a), (m =? 0)%nat). destruct E1 as (Ed & Er).
  assert (Hs1 : shape s1) by (rewrite Es1; destruct (last a), (m =? 0)%nat; try done; destruct Hs; by constructor).
  assert (Edata : ∀ x, dataAt s1 x = if bool_decide (last a = Some x) then dataAt s x ++ take m characters else dataAt s x).
  { intros x. rewrite Es1. destruct (Nat.eqb_spec m 0) as [-> |Hne]; [rewrite take_0, app_nil_r; by destruct (last a), (bool_decide _)|]. destruct (Hlast Hne) as [t ->]. unfold dataAt at 1. cbn. case_bool_decide as E.
    - injection E as ->. by rewrite lookup_insert_eq.
    - rewrite lookup_insert_ne; [done|congruence]. }
  eapply wp_mono; [apply (textLoop_ok _ p next characters (lengthLimitAt s p) (Z.of_nat m) a b s1); rewrite ?Ed; try done; [unfold lengthZ; lia|unfold lengthZ; lia]|]. intros [] s' (new & chunks & Hk & Hc & [T1 T2 T3 T4 T5 T6]).
  rewrite Nat2Z.id in Hc. rewrite Ed in *. exists new, chunks.
  assert (Eold : ∀ x, is_Some (doc s !! x) → dataAt s' x = dataAt s1 x) by (intros x Hx; unfold dataAt; by rewrite T5).
  constructor; rewrite ?Hmerged; try done.
  - by rewrite T3.
  - by rewrite (cut_concat _ _ _ Hc), take_drop.
  - intros t Ht. rewrite Eold by (by eapply lastChild_exists). rewrite Edata, bool_decide_true by done. done.
  - by rewrite length_take_le.
  - eapply Forall2_impl; [exact T6|]. intros n d (? & ? & E & ?). split_and!; try done. unfold dataAt. by rewrite E.
  - intros x Hx Hcase. by rewrite Eold, Edata, bool_decide_false.
Qed.

(** ** Text and the invariant *)

(** Text came into the document, no node has more of it than [N]. *)
Definition texted (N : Z) (s s' : HTMLConstructionSite) : Prop :=
  ∃ T e d, s' = set_dataOf d (executed T e s) ∧ ahead (doc s) T ∧ ∀ n, (lengthZ (dataAt s' n) ≤ N)%Z.

Lemma texted_ok N s s' : siteOk s → texted N s s' → siteOk s'.
Proof. intros Hok (T & e & d & -> & Ha & _). pose proof (siteOk_ahead T e s Hok Ha) as Hok'. by apply (siteOk_ext (executed T e s)). Qed.

Lemma texted_shape N s s' : shape s → texted N s s' → shape s'.
Proof. intros Hs (T & e & d & -> & Ha & _). destruct (shape_executed T e s Hs (ahead_tree _ _ Ha) (ahead_grows _ _ Ha)). by constructor. Qed.

Lemma texted_refl N d s : shape s → (∀ n, lengthZ (default [] (d !! n)) ≤ N)%Z → texted N s (set_dataOf d s).
Proof.
  intros Hs HN. exists (tree s), [], d. split_and!; [|apply ahead_refl, Hs|done]. unfold executed. rewrite app_nil_r. by destruct s as [[] ? ? ? ? ? ? ? ? ? ?].
Qed.

Lemma texted_trans N N' s s1 s2 : texted N s s1 → texted N' s1 s2 → texted N' s s2.
Proof.
  intros (T & e & d & -> & Ha & _) (T' & e' & d' & -> & Ha' & HN). exists T', (e ++ e'), d'. split_and!; [|by eapply ahead_trans|done].
  unfold executed, set_dataOf, set_tree, set_openElements. cbn. by rewrite <-app_assoc.
Qed.

Lemma withData_bound N n d s : (∀ n, lengthZ (dataAt s n) ≤ N)%Z → (lengthZ d ≤ N)%Z → ∀ m, (lengthZ (dataAt (withData n d s) m) ≤ N)%Z.
Proof. intros HN Hd m. unfold dataAt. cbn. destruct (decide (m = n)) as [-> |Hne]; [by rewrite lookup_insert_eq|rewrite lookup_insert_ne by done; apply HN]. Qed.

Lemma texted_new N n d s : shape s → doc s !! n = None → (∀ n, lengthZ (dataAt s n) ≤ N)%Z → (lengthZ d ≤ N)%Z → texted N s (newText n d s).
Proof.
  intros Hs Hn HN Hd. exists (tree (newText n d s)), [], (dataOf (newText n d s)). split_and!.
  - unfold executed. rewrite app_nil_r. by destruct s as [[] ? ? ? ? ? ? ? ? ? []].
  - apply (ahead_extends (tree s)); [apply Hs|apply (shape_newText n d s Hs Hn)|by apply newText_extends].
  - by apply withData_bound.
Qed.

(** The task that inserts a new text node. *)
Lemma textTask_texted N p next n s s1 :
  shape s → texted N s s1 → doc s !! n = None → alone (doc s1) n → typeOf (doc s1) n = Some TEXT_NODE → is_Some (doc s !! p) → (∀ x, next = Some x → parentOf (doc s) x = Some p) →
  wp (executeTask (mkTask Insert p next n false)) (λ _ s2, texted N s s2) s1.
Proof.
  intros Hs Ht Hn Hal Hty Hp Hnext. pose proof (texted_shape N s s1 Hs Ht) as Hs1. destruct Ht as (T & e & d & E & Ha & HN). apply executeTask_ok. cbn [treeTask operation].
  assert (ET : tree s1 = T) by (by rewrite E). assert (Hp1 : is_Some (doc s1 !! p)) by (rewrite ET; eapply grows_lookup; [apply Ha|done]). destruct (inv_ac _ (tree_inv _ (ok_tree _ Hs1)) p Hp1) as [lp Hw].
  assert (Hnp : n ≠ p) by (intros ->; destruct Hp; congruence).
  apply (wp_insertNode (mkTask Insert p next n false) lp); cbn [task_child task_parent task_nextChild].
  1: apply Hs1. 1: done. 1: intros Hin; apply Hnp; by rewrite (alone_not_on _ n p lp Hal Hw Hin). 2: by exists TEXT_NODE. 2: intros _; unfold contentType; rewrite Hty; by apply (bool_decide_eq_true_2 _); set_solver.
  { destruct (parentOf (doc s1) n) eqn:En; [|done]. apply up_parent in En. destruct Hal as (_ & Hu & _). congruence. }
  { intros x Hx. rewrite ET, (ahead_parent _ _ Ha); [by apply Hnext|]. specialize (Hnext x Hx). unfold parentOf in Hnext. destruct (doc s !! x); [by eexists|done]. }
  intros T1 q h Hd _ Hm HT' _ e'. destruct Hd as (HT1 & He & _).
  assert (Ha1 : ahead (doc s) T1) by (eapply ahead_trans; [exact Ha|]; rewrite <-ET; apply ahead_extends; [apply Hs1|done..]).
  assert (Hah : ahead (doc s) (changed T1 h)).
  { eapply (ahead_text (doc s) T1 h n (Some q)); try done; [apply inv_ac, (tree_inv _ (ok_tree _ Hs))|]. eapply grows_typeOf; [by apply extends_grows|done]. }
  exists (changed T1 h), (e ++ e'), d. split_and!; [|done|].
  - rewrite E. unfold executed, set_dataOf, set_tree, set_openElements. cbn. by rewrite <-app_assoc.
  - intros m. apply HN.
Qed.

Lemma textLoop_texted N fuel p next characters limit pos s s0 :
  shape s → texted N s s0 → is_Some (doc s !! p) → (∀ x, next = Some x → parentOf (doc s) x = Some p) →
  (0 ≤ limit ≤ maxUnsigned)%Z → (0 ≤ pos ≤ lengthZ characters)%Z → (lengthZ characters ≤ maxUnsigned)%Z → (lengthZ characters ≤ N)%Z → (lengthZ characters - pos ≤ Z.of_nat fuel)%Z →
  wp (textLoop fuel p next characters limit pos) (λ _ s', texted N s s') s0.
Proof.
  revert pos s0. induction fuel as [|fuel IH]; intros pos s0 Hs Ht Hp Hnext Hl Hpos Hlen HlN Hf; cbn [textLoop]; (destruct (Z.leb_spec (lengthZ characters) pos) as [Hle|Hgt]; [by apply wp_ret|try lia]).
  pose proof (texted_shape N s s0 Hs Ht) as Hs0. assert (Hlate : ∀ n, doc s0 !! n = None → doc s !! n = None).
  { intros n Hn. destruct Ht as (T & e & d & -> & Ha & _). destruct (doc s !! n) as [r|] eqn:E; [|done]. destruct (ahead_grows _ _ Ha n r E) as (r' & Hr' & _). cbn in Hn. congruence. }
  assert (HN : ∀ s1, texted N s s1 → ∀ n, (lengthZ (dataAt s1 n) ≤ N)%Z) by (intros s1 (? & ? & ? & _ & _ & ?); done).
  assert (Hrest : length (drop (Z.to_nat pos) characters) = Z.to_nat (lengthZ characters - pos)) by (rewrite length_drop; unfold lengthZ; lia).
  assert (Hstep : ∀ n d s1, shape s1 → texted N s s1 → doc s1 !! n = None → doc s !! n = None → d ≠ [] → (lengthZ d ≤ lengthZ characters - pos)%Z →
    wp (length ← textLength n; ASSERT (pos + length <=? lengthZ characters)%Z;; executeTask (mkTask Insert p next n false);; textLoop fuel p next characters limit (pos + length)) (λ _ s', texted N s s') (newText n d s1)).
  { intros n d s1 Hs1 Ht1 Hn Hn' Hd Hdl. unfold textLength. apply wp_bind, wp_gets. cbn [newText withData set_dataOf dataOf]. rewrite lookup_insert_eq. cbn [default from_option id].
    assert (Hd0 : (0 < lengthZ d)%Z) by (unfold lengthZ; destruct d; [done|cbn; lia]). apply wp_bind, wp_ASSERT; [apply Z.leb_le; lia|]. apply wp_bind.
    destruct (newText_alone n d s1 Hs1 Hn). eapply wp_mono; [apply (textTask_texted N p next n s); try done; eapply texted_trans; [exact Ht1|apply texted_new; [done..|by apply HN|lia]]|].
    intros [] s2 Ht2. apply IH; try done; lia. }
  apply wp_bind, wp_createWithLengthLimit; [done..|]. intros n Hn. cbv zeta. set (m := pieceLength _ _ _). apply wp_bind. unfold textLength at 1. apply wp_gets. cbn [newText withData set_dataOf dataOf]. rewrite lookup_insert_eq. cbn [default from_option id].
  set (d := take m (drop (Z.to_nat pos) characters)). assert (Hdl : (lengthZ d ≤ lengthZ characters - pos)%Z) by (unfold d, lengthZ at 1; rewrite length_take; lia).
  apply wp_bind. destruct (Z.eqb_spec (lengthZ d) 0) as [E|E].
  - apply wp_createText. intros n2 Hn2. apply Hstep; [by apply shape_newText|eapply texted_trans; [exact Ht|]; apply texted_new; [done..|by apply HN|lia]|done| | |unfold lengthZ at 1; lia].
    + apply Hlate. cbn in Hn2. destruct (decide (n2 = n)) as [-> |]; [by rewrite lookup_insert_eq in Hn2|by rewrite lookup_insert_ne in Hn2].
    + intros E'. rewrite E' in Hrest. cbn in Hrest. lia.
  - apply wp_ret, Hstep; auto. by intros ->.
Qed.

(** The most a text node may have for [parserAppendData]. *)
Definition textLimit : Z := if ASSERT_DISABLED then maxUnsigned else defaultLengthLimit.

Lemma insertTextNode_ok characters N s :
  shape s → (∀ n, lengthZ (dataAt s n) ≤ N)%Z → (N + lengthZ characters ≤ textLimit)%Z → wp (insertTextNode characters) (λ _ s', texted (N + lengthZ characters) s s') s.
Proof.
  intros Hs HN Hlimit. unfold insertTextNode. apply wp_bind, wp_currentNode; [done|]. intros r l Er Hr. apply wp_bind, wp_shouldFosterParent; [done|]. intros foster. apply wp_bind.
  assert (HN0 : (0 ≤ N)%Z) by (pose proof (HN 1%positive); pose proof (lengthZ_nonneg (dataAt s 1)); lia). pose proof (lengthZ_nonneg characters) as Hpos.
  assert (Hmax : (N + lengthZ characters ≤ maxUnsigned)%Z) by (unfold textLimit, defaultLengthLimit, maxUnsigned in *; destruct ASSERT_DISABLED; lia).
  assert (Hgo : ∀ p next, textPlace s p next → wp (name ← onDOM (field tagQName p);
      let lengthLimit := if shouldUseLengthLimit name then defaultLengthLimit else maxUnsigned in
      previousChild ← (match next with Some next => onDOM (field m_previous next) | None => onDOM (field m_lastChild p) end);
      currentPosition ← (match previousChild with
                         | Some node => isText ← isTextNode node; if isText : bool then parserAppendData node characters 0 lengthLimit else mret 0%Z
                         | None => mret 0%Z
                         end);
      textLoop (length characters) p next characters lengthLimit currentPosition) (λ _ s', texted (N + lengthZ characters) s s') s).
  { intros p next Hpl. destruct (textPlace_split s p next Hs Hpl) as (Hp & a & b & Hk & Hm). pose proof (textPlace_next s p next Hs Hpl) as Hnext. pose proof Hp as [rp Hrp]. apply wp_bind. eapply wp_askField; [done|]. cbn zeta.
    set (limit := if shouldUseLengthLimit _ then _ else _). assert (Hl : (0 ≤ limit ≤ maxUnsigned)%Z ∧ (ASSERT_DISABLED = true ∨ N + lengthZ characters ≤ limit)%Z).
    { unfold limit, textLimit, defaultLengthLimit, maxUnsigned in *. destruct (shouldUseLengthLimit _), ASSERT_DISABLED; split; (lia || by left || right; lia). }
    destruct Hl as [Hl Hlt]. assert (Hrest : ∀ (m : Z) d, (0 ≤ m ≤ lengthZ characters)%Z → (∀ n, lengthZ (default [] (d !! n)) ≤ N + lengthZ characters)%Z →
      wp (textLoop (length characters) p next characters limit m) (λ _ s', texted (N + lengthZ characters) s s') (set_dataOf d s)).
    { intros m d Hmm Hd. apply (textLoop_texted _ _ p next characters limit m s); try done; [by apply texted_refl|lia|lia|unfold lengthZ; lia]. }
    assert (Hnone : wp (textLoop (length characters) p next characters limit 0) (λ _ s', texted (N + lengthZ characters) s s') s).
    { specialize (Hrest 0%Z (dataOf s)). replace (set_dataOf (dataOf s) s) with s in Hrest by (by destruct s). apply Hrest; [lia|]. intros n. specialize (HN n). unfold dataAt in HN. lia. }
    apply wp_bind. eapply (wp_previousChild s p next a b); [done..|]. apply wp_bind. destruct (last a) as [t|] eqn:El; [|by apply wp_ret]. assert (Ht : is_Some (doc s !! t)) by (by eapply lastChild_exists).
    apply wp_bind, wp_isTextNode; [done|]. intros isText _. destruct isText; [|by apply wp_ret].
    apply wp_parserAppendData; [done|destruct Hlt; [by left|right; specialize (HN t); lia]|lia|lia|]. intros m Hmt. destruct (Nat.eqb_spec m 0) as [-> |Hne]; [done|]. apply Hrest; [lia|].
    apply (withData_bound (N + lengthZ characters) t _ s); [intros n; specialize (HN n); lia|]. specialize (HN t). unfold lengthZ in *. rewrite length_app, length_take, length_drop. lia. }
  destruct foster.
  - apply wp_findFosterSite; [done|]. intros d p next Hd. apply Hgo. right. by exists d.
  - apply wp_ret, Hgo. left. exists r. by rewrite Er.
Qed.

End Quiet.
