(* ===== verification/SiteTheorems.v ===== *)
(** * Parsing builds a tree

    What the tree builder asks of the construction site, as a list of [Action]s, from an
    empty document on. [parsing_builds_tree]: as long as no script runs, whatever the
    actions are, none of them fails an assertion or reads through a pointer that is
    gone, and the document is a tree in which the open elements are in their order. *)

From Stdlib Require Import String.
From S2P Require Import Prelude HTMLStackItem HTMLElementStack HTMLFormattingElementList ContainerNode ContainerNodeLists ContainerNodeCorrect ContainerNodeScripts ContainerNodeTheorems.
From S2P Require Import TreeOrder HTMLConstructionSite AdoptionAgency TreeTasks SiteInvariant SiteOperations AdoptionCorrect SiteData TextNodes.

#[local] Open Scope string_scope.
#[local] Open Scope list_scope.

(** ** The actions *)

Inductive Action :=
  | OpenElement (token : TagToken) | OpenForm (token : TagToken) | OpenFormatting (token : TagToken) | OpenForeign (token : TagToken) (ns : Namespace)
  | OpenScript (token : TagToken) | SelfClosing (token : TagToken) | Comment (comment : list Z) | InsertText (characters : list Z)
  | Reconstruct | ImpliedEndTags | ImpliedEndTagsExcept (tagName : list Z) | EndFormatting (tagName : list Z) | EndOther (tagName : list Z)
  | AppendMarker | ClearToMarker | RedirectToFosterParent (redirect : bool) | ExecuteTasks.

Section Actions.
Context `{Build} `{Script} `{Parser}.

Definition performAction (action : Action) : CM unit :=
  match action with
  | OpenElement token => insertHTMLElement token
  | OpenForm token => insertHTMLFormElement token
  | OpenFormatting token => insertFormattingElement token
  | OpenForeign token ns => insertForeignElement token ns
  | OpenScript token => insertScriptElement token
  | SelfClosing token => insertSelfClosingHTMLElement token
  | Comment comment => insertComment comment
  | InsertText characters => insertTextNode characters
  | Reconstruct => reconstructTheActiveFormattingElements
  | ImpliedEndTags => generateImpliedEndTags
  | ImpliedEndTagsExcept tagName => generateImpliedEndTagsWithExclusion tagName
  | EndFormatting tagName => callTheAdoptionAgency tagName
  | EndOther tagName => processAnyOtherEndTagForInBody tagName
  | AppendMarker => onList appendMarker
  | ClearToMarker => onList clearToLastMarker
  | RedirectToFosterParent redirect => modify (set_redirect redirect)
  | ExecuteTasks => executeQueuedTasks
  end.

(** What the tree builder calls an action with. *)
Definition admissible (action : Action) : bool :=
  let element token := creatable (tag_name token) && plain (tag_name token) && allowed (Some (mkName (tag_name token) xhtmlNamespaceURI)) in
  match action with
  | OpenElement token | OpenForm token => element token
  | OpenFormatting token => isFormattingTag (tag_name token) && bool_decide (NoDup (attributeName <$> tag_attributes token))
  | OpenForeign token ns => bool_decide (ns ≠ xhtmlNamespaceURI) && (pluginContentIsAllowed m_parserContentPolicy || negb (isPluginElement (Some (mkName (tag_name token) ns))))
  | OpenScript token => bool_decide (tag_name token = text "script")
  | SelfClosing token => creatable (tag_name token) && allowed (Some (mkName (tag_name token) xhtmlNamespaceURI))
  | EndFormatting tagName => isFormattingTag tagName
  | EndOther tagName => plain tagName
  | _ => true
  end.

(** How many characters an action brings. *)
Definition charactersOf (action : Action) : Z := match action with Comment characters | InsertText characters => lengthZ characters | _ => 0%Z end.
Definition charactersIn (actions : list Action) : Z := foldr (λ action n, charactersOf action + n)%Z 0%Z actions.

Fixpoint performAll (actions : list Action) : CM unit :=
  match actions with [] => mret tt | action :: actions => performAction action;; performAll actions end.

(** The site of an empty document. *)
Definition emptySite : HTMLConstructionSite :=
  mkSite newStack [] [] None None false false NoQuirksMode (mkTree (created [(m_attachmentRoot, DOCUMENT_NODE)]) ∅) ∅ ∅.

Definition tag (name : string) : TagToken := mkTag (text name) [] false.

(** [<html><head></head><body>] *)
Definition startDocument : CM unit :=
  insertHTMLHtmlStartTagBeforeHTML (tag "html");;
  insertHTMLHeadElement (tag "head");;
  onStack popHTMLHeadElement;;
  insertHTMLBodyElement (tag "body").

(** The actions of a document, and the tasks that are left. *)
Definition parse (actions : list Action) : CM unit := startDocument;; performAll actions;; executeQueuedTasks.

(** The element factory knows head, body and the formatting elements. *)
Definition factoryKnows : Prop := ∀ name, isFormattingTag name || bool_decide (name ∈ text <$> ["head"; "body"]) = true → createKnownElement name = true.

End Actions.

Section Quiet.
Context `{Build} `{Parser}.
#[local] Existing Instance quiet.

(** ** The start of a document *)

Lemma emptyTree_ok : treeOk (tree emptySite).
Proof.
  constructor; cbn; [apply (created_inv [(m_attachmentRoot, DOCUMENT_NODE)])| |intros t c Hc; by rewrite lookup_empty in Hc]. intros n p Hp. unfold parentOf, created in Hp. cbn in Hp. destruct (decide (m_attachmentRoot = n)) as [<- |Hne].
  - by rewrite lookup_insert_eq in Hp.
  - by rewrite lookup_insert_ne, lookup_empty in Hp.
Qed.

(** The document element is queued, and the only open element. *)
Lemma startRoot_ok n attributes A k q s :
  treeOk (tree s) → is_Some (doc s !! m_attachmentRoot) → doc s !! n = None → entries s = [] → HTMLElementStack.wf k → m_top k = [mkRecord q (newItem n (text "html") xhtmlNamespaceURI attributes)] →
  siteOk (set_openElements k (set_taskQueue [mkTask Insert m_attachmentRoot None n false] (set_attributesOf A (withNode n ELEMENT_NODE (Some (htmlName "html")) s)))).
Proof.
  intros HT Hroot Hn El Hwk Ek. split.
  - constructor; cbn [set_openElements set_taskQueue set_attributesOf withNode set_tree m_openElements m_activeFormattingElements tree]; rewrite ?Ek, ?El; try done.
    + intros r ->%list_elem_of_singleton. done.
    + apply (treeOk_extends (tree s)); [done|by apply extends_insert].
    + split; [done|constructor].
    + intros r ->%list_elem_of_singleton. apply newItem_sound.
    + intros i ?%elem_of_nil. done.
    + intros i ?%elem_of_nil. done.
    + intros r i _ ?%elem_of_nil. done.
    + by apply low_cons; [intros [|] ? ? ?|].
    + eapply grows_lookup; [|exact Hroot]. by apply withNode_grows.
  - intros T0 Hmore. cbn [set_openElements set_taskQueue m_openElements m_taskQueue treeTasks set_attributesOf withNode set_tree tree document contents] in *. rewrite Ek.
    pose proof (tree_inv _ HT) as Hi. destruct (ahead_insert (doc s) n ELEMENT_NODE (Some (htmlName "html")) T0 Hi Hn Hmore) as [Hplus _]. apply (pending_enqueue _ _ []), wp_ret. cbn [treeTask operation].
    eapply (step_insert [] [] (doc s) n ELEMENT_NODE (Some (htmlName "html")) T0); try done.
    + by apply outcome_start; [|apply ordered_nil|intros ? ?%elem_of_nil|].
    + intros m ?%elem_of_nil. done.
    + left. by apply (bool_decide_eq_true_1 _).
    + by right.
    + intros x [?%elem_of_nil| ->]%anchors_cons; [done|by right].
Qed.

(** Head and body are not open when there is only the root. *)
Lemma only_root k r : HTMLElementStack.wf k → m_top k = [r] → m_headElement k = None ∧ m_bodyElement k = None.
Proof.
  intros Hwf E. pose proof (wf_rooted _ Hwf) as Hr. unfold rooted in Hr. rewrite E in Hr. destruct Hr as (_ & Hroot & _). destruct (root_not_head _ Hroot) as [Hh Hb].
  pose proof (wf_head _ Hwf) as [_ H1]. pose proof (wf_body _ Hwf) as [_ H2]. rewrite E in *. split.
  - destruct (m_headElement k) as [m|]; [|done]. destruct (H1 m eq_refl) as (x & ->%list_elem_of_singleton & ? & _). congruence.
  - destruct (m_bodyElement k) as [m|]; [|done]. destruct (H2 m eq_refl) as (x & ->%list_elem_of_singleton & ? & _). congruence.
Qed.

(** A site at the start: the root is open, nothing is redirected. *)
Definition started (s : HTMLConstructionSite) : Prop := siteOk s ∧ (∃ r, records s = [r]) ∧ m_redirectAttachToFosterParent s = false.

Lemma allowed_tag name : bool_decide (name ∈ text <$> ["html"; "head"; "body"; "form"]) = true → allowed (Some (mkName name xhtmlNamespaceURI)) = true.
Proof.
  intros Hn%bool_decide_eq_true. unfold allowed. cbn [fmap list_fmap] in Hn.
  repeat (apply elem_of_cons in Hn as [-> |Hn]; [by destruct (scriptingContentIsAllowed _), (pluginContentIsAllowed _)|]). by apply elem_of_nil in Hn.
Qed.

(** A document before its root, which is not below anything. *)
Record blankSite (s : HTMLConstructionSite) : Prop := mkBlank {
  blank_tree : treeOk (tree s);
  blank_root : typeOf (doc s) m_attachmentRoot = Some DOCUMENT_NODE;
  blank_top : (0 ≤ m_maximumDOMTreeDepth)%Z ∨ parentOf (doc s) m_attachmentRoot = None;
  blank_stack : HTMLElementStack.wf (m_openElements s);
  blank_records : records s = [];
  blank_entries : entries s = [];
  blank_redirect : m_redirectAttachToFosterParent s = false;
}.

Lemma emptySite_blank : blankSite emptySite.
Proof. constructor; [apply emptyTree_ok|unfold typeOf; cbn; by rewrite lookup_insert_eq|right; unfold parentOf; cbn; by rewrite lookup_insert_eq|apply newStack_wf|done..]. Qed.

(** What is attached to the document goes to the queue. *)
Lemma wp_attachBlank n type name A (Q : unit → HTMLConstructionSite → Prop) s :
  blankSite s → doc s !! n = None → allowed name = true → Q tt (queued (mkTask Insert m_attachmentRoot None n false) (set_attributesOf A (withNode n type name s))) → wp (attachLater m_attachmentRoot n false) Q (set_attributesOf A (withNode n type name s)).
Proof.
  intros [HT Hroot Htop Hwf Ek El Er] Hn [Ha1 Ha2]%andb_true_iff HQ. set (s1 := set_attributesOf A _). apply typeOf_Some in Hroot as (root & Hroot & _). assert (Hne : n ≠ m_attachmentRoot) by (intros ->; congruence).
  unfold attachLater. apply wp_bind. eapply wp_askField; [apply lookup_insert_eq|]. cbn [tagQName newNode]. apply wp_bind, wp_ASSERT; [done|]. apply wp_bind, wp_ASSERT; [done|].
  unfold shouldFosterParent. apply wp_bind, wp_bind, wp_gets. cbn [s1 set_attributesOf withNode set_tree m_redirectAttachToFosterParent]. rewrite Er. apply wp_ret. apply wp_bind, wp_gets. apply wp_bind. eapply (wp_askField _ m_attachmentRoot); [unfold s1; cbn; rewrite lookup_insert_ne by done; exact Hroot|].
  unfold enqueue. apply wp_modify. assert (Hq : (if (m_maximumDOMTreeDepth <? (m_stackDepth ∘ m_openElements) s1)%Z then default m_attachmentRoot (m_parentNode root) else m_attachmentRoot) = m_attachmentRoot).
  { cbn [compose s1 set_attributesOf withNode set_tree m_openElements]. rewrite (wf_depth _ Hwf), Ek. change (u32 (Z.of_nat (length []))) with 0%Z. destruct (m_maximumDOMTreeDepth <? 0)%Z eqn:E; [|done]. apply Z.ltb_lt in E. destruct Htop as [?|Htop]; [lia|]. unfold parentOf in Htop. rewrite Hroot in Htop. cbn in Htop. by rewrite Htop. }
  rewrite Hq. exact HQ.
Qed.

Lemma html_ok token s : blankSite s → m_taskQueue s = [] → tag_name token = text "html" → wp (insertHTMLHtmlStartTagBeforeHTML token) (λ _ s', started s') s.
Proof.
  intros Hb Eq Et. unfold insertHTMLHtmlStartTagBeforeHTML. apply wp_bind, wp_createElement. intros n A Hn. apply wp_bind, wp_attachBlank; [done|done|by apply (allowed_tag (text "html"))|].
  destruct Hb as [HT Hroot Htop Hwf Ek El Er]. unfold pushHTMLHtmlElement. unfold itemOf, itemOfToken. cbn [fst snd]. rewrite Et. apply wp_bind, wp_onStack, wp_bind, wp_ASSERT; [done|]. apply wp_pushRoot; [exact Hwf|unfold nonempty; cbn; by rewrite Ek|done|]. intros k Hwk Etop _.
  unfold queued. cbn [set_attributesOf withNode set_tree m_taskQueue]. rewrite Eq. cbn [app]. eapply wp_mono; [apply executeQueue_ok; eapply startRoot_ok; [done|apply typeOf_Some in Hroot as (? & ? & _); by eexists|done..]|].
  intros [] s' (Hok' & _ & Hrec & Hred). split; [done|]. split; [rewrite Hrec; by eexists|by rewrite Hred].
Qed.

(** The elements the factory knows. *)
Context (Hknown : factoryKnows) (Hbreak : breaksBefore).

Lemma known_creatable name : isFormattingTag name || bool_decide (name ∈ text <$> ["head"; "body"]) = true → creatable name = true.
Proof. intros Hn. unfold creatable. by rewrite Hknown. Qed.

Lemma wp_assertNotFostering (Q : unit → HTMLConstructionSite → Prop) s : m_redirectAttachToFosterParent s = false → Q tt s → wp assertNotFostering Q s.
Proof. intros Er HQ. unfold assertNotFostering, shouldFosterParent. apply wp_bind, wp_bind, wp_gets. rewrite Er. by apply wp_ret, wp_ASSERT. Qed.

(** The head or the body opened above the root. *)
Lemma above_root n name attributes A p next sc r s :
  siteOk s → records s = [r] → doc s !! n = None → place s p next → name ∈ text <$> ["head"; "body"] → siteOk (opened n name xhtmlNamespaceURI attributes A (mkTask Insert p next n sc) s).
Proof.
  intros Hok Er Hn Hp Hin. destruct (only_root (m_openElements s) r) as [Eh Eb]; [apply Hok|done|]. apply siteOk_opened; [done..| |by rewrite Er|by rewrite Er].
  unfold isHTML. rewrite newItem_tag. cbn [fmap list_fmap] in Hin. repeat (apply elem_of_cons in Hin as [-> |Hin]; [done|]). by apply elem_of_nil in Hin.
Qed.

Lemma head_ok token s :
  started s → creatable (text "head") = true → tag_name token = text "head" →
  wp (insertHTMLHeadElement token) (λ _ s', siteOk s' ∧ (∃ r root, records s' = [r; root] ∧ isHead (m_item r) = true ∧ m_head s' = Some (m_item r)) ∧ m_redirectAttachToFosterParent s' = false) s.
Proof.
  intros (Hok & (r & Er) & Hred) Hc Et. unfold insertHTMLHeadElement. apply wp_bind, wp_assertNotFostering; [done|]. apply wp_bind, wp_createHTMLElement; [by rewrite Et|]. intros n A Hn. unfold itemOf, itemOfToken. cbn [fst snd]. rewrite Et. apply wp_bind, wp_modify.
  set (item := mkItem _ _ _ _). set (s0 := set_headItem (Some item) s). assert (Hok0 : siteOk s0) by (by apply (siteOk_ext s)).
  destruct (only_root (m_openElements s) r) as [Eh _]; [apply Hok|done|].
  apply wp_assoc, wp_bind, (wp_attachHere n ELEMENT_NODE (Some (mkName (text "head") xhtmlNamespaceURI)) false A _ s0); [apply Hok0|done|by apply allowed_tag|]. intros p next sc Hp.
  apply wp_onStack, wp_pushHead; [apply Hok|apply bool_decide_eq_true; cbn; by rewrite Er|done|done|done|]. split; [|split; [|done]].
  - eapply (above_root n (text "head") _ A p next sc r s0); [done..|]. by apply (bool_decide_eq_true_1 _).
  - cbn. rewrite Er. by eexists _, r.
Qed.

Lemma popHead_ok s :
  siteOk s → (∃ r root, records s = [r; root] ∧ isHead (m_item r) = true ∧ m_head s = Some (m_item r)) → m_redirectAttachToFosterParent s = false → wp (onStack popHTMLHeadElement) (λ _ s', started s') s.
Proof.
  intros Hok (r & root & Er & Hh & _) Hred. apply wp_onStack. eapply wp_popHead; [apply Hok|done..|]. split; [by apply (siteOk_takenOff [] r [root])|]. split; [by exists root|done].
Qed.

Lemma body_ok token s : started s → creatable (text "body") = true → tag_name token = text "body" → wp (insertHTMLBodyElement token) (λ _ s', siteOk s' ∧ ∃ r root, records s' = [r; root] ∧ isBody (m_item r) = true) s.
Proof.
  intros (Hok & (r & Er) & Hred) Hc Et. unfold insertHTMLBodyElement. apply wp_bind, wp_assertNotFostering; [done|]. apply wp_bind, wp_createHTMLElement; [by rewrite Et|]. intros n A Hn.
  destruct (only_root (m_openElements s) r) as [_ Eb]; [apply Hok|done|]. unfold itemOf, itemOfToken. cbn [fst snd]. rewrite Et.
  apply wp_assoc, wp_bind, wp_attachHere; [apply Hok|done|by apply allowed_tag|]. intros p next sc Hp.
  apply wp_onStack, wp_pushBody; [apply Hok|apply bool_decide_eq_true; cbn; by rewrite Er|done|done|done|]. split.
  - eapply (above_root n (text "body") _ A p next sc r s); [done..|]. by apply (bool_decide_eq_true_1 _).
  - cbn. rewrite Er. by eexists _, r.
Qed.

Lemma startDocument_ok : wp startDocument (λ _ s', siteOk s') emptySite.
Proof.
  unfold startDocument. apply wp_bind. eapply wp_mono; [by apply html_ok; [apply emptySite_blank|..]|]. intros [] s1 H1. apply wp_bind. eapply wp_mono; [by apply head_ok; [|apply known_creatable|]|]. intros [] s2 (H2 & H2' & H2'').
  apply wp_bind. eapply wp_mono; [by apply popHead_ok|]. intros [] s3 H3. eapply wp_mono; [by apply body_ok; [|apply known_creatable|]|]. by intros [] s4 [? _].
Qed.

(** ** The actions *)

(** The element of a form once it was made, whatever form the site has. *)
Lemma formRest_ok token n A f s :
  siteOk s → doc s !! n = None → plain (tag_name token) = true → allowed (Some (mkName (tag_name token) xhtmlNamespaceURI)) = true →
  wp (parent ← currentNode; attachLater parent n false;; onStack (push (newItem n (tag_name token) xhtmlNamespaceURI (allowedAttributes (mkName (tag_name token) xhtmlNamespaceURI) (tag_attributes token)))))
    (λ _ s', siteOk s') (set_form f (set_attributesOf A (withNode n ELEMENT_NODE (Some (mkName (tag_name token) xhtmlNamespaceURI)) s))).
Proof.
  intros Hok Hn Hp Ha. assert (Hok' : siteOk (set_form f s)) by (by apply (siteOk_ext s)).
  apply wp_assoc, wp_bind, (wp_attachHere n ELEMENT_NODE (Some (mkName (tag_name token) xhtmlNamespaceURI)) false A _ (set_form f s)); [apply Hok'|done|done|].
  intros p next sc Hpl. by apply wp_pushNew; [done..|apply newItem_ordinary; by left|].
Qed.

Lemma openForm_ok token s : siteOk s → admissible (OpenForm token) = true → wp (insertHTMLFormElement token) (λ _ s', siteOk s') s.
Proof.
  cbn. intros Hok [[Hc Hp]%andb_true_iff Ha]%andb_true_iff. unfold insertHTMLFormElement. apply wp_bind, wp_createHTMLElement; [done|]. intros n A Hn.
  destruct (ask_run TemplateInHTMLScope (m_openElements s)) as (answer & Hask & _); [apply Hok|apply (ok_top _ (ok_shape _ Hok))|]. apply wp_bind. eapply wp_askStack; [exact Hask|]. apply wp_bind.
  pose proof (λ f, formRest_ok token n A f s Hok Hn Hp Ha) as Hrest. destruct answer; [|apply wp_modify; apply Hrest]. apply wp_ret. exact (Hrest (m_form s)).
Qed.

(** An element that the policy keeps out of the document. *)
Lemma pushOnly_ok n name ns attributes A s :
  siteOk s → doc s !! n = None → ordinary (newItem n name ns attributes) = true →
  wp (onStack (push (newItem n name ns attributes))) (λ _ s', siteOk s' ∧ ∃ q, records s' = mkRecord q (newItem n name ns attributes) :: records s) (set_attributesOf A (withNode n ELEMENT_NODE (Some (mkName name ns)) s)).
Proof.
  intros Hok Hn Ho. apply wp_onStack, wp_push; [apply Hok|apply bool_decide_eq_true; exact (ok_top s (ok_shape s Hok))|done|]. split; [exact (siteOk_openedOnly n name ns attributes A s Hok Hn Ho)|by eexists].
Qed.

(** The element of a tag. *)
Definition named (name : list Z) (r : ElementRecord) : Prop := m_localName (m_item r) = Some name ∧ m_namespaceURI (m_item r) = xhtmlNamespaceURI.

Lemma openScript_ok token s : siteOk s → tag_name token = text "script" → wp (insertScriptElement token) (λ _ s', siteOk s' ∧ ∃ r, records s' = r :: records s ∧ named (text "script") r) s.
Proof.
  intros Hok Et. unfold insertScriptElement. apply wp_bind, wp_createElement. intros n A Hn. assert (Ho : ∀ a, ordinary (newItem n (text "script") xhtmlNamespaceURI a) = true) by (intros a; by apply newItem_ordinary; left).
  unfold itemOf, itemOfToken. cbn [fst snd]. rewrite Et. apply wp_bind. destruct (scriptingContentIsAllowed m_parserContentPolicy) eqn:Es.
  - apply wp_attachHere; [apply Hok|done| |]; [unfold allowed; rewrite Es; by rewrite orb_true_r|]. intros p next sc Hp. apply wp_pushNew; [done..|]. intros Hok'. split; [done|]. eexists. by split.
  - apply wp_ret. eapply wp_mono; [by apply pushOnly_ok|]. intros [] s' [? [q Eq]]. split; [done|]. eexists. by split.
Qed.

Lemma openForeign_ok token ns s : siteOk s → admissible (OpenForeign token ns) = true → wp (insertForeignElement token ns) (λ _ s', siteOk s') s.
Proof.
  cbn. intros Hok [Hns%bool_decide_eq_true Hpl]%andb_true_iff. unfold insertForeignElement. apply wp_bind, wp_createElement. intros n A Hn.
  assert (Ho : ∀ a, ordinary (newItem n (tag_name token) ns a) = true) by (intros a; by apply newItem_ordinary; right). unfold itemOf, itemOfToken. cbn [fst snd node_name node_id]. apply wp_bind.
  destruct (scriptingContentIsAllowed m_parserContentPolicy || negb (isScriptElement (Some (mkName (tag_name token) ns)))) eqn:Es.
  - apply wp_attachHere; [apply Hok|done|by unfold allowed; rewrite Es, Hpl|]. intros p next sc Hp. destruct (tag_selfClosing token); [|by apply wp_pushNew].
    apply wp_ret, siteOk_leaf; [done..| |done]. by apply (bool_decide_eq_true_1 _).
  - apply wp_ret. destruct (tag_selfClosing token); [|eapply wp_mono; [by apply pushOnly_ok|by intros [] s' [? _]]]. apply wp_ret.
    pose proof (ok_shape _ Hok) as Hs. pose proof (tree_inv _ (ok_tree _ Hs)) as Hi.
    split; [by apply shape_new|]. intros T0 Hmore. eapply wp_mono; [apply (ok_pending _ Hok); by apply (ahead_insert (doc s) n ELEMENT_NODE (Some (mkName (tag_name token) ns)))|].
    intros [] T Hout. eapply step_none; [done..|intros m Hm; by apply stackNodes_exist|apply element_weight|by left|by left].
Qed.

Lemma marker_ok s : siteOk s → wp (onList appendMarker) (λ _ s', siteOk s') s.
Proof.
  intros Hok. apply wp_onList, wp_modify. pose proof (ok_list _ (ok_shape _ Hok)) as Hwf. apply siteOk_entries; [done| |].
  - apply wf_app. split_and!; [done|split; [by repeat constructor|constructor]|]. intros n _ ?%elem_of_nil. done.
  - intros item [?|[=]%list_elem_of_singleton]%elem_of_app. by left.
Qed.

Lemma clearEntries_ok s : siteOk s → wp (onList clearToLastMarker) (λ _ s', siteOk s') s.
Proof.
  clear Hknown Hbreak. intros Hok. pose proof (ok_list _ (ok_shape _ Hok)) as Hwf. destruct (marker_split (entries s)) as (pre & items & El & Hm). apply wp_onList. unfold wp.
  assert (Hrun : clearToLastMarker (entries s) = Some (tt, removelast pre)) by (rewrite El; unfold clearToLastMarker, gets, mbind, M_bind; by apply clearLoop_run).
  rewrite Hrun. destruct Hm as [-> |[l ->]]; [apply siteOk_entries; [done|by split; [|constructor]|by intros item ?%elem_of_nil]|]. rewrite removelast_last. rewrite El in Hwf.
  apply siteOk_entries; [done|by apply wf_app in Hwf as [[? _]%wf_app _]|]. intros item Hi. left. rewrite El. set_solver.
Qed.

(** A site without a node that has more characters than [N]. *)
Definition bounded (N : Z) (s : HTMLConstructionSite) : Prop := ∀ n, (lengthZ (dataAt s n) ≤ N)%Z.

Lemma commentAt_bounded comment parent N s a s' : (n ← createComment comment; attachLater parent n false) s = Some (a, s') → bounded N s → bounded (N + lengthZ comment) s'.
Proof.
  unfold createComment, createNode, mbind, M_bind. intros E HN.
  destruct (onTree (allocate COMMENT_NODE None None) s) as [[n s2]|] eqn:E2; [|done]. apply (steps_data _ (keeps_onTree _ (steps_allocate _ _ _))) in E2 as [E2 _]. cbn in E. apply (steps_data _ (keeps_attachLater _ _ _)) in E as [E _]. cbn in E. intros m. unfold dataAt. rewrite E, E2.
  destruct (decide (m = n)) as [-> |Hne]; [rewrite lookup_insert_eq; cbn|rewrite lookup_insert_ne by done].
  - specialize (HN n). pose proof (lengthZ_nonneg (dataAt s n)). lia.
  - specialize (HN m). unfold dataAt in HN. pose proof (lengthZ_nonneg comment). lia.
Qed.

Lemma comment_bounded comment N s a s' : insertComment comment s = Some (a, s') → bounded N s → bounded (N + lengthZ comment) s'.
Proof.
  unfold insertComment. unfold mbind at 1, M_bind at 1. intros E HN. destruct (currentNode s) as [[p s1]|] eqn:E1; [|done]. apply (steps_data _ keeps_currentNode) in E1 as [E1 _].
  eapply commentAt_bounded; [exact E|]. intros m. unfold dataAt. rewrite E1. apply HN.
Qed.

(** What leaves the data alone keeps the bound. *)
Lemma kept_bounded {A} (m : CM A) N s : steps dataAround m → bounded N s → wp m (λ _ s', siteOk s') s → wp m (λ _ s', siteOk s' ∧ bounded (N + 0) s') s.
Proof.
  intros Hk HN Hw. eapply wp_mono; [by apply (steps_wp dataAround)|]. intros a s' [? [E _]]. split; [done|]. intros n. unfold dataAt. rewrite E. specialize (HN n). unfold dataAt in HN. lia.
Qed.

Lemma action_ok action N s :
  siteOk s → bounded N s → (N + charactersOf action ≤ textLimit)%Z → admissible action = true → wp (performAction action) (λ _ s', siteOk s' ∧ bounded (N + charactersOf action) s') s.
Proof.
  assert (Hcreate : ∀ name, isFormattingTag name = true → creatable name = true) by (intros name Hn; apply known_creatable; by rewrite Hn).
  destruct action as [token|token|token|token ns|token|token|comment|characters| | |name|name|name| | |redirect|]; intros Hok HN Hlim Ha; cbn [performAction charactersOf] in *.
  7: { assert (Hw : wp (insertComment comment) (λ _ s', siteOk s') s) by (by apply insertComment_ok). unfold wp in *. destruct (insertComment comment s) as [[a s']|] eqn:E; [|done]. split; [done|]. by eapply comment_bounded. }
  7: { eapply wp_mono; [by apply (insertTextNode_ok Hbreak); [apply Hok|..]|]. intros [] s' Ht. split; [by eapply texted_ok|]. by destruct Ht as (? & ? & ? & _ & _ & ?). }
  all: apply kept_bounded; [keep|done|].
  - cbn in Ha. apply andb_true_iff in Ha as [[Hc Hp]%andb_true_iff Ha]. by apply wp_insertHTMLElement.
  - by apply openForm_ok.
  - cbn in Ha. apply andb_true_iff in Ha as [Hf Hd%bool_decide_eq_true]. apply insertFormattingElement_ok; auto using formatting_allowed.
  - by apply openForeign_ok.
  - cbn in Ha. apply bool_decide_eq_true in Ha. eapply wp_mono; [by apply openScript_ok|]. by intros [] s' [? _].
  - cbn in Ha. apply andb_true_iff in Ha as [Hc Ha]. eapply wp_mono; [by apply insertSelfClosing_ok|]. by intros [] s' [? _].
  - by apply reconstruct_ok.
  - by apply generateImpliedEndTags_ok.
  - unfold generateImpliedEndTagsWithExclusion. apply wp_bind, wp_gets. eapply wp_mono; [apply impliedLoop_ok; [done|cbn; lia]|]. by intros [] s' [? _].
  - by apply outerLoop_ok.
  - by apply anyOther_ok.
  - by apply marker_ok.
  - by apply clearEntries_ok.
  - apply wp_modify. by apply (siteOk_ext s).
  - eapply wp_mono; [by apply executeQueue_ok|]. by intros [] s' [? _].
Qed.

Lemma charactersOf_nonneg action : (0 ≤ charactersOf action)%Z.
Proof. destruct action; cbn; try lia; apply lengthZ_nonneg. Qed.
Lemma charactersIn_nonneg actions : (0 ≤ charactersIn actions)%Z.
Proof. induction actions as [|action actions IH]; cbn; [lia|]. pose proof (charactersOf_nonneg action). unfold charactersIn in IH. lia. Qed.

Lemma actions_ok actions N s :
  siteOk s → bounded N s → (N + charactersIn actions ≤ textLimit)%Z → forallb admissible actions = true → wp (performAll actions) (λ _ s', siteOk s') s.
Proof.
  revert N s. induction actions as [|action actions IH]; intros N s Hok HN Hl Ha; cbn [performAll]; [by apply wp_ret|]. cbn in Ha. apply andb_true_iff in Ha as [Ha Has].
  cbn [charactersIn foldr] in Hl. fold (charactersIn actions) in Hl. pose proof (charactersIn_nonneg actions).
  apply wp_bind. eapply wp_mono; [apply (action_ok action N); [done..|lia|done]|]. intros [] s' [Hok' HN']. apply (IH (N + charactersOf action)%Z); [done..|lia|done].
Qed.

Lemma startDocument_bounded : wp startDocument (λ _ s', siteOk s' ∧ bounded 0 s') emptySite.
Proof.
  eapply wp_mono; [apply (steps_wp dataAround); [unfold startDocument; keep|apply startDocument_ok]|]. intros [] s' [? [E _]]. split; [done|]. intros n. unfold dataAt. rewrite E. cbn. by rewrite lookup_empty.
Qed.

End Quiet.

(** ** What parsing leaves *)

(** The order of the open elements, once the queue is empty. *)
Lemma siteOk_ordered `{Build} `{Parser} s : siteOk s → m_taskQueue s = [] → ordered (doc s) (fmap (M := list) stackNode (records s)).
Proof. intros Hok Hq. pose proof (ok_pending _ Hok (tree s) (ahead_refl _ (ok_tree _ (ok_shape _ Hok)))) as Hp. rewrite Hq in Hp. apply (out_order _ _ _ _ _ Hp). Qed.

Lemma parse_ok `{Build} `{Parser} actions : factoryKnows → breaksBefore → (charactersIn actions ≤ textLimit)%Z → forallb admissible actions = true → wp (@parse _ quiet _ actions) (λ _ s', siteOk s' ∧ m_taskQueue s' = []) emptySite.
Proof.
  intros Hknown Hbreak Hl Ha. unfold parse. apply wp_bind. eapply wp_mono; [by apply startDocument_bounded|]. intros [] s1 [H1 HN]. apply wp_bind. eapply wp_mono; [by apply (actions_ok Hknown Hbreak actions 0)|]. intros [] s2 H2.
  eapply wp_mono; [by apply executeQueue_ok|]. by intros [] s' (Hok & Hq & _).
Qed.

(** C14: Whatever the tree builder asks of the construction site after the body was opened, in
    any order (elements, forms, formatting elements, foreign elements, scripts, comments, text,
    the reconstruction of formatting elements, implied end tags, the adoption agency for an end
    tag, any other end tag, markers, redirection to the foster parent) and with the queued
    tasks run at any time: no assertion fails, no null pointer is followed, and when the
    queue is run at the end the document is a tree. The stack of open elements and the list of
    formatting elements are well formed, the open elements are elements of the document of the names they
    were opened with, and no open element is an ancestor of one opened before it. No script runs; the
    element factory knows [head], [body] and the formatting elements; the break iterator finds breaks at
    or before the limit it is given. Text and comments have no more characters than a [unsigned] can
    count, in a debug build no more than a text node may have before the parser appends to
    it: its assertion fails for a longer one. *)
Theorem parsing_builds_tree `{Build} `{Parser} actions :
  factoryKnows → breaksBefore → (charactersIn actions ≤ textLimit)%Z → forallb admissible actions = true →
  wp (@parse _ quiet _ actions) (λ _ s',
    m_taskQueue s' = [] ∧ inv (doc s') ∧ HTMLElementStack.wf (m_openElements s') ∧ HTMLFormattingElementList.wf (entries s') ∧
    (∀ r, r ∈ records s' → typeOf (doc s') (stackNode r) = Some ELEMENT_NODE ∧ tagOf (doc s') (stackNode r) = node_name (m_node (m_item r))) ∧
    ordered (doc s') (fmap (M := list) stackNode (records s'))) emptySite.
Proof.
  intros Hknown Hbreak Hl Ha. eapply wp_mono; [by apply parse_ok|]. intros [] s' [Hok Hq]. pose proof (ok_shape _ Hok) as Hs.
  split_and!; [done|apply (tree_inv _ (ok_tree _ Hs))|apply Hs|apply Hs| |by apply siteOk_ordered].
  intros r Hr. split; [apply sound_element; [by apply (ok_sound _ Hs)|by apply (ok_document _ Hs)]|]. by apply sound_tagOf, (ok_sound _ Hs).
Qed.

(** ** Examples *)

Definition exampleParser : Parser := {|
  m_attachmentRoot := 1; m_parserContentPolicy := AllowScriptingContent; m_isParsingFragment := false; m_maximumDOMTreeDepth := 512; isSrcdocDocument := false;
  createKnownElement := λ _, true; findInterface := λ _, false; isScriptingAttribute := λ _ _, false; characterBreak := λ _ limit, limit |}.

(** [<div><b><p></b>]: the paragraph is the furthest block. *)
Definition misnestedText : list Action := [OpenElement (tag "div"); OpenFormatting (tag "b"); InsertText (text "x"); OpenElement (tag "p"); InsertText (text "y"); EndFormatting (text "b"); InsertText (text "z")].
Definition misnested : list Action := [OpenElement (tag "div"); OpenFormatting (tag "b"); OpenElement (tag "p"); ExecuteTasks; EndFormatting (text "b")].

Lemma parsing_builds_tree_witness :
  wp (@parse debugList quiet exampleParser misnestedText) (λ _ s',
    m_taskQueue s' = [] ∧ inv (doc s') ∧ HTMLElementStack.wf (m_openElements s') ∧ HTMLFormattingElementList.wf (entries s') ∧
    (∀ r, r ∈ records s' → typeOf (doc s') (stackNode r) = Some ELEMENT_NODE ∧ tagOf (doc s') (stackNode r) = node_name (m_node (m_item r))) ∧
    ordered (doc s') (fmap (M := list) stackNode (records s'))) (@emptySite exampleParser).
Proof.
  apply (@parsing_builds_tree debugList exampleParser misnestedText); [by intros name _|intros buffer limit Hl; cbn; lia|vm_compute; done|reflexivity].
Defined.

(** The adoption agency leaves [<div><b></b><p><b></b></p></div>]: the element 6 stays where
    it was, the paragraph 7 comes after it, the new element 8 is in the paragraph. *)
Example misnested_tree :
  match @parse debugList quiet exampleParser misnested (@emptySite exampleParser) with
  | Some (_, s) => (childList (doc s) 5, childList (doc s) 6, childList (doc s) 7, tagOf (doc s) 8) = ([6; 7], [], [8], Some (htmlName "b"))%positive
  | None => False
  end.
Proof. vm_compute. reflexivity. Qed.

(** [<div><b><p><iframe></iframe></b>], and the tasks run before the last tag. *)
Definition misnestedFrame : list Action := [OpenElement (tag "div"); OpenFormatting (tag "b"); OpenElement (tag "p"); OpenElement (tag "iframe"); EndOther (text "iframe"); ExecuteTasks; EndFormatting (text "b")].

(** The frames of a subtree: its [iframe] elements. *)
Fixpoint isBelow (fuel : nat) (h : Heap) (root n : positive) : bool :=
  bool_decide (n = root) || match fuel with S fuel => match parentOf h n with Some p => isBelow fuel h root p | None => false end | O => false end.
Definition framesBelow (h : Heap) (root : positive) : nat :=
  length (filter (λ n, bool_decide (tagOf h n = Some (htmlName "iframe")) && isBelow (size h) h root n = true) (map_to_list h).*1).

(** The unload handler of the frame: while the paragraph is in the [b] element, it takes it out and moves the [div] into it. *)
Definition adoptingScript `{Build} : Script :=
  {| runScript pt h := match pt with SubframesDisconnected 6 => if bool_decide (parentOf h 7 = Some 6) then act (AppendChild 7 5) (act (RemoveChild 6 7) h) else h | _ => h end; connectedSubframeCount := framesBelow |}%positive.

Lemma ring_not_inv h a b c : parentOf h a = Some b → parentOf h b = Some c → parentOf h c = Some a → ¬ inv h.
Proof.
  intros Ha Hb Hc Hi. apply up_parent in Ha, Hb, Hc. assert (Hex : is_Some (h !! a)) by (unfold up in Ha; destruct (h !! a); [by eexists|done]).
  destruct (inv_ac _ Hi a Hex) as [l Hw]. assert (Hstep : ∀ x y l', up h x = Some y → way h x l' → ∃ l'', l' = x :: l'' ∧ way h y l'').
  { intros x y l' Hu Hx. inversion Hx as [? ? Hu'|? m l'' Hu' Hm]; subst; [congruence|]. rewrite Hu in Hu'. injection Hu' as <-. by exists l''. }
  destruct (Hstep a b l Ha Hw) as (l1 & -> & H1). destruct (Hstep b c l1 Hb H1) as (l2 & -> & H2). destruct (Hstep c a l2 Hc H2) as (l3 & -> & H3).
  pose proof (way_unique _ _ _ _ Hw H3) as E. apply (f_equal length) in E. cbn in E. lia.
Qed.

(** C36: The adoption agency can make a cycle of the document when a script runs in it: the task
    that moves the furthest block to the common ancestor takes the block out of its
    parent, which runs the unload handlers of the frames below that parent. A handler that calls the
    DOM only, to take the block out itself and move the common ancestor into the block,
    leaves the block without a parent, and it is appended to the common ancestor. Script runs only where
    there is an [iframe] to disconnect. No assertion fails, in a debug build either. *)
Theorem adoption_makes_cycle `{Build} :
  let p := exampleParser in
  (∀ pt h, inv h → inv (@runScript adoptingScript pt h) ∧ grows h (@runScript adoptingScript pt h)) ∧
  ∃ s', @parse _ adoptingScript p misnestedFrame (@emptySite p) = Some (tt, s') ∧ tagOf (doc s') 8 = Some (htmlName "iframe") ∧
    parentOf (doc s') 7 = Some 5%positive ∧ parentOf (doc s') 5 = Some 9%positive ∧ parentOf (doc s') 9 = Some 7%positive ∧ ¬ inv (doc s').
Proof.
  cbn zeta. split.
  - intros pt h Hi. cbn. destruct pt as [|[p|[[q|q|]|q|]|]| | | |]; try done. case_bool_decide; [|done]. destruct (act_ok (RemoveChild 6 7) h Hi) as [Hi1 Hg1]. destruct (act_ok (AppendChild 7 5) _ Hi1) as [Hi2 Hg2]. split; [done|by etransitivity].
  - assert (E : ∃ s', @parse _ adoptingScript exampleParser misnestedFrame (@emptySite exampleParser) = Some (tt, s') ∧ tagOf (doc s') 8 = Some (htmlName "iframe") ∧
      parentOf (doc s') 7 = Some 5%positive ∧ parentOf (doc s') 5 = Some 9%positive ∧ parentOf (doc s') 9 = Some 7%positive).
    { destruct H as [[|]]; eexists; (split; [vm_compute; reflexivity|]); split_and!; vm_compute; reflexivity. }
    destruct E as (s' & ? & ? & H7 & H5 & H9). exists s'. split_and!; [done..|]. by apply (ring_not_inv _ 7 5 9).
Qed.
