(* ===== verification/PageContent.v ===== *)
(** * The content of a page, at the construction site

    What the tree builder asks of the construction site for the content of the body keeps the
    invariant of the site and the frame around it ([stays]). *)

From Stdlib Require Import String.
From S2P Require Import Prelude HTMLStackItem HTMLElementStack HTMLFormattingElementList ContainerNode ContainerNodeLists ContainerNodeCorrect ContainerNodeScripts ContainerNodeTheorems.
From S2P Require Import TreeOrder HTMLConstructionSite AdoptionAgency TreeTasks SiteInvariant SiteOperations AdoptionCorrect SiteData TextNodes SiteTheorems.

#[local] Open Scope string_scope.
#[local] Open Scope list_scope.

Section Quiet.
Context `{Build} `{Parser}.
#[local] Existing Instance quiet.

(** ** The page *)

(** The body is open, nothing is redirected, the form is a form element. *)
Record frameOk (N : Z) (s : HTMLConstructionSite) : Prop := mkFrameOk {
  frame_bound : bounded N s;
  frame_body : m_bodyElement (m_openElements s) ≠ None;
  frame_redirect : m_redirectAttachToFosterParent s = false;
  frame_form : ∀ n, m_form s = Some n → tagOf (doc s) n = Some (htmlName "form");
}.
Definition inPage (N : Z) (s : HTMLConstructionSite) : Prop := siteOk s ∧ frameOk N s.

Lemma grows_tag h h' n t : grows h h' → tagOf h n = Some t → tagOf h' n = Some t.
Proof.
  unfold tagOf. intros Hg Ht. destruct (h !! n) as [r|] eqn:E; [|done]. destruct (Hg n r E) as (r' & -> & Hs). cbn in *. unfold static in Hs. congruence.
Qed.

Lemma frame_ok N s s' : around s s' → frameOk N s → frameOk N s'.
Proof.
  intros [E Hg] [H1 H2 H3 H4]. injection E as E1 E2 E3 E4 E5 E6. constructor; [intros n; unfold dataAt; rewrite E1; apply H1|congruence..|]. rewrite E5. intros n Hn. eapply grows_tag; [exact Hg|auto].
Qed.

Lemma frameOk_more N N' s : (N ≤ N')%Z → frameOk N s → frameOk N' s.
Proof. intros Hle [H1 H2 H3 H4]. constructor; try done. intros n. specialize (H1 n). lia. Qed.

(** An operation that keeps the invariant and the frame. *)
Definition stays {A} (m : CM A) : Prop := ∀ s, siteOk s → wp m (λ _ s', siteOk s' ∧ around s s') s.

Lemma stays_intro {A} (m : CM A) : steps around m → (∀ s, siteOk s → wp m (λ _ s', siteOk s') s) → stays m.
Proof. intros Hk Hm s Hok. by apply steps_wp; [|apply Hm]. Qed.

Lemma stays_page {A} (m : CM A) N (Q : A → HTMLConstructionSite → Prop) s : stays m → inPage N s → (∀ a s', inPage N s' → Q a s') → wp m Q s.
Proof. intros Hm [Hok Hf] HQ. eapply wp_mono; [by apply Hm|]. intros a s' [Hok' E]. apply HQ. split; [done|by eapply frame_ok]. Qed.

(** ** Closing elements *)

(** What is above an element that is not the root is ordinary, but for the head and the body right above the root. *)
Lemma above_ordinary a r b s : siteOk s → records s = a ++ r :: b → b ≠ [] → Forall (λ x, ordinary (m_item x) = true) a.
Proof.
  intros Hok E Hb. pose proof (ok_shape _ Hok) as Hs. apply Forall_forall. intros x (a1 & a2 & ->)%list_elem_of_split. assert (E' : records s = a1 ++ x :: a2 ++ r :: b) by (by rewrite E, <-app_assoc).
  destruct (rooted_split _ a1 x (a2 ++ r :: b) (wf_rooted _ (ok_stack _ Hs)) E') as (He & Hh & _); [by destruct a2|]. apply ordinary_split. split_and!; [done..| |]; apply not_true_iff_false; intros Ht.
  all: assert (Hl : length (a2 ++ r :: b) = 1%nat) by (apply (ok_low _ Hs a1 x); [done|by rewrite Ht, ?orb_true_r]).
  all: rewrite length_app in Hl; destruct b; [done|cbn in Hl; lia].
Qed.

(** The first record at which popping stops. *)
Lemma stop_split u (l : list ElementRecord) r : r ∈ l → stopsAt u (m_item r) = true → ∃ x b, fromStop u l = x :: b ∧ l = aboveStop u l ++ x :: b ∧ stopsAt u (m_item x) = true.
Proof.
  intros Hr Hu. pose proof (aboveFrom u l) as E. destruct (fromStop u l) as [|x b] eqn:Ef.
  - exfalso. rewrite app_nil_r in E. pose proof (aboveStop_spec u l) as Ha. rewrite <-E in Ha. pose proof (proj1 (Forall_forall _ _) Ha r Hr) as Hn. cbn in Hn. congruence.
  - exists x, b. split_and!; [done..|]. by eapply fromStop_spec.
Qed.

Lemma popUntilPopped_site u r s :
  siteOk s → r ∈ records s → stopsAt u (m_item r) = true → (∀ x, x ∈ records s → stopsAt u (m_item x) = true → ordinary (m_item x) = true ∧ isRootItem (m_item x) = false) →
  wp (onStack (perform (PopUntilPopped u))) (λ _ s', siteOk s' ∧ (length (records s') < length (records s))%nat) s.
Proof.
  intros Hok Hr Hu Hord. pose proof (ok_shape _ Hok) as Hs. destruct (stop_split u (records s) r Hr Hu) as (x & b & Ef & E & Hx). destruct (Hord x) as [Ho Hroot]; [rewrite E; set_solver|done|].
  assert (Hb : b ≠ []) by (by eapply (not_last s _ x b (ok_stack _ Hs))). pose proof (above_ordinary _ _ _ _ Hok E Hb) as Ha.
  apply wp_onStack. eapply wp_mono; [apply popUntilPopped_ok; [apply Hs|]|].
  - cbn [permitted]. rewrite Ef. destruct b as [|y b]; [done|]. apply andb_true_iff. split; [|done]. apply forallb_forall. intros z Hz%list_elem_of_In. by apply (proj1 (Forall_forall _ _) Ha).
  - intros [] k (Hwf & Et & _). cbn [spec fst] in Et. rewrite Ef in Et. cbn [tail] in Et. split.
    + apply siteOk_fewer; [done|done|by rewrite Et|rewrite Et, E; by apply sublist_inserts_l, sublist_cons|]. rewrite Et. eapply (low_app (aboveStop u (records s) ++ [x])). rewrite <-app_assoc. cbn. rewrite <-E. apply Hs.
    + cbn. rewrite Et, E, length_app. cbn. lia.
Qed.

Lemma popTag_ok name r s :
  siteOk s → r ∈ records s → matchesHTMLTag name (m_item r) = true → plain name = true →
  wp (onStack (popUntilPopped name)) (λ _ s', siteOk s' ∧ (length (records s') < length (records s))%nat) s.
Proof. intros Hok Hr Ht Hp. apply (popUntilPopped_site (AtTag name) r s); [done..|]. intros x Hx Hx'. by apply (plain_ordinary name); [apply (ok_document _ (ok_shape _ Hok))|..]. Qed.

Lemma header_tag item : isNumberedHeaderElement item = true → ∃ name, hasTagName name item = true ∧ name ∉ htmlName <$> ["html"; "head"; "body"].
Proof.
  unfold isNumberedHeaderElement, localNameIn. rewrite andb_true_iff, bool_decide_eq_true. destruct (m_localName item) as [name|] eqn:E; [|by intros [_ ?]]. rewrite bool_decide_eq_true. intros [Hns Hin].
  exists (mkName name xhtmlNamespaceURI). split; [unfold hasTagName; cbn; by rewrite E, !bool_decide_eq_true_2|]. cbn [fmap list_fmap] in Hin.
  repeat (apply elem_of_cons in Hin as [-> |Hin]; [by apply (bool_decide_eq_true_1 _)|]). by apply elem_of_nil in Hin.
Qed.

Lemma header_ordinary item : isElementItem item = true → isNumberedHeaderElement item = true → ordinary item = true ∧ isRootItem item = false.
Proof. intros He (name & Ht & Hn)%header_tag. by apply (tag_ordinary name). Qed.

Lemma popHeader_ok r s :
  siteOk s → r ∈ records s → isNumberedHeaderElement (m_item r) = true → wp (onStack popUntilNumberedHeaderElementPopped) (λ _ s', siteOk s' ∧ (length (records s') < length (records s))%nat) s.
Proof. intros Hok Hr Ht. apply (popUntilPopped_site AtNumberedHeader r s); [done..|]. intros x Hx Hx'. by apply header_ordinary; [apply (ok_document _ (ok_shape _ Hok))|]. Qed.

(** Popping the current node, an ordinary element. *)
Lemma popTop_ok r l s : siteOk s → records s = r :: l → ordinary (m_item r) = true → isRootItem (m_item r) = false → wp (onStack pop) (λ _ s', siteOk s' ∧ records s' = l) s.
Proof.
  intros Hok E Ho Hroot. assert (Hl : l ≠ []) by (by eapply (not_last s [] r l (ok_stack _ (ok_shape _ Hok)))). eapply wp_onStack, wp_pop; [done..|]. split; [by apply (siteOk_takenOff [] r l)|done].
Qed.

(** An element that is closed first by implied end tags, which do not close it. *)
Lemma implied_keeps excluded r s :
  siteOk s → r ∈ records s → hasImpliedEndTag (m_item r) = false ∨ excluded (m_item r) = true →
  wp (n ← gets (length ∘ m_top ∘ m_openElements); impliedLoop (S n) excluded) (λ _ s', siteOk s' ∧ r ∈ records s' ∧ (length (records s') ≤ length (records s))%nat) s.
Proof.
  intros Hok Hr Hn. apply wp_bind, wp_gets. eapply wp_mono; [apply impliedLoop_ok; [done|cbn; lia]|]. intros [] s' (Hok' & k & a & -> & E & Ha). split; [done|]. cbn. split; [|rewrite E, length_app; lia].
  rewrite E in Hr. apply elem_of_app in Hr as [Hr|]; [|done]. destruct (proj1 (Forall_forall _ _) Ha r Hr). destruct Hn; congruence.
Qed.

Lemma implied_keep r s :
  siteOk s → r ∈ records s → hasImpliedEndTag (m_item r) = false → wp generateImpliedEndTags (λ _ s', siteOk s' ∧ r ∈ records s' ∧ (length (records s') ≤ length (records s))%nat) s.
Proof. intros Hok Hr Hn. apply (implied_keeps _ r s Hok Hr). left. exact Hn. Qed.

Lemma impliedExcept_keep name r s :
  siteOk s → r ∈ records s → matchesHTMLTag name (m_item r) = true → wp (generateImpliedEndTagsWithExclusion name) (λ _ s', siteOk s' ∧ r ∈ records s' ∧ (length (records s') ≤ length (records s))%nat) s.
Proof. intros Hok Hr Hm. apply (implied_keeps _ r s Hok Hr). right. exact Hm. Qed.

(** An ordinary element taken off the stack wherever it is. *)
Lemma removeOpen_ok r element s :
  siteOk s → r ∈ records s → stackNode r = node_id element → ordinary (m_item r) = true → isRootItem (m_item r) = false → node_name element ∉ [Some (htmlName "html"); Some (htmlName "head"); Some (htmlName "body")] →
  wp (onStack (HTMLElementStack.remove element)) (λ _ s', siteOk s') s.
Proof.
  intros Hok (a & b & E)%list_elem_of_split Hn Ho Hroot Hname. pose proof (ok_shape _ Hok) as Hs. assert (Hb : b ≠ []) by (by eapply (not_last s a r b (ok_stack _ Hs))).
  rewrite !not_elem_of_cons in Hname. destruct Hname as (? & ? & ? & _). eapply wp_onStack, (wp_remove a r b element); try done; [apply Hs|]. by apply siteOk_takenOff.
Qed.

(** ** Foreign elements *)

(** The elements above the first that is not foreign content are ordinary. *)
Lemma popForeign_ok s : siteOk s → wp (onStack popUntilForeignContentScopeMarker) (λ _ s', siteOk s' ∧ (length (records s') ≤ length (records s))%nat) s.
Proof.
  intros Hok. pose proof (ok_shape _ Hok) as Hs. pose proof (wf_rooted _ (ok_stack _ Hs)) as Hro. unfold rooted in Hro. destruct (last (records s)) as [root|] eqn:El; [|by apply last_None in El; destruct (ok_top _ Hs)].
  destruct Hro as (_ & Hroot & _). assert (Hin : root ∈ records s) by (by apply last_Some_elem_of).
  assert (Hfor : ∀ x, x ∈ records s → isHTML (m_item x) || isHead (m_item x) || isBody (m_item x) = true → isForeignContentScopeMarker (m_item x) = true).
  { intros x Hx Ht. unfold isForeignContentScopeMarker. assert (Hns : isInHTMLNamespace (m_item x) = true); [|by rewrite Hns, ?orb_true_r].
    unfold isInHTMLNamespace, isHTML, isHead, isBody, hasTagName in *. rewrite !orb_true_iff, !andb_true_iff, !bool_decide_eq_true in Ht. rewrite !orb_true_iff, ?bool_decide_eq_true. cbn in Ht. naive_solver. }
  assert (Hmark : isForeignContentScopeMarker (m_item root) = true).
  { unfold isRootItem, isRootNode in Hroot. apply andb_true_iff in Hroot as [[Hf|Hh]%orb_true_iff _]; [|apply Hfor; [done|by unfold isHTML; rewrite Hh]]. pose proof (ok_document _ Hs root Hin) as He. unfold isElementItem, isElement in He. by rewrite Hf in He. }
  destruct (stop_split AtForeignContentEnd (records s) root Hin Hmark) as (x & b & Ef & E & Hx).
  assert (Ho : forallb (ordinary ∘ m_item) (aboveStop AtForeignContentEnd (records s)) = true).
  { apply forallb_forall. intros y Hy%list_elem_of_In. pose proof (proj1 (Forall_forall _ _) (aboveStop_spec AtForeignContentEnd (records s)) y Hy) as Hn. cbn in Hn. assert (Hyr : y ∈ records s) by (rewrite E; set_solver).
    cbn. apply ordinary_split. split; [by apply (ok_document _ Hs)|]. specialize (Hfor y Hyr). destruct (isHTML (m_item y)), (isHead (m_item y)), (isBody (m_item y)); try done; rewrite Hfor in Hn; done. }
  apply wp_onStack. eapply wp_mono; [apply (popLoop_ok AtForeignContentEnd _ x b); [apply Hs|done..]|]. intros [] k [Hp Ek]. split; [apply (siteOk_popped (aboveStop AtForeignContentEnd (records s))); [done|by rewrite Ek|done|by rewrite Ek]|].
  cbn. rewrite Ek, E, length_app. lia.
Qed.

(** ** Anchors *)

(** The anchor that a new one closes. *)
Lemma wp_closestAnchor (Q : option Node → HTMLConstructionSite → Prop) s :
  siteOk s → (∀ anchor, (∀ e, anchor = Some e → node_name e = Some (htmlName "a") ∧ tagOf (doc s) (node_id e) = Some (htmlName "a")) → Q anchor s) → wp (onList (closestElementInScopeWithName (text "a"))) Q s.
Proof.
  intros Hok HQ. pose proof (ok_shape _ Hok) as Hs. destruct (marker_split (entries s)) as (pre & items & El & Hm). eapply wp_askList; [rewrite El; apply closest_exact; [rewrite <-El; apply Hs|done]|].
  apply HQ. intros e He. destruct (last (filter (matchesHTMLTag (text "a")) items)) as [item|] eqn:Elast; [|done]. cbn in He. injection He as <-.
  apply last_Some_elem_of, list_elem_of_filter in Elast as [Ht Hin]. assert (Hact : Some item ∈ entries s) by (rewrite El; apply elem_of_app; right; by apply list_elem_of_fmap_2).
  destruct (ok_entries _ Hs _ Hact) as [_ Hso]. assert (En : node_name (m_node item) = Some (htmlName "a")) by (apply (bool_decide_eq_true_1 _); rewrite <-(sound_tag _ _ _ Hso); apply Is_true_true; exact Ht). split; [done|]. by rewrite (sound_tagOf _ _ Hso).
Qed.

(** An element of a known tag, when it is open. *)
Lemma wp_openTagged t element (Q : bool → HTMLConstructionSite → Prop) s :
  siteOk s → tagOf (doc s) (node_id element) = Some t → t ∉ htmlName <$> ["html"; "head"; "body"] →
  Q false s → (∀ r, r ∈ records s → stackNode r = node_id element → ordinary (m_item r) = true → isRootItem (m_item r) = false → Q true s) → wp (onStack (HTMLElementStack.contains (node_id element))) Q s.
Proof.
  intros Hok Ht Hn Hno Hyes. pose proof (ok_shape _ Hok) as Hs. apply wp_containsOpen. destruct (findRecord _ (records s)) as [r|] eqn:Ef; [|done]. rewrite bool_decide_eq_true_2 by done.
  pose proof Ef as (a & b & E & En%bool_decide_eq_true & _)%findRecord_split. assert (Hr : r ∈ records s) by (rewrite E; set_solver). pose proof (ok_sound _ Hs r Hr) as Hso.
  destruct (tag_ordinary t (m_item r)) as [Ho Hroot]; [by apply (ok_document _ Hs)| |done|by apply (Hyes r)].
  rewrite (sound_tag _ _ _ Hso), <-(sound_tagOf _ _ Hso). apply bool_decide_eq_true. unfold stackNode in En. by rewrite En.
Qed.

(** ** The layout of a page *)

(** The root and the body at the bottom, and ordinary elements above them. *)
Lemma page_layout N s : inPage N s → ∃ a body html, records s = a ++ [body; html] ∧ isBody (m_item body) = true ∧ isHTML (m_item html) = true ∧ Forall (λ x, ordinary (m_item x) = true) a.
Proof.
  intros [Hok Hf]. pose proof (ok_shape _ Hok) as Hs. destruct (m_bodyElement (m_openElements s)) as [n|] eqn:Eb; [|by destruct (frame_body _ _ Hf)].
  destruct (proj2 (wf_body _ (ok_stack _ Hs)) n Eb) as (body & (a & l & E)%list_elem_of_split & Hb & _). pose proof (ok_low _ Hs a body l E) as Hl. rewrite Hb, orb_true_r in Hl. specialize (Hl eq_refl).
  destruct l as [|html [|]]; [done| |done]. exists a, body, html. split_and!; [done..| |by eapply (above_ordinary a body [html])]. pose proof (wf_rooted _ (ok_stack _ Hs)) as Hr. unfold rooted in Hr.
  change (m_top (m_openElements s)) with (records s) in Hr. rewrite E in Hr. change (a ++ [body; html]) with (a ++ [body] ++ [html]) in Hr. rewrite app_assoc, last_snoc in Hr. destruct Hr as (_ & [Hr _]%andb_true_iff & _).
  apply orb_true_iff in Hr as [Hr|Hr]; [|done]. pose proof (ok_document _ Hs html) as He. rewrite E in He. specialize (He ltac:(set_solver)). unfold isElementItem, isElement in He. by rewrite Hr in He.
Qed.

(** The head is closed. *)
Lemma page_no_head N s r : inPage N s → r ∈ records s → isHead (m_item r) = false.
Proof.
  intros (a & body & html & E & Hb & Hh & Ha)%page_layout Hr. rewrite E in Hr. apply elem_of_app in Hr as [Hr|Hr]; [by apply (proj1 (Forall_forall _ _) Ha), ordinary_split in Hr as (_ & _ & ? & _)|].
  apply not_true_iff_false. intros Ht. apply elem_of_cons in Hr as [-> |Hr%list_elem_of_singleton].
  - pose proof (hasTagName_inj _ _ _ Hb Ht) as Eq. discriminate Eq.
  - subst r. pose proof (hasTagName_inj _ _ _ Hh Ht) as Eq. discriminate Eq.
Qed.

(** ** Operations that stay in the page *)

(** The factory makes the elements itself. *)
Context (Hcustom : ∀ name, findInterface name = false) (Hbreak : breaksBefore).

Lemma all_creatable name : creatable name = true.
Proof. unfold creatable. rewrite Hcustom, andb_false_r. done. Qed.

Lemma stays_reconstruct : stays reconstructTheActiveFormattingElements.
Proof. apply stays_intro; [auto with keeps|]. intros s Hok. apply reconstruct_ok; [by intros; apply all_creatable|done]. Qed.

Lemma stays_insert token : plain (tag_name token) = true → allowed (Some (mkName (tag_name token) xhtmlNamespaceURI)) = true → stays (insertHTMLElement token).
Proof. intros Hp Ha. apply stays_intro; [auto with keeps|]. intros s Hok. by apply wp_insertHTMLElement; [|apply all_creatable|..]. Qed.

Lemma stays_selfClosing token : allowed (Some (mkName (tag_name token) xhtmlNamespaceURI)) = true → stays (insertSelfClosingHTMLElement token).
Proof. intros Ha. apply stays_intro; [auto with keeps|]. intros s Hok. eapply wp_mono; [by apply insertSelfClosing_ok; [|apply all_creatable|]|]. by intros [] s' [? _]. Qed.

Lemma stays_formatting token : isFormattingTag (tag_name token) = true → NoDup (attributeName <$> tag_attributes token) → stays (insertFormattingElement token).
Proof. intros Hf Hd. apply stays_intro; [auto with keeps|]. intros s Hok. by apply insertFormattingElement_ok; [..|apply all_creatable|apply formatting_allowed|]. Qed.

Lemma stays_foreign token ns : ns ≠ xhtmlNamespaceURI → stays (insertForeignElement token ns).
Proof.
  intros Hns. apply stays_intro; [auto with keeps|]. intros s Hok. apply openForeign_ok; [done|]. cbn. rewrite (bool_decide_eq_true_2 (ns ≠ _)) by done. cbn.
  assert (E : ∀ name, bool_decide (Some (mkName (tag_name token) ns) = Some (htmlName name)) = false) by (intros name; apply bool_decide_eq_false; by intros [= _ E]). unfold isPluginElement. rewrite !E. apply orb_true_r.
Qed.

Lemma stays_script token : tag_name token = text "script" → stays (insertScriptElement token).
Proof. intros Ht. apply stays_intro; [auto with keeps|]. intros s Hok. eapply wp_mono; [by apply openScript_ok|]. by intros [] s' [? _]. Qed.

Lemma stays_implied : stays generateImpliedEndTags.
Proof. apply stays_intro; [auto with keeps|]. apply generateImpliedEndTags_ok. Qed.

Lemma stays_impliedExcept name : stays (generateImpliedEndTagsWithExclusion name).
Proof.
  apply stays_intro; [auto with keeps|]. intros s Hok. unfold generateImpliedEndTagsWithExclusion. apply wp_bind, wp_gets. eapply wp_mono; [apply impliedLoop_ok; [done|cbn; lia]|]. by intros [] s' [? _].
Qed.

Lemma stays_adoption name : isFormattingTag name = true → stays (callTheAdoptionAgency name).
Proof. intros Hf. apply stays_intro; [auto with keeps|]. intros s Hok. by apply outerLoop_ok; [by intros; apply all_creatable|..]. Qed.

Lemma stays_anyOther name : plain name = true → stays (processAnyOtherEndTagForInBody name).
Proof. intros Hp. apply stays_intro; [auto with keeps|]. intros s Hok. by apply anyOther_ok. Qed.

(** An end tag that is not for an element of the page. *)
Lemma headEnd_page N s : inPage N s → wp (processAnyOtherEndTagForInBody (text "head")) (λ _ s', inPage N s') s.
Proof.
  intros Hi. pose proof Hi as [Hok Hf]. eapply wp_mono; [apply (steps_wp around); [auto with keeps|apply (anyOther_tag (text "head") s Hok)]|].
  - intros r Hr Ht. rewrite matches_tag in Ht. pose proof (page_no_head _ _ _ Hi Hr) as Hn. unfold isHead, htmlName in Hn. congruence.
  - intros [] s' [Hok' Ha]. split; [done|by eapply frame_ok].
Qed.

Lemma stays_marker : stays (onList appendMarker).
Proof. apply stays_intro; [auto with keeps|]. apply marker_ok. Qed.
Lemma stays_clear : stays (onList clearToLastMarker).
Proof. apply stays_intro; [apply keeps_onList|]. intros s Hok. by apply clearEntries_ok. Qed.
Lemma stays_tasks : stays executeQueuedTasks.
Proof. apply stays_intro; [auto with keeps|]. intros s Hok. eapply wp_mono; [by apply executeQueue_ok|]. by intros [] s' [? _]. Qed.

(** An element that is not a custom element. *)
Lemma generic_run token s : insertHTMLElementOrFindCustomElementInterface token s = (insertHTMLElement token;; mret false) s.
Proof.
  unfold insertHTMLElementOrFindCustomElementInterface, insertHTMLElement, createHTMLElement, createHTMLElementOrFindCustomElementInterface. rewrite Hcustom, andb_false_r. cbn [andb negb]. unfold mbind, M_bind, mret, M_ret.
  destruct (createElement _ _ s) as [[e s1]|]; [|done]. cbn. destruct (currentNode s1) as [[p s2]|]; [|done]. destruct (attachLater p (node_id e.1) false s2) as [[? s3]|]; [|done]. by destruct (onStack _ s3) as [[? ?]|].
Qed.

Lemma stays_generic token : plain (tag_name token) = true → allowed (Some (mkName (tag_name token) xhtmlNamespaceURI)) = true → stays (insertHTMLElementOrFindCustomElementInterface token).
Proof.
  intros Hp Ha s Hok. unfold wp. rewrite generic_run. change (wp (insertHTMLElement token;; mret false) (λ _ s', siteOk s' ∧ around s s') s). apply wp_bind. eapply wp_mono; [by apply stays_insert|]. intros [] s' Hs. by apply wp_ret.
Qed.

(** More attributes for the root or the body. *)
Lemma stays_merge token element : stays (mergeAttributesFromTokenIntoElement token element).
Proof.
  intros s Hok. unfold mergeAttributesFromTokenIntoElement. case_bool_decide; [by apply wp_ret|]. apply wp_modify. split; [by apply (siteOk_ext s)|]. split; [done|unfold growing; cbn; reflexivity].
Qed.

Lemma html_again token s : siteOk s → wp (insertHTMLHtmlStartTagInBody token) (λ _ s', siteOk s' ∧ around s s') s.
Proof.
  intros Hok. unfold insertHTMLHtmlStartTagInBody. destruct m_isParsingFragment; [by apply wp_ret|]. pose proof (ok_shape _ Hok) as Hs. pose proof (wf_rooted _ (ok_stack _ Hs)) as Hr. unfold rooted in Hr.
  destruct (last _) as [root|] eqn:El; [|by apply last_None in El; destruct (ok_top _ Hs)]. destruct Hr as [Hr _]. apply wp_bind. eapply wp_askStack; [unfold rootNode, gets, mbind, M_bind; by rewrite Hr|]. by apply stays_merge.
Qed.

Lemma body_again token N s : inPage N s → wp (insertHTMLBodyStartTagInBody token) (λ _ s', siteOk s' ∧ around s s') s.
Proof.
  intros [Hok Hf]. unfold insertHTMLBodyStartTagInBody. pose proof (frame_body _ _ Hf) as Hb. destruct (m_bodyElement (m_openElements s)) as [body|] eqn:Eb; [|done].
  apply wp_bind. eapply wp_askStack; [unfold bodyElement, gets, mbind, M_bind; by rewrite Eb|]. by apply stays_merge.
Qed.

Lemma stays_removeEntry n : stays (onList (HTMLFormattingElementList.remove n)).
Proof.
  clear Hbreak. apply stays_intro; [apply keeps_onList|]. intros s Hok. pose proof (ok_list _ (ok_shape _ Hok)) as Hwf. destruct (decide (n ∈ nodes (entries s))) as [Hin|Hin].
  - apply nodes_split in Hin as (ea & item & eb & E & <-). apply (removeEntry_ok (λ name _, all_creatable name)); [done|]. rewrite E. set_solver.
  - apply wp_onList. unfold wp, HTMLFormattingElementList.remove, mbind, M_bind. rewrite find_absent by done. by destruct s.
Qed.

(** ** Text and comments *)

Lemma text_page N characters s : inPage N s → (N + lengthZ characters ≤ textLimit)%Z → wp (insertTextNode characters) (λ _ s', inPage (N + lengthZ characters) s' ∧ records s' = records s) s.
Proof.
  intros [Hok [H1 H2 H3 H4]] Hl. eapply wp_mono; [by apply (insertTextNode_ok Hbreak characters N); [apply Hok|..]|]. intros [] s' Ht. assert (Hok' : siteOk s') by (by eapply texted_ok). destruct Ht as (T & e & d & -> & Ha & ?). split; [|done]. split; [done|]. constructor; try done. intros n Hn. eapply grows_tag; [apply Ha|]. by apply H4.
Qed.

Lemma commentAt_around comment parent s a s' :
  (n ← createComment comment; attachLater parent n false) s = Some (a, s') → ends (m_openElements s') = ends (m_openElements s) ∧ m_redirectAttachToFosterParent s' = m_redirectAttachToFosterParent s ∧ m_form s' = m_form s ∧ m_head s' = m_head s ∧ growing (tree s) (tree s').
Proof.
  unfold createComment, createNode, mbind, M_bind. intros E.
  destruct (onTree (allocate COMMENT_NODE None None) s) as [[n s2]|] eqn:E2; [|done]. apply (keeps_onTree _ (steps_allocate _ _ _)) in E2 as [E2 G2]. cbn in E. apply keeps_attachLater in E as [E G3].
  unfold frame in *. cbn in E, E2. unfold ends in *. cbn in *. split_and!; try congruence. etransitivity; [exact G2|exact G3].
Qed.

Lemma commentAt_page N comment parent s : inPage N s → is_Some (doc s !! parent) → wp (n ← createComment comment; attachLater parent n false) (λ _ s', inPage (N + lengthZ comment) s' ∧ records s' = records s) s.
Proof.
  intros [Hok [H1 H2 H3 H4]] Hp. pose proof (commentAt_ok comment parent s Hok Hp) as Hw. unfold wp in *. destruct ((n ← createComment comment; attachLater parent n false) s) as [[a s']|] eqn:E; [|done].
  destruct (commentAt_around comment parent s a s' E) as ([= E1 E2] & E3 & E4 & _ & Hg). destruct Hw as [Hok' Er]. split; [|done]. split; [done|]. constructor; [by eapply commentAt_bounded|congruence..|]. rewrite E4. intros n Hn. eapply grows_tag; [exact Hg|auto].
Qed.

Lemma comment_page N comment s : inPage N s → wp (insertComment comment) (λ _ s', inPage (N + lengthZ comment) s' ∧ records s' = records s) s.
Proof. intros Hi. apply wp_bind, wp_currentNode; [apply Hi|]. intros r l _ Hr. by apply commentAt_page. Qed.

(** Comments after the body, on the root and on the document. *)
Lemma rootComment_page N comment s : inPage N s → wp (insertCommentOnHTMLHtmlElement comment) (λ _ s', inPage (N + lengthZ comment) s' ∧ records s' = records s) s.
Proof.
  intros Hi. pose proof (ok_shape _ (proj1 Hi)) as Hs. pose proof (wf_rooted _ (ok_stack _ Hs)) as Hr. unfold rooted in Hr.
  destruct (last _) as [root|] eqn:El; [|by apply last_None in El; destruct (ok_top _ Hs)]. destruct Hr as [Hr _]. apply wp_bind. eapply wp_askStack; [unfold rootNode, gets, mbind, M_bind; by rewrite Hr|].
  apply commentAt_page; [done|]. eapply sound_exists, (ok_sound _ Hs). by apply last_Some_elem_of.
Qed.

Lemma documentComment_page N comment s : inPage N s → wp (insertCommentOnDocument comment) (λ _ s', inPage (N + lengthZ comment) s' ∧ records s' = records s) s.
Proof. intros Hi. apply commentAt_page; [done|]. apply (ok_root _ (ok_shape _ (proj1 Hi))). Qed.

(** ** Forms *)

Lemma form_page token N s : inPage N s → tag_name token = text "form" → wp (insertHTMLFormElement token) (λ _ s', inPage N s') s.
Proof.
  intros [Hok Hf] Et. unfold insertHTMLFormElement. apply wp_bind, wp_createHTMLElement; [apply all_creatable|]. intros n A Hn.
  destruct (ask_run TemplateInHTMLScope (m_openElements s)) as (answer & Hask & _); [apply Hok|apply (ok_top _ (ok_shape _ Hok))|]. apply wp_bind. eapply wp_askStack; [exact Hask|]. apply wp_bind.
  assert (Hrest : ∀ f, (∀ m, f = Some m → m = n ∨ tagOf (doc s) m = Some (htmlName "form")) →
    wp (parent ← currentNode; attachLater parent n false;; onStack (push (newItem n (tag_name token) xhtmlNamespaceURI (allowedAttributes (mkName (tag_name token) xhtmlNamespaceURI) (tag_attributes token)))))
    (λ _ s', inPage N s') (set_form f (set_attributesOf A (withNode n ELEMENT_NODE (Some (mkName (tag_name token) xhtmlNamespaceURI)) s)))).
  { intros f Hform. eapply wp_mono; [apply (steps_wp around); [keep; [apply keeps_currentNode|apply keeps_attachLater]|apply (formRest_ok token n A f s Hok Hn)]|].
    1: by rewrite Et.
    1: rewrite Et; by apply allowed_tag.
    intros [] s' [Hok' Har]. split; [done|]. eapply frame_ok; [exact Har|]. destruct Hf as [H1 H2 H3 H4]. constructor; try done. cbn. intros m Hm. destruct (Hform m Hm) as [-> |Ht].
    - unfold tagOf. by rewrite lookup_insert_eq, Et.
    - eapply grows_tag; [by apply (withNode_grows n ELEMENT_NODE _ s)|done]. }
  destruct answer; [apply wp_ret|apply wp_modify; apply Hrest; naive_solver]. refine (Hrest (m_form s) _). intros m Hm. right. by apply (frame_form _ _ Hf).
Qed.

(** The form element is taken, so that the site has none. *)
Lemma takeForm_page N (Q : option positive → HTMLConstructionSite → Prop) s :
  inPage N s → (∀ form s', inPage N s' → records s' = records s → m_openElements s' = m_openElements s → (∀ n, form = Some n → tagOf (doc s') n = Some (htmlName "form")) → Q form s') → wp takeForm Q s.
Proof.
  intros [Hok [H1 H2 H3 H4]] HQ. unfold takeForm. apply wp_bind, wp_gets, wp_bind, wp_modify, wp_ret, HQ; [|done|done|done]. split; [by apply (siteOk_ext s)|]. by constructor.
Qed.

(** ** New elements on top *)

Lemma named_matches name r : named name r → matchesHTMLTag name (m_item r) = true.
Proof. intros [E1 E2]. unfold matchesHTMLTag. by rewrite E1, E2, !bool_decide_eq_true_2. Qed.

Lemma insert_top token s :
  siteOk s → plain (tag_name token) = true → allowed (Some (mkName (tag_name token) xhtmlNamespaceURI)) = true →
  wp (insertHTMLElement token) (λ _ s', (siteOk s' ∧ ∃ r, records s' = r :: records s ∧ named (tag_name token) r) ∧ around s s') s.
Proof.
  intros Hok Hp Ha. apply (steps_wp around); [auto with keeps|]. apply wp_insertHTMLElement; [done|apply all_creatable|done..|]. intros n A task s' Hn Hok'. split; [done|]. eexists. by split.
Qed.

Lemma script_top token s :
  siteOk s → tag_name token = text "script" → wp (insertScriptElement token) (λ _ s', (siteOk s' ∧ ∃ r, records s' = r :: records s ∧ named (text "script") r) ∧ around s s') s.
Proof. intros Hok Et. apply (steps_wp around); [auto with keeps|]. by apply openScript_ok. Qed.

End Quiet.
