(* ===== verification/HeadContent.v ===== *)
(** * The start of a page, at the construction site

    The construction site before the body is opened. After the head was closed its element
    is put back on the stack for the tags that belong into it, so that the invariant is about
    the site with the head on the stack also where it is not ([headSite]). *)

From Stdlib Require Import String.
From S2P Require Import Prelude HTMLStackItem HTMLElementStack HTMLFormattingElementList ContainerNode ContainerNodeLists ContainerNodeCorrect ContainerNodeScripts ContainerNodeTheorems.
From S2P Require Import TreeOrder HTMLConstructionSite AdoptionAgency TreeTasks SiteInvariant SiteOperations AdoptionCorrect SiteData TextNodes SiteTheorems PageContent.

#[local] Open Scope string_scope.
#[local] Open Scope list_scope.

Section Quiet.
Context `{Build} `{Parser}.
#[local] Existing Instance quiet.

(** ** The site with a head *)

(** No form, nothing redirected. *)
Definition early (N : Z) (s : HTMLConstructionSite) : Prop := bounded N s ∧ m_redirectAttachToFosterParent s = false ∧ m_form s = None.

Lemma early_around N s s' : around s s' → early N s → early N s'.
Proof. intros [[= E1 _ _ _ E5 E6] _] (HN & Hr & Hf). split_and!; [|congruence..]. intros n. unfold dataAt. rewrite E1. apply HN. Qed.
Lemma early_start N s s' : startAround s s' → early N s → early N s'.
Proof. intros [[= E1 E5 E6] _] (HN & Hr & Hf). split_and!; [|congruence..]. intros n. unfold dataAt. rewrite E1. apply HN. Qed.
Lemma early_more N N' s : (N ≤ N')%Z → early N s → early N' s.
Proof. intros Hle (HN & ? & ?). split_and!; [|done..]. intros n. specialize (HN n). lia. Qed.

(** The elements [a] above the head and the root; [hidden] when the head is off the stack,
    where [v] is the site with it. *)
Definition withHead (a : list ElementRecord) (hidden : bool) (s : HTMLConstructionSite) : Prop :=
  ∃ v h html k, siteOk v ∧ records v = a ++ [h; html] ∧ isHead (m_item h) = true ∧ m_head v = Some (m_item h) ∧
    s = set_openElements k v ∧ HTMLElementStack.wf k ∧ m_top k = a ++ if hidden then [html] else [h; html].
Definition headSite (N : Z) (a : list ElementRecord) (hidden : bool) (s : HTMLConstructionSite) : Prop := early N s ∧ withHead a hidden s.

Lemma withHead_low a hidden s : withHead a hidden s → siteOk s ∧ ∃ h html, records s = (a ++ if hidden then [html] else [h; html]) ∧ isHead (m_item h) = true ∧ m_head s = Some (m_item h).
Proof.
  intros (v & h & html & k & Hok & E & Hh & Em & -> & Hwf & Ek). split; [|by exists h, html]. pose proof (ok_low _ (ok_shape _ Hok)) as Hlow. rewrite E in Hlow.
  apply siteOk_fewer; [done..|rewrite Ek; by destruct a, hidden| |]; rewrite Ek; [rewrite E|]; destruct hidden; [|done|by apply (low_off a h [html])|done].
  apply sublist_app; [done|]. by apply sublist_cons.
Qed.

Lemma withHead_open a s h html : siteOk s → records s = a ++ [h; html] → isHead (m_item h) = true → m_head s = Some (m_item h) → withHead a false s.
Proof. intros Hok E Hh Em. exists s, h, html, (m_openElements s). split_and!; try done; [by destruct s|apply Hok]. Qed.

Lemma headSite_more N N' a hidden s : (N ≤ N')%Z → headSite N a hidden s → headSite N' a hidden s.
Proof. intros Hle [He ?]. split; [by eapply early_more|done]. Qed.

(** ** Text and comments *)

Context (Hbreak : breaksBefore).

Lemma headSite_text N characters a hidden s : headSite N a hidden s → (N + lengthZ characters ≤ textLimit)%Z → wp (insertTextNode characters) (λ _ s', headSite (N + lengthZ characters) a hidden s') s.
Proof.
  intros [(HN & Hr & Hf) Hh] Hl. destruct (withHead_low _ _ _ Hh) as [Hok _]. eapply wp_mono; [by apply (insertTextNode_ok Hbreak characters N); [apply Hok|..]|]. intros [] s' (T & e & d & -> & Ha & HN'). split; [done|].
  destruct Hh as (v & h & html & k & Hv & E & Hh & Em & -> & Hwf & Ek). exists (set_dataOf d (executed T e v)), h, html, (mkStack (m_top k) (m_rootNode k) (m_headElement k) (m_bodyElement k) (m_stackDepth k) (nextAddress k) (events k ++ e)).
  split_and!; try done; [apply (siteOk_ext (executed T e v)); [done..|by apply siteOk_ahead]|by apply wf_events].
Qed.

Lemma withHead_comment comment parent a hidden s : withHead a hidden s → is_Some (doc s !! parent) → wp (n ← createComment comment; attachLater parent n false) (λ _ s', withHead a hidden s') s.
Proof.
  intros Hh Hp. destruct (withHead_low _ _ _ Hh) as [Hok _]. unfold createComment, createNode. apply wp_bind, wp_bind, wp_onTree. unfold allocate. apply wp_bind, wp_gets.
  apply wp_bind, wp_modify. apply wp_ret, wp_bind, wp_modify. apply wp_ret. pose proof (fresh_none (doc s)) as Hn. set (n := base.fresh (dom (doc s))) in *. set (s0 := set_dataOf (<[n := comment]> (dataOf s)) s).
  assert (Hok0 : siteOk s0) by (by apply (siteOk_ext s)). apply (wp_attachLater s0 n COMMENT_NODE None _ false (attributesOf s)); [apply Hok0|done|done|unfold allowed; by destruct (scriptingContentIsAllowed _), (pluginContentIsAllowed _)|].
  intros p next sc Hp' Hnext. destruct Hh as (v & h & html & k & Hv & E & Hh & Em & -> & Hwf & Ek). set (v0 := set_dataOf (<[n := comment]> (dataOf v)) v).
  exists (queued (mkTask Insert p next n sc) (set_attributesOf (attributesOf v) (withNode n COMMENT_NODE None v0))), h, html, k. split_and!; try done. apply siteOk_leaf; [by apply (siteOk_ext v)|done| |by apply (bool_decide_eq_true_1 _)|done].
  split; [done|]. intros x Hx. destruct (Hnext x Hx) as [Hin Hpar]. split; [|done]. revert Hin. apply anchors_sublist. cbn. rewrite Ek, E. destruct hidden; [|done]. apply sublist_app; [done|]. by apply sublist_cons.
Qed.

Lemma headSite_comment N comment parent a hidden s :
  headSite N a hidden s → is_Some (doc s !! parent) → wp (n ← createComment comment; attachLater parent n false) (λ _ s', headSite (N + lengthZ comment) a hidden s') s.
Proof.
  intros [(HN & Hr & Hf) Hh] Hp. pose proof (withHead_comment comment parent a hidden s Hh Hp) as Hw. unfold wp in *. destruct ((n ← createComment comment; attachLater parent n false) s) as [[u s']|] eqn:E; [|done]. split; [|done].
  destruct (commentAt_around comment parent s u s' E) as (_ & E3 & E4 & _). split_and!; [by eapply commentAt_bounded|congruence..].
Qed.

Lemma headSite_commentHere N comment a hidden s : headSite N a hidden s → wp (insertComment comment) (λ _ s', headSite (N + lengthZ comment) a hidden s') s.
Proof. intros Hh. destruct (withHead_low _ _ _ (proj2 Hh)) as [Hok _]. apply wp_bind, wp_currentNode; [apply Hok|]. intros r l _ Hr. by apply headSite_comment. Qed.

(** ** The queue *)

Lemma withHead_queue a hidden s : withHead a hidden s → wp executeQueuedTasks (λ _ s', withHead a hidden s' ∧ m_taskQueue s' = []) s.
Proof.
  intros (v & h & html & k & Hv & E & Hh & Em & -> & Hwf & Ek). unfold executeQueuedTasks. apply wp_bind, wp_gets. case_bool_decide as Eq.
  - apply nil_length_inv in Eq. apply wp_ret. split; [|done]. by exists v, h, html, k.
  - apply wp_bind, wp_modify, executeTasks_ok. cbn [set_taskQueue set_openElements tree m_taskQueue]. eapply wp_mono; [exact (ok_pending _ Hv (tree v) (ahead_refl _ (ok_tree _ (ok_shape _ Hv))))|].
    intros [] T Hout e. split; [|done]. exists (executed T e (set_taskQueue [] v)), h, html, (mkStack (m_top k) (m_rootNode k) (m_headElement k) (m_bodyElement k) (m_stackDepth k) (nextAddress k) (events k ++ e)).
    split_and!; try done; [by apply siteOk_executed|by apply wf_events].
Qed.

Lemma headSite_queue N a hidden s : headSite N a hidden s → wp executeQueuedTasks (λ _ s', headSite N a hidden s' ∧ m_taskQueue s' = []) s.
Proof.
  intros [He Hh]. assert (Hk : steps around executeQueuedTasks) by auto with keeps. eapply wp_mono; [exact (steps_wp around _ _ _ Hk (withHead_queue _ _ _ Hh))|]. intros [] s' [[Hh' Eq] Ha]. split; [split; [by eapply early_around|exact Hh']|exact Eq].
Qed.

(** More attributes for an element. *)
Lemma headSite_merge N token element a hidden s : headSite N a hidden s → wp (mergeAttributesFromTokenIntoElement token element) (λ _ s', headSite N a hidden s') s.
Proof.
  intros [He (v & h & html & k & Hv & E & Hh & Em & -> & Hwf & Ek)]. unfold mergeAttributesFromTokenIntoElement. case_bool_decide; [apply wp_ret; split; [done|by exists v, h, html, k]|]. apply wp_modify. split; [done|].
  eexists (set_attributesOf _ v), h, html, k. split_and!; try done. by apply (siteOk_ext v).
Qed.

Lemma headSite_htmlAgain N token a hidden s : headSite N a hidden s → wp (insertHTMLHtmlStartTagInBody token) (λ _ s', headSite N a hidden s') s.
Proof.
  intros Hh. unfold insertHTMLHtmlStartTagInBody. destruct m_isParsingFragment; [by apply wp_ret|]. destruct (withHead_low _ _ _ (proj2 Hh)) as [Hok _]. pose proof (ok_shape _ Hok) as Hs. pose proof (wf_rooted _ (ok_stack _ Hs)) as Hr. unfold rooted in Hr.
  destruct (last _) as [root|] eqn:El; [|by apply last_None in El; destruct (ok_top _ Hs)]. destruct Hr as [Hr _]. apply wp_bind. eapply wp_askStack; [unfold rootNode, gets, mbind, M_bind; by rewrite Hr|]. by apply headSite_merge.
Qed.

(** ** The stack *)

(** The current element is closed. *)
Lemma headSite_pop N x a hidden s : headSite N (x :: a) hidden s → wp (onStack pop) (λ _ s', headSite N a hidden s') s.
Proof.
  intros [He (v & h & html & k & Hv & E & Hh & Em & -> & Hwf & Ek)]. assert (Ho : ordinary (m_item x) = true) by (pose proof (above_ordinary (x :: a) h [html] v Hv E ltac:(done)) as Ha; by apply Forall_cons in Ha as [? _]).
  eapply wp_onStack, wp_pop; [exact Ek|done|]. split; [done|]. exists (set_openElements (takenOff x (a ++ [h; html]) (m_openElements v)) v), h, html, (takenOff x (a ++ if hidden then [html] else [h; html]) k).
  split_and!; try done; [apply (siteOk_takenOff [] x (a ++ [h; html])); [done..|by destruct a]|]. apply (takenOff_wf k [] x); [done..|by destruct a, hidden].
Qed.

(** The head is closed. *)
Lemma headSite_popHead N s : headSite N [] false s → wp (onStack popHTMLHeadElement) (λ _ s', headSite N [] true s') s.
Proof.
  intros [He Hw]. destruct (withHead_low _ _ _ Hw) as (Hok & h & html & E & Hh & Em). cbn [app] in E. eapply wp_onStack, (wp_popHead h [html]); [apply Hok|done..|]. split; [done|]. exists s, h, html, (takenOff h [html] (m_openElements s)).
  split_and!; try done. apply (takenOff_wf _ [] h [html]); [apply Hok|done..].
Qed.

Lemma fmap_split {A B} (f : A → B) (l : list A) x y z : f <$> l = x ++ y :: z → ∃ a r b, l = a ++ r :: b ∧ f r = y ∧ f <$> b = z.
Proof.
  revert l. induction x as [|x0 x IH]; intros [|r l] E; try done; cbn in E; injection E as E El; [by exists [], r, l|]. destruct (IH l El) as (a & r' & b & -> & ? & ?). by exists (r :: a), r', b.
Qed.

(** The stack with other records for the same elements. *)
Lemma siteOk_restack k s : siteOk s → HTMLElementStack.wf k → m_item <$> m_top k = m_item <$> records s → siteOk (set_openElements k s).
Proof.
  intros [[H1 H2 H3 H4 H5 H6 H7 H7' H8 H9 H10] Hp] Hwf E. assert (Hin : ∀ r, r ∈ m_top k → ∃ r', r' ∈ records s ∧ m_item r' = m_item r).
  { intros r Hr. apply (list_elem_of_fmap_2 m_item) in Hr. rewrite E in Hr. apply list_elem_of_fmap in Hr as (r' & -> & ?). by exists r'. }
  assert (En : stackNode <$> m_top k = stackNode <$> records s) by (unfold stackNode; rewrite !(list_fmap_compose m_item (λ i, node_id (m_node i))); by rewrite E).
  assert (Ea : anchors (m_top k) = anchors (records s)).
  { unfold anchors. clear -E. revert E. generalize (m_top k) as l, (records s) as l'. induction l as [|r l IH]; intros [|r' l'] E; try done. cbn in E. injection E as E El. assert (Ha : isAnchor r' = isAnchor r) by (unfold isAnchor, isTable; by rewrite E).
    destruct (isAnchor r) eqn:Er; [rewrite !(filter_cons_True (λ r, isAnchor r = true)) by done|rewrite !(filter_cons_False (λ r, isAnchor r = true)) by congruence; by apply IH]. cbn. unfold stackNode at 1 3. by rewrite E, (IH l'). }
  split; [constructor; try done; cbn [set_openElements m_openElements]|].
  - intros Hnil. rewrite Hnil in E. by destruct (records s).
  - intros r (r' & Hr' & <-)%Hin. auto.
  - intros r (r' & Hr' & <-)%Hin. auto.
  - intros r item Hr Hi En'. destruct (Hin r Hr) as (r' & Hr' & Eq). unfold stackNode in En'. rewrite <-Eq in *. by apply H8.
  - intros a r b El Hl. apply (f_equal (fmap m_item)) in El. rewrite E, fmap_app, fmap_cons in El. apply fmap_split in El as (a' & r' & b' & Ers & Er & Eb). rewrite <-Er in Hl.
    apply (f_equal length) in Eb. rewrite !length_fmap in Eb. rewrite <-Eb. by eapply H9.
  - unfold pending in *. cbn [set_openElements m_openElements]. by rewrite En, Ea.
Qed.

(** The head is put back. *)
Lemma headSite_push N item s : headSite N [] true s → m_head s = Some item → wp (onStack (pushHTMLHeadElement item)) (λ _ s', headSite N [] false s') s.
Proof.
  intros [He (v & h & html & k & Hv & E & Hh & Em & -> & Hwf & Ek)] Eitem. cbn in Eitem. rewrite Em in Eitem. injection Eitem as <-. cbn [app] in *. pose proof (ok_shape _ Hv) as Hs.
  assert (Hel : isElementItem (m_item h) = true) by (apply (ok_document _ Hs); rewrite E; apply list_elem_of_here). destruct (only_root k html Hwf Ek) as [Eh Eb]. assert (Hhtml : isHTML (m_item h) = false) by (apply not_true_iff_false; intros Ht; discriminate (hasTagName_inj _ _ _ Hh Ht)).
  apply wp_onStack, wp_pushHead; [done|apply bool_decide_eq_true; cbn; by rewrite Ek|done..|]. split; [done|]. set (k2 := putIn (m_item h) [] (m_top k) [] k).
  assert (Hwf2 : HTMLElementStack.wf k2).
  { apply putIn_wf; [done|done|by rewrite Ek|done..| |done|by rewrite Eb]. apply bool_decide_eq_true. rewrite Ek. pose proof (HTMLElementStack.wf_nodes _ (ok_stack _ Hs)) as Hnd. rewrite E in Hnd. cbn in Hnd. by apply NoDup_cons in Hnd as [? _]. }
  exists (set_openElements k2 v), (mkRecord (nextAddress k) (m_item h)), html, k2. split_and!; try done; [|cbn; by rewrite Ek..]. apply siteOk_restack; [done..|]. cbn. by rewrite Ek, E.
Qed.

(** The head is taken off again. *)
Lemma headSite_remove N a item s : headSite N a false s → m_head s = Some item → wp (element ← onStack (downcast item); onStack (removeHTMLHeadElement element)) (λ _ s', headSite N a true s') s.
Proof.
  clear Hbreak. intros [He Hw] Eitem. destruct (withHead_low _ _ _ Hw) as (Hok & h & html & E & Hh & Em). rewrite Em in Eitem. injection Eitem as <-. pose proof (ok_shape _ Hok) as Hs. assert (Hr : h ∈ records s) by (rewrite E; set_solver).
  pose proof (ok_sound _ Hs h Hr) as Hso. assert (En : node_name (m_node (m_item h)) = Some (htmlName "head")) by (apply (bool_decide_eq_true_1 _); by rewrite <-(sound_tag _ _ _ Hso)).
  apply wp_bind, wp_downcastItem; [by apply (ok_document _ Hs)|]. eapply wp_onStack, (wp_removeHead a h [html]); [apply Hs|exact E|done|done|done| |by rewrite En|by rewrite En|].
  - by apply (proj1 (wf_head _ (ok_stack _ Hs)) h).
  - split; [done|]. exists s, h, html, (takenOff h (a ++ [html]) (m_openElements s)). split_and!; try done. apply takenOff_wf; [apply Hs|done..].
Qed.

(** ** Elements of the head *)

Context (Hcustom : ∀ name, findInterface name = false).

Lemma headSite_selfClosing N token a s : headSite N a false s → allowed (Some (mkName (tag_name token) xhtmlNamespaceURI)) = true → wp (insertSelfClosingHTMLElement token) (λ _ s', headSite N a false s') s.
Proof.
  clear Hbreak. intros [He Hw] Ha. destruct (withHead_low _ _ _ Hw) as (Hok & h & html & E & Hh & Em). assert (Hk : steps around (insertSelfClosingHTMLElement token)) by auto with keeps.
  eapply wp_mono; [exact (steps_wp around _ _ _ Hk (insertSelfClosing_ok token s Hok (all_creatable Hcustom _) Ha))|]. intros [] s' [[Hok' Er] Har]. split; [by eapply early_around|]. destruct Har as [[= _ _ _ Eh _ _] _]. apply (withHead_open a s' h html); [done|congruence..].
Qed.

Lemma headSite_insert N token a s :
  headSite N a false s → plain (tag_name token) = true → allowed (Some (mkName (tag_name token) xhtmlNamespaceURI)) = true → wp (insertHTMLElement token) (λ _ s', ∃ x, named (tag_name token) x ∧ headSite N (x :: a) false s') s.
Proof.
  clear Hbreak. intros [He Hw] Hp Ha. destruct (withHead_low _ _ _ Hw) as (Hok & h & html & E & Hh & Em). eapply wp_mono; [exact (insert_top Hcustom token s Hok Hp Ha)|]. intros [] s' [[Hok' (x & Er & Hx)] Har]. exists x. split; [done|].
  split; [by eapply early_around|]. destruct Har as [[= _ _ _ Eh _ _] _]. apply (withHead_open (x :: a) s' h html); [done|rewrite Er, E; done|congruence..].
Qed.

Lemma headSite_script N token a s : headSite N a false s → tag_name token = text "script" → wp (insertScriptElement token) (λ _ s', ∃ x, named (text "script") x ∧ headSite N (x :: a) false s') s.
Proof.
  clear Hbreak Hcustom. intros [He Hw] Et. destruct (withHead_low _ _ _ Hw) as (Hok & h & html & E & Hh & Em). eapply wp_mono; [exact (script_top token s Hok Et)|]. intros [] s' [[Hok' (x & Er & Hx)] Har]. exists x. split; [done|].
  split; [by eapply early_around|]. destruct Har as [[= _ _ _ Eh _ _] _]. apply (withHead_open (x :: a) s' h html); [done|rewrite Er, E; done|congruence..].
Qed.

(** ** Head and body *)

(** Only the root is open. *)
Definition rootSite (N : Z) (s : HTMLConstructionSite) : Prop := early N s ∧ siteOk s ∧ ∃ r, records s = [r].

Lemma rootSite_head N token s : rootSite N s → tag_name token = text "head" → wp (insertHTMLHeadElement token) (λ _ s', headSite N [] false s') s.
Proof.
  clear Hbreak. intros (He & Hok & Hr) Et. assert (Hk : steps startAround (insertHTMLHeadElement token)) by auto with keeps. assert (Hst : started s) by (split_and!; [done..|apply He]).
  eapply wp_mono; [exact (steps_wp startAround _ _ _ Hk (head_ok token s Hst (all_creatable Hcustom _) Et))|]. intros [] s' [(Hok' & (r & root & E & Hh & Em) & _) Ha]. split; [by eapply early_start|]. by apply (withHead_open [] s' r root).
Qed.

Lemma rootSite_body N token s : rootSite N s → tag_name token = text "body" → wp (insertHTMLBodyElement token) (λ _ s', inPage N s' ∧ length (records s') = 2%nat) s.
Proof.
  clear Hbreak. intros (He & Hok & Hr) Et. assert (Hk : steps startAround (insertHTMLBodyElement token)) by auto with keeps. assert (Hst : started s) by (split_and!; [done..|apply He]).
  eapply wp_mono; [exact (steps_wp startAround _ _ _ Hk (body_ok token s Hst (all_creatable Hcustom _) Et))|]. intros [] s' [(Hok' & r & root & E & Hb) Ha]. split; [|by rewrite E]. split; [done|]. destruct (early_start N s s' Ha He) as (HN & Hred & Hf).
  constructor; [done| |done|by rewrite Hf]. rewrite (proj1 (wf_body _ (ok_stack _ (ok_shape _ Hok'))) r); [done|rewrite E; apply list_elem_of_here|done].
Qed.

Lemma headSite_root N s : headSite N [] true s → rootSite N s.
Proof. intros [He Hw]. destruct (withHead_low _ _ _ Hw) as (Hok & h & html & E & _). split_and!; [done..|]. by exists html. Qed.

Lemma rootSite_comment N comment s : rootSite N s → wp (insertComment comment) (λ _ s', rootSite (N + lengthZ comment) s') s.
Proof.
  clear Hbreak Hcustom. intros ((HN & Hred & Hf) & Hok & r & E). apply wp_bind, wp_currentNode; [apply Hok|]. intros r' l _ Hr. pose proof (commentAt_ok comment (stackNode r') s Hok Hr) as Hw. unfold wp in *.
  destruct ((n ← createComment comment; attachLater (stackNode r') n false) s) as [[u s']|] eqn:Es; [|done]. destruct Hw as [Hok' Er]. destruct (commentAt_around comment _ s u s' Es) as (_ & E3 & E4 & _). split_and!; [split_and!; [by eapply commentAt_bounded|congruence..]|done|exists r; congruence].
Qed.

Lemma rootSite_htmlAgain N token s : rootSite N s → wp (insertHTMLHtmlStartTagInBody token) (λ _ s', rootSite N s') s.
Proof.
  clear Hbreak Hcustom. intros (He & Hok & r & E). unfold insertHTMLHtmlStartTagInBody. destruct m_isParsingFragment; [apply wp_ret; split_and!; [done..|by exists r]|]. pose proof (ok_shape _ Hok) as Hs. pose proof (wf_rooted _ (ok_stack _ Hs)) as Hr. unfold rooted in Hr. rewrite E in Hr. destruct Hr as [Hr _].
  apply wp_bind. eapply wp_askStack; [unfold rootNode, gets, mbind, M_bind; by rewrite Hr|]. unfold mergeAttributesFromTokenIntoElement. case_bool_decide; [apply wp_ret; split_and!; [done..|by exists r]|]. apply wp_modify. split_and!; [done|by apply (siteOk_ext s)|by exists r].
Qed.

Lemma rootSite_queue N s : rootSite N s → wp executeQueuedTasks (λ _ s', rootSite N s' ∧ m_taskQueue s' = []) s.
Proof.
  clear Hbreak Hcustom. intros (He & Hok & r & E). assert (Hk : steps around executeQueuedTasks) by auto with keeps. eapply wp_mono; [exact (steps_wp around _ _ _ Hk (executeQueue_ok s Hok))|]. intros [] s' [(Hok' & Eq & Er & _) Ha].
  split; [|done]. split_and!; [by eapply early_around|done|exists r; congruence].
Qed.

(** ** Before the root *)

Context (Hdepth : (0 ≤ m_maximumDOMTreeDepth)%Z).

(** Nothing is open, and the queue can be run. *)
Definition blankQueued (N : Z) (s : HTMLConstructionSite) : Prop :=
  early N s ∧ blankSite s ∧ wp (treeTasks (m_taskQueue s)) (λ _ T, treeOk T ∧ grows (doc s) (document T)) (tree s).
Definition blank (N : Z) (s : HTMLConstructionSite) : Prop := early N s ∧ blankSite s ∧ m_taskQueue s = [].

Lemma blank_attach N n type d s :
  blank N s → doc s !! n = None → type = COMMENT_NODE ∨ type = DOCUMENT_TYPE_NODE → bounded (N + d) (withNode n type None s) →
  wp (attachLater m_attachmentRoot n false) (λ _ s', blankQueued (N + d) s') (withNode n type None s).
Proof.
  clear Hbreak Hcustom. intros ((_ & Hred & Hf) & Hb & Eq) Hn Ht HN. pose proof Hb as [HT Hroot Htop Hwf Ek El Er]. assert (Ew : withNode n type None s = set_attributesOf (attributesOf s) (withNode n type None s)) by (by destruct s). rewrite Ew.
  apply wp_attachBlank; [done|done|unfold allowed; by destruct (scriptingContentIsAllowed _), (pluginContentIsAllowed _)|]. rewrite <-Ew. clear Ew. pose proof (tree_inv _ HT) as Hi.
  assert (HT1 : treeOk (tree (withNode n type None s))) by (apply (treeOk_extends (tree s)); [done|by apply extends_insert]). split; [done|]. split.
  - constructor; try done; [eapply grows_typeOf; [by apply (withNode_grows n type None s)|done]|by left].
  - unfold queued. cbn [set_taskQueue m_taskQueue withNode set_tree tree]. rewrite Eq. apply (pending_enqueue _ _ []), wp_ret. cbn [treeTask operation].
    set (T1 := tree (withNode n type None s)). pose proof (ahead_refl T1 HT1) as Ha. destruct (ahead_insert (doc s) n type None T1 Hi Hn Ha) as [Hplus _].
    eapply wp_mono; [eapply (step_insert [] [] (doc s) n type None T1 T1 Hi); [|done|done|..]|].
    + apply outcome_start; [done|apply ordered_nil|intros ? ?%elem_of_nil; done|done].
    + intros m ?%elem_of_nil. done.
    + by destruct Ht as [-> | ->].
    + destruct Ht as [-> | ->]; [left; by apply (bool_decide_eq_true_1 _)|right; by rewrite Hroot].
    + apply typeOf_Some in Hroot as (? & ? & _). by eexists.
    + done.
    + by left.
    + by intros x ?%elem_of_nil.
    + intros [] T Hout. split; [apply Hout|]. by apply (out_grows _ _ _ _ _ Hout).
Qed.

Lemma blank_comment N comment s : blank N s → wp (insertCommentOnDocument comment) (λ _ s', blankQueued (N + lengthZ comment) s') s.
Proof.
  clear Hbreak Hcustom. intros Hb. unfold insertCommentOnDocument, createComment, createNode. apply wp_bind, wp_bind, wp_onTree. unfold allocate. apply wp_bind, wp_gets. apply wp_bind, wp_modify. apply wp_ret, wp_bind, wp_modify. apply wp_ret.
  pose proof (fresh_none (doc s)) as Hn. set (n := base.fresh (dom (doc s))) in *. set (s0 := set_dataOf (<[n := comment]> (dataOf s)) s). destruct Hb as ((HN & Hred & Hf) & [HT Hroot Htop Hwf Ek El Er] & Eq).
  assert (HN0 : bounded (N + lengthZ comment) s0).
  { intros m. unfold s0, dataAt. cbn. pose proof (lengthZ_nonneg comment). destruct (decide (m = n)) as [-> |Hne]; [rewrite lookup_insert_eq|rewrite lookup_insert_ne by done; specialize (HN m); unfold dataAt in HN; lia]. cbn. specialize (HN n). pose proof (lengthZ_nonneg (dataAt s n)). lia. }
  replace (N + lengthZ comment)%Z with (N + lengthZ comment + 0)%Z by lia. apply (blank_attach (N + lengthZ comment) n COMMENT_NODE 0 s0); [by split_and!|done|by left|]. by rewrite Z.add_0_r.
Qed.

Lemma blank_doctype N token s : blank N s → m_isParsingFragment = false → wp (insertDoctype token) (λ _ s', blankQueued N s') s.
Proof.
  clear Hbreak Hcustom. intros Hb Hw. unfold insertDoctype, createNode. apply wp_bind, wp_onTree. unfold allocate. apply wp_bind, wp_gets. apply wp_bind, wp_modify. apply wp_ret, wp_bind.
  pose proof (fresh_none (doc s)) as Hn. set (n := base.fresh (dom (doc s))) in *. eapply wp_mono; [apply (blank_attach N n DOCUMENT_TYPE_NODE 0 s Hb Hn); [by right|]|].
  - rewrite Z.add_0_r. apply Hb.
  - intros [] s' Hq. rewrite Z.add_0_r in Hq. rewrite Hw. apply wp_bind, wp_ASSERT; [done|]. assert (Hmode : ∀ mode, blankQueued N (set_mode mode s')) by (intros mode; destruct Hq as (He & [? ? ? ? ? ? ?] & ?); by split_and!).
    destruct (doctype_forceQuirks token); [by apply wp_modify|]. unfold setCompatibilityModeFromDoctype. repeat case_match; by apply wp_modify.
Qed.

Lemma blank_queue N s : blankQueued N s → wp executeQueuedTasks (λ _ s', blank N s') s.
Proof.
  clear Hbreak Hcustom. intros (He & Hb & Hq). unfold executeQueuedTasks. apply wp_bind, wp_gets. case_bool_decide as Eq; [apply nil_length_inv in Eq; by apply wp_ret|].
  apply wp_bind, wp_modify, executeTasks_ok. cbn [set_taskQueue tree]. eapply wp_mono; [exact Hq|]. intros [] T [HT Hg] e. destruct Hb as [_ Hroot _ Hwf Ek El Er].
  split; [done|]. split; [|done]. constructor; try done; [by eapply grows_typeOf|by left|by apply wf_events].
Qed.

Lemma blank_html N token s : blank N s → tag_name token = text "html" → wp (insertHTMLHtmlStartTagBeforeHTML token) (λ _ s', rootSite N s') s.
Proof.
  clear Hbreak Hcustom Hdepth. intros (He & Hb & Eq) Et. assert (Hk : steps startAround (insertHTMLHtmlStartTagBeforeHTML token)) by auto with keeps.
  eapply wp_mono; [exact (steps_wp startAround _ _ _ Hk (html_ok token s Hb Eq Et))|]. intros [] s' [(Hok & Hr & _) Ha]. split_and!; [by eapply early_start|done..].
Qed.

Lemma emptySite_early : blank 0 emptySite.
Proof. split_and!; [|apply emptySite_blank|done]. split_and!; [|done..]. intros n. unfold dataAt. cbn. by rewrite lookup_empty. Qed.

End Quiet.
