(* ===== verification/InsertText.v ===== *)
(** * Text of the parser

    What [insertTextNode] of the construction site does with the characters of a token:
    [text_inserted] shows that all of them come into the document, once and in order, and which node gets which. *)

From Stdlib Require Import String.
From S2P Require Import Prelude HTMLStackItem HTMLElementStack HTMLFormattingElementList ContainerNode ContainerNodeLists ContainerNodeCorrect ContainerNodeScripts ContainerNodeTheorems.
From S2P Require Import TreeOrder HTMLConstructionSite TreeTasks SiteInvariant SiteOperations TextNodes SiteTheorems.

#[local] Open Scope string_scope.
#[local] Open Scope list_scope.

Section Place.
Context `{Build} `{Parser}.

(** ** Where text goes *)

(** Nodes are foster-parented: it was asked for, and the current node is part of a table. *)
Definition fosterParents (s : HTMLConstructionSite) : bool :=
  m_redirectAttachToFosterParent s && match head (records s) with Some r => causesFosterParenting (m_item r) | None => false end.

(** The parent of a table may get nodes before the table: it is an element, the root of a fragment, or the content of a template. *)
Definition mayFoster (s : HTMLConstructionSite) (p : positive) : bool :=
  match doc s !! p with
  | Some r =>
      bool_decide (nodeType r = ELEMENT_NODE) || m_isParsingFragment && bool_decide (m_rootNode (m_openElements s) = Some p)
      || bool_decide (nodeType r = DOCUMENT_FRAGMENT_NODE) && bool_decide (m_host r ≫= (λ template, contents (tree s) !! template) = Some p)
  | None => false
  end.

(** Without templates: before the innermost open table, when its parent may get nodes; else at the end of the element below it on the
    stack; without a table, at the end of the root. *)
Definition fosterSite (s : HTMLConstructionSite) : option (positive * option positive) :=
  match findRecord (λ r, matchesHTMLTag (text "table") (m_item r)) (records s) with
  | Some table =>
      match parentOf (doc s) (stackNode table) with
      | Some p => if mayFoster s p then Some (p, Some (stackNode table)) else (λ r, (stackNode r, None)) <$> nextRecord (rec_id table) (records s)
      | None => (λ r, (stackNode r, None)) <$> nextRecord (rec_id table) (records s)
      end
  | None => (λ root, (root, None)) <$> m_rootNode (m_openElements s)
  end.

(** The place of text: the end of the current node, or the foster site. *)
Definition insertionPlace (s : HTMLConstructionSite) (p : positive) (next : option positive) : Prop :=
  if fosterParents s then fosterSite s = Some (p, next) else head (stackNode <$> records s) = Some p ∧ next = None.

Lemma wp_shouldFosterParent_exact (Q : bool → HTMLConstructionSite → Prop) s : shape s → Q (fosterParents s) s → wp shouldFosterParent Q s.
Proof.
  intros Hs HQ. unfold shouldFosterParent. apply wp_bind, wp_gets. unfold fosterParents in HQ. destruct (m_redirectAttachToFosterParent s); [|by apply wp_ret].
  destruct (records s) as [|r l] eqn:E; [by destruct (ok_top _ Hs)|]. apply wp_bind. eapply (wp_askStack _ (m_item r)); [|by apply wp_ret]. unfold topStackItem, topRecord, mbind, M_bind. by rewrite E.
Qed.

Lemma wp_canBeFosterParent_exact p (Q : bool → HTMLConstructionSite → Prop) s : shape s → is_Some (doc s !! p) → Q (mayFoster s p) s → wp (canBeFosterParent (Some p)) Q s.
Proof.
  intros Hs [r Hr] HQ. unfold canBeFosterParent. unfold mayFoster in HQ. rewrite Hr in HQ.
  assert (Hty : ∀ ty (K : bool → CM bool), wp (K (bool_decide (nodeType r = ty))) Q s → wp (b ← onDOM (isType ty p); K b) Q s).
  { intros ty K HK. apply wp_bind, wp_askDOM. unfold isType. eapply wp_bind, wp_field; [done|]. apply wp_ret. by split. }
  apply Hty, wp_bind. pose proof (wf_rooted _ (ok_stack _ Hs)) as Hro. unfold rooted in Hro. destruct (last (records s)) as [root|] eqn:El; [|by apply last_None in El; destruct (ok_top _ Hs)]. destruct Hro as (Hro & _).
  assert (Hroot : wp (if m_isParsingFragment then onStack rootNode else mret p) (λ root s', s' = s ∧ m_isParsingFragment && bool_decide (p = root) = m_isParsingFragment && bool_decide (m_rootNode (m_openElements s) = Some p)) s).
  { destruct m_isParsingFragment; [|by apply wp_ret]. eapply (wp_askStack _ (stackNode root)); [unfold rootNode, gets, mbind, M_bind; by rewrite Hro|]. split; [done|]. cbn [andb]. rewrite Hro. apply bool_decide_ext. naive_solver. }
  eapply wp_mono; [exact Hroot|]. intros root' s' [-> Eroot]. apply Hty, wp_bind.
  assert (Hin : wp (if bool_decide (nodeType r = DOCUMENT_FRAGMENT_NODE) then isTemplateContent p else mret false) (λ b s', s' = s ∧
    b = bool_decide (nodeType r = DOCUMENT_FRAGMENT_NODE) && bool_decide (m_host r ≫= (λ template, contents (tree s) !! template) = Some p)) s).
  { destruct (bool_decide (nodeType r = DOCUMENT_FRAGMENT_NODE)); [|by apply wp_ret]. unfold isTemplateContent. apply wp_bind. eapply wp_askField; [done|]. by apply wp_gets. }
  eapply wp_mono; [exact Hin|]. intros b s' [-> ->]. apply wp_ret. by rewrite Eroot.
Qed.

(** No open element is a template. *)
Definition noTemplate (s : HTMLConstructionSite) : Prop := findRecord (λ r, matchesHTMLTag (text "template") (m_item r)) (records s) = None.

Lemma wp_findFosterSite_exact s : shape s → noTemplate s → wp findFosterSite (λ place s', fosterSite s = Some place ∧ s' = s) s.
Proof.
  intros Hs Hnone. unfold findFosterSite. pose proof (ok_stack _ Hs) as Hwf. assert (Hel : ∀ r, r ∈ records s → isElementItem (m_item r) = true) by apply (ok_document _ Hs).
  apply wp_bind. eapply wp_askStack; [done|]. unfold noTemplate in Hnone. rewrite Hnone. apply wp_bind, wp_ret, wp_bind. unfold fosterSite.
  destruct (findRecord (λ r, matchesHTMLTag (text "table") (m_item r)) (records s)) as [t|] eqn:Ef; (eapply wp_askStack; [unfold topmost, gets; change (m_top (m_openElements s)) with (records s); by rewrite Ef|]).
  - apply findRecord_split in Ef as (a & b & E & Ht & _). assert (Hin : t ∈ records s) by (rewrite E; set_solver). apply wp_bind, wp_downcastItem; [auto|]. destruct (sound_exists _ _ (ok_sound _ Hs t Hin)) as [r Hr].
    assert (Hpar : parentOf (doc s) (stackNode t) = m_parentNode r) by (unfold parentOf, stackNode; by rewrite Hr).
    assert (Hbelow : wp (below ← next (rec_id t); e ← onStack (downcast (m_item below)); mret (node_id e, None)) (λ (place : positive * option positive) s', (λ r, (stackNode r, None)) <$> nextRecord (rec_id t) (records s) = Some place ∧ s' = s) s).
    { destruct b as [|d b]; [exfalso; eapply (not_last s a t []); [done..|by apply (tag_not_root (htmlName "table"))|done]|]. assert (Hd : d ∈ records s) by (rewrite E; set_solver).
      assert (Enext : nextRecord (rec_id t) (records s) = Some d) by (rewrite E, nextRecord_here; [done|]; rewrite <-E; by apply shape_address). eapply wp_bind, wp_next; [done..|]. apply wp_bind, wp_downcastItem; [auto|]. apply wp_ret. by rewrite Enext. }
    apply wp_bind. eapply wp_askField; [done|]. rewrite Hpar. destruct (m_parentNode r) as [p|] eqn:Ep.
    + apply wp_bind, wp_canBeFosterParent_exact; [done|eapply shape_parent_exists; [done|by rewrite Hpar]|]. destruct (mayFoster s p); [by apply wp_ret|exact Hbelow].
    + apply wp_bind, wp_ret. exact Hbelow.
  - apply wp_bind. pose proof (wf_rooted _ (ok_stack _ Hs)) as Hro. unfold rooted in Hro. destruct (last (records s)) as [root|] eqn:El; [|by apply last_None in El; destruct (ok_top _ Hs)]. destruct Hro as (Hro & _).
    eapply (wp_askStack _ (stackNode root)); [unfold rootNode, gets, mbind, M_bind; by rewrite Hro|]. apply wp_ret. by rewrite Hro.
Qed.

Lemma wp_both {A} (m : CM A) (Q1 Q2 : A → HTMLConstructionSite → Prop) s : wp m Q1 s → wp m Q2 s → wp m (λ a s', Q1 a s' ∧ Q2 a s') s.
Proof. unfold wp. by destruct (m s) as [[]|]. Qed.

(** A site whose document has no template has no open one. *)
Lemma noTemplate_open s : shape s → (∀ n, tagOf (doc s) n ≠ Some (htmlName "template")) → noTemplate s.
Proof.
  intros Hs Hn. unfold noTemplate. destruct (findRecord _ (records s)) as [r|] eqn:E; [|done]. exfalso. apply findRecord_split in E as (a & b & E & Ht & _).
  assert (Hso : sound (doc s) (m_item r)) by (apply (ok_sound _ Hs); rewrite E; set_solver). rewrite matches_tag, (sound_tag _ _ _ Hso), bool_decide_eq_true in Ht. apply (Hn (node_id (m_node (m_item r)))). by rewrite (sound_tagOf _ _ Hso).
Qed.

(** The place, with what is known of it. *)
Lemma wp_place s r l (K : positive * option positive → CM unit) (Q : unit → HTMLConstructionSite → Prop) :
  shape s → noTemplate s → records s = r :: l →
  (∀ p next, insertionPlace s p next → textPlace s p next → wp (K (p, next)) Q s) → wp (foster ← shouldFosterParent; place ← (if foster : bool then findFosterSite else mret (stackNode r, None)); K place) Q s.
Proof.
  intros Hs Hno Er HK. apply wp_bind, wp_shouldFosterParent_exact; [done|]. apply wp_bind. unfold insertionPlace in HK. destruct (fosterParents s).
  - eapply wp_mono; [apply wp_both; [by apply wp_findFosterSite_exact|apply (wp_findFosterSite (λ place s', ∃ d, fosterPlace s d (fst place) (snd place))); [done|intros d p next Hd; by exists d]]|].
    intros [p next] s' [[Ef ->] Hd]. apply HK; [done|by right].
  - apply wp_ret, HK; [by rewrite Er|]. left. exists r. by rewrite Er.
Qed.

Lemma isTextNode_exact n (Q : bool → HTMLConstructionSite → Prop) s : is_Some (doc s !! n) → Q (isTextAt s n) s → wp (isTextNode n) Q s.
Proof. intros [r Hr] HQ. unfold isTextNode. apply wp_bind. eapply wp_askField; [done|]. apply wp_ret. unfold isTextAt, typeOf in HQ. by rewrite Hr in HQ. Qed.

End Place.

(** C17: Every character of a text token comes into the document, once and in order, and it is fixed where: at
    the end of the current node, or, when nodes are foster-parented, before the innermost open table (or, when the parent of the
    table cannot get nodes, at the end of the element below the table on the stack; without a table, of the root). If the node before that place is a text node, it
    gets as many of the characters as the limit on the length of text nodes in that parent leaves room for, up to a break that the break iterator allows; the rest
    goes into new text nodes after it, none of them empty, each as long as the limit and the breaks allow, or with all that is left when there is
    no break. No assertion fails and the loop ends; no other text
    changes and no other node gets or loses children. This is for runs without script, a break iterator that answers with a break
    at or before the limit, text nodes none of which is longer than the limit before, and a document without template elements. *)
Theorem text_inserted `{Build} `{Parser} characters s :
  breaksBefore → shape s → (∀ n, tagOf (doc s) n ≠ Some (htmlName "template")) → (∀ n, lengthZ (dataAt s n) ≤ defaultLengthLimit)%Z → (lengthZ characters ≤ maxUnsigned)%Z →
  wp (@insertTextNode _ quiet _ characters) (λ _ s', ∃ p next a b new chunks, insertionPlace s p next ∧ matches next b ∧ textDone s s' characters p a b new chunks) s.
Proof.
  intros Hbreak Hs Htemplate Hlimit Hlen. unfold insertTextNode. apply wp_bind, wp_currentNode; [done|]. intros r l Er Hr. eapply (wp_place s r l); [done|by apply noTemplate_open|done|]. intros p next Hplace Hpl.
  destruct (textPlace_split s p next Hs Hpl) as (Hp & a & b & Hk & Hm). destruct Hp as [rp Hrp]. apply wp_bind. eapply wp_askField; [done|]. cbn zeta.
  assert (El : (if shouldUseLengthLimit (tagQName rp) then defaultLengthLimit else maxUnsigned) = lengthLimitAt s p) by (unfold lengthLimitAt, tagOf; by rewrite Hrp). rewrite El.
  assert (Hl : (defaultLengthLimit ≤ lengthLimitAt s p ≤ maxUnsigned)%Z) by (unfold lengthLimitAt, defaultLengthLimit, maxUnsigned; destruct (shouldUseLengthLimit (tagOf (doc s) p)); lia).
  eapply (wp_mono _ (λ _ s', ∃ new chunks, textDone s s' characters p a b new chunks)); [|intros [] s' (new & chunks & Hd); by exists p, next, a, b, new, chunks].
  apply wp_bind. eapply (wp_previousChild s p next a b); [done|by eexists|done..|]. apply wp_bind.
  assert (Hnone : merged s characters p a = [] → wp (@textLoop _ quiet _ (length characters) p next characters (lengthLimitAt s p) 0) (λ _ s', ∃ new chunks, textDone s s' characters p a b new chunks) s).
  { intros Em. apply (rest_ok Hbreak p next characters a b 0 s s); try done; [lia|by destruct (last a)]. }
  destruct (last a) as [t|] eqn:Ea; [|apply wp_ret, Hnone; unfold merged; by rewrite Ea]. assert (Ht : is_Some (doc s !! t)) by (eapply lastChild_exists; [done|by eexists|done..]).
  apply wp_bind, isTextNode_exact; [done|]. destruct (isTextAt s t) eqn:Et; [|apply wp_ret, Hnone; unfold merged; by rewrite Ea, Et].
  pose proof (Hlimit t) as Hlt. pose proof (lengthZ_nonneg characters). apply wp_parserAppendData_exact; [done|done|lia|lia|done|]. cbv zeta. rewrite drop_0.
  pose proof (pieceLength_le Hbreak (lengthLimitAt s p) (lengthZ (dataAt s t)) characters ltac:(lia)) as Hle.
  apply (rest_ok Hbreak p next characters a b _ s); try done; [unfold merged; by rewrite Ea, Et|by rewrite Ea].
Qed.

(** ** Examples *)

(** The site after [<div><b><p></b>]. *)
Definition exampleSite : HTMLConstructionSite := match @parse debugList quiet exampleParser misnested (@emptySite exampleParser) with Some (_, s) => s | None => @emptySite exampleParser end.

Lemma exampleParser_breaks : @breaksBefore exampleParser.
Proof. intros buffer limit Hl. cbn. lia. Qed.

Lemma exampleSite_shape : @shape exampleParser exampleSite.
Proof.
  pose proof (@parse_ok debugList exampleParser misnested (λ _ _, eq_refl) exampleParser_breaks ltac:(done) eq_refl) as Hp. unfold wp in Hp. unfold exampleSite. destruct (parse misnested emptySite) as [[[] s]|]; [|done]. apply (ok_shape _ (proj1 Hp)).
Qed.

Lemma text_inserted_witness :
  wp (@insertTextNode debugList quiet exampleParser (text "text")) (λ _ s', ∃ p next a b new chunks,
    @insertionPlace exampleParser exampleSite p next ∧ matches next b ∧ @textDone exampleParser exampleSite s' (text "text") p a b new chunks) exampleSite.
Proof.
  apply (@text_inserted debugList exampleParser (text "text") exampleSite exampleParser_breaks exampleSite_shape).
  - intros n. assert (Hall : map_Forall (λ _ r, tagQName r ≠ Some (htmlName "template")) (doc exampleSite)) by (apply (bool_decide_eq_true_1 _); vm_compute; reflexivity).
    unfold tagOf. destruct (doc exampleSite !! n) as [r|] eqn:E; [|done]. exact (Hall n r E).
  - intros n. assert (E : dataOf exampleSite = ∅) by (vm_compute; reflexivity). unfold dataAt. rewrite E, lookup_empty. done.
  - cbn. unfold lengthZ, maxUnsigned. cbn. lia.
Defined.

(** ** What the code does besides *)

(** A text node that is longer than the limit (a script made it so, or the parser, from
    characters without a break) fails the assertion; without assertions the room left is
    computed as almost 2^32 and all characters are appended to it. *)
Theorem append_over_limit `{Build} `{Script} `{Parser} node string limit s :
  let d := dataAt s node in
  (0 ≤ limit < lengthZ d)%Z → (lengthZ d + lengthZ string ≤ maxUnsigned)%Z → string ≠ [] → (∃ r, doc s !! node = Some r ∧ m_parentNode r = None) →
  parserAppendData node string 0 limit s = if ASSERT_DISABLED then Some (lengthZ string, withData node (d ++ string) s) else None.
Proof.
  cbn zeta. intros Hl Hm Hs (r & Hr & Hpar). unfold parserAppendData, mbind, M_bind, gets, ASSERT. change (default [] (dataOf s !! node)) with (dataAt s node).
  rewrite (proj2 (Z.leb_gt _ _)) by lia. destruct ASSERT_DISABLED; [|done]. cbn [orb mret M_ret]. unfold mret, M_ret. pose proof (lengthZ_nonneg string).
  assert (E1 : u32 (lengthZ string - 0) = lengthZ string) by (unfold u32, maxUnsigned in *; rewrite Z.sub_0_r, Z.mod_small; lia).
  assert (E2 : u32 (limit - lengthZ (dataAt s node)) = (2 ^ 32 + limit - lengthZ (dataAt s node))%Z).
  { unfold u32, maxUnsigned in *. rewrite <-(Z.mod_add _ 1) by lia. rewrite Z.mod_small; lia. }
  rewrite E1, E2, Z.min_l, Z.ltb_irrefl by (unfold maxUnsigned in *; lia). destruct (Z.eqb_spec (lengthZ string) 0) as [E|E].
  { destruct string; [done|]. unfold lengthZ in E. cbn in E. lia. }
  unfold lengthZ at 1. rewrite Nat2Z.id, take_ge by done. unfold modify, onDOM, onTree, inDOM, part, field, mbind, M_bind. unfold getNode. cbn [set_dataOf tree document]. rewrite Hr. cbn. rewrite Hpar. by destruct s as [? ? ? ? ? ? ? ? []].
Qed.

Section Examples.
#[local] Existing Instance debugList.
#[local] Existing Instance exampleParser.
#[local] Existing Instance quiet.

(** Two text tokens in an element. *)
Definition twoTexts (name : string) : option (unit * HTMLConstructionSite) :=
  (startDocument;; performAll [OpenElement (tag name); ExecuteTasks];; insertTextNode (text "a");; insertTextNode (text "b")) emptySite.

(** The text of a token is merged with the text node before it, but not in a template: the
    text node is looked for in the template element and the text inserted into its content. *)
Theorem template_text_not_merged :
  (∃ s t, twoTexts "div" = Some (tt, s) ∧ childList (doc s) 5 = [t] ∧ dataAt s t = text "ab") ∧
  (∃ s c t u, twoTexts "template" = Some (tt, s) ∧ contents (tree s) !! 5%positive = Some c ∧ childList (doc s) c = [t; u] ∧ dataAt s t = text "a" ∧ dataAt s u = text "b").
Proof.
  split.
  - eexists. exists 6%positive. split; [vm_compute; reflexivity|]. split; vm_compute; reflexivity.
  - eexists. exists 7%positive, 6%positive, 8%positive. split; [vm_compute; reflexivity|]. split_and!; vm_compute; reflexivity.
Qed.

#[local] Instance Event_eq_dec : EqDecision Event.
Proof. solve_decision. Defined.

(** An element without content is begun and finished when it is inserted. *)
Definition selfClosed (actions : list Action) : list Event := match parse (actions ++ [SelfClosing (tag "input")]) emptySite with Some (_, s) => events (m_openElements s) | None => [] end.

(** Not so when it is foster-parented: the task for it does not have the flag. *)
Theorem foster_parented_not_finished :
  (BegunChildren 6 ∈ selfClosed [OpenElement (tag "div")] ∧ FinishedChildren 6 ∈ selfClosed [OpenElement (tag "div")]) ∧
  (BegunChildren 6 ∈ selfClosed [OpenElement (tag "table"); RedirectToFosterParent true] ∧ FinishedChildren 6 ∉ selfClosed [OpenElement (tag "table"); RedirectToFosterParent true]).
Proof. split; split; apply (bool_decide_eq_true_1 _); vm_compute; reflexivity. Qed.

End Examples.

(** The prefixes of public identifiers are compared by setting a bit of each character, so that
    control characters count as the punctuation marks and digits of the prefixes. *)
Theorem control_characters_are_quirks : modeFromDoctype (text "html") ([13; 15; 15] ++ text "IETF//DTD HTML//EN")%Z (text "about:legacy-compat") = QuirksMode.
Proof. vm_compute. reflexivity. Qed.
