(* ===== verification/HTMLTreeBuilder.v ===== *)
(** * The tree builder

    Model of [Source/WebCore/html/parser/HTMLTreeBuilder.{h,cpp}] and of
    [AtomicHTMLToken.h]: the state machine that takes the tokens of the tokenizer and
    decides, by its insertion mode, what the construction site does with them.

    The handlers call [processStartTag], [processEndTag] and [processEndOfFile] again, for
    tags they make up and for tokens they process a second time in another mode. They
    get these as arguments ([Handlers]); [handlers] ties the knot as deep as its fuel
    says, and running out of it is a fault. The [FALLTHROUGH]s of a switch are a chain of
    definitions, one per case.

    The names of SVG and MathML tags and attributes, which the build generates, are
    parameters ([TreeBuilder]). Parse errors are not reported ([parseError] is empty in the
    code), the position of a script is left out, and so is the detection of telephone
    numbers, which is for another platform. *)

From Stdlib Require Import String.
From S2P Require Import Prelude ASCIICType HTMLToken HTMLTokenizer.
From S2P Require Import HTMLStackItem HTMLElementStack HTMLFormattingElementList ContainerNode HTMLConstructionSite AdoptionAgency.

#[local] Open Scope string_scope.
#[local] Open Scope list_scope.

(** ** Tokens *)

Inductive AtomicHTMLToken :=
  | TDoctype (token : DoctypeToken) | TStartTag (token : TagToken) | TEndTag (token : TagToken)
  | TComment (data : list Z) | TCharacter (characters : list Z) | TEndOfFile.

(** [hasAttribute], for the attributes of a token. *)
Definition hasAttributeNamed (attributes : list Attribute) (name : list Z) : bool := existsb (λ a, bool_decide (localName (attributeName a) = name)) attributes.

Definition initializeAttributes (attributes : list HTMLToken.Attribute) : list Attribute :=
  foldl (λ done a,
    if bool_decide (attr_name a = []) || hasAttributeNamed done (attr_name a) then done
    else done ++ [mkAttribute (mkName (attr_name a) nullNamespace) (attr_value a)]) [] attributes.

(** The identifiers of a document type that has none are null, which the site reads as empty. *)
Definition atomicDoctype (token : HTMLToken) : option DoctypeToken :=
  match m_doctypeData token with
  | Some d => Some (mkDoctype (m_data token) (if hasPublicIdentifier d then publicIdentifier d else []) (if hasSystemIdentifier d then systemIdentifier d else []) (forceQuirks d))
  | None => None
  end.

Definition atomicTag (token : HTMLToken) : TagToken := mkTag (m_data token) (initializeAttributes (HTMLToken.m_attributes token)) (m_selfClosing token).

Definition atomicToken (token : HTMLToken) : option AtomicHTMLToken :=
  match m_type token with
  | HTMLToken.Uninitialized => None
  | HTMLToken.DOCTYPE => TDoctype <$> atomicDoctype token
  | HTMLToken.EndOfFile => Some TEndOfFile
  | HTMLToken.StartTag => Some (TStartTag (atomicTag token))
  | HTMLToken.EndTag => Some (TEndTag (atomicTag token))
  | HTMLToken.Comment => Some (TComment (m_data token))
  | HTMLToken.Character => Some (TCharacter (m_data token))
  end.

(** ** The state *)

Inductive InsertionMode :=
  | Initial | BeforeHTML | BeforeHead | InHead | InHeadNoscript | AfterHead | TemplateContents | InBody | Text | InTable | InTableText | InCaption
  | InColumnGroup | InTableBody | InRow | InCell | InSelect | InSelectInTable | AfterBody | InFrameset | AfterFrameset | AfterAfterBody | AfterAfterFrameset.

#[global] Instance InsertionMode_eq_dec : EqDecision InsertionMode.
Proof. solve_decision. Defined.

(** [CustomElementConstructionData] *)
Record CustomElementConstructionData := mkConstruction { construction_name : list Z; construction_attributes : list Attribute }.

Record HTMLTreeBuilder := mkBuilder {
  m_insertionMode : InsertionMode;
  m_originalInsertionMode : InsertionMode;
  m_templateInsertionModes : list InsertionMode;
  m_pendingTableCharacters : list Z;
  m_scriptToProcess : option positive;
  m_customElementToConstruct : option CustomElementConstructionData;
  m_shouldSkipLeadingNewline : bool;
  m_framesetOk : bool;
  m_tree : HTMLConstructionSite;
  m_tokenizer : HTMLTokenizer;
}.

Definition set_insertionMode (x : InsertionMode) (b : HTMLTreeBuilder) : HTMLTreeBuilder :=
  mkBuilder x (m_originalInsertionMode b) (m_templateInsertionModes b) (m_pendingTableCharacters b) (m_scriptToProcess b) (m_customElementToConstruct b) (m_shouldSkipLeadingNewline b) (m_framesetOk b) (m_tree b) (m_tokenizer b).
Definition set_originalInsertionMode (x : InsertionMode) (b : HTMLTreeBuilder) : HTMLTreeBuilder :=
  mkBuilder (m_insertionMode b) x (m_templateInsertionModes b) (m_pendingTableCharacters b) (m_scriptToProcess b) (m_customElementToConstruct b) (m_shouldSkipLeadingNewline b) (m_framesetOk b) (m_tree b) (m_tokenizer b).
Definition set_templateInsertionModes (x : list InsertionMode) (b : HTMLTreeBuilder) : HTMLTreeBuilder :=
  mkBuilder (m_insertionMode b) (m_originalInsertionMode b) x (m_pendingTableCharacters b) (m_scriptToProcess b) (m_customElementToConstruct b) (m_shouldSkipLeadingNewline b) (m_framesetOk b) (m_tree b) (m_tokenizer b).
Definition set_pendingTableCharacters (x : list Z) (b : HTMLTreeBuilder) : HTMLTreeBuilder :=
  mkBuilder (m_insertionMode b) (m_originalInsertionMode b) (m_templateInsertionModes b) x (m_scriptToProcess b) (m_customElementToConstruct b) (m_shouldSkipLeadingNewline b) (m_framesetOk b) (m_tree b) (m_tokenizer b).
Definition set_scriptToProcess (x : option positive) (b : HTMLTreeBuilder) : HTMLTreeBuilder :=
  mkBuilder (m_insertionMode b) (m_originalInsertionMode b) (m_templateInsertionModes b) (m_pendingTableCharacters b) x (m_customElementToConstruct b) (m_shouldSkipLeadingNewline b) (m_framesetOk b) (m_tree b) (m_tokenizer b).
Definition set_customElementToConstruct (x : option CustomElementConstructionData) (b : HTMLTreeBuilder) : HTMLTreeBuilder :=
  mkBuilder (m_insertionMode b) (m_originalInsertionMode b) (m_templateInsertionModes b) (m_pendingTableCharacters b) (m_scriptToProcess b) x (m_shouldSkipLeadingNewline b) (m_framesetOk b) (m_tree b) (m_tokenizer b).
Definition set_shouldSkipLeadingNewline (x : bool) (b : HTMLTreeBuilder) : HTMLTreeBuilder :=
  mkBuilder (m_insertionMode b) (m_originalInsertionMode b) (m_templateInsertionModes b) (m_pendingTableCharacters b) (m_scriptToProcess b) (m_customElementToConstruct b) x (m_framesetOk b) (m_tree b) (m_tokenizer b).
Definition set_framesetOk (x : bool) (b : HTMLTreeBuilder) : HTMLTreeBuilder :=
  mkBuilder (m_insertionMode b) (m_originalInsertionMode b) (m_templateInsertionModes b) (m_pendingTableCharacters b) (m_scriptToProcess b) (m_customElementToConstruct b) (m_shouldSkipLeadingNewline b) x (m_tree b) (m_tokenizer b).
Definition set_site (x : HTMLConstructionSite) (b : HTMLTreeBuilder) : HTMLTreeBuilder :=
  mkBuilder (m_insertionMode b) (m_originalInsertionMode b) (m_templateInsertionModes b) (m_pendingTableCharacters b) (m_scriptToProcess b) (m_customElementToConstruct b) (m_shouldSkipLeadingNewline b) (m_framesetOk b) x (m_tokenizer b).
Definition set_tokenizer (x : HTMLTokenizer) (b : HTMLTreeBuilder) : HTMLTreeBuilder :=
  mkBuilder (m_insertionMode b) (m_originalInsertionMode b) (m_templateInsertionModes b) (m_pendingTableCharacters b) (m_scriptToProcess b) (m_customElementToConstruct b) (m_shouldSkipLeadingNewline b) (m_framesetOk b) (m_tree b) x.

Abbreviation BM := (M HTMLTreeBuilder).

(** What the builder is given: the options, the element a fragment is parsed for, and
    the generated names. *)
Class TreeBuilder := {
  options : HTMLParserOptions;
  contextElementStackItem : HTMLStackItem;
  getSVGTags : list QualifiedName;
  getSVGAttrs : list QualifiedName;
  getMathMLAttrs : list QualifiedName;
  getXLinkAttrs : list QualifiedName;
  getXMLAttrs : list QualifiedName;
}.

(** ** Characters and names *)

Definition isHTMLSpace (character : Z) : bool := (character <=? 32)%Z && ((character =? 32)%Z || (character =? 10)%Z || (character =? 9)%Z || (character =? 13)%Z || (character =? 12)%Z).
Definition replacementCharacter : Z := 65533.
Definition isHTMLSpaceOrReplacementCharacter (character : Z) : bool := isHTMLSpace character || (character =? replacementCharacter)%Z.
Definition isAllWhitespace (string : list Z) : bool := forallb isHTMLSpace string.
Definition isAllWhitespaceOrReplacementCharacters (string : list Z) : bool := forallb isHTMLSpaceOrReplacementCharacter string.

(** [token.name() == fooTag], and a disjunction of such tests. *)
Definition isTag (name : list Z) (tag : string) : bool := bool_decide (name = text tag).
Definition oneOf (name : list Z) (tags : list string) : bool := existsb (isTag name) tags.

Definition isNumberedHeaderTag (tagName : list Z) : bool := oneOf tagName ["h1"; "h2"; "h3"; "h4"; "h5"; "h6"].
Definition isCaptionColOrColgroupTag (tagName : list Z) : bool := oneOf tagName ["caption"; "col"; "colgroup"].
Definition isTableCellContextTag (tagName : list Z) : bool := oneOf tagName ["th"; "td"].
Definition isTableBodyContextTag (tagName : list Z) : bool := oneOf tagName ["tbody"; "tfoot"; "thead"].

(** A [HashMap] from names; [add] keeps an entry that is there. *)
Definition NameMap : Type := list (list Z * QualifiedName).
Fixpoint mapGet (map : NameMap) (key : list Z) : option QualifiedName :=
  match map with [] => None | (k, v) :: map => if bool_decide (k = key) then Some v else mapGet map key end.
Definition mapAdd (map : NameMap) (key : list Z) (value : QualifiedName) : NameMap :=
  match mapGet map key with Some _ => map | None => map ++ [(key, value)] end.

Definition convertToASCIILowercase (string : list Z) : list Z := toASCIILower <$> string.

Definition createCaseMap (names : list QualifiedName) : NameMap :=
  foldl (λ map name,
    let lowered := convertToASCIILowercase (localName name) in
    if bool_decide (lowered ≠ localName name) then mapAdd map lowered name else map) [] names.

Definition addNamesWithPrefix (map : NameMap) (prefix : list Z) (names : list QualifiedName) : NameMap :=
  foldl (λ map name, mapAdd map (prefix ++ text ":" ++ localName name) name) map names.

Definition xmlnsNamespaceURI : Namespace := otherNamespace (text "http://www.w3.org/2000/xmlns/").

(** [QualifiedName]s are kept without their prefix, see [HTMLStackItem]. *)
Definition createForeignAttributesMap (xlinkAttrs xmlAttrs : list QualifiedName) : NameMap :=
  let map := addNamesWithPrefix [] (text "xlink") xlinkAttrs in
  let map := addNamesWithPrefix map (text "xml") xmlAttrs in
  let map := mapAdd map (text "xmlns") (mkName (text "xmlns") xmlnsNamespaceURI) in
  mapAdd map (text "xmlns:xlink") (mkName (text "xlink") xmlnsNamespaceURI).

Definition setTokenName (name : list Z) (token : TagToken) : TagToken := mkTag name (tag_attributes token) (tag_selfClosing token).

Definition adjustAttributes (map : NameMap) (token : TagToken) : TagToken :=
  mkTag (tag_name token)
    ((λ a, match mapGet map (localName (attributeName a)) with Some cased => mkAttribute cased (attributeValue a) | None => a end) <$> tag_attributes token)
    (tag_selfClosing token).

(** ** Text of a token *)

(** [takeLeadingWhitespace]: the spaces at the front, and the rest. *)
Fixpoint spanSpaces (text : list Z) : list Z * list Z :=
  match text with
  | c :: rest => if isHTMLSpace c then let '(spaces, others) := spanSpaces rest in (c :: spaces, others) else ([], text)
  | [] => ([], [])
  end.
Fixpoint skipLeadingNonWhitespace (text : list Z) : list Z :=
  match text with c :: rest => if isHTMLSpace c then text else skipLeadingNonWhitespace rest | [] => [] end.
Definition skipAtMostOneLeadingNewline (text : list Z) : list Z := match text with c :: rest => if (c =? 10)%Z then rest else text | [] => [] end.
Definition takeRemainingWhitespace (text : list Z) : list Z := List.filter isHTMLSpace text.

Section Operations.
Context `{Build} `{Script} `{Parser} `{TreeBuilder}.

(** ** Parts of the state *)

Definition onSite {A} : CM A → BM A := part m_tree set_site.
Definition openElements {A} (m : M HTMLElementStack A) : BM A := onSite (onStack m).
Definition activeFormattingElements {A} (m : M (list Entry) A) : BM A := onSite (onList m).
Definition setMode (mode : InsertionMode) : BM unit := modify (set_insertionMode mode).
Definition setFramesetOk (ok : bool) : BM unit := modify (set_framesetOk ok).
Definition tokenizerDo (f : HTMLTokenizer → HTMLTokenizer) : BM unit := modify (λ b, set_tokenizer (f (m_tokenizer b)) b).
Definition current : BM HTMLStackItem := onSite currentStackItem.

(** [ASSERT] of a question to the state. *)
Definition ASSERT_that (question : BM bool) : BM unit := if ASSERT_DISABLED then mret tt else answer ← question; ASSERT answer.
Definition assertMode (mode : InsertionMode) : BM unit := actual ← gets m_insertionMode; ASSERT (bool_decide (actual = mode)).

Definition isParsingTemplateContents : BM bool := openElements hasTemplateInHTMLScope.
Definition isParsingFragmentOrTemplateContents : BM bool := if m_isParsingFragment then mret true else isParsingTemplateContents.

(** [m_fragmentContext.contextElementStackItem()] *)
Definition contextItem : BM HTMLStackItem := ASSERT m_isParsingFragment;; mret contextElementStackItem.

(** The loop of [resetInsertionModeAppropriately] below a [select] element. *)
Fixpoint selectLoop (item : HTMLStackItem) (records : list ElementRecord) (root : positive) : BM InsertionMode :=
  if bool_decide (node_id (m_node item) ≠ root) && negb (hasTagName (htmlName "template") item) then
    match records with
    | [] => fault
    | r :: records => if isNodeOf (htmlName "table") (m_item r) then mret InSelectInTable else selectLoop (m_item r) records root
    end
  else mret InSelect.

Definition lastTemplateMode : BM InsertionMode := modes ← gets m_templateInsertionModes; match last modes with Some mode => mret mode | None => fault end.

(** The loop over the records, from the top. *)
Fixpoint resetLoop (records : list ElementRecord) (root : positive) : BM InsertionMode :=
  match records with
  | [] => fault
  | r :: records =>
      let isLast := bool_decide (node_id (m_node (m_item r)) = root) in
      item ← (if isLast && m_isParsingFragment then contextItem else mret (m_item r));
      let tag name := hasTagName (htmlName name) item in
      if tag "template" then lastTemplateMode
      else if tag "select" then if isLast then mret InSelect else selectLoop item records root
      else if tag "td" || tag "th" then mret InCell
      else if tag "tr" then mret InRow
      else if tag "tbody" || tag "thead" || tag "tfoot" then mret InTableBody
      else if tag "caption" then mret InCaption
      else if tag "colgroup" then mret InColumnGroup
      else if isNodeOf (htmlName "table") item then mret InTable
      else if tag "head" then
        if negb m_isParsingFragment || bool_decide (node_id (m_node contextElementStackItem) ≠ node_id (m_node item)) then mret InHead else mret InBody
      else if tag "body" then mret InBody
      else if tag "frameset" then mret InFrameset
      else if tag "html" then
        head ← gets (m_head ∘ m_tree);
        if bool_decide (head ≠ None) then mret AfterHead else ASSERT m_isParsingFragment;; mret BeforeHead
      else if isLast then ASSERT m_isParsingFragment;; mret InBody
      else resetLoop records root
  end.
Definition resetInsertionModeAppropriately : BM unit :=
  root ← openElements rootNode;
  records ← gets (m_top ∘ m_openElements ∘ m_tree);
  mode ← resetLoop records root;
  setMode mode.

(** ** Foreign content *)

Definition adjustSVGTagNameCase (token : TagToken) : TagToken :=
  match mapGet (createCaseMap getSVGTags) (tag_name token) with Some cased => setTokenName (localName cased) token | None => token end.
Definition adjustSVGAttributes : TagToken → TagToken := adjustAttributes (createCaseMap getSVGAttrs).
Definition adjustMathMLAttributes : TagToken → TagToken := adjustAttributes (createCaseMap getMathMLAttrs).
Definition adjustForeignAttributes : TagToken → TagToken := adjustAttributes (createForeignAttributesMap getXLinkAttrs getXMLAttrs).

Definition adjustedCurrentStackItem : BM HTMLStackItem :=
  empty ← onSite isEmpty;
  ASSERT (negb empty);;
  one ← (if m_isParsingFragment then openElements hasOnlyOneElement else mret false);
  if one : bool then contextItem else current.

(** ** Handlers that do not call the others *)

Definition insertGenericHTMLElement (token : TagToken) : BM unit :=
  custom ← onSite (insertHTMLElementOrFindCustomElementInterface token);
  modify (set_customElementToConstruct (if custom : bool then Some (mkConstruction (tag_name token) (tag_attributes token)) else None)).

Definition didCreateCustomOrFallbackElement (element : Node) (data : CustomElementConstructionData) : BM unit :=
  onSite (insertCustomElement element (construction_name data) (construction_attributes data)).

Definition processTemplateStartTag (token : TagToken) : BM unit :=
  activeFormattingElements appendMarker;;
  onSite (insertHTMLElement token);;
  modify (λ b, set_templateInsertionModes (m_templateInsertionModes b ++ [TemplateContents]) b);;
  setMode TemplateContents.

(** [Vector::removeLast] *)
Definition removeLastTemplateMode : BM unit := modifyOpt (λ b, match m_templateInsertionModes b with [] => None | modes => Some (set_templateInsertionModes (removelast modes) b) end).

Definition processTemplateEndTag : BM bool :=
  template ← openElements hasTemplateInHTMLScope;
  if negb template then
    modes ← gets m_templateInsertionModes;
    ASSERT (bool_decide (length modes = 0%nat) || bool_decide (length modes = 1%nat) && m_isParsingFragment && isNodeOf (htmlName "template") contextElementStackItem);;
    mret false
  else
    onSite generateImpliedEndTags;;
    _ ← current;
    openElements (popUntilPopped (text "template"));;
    activeFormattingElements clearToLastMarker;;
    removeLastTemplateMode;;
    resetInsertionModeAppropriately;;
    mret true.

(** [m_tree.currentNode().hasTagName(fooTag)] *)
Definition currentNodeIs (tag : string) : BM bool := item ← current; mret (isNodeOf (htmlName tag) item).

Definition processColgroupEndTagForInColumnGroup : BM bool :=
  root ← onSite currentIsRootNode;
  template ← (if root : bool then mret false else currentNodeIs "template");
  if root || template then ASSERT_that isParsingFragmentOrTemplateContents;; mret false
  else openElements pop;; setMode InTable;; mret true.

Definition processHtmlStartTagForInBody (token : TagToken) : BM unit :=
  template ← openElements hasTemplateInHTMLScope;
  if template : bool then ASSERT_that isParsingTemplateContents
  else onSite (insertHTMLHtmlStartTagInBody token).

Definition processBodyEndTagForInBody : BM bool :=
  inScope ← openElements (inScope (text "body"));
  if inScope : bool then setMode AfterBody;; mret true else mret false.

Definition processCaptionEndTagForInCaption : BM bool :=
  caption ← openElements (inTableScope (text "caption"));
  if negb caption then ASSERT m_isParsingFragment;; mret false
  else
    onSite generateImpliedEndTags;;
    openElements (popUntilPopped (text "caption"));;
    activeFormattingElements clearToLastMarker;;
    setMode InTable;;
    mret true.

Definition processTrEndTagForInRow : BM bool :=
  tr ← openElements (inTableScope (text "tr"));
  if negb tr then ASSERT_that isParsingFragmentOrTemplateContents;; mret false
  else
    openElements popUntilTableRowScopeMarker;;
    ASSERT_that (item ← current; mret (hasTagName (htmlName "tr") item));;
    openElements pop;;
    setMode InTableBody;;
    mret true.

Definition processTableEndTagForInTable : BM bool :=
  table ← openElements (inTableScope (text "table"));
  if negb table then ASSERT_that isParsingFragmentOrTemplateContents;; mret false
  else openElements (popUntilPopped (text "table"));; resetInsertionModeAppropriately;; mret true.

(** The element whose content is text: the state of the tokenizer and the mode to come back to. *)
Definition enterText : BM unit :=
  mode ← gets m_insertionMode;
  modify (set_originalInsertionMode mode);;
  setMode Text.
Definition processGenericRCDATAStartTag (token : TagToken) : BM unit := onSite (insertHTMLElement token);; tokenizerDo setRCDATAState;; enterText.
Definition processGenericRawTextStartTag (token : TagToken) : BM unit := onSite (insertHTMLElement token);; tokenizerDo setRAWTEXTState;; enterText.
Definition processScriptStartTag (token : TagToken) : BM unit := onSite (insertScriptElement token);; tokenizerDo setScriptDataState;; enterText.

Definition defaultForInitial : BM unit := onSite setDefaultCompatibilityMode;; setMode BeforeHTML.
Definition newTag (name : string) : TagToken := mkTag (text name) [] false.
Definition defaultForBeforeHTML : BM unit := onSite (insertHTMLHtmlStartTagBeforeHTML (newTag "html"));; setMode BeforeHead.

(** [RedirectToFosterParentGuard]: the flag for the time of a computation. *)
Definition redirecting {A} (m : BM A) : BM A :=
  old ← gets (m_redirectAttachToFosterParent ∘ m_tree);
  onSite (modify (set_redirect true));;
  a ← m;
  onSite (modify (set_redirect old));;
  mret a.

Definition restoreMode : BM unit := modify (λ b, set_insertionMode (m_originalInsertionMode b) b).

Definition defaultForInTableText : BM unit :=
  characters ← gets m_pendingTableCharacters;
  modify (set_pendingTableCharacters []);;
  if negb (isAllWhitespace characters) then
    redirecting (
      onSite reconstructTheActiveFormattingElements;;
      onSite (insertTextNode characters);;
      setFramesetOk false;;
      restoreMode)
  else onSite (insertTextNode characters);; restoreMode.

Definition clearFramesetOkFor (characters : list Z) : BM unit :=
  ok ← gets m_framesetOk;
  if ok && negb (isAllWhitespaceOrReplacementCharacters characters) then setFramesetOk false else mret tt.

Definition processCharacterBufferForInBody (characters : list Z) : BM unit :=
  onSite reconstructTheActiveFormattingElements;;
  onSite (insertTextNode characters);;
  clearFramesetOkFor characters.

(** [m_tree.openElements().bodyElement().remove()] *)
Definition removeBody : BM unit :=
  body ← openElements bodyElement;
  parent ← onSite (onDOM (field m_parentNode body));
  match parent with Some parent => onSite (onDOM (removeChild parent body));; mret tt | None => mret tt end.

(** A query of the scopes for some tags: [inTableScope(a) || inTableScope(b) || ...] *)
Fixpoint anyInTableScope (tags : list string) : BM bool :=
  match tags with
  | [] => mret false
  | tag :: tags => found ← openElements (inTableScope (text tag)); if found : bool then mret true else anyInTableScope tags
  end.

(** ** Handlers that call the others *)

Record Handlers := mkHandlers { startTag : TagToken → BM unit; endTag : list Z → BM unit }.

Section Recursion.
Context (self : Handlers).

Definition processFakeStartTag (tagName : string) : BM unit := startTag self (newTag tagName).
Definition processFakeEndTag (tagName : string) : BM unit := endTag self (text tagName).
Definition processFakePEndTagIfPInButtonScope : BM unit :=
  p ← openElements (inButtonScope (text "p"));
  if p : bool then processFakeEndTag "p" else mret tt.

Definition isLi (item : HTMLStackItem) : bool := hasTagName (htmlName "li") item.
Definition isDdOrDt (item : HTMLStackItem) : bool := hasTagName (htmlName "dd") item || hasTagName (htmlName "dt") item.

(** The loop of [processCloseWhenNestedTag] over the records. *)
Fixpoint closeLoop (shouldClose : HTMLStackItem → bool) (records : list ElementRecord) : BM unit :=
  match records with
  | [] => fault
  | r :: records =>
      let item := m_item r in
      if shouldClose item then ASSERT (isElement item);; match m_localName item with Some name => endTag self name | None => fault end
      else if isSpecialNode item && negb (hasTagName (htmlName "address") item) && negb (hasTagName (htmlName "div") item) && negb (hasTagName (htmlName "p") item) then mret tt
      else closeLoop shouldClose records
  end.
Definition processCloseWhenNestedTag (shouldClose : HTMLStackItem → bool) (token : TagToken) : BM unit :=
  setFramesetOk false;;
  _ ← openElements topRecord;
  records ← gets (m_top ∘ m_openElements ∘ m_tree);
  closeLoop shouldClose records;;
  processFakePEndTagIfPInButtonScope;;
  onSite (insertHTMLElement token).

Definition processStartTagForInHead (token : TagToken) : BM bool :=
  let name := tag_name token in
  if isTag name "html" then processHtmlStartTagForInBody token;; mret true
  else if oneOf name ["base"; "basefont"; "bgsound"; "command"; "link"; "meta"] then onSite (insertSelfClosingHTMLElement token);; mret true
  else if isTag name "title" then processGenericRCDATAStartTag token;; mret true
  else if isTag name "noscript" then
    if scriptEnabled options then processGenericRawTextStartTag token;; mret true
    else onSite (insertHTMLElement token);; setMode InHeadNoscript;; mret true
  else if oneOf name ["noframes"; "style"] then processGenericRawTextStartTag token;; mret true
  else if isTag name "script" then
    processScriptStartTag token;;
    (if usePreHTML5ParserQuirks options && tag_selfClosing token then processFakeEndTag "script" else mret tt);;
    mret true
  else if isTag name "template" then setFramesetOk false;; processTemplateStartTag token;; mret true
  else if isTag name "head" then mret true
  else mret false.

(** [bool didProcess = processStartTagForInHead(token); ASSERT(didProcess);] *)
Definition asInHead (token : TagToken) : BM unit := didProcess ← processStartTagForInHead token; ASSERT didProcess.

(** ** Start tags in the body *)

Definition isSelectInTableMode (mode : InsertionMode) : bool := bool_decide (mode ∈ [InTable; InCaption; InColumnGroup; InTableBody; InRow; InCell]).

Definition startTagBody (token : TagToken) : BM unit :=
  second ← openElements secondElementIsHTMLBodyElement;
  one ← (if second : bool then openElements hasOnlyOneElement else mret false);
  template ← (if second && negb one then openElements hasTemplateInHTMLScope else mret false);
  if negb second || one || template then ASSERT_that isParsingFragmentOrTemplateContents
  else setFramesetOk false;; onSite (insertHTMLBodyStartTagInBody token).

Definition startTagFrameset (token : TagToken) : BM unit :=
  second ← openElements secondElementIsHTMLBodyElement;
  one ← (if second : bool then openElements hasOnlyOneElement else mret false);
  if negb second || one then ASSERT_that isParsingFragmentOrTemplateContents
  else
    ok ← gets m_framesetOk;
    if negb ok then mret tt
    else
      removeBody;;
      body ← openElements bodyElement;
      openElements (popUntilElement body);;
      openElements popHTMLBodyElement;;
      ASSERT_that (item ← current; mret (negb m_isParsingFragment || bool_decide (node_name (m_node item) = None)));;
      ASSERT_that (item ← current; root ← openElements rootNode; mret (m_isParsingFragment || bool_decide (node_id (m_node item) = root)));;
      onSite (insertHTMLElement token);;
      setMode InFrameset.

Definition startTagButton (token : TagToken) : BM unit :=
  inScope ← openElements (inScope (text "button"));
  if inScope : bool then processFakeEndTag "button";; startTag self token
  else
    onSite reconstructTheActiveFormattingElements;;
    onSite (insertHTMLElement token);;
    setFramesetOk false.

Definition startTagA (token : TagToken) : BM unit :=
  activeATag ← activeFormattingElements (closestElementInScopeWithName (text "a"));
  (match activeATag with
   | Some activeATag =>
       processFakeEndTag "a";;
       activeFormattingElements (HTMLFormattingElementList.remove (node_id activeATag));;
       open ← openElements (HTMLElementStack.contains (node_id activeATag));
       if open : bool then openElements (HTMLElementStack.remove activeATag) else mret tt
   | None => mret tt
   end);;
  onSite reconstructTheActiveFormattingElements;;
  onSite (insertFormattingElement token).

Definition startTagNobr (token : TagToken) : BM unit :=
  onSite reconstructTheActiveFormattingElements;;
  inScope ← openElements (inScope (text "nobr"));
  (if inScope : bool then processFakeEndTag "nobr";; onSite reconstructTheActiveFormattingElements else mret tt);;
  onSite (insertFormattingElement token).

Definition startTagTable (token : TagToken) : BM unit :=
  quirks ← gets (m_inQuirksMode ∘ m_tree);
  p ← (if quirks : bool then mret false else openElements (inButtonScope (text "p")));
  (if p : bool then processFakeEndTag "p" else mret tt);;
  onSite (insertHTMLElement token);;
  setFramesetOk false;;
  setMode InTable.

(** [type="hidden"] *)
Definition isHidden (token : TagToken) : bool :=
  match findIn (tag_attributes token) (mkName (text "type") nullNamespace) with
  | Some typeAttribute => equalLettersIgnoringASCIICase (attributeValue typeAttribute) "hidden"
  | None => false
  end.

Definition startTagSelect (token : TagToken) : BM unit :=
  onSite reconstructTheActiveFormattingElements;;
  onSite (insertHTMLElement token);;
  setFramesetOk false;;
  mode ← gets m_insertionMode;
  setMode (if isSelectInTableMode mode then InSelectInTable else InSelect).

(** Ruby: [rb] and [rtc] close everything that is implied, [rt] and [rp] not an [rtc]. *)
Definition startTagRuby (implied : CM unit) (token : TagToken) : BM unit :=
  ruby ← openElements (inScope (text "ruby"));
  (if ruby : bool then onSite implied;; _ ← current; mret tt else mret tt);;
  onSite (insertHTMLElement token).

Definition currentIsOption : BM bool := item ← current; mret (isNodeOf (htmlName "option") item).
Definition currentIsOptgroup : BM bool := item ← current; mret (isNodeOf (htmlName "optgroup") item).
Definition closeOption : BM unit := option ← currentIsOption; if option : bool then processFakeEndTag "option" else mret tt.

(** The start tags from [image] on. *)
Definition startTagForInBodyRest (token : TagToken) : BM unit :=
  let token := if isTag (tag_name token) "image" then setTokenName (text "img") token else token in
  let name := tag_name token in
  if oneOf name ["area"; "br"; "embed"; "img"; "keygen"; "wbr"] then
    onSite reconstructTheActiveFormattingElements;; onSite (insertSelfClosingHTMLElement token);; setFramesetOk false
  else if isTag name "input" then
    onSite reconstructTheActiveFormattingElements;;
    onSite (insertSelfClosingHTMLElement token);;
    if negb (isHidden token) then setFramesetOk false else mret tt
  else if oneOf name ["param"; "source"; "track"] then onSite (insertSelfClosingHTMLElement token)
  else if isTag name "hr" then processFakePEndTagIfPInButtonScope;; onSite (insertSelfClosingHTMLElement token);; setFramesetOk false
  else if isTag name "textarea" then
    onSite (insertHTMLElement token);;
    modify (set_shouldSkipLeadingNewline true);;
    tokenizerDo setRCDATAState;;
    setFramesetOk false;;
    enterText
  else if isTag name "xmp" then
    processFakePEndTagIfPInButtonScope;; onSite reconstructTheActiveFormattingElements;; setFramesetOk false;; processGenericRawTextStartTag token
  else if isTag name "iframe" then setFramesetOk false;; processGenericRawTextStartTag token
  else if isTag name "noembed" && pluginsEnabled options then processGenericRawTextStartTag token
  else if isTag name "noscript" && scriptEnabled options then processGenericRawTextStartTag token
  else if isTag name "select" then startTagSelect token
  else if oneOf name ["optgroup"; "option"] then closeOption;; onSite reconstructTheActiveFormattingElements;; onSite (insertHTMLElement token)
  else if oneOf name ["rb"; "rtc"] then startTagRuby generateImpliedEndTags token
  else if oneOf name ["rt"; "rp"] then startTagRuby (generateImpliedEndTagsWithExclusion (text "rtc")) token
  else if isTag name "math" then
    onSite reconstructTheActiveFormattingElements;;
    onSite (insertForeignElement (adjustForeignAttributes (adjustMathMLAttributes token)) mathmlNamespaceURI)
  else if isTag name "svg" then
    onSite reconstructTheActiveFormattingElements;;
    onSite (insertForeignElement (adjustForeignAttributes (adjustSVGAttributes token)) svgNamespaceURI)
  else if isCaptionColOrColgroupTag name || isTag name "frame" || isTag name "head" || isTableBodyContextTag name || isTableCellContextTag name || isTag name "tr" then mret tt
  else if isTag name "template" then setFramesetOk false;; processTemplateStartTag token
  else onSite reconstructTheActiveFormattingElements;; insertGenericHTMLElement token.

(** The start tags from [form] to [table]. *)
Definition startTagForInBodyMiddle (token : TagToken) : BM unit :=
  let name := tag_name token in
  if isTag name "form" then
    form ← gets (m_form ∘ m_tree);
    template ← (if bool_decide (form ≠ None) then isParsingTemplateContents else mret true);
    if negb template then mret tt
    else processFakePEndTagIfPInButtonScope;; onSite (insertHTMLFormElement token)
  else if isTag name "li" then processCloseWhenNestedTag isLi token
  else if oneOf name ["dd"; "dt"] then processCloseWhenNestedTag isDdOrDt token
  else if isTag name "plaintext" then processFakePEndTagIfPInButtonScope;; onSite (insertHTMLElement token);; tokenizerDo setPLAINTEXTState
  else if isTag name "button" then startTagButton token
  else if isTag name "a" then startTagA token
  else if isNonAnchorNonNobrFormattingTag name then onSite reconstructTheActiveFormattingElements;; onSite (insertFormattingElement token)
  else if isTag name "nobr" then startTagNobr token
  else if oneOf name ["applet"; "embed"; "object"] && negb (pluginContentIsAllowed m_parserContentPolicy) then mret tt
  else if oneOf name ["applet"; "marquee"; "object"] then
    onSite reconstructTheActiveFormattingElements;;
    onSite (insertHTMLElement token);;
    activeFormattingElements appendMarker;;
    setFramesetOk false
  else if isTag name "table" then startTagTable token
  else startTagForInBodyRest token.

Definition processStartTagForInBody (token : TagToken) : BM unit :=
  let name := tag_name token in
  if isTag name "html" then processHtmlStartTagForInBody token
  else if oneOf name ["base"; "basefont"; "bgsound"; "command"; "link"; "meta"; "noframes"; "script"; "style"; "title"] then asInHead token
  else if isTag name "body" then startTagBody token
  else if isTag name "frameset" then startTagFrameset token
  else if oneOf name ["address"; "article"; "aside"; "blockquote"; "center"; "details"; "dir"; "div"; "dl"; "fieldset"; "figcaption"; "figure"; "footer"; "header";
                      "hgroup"; "main"; "menu"; "nav"; "ol"; "p"; "section"; "summary"; "ul"] then
    processFakePEndTagIfPInButtonScope;; onSite (insertHTMLElement token)
  else if isNumberedHeaderTag name then
    processFakePEndTagIfPInButtonScope;;
    item ← current;
    (if isNumberedHeaderElement item then openElements pop else mret tt);;
    onSite (insertHTMLElement token)
  else if oneOf name ["pre"; "listing"] then
    processFakePEndTagIfPInButtonScope;;
    onSite (insertHTMLElement token);;
    modify (set_shouldSkipLeadingNewline true);;
    setFramesetOk false
  else startTagForInBodyMiddle token.

(** ** Start tags in tables *)

Definition closeTheCell : BM unit :=
  assertMode InCell;;
  td ← openElements (inTableScope (text "td"));
  if td : bool then ASSERT_that (th ← openElements (inTableScope (text "th")); mret (negb th));; processFakeEndTag "td"
  else
    ASSERT_that (openElements (inTableScope (text "th")));;
    processFakeEndTag "th";;
    assertMode InRow.

(** "Anything else" of the table modes. *)
Definition startTagFostered (token : TagToken) : BM unit := redirecting (processStartTagForInBody token).

Definition processStartTagForInTable (token : TagToken) : BM unit :=
  let name := tag_name token in
  if isTag name "caption" then
    openElements popUntilTableScopeMarker;; activeFormattingElements appendMarker;; onSite (insertHTMLElement token);; setMode InCaption
  else if isTag name "colgroup" then openElements popUntilTableScopeMarker;; onSite (insertHTMLElement token);; setMode InColumnGroup
  else if isTag name "col" then processFakeStartTag "colgroup";; assertMode InColumnGroup;; startTag self token
  else if isTableBodyContextTag name then openElements popUntilTableScopeMarker;; onSite (insertHTMLElement token);; setMode InTableBody
  else if isTableCellContextTag name || isTag name "tr" then processFakeStartTag "tbody";; assertMode InTableBody;; startTag self token
  else if isTag name "table" then
    closed ← processTableEndTagForInTable;
    if closed : bool then startTag self token else ASSERT_that isParsingFragmentOrTemplateContents
  else if oneOf name ["style"; "script"] then processStartTagForInHead token;; mret tt
  else if isTag name "input" && isHidden token then onSite (insertSelfClosingHTMLElement token)
  else if isTag name "form" then
    form ← gets (m_form ∘ m_tree);
    template ← (if bool_decide (form ≠ None) then isParsingTemplateContents else mret true);
    if negb template then mret tt else onSite (insertHTMLFormElement token);; openElements pop
  else if isTag name "template" then processTemplateStartTag token
  else startTagFostered token.

(** ** The modes before the body *)

Definition defaultForBeforeHead : BM unit := processFakeStartTag "head".
Definition defaultForInHead : BM unit := processFakeEndTag "head".
Definition defaultForInHeadNoscript : BM unit := processFakeEndTag "noscript".
Definition defaultForAfterHead : BM unit := processFakeStartTag "body";; setFramesetOk true.

Definition startTagAfterHead (token : TagToken) : BM unit :=
  let name := tag_name token in
  if isTag name "html" then processHtmlStartTagForInBody token
  else if isTag name "body" then setFramesetOk false;; onSite (insertHTMLBodyElement token);; setMode InBody
  else if isTag name "frameset" then onSite (insertHTMLElement token);; setMode InFrameset
  else if oneOf name ["base"; "basefont"; "bgsound"; "link"; "meta"; "noframes"; "script"; "style"; "template"; "title"] then
    headItem ← gets (m_head ∘ m_tree);
    match headItem with
    | None => fault
    | Some headItem =>
        openElements (pushHTMLHeadElement headItem);;
        processStartTagForInHead token;;
        head ← gets (m_head ∘ m_tree);
        match head with
        | None => fault
        | Some head => element ← openElements (downcast head); openElements (removeHTMLHeadElement element)
        end
    end
  else if isTag name "head" then mret tt
  else defaultForAfterHead;; assertMode InBody;; processStartTagForInBody token.

Definition startTagInHead (token : TagToken) : BM unit :=
  didProcess ← processStartTagForInHead token;
  if didProcess : bool then mret tt else defaultForInHead;; assertMode AfterHead;; startTagAfterHead token.

Definition startTagBeforeHead (token : TagToken) : BM unit :=
  let name := tag_name token in
  if isTag name "html" then processHtmlStartTagForInBody token
  else if isTag name "head" then onSite (insertHTMLHeadElement token);; setMode InHead
  else defaultForBeforeHead;; assertMode InHead;; startTagInHead token.

Definition startTagBeforeHTML (token : TagToken) : BM unit :=
  if isTag (tag_name token) "html" then onSite (insertHTMLHtmlStartTagBeforeHTML token);; setMode BeforeHead
  else defaultForBeforeHTML;; assertMode BeforeHead;; startTagBeforeHead token.

(** ** Start tags *)

Definition startTagInSelect (token : TagToken) : BM unit :=
  let name := tag_name token in
  if isTag name "html" then processHtmlStartTagForInBody token
  else if isTag name "option" then closeOption;; onSite (insertHTMLElement token)
  else if isTag name "optgroup" then
    closeOption;;
    optgroup ← currentIsOptgroup;
    (if optgroup : bool then processFakeEndTag "optgroup" else mret tt);;
    onSite (insertHTMLElement token)
  else if isTag name "select" then processFakeEndTag "select"
  else if oneOf name ["input"; "keygen"; "textarea"] then
    select ← openElements (inSelectScope (text "select"));
    if negb select then ASSERT m_isParsingFragment else processFakeEndTag "select";; startTag self token
  else if isTag name "script" then asInHead token
  else if isTag name "template" then processTemplateStartTag token
  else mret tt.

(** The tags of the parts of a table, without [table]. *)
Definition isTablePart (name : list Z) : bool := isCaptionColOrColgroupTag name || isTableBodyContextTag name || isTableCellContextTag name || isTag name "tr".
(** What ends a [select] in a table. *)
Definition endsSelectInTable (name : list Z) : bool := oneOf name ["caption"; "table"] || isTableBodyContextTag name || isTag name "tr" || isTableCellContextTag name.

Definition startTagInCaption (token : TagToken) : BM unit :=
  if isTablePart (tag_name token) then
    closed ← processCaptionEndTagForInCaption;
    if closed : bool then startTag self token else ASSERT m_isParsingFragment
  else processStartTagForInBody token.

Definition startTagInColumnGroup (token : TagToken) : BM unit :=
  let name := tag_name token in
  if isTag name "html" then processHtmlStartTagForInBody token
  else if isTag name "col" then onSite (insertSelfClosingHTMLElement token)
  else if isTag name "template" then processTemplateStartTag token
  else
    closed ← processColgroupEndTagForInColumnGroup;
    if closed : bool then startTag self token else ASSERT_that isParsingFragmentOrTemplateContents.

Definition startTagInTableBody (token : TagToken) : BM unit :=
  let name := tag_name token in
  if isTag name "tr" then openElements popUntilTableBodyScopeMarker;; onSite (insertHTMLElement token);; setMode InRow
  else if isTableCellContextTag name then processFakeStartTag "tr";; assertMode InRow;; startTag self token
  else if isCaptionColOrColgroupTag name || isTableBodyContextTag name then
    found ← anyInTableScope ["tbody"; "thead"; "tfoot"];
    if negb found then ASSERT_that isParsingFragmentOrTemplateContents
    else
      openElements popUntilTableBodyScopeMarker;;
      item ← current;
      match m_localName item with
      | Some local => ASSERT (isTableBodyContextTag local);; endTag self local;; startTag self token
      | None => fault
      end
  else processStartTagForInTable token.

Definition startTagInRow (token : TagToken) : BM unit :=
  let name := tag_name token in
  if isTableCellContextTag name then
    openElements popUntilTableRowScopeMarker;; onSite (insertHTMLElement token);; setMode InCell;; activeFormattingElements appendMarker
  else if isTag name "tr" || isCaptionColOrColgroupTag name || isTableBodyContextTag name then
    closed ← processTrEndTagForInRow;
    if closed : bool then assertMode InTableBody;; startTag self token else ASSERT_that isParsingFragmentOrTemplateContents
  else processStartTagForInTable token.

Definition startTagInTemplate (token : TagToken) : BM unit :=
  let name := tag_name token in
  if isTag name "template" then processTemplateStartTag token
  else if oneOf name ["link"; "script"; "style"; "meta"] then processStartTagForInHead token;; mret tt
  else
    let mode :=
      if isTag name "col" then InColumnGroup
      else if isCaptionColOrColgroupTag name || isTableBodyContextTag name then InTable
      else if isTag name "tr" then InTableBody
      else if isTableCellContextTag name then InRow
      else InBody in
    last ← lastTemplateMode;
    ASSERT (bool_decide (last = TemplateContents));;
    modify (λ b, set_templateInsertionModes (removelast (m_templateInsertionModes b) ++ [mode]) b);;
    setMode mode;;
    startTag self token.

Definition processStartTag (token : TagToken) : BM unit :=
  let name := tag_name token in
  mode ← gets m_insertionMode;
  match mode with
  | Initial => defaultForInitial;; assertMode BeforeHTML;; startTagBeforeHTML token
  | BeforeHTML => startTagBeforeHTML token
  | BeforeHead => startTagBeforeHead token
  | InHead => startTagInHead token
  | AfterHead => startTagAfterHead token
  | InBody => processStartTagForInBody token
  | InTable => processStartTagForInTable token
  | InCaption => startTagInCaption token
  | InColumnGroup => startTagInColumnGroup token
  | InTableBody => startTagInTableBody token
  | InRow => startTagInRow token
  | InCell =>
      if isTablePart name then
        cell ← anyInTableScope ["td"; "th"];
        if negb cell then ASSERT m_isParsingFragment else closeTheCell;; startTag self token
      else processStartTagForInBody token
  | AfterBody | AfterAfterBody =>
      if isTag name "html" then processHtmlStartTagForInBody token else setMode InBody;; startTag self token
  | InHeadNoscript =>
      if isTag name "html" then processHtmlStartTagForInBody token
      else if oneOf name ["basefont"; "bgsound"; "link"; "meta"; "noframes"; "style"] then asInHead token
      else if isTag name "noscript" then mret tt
      else defaultForInHeadNoscript;; modify (set_shouldSkipLeadingNewline false);; startTag self token
  | InFrameset =>
      if isTag name "html" then processHtmlStartTagForInBody token
      else if isTag name "frameset" then onSite (insertHTMLElement token)
      else if isTag name "frame" then onSite (insertSelfClosingHTMLElement token)
      else if isTag name "noframes" then processStartTagForInHead token;; mret tt
      else mret tt
  | AfterFrameset | AfterAfterFrameset =>
      if isTag name "html" then processHtmlStartTagForInBody token
      else if isTag name "noframes" then processStartTagForInHead token;; mret tt
      else mret tt
  | InSelectInTable => if endsSelectInTable name then processFakeEndTag "select";; startTag self token else startTagInSelect token
  | InSelect => startTagInSelect token
  | InTableText => defaultForInTableText;; startTag self token
  | Text => ASSERT false
  | TemplateContents => startTagInTemplate token
  end.

(** ** End tags *)

(** [generateImpliedEndTags(); popUntilPopped(name);] when the element is in scope. *)
Definition closeInScope (scope : M HTMLElementStack bool) (implied : CM unit) (name : list Z) : BM unit :=
  found ← openElements scope;
  if found : bool then onSite implied;; _ ← current; openElements (popUntilPopped name) else mret tt.

Definition endTagForm : BM unit :=
  template ← isParsingTemplateContents;
  if negb template then
    formElement ← onSite takeForm;
    match formElement with
    | None => mret tt
    | Some formElement =>
        found ← openElements (inScopeElement formElement);
        if negb found then mret tt
        else
          onSite generateImpliedEndTags;;
          _ ← onSite currentNode;
          openElements (HTMLElementStack.remove (mkNode formElement (Some (htmlName "form"))));;
          onSite (processAnyOtherEndTagForInBody (text "form"))
    end
  else
    found ← openElements (inScope (text "form"));
    if negb found then mret tt
    else
      onSite generateImpliedEndTags;;
      _ ← onSite currentNode;
      openElements (popUntilPopped (text "form"));;
      onSite (processAnyOtherEndTagForInBody (text "form")).

Definition processEndTagForInBody (name : list Z) : BM unit :=
  if isTag name "body" then processBodyEndTagForInBody;; mret tt
  else if isTag name "html" then ended ← processBodyEndTagForInBody; if ended : bool then endTag self name else mret tt
  else if oneOf name ["address"; "article"; "aside"; "blockquote"; "button"; "center"; "details"; "dir"; "div"; "dl"; "fieldset"; "figcaption"; "figure"; "footer";
                      "header"; "hgroup"; "listing"; "main"; "menu"; "nav"; "ol"; "pre"; "section"; "summary"; "ul"] then
    closeInScope (inScope name) generateImpliedEndTags name
  else if isTag name "form" then endTagForm
  else if isTag name "p" then
    p ← openElements (inButtonScope name);
    if negb p then
      processFakeStartTag "p";;
      ASSERT_that (openElements (inScope name));;
      endTag self name
    else onSite (generateImpliedEndTagsWithExclusion name);; _ ← current; openElements (popUntilPopped name)
  else if isTag name "li" then closeInScope (inListItemScope name) (generateImpliedEndTagsWithExclusion name) name
  else if oneOf name ["dd"; "dt"] then closeInScope (inScope name) (generateImpliedEndTagsWithExclusion name) name
  else if isNumberedHeaderTag name then
    found ← openElements hasNumberedHeaderElementInScope;
    if found : bool then onSite generateImpliedEndTags;; _ ← current; openElements popUntilNumberedHeaderElementPopped else mret tt
  else if isFormattingTag name then onSite (callTheAdoptionAgency name)
  else if oneOf name ["applet"; "marquee"; "object"] then
    found ← openElements (inScope name);
    if found : bool then
      onSite generateImpliedEndTags;; _ ← current; openElements (popUntilPopped name);; activeFormattingElements clearToLastMarker
    else mret tt
  else if isTag name "br" then processFakeStartTag "br"
  else if isTag name "template" then processTemplateEndTag;; mret tt
  else onSite (processAnyOtherEndTagForInBody name).

Definition processEndTagForInTable (name : list Z) : BM unit :=
  if isTag name "table" then processTableEndTagForInTable;; mret tt
  else if isTag name "body" || isCaptionColOrColgroupTag name || isTag name "html" || isTableBodyContextTag name || isTableCellContextTag name || isTag name "tr" then mret tt
  else redirecting (processEndTagForInBody name).

Definition processEndTagForInTableBody (name : list Z) : BM unit :=
  if isTableBodyContextTag name then
    found ← openElements (inTableScope name);
    if negb found then mret tt
    else openElements popUntilTableBodyScopeMarker;; openElements pop;; setMode InTable
  else if isTag name "table" then
    found ← anyInTableScope ["tbody"; "thead"; "tfoot"];
    if negb found then ASSERT_that isParsingFragmentOrTemplateContents
    else
      openElements popUntilTableBodyScopeMarker;;
      item ← current;
      match m_localName item with
      | Some local => ASSERT (isTableBodyContextTag local);; endTag self local;; endTag self name
      | None => fault
      end
  else if isTag name "body" || isCaptionColOrColgroupTag name || isTag name "html" || isTableCellContextTag name || isTag name "tr" then mret tt
  else processEndTagForInTable name.

Definition processEndTagForInRow (name : list Z) : BM unit :=
  if isTag name "tr" then processTrEndTagForInRow;; mret tt
  else if isTag name "table" then
    closed ← processTrEndTagForInRow;
    if closed : bool then assertMode InTableBody;; endTag self name else ASSERT_that isParsingFragmentOrTemplateContents
  else if isTableBodyContextTag name then
    found ← openElements (inTableScope name);
    if negb found then mret tt
    else processFakeEndTag "tr";; assertMode InTableBody;; endTag self name
  else if isTag name "body" || isCaptionColOrColgroupTag name || isTag name "html" || isTableCellContextTag name then mret tt
  else processEndTagForInTable name.

Definition processEndTagForInCell (name : list Z) : BM unit :=
  if isTableCellContextTag name then
    found ← openElements (inTableScope name);
    if negb found then mret tt
    else
      onSite generateImpliedEndTags;;
      _ ← current;
      openElements (popUntilPopped name);;
      activeFormattingElements clearToLastMarker;;
      setMode InRow
  else if isTag name "body" || isCaptionColOrColgroupTag name || isTag name "html" then mret tt
  else if isTag name "table" || isTag name "tr" || isTableBodyContextTag name then
    found ← openElements (inTableScope name);
    if negb found then ASSERT_that (if isTableBodyContextTag name then mret true else template ← openElements (inTableScope (text "template")); mret (template || m_isParsingFragment))
    else closeTheCell;; endTag self name
  else processEndTagForInBody name.

Definition endTagAfterHead (name : list Z) : BM unit :=
  if negb (oneOf name ["body"; "html"; "br"]) then mret tt
  else defaultForAfterHead;; assertMode InBody;; processEndTagForInBody name.

Definition endTagInHead (name : list Z) : BM unit :=
  if isTag name "template" then processTemplateEndTag;; mret tt
  else if isTag name "head" then openElements popHTMLHeadElement;; setMode AfterHead
  else if negb (oneOf name ["body"; "html"; "br"]) then mret tt
  else defaultForInHead;; assertMode AfterHead;; endTagAfterHead name.

Definition endTagBeforeHead (name : list Z) : BM unit :=
  if negb (oneOf name ["head"; "body"; "html"; "br"]) then mret tt
  else defaultForBeforeHead;; assertMode InHead;; endTagInHead name.

Definition endTagBeforeHTML (name : list Z) : BM unit :=
  if negb (oneOf name ["head"; "body"; "html"; "br"]) then mret tt
  else defaultForBeforeHTML;; assertMode BeforeHead;; endTagBeforeHead name.

Definition endTagText (name : list Z) : BM unit :=
  if isTag name "script" then
    ASSERT_that (item ← current; mret (hasTagName (htmlName "script") item));;
    (if scriptingContentIsAllowed m_parserContentPolicy then element ← openElements top; modify (set_scriptToProcess (Some (node_id element))) else mret tt);;
    openElements pop;;
    restoreMode;;
    data ← gets (isInDataState ∘ m_tokenizer);
    ASSERT (data || usePreHTML5ParserQuirks options);;
    tokenizerDo setDataState
  else openElements pop;; restoreMode.

Definition endTagInSelect (name : list Z) : BM unit :=
  if isTag name "optgroup" then
    option ← currentIsOption;
    below ← (if option : bool then openElements oneBelowTop else mret None);
    (if option && match below with Some item => isNodeOf (htmlName "optgroup") item | None => false end then processFakeEndTag "option" else mret tt);;
    optgroup ← currentIsOptgroup;
    if optgroup : bool then openElements pop else mret tt
  else if isTag name "option" then option ← currentIsOption; if option : bool then openElements pop else mret tt
  else if isTag name "select" then
    select ← openElements (inSelectScope name);
    if negb select then ASSERT m_isParsingFragment
    else openElements (popUntilPopped (text "select"));; resetInsertionModeAppropriately
  else if isTag name "template" then processTemplateEndTag;; mret tt
  else mret tt.

Definition endTagInFrameset (name : list Z) : BM unit :=
  if isTag name "frameset" then
    root ← onSite currentIsRootNode;
    template ← (if root : bool then mret false else openElements hasTemplateInHTMLScope);
    if root || template then ASSERT_that isParsingFragmentOrTemplateContents
    else
      openElements pop;;
      item ← current;
      if negb m_isParsingFragment && negb (hasTagName (htmlName "frameset") item) then setMode AfterFrameset else mret tt
  else mret tt.

Definition endTagInCaption (name : list Z) : BM unit :=
  if isTag name "caption" then processCaptionEndTagForInCaption;; mret tt
  else if isTag name "table" then
    closed ← processCaptionEndTagForInCaption;
    if closed : bool then endTag self name else ASSERT m_isParsingFragment
  else if oneOf name ["body"; "col"; "colgroup"; "html"] || isTableBodyContextTag name || isTableCellContextTag name || isTag name "tr" then mret tt
  else processEndTagForInBody name.

Definition endTagInColumnGroup (name : list Z) : BM unit :=
  if isTag name "colgroup" then processColgroupEndTagForInColumnGroup;; mret tt
  else if isTag name "col" then mret tt
  else if isTag name "template" then processTemplateEndTag;; mret tt
  else
    closed ← processColgroupEndTagForInColumnGroup;
    if closed : bool then endTag self name else ASSERT_that isParsingFragmentOrTemplateContents.

Definition endTagInHeadNoscript (name : list Z) : BM unit :=
  if isTag name "noscript" then
    ASSERT_that (item ← current; mret (hasTagName (htmlName "noscript") item));;
    openElements pop;;
    ASSERT_that (item ← current; mret (hasTagName (htmlName "head") item));;
    setMode InHead
  else if negb (isTag name "br") then mret tt
  else defaultForInHeadNoscript;; modify (set_shouldSkipLeadingNewline false);; endTag self name.

Definition processEndTag (name : list Z) : BM unit :=
  mode ← gets m_insertionMode;
  match mode with
  | Initial => defaultForInitial;; assertMode BeforeHTML;; endTagBeforeHTML name
  | BeforeHTML => endTagBeforeHTML name
  | BeforeHead => endTagBeforeHead name
  | InHead => endTagInHead name
  | AfterHead => endTagAfterHead name
  | InBody => processEndTagForInBody name
  | InTable => processEndTagForInTable name
  | InCaption => endTagInCaption name
  | InColumnGroup => endTagInColumnGroup name
  | InRow => processEndTagForInRow name
  | InCell => processEndTagForInCell name
  | InTableBody => processEndTagForInTableBody name
  | AfterBody =>
      if isTag name "html" then if m_isParsingFragment then mret tt else setMode AfterAfterBody
      else setMode InBody;; endTag self name
  | AfterAfterBody => setMode InBody;; endTag self name
  | InHeadNoscript => endTagInHeadNoscript name
  | Text => endTagText name
  | InFrameset => endTagInFrameset name
  | AfterFrameset => if isTag name "html" then setMode AfterAfterFrameset else mret tt
  | AfterAfterFrameset => mret tt
  | InSelectInTable =>
      if endsSelectInTable name then
        found ← openElements (inTableScope name);
        if found : bool then processFakeEndTag "select";; endTag self name else mret tt
      else endTagInSelect name
  | InSelect => endTagInSelect name
  | InTableText => defaultForInTableText;; endTag self name
  | TemplateContents => if isTag name "template" then processTemplateEndTag;; mret tt else mret tt
  end.

End Recursion.

Definition faulty : Handlers := mkHandlers (λ _, fault) (λ _, fault).
Fixpoint handlers (fuel : nat) : Handlers :=
  match fuel with
  | O => faulty
  | S fuel => let self := handlers fuel in mkHandlers (processStartTag self) (processEndTag self)
  end.

(** The handlers as deep as the state of the builder needs them. *)
Definition depth : BM nat := gets (λ b, 16 + length (m_top (m_openElements (m_tree b))))%nat.

(** ** The end of the file *)

Definition popAllElements : BM unit := openElements popAll.

(** [if (!m_templateInsertionModes.isEmpty()) ...], [again] being [processEndOfFile]. *)
Definition processEndOfFileForInTemplateContents (again : BM unit) : BM unit :=
  ended ← processTemplateEndTag;
  if ended : bool then again else popAllElements.
Definition endOfFileInTemplate (again : BM unit) : BM unit :=
  modes ← gets m_templateInsertionModes;
  if bool_decide (length modes = 0%nat) then popAllElements else processEndOfFileForInTemplateContents again.

Fixpoint processEndOfFile (fuel : nat) (self : Handlers) : BM unit :=
  match fuel with
  | O => fault
  | S fuel =>
      let again := processEndOfFile fuel self in
      let afterHead := defaultForAfterHead self;; assertMode InBody;; endOfFileInTemplate again in
      let inHead := defaultForInHead self;; assertMode AfterHead;; afterHead in
      let beforeHead := defaultForBeforeHead self;; assertMode InHead;; inHead in
      let beforeHTML := defaultForBeforeHTML;; assertMode BeforeHead;; beforeHead in
      let openMode :=
        mode ← gets m_insertionMode;
        ASSERT (bool_decide (mode ∈ [InSelect; InSelectInTable; InTable; InFrameset; InTableBody; InColumnGroup]));;
        _ ← onSite currentNode; _ ← openElements rootNode;
        endOfFileInTemplate again in
      mode ← gets m_insertionMode;
      match mode with
      | Initial => defaultForInitial;; assertMode BeforeHTML;; beforeHTML
      | BeforeHTML => beforeHTML
      | BeforeHead => beforeHead
      | InHead => inHead
      | AfterHead => afterHead
      | InBody | InCell | InCaption | InRow => endOfFileInTemplate again
      | AfterBody | AfterAfterBody | AfterFrameset | AfterAfterFrameset => popAllElements
      | InHeadNoscript => defaultForInHeadNoscript self;; again
      | InColumnGroup =>
          root ← onSite currentIsRootNode;
          if root : bool then ASSERT m_isParsingFragment
          else
            ASSERT_that (item ← current; mret (isNodeOf (htmlName "colgroup") item || isNodeOf (htmlName "template") item));;
            processColgroupEndTagForInColumnGroup;;
            openMode
      | InFrameset | InTable | InTableBody | InSelectInTable | InSelect => openMode
      | InTableText => defaultForInTableText;; again
      | Text =>
          _ ← current;
          openElements pop;;
          original ← gets m_originalInsertionMode;
          ASSERT (bool_decide (original ≠ Text));;
          restoreMode;;
          again
      | TemplateContents => processEndOfFileForInTemplateContents again
      end
  end.

(** ** Characters *)

(** [buffer.takeLeadingWhitespace()], and its insertion: the rest of the buffer. *)
Definition insertLeadingWhitespace (buffer : list Z) : BM (list Z) :=
  ASSERT (bool_decide (buffer ≠ []));;
  let '(spaces, rest) := spanSpaces buffer in
  (if bool_decide (spaces = []) then mret tt else onSite (insertTextNode spaces));;
  mret rest.
Definition skipLeadingWhitespace (buffer : list Z) : BM (list Z) := ASSERT (bool_decide (buffer ≠ []));; mret (spanSpaces buffer).2.

(** [if (buffer.isEmpty()) return;] *)
Definition unlessEmpty (buffer : list Z) (m : BM (list Z)) : BM (list Z) := if bool_decide (buffer = []) then mret [] else m.

(** What is left of the buffer; [fuel] for the jumps to [ReprocessBuffer]. *)
Fixpoint processCharacterBuffer (fuel : nat) (self : Handlers) (buffer : list Z) : BM (list Z) :=
  match fuel with
  | O => fault
  | S fuel =>
      let again := processCharacterBuffer fuel self in
      let inBody buffer := processCharacterBufferForInBody buffer;; mret [] in
      let afterHead buffer := rest ← insertLeadingWhitespace buffer; unlessEmpty rest (defaultForAfterHead self;; assertMode InBody;; inBody rest) in
      let inHead buffer := rest ← insertLeadingWhitespace buffer; unlessEmpty rest (defaultForInHead self;; assertMode AfterHead;; afterHead rest) in
      let beforeHead buffer := rest ← skipLeadingWhitespace buffer; unlessEmpty rest (defaultForBeforeHead self;; assertMode InHead;; inHead rest) in
      let beforeHTML buffer := rest ← skipLeadingWhitespace buffer; unlessEmpty rest (defaultForBeforeHTML;; assertMode BeforeHead;; beforeHead rest) in
      let give buffer := modify (λ b, set_pendingTableCharacters (m_pendingTableCharacters b ++ buffer) b);; mret [] in
      let whitespaceOnly buffer (insert : list Z → BM unit) :=
        ASSERT (bool_decide (buffer ≠ []));;
        let spaces := takeRemainingWhitespace buffer in
        (if bool_decide (spaces = []) then mret tt else insert spaces);;
        mret [] in
      skip ← gets m_shouldSkipLeadingNewline;
      buffer ← (if skip : bool then modify (set_shouldSkipLeadingNewline false);; ASSERT (bool_decide (buffer ≠ []));; mret (skipAtMostOneLeadingNewline buffer) else mret buffer);
      if skip && bool_decide (buffer = []) then mret []
      else
        mode ← gets m_insertionMode;
        match mode with
        | Initial => rest ← skipLeadingWhitespace buffer; unlessEmpty rest (defaultForInitial;; assertMode BeforeHTML;; beforeHTML rest)
        | BeforeHTML => beforeHTML buffer
        | BeforeHead => beforeHead buffer
        | InHead => inHead buffer
        | AfterHead => afterHead buffer
        | InBody | InCaption | InCell | TemplateContents => inBody buffer
        | InTable | InTableBody | InRow =>
            pending ← gets m_pendingTableCharacters;
            ASSERT (bool_decide (length pending = 0%nat));;
            item ← current;
            if isNodeOf (htmlName "table") item || hasTagName (htmlName "tbody") item || hasTagName (htmlName "tfoot") item || hasTagName (htmlName "thead") item || hasTagName (htmlName "tr") item then
              modify (set_originalInsertionMode mode);; setMode InTableText;; give buffer
            else redirecting (processCharacterBufferForInBody buffer);; mret []
        | InTableText => give buffer
        | InColumnGroup =>
            rest ← insertLeadingWhitespace buffer;
            unlessEmpty rest (
              closed ← processColgroupEndTagForInColumnGroup;
              if closed : bool then again rest
              else
                ASSERT_that isParsingFragmentOrTemplateContents;;
                let rest := skipLeadingNonWhitespace rest in
                unlessEmpty rest (again rest))
        | AfterBody | AfterAfterBody => setMode InBody;; again buffer
        | Text | InSelectInTable | InSelect => onSite (insertTextNode buffer);; mret []
        | InHeadNoscript => rest ← insertLeadingWhitespace buffer; unlessEmpty rest (defaultForInHeadNoscript self;; again rest)
        | InFrameset | AfterFrameset => whitespaceOnly buffer (λ spaces, onSite (insertTextNode spaces))
        | AfterAfterFrameset => whitespaceOnly buffer (λ spaces, onSite reconstructTheActiveFormattingElements;; onSite (insertTextNode spaces))
        end
  end.

(** [processCharacter]: the buffer of a token is not empty at first and empty at the end. *)
Definition processCharacter (self : Handlers) (characters : list Z) : BM unit :=
  ASSERT (bool_decide (characters ≠ []));;
  rest ← processCharacterBuffer (2 + length characters) self characters;
  ASSERT (bool_decide (rest = [])).

(** ** Tokens *)

Fixpoint processDoctypeToken (fuel : nat) (token : DoctypeToken) : BM unit :=
  match fuel with
  | O => fault
  | S fuel =>
      mode ← gets m_insertionMode;
      match mode with
      | Initial => onSite (insertDoctype token);; setMode BeforeHTML
      | InTableText => defaultForInTableText;; processDoctypeToken fuel token
      | _ => mret tt
      end
  end.

Fixpoint processComment (fuel : nat) (comment : list Z) : BM unit :=
  match fuel with
  | O => fault
  | S fuel =>
      mode ← gets m_insertionMode;
      match mode with
      | Initial | BeforeHTML | AfterAfterBody | AfterAfterFrameset => onSite (insertCommentOnDocument comment)
      | AfterBody => onSite (insertCommentOnHTMLHtmlElement comment)
      | InTableText => defaultForInTableText;; processComment fuel comment
      | _ => onSite (insertComment comment)
      end
  end.

Definition processToken (fuel : nat) (token : AtomicHTMLToken) : BM unit :=
  let self := handlers fuel in
  match token with
  | TDoctype doctype => modify (set_shouldSkipLeadingNewline false);; processDoctypeToken 2 doctype
  | TStartTag tag => modify (set_shouldSkipLeadingNewline false);; startTag self tag
  | TEndTag tag => modify (set_shouldSkipLeadingNewline false);; endTag self (tag_name tag)
  | TComment comment => modify (set_shouldSkipLeadingNewline false);; processComment 2 comment
  | TCharacter characters => processCharacter self characters
  | TEndOfFile => modify (set_shouldSkipLeadingNewline false);; processEndOfFile fuel self
  end.

(** ** Foreign content *)

Definition isTokenOf (token : AtomicHTMLToken) (type : HTMLToken.TokenType) : bool :=
  match token, type with
  | TStartTag _, HTMLToken.StartTag | TCharacter _, HTMLToken.Character | TEndOfFile, HTMLToken.EndOfFile => true
  | _, _ => false
  end.
Definition isStartTagOf (token : AtomicHTMLToken) (tag : string) : bool := match token with TStartTag t => isTag (tag_name t) tag | _ => false end.

Definition shouldProcessTokenInForeignContent (token : AtomicHTMLToken) : BM bool :=
  empty ← onSite isEmpty;
  if empty : bool then mret false
  else
    item ← adjustedCurrentStackItem;
    let start := isTokenOf token HTMLToken.StartTag in
    let character := isTokenOf token HTMLToken.Character in
    mret (negb (isInHTMLNamespace item
      || isMathMLTextIntegrationPoint item && (start && negb (isStartTagOf token "mglyph") && negb (isStartTagOf token "malignmark") || character)
      || hasTagName (mathmlName "annotation-xml") item && isStartTagOf token "svg"
      || isHTMLIntegrationPoint item && (start || character)
      || isTokenOf token HTMLToken.EndOfFile)).

Definition hasAttributeOf (token : TagToken) (name : string) : bool := bool_decide (findIn (tag_attributes token) (mkName (text name) nullNamespace) ≠ None).

(** The start tags that leave foreign content. *)
Definition leavesForeignContent (token : TagToken) : bool :=
  let name := tag_name token in
  oneOf name ["b"; "big"; "blockquote"; "body"; "br"; "center"; "code"; "dd"; "div"; "dl"; "dt"; "em"; "embed"]
  || isNumberedHeaderTag name
  || oneOf name ["head"; "hr"; "i"; "img"; "li"; "listing"; "menu"; "meta"; "nobr"; "ol"; "p"; "pre"; "ruby"; "s"; "small"; "span"; "strong"; "strike"; "sub"; "sup"; "table"; "tt"; "u"; "ul"; "var"]
  || isTag name "font" && (hasAttributeOf token "color" || hasAttributeOf token "face" || hasAttributeOf token "size").

(** The loop over the foreign elements for an end tag: [true] when it was found. *)
Fixpoint foreignLoop (name : list Z) (records : list ElementRecord) : BM bool :=
  match records with
  | [] => fault
  | r :: records =>
      if bool_decide (m_localName (m_item r) = Some name) then
        element ← openElements (downcast (m_item r));
        openElements (popUntilElementPopped (node_id element));;
        mret true
      else
        match records with
        | [] => fault
        | next :: _ => if isInHTMLNamespace (m_item next) then mret false else foreignLoop name records
        end
  end.

Definition foreignStartTag (self : Handlers) (ns : Namespace) (token : TagToken) : BM unit :=
  if leavesForeignContent token then openElements popUntilForeignContentScopeMarker;; startTag self token
  else
    let token := if bool_decide (ns = mathmlNamespaceURI) then adjustMathMLAttributes token else token in
    let token := if bool_decide (ns = svgNamespaceURI) then adjustSVGAttributes (adjustSVGTagNameCase token) else token in
    onSite (insertForeignElement (adjustForeignAttributes token) ns).

Definition foreignEndTag (self : Handlers) (ns : Namespace) (token : TagToken) : BM unit :=
  let token := if bool_decide (ns = svgNamespaceURI) then adjustSVGTagNameCase token else token in
  let name := tag_name token in
  item ← current;
  if isTag name "script" && hasTagName (svgName "script") item then
    (if scriptingContentIsAllowed m_parserContentPolicy then element ← openElements top; modify (set_scriptToProcess (Some (node_id element))) else mret tt);;
    openElements pop
  else
    found ← (if isInHTMLNamespace item then mret false
             else _ ← openElements topRecord; records ← gets (m_top ∘ m_openElements ∘ m_tree); foreignLoop name records);
    if found : bool then mret tt else endTag self name.

Definition processTokenInForeignContent (fuel : nat) (token : AtomicHTMLToken) : BM unit :=
  let self := handlers fuel in
  item ← adjustedCurrentStackItem;
  match token with
  | TDoctype _ => mret tt
  | TStartTag tag => foreignStartTag self (m_namespaceURI item) tag
  | TEndTag tag => foreignEndTag self (m_namespaceURI item) tag
  | TComment comment => onSite (insertComment comment)
  | TCharacter characters => onSite (insertTextNode characters);; clearFramesetOkFor characters
  | TEndOfFile => ASSERT false
  end.

Definition isInForeignContent : BM bool :=
  empty ← onSite isEmpty;
  if empty : bool then mret false
  else
    adjusted ← adjustedCurrentStackItem;
    item ← current;
    mret (negb (isInHTMLNamespace adjusted) && negb (isHTMLIntegrationPoint item) && negb (isMathMLTextIntegrationPoint item)).

Definition constructTree (token : AtomicHTMLToken) : BM unit :=
  fuel ← depth;
  foreign ← shouldProcessTokenInForeignContent token;
  (if foreign : bool then processTokenInForeignContent fuel token else processToken fuel token);;
  inForeignContent ← isInForeignContent;
  mode ← gets m_insertionMode;
  tokenizerDo (setForceNullCharacterReplacement (bool_decide (mode = Text) || inForeignContent));;
  tokenizerDo (setShouldAllowCDATA inForeignContent);;
  onSite executeQueuedTasks.

(** ** Outside *)

Definition takeScriptToProcess : BM (option positive) := script ← gets m_scriptToProcess; modify (set_scriptToProcess None);; mret script.
Definition takeCustomElementConstructionData : BM (option CustomElementConstructionData) := data ← gets m_customElementToConstruct; modify (set_customElementToConstruct None);; mret data.
Definition hasParserBlockingScriptWork : BM bool :=
  script ← gets (λ b, bool_decide (m_scriptToProcess b ≠ None));
  custom ← gets (λ b, match m_customElementToConstruct b with Some _ => true | None => false end);
  ASSERT (negb (script && custom));;
  mret (script || custom).
Definition setShouldSkipLeadingNewline (shouldSkip : bool) : BM unit := modify (set_shouldSkipLeadingNewline shouldSkip).

Definition finished : BM unit :=
  if m_isParsingFragment then mret tt
  else modes ← gets m_templateInsertionModes; ASSERT (bool_decide (length modes = 0%nat)).

(** A builder for a document, on a site without open elements. *)
Definition newBuilder (site : HTMLConstructionSite) : HTMLTreeBuilder := mkBuilder Initial Initial [] [] None None false true site (newTokenizer options).

(** The constructor for a fragment; the form is the closest one around the context element. *)
Definition initializeForFragment (fragment : positive) (form : option positive) : BM unit :=
  openElements (pushRootNode (itemOfFragment fragment));;
  (if hasTagName (htmlName "template") contextElementStackItem then modify (λ b, set_templateInsertionModes (m_templateInsertionModes b ++ [TemplateContents]) b) else mret tt);;
  resetInsertionModeAppropriately;;
  onSite (setForm form).

End Operations.
