(* ===== verification/TreeBuilderBody.v ===== *)
(** * The tree builder in the body

    What the handlers of [HTMLTreeBuilder] do with the tags and characters of the content of a
    body: they do not fail and the page stays well formed ([inPage]). The tags of tables,
    [select], [template] and [frameset] are left out ([pageTag]). *)

From Stdlib Require Import String.
From S2P Require Import Prelude HTMLStackItem HTMLElementStack HTMLFormattingElementList ContainerNode ContainerNodeLists ContainerNodeCorrect ContainerNodeScripts ContainerNodeTheorems.
From S2P Require Import TreeOrder HTMLConstructionSite AdoptionAgency TreeTasks SiteInvariant SiteOperations AdoptionCorrect SiteData TextNodes SiteTheorems PageContent.
From S2P Require Import HTMLTokenizer HTMLTreeBuilder.

#[local] Open Scope string_scope.
#[local] Open Scope list_scope.

(** ** Names *)

(** The names of the tags that stay in the modes of a page. *)
Definition pageTag (name : list Z) : bool := negb (oneOf name ["frameset"; "table"; "select"; "template"]).

(** A statement about one of several tags. *)
Lemma oneOf_all (P : list Z → bool) name tags : oneOf name tags = true → forallb (λ t, P (text t)) tags = true → P name = true.
Proof.
  unfold oneOf. rewrite existsb_exists, forallb_forall. intros (t & Hin & Ht%bool_decide_eq_true) Hall. rewrite Ht. by apply (Hall t).
Qed.

Lemma isTag_eq name tag : isTag name tag = true → name = text tag.
Proof. apply bool_decide_eq_true. Qed.

Lemma oneOf_not name tags tag : oneOf name tags = false → tag ∈ tags → name ≠ text tag.
Proof.
  intros Hn Hin ->. assert (Ht : oneOf (text tag) tags = true); [|congruence]. apply existsb_exists. exists tag. split; [by apply list_elem_of_In|by apply bool_decide_eq_true].
Qed.

Lemma isTag_not name tag : isTag name tag = false → name ≠ text tag.
Proof. apply bool_decide_eq_false. Qed.

Lemma plain_not name : name ≠ text "html" → name ≠ text "head" → name ≠ text "body" → plain name = true.
Proof. intros H1 H2 H3. apply bool_decide_eq_true. cbn [fmap list_fmap]. rewrite !not_elem_of_cons. split_and!; [done..|apply not_elem_of_nil]. Qed.

(** ** The state *)

(** What is assumed of the document: it has no custom elements, text can be broken into
    nodes, it is not a fragment, and the depth of its tree is limited by an [unsigned]. *)
Class PlainDocument `{Parser} : Prop := {
  no_custom : ∀ name, findInterface name = false;
  breaks_before : breaksBefore;
  whole_document : m_isParsingFragment = false;
  depth_unsigned : (0 ≤ m_maximumDOMTreeDepth)%Z;
}.

Section Quiet.
Context `{Build} `{Parser} `{TreeBuilder} `{!PlainDocument}.
#[local] Existing Instance quiet.
Let Hcustom : ∀ name, findInterface name = false := no_custom.
Let Hbreak : breaksBefore := breaks_before.
Let Hwhole : m_isParsingFragment = false := whole_document.

Lemma allowed_not name :
  name ≠ text "script" → pluginContentIsAllowed m_parserContentPolicy = true ∨ (name ≠ text "object" ∧ name ≠ text "embed" ∧ name ≠ text "applet") → allowed (Some (mkName name xhtmlNamespaceURI)) = true.
Proof.
  intros Hs Hp. unfold allowed, isScriptElement, isPluginElement. assert (E : ∀ t, name ≠ text t → bool_decide (Some (mkName name xhtmlNamespaceURI) = Some (htmlName t)) = false) by (intros t Ht; apply bool_decide_eq_false; by intros [= ->]).
  rewrite (E "script"), (bool_decide_eq_false_2 (Some (mkName name xhtmlNamespaceURI) = Some (svgName "script"))) by (done || by intros [=]). rewrite orb_true_r. destruct Hp as [-> |(? & ? & ?)]; [done|]. rewrite !E by done. by rewrite orb_true_r.
Qed.

(** No template is open for the builder, no characters wait for a table. *)
Definition settled (b : HTMLTreeBuilder) : Prop := m_templateInsertionModes b = [] ∧ m_pendingTableCharacters b = [].

(** A mode of a page with an open body. *)
Definition on (mode : InsertionMode) (N : Z) (b : HTMLTreeBuilder) : Prop := m_insertionMode b = mode ∧ settled b ∧ inPage N (m_tree b).

Lemma on_ext mode N b b' :
  m_insertionMode b' = m_insertionMode b → m_templateInsertionModes b' = m_templateInsertionModes b → m_pendingTableCharacters b' = m_pendingTableCharacters b → m_tree b' = m_tree b → on mode N b → on mode N b'.
Proof. intros E1 E2 E3 E4 (Hm & [Ht Hp] & Hi). unfold on, settled. rewrite E1, E2, E3, E4. done. Qed.

Lemma wp_onSite {A} (m : CM A) (Q : A → HTMLTreeBuilder → Prop) b : wp m (λ a s', Q a (set_site s' b)) (m_tree b) → wp (onSite m) Q b.
Proof. apply wp_part. Qed.

(** A question to the site. *)
Lemma wp_askSite {A} (m : CM A) (Q : A → HTMLTreeBuilder → Prop) b : wp m (λ a s', s' = m_tree b ∧ Q a b) (m_tree b) → wp (onSite m) Q b.
Proof. intros Hw. apply wp_onSite. eapply wp_mono; [exact Hw|]. intros a s' [-> HQ]. by destruct b. Qed.

(** An operation of the site that leaves the frame alone. *)
Lemma wp_siteAround {A} (m : CM A) (P : A → HTMLConstructionSite → Prop) mode N (Q : A → HTMLTreeBuilder → Prop) b :
  on mode N b → steps around m → wp m (λ a s', siteOk s' ∧ P a s') (m_tree b) → (∀ a s', P a s' → around (m_tree b) s' → on mode N (set_site s' b) → Q a (set_site s' b)) → wp (onSite m) Q b.
Proof.
  intros (Hm & Hs & [Hok Hf]) Hk Hw HQ. apply wp_onSite. eapply wp_mono; [by apply (steps_wp around)|]. intros a s' [[Hok' HP] Ha]. apply HQ; [done..|]. split_and!; [done..|]. split; [done|by eapply frame_ok].
Qed.

Lemma wp_site {A} (m : CM A) (P : A → HTMLConstructionSite → Prop) mode N (Q : A → HTMLTreeBuilder → Prop) b :
  on mode N b → steps around m → wp m (λ a s', siteOk s' ∧ P a s') (m_tree b) → (∀ a s', P a s' → on mode N (set_site s' b) → Q a (set_site s' b)) → wp (onSite m) Q b.
Proof. intros Hon Hk Hw HQ. eapply wp_siteAround; [done..|]. intros a s' HP _ Hon'. by apply HQ. Qed.

Lemma wp_stay {A} (m : CM A) mode N (Q : A → HTMLTreeBuilder → Prop) b : on mode N b → stays m → (∀ a b', on mode N b' → Q a b') → wp (onSite m) Q b.
Proof. intros (Hm & Hs & Hi) Hst HQ. apply wp_onSite. eapply stays_page; [done..|]. intros a s' Hi'. by apply HQ. Qed.

Lemma wp_query q mode N (Q : bool → HTMLTreeBuilder → Prop) b :
  on mode N b →
  (∀ answer : bool, (answer = true ↔ ∃ a r l, records (m_tree b) = a ++ r :: l ∧ targetOf q (m_item r) = true ∧ Forall (λ x, markerOf q (m_item x) = false) a) → Q answer b) → wp (openElements (ask q)) Q b.
Proof.
  intros (_ & _ & [Hok _]) HQ. pose proof (ok_shape _ Hok) as Hs. destruct (ask_run q (m_openElements (m_tree b))) as (answer & Ha & Hans); [apply Hs|apply (ok_top _ Hs)|].
  apply wp_askSite. eapply wp_askStack; [exact Ha|]. split; [done|]. by apply HQ.
Qed.

(** The questions whose answer does not matter. *)
Lemma wp_some q mode N (Q : bool → HTMLTreeBuilder → Prop) b : on mode N b → (∀ answer, Q answer b) → wp (openElements (ask q)) Q b.
Proof. intros Hon HQ. eapply wp_query; [exact Hon|]. intros answer _. apply HQ. Qed.

Lemma records_top N s : inPage N s → ∃ r l, records s = r :: l.
Proof. intros [Hok _]. destruct (records s) as [|r l] eqn:E; [by destruct (ok_top _ (ok_shape _ Hok))|by eauto]. Qed.

Lemma wp_current mode N (Q : HTMLStackItem → HTMLTreeBuilder → Prop) b : on mode N b → (∀ r l, records (m_tree b) = r :: l → Q (m_item r) b) → wp current Q b.
Proof.
  intros (_ & _ & Hi) HQ. destruct (records_top _ _ Hi) as (r & l & E). apply wp_askSite. eapply wp_currentStackItem; [exact E|]. split; [done|by eapply HQ].
Qed.

Lemma wp_mode mode (Q : unit → HTMLTreeBuilder → Prop) b : m_insertionMode b = mode → Q tt b → wp (assertMode mode) Q b.
Proof. intros E HQ. unfold assertMode. apply wp_bind, wp_gets, wp_ASSERT; [by apply bool_decide_eq_true|done]. Qed.

Lemma wp_ASSERT_that (question : BM bool) (Q : unit → HTMLTreeBuilder → Prop) b : wp question (λ answer b', answer = true ∧ b' = b) b → Q tt b → wp (ASSERT_that question) Q b.
Proof.
  intros Hq HQ. unfold ASSERT_that. destruct ASSERT_DISABLED; [by apply wp_ret|]. apply wp_bind. eapply wp_mono; [exact Hq|]. intros answer b' [-> ->]. by apply wp_ASSERT.
Qed.

(** ** Closing elements *)

(** The elements with implied end tags. *)
Definition impliedNames : list string := ["dd"; "dt"; "li"; "option"; "optgroup"; "p"; "rb"; "rp"; "rt"; "rtc"].

Lemma not_implied h item name : sound h item → matchesHTMLTag name item = true → oneOf name impliedNames = false → hasImpliedEndTag item = false.
Proof.
  intros Hs Hm Hn. rewrite matches_tag in Hm. assert (Hno : forallb (λ t, negb (hasTagName (htmlName t) item)) impliedNames = true).
  { apply forallb_forall. intros t Ht%list_elem_of_In. apply negb_true_iff, not_true_iff_false. intros Ht'. apply (oneOf_not _ _ t Hn Ht). pose proof (hasTagName_inj _ _ _ Hm Ht') as E. unfold htmlName in E. congruence. }
  unfold impliedNames in Hno. cbn [forallb] in Hno. rewrite !andb_true_iff, !negb_true_iff in Hno. destruct Hno as (E1 & E2 & E3 & E4 & E5 & E6 & E7 & E8 & E9 & E10 & _).
  unfold hasImpliedEndTag. rewrite !(sound_node h) by exact Hs. rewrite E1, E2, E3, E4, E5, E6, E7, E8, E9, E10. reflexivity.
Qed.

Lemma header_name item : isNumberedHeaderElement item = true → ∃ name, matchesHTMLTag name item = true ∧ oneOf name impliedNames = false.
Proof.
  unfold isNumberedHeaderElement, localNameIn, matchesHTMLTag. rewrite andb_true_iff, bool_decide_eq_true. destruct (m_localName item) as [name|]; [|by intros [_ ?]]. rewrite bool_decide_eq_true. intros [Hns Hin].
  exists name. split; [by rewrite !bool_decide_eq_true_2|]. cbn [fmap list_fmap] in Hin. repeat (apply elem_of_cons in Hin as [-> |Hin]; [by vm_compute|]). by apply elem_of_nil in Hin.
Qed.

(** The element is closed with what is above it. *)
Lemma wp_close implied name r mode N b :
  on mode N b → r ∈ records (m_tree b) → matchesHTMLTag name (m_item r) = true → plain name = true →
  implied = generateImpliedEndTags ∧ oneOf name impliedNames = false ∨ implied = generateImpliedEndTagsWithExclusion name →
  wp (onSite implied;; _ ← current; openElements (popUntilPopped name)) (λ _ b', on mode N b' ∧ (length (records (m_tree b')) < length (records (m_tree b)))%nat) b.
Proof.
  intros Hon Hr Hm Hp Hi. pose proof Hon as (_ & _ & [Hok _]). pose proof (ok_sound _ (ok_shape _ Hok) r Hr) as Hso. apply wp_bind.
  eapply (wp_site _ (λ _ s', r ∈ records s' ∧ (length (records s') ≤ length (records (m_tree b)))%nat)); [exact Hon|destruct Hi as [[-> _]| ->]; auto with keeps| |].
  - destruct Hi as [[-> Hn]| ->]; [|exact (impliedExcept_keep name r _ Hok Hr Hm)]. exact (implied_keep r _ Hok Hr (not_implied _ _ _ Hso Hm Hn)).
  - intros [] s1 [Hr1 Hl1] Hon1. apply wp_bind. eapply wp_current; [exact Hon1|]. intros x l _. eapply wp_site; [exact Hon1|apply keeps_onStack; auto with keeps|apply (popTag_ok name r); [apply Hon1|done..]|].
    intros [] s2 Hl2 Hon2. split; [done|]. cbn in *. lia.
Qed.

(** Going on after the three steps. *)
Lemma wp_three {A B C D} (m1 : BM A) (m2 : BM B) (m3 : BM C) (k : C → BM D) (Q : D → HTMLTreeBuilder → Prop) b : wp (m1;; _ ← m2; m3) (λ c b', wp (k c) Q b') b → wp (m1;; _ ← m2; c ← m3; k c) Q b.
Proof. unfold wp, mbind, M_bind. destruct (m1 b) as [[? b1]|]; [|done]. destruct (m2 b1) as [[? b2]|]; [|done]. by destruct (m3 b2) as [[? b3]|]. Qed.

(** How many elements are open. *)
Definition size (b : HTMLTreeBuilder) : nat := length (records (m_tree b)).

Lemma wp_closeInScope q implied name mode N b :
  on mode N b → plain name = true → implied = generateImpliedEndTags ∧ oneOf name impliedNames = false ∨ implied = generateImpliedEndTagsWithExclusion name → targetOf q = matchesHTMLTag name →
  wp (closeInScope (ask q) implied name) (λ _ b', on mode N b' ∧ (ask q (m_openElements (m_tree b)) = Some (true, m_openElements (m_tree b)) → size b' < size b)%nat) b.
Proof.
  intros Hon Hp Hi Eq. pose proof Hon as (_ & _ & [Hok _]). pose proof (ok_shape _ Hok) as Hs. destruct (ask_run q (m_openElements (m_tree b))) as (answer & Ha & Hans); [apply Hs|apply (ok_top _ Hs)|].
  unfold closeInScope. apply wp_bind, wp_askSite. eapply wp_askStack; [exact Ha|]. split; [done|]. destruct answer; [|apply wp_ret; split; [done|congruence]].
  destruct (proj1 Hans eq_refl) as (a & r & l & E & Ht & _). rewrite Eq in Ht. eapply wp_mono; [apply (wp_close implied name r mode N); [done| |done..]|].
  - rewrite E. set_solver.
  - intros [] b' [Hon' Hl]. split; [done|]. unfold size. lia.
Qed.

Lemma wp_headers mode N b :
  on mode N b →
  wp (found ← openElements hasNumberedHeaderElementInScope; if found : bool then onSite generateImpliedEndTags;; _ ← current; openElements popUntilNumberedHeaderElementPopped else mret tt) (λ _ b', on mode N b') b.
Proof.
  intros Hon. apply wp_bind. eapply (wp_query NumberedHeaderInScope); [exact Hon|]. intros [] Hans; [|by apply wp_ret]. destruct (proj1 Hans eq_refl) as (a & r & l & E & Ht & _). cbn [targetOf] in Ht.
  pose proof Hon as (Emode & Hset & [Hok Hf]). assert (Hr : r ∈ records (m_tree b)) by (rewrite E; set_solver). pose proof (ok_sound _ (ok_shape _ Hok) r Hr) as Hso.
  assert (Hni : hasImpliedEndTag (m_item r) = false) by (destruct (header_name _ Ht) as (name & Hm & Hn); by apply (not_implied _ _ name Hso)).
  apply wp_bind. eapply wp_site; [exact Hon|auto with keeps|exact (implied_keep r _ Hok Hr Hni)|]. intros [] s1 [Hr1 _] Hon1. apply wp_bind. eapply wp_current; [exact Hon1|]. intros x l' _.
  eapply wp_site; [exact Hon1|apply keeps_onStack; auto with keeps|apply (popHeader_ok r); [apply Hon1|done..]|]. by intros [] s2 _ Hon2.
Qed.

(** The question for the current node. *)
Lemma wp_currentNodeOf mode N (Q : positive → HTMLTreeBuilder → Prop) b : on mode N b → (∀ n, Q n b) → wp (onSite currentNode) Q b.
Proof. intros (_ & _ & [Hok _]) HQ. apply wp_askSite, wp_currentNode; [apply Hok|]. intros r l _ _. split; [done|apply HQ]. Qed.

Lemma wp_endTagForm mode N b : on mode N b → wp endTagForm (λ _ b', on mode N b') b.
Proof.
  intros Hon. unfold endTagForm. apply wp_bind. eapply (wp_some TemplateInHTMLScope); [exact Hon|]. intros [].
  - cbn [negb]. apply wp_bind. eapply (wp_query (TagInScope (text "form"))); [exact Hon|]. intros [] Hans; [|by apply wp_ret]. cbn [negb]. destruct (proj1 Hans eq_refl) as (a & r & l & E & Ht & _). cbn [targetOf] in Ht.
    assert (Hr : r ∈ records (m_tree b)) by (rewrite E; set_solver). pose proof Hon as (_ & _ & [Hok _]). pose proof (not_implied _ _ _ (ok_sound _ (ok_shape _ Hok) r Hr) Ht eq_refl) as Hni.
    apply wp_bind. eapply wp_site; [exact Hon|auto with keeps|exact (implied_keep r _ Hok Hr Hni)|]. intros [] s1 [Hr1 _] Hon1. apply wp_bind. eapply wp_currentNodeOf; [exact Hon1|]. intros _.
    apply wp_bind. eapply wp_site; [exact Hon1|apply keeps_onStack; auto with keeps|apply (popTag_ok (text "form") r); [apply Hon1|done..]|]. intros [] s2 _ Hon2. eapply wp_stay; [exact Hon2|by apply stays_anyOther|done].
  - cbn [negb]. apply wp_bind, wp_onSite. pose proof Hon as (Emode & Hset & Hi). apply (takeForm_page N _ _ Hi). intros form s1 Hi1 Er Ek Hform. set (b1 := set_site s1 b). assert (Hon1 : on mode N b1) by done.
    destruct form as [form|]; [|by apply wp_ret]. specialize (Hform form eq_refl). apply wp_bind. eapply (wp_query (ElementInScope form)); [exact Hon1|]. intros [] Hans; [|by apply wp_ret]. cbn [negb].
    destruct (proj1 Hans eq_refl) as (a & r & l & E & Ht%bool_decide_eq_true & _). assert (Hr : r ∈ records s1) by (change (m_tree b1) with s1 in E; rewrite E; set_solver). pose proof Hi1 as [Hok _].
    pose proof (ok_sound _ (ok_shape _ Hok) r Hr) as Hso. assert (Hm : hasTagName (htmlName "form") (m_item r) = true) by (rewrite (sound_tag _ _ _ Hso), <-(sound_tagOf _ _ Hso), Ht; by apply bool_decide_eq_true).
    pose proof (not_implied _ _ (text "form") Hso Hm eq_refl) as Hni. destruct (tag_ordinary _ _ (ok_document _ (ok_shape _ Hok) r Hr) Hm) as [Ho Hroot]; [by apply (bool_decide_eq_true_1 _)|].
    apply wp_bind. eapply wp_site; [exact Hon1|auto with keeps|exact (implied_keep r _ Hok Hr Hni)|]. intros [] s2 [Hr2 _] Hon2. apply wp_bind. eapply wp_currentNodeOf; [exact Hon2|]. intros _.
    apply wp_bind. eapply (wp_site _ (λ _ _, True)); [exact Hon2|apply keeps_onStack; auto with keeps| |].
    + eapply wp_mono; [apply (removeOpen_ok r); [apply Hon2|done|done|done|done|]|by intros [] s3 Hok3]. cbn. by apply (bool_decide_eq_true_1 _).
    + intros [] s3 _ Hon3. eapply wp_stay; [exact Hon3|by apply stays_anyOther|done].
Qed.

(** ** End tags *)

(** A closing tag that another one is made for, or that changes the mode. *)
Definition relayed : list string := ["body"; "html"; "p"; "br"; "template"].

Lemma relayed_not name tag : oneOf name relayed = false → tag ∈ relayed → isTag name tag = false.
Proof. intros Hn Ht. apply bool_decide_eq_false. by eapply oneOf_not. Qed.

Lemma wp_endOther self name mode N b : on mode N b → oneOf name relayed = false → wp (processEndTagForInBody self name) (λ _ b', on mode N b') b.
Proof.
  intros Hon Hn. unfold processEndTagForInBody. rewrite (relayed_not name "body"), (relayed_not name "html"), (relayed_not name "p"), (relayed_not name "br"), (relayed_not name "template") by (done || by apply (bool_decide_eq_true_1 _)).
  assert (Hclose : ∀ q implied, plain name = true → implied = generateImpliedEndTags ∧ oneOf name impliedNames = false ∨ implied = generateImpliedEndTagsWithExclusion name → targetOf q = matchesHTMLTag name →
    wp (closeInScope (ask q) implied name) (λ _ b', on mode N b') b).
  { intros q implied Hp Hi Eq. eapply wp_mono; [by eapply (wp_closeInScope q implied name mode N)|]. by intros [] b' [? _]. }
  case_match eqn:E1; [apply (Hclose (TagInScope name)); [by eapply (oneOf_all _ _ _ E1)|left; split; [done|]|done]|].
  { apply negb_true_iff. by eapply (oneOf_all (λ n, negb (oneOf n impliedNames)) _ _ E1). }
  case_match eqn:E2; [by apply wp_endTagForm|].
  case_match eqn:E3; [apply isTag_eq in E3 as ->; apply (Hclose (TagInListItemScope (text "li"))); [done|by right|done]|].
  case_match eqn:E4; [apply (Hclose (TagInScope name)); [by eapply (oneOf_all _ _ _ E4)|by right|done]|].
  case_match eqn:E5; [by apply wp_headers|].
  case_match eqn:E6; [by eapply wp_stay; [exact Hon|apply stays_adoption|]|].
  case_match eqn:E7.
  { apply wp_bind. eapply (wp_query (TagInScope name)); [exact Hon|]. intros [] Hans; [|by apply wp_ret]. destruct (proj1 Hans eq_refl) as (a & r & l & E & Ht & _). apply wp_three.
    eapply wp_mono; [apply (wp_close generateImpliedEndTags name r mode N); [done|rewrite E; set_solver|done|by eapply (oneOf_all _ _ _ E7)|left; split; [done|]]|].
    - apply negb_true_iff. by eapply (oneOf_all (λ n, negb (oneOf n impliedNames)) _ _ E7).
    - intros [] b' [Hon' _]. by eapply wp_stay; [exact Hon'|apply stays_clear|]. }
  destruct (isTag name "head") eqn:Eh.
  - apply isTag_eq in Eh as ->. apply wp_onSite. pose proof Hon as (Emode & Hset & Hi). eapply wp_mono; [by apply (headEnd_page N)|]. by intros [] s' Hi'.
  - eapply wp_stay; [exact Hon|apply stays_anyOther|done]. apply plain_not; [by apply (oneOf_not _ _ _ Hn), (bool_decide_eq_true_1 _)|by apply isTag_not|by apply (oneOf_not _ _ _ Hn), (bool_decide_eq_true_1 _)].
Qed.

(** The handlers in the mode of the body. *)
Lemma wp_start n token (Q : unit → HTMLTreeBuilder → Prop) b : m_insertionMode b = InBody → wp (processStartTagForInBody (handlers n) token) Q b → wp (startTag (handlers (S n)) token) Q b.
Proof. intros E Hw. cbn [handlers startTag]. unfold processStartTag. apply wp_bind, wp_gets. rewrite E. exact Hw. Qed.
Lemma wp_end n name (Q : unit → HTMLTreeBuilder → Prop) b : m_insertionMode b = InBody → wp (processEndTagForInBody (handlers n) name) Q b → wp (endTag (handlers (S n)) name) Q b.
Proof. intros E Hw. cbn [handlers endTag]. unfold processEndTag. apply wp_bind, wp_gets. rewrite E. exact Hw. Qed.

Lemma wp_endInBody n name N b : on InBody N b → oneOf name relayed = false → wp (endTag (handlers (S n)) name) (λ _ b', on InBody N b') b.
Proof. intros Hon Hn. apply wp_end; [apply Hon|]. by apply wp_endOther. Qed.

(** The steps that do not concern the page. *)
Lemma wp_framesetOk ok mode N (Q : unit → HTMLTreeBuilder → Prop) b : on mode N b → (on mode N (set_framesetOk ok b) → Q tt (set_framesetOk ok b)) → wp (setFramesetOk ok) Q b.
Proof. intros Hon HQ. apply wp_modify, HQ. by apply (on_ext mode N b). Qed.

(** The end tag of an open paragraph. *)
Lemma wp_endOpenP self mode N b :
  on mode N b → (∃ a r l, records (m_tree b) = a ++ r :: l ∧ matchesHTMLTag (text "p") (m_item r) = true ∧ Forall (λ x, isButtonScopeMarker (m_item x) = false) a) →
  wp (processEndTagForInBody self (text "p")) (λ _ b', on mode N b' ∧ (size b' < size b)%nat) b.
Proof.
  intros Hon Hp. change (processEndTagForInBody self (text "p")) with
    (p ← openElements (inButtonScope (text "p"));
     if negb p then processFakeStartTag self "p";; ASSERT_that (openElements (inScope (text "p")));; endTag self (text "p")
     else onSite (generateImpliedEndTagsWithExclusion (text "p"));; _ ← current; openElements (popUntilPopped (text "p"))).
  apply wp_bind. eapply (wp_query (TagInButtonScope (text "p"))); [exact Hon|]. intros answer Hans. assert (answer = true) as -> by (apply Hans; exact Hp). destruct Hp as (a & r & l & E & Ht & _). cbn [negb].
  eapply (wp_close _ (text "p") r); [exact Hon|rewrite E; set_solver|done|done|by right].
Qed.

Lemma wp_fakeP n N b : on InBody N b → wp (processFakePEndTagIfPInButtonScope (handlers (S n))) (λ _ b', on InBody N b' ∧ (size b' ≤ size b)%nat) b.
Proof.
  intros Hon. unfold processFakePEndTagIfPInButtonScope. apply wp_bind. eapply (wp_query (TagInButtonScope (text "p"))); [exact Hon|]. intros [] Hans; [|by apply wp_ret].
  apply wp_end; [apply Hon|]. eapply wp_mono; [apply (wp_endOpenP _ InBody N); [done|by apply Hans]|]. intros [] b' [? ?]. split; [done|lia].
Qed.

(** The modes with an open body. *)
Definition content (N : Z) (b : HTMLTreeBuilder) : Prop := on InBody N b ∨ on AfterBody N b ∨ on AfterAfterBody N b.

Lemma wp_setMode mode mode' N (Q : unit → HTMLTreeBuilder → Prop) b : on mode' N b → (on mode N (set_insertionMode mode b) → Q tt (set_insertionMode mode b)) → wp (setMode mode) Q b.
Proof. intros (_ & Hs & Hi) HQ. apply wp_modify, HQ. done. Qed.

Lemma allowed_p : allowed (Some (mkName (text "p") xhtmlNamespaceURI)) = true.
Proof. apply allowed_not; [discriminate|right; split_and!; discriminate]. Qed.

(** A paragraph is opened to be closed. *)
Lemma wp_endP n N b : on InBody N b → wp (processEndTagForInBody (handlers (S (S n))) (text "p")) (λ _ b', on InBody N b') b.
Proof.
  intros Hon. change (processEndTagForInBody (handlers (S (S n))) (text "p")) with
    (p ← openElements (inButtonScope (text "p"));
     if negb p then processFakeStartTag (handlers (S (S n))) "p";; ASSERT_that (openElements (inScope (text "p")));; endTag (handlers (S (S n))) (text "p")
     else onSite (generateImpliedEndTagsWithExclusion (text "p"));; _ ← current; openElements (popUntilPopped (text "p"))).
  apply wp_bind. eapply (wp_query (TagInButtonScope (text "p"))); [exact Hon|]. intros [] Hans; cbn [negb].
  - destruct (proj1 Hans eq_refl) as (a & r & l & E & Ht & _). eapply wp_mono; [apply (wp_close _ (text "p") r InBody N); [done|rewrite E; set_solver|done|done|by right]|]. by intros [] b' [? _].
  - apply wp_bind, wp_start; [apply Hon|]. change (processStartTagForInBody (handlers (S n)) (newTag "p")) with (processFakePEndTagIfPInButtonScope (handlers (S n));; onSite (insertHTMLElement (newTag "p"))).
    apply wp_bind. unfold processFakePEndTagIfPInButtonScope. apply wp_bind. eapply (wp_query (TagInButtonScope (text "p"))); [exact Hon|]. intros [] Hans'; [discriminate (proj2 Hans (proj1 Hans' eq_refl))|]. apply wp_ret.
    eapply (wp_site _ (λ _ s', ∃ r, records s' = r :: records (m_tree b) ∧ named (text "p") r)); [exact Hon|auto with keeps| |].
    { eapply wp_mono; [apply (insert_top Hcustom (newTag "p")); [apply Hon|done|apply allowed_p]|]. by intros [] s1 [? _]. }
    intros [] s1 (r & Er & Hr%named_matches) Hon1. apply wp_bind, wp_ASSERT_that.
    + eapply (wp_query (TagInScope (text "p"))); [exact Hon1|]. intros answer Ha. split; [|done]. apply Ha. by exists [], r, (records (m_tree b)).
    + apply wp_end; [apply Hon1|]. eapply wp_mono; [apply (wp_endOpenP _ InBody N); [done|by exists [], r, (records (m_tree b))]|]. by intros [] b' [? _].
Qed.

Lemma wp_endBr n N b : on InBody N b → wp (processEndTagForInBody (handlers (S n)) (text "br")) (λ _ b', on InBody N b') b.
Proof.
  intros Hon. change (processEndTagForInBody (handlers (S n)) (text "br")) with (startTag (handlers (S n)) (newTag "br")). apply wp_start; [apply Hon|].
  change (processStartTagForInBody (handlers n) (newTag "br")) with (onSite reconstructTheActiveFormattingElements;; onSite (insertSelfClosingHTMLElement (newTag "br"));; setFramesetOk false).
  apply wp_bind. eapply wp_stay; [exact Hon|by apply stays_reconstruct|]. intros [] b1 Hon1. apply wp_bind. eapply wp_stay; [exact Hon1|apply stays_selfClosing; [done|]|].
  - apply allowed_not; [discriminate|right; split_and!; discriminate].
  - intros [] b2 Hon2. by eapply wp_framesetOk; [exact Hon2|].
Qed.

Lemma wp_endBody mode N b : on mode N b → wp processBodyEndTagForInBody (λ ended b', if ended then on AfterBody N b' else on mode N b') b.
Proof.
  intros Hon. unfold processBodyEndTagForInBody. apply wp_bind. eapply (wp_some (TagInScope (text "body"))); [exact Hon|]. intros []; [|by apply wp_ret]. apply wp_bind. eapply wp_setMode; [exact Hon|]. intros Hon'. by apply wp_ret.
Qed.

(** An end tag in the body. *)
Lemma wp_endInBodyAll n name N b : on InBody N b → isTag name "template" = false → wp (processEndTagForInBody (handlers (2 + n)) name) (λ _ b', content N b') b.
Proof.
  intros Hon Hn. destruct (oneOf name relayed) eqn:Er; [|eapply wp_mono; [by apply (wp_endOther _ _ InBody N)|]; intros [] b' ?; by left].
  unfold oneOf, relayed in Er. cbn [existsb] in Er. rewrite Hn, !orb_true_iff in Er. destruct Er as [E|[E|[E|[E|[E|E]]]]]; try discriminate; apply isTag_eq in E as ->.
  - change (processEndTagForInBody (handlers (2 + n)) (text "body")) with (processBodyEndTagForInBody;; mret tt). apply wp_bind. eapply wp_mono; [by apply (wp_endBody InBody N)|]. intros ended b' Hb. apply wp_ret. destruct ended; [right|]; by left.
  - change (processEndTagForInBody (handlers (2 + n)) (text "html")) with (ended ← processBodyEndTagForInBody; if ended : bool then endTag (handlers (2 + n)) (text "html") else mret tt).
    apply wp_bind. eapply wp_mono; [by apply (wp_endBody InBody N)|]. intros [] b' Hb; [|apply wp_ret; by left]. cbn [Nat.add handlers endTag]. unfold processEndTag. apply wp_bind, wp_gets. rewrite (proj1 Hb).
    change (isTag (text "html") "html") with true. cbn iota. rewrite Hwhole. eapply wp_setMode; [exact Hb|]. intros ?. by right; right.
  - eapply wp_mono; [by apply (wp_endP n N)|]. intros [] b' ?. by left.
  - eapply wp_mono; [by apply (wp_endBr (S n) N)|]. intros [] b' ?. by left.
Qed.

Lemma wp_endTag n name N b : content N b → isTag name "template" = false → wp (endTag (handlers (4 + n)) name) (λ _ b', content N b') b.
Proof.
  intros Hc Hn. assert (Hagain : ∀ mode, on mode N b → wp (setMode InBody;; endTag (handlers (3 + n)) name) (λ _ b', content N b') b).
  { intros mode Hon. apply wp_bind. eapply wp_setMode; [exact Hon|]. intros Hon'. apply (wp_end (2 + n)); [done|]. by apply wp_endInBodyAll. }
  destruct Hc as [Hon|[Hon|Hon]]; [apply (wp_end (3 + n)); [apply Hon|by apply (wp_endInBodyAll (S n))]|..].
  all: change (handlers (4 + n)) with (mkHandlers (processStartTag (handlers (3 + n))) (processEndTag (handlers (3 + n)))); cbn [endTag]; unfold processEndTag; apply wp_bind, wp_gets; rewrite (proj1 Hon).
  2: by eapply Hagain.
  destruct (isTag name "html"); [|by eapply Hagain]. rewrite Hwhole. eapply wp_setMode; [exact Hon|]. intros ?. by right; right.
Qed.

(** ** Steps that stay in the body *)

Definition holds {A} (m : BM A) : Prop := ∀ N b, on InBody N b → wp m (λ _ b', on InBody N b') b.

Lemma holds_ret {A} (a : A) : holds (mret a).
Proof. intros N b Hon. by apply wp_ret. Qed.
Lemma holds_bind {A B} (m : BM A) (f : A → BM B) : holds m → (∀ a, holds (f a)) → holds (m ≫= f).
Proof. intros Hm Hf N b Hon. apply wp_bind. eapply wp_mono; [by apply Hm|]. intros a b' Hon'. by apply Hf. Qed.
Lemma holds_site {A} (m : CM A) : stays m → holds (onSite m).
Proof. intros Hm N b Hon. by eapply wp_stay. Qed.
Lemma holds_gets {A} (f : HTMLTreeBuilder → A) : holds (gets f).
Proof. intros N b Hon. by apply wp_gets. Qed.
Lemma holds_modify f : (∀ b, m_insertionMode (f b) = m_insertionMode b ∧ m_templateInsertionModes (f b) = m_templateInsertionModes b ∧ m_pendingTableCharacters (f b) = m_pendingTableCharacters b ∧ m_tree (f b) = m_tree b) → holds (modify f).
Proof. intros Hf N b Hon. apply wp_modify. destruct (Hf b) as (? & ? & ? & ?). by apply (on_ext InBody N b). Qed.
Lemma holds_frameset ok : holds (setFramesetOk ok).
Proof. by apply holds_modify. Qed.
Lemma holds_newline skip : holds (modify (set_shouldSkipLeadingNewline skip)).
Proof. by apply holds_modify. Qed.
Lemma holds_tokenizer f : holds (tokenizerDo f).
Proof. by apply holds_modify. Qed.
Lemma holds_custom data : holds (modify (set_customElementToConstruct data)).
Proof. by apply holds_modify. Qed.
Lemma holds_ask q : holds (openElements (ask q)).
Proof. intros N b Hon. by eapply wp_some. Qed.
Lemma holds_inScope name : holds (openElements (inScope name)).
Proof. apply (holds_ask (TagInScope name)). Qed.
Lemma holds_inTemplate : holds isParsingTemplateContents.
Proof. apply (holds_ask TemplateInHTMLScope). Qed.
Lemma holds_current : holds current.
Proof. intros N b Hon. by eapply wp_current. Qed.
Lemma holds_fakeP n : holds (processFakePEndTagIfPInButtonScope (handlers (S n))).
Proof. intros N b Hon. eapply wp_mono; [by apply (wp_fakeP n N)|]. by intros [] b' [? _]. Qed.
Lemma holds_fakeEnd n tag : oneOf (text tag) relayed = false → holds (processFakeEndTag (handlers (S n)) tag).
Proof. intros Ht N b Hon. by apply wp_endInBody. Qed.
Lemma holds_reconstruct : holds (onSite reconstructTheActiveFormattingElements).
Proof. by apply holds_site, stays_reconstruct. Qed.
Lemma holds_insert token : plain (tag_name token) = true → allowed (Some (mkName (tag_name token) xhtmlNamespaceURI)) = true → holds (onSite (insertHTMLElement token)).
Proof. intros Hp Ha. by apply holds_site, stays_insert. Qed.
Lemma holds_selfClosing token : allowed (Some (mkName (tag_name token) xhtmlNamespaceURI)) = true → holds (onSite (insertSelfClosingHTMLElement token)).
Proof. intros Ha. by apply holds_site, stays_selfClosing. Qed.
Lemma holds_marker : holds (activeFormattingElements appendMarker).
Proof. apply holds_site, stays_marker. Qed.
Lemma holds_foreign token ns : ns ≠ xhtmlNamespaceURI → holds (onSite (insertForeignElement token ns)).
Proof. intros Hns. by apply holds_site, stays_foreign. Qed.
Lemma holds_generic token : plain (tag_name token) = true → allowed (Some (mkName (tag_name token) xhtmlNamespaceURI)) = true → holds (insertGenericHTMLElement token).
Proof. intros Hp Ha. apply holds_bind; [by apply holds_site, stays_generic|]. intros custom. apply holds_custom. Qed.
Lemma holds_form token : tag_name token = text "form" → holds (onSite (insertHTMLFormElement token)).
Proof. intros Et N b (Hm & Hs & Hi). apply wp_onSite. eapply wp_mono; [by apply (form_page Hcustom token N)|]. by intros [] s' Hi'. Qed.

#[local] Hint Resolve holds_ret holds_gets holds_frameset holds_newline holds_tokenizer holds_custom holds_inScope holds_inTemplate holds_current holds_fakeP holds_reconstruct holds_insert holds_selfClosing holds_marker holds_generic holds_form : core.
Ltac hold := repeat first [solve [auto]|apply holds_bind; [|let x := fresh in intros x]].

(** ** Tags that close others *)

(** The root is the html element, which no list item is behind. *)
Lemma page_root N s a r : inPage N s → records s = a ++ [r] → isHTML (m_item r) = true.
Proof.
  intros (a' & body & html & E & _ & Hh & _)%page_layout E'. rewrite E' in E. change (a' ++ [body; html]) with (a' ++ [body] ++ [html]) in E. rewrite app_assoc in E. by apply app_inj_tail in E as [_ ->].
Qed.

Lemma html_not tag item : isHTML item = true → htmlName "html" ≠ htmlName tag → hasTagName (htmlName tag) item = false.
Proof. intros Hh Hne. apply not_true_iff_false. intros Ht. by pose proof (hasTagName_inj _ _ _ Hh Ht). Qed.

Lemma wp_closeLoop n shouldClose tags N a rest b :
  (∀ item, shouldClose item = true → ∃ tag, tag ∈ tags ∧ hasTagName (htmlName tag) item = true) → Forall (λ tag, oneOf (text tag) relayed = false ∧ htmlName "html" ≠ htmlName tag) tags →
  on InBody N b → records (m_tree b) = a ++ rest → rest ≠ [] → wp (closeLoop (handlers (S n)) shouldClose rest) (λ _ b', on InBody N b') b.
Proof.
  intros Hclose Htags Hon. pose proof Hon as (_ & _ & Hi). pose proof Hi as [Hok _]. revert a. induction rest as [|r rest IH]; intros a E Hne; [done|]. cbn [closeLoop]. assert (Hr : r ∈ records (m_tree b)) by (rewrite E; set_solver).
  destruct (shouldClose (m_item r)) eqn:Ec.
  - destruct (Hclose _ Ec) as (tag & Hin & Ht). destruct (proj1 (Forall_forall _ _) Htags tag Hin) as [Hrel _]. apply wp_bind, wp_ASSERT; [by apply andb_true_iff in Ht as [_ ?]; apply (ok_document _ (ok_shape _ Hok)) in Hr as [? _]%andb_true_iff|].
    apply andb_true_iff in Ht as [Ht _]. apply bool_decide_eq_true in Ht. cbn in Ht. rewrite Ht. by apply wp_endInBody.
  - destruct (isSpecialNode (m_item r) && _ && _ && _) eqn:Es; [by apply wp_ret|]. apply (IH (a ++ [r])); [by rewrite E, <-app_assoc|]. intros ->.
    pose proof (page_root _ _ _ _ Hi E) as Hh. rewrite (root_special _ a r (ok_shape _ Hok) E), !html_not in Es by (done || discriminate). done.
Qed.

Lemma holds_closeNested n shouldClose tags token :
  (∀ item, shouldClose item = true → ∃ tag, tag ∈ tags ∧ hasTagName (htmlName tag) item = true) → Forall (λ tag, oneOf (text tag) relayed = false ∧ htmlName "html" ≠ htmlName tag) tags →
  plain (tag_name token) = true → allowed (Some (mkName (tag_name token) xhtmlNamespaceURI)) = true → holds (processCloseWhenNestedTag (handlers (S n)) shouldClose token).
Proof.
  intros Hclose Htags Hp Ha. assert (Hrest : holds (processFakePEndTagIfPInButtonScope (handlers (S n));; onSite (insertHTMLElement token))) by (apply holds_bind; [apply holds_fakeP|]; intros []; by apply holds_insert).
  apply holds_bind; [apply holds_frameset|]. intros []. intros N b Hon. pose proof Hon as (_ & _ & Hi). destruct (records_top _ _ Hi) as (r & l & E).
  apply wp_bind, wp_askSite. eapply (wp_askStack _ r); [unfold topRecord; by rewrite E|]. split; [done|]. apply wp_bind, wp_gets. cbn [compose]. apply wp_bind.
  eapply wp_mono; [apply (wp_closeLoop n shouldClose tags N []); [done..|apply (ok_top _ (ok_shape _ (proj1 Hi)))]|]. intros [] b' Hon'. apply Hrest. exact Hon'.
Qed.

(** A button closes the one it is in. *)
Lemma wp_button n token N b : tag_name token = text "button" → on InBody N b → (size b ≤ n)%nat → wp (startTagButton (handlers (2 + n)) token) (λ _ b', on InBody N b') b.
Proof.
  destruct token as [name attributes selfClosing]. cbn [tag_name]. intros ->. revert b. induction n as [|n IH]; intros b Hon Hn.
  all: pose proof Hon as (_ & _ & [Hok _]); pose proof (ok_shape _ Hok) as Hs; destruct (ask_run (TagInScope (text "button")) (m_openElements (m_tree b))) as (answer & Ha & _); [apply Hs|apply (ok_top _ Hs)|].
  1: { destruct (ok_top _ Hs). unfold size in Hn. destruct (records (m_tree b)); [done|cbn in Hn; lia]. }
  unfold startTagButton. apply wp_bind, wp_askSite. eapply wp_askStack; [exact Ha|]. split; [done|]. destruct answer.
  - apply wp_bind. apply (wp_end (2 + n)); [apply Hon|]. change (processEndTagForInBody (handlers (2 + n)) (text "button")) with (closeInScope (ask (TagInScope (text "button"))) generateImpliedEndTags (text "button")).
    eapply wp_mono; [apply (wp_closeInScope _ _ _ InBody N); [done|done|by left|done]|]. intros [] b1 [Hon1 Hl]. specialize (Hl Ha). apply (wp_start (2 + n)); [apply Hon1|].
    change (processStartTagForInBody (handlers (2 + n)) (mkTag (text "button") attributes selfClosing)) with (startTagButton (handlers (2 + n)) (mkTag (text "button") attributes selfClosing)). apply IH; [done|lia].
  - assert (Hrest : holds (onSite reconstructTheActiveFormattingElements;; onSite (insertHTMLElement (mkTag (text "button") attributes selfClosing));; setFramesetOk false)); [|by apply Hrest].
    apply holds_bind; [apply holds_reconstruct|]. intros []. apply holds_bind; [apply holds_insert; [done|apply allowed_not; [discriminate|right; split_and!; discriminate]]|]. intros []. apply holds_frameset.
Qed.

(** An anchor closes the one it is in. *)
Lemma holds_anchor n token : tag_name token = text "a" → NoDup (attributeName <$> tag_attributes token) → holds (startTagA (handlers (S n)) token).
Proof.
  intros Et Hd. assert (Hrest : holds (onSite reconstructTheActiveFormattingElements;; onSite (insertFormattingElement token))).
  { apply holds_bind; [apply holds_reconstruct|]. intros []. apply holds_site, stays_formatting; [done|by rewrite Et|done]. }
  intros N b Hon. apply wp_bind, wp_askSite, wp_closestAnchor; [apply Hon|]. intros anchor Hanchor. split; [done|]. apply wp_bind. destruct anchor as [e|]; [|apply wp_ret; by apply Hrest].
  destruct (Hanchor e eq_refl) as [En Ht]. apply wp_bind, wp_end; [apply Hon|]. change (processEndTagForInBody (handlers n) (text "a")) with (onSite (callTheAdoptionAgency (text "a"))).
  eapply (wp_siteAround _ (λ _ _, True)); [exact Hon|auto with keeps| |]; [eapply wp_mono; [by apply (stays_adoption Hcustom (text "a")); [|apply Hon]|]; by intros [] s' [? _]|].
  intros [] s1 _ [_ G1] Hon1. apply (grows_tag _ (doc s1)) in Ht; [|exact G1].
  apply wp_bind. eapply (wp_siteAround _ (λ _ _, True)); [exact Hon1|apply keeps_onList| |]; [eapply wp_mono; [by apply (stays_removeEntry Hcustom (node_id e)), Hon1|]; by intros [] s' [? _]|].
  intros [] s2 _ [_ G2] Hon2. apply (grows_tag _ (doc s2)) in Ht; [|exact G2]. apply wp_bind, wp_askSite, (wp_openTagged (htmlName "a")); [apply Hon2|exact Ht|by apply (bool_decide_eq_true_1 _)|..].
  - split; [done|]. apply wp_ret. by apply Hrest.
  - intros r Hr Er Ho Hroot. split; [done|]. eapply (wp_site _ (λ _ _, True)); [exact Hon2|apply keeps_onStack; auto with keeps| |].
    + eapply wp_mono; [apply (removeOpen_ok r); [apply Hon2|done..|]|by intros [] s3 Hok3]. rewrite En. by apply (bool_decide_eq_true_1 _).
    + intros [] s3 _ Hon3. by apply Hrest.
Qed.

Lemma holds_nobr n token : tag_name token = text "nobr" → NoDup (attributeName <$> tag_attributes token) → holds (startTagNobr (handlers (S n)) token).
Proof.
  intros Et Hd. apply holds_bind; [apply holds_reconstruct|]. intros []. apply holds_bind; [apply holds_inScope|]. intros open. apply holds_bind; [|intros []; apply holds_site, stays_formatting; [done|by rewrite Et|done]].
  destruct open; [|apply holds_ret]. apply holds_bind; [by apply holds_fakeEnd|]. intros []. apply holds_reconstruct.
Qed.

Lemma holds_ruby implied token :
  stays implied → plain (tag_name token) = true → allowed (Some (mkName (tag_name token) xhtmlNamespaceURI)) = true → holds (startTagRuby implied token).
Proof.
  intros Hi Hp Ha. apply holds_bind; [apply holds_inScope|]. intros open. apply holds_bind; [|intros []; by apply holds_insert]. destruct open; [|apply holds_ret].
  apply holds_bind; [by apply holds_site|]. intros []. apply holds_bind; [apply holds_current|]. intros item. apply holds_ret.
Qed.

Lemma holds_closeOption n : holds (closeOption (handlers (S n))).
Proof.
  apply holds_bind; [|intros open; destruct open; [by apply holds_fakeEnd|apply holds_ret]]. apply holds_bind; [apply holds_current|]. intros item. apply holds_ret.
Qed.

(** A header closes the one it is directly in. *)
Lemma holds_header n token :
  plain (tag_name token) = true → allowed (Some (mkName (tag_name token) xhtmlNamespaceURI)) = true →
  holds (processFakePEndTagIfPInButtonScope (handlers (S n));; item ← current; (if isNumberedHeaderElement item then openElements pop else mret tt);; onSite (insertHTMLElement token)).
Proof.
  intros Hp Ha. apply holds_bind; [apply holds_fakeP|]. intros []. intros N b Hon. apply wp_bind. eapply wp_current; [exact Hon|]. intros r l E. apply wp_bind.
  destruct (isNumberedHeaderElement (m_item r)) eqn:Eh; [|apply wp_ret; by apply holds_insert]. pose proof Hon as (_ & _ & [Hok _]).
  destruct (header_ordinary (m_item r)) as [Ho Hroot]; [apply (ok_document _ (ok_shape _ Hok)); rewrite E; apply list_elem_of_here|done|].
  eapply wp_site; [exact Hon|apply keeps_onStack; auto with keeps|by apply (popTop_ok r l)|]. intros [] s' _ Hon'. by apply holds_insert.
Qed.

(** ** Elements whose content is text *)

Definition topIs (name : list Z) (b : HTMLTreeBuilder) : Prop := ∃ r l, records (m_tree b) = r :: l ∧ named name r.

(** The builder reads the text of an element that was opened in the body. *)
Definition inText (N : Z) (b : HTMLTreeBuilder) : Prop :=
  m_insertionMode b = Text ∧ m_originalInsertionMode b = InBody ∧ settled b ∧ inPage N (m_tree b) ∧ ∃ name, topIs name b ∧ plain name = true.

Lemma topIs_ordinary name N b r l : inPage N (m_tree b) → records (m_tree b) = r :: l → named name r → plain name = true → ordinary (m_item r) = true ∧ isRootItem (m_item r) = false.
Proof.
  intros [Hok _] E Hr Hp. apply (plain_ordinary name); [|by apply named_matches|done]. apply (ok_document _ (ok_shape _ Hok)). rewrite E. apply list_elem_of_here.
Qed.

Definition started (N : Z) (b : HTMLTreeBuilder) : Prop := on InBody N b ∨ inText N b.
Definition starts {A} (m : BM A) : Prop := ∀ N b, on InBody N b → wp m (λ _ b', started N b') b.

Lemma starts_holds {A} (m : BM A) : holds m → starts m.
Proof. intros Hm N b Hon. eapply wp_mono; [by apply Hm|]. intros a b' ?. by left. Qed.
Lemma starts_bind {A B} (m : BM A) (f : A → BM B) : holds m → (∀ a, starts (f a)) → starts (m ≫= f).
Proof. intros Hm Hf N b Hon. apply wp_bind. eapply wp_mono; [by apply Hm|]. intros a b' Hon'. by apply Hf. Qed.

(** Into the text of the current element. *)
Lemma wp_enterText name N (Q : unit → HTMLTreeBuilder → Prop) b : on InBody N b → topIs name b → plain name = true → (∀ b', inText N b' → topIs name b' → m_tokenizer b' = m_tokenizer b → Q tt b') → wp enterText Q b.
Proof.
  intros (Hm & Hs & Hi) Ht Hp HQ. unfold enterText. apply wp_bind, wp_gets, wp_bind, wp_modify, wp_modify, HQ; [|done|done]. unfold inText, settled. cbn. split_and!; try done; [apply Hs..|]. by exists name.
Qed.

Lemma wp_insertTop token N (Q : unit → HTMLTreeBuilder → Prop) b :
  on InBody N b → plain (tag_name token) = true → allowed (Some (mkName (tag_name token) xhtmlNamespaceURI)) = true →
  (∀ b', on InBody N b' → topIs (tag_name token) b' → Q tt b') → wp (onSite (insertHTMLElement token)) Q b.
Proof.
  intros Hon Hp Ha HQ. eapply (wp_site _ (λ _ s', ∃ r, records s' = r :: records (m_tree b) ∧ named (tag_name token) r)); [exact Hon|auto with keeps| |].
  - eapply wp_mono; [by apply (insert_top Hcustom token); [apply Hon|..]|]. by intros [] s1 [? _].
  - intros [] s1 (r & Er & Hr) Hon1. apply HQ; [done|]. by exists r, (records (m_tree b)).
Qed.

Lemma starts_rawText token : plain (tag_name token) = true → allowed (Some (mkName (tag_name token) xhtmlNamespaceURI)) = true → starts (processGenericRawTextStartTag token).
Proof.
  intros Hp Ha N b Hon. apply wp_bind. eapply wp_insertTop; [done..|]. intros b1 Hon1 Ht. apply wp_bind, wp_modify. eapply (wp_enterText _ N); [by apply (on_ext InBody N b1)|exact Ht|done|]. intros b' ? _ _. by right.
Qed.
Lemma starts_RCDATA token : plain (tag_name token) = true → allowed (Some (mkName (tag_name token) xhtmlNamespaceURI)) = true → starts (processGenericRCDATAStartTag token).
Proof.
  intros Hp Ha N b Hon. apply wp_bind. eapply wp_insertTop; [done..|]. intros b1 Hon1 Ht. apply wp_bind, wp_modify. eapply (wp_enterText _ N); [by apply (on_ext InBody N b1)|exact Ht|done|]. intros b' ? _ _. by right.
Qed.
Lemma starts_textarea token :
  plain (tag_name token) = true → allowed (Some (mkName (tag_name token) xhtmlNamespaceURI)) = true →
  starts (onSite (insertHTMLElement token);; modify (set_shouldSkipLeadingNewline true);; tokenizerDo setRCDATAState;; setFramesetOk false;; enterText).
Proof.
  intros Hp Ha N b Hon. apply wp_bind. eapply wp_insertTop; [done..|]. intros b1 Hon1 Ht. apply wp_bind, wp_modify, wp_bind, wp_modify, wp_bind, wp_modify. eapply (wp_enterText _ N); [by apply (on_ext InBody N b1)|exact Ht|done|].
  intros b' ? _ _. by right.
Qed.

(** The end of the text. *)
Lemma wp_endText name N b : inText N b → (isTag name "script" = true → topIs (text "script") b ∧ isInDataState (m_tokenizer b) || usePreHTML5ParserQuirks options = true) → wp (endTagText name) (λ _ b', on InBody N b') b.
Proof.
  intros (Hm & Ho & Hs & Hi & tag & (r & l & E & Hr) & Hp) Hscript. destruct (topIs_ordinary tag N b r l Hi E Hr Hp) as [Hor Hroot]. unfold endTagText.
  assert (Hpop : ∀ b' (Q : unit → HTMLTreeBuilder → Prop), m_tree b' = m_tree b → settled b' → m_originalInsertionMode b' = InBody → (∀ s', on InBody N (set_insertionMode InBody (set_site s' b')) → Q tt (set_site s' b')) → wp (openElements pop) Q b').
  { intros b' Q Et Hs' Ho' HQ. apply wp_onSite. rewrite Et. pose proof Hi as [Hok Hf]. eapply wp_mono; [apply (steps_wp around); [apply keeps_onStack; auto with keeps|by apply (popTop_ok r l)]|].
    intros [] s' [[Hok' _] Ha]. apply HQ. split_and!; [done..|]. split; [done|by eapply frame_ok]. }
  destruct (isTag name "script") eqn:En.
  - destruct (Hscript eq_refl) as [(r' & l' & E' & Hr') Hdata]. rewrite E in E'. injection E' as <- <-. apply wp_bind, wp_ASSERT_that.
    { apply wp_bind, wp_askSite. eapply wp_currentStackItem; [exact E|]. split; [done|]. apply wp_ret. split; [|done]. by apply named_matches in Hr'. }
    apply wp_bind. eapply (wp_mono _ (λ _ b', m_tree b' = m_tree b ∧ settled b' ∧ m_originalInsertionMode b' = InBody ∧ m_tokenizer b' = m_tokenizer b)).
    { destruct (scriptingContentIsAllowed m_parserContentPolicy); [|by apply wp_ret]. apply wp_bind, wp_askSite. destruct (shape_top (m_tree b) (ok_shape _ (proj1 Hi))) as [top Htop]. eapply wp_askStack; [exact Htop|]. split; [done|]. by apply wp_modify. }
    intros [] b1 (Et & Hs1 & Ho1 & Etok). apply wp_bind, Hpop; [done..|]. intros s' Hon. apply wp_bind. unfold restoreMode. apply wp_modify. cbn [m_originalInsertionMode set_site]. rewrite Ho1.
    apply wp_bind, wp_gets, wp_bind, wp_ASSERT; [cbn; by rewrite Etok|]. apply wp_modify. by eapply (on_ext InBody N).
  - apply wp_bind, Hpop; [done..|]. intros s' Hon. unfold restoreMode. apply wp_modify. cbn [m_originalInsertionMode set_site]. by rewrite Ho.
Qed.

(** Tags that are handled as in the head. *)
Definition headTags : list string := ["base"; "basefont"; "bgsound"; "command"; "link"; "meta"; "noframes"; "script"; "style"; "title"].

Lemma starts_did (m : BM unit) : starts m → starts (didProcess ← (m;; mret true); ASSERT didProcess).
Proof. intros Hm N b Hon. apply wp_bind, wp_bind. eapply wp_mono; [by apply Hm|]. intros [] b' Hb'. apply wp_ret. by apply wp_ASSERT. Qed.

Lemma starts_did_two (m k : BM unit) : starts (m;; k) → starts (didProcess ← (m;; k;; mret true); ASSERT didProcess).
Proof.
  intros Hm N b Hon. apply wp_bind. specialize (Hm N b Hon). unfold wp, mbind, M_bind in *. destruct (m b) as [[[] b1]|]; [|done]. destruct (k b1) as [[[] b2]|]; [|done]. by apply wp_ASSERT.
Qed.

Lemma starts_script n token : tag_name token = text "script" → starts (processScriptStartTag token;; (if usePreHTML5ParserQuirks options && tag_selfClosing token then processFakeEndTag (handlers (S n)) "script" else mret tt)).
Proof.
  intros Et N b Hon. apply wp_bind. unfold processScriptStartTag. apply wp_bind.
  eapply (wp_site _ (λ _ s', ∃ r, records s' = r :: records (m_tree b) ∧ named (text "script") r)); [exact Hon|auto with keeps|apply openScript_ok; [apply Hon|done]|].
  intros [] s1 (r & Er & Hr) Hon1. apply wp_bind, wp_modify. apply (wp_enterText (text "script") N); [by apply (on_ext InBody N (set_site s1 b))|by exists r, (records (m_tree b))|done|]. intros b' Hb' Ht _.
  destruct (usePreHTML5ParserQuirks options) eqn:Eq; [|apply wp_ret; by right]. destruct (tag_selfClosing token); [|apply wp_ret; by right].
  unfold processFakeEndTag. cbn [handlers endTag]. unfold processEndTag. apply wp_bind, wp_gets. rewrite (proj1 Hb'). eapply wp_mono; [apply (wp_endText (text "script") N); [done|]|intros [] b2 ?; by left]. intros _. split; [done|]. by rewrite Eq, orb_true_r.
Qed.

Lemma starts_asInHead n token : oneOf (tag_name token) headTags = true → starts (asInHead (handlers (S n)) token).
Proof.
  intros Hn. assert (Hno : ∀ tag, oneOf (text tag) headTags = false → isTag (tag_name token) tag = false) by (intros tag Ht; apply not_true_iff_false; intros E%isTag_eq; rewrite E in Hn; congruence).
  assert (Hp : plain (tag_name token) = true) by (by eapply (oneOf_all _ _ _ Hn)). unfold asInHead, processStartTagForInHead. rewrite (Hno "html"), (Hno "noscript"), (Hno "template"), (Hno "head") by reflexivity. cbn iota.
  assert (Ha : isTag (tag_name token) "script" = false → allowed (Some (mkName (tag_name token) xhtmlNamespaceURI)) = true).
  { intros Hs%isTag_not. apply allowed_not; [done|]. right. split_and!; intros E; rewrite E in Hn; discriminate. }
  destruct (isTag (tag_name token) "script") eqn:Es.
  - apply isTag_eq in Es. rewrite Es. change (oneOf (text "script") ["base"; "basefont"; "bgsound"; "command"; "link"; "meta"]) with false. change (isTag (text "script") "title") with false. change (oneOf (text "script") ["noframes"; "style"]) with false. cbn iota.
    by apply starts_did_two, starts_script.
  - case_match eqn:E1; [by apply starts_did, starts_holds, holds_selfClosing, Ha|]. case_match eqn:E2; [by apply starts_did, starts_RCDATA; auto|]. case_match eqn:E3; [by apply starts_did, starts_rawText; auto|].
    exfalso. unfold headTags, oneOf in Hn. unfold oneOf in E1, E3. cbn [existsb] in *. rewrite !orb_false_iff in E1. rewrite !orb_false_iff in E3. rewrite !orb_true_iff in Hn. destruct E1 as (? & ? & ? & ? & ? & ? & _), E3 as (? & ? & _). repeat (destruct Hn as [Hn|Hn]; [congruence|]). discriminate Hn.
Qed.

(** ** Start tags *)

(** The names of the tags the rest of the start tags is for. *)
Definition rested (name : list Z) : Prop :=
  oneOf name ["html"; "body"; "script"; "select"; "template"] = false ∧ (pluginContentIsAllowed m_parserContentPolicy = true ∨ oneOf name ["applet"; "embed"; "object"] = false).

Lemma rested_allowed name : rested name → allowed (Some (mkName name xhtmlNamespaceURI)) = true.
Proof.
  intros [Hn Hp]. apply allowed_not; [by apply (oneOf_not _ _ _ Hn), (bool_decide_eq_true_1 _)|]. destruct Hp as [Hp|Hp]; [by left|right]. split_and!; by apply (oneOf_not _ _ _ Hp), (bool_decide_eq_true_1 _).
Qed.

Lemma rested_plain name : rested name → isTag name "head" = false → plain name = true.
Proof. intros [Hn _] Hh. apply plain_not; [by apply (oneOf_not _ _ _ Hn), (bool_decide_eq_true_1 _)|by apply isTag_not|by apply (oneOf_not _ _ _ Hn), (bool_decide_eq_true_1 _)]. Qed.

Lemma starts_rest n token : rested (tag_name token) → starts (startTagForInBodyRest (handlers (S n)) token).
Proof.
  intros Hr. unfold startTagForInBodyRest. cbv zeta. set (token' := if isTag (tag_name token) "image" then _ else token).
  assert (Hr' : rested (tag_name token')) by (unfold token'; destruct (isTag (tag_name token) "image"); [|done]; split; [done|by right]). clearbody token'. clear token Hr. rename token' into token, Hr' into Hr.
  pose proof (rested_allowed _ Hr) as Ha. assert (Hp : ∀ tags, oneOf (tag_name token) tags = true → forallb (plain ∘ text) tags = true → plain (tag_name token) = true) by (intros tags; apply oneOf_all).
  assert (Hp1 : ∀ tag, isTag (tag_name token) tag = true → plain (text tag) = true → plain (tag_name token) = true) by (intros tag ->%isTag_eq; done).
  case_match eqn:E1; [apply starts_holds; hold|]. case_match eqn:E2; [apply starts_holds; hold; case_match; auto|]. case_match eqn:E3; [apply starts_holds; hold|]. case_match eqn:E4; [apply starts_holds; hold|].
  case_match eqn:E5; [by apply starts_textarea; eauto|].
  case_match eqn:E6; [apply starts_bind; [auto|intros []]; apply starts_bind; [auto|intros []]; apply starts_bind; [auto|intros []]; by apply starts_rawText; eauto|].
  case_match eqn:E7; [apply starts_bind; [auto|intros []]; by apply starts_rawText; eauto|].
  case_match eqn:E8; [apply andb_true_iff in E8 as [E8 _]; by apply starts_rawText; eauto|]. case_match eqn:E9; [apply andb_true_iff in E9 as [E9 _]; by apply starts_rawText; eauto|].
  case_match eqn:E10; [exfalso; destruct Hr as [Hn _]; apply (oneOf_not _ _ "select") in Hn; [by apply isTag_eq in E10|by apply (bool_decide_eq_true_1 _)]|].
  case_match eqn:E11; [apply starts_holds; apply holds_bind; [apply holds_closeOption|intros []]; apply holds_bind; [auto|intros []]; by apply holds_insert; eauto|].
  case_match eqn:E12; [by apply starts_holds, holds_ruby; eauto using stays_implied|]. case_match eqn:E13; [by apply starts_holds, holds_ruby; eauto using stays_impliedExcept|].
  case_match eqn:E14; [apply starts_holds; apply holds_bind; [auto|intros []]; by apply holds_foreign|]. case_match eqn:E15; [apply starts_holds; apply holds_bind; [auto|intros []]; by apply holds_foreign|].
  case_match eqn:E16; [by apply starts_holds|].
  case_match eqn:E17; [exfalso; destruct Hr as [Hn _]; apply (oneOf_not _ _ "template") in Hn; [by apply isTag_eq in E17|by apply (bool_decide_eq_true_1 _)]|].
  apply starts_holds. apply holds_bind; [auto|intros []]. apply holds_generic; [|done]. apply rested_plain; [done|]. rewrite !orb_false_iff in E16. tauto.
Qed.

Lemma wp_templateTwice (k : bool → BM unit) (Q : unit → HTMLTreeBuilder → Prop) b :
  siteOk (m_tree b) → Q tt b → wp (k false) Q b → k true = ASSERT_that isParsingTemplateContents → wp (template ← openElements hasTemplateInHTMLScope; k template) Q b.
Proof.
  intros Hok HQ Hno Hk. pose proof (ok_shape _ Hok) as Hs. destruct (ask_run TemplateInHTMLScope (m_openElements (m_tree b))) as (answer & Ha & _); [apply Hs|apply (ok_top _ Hs)|].
  apply wp_bind, wp_askSite. eapply wp_askStack; [exact Ha|]. split; [done|]. destruct answer; [|done]. rewrite Hk. apply wp_ASSERT_that; [|done]. apply wp_askSite. by eapply wp_askStack; [exact Ha|].
Qed.

Lemma wp_htmlAgain token mode N b : on mode N b → wp (processHtmlStartTagForInBody token) (λ _ b', on mode N b') b.
Proof.
  intros Hon. unfold processHtmlStartTagForInBody. eapply wp_templateTwice; [apply Hon|done| |done]. pose proof Hon as (Hm & Hs & [Hok Hf]). apply wp_onSite. eapply wp_mono; [by apply html_again|].
  intros [] s' [Hok' Ha]. split_and!; [done..|]. split; [done|by eapply frame_ok].
Qed.

Lemma wp_secondIsBody mode N (Q : bool → HTMLTreeBuilder → Prop) b : on mode N b → Q true b → wp (openElements secondElementIsHTMLBodyElement) Q b.
Proof.
  intros (_ & _ & Hi) HQ. pose proof Hi as [Hok Hf]. pose proof (ok_shape _ Hok) as Hs. pose proof (wf_rooted _ (ok_stack _ Hs)) as Hr. unfold rooted in Hr.
  destruct (last _) as [root|] eqn:El; [|by apply last_None in El; destruct (ok_top _ Hs)]. destruct Hr as [Hr _]. apply wp_askSite, (wp_askStack _ true); [|done].
  pose proof (frame_body _ _ Hf) as Hb. unfold secondElementIsHTMLBodyElement, gets, mbind, M_bind, ASSERT. rewrite Hr.
  destruct ASSERT_DISABLED; cbn; by rewrite bool_decide_eq_true_2.
Qed.

Lemma wp_notOnlyOne mode N (Q : bool → HTMLTreeBuilder → Prop) b : on mode N b → Q false b → wp (openElements hasOnlyOneElement) Q b.
Proof.
  intros (_ & _ & Hi) HQ. destruct (page_layout _ _ Hi) as (a & body & html & E & _). apply wp_askSite, (wp_askStack _ false); [|done].
  unfold hasOnlyOneElement, topRecord, gets, mbind, M_bind. rewrite E. destruct a as [|r [|? ?]]; cbn; by rewrite E.
Qed.

Lemma holds_body token : holds (startTagBody token).
Proof.
  intros N b Hon. unfold startTagBody. apply wp_bind. eapply wp_secondIsBody; [exact Hon|]. apply wp_bind. eapply wp_notOnlyOne; [exact Hon|]. cbn [andb negb orb].
  eapply wp_templateTwice; [apply Hon|done| |by unfold isParsingFragmentOrTemplateContents; rewrite Hwhole]. apply wp_bind. eapply wp_framesetOk; [exact Hon|]. intros Hon1. pose proof Hon1 as (Hm & Hs & Hi).
  apply wp_onSite. eapply wp_mono; [by apply (body_again token N)|]. intros [] s' [Hok' Ha]. split_and!; [done..|]. split; [done|]. eapply frame_ok; [exact Ha|apply Hi].
Qed.

Lemma isLi_tag item : isLi item = true → ∃ tag, tag ∈ ["li"] ∧ hasTagName (htmlName tag) item = true.
Proof. intros Ht. exists "li". by split; [apply list_elem_of_here|]. Qed.
Lemma isDdOrDt_tag item : isDdOrDt item = true → ∃ tag, tag ∈ ["dd"; "dt"] ∧ hasTagName (htmlName tag) item = true.
Proof. intros [Ht|Ht]%orb_true_iff; [exists "dd"|exists "dt"]; (split; [by apply (bool_decide_eq_true_1 _)|done]). Qed.

(** The start tags from [form] on. *)
Lemma wp_startMiddle n token N b :
  on InBody N b → (size b ≤ n)%nat → NoDup (attributeName <$> tag_attributes token) → oneOf (tag_name token) ["html"; "body"; "script"; "select"; "template"] = false → isTag (tag_name token) "table" = false →
  wp (startTagForInBodyMiddle (handlers (2 + n)) token) (λ _ b', started N b') b.
Proof.
  intros Hon Hsize Hd Hn Ht. unfold startTagForInBodyMiddle.
  assert (Ha : ∀ tag, isTag (tag_name token) tag = true → oneOf (text tag) ["applet"; "embed"; "object"] = false → allowed (Some (mkName (tag_name token) xhtmlNamespaceURI)) = true).
  { intros tag E%isTag_eq Hpl. apply rested_allowed. split; [done|]. right. by rewrite E. }
  assert (Hp : ∀ tag, isTag (tag_name token) tag = true → plain (text tag) = true → plain (tag_name token) = true) by (by intros tag ->%isTag_eq).
  case_match eqn:E1.
  { apply (starts_holds (form ← gets (m_form ∘ m_tree); template ← (if bool_decide (form ≠ None) then isParsingTemplateContents else mret true); if negb template then mret tt else processFakePEndTagIfPInButtonScope (handlers (2 + n));; onSite (insertHTMLFormElement token))); [|done].
    apply holds_bind; [auto|intros form]. apply holds_bind; [by case_match|intros template]. destruct template; [|apply holds_ret]. apply isTag_eq in E1. apply holds_bind; [apply (holds_fakeP (S n))|auto]. }
  case_match eqn:E2; [apply starts_holds; [|done]; apply (holds_closeNested (S n) isLi ["li"]); [apply isLi_tag|repeat constructor; discriminate|eauto..]|].
  case_match eqn:E3; [apply starts_holds; [|done]; apply (holds_closeNested (S n) isDdOrDt ["dd"; "dt"]); [apply isDdOrDt_tag|repeat constructor; discriminate|by eapply (oneOf_all _ _ _ E3)|]|].
  { apply rested_allowed. split; [done|]. right. apply negb_true_iff. by eapply (oneOf_all (λ x, negb (oneOf x ["applet"; "embed"; "object"])) _ _ E3). }
  case_match eqn:E4; [apply starts_holds; [|done]; apply holds_bind; [apply (holds_fakeP (S n))|intros []]; apply holds_bind; [by apply holds_insert; eauto|auto]|].
  case_match eqn:E5; [apply isTag_eq in E5; eapply wp_mono; [by apply (wp_button n token N)|]; intros [] b' ?; by left|].
  case_match eqn:E6; [apply isTag_eq in E6; apply starts_holds; [|done]; by apply (holds_anchor (S n))|].
  case_match eqn:E7.
  { apply starts_holds; [|done]. apply holds_bind; [auto|intros []]. apply holds_site, stays_formatting; [done| |done]. unfold isFormattingTag, isNonAnchorFormattingTag. by rewrite E7, ?orb_true_r. }
  case_match eqn:E8; [apply isTag_eq in E8; apply starts_holds; [|done]; by apply (holds_nobr (S n))|].
  case_match eqn:E9; [by apply starts_holds; [auto|]|].
  assert (Hr : rested (tag_name token)) by (split; [done|]; apply andb_false_iff in E9 as [E9|E9]; [by right|left; by apply negb_false_iff in E9]).
  case_match eqn:E10; [apply starts_holds; [|done]; apply holds_bind; [auto|intros []]; apply holds_bind; [apply holds_insert; [by eapply (oneOf_all _ _ _ E10)|by apply rested_allowed]|hold]|].
  rewrite Ht. by apply (starts_rest (S n)).
Qed.

(** A start tag in the body. *)
Definition legalStart (token : TagToken) : Prop := pageTag (tag_name token) = true ∧ NoDup (attributeName <$> tag_attributes token).

Lemma wp_startInBody n token N b : on InBody N b → (size b ≤ n)%nat → legalStart token → wp (processStartTagForInBody (handlers (2 + n)) token) (λ _ b', started N b') b.
Proof.
  intros Hon Hsize [Hpage%negb_true_iff Hd]. unfold processStartTagForInBody.
  assert (Hflow : ∀ tags, oneOf (tag_name token) tags = true → forallb (λ t, plain (text t) && negb (oneOf (text t) ["html"; "body"; "script"; "select"; "template"; "applet"; "embed"; "object"])) tags = true →
    plain (tag_name token) = true ∧ allowed (Some (mkName (tag_name token) xhtmlNamespaceURI)) = true).
  { intros tags E Hall. pose proof (oneOf_all (λ x, plain x && negb (oneOf x ["html"; "body"; "script"; "select"; "template"; "applet"; "embed"; "object"])) _ _ E Hall) as [Hp Hn%negb_true_iff]%andb_true_iff. split; [done|].
    apply rested_allowed. unfold oneOf in Hn. change ["html"; "body"; "script"; "select"; "template"; "applet"; "embed"; "object"] with (["html"; "body"; "script"; "select"; "template"] ++ ["applet"; "embed"; "object"]) in Hn. rewrite existsb_app, orb_false_iff in Hn. destruct Hn. split; [done|by right]. }
  case_match eqn:E1; [apply starts_holds; [|done]; intros N' b' ?; by apply wp_htmlAgain|]. case_match eqn:E2; [by apply (starts_asInHead (S n))|]. case_match eqn:E3; [apply starts_holds; [|done]; apply holds_body|].
  case_match eqn:E4; [exfalso; apply (oneOf_not _ _ "frameset") in Hpage; [by apply isTag_eq in E4|by apply (bool_decide_eq_true_1 _)]|].
  case_match eqn:E5; [destruct (Hflow _ E5) as [Hp Ha]; [done|]; apply starts_holds; [|done]; apply holds_bind; [apply (holds_fakeP (S n))|auto]|].
  case_match eqn:E6; [destruct (Hflow _ E6) as [Hp Ha]; [done|]; apply starts_holds; [|done]; by apply (holds_header (S n))|].
  case_match eqn:E7; [destruct (Hflow _ E7) as [Hp Ha]; [done|]; apply starts_holds; [|done]; apply holds_bind; [apply (holds_fakeP (S n))|intros []; hold]|].
  apply wp_startMiddle; [done..| |].
  - assert (Hno : ∀ tag, tag ∈ ["frameset"; "table"; "select"; "template"] → isTag (tag_name token) tag = false) by (intros tag Hin; apply bool_decide_eq_false; by apply (oneOf_not _ _ _ Hpage)).
    unfold oneOf. cbn [existsb]. rewrite E1, E3, (Hno "select"), (Hno "template") by (by apply (bool_decide_eq_true_1 _)). unfold oneOf in E2. cbn [existsb] in E2. rewrite !orb_false_iff in E2. destruct E2 as (_ & _ & _ & _ & _ & _ & _ & -> & _). done.
  - apply bool_decide_eq_false. apply (oneOf_not _ _ _ Hpage). by apply (bool_decide_eq_true_1 _).
Qed.

(** A page that waits for the next token. *)
Definition ready (N : Z) (b : HTMLTreeBuilder) : Prop := content N b ∨ inText N b.

Lemma started_ready N b : started N b → ready N b.
Proof. intros [?|?]; [by left; left|by right]. Qed.

Lemma wp_startTag n token N b : content N b → (size b ≤ n)%nat → legalStart token → wp (startTag (handlers (4 + n)) token) (λ _ b', ready N b') b.
Proof.
  intros Hc Hsize Hl. assert (Hbody : ∀ b', on InBody N b' → (size b' ≤ n)%nat → wp (processStartTagForInBody (handlers (2 + n)) token) (λ _ b', ready N b') b').
  { intros b' Hon Hle. eapply wp_mono; [by apply (wp_startInBody n token N)|]. intros [] b2 ?. by apply started_ready. }
  assert (Hagain : ∀ mode, on mode N b → (mode = AfterBody ∨ mode = AfterAfterBody) → wp (if isTag (tag_name token) "html" then processHtmlStartTagForInBody token else setMode InBody;; startTag (handlers (3 + n)) token) (λ _ b', ready N b') b).
  { intros mode Hon Hmode. destruct (isTag (tag_name token) "html").
    - eapply wp_mono; [by apply (wp_htmlAgain token mode N)|]. intros [] b' ?. left. right. destruct Hmode as [-> | ->]; by auto.
    - apply wp_bind. eapply wp_setMode; [exact Hon|]. intros Hon'. apply (wp_start (2 + n)); [done|]. by apply Hbody. }
  destruct Hc as [Hon|[Hon|Hon]].
  - apply (wp_start (3 + n)); [apply Hon|]. eapply wp_mono; [apply (wp_startInBody (S n) token N); [done|lia|done]|]. intros [] b2 ?. by apply started_ready.
  - change (handlers (4 + n)) with (mkHandlers (processStartTag (handlers (3 + n))) (processEndTag (handlers (3 + n)))). cbn [startTag]. unfold processStartTag. apply wp_bind, wp_gets. rewrite (proj1 Hon). eapply Hagain; [exact Hon|by left].
  - change (handlers (4 + n)) with (mkHandlers (processStartTag (handlers (3 + n))) (processEndTag (handlers (3 + n)))). cbn [startTag]. unfold processStartTag. apply wp_bind, wp_gets. rewrite (proj1 Hon). eapply Hagain; [exact Hon|by right].
Qed.

(** ** Characters *)

Lemma on_more mode N N' b : (N ≤ N')%Z → on mode N b → on mode N' b.
Proof. intros Hle (Hm & Hs & [Hok Hf]). split_and!; [done..|]. split; [done|by eapply frameOk_more]. Qed.

Lemma wp_text mode N characters (Q : unit → HTMLTreeBuilder → Prop) b : on mode N b → (N + lengthZ characters ≤ textLimit)%Z → (∀ b', on mode (N + lengthZ characters) b' → Q tt b') → wp (onSite (insertTextNode characters)) Q b.
Proof. intros (Hm & Hs & Hi) Hl HQ. apply wp_onSite. eapply wp_mono; [by apply (text_page Hbreak N characters)|]. intros [] s' [Hi' _]. by apply HQ. Qed.

Lemma wp_clearFrameset characters mode N b : on mode N b → wp (clearFramesetOkFor characters) (λ _ b', on mode N b') b.
Proof. intros Hon. unfold clearFramesetOkFor. apply wp_bind, wp_gets. case_match; [by eapply wp_framesetOk|by apply wp_ret]. Qed.

Lemma wp_bodyText N characters b : on InBody N b → (N + lengthZ characters ≤ textLimit)%Z → wp (processCharacterBufferForInBody characters) (λ _ b', on InBody (N + lengthZ characters) b') b.
Proof.
  intros Hon Hl. apply wp_bind. eapply wp_mono; [by apply holds_reconstruct|]. intros [] b1 Hon1. apply wp_bind. eapply wp_text; [exact Hon1|done|]. intros b2 Hon2. by apply wp_clearFrameset.
Qed.

Lemma skip_length characters : (0 ≤ lengthZ (skipAtMostOneLeadingNewline characters) ≤ lengthZ characters)%Z.
Proof. split; [apply lengthZ_nonneg|]. destruct characters as [|c rest]; cbn [skipAtMostOneLeadingNewline]; [done|]. destruct (c =? 10)%Z; [|done]. unfold lengthZ. cbn. lia. Qed.

Lemma inText_ext N b b' :
  m_insertionMode b' = m_insertionMode b → m_originalInsertionMode b' = m_originalInsertionMode b → m_templateInsertionModes b' = m_templateInsertionModes b → m_pendingTableCharacters b' = m_pendingTableCharacters b → m_tree b' = m_tree b → inText N b → inText N b'.
Proof. intros E1 E2 E3 E4 E5 (Hm & Ho & [Ht Hp] & Hi & Htop). unfold inText, settled, topIs in *. rewrite E1, E2, E3, E4, E5. done. Qed.

Lemma ready_ext N b b' :
  m_insertionMode b' = m_insertionMode b → m_originalInsertionMode b' = m_originalInsertionMode b → m_templateInsertionModes b' = m_templateInsertionModes b → m_pendingTableCharacters b' = m_pendingTableCharacters b → m_tree b' = m_tree b → ready N b → ready N b'.
Proof.
  intros E1 E2 E3 E4 E5 [[?|[?|?]]|?]; [left|left|left|right; by eapply inText_ext].
  - left. by eapply on_ext.
  - right; left. by eapply on_ext.
  - right; right. by eapply on_ext.
Qed.

(** A step of the site in the text of an element. *)
Lemma inText_site N N' s' b : inText N b → inPage N' s' → records s' = records (m_tree b) → inText N' (set_site s' b).
Proof. intros (Hm & Ho & Hs & Hi & name & (r & l & E & Hr) & Hp) Hi' Er. split_and!; [done..|]. exists name. split; [|done]. exists r, l. split; [|done]. cbn. by rewrite Er. Qed.

Lemma ready_more N N' b : (N ≤ N')%Z → ready N b → ready N' b.
Proof.
  intros Hle [[?|[?|?]]|(Hm & Ho & Hs & [Hok Hf] & Ht)]; [left|left|left|right].
  - left. by eapply on_more.
  - right; left. by eapply on_more.
  - right; right. by eapply on_more.
  - split_and!; [done..| |done]. split; [done|by eapply frameOk_more].
Qed.

Lemma wp_bufferBody fuel self buffer N b :
  m_shouldSkipLeadingNewline b = false → on InBody N b → (N + lengthZ buffer ≤ textLimit)%Z → wp (processCharacterBuffer (S fuel) self buffer) (λ rest b', rest = [] ∧ ready (N + lengthZ buffer) b') b.
Proof.
  intros Esk Hon Hl. cbn [processCharacterBuffer]. apply wp_bind, wp_gets. rewrite Esk. apply wp_bind, wp_ret. cbn [andb]. apply wp_bind, wp_gets. rewrite (proj1 Hon). apply wp_bind.
  eapply wp_mono; [by apply (wp_bodyText N)|]. intros [] b' ?. apply wp_ret. split; [done|]. by left; left.
Qed.

Lemma wp_buffer fuel self buffer N b :
  m_shouldSkipLeadingNewline b = false → ready N b → (N + lengthZ buffer ≤ textLimit)%Z → wp (processCharacterBuffer (2 + fuel) self buffer) (λ rest b', rest = [] ∧ ready (N + lengthZ buffer) b') b.
Proof.
  intros Esk Hr Hl. assert (Hafter : ∀ mode, on mode N b → wp (setMode InBody;; processCharacterBuffer (1 + fuel) self buffer) (λ rest b', rest = [] ∧ ready (N + lengthZ buffer) b') b).
  { intros mode Hon. apply wp_bind. eapply wp_setMode; [exact Hon|]. intros Hon'. by apply wp_bufferBody. }
  destruct Hr as [[Hon|[Hon|Hon]]|Ht]; [by apply wp_bufferBody|..].
  all: change (2 + fuel)%nat with (S (1 + fuel)); cbn [processCharacterBuffer]; apply wp_bind, wp_gets; rewrite Esk; apply wp_bind, wp_ret; cbn [andb]; apply wp_bind, wp_gets.
  - rewrite (proj1 Hon). by eapply Hafter.
  - rewrite (proj1 Hon). by eapply Hafter.
  - pose proof Ht as (-> & _ & _ & Hi & _). apply wp_bind, wp_onSite. eapply wp_mono; [by apply (text_page Hbreak N buffer)|]. intros [] s' [Hi' Er]. apply wp_ret. split; [done|]. right. by eapply inText_site.
Qed.

(** A newline at the start is left out. *)
Lemma skip_run {A} (k : bool → list Z → BM A) (buffer : list Z) b :
  m_shouldSkipLeadingNewline b = true → buffer ≠ [] →
  (skip ← gets m_shouldSkipLeadingNewline;
   buffer ← (if skip : bool then modify (set_shouldSkipLeadingNewline false);; ASSERT (bool_decide (buffer ≠ []));; mret (skipAtMostOneLeadingNewline buffer) else mret buffer);
   k skip buffer) b = k true (skipAtMostOneLeadingNewline buffer) (set_shouldSkipLeadingNewline false b).
Proof. intros Esk Hb. unfold gets, modify, ASSERT, mbind, M_bind. rewrite Esk. unfold mbind, M_bind. by rewrite (bool_decide_eq_true_2 _ Hb), orb_true_r. Qed.

Lemma noskip_run {A} (k : bool → list Z → BM A) (buffer : list Z) b :
  m_shouldSkipLeadingNewline b = false →
  (skip ← gets m_shouldSkipLeadingNewline;
   buffer ← (if skip : bool then modify (set_shouldSkipLeadingNewline false);; ASSERT (bool_decide (buffer ≠ []));; mret (skipAtMostOneLeadingNewline buffer) else mret buffer);
   k skip buffer) b = k false buffer b.
Proof. intros Esk. unfold gets, mbind, M_bind. by rewrite Esk. Qed.

Lemma buffer_skip fuel self buffer b :
  m_shouldSkipLeadingNewline b = true → buffer ≠ [] → skipAtMostOneLeadingNewline buffer ≠ [] →
  processCharacterBuffer (S fuel) self buffer b = processCharacterBuffer (S fuel) self (skipAtMostOneLeadingNewline buffer) (set_shouldSkipLeadingNewline false b).
Proof.
  intros Esk Hb Hs. etrans; [by apply skip_run|]. symmetry. etrans; [by apply noskip_run|]. cbn [andb]. by rewrite (bool_decide_eq_false_2 (skipAtMostOneLeadingNewline buffer = [])).
Qed.

Lemma buffer_skipAll fuel self buffer b :
  m_shouldSkipLeadingNewline b = true → buffer ≠ [] → skipAtMostOneLeadingNewline buffer = [] → processCharacterBuffer (S fuel) self buffer b = Some ([], set_shouldSkipLeadingNewline false b).
Proof. intros Esk Hb Hs. etrans; [by apply skip_run|]. by rewrite Hs. Qed.

Lemma wp_characters self characters N b : ready N b → characters ≠ [] → (N + lengthZ characters ≤ textLimit)%Z → wp (processCharacter self characters) (λ _ b', ready (N + lengthZ characters) b') b.
Proof.
  intros Hr Hc Hl. apply wp_bind, wp_ASSERT; [by apply bool_decide_eq_true|]. apply wp_bind. eapply (wp_mono _ (λ rest b', rest = [] ∧ ready (N + lengthZ characters) b')).
  - destruct (m_shouldSkipLeadingNewline b) eqn:Esk; [|by apply wp_buffer]. pose proof (skip_length characters) as Hskip. set (b1 := set_shouldSkipLeadingNewline false b). assert (Hr1 : ready N b1) by (by eapply ready_ext).
    destruct (decide (skipAtMostOneLeadingNewline characters = [])) as [Es|Es].
    + unfold wp. rewrite (buffer_skipAll (1 + length characters)) by done. split; [done|]. eapply ready_more; [|exact Hr1]. pose proof (lengthZ_nonneg characters). lia.
    + unfold wp. rewrite (buffer_skip (1 + length characters)) by done. eapply wp_mono; [apply (wp_buffer (length characters) self (skipAtMostOneLeadingNewline characters) N b1); [done..|lia]|].
      intros rest b' [-> ?]. split; [done|]. eapply ready_more; [|done]. lia.
  - intros rest b' [-> ?]. by apply wp_ASSERT.
Qed.

End Quiet.
