(* ===== verification/TreeBuilderPage.v ===== *)
(** * Tokens of a page

    What [constructTree] does with a token when the body is open: foreign content, the end of
    the file, and the step from one token to the next. *)

From Stdlib Require Import String.
From S2P Require Import Prelude HTMLStackItem HTMLElementStack HTMLFormattingElementList ContainerNode ContainerNodeLists ContainerNodeCorrect ContainerNodeScripts ContainerNodeTheorems.
From S2P Require Import TreeOrder HTMLConstructionSite AdoptionAgency TreeTasks SiteInvariant SiteOperations AdoptionCorrect SiteData TextNodes SiteTheorems PageContent.
From S2P Require Import HTMLTokenizer HTMLTreeBuilder TreeBuilderBody.

#[local] Open Scope string_scope.
#[local] Open Scope list_scope.

(** ** Names of SVG *)

Lemma mapAdd_get map key value k q : mapGet (mapAdd map key value) k = Some q → mapGet map k = Some q ∨ q = value.
Proof.
  unfold mapAdd. destruct (mapGet map key); [by left|]. induction map as [|[k' v] map IH]; cbn; [case_bool_decide; [intros [= <-]; by right|done]|]. case_bool_decide; [by left|done].
Qed.

(** A name that is changed has capital letters. *)
Lemma caseMap_cased names k q : mapGet (createCaseMap names) k = Some q → convertToASCIILowercase (localName q) ≠ localName q.
Proof.
  unfold createCaseMap. assert (Hall : ∀ map, (∀ q, mapGet map k = Some q → convertToASCIILowercase (localName q) ≠ localName q) →
    mapGet (foldl (λ map name, if bool_decide (convertToASCIILowercase (localName name) ≠ localName name) then mapAdd map (convertToASCIILowercase (localName name)) name else map) map names) k = Some q → convertToASCIILowercase (localName q) ≠ localName q).
  { induction names as [|name names IH]; intros map Hmap; cbn [foldl]; [by apply Hmap|]. apply IH. intros q'. case_bool_decide as Hc; [|by apply Hmap]. intros [Hg| ->]%mapAdd_get; [by apply Hmap|done]. }
  by apply (Hall []).
Qed.

Section Quiet.
Context `{Build} `{Parser} `{TreeBuilder} `{!PlainDocument}.
#[local] Existing Instance quiet.

Lemma adjusted_name token tag : text tag = convertToASCIILowercase (text tag) → tag_name token ≠ text tag → tag_name (adjustSVGTagNameCase token) ≠ text tag.
Proof.
  intros Hl Hn. unfold adjustSVGTagNameCase. destruct (mapGet _ (tag_name token)) as [q|] eqn:E; [|done]. cbn. intros Eq. apply caseMap_cased in E. rewrite Eq in E. by apply E.
Qed.

(** ** Foreign elements *)

(** The current item, as the adjusted one. *)
Lemma wp_adjusted r l (Q : HTMLStackItem → HTMLTreeBuilder → Prop) b :
  records (m_tree b) = r :: l → m_stackDepth (m_openElements (m_tree b)) ≠ 0%Z → Q (m_item r) b → wp adjustedCurrentStackItem Q b.
Proof.
  intros E Hd HQ. unfold adjustedCurrentStackItem. apply wp_bind, wp_askSite, wp_gets. split; [done|]. apply wp_bind, wp_ASSERT; [apply negb_true_iff; by apply bool_decide_eq_false|].
  rewrite whole_document. apply wp_bind, wp_ret. apply wp_askSite. eapply wp_currentStackItem; [exact E|]. done.
Qed.

(** A token for foreign content finds a foreign element on top. *)
Definition foreignTop (b : HTMLTreeBuilder) : Prop :=
  ∃ r l, records (m_tree b) = r :: l ∧ isInHTMLNamespace (m_item r) = false ∧ m_stackDepth (m_openElements (m_tree b)) ≠ 0%Z.

Lemma wp_shouldForeign N token (Q : bool → HTMLTreeBuilder → Prop) b :
  inPage N (m_tree b) → (∀ foreign : bool, (foreign = true → foreignTop b ∧ isTokenOf token HTMLToken.EndOfFile = false) → Q foreign b) → wp (shouldProcessTokenInForeignContent token) Q b.
Proof.
  intros Hi HQ. destruct (records_top _ _ Hi) as (r & l & E). unfold shouldProcessTokenInForeignContent. apply wp_bind, wp_askSite, wp_gets. split; [done|]. case_bool_decide as Hd; [by apply wp_ret, HQ|].
  apply wp_bind. eapply wp_adjusted; [done..|]. apply wp_ret, HQ. intros Hf%negb_true_iff. rewrite !orb_false_iff in Hf. destruct Hf as ((((? & _) & _) & _) & ?). split; [|done]. by exists r, l.
Qed.

Lemma foreign_ordinary s r : siteOk s → r ∈ records s → isInHTMLNamespace (m_item r) = false → ordinary (m_item r) = true ∧ isRootItem (m_item r) = false.
Proof.
  intros Hok Hr Hf. pose proof (ok_document _ (ok_shape _ Hok) r Hr) as He. assert (Hno : ∀ tag, hasTagName (htmlName tag) (m_item r) = false).
  { intros tag. apply not_true_iff_false. intros Ht. apply orb_false_iff in Hf as [Hf _]. apply bool_decide_eq_false in Hf. apply Hf. apply andb_true_iff in Ht as [_ Ht]. by apply bool_decide_eq_true in Ht. }
  split; [apply ordinary_split; split_and!; [done|apply Hno..]|]. unfold isRootItem, isRootNode. rewrite Hno, orb_false_r. unfold isElementItem, isElement in He. by destruct (isDocumentFragment (m_item r)).
Qed.

(** A mode with an open body. *)
Lemma content_mode N b : content N b → ∃ mode, on mode N b ∧ (∀ N' b', on mode N' b' → content N' b').
Proof.
  intros [Hon|[Hon|Hon]]; eexists; (split; [exact Hon|]); intros N' b' Hon'; [by left|by right; left|by right; right].
Qed.

Lemma wp_foreignLoop mode N name a rest b :
  on mode N b → records (m_tree b) = a ++ rest → Forall (λ x, ordinary (m_item x) = true) a → (∃ r l, rest = r :: l ∧ isInHTMLNamespace (m_item r) = false) → wp (foreignLoop name rest) (λ _ b', on mode N b') b.
Proof.
  intros Hon. pose proof Hon as (_ & _ & [Hok _]). pose proof (ok_shape _ Hok) as Hs. revert a. induction rest as [|r rest IH]; intros a E Ha (r' & l & Er & Hf); [done|]. injection Er as <- <-. cbn [foreignLoop].
  assert (Hr : r ∈ records (m_tree b)) by (rewrite E; set_solver). destruct (foreign_ordinary _ r Hok Hr Hf) as [Ho Hroot]. assert (Hne : rest ≠ []) by (by eapply (not_last _ a r rest (ok_stack _ Hs))). case_bool_decide.
  - apply wp_bind, wp_askSite, wp_downcastItem; [by apply (ok_document _ Hs)|]. split; [done|]. apply wp_bind. eapply wp_site; [exact Hon|apply keeps_onStack; auto with keeps|by apply (popUntilElementPopped_ok a r rest)|]. intros [] s' _ Hon'. by apply wp_ret.
  - destruct rest as [|next rest]; [done|]. destruct (isInHTMLNamespace (m_item next)) eqn:Ef; [by apply wp_ret|]. apply (IH (a ++ [r])); [by rewrite E, <-app_assoc|apply Forall_app; split; [done|by constructor]|by exists next, rest].
Qed.

Lemma wp_foreignStart n token N b :
  content N b → foreignTop b → (size b ≤ n)%nat → legalStart token → wp (foreignStartTag (handlers (4 + n)) (default xhtmlNamespaceURI (m_namespaceURI ∘ m_item <$> head (records (m_tree b)))) token) (λ _ b', ready N b') b.
Proof.
  intros Hc (r & l & E & Hf & _) Hsize Hl. destruct (content_mode _ _ Hc) as (mode & Hon & Hback). unfold foreignStartTag. destruct (leavesForeignContent token).
  - apply wp_bind. eapply wp_site; [exact Hon|apply keeps_onStack; auto with keeps|apply popForeign_ok, Hon|]. intros [] s' Hle Hon'. apply wp_startTag; [by apply Hback|unfold size in *; cbn in *; lia|done].
  - rewrite E. cbn [head fmap option_fmap option_map default compose]. eapply wp_stay; [exact Hon|apply stays_foreign|intros a b' ?; left; by apply Hback].
    apply orb_false_iff in Hf as [Hf _]. by apply bool_decide_eq_false in Hf.
Qed.

(** The script of an SVG picture ends. *)
Lemma wp_popScript mode N r l b :
  on mode N b → records (m_tree b) = r :: l → isInHTMLNamespace (m_item r) = false →
  wp ((if scriptingContentIsAllowed m_parserContentPolicy then element ← openElements top; modify (set_scriptToProcess (Some (node_id element))) else mret tt);; openElements pop) (λ _ b', on mode N b') b.
Proof.
  intros Hon E Hf. pose proof Hon as (Hm & Hset & [Hok Hfr]). assert (Hr : r ∈ records (m_tree b)) by (rewrite E; apply list_elem_of_here). destruct (foreign_ordinary _ r Hok Hr Hf) as [Ho Hroot].
  apply wp_bind. eapply (wp_mono _ (λ _ b', on mode N b' ∧ m_tree b' = m_tree b)).
  - destruct (scriptingContentIsAllowed m_parserContentPolicy); [|by apply wp_ret]. apply wp_bind, wp_askSite. destruct (shape_top (m_tree b) (ok_shape _ Hok)) as [top Htop]. eapply wp_askStack; [exact Htop|]. split; [done|]. by apply wp_modify.
  - intros [] b1 [Hon1 Et]. eapply wp_site; [exact Hon1|apply keeps_onStack; auto with keeps|rewrite Et; by apply (popTop_ok r l)|]. by intros [] s' _ ?.
Qed.

Lemma wp_foreignEnd n token ns N b :
  content N b → foreignTop b → tag_name token ≠ text "template" → wp (foreignEndTag (handlers (4 + n)) ns token) (λ _ b', content N b') b.
Proof.
  intros Hc (r & l & E & Hf & _) Hn. destruct (content_mode _ _ Hc) as (mode & Hon & Hback). unfold foreignEndTag. set (token' := if bool_decide (ns = svgNamespaceURI) then _ else token).
  assert (Hn' : isTag (tag_name token') "template" = false) by (apply bool_decide_eq_false; unfold token'; case_bool_decide; [by apply adjusted_name|done]). clearbody token'. cbv zeta.
  apply wp_bind. eapply wp_current; [exact Hon|]. intros r' l' E'. rewrite E in E'. injection E' as <- <-. case_match.
  - eapply wp_mono; [by apply (wp_popScript mode N r l)|]. intros [] b' ?. by apply Hback.
  - rewrite Hf. apply wp_bind, wp_bind, wp_askSite. eapply (wp_askStack _ r); [unfold topRecord; by rewrite E|]. split; [done|]. apply wp_bind, wp_gets. cbn [compose].
    eapply wp_mono; [apply (wp_foreignLoop mode N _ []); [done|done|by constructor|rewrite E; by exists r, l]|]. intros [] b' Hon'; [by apply wp_ret, Hback|]. apply wp_endTag; [by apply Hback|done].
Qed.

(** ** The end of the file *)

(** All elements are closed, the queue is not run yet. *)
Definition closing (s' : HTMLConstructionSite) : Prop := ∃ k s, s' = set_openElements k s ∧ siteOk s ∧ HTMLElementStack.wf k ∧ m_top k = [] ∧ m_stackDepth k = 0%Z.
(** The document is a tree, nothing is open and nothing is left to do. *)
Definition closed (s : HTMLConstructionSite) : Prop := records s = [] ∧ m_taskQueue s = [] ∧ treeOk (tree s) ∧ HTMLElementStack.wf (m_openElements s) ∧ HTMLFormattingElementList.wf (entries s).

(** The builder with such a site: no template is open for it. *)
Definition ending (b : HTMLTreeBuilder) : Prop := closing (m_tree b) ∧ settled b.
Definition ended (b : HTMLTreeBuilder) : Prop := closed (m_tree b) ∧ settled b.

Lemma wp_popAll b : siteOk (m_tree b) → settled b → wp popAllElements (λ _ b', ending b') b.
Proof.
  intros Hok Hset. apply wp_onSite, wp_onStack. eapply wp_mono; [apply popAll_ok, (ok_stack _ (ok_shape _ Hok))|]. intros [] k (Hwf & Et & _). split; [|exact Hset]. exists k, (m_tree b). split_and!; [done..|]. rewrite (wf_depth _ Hwf), Et. reflexivity.
Qed.

Lemma closing_runs s : closing s → wp executeQueuedTasks (λ _ s', closed s') s.
Proof.
  intros (k & s0 & -> & Hok & Hwf & Ek & _). pose proof (ok_shape _ Hok) as Hs. unfold executeQueuedTasks. apply wp_bind, wp_gets. case_bool_decide as Eq; [apply nil_length_inv in Eq; apply wp_ret; split_and!; [done..|apply Hs|done|apply Hs]|].
  apply wp_bind, wp_modify, executeTasks_ok. cbn [set_taskQueue set_openElements tree m_taskQueue]. eapply wp_mono; [apply (ok_pending _ Hok (tree s0) (ahead_refl _ (ok_tree _ (ok_shape _ Hok))))|].
  intros [] T Hout e. split_and!; [exact Ek|done|apply (out_tree _ _ _ _ _ Hout)|by apply wf_events|apply Hs].
Qed.

Lemma wp_eof fuel self N b : ready N b → wp (processEndOfFile (2 + fuel) self) (λ _ b', ending b') b.
Proof.
  assert (Hbody : ∀ fuel b', content N b' → wp (processEndOfFile (S fuel) self) (λ _ b', ending b') b').
  { intros fuel' b' Hc. cbn [processEndOfFile]. apply wp_bind, wp_gets. assert (Hpop : settled b' → inPage N (m_tree b') → wp popAllElements (λ _ b', ending b') b') by (intros Hset [Hok _]; by apply wp_popAll).
    destruct Hc as [(-> & Hset & Hi)|[(-> & ? & Hi)|(-> & ? & Hi)]]; [pose proof (proj1 Hset) as Et|by apply Hpop..]. unfold endOfFileInTemplate. apply wp_bind, wp_gets. rewrite Et. by apply Hpop. }
  intros [Hc|Ht]; [by apply Hbody|]. change (2 + fuel)%nat with (S (1 + fuel)). cbn [processEndOfFile]. apply wp_bind, wp_gets. pose proof Ht as (Em & Eo & Hs & Hi & name & (r & l & E & Hr) & Hp). rewrite Em.
  destruct (topIs_ordinary name N b r l Hi E Hr Hp) as [Ho Hroot]. pose proof Hi as [Hok Hf].
  apply wp_bind, wp_askSite. eapply wp_currentStackItem; [exact E|]. split; [done|]. apply wp_bind, wp_onSite. eapply wp_mono; [apply (steps_wp around); [apply keeps_onStack; auto with keeps|by apply (popTop_ok r l)]|].
  intros [] s' [[Hok' _] Ha]. apply wp_bind, wp_gets. cbn [m_originalInsertionMode set_site]. rewrite Eo. apply wp_bind, wp_ASSERT; [done|]. apply wp_bind. unfold restoreMode. apply wp_modify. cbn [m_originalInsertionMode set_site]. rewrite Eo.
  apply Hbody. left. split_and!; [done..|]. split; [done|by eapply frame_ok].
Qed.

(** ** One token *)

(** The characters a token brings. *)
Definition lengthOf (token : AtomicHTMLToken) : Z := match token with TComment characters | TCharacter characters => lengthZ characters | _ => 0 end.

(** What the tokenizer gives, less the tags that are left out: the attributes of a tag are
    distinct, there are no empty characters, and in the text of an element there are no
    start tags and [</script>] only ends a script, with the tokenizer back in the data state. *)
Definition legal (b : HTMLTreeBuilder) (token : AtomicHTMLToken) : Prop :=
  match token with
  | TDoctype _ | TComment _ | TEndOfFile => True
  | TStartTag tag => legalStart tag ∧ m_insertionMode b ≠ Text
  | TEndTag tag => tag_name tag ≠ text "template" ∧ (m_insertionMode b = Text → tag_name tag = text "script" → topIs (text "script") b ∧ isInDataState (m_tokenizer b) || usePreHTML5ParserQuirks options = true)
  | TCharacter characters => characters ≠ []
  end.

Definition after (token : AtomicHTMLToken) (N : Z) (b : HTMLTreeBuilder) : Prop := if isTokenOf token HTMLToken.EndOfFile then ending b else ready (N + lengthOf token) b.

Lemma ready_page N b : ready N b → inPage N (m_tree b).
Proof. intros [[(_ & _ & ?)|[(_ & _ & ?)|(_ & _ & ?)]]|(_ & _ & _ & ? & _)]; done. Qed.

(** A comment goes to the current node, after the body to the root or to the document. *)
Lemma wp_comment fuel comment N b : ready N b → wp (processComment (S fuel) comment) (λ _ b', ready (N + lengthZ comment) b') b.
Proof.
  intros Hr. cbn [processComment]. apply wp_bind, wp_gets. destruct Hr as [[Hon|[Hon|Hon]]|Ht].
  - pose proof Hon as (Em & Hs & Hi). rewrite Em. apply wp_onSite. eapply wp_mono; [by apply (comment_page N)|]. intros [] s' [? _]. by left; left.
  - pose proof Hon as (Em & Hs & Hi). rewrite Em. apply wp_onSite. eapply wp_mono; [by apply (rootComment_page N)|]. intros [] s' [? _]. by left; right; left.
  - pose proof Hon as (Em & Hs & Hi). rewrite Em. apply wp_onSite. eapply wp_mono; [by apply (documentComment_page N)|]. intros [] s' [? _]. by left; right; right.
  - pose proof Ht as (Em & _ & _ & Hi & _). rewrite Em. apply wp_onSite. eapply wp_mono; [by apply (comment_page N)|]. intros [] s' [? ?]. right. by eapply inText_site.
Qed.

Lemma wp_token n token N b : ready N b → (size b ≤ n)%nat → legal b token → (N + lengthOf token ≤ textLimit)%Z → wp (processToken (4 + n) token) (λ _ b', after token N b') b.
Proof.
  intros Hr Hsize Hl Hlim. set (b1 := set_shouldSkipLeadingNewline false b). assert (Hr1 : ready N b1) by (by eapply ready_ext). unfold after. destruct token as [doctype|tag|tag|comment|characters|]; cbn [isTokenOf lengthOf legal processToken] in *.
  - apply wp_bind, wp_modify. fold b1. cbn [processDoctypeToken]. apply wp_bind, wp_gets. rewrite Z.add_0_r. destruct Hr1 as [[Hon|[Hon|Hon]]|Ht]; [pose proof (proj1 Hon) as Em..|pose proof (proj1 Ht) as Em]; rewrite Em; apply wp_ret.
    + by left; left.
    + by left; right; left.
    + by left; right; right.
    + by right.
  - destruct Hl as [Hl Hm]. apply wp_bind, wp_modify. fold b1. rewrite Z.add_0_r. destruct Hr1 as [Hc|Ht]; [by apply wp_startTag|]. destruct Hm. apply Ht.
  - destruct Hl as [Hn Hm]. apply wp_bind, wp_modify. fold b1. rewrite Z.add_0_r. destruct Hr1 as [Hc|Ht]; [eapply wp_mono; [apply wp_endTag; [done|by apply bool_decide_eq_false]|]; intros [] b' ?; by left|].
    change (handlers (4 + n)) with (mkHandlers (processStartTag (handlers (3 + n))) (processEndTag (handlers (3 + n)))). cbn [endTag]. unfold processEndTag. apply wp_bind, wp_gets. rewrite (proj1 Ht).
    eapply wp_mono; [apply (wp_endText (tag_name tag) N); [done|]|intros [] b' ?; by left; left]. intros Hs%isTag_eq. apply Hm; [apply Ht|done].
  - apply wp_bind, wp_modify. fold b1. by apply wp_comment.
  - by apply wp_characters.
  - apply wp_bind, wp_modify. fold b1. by apply (wp_eof (2 + n) _ N).
Qed.

(** A token for foreign content. *)
Lemma wp_foreignToken n token N b :
  ready N b → foreignTop b → (size b ≤ n)%nat → legal b token → isTokenOf token HTMLToken.EndOfFile = false → (N + lengthOf token ≤ textLimit)%Z → wp (processTokenInForeignContent (4 + n) token) (λ _ b', ready (N + lengthOf token) b') b.
Proof.
  intros Hr Hf Hsize Hl Heof Hlim. assert (Hc : content N b).
  { destruct Hr as [?|(_ & _ & _ & _ & name & (r & l & E & Hr) & _)]; [done|]. destruct Hf as (r' & l' & E' & Hf & _). rewrite E in E'. injection E' as <- <-. destruct Hr as [_ Hns]. unfold isInHTMLNamespace in Hf. rewrite Hns in Hf. discriminate Hf. }
  pose proof Hf as (r & l & E & _ & Hd). unfold processTokenInForeignContent. apply wp_bind. eapply wp_adjusted; [done..|]. destruct (content_mode _ _ Hc) as (mode & Hon & Hback). destruct token as [doctype|tag|tag|comment|characters|]; cbn [lengthOf legal] in *.
  - apply wp_ret. by rewrite Z.add_0_r.
  - rewrite Z.add_0_r. destruct Hl as [Hl _]. pose proof (wp_foreignStart n tag N b Hc Hf Hsize Hl) as Hw. rewrite E in Hw. exact Hw.
  - rewrite Z.add_0_r. destruct Hl as [Hn _]. eapply wp_mono; [by apply wp_foreignEnd|]. intros [] b' ?. by left.
  - pose proof Hon as (Em & Hs & Hi). apply wp_onSite. eapply wp_mono; [by apply (comment_page N)|]. intros [] s' [? _]. left. by apply Hback.
  - apply wp_bind. eapply wp_text; [exact Hon|done|]. intros b' Hon'. eapply wp_mono; [by apply (wp_clearFrameset _ mode (N + lengthZ characters))|]. intros [] b2 ?. left. by apply Hback.
  - discriminate Heof.
Qed.

(** ** The step *)

Lemma wp_isForeign N (Q : bool → HTMLTreeBuilder → Prop) b : inPage N (m_tree b) → (∀ answer, Q answer b) → wp isInForeignContent Q b.
Proof.
  intros Hi HQ. destruct (records_top _ _ Hi) as (r & l & E). unfold isInForeignContent. apply wp_bind, wp_askSite, wp_gets. split; [done|]. case_bool_decide as Hd; [by apply wp_ret|].
  apply wp_bind. eapply wp_adjusted; [done..|]. apply wp_bind, wp_askSite. eapply wp_currentStackItem; [exact E|]. split; [done|]. by apply wp_ret.
Qed.

(** What comes after the token was processed. *)
Definition settle : BM unit :=
  inForeignContent ← isInForeignContent;
  mode ← gets m_insertionMode;
  tokenizerDo (setForceNullCharacterReplacement (bool_decide (mode = Text) || inForeignContent));;
  tokenizerDo (setShouldAllowCDATA inForeignContent);;
  onSite executeQueuedTasks.

Lemma wp_settle N b : ready N b → wp settle (λ _ b', ready N b' ∧ m_taskQueue (m_tree b') = []) b.
Proof.
  intros Hr. unfold settle. apply wp_bind. eapply wp_isForeign; [by apply ready_page|]. intros foreign. apply wp_bind, wp_gets, wp_bind, wp_modify, wp_bind, wp_modify. cbn [m_tokenizer set_tokenizer]. apply wp_onSite. cbn [m_tree set_tokenizer].
  pose proof (ready_page _ _ Hr) as [Hok Hf]. eapply wp_mono; [apply (steps_wp around); [auto with keeps|by apply executeQueue_ok]|]. intros [] s' [(Hok' & Eq & Er & _) Ha]. split; [|done]. assert (Hi' : inPage N s') by (split; [done|by eapply frame_ok]).
  destruct Hr as [[(Em & Hs & Hi)|[(Em & Hs & Hi)|(Em & Hs & Hi)]]|Ht]; [by left; left|by left; right; left|by left; right; right|]. right. eapply (inText_ext N (set_site s' b)); [done..|]. by eapply inText_site.
Qed.

Lemma wp_settleEnding b : ending b → wp settle (λ _ b', ended b') b.
Proof.
  intros [Hc Hset]. unfold settle. apply wp_bind. unfold isInForeignContent. apply wp_bind, wp_askSite, wp_gets. split; [done|]. pose proof Hc as (k & s & Et & _ & _ & _ & Ed). rewrite Et. cbn [set_openElements m_openElements]. rewrite Ed. apply wp_ret.
  apply wp_bind, wp_gets, wp_bind, wp_modify, wp_bind, wp_modify. apply wp_onSite. eapply wp_mono; [by apply closing_runs|]. by intros [] s1 ?.
Qed.

Lemma constructTree_page token N b :
  ready N b → legal b token → (N + lengthOf token ≤ textLimit)%Z →
  wp (constructTree token) (λ _ b', if isTokenOf token HTMLToken.EndOfFile then ended b' else ready (N + lengthOf token) b' ∧ m_taskQueue (m_tree b') = []) b.
Proof.
  intros Hr Hl Hlim. unfold constructTree, depth. apply wp_bind, wp_gets. change (16 + length (m_top (m_openElements (m_tree b))))%nat with (4 + (12 + size b))%nat. apply wp_bind, (wp_shouldForeign N); [by apply ready_page|]. intros foreign Hf. apply wp_bind.
  change (wp (if foreign then processTokenInForeignContent (4 + (12 + size b)) token else processToken (4 + (12 + size b)) token)
    (λ _ b', wp settle (λ _ b', if isTokenOf token HTMLToken.EndOfFile then ended b' else ready (N + lengthOf token) b' ∧ m_taskQueue (m_tree b') = []) b') b). destruct foreign.
  - destruct (Hf eq_refl) as [Htop Heof]. rewrite Heof. eapply wp_mono; [apply (wp_foreignToken _ token N); [done..|lia|done|done|done]|]. intros [] b' Hr'. by apply wp_settle.
  - eapply wp_mono; [apply (wp_token _ token N); [done|lia|done..]|]. intros [] b' Ha. unfold after in Ha. destruct (isTokenOf token HTMLToken.EndOfFile); [by apply wp_settleEnding|by apply wp_settle].
Qed.

End Quiet.
