(* ===== verification/TreeBuilderStart.v ===== *)
(** * The tree builder before the body

    What [constructTree] does with a token until the body is open: the modes from [Initial] to
    [AfterHead], and the text of elements in the head. *)

From Stdlib Require Import String.
From S2P Require Import Prelude HTMLStackItem HTMLElementStack HTMLFormattingElementList ContainerNode ContainerNodeLists ContainerNodeCorrect ContainerNodeScripts ContainerNodeTheorems.
From S2P Require Import TreeOrder HTMLConstructionSite AdoptionAgency TreeTasks SiteInvariant SiteOperations AdoptionCorrect SiteData TextNodes SiteTheorems PageContent HeadContent.
From S2P Require Import HTMLTokenizer HTMLTreeBuilder TreeBuilderBody TreeBuilderPage.

#[local] Open Scope string_scope.
#[local] Open Scope list_scope.

Section Quiet.
Context `{Build} `{Parser} `{TreeBuilder} `{!PlainDocument}.
#[local] Existing Instance quiet.
Let Hcustom : ∀ name, findInterface name = false := no_custom.
Let Hbreak : breaksBefore := breaks_before.
Let Hwhole : m_isParsingFragment = false := whole_document.
Let Hdepth : (0 ≤ m_maximumDOMTreeDepth)%Z := depth_unsigned.

(** ** The stages *)

(** What is above the head in a mode, and whether the head is off the stack. *)
Inductive layout : InsertionMode → list ElementRecord → bool → Prop :=
  | layout_head : layout InHead [] false
  | layout_noscript x : named (text "noscript") x → layout InHeadNoscript [x] false
  | layout_after : layout AfterHead [] true.

Definition at_ (mode : InsertionMode) (N : Z) (a : list ElementRecord) (hidden : bool) (b : HTMLTreeBuilder) : Prop := m_insertionMode b = mode ∧ settled b ∧ headSite N a hidden (m_tree b).

Definition beforeRoot (N : Z) (b : HTMLTreeBuilder) : Prop := (m_insertionMode b = Initial ∨ m_insertionMode b = BeforeHTML) ∧ settled b ∧ blank N (m_tree b).
Definition beforeHead (N : Z) (b : HTMLTreeBuilder) : Prop := m_insertionMode b = BeforeHead ∧ settled b ∧ rootSite N (m_tree b).
Definition headMode (N : Z) (b : HTMLTreeBuilder) : Prop := ∃ a hidden, layout (m_insertionMode b) a hidden ∧ settled b ∧ headSite N a hidden (m_tree b).

(** In the text of an element that was opened in a mode of the head. *)
Definition textAbove (mode : InsertionMode) (N : Z) (a : list ElementRecord) (hidden : bool) (b : HTMLTreeBuilder) : Prop :=
  m_insertionMode b = Text ∧ m_originalInsertionMode b = mode ∧ settled b ∧ ∃ name x, named name x ∧ plain name = true ∧ headSite N (x :: a) hidden (m_tree b).
Definition headText (N : Z) (b : HTMLTreeBuilder) : Prop := ∃ mode a hidden, layout mode a hidden ∧ textAbove mode N a hidden b.

(** ** Steps *)

Lemma wp_onHead {A} (m : CM A) (P Q : A → HTMLTreeBuilder → Prop) b : wp m (λ a s', P a (set_site s' b)) (m_tree b) → (∀ a b', P a b' → Q a b') → wp (onSite m) Q b.
Proof. intros Hw HQ. apply wp_onSite. eapply wp_mono; [exact Hw|]. intros a s' HP. by apply HQ. Qed.

Lemma headSite_top N x a hidden s : headSite N (x :: a) hidden s → ∃ l, records s = x :: l.
Proof. intros [_ Hw]. destruct (withHead_low _ _ _ Hw) as (_ & h & html & E & _). rewrite E. by eexists. Qed.

Lemma wp_endHeadText name mode N a hidden b :
  textAbove mode N a hidden b → (isTag name "script" = true → topIs (text "script") b ∧ isInDataState (m_tokenizer b) || usePreHTML5ParserQuirks options = true) → wp (endTagText name) (λ _ b', at_ mode N a hidden b') b.
Proof.
  intros (Hm & Ho & Hs & tag & x & Hx & Hp & Hh) Hscript. destruct (headSite_top _ _ _ _ _ Hh) as [l E]. unfold endTagText.
  assert (Hpop : ∀ b' (Q : unit → HTMLTreeBuilder → Prop), m_tree b' = m_tree b → settled b' → (∀ s', headSite N a hidden s' → Q tt (set_site s' b')) → wp (openElements pop) Q b').
  { intros b' Q Et Hs' HQ. apply wp_onSite. rewrite Et. eapply wp_mono; [by eapply headSite_pop|]. intros [] s' ?. by apply HQ. }
  destruct (isTag name "script") eqn:En.
  - destruct (Hscript eq_refl) as [(r' & l' & E' & Hr') Hdata]. rewrite E in E'. injection E' as <- <-. apply wp_bind, wp_ASSERT_that.
    { apply wp_bind, wp_askSite. eapply wp_currentStackItem; [exact E|]. split; [done|]. apply wp_ret. split; [|done]. by apply named_matches in Hr'. }
    apply wp_bind. eapply (wp_mono _ (λ _ b', m_tree b' = m_tree b ∧ settled b' ∧ m_originalInsertionMode b' = mode ∧ m_tokenizer b' = m_tokenizer b)).
    { destruct (scriptingContentIsAllowed m_parserContentPolicy); [|by apply wp_ret]. apply wp_bind, wp_askSite. destruct (withHead_low _ _ _ (proj2 Hh)) as [Hok _]. destruct (shape_top (m_tree b) (ok_shape _ Hok)) as [top Htop]. eapply wp_askStack; [exact Htop|]. split; [done|]. by apply wp_modify. }
    intros [] b1 (Et & Hs1 & Ho1 & Etok). apply wp_bind, Hpop; [done..|]. intros s' Hh'. apply wp_bind. unfold restoreMode. apply wp_modify. cbn [m_originalInsertionMode set_site]. rewrite Ho1.
    apply wp_bind, wp_gets, wp_bind, wp_ASSERT; [cbn; by rewrite Etok|]. by apply wp_modify.
  - apply wp_bind, Hpop; [done..|]. intros s' Hon. unfold restoreMode. apply wp_modify. cbn [m_originalInsertionMode set_site]. by rewrite Ho.
Qed.

(** ** Start tags in the head *)

Lemma at_ext mode N a hidden b b' :
  m_insertionMode b' = m_insertionMode b → m_templateInsertionModes b' = m_templateInsertionModes b → m_pendingTableCharacters b' = m_pendingTableCharacters b → m_tree b' = m_tree b → at_ mode N a hidden b → at_ mode N a hidden b'.
Proof. intros E1 E2 E3 E4 (Hm & [Ht Hp] & Hh). unfold at_, settled. rewrite E1, E2, E3, E4. done. Qed.

Lemma wp_headHtml token mode N a hidden b : at_ mode N a hidden b → wp (processHtmlStartTagForInBody token) (λ _ b', at_ mode N a hidden b') b.
Proof.
  intros Hat. pose proof Hat as (Hm & Hs & Hh). destruct (withHead_low _ _ _ (proj2 Hh)) as [Hok _]. eapply wp_templateTwice; [done|done| |done]. apply wp_onSite. eapply wp_mono; [by apply headSite_htmlAgain|]. by intros [] s' Hh'.
Qed.

(** Into the text of an element of the head. *)
Lemma wp_enterHeadText name x mode N a b : at_ mode N (x :: a) false b → named name x → plain name = true → wp enterText (λ _ b', textAbove mode N a false b' ∧ m_tree b' = m_tree b) b.
Proof. intros (Hm & Hs & Hh) Hx Hp. unfold enterText. apply wp_bind, wp_gets, wp_bind, wp_modify, wp_modify. rewrite Hm. split; [|done]. split_and!; try done; [apply Hs..|]. by exists name, x. Qed.

Lemma wp_headInsert token mode N a (Q : unit → HTMLTreeBuilder → Prop) b :
  at_ mode N a false b → plain (tag_name token) = true → allowed (Some (mkName (tag_name token) xhtmlNamespaceURI)) = true → (∀ x b', named (tag_name token) x → at_ mode N (x :: a) false b' → Q tt b') → wp (onSite (insertHTMLElement token)) Q b.
Proof. intros (Hm & Hs & Hh) Hp Ha HQ. apply wp_onSite. eapply wp_mono; [by apply (headSite_insert Hcustom N token a)|]. intros [] s' (x & Hx & Hh'). by apply (HQ x). Qed.

Lemma wp_headRaw token mode N a b : at_ mode N a false b → plain (tag_name token) = true → allowed (Some (mkName (tag_name token) xhtmlNamespaceURI)) = true → wp (processGenericRawTextStartTag token) (λ _ b', textAbove mode N a false b') b.
Proof.
  intros Hat Hp Ha. apply wp_bind. eapply wp_headInsert; [done..|]. intros x b1 Hx Hat1. apply wp_bind, wp_modify. eapply wp_mono; [apply (wp_enterHeadText (tag_name token) x mode N a); [by apply (at_ext mode N _ _ b1)|done..]|]. by intros [] b' [? _].
Qed.
Lemma wp_headRCDATA token mode N a b : at_ mode N a false b → plain (tag_name token) = true → allowed (Some (mkName (tag_name token) xhtmlNamespaceURI)) = true → wp (processGenericRCDATAStartTag token) (λ _ b', textAbove mode N a false b') b.
Proof.
  intros Hat Hp Ha. apply wp_bind. eapply wp_headInsert; [done..|]. intros x b1 Hx Hat1. apply wp_bind, wp_modify. eapply wp_mono; [apply (wp_enterHeadText (tag_name token) x mode N a); [by apply (at_ext mode N _ _ b1)|done..]|]. by intros [] b' [? _].
Qed.

Definition headDone (mode : InsertionMode) (N : Z) (a : list ElementRecord) (b : HTMLTreeBuilder) : Prop := at_ mode N a false b ∨ textAbove mode N a false b.

Lemma wp_headScript n token mode N a b :
  at_ mode N a false b → tag_name token = text "script" →
  wp (processScriptStartTag token;; (if usePreHTML5ParserQuirks options && tag_selfClosing token then processFakeEndTag (handlers (S n)) "script" else mret tt);; mret true) (λ did b', did = true ∧ headDone mode N a b') b.
Proof.
  intros (Hm & Hs & Hh) Et. apply wp_bind. unfold processScriptStartTag. apply wp_bind, wp_onSite. eapply wp_mono; [by apply (headSite_script N token a)|]. intros [] s1 (x & Hx & Hh1). apply wp_bind, wp_modify.
  eapply wp_mono; [by apply (wp_enterHeadText (text "script") x mode N a)|]. intros [] b1 [Ht Etree]. apply wp_bind. eapply (wp_mono _ (λ _ b', headDone mode N a b')); [|intros [] b' ?; by apply wp_ret].
  destruct (usePreHTML5ParserQuirks options) eqn:Eq; [|apply wp_ret; by right]. destruct (tag_selfClosing token); [|apply wp_ret; by right].
  unfold processFakeEndTag. cbn [andb handlers endTag]. unfold processEndTag. apply wp_bind, wp_gets. rewrite (proj1 Ht). eapply wp_mono; [apply (wp_endHeadText (text "script") mode N a false); [done|]|intros [] b2 ?; by left].
  intros _. split; [|by rewrite Eq, orb_true_r]. destruct (headSite_top _ _ _ _ _ Hh1) as [l El]. exists x, l. split; [|done]. rewrite Etree. exact El.
Qed.

(** The tags the head takes. *)
Definition inHeadTags : list string := ["html"; "base"; "basefont"; "bgsound"; "command"; "link"; "meta"; "title"; "noscript"; "noframes"; "style"; "script"; "template"; "head"].

Lemma wp_forInHead n token mode N a b :
  at_ mode N a false b → legalStart token →
  wp (processStartTagForInHead (handlers (S n)) token) (λ did b',
    if did : bool then headDone mode N a b' ∨ tag_name token = text "noscript" ∧ ∃ x, named (text "noscript") x ∧ at_ InHeadNoscript N (x :: a) false b'
    else b' = b ∧ oneOf (tag_name token) inHeadTags = false) b.
Proof.
  intros Hat [Hpage%negb_true_iff Hd]. unfold processStartTagForInHead.
  assert (Ht : ∀ tag, isTag (tag_name token) tag = true → plain (text tag) && negb (oneOf (text tag) ["script"; "applet"; "embed"; "object"]) = true → plain (tag_name token) = true ∧ allowed (Some (mkName (tag_name token) xhtmlNamespaceURI)) = true).
  { intros tag E%isTag_eq [Hp Hn%negb_true_iff]%andb_true_iff. rewrite E. split; [done|]. apply allowed_not; [by apply (oneOf_not _ _ _ Hn), (bool_decide_eq_true_1 _)|right; split_and!; by apply (oneOf_not _ _ _ Hn), (bool_decide_eq_true_1 _)]. }
  case_match eqn:E1; [apply wp_bind; eapply wp_mono; [by apply (wp_headHtml token mode N a false)|]; intros [] b' ?; apply wp_ret; by left; left|].
  case_match eqn:E2.
  { apply wp_bind. destruct Hat as (Hm & Hs & Hh). apply wp_onSite. eapply wp_mono; [apply (headSite_selfClosing Hcustom N token a); [done|]|intros [] s' ?; apply wp_ret; by left; left].
    pose proof (oneOf_all (λ x, negb (oneOf x ["script"; "applet"; "embed"; "object"])) _ _ E2 eq_refl) as Hn%negb_true_iff. apply allowed_not; [by apply (oneOf_not _ _ _ Hn), (bool_decide_eq_true_1 _)|right; split_and!; by apply (oneOf_not _ _ _ Hn), (bool_decide_eq_true_1 _)]. }
  case_match eqn:E3; [destruct (Ht _ E3 eq_refl); apply wp_bind; eapply wp_mono; [by apply (wp_headRCDATA token mode N a)|]; intros [] b' ?; apply wp_ret; by left; right|].
  case_match eqn:E4.
  { destruct (Ht _ E4 eq_refl). apply isTag_eq in E4. destruct (scriptEnabled options); [apply wp_bind; eapply wp_mono; [by apply (wp_headRaw token mode N a)|]; intros [] b' ?; apply wp_ret; by left; right|].
    apply wp_bind. eapply wp_headInsert; [done..|]. intros x b1 Hx (Hm1 & Hs1 & Hh1). apply wp_bind, wp_modify, wp_ret. right. split; [done|]. exists x. rewrite E4 in Hx. done. }
  case_match eqn:E5.
  { apply wp_bind. eapply wp_mono; [apply (wp_headRaw token mode N a); [done|by eapply (oneOf_all _ _ _ E5)|]|intros [] b' ?; apply wp_ret; by left; right].
    pose proof (oneOf_all (λ x, negb (oneOf x ["script"; "applet"; "embed"; "object"])) _ _ E5 eq_refl) as Hn%negb_true_iff. apply allowed_not; [by apply (oneOf_not _ _ _ Hn), (bool_decide_eq_true_1 _)|right; split_and!; by apply (oneOf_not _ _ _ Hn), (bool_decide_eq_true_1 _)]. }
  case_match eqn:E6; [apply isTag_eq in E6; eapply wp_mono; [by apply (wp_headScript n token mode N a)|]; intros did b' [-> ?]; by left|].
  case_match eqn:E7; [exfalso; apply (oneOf_not _ _ "template") in Hpage; [by apply isTag_eq in E7|by apply (bool_decide_eq_true_1 _)]|].
  case_match eqn:E8; [apply wp_ret; by left; left|]. apply wp_ret. split; [done|]. unfold oneOf, inHeadTags in *. cbn [existsb] in *. rewrite !orb_false_iff in E2. rewrite !orb_false_iff in E5. destruct E2 as (-> & -> & -> & -> & -> & -> & _), E5 as (-> & -> & _).
  by rewrite E1, E3, E4, E6, E7, E8.
Qed.

(** ** From one mode to the next *)

Lemma wp_toBeforeHTML N b : beforeRoot N b → wp defaultForInitial (λ _ b', m_insertionMode b' = BeforeHTML ∧ beforeRoot N b') b.
Proof.
  intros (_ & Hs & Hb). apply wp_bind, wp_onSite. eapply (wp_mono _ (λ _ s', blank N s')); [|intros [] s' ?; apply wp_modify; split; [done|split_and!; [by right|done..]]].
  unfold setDefaultCompatibilityMode. rewrite Hwhole. destruct isSrcdocDocument; [by apply wp_ret|]. apply wp_modify. destruct Hb as (He & [? ? ? ? ? ? ?] & ?). by split_and!.
Qed.

Lemma wp_htmlStart token N b : beforeRoot N b → tag_name token = text "html" → wp (onSite (insertHTMLHtmlStartTagBeforeHTML token);; setMode BeforeHead) (λ _ b', beforeHead N b') b.
Proof. intros (_ & Hs & Hb) Et. apply wp_bind, wp_onSite. eapply wp_mono; [by apply blank_html|]. intros [] s' ?. by apply wp_modify. Qed.

Lemma wp_headStart token N b : beforeHead N b → tag_name token = text "head" → wp (onSite (insertHTMLHeadElement token);; setMode InHead) (λ _ b', at_ InHead N [] false b') b.
Proof. intros (_ & Hs & Hb) Et. apply wp_bind, wp_onSite. eapply wp_mono; [by apply (rootSite_head Hcustom N token)|]. intros [] s' ?. by apply wp_modify. Qed.

Lemma wp_bodyStart token N b : at_ AfterHead N [] true b → tag_name token = text "body" → wp (setFramesetOk false;; onSite (insertHTMLBodyElement token);; setMode InBody) (λ _ b', on InBody N b' ∧ size b' = 2%nat) b.
Proof. intros (_ & Hs & Hb%headSite_root) Et. apply wp_bind, wp_modify, wp_bind, wp_onSite. eapply wp_mono; [by apply (rootSite_body Hcustom N token)|]. intros [] s' [? ?]. by apply wp_modify. Qed.

Lemma wp_toHead n N b : beforeHead N b → wp (defaultForBeforeHead (handlers (S n))) (λ _ b', at_ InHead N [] false b') b.
Proof.
  intros Hb. unfold defaultForBeforeHead, processFakeStartTag. cbn [handlers startTag]. unfold processStartTag. apply wp_bind, wp_gets. rewrite (proj1 Hb).
  change (startTagBeforeHead (handlers n) (newTag "head")) with (onSite (insertHTMLHeadElement (newTag "head"));; setMode InHead). by apply wp_headStart.
Qed.

Lemma wp_toAfterHead n N b : at_ InHead N [] false b → wp (defaultForInHead (handlers (S n))) (λ _ b', at_ AfterHead N [] true b') b.
Proof.
  intros (Hm & Hs & Hh). unfold defaultForInHead, processFakeEndTag. cbn [handlers endTag]. unfold processEndTag. apply wp_bind, wp_gets. rewrite Hm.
  change (endTagInHead (handlers n) (text "head")) with (openElements popHTMLHeadElement;; setMode AfterHead). apply wp_bind, wp_onSite. eapply wp_mono; [by apply headSite_popHead|]. intros [] s' ?. by apply wp_modify.
Qed.

Lemma wp_toBody n N b : at_ AfterHead N [] true b → wp (defaultForAfterHead (handlers (S n))) (λ _ b', on InBody N b' ∧ size b' = 2%nat) b.
Proof.
  intros Hat. unfold defaultForAfterHead, processFakeStartTag. apply wp_bind. cbn [handlers startTag]. unfold processStartTag. apply wp_bind, wp_gets. rewrite (proj1 Hat).
  change (startTagAfterHead (handlers n) (newTag "body")) with (setFramesetOk false;; onSite (insertHTMLBodyElement (newTag "body"));; setMode InBody). eapply wp_mono; [by apply (wp_bodyStart (newTag "body") N)|].
  intros [] b' [Hon Hsize]. apply wp_modify. split; [by apply (on_ext InBody N b')|done].
Qed.

Lemma wp_toInHead n x N b : at_ InHeadNoscript N [x] false b → named (text "noscript") x → wp (defaultForInHeadNoscript (handlers (S n))) (λ _ b', at_ InHead N [] false b' ∧ m_shouldSkipLeadingNewline b' = m_shouldSkipLeadingNewline b) b.
Proof.
  intros (Hm & Hs & Hh) Hx. unfold defaultForInHeadNoscript, processFakeEndTag. cbn [handlers endTag]. unfold processEndTag. apply wp_bind, wp_gets. rewrite Hm.
  change (endTagInHeadNoscript (handlers n) (text "noscript")) with (ASSERT_that (item ← current; mret (hasTagName (htmlName "noscript") item));; openElements pop;; ASSERT_that (item ← current; mret (hasTagName (htmlName "head") item));; setMode InHead).
  destruct (headSite_top _ _ _ _ _ Hh) as [l E]. apply wp_bind, wp_ASSERT_that.
  { apply wp_bind, wp_askSite. eapply wp_currentStackItem; [exact E|]. split; [done|]. apply wp_ret. split; [|done]. by apply named_matches in Hx. }
  apply wp_bind, wp_onSite. eapply wp_mono; [by eapply headSite_pop|]. intros [] s' Hh'. destruct (withHead_low _ _ _ (proj2 Hh')) as (_ & h & html & E' & Hhead & _). apply wp_bind, wp_ASSERT_that.
  { apply wp_bind, wp_askSite. eapply wp_currentStackItem; [exact E'|]. split; [done|]. by apply wp_ret. }
  by apply wp_modify.
Qed.

(** ** Start tags *)

(** A document that is parsed, at any stage. *)
Definition parsing (N : Z) (b : HTMLTreeBuilder) : Prop := beforeRoot N b ∨ beforeHead N b ∨ headMode N b ∨ headText N b ∨ ready N b.

Lemma parsing_head mode N a hidden b : layout mode a hidden → at_ mode N a hidden b → parsing N b.
Proof. intros Hl (Hm & Hs & Hh). right; right; left. exists a, hidden. by rewrite Hm. Qed.
Lemma parsing_text mode N a hidden b : layout mode a hidden → textAbove mode N a hidden b → parsing N b.
Proof. intros Hl Ht. right; right; right; left. by exists mode, a, hidden. Qed.
Lemma parsing_ready N b : ready N b → parsing N b.
Proof. intros Hr. by right; right; right; right. Qed.
Lemma parsing_done mode N a b : layout mode a false → headDone mode N a b → parsing N b.
Proof. intros Hl [Hat|Ht]; [by eapply parsing_head|by eapply parsing_text]. Qed.

(** A tag of the head after it: the head is put back for it. *)
Lemma wp_headAgain n token N b :
  at_ AfterHead N [] true b → legalStart token → tag_name token ≠ text "noscript" →
  wp (headItem ← gets (m_head ∘ m_tree);
      match headItem with
      | None => fault
      | Some headItem =>
          openElements (pushHTMLHeadElement headItem);;
          processStartTagForInHead (handlers (S n)) token;;
          head ← gets (m_head ∘ m_tree);
          match head with None => fault | Some head => element ← openElements (downcast head); openElements (removeHTMLHeadElement element) end
      end) (λ _ b', parsing N b') b.
Proof.
  intros (Hm & Hs & Hh) Hl Hn. destruct (withHead_low _ _ _ (proj2 Hh)) as (_ & h & html & _ & _ & Em). apply wp_bind, wp_gets. cbn [compose]. rewrite Em. apply wp_bind, wp_onSite. eapply wp_mono; [by apply (headSite_push N (m_item h))|]. intros [] s1 Hh1.
  assert (Hrest : ∀ a b', settled b' → headSite N a false (m_tree b') → (∀ s', headSite N a true s' → parsing N (set_site s' b')) →
    wp (head ← gets (m_head ∘ m_tree); match head with None => fault | Some head => element ← openElements (downcast head); openElements (removeHTMLHeadElement element) end) (λ _ b', parsing N b') b').
  { intros a b' Hs' Hh' Hdone. destruct (withHead_low _ _ _ (proj2 Hh')) as (_ & h' & html' & _ & _ & Em'). apply wp_bind, wp_gets. cbn [compose]. rewrite Em'. pose proof (headSite_remove N a (m_item h') (m_tree b') Hh' Em') as Hw.
    unfold wp, mbind, M_bind, openElements, onSite, part in *. destruct (onStack (downcast (m_item h')) (m_tree b')) as [[e s2]|]; [|done]. destruct (onStack (removeHTMLHeadElement e) s2) as [[[] s3]|] eqn:E3; [|done]. cbn. rewrite E3. by apply Hdone. }
  apply wp_bind. eapply wp_mono; [by apply (wp_forInHead n token AfterHead N [])|]. intros did b' Hpost. assert (Hpost' : headDone AfterHead N [] b').
  { destruct did; [destruct Hpost as [?|[? _]]; [done|by destruct Hn]|]. destruct Hpost as [-> _]. by left. }
  destruct Hpost' as [(Hm' & Hs' & Hh')|(Hm' & Ho' & Hs' & name & x & Hx & Hp & Hh')].
  - apply (Hrest []); [done..|]. intros s' ?. by apply (parsing_head AfterHead N [] true); [constructor|].
  - apply (Hrest [x]); [done..|]. intros s' ?. apply (parsing_text AfterHead N [] true); [constructor|]. split_and!; [done..|]. by exists name, x.
Qed.

Lemma legal_not token tag : legalStart token → tag ∈ ["frameset"; "table"; "select"; "template"] → isTag (tag_name token) tag = false.
Proof. intros [Hpage%negb_true_iff _] Hin. apply bool_decide_eq_false. by apply (oneOf_not _ _ _ Hpage). Qed.

Lemma wp_bodyToken n token N b : on InBody N b → size b = 2%nat → legalStart token → wp (assertMode InBody;; processStartTagForInBody (handlers (4 + n)) token) (λ _ b', parsing N b') b.
Proof.
  intros Hon Hsize Hl. apply wp_bind, wp_mode; [apply Hon|]. eapply wp_mono; [apply (wp_startInBody (2 + n) token N); [done|lia|done]|]. intros [] b' ?. by apply parsing_ready, started_ready.
Qed.

Lemma wp_startAfterHead n token N b : at_ AfterHead N [] true b → legalStart token → wp (startTagAfterHead (handlers (4 + n)) token) (λ _ b', parsing N b') b.
Proof.
  intros Hat Hl. unfold startTagAfterHead. case_match eqn:E1; [eapply wp_mono; [by apply (wp_headHtml token AfterHead N [] true)|]; intros [] b' ?; by apply (parsing_head AfterHead N [] true); [constructor|]|].
  case_match eqn:E2; [apply isTag_eq in E2; eapply wp_mono; [by apply (wp_bodyStart token N)|]; intros [] b' [? _]; apply parsing_ready; by left; left|].
  rewrite (legal_not token "frameset") by (done || by apply (bool_decide_eq_true_1 _)). case_match eqn:E4.
  { apply (wp_headAgain (3 + n) token N b Hat Hl). intros Et. rewrite Et in E4. discriminate E4. }
  case_match; [apply wp_ret; by apply (parsing_head AfterHead N [] true); [constructor|]|].
  apply wp_bind. eapply wp_mono; [by apply (wp_toBody (3 + n) N)|]. intros [] b' [Hon Hsize]. by apply wp_bodyToken.
Qed.

Lemma wp_startInHead n token N b : at_ InHead N [] false b → legalStart token → wp (startTagInHead (handlers (4 + n)) token) (λ _ b', parsing N b') b.
Proof.
  intros Hat Hl. unfold startTagInHead. apply wp_bind. eapply wp_mono; [by apply (wp_forInHead (3 + n) token InHead N [])|]. intros [] b'.
  - intros [Hd|[_ (x & Hx & Hat')]]; apply wp_ret; [by apply (parsing_done InHead N []); [constructor|]|]. by apply (parsing_head InHeadNoscript N [x] false); [constructor|].
  - intros [-> _]. apply wp_bind. eapply wp_mono; [by apply (wp_toAfterHead (3 + n) N)|]. intros [] b1 Hat1. apply wp_bind, wp_mode; [apply Hat1|]. by apply wp_startAfterHead.
Qed.

Lemma wp_startBeforeHead n token N b : beforeHead N b → legalStart token → wp (startTagBeforeHead (handlers (4 + n)) token) (λ _ b', parsing N b') b.
Proof.
  intros Hb Hl. unfold startTagBeforeHead. case_match eqn:E1.
  { destruct Hb as (Hm & Hs & Hr). eapply wp_templateTwice; [apply Hr|by right; left| |done]. apply wp_onSite. eapply wp_mono; [by apply rootSite_htmlAgain|]. intros [] s' ?. by right; left. }
  case_match eqn:E2; [apply isTag_eq in E2; eapply wp_mono; [by apply (wp_headStart token N)|]; intros [] b' ?; by apply (parsing_head InHead N [] false); [constructor|]|].
  apply wp_bind. eapply wp_mono; [by apply (wp_toHead (3 + n) N)|]. intros [] b1 Hat1. apply wp_bind, wp_mode; [apply Hat1|]. by apply wp_startInHead.
Qed.

Lemma wp_startBeforeHTML n token N b : beforeRoot N b → legalStart token → wp (startTagBeforeHTML (handlers (4 + n)) token) (λ _ b', parsing N b') b.
Proof.
  intros Hb Hl. unfold startTagBeforeHTML. case_match eqn:E1; [apply isTag_eq in E1; eapply wp_mono; [by apply (wp_htmlStart token N)|]; intros [] b' ?; by right; left|].
  apply wp_bind. eapply wp_mono; [by apply (wp_htmlStart (newTag "html") N)|]. intros [] b1 Hb1. apply wp_bind, wp_mode; [apply Hb1|]. by apply wp_startBeforeHead.
Qed.

(** The tags that stay in [noscript]. *)
Lemma wp_startInNoscript n token x N b :
  at_ InHeadNoscript N [x] false b → named (text "noscript") x → legalStart token →
  wp (if isTag (tag_name token) "html" then processHtmlStartTagForInBody token
      else if oneOf (tag_name token) ["basefont"; "bgsound"; "link"; "meta"; "noframes"; "style"] then asInHead (handlers (5 + n)) token
      else if isTag (tag_name token) "noscript" then mret tt
      else defaultForInHeadNoscript (handlers (5 + n));; modify (set_shouldSkipLeadingNewline false);; startTag (handlers (5 + n)) token) (λ _ b', parsing N b') b.
Proof.
  intros Hat Hx Hl. assert (Hback : ∀ b', at_ InHeadNoscript N [x] false b' → parsing N b') by (intros b' ?; by apply (parsing_head InHeadNoscript N [x] false); [constructor|]). case_match eqn:E1; [eapply wp_mono; [by apply (wp_headHtml token InHeadNoscript N [x] false)|]; intros [] b' ?; by apply Hback|].
  case_match eqn:E2.
  { unfold asInHead. apply wp_bind. eapply wp_mono; [by apply (wp_forInHead (4 + n) token InHeadNoscript N [x])|]. intros [] b'.
    - intros [Hd|[Et _]]; [apply wp_ASSERT; [done|]; by apply (parsing_done InHeadNoscript N [x]); [constructor|]|]. rewrite Et in E2. discriminate E2.
    - intros [_ Hno]. assert (Hyes : oneOf (tag_name token) inHeadTags = true) by (by eapply (oneOf_all (λ t, oneOf t inHeadTags) _ _ E2)). congruence. }
  case_match eqn:E3; [apply wp_ret; by apply Hback|]. apply wp_bind. eapply wp_mono; [by apply (wp_toInHead (4 + n) x N)|]. intros [] b1 [Hat1 _]. apply wp_bind, wp_modify.
  change (handlers (5 + n)) with (mkHandlers (processStartTag (handlers (4 + n))) (processEndTag (handlers (4 + n)))). cbn [startTag]. unfold processStartTag. apply wp_bind, wp_gets. cbn [m_insertionMode set_shouldSkipLeadingNewline]. rewrite (proj1 Hat1). by apply wp_startInHead.
Qed.

(** A start tag at any stage. *)
Definition beginning (N : Z) (b : HTMLTreeBuilder) : Prop := beforeRoot N b ∨ beforeHead N b ∨ headMode N b.

Lemma wp_startEarly n token N b : beginning N b → legalStart token → wp (startTag (handlers (6 + n)) token) (λ _ b', parsing N b') b.
Proof.
  intros Hb Hl. change (handlers (6 + n)) with (mkHandlers (processStartTag (handlers (5 + n))) (processEndTag (handlers (5 + n)))). cbn [startTag]. unfold processStartTag. apply wp_bind, wp_gets. destruct Hb as [Hb|[Hb|(a & hidden & Hlay & Hs & Hh)]].
  - pose proof Hb as ([-> | ->] & _); [|by apply (wp_startBeforeHTML (S n))]. apply wp_bind. eapply wp_mono; [by apply (wp_toBeforeHTML N)|]. intros [] b1 [Em Hb1]. apply wp_bind, wp_mode; [done|]. by apply (wp_startBeforeHTML (S n)).
  - rewrite (proj1 Hb). by apply (wp_startBeforeHead (S n)).
  - inversion Hlay as [Em Ea Eh|x Hx Em Ea Eh|Em Ea Eh]; subst.
    + by apply (wp_startInHead (S n)).
    + by apply (wp_startInNoscript n token x).
    + by apply (wp_startAfterHead (S n)).
Qed.

(** ** End tags *)

Lemma wp_endAfterHead n name N b : at_ AfterHead N [] true b → isTag name "template" = false → wp (endTagAfterHead (handlers (4 + n)) name) (λ _ b', parsing N b') b.
Proof.
  intros Hat Hn. unfold endTagAfterHead. case_match; [apply wp_ret; by apply (parsing_head AfterHead N [] true); [constructor|]|]. apply wp_bind. eapply wp_mono; [by apply (wp_toBody (3 + n) N)|]. intros [] b1 [Hon _].
  apply wp_bind, wp_mode; [apply Hon|]. eapply wp_mono; [by apply (wp_endInBodyAll (2 + n) name N)|]. intros [] b' ?. apply parsing_ready. by left.
Qed.

Lemma wp_endInHead n name N b : at_ InHead N [] false b → isTag name "template" = false → wp (endTagInHead (handlers (4 + n)) name) (λ _ b', parsing N b') b.
Proof.
  intros Hat Hn. unfold endTagInHead. rewrite Hn. case_match eqn:E1.
  { destruct Hat as (Hm & Hs & Hh). apply wp_bind, wp_onSite. eapply wp_mono; [by apply headSite_popHead|]. intros [] s' ?. apply wp_modify. by apply (parsing_head AfterHead N [] true); [constructor|]. }
  case_match; [apply wp_ret; by apply (parsing_head InHead N [] false); [constructor|]|]. apply wp_bind. eapply wp_mono; [by apply (wp_toAfterHead (3 + n) N)|]. intros [] b1 Hat1. apply wp_bind, wp_mode; [apply Hat1|]. by apply wp_endAfterHead.
Qed.

Lemma wp_endBeforeHead n name N b : beforeHead N b → isTag name "template" = false → wp (endTagBeforeHead (handlers (4 + n)) name) (λ _ b', parsing N b') b.
Proof.
  intros Hb Hn. unfold endTagBeforeHead. case_match; [apply wp_ret; by right; left|]. apply wp_bind. eapply wp_mono; [by apply (wp_toHead (3 + n) N)|]. intros [] b1 Hat1. apply wp_bind, wp_mode; [apply Hat1|]. by apply wp_endInHead.
Qed.

Lemma wp_endBeforeHTML n name N b : beforeRoot N b → isTag name "template" = false → wp (endTagBeforeHTML (handlers (4 + n)) name) (λ _ b', parsing N b') b.
Proof.
  intros Hb Hn. unfold endTagBeforeHTML. case_match; [apply wp_ret; by left|]. apply wp_bind. eapply wp_mono; [by apply (wp_htmlStart (newTag "html") N)|]. intros [] b1 Hb1. apply wp_bind, wp_mode; [apply Hb1|]. by apply wp_endBeforeHead.
Qed.

Lemma wp_endInNoscript n name x N b : at_ InHeadNoscript N [x] false b → named (text "noscript") x → isTag name "template" = false → wp (endTagInHeadNoscript (handlers (5 + n)) name) (λ _ b', parsing N b') b.
Proof.
  intros Hat Hx Hn. unfold endTagInHeadNoscript. case_match eqn:E1.
  { apply isTag_eq in E1 as ->. eapply (wp_mono _ (λ _ b', at_ InHead N [] false b' ∧ m_shouldSkipLeadingNewline b' = m_shouldSkipLeadingNewline b)); [|intros [] b' [? _]; by apply (parsing_head InHead N [] false); [constructor|]]. pose proof (wp_toInHead 0 x N b Hat Hx) as Hw. unfold defaultForInHeadNoscript, processFakeEndTag in Hw. cbn [handlers endTag] in Hw.
    unfold processEndTag in Hw. unfold wp in Hw at 1. unfold mbind at 1, M_bind at 1, gets at 1 in Hw. rewrite (proj1 Hat) in Hw. exact Hw. }
  case_match; [apply wp_ret; by apply (parsing_head InHeadNoscript N [x] false); [constructor|]|]. apply wp_bind. eapply wp_mono; [by apply (wp_toInHead (4 + n) x N)|]. intros [] b1 [Hat1 _]. apply wp_bind, wp_modify.
  change (handlers (5 + n)) with (mkHandlers (processStartTag (handlers (4 + n))) (processEndTag (handlers (4 + n)))). cbn [endTag]. unfold processEndTag. apply wp_bind, wp_gets. cbn [m_insertionMode set_shouldSkipLeadingNewline]. rewrite (proj1 Hat1). by apply wp_endInHead.
Qed.

Lemma wp_endEarly n name N b : beginning N b → isTag name "template" = false → wp (endTag (handlers (6 + n)) name) (λ _ b', parsing N b') b.
Proof.
  intros Hb Hn. change (handlers (6 + n)) with (mkHandlers (processStartTag (handlers (5 + n))) (processEndTag (handlers (5 + n)))). cbn [endTag]. unfold processEndTag. apply wp_bind, wp_gets. destruct Hb as [Hb|[Hb|(a & hidden & Hlay & Hs & Hh)]].
  - pose proof Hb as ([-> | ->] & _); [|by apply (wp_endBeforeHTML (S n))]. apply wp_bind. eapply wp_mono; [by apply (wp_toBeforeHTML N)|]. intros [] b1 [Em Hb1]. apply wp_bind, wp_mode; [done|]. by apply (wp_endBeforeHTML (S n)).
  - rewrite (proj1 Hb). by apply (wp_endBeforeHead (S n)).
  - inversion Hlay as [Em Ea Eh|x Hx Em Ea Eh|Em Ea Eh]; subst.
    + by apply (wp_endInHead (S n)).
    + by apply (wp_endInNoscript n name x).
    + by apply (wp_endAfterHead (S n)).
Qed.

(** ** The end of the file *)

Lemma wp_eofEarly fuel n N b : beginning N b → wp (processEndOfFile (2 + fuel) (handlers (S n))) (λ _ b', ending b') b.
Proof.
  assert (Hafter : ∀ again b', at_ AfterHead N [] true b' → wp (defaultForAfterHead (handlers (S n));; assertMode InBody;; endOfFileInTemplate again) (λ _ b', ending b') b').
  { intros again b' Hat. apply wp_bind. eapply wp_mono; [by apply (wp_toBody n N)|]. intros [] b1 [(Hm & Hset & [Hok _]) _]. apply wp_bind, wp_mode; [done|]. unfold endOfFileInTemplate. apply wp_bind, wp_gets. rewrite (proj1 Hset). by apply wp_popAll. }
  assert (Hhead : ∀ again b', at_ InHead N [] false b' → wp (defaultForInHead (handlers (S n));; assertMode AfterHead;; defaultForAfterHead (handlers (S n));; assertMode InBody;; endOfFileInTemplate again) (λ _ b', ending b') b').
  { intros again b' Hat. apply wp_bind. eapply wp_mono; [by apply (wp_toAfterHead n N)|]. intros [] b1 Hat1. apply wp_bind, wp_mode; [apply Hat1|]. by apply Hafter. }
  assert (Hbefore : ∀ again b', beforeHead N b' → wp (defaultForBeforeHead (handlers (S n));; assertMode InHead;; defaultForInHead (handlers (S n));; assertMode AfterHead;; defaultForAfterHead (handlers (S n));; assertMode InBody;; endOfFileInTemplate again) (λ _ b', ending b') b').
  { intros again b' Hb. apply wp_bind. eapply wp_mono; [by apply (wp_toHead n N)|]. intros [] b1 Hat1. apply wp_bind, wp_mode; [apply Hat1|]. by apply Hhead. }
  assert (Hroot : ∀ again b', beforeRoot N b' → wp (defaultForBeforeHTML;; assertMode BeforeHead;; defaultForBeforeHead (handlers (S n));; assertMode InHead;; defaultForInHead (handlers (S n));; assertMode AfterHead;; defaultForAfterHead (handlers (S n));; assertMode InBody;; endOfFileInTemplate again) (λ _ b', ending b') b').
  { intros again b' Hb. apply wp_bind. eapply wp_mono; [by apply (wp_htmlStart (newTag "html") N)|]. intros [] b1 Hb1. apply wp_bind, wp_mode; [apply Hb1|]. by apply Hbefore. }
  intros Hb. change (2 + fuel)%nat with (S (1 + fuel)). cbn [processEndOfFile]. apply wp_bind, wp_gets. destruct Hb as [Hb|[Hb|(a & hidden & Hlay & Hs & Hh)]].
  - pose proof Hb as ([-> | ->] & _); [|by apply Hroot]. apply wp_bind. eapply wp_mono; [by apply (wp_toBeforeHTML N)|]. intros [] b1 [Em Hb1]. apply wp_bind, wp_mode; [done|]. by apply Hroot.
  - rewrite (proj1 Hb). by apply Hbefore.
  - inversion Hlay as [Em Ea Eh|x Hx Em Ea Eh|Em Ea Eh]; subst.
    + by apply Hhead.
    + apply wp_bind. eapply wp_mono; [by apply (wp_toInHead n x N)|]. intros [] b1 [Hat1 _]. cbn [Nat.add processEndOfFile]. apply wp_bind, wp_gets. rewrite (proj1 Hat1). by apply Hhead.
    + by apply Hafter.
Qed.

(** ** Characters *)

Lemma span_length buffer spaces rest : spanSpaces buffer = (spaces, rest) → (lengthZ buffer = lengthZ spaces + lengthZ rest)%Z.
Proof.
  revert spaces rest. induction buffer as [|c buffer IH]; intros spaces rest; cbn [spanSpaces]; [by intros [= <- <-]|]. destruct (isHTMLSpace c); [|by intros [= <- <-]]. destruct (spanSpaces buffer) as [sp re]. intros [= <- <-].
  pose proof (IH _ _ eq_refl) as E. unfold lengthZ in *. cbn [length]. lia.
Qed.

Lemma at_more mode N N' a hidden b : (N ≤ N')%Z → at_ mode N a hidden b → at_ mode N' a hidden b.
Proof. intros Hle (Hm & Hs & Hh). split_and!; [done..|]. by eapply headSite_more. Qed.

Lemma parsing_more N N' b : (N ≤ N')%Z → parsing N b → parsing N' b.
Proof.
  intros Hle [(Hm & Hs & He & Hb)|[(Hm & Hs & He & Hr)|[(a & hidden & Hl & Hs & Hh)|[(mode & a & hidden & Hl & Hm & Ho & Hs & name & x & Hx & Hp & Hh)|Hr]]]].
  - left. split_and!; [done..|]. by split; [eapply early_more|].
  - right; left. split_and!; [done..|]. by split; [eapply early_more|].
  - right; right; left. exists a, hidden. split_and!; [done..|]. by eapply headSite_more.
  - right; right; right; left. exists mode, a, hidden. split; [done|]. split_and!; [done..|]. exists name, x. split_and!; [done..|]. by eapply headSite_more.
  - apply parsing_ready. by eapply ready_more.
Qed.

Lemma wp_leadingSpaces mode N a hidden buffer (Q : list Z → HTMLTreeBuilder → Prop) b :
  at_ mode N a hidden b → buffer ≠ [] → (N + lengthZ buffer ≤ textLimit)%Z → (∀ spaces rest b', lengthZ buffer = (lengthZ spaces + lengthZ rest)%Z → at_ mode (N + lengthZ spaces) a hidden b' → m_shouldSkipLeadingNewline b' = m_shouldSkipLeadingNewline b → Q rest b') → wp (insertLeadingWhitespace buffer) Q b.
Proof.
  intros Hat Hne Hl HQ. unfold insertLeadingWhitespace. apply wp_bind, wp_ASSERT; [by apply bool_decide_eq_true|]. destruct (spanSpaces buffer) as [spaces rest] eqn:Es. pose proof (span_length _ _ _ Es) as Hlen. pose proof (lengthZ_nonneg rest). pose proof (lengthZ_nonneg spaces).
  apply wp_bind. case_bool_decide as Esp; [apply wp_ret, wp_ret, (HQ spaces); [done| |done]; eapply at_more; [|exact Hat]; lia|]. destruct Hat as (Hm & Hs & Hh). apply wp_onSite. eapply wp_mono; [apply (headSite_text Hbreak N spaces); [done|lia]|].
  intros [] s' ?. by apply wp_ret, (HQ spaces).
Qed.

(** Everything was taken. *)
Definition consumed (N : Z) (rest : list Z) (b : HTMLTreeBuilder) : Prop := rest = [] ∧ parsing N b.

Lemma wp_unlessEmpty mode N' N a hidden rest (m : BM (list Z)) b :
  layout mode a hidden → at_ mode N a hidden b → (N ≤ N')%Z → (rest ≠ [] → wp m (consumed N') b) → wp (unlessEmpty rest m) (consumed N') b.
Proof.
  intros Hlay Hat Hle Hm. unfold unlessEmpty. case_bool_decide; [|by apply Hm]. apply wp_ret. split; [done|]. eapply parsing_more; [exact Hle|]. by eapply parsing_head.
Qed.

Lemma wp_charsAfterHead n buffer N b :
  at_ AfterHead N [] true b → buffer ≠ [] → (N + lengthZ buffer ≤ textLimit)%Z →
  wp (rest ← insertLeadingWhitespace buffer; unlessEmpty rest (defaultForAfterHead (handlers (S n));; assertMode InBody;; processCharacterBufferForInBody rest;; mret [])) (consumed (N + lengthZ buffer)) b.
Proof.
  intros Hat Hne Hl. apply wp_bind. eapply wp_leadingSpaces; [done..|]. intros spaces rest b1 Elen Hat1 _. pose proof (lengthZ_nonneg rest). eapply wp_unlessEmpty; [constructor|done|lia|]. intros Hr.
  apply wp_bind. eapply wp_mono; [by apply (wp_toBody n (N + lengthZ spaces))|]. intros [] b2 [Hon _]. apply wp_bind, wp_mode; [apply Hon|]. apply wp_bind. eapply wp_mono; [apply (wp_bodyText (N + lengthZ spaces)); [done|lia]|].
  intros [] b3 Hon3. apply wp_ret. split; [done|]. apply parsing_ready. left; left. replace (N + lengthZ buffer)%Z with (N + lengthZ spaces + lengthZ rest)%Z by lia. done.
Qed.

Lemma wp_charsInHead n buffer N b :
  at_ InHead N [] false b → buffer ≠ [] → (N + lengthZ buffer ≤ textLimit)%Z →
  wp (rest ← insertLeadingWhitespace buffer; unlessEmpty rest (defaultForInHead (handlers (S n));; assertMode AfterHead;;
      rest ← insertLeadingWhitespace rest; unlessEmpty rest (defaultForAfterHead (handlers (S n));; assertMode InBody;; processCharacterBufferForInBody rest;; mret []))) (consumed (N + lengthZ buffer)) b.
Proof.
  intros Hat Hne Hl. apply wp_bind. eapply wp_leadingSpaces; [done..|]. intros spaces rest b1 Elen Hat1 _. pose proof (lengthZ_nonneg rest). eapply wp_unlessEmpty; [constructor|done|lia|]. intros Hr.
  apply wp_bind. eapply wp_mono; [by apply (wp_toAfterHead n (N + lengthZ spaces))|]. intros [] b2 Hat2. apply wp_bind, wp_mode; [apply Hat2|]. replace (N + lengthZ buffer)%Z with (N + lengthZ spaces + lengthZ rest)%Z by lia. apply wp_charsAfterHead; [done..|lia].
Qed.

(** Spaces are left out before the head. *)
Lemma wp_skipSpaces N N' (m : list Z → BM (list Z)) buffer b :
  parsing N b → (N ≤ N')%Z → buffer ≠ [] → (∀ rest, rest ≠ [] → (lengthZ rest ≤ lengthZ buffer)%Z → wp (m rest) (consumed N') b) → wp (rest ← skipLeadingWhitespace buffer; unlessEmpty rest (m rest)) (consumed N') b.
Proof.
  intros Hp Hle Hne Hm. unfold skipLeadingWhitespace. apply wp_bind, wp_bind, wp_ASSERT; [by apply bool_decide_eq_true|]. apply wp_ret. destruct (spanSpaces buffer) as [spaces rest] eqn:Es. pose proof (span_length _ _ _ Es). pose proof (lengthZ_nonneg spaces). cbn [snd].
  unfold unlessEmpty. case_bool_decide; [apply wp_ret; split; [done|by eapply parsing_more]|]. apply Hm; [done|lia].
Qed.

Lemma consumed_more N N' rest b : (N ≤ N')%Z → consumed N rest b → consumed N' rest b.
Proof. intros Hle [-> Hp]. split; [done|by eapply parsing_more]. Qed.

(** The characters at any stage before the body. *)
Lemma wp_charsEarly fuel n buffer N b :
  m_shouldSkipLeadingNewline b = false → beginning N b → buffer ≠ [] → (N + lengthZ buffer ≤ textLimit)%Z → wp (processCharacterBuffer (2 + fuel) (handlers (S n)) buffer) (consumed (N + lengthZ buffer)) b.
Proof.
  intros Esk Hb Hne Hl. pose proof (lengthZ_nonneg buffer) as Hpos. change (2 + fuel)%nat with (S (1 + fuel)). cbn [processCharacterBuffer]. apply wp_bind, wp_gets. rewrite Esk. apply wp_bind, wp_ret. cbn [andb]. apply wp_bind, wp_gets.
  assert (Hhead : ∀ b' rest, beforeHead N b' → rest ≠ [] → (lengthZ rest ≤ lengthZ buffer)%Z →
    wp (rest ← skipLeadingWhitespace rest; unlessEmpty rest (defaultForBeforeHead (handlers (S n));; assertMode InHead;;
      rest ← insertLeadingWhitespace rest; unlessEmpty rest (defaultForInHead (handlers (S n));; assertMode AfterHead;;
      rest ← insertLeadingWhitespace rest; unlessEmpty rest (defaultForAfterHead (handlers (S n));; assertMode InBody;; processCharacterBufferForInBody rest;; mret [])))) (consumed (N + lengthZ buffer)) b').
  { intros b' rest Hb' Hr Hle. eapply (wp_skipSpaces N); [by right; left|lia|done|]. intros rest' Hr' Hle'. apply wp_bind. eapply wp_mono; [by apply (wp_toHead n N)|]. intros [] b1 Hat1. apply wp_bind, wp_mode; [apply Hat1|].
    eapply wp_mono; [apply (wp_charsInHead n rest' N); [done..|lia]|]. intros r b2. apply consumed_more. lia. }
  assert (Hroot : ∀ b' rest, beforeRoot N b' → rest ≠ [] → (lengthZ rest ≤ lengthZ buffer)%Z →
    wp (rest ← skipLeadingWhitespace rest; unlessEmpty rest (defaultForBeforeHTML;; assertMode BeforeHead;;
      rest ← skipLeadingWhitespace rest; unlessEmpty rest (defaultForBeforeHead (handlers (S n));; assertMode InHead;;
      rest ← insertLeadingWhitespace rest; unlessEmpty rest (defaultForInHead (handlers (S n));; assertMode AfterHead;;
      rest ← insertLeadingWhitespace rest; unlessEmpty rest (defaultForAfterHead (handlers (S n));; assertMode InBody;; processCharacterBufferForInBody rest;; mret []))))) (consumed (N + lengthZ buffer)) b').
  { intros b' rest Hb' Hr Hle. eapply (wp_skipSpaces N); [by left|lia|done|]. intros rest' Hr' Hle'. apply wp_bind. eapply wp_mono; [by apply (wp_htmlStart (newTag "html") N)|]. intros [] b1 Hb1. apply wp_bind, wp_mode; [apply Hb1|]. apply Hhead; [done..|lia]. }
  destruct Hb as [Hb|[Hb|(a & hidden & Hlay & Hs & Hh)]].
  - pose proof Hb as ([-> | ->] & _); [|by apply Hroot]. eapply (wp_skipSpaces N); [by left|lia|done|]. intros rest Hr Hle. apply wp_bind. eapply wp_mono; [by apply (wp_toBeforeHTML N)|]. intros [] b1 [Em Hb1]. apply wp_bind, wp_mode; [done|]. by apply Hroot.
  - rewrite (proj1 Hb). by apply Hhead.
  - inversion Hlay as [Em Ea Eh|x Hx Em Ea Eh|Em Ea Eh]; subst.
    + by apply wp_charsInHead.
    + apply wp_bind. eapply (wp_leadingSpaces InHeadNoscript N [x] false); [done..|]. intros spaces rest b1 Elen Hat1 Esk1. pose proof (lengthZ_nonneg rest). eapply (wp_unlessEmpty InHeadNoscript); [by constructor|done|lia|]. intros Hr.
      apply wp_bind. eapply wp_mono; [by apply (wp_toInHead n x (N + lengthZ spaces))|]. intros [] b2 [Hat2 Esk2]. cbn [Nat.add processCharacterBuffer]. apply wp_bind, wp_gets. rewrite Esk2, Esk1, Esk. apply wp_bind, wp_ret. cbn [andb]. apply wp_bind, wp_gets. rewrite (proj1 Hat2).
      replace (N + lengthZ buffer)%Z with (N + lengthZ spaces + lengthZ rest)%Z by lia. apply wp_charsInHead; [done..|lia].
    + by apply wp_charsAfterHead.
Qed.

Lemma textAbove_site mode N N' a hidden s' b : textAbove mode N a hidden b → (∀ x, headSite N (x :: a) hidden (m_tree b) → headSite N' (x :: a) hidden s') → textAbove mode N' a hidden (set_site s' b).
Proof. intros (Hm & Ho & Hs & name & x & Hx & Hp & Hh) Hs'. split_and!; [done..|]. exists name, x. split_and!; [done..|]. by apply Hs'. Qed.

Lemma parsing_cases N b : parsing N b → beginning N b ∨ headText N b ∨ ready N b.
Proof. intros [?|[?|[?|[?|?]]]]; [by left; left|by left; right; left|by left; right; right|by right; left|by right; right]. Qed.

Lemma parsing_skip N skip b : parsing N b → parsing N (set_shouldSkipLeadingNewline skip b).
Proof.
  intros [Hb|[Hb|[(a & hidden & Hl & Hs & Hh)|[(mode & a & hidden & Hl & Ht)|Hr]]]]; [by left|by right; left|right; right; left; by exists a, hidden|right; right; right; left; by exists mode, a, hidden|]. apply parsing_ready. by eapply ready_ext.
Qed.

Lemma wp_bufferAll fuel n buffer N b :
  m_shouldSkipLeadingNewline b = false → parsing N b → buffer ≠ [] → (N + lengthZ buffer ≤ textLimit)%Z → wp (processCharacterBuffer (2 + fuel) (handlers (S n)) buffer) (consumed (N + lengthZ buffer)) b.
Proof.
  intros Esk [Hb|[(mode & a & hidden & Hlay & Ht)|Hr]]%parsing_cases Hne Hl; [by apply wp_charsEarly| |eapply wp_mono; [by apply wp_buffer|]; intros rest b' [-> ?]; split; [done|by apply parsing_ready]].
  change (2 + fuel)%nat with (S (1 + fuel)). cbn [processCharacterBuffer]. apply wp_bind, wp_gets. rewrite Esk. apply wp_bind, wp_ret. cbn [andb]. apply wp_bind, wp_gets. rewrite (proj1 Ht). pose proof Ht as (_ & _ & _ & name & x & _ & _ & Hh).
  apply wp_bind, wp_onSite. eapply wp_mono; [by apply (headSite_text Hbreak N buffer)|]. intros [] s' Hh'. apply wp_ret. split; [done|]. apply (parsing_text mode _ a hidden); [done|]. destruct Ht as (Hm & Ho & Hs & name' & x' & Hx & Hp & Hh2). split_and!; [done..|].
  exists name', x'. split_and!; [done..|]. destruct (headSite_top _ _ _ _ _ Hh) as [l E]. destruct (headSite_top _ _ _ _ _ Hh2) as [l2 E2]. rewrite E in E2. by injection E2 as <- _.
Qed.

Lemma wp_charactersAll n characters N b : parsing N b → characters ≠ [] → (N + lengthZ characters ≤ textLimit)%Z → wp (processCharacter (handlers (S n)) characters) (λ _ b', parsing (N + lengthZ characters) b') b.
Proof.
  intros Hr Hc Hl. apply wp_bind, wp_ASSERT; [by apply bool_decide_eq_true|]. apply wp_bind. eapply (wp_mono _ (consumed (N + lengthZ characters))).
  - destruct (m_shouldSkipLeadingNewline b) eqn:Esk; [|by apply wp_bufferAll]. pose proof (skip_length characters) as Hskip. set (b1 := set_shouldSkipLeadingNewline false b). assert (Hr1 : parsing N b1) by (by apply parsing_skip).
    destruct (decide (skipAtMostOneLeadingNewline characters = [])) as [Es|Es].
    + unfold wp. rewrite (buffer_skipAll (1 + length characters)) by done. split; [done|]. eapply parsing_more; [|exact Hr1]. pose proof (lengthZ_nonneg characters). lia.
    + unfold wp. rewrite (buffer_skip (1 + length characters)) by done. eapply wp_mono; [apply (wp_bufferAll (length characters) n (skipAtMostOneLeadingNewline characters) N b1); [done..|lia]|].
      intros rest b'. apply consumed_more. lia.
  - intros rest b' [-> ?]. by apply wp_ASSERT.
Qed.

(** ** Comments and document types *)

Lemma layout_mode mode a hidden : layout mode a hidden → mode = InHead ∨ mode = InHeadNoscript ∨ mode = AfterHead.
Proof. intros [|x _|]; auto. Qed.

(** The token was processed, its tasks are not run. *)
Definition processed (N : Z) (b : HTMLTreeBuilder) : Prop :=
  (m_insertionMode b = Initial ∨ m_insertionMode b = BeforeHTML) ∧ settled b ∧ blankQueued N (m_tree b) ∨ parsing N b.

Lemma wp_commentAll fuel comment N b : parsing N b → wp (processComment (S fuel) comment) (λ _ b', processed (N + lengthZ comment) b') b.
Proof.
  intros [[Hb|[Hb|(a & hidden & Hlay & Hs & Hh)]]|[(mode & a & hidden & Hlay & Ht)|Hr]]%parsing_cases; [..|eapply wp_mono; [by apply wp_comment|]; intros [] b' ?; right; by apply parsing_ready].
  all: cbn [processComment]; apply wp_bind, wp_gets.
  - destruct Hb as (Hm & Hs & Hb). assert (Hw : wp (onSite (insertCommentOnDocument comment)) (λ _ b', processed (N + lengthZ comment) b') b); [|by destruct Hm as [-> | ->]].
    apply wp_onSite. eapply wp_mono; [by apply (blank_comment Hdepth N comment)|]. intros [] s' ?. by left.
  - destruct Hb as (Em & Hs & Hb). rewrite Em. apply wp_onSite. eapply wp_mono; [by apply (rootSite_comment N comment)|]. intros [] s' ?. right. by right; left.
  - assert (Hw : wp (onSite (insertComment comment)) (λ _ b', processed (N + lengthZ comment) b') b); [|by destruct (layout_mode _ _ _ Hlay) as [-> |[-> | ->]]].
    apply wp_onSite. eapply wp_mono; [by apply (headSite_commentHere N comment a hidden)|]. intros [] s' ?. right. right; right; left. by exists a, hidden.
  - pose proof Ht as (-> & Ho & Hs & name & x & Hx & Hp & Hh). apply wp_onSite. eapply wp_mono; [by apply (headSite_commentHere N comment (x :: a) hidden)|]. intros [] s' ?. right. apply (parsing_text mode _ a hidden); [done|]. split_and!; [by destruct Ht|done..|]. by exists name, x.
Qed.

Lemma wp_doctypeAll fuel doctype N b : parsing N b → wp (processDoctypeToken (S fuel) doctype) (λ _ b', processed N b') b.
Proof.
  intros Hp. cbn [processDoctypeToken]. apply wp_bind, wp_gets. pose proof (parsing_cases _ _ Hp) as [[Hb|[Hb|(a & hidden & Hlay & _)]]|[(mode & a & hidden & _ & Ht)|Hr]].
  - pose proof Hb as ([-> | ->] & Hs & Hbl); [|apply wp_ret; by right]. apply wp_bind, wp_onSite. eapply wp_mono; [by apply (blank_doctype Hdepth N doctype)|]. intros [] s' ?. apply wp_modify. left. split_and!; [by right|done..].
  - rewrite (proj1 Hb). apply wp_ret. by right.
  - assert (Hw : wp (mret tt) (λ _ b', processed N b') b) by (apply wp_ret; by right). by destruct (layout_mode _ _ _ Hlay) as [-> |[-> | ->]].
  - rewrite (proj1 Ht). apply wp_ret. by right.
  - assert (Hw : wp (mret tt) (λ _ b', processed N b') b) by (apply wp_ret; by right). destruct Hr as [[Hon|[Hon|Hon]]|Ht]; [pose proof (proj1 Hon) as Em..|pose proof (proj1 Ht) as Em]; by rewrite Em.
Qed.

(** ** One token *)

Definition outcomeOf (token : AtomicHTMLToken) (N : Z) (b : HTMLTreeBuilder) : Prop := if isTokenOf token HTMLToken.EndOfFile then ending b else processed (N + lengthOf token) b.

Lemma after_outcome token N b : after token N b → outcomeOf token N b.
Proof. unfold after, outcomeOf. case_match; [done|]. intros ?. right. by apply parsing_ready. Qed.

Lemma headText_eof fuel n N b : headText N b → wp (processEndOfFile (3 + fuel) (handlers (S n))) (λ _ b', ending b') b.
Proof.
  intros (mode & a & hidden & Hlay & Hm & Ho & Hs & name & x & Hx & Hp & Hh). change (3 + fuel)%nat with (S (2 + fuel)). cbn [processEndOfFile]. apply wp_bind, wp_gets. rewrite Hm. destruct (headSite_top _ _ _ _ _ Hh) as [l E].
  apply wp_bind, wp_askSite. eapply wp_currentStackItem; [exact E|]. split; [done|]. apply wp_bind, wp_onSite. eapply wp_mono; [by eapply headSite_pop|]. intros [] s' Hh'. apply wp_bind, wp_gets. cbn [m_originalInsertionMode set_site]. rewrite Ho.
  apply wp_bind, wp_ASSERT; [by destruct (layout_mode _ _ _ Hlay) as [-> |[-> | ->]]|]. apply wp_bind. unfold restoreMode. apply wp_modify. cbn [m_originalInsertionMode set_site]. rewrite Ho. apply (wp_eofEarly fuel n N). right; right. by exists a, hidden.
Qed.

Lemma wp_tokenAll n token N b : parsing N b → (size b ≤ n)%nat → legal b token → (N + lengthOf token ≤ textLimit)%Z → wp (processToken (6 + n) token) (λ _ b', outcomeOf token N b') b.
Proof.
  intros Hp Hsize Hl Hlim. set (b1 := set_shouldSkipLeadingNewline false b). assert (Hp1 : parsing N b1) by (by apply parsing_skip). unfold outcomeOf. pose proof (parsing_cases _ _ Hp1) as [Hb|[Ht|Hr]].
  3: { assert (Hr0 : ready N b) by (by eapply (ready_ext N b1)). eapply wp_mono; [apply (wp_token (2 + n) token N); [done|lia|done..]|]. intros [] b'. apply after_outcome. }
  - destruct token as [doctype|tag|tag|comment|characters|]; cbn [isTokenOf lengthOf legal processToken] in *.
    + apply wp_bind, wp_modify. rewrite Z.add_0_r. by apply (wp_doctypeAll 1).
    + apply wp_bind, wp_modify. rewrite Z.add_0_r. eapply wp_mono; [apply (wp_startEarly n tag N); [done|apply Hl]|]. intros [] b' ?. by right.
    + apply wp_bind, wp_modify. rewrite Z.add_0_r. eapply wp_mono; [apply (wp_endEarly n (tag_name tag) N); [done|apply bool_decide_eq_false, Hl]|]. intros [] b' ?. by right.
    + apply wp_bind, wp_modify. by apply (wp_commentAll 1).
    + eapply wp_mono; [by apply (wp_charactersAll (5 + n) characters N)|]. intros [] b' ?. by right.
    + apply wp_bind, wp_modify. by apply (wp_eofEarly (4 + n) (5 + n) N).
  - pose proof Ht as (mode & a & hidden & Hlay & Hta). destruct token as [doctype|tag|tag|comment|characters|]; cbn [isTokenOf lengthOf legal processToken] in *.
    + apply wp_bind, wp_modify. rewrite Z.add_0_r. by apply (wp_doctypeAll 1).
    + destruct Hl as [_ Hm]. destruct Hm. apply Hta.
    + destruct Hl as [Hn Hm]. apply wp_bind, wp_modify. fold b1. rewrite Z.add_0_r. change (handlers (6 + n)) with (mkHandlers (processStartTag (handlers (5 + n))) (processEndTag (handlers (5 + n)))). cbn [endTag]. unfold processEndTag. apply wp_bind, wp_gets. rewrite (proj1 Hta).
      eapply wp_mono; [apply (wp_endHeadText (tag_name tag) mode N a hidden); [done|]|intros [] b' ?; right; by apply (parsing_head mode N a hidden)]. intros Hs%isTag_eq. apply Hm; [apply Hta|done].
    + apply wp_bind, wp_modify. by apply (wp_commentAll 1).
    + eapply wp_mono; [by apply (wp_charactersAll (5 + n) characters N)|]. intros [] b' ?. by right.
    + apply wp_bind, wp_modify. by apply (headText_eof (3 + n) (5 + n) N).
Qed.

(** ** The step *)

(** Before the body no foreign element is open. *)
Definition plainTop (b : HTMLTreeBuilder) : Prop := m_stackDepth (m_openElements (m_tree b)) = 0%Z ∨ ∃ r l, records (m_tree b) = r :: l ∧ isInHTMLNamespace (m_item r) = true.

Lemma wp_notForeign token (Q : bool → HTMLTreeBuilder → Prop) b : plainTop b → Q false b → wp (shouldProcessTokenInForeignContent token) Q b.
Proof.
  intros Ht HQ. unfold shouldProcessTokenInForeignContent. apply wp_bind, wp_askSite, wp_gets. split; [done|]. case_bool_decide as Hd; [by apply wp_ret|]. destruct Ht as [?|(r & l & E & Hns)]; [done|].
  apply wp_bind. eapply wp_adjusted; [done..|]. apply wp_ret. by rewrite Hns.
Qed.

Lemma blank_depth N b : blankQueued N (m_tree b) → m_stackDepth (m_openElements (m_tree b)) = 0%Z.
Proof. intros (_ & [_ _ _ Hwf Ek _ _] & _). rewrite (wf_depth _ Hwf), Ek. reflexivity. Qed.

Lemma tag_namespace tag item : hasTagName (htmlName tag) item = true → isInHTMLNamespace item = true.
Proof. intros [_ Hn]%andb_true_iff. unfold isInHTMLNamespace. rewrite bool_decide_eq_true in Hn. cbn in Hn. by rewrite Hn. Qed.

Lemma root_namespace s r : siteOk s → records s = [r] → isInHTMLNamespace (m_item r) = true.
Proof.
  intros Hok E. pose proof (wf_rooted _ (ok_stack _ (ok_shape _ Hok))) as Hr. unfold rooted in Hr. rewrite E in Hr. destruct Hr as (_ & Hr & _). unfold isRootItem, isRootNode in Hr. apply andb_true_iff in Hr as [[Hf|Hh]%orb_true_iff _]; [unfold isInHTMLNamespace; by rewrite Hf, orb_true_r|by eapply tag_namespace].
Qed.

Lemma named_namespace name x : named name x → isInHTMLNamespace (m_item x) = true.
Proof. intros [_ Hn]. unfold isInHTMLNamespace. by rewrite Hn. Qed.

Lemma early_plain N b : beginning N b ∨ headText N b → plainTop b.
Proof.
  intros [[(_ & _ & He & Hb & Eq)|[(_ & _ & _ & Hok & r & E)|(a & hidden & Hlay & _ & Hh)]]|(mode & a & hidden & _ & _ & _ & _ & name & x & Hx & _ & Hh)].
  - left. destruct Hb as [_ _ _ Hwf Ek _ _]. rewrite (wf_depth _ Hwf), Ek. reflexivity.
  - right. exists r, []. split; [done|by eapply root_namespace].
  - right. destruct (withHead_low _ _ _ (proj2 Hh)) as (Hok & h & html & E & Hhead & _). inversion Hlay as [Em Ea Eh|x Hx Em Ea Eh|Em Ea Eh]; subst; cbn [app] in E.
    + exists h, [html]. split; [done|]. by eapply tag_namespace.
    + exists x, [h; html]. split; [done|]. by eapply named_namespace.
    + exists html, []. split; [done|]. by eapply root_namespace.
  - right. destruct (headSite_top _ _ _ _ _ Hh) as [l E]. exists x, l. split; [done|]. by eapply named_namespace.
Qed.

Lemma wp_isForeignEarly (Q : bool → HTMLTreeBuilder → Prop) b : plainTop b → (∀ answer, Q answer b) → wp isInForeignContent Q b.
Proof.
  intros Ht HQ. unfold isInForeignContent. apply wp_bind, wp_askSite, wp_gets. split; [done|]. case_bool_decide as Hd; [by apply wp_ret|]. destruct Ht as [?|(r & l & E & Hns)]; [done|].
  apply wp_bind. eapply wp_adjusted; [done..|]. apply wp_bind, wp_askSite. eapply wp_currentStackItem; [exact E|]. split; [done|]. by apply wp_ret.
Qed.

Lemma wp_settleAll N b : processed N b → wp settle (λ _ b', parsing N b' ∧ m_taskQueue (m_tree b') = []) b.
Proof.
  intros Hp. assert (Hrun : plainTop b → wp executeQueuedTasks (λ _ s', (∀ t, parsing N (set_site s' (set_tokenizer t b))) ∧ m_taskQueue s' = []) (m_tree b) → wp settle (λ _ b', parsing N b' ∧ m_taskQueue (m_tree b') = []) b).
  { intros Ht Hw. unfold settle. apply wp_bind, wp_isForeignEarly; [done|]. intros answer. apply wp_bind, wp_gets, wp_bind, wp_modify, wp_bind, wp_modify, wp_onSite. eapply wp_mono; [exact Hw|]. intros [] s' [Hs' Eq]. split; [|done]. apply Hs'. }
  destruct Hp as [(Hm & Hs & Hb)|[Hb|[Hr|Hr]]%parsing_cases]; [..|eapply wp_mono; [by apply wp_settle|]; intros [] b' [? ?]; split; [by apply parsing_ready|done]].
  - apply Hrun; [left; by eapply blank_depth|]. eapply wp_mono; [by apply (blank_queue Hdepth N)|]. intros [] s' Hb'. split; [|apply Hb']. intros t. by left.
  - apply Hrun; [apply (early_plain N); by left|]. destruct Hb as [(Hm & Hs & Hb)|[(Hm & Hs & Hb)|(a & hidden & Hlay & Hs & Hh)]].
    + eapply wp_mono; [apply (blank_queue Hdepth N)|].
      * destruct Hb as (He & Hb & Eq). split_and!; [done..|]. rewrite Eq. apply wp_ret. split; [apply Hb|done].
      * intros [] s' Hb'. split; [|apply Hb']. intros t. by left.
    + eapply wp_mono; [by apply (rootSite_queue N)|]. intros [] s' [Hb' Eq]. split; [|done]. intros t. by right; left.
    + eapply wp_mono; [by apply (headSite_queue N a hidden)|]. intros [] s' [Hb' Eq]. split; [|done]. intros t. right; right; left. by exists a, hidden.
  - apply Hrun; [apply (early_plain N); by right|]. destruct Hr as (mode & a & hidden & Hlay & Hm & Ho & Hs & name & x & Hx & Hp & Hh). eapply wp_mono; [by apply (headSite_queue N (x :: a) hidden)|]. intros [] s' [Hb' Eq]. split; [|done]. intros t.
    right; right; right; left. exists mode, a, hidden. split; [done|]. split_and!; [done..|]. by exists name, x.
Qed.

Lemma constructTree_parsing token N b :
  parsing N b → legal b token → (N + lengthOf token ≤ textLimit)%Z →
  wp (constructTree token) (λ _ b', if isTokenOf token HTMLToken.EndOfFile then ended b' else parsing (N + lengthOf token) b' ∧ m_taskQueue (m_tree b') = []) b.
Proof.
  intros Hp Hl Hlim. assert (Hearly : beginning N b ∨ headText N b → wp (constructTree token) (λ _ b', if isTokenOf token HTMLToken.EndOfFile then ended b' else parsing (N + lengthOf token) b' ∧ m_taskQueue (m_tree b') = []) b).
  - intros He. unfold constructTree, depth. apply wp_bind, wp_gets. change (16 + length (m_top (m_openElements (m_tree b))))%nat with (6 + (10 + size b))%nat. apply wp_bind, wp_notForeign; [by eapply early_plain|]. apply wp_bind.
    change (wp (processToken (6 + (10 + size b)) token) (λ _ b', wp settle (λ _ b', if isTokenOf token HTMLToken.EndOfFile then ended b' else parsing (N + lengthOf token) b' ∧ m_taskQueue (m_tree b') = []) b') b).
    eapply wp_mono; [apply (wp_tokenAll _ token N); [done|lia|done..]|]. intros [] b' Ha. unfold outcomeOf in Ha. destruct (isTokenOf token HTMLToken.EndOfFile); [by apply wp_settleEnding|by apply wp_settleAll].
  - apply parsing_cases in Hp as [Hb|[Ht|Hr]]; [by apply Hearly; left|by apply Hearly; right|]. eapply wp_mono; [by apply (constructTree_page token N)|]. intros [] b'. case_match; [done|]. intros [? ?]. split; [by apply parsing_ready|done].
Qed.

End Quiet.
