(* ===== verification/TreeBuilderExamples.v ===== *)
(** * Documents parsed by the tree builder

    Runs of the whole tree builder on small documents: the tokens are given, the tree is
    computed. They show what misnested markup becomes, and that the end tag of a form
    closes two forms. *)

From Stdlib Require Import String.
From S2P Require Import Prelude HTMLTokenizer HTMLStackItem HTMLElementStack ContainerNode ContainerNodeTheorems TreeOrder HTMLConstructionSite TreeTasks SiteInvariant SiteTheorems HTMLTreeBuilder.

#[local] Open Scope string_scope.
#[local] Open Scope list_scope.

(** A builder without the generated names of SVG and MathML, for a document. *)
Definition exampleBuilder : TreeBuilder :=
  {| options := mkOptions true false false 512; contextElementStackItem := itemOfFragment 1; getSVGTags := []; getSVGAttrs := []; getMathMLAttrs := []; getXLinkAttrs := []; getXMLAttrs := [] |}.
Definition debugBuild : Build := {| ASSERT_DISABLED := false |}.

Fixpoint constructAll (tokens : list AtomicHTMLToken) : BM unit :=
  match tokens with [] => mret tt | token :: tokens => @constructTree debugBuild quiet exampleParser exampleBuilder token;; constructAll tokens end.

(** The tree below a node: the tags and the text. *)
#[warnings="-automation"]
Inductive Shape := Tag (name : string) (children : list Shape) | Chars (characters : list Z) | Other (children : list Shape).
Definition stringOf (characters : list Z) : string := String.string_of_list_ascii ((λ c, Ascii.ascii_of_nat (Z.to_nat c)) <$> characters).
Fixpoint shape (fuel : nat) (site : HTMLConstructionSite) (node : positive) : Shape :=
  match fuel with
  | O => Other []
  | S fuel =>
      let inside n := shape fuel site <$> childList (doc site) n in
      let children := inside node ++ (match contents (tree site) !! node with Some c => inside c | None => [] end) in
      match doc site !! node with
      | None => Other []
      | Some n =>
          match tagQName n, nodeType n with
          | Some q, _ => Tag (stringOf (localName q)) children
          | None, TEXT_NODE => Chars (default [] (dataOf site !! node))
          | None, _ => Other children
          end
      end
  end.
Definition parseTokens (tokens : list AtomicHTMLToken) : option (list Shape) :=
  match constructAll tokens (@newBuilder exampleBuilder (@emptySite exampleParser)) with
  | Some (_, b) => Some (shape 30 (m_tree b) <$> childList (doc (m_tree b)) 1)
  | None => None
  end.

Definition startOf (name : string) : AtomicHTMLToken := TStartTag (newTag name).
Definition endOf (name : string) : AtomicHTMLToken := TEndTag (newTag name).
Definition chars (s : string) : AtomicHTMLToken := TCharacter (text s).

(** Text in a table is moved before it, in an element for each formatting element. *)
Example foster_parenting :
  parseTokens [startOf "table"; startOf "b"; startOf "tr"; startOf "td"; chars "x"; endOf "table"; chars "y"; TEndOfFile]
  = Some [Tag "html" [Tag "head" []; Tag "body" [Tag "b" []; Tag "table" [Tag "tbody" [Tag "tr" [Tag "td" [Chars (text "x")]]]]; Tag "b" [Chars (text "y")]]]].
Proof. vm_compute. reflexivity. Qed.

(** The end tag of a form closes two forms: the branch for [form] of
    [processEndTagForInBody] does not return, so that the token goes on to
    [processAnyOtherEndTagForInBody]. In [<template><form><form></form>x] the text is
    outside both forms, although one end tag was read. *)
Theorem form_end_closes_two :
  parseTokens [startOf "template"; startOf "form"; startOf "form"; chars "a"; endOf "form"; chars "x"; TEndOfFile]
  = Some [Tag "html" [Tag "head" [Tag "template" [Tag "form" [Tag "form" [Chars (text "a")]]; Chars (text "x")]]; Tag "body" []]].
Proof. vm_compute. reflexivity. Qed.
