(* ===== verification/TreeBuilderSafety.v ===== *)
(** * The tree builder does not fail

    Any sequence of tokens, from an empty document to the end of the file. *)

From Stdlib Require Import String.
From S2P Require Import Prelude HTMLToken HTMLTokenizer HTMLStackItem HTMLElementStack HTMLFormattingElementList ContainerNode ContainerNodeLists ContainerNodeCorrect ContainerNodeScripts ContainerNodeTheorems.
From S2P Require Import TreeOrder HTMLConstructionSite AdoptionAgency TreeTasks SiteInvariant SiteOperations AdoptionCorrect SiteData TextNodes SiteTheorems PageContent HeadContent.
From S2P Require Import HTMLTreeBuilder TreeBuilderBody TreeBuilderPage TreeBuilderStart TreeBuilderExamples.

#[local] Open Scope string_scope.
#[local] Open Scope list_scope.

(** ** Attributes of tokens *)

(** An attribute of a token, for an element. *)
Definition attributeOf (a : HTMLToken.Attribute) : Attribute := mkAttribute (mkName (attr_name a) nullNamespace) (attr_value a).
Definition initializeStep (done : list Attribute) (a : HTMLToken.Attribute) : list Attribute :=
  if bool_decide (attr_name a = []) || hasAttributeNamed done (attr_name a) then done else done ++ [attributeOf a].

(** The attributes so far are of tokens: distinct, without a namespace and named. *)
Definition attributesOk (done : list Attribute) : Prop := NoDup (attributeName <$> done) ∧ Forall (λ a, ∃ name, name ≠ [] ∧ attributeName a = mkName name nullNamespace) done.

Lemma hasAttribute_name done name : attributesOk done → hasAttributeNamed done name = true ↔ mkName name nullNamespace ∈ attributeName <$> done.
Proof.
  intros [_ Hok]. unfold hasAttributeNamed. rewrite existsb_exists, list_elem_of_fmap. split; intros (a & H1 & H2); exists a.
  - apply list_elem_of_In in H1. apply bool_decide_eq_true in H2. split; [|done]. destruct (proj1 (Forall_forall _ _) Hok a H1) as (name' & _ & E). rewrite E in *. by rewrite <-H2.
  - split; [by apply list_elem_of_In|]. apply bool_decide_eq_true. by rewrite <-H1.
Qed.

Lemma initializeStep_ok done a : attributesOk done → attributesOk (initializeStep done a).
Proof.
  intros Hok. unfold initializeStep. case_bool_decide as Hn; [done|]. cbn [orb]. destruct (hasAttributeNamed done (attr_name a)) eqn:Eh; [done|]. split.
  - rewrite fmap_app. apply NoDup_app. split_and!; [apply Hok| |apply NoDup_singleton]. intros q Hq ->%list_elem_of_singleton. apply (hasAttribute_name done _ Hok) in Hq. congruence.
  - apply Forall_app. split; [apply Hok|]. constructor; [|done]. by exists (attr_name a).
Qed.

Lemma findIn_app done a q : findIn (done ++ [a]) q = match findIn done q with Some x => Some x | None => if decide (attributeName a = q) then Some a else None end.
Proof. induction done as [|b done IH]; cbn; [done|]. by destruct (decide (attributeName b = q)). Qed.

Lemma findIn_has done name : attributesOk done → hasAttributeNamed done name = true → ∃ a, findIn done (mkName name nullNamespace) = Some a.
Proof.
  intros Hok Hh. apply (hasAttribute_name done name Hok) in Hh. clear Hok. induction done as [|b done IH]; cbn in *; [by apply elem_of_nil in Hh|]. destruct (decide (attributeName b = mkName name nullNamespace)) as [E|E]; [by exists b|]. apply IH. by apply elem_of_cons in Hh as [?|?].
Qed.

Lemma initialize_find name attributes done :
  name ≠ [] → attributesOk done →
  findIn (foldl initializeStep done attributes) (mkName name nullNamespace) = match findIn done (mkName name nullNamespace) with Some a => Some a | None => attributeOf <$> List.find (λ a, bool_decide (attr_name a = name)) attributes end.
Proof.
  intros Hname. revert done. induction attributes as [|a attributes IH]; intros done Hok; cbn [foldl List.find]; [by destruct (findIn _ _)|]. rewrite IH by (by apply initializeStep_ok). unfold initializeStep. case_bool_decide as Hn; cbn [orb].
  - by rewrite (bool_decide_eq_false_2 (attr_name a = name)) by congruence.
  - destruct (hasAttributeNamed done (attr_name a)) eqn:Eh.
    + case_bool_decide as Ea; [|done]. rewrite Ea in Eh. destruct (findIn_has _ _ Hok Eh) as [x ->]. done.
    + rewrite findIn_app. destruct (findIn done _) as [x|]; [done|]. cbn. destruct (decide (mkName (attr_name a) nullNamespace = mkName name nullNamespace)) as [E|E].
      * injection E as E. by rewrite bool_decide_eq_true_2.
      * rewrite bool_decide_eq_false_2; [done|]. congruence.
Qed.

Lemma initialize_ok attributes : attributesOk (initializeAttributes attributes).
Proof.
  change (initializeAttributes attributes) with (foldl initializeStep [] attributes). assert (Hall : ∀ sofar, attributesOk sofar → attributesOk (foldl initializeStep sofar attributes)) by (induction attributes as [|a attributes IH]; intros sofar Hok; [exact Hok|]; by apply IH, initializeStep_ok).
  apply Hall. split; [apply NoDup_nil_2|constructor].
Qed.

(** C33: The attributes of an atomic token are a map: no name comes twice, none is empty or has a
    namespace, and the value of a name is that of the first attribute of the token with the name,
    whatever comes after it. *)
Theorem atomic_attributes attributes :
  NoDup (attributeName <$> initializeAttributes attributes) ∧
  (∀ a, a ∈ initializeAttributes attributes → localName (attributeName a) ≠ [] ∧ namespaceURI (attributeName a) = nullNamespace) ∧
  (∀ name, name ≠ [] → attributeValue <$> findIn (initializeAttributes attributes) (mkName name nullNamespace) = attr_value <$> List.find (λ a, bool_decide (attr_name a = name)) attributes).
Proof.
  destruct (initialize_ok attributes) as [Hnd Hall]. split_and!; [done| |].
  - intros a Ha. destruct (proj1 (Forall_forall _ _) Hall a Ha) as (name & ? & ->). done.
  - intros name Hname. change (initializeAttributes attributes) with (foldl initializeStep [] attributes). rewrite initialize_find; [|done|split; [apply NoDup_nil_2|constructor]]. cbn. by destruct (List.find _ attributes).
Qed.

(** ** Runs *)

Section Quiet.
Context `{Build} `{Parser} `{TreeBuilder}.
#[local] Existing Instance quiet.

(** What the document parser does between two tokens: it runs the tokenizer and takes the
    script and the custom element that wait. *)
Inductive between : BM unit → Prop :=
  | between_tokenizer f : between (tokenizerDo f)
  | between_script : between (takeScriptToProcess;; mret tt)
  | between_custom : between (takeCustomElementConstructionData;; mret tt)
  | between_newline skip : between (setShouldSkipLeadingNewline skip).

(** The builder after some tokens with so many characters. *)
Inductive reached : Z → HTMLTreeBuilder → Prop :=
  | reached_start : reached 0 (newBuilder emptySite)
  | reached_token N b b' token :
      reached N b → legal b token → (N + lengthOf token ≤ textLimit)%Z → isTokenOf token HTMLToken.EndOfFile = false → constructTree token b = Some (tt, b') → reached (N + lengthOf token) b'
  | reached_between N b b' step : reached N b → between step → step b = Some (tt, b') → reached N b'.

(** The document is a tree, the queue is empty, and the open elements are elements of the
    document of the names they were opened with, none below one opened after it. *)
Definition wellFormed (s : HTMLConstructionSite) : Prop :=
  m_taskQueue s = [] ∧ inv (doc s) ∧ HTMLElementStack.wf (m_openElements s) ∧ HTMLFormattingElementList.wf (entries s) ∧
  (∀ r, r ∈ records s → typeOf (doc s) (stackNode r) = Some ELEMENT_NODE ∧ tagOf (doc s) (stackNode r) = node_name (m_node (m_item r))) ∧
  ordered (doc s) (fmap (M := list) stackNode (records s)).

Lemma siteOk_wellFormed s : siteOk s → m_taskQueue s = [] → wellFormed s.
Proof.
  intros Hok Hq. pose proof (ok_shape _ Hok) as Hs. split_and!; [done|apply (tree_inv _ (ok_tree _ Hs))|apply Hs|apply Hs| |by apply siteOk_ordered].
  intros r Hr. split; [apply sound_element; [by apply (ok_sound _ Hs)|by apply (ok_document _ Hs)]|]. by apply sound_tagOf, (ok_sound _ Hs).
Qed.

(** Nothing is open. *)
Lemma nothing_wellFormed s : records s = [] → m_taskQueue s = [] → treeOk (tree s) → HTMLElementStack.wf (m_openElements s) → HTMLFormattingElementList.wf (entries s) → wellFormed s.
Proof.
  intros Er Eq Ht Hwf Hl. unfold wellFormed. rewrite Er. split_and!; [done|apply Ht|done..| |].
  - intros r Hr. by apply elem_of_nil in Hr.
  - apply ordered_nil.
Qed.

Context `{!PlainDocument}.

Lemma parsing_wellFormed N b : parsing N b → m_taskQueue (m_tree b) = [] → wellFormed (m_tree b).
Proof.
  intros [(_ & _ & _ & Hb & _)|[(_ & _ & _ & Hok & _)|[(a & hidden & _ & _ & _ & Hh)|[(mode & a & hidden & _ & _ & _ & _ & name & x & _ & _ & _ & Hh)|Hr]]]] Eq.
  - destruct Hb as [Ht _ _ Hwf Er El _]. apply nothing_wellFormed; [done..|]. rewrite El. split; [constructor|apply NoDup_nil_2].
  - by apply siteOk_wellFormed.
  - destruct (withHead_low _ _ _ Hh) as [Hok _]. by apply siteOk_wellFormed.
  - destruct (withHead_low _ _ _ Hh) as [Hok _]. by apply siteOk_wellFormed.
  - destruct (ready_page _ _ Hr) as [Hok _]. by apply siteOk_wellFormed.
Qed.

Lemma parsing_ext N b b' :
  m_insertionMode b' = m_insertionMode b → m_originalInsertionMode b' = m_originalInsertionMode b → m_templateInsertionModes b' = m_templateInsertionModes b → m_pendingTableCharacters b' = m_pendingTableCharacters b → m_tree b' = m_tree b →
  parsing N b → parsing N b'.
Proof.
  intros E1 E2 E3 E4 E5 Hp. assert (Hs : settled b → settled b') by (unfold settled; by rewrite E3, E4). destruct Hp as [(Hm & Hs' & Hb)|[(Hm & Hs' & Hb)|[(a & hidden & Hl & Hs' & Hh)|[(mode & a & hidden & Hl & Hm & Ho & Hs' & Ht)|Hr]]]].
  - left. rewrite <-E1, <-E5 in *. split_and!; auto.
  - right; left. rewrite <-E1, <-E5 in *. split_and!; auto.
  - right; right; left. exists a, hidden. rewrite <-E1, <-E5 in *. split_and!; auto.
  - right; right; right; left. exists mode, a, hidden. rewrite <-E1, <-E2, <-E5 in *. split; [done|]. split_and!; auto.
  - apply parsing_ready. by eapply ready_ext.
Qed.

Lemma between_parsing step N b : between step → parsing N b → wp step (λ _ b', parsing N b' ∧ m_tree b' = m_tree b) b.
Proof.
  intros [f| | |skip] Hp.
  - apply wp_modify. split; [by eapply parsing_ext|done].
  - apply wp_bind, wp_bind, wp_gets, wp_bind, wp_modify, wp_ret, wp_ret. split; [by eapply parsing_ext|done].
  - apply wp_bind, wp_bind, wp_gets, wp_bind, wp_modify, wp_ret, wp_ret. split; [by eapply parsing_ext|done].
  - apply wp_modify. split; [by eapply parsing_ext|done].
Qed.

Lemma reached_parsing N b : reached N b → parsing N b ∧ m_taskQueue (m_tree b) = [].
Proof.
  induction 1 as [|N b b' token Hr [IH _] Hl Hlim Heof E|N b b' step Hr [IH Hq] Hs E].
  - split; [|done]. left. split_and!; [by left|done|apply emptySite_early].
  - pose proof (constructTree_parsing token N b IH Hl Hlim) as Hw. unfold wp in Hw. rewrite E, Heof in Hw. exact Hw.
  - pose proof (between_parsing step N b Hs IH) as Hw. unfold wp in Hw. rewrite E in Hw. destruct Hw as [? ->]. done.
Qed.

Lemma reached_limit N b : reached N b → (0 ≤ N ≤ textLimit)%Z.
Proof.
  induction 1 as [|N b b' token Hr IH Hl Hlim Heof E|N b b' step Hr IH Hs E]; [split; [done|unfold textLimit; by destruct ASSERT_DISABLED]|split; [|done]|done]. enough (0 ≤ lengthOf token)%Z by lia. destruct token; cbn; [done..| | |done]; apply lengthZ_nonneg.
Qed.

(** ** The theorems *)

Lemma reached_next N b token :
  reached N b → legal b token → (N + lengthOf token ≤ textLimit)%Z →
  wp (constructTree token) (λ _ b', wellFormed (m_tree b') ∧ (isTokenOf token HTMLToken.EndOfFile = true → records (m_tree b') = [] ∧ settled b')) b.
Proof.
  intros [Hp _]%reached_parsing Hl Hlim. eapply wp_mono; [by apply (constructTree_parsing token N)|]. intros [] b'. destruct (isTokenOf token HTMLToken.EndOfFile).
  - intros [(Er & Eq & Ht & Hk & He) Hs]. split; [by apply nothing_wellFormed|done].
  - intros [Hp' Eq]. split; [by eapply parsing_wellFormed|done].
Qed.

(** C2: The tree builder does not fail on pages of ordinary tags. After any such tokens, from the empty document on, it
    processes the next one: no assertion fails, no null pointer is used, no cast is wrong, and
    the handlers that call each other end (16 calls below each other, and one for each open element).
    Then the queue of tasks is empty, the document is a tree, the stack of open elements and the
    list of formatting elements are well formed, the open elements are elements of the document
    of the names they were opened with, and none is below one opened after it. The tokens are of the kind the
    tokenizer gives ([legal]): no start tag comes while the builder is in a text element, an end tag of a script finds the
    script on top of the stack, text is not empty. Left out are the start tags of [table], [select], [template] and [frameset] and the end tag of
    [template]. Between tokens the document parser runs the tokenizer and takes scripts. The document is no fragment and has no custom
    elements ([PlainDocument]), no script changes it while a token is processed, and all its text together is no longer than
    [textLimit]: 2^16 characters in a debug build, 2^32 - 1 in a release build. *)
Theorem builder_never_fails N b token :
  reached N b → legal b token → (N + lengthOf token ≤ textLimit)%Z →
  ∃ b', constructTree token b = Some (tt, b') ∧ wellFormed (m_tree b').
Proof.
  intros Hr Hl Hlim. pose proof (reached_next N b token Hr Hl Hlim) as Hw. unfold wp in Hw. destruct (constructTree token b) as [[[] b']|]; [|done]. exists b'. split; [done|apply Hw].
Qed.

(** C3: After every sequence of tokens of the kind [builder_never_fails] is about (no start tags of tables, select, template and frameset, no end
    tag of a template, text within the limit, a document that is no fragment and has no custom elements, no script that changes it), the end of the file can be processed and the document is then
    finished: all elements are closed, nothing is left in the queue, the document is a tree, and the check of
    [finished] that no template is open passes. *)
Theorem end_of_file_completes N b :
  reached N b → ∃ b', (constructTree TEndOfFile;; finished) b = Some (tt, b') ∧ records (m_tree b') = [] ∧ wellFormed (m_tree b').
Proof.
  intros Hr. assert (Hw : wp (constructTree TEndOfFile;; finished) (λ _ b', records (m_tree b') = [] ∧ wellFormed (m_tree b')) b).
  - apply wp_bind. eapply wp_mono; [apply (reached_next N b TEndOfFile Hr I)|].
    + pose proof (reached_limit N b Hr). cbn [lengthOf]. lia.
    + intros [] b' [Hwf He]. destruct (He eq_refl) as [Er [Et _]]. unfold finished. rewrite whole_document. apply wp_bind, wp_gets, wp_ASSERT; [by rewrite Et|done].
  - unfold wp in Hw. destruct ((constructTree TEndOfFile;; finished) b) as [[[] b']|]; [|done]. by exists b'.
Qed.

End Quiet.

(** ** Examples *)

#[local] Existing Instances debugBuild quiet exampleParser exampleBuilder.

Lemma examplePlain : PlainDocument.
Proof. split; [done|intros buffer limit Hl; cbn; lia|done|done]. Qed.

(** All tokens are legal when they come. *)
Fixpoint legalRun (N : Z) (tokens : list AtomicHTMLToken) (b : HTMLTreeBuilder) : Prop :=
  match tokens with
  | [] => True
  | token :: tokens => legal b token ∧ (N + lengthOf token ≤ textLimit)%Z ∧ isTokenOf token HTMLToken.EndOfFile = false ∧ match constructTree token b with Some (_, b') => legalRun (N + lengthOf token) tokens b' | None => False end
  end.
Definition stateAfter (tokens : list AtomicHTMLToken) : HTMLTreeBuilder := match constructAll tokens (newBuilder emptySite) with Some (_, b) => b | None => newBuilder emptySite end.
Definition charactersOfAll (tokens : list AtomicHTMLToken) : Z := foldl (λ N token, N + lengthOf token)%Z 0%Z tokens.

Lemma reached_run tokens N b b' : legalRun N tokens b → constructAll tokens b = Some (tt, b') → reached N b → reached (foldl (λ N token, N + lengthOf token)%Z N tokens) b'.
Proof.
  revert N b. induction tokens as [|token tokens IH]; intros N b Hl E Hr; cbn in *; [by injection E as <-|]. destruct Hl as (Hl & Hlim & He & Hrest). unfold mbind, M_bind in E. destruct (constructTree token b) as [[[] b1]|] eqn:E1; [|done]. apply (IH _ b1); [done..|]. by eapply reached_token.
Qed.

(** [<title>x</title><p><b>y]: a page with an open paragraph. *)
Definition pageTokens : list AtomicHTMLToken := [startOf "title"; chars "x"; endOf "title"; startOf "p"; startOf "b"; chars "y"].

Lemma page_reached : reached (charactersOfAll pageTokens) (stateAfter pageTokens).
Proof.
  apply (reached_run pageTokens 0 (newBuilder emptySite)); [|by vm_compute|apply reached_start].
  vm_compute. repeat split; try discriminate; try constructor; done.
Qed.

Lemma builder_never_fails_witness : ∃ b', constructTree (endOf "p") (stateAfter pageTokens) = Some (tt, b') ∧ wellFormed (m_tree b').
Proof.
  apply (builder_never_fails (H2 := examplePlain) (charactersOfAll pageTokens) (stateAfter pageTokens) (endOf "p") page_reached).
  - split; [done|]. vm_compute. discriminate.
  - vm_compute. discriminate.
Defined.

Lemma end_of_file_completes_witness : ∃ b', (constructTree TEndOfFile;; finished) (stateAfter pageTokens) = Some (tt, b') ∧ records (m_tree b') = [] ∧ wellFormed (m_tree b').
Proof. apply (@end_of_file_completes _ _ _ examplePlain (charactersOfAll pageTokens) (stateAfter pageTokens) page_reached). Defined.
