(* ===== verification/DocumentParserState.v ===== *)
(** * The state of a document parser

    What [HTMLDocumentParser] and its parts keep between and during calls: the parser
    ([Source/WebCore/html/parser/HTMLDocumentParser.h], [dom/DocumentParser.h]), the runner of its
    scripts ([HTMLScriptRunner.h]), its scheduler ([HTMLParserScheduler.h]) and what it uses of
    the document ([dom/Document.h]), with a monad for operations on it.

    Scripts of the page are lists of actions: what they do to the parser. A parser runs them
    while it parses, and they call it again. *)

From Stdlib Require Import String.
From S2P Require Import Prelude ASCIICType CharSource SegmentedString HTMLInputStream HTMLEntitySearch HTMLToken HTMLTokenizer HTMLPreloadScanner HTMLStackItem ContainerNode HTMLConstructionSite HTMLTreeBuilder.

(** ** Scripts *)

(** What a script, or a listener, does: it writes to the document, opens it again, stops the load,
    removes the frame, asks for another page; the network sends data or ends while it waits in a run
    loop of its own; style sheets are added or loaded; a microtask is queued. *)
Inductive Action :=
  | Write (characters : list Z) | Open | Stop | RemoveFrame | Navigate | Receive (characters : list Z) | Complete
  | SetStylesheets (loaded : bool) | QueueMicrotask (task : Action).

(** A script with its text in the document, one with a source, one that is deferred, one that is asynchronous. *)
Inductive ScriptKind := Inline | External | Deferred | Async.

(** A script element: whether it can run at all (it is connected, has a supported type and some text, and
    so on), what listeners of its [beforeload] event do, whether its load starts, what it does,
    and what listeners of its [load] event do. *)
Record ScriptElement := mkScript { script_kind : ScriptKind; script_runs : bool; beforeLoad : list Action; script_loads : bool; body : list Action; afterLoad : list Action }.

(** What the page brings: the script of an element, the elements its custom element
    constructors make and what they do, what listeners do when the document becomes interactive and when its content is loaded,
    and how long the parser may run before it yields. *)
Class Page := {
  scriptOf : positive → ScriptElement;
  constructElementWithFallback : list Z → Node * list Action;
  interactiveListeners : list Action;
  contentLoadedListeners : list Action;
  m_parserTimeLimit : Z;
}.

(** ** Data *)

(** [PendingScript]: an element, whether its script is loaded from elsewhere, and whether the parser waits for that. *)
Record PendingScript := mkPending { element : positive; needsLoading : bool; watchingForLoad : bool }.

(** [HTMLScriptRunner]; nesting levels are natural numbers. *)
Record HTMLScriptRunner := mkRunner {
  m_runnerDocument : bool;
  m_parserBlockingScript : option PendingScript;
  m_scriptsToExecuteAfterParsing : list PendingScript;
  m_scriptNestingLevel : nat;
  m_hasScriptsWaitingForStylesheets : bool;
}.

(** [HTMLParserScheduler] *)
Record HTMLParserScheduler := mkScheduler {
  m_continueNextChunkTimer : bool;
  m_isSuspendedWithActiveTimer : bool;
  m_suspended : bool;
  m_documentHasActiveParserYieldTokens : bool;
}.

(** [PumpSession] *)
Record PumpSession := mkSession { processedTokens : Z; startTime : Z; didSeeScript : bool }.

(** [DocumentParser::ParserState] *)
Inductive ParserState := ParsingState | StoppingState | StoppedState | DetachedState.

#[export] Instance ParserState_eq_dec : EqDecision ParserState.
Proof. solve_decision. Defined.

Inductive SynchronousMode := AllowYield | ForceSynchronous.

#[export] Instance SynchronousMode_eq_dec : EqDecision SynchronousMode.
Proof. solve_decision. Defined.

(** Of the document: whether it has a frame, whether that is about to load another page, its
    style sheets, layout and view, the counters that guard writes, the scripts that are loaded, how often
    its parser was finished, the microtasks of the thread and what its clock will say. *)
Record Document := mkDocument {
  m_frame : bool;
  locationChangePending : bool;
  haveStylesheetsLoaded : bool;
  isLayoutTimerActive : bool;
  needsFirstPaint : bool;
  m_ignoreDestructiveWriteCount : nat;
  m_throwOnDynamicMarkupInsertionCount : nat;
  m_writeRecursionDepth : nat;
  m_writeRecursionIsTooDeep : bool;
  m_activeParserCount : nat;
  loadedScripts : list positive;
  timesFinished : nat;
  isInteractive : bool;
  microtasks : list Action;
  performingCheckpoint : bool;
  clock : list Z;
}.

(** [HTMLDocumentParser]; its tokenizer is that of the tree builder. *)
Record HTMLDocumentParser := mkParser {
  m_parserState : ParserState;
  m_document : bool;
  m_wasCreatedByScript : bool;
  m_input : HTMLInputStream;
  m_scriptRunner : option HTMLScriptRunner;
  m_treeBuilder : HTMLTreeBuilder;
  m_parserScheduler : option HTMLParserScheduler;
  m_endWasDelayed : bool;
  m_pumpSessionNestingLevel : nat;
  m_preloadScanner : option HTMLPreloadScanner;
  theDocument : Document;
}.

Definition set_state (x : ParserState) (p : HTMLDocumentParser) : HTMLDocumentParser := mkParser x (m_document p) (m_wasCreatedByScript p) (m_input p) (m_scriptRunner p) (m_treeBuilder p) (m_parserScheduler p) (m_endWasDelayed p) (m_pumpSessionNestingLevel p) (m_preloadScanner p) (theDocument p).
Definition set_documentPointer (x : bool) (p : HTMLDocumentParser) : HTMLDocumentParser := mkParser (m_parserState p) x (m_wasCreatedByScript p) (m_input p) (m_scriptRunner p) (m_treeBuilder p) (m_parserScheduler p) (m_endWasDelayed p) (m_pumpSessionNestingLevel p) (m_preloadScanner p) (theDocument p).
Definition set_input (x : HTMLInputStream) (p : HTMLDocumentParser) : HTMLDocumentParser := mkParser (m_parserState p) (m_document p) (m_wasCreatedByScript p) x (m_scriptRunner p) (m_treeBuilder p) (m_parserScheduler p) (m_endWasDelayed p) (m_pumpSessionNestingLevel p) (m_preloadScanner p) (theDocument p).
Definition set_scriptRunner (x : option HTMLScriptRunner) (p : HTMLDocumentParser) : HTMLDocumentParser := mkParser (m_parserState p) (m_document p) (m_wasCreatedByScript p) (m_input p) x (m_treeBuilder p) (m_parserScheduler p) (m_endWasDelayed p) (m_pumpSessionNestingLevel p) (m_preloadScanner p) (theDocument p).
Definition set_treeBuilder (x : HTMLTreeBuilder) (p : HTMLDocumentParser) : HTMLDocumentParser := mkParser (m_parserState p) (m_document p) (m_wasCreatedByScript p) (m_input p) (m_scriptRunner p) x (m_parserScheduler p) (m_endWasDelayed p) (m_pumpSessionNestingLevel p) (m_preloadScanner p) (theDocument p).
Definition set_parserScheduler (x : option HTMLParserScheduler) (p : HTMLDocumentParser) : HTMLDocumentParser := mkParser (m_parserState p) (m_document p) (m_wasCreatedByScript p) (m_input p) (m_scriptRunner p) (m_treeBuilder p) x (m_endWasDelayed p) (m_pumpSessionNestingLevel p) (m_preloadScanner p) (theDocument p).
Definition set_endWasDelayed (x : bool) (p : HTMLDocumentParser) : HTMLDocumentParser := mkParser (m_parserState p) (m_document p) (m_wasCreatedByScript p) (m_input p) (m_scriptRunner p) (m_treeBuilder p) (m_parserScheduler p) x (m_pumpSessionNestingLevel p) (m_preloadScanner p) (theDocument p).
Definition set_pumpLevel (x : nat) (p : HTMLDocumentParser) : HTMLDocumentParser := mkParser (m_parserState p) (m_document p) (m_wasCreatedByScript p) (m_input p) (m_scriptRunner p) (m_treeBuilder p) (m_parserScheduler p) (m_endWasDelayed p) x (m_preloadScanner p) (theDocument p).
Definition set_preloadScanner (x : option HTMLPreloadScanner) (p : HTMLDocumentParser) : HTMLDocumentParser := mkParser (m_parserState p) (m_document p) (m_wasCreatedByScript p) (m_input p) (m_scriptRunner p) (m_treeBuilder p) (m_parserScheduler p) (m_endWasDelayed p) (m_pumpSessionNestingLevel p) x (theDocument p).
Definition set_theDocument (x : Document) (p : HTMLDocumentParser) : HTMLDocumentParser := mkParser (m_parserState p) (m_document p) (m_wasCreatedByScript p) (m_input p) (m_scriptRunner p) (m_treeBuilder p) (m_parserScheduler p) (m_endWasDelayed p) (m_pumpSessionNestingLevel p) (m_preloadScanner p) x.

Definition set_blocking (x : option PendingScript) (r : HTMLScriptRunner) : HTMLScriptRunner := mkRunner (m_runnerDocument r) x (m_scriptsToExecuteAfterParsing r) (m_scriptNestingLevel r) (m_hasScriptsWaitingForStylesheets r).
Definition set_deferred (x : list PendingScript) (r : HTMLScriptRunner) : HTMLScriptRunner := mkRunner (m_runnerDocument r) (m_parserBlockingScript r) x (m_scriptNestingLevel r) (m_hasScriptsWaitingForStylesheets r).
Definition set_scriptLevel (x : nat) (r : HTMLScriptRunner) : HTMLScriptRunner := mkRunner (m_runnerDocument r) (m_parserBlockingScript r) (m_scriptsToExecuteAfterParsing r) x (m_hasScriptsWaitingForStylesheets r).
Definition set_waitingForStylesheets (x : bool) (r : HTMLScriptRunner) : HTMLScriptRunner := mkRunner (m_runnerDocument r) (m_parserBlockingScript r) (m_scriptsToExecuteAfterParsing r) (m_scriptNestingLevel r) x.
Definition detachRunner (r : HTMLScriptRunner) : HTMLScriptRunner := mkRunner false (m_parserBlockingScript r) (m_scriptsToExecuteAfterParsing r) (m_scriptNestingLevel r) (m_hasScriptsWaitingForStylesheets r).

Definition set_frame (x : bool) (d : Document) : Document := mkDocument x (locationChangePending d) (haveStylesheetsLoaded d) (isLayoutTimerActive d) (needsFirstPaint d) (m_ignoreDestructiveWriteCount d) (m_throwOnDynamicMarkupInsertionCount d) (m_writeRecursionDepth d) (m_writeRecursionIsTooDeep d) (m_activeParserCount d) (loadedScripts d) (timesFinished d) (isInteractive d) (microtasks d) (performingCheckpoint d) (clock d).
Definition set_locationChange (x : bool) (d : Document) : Document := mkDocument (m_frame d) x (haveStylesheetsLoaded d) (isLayoutTimerActive d) (needsFirstPaint d) (m_ignoreDestructiveWriteCount d) (m_throwOnDynamicMarkupInsertionCount d) (m_writeRecursionDepth d) (m_writeRecursionIsTooDeep d) (m_activeParserCount d) (loadedScripts d) (timesFinished d) (isInteractive d) (microtasks d) (performingCheckpoint d) (clock d).
Definition set_stylesheets (x : bool) (d : Document) : Document := mkDocument (m_frame d) (locationChangePending d) x (isLayoutTimerActive d) (needsFirstPaint d) (m_ignoreDestructiveWriteCount d) (m_throwOnDynamicMarkupInsertionCount d) (m_writeRecursionDepth d) (m_writeRecursionIsTooDeep d) (m_activeParserCount d) (loadedScripts d) (timesFinished d) (isInteractive d) (microtasks d) (performingCheckpoint d) (clock d).
Definition set_ignoreWrites (x : nat) (d : Document) : Document := mkDocument (m_frame d) (locationChangePending d) (haveStylesheetsLoaded d) (isLayoutTimerActive d) (needsFirstPaint d) x (m_throwOnDynamicMarkupInsertionCount d) (m_writeRecursionDepth d) (m_writeRecursionIsTooDeep d) (m_activeParserCount d) (loadedScripts d) (timesFinished d) (isInteractive d) (microtasks d) (performingCheckpoint d) (clock d).
Definition set_throwOnWrites (x : nat) (d : Document) : Document := mkDocument (m_frame d) (locationChangePending d) (haveStylesheetsLoaded d) (isLayoutTimerActive d) (needsFirstPaint d) (m_ignoreDestructiveWriteCount d) x (m_writeRecursionDepth d) (m_writeRecursionIsTooDeep d) (m_activeParserCount d) (loadedScripts d) (timesFinished d) (isInteractive d) (microtasks d) (performingCheckpoint d) (clock d).
Definition set_writeDepth (x : nat) (tooDeep : bool) (d : Document) : Document := mkDocument (m_frame d) (locationChangePending d) (haveStylesheetsLoaded d) (isLayoutTimerActive d) (needsFirstPaint d) (m_ignoreDestructiveWriteCount d) (m_throwOnDynamicMarkupInsertionCount d) x tooDeep (m_activeParserCount d) (loadedScripts d) (timesFinished d) (isInteractive d) (microtasks d) (performingCheckpoint d) (clock d).
Definition set_activeParsers (x : nat) (d : Document) : Document := mkDocument (m_frame d) (locationChangePending d) (haveStylesheetsLoaded d) (isLayoutTimerActive d) (needsFirstPaint d) (m_ignoreDestructiveWriteCount d) (m_throwOnDynamicMarkupInsertionCount d) (m_writeRecursionDepth d) (m_writeRecursionIsTooDeep d) x (loadedScripts d) (timesFinished d) (isInteractive d) (microtasks d) (performingCheckpoint d) (clock d).
Definition set_loadedScripts (x : list positive) (d : Document) : Document := mkDocument (m_frame d) (locationChangePending d) (haveStylesheetsLoaded d) (isLayoutTimerActive d) (needsFirstPaint d) (m_ignoreDestructiveWriteCount d) (m_throwOnDynamicMarkupInsertionCount d) (m_writeRecursionDepth d) (m_writeRecursionIsTooDeep d) (m_activeParserCount d) x (timesFinished d) (isInteractive d) (microtasks d) (performingCheckpoint d) (clock d).
Definition set_progress (finished : nat) (interactive : bool) (d : Document) : Document := mkDocument (m_frame d) (locationChangePending d) (haveStylesheetsLoaded d) (isLayoutTimerActive d) (needsFirstPaint d) (m_ignoreDestructiveWriteCount d) (m_throwOnDynamicMarkupInsertionCount d) (m_writeRecursionDepth d) (m_writeRecursionIsTooDeep d) (m_activeParserCount d) (loadedScripts d) finished interactive (microtasks d) (performingCheckpoint d) (clock d).
Definition set_microtasks (x : list Action) (performing : bool) (d : Document) : Document := mkDocument (m_frame d) (locationChangePending d) (haveStylesheetsLoaded d) (isLayoutTimerActive d) (needsFirstPaint d) (m_ignoreDestructiveWriteCount d) (m_throwOnDynamicMarkupInsertionCount d) (m_writeRecursionDepth d) (m_writeRecursionIsTooDeep d) (m_activeParserCount d) (loadedScripts d) (timesFinished d) (isInteractive d) x performing (clock d).
Definition set_clock (x : list Z) (d : Document) : Document := mkDocument (m_frame d) (locationChangePending d) (haveStylesheetsLoaded d) (isLayoutTimerActive d) (needsFirstPaint d) (m_ignoreDestructiveWriteCount d) (m_throwOnDynamicMarkupInsertionCount d) (m_writeRecursionDepth d) (m_writeRecursionIsTooDeep d) (m_activeParserCount d) (loadedScripts d) (timesFinished d) (isInteractive d) (microtasks d) (performingCheckpoint d) x.

(** ** Computations *)

(** What can go wrong: an assertion of the parser or its parts fails, a null pointer is used,
    the stream, or a tokenizer or the tree builder, fail, or the model gives up. *)
Inductive Failure := AssertionFails | NullPointer | StreamFails | ConstructionFails | OutOfFuel.
Inductive Outcome (A : Type) := Done (a : A) (p : HTMLDocumentParser) | Failed (f : Failure).
Arguments Done {A} a p.
Arguments Failed {A} f.

Definition PM (A : Type) : Type := HTMLDocumentParser → Outcome A.

#[export] Instance PM_ret : MRet PM := λ A a p, Done a p.
#[export] Instance PM_bind : MBind PM := λ A B f m p, match m p with Done a p' => f a p' | Failed e => Failed e end.

Definition failWith {A} (f : Failure) : PM A := λ _, Failed f.
Definition ask {A} (f : HTMLDocumentParser → A) : PM A := λ p, Done (f p) p.
Definition update (f : HTMLDocumentParser → HTMLDocumentParser) : PM unit := λ p, Done tt (f p).
Definition askDocument {A} (f : Document → A) : PM A := ask (f ∘ theDocument).
Definition updateDocument (f : Document → Document) : PM unit := update (λ p, set_theDocument (f (theDocument p)) p).

(** [ASSERT] *)
Definition ASSERT_ `{Build} (e : bool) : PM unit := if ASSERT_DISABLED || e then mret tt else failWith AssertionFails.

(** [document()], which is used at once. *)
Definition documentPointer `{Build} : PM unit :=
  present ← ask m_document;
  ASSERT_ present;;
  if present : bool then mret tt else failWith NullPointer.

(** An operation of the tree builder, of the stream. *)
Definition onBuilder {A} (m : M HTMLTreeBuilder A) : PM A := λ p,
  match m (m_treeBuilder p) with Some (a, b) => Done a (set_treeBuilder b p) | None => Failed ConstructionFails end.
Definition onStream (f : HTMLInputStream → option HTMLInputStream) : PM unit := λ p,
  match f (m_input p) with Some s => Done tt (set_input s p) | None => Failed StreamFails end.
Definition askStream {A} (f : HTMLInputStream → option A) : PM A := λ p,
  match f (m_input p) with Some a => Done a p | None => Failed StreamFails end.

(** [m_preloadScanner->] *)
Definition onScanner (f : HTMLPreloadScanner → option HTMLPreloadScanner) : PM unit := λ p,
  match m_preloadScanner p with
  | Some scanner => match f scanner with Some scanner => Done tt (set_preloadScanner (Some scanner) p) | None => Failed ConstructionFails end
  | None => Failed NullPointer
  end.

(** [m_scriptRunner->] and [m_parserScheduler->]. *)
Definition askRunner {A} (f : HTMLScriptRunner → A) : PM A := λ p, match m_scriptRunner p with Some r => Done (f r) p | None => Failed NullPointer end.
Definition updateRunner (f : HTMLScriptRunner → HTMLScriptRunner) : PM unit := λ p,
  match m_scriptRunner p with Some r => Done tt (set_scriptRunner (Some (f r)) p) | None => Failed NullPointer end.
Definition askScheduler {A} (f : HTMLParserScheduler → A) : PM A := λ p, match m_parserScheduler p with Some s => Done (f s) p | None => Failed NullPointer end.
Definition updateScheduler (f : HTMLParserScheduler → HTMLParserScheduler) : PM unit := λ p,
  match m_parserScheduler p with Some s => Done tt (set_parserScheduler (Some (f s)) p) | None => Failed NullPointer end.
