(* ===== verification/HTMLDocumentParser.v ===== *)
(** * The document parser

    Model of [Source/WebCore/html/parser/HTMLDocumentParser.cpp], with its script runner
    ([HTMLScriptRunner.cpp]), its scheduler ([HTMLParserScheduler.{h,cpp}]) and what scripts call of
    the document ([Document::write], [open] and [ScriptElement::prepareScript]). It reads tokens and
    has the tree builder process them, stops for scripts, runs them with an insertion point and goes on;
    it yields to its scheduler, and it delays the end of the document until nothing is left to do.

    The parser runs scripts and scripts call the parser: its operations get the function that
    performs the actions of a script as an argument ([perform]), and [performAt] ties the knot as deep as its
    fuel says. While it waits for a script its preload scanner reads ahead ([HTMLPreloadScanner]). Left out
    are the second preload scanner, for text that scripts write ([insert] gives it a string that was moved
    from, see [moved_source_dangles]), what is loaded for the tokens scanned, the auditor for cross-site scripting, the
    positions in the source, and scripts that run while the tree builder processes a token. *)

From S2P Require Import Prelude ASCIICType CharSource SegmentedString HTMLInputStream HTMLEntitySearch HTMLToken HTMLTokenizer HTMLPreloadScanner HTMLStackItem ContainerNode HTMLConstructionSite HTMLTreeBuilder DocumentParserState.

Section Operations.
Context `{Build} `{Script} `{Parser} `{TreeBuilder} `{HTMLEntityTable} `{Page}.

(** ** Questions *)

Definition isParsing (p : HTMLDocumentParser) : bool := bool_decide (m_parserState p = ParsingState).
Definition isStopping (p : HTMLDocumentParser) : bool := bool_decide (m_parserState p = StoppingState).
Definition isStopped (p : HTMLDocumentParser) : bool := bool_decide (m_parserState p = StoppedState ∨ m_parserState p = DetachedState).
Definition isDetached (p : HTMLDocumentParser) : bool := bool_decide (m_parserState p = DetachedState).

Definition inPumpSession (p : HTMLDocumentParser) : bool := bool_decide (0 < m_pumpSessionNestingLevel p)%nat.

Definition schedulerIsScheduled (s : HTMLParserScheduler) : bool := m_isSuspendedWithActiveTimer s || m_continueNextChunkTimer s || m_documentHasActiveParserYieldTokens s.
Definition isScheduledForResume (p : HTMLDocumentParser) : bool := match m_parserScheduler p with Some s => schedulerIsScheduled s | None => false end.

Definition runnerIsExecuting (r : HTMLScriptRunner) : bool := bool_decide (m_scriptNestingLevel r ≠ 0%nat).
Definition isExecutingScript (p : HTMLDocumentParser) : bool := match m_scriptRunner p with Some r => runnerIsExecuting r | None => false end.

Definition hasParserBlockingScript (r : HTMLScriptRunner) : bool := match m_parserBlockingScript r with Some _ => true | None => false end.
Definition isWaitingForScripts : PM bool :=
  treeBuilderHasBlockingScript ← onBuilder hasParserBlockingScriptWork;
  scriptRunnerHasBlockingScript ← ask (λ p, match m_scriptRunner p with Some r => hasParserBlockingScript r | None => false end);
  ASSERT_ (negb (treeBuilderHasBlockingScript && scriptRunnerHasBlockingScript));;
  mret (treeBuilderHasBlockingScript || scriptRunnerHasBlockingScript).

Definition shouldDelayEnd : PM bool :=
  pumping ← ask inPumpSession;
  if pumping : bool then mret true
  else
    waiting ← isWaitingForScripts;
    if waiting : bool then mret true else ask (λ p, isScheduledForResume p || isExecutingScript p).

Definition processingData (p : HTMLDocumentParser) : bool := isScheduledForResume p || inPumpSession p.

Definition hasInsertionPoint : PM bool :=
  seen ← askStream haveSeenEndOfFile;
  ask (λ p, HTMLInputStream.hasInsertionPoint (m_input p) || m_wasCreatedByScript p && negb seen).

(** ** The scheduler *)

Definition set_timer (x : bool) (s : HTMLParserScheduler) : HTMLParserScheduler := mkScheduler x (m_isSuspendedWithActiveTimer s) (m_suspended s) (m_documentHasActiveParserYieldTokens s).

Definition scheduleForResume : PM unit :=
  suspended ← askScheduler m_suspended;
  ASSERT_ (negb suspended);;
  updateScheduler (set_timer true).

Definition suspend : PM unit :=
  suspended ← askScheduler m_suspended;
  ASSERT_ (negb suspended);;
  held ← askScheduler m_isSuspendedWithActiveTimer;
  ASSERT_ (negb held);;
  updateScheduler (λ s, if m_continueNextChunkTimer s then mkScheduler false true true (m_documentHasActiveParserYieldTokens s) else mkScheduler false (m_isSuspendedWithActiveTimer s) true (m_documentHasActiveParserYieldTokens s)).

Definition resume : PM unit :=
  suspended ← askScheduler m_suspended;
  ASSERT_ suspended;;
  active ← askScheduler m_continueNextChunkTimer;
  ASSERT_ (negb active);;
  updateScheduler (λ s, if m_isSuspendedWithActiveTimer s then mkScheduler true false false (m_documentHasActiveParserYieldTokens s) else mkScheduler (m_continueNextChunkTimer s) false false (m_documentHasActiveParserYieldTokens s)).

Definition didBeginYieldingParser : PM unit :=
  yielding ← askScheduler m_documentHasActiveParserYieldTokens;
  ASSERT_ (negb yielding);;
  updateScheduler (λ s, mkScheduler (m_continueNextChunkTimer s) (m_isSuspendedWithActiveTimer s) (m_suspended s) true).
Definition didEndYieldingParser : PM unit :=
  yielding ← askScheduler m_documentHasActiveParserYieldTokens;
  ASSERT_ yielding;;
  updateScheduler (λ s, mkScheduler (m_continueNextChunkTimer s) (m_isSuspendedWithActiveTimer s) (m_suspended s) false);;
  scheduled ← askScheduler schedulerIsScheduled;
  if scheduled : bool then mret tt else scheduleForResume.

(** [MonotonicTime::now()] *)
Definition now : PM Z :=
  times ← askDocument clock;
  match times with [] => mret 0 | t :: times => updateDocument (set_clock times);; mret t end.

Definition numberOfTokensBeforeCheckingForYield : Z := 4096.
Definition newSession : PumpSession := mkSession (2 ^ 31 - 1) 0 false.

Definition checkForYield (session : PumpSession) : PM (bool * PumpSession) :=
  if startTime session =? 0 then start ← now; mret (false, mkSession 1 start false)
  else current ← now; mret (bool_decide (m_parserTimeLimit < current - startTime session), mkSession 1 (startTime session) false).

Definition shouldYieldBeforeToken (session : PumpSession) : PM (bool * PumpSession) :=
  yielding ← askScheduler m_documentHasActiveParserYieldTokens;
  if yielding : bool then mret (true, session)
  else if (numberOfTokensBeforeCheckingForYield <? processedTokens session) || didSeeScript session then checkForYield session
  else mret (false, mkSession (u32 (processedTokens session + 1)) (startTime session) (didSeeScript session)).

Definition shouldYieldBeforeExecutingScript (session : PumpSession) : PM (bool * PumpSession) :=
  documentPointer;;
  paint ← askDocument needsFirstPaint;
  let session := mkSession (processedTokens session) (startTime session) true in
  yielding ← askScheduler m_documentHasActiveParserYieldTokens;
  if yielding : bool then mret (true, session)
  else layout ← askDocument isLayoutTimerActive; mret (paint && layout, session).

(** ** Tokens *)

(** [m_tokenizer.nextToken(m_input.current())] *)
Definition nextToken : PM (option HTMLToken) := λ p,
  match HTMLTokenizer.nextToken (mkWorld (m_tokenizer (m_treeBuilder p)) (HTMLInputStream.m_first (m_input p))) with
  | Some (token, w) => Done token (set_input (HTMLInputStream.set_first (w_src w) (m_input p)) (set_treeBuilder (set_tokenizer (w_tok w) (m_treeBuilder p)) p))
  | None => Failed ConstructionFails
  end.

Definition constructTreeFromHTMLToken (rawToken : HTMLToken) : PM unit :=
  match atomicToken rawToken with
  | None => failWith ConstructionFails
  | Some token =>
      if bool_decide (m_type rawToken = Character) then onBuilder (constructTree token);; onBuilder (tokenizerDo releaseToken)
      else onBuilder (tokenizerDo releaseToken);; onBuilder (constructTree token)
  end.

(** ** Stopping *)

(** [DocumentParser::detach], [ScriptableDocumentParser::detach] and [HTMLDocumentParser::detach] *)
Definition detach : PM unit :=
  update (set_documentPointer false ∘ set_state DetachedState);;
  update (λ p, set_scriptRunner (detachRunner <$> m_scriptRunner p) p);;
  update (set_preloadScanner None);;
  update (set_parserScheduler None).

Definition stopParsing : PM unit :=
  update (set_state StoppedState);;
  update (set_parserScheduler None).

(** ** Reading ahead *)

Definition hasPreloadScanner (p : HTMLDocumentParser) : bool := match m_preloadScanner p with Some _ => true | None => false end.

(** [m_preloadScanner->scan], which is given the document. *)
Definition scanAhead : PM unit := documentPointer;; onScanner scan.

(** The scanner is made when the parser first waits, and is given the text that is left. *)
Definition makePreloadScanner : PM unit :=
  documentPointer;;
  update (λ p, set_preloadScanner (Some (newPreloadScanner (m_options (m_tokenizer (m_treeBuilder p))))) p);;
  current ← ask (HTMLInputStream.m_first ∘ m_input);
  onScanner (HTMLPreloadScanner.appendToEnd current).

Definition appendCurrentInputStreamToPreloadScannerAndScan : PM unit :=
  scanner ← ask hasPreloadScanner;
  ASSERT_ scanner;;
  current ← ask (HTMLInputStream.m_first ∘ m_input);
  onScanner (HTMLPreloadScanner.appendToEnd current);;
  scanAhead.

(** ** Running scripts *)

Section Reentrant.
Context (perform : list Action → PM unit) (fuel : nat).

(** [MicrotaskQueue::performMicrotaskCheckpoint]; all microtasks are done when they have run. *)
Fixpoint microtaskLoop (n : nat) : PM unit :=
  match n with
  | O => failWith OutOfFuel
  | S n =>
      queue ← askDocument microtasks;
      match queue with
      | [] => mret tt
      | _ => updateDocument (set_microtasks [] true);; perform queue;; microtaskLoop n
      end
  end.
Definition performMicrotaskCheckpoint : PM unit :=
  performing ← askDocument performingCheckpoint;
  if performing : bool then mret tt
  else
    updateDocument (λ d, set_microtasks (microtasks d) true d);;
    microtaskLoop fuel;;
    updateDocument (λ d, set_microtasks (microtasks d) false d).

(** [ScriptElement::executeClassicScript] *)
Definition executeClassicScript (e : positive) : PM unit :=
  frame ← askDocument m_frame;
  if negb frame then mret tt
  else
    let external := match script_kind (scriptOf e) with Inline => 0%nat | _ => 1%nat end in
    updateDocument (λ d, set_ignoreWrites (m_ignoreDestructiveWriteCount d + external) d);;
    perform (body (scriptOf e));;
    updateDocument (λ d, set_ignoreWrites (m_ignoreDestructiveWriteCount d - external) d).

(** [ScriptElement::executePendingScript] *)
Definition executePendingScript (pending : PendingScript) : PM unit :=
  executeClassicScript (element pending);;
  perform (afterLoad (scriptOf (element pending))).

(** What [ScriptElement::prepareScript] leaves to the parser: nothing, a script for the end of
    the document, one that can be executed, one that must be loaded. *)
Inductive Disposition := NotParserExecuted | WhenDocumentFinished | ReadyToBeParserExecuted | ParserBlocking.

(** [ScriptElement::prepareScript], of a script that the parser inserted and that was not started before *)
Definition prepareScript (e : positive) : PM Disposition :=
  let script := scriptOf e in
  frame ← askDocument m_frame;
  if negb (frame && script_runs script) then mret NotParserExecuted
  else
    match script_kind script with
    | Inline =>
        loaded ← askDocument haveStylesheetsLoaded;
        if negb loaded then mret ReadyToBeParserExecuted else executeClassicScript e;; mret NotParserExecuted
    | kind =>
        perform (beforeLoad script);;
        if negb (script_loads script) then mret NotParserExecuted
        else mret (match kind with Deferred => WhenDocumentFinished | External => ParserBlocking | _ => NotParserExecuted end)
    end.

Definition isLoaded (pending : PendingScript) : PM bool := askDocument (λ d, needsLoading pending && bool_decide (element pending ∈ loadedScripts d)).

Definition isPendingScriptReady (pending : PendingScript) : PM bool :=
  present ← askRunner m_runnerDocument;
  if negb present then mret false
  else
    stylesheets ← askDocument haveStylesheetsLoaded;
    updateRunner (set_waitingForStylesheets (negb stylesheets));;
    if negb stylesheets then mret false
    else loaded ← isLoaded pending; mret (negb (needsLoading pending && negb loaded)).

Definition executePendingScriptAndDispatchEvent (pending : PendingScript) : PM unit :=
  executing ← askRunner runnerIsExecuting;
  (if negb executing then performMicrotaskCheckpoint else mret tt);;
  updateRunner (λ r, set_scriptLevel (S (m_scriptNestingLevel r)) r);;
  executePendingScript pending;;
  updateRunner (λ r, set_scriptLevel (m_scriptNestingLevel r - 1) r);;
  executing ← askRunner runnerIsExecuting;
  ASSERT_ (negb executing).

(** [watchForLoad], of the runner and of the parser. *)
Definition watchForLoad (pending : PendingScript) : PM PendingScript :=
  ASSERT_ (negb (watchingForLoad pending));;
  loaded ← isLoaded pending;
  ASSERT_ (negb loaded);;
  mret (mkPending (element pending) (needsLoading pending) true).

Fixpoint executeParsingBlockingScripts (n : nat) : PM unit :=
  match n with
  | O => failWith OutOfFuel
  | S n =>
      blocking ← askRunner m_parserBlockingScript;
      match blocking with
      | None => mret tt
      | Some pending =>
          ready ← isPendingScriptReady pending;
          if negb ready then mret tt
          else
            present ← askRunner m_runnerDocument;
            ASSERT_ present;;
            executing ← askRunner runnerIsExecuting;
            ASSERT_ (negb executing);;
            stylesheets ← askDocument haveStylesheetsLoaded;
            ASSERT_ stylesheets;;
            onStream beginRecord;;
            updateRunner (set_blocking None);;
            executePendingScriptAndDispatchEvent pending;;
            onStream endRecord;;
            executeParsingBlockingScripts n
      end
  end.

Definition requestParsingBlockingScript (e : positive) : PM unit :=
  blocking ← askRunner hasParserBlockingScript;
  ASSERT_ (negb blocking);;
  let pending := mkPending e true false in
  updateRunner (set_blocking (Some pending));;
  loaded ← isLoaded pending;
  if loaded : bool then mret tt else pending ← watchForLoad pending; updateRunner (set_blocking (Some pending)).

Definition requestDeferredScript (e : positive) : PM unit :=
  updateRunner (λ r, set_deferred (m_scriptsToExecuteAfterParsing r ++ [mkPending e true false]) r).

(** The end of [runScript], after [prepareScript]. *)
Definition handlePrepared (disposition : Disposition) (e : positive) : PM unit :=
  match disposition with
  | NotParserExecuted => mret tt
  | WhenDocumentFinished => requestDeferredScript e
  | ReadyToBeParserExecuted =>
      level ← askRunner m_scriptNestingLevel;
      if bool_decide (level = 1%nat) then updateRunner (set_blocking (Some (mkPending e false false))) else executeClassicScript e
  | ParserBlocking => requestParsingBlockingScript e
  end.

Definition runScript (e : positive) : PM unit :=
  present ← askRunner m_runnerDocument;
  ASSERT_ present;;
  blocking ← askRunner hasParserBlockingScript;
  ASSERT_ (negb blocking);;
  executing ← askRunner runnerIsExecuting;
  (if negb executing then performMicrotaskCheckpoint else mret tt);;
  onStream beginRecord;;
  updateRunner (λ r, set_scriptLevel (S (m_scriptNestingLevel r)) r);;
  disposition ← prepareScript e;
  handlePrepared disposition e;;
  updateRunner (λ r, set_scriptLevel (m_scriptNestingLevel r - 1) r);;
  onStream endRecord.

(** [HTMLScriptRunner::execute] *)
Definition execute (e : positive) : PM unit :=
  hadPreloadScanner ← ask hasPreloadScanner;
  runScript e;;
  blocking ← askRunner hasParserBlockingScript;
  if negb blocking then mret tt
  else
    executing ← askRunner runnerIsExecuting;
    if executing : bool then mret tt
    else
      hasScanner ← ask hasPreloadScanner;
      (if negb hadPreloadScanner && hasScanner then appendCurrentInputStreamToPreloadScannerAndScan else mret tt);;
      executeParsingBlockingScripts fuel.

(** [executeScriptsWaitingForParsing]: whether all deferred scripts have run. *)
Fixpoint executeScriptsWaitingForParsing (n : nat) : PM bool :=
  match n with
  | O => failWith OutOfFuel
  | S n =>
      waiting ← askRunner m_scriptsToExecuteAfterParsing;
      match waiting with
      | [] => mret true
      | first :: rest =>
          executing ← askRunner runnerIsExecuting;
          ASSERT_ (negb executing);;
          blocking ← askRunner hasParserBlockingScript;
          ASSERT_ (negb blocking);;
          ASSERT_ (needsLoading first);;
          loaded ← isLoaded first;
          if negb loaded then first ← watchForLoad first; updateRunner (set_deferred (first :: rest));; mret false
          else
            updateRunner (set_deferred rest);;
            executePendingScriptAndDispatchEvent first;;
            present ← askRunner m_runnerDocument;
            if negb present then mret false else executeScriptsWaitingForParsing n
      end
  end.

(** ** Pumping *)

Definition runScriptsForPausedTreeBuilder : PM unit :=
  ASSERT_ (scriptingContentIsAllowed m_parserContentPolicy);;
  custom ← onBuilder takeCustomElementConstructionData;
  match custom with
  | Some data =>
      more ← onBuilder hasParserBlockingScriptWork;
      ASSERT_ (negb more);;
      documentPointer;;
      updateDocument (λ d, set_throwOnWrites (S (m_throwOnDynamicMarkupInsertionCount d)) d);;
      performMicrotaskCheckpoint;;
      let '(newElement, reaction) := constructElementWithFallback (construction_name data) in
      perform reaction;;
      onBuilder (didCreateCustomOrFallbackElement newElement data);;
      updateDocument (λ d, set_throwOnWrites (m_throwOnDynamicMarkupInsertionCount d - 1) d)
  | None =>
      script ← onBuilder takeScriptToProcess;
      match script with
      | Some e =>
          more ← onBuilder hasParserBlockingScriptWork;
          ASSERT_ (negb more);;
          runner ← ask m_scriptRunner;
          match runner with Some _ => execute e | None => mret tt end
      | None => mret tt
      end
  end.

(** A step of the loop that waits for scripts: [Some] answer leaves the loop. *)
Definition pauseForScripts (mode : SynchronousMode) (session : PumpSession) : PM (option bool * PumpSession) :=
  waiting ← isWaitingForScripts;
  if negb waiting then mret (None, session)
  else
    '(yield, session) ← (if bool_decide (mode = AllowYield) then shouldYieldBeforeExecutingScript session else mret (false, session));
    if yield : bool then mret (Some true, session)
    else
      runScriptsForPausedTreeBuilder;;
      waiting ← isWaitingForScripts;
      stopped ← ask isStopped;
      mret ((if waiting || stopped then Some false else None), session).

Fixpoint pumpTokenizerLoop (n : nat) (mode : SynchronousMode) (session : PumpSession) : PM bool :=
  match n with
  | O => failWith OutOfFuel
  | S n =>
      '(leave, session) ← pauseForScripts mode session;
      match leave with
      | Some answer => mret answer
      | None =>
          leaving ← (if m_isParsingFragment then mret false else documentPointer;; askDocument (λ d, m_frame d && locationChangePending d));
          if leaving : bool then mret false
          else
            '(yield, session) ← (if bool_decide (mode = AllowYield) then shouldYieldBeforeToken session else mret (false, session));
            if yield : bool then mret true
            else
              token ← nextToken;
              match token with
              | None => mret false
              | Some token =>
                  constructTreeFromHTMLToken token;;
                  stopped ← ask isStopped;
                  if stopped : bool then mret false else pumpTokenizerLoop n mode session
              end
      end
  end.

(** What is left to do when the loop has ended. *)
Definition afterPumping (shouldResume : bool) : PM unit :=
  stopped ← ask isStopped;
  if stopped : bool then mret tt
  else
    (if shouldResume then scheduleForResume else mret tt);;
    waiting ← isWaitingForScripts;
    (if waiting : bool then
       inData ← ask (isInDataState ∘ m_tokenizer ∘ m_treeBuilder);
       ASSERT_ inData;;
       scanner ← ask hasPreloadScanner;
       (if negb scanner then makePreloadScanner else mret tt);;
       scanAhead
     else mret tt);;
    documentPointer.

Definition pumpTokenizer (mode : SynchronousMode) : PM unit :=
  stopped ← ask isStopped;
  ASSERT_ (negb stopped);;
  scheduled ← ask isScheduledForResume;
  ASSERT_ (negb scheduled);;
  let parsers := if m_isParsingFragment then 0%nat else 1%nat in
  documentPointer;;
  update (λ p, set_pumpLevel (S (m_pumpSessionNestingLevel p)) p);;
  updateDocument (λ d, set_activeParsers (m_activeParserCount d + parsers) d);;
  shouldResume ← pumpTokenizerLoop fuel mode newSession;
  afterPumping shouldResume;;
  updateDocument (λ d, set_activeParsers (m_activeParserCount d - parsers) d);;
  update (λ p, set_pumpLevel (m_pumpSessionNestingLevel p - 1) p).

Definition pumpTokenizerIfPossible (mode : SynchronousMode) : PM unit :=
  stopped ← ask isStopped;
  if stopped : bool then mret tt
  else
    waiting ← isWaitingForScripts;
    if waiting : bool then mret tt
    else
      scheduled ← ask isScheduledForResume;
      if scheduled : bool then ASSERT_ (bool_decide (mode = AllowYield)) else pumpTokenizer mode.

(** ** The end *)

(** [Document::finishedParsing], as far as it concerns the parser. *)
Definition finishedParsing : PM unit :=
  parsing ← ask isParsing;
  ASSERT_ (negb parsing);;
  interactive ← askDocument isInteractive;
  ASSERT_ interactive;;
  updateDocument (λ d, set_progress (S (timesFinished d)) (isInteractive d) d);;
  performMicrotaskCheckpoint;;
  perform contentLoadedListeners.

(** [end] *)
Definition end_ : PM unit :=
  detached ← ask isDetached;
  ASSERT_ (negb detached);;
  scheduled ← ask isScheduledForResume;
  ASSERT_ (negb scheduled);;
  onBuilder finished;;
  if m_isParsingFragment then mret tt else finishedParsing.

Definition attemptToRunDeferredScriptsAndEnd : PM unit :=
  stopping ← ask isStopping;
  ASSERT_ stopping;;
  point ← hasInsertionPoint;
  ASSERT_ (negb point);;
  runner ← ask m_scriptRunner;
  done_ ← (match runner with Some _ => executeScriptsWaitingForParsing fuel | None => mret true end);
  if negb done_ then mret tt else end_.

(** [document()->setReadyState(Document::Interactive)] *)
Definition setInteractive : PM unit :=
  documentPointer;;
  interactive ← askDocument isInteractive;
  if interactive : bool then mret tt
  else updateDocument (λ d, set_progress (timesFinished d) true d);; perform interactiveListeners.

Definition prepareToStopParsing : PM unit :=
  point ← hasInsertionPoint;
  ASSERT_ (negb point);;
  pumpTokenizerIfPossible ForceSynchronous;;
  stopped ← ask isStopped;
  if stopped : bool then mret tt
  else
    parsing ← ask isParsing;
    ASSERT_ parsing;;
    update (set_state StoppingState);;
    runner ← ask m_scriptRunner;
    match runner with Some _ => setInteractive | None => mret tt end;;
    detached ← ask isDetached;
    if detached : bool then mret tt else attemptToRunDeferredScriptsAndEnd.

Definition attemptToEnd : PM unit :=
  delay ← shouldDelayEnd;
  if delay : bool then update (set_endWasDelayed true) else prepareToStopParsing.

Definition endIfDelayed : PM unit :=
  detached ← ask isDetached;
  if detached : bool then mret tt
  else
    delayed ← ask m_endWasDelayed;
    if negb delayed then mret tt
    else
      delay ← shouldDelayEnd;
      if delay : bool then mret tt else update (set_endWasDelayed false);; prepareToStopParsing.

Definition finish : PM unit :=
  seen ← askStream haveSeenEndOfFile;
  (if negb seen then onStream markEndOfFile else mret tt);;
  attemptToEnd.

(** ** Input *)

(** The string that [Document::write] makes of its argument. *)
Definition segmentOf (characters : list Z) : option SegmentedString := append_string (builderString characters) emptySegmentedString.

Definition insert (source : list Z) : PM unit :=
  stopped ← ask isStopped;
  if stopped : bool then mret tt
  else
    onStream (λ s, x ← segmentOf source; x ← setExcludeLineNumbers x; insertAtCurrentInsertionPoint x s);;
    pumpTokenizerIfPossible ForceSynchronous;;
    waiting ← isWaitingForScripts;
    (if waiting : bool then documentPointer else mret tt);;
    endIfDelayed.

(** What [append] does for the scanner: it is cleared when the parser has overtaken it, or gets the
    text, and scans it while the parser waits. *)
Definition appendToScanner (source : list Z) : PM unit :=
  scanner ← ask hasPreloadScanner;
  if negb scanner then mret tt
  else
    empty ← ask (SegmentedString.isEmpty ∘ HTMLInputStream.m_first ∘ m_input);
    waiting ← (if empty : bool then isWaitingForScripts else mret true);
    if empty && negb waiting then update (set_preloadScanner None)
    else
      onScanner (λ scanner, x ← SegmentedString_of (builderString source); HTMLPreloadScanner.appendToEnd x scanner);;
      waiting ← isWaitingForScripts;
      if waiting : bool then scanAhead else mret tt.

Definition append (source : list Z) : PM unit :=
  stopped ← ask isStopped;
  if stopped : bool then mret tt
  else
    appendToScanner source;;
    onStream (λ s, x ← SegmentedString_of (builderString source); HTMLInputStream.appendToEnd x s);;
    pumping ← ask inPumpSession;
    if pumping : bool then mret tt
    else pumpTokenizerIfPossible AllowYield;; endIfDelayed.

(** [DecodedDataDocumentParser::appendBytes], with the text the decoder gave. *)
Definition appendDecoded (decoded : list Z) : PM unit := if bool_decide (decoded = []) then mret tt else append decoded.

(** ** What the scheduler, the loader and the document call *)

Definition resumeParsingAfterYield : PM unit := pumpTokenizer AllowYield;; endIfDelayed.

(** [continueNextChunkTimerFired], of a timer that was active. *)
Definition continueNextChunkTimerFired : PM unit :=
  updateScheduler (set_timer false);;
  suspended ← askScheduler m_suspended;
  ASSERT_ (negb suspended);;
  documentPointer;;
  layout ← askDocument isLayoutTimerActive;
  if layout : bool then updateScheduler (set_timer true) else resumeParsingAfterYield.

Definition resumeParsingAfterScriptExecution : PM unit :=
  executing ← ask isExecutingScript;
  ASSERT_ (negb executing);;
  waiting ← isWaitingForScripts;
  ASSERT_ (negb waiting);;
  pumpTokenizerIfPossible AllowYield;;
  endIfDelayed.

Definition executeScriptsWaitingForLoad (e : positive) : PM unit :=
  executing ← askRunner runnerIsExecuting;
  ASSERT_ (negb executing);;
  blocking ← askRunner m_parserBlockingScript;
  match blocking with
  | None => ASSERT_ false;; failWith NullPointer
  | Some pending =>
      ASSERT_ (bool_decide (element pending = e));;
      loaded ← isLoaded pending;
      ASSERT_ loaded;;
      executeParsingBlockingScripts fuel
  end.

Definition notifyFinished (e : positive) : PM unit :=
  stopped ← ask isStopped;
  if stopped : bool then mret tt
  else
    runner ← ask m_scriptRunner;
    ASSERT_ (match runner with Some _ => true | None => false end);;
    executing ← ask isExecutingScript;
    ASSERT_ (negb executing);;
    stopping ← ask isStopping;
    if stopping : bool then attemptToRunDeferredScriptsAndEnd
    else
      executeScriptsWaitingForLoad e;;
      waiting ← isWaitingForScripts;
      if waiting : bool then mret tt else resumeParsingAfterScriptExecution.

Definition executeScriptsWaitingForStylesheets : PM unit :=
  runner ← ask m_scriptRunner;
  ASSERT_ (match runner with Some _ => true | None => false end);;
  waiting ← askRunner m_hasScriptsWaitingForStylesheets;
  if negb waiting then mret tt
  else
    present ← askRunner m_runnerDocument;
    ASSERT_ present;;
    waiting ← askRunner m_hasScriptsWaitingForStylesheets;
    ASSERT_ waiting;;
    executing ← askRunner runnerIsExecuting;
    ASSERT_ (negb executing);;
    stylesheets ← askDocument haveStylesheetsLoaded;
    ASSERT_ stylesheets;;
    executeParsingBlockingScripts fuel;;
    waiting ← isWaitingForScripts;
    if waiting : bool then mret tt else resumeParsingAfterScriptExecution.

(** ** What scripts call *)

(** [Document::open]: whether another parser takes over, and this one is detached. *)
Definition documentOpen : PM bool :=
  point ← hasInsertionPoint;
  stays ← ask (λ p, m_frame (theDocument p) && isParsing p && (isExecutingScript p || negb (m_wasCreatedByScript p) && point));
  if stays : bool then mret false else detach;; mret true.

Definition cMaxWriteRecursionDepth : nat := 21.

(** The part of [Document::write] below its guard against recursion; a document whose parser
    is detached has another one. *)
Definition writeUnlessTooDeep (characters : list Z) : PM unit :=
  tooDeep ← askDocument m_writeRecursionIsTooDeep;
  if tooDeep : bool then mret tt
  else
    detached ← ask isDetached;
    if detached : bool then mret tt
    else
      point ← hasInsertionPoint;
      ignored ← askDocument (λ d, bool_decide (m_ignoreDestructiveWriteCount d ≠ 0%nat));
      if negb point && ignored then mret tt
      else
        taken ← (if negb point then documentOpen else mret false);
        if taken : bool then mret tt else insert characters.

(** [Document::write], of a document whose parser this is, or was *)
Definition documentWrite (characters : list Z) : PM unit :=
  throws ← askDocument m_throwOnDynamicMarkupInsertionCount;
  if bool_decide (throws ≠ 0%nat) then mret tt
  else
    updateDocument (λ d,
      let depth := S (m_writeRecursionDepth d) in
      let tooDeep := bool_decide (1 < depth)%nat && m_writeRecursionIsTooDeep d in
      set_writeDepth depth (bool_decide (cMaxWriteRecursionDepth < depth)%nat || tooDeep) d);;
    writeUnlessTooDeep characters;;
    updateDocument (λ d, set_writeDepth (m_writeRecursionDepth d - 1) (m_writeRecursionIsTooDeep d) d).

(** [Document::openForBindings] *)
Definition openForBindings : PM unit :=
  throws ← askDocument m_throwOnDynamicMarkupInsertionCount;
  detached ← ask isDetached;
  if bool_decide (throws ≠ 0%nat) || detached then mret tt else documentOpen;; mret tt.

(** [FrameLoader::stopLoading] and [Frame::detachFromPage], when the frame is taken out of its parent *)
Definition removeFrame : PM unit :=
  detached ← ask isDetached;
  (if detached : bool then mret tt else stopParsing);;
  updateDocument (set_frame false).

(** [FrameLoader::stop] *)
Definition stopLoading : PM unit := stopParsing;; finish.

Definition act (a : Action) : PM unit :=
  match a with
  | Write characters => documentWrite characters
  | Stop => detached ← ask isDetached; if detached : bool then mret tt else stopLoading
  | Open => openForBindings
  | RemoveFrame => removeFrame
  | Navigate => updateDocument (set_locationChange true)
  | Receive characters => detached ← ask isDetached; if detached : bool then mret tt else appendDecoded characters
  | Complete => detached ← ask isDetached; if detached : bool then mret tt else finish
  | SetStylesheets loaded => updateDocument (set_stylesheets loaded)
  | QueueMicrotask task => updateDocument (λ d, set_microtasks (microtasks d ++ [task]) (performingCheckpoint d) d)
  end.

Fixpoint actAll (actions : list Action) : PM unit := match actions with [] => mret tt | a :: actions => act a;; actAll actions end.

End Reentrant.

(** The actions of a script, with calls of the parser nested no deeper than the first argument. *)
Fixpoint performAt (depth fuel : nat) : list Action → PM unit :=
  match depth with
  | O => λ _, failWith OutOfFuel
  | S depth => actAll (performAt depth fuel) fuel
  end.

(** ** Events *)

(** What reaches the parser when no other call of it is under way. *)
Inductive ParserEvent :=
  | Data (characters : list Z) | NetworkDone | TimerFired | ScriptLoaded (e : positive) | StylesheetTimerFired
  | SuspendTasks | ResumeTasks | BeginYielding | EndYielding | Scripted (actions : list Action).

(** The script that is loaded is one the parser watches. *)
Definition isWatched (e : positive) (p : HTMLDocumentParser) : bool :=
  match m_scriptRunner p with
  | Some r =>
      let watched pending := watchingForLoad pending && bool_decide (element pending = e) in
      match m_parserBlockingScript r with Some pending => watched pending | None => false end || match m_scriptsToExecuteAfterParsing r with pending :: _ => watched pending | [] => false end
  | None => false
  end.

Definition handle (depth fuel : nat) (event : ParserEvent) : PM unit :=
  let perform := performAt depth fuel in
  detached ← ask isDetached;
  if detached : bool then mret tt
  else
    match event with
    | Data characters => appendDecoded perform fuel characters
    | NetworkDone => finish perform fuel
    | TimerFired =>
        active ← ask (λ p, match m_parserScheduler p with Some s => m_continueNextChunkTimer s | None => false end);
        if active : bool then continueNextChunkTimerFired perform fuel else mret tt
    | ScriptLoaded e =>
        updateDocument (λ d, set_loadedScripts (e :: loadedScripts d) d);;
        watched ← ask (isWatched e);
        if watched : bool then notifyFinished perform fuel e else mret tt
    | StylesheetTimerFired =>
        loaded ← askDocument haveStylesheetsLoaded;
        if loaded : bool then executeScriptsWaitingForStylesheets perform fuel else mret tt
    | SuspendTasks => scheduler ← ask m_parserScheduler; match scheduler with Some _ => suspend | None => mret tt end
    | ResumeTasks => scheduler ← ask m_parserScheduler; match scheduler with Some _ => resume | None => mret tt end
    | BeginYielding => didBeginYieldingParser
    | EndYielding => didEndYieldingParser
    | Scripted actions => perform actions
    end.

Fixpoint handleAll (depth fuel : nat) (events : list ParserEvent) : PM unit :=
  match events with [] => mret tt | event :: events => handle depth fuel event;; handleAll depth fuel events end.

(** [HTMLDocumentParser::parseDocumentFragment], of a parser for a fragment *)
Definition parseDocumentFragment (depth fuel : nat) (source : list Z) : PM unit :=
  insert (performAt depth fuel) fuel source;;
  finish (performAt depth fuel) fuel;;
  processing ← ask processingData;
  ASSERT_ (negb processing);;
  detach.

(** The constructors; the builder of a fragment comes with a tokenizer in the state for the context element. *)
Definition newRunner : HTMLScriptRunner := mkRunner true None [] 0 false.
Definition newScheduler : HTMLParserScheduler := mkScheduler false false false false.
Definition newParser (builder : HTMLTreeBuilder) (d : Document) : HTMLDocumentParser := mkParser ParsingState true false newInputStream (Some newRunner) builder (Some newScheduler) false 0 None d.
Definition newFragmentParser (builder : HTMLTreeBuilder) (d : Document) : HTMLDocumentParser := mkParser ParsingState true false newInputStream None builder None false 0 None d.

End Operations.
