(* ===== verification/DocumentParserCorrect.v ===== *)
(** * Nested calls of the document parser

    What every operation of [HTMLDocumentParser] keeps, whatever the scripts do that it runs and
    that call it again: nesting levels, insertion points and counters are back where they were
    when it returns, and a parser that is past parsing does not parse again. *)

From S2P Require Import Prelude ASCIICType CharSource SegmentedString HTMLInputStream HTMLEntitySearch HTMLToken HTMLTokenizer HTMLPreloadScanner HTMLStackItem ContainerNode HTMLConstructionSite HTMLTreeBuilder DocumentParserState HTMLDocumentParser.

(** ** Outcomes *)

(** If the operation returns, what it leaves has a property. *)
Definition ensures {A} (m : PM A) (Q : A → HTMLDocumentParser → Prop) (p : HTMLDocumentParser) : Prop := match m p with Done a p' => Q a p' | Failed _ => True end.

Lemma ensures_ret {A} (a : A) (Q : A → HTMLDocumentParser → Prop) p : Q a p → ensures (mret a) Q p.
Proof. done. Qed.
Lemma ensures_bind {A B} (m : PM A) (k : A → PM B) Q p : ensures m (λ a p', ensures (k a) Q p') p → ensures (m ≫= k) Q p.
Proof. unfold ensures, mbind, PM_bind. by destruct (m p). Qed.
Lemma ensures_mono {A} (m : PM A) (Q Q' : A → HTMLDocumentParser → Prop) p : ensures m Q p → (∀ a p', Q a p' → Q' a p') → ensures m Q' p.
Proof. unfold ensures. destruct (m p); auto. Qed.
Lemma ensures_ask {A} (f : HTMLDocumentParser → A) (Q : A → HTMLDocumentParser → Prop) p : Q (f p) p → ensures (ask f) Q p.
Proof. done. Qed.
Lemma ensures_update f (Q : unit → HTMLDocumentParser → Prop) p : Q tt (f p) → ensures (update f) Q p.
Proof. done. Qed.
Lemma ensures_assert `{Build} e (Q : unit → HTMLDocumentParser → Prop) p : (ASSERT_DISABLED || e = true → Q tt p) → ensures (ASSERT_ e) Q p.
Proof. unfold ASSERT_. destruct (ASSERT_DISABLED || e); [|done]. intros HQ. by apply HQ. Qed.
Lemma ensures_done {A} (m : PM A) Q p a p' : ensures m Q p → m p = Done a p' → Q a p'.
Proof. unfold ensures. intros Hw E. by rewrite E in Hw. Qed.

(** ** Counters *)

(** What nested calls count: pump sessions, scripts, insertion points, the guards of writes and active parsers. *)
Record Counters := mkCounters { c_pump : nat; c_script : nat; c_points : nat; c_writes : nat; c_ignored : nat; c_throws : nat; c_active : nat }.

Definition counters (p : HTMLDocumentParser) : Counters :=
  let d := theDocument p in
  mkCounters (m_pumpSessionNestingLevel p) (match m_scriptRunner p with Some r => m_scriptNestingLevel r | None => 0%nat end) (length (m_records (m_input p)))
    (m_writeRecursionDepth d) (m_ignoreDestructiveWriteCount d) (m_throwOnDynamicMarkupInsertionCount d) (m_activeParserCount d).

(** Parsing is over: the parser is stopping, stopped or detached. *)
Definition over (p : HTMLDocumentParser) : Prop := m_parserState p ≠ ParsingState.
(** The end came, or was delayed. *)
Definition ending (p : HTMLDocumentParser) : Prop := over p ∨ m_endWasDelayed p = true.

Record moves (f : Counters → Counters) (p p' : HTMLDocumentParser) : Prop := mkMoves {
  moves_counters : counters p' = f (counters p);
  moves_over : over p → over p';
  moves_ending : ending p → ending p';
}.

Definition shifts {A} (f : Counters → Counters) (m : PM A) : Prop := ∀ p, ensures m (λ _ p', moves f p p') p.
(** An operation that keeps all of them. *)
Definition kept {A} (m : PM A) : Prop := shifts id m.

Lemma moves_refl p : moves id p p.
Proof. by split. Qed.
Lemma moves_trans f g p1 p2 p3 : moves f p1 p2 → moves g p2 p3 → moves (g ∘ f) p1 p3.
Proof. intros [E1 O1 D1] [E2 O2 D2]. split; [cbn; by rewrite E2, E1|auto..]. Qed.

Lemma shifts_ext {A} f g (m : PM A) : (∀ c, f c = g c) → shifts f m → shifts g m.
Proof. intros E Hm p. eapply ensures_mono; [apply Hm|]. intros a p' [Ec ? ?]. split; [by rewrite Ec, E|done..]. Qed.
Lemma shifts_bind {A B} f g (m : PM A) (k : A → PM B) : shifts f m → (∀ a, shifts g (k a)) → shifts (g ∘ f) (m ≫= k).
Proof. intros Hm Hk p. apply ensures_bind. eapply ensures_mono; [apply Hm|]. intros a p1 H1. eapply ensures_mono; [apply Hk|]. intros b p2 H2. exact (moves_trans _ _ _ _ _ H1 H2). Qed.

Lemma kept_bind {A B} (m : PM A) (k : A → PM B) : kept m → (∀ a, kept (k a)) → kept (m ≫= k).
Proof. apply shifts_bind. Qed.
Lemma kept_ret {A} (a : A) : kept (mret a).
Proof. intros p. apply moves_refl. Qed.
Lemma kept_fail {A} f : kept (failWith (A := A) f).
Proof. done. Qed.
Lemma kept_ask {A} (f : HTMLDocumentParser → A) : kept (ask f).
Proof. intros p. apply moves_refl. Qed.
Lemma kept_assert `{Build} e : kept (ASSERT_ e).
Proof. intros p. apply ensures_assert. intros _. apply moves_refl. Qed.
Lemma kept_askRunner {A} (f : HTMLScriptRunner → A) : kept (askRunner f).
Proof. intros p. unfold ensures, askRunner. destruct (m_scriptRunner p); [apply moves_refl|done]. Qed.
Lemma kept_askScheduler {A} (f : HTMLParserScheduler → A) : kept (askScheduler f).
Proof. intros p. unfold ensures, askScheduler. destruct (m_parserScheduler p); [apply moves_refl|done]. Qed.
Lemma kept_askStream {A} (f : HTMLInputStream → option A) : kept (askStream f).
Proof. intros p. unfold ensures, askStream. destruct (f (m_input p)); [apply moves_refl|done]. Qed.
Lemma kept_askDocument {A} (f : Document → A) : kept (askDocument f).
Proof. apply kept_ask. Qed.
Lemma kept_builder {A} (m : M HTMLTreeBuilder A) : kept (onBuilder m).
Proof. intros p. unfold ensures, onBuilder. destruct (m (m_treeBuilder p)) as [[a b]|]; [|done]. split; [by destruct p|done..]. Qed.
Lemma kept_scheduler f : kept (updateScheduler f).
Proof. intros p. unfold ensures, updateScheduler. destruct (m_parserScheduler p); [|done]. split; [by destruct p|done..]. Qed.

Lemma kept_runner f : (∀ r, m_scriptNestingLevel (f r) = m_scriptNestingLevel r) → kept (updateRunner f).
Proof. intros Hf p. unfold ensures, updateRunner. destruct (m_scriptRunner p) as [r|] eqn:E; [|done]. split; [unfold counters; cbn; by rewrite E, Hf|done..]. Qed.
Lemma shifts_script g h : (∀ r, m_scriptNestingLevel (g r) = h (m_scriptNestingLevel r)) → shifts (λ c, mkCounters (c_pump c) (h (c_script c)) (c_points c) (c_writes c) (c_ignored c) (c_throws c) (c_active c)) (updateRunner g).
Proof. intros Hg p. unfold ensures, updateRunner. destruct (m_scriptRunner p) as [r|] eqn:E; [|done]. split; [unfold counters; cbn; by rewrite E, Hg|done..]. Qed.

(** The counters of the document. *)
Definition onDocument (f : Document → Document) (w i t a : nat → nat) : Prop :=
  ∀ d, m_writeRecursionDepth (f d) = w (m_writeRecursionDepth d) ∧ m_ignoreDestructiveWriteCount (f d) = i (m_ignoreDestructiveWriteCount d) ∧
       m_throwOnDynamicMarkupInsertionCount (f d) = t (m_throwOnDynamicMarkupInsertionCount d) ∧ m_activeParserCount (f d) = a (m_activeParserCount d).
Lemma shifts_document f w i t a : onDocument f w i t a → shifts (λ c, mkCounters (c_pump c) (c_script c) (c_points c) (w (c_writes c)) (i (c_ignored c)) (t (c_throws c)) (a (c_active c))) (updateDocument f).
Proof. intros Hf p. destruct (Hf (theDocument p)) as (E1 & E2 & E3 & E4). split; [unfold counters; cbn; by rewrite E1, E2, E3, E4|done..]. Qed.
Lemma kept_document f : onDocument f id id id id → kept (updateDocument f).
Proof. intros Hf. eapply shifts_ext; [|by apply shifts_document]. by intros []. Qed.

Lemma kept_stream f : (∀ s s', f s = Some s' → length (m_records s') = length (m_records s)) → kept (onStream f).
Proof. intros Hf p. unfold ensures, onStream. destruct (f (m_input p)) as [s|] eqn:E; [|done]. split; [unfold counters; cbn; by rewrite (Hf _ _ E)|done..]. Qed.
Lemma shifts_stream f h : (∀ s s', f s = Some s' → length (m_records s') = h (length (m_records s))) → shifts (λ c, mkCounters (c_pump c) (c_script c) (h (c_points c)) (c_writes c) (c_ignored c) (c_throws c) (c_active c)) (onStream f).
Proof. intros Hf p. unfold ensures, onStream. destruct (f (m_input p)) as [s|] eqn:E; [|done]. split; [unfold counters; cbn; by rewrite (Hf _ _ E)|done..]. Qed.
Lemma shifts_pump h : shifts (λ c, mkCounters (h (c_pump c)) (c_script c) (c_points c) (c_writes c) (c_ignored c) (c_throws c) (c_active c)) (update (λ p, set_pumpLevel (h (m_pumpSessionNestingLevel p)) p)).
Proof. intros p. split; [done|done..]. Qed.

(** [m] between an operation and the one that takes it back. *)
Lemma kept_bracket {A B} (up : PM unit) (m : PM A) (k : A → PM B) f g : (∀ c, g (f c) = c) → shifts f up → kept m → (∀ a, shifts g (k a)) → kept (up;; a ← m; k a).
Proof. intros E Hu Hm Hk. eapply shifts_ext; [exact E|]. apply (shifts_bind f g); [done|]. intros _. apply (shifts_bind id g); done. Qed.

Create HintDb kept.
#[export] Hint Resolve kept_ret kept_fail kept_ask kept_assert kept_askRunner kept_askScheduler kept_askStream kept_askDocument kept_builder kept_scheduler : kept.

(** A composed operation is kept when its parts are. *)
Ltac kept_tac :=
  repeat first
    [ assumption
    | solve [auto with kept]
    | apply kept_bind; [|let a := fresh "a" in intros a; try destruct a]
    | match goal with |- kept (match ?x with _ => _ end) => destruct x end
    | match goal with |- kept (if ?x then _ else _) => destruct x end ].

(** ** Operations *)

Section Operations.
Context `{Build} `{Script} `{Parser} `{TreeBuilder} `{HTMLEntityTable} `{Page}.

Lemma kept_documentPointer : kept documentPointer.
Proof. unfold documentPointer. kept_tac. Qed.
Lemma kept_waiting : kept isWaitingForScripts.
Proof. unfold isWaitingForScripts. kept_tac. Qed.
#[local] Hint Resolve kept_documentPointer kept_waiting : kept.
Lemma kept_shouldDelay : kept shouldDelayEnd.
Proof. unfold shouldDelayEnd. kept_tac. Qed.
Lemma kept_point : kept hasInsertionPoint.
Proof. unfold hasInsertionPoint. kept_tac. Qed.
Lemma kept_schedule : kept scheduleForResume.
Proof. unfold scheduleForResume. kept_tac. Qed.
#[local] Hint Resolve kept_shouldDelay kept_point kept_schedule : kept.
Lemma kept_suspend : kept suspend.
Proof. unfold suspend. kept_tac. Qed.
Lemma kept_resume : kept resume.
Proof. unfold resume. kept_tac. Qed.
Lemma kept_beginYielding : kept didBeginYieldingParser.
Proof. unfold didBeginYieldingParser. kept_tac. Qed.
Lemma kept_endYielding : kept didEndYieldingParser.
Proof. unfold didEndYieldingParser. kept_tac. Qed.

Lemma kept_now : kept now.
Proof. unfold now. kept_tac. by apply kept_document. Qed.
#[local] Hint Resolve kept_now : kept.
Lemma kept_yieldToken session : kept (shouldYieldBeforeToken session).
Proof. unfold shouldYieldBeforeToken, checkForYield. kept_tac. Qed.
Lemma kept_yieldScript session : kept (shouldYieldBeforeExecutingScript session).
Proof. unfold shouldYieldBeforeExecutingScript. cbv zeta. kept_tac. Qed.

Lemma kept_nextToken : kept nextToken.
Proof. intros p. unfold ensures, nextToken. destruct (HTMLTokenizer.nextToken _) as [[token w]|]; [|done]. split; done. Qed.
Lemma kept_construct token : kept (constructTreeFromHTMLToken token).
Proof. unfold constructTreeFromHTMLToken. destruct (atomicToken token); kept_tac. Qed.
#[local] Hint Resolve kept_yieldToken kept_yieldScript kept_nextToken kept_construct : kept.

Lemma kept_state state : state ≠ ParsingState → kept (update (set_state state)).
Proof. intros Hs p. split; [done|done|intros _; by left]. Qed.
(** Reading ahead *)
Lemma kept_setScanner f : kept (update (λ p, set_preloadScanner (f p) p)).
Proof. intros p. by split. Qed.
Lemma kept_scanner f : kept (onScanner f).
Proof. intros p. unfold ensures, onScanner. destruct (m_preloadScanner p) as [scanner|]; [|done]. destruct (f scanner); [by split|done]. Qed.
#[local] Hint Resolve kept_setScanner kept_scanner : kept.
Lemma kept_scanAhead : kept scanAhead.
Proof. unfold scanAhead. kept_tac. Qed.
#[local] Hint Resolve kept_scanAhead : kept.
Lemma kept_makeScanner : kept makePreloadScanner.
Proof. unfold makePreloadScanner. kept_tac. Qed.
Lemma kept_appendCurrent : kept appendCurrentInputStreamToPreloadScannerAndScan.
Proof. unfold appendCurrentInputStreamToPreloadScannerAndScan. kept_tac. Qed.
Lemma kept_appendToScanner source : kept (appendToScanner source).
Proof. unfold appendToScanner. kept_tac. Qed.
#[local] Hint Resolve kept_makeScanner kept_appendCurrent kept_appendToScanner : kept.

Lemma kept_detach : kept detach.
Proof.
  unfold detach. apply kept_bind; [intros p; split; [done|done|intros _; by left]|]. intros _. apply kept_bind; [intros p; split; [unfold counters; cbn; by destruct (m_scriptRunner p)|done..]|]. intros _. apply kept_bind; [apply kept_setScanner|]. intros _. intros p. by split.
Qed.
Lemma kept_stop : kept stopParsing.
Proof. unfold stopParsing. apply kept_bind; [by apply kept_state|]. intros _. intros p. by split. Qed.
Lemma kept_setDelayed : kept (update (set_endWasDelayed true)).
Proof. intros p. split; [done|done|intros _; by right]. Qed.
#[local] Hint Resolve kept_detach kept_stop kept_setDelayed : kept.

Lemma kept_watch pending : kept (watchForLoad pending).
Proof. unfold watchForLoad, isLoaded. kept_tac. Qed.
Lemma kept_isLoaded pending : kept (isLoaded pending).
Proof. unfold isLoaded. kept_tac. Qed.
#[local] Hint Resolve kept_watch kept_isLoaded : kept.
Lemma kept_ready pending : kept (isPendingScriptReady pending).
Proof. unfold isPendingScriptReady. kept_tac; by apply kept_runner. Qed.
Lemma kept_requestBlocking e : kept (requestParsingBlockingScript e).
Proof. unfold requestParsingBlockingScript. cbv zeta. kept_tac; by apply kept_runner. Qed.
Lemma kept_requestDeferred e : kept (requestDeferredScript e).
Proof. by apply kept_runner. Qed.
#[local] Hint Resolve kept_ready kept_requestBlocking kept_requestDeferred : kept.

(** Insertion points *)
Lemma begin_points s s' : beginRecord s = Some s' → length (m_records s') = S (length (m_records s)).
Proof.
  unfold beginRecord, splitInto. destruct (moveAssign _) as [[next first]|]; cbn [mbind option_bind]; [|done]. intros [= <-]. cbn. by destruct (bool_decide _).
Qed.
Lemma end_points s s' : endRecord s = Some s' → length (m_records s') = (length (m_records s) - 1)%nat.
Proof.
  unfold endRecord. destruct (m_records s) as [|r l]; [done|]. unfold mergeFrom. destruct (SegmentedString.append _ _) as [x|]; cbn [mbind option_bind]; [|done]. intros E.
  destruct (m_isClosed (HTMLInputStream.m_next r)); [destruct (close _) as [y|]; cbn [mbind option_bind] in E; [|done]|]; injection E as <-; cbn; lia.
Qed.
Lemma last_points f s s' : onLast f s = Some s' → length (m_records s') = length (m_records s).
Proof.
  unfold onLast. destruct (HTMLInputStream.m_last s) as [|n]; [destruct (f _); cbn [mbind option_bind]; [by intros [= <-]|done]|]. destruct (place n s) as [i|]; cbn [mbind option_bind]; [|done]. destruct (m_records s !! i) as [r|]; cbn [mbind option_bind]; [|done]. destruct (f _); cbn [mbind option_bind]; [|done]. intros [= <-]. cbn. by rewrite length_insert.
Qed.

(** A script runs with an insertion point. *)
Lemma kept_scriptLevel {A} (m : PM A) : kept m → kept (updateRunner (λ r, set_scriptLevel (S (m_scriptNestingLevel r)) r);; m;; updateRunner (λ r, set_scriptLevel (m_scriptNestingLevel r - 1) r)).
Proof.
  intros Hm. eapply kept_bracket; [|by apply (shifts_script _ S)|done|intros _; by apply (shifts_script _ (λ n, n - 1)%nat)]. intros []. cbn. by rewrite Nat.sub_0_r.
Qed.
Lemma kept_insertionPoint (m : PM unit) : kept m → kept (onStream beginRecord;; m;; onStream endRecord).
Proof.
  intros Hm. eapply kept_bracket; [|apply (shifts_stream _ S), begin_points|done|intros _; apply (shifts_stream _ (λ n, n - 1)%nat), end_points]. intros []. cbn. by rewrite Nat.sub_0_r.
Qed.
(** Associativity, to see the brackets. *)
Lemma kept_assoc {A B C} (m : PM A) (k : A → PM B) (l : B → PM C) : kept ((m ≫= k) ≫= l) → kept (m ≫= λ a, k a ≫= l).
Proof. intros Hk p. specialize (Hk p). unfold ensures, mbind, PM_bind in *. by destruct (m p). Qed.

Section Reentrant.
Context (perform : list Action → PM unit) (fuel : nat) (Hperform : ∀ actions, kept (perform actions)).

Lemma kept_checkpoint : kept (performMicrotaskCheckpoint perform fuel).
Proof.
  assert (Hloop : ∀ n, kept (microtaskLoop perform n)) by (induction n as [|n IH]; cbn [microtaskLoop]; kept_tac; by apply kept_document). unfold performMicrotaskCheckpoint. kept_tac; by apply kept_document.
Qed.

Lemma kept_classic e : kept (executeClassicScript perform e).
Proof.
  unfold executeClassicScript. apply kept_bind; [auto with kept|]. intros frame. destruct frame; [|apply kept_ret]. cbv zeta. cbn [negb]. set (n := match script_kind (scriptOf e) with Inline => 0%nat | _ => 1%nat end).
  eapply kept_bracket; [|apply (shifts_document _ id (λ i, i + n)%nat id id); by intros []|done|intros _; apply (shifts_document _ id (λ i, i - n)%nat id id); by intros []]. intros []. cbn. f_equal. lia.
Qed.

Lemma kept_pendingScript pending : kept (executePendingScript perform pending).
Proof. unfold executePendingScript. apply kept_bind; [apply kept_classic|done]. Qed.

Lemma kept_prepare e : kept (prepareScript perform e).
Proof. unfold prepareScript. cbv zeta. pose proof (kept_classic e). kept_tac; apply Hperform. Qed.

Lemma kept_executePending pending : kept (executePendingScriptAndDispatchEvent perform fuel pending).
Proof.
  unfold executePendingScriptAndDispatchEvent. pose proof kept_checkpoint. pose proof (kept_pendingScript pending) as Hp. apply kept_bind; [auto with kept|]. intros executing. apply kept_bind; [kept_tac|]. intros _.
  apply kept_assoc, kept_assoc. apply kept_bind; [|intros _; kept_tac]. intros p. pose proof (kept_scriptLevel _ Hp p) as Hk. unfold ensures, mbind, PM_bind in *. destruct (updateRunner _ p); done.
Qed.

Lemma kept_blockingScripts n : kept (executeParsingBlockingScripts perform fuel n).
Proof.
  induction n as [|n IH]; cbn [executeParsingBlockingScripts]; [apply kept_fail|]. apply kept_bind; [auto with kept|]. intros [pending|]; [|apply kept_ret]. apply kept_bind; [auto with kept|]. intros ready. destruct ready; [|apply kept_ret]. cbn [negb].
  do 6 (apply kept_bind; [auto with kept|]; intros ?). apply kept_assoc, kept_assoc, kept_assoc. apply kept_bind; [|done]. intros p. assert (Hm : kept (updateRunner (set_blocking None);; executePendingScriptAndDispatchEvent perform fuel pending)) by (apply kept_bind; [by apply kept_runner|intros _; apply kept_executePending]).
  pose proof (kept_insertionPoint _ Hm p) as Hk. unfold ensures, mbind, PM_bind in *. destruct (onStream beginRecord p) as [? p1|]; [|done]. destruct (updateRunner _ p1); done.
Qed.

Lemma kept_runScript e : kept (runScript perform fuel e).
Proof.
  unfold runScript. pose proof kept_checkpoint. do 5 (apply kept_bind; [auto with kept|]; intros ?). apply kept_bind; [kept_tac|]. intros _.
  assert (Hrest : kept (d ← prepareScript perform e; handlePrepared perform d e)).
  { apply kept_bind; [apply kept_prepare|]. pose proof (kept_classic e). intros []; unfold handlePrepared; kept_tac. by apply kept_runner. }
  intros p. pose proof (kept_insertionPoint _ (kept_scriptLevel _ Hrest) p) as Hk. unfold ensures, mbind, PM_bind in *. destruct (onStream beginRecord p) as [? p1|]; [|done]. destruct (updateRunner _ p1) as [? p2|]; [|done]. destruct (prepareScript perform e p2) as [d p3|]; [|done]. destruct (handlePrepared perform d e p3); done.
Qed.

Lemma kept_execute e : kept (execute perform fuel e).
Proof. unfold execute. pose proof (kept_runScript e). pose proof (kept_blockingScripts fuel). kept_tac. Qed.

Lemma kept_deferredScripts n : kept (executeScriptsWaitingForParsing perform fuel n).
Proof.
  induction n as [|n IH]; cbn [executeScriptsWaitingForParsing]; [apply kept_fail|]. pose proof kept_executePending. kept_tac; by apply kept_runner.
Qed.

Lemma kept_paused : kept (runScriptsForPausedTreeBuilder perform fuel).
Proof.
  unfold runScriptsForPausedTreeBuilder. pose proof kept_checkpoint. apply kept_bind; [auto with kept|]. intros _. apply kept_bind; [auto with kept|]. intros [data|]; [|pose proof kept_execute; kept_tac].
  do 3 (apply kept_bind; [auto with kept|]; intros ?). destruct (constructElementWithFallback _) as [newElement reaction]. set (m := performMicrotaskCheckpoint perform fuel;; perform reaction;; onBuilder (didCreateCustomOrFallbackElement newElement data)). assert (Hm : kept m) by (unfold m; kept_tac; apply Hperform).
  intros p. assert (Hb : kept (updateDocument (λ d, set_throwOnWrites (S (m_throwOnDynamicMarkupInsertionCount d)) d);; m;; updateDocument (λ d, set_throwOnWrites (m_throwOnDynamicMarkupInsertionCount d - 1) d))).
  { eapply kept_bracket; [|apply (shifts_document _ id id S id); by intros []|done|intros _; apply (shifts_document _ id id (λ t, t - 1)%nat id); by intros []]. intros []. cbn. by rewrite Nat.sub_0_r. }
  specialize (Hb p). unfold m in Hb. unfold ensures, mbind, PM_bind in *. destruct (updateDocument _ p) as [? p1|]; [|done]. destruct (performMicrotaskCheckpoint perform fuel p1) as [? p2|]; [|done]. destruct (perform reaction p2) as [? p3|]; [|done]. destruct (onBuilder _ p3); done.
Qed.

Lemma kept_pause mode session : kept (pauseForScripts perform fuel mode session).
Proof. unfold pauseForScripts. pose proof kept_paused. kept_tac. Qed.

Lemma kept_pumpLoop n mode session : kept (pumpTokenizerLoop perform fuel n mode session).
Proof. revert session. induction n as [|n IH]; intros session; cbn [pumpTokenizerLoop]; [apply kept_fail|]. pose proof kept_pause. kept_tac. Qed.

Lemma kept_afterPumping shouldResume : kept (afterPumping shouldResume).
Proof. unfold afterPumping. kept_tac. Qed.

Lemma kept_pump mode : kept (pumpTokenizer perform fuel mode).
Proof.
  unfold pumpTokenizer. do 4 (apply kept_bind; [auto with kept|]; intros ?). cbv zeta. set (n := if m_isParsingFragment then 0%nat else 1%nat). apply kept_bind; [auto with kept|]. intros _.
  set (m := shouldResume ← pumpTokenizerLoop perform fuel fuel mode newSession; afterPumping shouldResume). assert (Hm : kept m) by (apply kept_bind; [apply kept_pumpLoop|apply kept_afterPumping]).
  assert (Hin : kept (updateDocument (λ d, set_activeParsers (m_activeParserCount d + n) d);; m;; updateDocument (λ d, set_activeParsers (m_activeParserCount d - n) d))).
  { eapply kept_bracket; [|apply (shifts_document _ id id id (λ a, a + n)%nat); by intros []|done|intros _; apply (shifts_document _ id id id (λ a, a - n)%nat); by intros []]. intros []. cbn. f_equal. lia. }
  assert (Hout : kept (update (λ p, set_pumpLevel (S (m_pumpSessionNestingLevel p)) p);; (updateDocument (λ d, set_activeParsers (m_activeParserCount d + n) d);; m;; updateDocument (λ d, set_activeParsers (m_activeParserCount d - n) d));; update (λ p, set_pumpLevel (m_pumpSessionNestingLevel p - 1) p))).
  { eapply kept_bracket; [|apply (shifts_pump S)|exact Hin|intros _; apply (shifts_pump (λ l, l - 1)%nat)]. intros []. cbn. by rewrite Nat.sub_0_r. }
  intros p. specialize (Hout p). unfold m in Hout. unfold ensures, mbind, PM_bind in *. destruct (update _ p) as [? p1|]; [|done]. destruct (updateDocument _ p1) as [? p2|]; [|done]. destruct (pumpTokenizerLoop perform fuel fuel mode newSession p2) as [r p3|]; [|done]. destruct (afterPumping r p3) as [? p4|]; [|done]. destruct (updateDocument _ p4); done.
Qed.

Lemma kept_pumpIfPossible mode : kept (pumpTokenizerIfPossible perform fuel mode).
Proof. unfold pumpTokenizerIfPossible. pose proof (kept_pump mode). kept_tac. Qed.

Lemma kept_end : kept (end_ perform fuel).
Proof. unfold end_, finishedParsing. pose proof kept_checkpoint. kept_tac; try apply Hperform; by apply kept_document. Qed.

Lemma kept_attemptDeferred : kept (attemptToRunDeferredScriptsAndEnd perform fuel).
Proof. unfold attemptToRunDeferredScriptsAndEnd. pose proof kept_end. pose proof (kept_deferredScripts fuel). kept_tac. Qed.

Lemma kept_interactive : kept (setInteractive perform).
Proof. unfold setInteractive. kept_tac. by apply kept_document. Qed.

(** When the parser prepares to stop, parsing is over. *)
Lemma prepare_over p : ensures (prepareToStopParsing perform fuel) (λ _ p', moves id p p' ∧ over p') p.
Proof.
  unfold prepareToStopParsing. pose proof kept_interactive as Hi. pose proof kept_attemptDeferred as Ha.
  assert (Hrest : ∀ stopped : bool, ∀ p1, (stopped = true → over p1) → ensures (if stopped then mret tt else
    parsing ← ask isParsing; ASSERT_ parsing;; update (set_state StoppingState);; runner ← ask m_scriptRunner; match runner with Some _ => setInteractive perform | None => mret tt end;;
    detached ← ask isDetached; if detached : bool then mret tt else attemptToRunDeferredScriptsAndEnd perform fuel) (λ _ p', moves id p1 p' ∧ over p') p1).
  { intros [] p1 Hs; [apply ensures_ret; split; [apply moves_refl|by apply Hs]|]. apply ensures_bind, ensures_ask, ensures_bind, ensures_assert. intros _. apply ensures_bind, ensures_update. set (p2 := set_state StoppingState p1). assert (K12 : moves id p1 p2) by (split; [done|done|intros _; by left]).
    assert (Hk : kept (runner ← ask m_scriptRunner; match runner with Some _ => setInteractive perform | None => mret tt end;; detached ← ask isDetached; if detached : bool then mret tt else attemptToRunDeferredScriptsAndEnd perform fuel)) by kept_tac.
    eapply ensures_mono; [apply Hk|]. intros [] p' K2. split; [exact (moves_trans _ _ _ _ _ K12 K2)|]. by apply (moves_over _ _ _ K2). }
  apply ensures_bind. eapply ensures_mono; [apply kept_point|]. intros point p1 K1. apply ensures_bind, ensures_assert. intros _. apply ensures_bind. eapply ensures_mono; [apply kept_pumpIfPossible|]. intros [] p2 K2. apply ensures_bind, ensures_ask.
  eapply ensures_mono; [apply Hrest|].
  - unfold isStopped, over. rewrite bool_decide_eq_true. intros [-> | ->]; done.
  - intros [] p3 [K3 Ho]. split; [|done]. exact (moves_trans _ _ _ _ _ (moves_trans _ _ _ _ _ K1 K2) K3).
Qed.

Lemma kept_prepareToStop : kept (prepareToStopParsing perform fuel).
Proof. intros p. eapply ensures_mono; [apply prepare_over|]. by intros [] p' [? _]. Qed.

Lemma kept_attemptToEnd : kept (attemptToEnd perform fuel).
Proof. unfold attemptToEnd. pose proof kept_prepareToStop. kept_tac. Qed.

Lemma kept_endIfDelayed : kept (endIfDelayed perform fuel).
Proof.
  unfold endIfDelayed. apply kept_bind; [auto with kept|]. intros detached. destruct detached; [apply kept_ret|]. apply kept_bind; [auto with kept|]. intros delayed. destruct delayed; [|apply kept_ret]. apply kept_bind; [auto with kept|]. intros delay. destruct delay; [apply kept_ret|].
  intros p. apply ensures_bind, ensures_update. eapply ensures_mono; [apply prepare_over|]. intros [] p' [[E Ho He] Hover]. split; [exact E|done|intros _; by left].
Qed.

Lemma kept_finish : kept (finish perform fuel).
Proof. unfold finish. pose proof kept_attemptToEnd. kept_tac. apply kept_stream, last_points. Qed.

Lemma kept_insert source : kept (insert perform fuel source).
Proof.
  unfold insert. pose proof (kept_pumpIfPossible ForceSynchronous). pose proof kept_endIfDelayed. kept_tac. apply kept_stream. intros s s'. destruct (segmentOf source) as [x|]; cbn [mbind option_bind]; [|done]. destruct (setExcludeLineNumbers x) as [y|]; cbn [mbind option_bind]; [|done].
  unfold insertAtCurrentInsertionPoint. destruct (SegmentedString.append y _); cbn [mbind option_bind]; [by intros [= <-]|done].
Qed.

Lemma kept_append source : kept (append perform fuel source).
Proof.
  unfold append. pose proof (kept_pumpIfPossible AllowYield). pose proof kept_endIfDelayed. kept_tac. apply kept_stream. intros s s'. destruct (SegmentedString_of (builderString source)) as [x|]; cbn [mbind option_bind]; [|done]. apply last_points.
Qed.
Lemma kept_appendDecoded source : kept (appendDecoded perform fuel source).
Proof. unfold appendDecoded. pose proof (kept_append source). kept_tac. Qed.

Lemma kept_timer : kept (continueNextChunkTimerFired perform fuel).
Proof. unfold continueNextChunkTimerFired, resumeParsingAfterYield. pose proof (kept_pump AllowYield). pose proof kept_endIfDelayed. kept_tac. Qed.

Lemma kept_resumeAfterScript : kept (resumeParsingAfterScriptExecution perform fuel).
Proof. unfold resumeParsingAfterScriptExecution. pose proof (kept_pumpIfPossible AllowYield). pose proof kept_endIfDelayed. kept_tac. Qed.

Lemma kept_notify e : kept (notifyFinished perform fuel e).
Proof. unfold notifyFinished, executeScriptsWaitingForLoad. pose proof kept_resumeAfterScript. pose proof kept_attemptDeferred. pose proof (kept_blockingScripts fuel). kept_tac. Qed.

Lemma kept_stylesheets : kept (executeScriptsWaitingForStylesheets perform fuel).
Proof. unfold executeScriptsWaitingForStylesheets. pose proof kept_resumeAfterScript. pose proof (kept_blockingScripts fuel). kept_tac. Qed.

Lemma kept_open : kept documentOpen.
Proof. unfold documentOpen. kept_tac. Qed.

Lemma kept_write characters : kept (documentWrite perform fuel characters).
Proof.
  unfold documentWrite. apply kept_bind; [auto with kept|]. intros throws. destruct (bool_decide (throws ≠ 0%nat)); [apply kept_ret|]. pose proof kept_open. pose proof (kept_insert characters).
  eapply kept_bracket; [|apply (shifts_document _ S id id id); by intros []|unfold writeUnlessTooDeep; kept_tac|intros _; apply (shifts_document _ (λ w, w - 1)%nat id id id); by intros []]. intros []. cbn. by rewrite Nat.sub_0_r.
Qed.

Lemma kept_act a : kept (act perform fuel a).
Proof.
  destruct a; cbn [act]; unfold openForBindings, removeFrame, stopLoading; pose proof kept_open; pose proof kept_finish; pose proof kept_appendDecoded; [apply kept_write|kept_tac..]; by apply kept_document.
Qed.
Lemma kept_actAll actions : kept (actAll perform fuel actions).
Proof. induction actions as [|a actions IH]; cbn [actAll]; [apply kept_ret|]. pose proof kept_act. kept_tac. Qed.

End Reentrant.
Lemma kept_perform depth fuel actions : kept (performAt depth fuel actions).
Proof. revert actions. induction depth as [|depth IH]; intros actions; cbn [performAt]; [apply kept_fail|]. by apply kept_actAll. Qed.

Lemma kept_handle depth fuel event : kept (handle depth fuel event).
Proof.
  unfold handle. cbv zeta. pose proof (kept_perform depth fuel) as Hp. pose proof (kept_appendDecoded _ fuel Hp). pose proof (kept_finish _ fuel Hp). pose proof (kept_timer _ fuel Hp). pose proof (kept_notify _ fuel Hp). pose proof (kept_stylesheets _ fuel Hp).
  pose proof kept_suspend. pose proof kept_resume. pose proof kept_beginYielding. pose proof kept_endYielding. apply kept_bind; [auto with kept|]. intros detached. destruct detached; [apply kept_ret|]. destruct event; kept_tac. by apply kept_document.
Qed.

End Operations.
