(* ===== verification/DocumentParserTheorems.v ===== *)
(** * What the document parser does with its events

    Nested calls are balanced, a parser that a script blocks builds nothing while its preload scanner reads ahead, and the end of a
    document is not forgotten; and two ways in which scripts bring the parser to fail. *)

From Stdlib Require Import String.
From S2P Require Import Prelude ASCIICType CharSource SegmentedString HTMLInputStream InputStreamPreprocessor HTMLEntitySearch HTMLEntityTable HTMLEntityParser HTMLToken HTMLTokenizer HTMLPreloadScanner TokenizerSafety TokenizerRefinement HTMLStackItem ContainerNode ContainerNodeLists ContainerNodeCorrect ContainerNodeScripts ContainerNodeTheorems.
From S2P Require Import TreeOrder HTMLConstructionSite TreeTasks SiteInvariant SiteTheorems HTMLTreeBuilder TreeBuilderExamples DocumentParserState HTMLDocumentParser DocumentParserCorrect.

#[local] Open Scope string_scope.
#[local] Open Scope list_scope.

Section Events.
Context `{Build} `{Script} `{Parser} `{TreeBuilder} `{HTMLEntityTable} `{Page}.

(** ** Waiting *)

Lemma work_pure b w b' : hasParserBlockingScriptWork b = Some (w, b') → b' = b.
Proof. unfold hasParserBlockingScriptWork, gets, ASSERT, mbind, M_bind, mret, M_ret. destruct (ASSERT_DISABLED || _); [by intros [= _ <-]|done]. Qed.
Lemma builder_same p : set_treeBuilder (m_treeBuilder p) p = p.
Proof. by destruct p. Qed.

(** Asking whether the parser waits changes nothing. *)
Lemma waiting_pure p (Q : bool → HTMLDocumentParser → Prop) : (∀ w, isWaitingForScripts p = Done w p → Q w p) → ensures isWaitingForScripts Q p.
Proof.
  intros HQ. assert (Hp : ensures isWaitingForScripts (λ _ p', p' = p) p).
  { unfold isWaitingForScripts. apply ensures_bind. unfold ensures at 1, onBuilder. destruct (hasParserBlockingScriptWork (m_treeBuilder p)) as [[w b']|] eqn:E; [|done]. apply work_pure in E as ->. rewrite builder_same. apply ensures_bind, ensures_ask, ensures_bind, ensures_assert. intros _. by apply ensures_ret. }
  unfold ensures in *. destruct (isWaitingForScripts p) as [w p'|]; [|done]. subst p'. by apply HQ.
Qed.

(** The parser has a reason to put off the end: it waits for a script, or its scheduler is to resume it. *)
Definition delays (p : HTMLDocumentParser) : Prop := isWaitingForScripts p = Done true p ∨ isScheduledForResume p = true.

(** No call of the parser is under way. *)
Definition atRest (p : HTMLDocumentParser) : Prop := c_pump (counters p) = 0%nat ∧ c_script (counters p) = 0%nat.
Definition remembered (p : HTMLDocumentParser) : Prop := m_endWasDelayed p = true → over p ∨ delays p.

Lemma rest_moves p p' : moves id p p' → atRest p → atRest p'.
Proof. intros [E _ _]. unfold atRest. by rewrite E. Qed.

Lemma rest_delay p : atRest p → ensures shouldDelayEnd (λ d p', p' = p ∧ (d = true → delays p)) p.
Proof.
  intros [Hp Hs]. unfold shouldDelayEnd. apply ensures_bind, ensures_ask. unfold inPumpSession. cbn in Hp. rewrite bool_decide_eq_false_2 by lia. apply ensures_bind, waiting_pure. intros [] Hw; [apply ensures_ret; split; [done|by left]|]. apply ensures_ask. split; [done|]. intros [Hd|He]%orb_true_iff; [by right|].
  unfold isExecutingScript in He. cbn in Hs. destruct (m_scriptRunner p) as [r|]; [|done]. unfold runnerIsExecuting in He. by rewrite Hs in He.
Qed.

Lemma over_remembered p : over p → remembered p.
Proof. intros Ho _. by left. Qed.
Lemma detached_over p : isDetached p = true → over p.
Proof. unfold isDetached, over. rewrite bool_decide_eq_true. by intros ->. Qed.
Lemma stopped_over p : isStopped p = true → over p.
Proof. unfold isStopped, over. rewrite bool_decide_eq_true. by intros [-> | ->]. Qed.

Section Reentrant.
Context (perform : list Action → PM unit) (fuel : nat) (Hperform : ∀ actions, kept (perform actions)).

Lemma rest_endIfDelayed p : atRest p → ensures (endIfDelayed perform fuel) (λ _ p', remembered p') p.
Proof.
  intros Hr. unfold endIfDelayed. apply ensures_bind, ensures_ask. destruct (isDetached p) eqn:Ed; [apply ensures_ret, over_remembered; by apply detached_over|]. apply ensures_bind, ensures_ask. destruct (m_endWasDelayed p) eqn:El; cbn [negb]; [|apply ensures_ret; intros ?; congruence].
  apply ensures_bind. eapply ensures_mono; [by apply rest_delay|]. intros [] p' [-> Hd]; [apply ensures_ret; intros _; right; by apply Hd|]. apply ensures_bind, ensures_update. eapply ensures_mono; [by apply prepare_over|]. intros [] p' [_ Ho]. by apply over_remembered.
Qed.

Lemma rest_attemptToEnd p : atRest p → ensures (attemptToEnd perform fuel) (λ _ p', remembered p' ∧ ending p') p.
Proof.
  intros Hr. unfold attemptToEnd. apply ensures_bind. eapply ensures_mono; [by apply rest_delay|]. intros [] p' [-> Hd].
  - apply ensures_update. split; [|by right]. intros _. destruct (Hd eq_refl) as [Hw|Hs]; [|by right; right]. right; left. clear Hd. unfold isWaitingForScripts, onBuilder, ask, mbind, PM_bind in *. cbn. destruct (hasParserBlockingScriptWork (m_treeBuilder p)) as [[w b]|]; [|done]. cbn in *.
    unfold ASSERT_ in *. destruct (ASSERT_DISABLED || _); [|done]. cbn in *. injection Hw as -> E. f_equal. by rewrite <-E at 2.
  - eapply ensures_mono; [by apply prepare_over|]. intros [] p' [_ Ho]. split; [by apply over_remembered|by left].
Qed.

(** Going on after an operation that keeps the levels. *)
Lemma rest_bind {A B} (m : PM A) (k : A → PM B) (Q : B → HTMLDocumentParser → Prop) p : atRest p → kept m → (∀ a p', moves id p p' → atRest p' → ensures (k a) Q p') → ensures (m ≫= k) Q p.
Proof. intros Hr Hm Hk. apply ensures_bind. eapply ensures_mono; [apply Hm|]. intros a p' Hmv. apply Hk; [done|]. exact (rest_moves p p' Hmv Hr). Qed.

Ltac rest_step p Hr :=
  apply (rest_bind _ _ _ _ Hr); [first [apply kept_documentPointer|auto with kept]|];
  let p' := fresh "p" in let Hr' := fresh "Hr" in intros ? p' _ Hr'; clear dependent p; rename p' into p; rename Hr' into Hr.

Lemma rest_finish p : atRest p → ensures (finish perform fuel) (λ _ p', remembered p' ∧ ending p') p.
Proof.
  intros Hr. unfold finish. apply (rest_bind _ _ _ _ Hr); [apply kept_askStream|]. intros seen p1 _ Hr1. apply (rest_bind _ _ _ _ Hr1); [destruct seen; [apply kept_ret|apply kept_stream, last_points]|]. intros _ p2 _ Hr2. by apply rest_attemptToEnd.
Qed.

Lemma rest_insert source p : atRest p → remembered p → ensures (insert perform fuel source) (λ _ p', remembered p') p.
Proof.
  intros Hr HR. pose proof (kept_insert perform fuel Hperform source p) as Hk. unfold insert in *. apply ensures_bind, ensures_ask. destruct (isStopped p) eqn:Es; [by apply ensures_ret|]. clear Hk.
  assert (Hs : kept (onStream (λ s, x ← segmentOf source; x ← setExcludeLineNumbers x; insertAtCurrentInsertionPoint x s))).
  { apply kept_stream. intros s s'. destruct (segmentOf source) as [x|]; cbn [mbind option_bind]; [|done]. destruct (setExcludeLineNumbers x) as [y|]; cbn [mbind option_bind]; [|done]. unfold insertAtCurrentInsertionPoint. destruct (SegmentedString.append y _); cbn [mbind option_bind]; [by intros [= <-]|done]. }
  apply (rest_bind _ _ _ _ Hr Hs). intros _ p1 _ Hr1. apply (rest_bind _ _ _ _ Hr1); [by apply kept_pumpIfPossible|]. intros _ p2 _ Hr2. apply (rest_bind _ _ _ _ Hr2); [apply kept_waiting|]. intros w p3 _ Hr3. apply (rest_bind _ _ _ _ Hr3); [destruct w; [apply kept_documentPointer|apply kept_ret]|]. intros _ p4 _ Hr4. by apply rest_endIfDelayed.
Qed.

Lemma rest_appendDecoded source p : atRest p → remembered p → ensures (appendDecoded perform fuel source) (λ _ p', remembered p') p.
Proof.
  intros Hr HR. unfold appendDecoded. destruct (bool_decide _); [by apply ensures_ret|]. unfold append. apply ensures_bind, ensures_ask. destruct (isStopped p); [by apply ensures_ret|].
  apply (rest_bind _ _ _ _ Hr); [apply kept_appendToScanner|]. intros _ p0 _ Hr0.
  apply (rest_bind _ _ _ _ Hr0); [apply kept_stream; intros s s'; destruct (SegmentedString_of (builderString source)) as [x|]; cbn [mbind option_bind]; [apply last_points|done]|]. intros _ p1 _ Hr1. apply ensures_bind, ensures_ask. unfold inPumpSession. rewrite bool_decide_eq_false_2 by (destruct Hr1 as [Hp _]; cbn in Hp; lia).
  apply (rest_bind _ _ _ _ Hr1); [by apply kept_pumpIfPossible|]. intros _ p2 _ Hr2. by apply rest_endIfDelayed.
Qed.

Lemma rest_resumeAfterScript p : atRest p → ensures (resumeParsingAfterScriptExecution perform fuel) (λ _ p', remembered p') p.
Proof.
  intros Hr. unfold resumeParsingAfterScriptExecution. apply ensures_bind, ensures_ask, ensures_bind, ensures_assert. intros _. apply ensures_bind, waiting_pure. intros w _. apply ensures_bind, ensures_assert. intros _.
  apply (rest_bind _ _ _ _ Hr); [by apply kept_pumpIfPossible|]. intros _ p1 _ Hr1. by apply rest_endIfDelayed.
Qed.

(** The end of [notifyFinished] and of [executeScriptsWaitingForStylesheets]. *)
Lemma rest_goOn p : atRest p → ensures (waiting ← isWaitingForScripts; if waiting : bool then mret tt else resumeParsingAfterScriptExecution perform fuel) (λ _ p', remembered p') p.
Proof. intros Hr. apply ensures_bind, waiting_pure. intros [] Hw; [apply ensures_ret; intros _; by right; left|by apply rest_resumeAfterScript]. Qed.

Lemma rest_notify e p : atRest p → remembered p → ensures (notifyFinished perform fuel e) (λ _ p', remembered p') p.
Proof.
  intros Hr HR. unfold notifyFinished. apply ensures_bind, ensures_ask. destruct (isStopped p); [by apply ensures_ret|]. apply ensures_bind, ensures_ask, ensures_bind, ensures_assert. intros _. apply ensures_bind, ensures_ask, ensures_bind, ensures_assert. intros _. apply ensures_bind, ensures_ask.
  destruct (isStopping p) eqn:Es.
  - eapply ensures_mono; [by apply kept_attemptDeferred|]. intros [] p' Hm. apply over_remembered, (moves_over _ _ _ Hm). unfold isStopping, over in *. apply bool_decide_eq_true in Es. by rewrite Es.
  - apply (rest_bind _ _ _ _ Hr); [|intros _ p1 _ Hr1; by apply rest_goOn]. unfold executeScriptsWaitingForLoad. pose proof (kept_blockingScripts perform fuel Hperform fuel). pose proof kept_isLoaded. kept_tac.
Qed.

Lemma rest_stylesheets p : atRest p → remembered p → ensures (executeScriptsWaitingForStylesheets perform fuel) (λ _ p', remembered p') p.
Proof.
  intros Hr HR. unfold executeScriptsWaitingForStylesheets. apply ensures_bind, ensures_ask, ensures_bind, ensures_assert. intros _. apply ensures_bind. unfold ensures at 1, askRunner at 1. destruct (m_scriptRunner p) as [r|]; [|done]. destruct (m_hasScriptsWaitingForStylesheets r); cbn [negb]; [|by apply ensures_ret].
  do 8 rest_step p Hr. apply (rest_bind _ _ _ _ Hr); [by apply kept_blockingScripts|]. intros _ p1 _ Hr1. by apply rest_goOn.
Qed.

Lemma rest_timer p : atRest p → ensures (continueNextChunkTimerFired perform fuel) (λ _ p', remembered p') p.
Proof.
  intros Hr. unfold continueNextChunkTimerFired. do 5 rest_step p Hr. rename p into p1, Hr into Hr1. match goal with layout : bool |- _ => destruct layout end.
  - unfold ensures, updateScheduler. destruct (m_parserScheduler p1) as [s|]; [|done]. intros _. right; right. cbn. unfold isScheduledForResume. cbn. unfold schedulerIsScheduled. cbn. by rewrite orb_true_r.
  - unfold resumeParsingAfterYield. apply (rest_bind _ _ _ _ Hr1); [by apply kept_pump|]. intros _ p2 _ Hr2. by apply rest_endIfDelayed.
Qed.

(** The document is not asked whether the end is delayed. *)
Lemma remembered_document f p : remembered p → remembered (set_theDocument f p).
Proof.
  intros HR He. destruct (HR He) as [Ho|[Hw|Hs]]; [by left|right; left|by right; right]. unfold isWaitingForScripts, onBuilder, ask, mbind, PM_bind in *. cbn. destruct (hasParserBlockingScriptWork (m_treeBuilder p)) as [[w b]|] eqn:Ew; [|done]. apply work_pure in Ew as ->. cbn in *.
  unfold ASSERT_ in *. destruct (ASSERT_DISABLED || _); [|done]. cbn in *. by injection Hw as ->.
Qed.

Lemma rest_open p : ensures documentOpen (λ taken p', moves id p p' ∧ if taken then over p' else p' = p) p.
Proof.
  pose proof (kept_open p) as Hk. assert (Ho : ensures documentOpen (λ (taken : bool) p', if taken then over p' else p' = p) p).
  { unfold documentOpen, hasInsertionPoint. apply ensures_bind, ensures_bind. unfold ensures at 1, askStream. destruct (haveSeenEndOfFile (m_input p)); [|done]. apply ensures_ask, ensures_bind, ensures_ask. destruct (_ && _); [by apply ensures_ret|]. unfold detach. apply ensures_bind, ensures_bind, ensures_update, ensures_bind, ensures_update, ensures_bind, ensures_update, ensures_update, ensures_ret. done. }
  unfold ensures in *. by destruct (documentOpen p).
Qed.

Lemma rest_write characters p : atRest p → remembered p → ensures (documentWrite perform fuel characters) (λ _ p', remembered p') p.
Proof.
  intros Hr HR. unfold documentWrite. apply ensures_bind, ensures_ask. destruct (bool_decide _); [by apply ensures_ret|]. apply ensures_bind, ensures_update. match goal with |- ensures _ _ ?q => set (p1 := q) end.
  assert (HR1 : remembered p1) by (by apply remembered_document). assert (Hr1 : atRest p1) by exact Hr. clearbody p1. apply ensures_bind. eapply (ensures_mono _ (λ _ p', remembered p')); [|intros [] p2 HR2; apply ensures_update; by apply remembered_document].
  unfold writeUnlessTooDeep. apply ensures_bind, ensures_ask. destruct ((m_writeRecursionIsTooDeep ∘ theDocument) p1); [by apply ensures_ret|]. apply ensures_bind, ensures_ask. destruct (isDetached p1); [by apply ensures_ret|]. apply ensures_bind. unfold hasInsertionPoint. apply ensures_bind. unfold ensures at 1, askStream. destruct (haveSeenEndOfFile (m_input p1)) as [seen|]; [|done]. apply ensures_ask, ensures_bind, ensures_ask.
  match goal with |- ensures (if ?c then _ else _) _ _ => destruct c end; [by apply ensures_ret|]. apply ensures_bind. destruct (negb _).
  - eapply ensures_mono; [apply rest_open|]. intros [] p2 [_ Ho]; [by apply ensures_ret, over_remembered|]. subst p2. by apply rest_insert.
  - apply ensures_ret. by apply rest_insert.
Qed.

Lemma stop_over p : ensures stopParsing (λ _ p', over p') p.
Proof. unfold stopParsing. by apply ensures_bind, ensures_update, ensures_update. Qed.

Lemma rest_act a p : atRest p → remembered p → ensures (act perform fuel a) (λ _ p', remembered p') p.
Proof.
  intros Hr HR. destruct a as [characters| | | | |characters| |loaded|task]; cbn [act].
  - by apply rest_write.
  - unfold openForBindings. apply ensures_bind, ensures_ask, ensures_bind, ensures_ask. destruct (_ || _); [by apply ensures_ret|]. apply ensures_bind. eapply ensures_mono; [apply rest_open|]. intros [] p' [_ Ho]; apply ensures_ret; [by apply over_remembered|by subst].
  - apply ensures_bind, ensures_ask. destruct (isDetached p); [by apply ensures_ret|]. unfold stopLoading. apply (rest_bind _ _ _ _ Hr); [apply kept_stop|]. intros _ p1 _ Hr1. eapply ensures_mono; [by apply rest_finish|]. by intros [] p' [? _].
  - unfold removeFrame. apply ensures_bind, ensures_ask, ensures_bind. destruct (isDetached p) eqn:Ed; [apply ensures_ret, ensures_update, remembered_document; done|]. eapply ensures_mono; [apply stop_over|]. intros [] p' Ho. apply ensures_update, over_remembered. exact Ho.
  - apply ensures_update. by apply remembered_document.
  - apply ensures_bind, ensures_ask. destruct (isDetached p); [by apply ensures_ret|by apply rest_appendDecoded].
  - apply ensures_bind, ensures_ask. destruct (isDetached p); [by apply ensures_ret|]. eapply ensures_mono; [by apply rest_finish|]. by intros [] p' [? _].
  - apply ensures_update. by apply remembered_document.
  - apply ensures_update. by apply remembered_document.
Qed.

Lemma rest_actAll actions p : atRest p → remembered p → ensures (actAll perform fuel actions) (λ _ p', remembered p') p.
Proof.
  revert p. induction actions as [|a actions IH]; intros p Hr HR; cbn [actAll]; [by apply ensures_ret|]. apply ensures_bind. pose proof (kept_act perform fuel Hperform a p) as Hk. pose proof (rest_act a p Hr HR) as HR'. unfold ensures in *. destruct (act perform fuel a p) as [u p1|]; [|done]. apply IH; [exact (rest_moves p p1 Hk Hr)|done].
Qed.

End Reentrant.
(** ** One event *)

Lemma scheduler_remembered f p : (∀ s, schedulerIsScheduled s = true → schedulerIsScheduled (f s) = true) → remembered p → ensures (updateScheduler f) (λ _ p', remembered p') p.
Proof.
  intros Hf HR. unfold ensures, updateScheduler. destruct (m_parserScheduler p) as [s|] eqn:Es; [|done]. intros He. destruct (HR He) as [Ho|[Hw|Hs]]; [by left|right; left|right; right].
  - unfold isWaitingForScripts, onBuilder, ask, mbind, PM_bind in *. cbn. destruct (hasParserBlockingScriptWork (m_treeBuilder p)) as [[w b]|] eqn:Ew; [|done]. apply work_pure in Ew as ->. cbn in *. unfold ASSERT_ in *. destruct (ASSERT_DISABLED || _); [|done]. cbn in *. by injection Hw as ->.
  - unfold isScheduledForResume in *. rewrite Es in Hs. cbn. by apply Hf.
Qed.

Lemma rest_same {A B} (m : PM A) (k : A → PM B) (Q : B → HTMLDocumentParser → Prop) p : ensures m (λ _ p', p' = p) p → (∀ a, ensures (k a) Q p) → ensures (m ≫= k) Q p.
Proof. intros Hm Hk. apply ensures_bind. eapply ensures_mono; [exact Hm|]. intros a p' ->. apply Hk. Qed.
Lemma askScheduler_same {A} (f : HTMLParserScheduler → A) p : ensures (askScheduler f) (λ _ p', p' = p) p.
Proof. unfold ensures, askScheduler. by destruct (m_parserScheduler p). Qed.

Lemma rest_suspend p : remembered p → ensures suspend (λ _ p', remembered p') p.
Proof.
  intros HR. unfold suspend. apply rest_same; [apply askScheduler_same|]. intros suspended. apply ensures_bind, ensures_assert. intros _. apply rest_same; [apply askScheduler_same|]. intros held. apply ensures_bind, ensures_assert. intros _. apply scheduler_remembered; [|done].
  intros s. unfold schedulerIsScheduled. destruct (m_continueNextChunkTimer s); cbn; [done|]. by rewrite !orb_false_r.
Qed.
Lemma rest_resume p : remembered p → ensures resume (λ _ p', remembered p') p.
Proof.
  intros HR. unfold resume. apply rest_same; [apply askScheduler_same|]. intros suspended. apply ensures_bind, ensures_assert. intros _. apply rest_same; [apply askScheduler_same|]. intros held. apply ensures_bind, ensures_assert. intros _. apply scheduler_remembered; [|done].
  intros s. unfold schedulerIsScheduled. by destruct (m_isSuspendedWithActiveTimer s).
Qed.
Lemma rest_beginYielding p : remembered p → ensures didBeginYieldingParser (λ _ p', remembered p') p.
Proof.
  intros HR. unfold didBeginYieldingParser. apply rest_same; [apply askScheduler_same|]. intros yielding. apply ensures_bind, ensures_assert. intros _. apply scheduler_remembered; [|done]. intros s _. unfold schedulerIsScheduled. cbn. by rewrite orb_true_r.
Qed.
(** Afterwards the parser is scheduled. *)
Lemma rest_endYielding p : ensures didEndYieldingParser (λ _ p', remembered p') p.
Proof.
  unfold didEndYieldingParser. apply rest_same; [apply askScheduler_same|]. intros yielding. apply ensures_bind, ensures_assert. intros _. apply ensures_bind. unfold ensures at 1, updateScheduler. destruct (m_parserScheduler p) as [s|]; [|done]. apply ensures_bind. unfold ensures at 1, askScheduler. cbn.
  destruct (schedulerIsScheduled _) eqn:Es; [apply ensures_ret; intros _; right; right; exact Es|]. unfold scheduleForResume. apply rest_same; [apply askScheduler_same|]. intros suspended. apply ensures_bind, ensures_assert. intros _. unfold ensures, updateScheduler. cbn. intros _. right; right. unfold isScheduledForResume. cbn. unfold schedulerIsScheduled. cbn. by rewrite orb_true_r.
Qed.

Lemma rest_handle depth fuel event p : atRest p → remembered p → ensures (handle depth fuel event) (λ _ p', remembered p') p.
Proof.
  intros Hr HR. unfold handle. cbv zeta. pose proof (kept_perform depth fuel) as Hp. apply ensures_bind, ensures_ask. destruct (isDetached p); [by apply ensures_ret|]. destruct event as [characters| | |e| | | | | |actions].
  - by apply rest_appendDecoded.
  - eapply ensures_mono; [by apply rest_finish|]. by intros [] p' [? _].
  - apply ensures_bind, ensures_ask. match goal with |- ensures (if ?c then _ else _) _ _ => destruct c end; [by apply rest_timer|by apply ensures_ret].
  - apply ensures_bind, ensures_update, ensures_bind, ensures_ask. destruct (isWatched _ _); [apply rest_notify; [done|exact Hr|by apply remembered_document]|apply ensures_ret; by apply remembered_document].
  - apply ensures_bind, ensures_ask. match goal with |- ensures (if ?c then _ else _) _ _ => destruct c end; [by apply rest_stylesheets|by apply ensures_ret].
  - apply ensures_bind, ensures_ask. destruct (m_parserScheduler p); [by apply rest_suspend|by apply ensures_ret].
  - apply ensures_bind, ensures_ask. destruct (m_parserScheduler p); [by apply rest_resume|by apply ensures_ret].
  - by apply rest_beginYielding.
  - apply rest_endYielding.
  - destruct depth as [|depth]; [done|]. cbn [performAt]. apply rest_actAll; [apply kept_perform|done..].
Qed.

Lemma rest_handleAll depth fuel events p : atRest p → remembered p → ensures (handleAll depth fuel events) (λ _ p', atRest p' ∧ remembered p' ∧ (ending p → ending p')) p.
Proof.
  revert p. induction events as [|event events IH]; intros p Hr HR; cbn [handleAll]; [by apply ensures_ret|]. apply ensures_bind. pose proof (kept_handle depth fuel event p) as Hk. pose proof (rest_handle depth fuel event p Hr HR) as HR'. unfold ensures in Hk, HR'. unfold ensures at 1. destruct (handle depth fuel event p) as [u p1|]; [|done].
  eapply ensures_mono; [apply IH; [exact (rest_moves p p1 Hk Hr)|done]|]. intros [] p2 (? & ? & He). split_and!; [done..|]. intros Hp. apply He, (moves_ending _ _ _ Hk), Hp.
Qed.

Lemma handleAll_app depth fuel es1 es2 p : handleAll depth fuel (es1 ++ es2) p = (handleAll depth fuel es1;; handleAll depth fuel es2) p.
Proof. revert p. induction es1 as [|e es1 IH]; intros p; [done|]. cbn [app handleAll]. unfold mbind, PM_bind in *. by destruct (handle depth fuel e p). Qed.

Lemma network_ends depth fuel p : atRest p → remembered p → ensures (handle depth fuel NetworkDone) (λ _ p', ending p') p.
Proof.
  intros Hr HR. unfold handle. cbv zeta. apply ensures_bind, ensures_ask. destruct (isDetached p) eqn:Ed; [apply ensures_ret; left; by apply detached_over|]. eapply ensures_mono; [apply rest_finish; [apply kept_perform|done]|]. by intros [] p' [_ ?].
Qed.

Lemma waiting_spec p : isWaitingForScripts p =
  match hasParserBlockingScriptWork (m_treeBuilder p) with
  | Some (w, _) =>
      let r := match m_scriptRunner p with Some r => hasParserBlockingScript r | None => false end in
      if ASSERT_DISABLED || negb (w && r) then Done (w || r) p else Failed AssertionFails
  | None => Failed ConstructionFails
  end.
Proof.
  unfold isWaitingForScripts, onBuilder, ask, mbind, PM_bind. destruct (hasParserBlockingScriptWork (m_treeBuilder p)) as [[w b]|] eqn:Ew; [|done]. apply work_pure in Ew as ->. rewrite builder_same. unfold ASSERT_. by destruct (ASSERT_DISABLED || _).
Qed.

(** Only the tree builder and the script runner know whether the parser waits. *)
Lemma waiting_same p p' : m_treeBuilder p' = m_treeBuilder p → m_scriptRunner p' = m_scriptRunner p → isWaitingForScripts p = Done true p → isWaitingForScripts p' = Done true p'.
Proof.
  intros Eb Er. rewrite !waiting_spec, Eb, Er. destruct (hasParserBlockingScriptWork _) as [[w b]|]; [|done]. cbv zeta. destruct (ASSERT_DISABLED || _); [|done]. by intros [= ->].
Qed.

(** A parser that waits does not end. *)
Lemma waiting_endIfDelayed perform fuel p : isWaitingForScripts p = Done true p → isDetached p = false → endIfDelayed perform fuel p = Done tt p.
Proof.
  intros Hw Hd. unfold endIfDelayed, shouldDelayEnd, ask, mbind, PM_bind. rewrite Hd. destruct (m_endWasDelayed p); [|done]. cbn [negb]. destruct (inPumpSession p); [done|]. by rewrite Hw.
Qed.

(** ** The theorems *)

(** C5: Whatever the events, the scripts and their nested calls of the parser, when the parser
    returns the levels of pumping and of scripts, the insertion points, the depth of writes, the counts that forbid
    writes, and the active parsers of the document are what they were. *)
Theorem calls_balanced depth fuel events p p' : handleAll depth fuel events p = Done tt p' → counters p' = counters p.
Proof.
  revert p. induction events as [|event events IH]; intros p E; cbn [handleAll] in E; [by injection E as <-|]. pose proof (kept_handle depth fuel event p) as Hk. unfold ensures, mbind, PM_bind in *. destruct (handle depth fuel event p) as [u p1|]; [|done]. rewrite (IH p1 E). exact (moves_counters _ _ _ Hk).
Qed.

(** C4: The end of a document is not forgotten (an invariant of the runs that return: a run that fails, or exceeds the
    fuel, is not covered). From a parser at rest, when the network is done at some point of a sequence of events, then after the sequence, whatever else is in it, the
    parser is past parsing, or the end is marked as delayed and the parser waits for a script or is scheduled to resume. It is never left with the
    end forgotten, or delayed for no reason. *)
Theorem end_not_forgotten depth fuel es1 es2 p p' :
  atRest p → remembered p → handleAll depth fuel (es1 ++ NetworkDone :: es2) p = Done tt p' → over p' ∨ m_endWasDelayed p' = true ∧ delays p'.
Proof.
  intros Hr HR E. rewrite handleAll_app in E. pose proof (rest_handleAll depth fuel es1 p Hr HR) as K1. unfold mbind, PM_bind, ensures in *. destruct (handleAll depth fuel es1 p) as [[] p1|]; [|done]. destruct K1 as (Hr1 & HR1 & _). cbn [handleAll] in E. unfold mbind, PM_bind in E.
  pose proof (network_ends depth fuel p1 Hr1 HR1) as He. pose proof (kept_handle depth fuel NetworkDone p1) as Hk. pose proof (rest_handle depth fuel NetworkDone p1 Hr1 HR1) as HR2. unfold ensures in *. destruct (handle depth fuel NetworkDone p1) as [[] p2|]; [|done].
  pose proof (rest_handleAll depth fuel es2 p2 (rest_moves _ _ Hk Hr1) HR2) as K2. unfold ensures in K2. rewrite E in K2. destruct K2 as (_ & HR3 & Hend). destruct (Hend He) as [Ho|Hd]; [by left|]. destruct (HR3 Hd) as [Ho|Hdel]; [by left|by right].
Qed.

(** *** Reading ahead while a script blocks *)

Context `{laws : !HTMLEntityTableLaws}.

(** The preload scanner, if there is one, can take [n] characters: it reads what [w] reads, in a release build. *)
Definition scannerTakes (n : nat) (p : HTMLDocumentParser) (w : World LSource) : Prop :=
  match m_preloadScanner p with
  | Some scanner => ASSERT_DISABLED = true ∧ reads scanner w ∧ l_closed (w_src w) = false ∧ room n (w_src w)
  | None => True
  end.
(** The scanner has been given the characters and has scanned as much of its text as there is. *)
Definition scannedOn (characters : list Z) (before after : option HTMLPreloadScanner) (w : World LSource) : Prop :=
  match before, after with
  | Some scanner, Some scanner' =>
      let text := mkWorld (w_tok w) (l_append characters (w_src w)) in
      ∃ l1 l2 w2, m_scanned scanner' = m_scanned scanner ++ l1 ∧ scanTokens (scanFuel (w_src text)) text = Some (l2, w2) ∧
        Forall emittedOk l1 ∧ Forall2 sameToken l1 l2 ∧ reads scanner' w2 ∧ (l_chars (w_src w2) = [] ∨ lookingAhead (m_state (w_tok w2)) = true)
  | None, None => True
  | _, _ => False
  end.

Lemma waiting_scans characters p w :
  isWaitingForScripts p = Done true p → m_document p = true → Z.of_nat (length characters) < 2 ^ 32 → Forall isUChar characters → scannerTakes (length characters) p w →
  ∃ o, appendToScanner characters p = Done tt (set_preloadScanner o p) ∧ scannedOn characters (m_preloadScanner p) o w.
Proof using laws.
  intros Hw Hd Hl Hu Ht. unfold appendToScanner, hasPreloadScanner. unfold mbind at 1, PM_bind at 1, ask at 1. unfold scannerTakes in Ht. destruct (m_preloadScanner p) as [scanner|] eqn:Es; cbn [negb]; [|exists None; split; [|done]; unfold mret, PM_ret; f_equal; rewrite <-Es; by destruct p].
  destruct Ht as (release & Hr & Hc & Hroom). destruct (of_ok (builderString characters)) as (x & Ex & Hx & Ec & _); [exact Hl|]. cbn in Ec. rewrite <-Ec in Hu, Hroom.
  destruct (appendToEnd_reads release x scanner w Hr Hc Hx Hu Hroom) as (scanner1 & E1 & Em & Hr1). destruct (scan_reads release _ _ Hr1) as (scanner2 & l1 & l2 & w2 & E2 & Hl1 & Hl2 & Hok & Hsame & Hr2 & Hend).
  exists (Some scanner2). split; [|rewrite Em in Hl1; rewrite Ec in Hl2; by exists l1, l2, w2].
  unfold mbind at 1, PM_bind at 1, ask at 1. unfold mbind at 1, PM_bind at 1. assert (Hb : ∀ b : bool, (if b then isWaitingForScripts else mret true) p = Done true p) by (by intros []). rewrite Hb, andb_false_r.
  unfold mbind at 1, PM_bind at 1, onScanner at 1. rewrite Es, Ex. cbn [mbind option_bind]. rewrite E1. set (p1 := set_preloadScanner (Some scanner1) p). unfold mbind at 1, PM_bind at 1. rewrite (waiting_same p p1) by done.
  assert (Ed : documentPointer p1 = Done tt p1) by (unfold documentPointer, ASSERT_, mbind, PM_bind, ask; change (m_document p1) with (m_document p); by rewrite Hd, orb_true_r).
  unfold scanAhead, mbind, PM_bind. rewrite Ed. unfold onScanner. change (m_preloadScanner p1) with (Some scanner1). cbv beta iota. by rewrite E2.
Qed.

(** C6: While the parser waits for a script, text from the network is taken without failing: it goes to the end of the document's
    rest and, in a release build, to the preload scanner, if there is one, which scans it at once, hands on well-formed tokens, those of the
    text it was given, and stops where its text ends or in a look-ahead. Nothing else of the parser changes: its own tokenizer reads nothing, the tree stays, and the
    end is not reached. The text is UTF-16, less than [2 ^ 32] characters with what the scanner was given before; a debug build is covered as long as no scanner is there. *)
Theorem blocked_parser_waits depth fuel characters ts t p w :
  isStopped p = false → m_document p = true → isWaitingForScripts p = Done true p → characters ≠ [] → Z.of_nat (length characters) < 2 ^ 32 → Forall isUChar characters →
  HTMLInputStream.represents (m_input p) (ts ++ [t]) false → scannerTakes (length characters) p w →
  ∃ s o, handle depth fuel (Data characters) p = Done tt (set_input s (set_preloadScanner o p)) ∧ HTMLInputStream.represents s (ts ++ [t ++ characters]) false ∧ scannedOn characters (m_preloadScanner p) o w.
Proof using laws.
  intros Hs Hdoc Hw Hn Hl Hu Hrep Ht. assert (Hd : isDetached p = false) by (apply bool_decide_eq_false_2; intros E; apply bool_decide_eq_false_1 in Hs; auto).
  destruct (waiting_scans characters p w Hw Hdoc Hl Hu Ht) as (o & Eo & Ho). set (p1 := set_preloadScanner o p) in Eo.
  destruct (of_ok (builderString characters)) as (x & Ex & Hx & Ec & _); [exact Hl|]. destruct (streamStep_ok (AppendToEnd x) (ts ++ [t]) false (ts ++ [t ++ characters]) false (m_input p) Hx Hrep) as (s & Es & Hs').
  { cbn [textStep]. rewrite last_snoc, length_app, Nat.add_sub, take_app_length, Ec. done. }
  cbn [streamStep] in Es. exists s, o. split; [|done]. unfold handle, appendDecoded, append. cbv zeta. unfold mbind at 1, PM_bind at 1, ask at 1. rewrite Hd. rewrite bool_decide_eq_false_2 by done. unfold mbind at 1, PM_bind at 1, ask at 1. rewrite Hs. unfold mbind at 1, PM_bind at 1. rewrite Eo.
  unfold mbind at 1, PM_bind at 1, onStream at 1. rewrite Ex. cbn [mbind option_bind]. change (m_input p1) with (m_input p). rewrite Es. fold p1.
  unfold mbind at 1, PM_bind at 1, ask at 1. destruct (inPumpSession _); [done|]. unfold mbind at 1, PM_bind at 1, pumpTokenizerIfPossible. unfold mbind at 1, PM_bind at 1, ask at 1. change (isStopped (set_input s p1)) with (isStopped p). rewrite Hs.
  unfold mbind at 1, PM_bind at 1. rewrite (waiting_same p (set_input s p1)) by done. apply waiting_endIfDelayed; [by apply (waiting_same p)|done].
Qed.

End Events.

(** ** Pages *)

(** A page by its scripts, without custom elements and without listeners of the document. *)
Definition pageOf (scripts : positive → ScriptElement) : Page :=
  {| scriptOf := scripts; constructElementWithFallback _ := (mkNode 1 None, []); interactiveListeners := []; contentLoadedListeners := []; m_parserTimeLimit := 1000 |}.
Definition inline (actions : list Action) : ScriptElement := mkScript Inline true [] false actions [].
Definition external (actions : list Action) : ScriptElement := mkScript External true [] true actions [].

(** A document in a frame, with nothing loaded. *)
Definition freshDocument : Document := mkDocument true false true false false 0 0 0 false 0 [] 0 false [] false [].
Definition freshParser : HTMLDocumentParser := newParser (@newBuilder exampleBuilder (@emptySite exampleParser)) freshDocument.
Definition releaseBuild : Build := {| ASSERT_DISABLED := true |}.
Definition run (build : Build) (page : Page) (events : list ParserEvent) : Outcome unit := @handleAll build quiet exampleParser exampleBuilder theEntityTable page 30 1000 events freshParser.

(** The state, how often the document was finished, and the tree. *)
Definition view (o : Outcome unit) : Failure + ParserState * nat * list Shape :=
  match o with
  | Failed f => inl f
  | Done _ p => let site := m_tree (m_treeBuilder p) in inr (m_parserState p, timesFinished (theDocument p), shape 30 site <$> childList (SiteInvariant.doc site) 1)
  end.

(** The first script writes a script that writes text, and text behind it; the last one is loaded later. *)
Definition writingPage : Page := pageOf (λ e, match e with
  | 5%positive => inline [Write (text "<script>2</script>w")]
  | 7%positive => inline [Write (text "v")]
  | _ => external [Write (text "u")]
  end).
Definition writingSource : list Z := text "<body><script>1</script>t<script src=x></script>s".

(** What scripts write comes where they are, and the parser waits for the script that is loaded. *)
Example scripts_write_in_place :
  view (run debugBuild writingPage [Data writingSource; NetworkDone]) = inr (ParsingState, 0%nat, [Tag "html" [Tag "head" []; Tag "body" [Tag "script" [Chars (text "1")]; Tag "script" [Chars (text "2")]; Chars (text "vwt"); Tag "script" []]]]).
Proof. vm_compute. reflexivity. Qed.
Example loaded_script_writes :
  view (run debugBuild writingPage [Data writingSource; NetworkDone; ScriptLoaded 10]) = inr (StoppingState, 1%nat, [Tag "html" [Tag "head" []; Tag "body" [Tag "script" [Chars (text "1")]; Tag "script" [Chars (text "2")]; Chars (text "vwt"); Tag "script" []; Chars (text "us")]]]).
Proof. vm_compute. reflexivity. Qed.

(** ** Failures *)

(** A script writes a script that writes one to be loaded, removes the frame and opens the document. *)
Definition openingPage : Page := pageOf (λ e, match e with
  | 5%positive => inline [Write (text "<script>2</script>")]
  | 7%positive => inline [Write (text "<script src=x></script>"); RemoveFrame; Open]
  | _ => external []
  end).

(** A page can make [insert] use the document of a parser that is detached: a script that was
    written leaves a script to wait for, removes its frame and opens the document, which detaches the parser. Back in the outer [insert]
    the parser waits for scripts, so that the preload scanner is made with the address of [document()], a null pointer. *)
Theorem open_in_written_script_crashes :
  run releaseBuild openingPage [Data (text "<body><script>1</script>b")] = Failed NullPointer ∧ run debugBuild openingPage [Data (text "<body><script>1</script>b")] = Failed AssertionFails.
Proof. split; vm_compute; reflexivity. Qed.

(** Before the first script is loaded, a listener writes a second one. *)
Definition listeningPage : Page := pageOf (λ e, match e with
  | 5%positive => mkScript External true [Write (text "<script src=y></script>")] true [Write (text "5")] []
  | _ => external [Write (text "6")]
  end).
Definition listeningSource : list Z := text "<body><script src=x></script>b".

(** A script that a listener of [beforeload] writes is lost when it has to be loaded:
    [requestParsingBlockingScript] puts the outer script in its place, against its own assertion. The document is finished without the
    text that the lost script would write, in whatever order the two are loaded. *)
Theorem beforeload_script_lost :
  let page := [Tag "html" [Tag "head" []; Tag "body" [Tag "script" []; Tag "script" []; Chars (text "5b")]]] in
  run debugBuild listeningPage [Data listeningSource; NetworkDone] = Failed AssertionFails ∧
  view (run releaseBuild listeningPage [Data listeningSource; NetworkDone; ScriptLoaded 5; ScriptLoaded 6]) = inr (StoppingState, 1%nat, page) ∧
  view (run releaseBuild listeningPage [Data listeningSource; NetworkDone; ScriptLoaded 6; ScriptLoaded 5]) = inr (StoppingState, 1%nat, page).
Proof. split_and!; vm_compute; reflexivity. Qed.

(** A parser whose timer is active can be told to yield: the assertion of [pumpTokenizer] that the
    parser is not scheduled fails when the timer fires, and without assertions the parser starts the timer again at once, as long as it has to yield. *)
Theorem timer_fires_while_yielding :
  let events := [BeginYielding; Data (text "<body>b"); EndYielding; BeginYielding; TimerFired] in
  run debugBuild writingPage events = Failed AssertionFails ∧
  match run releaseBuild writingPage events with Done _ p => (m_continueNextChunkTimer <$> m_parserScheduler p) = Some true ∧ (HTMLInputStream.texts (m_input p)) = [text "<body>b"] | Failed _ => False end.
Proof. split; vm_compute; [reflexivity|split; reflexivity]. Qed.

(** ** Witnesses *)

(** The parser after the written scripts, which waits for the one that is loaded. *)
Definition waitingParser : HTMLDocumentParser := match run releaseBuild writingPage [Data writingSource] with Done _ p => p | Failed _ => freshParser end.

Definition returns (o : Outcome unit) : bool := match o with Done _ _ => true | Failed _ => false end.
#[local] Abbreviation runPage events := (@handleAll debugBuild quiet exampleParser exampleBuilder theEntityTable writingPage 30 1000 events freshParser).

Lemma calls_balanced_witness : match runPage [Data writingSource; NetworkDone; ScriptLoaded 10] with Done _ p => counters p = counters freshParser | Failed _ => False end.
Proof.
  assert (K : returns (runPage [Data writingSource; NetworkDone; ScriptLoaded 10]) = true) by (vm_compute; reflexivity).
  destruct (runPage _) as [[] p|f] eqn:E; [exact (@calls_balanced debugBuild quiet exampleParser exampleBuilder theEntityTable writingPage 30 1000 _ freshParser p E)|discriminate K].
Defined.

Lemma end_not_forgotten_witness : match runPage ([Data writingSource] ++ [NetworkDone]) with Done _ p => over p ∨ m_endWasDelayed p = true ∧ @delays debugBuild p | Failed _ => False end.
Proof.
  assert (K : returns (runPage ([Data writingSource] ++ [NetworkDone])) = true) by (vm_compute; reflexivity).
  destruct (runPage _) as [[] p|f] eqn:E; [clear K|discriminate K].
  apply (@end_not_forgotten debugBuild quiet exampleParser exampleBuilder theEntityTable writingPage 30 1000 [Data writingSource] [] freshParser p); [exact (conj eq_refl eq_refl)|intros K; exfalso; change (false = true) in K; discriminate K|exact E].
Defined.

Definition waitingInput : HTMLInputStream := Eval vm_compute in m_input waitingParser.
Lemma waiting_represents : HTMLInputStream.represents (m_input waitingParser) [text "s"] false.
Proof.
  assert (E : m_input waitingParser = waitingInput) by (vm_compute; reflexivity). rewrite E. split; [vm_compute; reflexivity| |constructor|vm_compute; reflexivity|reflexivity].
  split; [split; [split; vm_compute; discriminate|split; [vm_compute; reflexivity|intros _; split; vm_compute; reflexivity]]|split; [constructor|split; [intros _; reflexivity|split; [vm_compute; reflexivity|split; [reflexivity|split; reflexivity]]]]].
Qed.

(** Its scanner, made when it began to wait, has read the rest of the document. *)
Definition waitingScanner : option HTMLPreloadScanner := Eval vm_compute in m_preloadScanner waitingParser.
Definition scannerTokenizer : HTMLTokenizer := Eval vm_compute in match waitingScanner with Some scanner => ps_tokenizer scanner | None => newTokenizer sampleOptions end.
Definition scannerWorld : World LSource := mkWorld scannerTokenizer (mkLSource [] 1 false).
Lemma waiting_scanner : m_preloadScanner waitingParser = waitingScanner.
Proof. vm_compute. reflexivity. Qed.
Lemma waiting_takes : @scannerTakes releaseBuild 1 waitingParser scannerWorld.
Proof.
  unfold scannerTakes. rewrite waiting_scanner. split; [reflexivity|]. split; [|split; reflexivity]. split.
  - constructor; [reflexivity|]. split; [|split; [reflexivity|split; [reflexivity|split; [discriminate|reflexivity]]]].
    split; [split; [split; vm_compute; discriminate|split; [vm_compute; reflexivity|intros K; vm_compute in K; discriminate K]]|split; [constructor|split; [intros _; reflexivity|split; [vm_compute; reflexivity|split; [reflexivity|split; reflexivity]]]]].
  - constructor; [constructor; [constructor|discriminate|by left]|discriminate|discriminate|]. left. exists 0. split; [|discriminate]. constructor; try done. by left.
Qed.

Lemma blocked_parser_waits_witness : ∃ s o, @handle releaseBuild quiet exampleParser exampleBuilder theEntityTable writingPage 30 1000 (Data (text "r")) waitingParser = Done tt (set_input s (set_preloadScanner o waitingParser)) ∧
  HTMLInputStream.represents s [text "sr"] false ∧ @scannedOn releaseBuild theEntityTable (text "r") (m_preloadScanner waitingParser) o scannerWorld.
Proof.
  apply (@blocked_parser_waits releaseBuild quiet exampleParser exampleBuilder theEntityTable writingPage _ 30 1000 (text "r") [] (text "s") waitingParser scannerWorld);
    [vm_compute; reflexivity|vm_compute; reflexivity|vm_compute; reflexivity|discriminate|reflexivity|repeat constructor; by vm_compute|exact waiting_represents|exact waiting_takes].
Defined.
